(* ===== verification/_CoqProject ===== *)
-Q . S2P
Prelude.v
State.v
Bitmap.v
Strings.v
Block.v
Cache.v
FreeMap.v
WalRecord.v
Wal.v
WalProofs.v
WalTxn.v
WalRecovery.v
Inode.v
InodeProofs.v
Volume.v
File.v
FileProofs.v
Directory.v
DirProofs.v
Filesys.v
FsDemo.v
KList.v
KListProofs.v
KListSort.v
FixedPoint.v
ThreadState.v
Thread.v
ThreadProofs.v
Synch.v
SynchProofs.v
SynchSched.v
SynchRw.v
SynchDemo.v
Donation.v
Scheduler.v
Sort.v
Random.v
Stdio.v
Ustar.v
Checksum.v
Pbuf.v
Netdev.v
Arp.v
Route.v
Ip.v
IpProofs.v
Udp.v
NetDemo.v
IpText.v
Arith64.v
Hash.v
HashProofs.v
Palloc.v
Malloc.v
MallocProofs.v
Pagedir.v
PagedirProofs.v
Swap.v
FileOps.v
Filedesc.v
FiledescProofs.v
VmState.v
Frame.v
Page.v
Vm.v
Mmap.v
Loader.v
Process.v
ProcessProofs.v
ProcessSafety.v
VmInv.v
VmSteps.v
VmEvict.v
VmFault.v
VmUser.v
MmapProofs.v
LoaderProofs.v
StackProofs.v
VmDemo.v
Disks.v
