(* ===== verification/Prelude.v ===== *)
(** * MaverickOS: a verification library

    MaverickOS is a teaching kernel (a descendant of Pintos) for one i386 processor, with
    kernel threads, a journalled file system, a page and a block allocator, processes with
    virtual memory and a network stack.  This library models the parts of it that have an
    algorithm of their own, as functions of the C code, and proves what the rest of the
    kernel relies on.  File names are relative to [src/] of the repository; each file of
    the library opens with the C files it models, and its definitions have the names of
    the C functions.

    ** How code is modelled

    A C function is a function on an explicit state with the outcomes of [outcome] below:
    it returns, panics (a failed [ASSERT] included), has undefined behaviour (an access
    outside an object, signed overflow), or sleeps.  Machine integers are [Z] with their
    wrap-around written out ([u8], [u16], [u32]); bytes are [Z] between 0 and 255, memory
    is lists or finite maps of bytes.  A few counters are unbounded instead, because no run of
    the machine reaches their width: virtual run times and the eligibility threshold of the
    fair schedulers ([int64_t], which grow with the time a thread has run), reference counts
    of open files and descriptions ([int], each reference is an object in a 32-bit address
    space), and open counts of inodes.  What the caller of [malloc] gets (a block or null)
    is an argument or an oracle of the state, so that every failure path is covered.  A
    lock of code that is modelled on one thread has no effect and is left out; the
    interleavings of threads are the subject of [Synch].  Later components are written in
    the state and error monad of [State].

    Loops whose length is not structural take fuel.  The fuel is computed from the state
    (the number of cells of a list, of slots, of sectors, of bytes), and the theorems state
    that the operation returns; where the code can loop for ever, a theorem says so.

    ** Storage

    - [Bitmap]: [lib/kernel/bitmap.c] on packed words; [bm_abs] is the array of bits.
    - [Strings]: [lib/string.c] on objects of bytes.
    - [Block]: [devices/block.c].  [Cache]: the buffer cache of [filesys/cache.c] and
      [cache_prefetch.c] over a block device; its theorems refine every access to the
      disk of sectors ([view]) that the cache and the device represent together, through
      eviction, write-back and flushing.
    - [FreeMap]: [filesys/free-map.c] over [Bitmap].
    - [WalRecord], [Wal]: the log of [filesys/wal.c], its records, checksum and manager,
      over the cache and the device.  [WalProofs] relates the manager to the history of
      appended records.  [WalTxn] shows what commit and abort do with a transaction whose
      records fit in the log of 64 sectors, and that a longer one is not undone;
      [WalRecovery] that recovery after a crash leaves exactly the effect of the committed
      transactions when the log has not wrapped, and a wrapped log on which it does not.
    - [Inode], [InodeProofs]: [filesys/inode.c] against the class [Store] of what it calls;
      [Volume] is the instance in which sectors go through the cache, log records through
      the manager and allocation through the free map, as the kernel puts them together; it
      keeps the promises of [InodeProofs] ([SectorLaws] for sectors and the log, [AllocLaws]
      for allocation) while the free map writes itself into a file of the same volume.
    - [File], [FileProofs], [Directory], [DirProofs]: open files and directories over
      inodes; adding an entry is proved up to the appending of a direct block.  [Filesys]:
      path resolution and the file system calls.  [FsDemo]: their theorems at a concrete
      volume.
    - [Disks]: the disk arrays of [devices/raid.c], which are one disk at every level, and
      the partition tables of [devices/partition.c].

    ** Threads

    - [KList], [KListProofs], [KListSort]: the intrusive lists of [lib/kernel/list.c] on
      linked cells, refined by operations on lists; the merge sort returns, sorts and is stable.
    - [FixedPoint]: [threads/fixed-point.h].
    - [ThreadState], [Thread], [ThreadProofs], [Scheduler]: [threads/thread.c] and the tick
      handler of [devices/timer.c]: five scheduling policies, the queues' invariant, what
      each policy promises, the alarm clock.
    - [Synch]: semaphores, locks with priority donation, condition variables and
      readers-writers locks of [threads/synch.c] as control points of threads that
      interleave; [reachable] is the set of states any interleaving leads to.
      [SynchProofs] and [SynchSched] prove mutual exclusion and that no thread is lost,
      [SynchRw] that writers are alone, [Donation] what donation does to priorities,
      [SynchDemo] evaluates runs.

    ** Memory and library

    - [Palloc]: [threads/palloc.c] over [Bitmap]; it is an instance of the class
      [PageAlloc], against which [Malloc] and [MallocProofs] ([threads/malloc.c]) are
      proved: live blocks never overlap and keep their contents.
    - [Hash], [HashProofs]: [lib/kernel/hash.c], a finite map through every resizing.
    - [Arith64]: 64-bit division of [lib/arithmetic.c].  [Sort]: heapsort and search of
      [lib/stdlib.c].  [Random]: RC4 of [lib/random.c].  [Stdio]: the formatting engine of
      [lib/stdio.c].  [Ustar]: [lib/ustar.c], whose header fields are printed by [Stdio].

    ** Virtual memory and processes

    - [Pagedir]: [userprog/pagedir.c] and [arch/i386/pte.h], two-level page tables as words in
      simulated memory; [PagedirProofs] shows that the tables are a map from pages to
      entries.  [Swap]: [vm/swap.c] over [Bitmap] and a block device.
    - [VmState] is the state the virtual memory shares: machine, frame table, swap, the
      supplemental page table of each process; [FileOps] is the interface to files.
      [Frame]: [vm/frame.c] and its clock eviction.  [Page]: [vm/page.c].  [Vm]:
      [vm/vm.c], the page fault and accesses from user code.
    - [VmInv] is the invariant of the memory of processes that have not forked and map no
      files: an entry, a page table and a frame agree about each page.  [VmSteps],
      [VmEvict], [VmFault] and [VmUser] show that the operations keep it and leave the
      bytes that each process sees as they should be; [VmDemo] states the result: loads
      and stores of several processes answer as one byte map per process does, wherever
      eviction puts the pages.  The loop of eviction is bounded by the code itself, at two
      turns of the clock.  After a fork the invariant does not hold, and a theorem shows the
      write that is lost.
    - [Mmap], [MmapProofs]: [vm/mmap.c]; the search for an address has fuel
      for every page of the address space.
    - [Filedesc], [FiledescProofs]: [userprog/filedesc.c] and the
      descriptor tables of [process.c] and [syscall.c]: descriptors and files stay in step
      through creation, fork, close and exit.
    - [Loader]: the command line, the ELF loader and the initial stack of
      [userprog/process.c].  [LoaderProofs] shows what a program header maps and how the
      command line is split, with fuel for each character and each page; [StackProofs]
      that the stack is what the calling convention asks for.
    - [Process]: [process_execute], [process_fork], [process_wait] and [process_exit] as a
      machine of threads that interleave.  [ProcessProofs] relates the shared status of a
      child to the places of child and parent; [ProcessSafety] concludes that statuses are
      counted and freed once, that [wait] returns what the child passed to [exit], and
      that no thread waits for one that cannot run.
    - [VmDemo] also evaluates mappings, loading, descriptors and schedules of processes
      ([MmapDemo], [LoaderDemo], [FiledescDemo], [ProcessDemo]), those in which the code
      goes wrong included.

    ** Network

    - [Checksum], [Pbuf]: [net/util] and [net/buf].
    - [Netdev]: the state of the stack, [net/driver/netdev.c], the loopback device and the
      rings of the E1000 driver.  [Arp]: [net/link].  [Route]: [net/inet/route.c].
    - [Ip]: [net/inet/ip.c] and [icmp.c], the dispatch of [ethernet_input], and the turn of
      the input thread of [net/net.c].  [IpProofs] follows a packet down and up the stack;
      [IpText] is the text form of addresses.  [Udp]: [net/transport/udp.c].
    - [NetDemo]: runs of the configured stack.

    ** Not modelled

    Start-up and descriptor tables ([threads/init.c], [arch/i386]), device drivers (port
    I/O), assembly and the context switch, whose effect is part of the thread model; the
    RISC-V port; the threads of one user process ([pthread_create] and its join and exit)
    and the decoding of system-call arguments; printing and statistics; TCP and sockets, which are stubs that return
    errors; user-space programs and libraries, host tools and tests.  Code that these
    parts call and that is not under [src/] does not occur: the kernel is free-standing. *)

From stdpp Require Import base tactics numbers list list_numbers option.

Open Scope Z_scope.

(** ** Outcomes of kernel code

    A C function either returns a value, stops the machine through [PANIC] or a
    failed [ASSERT], has undefined behaviour (an out-of-range array access), or
    puts the calling thread to sleep until another thread wakes it. *)

Inductive outcome (A : Type) : Type :=
| Ret (a : A)
| Panic
| UB
| Blocked.
Arguments Ret {A} _.
Arguments Panic {A}.
Arguments UB {A}.
Arguments Blocked {A}.

#[global] Instance outcome_ret : MRet outcome := @Ret.
#[global] Instance outcome_bind : MBind outcome := λ A B f m,
  match m with Ret a => f a | Panic => Panic | UB => UB | Blocked => Blocked end.
#[global] Instance outcome_fmap : FMap outcome := λ A B f m,
  match m with Ret a => Ret (f a) | Panic => Panic | UB => UB | Blocked => Blocked end.

(** [ASSERT (b)] *)
Definition ASSERT (b : bool) : outcome unit := if b then Ret tt else Panic.

(** An access that C leaves undefined unless [b] holds. *)
Definition DEFINED (b : bool) : outcome unit := if b then Ret tt else UB.

Lemma bind_Ret {A B} (m : outcome A) (f : A → outcome B) b :
  m ≫= f = Ret b ↔ ∃ a, m = Ret a ∧ f a = Ret b.
Proof. destruct m; simpl; naive_solver. Qed.

Lemma Ret_bind {A B} (a : A) (f : A → outcome B) : Ret a ≫= f = f a.
Proof. done. Qed.

Lemma outcome_bind_assoc {A B C} (m : outcome A) (f : A → outcome B) (g : B → outcome C) :
  (m ≫= f) ≫= g = m ≫= (λ a, f a ≫= g).
Proof. by destruct m. Qed.

Lemma ASSERT_Ret b u : ASSERT b = Ret u ↔ b = true.
Proof. destruct b, u; simpl; naive_solver. Qed.

Lemma DEFINED_Ret b u : DEFINED b = Ret u ↔ b = true.
Proof. destruct b, u; simpl; naive_solver. Qed.

(** Boolean tests of the code become propositions. *)
Ltac reflect_bools :=
  repeat match goal with
  | H : _ && _ = true |- _ => apply andb_true_iff in H; destruct H
  | H : _ && _ = false |- _ => apply andb_false_iff in H
  | H : _ || _ = true |- _ => apply orb_true_iff in H
  | H : _ || _ = false |- _ => apply orb_false_iff in H; destruct H
  | H : negb _ = true |- _ => apply negb_true_iff in H
  | H : negb _ = false |- _ => apply negb_false_iff in H
  | H : (_ <? _)%Z = true |- _ => apply Z.ltb_lt in H
  | H : (_ <? _)%Z = false |- _ => apply Z.ltb_ge in H
  | H : (_ <=? _)%Z = true |- _ => apply Z.leb_le in H
  | H : (_ <=? _)%Z = false |- _ => apply Z.leb_gt in H
  | H : (_ =? _)%Z = true |- _ => apply Z.eqb_eq in H
  | H : (_ =? _)%Z = false |- _ => apply Z.eqb_neq in H
  | H : (_ >? _)%Z = true |- _ => rewrite Z.gtb_ltb in H; apply Z.ltb_lt in H
  | H : (_ >? _)%Z = false |- _ => rewrite Z.gtb_ltb in H; apply Z.ltb_ge in H
  | H : (_ >=? _)%Z = true |- _ => rewrite Z.geb_leb in H; apply Z.leb_le in H
  | H : (_ >=? _)%Z = false |- _ => rewrite Z.geb_leb in H; apply Z.leb_gt in H
  | H : (_ =? _)%nat = true |- _ => apply Nat.eqb_eq in H
  | H : (_ =? _)%nat = false |- _ => apply Nat.eqb_neq in H
  | H : (_ <? _)%nat = true |- _ => apply Nat.ltb_lt in H
  | H : (_ <? _)%nat = false |- _ => apply Nat.ltb_ge in H
  | H : (_ <=? _)%nat = true |- _ => apply Nat.leb_le in H
  | H : (_ <=? _)%nat = false |- _ => apply Nat.leb_gt in H
  end.

(** Inverts a successful run: splits binds, discharges assertions. *)
Ltac outcome_inv :=
  repeat match goal with
  | H : mbind (M:=outcome) _ _ = Ret _ |- _ =>
      apply bind_Ret in H; destruct H as (? & ? & H)
  | H : mret (M:=outcome) _ = Ret _ |- _ => unfold mret, outcome_ret in H
  | H : Ret _ = Ret _ |- _ => injection H as H
  | H : ASSERT _ = Ret _ |- _ => apply ASSERT_Ret in H
  | H : DEFINED _ = Ret _ |- _ => apply DEFINED_Ret in H
  | H : Panic = Ret _ |- _ => discriminate H
  | H : UB = Ret _ |- _ => discriminate H
  | H : Blocked = Ret _ |- _ => discriminate H
  | x : _ * _ |- _ => destruct x
  | x : () |- _ => destruct x
  | _ => progress simplify_eq/=
  end; reflect_bools.

(** ** Machine integers *)

(** Unsigned wrap-around at [w] bits. *)
Definition wrap (w x : Z) : Z := x mod 2 ^ w.
Abbreviation u8 := (wrap 8).
Abbreviation u16 := (wrap 16).
Abbreviation u32 := (wrap 32).
Abbreviation u64 := (wrap 64).

(** Conversion to [int32_t] (two's complement). *)
Definition s32 (x : Z) : Z :=
  let y := wrap 32 x in if y <? 2 ^ 31 then y else y - 2 ^ 32.

Lemma wrap_bound w x : 0 ≤ w → 0 ≤ wrap w x < 2 ^ w.
Proof. intros. apply Z.mod_pos_bound. lia. Qed.

Lemma wrap_small w x : 0 ≤ x < 2 ^ w → wrap w x = x.
Proof. apply Z.mod_small. Qed.

Lemma wrap_wrap w x : wrap w (wrap w x) = wrap w x.
Proof. apply Zmod_mod. Qed.

Lemma s32_bound x : - 2 ^ 31 ≤ s32 x < 2 ^ 31.
Proof.
  unfold s32. pose proof (wrap_bound 32 x ltac:(lia)).
  destruct (Z.ltb_spec (wrap 32 x) (2 ^ 31)); lia.
Qed.

Lemma s32_small x : - 2 ^ 31 ≤ x < 2 ^ 31 → s32 x = x.
Proof.
  intros Hx. unfold s32, wrap.
  destruct (Z.ltb_spec (x mod 2 ^ 32) (2 ^ 31)) as [H | H].
  - destruct (decide (0 ≤ x)); [by rewrite Z.mod_small by lia|].
    rewrite <- (Z_mod_plus x 1) in H by lia. rewrite Z.mod_small in H; lia.
  - destruct (decide (0 ≤ x)); [rewrite Z.mod_small in H; lia|].
    rewrite <- (Z_mod_plus x 1) by lia. rewrite Z.mod_small; lia.
Qed.

(** [DIV_ROUND_UP] of [lib/round.h]. *)
Definition DIV_ROUND_UP (x step : Z) : Z := (x + step - 1) / step.

(** [ROUND_UP] and [ROUND_DOWN] of [lib/round.h]. *)
Definition ROUND_UP (x step : Z) : Z := (x + step - 1) / step * step.
Definition ROUND_DOWN (x step : Z) : Z := x / step * step.

(** ** Byte arrays *)

Definition is_byte (b : Z) : Prop := 0 ≤ b < 256.

Definition is_byteb (b : Z) : bool := (0 <=? b) && (b <? 256).

Lemma is_byteb_spec b : is_byteb b = true ↔ is_byte b.
Proof. unfold is_byteb, is_byte. rewrite andb_true_iff, Z.leb_le, Z.ltb_lt. done. Qed.

#[global] Instance is_byte_dec b : Decision (is_byte b).
Proof. unfold is_byte. apply _. Defined.

(** [n] bytes of [l] from offset [ofs]. *)
Definition slice {A} (l : list A) (ofs n : nat) : list A := take n (drop ofs l).

(** [dst] with [src] stored at offset [ofs]. *)
Definition splice {A} (dst : list A) (ofs : nat) (src : list A) : list A :=
  take ofs dst ++ src ++ drop (ofs + length src) dst.

(** [memcpy (dst + ofs, src, n)] *)
Definition memcpy {A} (dst : list A) (ofs : nat) (src : list A) (n : nat) : outcome (list A) :=
  if (ofs + n <=? length dst)%nat && (n <=? length src)%nat
  then Ret (splice dst ofs (take n src)) else UB.

(** [memcpy (buffer, src + ofs, n)] into a fresh buffer *)
Definition memcpy_from {A} (src : list A) (ofs n : nat) : outcome (list A) :=
  if (ofs + n <=? length src)%nat then Ret (slice src ofs n) else UB.

Lemma length_slice {A} (l : list A) ofs n :
  (ofs + n ≤ length l)%nat → length (slice l ofs n) = n.
Proof. intros. unfold slice. rewrite length_take, length_drop. lia. Qed.

Lemma length_splice {A} (dst : list A) ofs src :
  (ofs + length src ≤ length dst)%nat → length (splice dst ofs src) = length dst.
Proof. intros. unfold splice. rewrite !length_app, length_take, length_drop. lia. Qed.

Lemma lookup_slice {A} (l : list A) ofs n i :
  (i < n)%nat → slice l ofs n !! i = l !! (ofs + i)%nat.
Proof. intros. unfold slice. by rewrite lookup_take_lt, lookup_drop. Qed.

Lemma lookup_splice_in {A} (dst : list A) ofs src i :
  (ofs + length src ≤ length dst)%nat → (ofs ≤ i < ofs + length src)%nat →
  splice dst ofs src !! i = src !! (i - ofs)%nat.
Proof.
  intros. unfold splice. rewrite lookup_app_r; rewrite length_take; [|lia].
  rewrite lookup_app_l by lia. f_equal; lia.
Qed.

Lemma lookup_splice_out {A} (dst : list A) ofs src i :
  (ofs + length src ≤ length dst)%nat → ¬ (ofs ≤ i < ofs + length src)%nat →
  splice dst ofs src !! i = dst !! i.
Proof.
  intros. unfold splice. destruct (decide (i < ofs)%nat).
  - rewrite lookup_app_l by (rewrite length_take; lia). apply lookup_take_lt; lia.
  - rewrite lookup_app_r; rewrite length_take; [|lia]. rewrite lookup_app_r by lia.
    rewrite lookup_drop. f_equal; lia.
Qed.

Lemma slice_splice_same {A} (dst : list A) ofs src :
  (ofs + length src ≤ length dst)%nat → slice (splice dst ofs src) ofs (length src) = src.
Proof.
  intros. unfold slice, splice.
  rewrite drop_app_length' by (rewrite length_take; lia). apply take_app_length.
Qed.

(** A store and a load that do not overlap commute. *)
Lemma slice_splice_disjoint {A} (dst : list A) ofs src ofs' n :
  (ofs + length src ≤ length dst)%nat →
  (ofs' + n ≤ ofs ∨ ofs + length src ≤ ofs')%nat →
  slice (splice dst ofs src) ofs' n = slice dst ofs' n.
Proof.
  intros Hl Hd. apply list_eq. intros i. destruct (decide (i < n)%nat).
  - rewrite !lookup_slice by lia. apply lookup_splice_out; lia.
  - unfold slice. by rewrite !lookup_take_ge by lia.
Qed.

(** Restoring what a store overwrote gives the original array back. *)
Lemma splice_restore {A} (dst : list A) ofs src :
  (ofs + length src ≤ length dst)%nat →
  splice (splice dst ofs src) ofs (slice dst ofs (length src)) = dst.
Proof.
  intros Hl. apply list_eq. intros i.
  assert (length (slice dst ofs (length src)) = length src) as Hs by (apply length_slice; lia).
  destruct (decide (ofs ≤ i < ofs + length src)%nat).
  - rewrite lookup_splice_in by (rewrite ?Hs, ?length_splice; lia).
    rewrite lookup_slice by lia. f_equal; lia.
  - rewrite lookup_splice_out by (rewrite ?Hs, ?length_splice; lia).
    rewrite lookup_splice_out by lia. done.
Qed.

Lemma splice_nil {A} (dst : list A) ofs : splice dst ofs [] = dst.
Proof. unfold splice. cbn [app length]. rewrite Nat.add_0_r. apply take_drop. Qed.

Lemma splice_full {A} (dst src : list A) :
  length src = length dst → splice dst 0 src = src.
Proof.
  intros H. unfold splice. rewrite drop_ge by lia. rewrite app_nil_r. done.
Qed.

Lemma slice_full {A} (l : list A) n : length l = n → slice l 0 n = l.
Proof. intros <-. unfold slice. rewrite drop_0. apply firstn_all. Qed.

Lemma Forall_slice {A} (P : A → Prop) l ofs n : Forall P l → Forall P (slice l ofs n).
Proof. intros. by apply Forall_take, Forall_drop. Qed.

Lemma Forall_splice {A} (P : A → Prop) dst ofs src :
  Forall P dst → Forall P src → Forall P (splice dst ofs src).
Proof.
  intros. apply Forall_app; split; [by apply Forall_take|].
  apply Forall_app; split; [done|by apply Forall_drop].
Qed.

Lemma memcpy_Ret {A} (dst : list A) ofs src n r :
  memcpy dst ofs src n = Ret r ↔
  (ofs + n ≤ length dst)%nat ∧ (n ≤ length src)%nat ∧ r = splice dst ofs (take n src).
Proof.
  unfold memcpy.
  destruct (Nat.leb_spec (ofs + n) (length dst)), (Nat.leb_spec n (length src));
    simpl; naive_solver lia.
Qed.

Lemma memcpy_from_Ret {A} (src : list A) ofs n r :
  memcpy_from src ofs n = Ret r ↔ (ofs + n ≤ length src)%nat ∧ r = slice src ofs n.
Proof.
  unfold memcpy_from. destruct (Nat.leb_spec (ofs + n) (length src)); naive_solver lia.
Qed.

(** A filter that rejects nothing is the identity. *)
Lemma filter_all {A} (P : A → Prop) `{!∀ x, Decision (P x)} (l : list A) :
  (∀ x, x ∈ l → P x) → filter P l = l.
Proof.
  induction l as [|x l IH]; intros Hl; [done|].
  rewrite filter_cons, decide_True by (apply Hl; by left). f_equal. apply IH. intros y Hy.
  apply Hl. by right.
Qed.

(** ** Arrays indexed by machine integers *)

(** [a[i]]: out of range is undefined behaviour. *)
Definition array_get {A} (l : list A) (i : Z) : outcome A :=
  if 0 <=? i then match l !! Z.to_nat i with Some x => Ret x | None => UB end else UB.

(** [a[i] = x] *)
Definition array_set {A} (l : list A) (i : Z) (x : A) : outcome (list A) :=
  if (0 <=? i) && (i <? Z.of_nat (length l)) then Ret (<[Z.to_nat i := x]> l) else UB.

Lemma array_get_Ret {A} (l : list A) i x :
  array_get l i = Ret x ↔ 0 ≤ i ∧ l !! Z.to_nat i = Some x.
Proof.
  unfold array_get. destruct (Z.leb_spec 0 i); [|naive_solver lia].
  destruct (l !! Z.to_nat i); naive_solver.
Qed.

Lemma array_get_in {A} (l : list A) i :
  0 ≤ i < Z.of_nat (length l) → ∃ x, array_get l i = Ret x ∧ l !! Z.to_nat i = Some x.
Proof.
  intros. destruct (lookup_lt_is_Some_2 l (Z.to_nat i)) as [x Hx]; [lia|].
  exists x. rewrite array_get_Ret. auto with lia.
Qed.

Lemma array_set_Ret {A} (l l' : list A) i x :
  array_set l i x = Ret l' ↔ 0 ≤ i < Z.of_nat (length l) ∧ l' = <[Z.to_nat i := x]> l.
Proof.
  unfold array_set. destruct (Z.leb_spec 0 i), (Z.ltb_spec i (Z.of_nat (length l)));
    simpl; naive_solver lia.
Qed.

Lemma array_set_in {A} (l : list A) i x :
  0 ≤ i < Z.of_nat (length l) → array_set l i x = Ret (<[Z.to_nat i := x]> l).
Proof. intros. by apply array_set_Ret. Qed.

(** ** Little-endian and big-endian encodings *)

Fixpoint le_bytes (n : nat) (z : Z) : list Z :=
  match n with O => [] | S n => z mod 256 :: le_bytes n (z / 256) end.

Fixpoint le_val (l : list Z) : Z :=
  match l with [] => 0 | b :: l => b + 256 * le_val l end.

Definition be_bytes (n : nat) (z : Z) : list Z := rev (le_bytes n z).
Definition be_val (l : list Z) : Z := le_val (rev l).

Lemma length_le_bytes n z : length (le_bytes n z) = n.
Proof. revert z. induction n; simpl; auto. Qed.

Lemma le_bytes_ok n z : Forall is_byte (le_bytes n z).
Proof.
  revert z. induction n; intros; simpl; constructor; auto.
  apply Z.mod_pos_bound. lia.
Qed.

Lemma le_val_le_bytes n z : le_val (le_bytes n z) = z mod 256 ^ Z.of_nat n.
Proof.
  revert z. induction n as [|n IH]; intros z; simpl; [by rewrite Z.mod_1_r|].
  rewrite IH, Nat2Z.inj_succ, Z.pow_succ_r by lia.
  rewrite Z.rem_mul_r by lia. done.
Qed.

Lemma le_val_bound l : Forall is_byte l → 0 ≤ le_val l < 256 ^ Z.of_nat (length l).
Proof.
  unfold is_byte. induction 1 as [|b l Hb Hl IH]; simpl; [lia|].
  rewrite Nat2Z.inj_succ, Z.pow_succ_r by lia. lia.
Qed.

Lemma le_bytes_le_val l : Forall is_byte l → le_bytes (length l) (le_val l) = l.
Proof.
  unfold is_byte. induction 1 as [|b l Hb Hl IH]; simpl; [done|]. f_equal.
  - rewrite Z.mul_comm, Z_mod_plus_full. apply Z.mod_small. lia.
  - rewrite Z.mul_comm, Z_div_plus_full, Z.div_small by lia. apply IH.
Qed.

(** Decoding what was encoded gives the value back when it fits. *)
Lemma le_roundtrip n z : 0 ≤ z < 256 ^ Z.of_nat n → le_val (le_bytes n z) = z.
Proof. intros. rewrite le_val_le_bytes. by apply Z.mod_small. Qed.

Lemma length_be_bytes n z : length (be_bytes n z) = n.
Proof. unfold be_bytes. by rewrite length_rev, length_le_bytes. Qed.

Lemma be_bytes_ok n z : Forall is_byte (be_bytes n z).
Proof. unfold be_bytes. apply Forall_rev, le_bytes_ok. Qed.

Lemma be_roundtrip n z : 0 ≤ z < 256 ^ Z.of_nat n → be_val (be_bytes n z) = z.
Proof. intros. unfold be_val, be_bytes. rewrite rev_involutive. by apply le_roundtrip. Qed.

#[global] Arguments le_bytes : simpl never.
#[global] Arguments le_val : simpl never.

(** ** Hint databases

    [kernel]: bounds and shape lemmas every component uses. *)
Create HintDb kernel.
#[export] Hint Resolve le_bytes_ok be_bytes_ok Forall_slice Forall_splice : kernel.
#[export] Hint Rewrite @length_le_bytes @length_be_bytes : kernel.
#[export] Hint Rewrite @length_insert @length_app @length_replicate @length_fmap : kernel.

(** ** Filters that keep all or nothing *)

Lemma list_filter_all {A} (P : A → Prop) `{∀ x, Decision (P x)} (l : list A) : (∀ x, x ∈ l → P x) → filter P l = l.
Proof.
  induction l as [|x l IH]; [done|]. intros Hall. rewrite filter_cons_True by (apply Hall; by left).
  f_equal. apply IH. intros y Hy. apply Hall. by right.
Qed.

Lemma list_filter_none {A} (P : A → Prop) `{∀ x, Decision (P x)} (l : list A) : (∀ x, x ∈ l → ¬ P x) → filter P l = [].
Proof.
  induction l as [|x l IH]; [done|]. intros Hall. rewrite filter_cons_False by (apply Hall; by left).
  apply IH. intros y Hy. apply Hall. by right.
Qed.
