(* ===== verification/State.v ===== *)
(** * The state and error monad

    [st S A]: code that works on a state [S], may fail as in [outcome], and returns an [A];
    and triples for it.  The network code and virtual memory are written in it. *)

From stdpp Require Import base tactics.
From S2P Require Import Prelude.

(** ** The monad *)

Definition st (S A : Type) : Type := S → outcome (A * S).
#[global] Instance st_ret {S} : MRet (st S) := λ A a s, Ret (a, s).
#[global] Instance st_bind {S} : MBind (st S) := λ A B f m s, '(a, s) ← m s; f a s.

Section monad.
Context {S : Type}.
Definition lift {A} (m : outcome A) : st S A := λ s, a ← m; Ret (a, s).
Definition get : st S S := λ s, Ret (s, s).
Definition put (s : S) : st S unit := λ _, Ret (tt, s).
Definition when (b : bool) (m : st S unit) : st S unit := if b then m else mret tt.
End monad.

Lemma st_bind_run {S A B} (m : st S A) (f : A → st S B) s a s' :
  m s = Ret (a, s') → (m ≫= f) s = f a s'.
Proof. intros E. unfold mbind, st_bind. by rewrite E. Qed.

Lemma st_bind_unfold {S A B} (m : st S A) (f : A → st S B) s : (m ≫= f) s = '(a, s') ← m s; f a s'.
Proof. done. Qed.

(** ** Triples

    [hoare P m Q]: from a state in [P], if [m] returns, its value and state are in [Q]. *)

Definition hoare {S A} (P : S → Prop) (m : st S A) (Q : A → S → Prop) : Prop :=
  ∀ s a s', P s → m s = Ret (a, s') → Q a s'.

Lemma st_bind_Ret {S A B} (m : st S A) (f : A → st S B) s r :
  (m ≫= f) s = Ret r ↔ ∃ a s', m s = Ret (a, s') ∧ f a s' = Ret r.
Proof.
  unfold mbind, st_bind. destruct (m s) as [[a s']| | |] eqn:E; cbn [mbind outcome_bind]; [|naive_solver..].
  split; [intros; by exists a, s'|]. intros (a' & s'' & E' & H). by injection E' as <- <-.
Qed.

Section hoare.
Context {S : Type}.
Implicit Types P : S → Prop.

Lemma hoare_bind {A B} P (m : st S A) (f : A → st S B) R Q : hoare P m R → (∀ a, hoare (R a) (f a) Q) → hoare P (m ≫= f) Q.
Proof. intros Hm Hf s b s' Hs H. apply st_bind_Ret in H as (a & s1 & E1 & E2). eapply Hf; [|done]. by eapply Hm. Qed.
Lemma hoare_ret {A} (a : A) P : hoare P (mret a) (λ _, P).
Proof. intros s b s' Hs H. by injection H as <- <-. Qed.
Lemma hoare_lift {A} P (m : outcome A) : hoare P (lift m) (λ _, P).
Proof. intros s b s' Hs H. unfold lift in H. destruct m; cbn in H; [|discriminate..]. by injection H as _ <-. Qed.
Lemma hoare_weaken {A} P P' (m : st S A) Q Q' : hoare P' m Q' → (∀ s, P s → P' s) → (∀ a s, Q' a s → Q a s) → hoare P m Q.
Proof. intros H H1 H2 s a s' Hs E. eapply H2, H; [by apply H1|done]. Qed.
Lemma hoare_if {A} (b : bool) P (m m' : st S A) Q : hoare P m Q → hoare P m' Q → hoare P (if b then m else m') Q.
Proof. by destruct b. Qed.
End hoare.

(** ** Runs

    [runs m s Q]: from the state [s], [m] returns, with its value and state in [Q]. *)

Definition runs {S A} (m : st S A) (s : S) (Q : A → S → Prop) : Prop := ∃ a s', m s = Ret (a, s') ∧ Q a s'.

Section runs.
Context {S : Type}.

Lemma runs_intro {A} (m : st S A) s a s' (Q : A → S → Prop) : m s = Ret (a, s') → Q a s' → runs m s Q.
Proof. intros E H. by exists a, s'. Qed.
Lemma runs_ret {A} (a : A) s (Q : A → S → Prop) : Q a s → runs (mret a) s Q.
Proof. by apply runs_intro. Qed.
Lemma runs_bind {A B} (m : st S A) (f : A → st S B) s Q : runs m s (λ a s', runs (f a) s' Q) → runs (m ≫= f) s Q.
Proof. intros (a & s' & E & H). unfold runs. by rewrite (st_bind_run _ _ _ _ _ E). Qed.
Lemma runs_step {A B} (m : st S A) (f : A → st S B) s a s' Q : m s = Ret (a, s') → runs (f a) s' Q → runs (m ≫= f) s Q.
Proof. intros E H. apply runs_bind. by exists a, s'. Qed.
Lemma runs_mono {A} (m : st S A) s (Q R : A → S → Prop) : runs m s Q → (∀ a s', Q a s' → R a s') → runs m s R.
Proof. intros (a & s' & E & H) HR. exists a, s'. auto. Qed.
Lemma runs_then {A B} (m : st S A) (f : A → st S B) s (Q : A → S → Prop) R :
  runs m s Q → (∀ a s', Q a s' → runs (f a) s' R) → runs (m ≫= f) s R.
Proof. intros H HR. apply runs_bind. by eapply runs_mono. Qed.
End runs.
