(* ===== verification/Bitmap.v ===== *)
(** * The kernel bitmap ([lib/kernel/bitmap.c])

    A bitmap is a bit count and an array of [unsigned long] words (32 bits on
    i386, where [size_t] is 32 bits too).  Operations are those of the C file,
    on words; the abstraction [bm_abs] is the array of bits a client sees. *)

From stdpp Require Import base tactics numbers list list_numbers option.
From S2P Require Import Prelude.

Open Scope Z_scope.

Module Bitmap.

(** [ELEM_BITS]: bits of an [elem_type]. *)
Definition ELEM_BITS : Z := 32.

(** [BITMAP_ERROR] is [SIZE_MAX]. *)
Definition BITMAP_ERROR : Z := 2 ^ 32 - 1.

Record bitmap := mk_bitmap { bit_cnt : Z; bits : list Z }.

Definition elem_idx (bit_idx : Z) : Z := bit_idx / ELEM_BITS.

Definition bit_mask (bit_idx : Z) : Z := u32 (Z.shiftl 1 (bit_idx mod ELEM_BITS)).

Definition elem_cnt (bit_cnt : Z) : Z := u32 (u32 (bit_cnt + ELEM_BITS) - 1) / ELEM_BITS.

Definition byte_cnt (bit_cnt : Z) : Z := u32 (4 * elem_cnt bit_cnt).

Definition last_mask (b : bitmap) : Z :=
  let last_bits := bit_cnt b mod ELEM_BITS in
  if last_bits =? 0 then u32 (-1) else u32 (Z.shiftl 1 last_bits - 1).

Definition bitmap_size (b : bitmap) : Z := bit_cnt b.

Definition bitmap_buf_size (cnt : Z) : Z := u32 (8 + byte_cnt cnt).

Definition bitmap_mark (b : bitmap) (bit_idx : Z) : outcome bitmap :=
  let idx := elem_idx bit_idx in
  let mask := bit_mask bit_idx in
  e ← array_get (bits b) idx;
  l ← array_set (bits b) idx (Z.lor e mask);
  Ret (mk_bitmap (bit_cnt b) l).

Definition bitmap_reset (b : bitmap) (bit_idx : Z) : outcome bitmap :=
  let idx := elem_idx bit_idx in
  let mask := bit_mask bit_idx in
  e ← array_get (bits b) idx;
  l ← array_set (bits b) idx (Z.land e (u32 (Z.lnot mask)));
  Ret (mk_bitmap (bit_cnt b) l).

Definition bitmap_flip (b : bitmap) (bit_idx : Z) : outcome bitmap :=
  let idx := elem_idx bit_idx in
  let mask := bit_mask bit_idx in
  e ← array_get (bits b) idx;
  l ← array_set (bits b) idx (Z.lxor e mask);
  Ret (mk_bitmap (bit_cnt b) l).

Definition bitmap_set (b : bitmap) (idx : Z) (value : bool) : outcome bitmap :=
  ASSERT (idx <? bit_cnt b);;
  if value then bitmap_mark b idx else bitmap_reset b idx.

Definition bitmap_test (b : bitmap) (idx : Z) : outcome bool :=
  ASSERT (idx <? bit_cnt b);;
  e ← array_get (bits b) (elem_idx idx);
  Ret (negb (Z.land e (bit_mask idx) =? 0)).

(** The loop [for (i = 0; i < cnt; i++) bitmap_set (b, start + i, value)], with
    [n] iterations left from index [i]. *)
Fixpoint set_loop (b : bitmap) (start i : Z) (n : nat) (value : bool) : outcome bitmap :=
  match n with
  | O => Ret b
  | S n => b' ← bitmap_set b (u32 (start + i)) value; set_loop b' start (i + 1) n value
  end.

Definition bitmap_set_multiple (b : bitmap) (start cnt : Z) (value : bool) : outcome bitmap :=
  ASSERT (start <=? bit_cnt b);;
  ASSERT (u32 (start + cnt) <=? bit_cnt b);;
  set_loop b start 0 (Z.to_nat cnt) value.

Definition bitmap_set_all (b : bitmap) (value : bool) : outcome bitmap :=
  bitmap_set_multiple b 0 (bitmap_size b) value.

Fixpoint count_loop (b : bitmap) (start i : Z) (n : nat) (value : bool) (value_cnt : Z)
    : outcome Z :=
  match n with
  | O => Ret value_cnt
  | S n =>
      t ← bitmap_test b (u32 (start + i));
      count_loop b start (i + 1) n value
        (if Bool.eqb t value then u32 (value_cnt + 1) else value_cnt)
  end.

Definition bitmap_count (b : bitmap) (start cnt : Z) (value : bool) : outcome Z :=
  ASSERT (start <=? bit_cnt b);;
  ASSERT (u32 (start + cnt) <=? bit_cnt b);;
  count_loop b start 0 (Z.to_nat cnt) value 0.

Fixpoint contains_loop (b : bitmap) (start i : Z) (n : nat) (value : bool) : outcome bool :=
  match n with
  | O => Ret false
  | S n =>
      t ← bitmap_test b (u32 (start + i));
      if Bool.eqb t value then Ret true else contains_loop b start (i + 1) n value
  end.

Definition bitmap_contains (b : bitmap) (start cnt : Z) (value : bool) : outcome bool :=
  ASSERT (start <=? bit_cnt b);;
  ASSERT (u32 (start + cnt) <=? bit_cnt b);;
  contains_loop b start 0 (Z.to_nat cnt) value.

Definition bitmap_any (b : bitmap) (start cnt : Z) : outcome bool :=
  bitmap_contains b start cnt true.

Definition bitmap_none (b : bitmap) (start cnt : Z) : outcome bool :=
  r ← bitmap_contains b start cnt true; Ret (negb r).

Definition bitmap_all (b : bitmap) (start cnt : Z) : outcome bool :=
  r ← bitmap_contains b start cnt false; Ret (negb r).

(** The loop [for (i = start; i <= last; i++)] of [bitmap_scan], with [n] indices
    left to try. *)
Fixpoint scan_loop (b : bitmap) (i : Z) (n : nat) (cnt : Z) (value : bool) : outcome Z :=
  match n with
  | O => Ret BITMAP_ERROR
  | S n =>
      c ← bitmap_contains b i cnt (negb value);
      if negb c then Ret i else scan_loop b (i + 1) n cnt value
  end.

Definition bitmap_scan (b : bitmap) (start cnt : Z) (value : bool) : outcome Z :=
  ASSERT (start <=? bit_cnt b);;
  if cnt <=? bit_cnt b then
    let last := bit_cnt b - cnt in
    scan_loop b start (Z.to_nat (last + 1 - start)) cnt value
  else Ret BITMAP_ERROR.

Definition bitmap_scan_and_flip (b : bitmap) (start cnt : Z) (value : bool)
    : outcome (Z * bitmap) :=
  idx ← bitmap_scan b start cnt value;
  if negb (idx =? BITMAP_ERROR) then
    b' ← bitmap_set_multiple b idx cnt (negb value); Ret (idx, b')
  else Ret (idx, b).

(** [bitmap_create]: [malloc_b] and [malloc_bits] are the results of the two
    allocations; the second one hands out uninitialised words. *)
Definition bitmap_create (malloc_b : bool) (malloc_bits : option (list Z)) (cnt : Z)
    : outcome (option bitmap) :=
  if malloc_b then
    match malloc_bits with
    | Some words => b ← bitmap_set_all (mk_bitmap cnt words) false; Ret (Some b)
    | None =>
        if cnt =? 0 then b ← bitmap_set_all (mk_bitmap cnt []) false; Ret (Some b)
        else Ret None
    end
  else Ret None.

(** [bitmap_create_in_buf]: the words of the block after the header. *)
Definition bitmap_create_in_buf (cnt : Z) (block : list Z) (block_size : Z) : outcome bitmap :=
  ASSERT (bitmap_buf_size cnt <=? block_size);;
  bitmap_set_all (mk_bitmap cnt block) false.

Definition bitmap_file_size (b : bitmap) : Z := byte_cnt (bit_cnt b).

(** The bytes of [b->bits] in memory order. *)
Definition words_to_bytes (l : list Z) : list Z := mjoin (le_bytes 4 <$> l).

Fixpoint bytes_to_words (n : nat) (l : list Z) : list Z :=
  match n with O => [] | S n => le_val (take 4 l) :: bytes_to_words n (drop 4 l) end.

(** [bitmap_write]: [write buf size ofs] is [file_write_at] on the open file. *)
Definition bitmap_write {S} (write : list Z → Z → Z → S → outcome (Z * S))
    (b : bitmap) (s : S) : outcome (bool * S) :=
  let size := byte_cnt (bit_cnt b) in
  '(n, s') ← write (words_to_bytes (bits b)) size 0 s;
  Ret (n =? size, s').

(** [bitmap_read]: [read size ofs] is [file_read_at]; it returns the bytes it
    stored at the start of [b->bits]. *)
Definition bitmap_read {S} (read : Z → Z → S → outcome (list Z * S))
    (b : bitmap) (s : S) : outcome (bool * bitmap * S) :=
  if 0 <? bit_cnt b then
    let size := byte_cnt (bit_cnt b) in
    '(data, s') ← read size 0 s;
    raw ← memcpy (words_to_bytes (bits b)) 0 data (length data);
    let words := bytes_to_words (length (bits b)) raw in
    let idx := elem_cnt (bit_cnt b) - 1 in
    e ← array_get words idx;
    words' ← array_set words idx (Z.land e (last_mask b));
    Ret (Z.of_nat (length data) =? size, mk_bitmap (bit_cnt b) words', s')
  else Ret (true, b, s).

(** ** Abstraction *)

(** Bit [i] of the array of words. *)
Definition bm_bit (b : bitmap) (i : Z) : bool :=
  Z.testbit (bits b !!! Z.to_nat (elem_idx i)) (i mod ELEM_BITS).

(** The bits a client sees. *)
Definition bm_abs (b : bitmap) : list bool :=
  (λ i : nat, bm_bit b (Z.of_nat i)) <$> seq 0 (Z.to_nat (bit_cnt b)).

(** Representation invariant: enough words, each of 32 bits, and a bit count
    for which [elem_cnt] does not overflow. *)
Definition wf (b : bitmap) : Prop :=
  0 ≤ bit_cnt b ≤ 2 ^ 32 - 32 ∧
  Z.of_nat (length (bits b)) = elem_cnt (bit_cnt b) ∧
  Forall (λ e, 0 ≤ e < 2 ^ 32) (bits b).

Section wf_facts.
Implicit Types (b : bitmap) (i idx : Z).

Lemma elem_cnt_ceil n : 0 ≤ n ≤ 2 ^ 32 - 32 → elem_cnt n = (n + 31) / 32.
Proof.
  intros. unfold elem_cnt, ELEM_BITS. destruct (decide (n = 2 ^ 32 - 32)) as [->|].
  - reflexivity.
  - rewrite (wrap_small 32 (n + 32)), wrap_small by lia. f_equal. lia.
Qed.

Lemma elem_idx_bound b idx :
  wf b → 0 ≤ idx < bit_cnt b → 0 ≤ elem_idx idx < Z.of_nat (length (bits b)).
Proof.
  intros (? & Hl & _) ?. rewrite Hl, elem_cnt_ceil by lia. unfold elem_idx, ELEM_BITS.
  split; [apply Z.div_pos; lia|]. apply Z.div_lt_upper_bound; [lia|].
  pose proof (Z.div_mod (bit_cnt b + 31) 32). pose proof (Z.mod_pos_bound (bit_cnt b + 31) 32).
  lia.
Qed.

Lemma bit_mask_pow idx : bit_mask idx = 2 ^ (idx mod 32).
Proof.
  unfold bit_mask, ELEM_BITS. pose proof (Z.mod_pos_bound idx 32 ltac:(lia)).
  rewrite Z.shiftl_1_l. apply wrap_small. split; [lia|]. apply Z.pow_lt_mono_r; lia.
Qed.

Lemma bit_mask_testbit idx k : 0 ≤ k → Z.testbit (bit_mask idx) k = (k =? idx mod 32).
Proof.
  intros. rewrite bit_mask_pow, Z.pow2_bits_eqb by (apply Z.mod_pos_bound; lia).
  apply Z.eqb_sym.
Qed.

(** Two bit numbers are equal when word and position are. *)
Lemma bit_idx_eq i idx : (i / 32 = idx / 32 ∧ i mod 32 = idx mod 32) ↔ i = idx.
Proof.
  split; [|naive_solver]. intros [H1 H2].
  rewrite (Z.div_mod i 32), (Z.div_mod idx 32) by lia. congruence.
Qed.

Lemma word_bound (w : Z) : 0 ≤ w → (∀ k, 32 ≤ k → Z.testbit w k = false) → w < 2 ^ 32.
Proof.
  intros Hw Hk. destruct (decide (w = 0)); [lia|].
  apply Z.log2_lt_pow2; [lia|]. destruct (decide (Z.log2 w < 32)); [done|].
  pose proof (Z.bit_log2 w ltac:(lia)) as Hb. by rewrite Hk in Hb by lia.
Qed.

Lemma testbit_high (w k : Z) : 0 ≤ w < 2 ^ 32 → 32 ≤ k → Z.testbit w k = false.
Proof.
  intros Hw Hk. destruct (decide (w = 0)) as [->|]; [apply Z.testbit_0_l|].
  apply Z.bits_above_log2; [lia|]. assert (Z.log2 w < 32) by (apply Z.log2_lt_pow2; lia). lia.
Qed.

(** Updating word [elem_idx idx] with [f] changes the bits [f] changes. *)
Lemma update_word b idx (e' : Z → Z) (v : bool → bool) :
  wf b → 0 ≤ idx < bit_cnt b →
  (∀ e, 0 ≤ e < 2 ^ 32 → 0 ≤ e' e) →
  (∀ e k, 0 ≤ e < 2 ^ 32 → 0 ≤ k →
     Z.testbit (e' e) k = if k =? idx mod 32 then v (Z.testbit e k) else Z.testbit e k) →
  ∃ b', (e ← array_get (bits b) (elem_idx idx);
         l ← array_set (bits b) (elem_idx idx) (e' e); Ret (mk_bitmap (bit_cnt b) l)) = Ret b' ∧
    wf b' ∧ bit_cnt b' = bit_cnt b ∧
    ∀ i, 0 ≤ i → bm_bit b' i = if i =? idx then v (bm_bit b i) else bm_bit b i.
Proof.
  intros Hwf Hidx Hpos Hbit. pose proof (elem_idx_bound b idx Hwf Hidx) as Hr.
  destruct (array_get_in (bits b) (elem_idx idx) Hr) as (e & -> & He).
  rewrite Ret_bind, array_set_in by done. eexists; split; [done|].
  destruct Hwf as (Hc & Hl & Hw).
  pose proof (Forall_lookup_1 _ _ _ _ Hw He) as Hew; simpl in Hew.
  assert (e' e < 2 ^ 32) as Hlt.
  { apply word_bound; [by apply Hpos|]. intros k Hk. rewrite Hbit by lia.
    pose proof (Z.mod_pos_bound idx 32 ltac:(lia)).
    rewrite (proj2 (Z.eqb_neq k (idx mod 32))) by lia. by apply testbit_high. }
  split; [|split; [done|]].
  { repeat split; simpl; [lia|lia|by rewrite length_insert|].
    apply Forall_insert; [done|]. split; [by apply Hpos|done]. }
  intros i Hi. unfold bm_bit, elem_idx, ELEM_BITS in *; simpl.
  destruct (decide (i / 32 = idx / 32)) as [Heq|Hne].
  - rewrite Heq, list_lookup_total_insert_eq by lia.
    rewrite (list_lookup_total_correct _ _ _ He), Hbit
      by (done || apply Z.mod_pos_bound; lia).
    destruct (Z.eqb_spec (i mod 32) (idx mod 32)) as [Hm|Hm], (Z.eqb_spec i idx) as [Hi'|Hi'];
      try done; exfalso; [apply Hi', bit_idx_eq; done|subst; done].
  - rewrite list_lookup_total_insert_ne
      by (pose proof (Z.div_pos i 32); lia).
    rewrite (proj2 (Z.eqb_neq i idx)) by (intros ->; done). done.
Qed.
End wf_facts.

(** ** Operations on one bit *)

Section single_bit.
Context (b : bitmap) (idx : Z) (Hwf : wf b) (Hidx : 0 ≤ idx < bit_cnt b).

Lemma bitmap_mark_spec :
  ∃ b', bitmap_mark b idx = Ret b' ∧ wf b' ∧ bit_cnt b' = bit_cnt b ∧
    ∀ i, 0 ≤ i → bm_bit b' i = if i =? idx then true else bm_bit b i.
Proof.
  apply (update_word b idx (λ e, Z.lor e (bit_mask idx)) (λ _, true)); try done.
  - intros e He. apply Z.lor_nonneg. rewrite bit_mask_pow. split; [lia|].
    apply Z.pow_nonneg. lia.
  - intros e k He Hk. rewrite Z.lor_spec, bit_mask_testbit by done.
    by destruct (k =? idx mod 32), (Z.testbit e k).
Qed.

Lemma bitmap_reset_spec :
  ∃ b', bitmap_reset b idx = Ret b' ∧ wf b' ∧ bit_cnt b' = bit_cnt b ∧
    ∀ i, 0 ≤ i → bm_bit b' i = if i =? idx then false else bm_bit b i.
Proof.
  apply (update_word b idx (λ e, Z.land e (u32 (Z.lnot (bit_mask idx)))) (λ _, false)); try done.
  - intros e He. apply Z.land_nonneg. left. lia.
  - intros e k He Hk. rewrite Z.land_spec. destruct (decide (k < 32)).
    + unfold wrap. rewrite Z.mod_pow2_bits_low, Z.lnot_spec, bit_mask_testbit by lia.
      by destruct (k =? idx mod 32), (Z.testbit e k).
    + rewrite (testbit_high e k) by lia. by destruct (k =? idx mod 32).
Qed.

Lemma bitmap_flip_spec :
  ∃ b', bitmap_flip b idx = Ret b' ∧ wf b' ∧ bit_cnt b' = bit_cnt b ∧
    ∀ i, 0 ≤ i → bm_bit b' i = if i =? idx then negb (bm_bit b i) else bm_bit b i.
Proof.
  apply (update_word b idx (λ e, Z.lxor e (bit_mask idx)) negb); try done.
  - intros e He. apply Z.lxor_nonneg. rewrite bit_mask_pow.
    pose proof (Z.pow_nonneg 2 (idx mod 32)). lia.
  - intros e k He Hk. rewrite Z.lxor_spec, bit_mask_testbit by done.
    by destruct (k =? idx mod 32), (Z.testbit e k).
Qed.

Lemma bitmap_set_spec v :
  ∃ b', bitmap_set b idx v = Ret b' ∧ wf b' ∧ bit_cnt b' = bit_cnt b ∧
    ∀ i, 0 ≤ i → bm_bit b' i = if i =? idx then v else bm_bit b i.
Proof.
  unfold bitmap_set. rewrite (proj2 (Z.ltb_lt idx (bit_cnt b))) by lia. simpl.
  destruct v; [apply bitmap_mark_spec|apply bitmap_reset_spec].
Qed.

Lemma bitmap_test_spec : bitmap_test b idx = Ret (bm_bit b idx).
Proof.
  unfold bitmap_test. rewrite (proj2 (Z.ltb_lt idx (bit_cnt b))) by lia. simpl.
  destruct (array_get_in (bits b) (elem_idx idx)) as (e & -> & He);
    [by apply elem_idx_bound|]. simpl. f_equal.
  unfold bm_bit. rewrite (list_lookup_total_correct _ _ _ He).
  rewrite bit_mask_pow. pose proof (Z.mod_pos_bound idx 32 ltac:(lia)) as Hm.
  unfold ELEM_BITS. destruct (Z.testbit e (idx mod 32)) eqn:Ht.
  - apply negb_true_iff, Z.eqb_neq. intros H0.
    assert (Z.testbit (Z.land e (2 ^ (idx mod 32))) (idx mod 32) = true) as Hc
      by (rewrite Z.land_spec, Ht, Z.pow2_bits_true by lia; done).
    by rewrite H0, Z.testbit_0_l in Hc.
  - apply negb_false_iff, Z.eqb_eq, Z.bits_inj'. intros k Hk.
    rewrite Z.land_spec, Z.testbit_0_l, Z.pow2_bits_eqb by lia.
    destruct (Z.eqb_spec (idx mod 32) k) as [<-|]; [by rewrite Ht|apply andb_false_r].
Qed.
End single_bit.

(** ** Operations on runs of bits *)

(** Bits [i, i + cnt) of [b] all have value [v]. *)
Definition run_at (b : bitmap) (i cnt : Z) (v : bool) : Prop :=
  ∀ j, i ≤ j < i + cnt → bm_bit b j = v.

Lemma set_loop_spec b start i n v :
  wf b → 0 ≤ start → 0 ≤ i → start + i + Z.of_nat n ≤ bit_cnt b →
  ∃ b', set_loop b start i n v = Ret b' ∧ wf b' ∧ bit_cnt b' = bit_cnt b ∧
    ∀ j, 0 ≤ j →
      bm_bit b' j = if (start + i <=? j) && (j <? start + i + Z.of_nat n) then v else bm_bit b j.
Proof.
  revert b i. induction n as [|n IH]; intros b i Hwf Hs Hi Hle.
  - exists b. split_and!; try done. intros j Hj.
    destruct (Z.leb_spec (start + i) j), (Z.ltb_spec j (start + i + Z.of_nat 0)); simpl; done || lia.
  - pose proof Hwf as (Hc & _). simpl. rewrite wrap_small by lia.
    destruct (bitmap_set_spec b (start + i) Hwf ltac:(lia) v) as (b1 & -> & Hwf1 & Hc1 & Hb1).
    simpl. destruct (IH b1 (i + 1)) as (b2 & -> & Hwf2 & Hc2 & Hb2); try done; try lia.
    exists b2. split_and!; try done; [lia|]. intros j Hj. rewrite Hb2, Hb1 by done.
    destruct (Z.leb_spec (start + (i + 1)) j), (Z.ltb_spec j (start + (i + 1) + Z.of_nat n)),
      (Z.leb_spec (start + i) j), (Z.ltb_spec j (start + i + Z.of_nat (S n))),
      (Z.eqb_spec j (start + i)); simpl; done || lia.
Qed.

Lemma contains_loop_spec b start i n v :
  wf b → 0 ≤ start → 0 ≤ i → start + i + Z.of_nat n ≤ bit_cnt b →
  ∃ r, contains_loop b start i n v = Ret r ∧
    (r = false ↔ run_at b (start + i) (Z.of_nat n) (negb v)).
Proof.
  unfold run_at. revert i. induction n as [|n IH]; intros i Hwf Hs Hi Hle.
  - exists false. split; [done|]. split; [intros; lia|done].
  - pose proof Hwf as (Hc & _). simpl. rewrite wrap_small, bitmap_test_spec by (done || lia). simpl.
    destruct (Bool.eqb_spec (bm_bit b (start + i)) v) as [Hv|Hv].
    + exists true. split; [done|]. split; [done|]. intros H. rewrite (H (start + i)) in Hv by lia.
      by destruct v.
    + destruct (IH (i + 1)) as (r & -> & Hr); try done; try lia.
      exists r. split; [done|]. rewrite Hr. split; intros H j Hj; [|apply H; lia].
      destruct (decide (j = start + i)) as [->|]; [|apply H; lia].
      by destruct v, (bm_bit b (start + i)).
Qed.

Section runs.
Context (b : bitmap) (start cnt : Z) (Hwf : wf b).
Context (Hr : 0 ≤ start) (Hc : 0 ≤ cnt) (Hle : start + cnt ≤ bit_cnt b).

Lemma run_asserts : (start <=? bit_cnt b) = true ∧ (u32 (start + cnt) <=? bit_cnt b) = true.
Proof.
  destruct Hwf as (? & _). rewrite wrap_small by lia. split; apply Z.leb_le; lia.
Qed.

Lemma bitmap_set_multiple_bits v :
  ∃ b', bitmap_set_multiple b start cnt v = Ret b' ∧ wf b' ∧ bit_cnt b' = bit_cnt b ∧
    ∀ j, 0 ≤ j →
      bm_bit b' j = if (start <=? j) && (j <? start + cnt) then v else bm_bit b j.
Proof.
  unfold bitmap_set_multiple. destruct run_asserts as [-> ->]. simpl.
  destruct (set_loop_spec b start 0 (Z.to_nat cnt) v) as (b' & -> & ? & ? & Hb);
    try done; try lia.
  exists b'. split_and!; try done. intros j Hj. rewrite Hb by done.
  rewrite Z.add_0_r, Z2Nat.id by done. done.
Qed.

Lemma bitmap_contains_spec v :
  ∃ r, bitmap_contains b start cnt v = Ret r ∧ (r = false ↔ run_at b start cnt (negb v)).
Proof.
  unfold bitmap_contains. destruct run_asserts as [-> ->]. simpl.
  destruct (contains_loop_spec b start 0 (Z.to_nat cnt) v) as (r & -> & Hcl); try done; try lia.
  exists r. split; [done|]. by rewrite Z.add_0_r, Z2Nat.id in Hcl by done.
Qed.

(** [bitmap_all] holds exactly when the whole run is set. *)
Lemma bitmap_all_spec :
  ∃ r, bitmap_all b start cnt = Ret r ∧ (r = true ↔ run_at b start cnt true).
Proof.
  unfold bitmap_all. destruct (bitmap_contains_spec false) as (r & -> & Hcl). simpl.
  exists (negb r). split; [done|]. rewrite negb_true_iff. apply Hcl.
Qed.
End runs.

(** ** Scanning *)

Lemma scan_loop_spec b i n cnt v :
  wf b → 0 ≤ i → 0 ≤ cnt → i + Z.of_nat n + cnt ≤ bit_cnt b + 1 →
  ∃ r, scan_loop b i n cnt v = Ret r ∧
    ((r = BITMAP_ERROR ∧ ∀ k, i ≤ k < i + Z.of_nat n → ¬ run_at b k cnt v) ∨
     (i ≤ r < i + Z.of_nat n ∧ run_at b r cnt v ∧ ∀ k, i ≤ k < r → ¬ run_at b k cnt v)).
Proof.
  revert i. induction n as [|n IH]; intros i Hwf Hi Hc Hle.
  - exists BITMAP_ERROR. split; [done|]. left. split; [done|]. intros; lia.
  - simpl. destruct (bitmap_contains_spec b i cnt Hwf Hi Hc ltac:(lia) (negb v)) as (c & -> & Hcl).
    rewrite negb_involutive in Hcl. simpl. destruct c; simpl.
    + assert (¬ run_at b i cnt v) as Hni by (intros H; by apply Hcl in H).
      destruct (IH (i + 1)) as (r & -> & [[-> Hno]|(Hr & Hrun & Hno)]); try done; try lia.
      * eexists; split; [done|]. left. split; [done|]. intros k Hk.
        destruct (decide (k = i)) as [->|]; [done|apply Hno; lia].
      * eexists; split; [done|]. right. split_and!; [lia|lia|done|]. intros k Hk.
        destruct (decide (k = i)) as [->|]; [done|apply Hno; lia].
    + eexists; split; [done|]. right. split_and!; [lia|lia|by apply Hcl|]. intros; lia.
Qed.

(** What [bitmap_scan] answers: the first run at or after [start], or
    [BITMAP_ERROR] when there is none. *)
Definition scan_result (b : bitmap) (start cnt : Z) (v : bool) (r : Z) : Prop :=
  (r = BITMAP_ERROR ∧ ∀ k, start ≤ k → k + cnt ≤ bit_cnt b → ¬ run_at b k cnt v) ∨
  (start ≤ r ∧ r + cnt ≤ bit_cnt b ∧ run_at b r cnt v ∧
   ∀ k, start ≤ k < r → ¬ run_at b k cnt v).

Lemma bitmap_scan_spec b start cnt v :
  wf b → 0 ≤ start ≤ bit_cnt b → 0 ≤ cnt →
  ∃ r, bitmap_scan b start cnt v = Ret r ∧ scan_result b start cnt v r.
Proof.
  intros Hwf Hs Hc. unfold bitmap_scan, scan_result.
  rewrite (proj2 (Z.leb_le start (bit_cnt b))) by lia. simpl.
  destruct (Z.leb_spec cnt (bit_cnt b)).
  - destruct (decide (start + cnt ≤ bit_cnt b)).
    + destruct (scan_loop_spec b start (Z.to_nat (bit_cnt b - cnt + 1 - start)) cnt v)
        as (r & -> & [[-> Hno]|(Hr & Hrun & Hno)]); try done; try lia.
      * eexists; split; [done|]. left. split; [done|]. intros; apply Hno; lia.
      * eexists; split; [done|]. right. split_and!; try done; lia.
    + replace (Z.to_nat (bit_cnt b - cnt + 1 - start)) with 0%nat by lia. simpl. eexists; split; [done|]. left.
      split; [done|]. intros; lia.
  - eexists; split; [done|]. left. split; [done|]. intros; lia.
Qed.

(** [bitmap_scan_and_flip] inverts exactly the run it returns. *)
Lemma bitmap_scan_and_flip_bits b start cnt v :
  wf b → 0 ≤ start ≤ bit_cnt b → 0 ≤ cnt →
  ∃ r b', bitmap_scan_and_flip b start cnt v = Ret (r, b') ∧ scan_result b start cnt v r ∧
    wf b' ∧ bit_cnt b' = bit_cnt b ∧
    ∀ j, 0 ≤ j → bm_bit b' j =
      if negb (r =? BITMAP_ERROR) && ((r <=? j) && (j <? r + cnt)) then negb v else bm_bit b j.
Proof.
  intros Hwf Hs Hc. unfold bitmap_scan_and_flip.
  destruct (bitmap_scan_spec b start cnt v Hwf Hs Hc) as (r & -> & Hr). simpl.
  destruct (Z.eqb_spec r BITMAP_ERROR) as [->|Hne]; simpl.
  { exists BITMAP_ERROR, b. done. }
  destruct Hr as [[-> _]|(? & ? & ? & ?)]; [done|].
  destruct (bitmap_set_multiple_bits b r cnt Hwf ltac:(lia) Hc ltac:(lia) (negb v))
    as (b' & -> & ? & ? & Hb). simpl.
  exists r, b'. split_and!; try done; [by right|]. by rewrite (proj2 (Z.eqb_neq r BITMAP_ERROR)) by done.
Qed.

(** ** The array of bits *)

Lemma bm_abs_lookup b (i : nat) v :
  bm_abs b !! i = Some v ↔ Z.of_nat i < bit_cnt b ∧ bm_bit b (Z.of_nat i) = v.
Proof.
  unfold bm_abs. rewrite list_lookup_fmap, fmap_Some. setoid_rewrite lookup_seq.
  split; [intros (j & [-> ?] & ->); simpl in *; split; [lia|done]|].
  intros [? <-]. exists i. split; [|done]. split; lia.
Qed.

Lemma length_bm_abs b : length (bm_abs b) = Z.to_nat (bit_cnt b).
Proof. unfold bm_abs. by rewrite length_fmap, length_seq. Qed.

Lemma bm_abs_ext b1 b2 :
  bit_cnt b1 = bit_cnt b2 → (∀ i, 0 ≤ i < bit_cnt b1 → bm_bit b1 i = bm_bit b2 i) →
  bm_abs b1 = bm_abs b2.
Proof.
  intros Hc Hb. apply list_eq. intros i. apply option_eq. intros v.
  rewrite !bm_abs_lookup, Hc. split; intros [? <-]; (split; [done|]);
    [symmetry|]; apply Hb; lia.
Qed.

(** Setting a run of bits is a store into the array of bits. *)
Lemma bm_abs_splice b b' start cnt v :
  0 ≤ start → 0 ≤ cnt → start + cnt ≤ bit_cnt b → bit_cnt b' = bit_cnt b →
  (∀ j, 0 ≤ j → bm_bit b' j = if (start <=? j) && (j <? start + cnt) then v else bm_bit b j) →
  bm_abs b' = splice (bm_abs b) (Z.to_nat start) (replicate (Z.to_nat cnt) v).
Proof.
  intros Hs Hc Hle Hcnt Hb. apply list_eq. intros i.
  pose proof (length_bm_abs b) as Hlen.
  destruct (decide (Z.of_nat i < bit_cnt b)) as [Hi|Hi].
  - transitivity (Some (bm_bit b' (Z.of_nat i))); [apply bm_abs_lookup; auto with lia|].
    rewrite Hb by lia.
    destruct (Z.leb_spec start (Z.of_nat i)), (Z.ltb_spec (Z.of_nat i) (start + cnt)); simpl;
      [rewrite lookup_splice_in by (rewrite length_replicate; lia);
       symmetry; apply lookup_replicate; split; [done|lia]| | |];
      rewrite lookup_splice_out by (rewrite length_replicate; lia);
      symmetry; apply bm_abs_lookup; auto.
  - rewrite !lookup_ge_None_2; [done|rewrite length_splice; rewrite ?length_replicate; lia|].
    rewrite length_bm_abs. lia.
Qed.

(** ** Properties *)

(** [bitmap_set_multiple] on a run inside the bitmap returns normally,
    preserves the representation invariant, and is exactly a store of [cnt]
    copies of [value] at [start] into the array of bits. *)
Theorem bitmap_set_multiple_refines (b : bitmap) (start cnt : Z) (value : bool)
    (Hwf : wf b) (Hs : 0 ≤ start) (Hc : 0 ≤ cnt) (Hle : start + cnt ≤ bit_cnt b) :
  ∃ b', bitmap_set_multiple b start cnt value = Ret b' ∧ wf b' ∧
    bm_abs b' = splice (bm_abs b) (Z.to_nat start) (replicate (Z.to_nat cnt) value).
Proof.
  destruct (bitmap_set_multiple_bits b start cnt Hwf Hs Hc Hle value)
    as (b' & ? & ? & ? & ?).
  exists b'. split_and!; try done. by apply bm_abs_splice.
Qed.

(** [bitmap_scan_and_flip] returns the first run of [cnt] bits equal to
    [value] at or after [start] and inverts that run and nothing else; it returns
    [BITMAP_ERROR] and changes nothing exactly when no such run exists. *)
Theorem bitmap_scan_and_flip_first_fit (b : bitmap) (start cnt : Z) (value : bool)
    (Hwf : wf b) (Hs : 0 ≤ start ≤ bit_cnt b) (Hc : 0 ≤ cnt) :
  ∃ r b', bitmap_scan_and_flip b start cnt value = Ret (r, b') ∧ wf b' ∧
    ((r = BITMAP_ERROR ∧ bm_abs b' = bm_abs b ∧
      ∀ k, start ≤ k → k + cnt ≤ bit_cnt b → ¬ run_at b k cnt value) ∨
     (start ≤ r ∧ r + cnt ≤ bit_cnt b ∧ run_at b r cnt value ∧
      (∀ k, start ≤ k < r → ¬ run_at b k cnt value) ∧
      bm_abs b' = splice (bm_abs b) (Z.to_nat r) (replicate (Z.to_nat cnt) (negb value)))).
Proof.
  destruct (bitmap_scan_and_flip_bits b start cnt value Hwf Hs Hc)
    as (r & b' & -> & Hr & Hwf' & Hcnt & Hb).
  exists r, b'. split_and!; [done..|]. destruct Hr as [[-> Hno]|(? & ? & ? & ?)].
  - left. split_and!; try done. apply bm_abs_ext; [done|]. intros i Hi. by rewrite Hb by lia.
  - right. split_and!; try done. apply bm_abs_splice; try done; try lia.
    intros j Hj. rewrite Hb by done. destruct Hwf as (? & _).
    rewrite (proj2 (Z.eqb_neq r BITMAP_ERROR)) by (unfold BITMAP_ERROR; lia). done.
Qed.

(** ** File round trip *)

Lemma length_words_to_bytes l : length (words_to_bytes l) = (4 * length l)%nat.
Proof.
  induction l as [|w l IH]; [done|]. unfold words_to_bytes in *. rewrite fmap_cons.
  change (mjoin (le_bytes 4 w :: (le_bytes 4 <$> l)))
    with (le_bytes 4 w ++ mjoin (le_bytes 4 <$> l)).
  rewrite length_app, length_le_bytes, IH. simpl. lia.
Qed.

Lemma bytes_to_words_to_bytes l :
  Forall (λ e, 0 ≤ e < 2 ^ 32) l → bytes_to_words (length l) (words_to_bytes l) = l.
Proof.
  induction 1 as [|w l Hw Hl IH]; [done|]. unfold words_to_bytes in *. rewrite fmap_cons.
  change (mjoin (le_bytes 4 w :: (le_bytes 4 <$> l)))
    with (le_bytes 4 w ++ mjoin (le_bytes 4 <$> l)).
  cbn [bytes_to_words length].
  rewrite take_app_length', drop_app_length' by (by rewrite length_le_bytes).
  rewrite IH, le_roundtrip by (simpl; lia). done.
Qed.

Lemma byte_cnt_words b : wf b → byte_cnt (bit_cnt b) = Z.of_nat (length (words_to_bytes (bits b))).
Proof.
  intros (Hc & Hl & _). rewrite length_words_to_bytes. unfold byte_cnt. rewrite <- Hl.
  rewrite wrap_small; [lia|]. rewrite Hl, elem_cnt_ceil by lia.
  pose proof (Z.mul_div_le (bit_cnt b + 31) 32 ltac:(lia)).
  pose proof (Z.div_pos (bit_cnt b + 31) 32). lia.
Qed.

Lemma last_mask_ones b :
  last_mask b = Z.ones (if bit_cnt b mod 32 =? 0 then 32 else bit_cnt b mod 32).
Proof.
  unfold last_mask, ELEM_BITS. pose proof (Z.mod_pos_bound (bit_cnt b) 32 ltac:(lia)).
  destruct (Z.eqb_spec (bit_cnt b mod 32) 0); [reflexivity|].
  rewrite Z.shiftl_1_l, Z.ones_equiv. apply wrap_small.
  assert (2 ^ (bit_cnt b mod 32) ≤ 2 ^ 32) by (apply Z.pow_le_mono_r; lia).
  assert (0 < 2 ^ (bit_cnt b mod 32)) by (apply Z.pow_pos_nonneg; lia). lia.
Qed.

(** Masking the last word keeps every bit of the bitmap. *)
Lemma mask_last_bits b e :
  wf b → 0 < bit_cnt b → bits b !! Z.to_nat (elem_cnt (bit_cnt b) - 1) = Some e →
  let b' := mk_bitmap (bit_cnt b)
    (<[Z.to_nat (elem_cnt (bit_cnt b) - 1) := Z.land e (last_mask b)]> (bits b)) in
  wf b' ∧ bm_abs b' = bm_abs b.
Proof.
  intros Hwf Hpos He b'. subst b'. pose proof Hwf as (Hc & Hl & Hw).
  pose proof (Forall_lookup_1 _ _ _ _ Hw He) as Hew; simpl in Hew.
  pose proof (elem_cnt_ceil (bit_cnt b) ltac:(lia)) as Hec. split.
  { repeat split; simpl; [lia|lia|by rewrite length_insert|].
    apply Forall_insert; [done|]. split; [apply Z.land_nonneg; lia|]. apply word_bound.
    - apply Z.land_nonneg; lia.
    - intros k Hk. by rewrite Z.land_spec, (testbit_high e). }
  apply bm_abs_ext; [done|]. simpl. intros i Hi. unfold bm_bit, elem_idx, ELEM_BITS; simpl.
  pose proof (Z.div_mod i 32 ltac:(lia)). pose proof (Z.mod_pos_bound i 32 ltac:(lia)).
  pose proof (Z.div_mod (bit_cnt b) 32 ltac:(lia)).
  pose proof (Z.mod_pos_bound (bit_cnt b) 32 ltac:(lia)).
  pose proof (Z.div_mod (bit_cnt b + 31) 32 ltac:(lia)).
  pose proof (Z.mod_pos_bound (bit_cnt b + 31) 32 ltac:(lia)).
  pose proof (lookup_lt_Some _ _ _ He).
  destruct (decide (i / 32 = elem_cnt (bit_cnt b) - 1)) as [Heq|Hne].
  - rewrite Heq, list_lookup_total_insert_eq, (list_lookup_total_correct _ _ _ He) by done.
    rewrite Z.land_spec, last_mask_ones. rewrite Z.ones_spec_low; [apply andb_true_r|].
    destruct (Z.eqb_spec (bit_cnt b mod 32) 0); lia.
  - rewrite list_lookup_total_insert_ne by (pose proof (Z.div_pos i 32); lia). done.
Qed.

(** What [bitmap_read] and [bitmap_write] need of a file: a complete write at
    offset 0 is read back. *)
Definition file_law {S} (write : list Z → Z → Z → S → outcome (Z * S))
    (read : Z → Z → S → outcome (list Z * S)) : Prop :=
  ∀ buf s s', write buf (Z.of_nat (length buf)) 0 s = Ret (Z.of_nat (length buf), s') →
    ∃ s'', read (Z.of_nat (length buf)) 0 s' = Ret (buf, s'').

(** A bitmap written with [bitmap_write] and read back with [bitmap_read]
    into any bitmap of the same size is the same array of bits, on any file that
    returns what was written to it. *)
Theorem bitmap_file_roundtrip {S} write read (b b0 : bitmap) (s s1 : S)
    (Hfile : file_law write read) (Hwf : wf b) (Hwf0 : wf b0)
    (Hcnt : bit_cnt b0 = bit_cnt b) (Hw : bitmap_write write b s = Ret (true, s1)) :
  ∃ b1 s2, bitmap_read read b0 s1 = Ret (true, b1, s2) ∧ wf b1 ∧ bm_abs b1 = bm_abs b.
Proof.
  unfold bitmap_write in Hw. rewrite byte_cnt_words in Hw by done. outcome_inv. subst.
  destruct (Hfile _ _ _ H) as [s2 Hread]. unfold bitmap_read.
  rewrite Hcnt, byte_cnt_words by done.
  assert (length (bits b0) = length (bits b)) as Hlen.
  { destruct Hwf as (_ & Hl & _), Hwf0 as (_ & Hl0 & _). rewrite Hcnt in Hl0. lia. }
  destruct (Z.ltb_spec 0 (bit_cnt b)) as [Hp|Hp]; simpl.
  - rewrite Hread. simpl. unfold memcpy.
    rewrite !length_words_to_bytes, Hlen, !Nat.leb_refl, splice_full; simpl;
      [|by rewrite length_take, !length_words_to_bytes, Hlen; lia].
    pose proof Hwf as (Hc & Hl & Hws).
    rewrite take_ge, bytes_to_words_to_bytes by (done || by rewrite length_words_to_bytes).
    destruct (array_get_in (bits b) (elem_cnt (bit_cnt b) - 1)) as (e & -> & He).
    { rewrite Hl, elem_cnt_ceil by lia.
      pose proof (Z.div_le_lower_bound (bit_cnt b + 31) 32 1). lia. }
    simpl. assert (last_mask b0 = last_mask b) as -> by (unfold last_mask; by rewrite Hcnt).
    rewrite array_set_in by (apply lookup_lt_Some in He; rewrite Hl, elem_cnt_ceil in * by lia;
      pose proof (Z.div_le_lower_bound (bit_cnt b + 31) 32 1); lia).
    simpl. rewrite Z.eqb_refl. destruct (mask_last_bits b e Hwf Hp He). eauto.
  - destruct Hwf as (? & ?). exists b0, s1. split_and!; try done.
    unfold bm_abs. replace (bit_cnt b0) with 0 by lia. by replace (bit_cnt b) with 0 by lia.
Qed.

(** A fresh bitmap has every bit clear, whatever the memory held. *)
Lemma bitmap_create_spec words cnt :
  wf (mk_bitmap cnt words) →
  ∃ b, bitmap_create true (Some words) cnt = Ret (Some b) ∧ wf b ∧ bit_cnt b = cnt ∧
    ∀ i, 0 ≤ i < cnt → bm_bit b i = false.
Proof.
  intros Hwf. pose proof Hwf as (Hc & _). simpl in *. unfold bitmap_set_all, bitmap_size. simpl.
  destruct (bitmap_set_multiple_bits (mk_bitmap cnt words) 0 cnt Hwf ltac:(lia) ltac:(lia) ltac:(simpl; lia) false)
    as (b & -> & ? & ? & Hb). simpl.
  exists b. split_and!; try done. intros i Hi. rewrite Hb by lia.
  destruct (Z.leb_spec 0 i), (Z.ltb_spec i (0 + cnt)); done || lia.
Qed.

(** [bitmap_count] counts the bits of the run that have the value. *)
Lemma count_loop_spec b start i n v acc :
  wf b → 0 ≤ start → 0 ≤ i → start + i + Z.of_nat n ≤ bit_cnt b →
  0 ≤ acc → acc + Z.of_nat n < 2 ^ 32 →
  count_loop b start i n v acc =
    Ret (acc + Z.of_nat (length (filter (λ j : nat, bm_bit b (Z.of_nat j) = v)
                                        (seq (Z.to_nat (start + i)) n)))).
Proof.
  revert i acc. induction n as [|n IH]; intros i acc Hwf Hs Hi Hle Ha Hn; simpl.
  { f_equal. lia. }
  pose proof Hwf as (Hc & _). rewrite (wrap_small 32 (start + i)), bitmap_test_spec by (done || lia). simpl.
  rewrite filter_cons, Z2Nat.id by lia.
  replace (S (Z.to_nat (start + i))) with (Z.to_nat (start + (i + 1))) by lia.
  destruct (Bool.eqb_spec (bm_bit b (start + i)) v) as [Hv|Hv].
  - rewrite decide_True by done. rewrite wrap_small by lia. rewrite IH by (done || lia).
    simpl. f_equal. lia.
  - rewrite decide_False by done. rewrite IH by (done || lia). done.
Qed.

(** [bitmap_count] returns the number of bits of the run that equal
    [value]: no increment is lost to wrap-around. *)
Theorem bitmap_count_exact (b : bitmap) (start cnt : Z) (value : bool)
    (Hwf : wf b) (Hs : 0 ≤ start) (Hc : 0 ≤ cnt) (Hle : start + cnt ≤ bit_cnt b) :
  bitmap_count b start cnt value =
    Ret (Z.of_nat (length (filter (eq value) (slice (bm_abs b) (Z.to_nat start) (Z.to_nat cnt))))).
Proof.
  pose proof Hwf as (Hbc & _).
  unfold bitmap_count. destruct (run_asserts b start cnt Hwf Hs Hc Hle) as [-> ->]. simpl.
  rewrite count_loop_spec by (done || lia). rewrite Z.add_0_r, Z.add_0_l. do 2 f_equal.
  unfold bm_abs, slice. rewrite <- fmap_drop, <- fmap_take, drop_seq, take_seq by lia.
  rewrite Nat.add_0_l, Nat.min_l by lia.
  induction (seq (Z.to_nat start) (Z.to_nat cnt)) as [|j l IH]; [done|].
  rewrite fmap_cons, !filter_cons.
  destruct (decide (bm_bit b (Z.of_nat j) = value)) as [->|];
    [rewrite decide_True by done; simpl; by rewrite IH|rewrite decide_False by done; done].
Qed.

(** ** Witnesses *)

Definition demo : bitmap := mk_bitmap 40 [5; 128].

Lemma demo_wf : wf demo.
Proof. repeat split; simpl; try lia. repeat constructor; lia. Qed.

Lemma bitmap_set_multiple_refines_witness :
  ∃ b', bitmap_set_multiple demo 30 5 true = Ret b' ∧ wf b' ∧
    bm_abs b' = splice (bm_abs demo) 30 (replicate 5 true).
Proof. apply (bitmap_set_multiple_refines demo 30 5 true); [exact demo_wf|simpl; lia..]. Defined.

Lemma bitmap_scan_and_flip_first_fit_witness :
  ∃ r b', bitmap_scan_and_flip demo 0 2 false = Ret (r, b') ∧ wf b' ∧
    ((r = BITMAP_ERROR ∧ bm_abs b' = bm_abs demo ∧
      ∀ k, 0 ≤ k → k + 2 ≤ bit_cnt demo → ¬ run_at demo k 2 false) ∨
     (0 ≤ r ∧ r + 2 ≤ bit_cnt demo ∧ run_at demo r 2 false ∧
      (∀ k, 0 ≤ k < r → ¬ run_at demo k 2 false) ∧
      bm_abs b' = splice (bm_abs demo) (Z.to_nat r) (replicate 2 (negb false)))).
Proof.
  apply (bitmap_scan_and_flip_first_fit demo 0 2 false); [exact demo_wf|simpl; lia..].
Defined.

(** A file held in memory. *)
Definition ram_write (buf : list Z) (size ofs : Z) (s : list Z) : outcome (Z * list Z) :=
  Ret (size, take (Z.to_nat size) buf).
Definition ram_read (size ofs : Z) (s : list Z) : outcome (list Z * list Z) := Ret (s, s).

Lemma bitmap_file_roundtrip_witness :
  ∃ b1 s2, bitmap_read ram_read (mk_bitmap 40 [0; 0]) (words_to_bytes (bits demo))
           = Ret (true, b1, s2) ∧ wf b1 ∧ bm_abs b1 = bm_abs demo.
Proof.
  apply (bitmap_file_roundtrip ram_write ram_read demo (mk_bitmap 40 [0; 0]) []).
  - intros buf s s' Hw. unfold ram_write, ram_read in *. injection Hw as <-.
    exists (take (Z.to_nat (Z.of_nat (length buf))) buf).
    by rewrite Nat2Z.id, take_ge by lia.
  - exact demo_wf.
  - repeat split; simpl; try lia. repeat constructor; lia.
  - reflexivity.
  - reflexivity.
Defined.

Lemma bitmap_count_exact_witness :
  bitmap_count demo 0 40 true =
    Ret (Z.of_nat (length (filter (eq true) (slice (bm_abs demo) 0 40)))).
Proof. apply (bitmap_count_exact demo 0 40 true); [exact demo_wf|simpl; lia..]. Defined.

End Bitmap.
