(* ===== verification/Strings.v ===== *)
(** * C strings ([lib/string.c])

    A read-only pointer is the contents of its object from the pointer on; a
    pointer returned into an object is an offset.  Reading or writing past the
    end of the object is undefined.  [strtok_r] and [memmove] work inside one
    object with offsets. *)

From stdpp Require Import base tactics numbers list list_numbers option.
From S2P Require Import Prelude.

Open Scope Z_scope.

Module Strings.

(** ** Blocks of bytes *)

Fixpoint memcpy (n : nat) (dst src : list Z) : outcome (list Z) :=
  match n with
  | O => Ret dst
  | S n => match dst, src with
           | _ :: dst, c :: src => dst ← memcpy n dst src; Ret (c :: dst)
           | _, _ => UB
           end
  end.

Fixpoint memset (n : nat) (dst : list Z) (value : Z) : outcome (list Z) :=
  match n with
  | O => Ret dst
  | S n => match dst with
           | _ :: dst => dst ← memset n dst value; Ret (u8 value :: dst)
           | [] => UB
           end
  end.

Fixpoint memcmp (n : nat) (a b : list Z) : outcome Z :=
  match n with
  | O => Ret 0
  | S n => match a, b with
           | x :: a, y :: b => if negb (x =? y) then Ret (if y <? x then 1 else -1) else memcmp n a b
           | _, _ => UB
           end
  end.

Fixpoint memchr (n : nat) (block : list Z) (ch : Z) : outcome (option Z) :=
  match n with
  | O => Ret None
  | S n => match block with
           | c :: block => if c =? u8 ch then Ret (Some 0)
                           else r ← memchr n block ch; Ret (option_map Z.succ r)
           | [] => UB
           end
  end.

(** The two loops of [memmove] inside the object [m]; the result is the pointer
    left in [dst] and the object. *)
Fixpoint move_up (n : nat) (m : list Z) (dst src : Z) : outcome (Z * list Z) :=
  match n with
  | O => Ret (dst, m)
  | S n => c ← array_get m src; m ← array_set m dst c; move_up n m (dst + 1) (src + 1)
  end.

Fixpoint move_down (n : nat) (m : list Z) (dst src : Z) : outcome (Z * list Z) :=
  match n with
  | O => Ret (dst, m)
  | S n =>
      let dst := dst - 1 in
      let src := src - 1 in
      c ← array_get m src; m ← array_set m dst c; move_down n m dst src
  end.

Definition memmove (m : list Z) (dst src : Z) (size : nat) : outcome (Z * list Z) :=
  if dst <? src then move_up size m dst src
  else move_down size m (dst + Z.of_nat size) (src + Z.of_nat size).

(** ** Strings *)

Fixpoint strlen (s : list Z) : outcome Z :=
  match s with
  | [] => UB
  | c :: s => if c =? 0 then Ret 0 else n ← strlen s; Ret (n + 1)
  end.

Fixpoint strnlen (n : nat) (s : list Z) : outcome Z :=
  match s with
  | [] => UB
  | c :: s =>
      if c =? 0 then Ret 0
      else match n with O => Ret 0 | S n => k ← strnlen n s; Ret (k + 1) end
  end.

Fixpoint strcmp (a b : list Z) : outcome Z :=
  match a, b with
  | x :: a, y :: b =>
      if negb (x =? 0) && (x =? y) then strcmp a b
      else Ret (if x <? y then -1 else if y <? x then 1 else 0)
  | _, _ => UB
  end.

(** The offset of the first [c], or nothing when the terminator comes first. *)
Fixpoint strchr (s : list Z) (c : Z) : outcome (option Z) :=
  match s with
  | [] => UB
  | x :: s =>
      if x =? c then Ret (Some 0)
      else if x =? 0 then Ret None
      else r ← strchr s c; Ret (option_map Z.succ r)
  end.

Fixpoint strcspn (s stop : list Z) : outcome Z :=
  match s with
  | [] => UB
  | x :: s =>
      if x =? 0 then Ret 0
      else r ← strchr stop x;
           if bool_decide (is_Some r) then Ret 0 else n ← strcspn s stop; Ret (n + 1)
  end.

Fixpoint strspn (s skip : list Z) : outcome Z :=
  match s with
  | [] => UB
  | x :: s =>
      if x =? 0 then Ret 0
      else r ← strchr skip x;
           if bool_decide (is_Some r) then n ← strspn s skip; Ret (n + 1) else Ret 0
  end.

Fixpoint strpbrk (s stop : list Z) : outcome (option Z) :=
  match s with
  | [] => UB
  | x :: s =>
      if x =? 0 then Ret None
      else r ← strchr stop x;
           if bool_decide (is_Some r) then Ret (Some 0)
           else n ← strpbrk s stop; Ret (option_map Z.succ n)
  end.

(** [pos]: the offset of [s]; [p]: the last occurrence so far. *)
Fixpoint strrchr_loop (s : list Z) (c pos : Z) (p : option Z) : outcome (option Z) :=
  match s with
  | [] => UB
  | x :: s => if x =? 0 then Ret p
              else strrchr_loop s c (pos + 1) (if x =? c then Some pos else p)
  end.

Definition strrchr (s : list Z) (c : Z) : outcome (option Z) := strrchr_loop s c 0 None.

(** [n] more starting points from [i] on. *)
Fixpoint strstr_loop (n : nat) (haystack needle : list Z) (needle_len : nat) (i : Z)
    : outcome (option Z) :=
  match n with
  | O => Ret None
  | S n =>
      r ← memcmp needle_len haystack needle;
      if r =? 0 then Ret (Some i)
      else match haystack with
           | _ :: haystack => strstr_loop n haystack needle needle_len (i + 1)
           | [] => UB
           end
  end.

Definition strstr (haystack needle : list Z) : outcome (option Z) :=
  haystack_len ← strlen haystack;
  needle_len ← strlen needle;
  if needle_len <=? haystack_len then
    strstr_loop (Z.to_nat (haystack_len - needle_len + 1)) haystack needle (Z.to_nat needle_len) 0
  else Ret None.

Definition strlcpy (dst src : list Z) (size : Z) : outcome (Z * list Z) :=
  src_len ← strlen src;
  if 0 <? size then
    let dst_len := size - 1 in
    let dst_len := if src_len <? dst_len then src_len else dst_len in
    dst ← memcpy (Z.to_nat dst_len) dst src;
    dst ← array_set dst dst_len 0;
    Ret (src_len, dst)
  else Ret (src_len, dst).

Definition strlcat (dst src : list Z) (size : Z) : outcome (Z * list Z) :=
  src_len ← strlen src;
  dst_len ← strlen dst;
  if (0 <? size) && (dst_len <? size) then
    let copy_cnt := size - dst_len - 1 in
    let copy_cnt := if src_len <? copy_cnt then src_len else copy_cnt in
    tl ← memcpy (Z.to_nat copy_cnt) (drop (Z.to_nat dst_len) dst) src;
    dst ← array_set (take (Z.to_nat dst_len) dst ++ tl) (dst_len + copy_cnt) 0;
    Ret (src_len + dst_len, dst)
  else Ret (src_len + dst_len, dst).

(** ** [strtok_r] *)

(** Skips delimiters from offset [s], whose object continues with [p]; true when
    the end of the string is reached. *)
Fixpoint skip_delims (delimiters p : list Z) (s : Z) : outcome (bool * Z) :=
  match p with
  | [] => UB
  | c :: p =>
      r ← strchr delimiters c;
      match r with
      | None => Ret (false, s)
      | Some _ => if c =? 0 then Ret (true, s) else skip_delims delimiters p (s + 1)
      end
  end.

Fixpoint skip_token (delimiters p : list Z) (s : Z) : outcome Z :=
  match p with
  | [] => UB
  | c :: p =>
      r ← strchr delimiters c;
      match r with
      | None => skip_token delimiters p (s + 1)
      | Some _ => Ret s
      end
  end.

(** The token, the object and [*save_ptr]. *)
Definition strtok_r (delimiters m : list Z) (s : Z) : outcome (option Z * list Z * Z) :=
  '(at_end, s) ← skip_delims delimiters (drop (Z.to_nat s) m) s;
  if at_end : bool then Ret (None, m, s)
  else
    let token := s in
    s ← skip_token delimiters (drop (Z.to_nat s) m) s;
    c ← array_get m s;
    if negb (c =? 0) then m ← array_set m s 0; Ret (Some token, m, s + 1)
    else Ret (Some token, m, s).

(** The usual loop: collects tokens and gives up at the [limit]. *)
Fixpoint collect_tokens (fuel : nat) (limit : Z) (delimiters m : list Z) (s : Z) (acc : list Z)
    : outcome (option (list Z) * list Z) :=
  match fuel with
  | O => UB
  | S fuel =>
      '(token, m, save_ptr) ← strtok_r delimiters m s;
      match token with
      | None => Ret (Some acc, m)
      | Some t =>
          if limit <=? Z.of_nat (length acc) then Ret (None, m)
          else collect_tokens fuel limit delimiters m save_ptr (acc ++ [t])
      end
  end.

(** ** Specifications *)

(** The bytes of a C string before its terminator. *)
Fixpoint c_str (s : list Z) : list Z :=
  match s with
  | [] => []
  | c :: s => if c =? 0 then [] else c :: c_str s
  end.

(** No terminator inside. *)
Definition text (s : list Z) : Prop := Forall (λ c, c ≠ 0) s.

#[global] Instance text_dec s : Decision (text s).
Proof. unfold text. apply _. Defined.

(** The maximal runs of characters outside [d]. *)
Fixpoint runs (d cur s : list Z) : list (list Z) :=
  match s with
  | [] => if decide (cur = []) then [] else [cur]
  | c :: s =>
      if decide (c ∈ d)
      then (if decide (cur = []) then [] else [cur]) ++ runs d [] s
      else runs d (cur ++ [c]) s
  end.

(** ** Lemmas *)

Lemma c_str_app s r : text s → c_str (s ++ 0 :: r) = s.
Proof.
  induction 1 as [|c s Hc Hs IH]; [done|]. cbn. rewrite (proj2 (Z.eqb_neq c 0)) by done. by rewrite IH.
Qed.

Lemma strlen_run s r : text s → strlen (s ++ 0 :: r) = Ret (Z.of_nat (length s)).
Proof.
  induction 1 as [|c s Hc Hs IH]; [done|]. cbn [app strlen length].
  rewrite (proj2 (Z.eqb_neq c 0)), IH, Ret_bind by done. f_equal. lia.
Qed.

(** [strcmp] returns 0 exactly on equal strings. *)
Lemma strcmp_run a b r r' : text a → text b →
  ∃ v, strcmp (a ++ 0 :: r) (b ++ 0 :: r') = Ret v ∧ (v = 0 ↔ a = b).
Proof.
  intros Ha. revert b. induction Ha as [|x a Hx Ha IH]; intros b Hb.
  - destruct Hb as [|y b Hy Hb]; cbn; [by exists 0|].
    destruct (Z.ltb_spec 0 y); [by exists (-1)|]. rewrite (proj2 (Z.ltb_lt y 0)) by lia. by exists 1.
  - destruct Hb as [|y b Hy Hb]; cbn [app strcmp].
    + rewrite (proj2 (Z.eqb_neq x 0)) by done. cbn [negb andb].
      destruct (Z.ltb_spec x 0); [by exists (-1)|]. rewrite (proj2 (Z.ltb_lt 0 x)) by lia. by exists 1.
    + rewrite (proj2 (Z.eqb_neq x 0)) by done. cbn [negb andb]. destruct (Z.eqb_spec x y) as [->|Hne].
      * destruct (IH b Hb) as (v & -> & Hv). exists v. split; [done|]. rewrite Hv. naive_solver.
      * destruct (Z.ltb_spec x y); [exists (-1)|rewrite (proj2 (Z.ltb_lt y x)) by lia; exists 1];
          (split; [reflexivity|]; split; [discriminate|congruence]).
Qed.

Lemma strchr_run d c r : text d → c ≠ 0 →
  ∃ o, strchr (d ++ 0 :: r) c = Ret o ∧ (is_Some o ↔ c ∈ d).
Proof.
  intros Hd Hc. induction Hd as [|x d Hx Hd IH]; cbn [app strchr].
  - rewrite (proj2 (Z.eqb_neq 0 c)) by done. exists None. split; [done|].
    rewrite elem_of_nil, is_Some_alt. done.
  - destruct (Z.eqb_spec x c) as [->|Hne].
    + exists (Some 0). split; [done|]. rewrite elem_of_cons. split; eauto.
    + rewrite (proj2 (Z.eqb_neq x 0)) by done. destruct IH as (o & -> & Ho). rewrite Ret_bind.
      exists (option_map Z.succ o). split; [done|]. rewrite elem_of_cons, <- Ho.
      destruct o; cbn; rewrite !is_Some_alt; naive_solver.
Qed.

Lemma strchr_nul d r : text d → strchr (d ++ 0 :: r) 0 = Ret (Some (Z.of_nat (length d))).
Proof.
  induction 1 as [|x d Hx Hd IH]; [done|]. cbn [app strchr length].
  rewrite (proj2 (Z.eqb_neq x 0)), IH, Ret_bind by done. cbn [option_map]. do 2 f_equal. lia.
Qed.

Lemma str_memcpy_run n dst src :
  (n ≤ length dst)%nat → (n ≤ length src)%nat →
  memcpy n dst src = Ret (take n src ++ drop n dst).
Proof.
  revert dst src. induction n as [|n IH]; intros [|x dst] [|c src] Hd Hs; cbn in *; try lia; try done.
  rewrite IH, Ret_bind by lia. done.
Qed.

(** ** Tokens *)

Lemma text_app3 a b c : text (a ++ b ++ c) → text a ∧ text b ∧ text c.
Proof. intros H. apply Forall_app in H as [? H]. apply Forall_app in H as [? ?]. done. Qed.

Section tokens.
Context (d : list Z) (Hd : text d).
Local Abbreviation delims := (d ++ [0]).

Lemma runs_cur cur s : cur ≠ [] →
  ∃ tok rest, s = tok ++ rest ∧ Forall (λ c, c ∉ d) tok ∧
    match rest with [] => True | c :: _ => c ∈ d end ∧
    runs d cur s = (cur ++ tok) :: runs d [] (tail rest).
Proof using Type.
  revert cur. induction s as [|c s IH]; intros cur Hcur; cbn [runs].
  - exists [], []. rewrite decide_False by done. split_and!; [done|by apply Forall_nil_2|done|by rewrite app_nil_r].
  - case_decide as Hc.
    + exists [], (c :: s). rewrite decide_False by done. split_and!; [done|by apply Forall_nil_2|done|by rewrite app_nil_r].
    + destruct (IH (cur ++ [c])) as (tok & rest & -> & Ht & Hr & ->); [by destruct cur|].
      exists (c :: tok), rest. split_and!; [done|by constructor|done|]. by rewrite <- app_assoc.
Qed.

Lemma runs_split s :
  ∃ ds tok rest, s = ds ++ tok ++ rest ∧ Forall (λ c, c ∈ d) ds ∧ Forall (λ c, c ∉ d) tok ∧
    (tok = [] → rest = []) ∧ match rest with [] => True | c :: _ => c ∈ d end ∧
    runs d [] s = (if decide (tok = []) then [] else [tok]) ++ runs d [] (tail rest).
Proof using Type.
  induction s as [|c s IH].
  - exists [], [], []. split_and!; [done|by apply Forall_nil_2|by apply Forall_nil_2|done..].
  - cbn [runs]. case_decide as Hc.
    + destruct IH as (ds & tok & rest & -> & ? & ? & ? & ? & ->).
      exists (c :: ds), tok, rest. split_and!; try done. by constructor.
    + destruct (runs_cur ([] ++ [c]) s) as (tok & rest & -> & Ht & Hr & ->); [done|].
      exists [], (c :: tok), rest. split_and!; try done. by constructor.
Qed.

Lemma skip_delims_run ds p o : text ds → Forall (λ c, c ∈ d) ds →
  skip_delims delims (ds ++ p) o = skip_delims delims p (o + Z.of_nat (length ds)).
Proof using Hd.
  intros Ht Hin. revert o Ht. induction Hin as [|c ds Hc Hin IH]; intros o Ht; cbn [app length].
  - f_equal. lia.
  - apply Forall_cons_1 in Ht as [Hc0 Ht]. cbn [skip_delims].
    destruct (strchr_run d c [] Hd Hc0) as (r & -> & Hr). rewrite Ret_bind.
    apply Hr in Hc as [x ->]. rewrite (proj2 (Z.eqb_neq c 0)), IH by done. f_equal. lia.
Qed.

Lemma skip_token_run tok p o : text tok → Forall (λ c, c ∉ d) tok →
  skip_token delims (tok ++ p) o = skip_token delims p (o + Z.of_nat (length tok)).
Proof using Hd.
  intros Ht Hin. revert o Ht. induction Hin as [|c tok Hc Hin IH]; intros o Ht; cbn [app length].
  - f_equal. lia.
  - apply Forall_cons_1 in Ht as [Hc0 Ht]. cbn [skip_token].
    destruct (strchr_run d c [] Hd Hc0) as (r & -> & Hr). rewrite Ret_bind.
    destruct r as [x|]; [destruct Hc; apply Hr; eauto|]. rewrite IH by done. f_equal. lia.
Qed.

Lemma strchr_in c : c ∈ 0 :: d → ∃ x, strchr delims c = Ret (Some x).
Proof using Hd.
  intros [->|Hc]%elem_of_cons.
  - eexists. by apply strchr_nul.
  - assert (c ≠ 0) as Hc0 by (intros ->; by apply (proj1 (list.Forall_forall _ _) Hd 0 Hc)).
    destruct (strchr_run d c [] Hd Hc0) as (r & Hr & Hi). apply Hi in Hc as [x ->]. eauto.
Qed.

(** One call: the string from offset [o] on starts with delimiters [ds] and the
    token [tok], which is cut off from the [rest]. *)
Lemma strtok_r_run pre ds tok rest o :
  text (ds ++ tok ++ rest) → Forall (λ c, c ∈ d) ds → Forall (λ c, c ∉ d) tok →
  (tok = [] → rest = []) → match rest with [] => True | c :: _ => c ∈ d end →
  o = Z.of_nat (length pre) →
  let t := o + Z.of_nat (length ds) in
  strtok_r delims (pre ++ (ds ++ tok ++ rest) ++ [0]) o =
    if decide (tok = []) then Ret (None, pre ++ (ds ++ tok ++ rest) ++ [0], t)
    else Ret (Some t, pre ++ ds ++ tok ++ 0 :: match rest with [] => [] | _ :: r => r ++ [0] end,
              t + Z.of_nat (length tok) + match rest with [] => 0 | _ => 1 end).
Proof using Hd.
  intros (Htd & Htt & Htr)%text_app3 Hds Htok He Hr -> t.
  set (m := pre ++ (ds ++ tok ++ rest) ++ [0]).
  assert (m = pre ++ ds ++ tok ++ rest ++ [0]) as Hm by (unfold m; by rewrite <- !app_assoc).
  assert (drop (Z.to_nat (Z.of_nat (length pre))) m = ds ++ tok ++ rest ++ [0]) as Hd1.
  { rewrite Hm, Nat2Z.id. apply drop_app_length. }
  assert (drop (Z.to_nat t) m = tok ++ rest ++ [0]) as Hd2.
  { rewrite Hm, app_assoc. apply drop_app_length'. rewrite length_app. unfold t. lia. }
  unfold strtok_r. rewrite Hd1, skip_delims_run by done. fold t. case_decide as Htk.
  { subst tok. rewrite (He eq_refl). cbn [app skip_delims].
    destruct (strchr_in 0) as [x ->]; [by left|]. by rewrite Ret_bind. }
  assert (skip_delims delims (tok ++ rest ++ [0]) t = Ret (false, t)) as ->.
  { destruct tok as [|c tok]; [done|]. cbn [app skip_delims].
    apply Forall_cons_1 in Htt as [Hc0 _]. apply Forall_cons_1 in Htok as [Hcd _].
    destruct (strchr_run d c [] Hd Hc0) as (r & -> & Hi). rewrite Ret_bind.
    destruct r as [x|]; [destruct Hcd; apply Hi; eauto|done]. }
  rewrite Ret_bind. cbn beta iota zeta. rewrite Hd2, skip_token_run by done.
  set (e := t + Z.of_nat (length tok)).
  assert (∃ q r', rest ++ [0] = q :: r' ∧ q ∈ 0 :: d ∧ (q = 0 → rest = []) ∧
            r' = match rest with [] => [] | _ :: r => r ++ [0] end) as (q & r' & Hq & Hqd & Hq0 & <-).
  { destruct rest as [|y rest]; [exists 0, []; split_and!; [done|by left|done..]|].
    exists y, (rest ++ [0]). split_and!; [done|by right| |done].
    intros ->. apply Forall_cons_1 in Htr as [? _]. done. }
  assert (m = (pre ++ ds ++ tok) ++ q :: r') as Hm' by (rewrite Hm, Hq; by rewrite <- !app_assoc).
  assert (Z.to_nat e = length (pre ++ ds ++ tok)) as Hen by (unfold e, t; rewrite !length_app; lia).
  rewrite Hq. cbn [skip_token]. destruct (strchr_in q Hqd) as [z ->]. rewrite !Ret_bind.
  unfold array_get. rewrite (proj2 (Z.leb_le 0 e)) by lia.
  rewrite Hen, Hm', list_lookup_middle, Ret_bind by done.
  destruct (Z.eqb_spec q 0) as [->|Hq0']; cbn [negb].
  - rewrite (Hq0 eq_refl). rewrite Z.add_0_r. do 3 f_equal. by rewrite <- !app_assoc.
  - rewrite array_set_in by (rewrite length_app; cbn; lia).
    rewrite Ret_bind, Hen, insert_app_r_alt, Nat.sub_diag by lia. cbn [list_insert].
    assert (rest ≠ []) as Hne by (intros ->; cbn in Hq; congruence).
    destruct rest; [done|]. do 3 f_equal. by rewrite <- !app_assoc.
Qed.

(** What the object looks like after a call that found [tok]. *)
Lemma after_token pre ds tok rest :
  ∃ pre' s', s' = tail rest ∧ (length s' ≤ length rest)%nat ∧
    pre ++ ds ++ tok ++ 0 :: match rest with [] => [] | _ :: r => r ++ [0] end = pre' ++ s' ++ [0] ∧
    Z.of_nat (length pre) + Z.of_nat (length ds) + Z.of_nat (length tok) +
      match rest with [] => 0 | _ => 1 end = Z.of_nat (length pre') ∧
    (length pre' + length s' = length pre + length (ds ++ tok ++ rest))%nat ∧
    ∀ m', take (length pre') m' = pre' → m' !! (length pre' + length s')%nat = Some 0 →
      take (length pre) m' = pre ∧
      ∃ z, drop (length pre + length ds) m' = tok ++ 0 :: z.
Proof using Type.
  destruct rest as [|c r].
  - exists (pre ++ ds ++ tok), []. split; [done|]. split; [done|]. split; [by rewrite <- !app_assoc|].
    split; [rewrite !length_app; lia|]. split; [rewrite !length_app; cbn; lia|]. intros m' Ht Hz.
    cbn [length] in Hz. rewrite Nat.add_0_r in Hz.
    rewrite <- (take_drop_middle m' _ 0 Hz), Ht. rewrite <- !app_assoc.
    split; [apply take_app_length|]. rewrite app_assoc.
    rewrite drop_app_length' by (by rewrite length_app). eauto.
  - exists (pre ++ ds ++ tok ++ [0]), r. split; [done|]. split; [cbn; lia|]. split.
    { rewrite <- !app_assoc. cbn. done. }
    split; [rewrite !length_app; cbn; lia|]. split; [rewrite !length_app; cbn; lia|]. intros m' Ht _.
    rewrite <- (take_drop (length (pre ++ ds ++ tok ++ [0])) m'), Ht. rewrite <- !app_assoc.
    split; [apply take_app_length|]. rewrite app_assoc.
    rewrite drop_app_length' by (by rewrite length_app). eauto.
Qed.

(** The loop finds the runs, each terminated in the final object. *)
Lemma collect_tokens_run fuel limit s pre acc :
  text s → (length s < fuel)%nat → Z.of_nat (length acc) ≤ limit →
  if decide (Z.of_nat (length acc + length (runs d [] s)) ≤ limit) then
    ∃ toks m',
      collect_tokens fuel limit delims (pre ++ s ++ [0]) (Z.of_nat (length pre)) acc =
        Ret (Some (acc ++ toks), m') ∧
      take (length pre) m' = pre ∧ m' !! (length pre + length s)%nat = Some 0 ∧
      Forall2 (λ o tok, c_str (drop (Z.to_nat o) m') = tok ∧ ∃ z, drop (Z.to_nat o) m' = tok ++ 0 :: z) toks (runs d [] s)
  else ∃ m', collect_tokens fuel limit delims (pre ++ s ++ [0]) (Z.of_nat (length pre)) acc =
         Ret (None, m').
Proof using Hd.
  revert s pre acc. induction fuel as [|fuel IH]; intros s pre acc Hs Hf Hl; [lia|].
  destruct (runs_split s) as (ds & tok & rest & -> & Hds & Htok & He & Hr & Hruns).
  cbn [collect_tokens]. rewrite strtok_r_run by done. rewrite Hruns.
  destruct (decide (tok = [])) as [Htk|Htk].
  - rewrite (He Htk), Htk. change (runs d [] (tail [])) with (@nil (list Z)). cbn [length app].
    rewrite Nat.add_0_r, decide_True by done. rewrite Ret_bind. cbn beta iota.
    exists [], (pre ++ (ds ++ []) ++ [0]). rewrite !app_nil_r.
    split_and!; [done|apply take_app_length| |constructor]. rewrite app_assoc. apply list_lookup_middle. by rewrite length_app.
  - rewrite Ret_bind. cbn beta iota. cbn [app length].
    destruct (Z.leb_spec limit (Z.of_nat (length acc))) as [Hlim|Hlim].
    { rewrite decide_False by lia. eauto. }
    pose proof Hs as (_ & Ht & Htr)%text_app3.
    destruct (after_token pre ds tok rest) as (pre' & s' & Hs' & Hls & -> & -> & Hpl & Haft).
    assert (text s') as Hts by (subst s'; destruct rest; [by apply Forall_nil_2|by apply Forall_cons_1 in Htr as [_ ?]]).
    assert (0 < length tok)%nat by (destruct tok; cbn; [done|lia]).
    specialize (IH s' pre' (acc ++ [Z.of_nat (length pre) + Z.of_nat (length ds)]) Hts).
    rewrite !length_app in Hf. rewrite !length_app in IH. cbn [length] in IH. specialize (IH ltac:(lia) ltac:(lia)).
    rewrite <- Hs'.
    replace (length acc + S (length (runs d [] s')))%nat
      with (length acc + 1 + length (runs d [] s'))%nat by lia.
    case_decide; [|done]. destruct IH as (toks & m' & -> & Htk' & Hz & Hall).
    destruct (Haft m' Htk' Hz) as (Hpre & z & Hdz).
    exists ((Z.of_nat (length pre) + Z.of_nat (length ds)) :: toks), m'. split_and!.
    + by rewrite <- app_assoc.
    + done.
    + rewrite <- Hpl. done.
    + constructor; [|done].
      replace (Z.to_nat (Z.of_nat (length pre) + Z.of_nat (length ds))) with (length pre + length ds)%nat by lia.
      rewrite Hdz. split; [by apply c_str_app|eauto].
Qed.
End tokens.

(** ** Overlapping moves *)

(** A byte stored outside a range does not change what is read there. *)
Lemma slice_insert_ne (m : list Z) i c o n : (i < o ∨ o + n ≤ i)%nat →
  slice (<[i := c]> m) o n = slice m o n.
Proof.
  intros H. apply list_eq. intros j. destruct (decide (j < n)%nat) as [Hj|Hj].
  - rewrite !lookup_slice by done. apply list_lookup_insert_ne. lia.
  - unfold slice. by rewrite !lookup_take_ge by lia.
Qed.

Lemma splice_insert_front (m : list Z) i c l : (i + S (length l) ≤ length m)%nat →
  splice (<[i := c]> m) (S i) l = splice m i (c :: l).
Proof.
  intros H. apply list_eq. intros j. destruct (decide (i ≤ j < i + S (length l))%nat) as [Hj|Hj].
  - rewrite (lookup_splice_in m) by (cbn; lia). destruct (decide (j = i)) as [->|Hne].
    + rewrite lookup_splice_out by (rewrite ?length_insert; lia).
      rewrite list_lookup_insert_eq by lia. by rewrite Nat.sub_diag.
    + rewrite lookup_splice_in by (rewrite ?length_insert; lia).
      replace (j - i)%nat with (S (j - S i)) by lia. done.
  - rewrite !lookup_splice_out by (rewrite ?length_insert; cbn; lia).
    apply list_lookup_insert_ne. lia.
Qed.

Lemma splice_insert_back (m : list Z) i c l : (i + S (length l) ≤ length m)%nat →
  splice (<[(i + length l)%nat := c]> m) i l = splice m i (l ++ [c]).
Proof.
  intros H. assert (length (l ++ [c]) = S (length l)) as Hl by (rewrite length_app; cbn; lia).
  apply list_eq. intros j. destruct (decide (i ≤ j < i + S (length l))%nat) as [Hj|Hj].
  - rewrite (lookup_splice_in m) by (rewrite Hl; lia). destruct (decide (j = i + length l)%nat) as [->|Hne].
    + rewrite lookup_splice_out by (rewrite ?length_insert; lia).
      rewrite list_lookup_insert_eq by lia. rewrite lookup_app_r by lia.
      by replace (i + length l - i - length l)%nat with 0%nat by lia.
    + rewrite lookup_splice_in by (rewrite ?length_insert; lia). by rewrite lookup_app_l by lia.
  - rewrite !lookup_splice_out by (rewrite ?length_insert, ?Hl; lia).
    apply list_lookup_insert_ne. lia.
Qed.

Lemma slice_0 (m : list Z) o : slice m o 0 = [].
Proof. apply take_0. Qed.

Lemma slice_cons (m : list Z) o n c : m !! o = Some c → slice m o (S n) = c :: slice m (S o) n.
Proof. intros H. unfold slice. by rewrite (drop_S _ _ _ H). Qed.

Lemma slice_snoc (m : list Z) o n c : m !! (o + n)%nat = Some c → slice m o (S n) = slice m o n ++ [c].
Proof. intros H. unfold slice. apply take_S_r. by rewrite lookup_drop. Qed.

Lemma move_up_run n m dst src :
  (dst ≤ src)%nat → (src + n ≤ length m)%nat →
  move_up n m (Z.of_nat dst) (Z.of_nat src) = Ret (Z.of_nat (dst + n), splice m dst (slice m src n)).
Proof.
  revert m dst src. induction n as [|n IH]; intros m dst src Hd Hl; cbn [move_up].
  - by rewrite Nat.add_0_r, slice_0, splice_nil.
  - destruct (array_get_in m (Z.of_nat src)) as (c & -> & Hc); [lia|]. rewrite Ret_bind.
    rewrite Nat2Z.id in Hc. rewrite array_set_in, Ret_bind, Nat2Z.id by lia.
    replace (Z.of_nat dst + 1) with (Z.of_nat (S dst)) by lia.
    replace (Z.of_nat src + 1) with (Z.of_nat (S src)) by lia.
    rewrite IH by (rewrite ?length_insert; lia). f_equal. f_equal; [lia|].
    rewrite slice_insert_ne by lia. rewrite splice_insert_front by (rewrite length_slice; lia).
    by rewrite (slice_cons _ _ _ _ Hc).
Qed.

Lemma move_down_run n m dst src :
  (src ≤ dst)%nat → (dst + n ≤ length m)%nat →
  move_down n m (Z.of_nat (dst + n)) (Z.of_nat (src + n)) =
    Ret (Z.of_nat dst, splice m dst (slice m src n)).
Proof.
  revert m. induction n as [|n IH]; intros m Hd Hl; cbn [move_down].
  - by rewrite Nat.add_0_r, slice_0, splice_nil.
  - cbn zeta. replace (Z.of_nat (dst + S n) - 1) with (Z.of_nat (dst + n)) by lia.
    replace (Z.of_nat (src + S n) - 1) with (Z.of_nat (src + n)) by lia.
    destruct (array_get_in m (Z.of_nat (src + n))) as (c & -> & Hc); [lia|]. rewrite Ret_bind.
    rewrite Nat2Z.id in Hc. rewrite array_set_in, Ret_bind, Nat2Z.id by lia.
    rewrite IH by (rewrite ?length_insert; lia). do 2 f_equal.
    rewrite slice_insert_ne by lia. rewrite (slice_snoc _ _ _ _ Hc).
    rewrite <- splice_insert_back by (rewrite length_slice; lia). by rewrite length_slice by lia.
Qed.

(** ** Terminated copies *)

Lemma set_nul (p q : list Z) n : length p = n → (0 < length q)%nat →
  array_set (p ++ q) (Z.of_nat n) 0 = Ret (p ++ 0 :: tail q).
Proof.
  intros <- Hq. rewrite array_set_in by (rewrite length_app; lia).
  rewrite Nat2Z.id, insert_app_r_alt, Nat.sub_diag by lia. by destruct q; [cbn in Hq; lia|].
Qed.

Lemma tail_drop (l : list Z) k : tail (drop k l) = drop (S k) l.
Proof. revert l. induction k as [|k IH]; intros [|x l]; cbn; [done|done|done|apply IH]. Qed.

(** The string [p] stored at the start of [dst]. *)
Lemma put_string p dst size : text p → (length p < size)%nat → (size ≤ length dst)%nat →
  let dst' := p ++ 0 :: drop (S (length p)) dst in
  length dst' = length dst ∧ drop size dst' = drop size dst ∧ c_str dst' = p.
Proof.
  intros Ht Hp Hs dst'. unfold dst'. split_and!.
  - rewrite length_app. cbn. rewrite length_drop. lia.
  - rewrite drop_app_ge by lia. replace (size - length p)%nat with (S (size - length p - 1)) by lia.
    cbn [drop]. rewrite drop_drop. f_equal. lia.
  - by apply c_str_app.
Qed.

(** A string that fits is copied whole. *)
Lemma strlcpy_fits dst src r size : text src →
  Z.of_nat (length src) < size ≤ Z.of_nat (length dst) →
  strlcpy dst (src ++ 0 :: r) size =
    Ret (Z.of_nat (length src), src ++ 0 :: drop (S (length src)) dst).
Proof.
  intros Ht Hl. unfold strlcpy. rewrite strlen_run, Ret_bind, (proj2 (Z.ltb_lt 0 size)) by first [done|lia].
  cbn zeta. assert ((if Z.of_nat (length src) <? size - 1 then Z.of_nat (length src) else size - 1) =
                    Z.of_nat (length src)) as ->.
  { destruct (Z.ltb_spec (Z.of_nat (length src)) (size - 1)); lia. }
  rewrite Nat2Z.id, str_memcpy_run, Ret_bind by (rewrite ?length_app; lia).
  rewrite take_app_length, set_nul; [|done|rewrite length_drop; lia]. by rewrite Ret_bind, tail_drop.
Qed.

(** ** Properties *)

(** Tokenising a string with [strtok_r] finds exactly its maximal runs of
    non-delimiter characters, in order, each as a terminated string of the final
    object; with more runs than the limit the loop gives up. *)
Theorem strtok_r_tokens (d s : list Z) (limit : Z) (Hd : text d) (Hs : text s) (Hl : 0 ≤ limit) :
  let toks := runs d [] s in
  let r := collect_tokens (S (length s)) limit (d ++ [0]) (s ++ [0]) 0 [] in
  (Z.of_nat (length toks) ≤ limit →
   ∃ offs m', r = Ret (Some offs, m') ∧ (λ o, c_str (drop (Z.to_nat o) m')) <$> offs = toks) ∧
  (limit < Z.of_nat (length toks) → ∃ m', r = Ret (None, m')).
Proof.
  intros toks r.
  pose proof (collect_tokens_run d Hd (S (length s)) limit s [] [] Hs ltac:(lia) ltac:(cbn; lia)) as H.
  cbn [app length] in H. change (Z.of_nat 0) with 0 in H. fold r in H. fold toks in H. case_decide as Hle; rewrite Nat.add_0_l in Hle.
  - split; [|intros; lia]. intros _. destruct H as (offs & m' & Hr & _ & _ & Hf). exists offs, m'.
    split; [done|]. clear r Hr Hle. fold toks in Hf. clearbody toks. induction Hf as [|o tok offs toks' [Ho _] Hf IH]; [done|].
    cbn. by rewrite Ho, IH.
  - fold toks in Hle. split; [intros; lia|]. done.
Qed.

(** [memmove] inside an object moves the source range as it was before the
    call, whether or not the ranges overlap, and changes nothing else.  It
    returns the destination only when it copies backwards; copying forwards it
    returns the end of the destination. *)
Theorem memmove_moves (m : list Z) (dst src size : nat)
    (Hd : (dst + size ≤ length m)%nat) (Hs : (src + size ≤ length m)%nat) :
  memmove m (Z.of_nat dst) (Z.of_nat src) size =
    Ret (Z.of_nat (if decide (dst < src)%nat then dst + size else dst),
         splice m dst (slice m src size)).
Proof.
  unfold memmove. case_decide.
  - rewrite (proj2 (Z.ltb_lt _ _)) by lia. by apply move_up_run; lia.
  - rewrite (proj2 (Z.ltb_ge _ _)) by lia. rewrite <- !Nat2Z.inj_add. by apply move_down_run; lia.
Qed.

(** [strlcpy] and [strlcat] never write at or past [dst + size], leave a
    terminated string of at most [size - 1] characters, the longest that fits,
    and return the length the untruncated result would have. *)
Theorem strl_bounded (dst d z src r : list Z) (size : Z)
    (Ht : text src) (Hd : text d) (Hz : dst = d ++ 0 :: z)
    (Hl : Z.of_nat (length d) < size ≤ Z.of_nat (length dst)) :
  (∃ dst', strlcpy dst (src ++ 0 :: r) size = Ret (Z.of_nat (length src), dst') ∧
    length dst' = length dst ∧ drop (Z.to_nat size) dst' = drop (Z.to_nat size) dst ∧
    c_str dst' = take (Z.to_nat size - 1) src) ∧
  (∃ dst', strlcat dst (src ++ 0 :: r) size = Ret (Z.of_nat (length src + length d), dst') ∧
    length dst' = length dst ∧ drop (Z.to_nat size) dst' = drop (Z.to_nat size) dst ∧
    c_str dst' = take (Z.to_nat size - 1) (d ++ src)).
Proof.
  assert (Z.to_nat size ≤ length dst)%nat as Hsz by lia. split.
  - unfold strlcpy. rewrite strlen_run, Ret_bind, (proj2 (Z.ltb_lt 0 size)) by first [done|lia]. cbn zeta.
    set (k := Nat.min (Z.to_nat size - 1) (length src)).
    assert ((if Z.of_nat (length src) <? size - 1 then Z.of_nat (length src) else size - 1) = Z.of_nat k) as ->.
    { unfold k. destruct (Z.ltb_spec (Z.of_nat (length src)) (size - 1)); lia. }
    rewrite Nat2Z.id, str_memcpy_run, Ret_bind by (rewrite ?length_app; lia).
    rewrite take_app_le by lia. rewrite set_nul; [|rewrite length_take; lia|rewrite length_drop; lia].
    rewrite Ret_bind, tail_drop. eexists. split; [reflexivity|].
    assert (take k src = take (Z.to_nat size - 1) src) as Hk.
    { unfold k. destruct (Nat.min_spec (Z.to_nat size - 1) (length src)) as [[? ->]|[? ->]]; [done|].
      by rewrite !take_ge by lia. }
    replace (S k) with (S (length (take k src))) by (rewrite length_take; lia).
    rewrite <- Hk. apply put_string; [by apply Forall_take|rewrite length_take; lia|lia].
  - assert (length dst = length d + S (length z))%nat as Hld by (subst; by rewrite length_app).
    unfold strlcat. rewrite strlen_run, Ret_bind by done. 
    assert (strlen dst = Ret (Z.of_nat (length d))) as -> by (rewrite Hz; by apply strlen_run). rewrite Ret_bind.
    rewrite (proj2 (Z.ltb_lt 0 size)), (proj2 (Z.ltb_lt _ size)) by lia. cbn [andb]. cbn zeta.
    set (k := Nat.min (Z.to_nat size - length d - 1) (length src)).
    assert ((if Z.of_nat (length src) <? size - Z.of_nat (length d) - 1 then Z.of_nat (length src)
             else size - Z.of_nat (length d) - 1) = Z.of_nat k) as ->.
    { unfold k. destruct (Z.ltb_spec (Z.of_nat (length src)) (size - Z.of_nat (length d) - 1)); lia. }
    rewrite !Nat2Z.id, str_memcpy_run, Ret_bind by (rewrite ?length_app, ?length_drop; lia).
    rewrite take_app_le by lia. rewrite drop_drop.
    assert (take (length d) dst = d) as -> by (rewrite Hz; apply take_app_length).
    rewrite app_assoc, <- !Nat2Z.inj_add, set_nul; [|rewrite length_app, length_take; lia|rewrite length_drop; lia].
    rewrite Ret_bind, tail_drop. eexists. split; [reflexivity|].
    assert (d ++ take k src = take (Z.to_nat size - 1) (d ++ src)) as Hk.
    { rewrite take_app, (take_ge d) by lia. f_equal. unfold k.
      replace (Z.to_nat size - 1 - length d)%nat with (Z.to_nat size - length d - 1)%nat by lia.
      destruct (Nat.min_spec (Z.to_nat size - length d - 1) (length src)) as [[? ->]|[? ->]]; [done|].
      by rewrite !take_ge by lia. }
    replace (S (length d + k)) with (S (length (d ++ take k src))) by (rewrite length_app, length_take; lia).
    rewrite <- Hk.
    apply put_string; [by apply Forall_app_2; [|apply Forall_take]|rewrite length_app, length_take; lia|lia].
Qed.

(** ** Witnesses *)

Definition slash_path : list Z := [47; 97; 47; 47; 98; 98; 47].

Lemma strtok_r_tokens_witness :
  ∃ offs m', collect_tokens 8 16 [47; 0] (slash_path ++ [0]) 0 [] = Ret (Some offs, m') ∧
    (λ o, c_str (drop (Z.to_nat o) m')) <$> offs = [[97]; [98; 98]].
Proof.
  apply (strtok_r_tokens [47] slash_path 16);
    [by apply (bool_decide_unpack (text [47]))|by apply (bool_decide_unpack (text slash_path))|done|done].
Defined.

Lemma memmove_moves_witness :
  memmove [1; 2; 3; 4; 5] 0 1 3 = Ret (3, [2; 3; 4; 4; 5]).
Proof. apply (memmove_moves [1; 2; 3; 4; 5] 0 1 3); cbn; lia. Defined.

Lemma strl_bounded_witness :
  ∃ dst', strlcat [97; 0; 7; 7; 7] [98; 99; 100; 0] 4 = Ret (4, dst') ∧
    length dst' = 5%nat ∧ drop 4 dst' = [7] ∧ c_str dst' = [97; 98; 99].
Proof.
  apply (strl_bounded [97; 0; 7; 7; 7] [97] [7; 7; 7] [98; 99; 100] [] 4);
    [by apply (bool_decide_unpack (text [98; 99; 100]))|by apply (bool_decide_unpack (text [97]))|done|cbn; lia].
Defined.
End Strings.
