(* ===== verification/Block.v ===== *)
(** * Block devices ([devices/block.c])

    A device is its type, its sectors and its access counters.  The driver
    behind [block->ops] is a disk: reading a sector returns the bytes last
    written to it. *)

From stdpp Require Import base tactics numbers list list_numbers option.
From S2P Require Import Prelude.

Open Scope Z_scope.

Module Block.

Definition BLOCK_SECTOR_SIZE : Z := 512.

Inductive block_type :=
| BLOCK_KERNEL | BLOCK_FILESYS | BLOCK_SCRATCH | BLOCK_SWAP
| BLOCK_RAW | BLOCK_FOREIGN.

#[global] Instance block_type_eq_dec : EqDecision block_type.
Proof. solve_decision. Defined.

Record block := mk_block {
  type : block_type;
  sectors : list (list Z);
  read_cnt : Z;
  write_cnt : Z
}.

Definition block_size (b : block) : Z := Z.of_nat (length (sectors b)).

(** [PANIC]s on an access past the end of the device. *)
Definition check_sector (b : block) (sector : Z) : outcome unit :=
  if block_size b <=? sector then Panic else Ret tt.

Definition block_read (b : block) (sector : Z) : outcome (list Z * block) :=
  check_sector b sector;;
  buffer ← array_get (sectors b) sector;
  Ret (buffer, mk_block (type b) (sectors b) (u64 (read_cnt b + 1)) (write_cnt b)).

Definition block_write (b : block) (sector : Z) (buffer : list Z) : outcome block :=
  check_sector b sector;;
  ASSERT (bool_decide (type b ≠ BLOCK_FOREIGN));;
  l ← array_set (sectors b) sector buffer;
  Ret (mk_block (type b) l (read_cnt b) (u64 (write_cnt b + 1))).

(** The contents of sector [s]. *)
Definition sector_of (b : block) (s : Z) : list Z := sectors b !!! Z.to_nat s.

(** Every sector holds 512 bytes and the device may be written. *)
Definition wf (b : block) : Prop :=
  type b ≠ BLOCK_FOREIGN ∧ Forall (λ d, length d = 512%nat) (sectors b).

(** [b'] is [b] with the contents of sector [s] replaced by [d]. *)
Definition written (b b' : block) (s : Z) (d : list Z) : Prop :=
  block_size b' = block_size b ∧
  (∀ s', 0 ≤ s' → sector_of b' s' = if s' =? s then d else sector_of b s').

Section facts.
Context (b : block) (s : Z) (Hs : 0 ≤ s < block_size b).

Lemma block_read_spec :
  ∃ b', block_read b s = Ret (sector_of b s, b') ∧ sectors b' = sectors b ∧ type b' = type b.
Proof.
  unfold block_read, check_sector. rewrite (proj2 (Z.leb_gt (block_size b) s)) by lia. simpl.
  destruct (array_get_in (sectors b) s Hs) as (d & -> & Hd). simpl.
  unfold sector_of. rewrite (list_lookup_total_correct _ _ _ Hd).
  eexists. split; [reflexivity|done].
Qed.

Lemma block_write_spec d :
  wf b → length d = 512%nat →
  ∃ b', block_write b s d = Ret b' ∧ wf b' ∧ written b b' s d.
Proof.
  intros [Ht Hl] Hd. unfold block_write, check_sector.
  rewrite (proj2 (Z.leb_gt (block_size b) s)) by lia. simpl.
  rewrite bool_decide_eq_true_2 by done. simpl. rewrite array_set_in by done. simpl.
  eexists. split; [done|]. unfold wf, written, block_size, sector_of in *; simpl. split_and!.
  - done.
  - by apply Forall_insert.
  - by rewrite length_insert.
  - intros s' Hs'. destruct (Z.eqb_spec s' s) as [->|].
    + apply list_lookup_total_insert_eq. lia.
    + apply list_lookup_total_insert_ne. lia.
Qed.

Lemma sector_length : wf b → length (sector_of b s) = 512%nat.
Proof.
  intros [_ Hl]. unfold block_size in Hs.
  destruct (lookup_lt_is_Some_2 (sectors b) (Z.to_nat s)) as [d Hd]; [lia|].
  unfold sector_of. rewrite (list_lookup_total_correct _ _ _ Hd).
  by apply (Forall_lookup_1 _ _ _ _ Hl Hd).
Qed.
End facts.

(** A sector read from a device right after it was written returns the
    bytes written, every other sector is unchanged, and an access at or past
    the end of the device panics instead of touching memory. *)
Theorem block_write_read (b : block) (s s' : Z) (d : list Z)
    (Hwf : wf b) (Hs : 0 ≤ s) (Hs' : 0 ≤ s') (Hd : length d = 512%nat) :
  (block_size b ≤ s → block_write b s d = Panic ∧ block_read b s = Panic) ∧
  (s < block_size b → s' < block_size b →
   ∃ b1 b2, block_write b s d = Ret b1 ∧ wf b1 ∧
     block_read b1 s' = Ret (if s' =? s then d else sector_of b s', b2)).
Proof.
  split.
  - intros. unfold block_write, block_read, check_sector.
    by rewrite (proj2 (Z.leb_le (block_size b) s)) by done.
  - intros. destruct (block_write_spec b s ltac:(lia) d Hwf Hd) as (b1 & Hb1 & Hw1 & Hsz & Hc).
    destruct (block_read_spec b1 s' ltac:(lia)) as (b2 & Hr & _).
    exists b1, b2. by rewrite Hr, Hc.
Qed.

Lemma block_write_read_witness :
  ∃ b1 b2, block_write (mk_block BLOCK_FILESYS (replicate 3 (replicate 512 0)) 0 0) 2
             (replicate 512 7) = Ret b1 ∧ wf b1 ∧
    block_read b1 2 = Ret (replicate 512 7, b2).
Proof.
  apply (block_write_read (mk_block BLOCK_FILESYS (replicate 3 (replicate 512 0)) 0 0) 2 2
           (replicate 512 7)); try (done || reflexivity || lia).
  split; [done|]. repeat constructor.
Defined.

End Block.
