(* ===== verification/Cache.v ===== *)
(** * The buffer cache ([filesys/cache.c], [filesys/cache_prefetch.c])

    The state holds the file-system device, the 64 slots, the eviction hands,
    the statistics counters and the prefetch queue.  An operation is one C
    function; a thread that finds a slot [CACHE_LOADING] sleeps ([Blocked]).
    The miss path is composed of the phases the C code separates by its locks:
    reserve the slot, read the sector, finish. *)

From stdpp Require Import base tactics numbers list list_numbers option.
From S2P Require Import Prelude Block.

Open Scope Z_scope.

Module Cache.
Import Block.

Definition CACHE_SIZE : Z := 64.
Definition PREFETCH_QUEUE_SIZE : Z := 16.

Inductive cache_state := CACHE_INVALID | CACHE_LOADING | CACHE_VALID.

#[global] Instance cache_state_eq_dec : EqDecision cache_state.
Proof. solve_decision. Defined.

Record cache_entry := mk_entry {
  sector : Z;
  state : cache_state;
  dirty : bool;
  accessed : bool;
  data : list Z
}.

#[global] Instance cache_entry_inhabited : Inhabited cache_entry :=
  populate (mk_entry 0 CACHE_INVALID false false []).

Inductive cache_replacement_policy := CACHE_REPLACE_CLOCK | CACHE_REPLACE_FIFO.

Record prefetch_state := mk_prefetch {
  prefetch_queue : list Z;
  prefetch_head : Z;
  prefetch_tail : Z;
  prefetcher_running : bool
}.

Record cache_stats := mk_stats {
  cache_hits : Z; cache_misses : Z; cache_evictions : Z; cache_writebacks : Z
}.

Record cst := mk_cst {
  fs_device : block;
  cache : list cache_entry;
  clock_hand : Z;
  fifo_hand : Z;
  replacement_policy : cache_replacement_policy;
  stats : cache_stats;
  flusher_running : bool;
  prefetch : prefetch_state
}.

(** Field updates of the state. *)
Definition with_cache (c : cst) (l : list cache_entry) : cst :=
  mk_cst (fs_device c) l (clock_hand c) (fifo_hand c) (replacement_policy c) (stats c)
         (flusher_running c) (prefetch c).
Definition with_device (c : cst) (d : block) : cst :=
  mk_cst d (cache c) (clock_hand c) (fifo_hand c) (replacement_policy c) (stats c)
         (flusher_running c) (prefetch c).
Definition with_clock_hand (c : cst) (h : Z) : cst :=
  mk_cst (fs_device c) (cache c) h (fifo_hand c) (replacement_policy c) (stats c)
         (flusher_running c) (prefetch c).
Definition with_fifo_hand (c : cst) (h : Z) : cst :=
  mk_cst (fs_device c) (cache c) (clock_hand c) h (replacement_policy c) (stats c)
         (flusher_running c) (prefetch c).
Definition with_stats (c : cst) (s : cache_stats) : cst :=
  mk_cst (fs_device c) (cache c) (clock_hand c) (fifo_hand c) (replacement_policy c) s
         (flusher_running c) (prefetch c).
Definition with_flusher (c : cst) (r : bool) : cst :=
  mk_cst (fs_device c) (cache c) (clock_hand c) (fifo_hand c) (replacement_policy c) (stats c)
         r (prefetch c).
Definition with_prefetch (c : cst) (p : prefetch_state) : cst :=
  mk_cst (fs_device c) (cache c) (clock_hand c) (fifo_hand c) (replacement_policy c) (stats c)
         (flusher_running c) p.

Definition count_hit (c : cst) : cst :=
  with_stats c (mk_stats (s32 (cache_hits (stats c) + 1)) (cache_misses (stats c))
                         (cache_evictions (stats c)) (cache_writebacks (stats c))).
Definition count_miss (c : cst) : cst :=
  with_stats c (mk_stats (cache_hits (stats c)) (s32 (cache_misses (stats c) + 1))
                         (cache_evictions (stats c)) (cache_writebacks (stats c))).
Definition count_eviction (c : cst) : cst :=
  with_stats c (mk_stats (cache_hits (stats c)) (cache_misses (stats c))
                         (s32 (cache_evictions (stats c) + 1)) (cache_writebacks (stats c))).
Definition count_writeback (c : cst) : cst :=
  with_stats c (mk_stats (cache_hits (stats c)) (cache_misses (stats c))
                         (cache_evictions (stats c)) (s32 (cache_writebacks (stats c) + 1))).

(** Replaces slot [i]. *)
Definition set_slot (c : cst) (i : Z) (e : cache_entry) : outcome cst :=
  l ← array_set (cache c) i e; Ret (with_cache c l).

(** ** Prefetch queue *)

Definition cache_request_prefetch (sec : Z) (c : cst) : outcome cst :=
  let p := prefetch c in
  let next_tail := (prefetch_tail p + 1) mod PREFETCH_QUEUE_SIZE in
  if negb (next_tail =? prefetch_head p) then
    q ← array_set (prefetch_queue p) (prefetch_tail p) sec;
    Ret (with_prefetch c (mk_prefetch q (prefetch_head p) next_tail (prefetcher_running p)))
  else Ret c.

Definition cache_prefetch_init (c : cst) : cst :=
  with_prefetch c (mk_prefetch (prefetch_queue (prefetch c)) 0 0 true).

Definition cache_prefetch_shutdown (c : cst) : cst :=
  let p := prefetch c in
  with_prefetch c (mk_prefetch (prefetch_queue p) (prefetch_head p) (prefetch_tail p) false).

(** ** Eviction *)

(** The loop of [evict_clock]: [scans] slots were passed over.  It panics once
    [scans] exceeds [2 * CACHE_SIZE], so [fuel = 2 * CACHE_SIZE + 1] iterations
    always suffice. *)
Fixpoint evict_clock_loop (fuel : nat) (scans : Z) (c : cst) : outcome (Z * cst) :=
  match fuel with
  | O => Panic
  | S fuel =>
      e ← array_get (cache c) (clock_hand c);
      let next := (clock_hand c + 1) mod CACHE_SIZE in
      let skip c' := if 2 * CACHE_SIZE <? scans + 1 then Panic
                     else evict_clock_loop fuel (scans + 1) (with_clock_hand c' next) in
      match state e with
      | CACHE_VALID =>
          if accessed e then
            c' ← set_slot c (clock_hand c)
                   (mk_entry (sector e) (state e) (dirty e) false (data e));
            skip c'
          else Ret (clock_hand c, with_clock_hand c next)
      | _ => skip c
      end
  end.

Definition evict_clock (c : cst) : outcome (Z * cst) :=
  evict_clock_loop (Z.to_nat (2 * CACHE_SIZE + 1)) 0 c.

(** The loop of [evict_fifo]: it panics when the hand is back at [start], which
    takes at most [CACHE_SIZE] iterations. *)
Fixpoint evict_fifo_loop (fuel : nat) (start : Z) (c : cst) : outcome (Z * cst) :=
  match fuel with
  | O => Panic
  | S fuel =>
      e ← array_get (cache c) (fifo_hand c);
      let next := (fifo_hand c + 1) mod CACHE_SIZE in
      match state e with
      | CACHE_VALID => Ret (fifo_hand c, with_fifo_hand c next)
      | _ => if next =? start then Panic else evict_fifo_loop fuel start (with_fifo_hand c next)
      end
  end.

Definition evict_fifo (c : cst) : outcome (Z * cst) :=
  evict_fifo_loop (Z.to_nat CACHE_SIZE) (fifo_hand c) c.

Definition select_victim (c : cst) : outcome (Z * cst) :=
  match replacement_policy c with
  | CACHE_REPLACE_CLOCK => evict_clock c
  | CACHE_REPLACE_FIFO => evict_fifo c
  end.

(** The first slot, from index [i] on, that satisfies [p]. *)
Fixpoint find_slot (p : cache_entry → bool) (i : Z) (l : list cache_entry) : option Z :=
  match l with
  | [] => None
  | e :: l => if p e then Some i else find_slot p (i + 1) l
  end.

Definition cache_lookup (c : cst) (sec : Z) : option Z :=
  find_slot (λ e, negb (bool_decide (state e = CACHE_INVALID)) && (sector e =? sec)) 0 (cache c).

(** A dirty valid slot is written back; returns the clean slot. *)
Definition write_back (c : cst) (i : Z) : outcome cst :=
  e ← array_get (cache c) i;
  if dirty e && bool_decide (state e = CACHE_VALID) then
    let c := count_writeback c in
    d ← block_write (fs_device c) (sector e) (data e);
    set_slot (with_device c d) i (mk_entry (sector e) (state e) false (accessed e) (data e))
  else Ret c.

Definition cache_evict (c : cst) : outcome (Z * cst) :=
  match find_slot (λ e, bool_decide (state e = CACHE_INVALID)) 0 (cache c) with
  | Some i => Ret (i, c)
  | None =>
      '(victim, c) ← select_victim c;
      let c := count_eviction c in
      c ← write_back c victim;
      Ret (victim, c)
  end.

(** ** Phases of a miss *)

(** Under [cache_global_lock]: reserve slot [i] for [sec].  [cache_write] leaves
    the dirty flag as it is, the readers clear it. *)
Definition slot_reserve (i sec : Z) (clear_dirty : bool) (c : cst) : outcome cst :=
  e ← array_get (cache c) i;
  set_slot c i (mk_entry sec CACHE_LOADING (if clear_dirty then false else dirty e)
                         (accessed e) (data e)).

(** Without locks: [block_read (fs_device, sector, slot->data)]. *)
Definition slot_load (i sec : Z) (c : cst) : outcome cst :=
  '(buf, d) ← block_read (fs_device c) sec;
  e ← array_get (cache c) i;
  set_slot (with_device c d) i (mk_entry (sector e) (state e) (dirty e) (accessed e) buf).

(** Under [entry_lock]: the slot becomes valid. *)
Definition slot_finish (i : Z) (acc : bool) (c : cst) : outcome cst :=
  e ← array_get (cache c) i;
  set_slot c i (mk_entry (sector e) CACHE_VALID (dirty e) acc (data e)).

(** Evict, reserve, load and finish: the miss path of [cache_read],
    [cache_read_at] and [cache_do_prefetch]; returns the slot. *)
Definition load_miss (sec : Z) (acc : bool) (c : cst) : outcome (Z * cst) :=
  '(i, c) ← cache_evict c;
  c ← slot_reserve i sec true c;
  c ← slot_load i sec c;
  c ← slot_finish i acc c;
  Ret (i, c).

(** ** Operations *)

(** Copies the whole sector out and marks the slot accessed. *)
Definition read_from_entry (i : Z) (c : cst) : outcome (list Z * cst) :=
  e ← array_get (cache c) i;
  buf ← memcpy_from (data e) 0 (Z.to_nat BLOCK_SECTOR_SIZE);
  c ← set_slot c i (mk_entry (sector e) (state e) (dirty e) true (data e));
  Ret (buf, c).

Definition cache_read (sec : Z) (c : cst) : outcome (list Z * cst) :=
  match cache_lookup c sec with
  | Some i =>
      e ← array_get (cache c) i;
      match state e with
      | CACHE_VALID =>
          '(buf, c) ← read_from_entry i (count_hit c);
          c ← cache_request_prefetch (u32 (sec + 1)) c;
          Ret (buf, c)
      | CACHE_LOADING => Blocked
      | CACHE_INVALID => Panic
      end
  | None =>
      '(i, c) ← load_miss sec true (count_miss c);
      e ← array_get (cache c) i;
      buf ← memcpy_from (data e) 0 (Z.to_nat BLOCK_SECTOR_SIZE);
      c ← cache_request_prefetch (u32 (sec + 1)) c;
      Ret (buf, c)
  end.

(** The parameter assertions of [cache_read_at] and [cache_write]. *)
Definition check_chunk (sector_ofs chunk_size : Z) : outcome unit :=
  ASSERT (0 <=? sector_ofs);;
  ASSERT (sector_ofs <? BLOCK_SECTOR_SIZE);;
  ASSERT (0 <? chunk_size);;
  ASSERT (sector_ofs + chunk_size <=? BLOCK_SECTOR_SIZE).

Definition cache_read_at (sec sector_ofs chunk_size : Z) (c : cst) : outcome (list Z * cst) :=
  check_chunk sector_ofs chunk_size;;
  match cache_lookup c sec with
  | Some i =>
      e ← array_get (cache c) i;
      match state e with
      | CACHE_VALID =>
          let c := count_hit c in
          buf ← memcpy_from (data e) (Z.to_nat sector_ofs) (Z.to_nat chunk_size);
          c ← set_slot c i (mk_entry (sector e) (state e) (dirty e) true (data e));
          c ← cache_request_prefetch (u32 (sec + 1)) c;
          Ret (buf, c)
      | CACHE_LOADING => Blocked
      | CACHE_INVALID => Panic
      end
  | None =>
      '(i, c) ← load_miss sec true (count_miss c);
      e ← array_get (cache c) i;
      buf ← memcpy_from (data e) (Z.to_nat sector_ofs) (Z.to_nat chunk_size);
      c ← cache_request_prefetch (u32 (sec + 1)) c;
      Ret (buf, c)
  end.

Definition cache_write (sec : Z) (buffer : list Z) (sector_ofs chunk_size : Z) (c : cst)
    : outcome cst :=
  check_chunk sector_ofs chunk_size;;
  match cache_lookup c sec with
  | Some i =>
      e ← array_get (cache c) i;
      match state e with
      | CACHE_VALID =>
          let c := count_hit c in
          d ← memcpy (data e) (Z.to_nat sector_ofs) buffer (Z.to_nat chunk_size);
          set_slot c i (mk_entry (sector e) (state e) true true d)
      | CACHE_LOADING => Blocked
      | CACHE_INVALID => Panic
      end
  | None =>
      '(i, c) ← cache_evict (count_miss c);
      c ← slot_reserve i sec false c;
      let is_full_write := (sector_ofs =? 0) && (chunk_size =? BLOCK_SECTOR_SIZE) in
      c ← (if negb is_full_write then slot_load i sec c else Ret c);
      e ← array_get (cache c) i;
      d ← memcpy (data e) (Z.to_nat sector_ofs) buffer (Z.to_nat chunk_size);
      set_slot c i (mk_entry (sector e) CACHE_VALID true true d)
  end.

(** One iteration of the loop of [cache_flush]. *)
Definition flush_slot (i : Z) (c : cst) : outcome cst :=
  e ← array_get (cache c) i;
  if bool_decide (state e = CACHE_VALID) && dirty e then
    d ← block_write (fs_device c) (sector e) (data e);
    set_slot (with_device c d) i (mk_entry (sector e) (state e) false (accessed e) (data e))
  else Ret c.

Fixpoint flush_loop (n : nat) (i : Z) (c : cst) : outcome cst :=
  match n with
  | O => Ret c
  | S n => c ← flush_slot i c; flush_loop n (i + 1) c
  end.

Definition cache_flush (c : cst) : outcome cst := flush_loop (Z.to_nat CACHE_SIZE) 0 c.

Definition cache_do_prefetch (sec : Z) (c : cst) : outcome cst :=
  match cache_lookup c sec with
  | Some _ => Ret c
  | None => '(_, c) ← load_miss sec false c; Ret c
  end.

(** One round of [cache_prefetcher_thread]: [None] when it leaves its loop. *)
Definition prefetcher_round (c : cst) : outcome (option cst) :=
  let p := prefetch c in
  if prefetch_head p =? prefetch_tail p then
    if prefetcher_running p then Blocked else Ret None
  else if negb (prefetcher_running p) then Ret None
  else
    sec ← array_get (prefetch_queue p) (prefetch_head p);
    let c := with_prefetch c
      (mk_prefetch (prefetch_queue p) ((prefetch_head p + 1) mod PREFETCH_QUEUE_SIZE)
                   (prefetch_tail p) (prefetcher_running p)) in
    c ← cache_do_prefetch sec c; Ret (Some c).

(** One round of [cache_flusher_thread] after its sleep. *)
Definition flusher_round (c : cst) : outcome (option cst) :=
  if flusher_running c then c ← cache_flush c; Ret (Some c) else Ret None.

Definition cache_init (c : cst) : cst :=
  let l := (λ e, mk_entry (sector e) CACHE_INVALID false false (data e)) <$> cache c in
  cache_prefetch_init (with_flusher (with_clock_hand (with_cache c l) 0) true).

Definition cache_shutdown (c : cst) : outcome cst :=
  cache_flush (cache_prefetch_shutdown (with_flusher c false)).

Definition cache_reset_stats (c : cst) : cst := with_stats c (mk_stats 0 0 0 0).

(** ** Invariant and abstraction *)

(** Slot [n] holds sector [s]. *)
Definition holds (l : list cache_entry) (n : nat) (s : Z) (e : cache_entry) : Prop :=
  l !! n = Some e ∧ state e ≠ CACHE_INVALID ∧ sector e = s.

(** A sector is held by at most one slot. *)
Definition uniq (l : list cache_entry) : Prop :=
  ∀ n m s en em, holds l n s en → holds l m s em → n = m.

(** A quiescent slot: no load in progress, 512 bytes, a live slot names a sector
    of the device, and a clean live slot agrees with the device. *)
Definition entry_ok (d : block) (e : cache_entry) : Prop :=
  length (data e) = 512%nat ∧ state e ≠ CACHE_LOADING ∧
  (state e = CACHE_VALID →
     0 ≤ sector e < block_size d ∧ (dirty e = false → data e = sector_of d (sector e))).

Definition prefetch_ok (p : prefetch_state) : Prop :=
  length (prefetch_queue p) = 16%nat ∧
  0 ≤ prefetch_head p < 16 ∧ 0 ≤ prefetch_tail p < 16.

Record cache_inv (c : cst) : Prop := {
  inv_dev : wf (fs_device c);
  inv_len : length (cache c) = 64%nat;
  inv_clock : 0 ≤ clock_hand c < 64;
  inv_fifo : 0 ≤ fifo_hand c < 64;
  inv_entries : Forall (entry_ok (fs_device c)) (cache c);
  inv_uniq : uniq (cache c);
  inv_prefetch : prefetch_ok (prefetch c)
}.

(** The disk a client of the cache sees. *)
Definition cview (c : cst) (s : Z) : list Z :=
  match cache_lookup c s with
  | Some i => data (cache c !!! Z.to_nat i)
  | None => sector_of (fs_device c) s
  end.

(** [c'] shows the same disk as [c], except for sector [s], which holds [d]. *)
Definition view_upd (c c' : cst) (s : Z) (d : list Z) : Prop :=
  block_size (fs_device c') = block_size (fs_device c) ∧
  ∀ s', 0 ≤ s' → cview c' s' = if s' =? s then d else cview c s'.

(** [c'] shows the same disk as [c]. *)
Definition view_eq (c c' : cst) : Prop :=
  block_size (fs_device c') = block_size (fs_device c) ∧
  ∀ s', 0 ≤ s' → cview c' s' = cview c s'.

Lemma view_eq_refl c : view_eq c c.
Proof. done. Qed.

Lemma view_eq_trans c1 c2 c3 : view_eq c1 c2 → view_eq c2 c3 → view_eq c1 c3.
Proof. intros [H1 H2] [H3 H4]. split; [congruence|]. intros. rewrite H4 by done. auto. Qed.

Lemma view_eq_upd c1 c2 c3 s d : view_eq c1 c2 → view_upd c2 c3 s d → view_upd c1 c3 s d.
Proof.
  intros [H1 H2] [H3 H4]. split; [congruence|]. intros s' ?. rewrite H4, H2 by done. done.
Qed.

Lemma view_upd_eq c1 c2 c3 s d : view_upd c1 c2 s d → view_eq c2 c3 → view_upd c1 c3 s d.
Proof.
  intros [H1 H2] [H3 H4]. split; [congruence|]. intros s' ?. rewrite H4, H2 by done. done.
Qed.

Lemma find_slot_Some p i l k :
  find_slot p i l = Some k →
  ∃ n e, k = i + Z.of_nat n ∧ l !! n = Some e ∧ p e = true.
Proof.
  revert i. induction l as [|e l IH]; intros i; simpl; [done|].
  destruct (p e) eqn:Hp; intros H.
  - simplify_eq. exists 0%nat, e. split; [lia|done].
  - destruct (IH _ H) as (n & e' & -> & ? & ?). exists (S n), e'. split; [lia|done].
Qed.

Lemma find_slot_None p i l : find_slot p i l = None → ∀ n e, l !! n = Some e → p e = false.
Proof.
  revert i. induction l as [|e0 l IH]; intros i; simpl; [done|].
  destruct (p e0) eqn:Hp; [done|]. intros H [|n] e; simpl; [naive_solver|]. eauto.
Qed.

Lemma cache_lookup_Some c s i :
  cache_lookup c s = Some i → ∃ n e, i = Z.of_nat n ∧ holds (cache c) n s e.
Proof.
  intros (n & e & -> & Hl & Hp)%find_slot_Some. exists n, e. split; [lia|].
  apply andb_true_iff in Hp as [Hst Hs%Z.eqb_eq]. apply negb_true_iff, bool_decide_eq_false in Hst.
  done.
Qed.

Lemma cache_lookup_None c s : cache_lookup c s = None → ∀ n e, ¬ holds (cache c) n s e.
Proof.
  intros H n e (Hl & Hst & Hs). pose proof (find_slot_None _ _ _ H n e Hl) as Hp. simpl in Hp.
  rewrite bool_decide_eq_false_2, Hs, Z.eqb_refl in Hp by done. done.
Qed.

Lemma cache_lookup_holds c n s e :
  uniq (cache c) → holds (cache c) n s e → cache_lookup c s = Some (Z.of_nat n).
Proof.
  intros Hu Hh. destruct (cache_lookup c s) as [i|] eqn:H.
  - destruct (cache_lookup_Some _ _ _ H) as (m & e' & -> & Hh').
    by rewrite (Hu _ _ _ _ _ Hh Hh').
  - by destruct (cache_lookup_None _ _ H n e).
Qed.

Lemma cview_holds c n s e : uniq (cache c) → holds (cache c) n s e → cview c s = data e.
Proof.
  intros Hu Hh. unfold cview. rewrite (cache_lookup_holds c n s e) by done.
  rewrite Nat2Z.id. by rewrite (list_lookup_total_correct _ _ _ (proj1 Hh)).
Qed.

Lemma cview_none c s :
  (∀ n e, ¬ holds (cache c) n s e) → cview c s = sector_of (fs_device c) s.
Proof.
  intros Hn. unfold cview. destruct (cache_lookup c s) eqn:H; [|done].
  destruct (cache_lookup_Some _ _ _ H) as (n & e & _ & Hh). by apply Hn in Hh.
Qed.

Lemma holds_dec l s : (∃ n e, holds l n s e) ∨ (∀ n e, ¬ holds l n s e).
Proof.
  destruct (find_slot (λ e, negb (bool_decide (state e = CACHE_INVALID)) && (sector e =? s)) 0 l)
    as [i|] eqn:H.
  - left. destruct (find_slot_Some _ _ _ _ H) as (n & e & _ & Hl & Hp). exists n, e.
    apply andb_true_iff in Hp as [Hst Hs%Z.eqb_eq].
    apply negb_true_iff, bool_decide_eq_false in Hst. done.
  - right. intros n e (Hl & Hst & Hs). pose proof (find_slot_None _ _ _ H n e Hl) as Hp.
    simpl in Hp. rewrite bool_decide_eq_false_2, Hs, Z.eqb_refl in Hp by done. done.
Qed.

(** ** Replacing one slot *)

Section set_slot.
Context (c : cst) (n : nat) (e e' : cache_entry) (d' : block).
Context (Hinv : cache_inv c) (He : cache c !! n = Some e).
Context (Hwf : wf d') (Hsz : block_size d' = block_size (fs_device c)).
Context (Hok : entry_ok d' e').
Context (Hothers : ∀ m em, m ≠ n → cache c !! m = Some em → entry_ok d' em).
Context (Huniq : ∀ m em, m ≠ n → holds (cache c) m (sector e') em → state e' = CACHE_INVALID).

Let c' := with_device (with_cache c (<[n := e']> (cache c))) d'.

Lemma slot_bound : (n < length (cache c))%nat.
Proof using He. by eapply lookup_lt_Some. Qed.

Lemma holds_insert m s em :
  holds (<[n := e']> (cache c)) m s em ↔
  (m = n ∧ em = e' ∧ state e' ≠ CACHE_INVALID ∧ sector e' = s) ∨
  (m ≠ n ∧ holds (cache c) m s em).
Proof using He.
  clear -He. unfold holds. pose proof slot_bound.
  destruct (decide (m = n)) as [->|].
  - rewrite list_lookup_insert_eq by done. naive_solver.
  - rewrite list_lookup_insert_ne by done. naive_solver.
Qed.

Lemma set_slot_inv : cache_inv c'.
Proof.
  destruct Hinv. constructor; simpl; try done.
  - by rewrite length_insert.
  - apply Forall_lookup. intros m em. destruct (decide (m = n)) as [->|].
    + rewrite list_lookup_insert_eq by apply slot_bound. by intros [= <-].
    + rewrite list_lookup_insert_ne by done. by apply Hothers.
  - intros m1 m2 s e1 e2 H1%holds_insert H2%holds_insert.
    destruct H1 as [(-> & -> & Hl1 & <-)|[Hn1 H1]], H2 as [(-> & -> & Hl2 & Hs2)|[Hn2 H2]];
      try done.
    + by destruct Hl1, (Huniq m2 e2).
    + subst s. by destruct Hl2, (Huniq m1 e1).
    + eauto.
Qed.

Lemma set_slot_view_self :
  state e' ≠ CACHE_INVALID → cview c' (sector e') = data e'.
Proof.
  intros Hl. apply (cview_holds c' n); [apply set_slot_inv|]. apply holds_insert. auto.
Qed.

Lemma set_slot_view_other s :
  ¬ (state e ≠ CACHE_INVALID ∧ sector e = s) →
  ¬ (state e' ≠ CACHE_INVALID ∧ sector e' = s) →
  sector_of d' s = sector_of (fs_device c) s → cview c' s = cview c s.
Proof.
  intros Hold Hnew Hd. destruct (holds_dec (cache c) s) as [(m & em & Hm)|Hno].
  - rewrite (cview_holds c m s em) by (done || apply Hinv).
    apply (cview_holds c' m); [apply set_slot_inv|]. apply holds_insert. right. split; [|done].
    intros ->. destruct Hm as (Hm & ? & ?). simplify_eq. by apply Hold.
  - rewrite (cview_none c s Hno), <- Hd. apply (cview_none c').
    intros m em [(-> & -> & ?)|[? ?]]%holds_insert; [by apply Hnew|by eapply Hno].
Qed.
End set_slot.

Lemma set_slot_run c n e e' :
  cache c !! n = Some e →
  set_slot c (Z.of_nat n) e' = Ret (with_cache c (<[n := e']> (cache c))).
Proof.
  intros He%lookup_lt_Some. unfold set_slot. rewrite array_set_in by lia. simpl.
  by rewrite Nat2Z.id.
Qed.

Lemma get_slot_run c n e : cache c !! n = Some e → array_get (cache c) (Z.of_nat n) = Ret e.
Proof. intros. apply array_get_Ret. rewrite Nat2Z.id. auto with lia. Qed.

Lemma inv_lookup c n e : cache_inv c → cache c !! n = Some e → entry_ok (fs_device c) e.
Proof. intros Hi He. by apply (Forall_lookup_1 _ _ _ _ (inv_entries c Hi) He). Qed.

Lemma entry_live_valid c n e :
  cache_inv c → cache c !! n = Some e → state e ≠ CACHE_INVALID → state e = CACHE_VALID.
Proof.
  intros Hi He Hl. destruct (inv_lookup c n e Hi He) as (_ & Hn & _). by destruct (state e).
Qed.

(** A live slot rewritten in place: same sector, new data and dirty flag. *)
Lemma touch_slot c n e drt acc dat :
  cache_inv c → cache c !! n = Some e → state e = CACHE_VALID → length dat = 512%nat →
  (drt = false → dirty e = false ∧ dat = data e) →
  let c' := with_cache c (<[n := mk_entry (sector e) CACHE_VALID drt acc dat]> (cache c)) in
  cache_inv c' ∧ view_upd c c' (sector e) dat.
Proof.
  intros Hi He Hv Hl Hd c'. destruct (inv_lookup c n e Hi He) as (Hlen & Hnl & Hval).
  destruct (Hval Hv) as [Hr Hcl].
  set (e' := mk_entry (sector e) CACHE_VALID drt acc dat).
  assert (entry_ok (fs_device c) e') as Hok.
  { split_and!; try done. intros _. split; [done|]. simpl. intros Hf.
    destruct (Hd Hf) as [Hdf ->]. auto. }
  assert (∀ m em, m ≠ n → holds (cache c) m (sector e') em → state e' = CACHE_INVALID) as Hu.
  { intros m em Hne Hh. destruct Hne. apply (inv_uniq c Hi m n (sector e) em e); [done|].
    split_and!; [done|by rewrite Hv|done]. }
  assert (∀ m em, m ≠ n → cache c !! m = Some em → entry_ok (fs_device c) em) as Ho
    by (intros; by eapply inv_lookup).
  assert (c' = with_device (with_cache c (<[n := e']> (cache c))) (fs_device c)) as -> by done.
  split; [by apply (set_slot_inv c n e e'); try apply Hi|]. split; [done|]. intros s' _.
  destruct (Z.eqb_spec s' (sector e)) as [->|Hne].
  - by apply (set_slot_view_self c n e e'); try apply Hi.
  - apply (set_slot_view_other c n e e'); try apply Hi; try done; simpl; intros [_ ?]; congruence.
Qed.

Lemma view_upd_same c c' s : view_upd c c' s (cview c s) → view_eq c c'.
Proof.
  intros [? H]. split; [done|]. intros s' ?. rewrite H by done.
  by destruct (Z.eqb_spec s' s) as [->|].
Qed.

(** Which sector each slot holds, and in which state. *)
Definition shape (l : list cache_entry) : list (Z * cache_state) :=
  (λ e, (sector e, state e)) <$> l.

Lemma shape_lookup l l' n e :
  shape l = shape l' → l !! n = Some e →
  ∃ e', l' !! n = Some e' ∧ sector e' = sector e ∧ state e' = state e.
Proof.
  intros Hs He. assert (shape l !! n = Some (sector e, state e)) as H
    by (unfold shape; by rewrite list_lookup_fmap, He).
  rewrite Hs in H. unfold shape in H. apply list_lookup_fmap_Some in H as (e' & ? & ?).
  simplify_eq. eauto.
Qed.

Lemma shape_holds l l' n s e :
  shape l = shape l' → holds l n s e → ∃ e', holds l' n s e'.
Proof.
  intros Hs (He & Hl & <-). destruct (shape_lookup _ _ _ _ Hs He) as (e' & ? & ? & ?).
  exists e'. unfold holds. by rewrite H0, H1.
Qed.

Lemma shape_insert l n e e' :
  l !! n = Some e → sector e' = sector e → state e' = state e →
  shape (<[n := e']> l) = shape l.
Proof.
  intros He Hs Ht. unfold shape. rewrite list_fmap_insert, Hs, Ht.
  apply list_insert_id. by rewrite list_lookup_fmap, He.
Qed.

(** Writing a valid slot back changes neither the view nor the other slots. *)
Lemma clean_slot c n e :
  cache_inv c → cache c !! n = Some e → state e = CACHE_VALID →
  ∃ d, block_write (fs_device c) (sector e) (data e) = Ret d ∧
    let e' := mk_entry (sector e) CACHE_VALID false (accessed e) (data e) in
    let c' := with_device (with_cache c (<[n := e']> (cache c))) d in
    cache_inv c' ∧ view_eq c c' ∧ written (fs_device c) d (sector e) (data e).
Proof.
  intros Hi He Hv. destruct (inv_lookup c n e Hi He) as (Hlen & Hnl & Hval).
  destruct (Hval Hv) as [Hr Hcl].
  destruct (block_write_spec (fs_device c) (sector e) Hr (data e) (inv_dev c Hi) Hlen)
    as (d & Hd & Hwd & Hsz & Hsec).
  exists d. split; [done|]. intros e' c'.
  assert (entry_ok d e') as Hok.
  { split_and!; try done. intros _. simpl. split; [lia|]. intros _. rewrite Hsec by lia.
    by rewrite Z.eqb_refl. }
  assert (∀ m em, m ≠ n → holds (cache c) m (sector e') em → state e' = CACHE_INVALID) as Hu.
  { intros m em Hne Hh. destruct Hne. apply (inv_uniq c Hi m n (sector e) em e); [done|].
    split_and!; [done|by rewrite Hv|done]. }
  assert (∀ m em, m ≠ n → cache c !! m = Some em → entry_ok d em) as Ho.
  { intros m em Hne Hm. destruct (inv_lookup c m em Hi Hm) as (? & ? & Hvm).
    split_and!; try done. intros Hv'. destruct (Hvm Hv') as [Hrm Hcm]. split; [lia|].
    intros Hdf. rewrite (Hcm Hdf), Hsec by lia.
    destruct (Z.eqb_spec (sector em) (sector e)) as [Heq|]; [|done].
    destruct Hne. apply (inv_uniq c Hi m n (sector e) em e); (split_and!; [done| |done]);
      [by rewrite Hv'|by rewrite Hv]. }
  split_and!; [by apply (set_slot_inv c n e e' d)| |done]. split; [done|]. intros s' Hs'.
  destruct (decide (s' = sector e)) as [->|Hne].
  - transitivity (data e); [by apply (set_slot_view_self c n e e' d)|].
    symmetry. apply (cview_holds c n); [by apply inv_uniq|]. split_and!; [done|by rewrite Hv|done].
  - apply (set_slot_view_other c n e e' d); try done; simpl;
      [intros [_ ?]; congruence..|].
    rewrite Hsec by done. by rewrite (proj2 (Z.eqb_neq _ _) Hne).
Qed.

(** A slot that may be reused: empty, or valid and clean. *)
Definition reusable (e : cache_entry) : Prop :=
  state e = CACHE_INVALID ∨ (state e = CACHE_VALID ∧ dirty e = false).

(** Filling a reusable slot with a sector no slot holds. *)
Lemma fill_slot c n e s drt acc dat d :
  cache_inv c → cache c !! n = Some e → reusable e →
  (∀ m em, ¬ holds (cache c) m s em) → 0 ≤ s < block_size (fs_device c) →
  length dat = 512%nat → (drt = false → dat = sector_of (fs_device c) s) →
  sectors d = sectors (fs_device c) → type d = type (fs_device c) →
  let c' := with_device (with_cache c (<[n := mk_entry s CACHE_VALID drt acc dat]> (cache c))) d in
  cache_inv c' ∧ view_upd c c' s dat.
Proof.
  intros Hi He Hre Hno Hr Hl Hcl Hds Hdt c'.
  set (e' := mk_entry s CACHE_VALID drt acc dat).
  assert (block_size d = block_size (fs_device c)) as Hsz by (unfold block_size; by rewrite Hds).
  assert (∀ x, sector_of d x = sector_of (fs_device c) x) as Hsec
    by (intros; unfold sector_of; by rewrite Hds).
  assert (wf d) as Hwd by (destruct (inv_dev c Hi); split; congruence).
  assert (entry_ok d e') as Hok.
  { split_and!; try done. intros _. simpl. rewrite Hsz, Hsec. auto. }
  assert (∀ m em, m ≠ n → holds (cache c) m (sector e') em → state e' = CACHE_INVALID) as Hu
    by (intros m em _ Hh; by destruct (Hno m em)).
  assert (∀ m em, m ≠ n → cache c !! m = Some em → entry_ok d em) as Ho.
  { intros m em _ Hm. destruct (inv_lookup c m em Hi Hm) as (? & ? & Hvm).
    split_and!; try done. rewrite Hsz, Hsec. done. }
  split; [by apply (set_slot_inv c n e e' d)|]. split; [done|]. intros s' Hs'.
  destruct (Z.eqb_spec s' s) as [->|Hne]; [by apply (set_slot_view_self c n e e' d)|].
  destruct (decide (state e = CACHE_VALID ∧ sector e = s')) as [[Hv <-]|Hold].
  - (* the victim: its clean contents are on the device *)
    destruct Hre as [Hi'|[_ Hdf]]; [by rewrite Hv in Hi'|].
    rewrite (cview_holds c n (sector e) e)
      by (apply Hi || by (split_and!; [done|by rewrite Hv|done])).
    destruct (inv_lookup c n e Hi He) as (_ & _ & Hval). destruct (Hval Hv) as [_ Hcl'].
    rewrite (Hcl' Hdf), <- Hsec. apply (cview_none c').
    intros m em Hh. apply (holds_insert c n e e' He) in Hh.
    destruct Hh as [(-> & -> & _ & Heq)|[Hmn Hh]]; [by apply Hne|].
    apply Hmn. apply (inv_uniq c Hi m n (sector e) em e); [done|].
    split_and!; [done|by rewrite Hv|done].
  - apply (set_slot_view_other c n e e' d); try done; simpl; [|intros [_ ?]; congruence].
    intros [Hlive Hse]. apply Hold. split; [|done]. destruct Hre as [?|[? _]]; done.
Qed.

(** ** Eviction always finds a victim in a full cache *)

Definition all_valid (l : list cache_entry) : Prop := Forall (λ e, state e = CACHE_VALID) l.

Lemma all_valid_shape l l' : shape l = shape l' → all_valid l → all_valid l'.
Proof.
  unfold all_valid. rewrite !Forall_lookup. intros Hs H n e He.
  destruct (shape_lookup l' l n e) as (e' & He' & _ & <-); [done|done|]. eauto.
Qed.

Lemma inv_with_clock_hand c h : cache_inv c → 0 ≤ h < 64 → cache_inv (with_clock_hand c h).
Proof. intros [] ?. by constructor. Qed.

Lemma inv_with_fifo_hand c h : cache_inv c → 0 ≤ h < 64 → cache_inv (with_fifo_hand c h).
Proof. intros [] ?. by constructor. Qed.

Lemma inv_with_stats c s : cache_inv c → cache_inv (with_stats c s).
Proof. intros []. by constructor. Qed.

(** What a victim selection promises. *)
Definition victim_spec (c : cst) (r : outcome (Z * cst)) : Prop :=
  ∃ n c', r = Ret (Z.of_nat n, c') ∧ (n < 64)%nat ∧ cache_inv c' ∧ view_eq c c' ∧
    shape (cache c') = shape (cache c).

Lemma slot_at c h : cache_inv c → 0 ≤ h < 64 → ∃ e, cache c !! Z.to_nat h = Some e.
Proof.
  intros Hi Hh. pose proof (inv_len c Hi). apply lookup_lt_is_Some_2. lia.
Qed.

(** The clock: after [k] slots were passed over, the [k] slots behind the hand
    have their accessed bit clear, so the hand stops within one turn. *)
Lemma evict_clock_loop_spec fuel k c :
  cache_inv c → all_valid (cache c) → (k ≤ 64)%nat → (64 < fuel + k)%nat →
  (∀ j e, (1 ≤ j ≤ k)%nat →
     cache c !! Z.to_nat ((clock_hand c - Z.of_nat j) mod 64) = Some e → accessed e = false) →
  victim_spec c (evict_clock_loop fuel (Z.of_nat k) c).
Proof.
  revert k c. induction fuel as [|fuel IH]; intros k c Hi Hv Hk Hf Hacc; [lia|].
  pose proof (inv_clock c Hi) as Hh. destruct (slot_at c (clock_hand c) Hi Hh) as [e He].
  assert (state e = CACHE_VALID) as Hst by exact (Forall_lookup_1 _ _ _ _ Hv He).
  assert (0 ≤ (clock_hand c + 1) mod 64 < 64) as Hn by (apply Z.mod_pos_bound; lia).
  simpl. rewrite <- (Z2Nat.id (clock_hand c)) at 1 by lia.
  rewrite (get_slot_run c _ e He), Ret_bind, Hst. unfold CACHE_SIZE.
  destruct (accessed e) eqn:Ha.
  - assert (k ≠ 64)%nat as Hk'.
    { intros ->. rewrite (Hacc 64%nat e) in Ha; [done|lia|].
      replace ((clock_hand c - Z.of_nat 64) mod 64) with (clock_hand c); [done|].
      change (Z.of_nat 64) with (1 * 64). rewrite <- Zminus_mod_idemp_r, Z_mod_mult, Z.sub_0_r.
      by rewrite Z.mod_small by lia. }
    rewrite <- (Z2Nat.id (clock_hand c)) at 1 by lia.
    rewrite (set_slot_run c _ e _ He), Ret_bind.
    rewrite (proj2 (Z.ltb_ge _ _)) by lia.
    destruct (inv_lookup c _ e Hi He) as (Hlen & _ & _).
    destruct (touch_slot c (Z.to_nat (clock_hand c)) e (dirty e) false (data e) Hi He Hst Hlen)
      as [Hi1 Hv1]; [done|].
    set (c1 := with_cache c _) in *.
    replace (Z.of_nat k + 1) with (Z.of_nat (S k)) by lia.
    destruct (IH (S k) (with_clock_hand c1 ((clock_hand c + 1) mod 64)))
      as (n & c' & -> & ? & ? & Hve & Hsh).
    + by apply inv_with_clock_hand.
    + apply (all_valid_shape (cache c)); [|done]. symmetry. by apply (shape_insert _ _ e).
    + lia.
    + lia.
    + intros j e' Hj. simpl. rewrite Zminus_mod_idemp_l.
      replace (clock_hand c + 1 - Z.of_nat j) with (clock_hand c - Z.of_nat (j - 1)) by lia.
      destruct (decide (Z.to_nat ((clock_hand c - Z.of_nat (j - 1)) mod 64)
                        = Z.to_nat (clock_hand c))) as [->|Hne].
      * rewrite list_lookup_insert_eq by (rewrite (inv_len c Hi); lia). by intros [= <-].
      * rewrite list_lookup_insert_ne by done. apply Hacc. destruct (decide (j = 1)%nat) as [->|].
        -- exfalso. apply Hne. by rewrite Z.sub_0_r, Z.mod_small by lia.
        -- lia.
    + exists n, c'. split_and!; try done.
      * apply (view_eq_trans _ c1); [|done].
        apply (view_upd_same c c1 (sector e)).
        rewrite (cview_holds c (Z.to_nat (clock_hand c)) (sector e) e); [done|apply Hi|].
        split_and!; [done|by rewrite Hst|done].
      * rewrite Hsh. by apply (shape_insert _ _ e).
  - exists (Z.to_nat (clock_hand c)), (with_clock_hand c ((clock_hand c + 1) mod 64)).
    rewrite Z2Nat.id by lia. split_and!; try done; [lia|by apply inv_with_clock_hand].
Qed.

Lemma evict_fifo_spec c : cache_inv c → all_valid (cache c) → victim_spec c (evict_fifo c).
Proof.
  intros Hi Hv. pose proof (inv_fifo c Hi) as Hh.
  destruct (slot_at c (fifo_hand c) Hi Hh) as [e He].
  assert (state e = CACHE_VALID) as Hst by exact (Forall_lookup_1 _ _ _ _ Hv He).
  unfold evict_fifo. replace (Z.to_nat CACHE_SIZE) with (S 63) by reflexivity.
  generalize 63%nat. intros fuel. cbn [evict_fifo_loop].
  assert (array_get (cache c) (fifo_hand c) = Ret e) as -> by (apply array_get_Ret; split; [lia|done]).
  rewrite Ret_bind, Hst.
  exists (Z.to_nat (fifo_hand c)), (with_fifo_hand c ((fifo_hand c + 1) mod 64)).
  rewrite Z2Nat.id by lia.
  split_and!; try done; [lia|]. apply inv_with_fifo_hand; [done|apply Z.mod_pos_bound; lia].
Qed.

Lemma select_victim_spec c : cache_inv c → all_valid (cache c) → victim_spec c (select_victim c).
Proof.
  intros Hi Hv. unfold select_victim. destruct (replacement_policy c); [|by apply evict_fifo_spec].
  apply (evict_clock_loop_spec _ 0); try done; unfold CACHE_SIZE; lia.
Qed.

Lemma write_back_spec c n e :
  cache_inv c → cache c !! n = Some e → state e = CACHE_VALID →
  ∃ c' e', write_back c (Z.of_nat n) = Ret c' ∧ cache_inv c' ∧ view_eq c c' ∧
    shape (cache c') = shape (cache c) ∧ cache c' !! n = Some e' ∧
    state e' = CACHE_VALID ∧ dirty e' = false.
Proof.
  intros Hi He Hst. unfold write_back. rewrite (get_slot_run c n e He), Ret_bind.
  rewrite bool_decide_eq_true_2, andb_true_r by done. destruct (dirty e) eqn:Hd.
  - pose proof (inv_with_stats c (stats (count_writeback c)) Hi) as Hi1.
    change (with_stats c (stats (count_writeback c))) with (count_writeback c) in Hi1.
    destruct (clean_slot (count_writeback c) n e Hi1 He Hst) as (d & -> & Hi2 & Hv & _).
    rewrite Ret_bind, (set_slot_run (with_device (count_writeback c) d) n e _ He), Hst.
    eexists _, (mk_entry (sector e) CACHE_VALID false (accessed e) (data e)).
    split; [reflexivity|]. split_and!; [exact Hi2|exact Hv| | |done|done].
    + by apply (shape_insert _ _ e).
    + apply list_lookup_insert_eq. by eapply lookup_lt_Some.
  - exists c, e. done.
Qed.

Lemma cache_evict_spec c s :
  cache_inv c → (∀ n e, ¬ holds (cache c) n s e) →
  ∃ n e c', cache_evict c = Ret (Z.of_nat n, c') ∧ cache_inv c' ∧ view_eq c c' ∧
    cache c' !! n = Some e ∧ reusable e ∧ (∀ m em, ¬ holds (cache c') m s em).
Proof.
  intros Hi Hno. unfold cache_evict.
  destruct (find_slot (λ e, bool_decide (state e = CACHE_INVALID)) 0 (cache c)) as [i|] eqn:Hf.
  - destruct (find_slot_Some _ _ _ _ Hf) as (n & e & -> & He & Hp).
    apply bool_decide_eq_true in Hp. exists n, e, c. rewrite Z.add_0_l.
    split_and!; try done. by left.
  - assert (all_valid (cache c)) as Hv.
    { apply Forall_lookup. intros n e He. apply (entry_live_valid c n e); [done..|].
      pose proof (find_slot_None _ _ _ Hf n e He) as Hp. simpl in Hp.
      by apply bool_decide_eq_false in Hp. }
    destruct (select_victim_spec c Hi Hv) as (n & c1 & -> & Hn & Hi1 & Hv1 & Hsh1).
    rewrite Ret_bind. cbn beta iota zeta.
    destruct (slot_at c1 (Z.of_nat n) Hi1 ltac:(lia)) as [e He]. rewrite Nat2Z.id in He.
    assert (state e = CACHE_VALID) as Hst.
    { apply (all_valid_shape (cache c) (cache c1)) in Hv; [|done].
      exact (Forall_lookup_1 _ _ _ _ Hv He). }
    destruct (write_back_spec (count_eviction c1) n e) as (c2 & e2 & -> & Hi2 & Hv2 & Hsh2 & ? & ? & ?);
      [by apply inv_with_stats|done|done|].
    rewrite Ret_bind. exists n, e2, c2. split_and!; try done.
    + by apply (view_eq_trans _ c1).
    + by right.
    + intros m em Hh. destruct (shape_holds (cache c2) (cache c) m s em) as [e' He'];
        [|done|by apply Hno in He'].
      rewrite Hsh2. exact Hsh1.
Qed.

(** Reserve, load and finish, run back to back. *)
Lemma load_phases c n e s acc :
  cache c !! n = Some e → 0 ≤ s < block_size (fs_device c) →
  ∃ d, (c1 ← slot_reserve (Z.of_nat n) s true c; c2 ← slot_load (Z.of_nat n) s c1;
        slot_finish (Z.of_nat n) acc c2) =
       Ret (with_device (with_cache c (<[n := mk_entry s CACHE_VALID false acc
              (sector_of (fs_device c) s)]> (cache c))) d) ∧
    sectors d = sectors (fs_device c) ∧ type d = type (fs_device c).
Proof.
  intros He Hs. pose proof (lookup_lt_Some _ _ _ He) as Hlt.
  destruct (block_read_spec (fs_device c) s Hs) as (d & Hr & Hd & Ht). exists d. split; [|done].
  unfold slot_reserve. rewrite (get_slot_run c n e He), Ret_bind, (set_slot_run c n e _ He), Ret_bind.
  set (r := mk_entry s CACHE_LOADING false (accessed e) (data e)).
  set (c1 := with_cache c _).
  assert (cache c1 !! n = Some r) as H1 by (by apply list_lookup_insert_eq).
  unfold slot_load. change (fs_device c1) with (fs_device c). rewrite Hr, Ret_bind. cbn beta iota.
  rewrite (get_slot_run c1 n r H1), Ret_bind, (set_slot_run (with_device c1 d) n r _ H1), Ret_bind.
  unfold slot_finish. set (r2 := mk_entry _ _ _ _ _). set (c2 := with_cache _ _).
  assert (cache c2 !! n = Some r2) as H2.
  { apply list_lookup_insert_eq. simpl. by rewrite length_insert. }
  rewrite (get_slot_run c2 n r2 H2), Ret_bind, (set_slot_run c2 n r2 _ H2). simpl.
  unfold with_cache, with_device. simpl. by rewrite !list_insert_insert_eq.
Qed.

Lemma load_miss_spec c s acc :
  cache_inv c → (∀ n e, ¬ holds (cache c) n s e) → 0 ≤ s < block_size (fs_device c) →
  ∃ n e c', load_miss s acc c = Ret (Z.of_nat n, c') ∧ cache_inv c' ∧ view_eq c c' ∧
    cache c' !! n = Some e ∧ data e = cview c s.
Proof.
  intros Hi Hno Hs. unfold load_miss.
  destruct (cache_evict_spec c s Hi Hno) as (n & e & c1 & -> & Hi1 & Hv1 & He & Hre & Hno1).
  rewrite Ret_bind. cbn beta iota. destruct Hv1 as [Hsz1 Hv1].
  destruct (load_phases c1 n e s acc He ltac:(by rewrite Hsz1)) as (d & Hp & Hd & Ht).
  assert (∀ (m : outcome cst) (f : cst → outcome cst) (g : cst → outcome cst)
            (k : cst → outcome (Z * cst)),
    (a ← m; b ← f a; c' ← g b; k c') = (c' ← (a ← m; b ← f a; g b); k c')) as Hassoc
    by (intros [] f g k; simpl; [destruct (f a); done|done..]).
  rewrite Hassoc, Hp, Ret_bind.
  destruct (fill_slot c1 n e s false acc (sector_of (fs_device c1) s) d) as [Hi2 [Hsz2 Hv2]];
    try done; [by rewrite Hsz1|apply sector_length; [by rewrite Hsz1|by apply inv_dev]|].
  eexists n, _, _. split; [reflexivity|]. split_and!; [done| | |].
  - split; [by rewrite Hsz2|]. intros s' Hs'. rewrite Hv2, <- Hv1 by done.
    destruct (Z.eqb_spec s' s) as [->|]; [|done]. symmetry. by apply cview_none.
  - apply list_lookup_insert_eq. by eapply lookup_lt_Some.
  - simpl. rewrite <- Hv1 by lia. symmetry. by apply cview_none.
Qed.

Lemma request_prefetch_spec c s :
  cache_inv c → ∃ c', cache_request_prefetch s c = Ret c' ∧ cache_inv c' ∧ view_eq c c' ∧
    fs_device c' = fs_device c ∧ cache c' = cache c.
Proof.
  intros Hi. pose proof (inv_prefetch c Hi) as (Hl & Hh & Ht). unfold cache_request_prefetch.
  destruct (negb _); [|by exists c]. rewrite array_set_in by lia. simpl.
  eexists. split; [reflexivity|]. split; [|done]. destruct Hi. constructor; try done.
  unfold prefetch_ok, PREFETCH_QUEUE_SIZE. simpl. rewrite length_insert.
  pose proof (Z.mod_pos_bound (prefetch_tail (prefetch c) + 1) 16 ltac:(lia)). lia.
Qed.

Lemma lookup_hit c s i :
  cache_inv c → cache_lookup c s = Some i →
  ∃ n e, i = Z.of_nat n ∧ cache c !! n = Some e ∧ state e = CACHE_VALID ∧ sector e = s ∧
    data e = cview c s ∧ length (data e) = 512%nat.
Proof.
  intros Hi (n & e & -> & Hh)%cache_lookup_Some. pose proof Hh as (He & Hl & Hs).
  exists n, e. split_and!; try done.
  - by eapply entry_live_valid.
  - symmetry. by eapply cview_holds; [apply Hi|].
  - by destruct (inv_lookup c n e Hi He).
Qed.

(** Marking a valid slot accessed shows the same disk. *)
Lemma mark_accessed c n e :
  cache_inv c → cache c !! n = Some e → state e = CACHE_VALID →
  let c' := with_cache c (<[n := mk_entry (sector e) (state e) (dirty e) true (data e)]> (cache c))
  in cache_inv c' ∧ view_eq c c'.
Proof.
  intros Hi He Hst c'. subst c'. rewrite Hst. destruct (inv_lookup c n e Hi He) as (Hl & _ & _).
  destruct (touch_slot c n e (dirty e) true (data e) Hi He Hst Hl) as [Hi' Hv]; [done|].
  split; [done|]. apply (view_upd_same c _ (sector e)).
  rewrite (cview_holds c n (sector e) e); [done|apply Hi|].
  split_and!; [done|by rewrite Hst|done].
Qed.

Section operations.
Context (c : cst) (s : Z) (Hi : cache_inv c) (Hs : 0 ≤ s < block_size (fs_device c)).

Lemma cview_length : length (cview c s) = 512%nat.
Proof.
  destruct (cache_lookup c s) as [i|] eqn:Hl.
  - by destruct (lookup_hit c s i Hi Hl) as (n & e & _ & _ & _ & _ & <- & ?).
  - rewrite cview_none by (by apply cache_lookup_None). apply sector_length; [done|apply Hi].
Qed.

(** [cache_read_at] with its assertions met. *)
Lemma cache_read_at_run ofs n :
  0 ≤ ofs → 0 < n → ofs + n ≤ 512 →
  ∃ c', cache_read_at s ofs n c = Ret (slice (cview c s) (Z.to_nat ofs) (Z.to_nat n), c') ∧
    cache_inv c' ∧ view_eq c c'.
Proof.
  intros Ho Hn Hle. unfold cache_read_at, check_chunk, BLOCK_SECTOR_SIZE.
  rewrite (proj2 (Z.leb_le 0 ofs)), (proj2 (Z.ltb_lt ofs 512)), (proj2 (Z.ltb_lt 0 n)),
    (proj2 (Z.leb_le (ofs + n) 512)) by lia. simpl.
  destruct (cache_lookup c s) as [i|] eqn:Hl.
  - destruct (lookup_hit c s i Hi Hl) as (m & e & -> & He & Hst & Hse & Hd & Hlen).
    rewrite (get_slot_run c m e He), Ret_bind, Hst.
    unfold memcpy_from. rewrite (proj2 (Nat.leb_le _ _)) by lia. rewrite Ret_bind.
    rewrite (set_slot_run (count_hit c) m e _ He), Ret_bind.
    destruct (mark_accessed (count_hit c) m e) as [Hi1 Hv1]; [by apply inv_with_stats|done|done|].
    rewrite Hst in Hi1, Hv1.
    destruct (request_prefetch_spec _ (u32 (s + 1)) Hi1) as (c2 & -> & Hi2 & Hv2 & _).
    rewrite Ret_bind, Hd. exists c2. split_and!; try done. eapply view_eq_trans; [exact Hv1|done].
  - destruct (load_miss_spec (count_miss c) s true) as (m & e & c1 & -> & Hi1 & Hv1 & He & Hd);
      [by apply inv_with_stats|by apply cache_lookup_None|done|].
    rewrite Ret_bind. cbn beta iota. rewrite (get_slot_run c1 m e He), Ret_bind.
    destruct (inv_lookup c1 m e Hi1 He) as (Hlen & _ & _).
    unfold memcpy_from. rewrite (proj2 (Nat.leb_le _ _)) by lia. rewrite Ret_bind.
    destruct (request_prefetch_spec c1 (u32 (s + 1)) Hi1) as (c2 & -> & Hi2 & Hv2 & _).
    rewrite Ret_bind, Hd. exists c2. split_and!; try done. eapply view_eq_trans; [exact Hv1|done].
Qed.

Lemma cache_read_run :
  ∃ c', cache_read s c = Ret (cview c s, c') ∧ cache_inv c' ∧ view_eq c c'.
Proof.
  unfold cache_read, BLOCK_SECTOR_SIZE. destruct (cache_lookup c s) as [i|] eqn:Hl.
  - destruct (lookup_hit c s i Hi Hl) as (m & e & -> & He & Hst & Hse & Hd & Hlen).
    rewrite (get_slot_run c m e He), Ret_bind, Hst. unfold read_from_entry, memcpy_from.
    rewrite (get_slot_run (count_hit c) m e He), Ret_bind.
    rewrite (proj2 (Nat.leb_le _ _)), slice_full by (rewrite ?Hlen; reflexivity || lia).
    rewrite Ret_bind, (set_slot_run (count_hit c) m e _ He), !Ret_bind. cbn beta iota.
    destruct (mark_accessed (count_hit c) m e) as [Hi1 Hv1]; [by apply inv_with_stats|done|done|].
    destruct (request_prefetch_spec _ (u32 (s + 1)) Hi1) as (c2 & -> & Hi2 & Hv2 & _).
    rewrite Ret_bind, Hd. exists c2. split_and!; try done. eapply view_eq_trans; [exact Hv1|done].
  - destruct (load_miss_spec (count_miss c) s true) as (m & e & c1 & -> & Hi1 & Hv1 & He & Hd);
      [by apply inv_with_stats|by apply cache_lookup_None|done|].
    rewrite Ret_bind. cbn beta iota. rewrite (get_slot_run c1 m e He), Ret_bind.
    destruct (inv_lookup c1 m e Hi1 He) as (Hlen & _ & _). unfold memcpy_from.
    rewrite (proj2 (Nat.leb_le _ _)), slice_full by (rewrite ?Hlen; reflexivity || lia).
    rewrite Ret_bind.
    destruct (request_prefetch_spec c1 (u32 (s + 1)) Hi1) as (c2 & -> & Hi2 & Hv2 & _).
    rewrite Ret_bind, Hd. exists c2. split_and!; try done. eapply view_eq_trans; [exact Hv1|done].
Qed.
End operations.

(** [splice] of a whole sector does not depend on what was there. *)
Lemma splice_whole {A} (d1 d2 src : list A) :
  length d1 = length src → length d2 = length src → splice d1 0 src = splice d2 0 src.
Proof. intros H1 H2. by rewrite !splice_full. Qed.

Section write.
Context (c : cst) (s : Z) (Hi : cache_inv c) (Hs : 0 ≤ s < block_size (fs_device c)).
Context (buffer : list Z) (ofs n : Z).
Context (Ho : 0 ≤ ofs) (Hn : 0 < n) (Hle : ofs + n ≤ 512).
Context (Hb : n ≤ Z.of_nat (length buffer)).

Let new := splice (cview c s) (Z.to_nat ofs) (take (Z.to_nat n) buffer).

Lemma new_length : length new = 512%nat.
Proof.
  unfold new. pose proof (cview_length c s Hi Hs).
  rewrite length_splice; [done|]. rewrite length_take. lia.
Qed.

Lemma memcpy_run (d : list Z) :
  length d = 512%nat →
  memcpy d (Z.to_nat ofs) buffer (Z.to_nat n) =
    Ret (splice d (Z.to_nat ofs) (take (Z.to_nat n) buffer)).
Proof. intros Hd. apply memcpy_Ret. split_and!; [lia|lia|done]. Qed.

(** The miss path of [cache_write]. *)
Lemma write_miss_run :
  (∀ m em, ¬ holds (cache c) m s em) → cache_lookup c s = None →
  ∃ c', cache_write s buffer ofs n c = Ret c' ∧ cache_inv c' ∧ view_upd c c' s new.
Proof.
  intros Hno Hl. unfold cache_write, check_chunk, BLOCK_SECTOR_SIZE.
  rewrite (proj2 (Z.leb_le 0 ofs)), (proj2 (Z.ltb_lt ofs 512)), (proj2 (Z.ltb_lt 0 n)),
    (proj2 (Z.leb_le (ofs + n) 512)), Hl by lia. simpl.
  destruct (cache_evict_spec (count_miss c) s) as (m & e & c1 & -> & Hi1 & [Hsz1 Hv1] & He & Hre & Hno1);
    [by apply inv_with_stats|done|].
  rewrite Ret_bind. cbn beta iota. unfold slot_reserve.
  rewrite (get_slot_run c1 m e He), Ret_bind, (set_slot_run c1 m e _ He), Ret_bind.
  set (r := mk_entry s CACHE_LOADING (dirty e) (accessed e) (data e)). set (c2 := with_cache c1 _).
  pose proof (lookup_lt_Some _ _ _ He) as Hlt.
  assert (cache c2 !! m = Some r) as H2 by (by apply list_lookup_insert_eq).
  destruct (inv_lookup c1 m e Hi1 He) as (Hlen & _ & _).
  assert (cview c s = sector_of (fs_device c1) s) as Hcv.
  { change (cview c s) with (cview (count_miss c) s). rewrite <- Hv1 by lia. by apply cview_none. }
  change (block_size (fs_device (count_miss c))) with (block_size (fs_device c)) in Hsz1.
  assert (∀ d, sectors d = sectors (fs_device c1) → type d = type (fs_device c1) →
    let c' := with_device (with_cache c1 (<[m := mk_entry s CACHE_VALID true true new]> (cache c1))) d
    in cache_inv c' ∧ view_upd c c' s new) as Hfill.
  { intros d Hd Ht. destruct (fill_slot c1 m e s true true new d) as [Hi2 Hv2];
      try done; [by rewrite Hsz1|apply new_length|].
    split; [done|]. eapply (view_eq_upd c); [|exact Hv2]. done. }
  destruct ((ofs =? 0) && (n =? 512)) eqn:Hfull; cbn [negb].
  - apply andb_true_iff in Hfull as [Hof%Z.eqb_eq Hnf%Z.eqb_eq].
    rewrite Ret_bind, (get_slot_run c2 m r H2), Ret_bind, memcpy_run by done.
    rewrite Ret_bind, (set_slot_run c2 m r _ H2). eexists. split; [reflexivity|].
    assert (splice (data r) (Z.to_nat ofs) (take (Z.to_nat n) buffer) = new) as ->.
    { unfold new. replace (Z.to_nat ofs) with 0%nat by lia.
      apply splice_whole; rewrite length_take, ?(cview_length c s Hi Hs); simpl; lia. }
    replace (with_cache c2 _) with
      (with_device (with_cache c1 (<[m := mk_entry s CACHE_VALID true true new]> (cache c1)))
                   (fs_device c1)); [by apply Hfill|].
    unfold with_cache, with_device. simpl. by rewrite list_insert_insert_eq.
  - unfold slot_load. change (fs_device c2) with (fs_device c1).
    destruct (block_read_spec (fs_device c1) s ltac:(by rewrite Hsz1)) as (d & -> & Hd & Ht).
    rewrite Ret_bind. cbn beta iota. rewrite (get_slot_run c2 m r H2), Ret_bind.
    rewrite (set_slot_run (with_device c2 d) m r _ H2), Ret_bind.
    set (r2 := mk_entry _ _ _ _ _). set (c3 := with_cache _ _).
    assert (cache c3 !! m = Some r2) as H3.
    { apply list_lookup_insert_eq. simpl. by rewrite length_insert. }
    rewrite (get_slot_run c3 m r2 H3), Ret_bind, memcpy_run
      by (simpl; apply sector_length; [by rewrite Hsz1|apply Hi1]).
    rewrite Ret_bind, (set_slot_run c3 m r2 _ H3). eexists. split; [reflexivity|]. simpl.
    rewrite <- Hcv. change (splice (cview c s) _ _) with new.
    replace (with_cache c3 _) with
      (with_device (with_cache c1 (<[m := mk_entry s CACHE_VALID true true new]> (cache c1))) d);
      [by apply Hfill|].
    unfold with_cache, with_device. simpl. by rewrite !list_insert_insert_eq.
Qed.

Lemma cache_write_run :
  ∃ c', cache_write s buffer ofs n c = Ret c' ∧ cache_inv c' ∧ view_upd c c' s new.
Proof.
  destruct (cache_lookup c s) as [i|] eqn:Hl;
    [|by apply write_miss_run; [apply cache_lookup_None|]].
  unfold cache_write, check_chunk, BLOCK_SECTOR_SIZE.
  rewrite (proj2 (Z.leb_le 0 ofs)), (proj2 (Z.ltb_lt ofs 512)), (proj2 (Z.ltb_lt 0 n)),
    (proj2 (Z.leb_le (ofs + n) 512)), Hl by lia. simpl.
  destruct (lookup_hit c s i Hi Hl) as (m & e & -> & He & Hst & Hse & Hd & Hlen).
  rewrite (get_slot_run c m e He), Ret_bind, Hst, memcpy_run, Ret_bind by done.
  rewrite (set_slot_run (count_hit c) m e _ He), Hd. eexists. split; [reflexivity|].
  destruct (touch_slot (count_hit c) m e true true new) as [Hi1 Hv1];
    [by apply inv_with_stats|done|done|apply new_length|done|].
  rewrite Hse in Hi1, Hv1 |- *. split; [exact Hi1|exact Hv1].
Qed.
End write.

(** ** Flushing *)

(** Slot [n] needs no write-back. *)
Definition clean_at (l : list cache_entry) (n : nat) : Prop :=
  ∀ e, l !! n = Some e → state e = CACHE_VALID → dirty e = false.

Lemma flush_slot_spec c n :
  cache_inv c → (n < 64)%nat →
  ∃ c', flush_slot (Z.of_nat n) c = Ret c' ∧ cache_inv c' ∧ view_eq c c' ∧
    clean_at (cache c') n ∧ ∀ m, m ≠ n → cache c' !! m = cache c !! m.
Proof.
  intros Hi Hn. destruct (slot_at c (Z.of_nat n) Hi ltac:(lia)) as [e He]. rewrite Nat2Z.id in He.
  unfold flush_slot. rewrite (get_slot_run c n e He), Ret_bind.
  case_bool_decide as Hst; simpl; [destruct (dirty e) eqn:Hd|].
  - destruct (clean_slot c n e Hi He Hst) as (d & -> & Hi1 & Hv & _).
    rewrite Ret_bind, (set_slot_run (with_device c d) n e _ He), Hst.
    eexists. split; [reflexivity|]. split_and!; [exact Hi1|exact Hv| |].
    + intros e1. simpl. rewrite list_lookup_insert_eq by (by eapply lookup_lt_Some).
      by intros [= <-].
    + intros m Hm. simpl. by rewrite list_lookup_insert_ne.
  - exists c. split_and!; try done. intros e1 He1 _. by simplify_eq.
  - exists c. split_and!; try done. intros e1 He1 ?. by simplify_eq.
Qed.

Lemma flush_loop_spec k n c :
  cache_inv c → (n + k = 64)%nat → (∀ m, (m < n)%nat → clean_at (cache c) m) →
  ∃ c', flush_loop k (Z.of_nat n) c = Ret c' ∧ cache_inv c' ∧ view_eq c c' ∧
    ∀ m, clean_at (cache c') m.
Proof.
  revert n c. induction k as [|k IH]; intros n c Hi Hk Hcl.
  - exists c. split_and!; try done. intros m. destruct (decide (m < n)%nat); [by apply Hcl|].
    intros e He. apply lookup_lt_Some in He. rewrite (inv_len c Hi) in He. lia.
  - destruct (flush_slot_spec c n Hi ltac:(lia)) as (c1 & H1 & Hi1 & Hv1 & Hc1 & Ho1).
    simpl. rewrite H1, Ret_bind. replace (Z.of_nat n + 1) with (Z.of_nat (S n)) by lia.
    destruct (IH (S n) c1) as (c2 & -> & Hi2 & Hv2 & Hc2); [done|lia| |].
    + intros m Hm. destruct (decide (m = n)) as [->|]; [done|].
      unfold clean_at. rewrite Ho1 by done. apply Hcl. lia.
    + exists c2. split_and!; try done. by eapply view_eq_trans.
Qed.

Lemma cache_flush_run c :
  cache_inv c →
  ∃ c', cache_flush c = Ret c' ∧ cache_inv c' ∧ view_eq c c' ∧
    ∀ s, 0 ≤ s → sector_of (fs_device c') s = cview c s.
Proof.
  intros Hi. unfold cache_flush. replace (Z.to_nat CACHE_SIZE) with 64%nat by reflexivity.
  destruct (flush_loop_spec 64 0 c Hi) as (c' & H & Hi' & Hv & Hcl); [done|lia|].
  exists c'. split_and!; try done. intros s Hs. rewrite <- (proj2 Hv s Hs).
  destruct (holds_dec (cache c') s) as [(n & e & Hh)|Hno].
  - rewrite (cview_holds c' n s e) by (done || apply Hi'). destruct Hh as (He & Hl & <-).
    pose proof (entry_live_valid c' n e Hi' He Hl) as Hst.
    destruct (inv_lookup c' n e Hi' He) as (_ & _ & Hval). destruct (Hval Hst) as [_ Hd].
    rewrite Hd; [done|]. by apply (Hcl n e).
  - by rewrite cview_none.
Qed.

(** ** Which sectors are cached

    An operation on sector [s0] brings no other sector into the cache: background
    prefetching alone does that. *)

Definition cached (c : cst) (s : Z) : Prop := ∃ n e, holds (cache c) n s e.

Definition cached_within (P : Z → Prop) (c c' : cst) : Prop :=
  ∀ s, cached c' s → P s ∨ cached c s.

Lemma cached_within_trans P c1 c2 c3 :
  cached_within P c1 c2 → cached_within P c2 c3 → cached_within P c1 c3.
Proof. intros H1 H2 s [?|?%H1]%H2; auto. Qed.

Lemma cached_within_eq P c c' : cache c' = cache c → cached_within P c c'.
Proof. intros H s. unfold cached. rewrite H. auto. Qed.

Lemma set_slot_Ret c i e c' :
  set_slot c i e = Ret c' →
  0 ≤ i < Z.of_nat (length (cache c)) ∧ cache c' = <[Z.to_nat i := e]> (cache c).
Proof. unfold set_slot. intros H. outcome_inv. apply array_set_Ret in H0. naive_solver. Qed.

(** A slot keeps its identity, or is given to a sector of [P]. *)
Lemma set_slot_within P c i e c' :
  set_slot c i e = Ret c' →
  P (sector e) ∨ (∃ e0, array_get (cache c) i = Ret e0 ∧ state e0 = state e ∧ sector e0 = sector e) →
  cached_within P c c'.
Proof.
  intros (Hi & Hc)%set_slot_Ret He s (n & x & Hx & Hs & <-). rewrite Hc in Hx.
  destruct (decide (n = Z.to_nat i)) as [->|Hne].
  - rewrite list_lookup_insert_eq in Hx by lia. simplify_eq.
    destruct He as [?|(e0 & [_ H0]%array_get_Ret & Hst & Hse)]; [by left|right].
    exists (Z.to_nat i), e0. split_and!; [done|congruence|done].
  - rewrite list_lookup_insert_ne in Hx by done. right. by exists n, x.
Qed.

Ltac within_step :=
  match goal with
  | H : set_slot ?c _ _ = Ret ?c' |- cached_within _ ?c ?c' =>
      eapply set_slot_within; [exact H|]
  end.

Lemma evict_clock_within P fuel scans c i c' :
  evict_clock_loop fuel scans c = Ret (i, c') → cached_within P c c'.
Proof.
  revert scans c. induction fuel as [|fuel IH]; intros scans c; cbn [evict_clock_loop]; [done|].
  intros H. apply bind_Ret in H as (e & He & H).
  assert (∀ c1, (if 2 * CACHE_SIZE <? scans + 1 then Panic
                 else evict_clock_loop fuel (scans + 1)
                        (with_clock_hand c1 ((clock_hand c + 1) mod CACHE_SIZE))) = Ret (i, c') →
                cached_within P c1 c') as Hs.
  { intros c1 H1. destruct (_ <? _); [done|]. by apply IH in H1. }
  destruct (state e) eqn:Hst; [by apply Hs|by apply Hs|].
  destruct (accessed e).
  - apply bind_Ret in H as (c1 & H1 & H%Hs). eapply cached_within_trans; [|exact H].
    within_step. right. exists e. done.
  - injection H as _ <-. by apply cached_within_eq.
Qed.

Lemma evict_fifo_within P fuel start c i c' :
  evict_fifo_loop fuel start c = Ret (i, c') → cached_within P c c'.
Proof.
  revert c. induction fuel as [|fuel IH]; intros c; cbn [evict_fifo_loop]; [done|].
  intros H. apply bind_Ret in H as (e & He & H).
  destruct (state e); [destruct (_ =? _); [done|]; by apply IH in H..|].
  injection H as _ <-. by apply cached_within_eq.
Qed.

Lemma select_victim_within P c i c' : select_victim c = Ret (i, c') → cached_within P c c'.
Proof.
  unfold select_victim. destruct (replacement_policy c).
  - unfold evict_clock. generalize (Z.to_nat (2 * CACHE_SIZE + 1)). intros fuel.
    apply evict_clock_within.
  - unfold evict_fifo. generalize (Z.to_nat CACHE_SIZE). intros fuel. apply evict_fifo_within.
Qed.

Lemma write_back_within P c i c' : write_back c i = Ret c' → cached_within P c c'.
Proof.
  unfold write_back. intros H. apply bind_Ret in H as (e & He & H).
  destruct (_ && _); [|injection H as <-; by apply cached_within_eq].
  apply bind_Ret in H as (d & Hd & H). apply (set_slot_within P) in H; [exact H|].
  right. exists e. done.
Qed.

Lemma cache_evict_within P c i c' : cache_evict c = Ret (i, c') → cached_within P c c'.
Proof.
  unfold cache_evict. destruct (find_slot _ _ _).
  { intros [= _ <-]. by apply cached_within_eq. }
  intros H. apply bind_Ret in H as ([v c1] & H1 & H). apply bind_Ret in H as (c2 & H2 & [= -> ->]).
  apply (cached_within_trans _ _ c1).
  - by eapply select_victim_within.
  - apply (write_back_within P) in H2. exact H2.
Qed.

(** Slot [i] of [c'] belongs to sector [s]; the other slots are those of [c]. *)
Definition slot_of (i s : Z) (c c' : cst) : Prop :=
  length (cache c') = length (cache c) ∧
  (∀ n, n ≠ Z.to_nat i → cache c' !! n = cache c !! n) ∧
  ∀ e, cache c' !! Z.to_nat i = Some e → sector e = s.

Lemma slot_of_within i s c c' : slot_of i s c c' → cached_within (λ x, x = s) c c'.
Proof.
  intros (_ & Ho & Hi) s' (n & e & He & Hst & <-).
  destruct (decide (n = Z.to_nat i)) as [->|Hne]; [left; by apply Hi|right].
  rewrite Ho in He by done. by exists n, e.
Qed.

Lemma slot_of_set i s c c1 e c' :
  (c1 = c ∨ slot_of i s c c1) → set_slot c1 i e = Ret c' → sector e = s → slot_of i s c c'.
Proof.
  intros Hc (Hi & Hx)%set_slot_Ret He.
  assert (length (cache c1) = length (cache c) ∧
          ∀ n, n ≠ Z.to_nat i → cache c1 !! n = cache c !! n) as [Hl Ho].
  { destruct Hc as [->|(Hl & Ho & _)]; done. }
  split_and!.
  - by rewrite Hx, length_insert.
  - intros n Hn. rewrite Hx, list_lookup_insert_ne by done. by apply Ho.
  - intros e' He'. rewrite Hx, list_lookup_insert_eq in He' by lia. by simplify_eq.
Qed.

Lemma slot_reserve_slot i s b c c' : slot_reserve i s b c = Ret c' → slot_of i s c c'.
Proof.
  unfold slot_reserve. intros H. apply bind_Ret in H as (e & _ & H).
  eapply slot_of_set; [by left|exact H|done].
Qed.

Lemma slot_load_slot i s c c1 c' :
  slot_of i s c c1 → slot_load i s c1 = Ret c' → slot_of i s c c'.
Proof.
  unfold slot_load. intros Hs H. apply bind_Ret in H as ([b d] & _ & H).
  apply bind_Ret in H as (e & [_ He]%array_get_Ret & H).
  refine (slot_of_set i s c _ _ c' (or_intror _) H _); [exact Hs|]. simpl. by apply Hs.
Qed.

Lemma slot_finish_slot i s a c c1 c' :
  slot_of i s c c1 → slot_finish i a c1 = Ret c' → slot_of i s c c'.
Proof.
  unfold slot_finish. intros Hs H. apply bind_Ret in H as (e & [_ He]%array_get_Ret & H).
  eapply slot_of_set; [by right|exact H|]. simpl. by apply Hs.
Qed.

Lemma load_miss_within s a c i c' :
  load_miss s a c = Ret (i, c') → cached_within (λ x, x = s) c c'.
Proof.
  unfold load_miss. intros H. apply bind_Ret in H as ([j c1] & H1 & H).
  apply bind_Ret in H as (c2 & H2 & H). apply bind_Ret in H as (c3 & H3 & H).
  apply bind_Ret in H as (c4 & H4 & [= -> ->]).
  eapply cached_within_trans; [by eapply cache_evict_within|].
  eapply slot_of_within, slot_finish_slot, H4. eapply slot_load_slot, H3.
  eapply slot_reserve_slot, H2.
Qed.

Lemma request_prefetch_within P s c c' :
  cache_request_prefetch s c = Ret c' → cached_within P c c'.
Proof.
  unfold cache_request_prefetch. destruct (negb _); intros H.
  - apply bind_Ret in H as (q & _ & [= <-]). by apply cached_within_eq.
  - injection H as <-. by apply cached_within_eq.
Qed.

Lemma cache_read_at_within s ofs n c b c' :
  cache_read_at s ofs n c = Ret (b, c') → cached_within (λ x, x = s) c c'.
Proof.
  unfold cache_read_at. intros H. apply bind_Ret in H as ([] & _ & H).
  destruct (cache_lookup c s) as [i|].
  - apply bind_Ret in H as (e & He & H). destruct (state e) eqn:Hst; [done..|].
    apply bind_Ret in H as (d & _ & H). apply bind_Ret in H as (c1 & H1 & H).
    apply bind_Ret in H as (c2 & H2 & [= -> ->]).
    eapply cached_within_trans; [|by eapply request_prefetch_within].
    apply (set_slot_within (λ x, x = s)) in H1; [exact H1|]. right. exists e. by rewrite Hst.
  - apply bind_Ret in H as ([i c1] & H1 & H). apply bind_Ret in H as (e & _ & H).
    apply bind_Ret in H as (d & _ & H). apply bind_Ret in H as (c2 & H2 & [= -> ->]).
    eapply cached_within_trans; [|by eapply request_prefetch_within].
    by apply load_miss_within in H1.
Qed.

Lemma cache_read_within s c b c' :
  cache_read s c = Ret (b, c') → cached_within (λ x, x = s) c c'.
Proof.
  unfold cache_read, read_from_entry. intros H. destruct (cache_lookup c s) as [i|].
  - apply bind_Ret in H as (e & He & H). destruct (state e) eqn:Hst; [done..|].
    apply bind_Ret in H as ([d c1] & H1 & H). apply bind_Ret in H as (c2 & H2 & [= -> ->]).
    apply bind_Ret in H1 as (e' & He' & H1). apply bind_Ret in H1 as (d' & _ & H1).
    apply bind_Ret in H1 as (c3 & H3 & [= <- <-]).
    change (cache (count_hit c)) with (cache c) in He'. rewrite He in He'. injection He' as <-.
    eapply cached_within_trans; [|by eapply request_prefetch_within].
    apply (set_slot_within (λ x, x = s)) in H3; [exact H3|]. right. exists e. by rewrite Hst.
  - apply bind_Ret in H as ([i c1] & H1 & H). apply bind_Ret in H as (e & _ & H).
    apply bind_Ret in H as (d & _ & H). apply bind_Ret in H as (c2 & H2 & [= -> ->]).
    eapply cached_within_trans; [|by eapply request_prefetch_within].
    by apply load_miss_within in H1.
Qed.

Lemma cache_write_within s b ofs n c c' :
  cache_write s b ofs n c = Ret c' → cached_within (λ x, x = s) c c'.
Proof.
  unfold cache_write. intros H. apply bind_Ret in H as ([] & _ & H).
  destruct (cache_lookup c s) as [i|].
  - apply bind_Ret in H as (e & He & H). destruct (state e) eqn:Hst; [done..|].
    apply bind_Ret in H as (d & _ & H).
    apply (set_slot_within (λ x, x = s)) in H; [exact H|]. right. exists e. by rewrite Hst.
  - apply bind_Ret in H as ([i c1] & H1 & H). apply bind_Ret in H as (c2 & H2%slot_reserve_slot & H).
    apply bind_Ret in H as (c3 & H3 & H). apply bind_Ret in H as (e & [_ He]%array_get_Ret & H).
    apply bind_Ret in H as (d & _ & H).
    apply (cached_within_trans _ _ c1); [exact (cache_evict_within _ (count_miss c) _ _ H1)|].
    assert (slot_of i s c1 c3) as Hs3.
    { destruct (negb _); [by eapply slot_load_slot|]. by injection H3 as <-. }
    eapply slot_of_within, slot_of_set; [by right|exact H|]. simpl. by apply Hs3.
Qed.

Lemma cache_flush_within P c c' : cache_flush c = Ret c' → cached_within P c c'.
Proof.
  unfold cache_flush. generalize (Z.to_nat CACHE_SIZE), 0. intros n.
  revert c. induction n as [|n IH]; intros c i; cbn [flush_loop].
  { intros [= ->]. by apply cached_within_eq. }
  intros H. apply bind_Ret in H as (c1 & H1 & H%IH). eapply cached_within_trans; [|exact H].
  unfold flush_slot in H1. apply bind_Ret in H1 as (e & He & H1).
  destruct (_ && _); [|injection H1 as <-; by apply cached_within_eq].
  apply bind_Ret in H1 as (d & _ & H1). apply (set_slot_within P) in H1; [exact H1|].
  right. exists e. done.
Qed.

(** ** Properties *)

(** C37. Reading through the cache returns the sector of the abstract disk,
    whole or in part, on a hit and on a miss with or without eviction; it
    leaves the abstract disk unchanged and preserves the cache invariant. *)
Theorem cache_read_refines (c : cst) (s ofs n : Z)
    (Hi : cache_inv c) (Hs : 0 ≤ s < block_size (fs_device c))
    (Ho : 0 ≤ ofs) (Hn : 0 < n) (Hle : ofs + n ≤ BLOCK_SECTOR_SIZE) :
  (∃ c', cache_read s c = Ret (cview c s, c') ∧ cache_inv c' ∧ view_eq c c') ∧
  (∃ c', cache_read_at s ofs n c = Ret (slice (cview c s) (Z.to_nat ofs) (Z.to_nat n), c') ∧
     cache_inv c' ∧ view_eq c c').
Proof. split; [by apply cache_read_run|by apply cache_read_at_run]. Qed.

(** C36. [cache_write] stores the chunk at its offset in one sector of the
    abstract disk and changes no other byte of any sector, whether the sector was
    cached, had to be loaded, or is written whole without a load. *)
Theorem cache_write_refines (c : cst) (s ofs n : Z) (buffer : list Z)
    (Hi : cache_inv c) (Hs : 0 ≤ s < block_size (fs_device c))
    (Ho : 0 ≤ ofs) (Hn : 0 < n) (Hle : ofs + n ≤ BLOCK_SECTOR_SIZE)
    (Hb : n ≤ Z.of_nat (length buffer)) :
  ∃ c', cache_write s buffer ofs n c = Ret c' ∧ cache_inv c' ∧
    view_upd c c' s (splice (cview c s) (Z.to_nat ofs) (take (Z.to_nat n) buffer)).
Proof. by apply cache_write_run. Qed.

(** After [cache_flush] (and so after [cache_shutdown] and after a round of
    the flusher thread) every sector of the device equals the abstract disk, and
    the abstract disk is the same as before. *)
Theorem cache_flush_durable (c : cst) (Hi : cache_inv c) :
  ∃ c', cache_flush c = Ret c' ∧ cache_inv c' ∧ view_eq c c' ∧
    ∀ s, 0 ≤ s → sector_of (fs_device c') s = cview c s.
Proof. by apply cache_flush_run. Qed.

(** The clock and the FIFO policy both find a victim in a full quiescent
    cache: eviction never panics, and the slot [cache_evict] hands out holds no
    data the device lacks. *)
Theorem cache_evict_total (c : cst) (s : Z)
    (Hi : cache_inv c) (Hmiss : cache_lookup c s = None) :
  ∃ n e c', cache_evict c = Ret (Z.of_nat n, c') ∧ cache_inv c' ∧ view_eq c c' ∧
    cache c' !! n = Some e ∧ reusable e ∧ cache_lookup c' s = None.
Proof.
  destruct (cache_evict_spec c s Hi (cache_lookup_None c s Hmiss))
    as (n & e & c' & ? & ? & ? & ? & ? & Hno).
  exists n, e, c'. split_and!; try done. destruct (cache_lookup c' s) eqn:Hl; [|done].
  destruct (cache_lookup_Some _ _ _ Hl) as (m & em & _ & Hh). by apply Hno in Hh.
Qed.


(** ** Frame: only the prefetch functions touch the prefetch state *)

Lemma set_slot_frame c i e c' : set_slot c i e = Ret c' → prefetch c' = prefetch c.
Proof. unfold set_slot. intros H. by outcome_inv. Qed.

Lemma evict_clock_loop_frame fuel k c i c' :
  evict_clock_loop fuel k c = Ret (i, c') → prefetch c' = prefetch c.
Proof.
  revert k c. induction fuel as [|fuel IH]; intros k c; simpl; [done|]. intros H.
  apply bind_Ret in H as (e & _ & H).
  destruct (state e), (accessed e), (2 * CACHE_SIZE <? k + 1) eqn:Hk; try done;
    try (by apply IH in H); try (by outcome_inv).
  apply bind_Ret in H as (c1 & H1%set_slot_frame & H). apply IH in H. simpl in H. congruence.
Qed.

Lemma evict_fifo_loop_frame fuel s c i c' :
  evict_fifo_loop fuel s c = Ret (i, c') → prefetch c' = prefetch c.
Proof.
  revert c. induction fuel as [|fuel IH]; intros c; simpl; [done|]. intros H.
  apply bind_Ret in H as (e & _ & H).
  destruct (state e), ((fifo_hand c + 1) mod CACHE_SIZE =? s); try done;
    try (by apply IH in H); by outcome_inv.
Qed.

Lemma cache_evict_frame c i c' : cache_evict c = Ret (i, c') → prefetch c' = prefetch c.
Proof.
  unfold cache_evict, select_victim, evict_clock, evict_fifo, write_back. intros H.
  destruct (find_slot _ _ _); [by outcome_inv|]. apply bind_Ret in H as ([v c1] & H1 & H).
  assert (prefetch c1 = prefetch c) as <- by (destruct (replacement_policy c);
    [by apply evict_clock_loop_frame in H1|by apply evict_fifo_loop_frame in H1]).
  apply bind_Ret in H as (c2 & H2 & H). injection H as _ <-.
  apply bind_Ret in H2 as (e & _ & H2). destruct (_ && _); [|by injection H2 as <-].
  apply bind_Ret in H2 as (d & _ & H2). by apply set_slot_frame in H2.
Qed.

Lemma load_miss_frame s acc c i c' : load_miss s acc c = Ret (i, c') → prefetch c' = prefetch c.
Proof.
  unfold load_miss, slot_reserve, slot_load, slot_finish. intros H. outcome_inv.
  repeat match goal with
  | H : set_slot _ _ _ = Ret _ |- _ => apply set_slot_frame in H; simpl in H
  | H : cache_evict _ = Ret _ |- _ => apply cache_evict_frame in H
  end. congruence.
Qed.

(** The last thing a read does is to request the next sector. *)
Lemma cache_read_requests c s buf c' :
  cache_read s c = Ret (buf, c') →
  ∃ c1, prefetch c1 = prefetch c ∧ cache_request_prefetch (u32 (s + 1)) c1 = Ret c'.
Proof.
  unfold cache_read, read_from_entry. intros H. destruct (cache_lookup c s) as [i|].
  - apply bind_Ret in H as (e & _ & H). destruct (state e); try done. outcome_inv.
    repeat match goal with
    | H : set_slot _ _ _ = Ret _ |- _ => apply set_slot_frame in H; simpl in H end. eauto.
  - outcome_inv.
    repeat match goal with
    | H : load_miss _ _ _ = Ret _ |- _ => apply load_miss_frame in H; simpl in H end. eauto.
Qed.

(** A prefetch of a sector past the end of the device panics. *)
Lemma do_prefetch_past_end c s :
  cache_inv c → block_size (fs_device c) ≤ s → cache_do_prefetch s c = Panic.
Proof.
  intros Hi Hs. unfold cache_do_prefetch, load_miss.
  destruct (cache_lookup c s) as [i|] eqn:Hl.
  { destruct (lookup_hit c s i Hi Hl) as (n & e & _ & He & Hst & <- & _).
    destruct (inv_lookup c n e Hi He) as (_ & _ & Hv). destruct (Hv Hst). lia. }
  destruct (cache_evict_spec c s Hi (cache_lookup_None c s Hl))
    as (n & e & c1 & -> & _ & [Hsz _] & He & _).
  rewrite Ret_bind. cbn beta iota. unfold slot_reserve.
  rewrite (get_slot_run c1 n e He), Ret_bind, (set_slot_run c1 n e _ He), Ret_bind.
  unfold slot_load, block_read, check_sector. simpl.
  by rewrite (proj2 (Z.leb_le (block_size (fs_device c1)) s)) by lia.
Qed.

(** Reading the last sector of the device queues a prefetch of the sector
    past its end, and the prefetcher's next round then panics the kernel in
    [block_read]: the prefetch is not best effort at the end of the disk. *)
Theorem prefetch_past_end_panics (c : cst)
    (Hi : cache_inv c) (Hrun : prefetcher_running (prefetch c) = true)
    (Hq : prefetch_head (prefetch c) = prefetch_tail (prefetch c))
    (Hsz : 0 < block_size (fs_device c) < 2 ^ 32) :
  ∃ buf c', cache_read (block_size (fs_device c) - 1) c = Ret (buf, c') ∧
    prefetcher_round c' = Panic.
Proof.
  destruct (cache_read_run c (block_size (fs_device c) - 1) Hi ltac:(lia)) as (c' & Hr & Hi' & [Hsz' _]).
  exists (cview c (block_size (fs_device c) - 1)), c'. split; [done|].
  destruct (cache_read_requests _ _ _ _ Hr) as (c1 & Hp1 & Hreq).
  pose proof (inv_prefetch c Hi) as (Hql & Hh & Ht).
  unfold cache_request_prefetch, PREFETCH_QUEUE_SIZE in Hreq.
  rewrite Hp1, Hq, Z.sub_add, wrap_small in Hreq by lia.
  assert ((prefetch_tail (prefetch c) + 1) mod 16 ≠ prefetch_tail (prefetch c)) as Hne.
  { intros He. assert (prefetch_tail (prefetch c) = 15 ∨ prefetch_tail (prefetch c) < 15)
      as [H15|H15] by lia; [by rewrite H15 in He|]. rewrite Z.mod_small in He; lia. }
  rewrite (proj2 (Z.eqb_neq _ _) Hne) in Hreq. simpl in Hreq.
  rewrite array_set_in in Hreq by lia. injection Hreq as <-.
  unfold prefetcher_round. simpl.
  rewrite (proj2 (Z.eqb_neq _ _) (not_eq_sym Hne)), Hrun. simpl.
  assert (∀ (l : list Z) i x, 0 ≤ i < Z.of_nat (length l) →
    array_get (<[Z.to_nat i := x]> l) i = Ret x) as Hget.
  { intros l i x Hr'. apply array_get_Ret. split; [lia|]. apply list_lookup_insert_eq. lia. }
  rewrite Hget, Ret_bind by lia. rewrite do_prefetch_past_end; [done| |].
  - destruct Hi'. constructor; try done. unfold prefetch_ok, PREFETCH_QUEUE_SIZE in *. simpl in *.
    pose proof (Z.mod_pos_bound (prefetch_tail (prefetch c) + 1) 16 ltac:(lia)). lia.
  - simpl in *. lia.
Qed.

Lemma cache_init_inv (c : cst)
    (Hd : wf (fs_device c)) (Hl : length (cache c) = 64%nat)
    (Hdata : Forall (λ e, length (data e) = 512%nat) (cache c))
    (Hf : 0 ≤ fifo_hand c < 64)
    (Hq : length (prefetch_queue (prefetch c)) = 16%nat) :
  cache_inv (cache_init c) ∧ ∀ s, cview (cache_init c) s = sector_of (fs_device c) s.
Proof.
  assert (∀ n s e, ¬ holds (cache (cache_init c)) n s e) as Hno.
  { intros n s e (He & Hst & _). simpl in He.
    apply list_lookup_fmap_Some in He as (e0 & -> & _). done. }
  split; [|intros s; by rewrite (cview_none (cache_init c))].
  constructor; simpl; try done.
  - by rewrite length_fmap.
  - apply Forall_fmap. eapply Forall_impl; [|exact Hdata]. intros e He. split_and!; simpl; done.
  - intros n m s en em Hn. by apply Hno in Hn.
Qed.

(** [cache_init] establishes the cache invariant on any device that can be
    written, and the abstract disk is then the device itself. *)
Theorem cache_init_establishes (c : cst)
    (Hd : wf (fs_device c)) (Hl : length (cache c) = 64%nat)
    (Hdata : Forall (λ e, length (data e) = 512%nat) (cache c))
    (Hf : 0 ≤ fifo_hand c < 64)
    (Hq : length (prefetch_queue (prefetch c)) = 16%nat) :
  cache_inv (cache_init c) ∧ ∀ s, cview (cache_init c) s = sector_of (fs_device c) s.
Proof. by apply cache_init_inv. Qed.

(** ** Witnesses *)

Definition demo_dev : block := mk_block BLOCK_FILESYS (replicate 3 (replicate 512 0)) 0 0.

Definition demo_boot : cst :=
  mk_cst demo_dev (replicate 64 (mk_entry 0 CACHE_INVALID false false (replicate 512 0))) 0 0
         CACHE_REPLACE_CLOCK (mk_stats 0 0 0 0) false (mk_prefetch (replicate 16 0) 0 0 false).

Definition demo : cst := cache_init demo_boot.

Lemma cache_init_establishes_witness :
  cache_inv demo ∧ ∀ s, cview demo s = sector_of demo_dev s.
Proof.
  apply (cache_init_establishes demo_boot); try done.
  - split; [done|]. apply Forall_replicate. reflexivity.
  - apply Forall_replicate. reflexivity.
Defined.

(** The invariant of the example state, for the other witnesses. *)
Lemma demo_inv : cache_inv demo.
Proof.
  apply cache_init_inv; try done.
  - split; [done|]. apply Forall_replicate. reflexivity.
  - apply Forall_replicate. reflexivity.
Qed.

Lemma cache_read_refines_witness :
  (∃ c', cache_read 1 demo = Ret (cview demo 1, c') ∧ cache_inv c' ∧ view_eq demo c') ∧
  (∃ c', cache_read_at 1 10 20 demo = Ret (slice (cview demo 1) 10 20, c') ∧
     cache_inv c' ∧ view_eq demo c').
Proof. apply (cache_read_refines demo 1 10 20); [exact demo_inv|done..]. Defined.

Lemma cache_write_refines_witness :
  ∃ c', cache_write 2 [7; 8; 9] 5 3 demo = Ret c' ∧ cache_inv c' ∧
    view_upd demo c' 2 (splice (cview demo 2) 5 [7; 8; 9]).
Proof. apply (cache_write_refines demo 2 5 3 [7; 8; 9]); [exact demo_inv|done..]. Defined.

Lemma cache_flush_durable_witness :
  ∃ c', cache_flush demo = Ret c' ∧ cache_inv c' ∧ view_eq demo c' ∧
    ∀ s, 0 ≤ s → sector_of (fs_device c') s = cview demo s.
Proof. apply (cache_flush_durable demo). exact demo_inv. Defined.

Lemma cache_evict_total_witness :
  ∃ n e c', cache_evict demo = Ret (Z.of_nat n, c') ∧ cache_inv c' ∧ view_eq demo c' ∧
    cache c' !! n = Some e ∧ reusable e ∧ cache_lookup c' 1 = None.
Proof. apply (cache_evict_total demo 1); [exact demo_inv|reflexivity]. Defined.

Lemma prefetch_past_end_panics_witness :
  ∃ buf c', cache_read 2 demo = Ret (buf, c') ∧ prefetcher_round c' = Panic.
Proof. apply (prefetch_past_end_panics demo); [exact demo_inv|done..]. Defined.

End Cache.
