(* ===== verification/FreeMap.v ===== *)
(** * The free map ([filesys/free-map.c])

    The in-memory bitmap of the device's sectors and whether the file that
    persists it is open.  The file itself is written through the inode layer;
    here it is the operations [write] and [read] on some state [S]. *)

From stdpp Require Import base tactics numbers list list_numbers option.
From S2P Require Import Prelude Bitmap.

Open Scope Z_scope.

Module FreeMap.
Import Bitmap.

Definition FREE_MAP_SECTOR : Z := 0.
Definition ROOT_DIR_SECTOR : Z := 1.
Definition WAL_LOG_START_SECTOR : Z := 2.
Definition WAL_LOG_SECTORS : Z := 64.
Definition WAL_METADATA_SECTOR : Z := WAL_LOG_START_SECTOR + WAL_LOG_SECTORS.

Record fmst := mk_fm {
  free_map : bitmap;
  free_map_file : bool  (** whether the file is open, [free_map_file != NULL] *)
}.

(** The loop that marks [n] WAL sectors from [s] on. *)
Fixpoint mark_loop (b : bitmap) (s : Z) (n : nat) : outcome bitmap :=
  match n with
  | O => Ret b
  | S n => b ← bitmap_mark b s; mark_loop b (s + 1) n
  end.

(** [words]: the memory [bitmap_create] gets for the words, if any. *)
Definition free_map_init (words : option (list Z)) (device_size : Z) : outcome fmst :=
  o ← bitmap_create true words device_size;
  match o with
  | None => Panic
  | Some b =>
      b ← bitmap_mark b FREE_MAP_SECTOR;
      b ← bitmap_mark b ROOT_DIR_SECTOR;
      b ← mark_loop b WAL_LOG_START_SECTOR
            (Z.to_nat (WAL_METADATA_SECTOR - WAL_LOG_START_SECTOR + 1));
      Ret (mk_fm b false)
  end.

Section ops.
Context {S : Type}.
Context (write : list Z → Z → Z → S → outcome (Z * S)).
Context (read : Z → Z → S → outcome (list Z * S)).

(** Returns the first sector, or [None] where the C function returns false. *)
Definition free_map_allocate (cnt : Z) (f : fmst) (s : S) : outcome (option Z * fmst * S) :=
  '(sector, b) ← bitmap_scan_and_flip (free_map f) 0 cnt false;
  if negb (sector =? BITMAP_ERROR) && free_map_file f then
    '(ok, s) ← bitmap_write write b s;
    if negb ok then
      b ← bitmap_set_multiple b sector cnt false;
      Ret (None, mk_fm b (free_map_file f), s)
    else Ret (Some sector, mk_fm b (free_map_file f), s)
  else Ret (if sector =? BITMAP_ERROR then None else Some sector,
            mk_fm b (free_map_file f), s).

Definition free_map_allocate_one (f : fmst) (s : S) : outcome (option Z * fmst * S) :=
  free_map_allocate 1 f s.

(** The file must be open: [bitmap_write] dereferences it. *)
Definition free_map_release (sector cnt : Z) (f : fmst) (s : S) : outcome (fmst * S) :=
  all ← bitmap_all (free_map f) sector cnt;
  ASSERT all;;
  b ← bitmap_set_multiple (free_map f) sector cnt false;
  DEFINED (free_map_file f);;
  '(_, s) ← bitmap_write write b s;
  Ret (mk_fm b (free_map_file f), s).

(** [free_map_open] once the file is open. *)
Definition free_map_open (f : fmst) (s : S) : outcome (fmst * S) :=
  '(ok, b, s) ← bitmap_read read (free_map f) s;
  if ok : bool then Ret (mk_fm b true, s) else Panic.

(** [free_map_create] once the inode is created and the file is open. *)
Definition free_map_create (f : fmst) (s : S) : outcome (fmst * S) :=
  '(ok, s) ← bitmap_write write (free_map f) s;
  if ok : bool then Ret (mk_fm (free_map f) true, s) else Panic.
End ops.

(** ** Invariant *)

(** Sector [s] is marked in use. *)
Definition in_use (f : fmst) (s : Z) : Prop := bm_bit (free_map f) s = true.

(** The bitmap is well formed, smaller than [BITMAP_ERROR], and sectors 0 to 66
    (free map, root directory, log, log metadata) are never free. *)
Definition fm_inv (f : fmst) : Prop :=
  wf (free_map f) ∧ WAL_METADATA_SECTOR < bit_cnt (free_map f) ∧
  ∀ s, 0 ≤ s ≤ WAL_METADATA_SECTOR → in_use f s.

Lemma mark_loop_spec b s n :
  wf b → 0 ≤ s → s + Z.of_nat n ≤ bit_cnt b →
  ∃ b', mark_loop b s n = Ret b' ∧ wf b' ∧ bit_cnt b' = bit_cnt b ∧
    ∀ i, 0 ≤ i → bm_bit b' i = if (s <=? i) && (i <? s + Z.of_nat n) then true else bm_bit b i.
Proof.
  revert b s. induction n as [|n IH]; intros b s Hwf Hs Hle.
  - exists b. split_and!; try done. intros i Hi.
    destruct (Z.leb_spec s i), (Z.ltb_spec i (s + Z.of_nat 0)); simpl; done || lia.
  - simpl. destruct (bitmap_mark_spec b s Hwf ltac:(lia)) as (b1 & -> & Hw1 & Hc1 & Hb1).
    rewrite Ret_bind. destruct (IH b1 (s + 1)) as (b2 & -> & Hw2 & Hc2 & Hb2); [done|lia|lia|].
    exists b2. split_and!; try done; [lia|]. intros i Hi. rewrite Hb2, Hb1 by done.
    destruct (Z.leb_spec (s + 1) i), (Z.ltb_spec i (s + 1 + Z.of_nat n)), (Z.leb_spec s i),
      (Z.ltb_spec i (s + Z.of_nat (Datatypes.S n))), (Z.eqb_spec i s); simpl; done || lia.
Qed.

(** [f'] differs from [f] in sectors [s, s + cnt), which have value [v]. *)
Definition run_set (f f' : fmst) (s cnt : Z) (v : bool) : Prop :=
  ∀ i, 0 ≤ i → bm_bit (free_map f') i =
    if (s <=? i) && (i <? s + cnt) then v else bm_bit (free_map f) i.

(** What a successful allocation promises: the sectors lie on the device past
    the reserved ones, were free, are now in use, and nothing else changed. *)
Definition allocated (f f' : fmst) (sec cnt : Z) : Prop :=
  WAL_METADATA_SECTOR < sec ∧ sec + cnt ≤ bit_cnt (free_map f) ∧
  run_at (free_map f) sec cnt false ∧ run_set f f' sec cnt true.

(** The bitmap still shows the same sectors in use. *)
Definition unchanged (f f' : fmst) : Prop :=
  ∀ i, 0 ≤ i → bm_bit (free_map f') i = bm_bit (free_map f) i.

Lemma run_set_inv f b' sec cnt v file :
  fm_inv f → wf b' → bit_cnt b' = bit_cnt (free_map f) →
  (v = false → WAL_METADATA_SECTOR < sec) → run_set f (mk_fm b' file) sec cnt v →
  fm_inv (mk_fm b' file).
Proof.
  intros (Hw & Hsz & Hres) Hw' Hc Hv Hset. split_and!; [done|simpl; lia|]. intros s Hs.
  unfold in_use. rewrite Hset by lia. destruct v.
  - rewrite Hres by lia. by destruct ((sec <=? s) && _).
  - specialize (Hv eq_refl). rewrite (proj2 (Z.leb_gt sec s)) by lia. by apply Hres.
Qed.

(** Allocation over a file whose writes keep [I] and return results in [P]. *)
Section alloc.
Context {S : Type} (write : list Z → Z → Z → S → outcome (Z * S)).
Context (size : Z) (I : S → Prop) (P : bool → Prop).
Context (Hwr : ∀ b s, wf b → bit_cnt b = size → I s →
  ∃ ok s', bitmap_write write b s = Ret (ok, s') ∧ P ok ∧ I s').

Lemma allocate_rel cnt f s :
  fm_inv f → bit_cnt (free_map f) = size → 0 < cnt → I s →
  ∃ r f' s', free_map_allocate write cnt f s = Ret (r, f', s') ∧ I s' ∧ fm_inv f' ∧
    bit_cnt (free_map f') = bit_cnt (free_map f) ∧ free_map_file f' = free_map_file f ∧
    match r with
    | Some sec => allocated f f' sec cnt ∧
        ∀ k, 0 ≤ k < sec → ¬ run_at (free_map f) k cnt false
    | None => unchanged f f' ∧
        (free_map_file f = true ∧ P false ∨
         ∀ k, 0 ≤ k → k + cnt ≤ bit_cnt (free_map f) → ¬ run_at (free_map f) k cnt false)
    end.
Proof using Hwr.
  intros Hinv Hsize Hc HI. pose proof Hinv as (Hw & Hsz & Hres). unfold WAL_METADATA_SECTOR in *.
  unfold free_map_allocate.
  destruct (bitmap_scan_and_flip_bits (free_map f) 0 cnt false Hw) as
    (r & b & -> & Hr & Hwb & Hcb & Hbits); [unfold WAL_LOG_START_SECTOR, WAL_LOG_SECTORS in *; lia|lia|].
  rewrite Ret_bind. cbn beta iota.
  destruct (Z.eqb_spec r BITMAP_ERROR) as [->|Hne]; simpl in Hbits |- *.
  - destruct Hr as [[_ Hno]|(_ & Hle & _)];
      [|destruct Hw as (? & _); unfold BITMAP_ERROR in *; lia].
    eexists _, _, _. split; [reflexivity|]. split; [exact HI|]. split_and!; [|done|done|done|by right].
    split_and!; [done|simpl; unfold WAL_METADATA_SECTOR; lia|]. intros i Hi. unfold in_use. simpl.
    rewrite Hbits by lia. by apply Hres.
  - destruct Hr as [[-> _]|(H0 & Hle & Hrun & Hfirst)]; [done|].
    assert (WAL_METADATA_SECTOR < r) as Hpast.
    { destruct (decide (WAL_METADATA_SECTOR < r)); [done|].
      pose proof (Hrun r ltac:(lia)) as Hfr. unfold in_use in Hres.
      rewrite Hres in Hfr; [done|unfold WAL_METADATA_SECTOR in *; lia]. }
    assert (fm_inv (mk_fm b (free_map_file f))) as Hinv'
      by (by apply (run_set_inv f b r cnt true)).
    assert (allocated f (mk_fm b (free_map_file f)) r cnt) as Hal by done.
    destruct (free_map_file f) eqn:Hfile.
    + destruct (Hwr b s Hwb ltac:(congruence) HI) as (ok & s' & -> & HP & HI'). rewrite Ret_bind. cbn beta iota.
      destruct ok; simpl; [eexists _, _, _; split; [reflexivity|by split_and!]|].
      destruct (bitmap_set_multiple_bits b r cnt Hwb H0 ltac:(lia) ltac:(lia) false)
        as (b2 & -> & Hw2 & Hc2 & Hb2). rewrite Ret_bind.
      assert (∀ i, 0 ≤ i → bm_bit b2 i = bm_bit (free_map f) i) as Hsame.
      { intros i Hi. rewrite Hb2, Hbits by done.
        destruct (Z.leb_spec r i), (Z.ltb_spec i (r + cnt)); simpl; try done.
        symmetry. apply Hrun. lia. }
      eexists _, _, _. split; [reflexivity|]. split; [exact HI'|].
      split_and!; [|simpl; congruence|done|done|by left].
      split_and!; [done|simpl; unfold WAL_METADATA_SECTOR in *; lia|]. intros i Hi.
      unfold in_use. simpl. rewrite Hsame by lia. by apply Hres.
    + eexists _, _, _. split; [reflexivity|]. by split_and!.
Qed.
End alloc.

Section props.
Context {S : Type} (write : list Z → Z → Z → S → outcome (Z * S)).
Context (Hwr : ∀ buf n o s, ∃ r s', write buf n o s = Ret (r, s')).

Lemma bitmap_write_total b s : ∃ ok s', bitmap_write write b s = Ret (ok, s').
Proof.
  unfold bitmap_write. destruct (Hwr (words_to_bytes (bits b)) (byte_cnt (bit_cnt b)) 0 s)
    as (r & s' & ->). simpl. eauto.
Qed.

Lemma allocate_run cnt f s :
  fm_inv f → 0 < cnt →
  ∃ r f' s', free_map_allocate write cnt f s = Ret (r, f', s') ∧ fm_inv f' ∧
    bit_cnt (free_map f') = bit_cnt (free_map f) ∧ free_map_file f' = free_map_file f ∧
    match r with
    | Some sec => allocated f f' sec cnt ∧
        ∀ k, 0 ≤ k < sec → ¬ run_at (free_map f) k cnt false
    | None => unchanged f f' ∧
        (free_map_file f = true ∨
         ∀ k, 0 ≤ k → k + cnt ≤ bit_cnt (free_map f) → ¬ run_at (free_map f) k cnt false)
    end.
Proof.
  intros Hinv Hc.
  destruct (allocate_rel write (bit_cnt (free_map f)) (λ _, True) (λ _, True)) with (cnt := cnt) (f := f) (s := s)
    as (r & f' & s' & Hr & _ & Hi & Hb & Hf & Hres); try done.
  { intros b s0 _ _ _. destruct (bitmap_write_total b s0) as (ok & s' & ->). eauto. }
  exists r, f', s'. split_and!; try done. destruct r; [done|]. destruct Hres as [? [[? _]|?]]; split; auto.
Qed.

Lemma release_run sec cnt f s :
  fm_inv f → WAL_METADATA_SECTOR < sec → 0 ≤ cnt → sec + cnt ≤ bit_cnt (free_map f) →
  free_map_file f = true → run_at (free_map f) sec cnt true →
  ∃ f' s', free_map_release write sec cnt f s = Ret (f', s') ∧ fm_inv f' ∧
    bit_cnt (free_map f') = bit_cnt (free_map f) ∧ free_map_file f' = true ∧
    run_set f f' sec cnt false.
Proof.
  intros Hinv Hs Hc Hle Hfile Hrun. pose proof Hinv as (Hw & Hsz & Hres).
  assert (0 ≤ sec) by (unfold WAL_METADATA_SECTOR, WAL_LOG_START_SECTOR, WAL_LOG_SECTORS in *; lia).
  unfold free_map_release.
  destruct (bitmap_all_spec (free_map f) sec cnt Hw) as (a & -> & Ha); [done..|].
  rewrite Ret_bind, (proj2 Ha Hrun). simpl.
  destruct (bitmap_set_multiple_bits (free_map f) sec cnt Hw) with (v := false)
    as (b & -> & Hwb & Hcb & Hb); [done..|].
  rewrite Ret_bind, Hfile. simpl. destruct (bitmap_write_total b s) as (ok & s' & ->).
  rewrite Ret_bind. cbn beta iota. eexists _, _. split; [reflexivity|].
  split_and!; try done. by apply (run_set_inv f b sec cnt false).
Qed.
End props.

(** ** Properties *)

(** [free_map_allocate] hands out only sectors that were free, lie past the
    reserved log area and inside the device, and are the first such run; it marks
    exactly those.  When it fails (no run, or the bitmap file could not be
    written) the bitmap is as before.  The invariant holds either way. *)
Theorem free_map_allocate_spec {S} (write : list Z → Z → Z → S → outcome (Z * S))
    (cnt : Z) (f : fmst) (s : S)
    (Hwr : ∀ buf n o s, ∃ r s', write buf n o s = Ret (r, s'))
    (Hinv : fm_inv f) (Hc : 0 < cnt) :
  ∃ r f' s', free_map_allocate write cnt f s = Ret (r, f', s') ∧ fm_inv f' ∧
    match r with
    | Some sec => allocated f f' sec cnt ∧
        ∀ k, 0 ≤ k < sec → ¬ run_at (free_map f) k cnt false
    | None => unchanged f f' ∧
        (free_map_file f = true ∨
         ∀ k, 0 ≤ k → k + cnt ≤ bit_cnt (free_map f) → ¬ run_at (free_map f) k cnt false)
    end.
Proof.
  destruct (allocate_run write Hwr cnt f s Hinv Hc) as (r & f' & s' & ? & ? & _ & _ & ?). eauto 10.
Qed.

(** Releasing the sectors an allocation returned gives back the free map
    of before the allocation. *)
Theorem free_map_release_allocate {S} (write : list Z → Z → Z → S → outcome (Z * S))
    (cnt sec : Z) (f f1 : fmst) (s s1 : S)
    (Hwr : ∀ buf n o s, ∃ r s', write buf n o s = Ret (r, s'))
    (Hinv : fm_inv f) (Hc : 0 < cnt) (Hfile : free_map_file f = true)
    (Ha : free_map_allocate write cnt f s = Ret (Some sec, f1, s1)) :
  ∃ f2 s2, free_map_release write sec cnt f1 s1 = Ret (f2, s2) ∧ fm_inv f2 ∧
    bm_abs (free_map f2) = bm_abs (free_map f).
Proof.
  destruct (allocate_run write Hwr cnt f s Hinv Hc) as (r & f' & s' & Hr & Hi' & Hc' & Hf' & Hres).
  rewrite Ha in Hr. simplify_eq. destruct Hres as [(Hp & Hle & Hrun & Hset) _].
  destruct (release_run write Hwr sec cnt f' s') as (f2 & s2 & Hr2 & Hi2 & Hc2 & _ & Hset2);
    [done|done|lia|lia|congruence| |].
  { intros i Hi. rewrite Hset by (unfold WAL_METADATA_SECTOR, WAL_LOG_START_SECTOR,
      WAL_LOG_SECTORS in *; lia).
    by rewrite (proj2 (Z.leb_le sec i)), (proj2 (Z.ltb_lt i (sec + cnt))) by lia. }
  exists f2, s2. split_and!; try done. apply bm_abs_ext; [congruence|]. intros i Hi.
  rewrite Hset2, Hset by lia.
  destruct (Z.leb_spec sec i), (Z.ltb_spec i (sec + cnt)); simpl; try done.
  symmetry. apply Hrun. lia.
Qed.

(** Releasing a run that contains a free sector (a double free) panics and
    changes nothing. *)
Theorem free_map_double_release {S} (write : list Z → Z → Z → S → outcome (Z * S))
    (sec cnt i : Z) (f : fmst) (s : S) (Hinv : fm_inv f) (Hs : 0 ≤ sec)
    (Hle : sec + cnt ≤ bit_cnt (free_map f)) (Hi : sec ≤ i < sec + cnt)
    (Hfree : ¬ in_use f i) :
  free_map_release write sec cnt f s = Panic.
Proof.
  destruct Hinv as (Hw & _). unfold free_map_release.
  destruct (bitmap_all_spec (free_map f) sec cnt Hw) as (a & -> & Ha); [lia..|].
  destruct a; [|done]. destruct Hfree. by apply (proj1 Ha eq_refl).
Qed.

(** A one-word bitmap is overrun when sector 32 is marked. *)
Lemma mark_loop_overrun b s n :
  length (bits b) = 1%nat → 0 ≤ s ≤ 32 → 32 < s + Z.of_nat n → mark_loop b s n = UB.
Proof.
  revert b s. induction n as [|n IH]; intros b s Hl Hs Hn; [lia|]. simpl. unfold bitmap_mark.
  destruct (decide (s = 32)) as [->|].
  - assert (array_get (bits b) (elem_idx 32) = UB) as ->; [|done].
    unfold array_get, elem_idx, ELEM_BITS. change (Z.to_nat (32 / 32)) with 1%nat.
    by rewrite lookup_ge_None_2 by lia.
  - assert (elem_idx s = 0) as -> by (unfold elem_idx, ELEM_BITS; apply Z.div_small; lia).
    destruct (array_get_in (bits b) 0) as (e & -> & He); [lia|]. rewrite Ret_bind.
    rewrite array_set_in, Ret_bind by lia. cbn [bits bit_cnt]. apply IH; [by cbn; rewrite length_insert|lia|lia].
Qed.

(** On a device with room for the log, [free_map_init] reserves sectors 0
    to 66 and leaves every other sector free, whatever memory it was given; on a
    device of at most 32 sectors it writes past the words of the bitmap. *)
Theorem free_map_init_spec (words : list Z) (size : Z) (Hw : wf (mk_bitmap size words)) :
  (WAL_METADATA_SECTOR < size →
   ∃ f, free_map_init (Some words) size = Ret f ∧ fm_inv f ∧ free_map_file f = false ∧
     bit_cnt (free_map f) = size ∧
     ∀ s, WAL_METADATA_SECTOR < s < size → ¬ in_use f s) ∧
  (1 < size ≤ 32 → free_map_init (Some words) size = UB).
Proof.
  destruct (bitmap_create_spec words size Hw) as (b & Hcr & Hwb & Hcb & Hb).
  unfold free_map_init. rewrite Hcr, Ret_bind.
  unfold FREE_MAP_SECTOR, ROOT_DIR_SECTOR, WAL_METADATA_SECTOR, WAL_LOG_START_SECTOR,
    WAL_LOG_SECTORS in *.
  split; intros Hsz.
  - destruct (bitmap_mark_spec b 0 Hwb ltac:(lia)) as (b1 & -> & Hw1 & Hc1 & Hb1). rewrite Ret_bind.
    destruct (bitmap_mark_spec b1 1 Hw1 ltac:(lia)) as (b2 & -> & Hw2 & Hc2 & Hb2). rewrite Ret_bind.
    destruct (mark_loop_spec b2 2 (Z.to_nat (2 + 64 - 2 + 1)) Hw2) as (b3 & -> & Hw3 & Hc3 & Hb3);
      [lia|lia|]. rewrite Ret_bind.
    assert (∀ i, 0 ≤ i < size → bm_bit b3 i = (i <=? 66)) as Hall.
    { intros i Hi. rewrite Hb3, Hb2, Hb1, Hb by lia.
      destruct (Z.leb_spec 2 i), (Z.ltb_spec i (2 + Z.of_nat (Z.to_nat (2 + 64 - 2 + 1)))),
        (Z.eqb_spec i 1), (Z.eqb_spec i 0), (Z.leb_spec i 66); simpl; done || lia. }
    exists (mk_fm b3 false). split_and!; try done; simpl.
    + split_and!; [done|simpl; unfold WAL_METADATA_SECTOR, WAL_LOG_START_SECTOR, WAL_LOG_SECTORS; lia|].
      intros i Hi. unfold in_use; simpl. unfold WAL_METADATA_SECTOR, WAL_LOG_START_SECTOR,
        WAL_LOG_SECTORS in *. rewrite Hall by lia. apply Z.leb_le. lia.
    + lia.
    + intros i Hi. unfold in_use; simpl. rewrite Hall by lia. rewrite (proj2 (Z.leb_gt i 66)) by lia.
      done.
  - destruct (bitmap_mark_spec b 0 Hwb ltac:(lia)) as (b1 & -> & Hw1 & Hc1 & _). rewrite Ret_bind.
    destruct (bitmap_mark_spec b1 1 Hw1 ltac:(lia)) as (b2 & -> & Hw2 & Hc2 & _). rewrite Ret_bind.
    assert (length (bits b2) = 1%nat) as Hlen.
    { destruct Hw2 as (? & Hl & _). rewrite elem_cnt_ceil, Hc2, Hc1, Hcb in Hl by lia.
      replace (size + 31) with (1 * 32 + (size - 1)) in Hl by lia.
      rewrite Z.div_add_l, Z.div_small in Hl by lia. lia. }
    rewrite (mark_loop_overrun b2 2); [done|done|lia..].
Qed.

(** ** Witnesses *)

(** A file that accepts every write. *)
Definition sink_write (buf : list Z) (n o : Z) (s : unit) : outcome (Z * unit) := Ret (n, s).

Lemma sink_total buf n o s : ∃ r s', sink_write buf n o s = Ret (r, s').
Proof. unfold sink_write. eauto. Qed.

(** 96 sectors, 0 to 66 and 68 in use. *)
Definition demo : fmst := mk_fm (mk_bitmap 96 [2 ^ 32 - 1; 2 ^ 32 - 1; 23]) true.

Lemma free_demo_inv : fm_inv demo.
Proof.
  split; [repeat split; simpl; try lia; repeat constructor; lia|]. split; [done|].
  assert (∀ n : nat, (n ≤ 66)%nat → bm_bit (free_map demo) (Z.of_nat n) = true) as H.
  { intros n Hn. do 67 (destruct n as [|n]; [reflexivity|]). lia. }
  intros s Hs. unfold in_use. rewrite <- (Z2Nat.id s) by lia. apply H.
  unfold WAL_METADATA_SECTOR, WAL_LOG_START_SECTOR, WAL_LOG_SECTORS in Hs. lia.
Qed.

Lemma free_map_allocate_spec_witness :
  ∃ r f' s', free_map_allocate sink_write 2 demo tt = Ret (r, f', s') ∧ fm_inv f' ∧
    match r with
    | Some sec => allocated demo f' sec 2 ∧
        ∀ k, 0 ≤ k < sec → ¬ run_at (free_map demo) k 2 false
    | None => unchanged demo f' ∧
        (free_map_file demo = true ∨
         ∀ k, 0 ≤ k → k + 2 ≤ bit_cnt (free_map demo) → ¬ run_at (free_map demo) k 2 false)
    end.
Proof. apply (free_map_allocate_spec sink_write 2 demo tt sink_total free_demo_inv). done. Defined.

Lemma free_map_release_allocate_witness :
  ∃ f2 s2, free_map_release sink_write 69 2
             (mk_fm (mk_bitmap 96 [2 ^ 32 - 1; 2 ^ 32 - 1; 119]) true) tt = Ret (f2, s2) ∧
    fm_inv f2 ∧ bm_abs (free_map f2) = bm_abs (free_map demo).
Proof.
  apply (free_map_release_allocate sink_write 2 69 demo _ tt tt sink_total free_demo_inv);
    [done|done|vm_compute; reflexivity].
Defined.

Lemma free_map_double_release_witness : free_map_release sink_write 68 2 demo tt = Panic.
Proof.
  apply (free_map_double_release sink_write 68 2 69 demo tt free_demo_inv); [done|done|done|].
  unfold in_use. vm_compute. discriminate.
Defined.

Lemma free_map_init_spec_witness :
  ∃ f, free_map_init (Some [9; 9; 9]) 96 = Ret f ∧ fm_inv f ∧ free_map_file f = false ∧
    bit_cnt (free_map f) = 96 ∧ ∀ s, WAL_METADATA_SECTOR < s < 96 → ¬ in_use f s.
Proof.
  apply (free_map_init_spec [9; 9; 9] 96); [|done].
  repeat split; simpl; try lia. repeat constructor; lia.
Defined.

End FreeMap.
