(* ===== verification/WalRecord.v ===== *)
(** * Write-ahead log: record format and checksum ([filesys/wal.c], [filesys/wal.h])

    The on-disk log record as the 512 bytes of [struct wal_record] (i386 layout,
    little endian), its CRC32 with the table of the source, and what the checksum
    detects. *)

From stdpp Require Import base tactics numbers list list_numbers option.
From S2P Require Import Prelude.

Open Scope Z_scope.

Module WalRecord.

Definition WAL_MAX_DATA_SIZE : Z := 232.

(** [enum wal_record_type]: a C enumeration read back from disk may hold any
    number, so it is kept as one. *)
Definition WAL_INVALID : Z := 0.
Definition WAL_BEGIN : Z := 1.
Definition WAL_COMMIT : Z := 2.
Definition WAL_ABORT : Z := 3.
Definition WAL_WRITE : Z := 4.
Definition WAL_CHECKPOINT : Z := 5.

Record wal_record := mk_rec {
  lsn : Z;
  txn_id : Z;
  rtype : Z;
  checksum : Z;
  rsector : Z;
  offset : Z;
  rlength : Z;
  old_data : list Z;
  new_data : list Z;
  padding : list Z
}.

#[global] Instance wal_record_inhabited : Inhabited wal_record :=
  populate (mk_rec 0 0 0 0 0 0 0 [] [] []).

(** The bytes of the structure in memory and on disk. *)
Definition encode (r : wal_record) : list Z :=
  le_bytes 8 (lsn r) ++ le_bytes 4 (txn_id r) ++ le_bytes 4 (rtype r) ++
  le_bytes 4 (checksum r) ++ le_bytes 4 (rsector r) ++ le_bytes 2 (offset r) ++
  le_bytes 2 (rlength r) ++ old_data r ++ new_data r ++ padding r.

(** The structure 512 bytes read from disk stand for. *)
Definition decode (b : list Z) : wal_record :=
  mk_rec (le_val (slice b 0 8)) (le_val (slice b 8 4)) (le_val (slice b 12 4))
         (le_val (slice b 16 4)) (le_val (slice b 20 4)) (le_val (slice b 24 2))
         (le_val (slice b 26 2)) (slice b 28 232) (slice b 260 232) (slice b 492 20).

(** [memset (&rec, 0, sizeof rec)] *)
Definition zero_rec : wal_record :=
  mk_rec 0 0 0 0 0 0 0 (replicate 232 0) (replicate 232 0) (replicate 20 0).

Definition with_lsn (r : wal_record) (l : Z) : wal_record :=
  mk_rec l (txn_id r) (rtype r) (checksum r) (rsector r) (offset r) (rlength r)
         (old_data r) (new_data r) (padding r).
Definition with_checksum (r : wal_record) (c : Z) : wal_record :=
  mk_rec (lsn r) (txn_id r) (rtype r) c (rsector r) (offset r) (rlength r)
         (old_data r) (new_data r) (padding r).

(** A control record: everything but type and transaction is zero. *)
Definition control_rec (ty id : Z) : wal_record :=
  mk_rec 0 id ty 0 0 0 0 (replicate 232 0) (replicate 232 0) (replicate 20 0).

(** Computes the fields of a record without unfolding its byte arrays. *)
Ltac rec_simpl :=
  cbn [with_lsn with_checksum control_rec zero_rec lsn txn_id rtype checksum rsector offset
       rlength old_data new_data padding] in *.

(** ** CRC32 *)

Definition crc32_table : list Z := [
  0x00000000; 0x77073096; 0xee0e612c; 0x990951ba; 0x076dc419; 0x706af48f; 0xe963a535; 0x9e6495a3;
  0x0edb8832; 0x79dcb8a4; 0xe0d5e91e; 0x97d2d988; 0x09b64c2b; 0x7eb17cbd; 0xe7b82d07; 0x90bf1d91;
  0x1db71064; 0x6ab020f2; 0xf3b97148; 0x84be41de; 0x1adad47d; 0x6ddde4eb; 0xf4d4b551; 0x83d385c7;
  0x136c9856; 0x646ba8c0; 0xfd62f97a; 0x8a65c9ec; 0x14015c4f; 0x63066cd9; 0xfa0f3d63; 0x8d080df5;
  0x3b6e20c8; 0x4c69105e; 0xd56041e4; 0xa2677172; 0x3c03e4d1; 0x4b04d447; 0xd20d85fd; 0xa50ab56b;
  0x35b5a8fa; 0x42b2986c; 0xdbbbc9d6; 0xacbcf940; 0x32d86ce3; 0x45df5c75; 0xdcd60dcf; 0xabd13d59;
  0x26d930ac; 0x51de003a; 0xc8d75180; 0xbfd06116; 0x21b4f4b5; 0x56b3c423; 0xcfba9599; 0xb8bda50f;
  0x2802b89e; 0x5f058808; 0xc60cd9b2; 0xb10be924; 0x2f6f7c87; 0x58684c11; 0xc1611dab; 0xb6662d3d;
  0x76dc4190; 0x01db7106; 0x98d220bc; 0xefd5102a; 0x71b18589; 0x06b6b51f; 0x9fbfe4a5; 0xe8b8d433;
  0x7807c9a2; 0x0f00f934; 0x9609a88e; 0xe10e9818; 0x7f6a0dbb; 0x086d3d2d; 0x91646c97; 0xe6635c01;
  0x6b6b51f4; 0x1c6c6162; 0x856530d8; 0xf262004e; 0x6c0695ed; 0x1b01a57b; 0x8208f4c1; 0xf50fc457;
  0x65b0d9c6; 0x12b7e950; 0x8bbeb8ea; 0xfcb9887c; 0x62dd1ddf; 0x15da2d49; 0x8cd37cf3; 0xfbd44c65;
  0x4db26158; 0x3ab551ce; 0xa3bc0074; 0xd4bb30e2; 0x4adfa541; 0x3dd895d7; 0xa4d1c46d; 0xd3d6f4fb;
  0x4369e96a; 0x346ed9fc; 0xad678846; 0xda60b8d0; 0x44042d73; 0x33031de5; 0xaa0a4c5f; 0xdd0d7cc9;
  0x5005713c; 0x270241aa; 0xbe0b1010; 0xc90c2086; 0x5768b525; 0x206f85b3; 0xb966d409; 0xce61e49f;
  0x5edef90e; 0x29d9c998; 0xb0d09822; 0xc7d7a8b4; 0x59b33d17; 0x2eb40d81; 0xb7bd5c3b; 0xc0ba6cad;
  0xedb88320; 0x9abfb3b6; 0x03b6e20c; 0x74b1d29a; 0xead54739; 0x9dd277af; 0x04db2615; 0x73dc1683;
  0xe3630b12; 0x94643b84; 0x0d6d6a3e; 0x7a6a5aa8; 0xe40ecf0b; 0x9309ff9d; 0x0a00ae27; 0x7d079eb1;
  0xf00f9344; 0x8708a3d2; 0x1e01f268; 0x6906c2fe; 0xf762575d; 0x806567cb; 0x196c3671; 0x6e6b06e7;
  0xfed41b76; 0x89d32be0; 0x10da7a5a; 0x67dd4acc; 0xf9b9df6f; 0x8ebeeff9; 0x17b7be43; 0x60b08ed5;
  0xd6d6a3e8; 0xa1d1937e; 0x38d8c2c4; 0x4fdff252; 0xd1bb67f1; 0xa6bc5767; 0x3fb506dd; 0x48b2364b;
  0xd80d2bda; 0xaf0a1b4c; 0x36034af6; 0x41047a60; 0xdf60efc3; 0xa867df55; 0x316e8eef; 0x4669be79;
  0xcb61b38c; 0xbc66831a; 0x256fd2a0; 0x5268e236; 0xcc0c7795; 0xbb0b4703; 0x220216b9; 0x5505262f;
  0xc5ba3bbe; 0xb2bd0b28; 0x2bb45a92; 0x5cb36a04; 0xc2d7ffa7; 0xb5d0cf31; 0x2cd99e8b; 0x5bdeae1d;
  0x9b64c2b0; 0xec63f226; 0x756aa39c; 0x026d930a; 0x9c0906a9; 0xeb0e363f; 0x72076785; 0x05005713;
  0x95bf4a82; 0xe2b87a14; 0x7bb12bae; 0x0cb61b38; 0x92d28e9b; 0xe5d5be0d; 0x7cdcefb7; 0x0bdbdf21;
  0x86d3d2d4; 0xf1d4e242; 0x68ddb3f8; 0x1fda836e; 0x81be16cd; 0xf6b9265b; 0x6fb077e1; 0x18b74777;
  0x88085ae6; 0xff0f6a70; 0x66063bca; 0x11010b5c; 0x8f659eff; 0xf862ae69; 0x616bffd3; 0x166ccf45;
  0xa00ae278; 0xd70dd2ee; 0x4e048354; 0x3903b3c2; 0xa7672661; 0xd06016f7; 0x4969474d; 0x3e6e77db;
  0xaed16a4a; 0xd9d65adc; 0x40df0b66; 0x37d83bf0; 0xa9bcae53; 0xdebb9ec5; 0x47b2cf7f; 0x30b5ffe9;
  0xbdbdf21c; 0xcabac28a; 0x53b39330; 0x24b4a3a6; 0xbad03605; 0xcdd70693; 0x54de5729; 0x23d967bf;
  0xb3667a2e; 0xc4614ab8; 0x5d681b02; 0x2a6f2b94; 0xb40bbe37; 0xc30c8ea1; 0x5a05df1b; 0x2d02ef8d].

(** One step of the loop of [wal_calculate_checksum]. *)
Definition crc_step (crc b : Z) : Z :=
  Z.lxor (Z.shiftr crc 8) (crc32_table !!! Z.to_nat (Z.land (Z.lxor crc b) 0xFF)).

Definition crc_bytes (crc : Z) (l : list Z) : Z := fold_left crc_step l crc.

(** [offsetof (struct wal_record, checksum)] and its size. *)
Definition checksum_offset : nat := 16.
Definition checksum_size : nat := 4.

Definition crc_record_bytes (b : list Z) : Z :=
  let crc := crc_bytes 0xFFFFFFFF (take checksum_offset b) in
  let crc := crc_bytes crc (drop (checksum_offset + checksum_size) b) in
  u32 (Z.lnot crc).

Definition wal_calculate_checksum (r : wal_record) : Z := crc_record_bytes (encode r).

(** The test the log readers make: the stored checksum against one computed
    with the field cleared. *)
Definition checksum_ok (r : wal_record) : bool :=
  checksum r =? wal_calculate_checksum (with_checksum r 0).

(** ** Reference CRC: division by the reflected polynomial, bit by bit *)

Definition POLY : Z := 0xEDB88320.

Definition bit_step (x : Z) : Z :=
  Z.lxor (Z.shiftr x 1) (if Z.odd x then POLY else 0).

(** Eight bits. *)
Definition byte_step (x : Z) : Z := Nat.iter 8 bit_step x.

(** The reference CRC of a byte string, without the final complement. *)
Fixpoint crc_ref (crc : Z) (l : list Z) : Z :=
  match l with [] => crc | b :: l => crc_ref (byte_step (Z.lxor crc b)) l end.

Definition word (x : Z) : Prop := 0 ≤ x < 2 ^ 32.

Lemma word_bits x : word x ↔ 0 ≤ x ∧ ∀ k, 32 ≤ k → Z.testbit x k = false.
Proof.
  unfold word. split.
  - intros Hx. split; [lia|]. intros k Hk. destruct (decide (x = 0)) as [->|]; [apply Z.testbit_0_l|].
    apply Z.bits_above_log2; [lia|]. assert (Z.log2 x < 32) by (apply Z.log2_lt_pow2; lia). lia.
  - intros [Hx Hk]. split; [done|]. destruct (decide (x = 0)); [lia|].
    apply Z.log2_lt_pow2; [lia|]. destruct (decide (Z.log2 x < 32)); [done|].
    pose proof (Z.bit_log2 x ltac:(lia)) as Hb. by rewrite Hk in Hb by lia.
Qed.

Lemma word_lxor x y : word x → word y → word (Z.lxor x y).
Proof.
  rewrite !word_bits. intros [Hx Hxb] [Hy Hyb]. split; [by apply Z.lxor_nonneg|].
  intros k Hk. by rewrite Z.lxor_spec, Hxb, Hyb.
Qed.

Lemma word_shiftr x n : 0 ≤ n → word x → word (Z.shiftr x n).
Proof.
  rewrite !word_bits. intros Hn [Hx Hxb]. split; [by apply Z.shiftr_nonneg|].
  intros k Hk. rewrite Z.shiftr_spec by lia. apply Hxb. lia.
Qed.

Lemma word_byte b : is_byte b → word b.
Proof. unfold is_byte, word. lia. Qed.

Lemma word_bit_step x : word x → word (bit_step x).
Proof.
  intros Hx. apply word_lxor; [by apply word_shiftr|]. destruct (Z.odd x); unfold word, POLY; lia.
Qed.

Lemma bit_step_lxor x y : bit_step (Z.lxor x y) = Z.lxor (bit_step x) (bit_step y).
Proof.
  unfold bit_step. rewrite Z.shiftr_lxor, <- !Z.bit0_odd, Z.lxor_spec.
  apply Z.bits_inj'. intros k Hk. rewrite !Z.lxor_spec.
  destruct (Z.testbit x 0), (Z.testbit y 0); simpl; rewrite ?Z.testbit_0_l;
    destruct (Z.testbit (Z.shiftr x 1) k), (Z.testbit (Z.shiftr y 1) k), (Z.testbit POLY k); done.
Qed.

Lemma bit_step_inj x y : word x → word y → bit_step x = bit_step y → x = y.
Proof.
  intros Hx Hy Heq. apply Z.lxor_eq. set (z := Z.lxor x y).
  assert (word z) as Hz by (by apply word_lxor).
  assert (bit_step z = 0) as H0 by (unfold z; by rewrite bit_step_lxor, Heq, Z.lxor_nilpotent).
  clearbody z. unfold bit_step, word in *. apply Z.lxor_eq in H0.
  rewrite Z.shiftr_div_pow2 in H0 by lia. change (2 ^ 1) with 2 in H0.
  pose proof (Z.div_mod z 2 ltac:(lia)) as Hd. rewrite Zmod_odd in Hd.
  unfold POLY in *. destruct (Z.odd z); lia.
Qed.

Lemma iter_bit_step_lxor n x y :
  Nat.iter n bit_step (Z.lxor x y) = Z.lxor (Nat.iter n bit_step x) (Nat.iter n bit_step y).
Proof. induction n as [|n IH]; simpl; [done|]. by rewrite IH, bit_step_lxor. Qed.

Lemma word_iter n x : word x → word (Nat.iter n bit_step x).
Proof. intros Hx. induction n; simpl; [done|by apply word_bit_step]. Qed.

Lemma byte_step_inj x y : word x → word y → byte_step x = byte_step y → x = y.
Proof.
  unfold byte_step. generalize 8%nat. intros n Hx Hy.
  induction n as [|n IH]; simpl; [done|]. intros H%bit_step_inj; [auto|by apply word_iter..].
Qed.

(** A multiple of [2 ^ n] is shifted out unchanged by [n] steps. *)
Lemma iter_bit_step_shift n k : Nat.iter n bit_step (Z.shiftl k (Z.of_nat n)) = k.
Proof.
  revert k. induction n as [|n IH]; intros k; [apply Z.shiftl_0_r|].
  rewrite Nat.iter_succ_r.
  assert (bit_step (Z.shiftl k (Z.of_nat (S n))) = Z.shiftl k (Z.of_nat n)) as ->; [|apply IH].
  unfold bit_step. rewrite <- Z.bit0_odd, Z.shiftl_spec_low, Z.lxor_0_r by lia.
  rewrite Z.shiftr_shiftl_l by lia. f_equal. lia.
Qed.

Lemma word_byte_step x : word x → word (byte_step x).
Proof. apply word_iter. Qed.

Lemma byte_step_lxor x y : byte_step (Z.lxor x y) = Z.lxor (byte_step x) (byte_step y).
Proof. apply iter_bit_step_lxor. Qed.

Lemma byte_step_shift k : byte_step (Z.shiftl k 8) = k.
Proof. apply (iter_bit_step_shift 8). Qed.

Lemma split_low_byte x :
  x = Z.lxor (Z.land x 0xFF) (Z.shiftl (Z.shiftr x 8) 8).
Proof.
  apply Z.bits_inj'. intros k Hk. change 0xFF with (Z.ones 8).
  rewrite Z.lxor_spec, Z.land_spec. destruct (decide (k < 8)).
  - rewrite Z.ones_spec_low, Z.shiftl_spec_low, andb_true_r, xorb_false_r by lia. done.
  - rewrite Z.ones_spec_high, Z.shiftl_spec, Z.shiftr_spec, andb_false_r by lia.
    rewrite Z.sub_add. by destruct (Z.testbit x k).
Qed.

(** Every entry of the table is the reference CRC of its index. *)
Lemma crc32_table_entries i :
  0 ≤ i < 256 → crc32_table !!! Z.to_nat i = byte_step i.
Proof.
  intros Hi.
  assert (forallb (λ n, crc32_table !!! n =? byte_step (Z.of_nat n)) (seq 0 256) = true) as H
    by (vm_compute; reflexivity).
  rewrite forallb_forall in H. rewrite <- (Z2Nat.id i) at 2 by lia.
  apply Z.eqb_eq, H, in_seq. lia.
Qed.

Lemma low_byte_bound x : 0 ≤ Z.land x 0xFF < 256.
Proof. change 0xFF with (Z.ones 8). rewrite Z.land_ones by lia. apply Z.mod_pos_bound. lia. Qed.

#[local] Opaque byte_step.

Lemma crc_step_ref crc b : is_byte b → crc_step crc b = byte_step (Z.lxor crc b).
Proof.
  intros Hb. unfold crc_step. rewrite crc32_table_entries by apply low_byte_bound.
  rewrite (split_low_byte (Z.lxor crc b)) at 2. rewrite byte_step_lxor, byte_step_shift.
  rewrite Z.lxor_comm. f_equal.
  rewrite Z.shiftr_lxor. unfold is_byte in Hb.
  rewrite (Z.shiftr_div_pow2 b 8), (Z.div_small b) by lia. by rewrite Z.lxor_0_r.
Qed.

Lemma crc_bytes_ref crc l : Forall is_byte l → crc_bytes crc l = crc_ref crc l.
Proof.
  intros Hl. revert crc. unfold crc_bytes.
  induction Hl as [|b l Hb Hl IH]; intros crc; cbn [fold_left crc_ref]; [done|].
  rewrite IH, crc_step_ref by done. done.
Qed.

Lemma word_crc_ref crc l : word crc → Forall is_byte l → word (crc_ref crc l).
Proof.
  intros Hc Hl. revert crc Hc. induction Hl as [|b l Hb Hl IH]; intros crc Hc; [done|].
  cbn [crc_ref]. apply IH, word_byte_step, word_lxor; [done|by apply word_byte].
Qed.

Lemma lxor_cancel_r x y z : Z.lxor x z = Z.lxor y z → x = y.
Proof.
  intros H. rewrite <- (Z.lxor_0_r x), <- (Z.lxor_0_r y), <- (Z.lxor_nilpotent z),
    <- !Z.lxor_assoc. by rewrite H.
Qed.

Lemma lxor_cancel_l x y z : Z.lxor z x = Z.lxor z y → x = y.
Proof. rewrite !(Z.lxor_comm z). apply lxor_cancel_r. Qed.

(** The CRC state after a byte string determines the state before it. *)
Lemma crc_ref_inj c1 c2 l :
  word c1 → word c2 → Forall is_byte l → crc_ref c1 l = crc_ref c2 l → c1 = c2.
Proof.
  intros H1 H2 Hl. revert c1 c2 H1 H2.
  induction Hl as [|b l Hb Hl IH]; intros c1 c2 H1 H2; cbn [crc_ref]; [done|]. intros H%IH.
  - apply byte_step_inj in H; [by apply lxor_cancel_r in H|..];
      (apply word_lxor; [done|by apply word_byte]).
  - apply word_byte_step, word_lxor; [done|by apply word_byte].
  - apply word_byte_step, word_lxor; [done|by apply word_byte].
Qed.

Lemma crc_ref_app c l1 l2 : crc_ref c (l1 ++ l2) = crc_ref (crc_ref c l1) l2.
Proof. revert c. induction l1 as [|b l1 IH]; intros c; [done|]. apply IH. Qed.

(** Changing one byte changes the CRC. *)
Lemma crc_ref_insert c l i y :
  word c → Forall is_byte l → is_byte y → (i < length l)%nat → l !! i ≠ Some y →
  crc_ref c (<[i := y]> l) ≠ crc_ref c l.
Proof.
  intros Hc Hl Hy Hi Hne Heq. destruct (lookup_lt_is_Some_2 l i Hi) as [x Hx].
  rewrite <- (take_drop_middle l i x Hx) in Heq at 2. rewrite insert_take_drop in Heq by done.
  rewrite !crc_ref_app in Heq. cbn [crc_ref] in Heq.
  assert (is_byte x) by (by apply (Forall_lookup_1 _ _ _ _ Hl Hx)).
  assert (word (crc_ref c (take i l))) by (apply word_crc_ref; [done|by apply Forall_take]).
  apply (crc_ref_inj _ _ (drop (S i) l)) in Heq; [| | |by apply Forall_drop].
  - apply byte_step_inj, lxor_cancel_l in Heq; [congruence|..];
      (apply word_lxor; [done|by apply word_byte]).
  - apply word_byte_step, word_lxor; [done|by apply word_byte].
  - apply word_byte_step, word_lxor; [done|by apply word_byte].
Qed.

(** ** Format *)

(** Field ranges of a C record. *)
Record rec_ok (r : wal_record) : Prop := {
  ok_lsn : 0 ≤ lsn r < 2 ^ 64;
  ok_txn : 0 ≤ txn_id r < 2 ^ 32;
  ok_type : 0 ≤ rtype r < 2 ^ 32;
  ok_sum : 0 ≤ checksum r < 2 ^ 32;
  ok_sector : 0 ≤ rsector r < 2 ^ 32;
  ok_offset : 0 ≤ offset r < 2 ^ 16;
  ok_length : 0 ≤ rlength r < 2 ^ 16;
  ok_old : length (old_data r) = 232%nat ∧ Forall is_byte (old_data r);
  ok_new : length (new_data r) = 232%nat ∧ Forall is_byte (new_data r);
  ok_pad : length (padding r) = 20%nat ∧ Forall is_byte (padding r)
}.

Lemma encode_length r : rec_ok r → length (encode r) = 512%nat.
Proof.
  intros []. unfold encode. rewrite !length_app, !length_le_bytes. lia.
Qed.

Lemma encode_bytes r : rec_ok r → Forall is_byte (encode r).
Proof.
  intros []. unfold encode.
  repeat (apply Forall_app; split); first [apply le_bytes_ok|by destruct_and?].
Qed.

(** Reading past a prefix. *)
Lemma slice_app_skip {A} (l1 l2 : list A) ofs n m :
  length l1 = m → (m ≤ ofs)%nat → slice (l1 ++ l2) ofs n = slice l2 (ofs - m) n.
Proof. intros <- H. unfold slice. by rewrite drop_app_ge. Qed.

Lemma slice_app_hit {A} (l1 l2 : list A) n : length l1 = n → slice (l1 ++ l2) 0 n = l1.
Proof. intros <-. unfold slice. rewrite drop_0. apply take_app_length. Qed.

Lemma decode_encode r : rec_ok r → decode (encode r) = r.
Proof.
  intros []. destruct r as [l t ty cs se o ln od nd pd]; simpl in *.
  destruct ok_old0 as [Hol _], ok_new0 as [Hnl _], ok_pad0 as [Hpl _].
  unfold decode, encode.
  cbn [lsn txn_id rtype checksum rsector offset rlength old_data new_data padding]. f_equal;
    (repeat (erewrite slice_app_skip; [|first [apply length_le_bytes|eassumption]|lia];
             cbn [Nat.sub]));
    first [ rewrite slice_app_hit by (first [apply length_le_bytes|eassumption])
          | rewrite slice_full by eassumption ];
    first [ done | apply le_roundtrip; simpl; lia ].
Qed.

(** A byte string cut in two. *)
Lemma slice_split {A} (b : list A) i n m :
  slice b i (n + m) = slice b i n ++ slice b (i + n) m.
Proof.
  unfold slice. rewrite <- drop_drop, <- (take_drop n (take (n + m) (drop i b))).
  rewrite take_take, Nat.min_l by lia. by rewrite skipn_firstn_comm, Nat.add_sub_swap, Nat.sub_diag by lia.
Qed.

Lemma le_bytes_slice b i n :
  Forall is_byte b → (i + n ≤ length b)%nat → le_bytes n (le_val (slice b i n)) = slice b i n.
Proof.
  intros Hb Hl. rewrite <- (length_slice b i n Hl) at 1. apply le_bytes_le_val. by apply Forall_slice.
Qed.

Lemma encode_decode b : length b = 512%nat → Forall is_byte b → encode (decode b) = b.
Proof.
  intros Hl Hb. unfold encode, decode.
  cbn [lsn txn_id rtype checksum rsector offset rlength old_data new_data padding].
  rewrite !le_bytes_slice by (done || lia).
  repeat match goal with
  | |- context [ slice b ?i ?n ++ slice b ?j ?m ] =>
      change (slice b j m) with (slice b (i + n) m); rewrite <- (slice_split b i n m)
  end. by apply slice_full.
Qed.

(** ** Corruption *)

(** The checksum does not cover its own field. *)
Lemma encode_with_checksum r c :
  take 16 (encode (with_checksum r c)) = take 16 (encode r) ∧
  drop 20 (encode (with_checksum r c)) = drop 20 (encode r).
Proof.
  unfold encode. cbn [with_checksum lsn txn_id rtype checksum rsector offset rlength old_data
    new_data padding].
  rewrite !(app_assoc (le_bytes 8 _)), !(app_assoc (_ ++ le_bytes 4 (txn_id r))).
  split.
  - by rewrite !take_app_length' by (rewrite !length_app, !length_le_bytes; done).
  - rewrite !(app_assoc (_ ++ le_bytes 4 (rtype r)) (le_bytes 4 _)).
    by rewrite !drop_app_length' by (rewrite !length_app, !length_le_bytes; done).
Qed.

Lemma checksum_cleared r c : wal_calculate_checksum (with_checksum r c) = wal_calculate_checksum r.
Proof.
  unfold wal_calculate_checksum, crc_record_bytes, checksum_offset, checksum_size.
  destruct (encode_with_checksum r c) as [-> H]. simpl Nat.add. by rewrite H.
Qed.

Lemma not_word_inj x y : word x → word y → u32 (Z.lnot x) = u32 (Z.lnot y) → x = y.
Proof.
  unfold word, wrap, Z.lnot. intros Hx Hy.
  rewrite <- (Z_mod_plus (Z.pred (- x)) 1), <- (Z_mod_plus (Z.pred (- y)) 1) by lia.
  rewrite !Z.mod_small by lia. lia.
Qed.

Lemma word_ff : word 0xFFFFFFFF.
Proof. unfold word. lia. Qed.

(** A changed byte outside the checksum field changes the computed checksum. *)
Lemma crc_record_bytes_insert b i y :
  length b = 512%nat → Forall is_byte b → is_byte y → (i < 512)%nat →
  ¬ (16 ≤ i < 20)%nat → b !! i ≠ Some y →
  crc_record_bytes (<[i := y]> b) ≠ crc_record_bytes b.
Proof.
  intros Hl Hb Hy Hi Hout Hne. unfold crc_record_bytes, checksum_offset, checksum_size.
  simpl Nat.add. pose proof word_ff as Hff.
  assert (Forall is_byte (<[i := y]> b)) as Hb' by (by apply Forall_insert).
  assert (∀ l n, Forall is_byte l → Forall is_byte (take n l)) as Ht by (intros; by apply Forall_take).
  assert (∀ l n, Forall is_byte l → Forall is_byte (drop n l)) as Hd by (intros; by apply Forall_drop).
  rewrite !crc_bytes_ref by auto. intros Heq%not_word_inj; [|by auto using word_crc_ref..].
  destruct (decide (i < 16)%nat).
  - rewrite take_insert_lt, drop_insert_lt in Heq by lia.
    apply crc_ref_inj in Heq; [|by auto using word_crc_ref, Forall_insert..|by auto].
    revert Heq. apply crc_ref_insert; try done; [by auto|rewrite length_take; lia|].
    by rewrite lookup_take_lt.
  - rewrite take_insert_ge, drop_insert_ge in Heq by lia. revert Heq.
    apply crc_ref_insert; [by auto using word_crc_ref|by auto|done|rewrite length_drop; lia|].
    rewrite lookup_drop. by replace (20 + (i - 20))%nat with i by lia.
Qed.

(** The stored checksum of a byte string, and the computed one. *)
Lemma checksum_ok_bytes b :
  length b = 512%nat → Forall is_byte b →
  checksum_ok (decode b) = (le_val (slice b 16 4) =? crc_record_bytes b).
Proof.
  intros Hl Hb. unfold checksum_ok. rewrite checksum_cleared. unfold wal_calculate_checksum.
  by rewrite encode_decode.
Qed.

Lemma single_byte_detected b i y :
  length b = 512%nat → Forall is_byte b → is_byte y → (i < 512)%nat → b !! i ≠ Some y →
  checksum_ok (decode b) = true → checksum_ok (decode (<[i := y]> b)) = false.
Proof.
  intros Hl Hb Hy Hi Hne. assert (Forall is_byte (<[i := y]> b)) as Hb' by (by apply Forall_insert).
  rewrite !checksum_ok_bytes by (done || by rewrite length_insert).
  intros Hok%Z.eqb_eq. apply Z.eqb_neq.
  destruct (decide (16 ≤ i < 20)%nat) as [Hin|Hout].
  - assert (crc_record_bytes (<[i := y]> b) = crc_record_bytes b) as ->.
    { unfold crc_record_bytes, checksum_offset, checksum_size. simpl Nat.add.
      by rewrite take_insert_ge, drop_insert_lt by lia. }
    rewrite <- Hok. intros Heq. apply Hne.
    assert (slice (<[i := y]> b) 16 4 = slice b 16 4) as Hs.
    { rewrite <- (le_bytes_slice (<[i := y]> b)), <- (le_bytes_slice b), Heq
        by (rewrite ?length_insert; done || lia). done. }
    apply (f_equal (.!! (i - 16)%nat)) in Hs. rewrite !lookup_slice in Hs by lia.
    replace (16 + (i - 16))%nat with i in Hs by lia.
    rewrite list_lookup_insert_eq in Hs by lia. done.
  - assert (slice (<[i := y]> b) 16 4 = slice b 16 4) as ->.
    { apply list_eq. intros k. destruct (decide (k < 4)%nat).
      - rewrite !lookup_slice by lia. rewrite list_lookup_insert_ne by lia. done.
      - unfold slice. by rewrite !lookup_take_ge by lia. }
    rewrite Hok. intros Heq. symmetry in Heq. revert Heq. by apply crc_record_bytes_insert.
Qed.

(** ** Properties *)

(** The on-disk format is exactly one sector and loses nothing: decoding
    an encoded record gives the record back, and encoding what any 512 bytes
    decode to gives those bytes back. *)
Theorem wal_record_roundtrip (r : wal_record) (b : list Z)
    (Hr : rec_ok r) (Hl : length b = 512%nat) (Hb : Forall is_byte b) :
  length (encode r) = 512%nat ∧ decode (encode r) = r ∧ encode (decode b) = b.
Proof. split_and!; [by apply encode_length|by apply decode_encode|by apply encode_decode]. Qed.

(** C40. The table-driven checksum is the CRC32 of the reflected polynomial
    0xEDB88320, computed bit by bit over the record without its checksum field:
    the 256 table entries of the source are the right ones. *)
Theorem wal_checksum_is_crc32 (r : wal_record) (Hr : rec_ok r) :
  wal_calculate_checksum r =
    u32 (Z.lnot (crc_ref 0xFFFFFFFF (take 16 (encode r) ++ drop 20 (encode r)))).
Proof.
  pose proof (encode_bytes r Hr) as Hb.
  unfold wal_calculate_checksum, crc_record_bytes, checksum_offset, checksum_size. simpl Nat.add.
  by rewrite crc_ref_app, !crc_bytes_ref by (by apply Forall_take || by apply Forall_drop).
Qed.

(** Overwriting any one byte of a valid log sector with a different value
    makes the record fail the checksum test of the log readers. *)
Theorem wal_single_byte_corruption (r : wal_record) (i : nat) (y : Z)
    (Hr : rec_ok r) (Hok : checksum_ok r = true) (Hi : (i < 512)%nat) (Hy : is_byte y)
    (Hne : encode r !! i ≠ Some y) :
  checksum_ok (decode (<[i := y]> (encode r))) = false.
Proof.
  apply single_byte_detected; [by apply encode_length|by apply encode_bytes|done..|].
  by rewrite decode_encode.
Qed.

(** ** Sealed records *)

(** Clears the checksum field, computes the checksum and stores it. *)
Definition seal (r : wal_record) : wal_record :=
  let r0 := with_checksum r 0 in with_checksum r0 (wal_calculate_checksum r0).

Lemma seal_ok r : rec_ok r → rec_ok (seal r) ∧ checksum_ok (seal r) = true.
Proof.
  intros []. split.
  - constructor; simpl; try done. apply (wrap_bound 32). lia.
  - unfold checksum_ok, seal. apply Z.eqb_eq. simpl checksum.
    by rewrite !checksum_cleared.
Qed.

Lemma control_rec_ok ty id l :
  0 ≤ ty < 2 ^ 32 → 0 ≤ id < 2 ^ 32 → 0 ≤ l < 2 ^ 64 → rec_ok (with_lsn (control_rec ty id) l).
Proof.
  intros. constructor; rec_simpl; try done; try lia;
    (split; [apply length_replicate|]); apply Forall_replicate; unfold is_byte; lia.
Qed.

(** ** Witnesses *)

Definition demo_rec : wal_record := seal (with_lsn (control_rec WAL_COMMIT 3) 5).

Lemma demo_rec_ok : rec_ok demo_rec ∧ checksum_ok demo_rec = true.
Proof. apply seal_ok, control_rec_ok; unfold WAL_COMMIT; lia. Qed.

Lemma wal_record_roundtrip_witness :
  length (encode demo_rec) = 512%nat ∧ decode (encode demo_rec) = demo_rec ∧
  encode (decode (replicate 512 9)) = replicate 512 9.
Proof.
  apply (wal_record_roundtrip demo_rec (replicate 512 9)).
  - exact (proj1 demo_rec_ok).
  - reflexivity.
  - apply Forall_replicate. unfold is_byte. lia.
Defined.

Lemma wal_checksum_is_crc32_witness :
  wal_calculate_checksum demo_rec =
    u32 (Z.lnot (crc_ref 0xFFFFFFFF (take 16 (encode demo_rec) ++ drop 20 (encode demo_rec)))).
Proof. apply (wal_checksum_is_crc32 demo_rec). exact (proj1 demo_rec_ok). Defined.

Lemma wal_single_byte_corruption_witness :
  checksum_ok (decode (<[300%nat := 1]> (encode demo_rec))) = false.
Proof.
  apply (wal_single_byte_corruption demo_rec 300 1).
  - exact (proj1 demo_rec_ok).
  - exact (proj2 demo_rec_ok).
  - lia.
  - unfold is_byte. lia.
  - vm_compute. discriminate.
Defined.

End WalRecord.
