(* ===== verification/Wal.v ===== *)
(** * Write-ahead log: manager ([filesys/wal.c])

    The log manager above the buffer cache and the device they share.  A
    transaction handle is an address in the heap [txns]; the list of active
    transactions holds addresses, so that a handle and the list share one object.
    A call of [malloc] is a boolean argument: whether it succeeds.  The functions
    run to completion in one thread; [wal_lock] protects the state between the
    steps of different threads and has no effect on one. *)

From stdpp Require Import base tactics numbers list list_numbers option gmap.
From S2P Require Import Prelude Block Cache WalRecord.

Open Scope Z_scope.

Module Wal.
Import Block WalRecord.

Definition WAL_LOG_SECTORS : Z := 64.
Definition WAL_LOG_START_SECTOR : Z := 2.
Definition WAL_METADATA_SECTOR : Z := WAL_LOG_START_SECTOR + WAL_LOG_SECTORS.
Definition REC_SIZE : Z := 512.
Definition WAL_BUFFER_SIZE : Z := 8 * BLOCK_SECTOR_SIZE.
Definition WAL_METADATA_MAGIC : Z := 0xDEADBEEF.
Definition MAX_UNDO_RECORDS : Z := 64.
Definition MAX_TXNS : Z := 256.
Definition MAX_UNDO : Z := 512.

Inductive txn_state := TXN_ACTIVE | TXN_COMMITTED | TXN_ABORTED.

#[global] Instance txn_state_eq_dec : EqDecision txn_state.
Proof. solve_decision. Defined.

Record wal_txn := mk_txn {
  t_id : Z;
  t_state : txn_state;
  first_lsn : Z;
  last_lsn : Z
}.

Record wal_stats := mk_wstats {
  txn_begun : Z; txn_committed : Z; txn_aborted : Z; writes_logged : Z
}.

(** [log_buffer] is the array of record slots behind the pointer, [None] for
    NULL; [buffer_size] and [buffer_used] count bytes as in the source. *)
Record wal_manager := mk_wal {
  next_lsn : Z;
  flushed_lsn : Z;
  next_txn_id : Z;
  log_buffer : option (list wal_record);
  buffer_size : Z;
  buffer_used : Z;
  active_txns : list nat;
  checkpoint_lsn : Z;
  checkpointing : bool;
  wstats : wal_stats
}.

Record wst := mk_w {
  wal : wal_manager;
  checkpoint_pending : bool;
  fs : Cache.cst;
  txns : gmap nat wal_txn;
  next_addr : nat;
  current_txn : option nat
}.

(** Field updates. *)
Definition set_wal (w : wst) (m : wal_manager) : wst :=
  mk_w m (checkpoint_pending w) (fs w) (txns w) (next_addr w) (current_txn w).
Definition set_pending (w : wst) (b : bool) : wst :=
  mk_w (wal w) b (fs w) (txns w) (next_addr w) (current_txn w).
Definition set_fs (w : wst) (c : Cache.cst) : wst :=
  mk_w (wal w) (checkpoint_pending w) c (txns w) (next_addr w) (current_txn w).
Definition set_txns (w : wst) (t : gmap nat wal_txn) : wst :=
  mk_w (wal w) (checkpoint_pending w) (fs w) t (next_addr w) (current_txn w).
Definition set_dev (w : wst) (d : block) : wst := set_fs w (Cache.with_device (fs w) d).

Definition dev (w : wst) : block := Cache.fs_device (fs w).

Definition set_lsns (m : wal_manager) (n f : Z) : wal_manager :=
  mk_wal n f (next_txn_id m) (log_buffer m) (buffer_size m) (buffer_used m)
         (active_txns m) (checkpoint_lsn m) (checkpointing m) (wstats m).
Definition set_next_txn (m : wal_manager) (i : Z) : wal_manager :=
  mk_wal (next_lsn m) (flushed_lsn m) i (log_buffer m) (buffer_size m) (buffer_used m)
         (active_txns m) (checkpoint_lsn m) (checkpointing m) (wstats m).
Definition set_buffer (m : wal_manager) (b : option (list wal_record)) (sz used : Z)
    : wal_manager :=
  mk_wal (next_lsn m) (flushed_lsn m) (next_txn_id m) b sz used
         (active_txns m) (checkpoint_lsn m) (checkpointing m) (wstats m).
Definition set_active (m : wal_manager) (l : list nat) : wal_manager :=
  mk_wal (next_lsn m) (flushed_lsn m) (next_txn_id m) (log_buffer m) (buffer_size m)
         (buffer_used m) l (checkpoint_lsn m) (checkpointing m) (wstats m).
Definition set_ckpt_lsn (m : wal_manager) (c : Z) : wal_manager :=
  mk_wal (next_lsn m) (flushed_lsn m) (next_txn_id m) (log_buffer m) (buffer_size m)
         (buffer_used m) (active_txns m) c (checkpointing m) (wstats m).
Definition set_checkpointing (m : wal_manager) (b : bool) : wal_manager :=
  mk_wal (next_lsn m) (flushed_lsn m) (next_txn_id m) (log_buffer m) (buffer_size m)
         (buffer_used m) (active_txns m) (checkpoint_lsn m) b (wstats m).
Definition set_wstats (m : wal_manager) (s : wal_stats) : wal_manager :=
  mk_wal (next_lsn m) (flushed_lsn m) (next_txn_id m) (log_buffer m) (buffer_size m)
         (buffer_used m) (active_txns m) (checkpoint_lsn m) (checkpointing m) s.

Definition count_begun (s : wal_stats) : wal_stats :=
  mk_wstats (u32 (txn_begun s + 1)) (txn_committed s) (txn_aborted s) (writes_logged s).
Definition count_committed (s : wal_stats) : wal_stats :=
  mk_wstats (txn_begun s) (u32 (txn_committed s + 1)) (txn_aborted s) (writes_logged s).
Definition count_aborted (s : wal_stats) : wal_stats :=
  mk_wstats (txn_begun s) (txn_committed s) (u32 (txn_aborted s + 1)) (writes_logged s).
Definition count_logged (s : wal_stats) : wal_stats :=
  mk_wstats (txn_begun s) (txn_committed s) (txn_aborted s) (u32 (writes_logged s + 1)).

(** ** Metadata sector *)

Record wal_metadata := mk_meta {
  magic : Z; clean_shutdown : Z; m_last_lsn : Z; last_txn_id : Z; m_padding : list Z
}.

Definition meta_encode (m : wal_metadata) : list Z :=
  le_bytes 4 (magic m) ++ le_bytes 4 (clean_shutdown m) ++ le_bytes 8 (m_last_lsn m) ++
  le_bytes 4 (last_txn_id m) ++ m_padding m.

Definition meta_decode (b : list Z) : wal_metadata :=
  mk_meta (le_val (slice b 0 4)) (le_val (slice b 4 4)) (le_val (slice b 8 8))
          (le_val (slice b 16 4)) (slice b 20 492).

Definition wal_read_metadata (w : wst) : outcome (wal_metadata * wst) :=
  '(b, d) ← block_read (dev w) WAL_METADATA_SECTOR;
  Ret (meta_decode b, set_dev w d).

Definition wal_write_metadata (m : wal_metadata) (w : wst) : outcome wst :=
  d ← block_write (dev w) WAL_METADATA_SECTOR (meta_encode m);
  Ret (set_dev w d).

Definition wal_init_metadata (w : wst) : outcome wst :=
  wal_write_metadata (mk_meta WAL_METADATA_MAGIC 1 0 0 (replicate 492 0)) w.

(** ** Log buffer *)

(** The sector that holds the record with the given LSN. *)
Definition log_sector (l : Z) : Z := WAL_LOG_START_SECTOR + u64 (l - 1) mod WAL_LOG_SECTORS.

(** The loop of [wal_flush]: records [i], [i + 1], ... are written to their
    sectors; returns the largest LSN written. *)
Fixpoint flush_loop (n : nat) (i : Z) (buf : list wal_record) (max_lsn : Z) (w : wst)
    : outcome (Z * wst) :=
  match n with
  | O => Ret (max_lsn, w)
  | S n =>
      rec ← array_get buf i;
      d ← block_write (dev w) (log_sector (lsn rec)) (encode rec);
      flush_loop n (i + 1) buf (if max_lsn <? lsn rec then lsn rec else max_lsn) (set_dev w d)
  end.

Definition wal_flush (up_to_lsn : Z) (w : wst) : outcome wst :=
  let m := wal w in
  if up_to_lsn <=? flushed_lsn m then Ret w
  else if buffer_used m =? 0 then Ret w
  else
    match log_buffer m with
    | None => UB
    | Some buf =>
        let num_records := buffer_used m / REC_SIZE in
        '(max_lsn, w) ← flush_loop (Z.to_nat num_records) 0 buf (flushed_lsn m) w;
        Ret (set_wal w (set_lsns (wal w) (next_lsn (wal w)) max_lsn))
    end.

(** Copies the record into the buffer at [buffer_used]. *)
Definition buffer_put (rec : wal_record) (w : wst) : outcome wst :=
  let m := wal w in
  match log_buffer m with
  | None => UB
  | Some buf =>
      buf' ← array_set buf (buffer_used m / REC_SIZE) rec;
      Ret (set_wal w (set_buffer m (Some buf') (buffer_size m) (buffer_used m + REC_SIZE)))
  end.

Definition wal_append_record (record : wal_record) (w : wst) : outcome (Z * wst) :=
  let assigned_lsn := next_lsn (wal w) in
  let record := seal (with_lsn record assigned_lsn) in
  w ← (if buffer_size (wal w) <? buffer_used (wal w) + REC_SIZE then
         w ← wal_flush (u64 (next_lsn (wal w) - 1)) w;
         Ret (set_wal w (set_buffer (wal w) (log_buffer (wal w)) (buffer_size (wal w)) 0))
       else Ret w);
  w ← buffer_put record w;
  let w := if rtype record =? WAL_CHECKPOINT
           then set_wal w (set_ckpt_lsn (wal w) assigned_lsn) else w in
  let m := wal w in
  let w := set_wal w (set_lsns m (u64 (next_lsn m + 1)) (flushed_lsn m)) in
  let m := wal w in
  let log_used := if checkpoint_lsn m =? 0 then u64 (next_lsn m - 1)
                  else u64 (next_lsn m - checkpoint_lsn m) in
  let w := if (WAL_LOG_SECTORS * 3 / 4 <=? log_used) && negb (checkpointing m)
           then set_pending w true else w in
  Ret (assigned_lsn, w).

(** [None] when the C function returns false. *)
Definition wal_read_record (l : Z) (w : wst) : outcome (option wal_record * wst) :=
  if l =? 0 then Ret (None, w)
  else
    '(b, d) ← block_read (dev w) (log_sector l);
    let w := set_dev w d in
    let record := decode b in
    if negb (lsn record =? l) then Ret (None, w)
    else Ret (if checksum_ok record then Some record else None, w).

(** ** Checkpoint *)

Definition wal_checkpoint (w : wst) : outcome wst :=
  if checkpointing (wal w) then Ret w
  else
    let w := set_wal w (set_checkpointing (wal w) true) in
    c ← Cache.cache_flush (fs w);
    let w := set_fs w c in
    w ← (if 0 <? next_lsn (wal w) then wal_flush (u64 (next_lsn (wal w) - 1)) w else Ret w);
    '(_, w) ← wal_append_record (control_rec WAL_CHECKPOINT 0) w;
    w ← wal_flush (u64 (next_lsn (wal w) - 1)) w;
    Ret (set_wal w (set_checkpointing (wal w) false)).

(** ** Transactions *)

(** [*h], undefined once the transaction was freed. *)
Definition txn_get (h : nat) (w : wst) : outcome wal_txn :=
  match txns w !! h with Some t => Ret t | None => UB end.

Definition txn_put (h : nat) (t : wal_txn) (w : wst) : wst := set_txns w (<[h := t]> (txns w)).

Definition wal_txn_begin (malloc_ok : bool) (w : wst) : outcome (option nat * wst) :=
  if negb malloc_ok then Ret (None, w)
  else
    let h := next_addr w in
    let m := wal w in
    let id := next_txn_id m in
    let m := set_wstats (set_next_txn m (u32 (id + 1))) (count_begun (wstats m)) in
    let w := mk_w m (checkpoint_pending w) (fs w) (txns w) (S h) (current_txn w) in
    '(begin_lsn, w) ← wal_append_record (control_rec WAL_BEGIN id) w;
    let w := txn_put h (mk_txn id TXN_ACTIVE begin_lsn begin_lsn) w in
    Ret (Some h, set_wal w (set_active (wal w) (active_txns (wal w) ++ [h]))).

(** [list_remove (&txn->elem)], a counter increment, and [free (txn)]. *)
Definition txn_finish (h : nat) (count : wal_stats → wal_stats) (w : wst) : wst :=
  let m := wal w in
  let m := set_wstats (set_active m (filter (λ a, a ≠ h) (active_txns m))) (count (wstats m)) in
  set_txns (set_wal w m) (delete h (txns w)).

Definition wal_txn_commit (h : option nat) (w : wst) : outcome (bool * wst) :=
  match h with
  | None => Ret (false, w)
  | Some h =>
      t ← txn_get h w;
      if negb (bool_decide (t_state t = TXN_ACTIVE)) then Ret (false, w)
      else
        '(commit_lsn, w) ← wal_append_record (control_rec WAL_COMMIT (t_id t)) w;
        w ← wal_flush commit_lsn w;
        let w := txn_put h (mk_txn (t_id t) TXN_COMMITTED (first_lsn t) (last_lsn t)) w in
        let w := txn_finish h count_committed w in
        w ← (if checkpoint_pending w then
               let w := mk_w (wal w) false (fs w) (txns w) (next_addr w) None in
               wal_checkpoint w
             else Ret w);
        Ret (true, w)
  end.

(** First loop of [wal_txn_abort]: the LSNs in [l, end) of the transaction's
    WRITE records, at most [MAX_UNDO_RECORDS] of them.  [n = end - l]. *)
Fixpoint collect_undo (n : nat) (l id : Z) (acc : list Z) (w : wst) : outcome (list Z * wst) :=
  match n with
  | O => Ret (acc, w)
  | S n =>
      if Z.of_nat (length acc) <? MAX_UNDO_RECORDS then
        '(r, w) ← wal_read_record l w;
        let acc := match r with
                   | Some rec => if (txn_id rec =? id) && (rtype rec =? WAL_WRITE)
                                 then acc ++ [l] else acc
                   | None => acc
                   end in
        collect_undo n (l + 1) id acc w
      else Ret (acc, w)
  end.

(** Second loop: from the last collected record to the first, the old data goes
    back through the cache. *)
Fixpoint apply_undo (lsns : list Z) (w : wst) : outcome wst :=
  match lsns with
  | [] => Ret w
  | l :: lsns =>
      '(r, w) ← wal_read_record l w;
      w ← (match r with
           | Some rec =>
               c ← Cache.cache_write (rsector rec) (old_data rec) (offset rec) (rlength rec) (fs w);
               Ret (set_fs w c)
           | None => Ret w
           end);
      apply_undo lsns w
  end.

Definition wal_txn_abort (malloc_lsns malloc_rec : bool) (h : option nat) (w : wst) : outcome wst :=
  match h with
  | None => Ret w
  | Some h =>
      t ← txn_get h w;
      if negb (bool_decide (t_state t = TXN_ACTIVE)) then Ret w
      else if negb malloc_lsns then Ret (txn_finish h count_aborted w)
      else
        let end_lsn := next_lsn (wal w) in
        w ← wal_flush end_lsn w;
        if negb malloc_rec then Ret (txn_finish h count_aborted w)
        else
          '(lsns, w) ← collect_undo (Z.to_nat (end_lsn - first_lsn t)) (first_lsn t) (t_id t) [] w;
          w ← apply_undo (rev lsns) w;
          c ← Cache.cache_flush (fs w);
          '(_, w) ← wal_append_record (control_rec WAL_ABORT (t_id t)) (set_fs w c);
          Ret (txn_finish h count_aborted w)
  end.

(** The loop of [wal_log_write].  Every iteration logs at least one byte, so
    [length] iterations always suffice. *)
Fixpoint log_write_loop (fuel : nat) (h : nat) (t : wal_txn) (sec : Z) (old new : list Z)
    (ofs len bytes_logged : Z) (w : wst) : outcome wst :=
  if bytes_logged <? len then
    match fuel with
    | O => UB
    | S fuel =>
        let chunk_size := u16 (len - bytes_logged) in
        let chunk_size := if WAL_MAX_DATA_SIZE <? chunk_size then WAL_MAX_DATA_SIZE
                          else chunk_size in
        o ← memcpy_from old (Z.to_nat bytes_logged) (Z.to_nat chunk_size);
        n ← memcpy_from new (Z.to_nat bytes_logged) (Z.to_nat chunk_size);
        let rec := mk_rec 0 (t_id t) WAL_WRITE 0 sec (u16 (ofs + bytes_logged)) chunk_size
                          (splice (replicate 232 0) 0 o) (splice (replicate 232 0) 0 n)
                          (replicate 20 0) in
        '(l, w) ← wal_append_record rec w;
        let t := mk_txn (t_id t) (t_state t) (first_lsn t) l in
        log_write_loop fuel h t sec old new ofs len (u16 (bytes_logged + chunk_size))
                       (txn_put h t w)
    end
  else Ret w.

Definition wal_log_write (h : option nat) (sec : Z) (old new : list Z) (ofs len : Z) (w : wst)
    : outcome (bool * wst) :=
  match h with
  | None => Ret (false, w)
  | Some h =>
      t ← txn_get h w;
      if negb (bool_decide (t_state t = TXN_ACTIVE)) then Ret (false, w)
      else
        w ← log_write_loop (Z.to_nat len) h t sec old new ofs len 0 w;
        Ret (true, set_wal w (set_wstats (wal w) (count_logged (wstats (wal w)))))
  end.

Definition wal_set_current_txn (h : option nat) (w : wst) : wst :=
  mk_w (wal w) (checkpoint_pending w) (fs w) (txns w) (next_addr w) h.
Definition wal_get_current_txn (w : wst) : option nat := current_txn w.
Definition wal_get_stats (w : wst) : wal_stats := wstats (wal w).
Definition wal_reset_stats (w : wst) : wst :=
  set_wal w (set_wstats (wal w) (mk_wstats 0 0 0 0)).

(** ** Recovery *)

(** A transaction seen in the log: [seen_txns[i]], [txn_committed[i]],
    [txn_aborted[i]]. *)
Record seen_txn := mk_seen { s_id : Z; s_committed : bool; s_aborted : bool }.

(** Reads log sector [s] and tests its checksum; [None] on a mismatch. *)
Definition read_log (s : Z) (d : block) : outcome (option wal_record * block) :=
  '(b, d) ← block_read d (WAL_LOG_START_SECTOR + s);
  let rec := decode b in
  Ret (if checksum_ok rec then Some rec else None, d).

(** Records a COMMIT or an ABORT of the transaction at one index. *)
Definition note_outcome (ty : Z) (t : seen_txn) : seen_txn :=
  if ty =? WAL_COMMIT then mk_seen (s_id t) true (s_aborted t)
  else if ty =? WAL_ABORT then mk_seen (s_id t) (s_committed t) true
  else t.

(** Finds the transaction in the table, or adds it at the end while there is
    room and its id is not 0, and notes the record's type there. *)
Fixpoint track (id ty : Z) (room : nat) (seen : list seen_txn) : list seen_txn :=
  match seen with
  | [] => match room with
          | O => []
          | S _ => if id =? 0 then [] else [note_outcome ty (mk_seen id false false)]
          end
  | t :: seen => if s_id t =? id then note_outcome ty t :: seen
                 else t :: track id ty (pred room) seen
  end.

(** Phase 1: log sectors [s], [s + 1], ... *)
Fixpoint analysis (n : nat) (s : Z) (seen : list seen_txn) (max_lsn : Z) (d : block)
    : outcome (list seen_txn * Z * block) :=
  match n with
  | O => Ret (seen, max_lsn, d)
  | S n =>
      '(r, d) ← read_log s d;
      match r with
      | Some rec =>
          if lsn rec =? 0 then analysis n (s + 1) seen max_lsn d
          else
            analysis n (s + 1) (track (txn_id rec) (rtype rec) (Z.to_nat MAX_TXNS) seen)
                     (if max_lsn <? lsn rec then lsn rec else max_lsn) d
      | None => analysis n (s + 1) seen max_lsn d
      end
  end.

Definition committed_txns (seen : list seen_txn) : list Z :=
  s_id <$> filter (λ t, s_committed t = true) seen.

Definition uncommitted_txns (seen : list seen_txn) : list Z :=
  s_id <$> filter (λ t, s_committed t = false ∧ s_aborted t = false) seen.

(** Reads a sector, overlays [data] and writes it back. *)
Definition patch (sec ofs len : Z) (data : list Z) (d : block) : outcome block :=
  '(b, d) ← block_read d sec;
  b ← memcpy b (Z.to_nat ofs) data (Z.to_nat len);
  block_write d sec b.

(** Phase 2: REDO, in the order of the log sectors. *)
Fixpoint redo (n : nat) (s : Z) (committed : list Z) (d : block) : outcome block :=
  match n with
  | O => Ret d
  | S n =>
      '(r, d) ← read_log s d;
      match r with
      | Some rec =>
          if (rtype rec =? WAL_WRITE) && bool_decide (txn_id rec ∈ committed) then
            d ← patch (rsector rec) (offset rec) (rlength rec) (new_data rec) d;
            redo n (s + 1) committed d
          else redo n (s + 1) committed d
      | None => redo n (s + 1) committed d
      end
  end.

Record undo_entry := mk_undo {
  u_sector : Z; u_offset : Z; u_length : Z; u_old_data : list Z; u_lsn : Z
}.

#[global] Instance undo_entry_inhabited : Inhabited undo_entry := populate (mk_undo 0 0 0 [] 0).

(** Phase 3, first loop: the WRITE records of uncommitted transactions.  The
    entry's array is freshly allocated memory, of which the first [length]
    bytes are set. *)
Fixpoint undo_scan (n : nat) (s : Z) (uncommitted : list Z) (acc : list undo_entry) (d : block)
    : outcome (list undo_entry * block) :=
  match n with
  | O => Ret (acc, d)
  | S n =>
      '(r, d) ← read_log s d;
      match r with
      | Some rec =>
          if (rtype rec =? WAL_WRITE) && bool_decide (txn_id rec ∈ uncommitted) &&
             (Z.of_nat (length acc) <? MAX_UNDO) then
            o ← memcpy_from (old_data rec) 0 (Z.to_nat (rlength rec));
            undo_scan n (s + 1) uncommitted
              (acc ++ [mk_undo (rsector rec) (offset rec) (rlength rec) o (lsn rec)]) d
          else undo_scan n (s + 1) uncommitted acc d
      | None => undo_scan n (s + 1) uncommitted acc d
      end
  end.

(** The exchange sort of the source: the inner loop moves the largest LSN of
    positions [i ..] to position [i]. *)
Fixpoint sort_inner (x : undo_entry) (l : list undo_entry) : undo_entry * list undo_entry :=
  match l with
  | [] => (x, [])
  | y :: l => if u_lsn x <? u_lsn y
              then let '(m, l') := sort_inner y l in (m, x :: l')
              else let '(m, l') := sort_inner x l in (m, y :: l')
  end.

Fixpoint sort_outer (n : nat) (l : list undo_entry) : list undo_entry :=
  match n, l with
  | S n, x :: l => let '(m, l') := sort_inner x l in m :: sort_outer n l'
  | _, _ => l
  end.

Definition sort_undo (l : list undo_entry) : list undo_entry := sort_outer (length l) l.

Fixpoint undo_apply (l : list undo_entry) (d : block) : outcome block :=
  match l with
  | [] => Ret d
  | u :: l => d ← patch (u_sector u) (u_offset u) (u_length u) (u_old_data u) d; undo_apply l d
  end.

(** [next_txn_id] after recovery: one past the largest id seen. *)
Definition next_id_after (seen : list seen_txn) : Z :=
  fold_left (λ id t, if id <=? s_id t then u32 (s_id t + 1) else id) seen 1.

Definition wal_recover (malloc_ok : bool) (w : wst) : outcome wst :=
  '(seen, max_lsn, d) ← analysis (Z.to_nat WAL_LOG_SECTORS) 0 [] 0 (dev w);
  d ← redo (Z.to_nat WAL_LOG_SECTORS) 0 (committed_txns seen) d;
  let finish d :=
    let w := set_dev w d in
    set_wal w (set_next_txn (set_lsns (wal w) (u64 (max_lsn + 1)) max_lsn) (next_id_after seen)) in
  if negb malloc_ok then Ret (finish d)
  else
    '(undo, d) ← undo_scan (Z.to_nat WAL_LOG_SECTORS) 0 (uncommitted_txns seen) [] d;
    d ← undo_apply (sort_undo undo) d;
    Ret (finish d).

(** ** Start and stop *)

(** The common end of both branches of [wal_init]: buffer, statistics and
    transaction tracking. *)
Definition wal_reset (buf : list wal_record) (m : wal_manager) : wal_manager :=
  mk_wal (next_lsn m) (flushed_lsn m) (next_txn_id m) (Some buf) WAL_BUFFER_SIZE 0 [] 0 false
         (mk_wstats 0 0 0 0).

(** [malloc_buf]: the memory for the log buffer; [malloc_undo]: whether recovery
    gets memory for its undo table. *)
Definition wal_init (format : bool) (malloc_buf : option (list wal_record)) (malloc_undo : bool)
    (w : wst) : outcome wst :=
  let finish w := match malloc_buf with
                  | None => Panic
                  | Some buf => Ret (set_wal w (wal_reset buf (wal w)))
                  end in
  if format then
    finish (set_wal w (set_next_txn (set_lsns (wal w) 1 0) 1))
  else
    '(meta, w) ← wal_read_metadata w;
    if negb (magic meta =? WAL_METADATA_MAGIC) then
      w ← wal_init_metadata w;
      let w := set_wal w (set_next_txn (set_lsns (wal w) 1 0) 1) in
      w ← wal_write_metadata (mk_meta (magic meta) 0 (m_last_lsn meta) (last_txn_id meta)
                                      (m_padding meta)) w;
      finish w
    else
      w ← (if negb (clean_shutdown meta =? 1) then wal_recover malloc_undo w
           else
             let '(n, f) := if 0 <? m_last_lsn meta
                            then (u64 (m_last_lsn meta + 1), m_last_lsn meta) else (1, 0) in
             Ret (set_wal w (set_next_txn (set_lsns (wal w) n f) (u32 (last_txn_id meta + 1)))));
      w ← wal_write_metadata (mk_meta (magic meta) 0 (m_last_lsn meta) (last_txn_id meta)
                                      (m_padding meta)) w;
      finish w.

Definition wal_shutdown (w : wst) : outcome wst :=
  w ← (if 0 <? next_lsn (wal w) then wal_flush (u64 (next_lsn (wal w) - 1)) w else Ret w);
  '(meta, w) ← wal_read_metadata w;
  w ← wal_write_metadata
        (mk_meta WAL_METADATA_MAGIC 1
                 (if 0 <? next_lsn (wal w) then u64 (next_lsn (wal w) - 1) else 0)
                 (if 0 <? next_txn_id (wal w) then u32 (next_txn_id (wal w) - 1) else 0)
                 (m_padding meta)) w;
  match log_buffer (wal w) with
  | None => Ret w
  | Some _ => Ret (set_wal w (set_buffer (wal w) None 0 0))
  end.

End Wal.
