(* ===== verification/WalProofs.v ===== *)
(** * Write-ahead log: durability of the log

    The invariant that relates the manager's counters, the record buffer and the
    log sectors of the device to the history of appended records, and what
    append, flush, commit and abort do to that history. *)

From stdpp Require Import base tactics numbers list list_numbers option gmap.
From S2P Require Import Prelude Block Cache WalRecord Wal.

Open Scope Z_scope.

Module WalProofs.
Import Block WalRecord Wal.

(** ** Log sectors *)

Definition log_area (s : Z) : Prop := WAL_LOG_START_SECTOR ≤ s ≤ WAL_METADATA_SECTOR.

Lemma log_sector_eq l : 1 ≤ l < 2 ^ 64 → log_sector l = 2 + (l - 1) mod 64.
Proof. intros. unfold log_sector, WAL_LOG_START_SECTOR, WAL_LOG_SECTORS. by rewrite wrap_small by lia. Qed.

Lemma log_sector_bound l : 2 ≤ log_sector l < 66.
Proof.
  unfold log_sector, WAL_LOG_START_SECTOR, WAL_LOG_SECTORS.
  pose proof (Z.mod_pos_bound (u64 (l - 1)) 64). lia.
Qed.

Lemma log_sector_area l : log_area (log_sector l).
Proof.
  pose proof (log_sector_bound l). unfold log_area, WAL_METADATA_SECTOR, WAL_LOG_START_SECTOR,
    WAL_LOG_SECTORS. lia.
Qed.

(** Two LSNs less than 64 apart use different sectors. *)
Lemma log_sector_inj l1 l2 :
  1 ≤ l1 < 2 ^ 64 → 1 ≤ l2 < 2 ^ 64 → Z.abs (l1 - l2) < 64 →
  log_sector l1 = log_sector l2 → l1 = l2.
Proof.
  intros H1 H2 Hd. rewrite !log_sector_eq by done. intros Heq.
  pose proof (Z.div_mod (l1 - 1) 64 ltac:(lia)). pose proof (Z.div_mod (l2 - 1) 64 ltac:(lia)). lia.
Qed.

(** The device of [d'] is [d] except for log sectors. *)
Definition dev_frame (d d' : block) : Prop :=
  block_size d' = block_size d ∧ wf d' ∧
  ∀ s, 0 ≤ s → ¬ log_area s → sector_of d' s = sector_of d s.

Lemma dev_frame_refl d : wf d → dev_frame d d.
Proof. done. Qed.

Lemma dev_frame_trans d1 d2 d3 : dev_frame d1 d2 → dev_frame d2 d3 → dev_frame d1 d3.
Proof.
  intros (H1 & H2 & H3) (H4 & H5 & H6). split_and!; [congruence|done|].
  intros s Hs Hl. rewrite H6, H3; done.
Qed.

(** No slot of the cache holds a log sector. *)
Definition no_log_cached (c : Cache.cst) : Prop :=
  ∀ s, Cache.cached c s → ¬ log_area s.

(** Writing log sectors behind the cache keeps its invariant and its view of
    every other sector. *)
Lemma cache_dev_frame c d :
  Cache.cache_inv c → no_log_cached c → dev_frame (Cache.fs_device c) d →
  let c' := Cache.with_device c d in
  Cache.cache_inv c' ∧ no_log_cached c' ∧
  ∀ s, 0 ≤ s → ¬ log_area s → Cache.cview c' s = Cache.cview c s.
Proof.
  intros Hi Hn (Hsz & Hwf & Hsec) c'. split_and!.
  - destruct Hi. constructor; try done. simpl. apply Forall_lookup. intros n e He.
    destruct (Forall_lookup_1 _ _ _ _ inv_entries He) as (Hl & Hst & Hv).
    split_and!; try done. intros Hval. destruct (Hv Hval) as [Hr Hd]. split; [lia|].
    intros Hdf. rewrite Hsec; [by apply Hd|lia|]. apply Hn. exists n, e.
    split_and!; [done|by rewrite Hval|done].
  - done.
  - intros s Hs Hl. unfold Cache.cview. change (Cache.cache_lookup c' s) with (Cache.cache_lookup c s).
    destruct (Cache.cache_lookup c s); [done|]. by apply Hsec.
Qed.

(** ** Writing the buffer out *)

(** Records [recs] stand in [buf] from position [i] on. *)
Lemma flush_loop_run recs i buf mx w :
  (∀ j r, recs !! j = Some r → array_get buf (i + Z.of_nat j) = Ret r) →
  (∀ r, r ∈ recs → rec_ok r ∧ 1 ≤ lsn r) →
  wf (dev w) → 66 < block_size (dev w) →
  NoDup ((λ r, log_sector (lsn r)) <$> recs) →
  ∃ d, flush_loop (length recs) i buf mx w =
         Ret (fold_left (λ m r, Z.max m (lsn r)) recs mx, set_dev w d) ∧
    dev_frame (dev w) d ∧
    (∀ r, r ∈ recs → sector_of d (log_sector (lsn r)) = encode r) ∧
    (∀ s, 0 ≤ s → s ∉ ((λ r, log_sector (lsn r)) <$> recs) → sector_of d s = sector_of (dev w) s).
Proof.
  revert i mx w. induction recs as [|r recs IH]; intros i mx w Hbuf Hok Hwf Hsz Hnd.
  { exists (dev w). split_and!; try done; [|set_solver].
    simpl. unfold set_dev, set_fs, dev, Cache.with_device. by destruct w as [? ? [] ? ? ?]. }
  destruct (Hok r ltac:(by left)) as [Hr Hl]. pose proof (log_sector_bound (lsn r)) as Hb.
  pose proof (Hbuf 0%nat r eq_refl) as H0. rewrite Z.add_0_r in H0.
  cbn [length flush_loop]. rewrite H0, Ret_bind.
  destruct (block_write_spec (dev w) (log_sector (lsn r)) ltac:(lia) (encode r) Hwf
    (encode_length r Hr)) as (d1 & -> & Hw1 & Hs1 & Hc1). rewrite Ret_bind.
  rewrite fmap_cons in Hnd. apply NoDup_cons in Hnd as [Hnin Hnd].
  destruct (IH (i + 1) (if mx <? lsn r then lsn r else mx) (set_dev w d1))
    as (d & -> & Hf & Hin & Hout).
  - intros j r' Hj. replace (i + 1 + Z.of_nat j) with (i + Z.of_nat (S j)) by lia. by apply Hbuf.
  - intros r' Hr'. apply Hok. by right.
  - done.
  - change (dev (set_dev w d1)) with d1. lia.
  - done.
  - change (dev (set_dev w d1)) with d1 in *.
    assert (dev_frame (dev w) d1) as Hf1.
    { split_and!; [done|done|]. intros s Hs Ha. rewrite Hc1 by done.
      destruct (Z.eqb_spec s (log_sector (lsn r))) as [->|]; [|done].
      destruct Ha. apply log_sector_area. }
    exists d. split_and!.
    + simpl. do 3 f_equal. destruct (Z.ltb_spec mx (lsn r)); lia.
    + by eapply dev_frame_trans.
    + intros r' [->|Hr']%elem_of_cons; [|by apply Hin].
      rewrite Hout, Hc1, Z.eqb_refl by (done || lia). done.
    + intros s Hs [Hne Hni]%not_elem_of_cons. rewrite Hout, Hc1 by done.
      by rewrite (proj2 (Z.eqb_neq _ _) Hne).
Qed.

(** ** The log invariant *)

(** The manager's counters, the buffer and the log sectors agree with the history
    of records appended since LSN [base]: the buffer ends with the newest
    records, whatever it does not hold is on disk, and the 64 newest flushed
    records are readable in their sectors. *)
Record log_inv (base : Z) (hist : list wal_record) (w : wst) : Prop := {
  li_base : 1 ≤ base;
  li_next : next_lsn (wal w) = base + Z.of_nat (length hist);
  li_max : next_lsn (wal w) < 2 ^ 64;
  li_hist : ∀ i r, hist !! i = Some r →
    lsn r = base + Z.of_nat i ∧ rec_ok r ∧ checksum_ok r = true;
  li_flushed : base - 1 ≤ flushed_lsn (wal w) ≤ next_lsn (wal w) - 1;
  li_buffer : ∃ buf k,
    log_buffer (wal w) = Some buf ∧ length buf = 8%nat ∧
    buffer_size (wal w) = WAL_BUFFER_SIZE ∧ buffer_used (wal w) = REC_SIZE * Z.of_nat k ∧
    (k ≤ 8)%nat ∧ (k ≤ length hist)%nat ∧
    next_lsn (wal w) - 1 - Z.of_nat k ≤ flushed_lsn (wal w) ∧
    ∀ j, (j < k)%nat → buf !! j = hist !! (length hist - k + j)%nat;
  li_disk : ∀ i r, hist !! i = Some r →
    lsn r ≤ flushed_lsn (wal w) < lsn r + WAL_LOG_SECTORS →
    sector_of (dev w) (log_sector (lsn r)) = encode r;
  li_cache : Cache.cache_inv (fs w);
  li_nolog : no_log_cached (fs w);
  li_size : WAL_METADATA_SECTOR < block_size (dev w)
}.

(** What log traffic leaves alone: every field but the LSNs, the buffer and the
    checkpoint flag, and all of the device outside the log. *)
Record keeps (w w' : wst) : Prop := {
  k_txns : txns w' = txns w;
  k_addr : next_addr w' = next_addr w;
  k_cur : current_txn w' = current_txn w;
  k_id : next_txn_id (wal w') = next_txn_id (wal w);
  k_active : active_txns (wal w') = active_txns (wal w);
  k_ckpt : checkpointing (wal w') = checkpointing (wal w);
  k_stats : wstats (wal w') = wstats (wal w);
  k_fs : fs w' = Cache.with_device (fs w) (dev w');
  k_dev : dev_frame (dev w) (dev w')
}.

Lemma keeps_refl w : wf (dev w) → keeps w w.
Proof. intros. constructor; try done. unfold Cache.with_device, dev. by destruct w as [? ? [] ? ? ?]. Qed.

Lemma keeps_trans w1 w2 w3 : keeps w1 w2 → keeps w2 w3 → keeps w1 w3.
Proof.
  intros [] []. constructor; try congruence.
  - rewrite k_fs1, k_fs0. done.
  - by eapply dev_frame_trans.
Qed.

(** The disk a client sees outside the log is untouched by log traffic. *)
Lemma keeps_view w w' s :
  Cache.cache_inv (fs w) → no_log_cached (fs w) → keeps w w' →
  0 ≤ s → ¬ log_area s → Cache.cview (fs w') s = Cache.cview (fs w) s.
Proof.
  intros Hi Hn Hk Hs Hl. rewrite (k_fs _ _ Hk).
  by apply (cache_dev_frame (fs w) (dev w') Hi Hn (k_dev _ _ Hk)).
Qed.

Lemma keeps_cache w w' :
  Cache.cache_inv (fs w) → no_log_cached (fs w) → keeps w w' →
  Cache.cache_inv (fs w') ∧ no_log_cached (fs w').
Proof.
  intros Hi Hn Hk. rewrite (k_fs _ _ Hk).
  destruct (cache_dev_frame (fs w) (dev w') Hi Hn (k_dev _ _ Hk)) as (? & ? & _). done.
Qed.

Lemma log_inv_wf base hist w : log_inv base hist w → wf (dev w).
Proof. intros []. apply li_cache0. Qed.

Lemma hist_max base hist w i r :
  log_inv base hist w → hist !! i = Some r → 1 ≤ lsn r < 2 ^ 64 ∧ lsn r ≤ next_lsn (wal w) - 1.
Proof.
  intros [] Hr. destruct (li_hist0 i r Hr) as (-> & _). apply lookup_lt_Some in Hr. lia.
Qed.

(** ** Flushing *)

Lemma fold_max (recs : list wal_record) m :
  fold_left (λ m r, Z.max m (lsn r)) recs m =
  fold_left Z.max (lsn <$> recs) m.
Proof. revert m. induction recs as [|r recs IH]; intros m; simpl; auto. Qed.

Lemma fold_max_last (l : list Z) m x :
  (∀ y, y ∈ l → y ≤ x) → m ≤ x → x ∈ l → fold_left Z.max l m = x.
Proof.
  assert (∀ l m, (∀ y, y ∈ l → y ≤ x) → m ≤ x → x ∈ l ∨ m = x → fold_left Z.max l m = x) as H.
  { clear. induction l as [|y l IH]; intros m Hl Hm Hin; simpl.
    - destruct Hin as [[]%elem_of_nil|]; done.
    - assert (y ≤ x) by (apply Hl; by left). apply IH; [intros; apply Hl; by right|lia|].
      destruct Hin as [[->|?]%elem_of_cons|]; [right; lia|by left|right; lia]. }
  intros. apply H; auto.
Qed.

(** The records a flush writes: the last [k] of the history. *)
Lemma buffered_lookup {A} (hist : list A) k j r :
  (k ≤ length hist)%nat → drop (length hist - k) hist !! j = Some r →
  (j < k)%nat ∧ hist !! (length hist - k + j)%nat = Some r.
Proof.
  intros Hk Hj. rewrite lookup_drop in Hj. split; [|done]. apply lookup_lt_Some in Hj. lia.
Qed.

Section flush.
Context (base : Z) (hist : list wal_record) (w : wst) (Hi : log_inv base hist w).

Lemma buffered_nodup k :
  (k ≤ 8)%nat → (k ≤ length hist)%nat →
  NoDup ((λ r, log_sector (lsn r)) <$> drop (length hist - k) hist).
Proof using Hi.
  intros Hk8 Hk. apply NoDup_alt. intros i j s Hs1 Hs2.
  apply list_lookup_fmap_Some in Hs1 as (r1 & -> & H1), Hs2 as (r2 & Heq & H2).
  apply buffered_lookup in H1 as [Hi1 H1], H2 as [Hi2 H2]; [|done..].
  destruct (hist_max _ _ _ _ _ Hi H1) as [? _], (hist_max _ _ _ _ _ Hi H2) as [? _].
  destruct (li_hist _ _ _ Hi _ _ H1) as (E1 & _), (li_hist _ _ _ Hi _ _ H2) as (E2 & _).
  apply log_sector_inj in Heq; lia.
Qed.

(** The invariant after the log sectors of the newest [k] records were written. *)
Lemma log_inv_flushed d k :
  (k ≤ 8)%nat → (k ≤ length hist)%nat → next_lsn (wal w) - 1 - Z.of_nat k ≤ flushed_lsn (wal w) →
  dev_frame (dev w) d →
  (∀ r, r ∈ drop (length hist - k) hist → sector_of d (log_sector (lsn r)) = encode r) →
  (∀ s, 0 ≤ s → s ∉ ((λ r, log_sector (lsn r)) <$> drop (length hist - k) hist) →
        sector_of d s = sector_of (dev w) s) →
  log_inv base hist
    (set_wal (set_dev w d) (set_lsns (wal w) (next_lsn (wal w)) (next_lsn (wal w) - 1))).
Proof using Hi.
  intros Hk8 Hk Hfl Hd Hin Hout.
  destruct (cache_dev_frame (fs w) d (li_cache _ _ _ Hi) (li_nolog _ _ _ Hi) Hd) as (Hc1 & Hc2 & _).
  pose proof Hi as Hi'. destruct Hi'. constructor; try done.
  - cbn [wal set_wal set_lsns next_lsn flushed_lsn]. lia.
  - destruct li_buffer0 as (buf & k0 & ? & ? & ? & ? & ? & ? & ? & ?).
    exists buf, k0. cbn [wal set_wal set_lsns next_lsn flushed_lsn]. split_and!; try done. lia.
  - cbn [wal set_wal set_lsns next_lsn flushed_lsn]. intros i r Hr Hwin.
    change (dev _) with d. unfold WAL_LOG_SECTORS in *.
    destruct (li_hist0 i r Hr) as (Hl & _). pose proof (lookup_lt_Some _ _ _ Hr).
    destruct (decide (length hist - k ≤ i)%nat) as [Hge|Hlt].
    + apply Hin, list_elem_of_lookup. exists (i - (length hist - k))%nat.
      rewrite lookup_drop. rewrite <- Hr. f_equal. lia.
    + rewrite Hout; [by apply (li_disk0 i); [|lia]|pose proof (log_sector_bound (lsn r)); lia|].
      intros (r' & Heq & (j & Hj)%list_elem_of_lookup)%list_elem_of_fmap.
      apply buffered_lookup in Hj as [Hjk Hj]; [|done].
      destruct (hist_max _ _ _ _ _ Hi Hj) as [? _], (hist_max _ _ _ _ _ Hi Hr) as [? _].
      destruct (li_hist0 _ _ Hj) as (Hl' & _).
      apply log_sector_inj in Heq; lia.
  - destruct Hd as (Hsz & _). change (dev _) with d. lia.
Qed.

Lemma wal_flush_run u :
  ∃ w', wal_flush u w = Ret w' ∧ log_inv base hist w' ∧ keeps w w' ∧
    next_lsn (wal w') = next_lsn (wal w) ∧ checkpoint_lsn (wal w') = checkpoint_lsn (wal w) ∧
    checkpoint_pending w' = checkpoint_pending w ∧
    log_buffer (wal w') = log_buffer (wal w) ∧ buffer_size (wal w') = buffer_size (wal w) ∧
    buffer_used (wal w') = buffer_used (wal w) ∧
    flushed_lsn (wal w') =
      (if u <=? flushed_lsn (wal w) then flushed_lsn (wal w) else next_lsn (wal w) - 1).
Proof using Hi.
  pose proof (log_inv_wf _ _ _ Hi) as Hwf. pose proof (keeps_refl w Hwf) as Hrefl.
  unfold wal_flush. destruct (Z.leb_spec u (flushed_lsn (wal w))) as [Hu|Hu].
  { exists w. split_and!; done. }
  destruct (li_buffer _ _ _ Hi) as (buf & k & Hb & Hlb & Hsz & Hus & Hk8 & Hkh & Hfl & Hbuf).
  pose proof (li_flushed _ _ _ Hi) as Hf. pose proof (li_size _ _ _ Hi) as Hdev.
  unfold REC_SIZE in Hus. destruct (Z.eqb_spec (buffer_used (wal w)) 0) as [H0|H0].
  { exists w. split_and!; try done. lia. }
  rewrite Hb. replace (Z.to_nat (buffer_used (wal w) / REC_SIZE))
    with (length (drop (length hist - k) hist)).
  2: { rewrite length_drop, Hus. unfold REC_SIZE. rewrite Z.mul_comm, Z.div_mul by lia. lia. }
  destruct (flush_loop_run (drop (length hist - k) hist) 0 buf (flushed_lsn (wal w)) w)
    as (d & -> & Hd & Hin & Hout).
  - intros j r Hj. apply buffered_lookup in Hj as [Hjk Hj]; [|done].
    apply array_get_Ret. split; [lia|].
    rewrite Z.add_0_l, Nat2Z.id, (Hbuf j Hjk). done.
  - intros r (j & Hj)%list_elem_of_lookup. apply buffered_lookup in Hj as [Hjk Hj]; [|done].
    destruct (hist_max _ _ _ _ _ Hi Hj) as [? _]. destruct (li_hist _ _ _ Hi _ _ Hj) as (? & ? & _).
    split; [done|lia].
  - done.
  - unfold WAL_METADATA_SECTOR, WAL_LOG_START_SECTOR, WAL_LOG_SECTORS in Hdev. lia.
  - by apply buffered_nodup.
  - rewrite Ret_bind. cbn beta iota. change (wal (set_dev w d)) with (wal w).
    rewrite fold_max, (fold_max_last _ _ (next_lsn (wal w) - 1)).
    + eexists. split; [reflexivity|]. split; [by apply (log_inv_flushed d k)|].
      split_and!; try done.
    + intros y (r & -> & (j & Hj)%list_elem_of_lookup)%list_elem_of_fmap.
      apply buffered_lookup in Hj as [_ Hj]; [|done]. by apply (hist_max _ _ _ _ _ Hi Hj).
    + lia.
    + pose proof (li_next _ _ _ Hi).
      destruct (lookup_lt_is_Some_2 hist (length hist - 1)) as [r Hr]; [lia|].
      destruct (li_hist _ _ _ Hi _ _ Hr) as (Hl & _).
      replace (next_lsn (wal w) - 1) with (lsn r) by lia. apply list_elem_of_fmap_2.
      apply list_elem_of_lookup. exists (k - 1)%nat. rewrite lookup_drop, <- Hr. f_equal. lia.
Qed.
End flush.

(** ** Appending *)

(** The first half of [wal_append_record]: makes room for one record. *)
Definition make_room (w : wst) : outcome wst :=
  if buffer_size (wal w) <? buffer_used (wal w) + REC_SIZE then
    w ← wal_flush (u64 (next_lsn (wal w) - 1)) w;
    Ret (set_wal w (set_buffer (wal w) (log_buffer (wal w)) (buffer_size (wal w)) 0))
  else Ret w.

Lemma make_room_run base hist w :
  log_inv base hist w →
  ∃ w', make_room w = Ret w' ∧ log_inv base hist w' ∧ keeps w w' ∧
    next_lsn (wal w') = next_lsn (wal w) ∧ flushed_lsn (wal w) ≤ flushed_lsn (wal w') ∧
    buffer_used (wal w') + REC_SIZE ≤ WAL_BUFFER_SIZE.
Proof.
  intros Hi. pose proof (log_inv_wf _ _ _ Hi) as Hwf.
  destruct (li_buffer _ _ _ Hi) as (buf & k & Hb & Hlb & Hsz & Hus & Hk8 & Hkh & Hfl & Hbuf).
  unfold make_room. destruct (Z.ltb_spec (buffer_size (wal w)) (buffer_used (wal w) + REC_SIZE)).
  2: { exists w. split_and!; try done; [by apply keeps_refl|lia]. }
  destruct (wal_flush_run base hist w Hi (u64 (next_lsn (wal w) - 1)))
    as (w' & -> & Hi' & Hk & Hn & _ & _ & Hb' & Hs' & Hu' & Hf').
  pose proof (li_base _ _ _ Hi). pose proof (li_next _ _ _ Hi). pose proof (li_max _ _ _ Hi).
  pose proof (li_flushed _ _ _ Hi) as Hf. rewrite (wrap_small 64) in Hf' by lia.
  assert (flushed_lsn (wal w') = next_lsn (wal w) - 1) as Hf1.
  { rewrite Hf'. destruct (Z.leb_spec (next_lsn (wal w) - 1) (flushed_lsn (wal w))); lia. }
  rewrite Ret_bind. eexists. split; [reflexivity|]. split_and!.
  - destruct Hi'. constructor; try done.
    exists buf, 0%nat. cbn [wal set_wal set_buffer log_buffer buffer_size buffer_used next_lsn
      flushed_lsn]. split_and!; try done; try congruence; [lia..|intros j Hj; lia].
  - destruct Hk. constructor; done.
  - done.
  - cbn. lia.
  - cbn. done.
Qed.

(** The second half: the record goes behind the newest one. *)
Definition put_record (record : wal_record) (w : wst) : outcome (Z * wst) :=
  w ← buffer_put record w;
  let w := if rtype record =? WAL_CHECKPOINT
           then set_wal w (set_ckpt_lsn (wal w) (lsn record)) else w in
  let m := wal w in
  let w := set_wal w (set_lsns m (u64 (next_lsn m + 1)) (flushed_lsn m)) in
  let m := wal w in
  let log_used := if checkpoint_lsn m =? 0 then u64 (next_lsn m - 1)
                  else u64 (next_lsn m - checkpoint_lsn m) in
  let w := if (WAL_LOG_SECTORS * 3 / 4 <=? log_used) && negb (checkpointing m)
           then set_pending w true else w in
  Ret (lsn record, w).

Lemma append_split record w :
  wal_append_record record w =
  (w' ← make_room w; put_record (seal (with_lsn record (next_lsn (wal w)))) w').
Proof. reflexivity. Qed.

(** [log_inv] does not depend on the flags the end of an append may set. *)
Lemma log_inv_flags base hist w c p :
  log_inv base hist w → log_inv base hist (set_pending (set_wal w (set_ckpt_lsn (wal w) c)) p).
Proof. intros []. by constructor. Qed.

Lemma put_record_run base hist w record :
  log_inv base hist w → buffer_used (wal w) + REC_SIZE ≤ WAL_BUFFER_SIZE →
  next_lsn (wal w) + 1 < 2 ^ 64 → lsn record = next_lsn (wal w) →
  rec_ok record → checksum_ok record = true →
  ∃ w', put_record record w = Ret (next_lsn (wal w), w') ∧
    log_inv base (hist ++ [record]) w' ∧ keeps w w' ∧
    next_lsn (wal w') = next_lsn (wal w) + 1 ∧ flushed_lsn (wal w') = flushed_lsn (wal w).
Proof.
  intros Hi Hroom Hmax Hlsn Hrok Hcs. pose proof (log_inv_wf _ _ _ Hi) as Hwf.
  destruct (li_buffer _ _ _ Hi) as (buf & k & Hb & Hlb & Hsz & Hus & Hk8 & Hkh & Hfl & Hbuf).
  unfold put_record, buffer_put. rewrite Hb.
  assert (buffer_used (wal w) / REC_SIZE = Z.of_nat k) as Hidx.
  { rewrite Hus. unfold REC_SIZE. rewrite Z.mul_comm, Z.div_mul; lia. }
  unfold REC_SIZE, WAL_BUFFER_SIZE, BLOCK_SECTOR_SIZE in Hroom, Hus.
  rewrite Hidx, array_set_in, !Ret_bind by (rewrite Hlb; lia). cbn beta zeta. rewrite Nat2Z.id.
  set (m := mk_wal (next_lsn (wal w) + 1) (flushed_lsn (wal w)) (next_txn_id (wal w))
                   (Some (<[k := record]> buf)) (buffer_size (wal w))
                   (buffer_used (wal w) + REC_SIZE) (active_txns (wal w))
                   (checkpoint_lsn (wal w)) (checkpointing (wal w)) (wstats (wal w))).
  assert (log_inv base (hist ++ [record]) (set_wal w m)) as Hm.
  { pose proof (li_hist _ _ _ Hi) as Hh. pose proof (li_disk _ _ _ Hi) as Hd.
    pose proof (li_next _ _ _ Hi). pose proof (li_flushed _ _ _ Hi). destruct Hi.
    constructor; unfold m; try done.
    - cbn. rewrite length_app. cbn [length]. lia.
    - intros i r [Hr|[Hge Hr]]%lookup_app_Some; [by apply Hh|].
      apply list_lookup_singleton_Some in Hr as [Hi0 <-]. split_and!; [lia|done..].
    - cbn. lia.
    - exists (<[k := record]> buf), (S k).
      cbn [wal set_wal log_buffer buffer_size buffer_used next_lsn flushed_lsn].
      rewrite length_insert, length_app. cbn [length]. unfold REC_SIZE.
      split_and!; try done; try lia.
      intros j Hj. replace (length hist + 1 - S k + j)%nat with (length hist - k + j)%nat by lia.
      destruct (decide (j = k)) as [->|Hne].
      + rewrite list_lookup_insert_eq, lookup_app_r by lia.
        by replace (length hist - k + k - length hist)%nat with 0%nat by lia.
      + rewrite list_lookup_insert_ne, lookup_app_l by lia. apply Hbuf. lia.
    - cbn [wal set_wal flushed_lsn]. intros i r [Hr|[Hge Hr]]%lookup_app_Some Hwin.
      + by apply (Hd i).
      + apply list_lookup_singleton_Some in Hr as [Hi0 <-]. lia. }
  assert (keeps w (set_wal w m)) as Hkeep.
  { pose proof (keeps_refl w Hwf) as []. by constructor. }
  pose proof (li_base _ _ _ Hi). pose proof (li_next _ _ _ Hi).
  eexists. split; [rewrite <- Hlsn; reflexivity|].
  cbn [wal set_wal set_ckpt_lsn next_lsn].
  destruct (rtype record =? WAL_CHECKPOINT); cbn [wal set_wal set_lsns set_ckpt_lsn set_buffer
    next_lsn flushed_lsn checkpoint_lsn checkpointing]; rewrite (wrap_small 64 (_ + 1)) by lia;
    match goal with |- context [if ?b then set_pending _ true else _] => destruct b end;
    (split_and!; [|destruct Hkeep; by constructor|done..]); destruct Hm; by constructor.
Qed.

Lemma wal_append_run base hist w record :
  log_inv base hist w → next_lsn (wal w) + 1 < 2 ^ 64 →
  rec_ok (with_lsn record (next_lsn (wal w))) →
  ∃ w', wal_append_record record w = Ret (next_lsn (wal w), w') ∧
    log_inv base (hist ++ [seal (with_lsn record (next_lsn (wal w)))]) w' ∧ keeps w w' ∧
    next_lsn (wal w') = next_lsn (wal w) + 1 ∧
    flushed_lsn (wal w) ≤ flushed_lsn (wal w').
Proof.
  intros Hi Hmax Hok. rewrite append_split.
  destruct (make_room_run base hist w Hi) as (w1 & -> & Hi1 & Hk1 & Hn1 & Hf1 & Hroom).
  rewrite Ret_bind. destruct (seal_ok _ Hok) as [Hsok Hcs].
  destruct (put_record_run base hist w1 (seal (with_lsn record (next_lsn (wal w)))))
    as (w2 & Hr & Hi2 & Hk2 & Hn2 & Hf2); try done; try lia.
  rewrite Hr, Hn1. exists w2. split_and!; try done; [by eapply keeps_trans|lia..].
Qed.

(** A flush up to the newest record puts the whole history on disk. *)
Lemma flush_all_run base hist w u :
  log_inv base hist w → u = next_lsn (wal w) - 1 →
  ∃ w', wal_flush u w = Ret w' ∧ log_inv base hist w' ∧ keeps w w' ∧
    next_lsn (wal w') = next_lsn (wal w) ∧ flushed_lsn (wal w') = next_lsn (wal w') - 1 ∧
    checkpoint_pending w' = checkpoint_pending w.
Proof.
  intros Hi Hu. destruct (wal_flush_run base hist w Hi u)
    as (w' & Hr & Hi' & Hk & Hn & _ & Hp & _ & _ & _ & Hf). exists w'. split_and!; try done.
  pose proof (li_flushed _ _ _ Hi). destruct (Z.leb_spec u (flushed_lsn (wal w))); lia.
Qed.

(** ** Working through the cache *)

(** The log invariant survives cache operations that leave log sectors alone. *)
Lemma log_inv_fs base hist w c :
  log_inv base hist w → Cache.cache_inv c → no_log_cached c →
  block_size (Cache.fs_device c) = block_size (dev w) →
  (∀ s, 0 ≤ s → log_area s → Cache.cview c s = Cache.cview (fs w) s) →
  log_inv base hist (set_fs w c).
Proof.
  intros [] Hc Hn Hsz Hv. constructor; try done.
  - intros i r Hr Hwin. pose proof (log_sector_bound (lsn r)).
    pose proof (log_sector_area (lsn r)) as Ha. rewrite <- (li_disk0 i r Hr Hwin).
    unfold dev. rewrite <- (Cache.cview_none (fs w)), <- Hv, (Cache.cview_none c); try done; try lia.
    + intros n e Hh. apply (Hn (log_sector (lsn r))); [by exists n, e|done].
    + intros n e Hh. apply (li_nolog0 (log_sector (lsn r))); [by exists n, e|done].
  - change (dev (set_fs w c)) with (Cache.fs_device c). lia.
Qed.

Lemma no_log_within P c c' :
  no_log_cached c → Cache.cached_within P c c' → (∀ s, P s → ¬ log_area s) → no_log_cached c'.
Proof. intros Hn Hw HP s [?|?]%Hw; auto. Qed.

(** [wview w] is the file system's view of the disk; two states agree on it when
    they agree on every sector outside the log. *)
Definition same_view (w w' : wst) : Prop :=
  block_size (dev w') = block_size (dev w) ∧
  ∀ s, 0 ≤ s → ¬ log_area s → Cache.cview (fs w') s = Cache.cview (fs w) s.

#[global] Instance same_view_preorder : PreOrder same_view.
Proof.
  split.
  - by intros w.
  - intros w1 w2 w3 [H1 H2] [H3 H4]. split; [congruence|]. intros s Hs Hl. by rewrite H4, H2.
Qed.

Lemma keeps_same_view base hist w w' : log_inv base hist w → keeps w w' → same_view w w'.
Proof.
  intros [] Hk. split; [apply (k_dev _ _ Hk)|]. intros. by apply keeps_view.
Qed.

Lemma cache_flush_log base hist w :
  log_inv base hist w →
  ∃ c, Cache.cache_flush (fs w) = Ret c ∧ log_inv base hist (set_fs w c) ∧
    same_view w (set_fs w c) ∧
    ∀ s, 0 ≤ s → sector_of (dev (set_fs w c)) s = Cache.cview (fs w) s.
Proof.
  intros Hi. destruct (Cache.cache_flush_run (fs w) (li_cache _ _ _ Hi)) as (c & Hr & Hc & [Hsz Hv] & Hd).
  exists c. split_and!; try done.
  - apply log_inv_fs; try done; [|intros; by apply Hv].
    apply (no_log_within (λ _, False) (fs w)); [apply Hi| |done].
    by apply Cache.cache_flush_within.
  - split; [done|]. intros. by apply Hv.
Qed.

(** ** Checkpoint and commit *)

Lemma log_inv_checkpointing base hist w b :
  log_inv base hist w → log_inv base hist (set_wal w (set_checkpointing (wal w) b)).
Proof. intros []. by constructor. Qed.

Lemma wal_checkpoint_run base hist w :
  log_inv base hist w → next_lsn (wal w) + 1 < 2 ^ 64 → checkpointing (wal w) = false →
  ∃ w', wal_checkpoint w = Ret w' ∧
    log_inv base (hist ++ [seal (with_lsn (control_rec WAL_CHECKPOINT 0) (next_lsn (wal w)))]) w' ∧
    same_view w w' ∧ flushed_lsn (wal w') = next_lsn (wal w') - 1 ∧
    txns w' = txns w ∧ checkpointing (wal w') = false ∧
    ∀ s, 0 ≤ s → ¬ log_area s → sector_of (dev w') s = Cache.cview (fs w) s.
Proof.
  intros Hi Hmax Hck. unfold wal_checkpoint. rewrite Hck. cbn zeta.
  set (w0 := set_wal w (set_checkpointing (wal w) true)).
  pose proof (log_inv_checkpointing _ _ _ true Hi : log_inv base hist w0) as Hi0.
  destruct (cache_flush_log base hist w0 Hi0) as (c & Hc & Hi1 & Hv1 & Hd1).
  change (fs w0) with (fs w) in *. rewrite Hc, Ret_bind.
  pose proof (li_base _ _ _ Hi). pose proof (li_next _ _ _ Hi).
  change (next_lsn (wal (set_fs w0 c))) with (next_lsn (wal w)).
  rewrite (proj2 (Z.ltb_lt 0 (next_lsn (wal w)))) by lia.
  rewrite (wrap_small 64 (next_lsn (wal w) - 1)) by lia.
  destruct (flush_all_run base hist (set_fs w0 c) (next_lsn (wal w) - 1) Hi1 eq_refl)
    as (w2 & -> & Hi2 & Hk2 & Hn2 & Hf2 & _). rewrite Ret_bind.
  change (next_lsn (wal (set_fs w0 c))) with (next_lsn (wal w)) in *.
  destruct (wal_append_run base hist w2 (control_rec WAL_CHECKPOINT 0) Hi2)
    as (w3 & -> & Hi3 & Hk3 & Hn3 & _);
    [lia|apply control_rec_ok; unfold WAL_CHECKPOINT; lia|]. rewrite Ret_bind. cbn beta iota.
  rewrite (wrap_small 64 (next_lsn (wal w3) - 1)) by lia.
  destruct (flush_all_run _ _ w3 (next_lsn (wal w3) - 1) Hi3 eq_refl)
    as (w4 & -> & Hi4 & Hk4 & Hn4 & Hf4 & _). rewrite Ret_bind.
  rewrite Hn2 in Hi4. eexists. split; [reflexivity|].
  pose proof (keeps_trans _ _ _ Hk2 (keeps_trans _ _ _ Hk3 Hk4)) as Hk.
  pose proof (keeps_same_view _ _ _ _ Hi1 Hk) as Hv.
  split_and!; try done.
  - by apply log_inv_checkpointing.
  - transitivity (set_fs w0 c); [exact Hv1|]. exact Hv.
  - change (txns w4 = txns w). rewrite (k_txns _ _ Hk). done.
  - intros s Hs Hl. destruct (k_dev _ _ Hk) as (_ & _ & Hsec).
    change (dev (set_wal w4 _)) with (dev w4). rewrite Hsec by done. by apply Hd1.
Qed.

Lemma log_inv_txns base hist w t a cur p :
  log_inv base hist w → log_inv base hist (mk_w (wal w) p (fs w) t a cur).
Proof. intros []. by constructor. Qed.

Lemma log_inv_finish base hist w h count :
  log_inv base hist w → log_inv base hist (txn_finish h count w).
Proof. intros []. by constructor. Qed.

Lemma wal_txn_commit_run base hist w h t :
  log_inv base hist w → txns w !! h = Some t → t_state t = TXN_ACTIVE →
  0 ≤ t_id t < 2 ^ 32 → next_lsn (wal w) + 2 < 2 ^ 64 →
  let cr := seal (with_lsn (control_rec WAL_COMMIT (t_id t)) (next_lsn (wal w))) in
  ∃ w' tail, wal_txn_commit (Some h) w = Ret (true, w') ∧
    log_inv base (hist ++ cr :: tail) w' ∧ (length tail ≤ 1)%nat ∧ same_view w w' ∧
    flushed_lsn (wal w') = next_lsn (wal w') - 1 ∧ txns w' = delete h (txns w).
Proof.
  intros Hi Ht Ha Hid Hmax cr. unfold wal_txn_commit, txn_get. rewrite Ht, Ret_bind, Ha. cbn [negb].
  rewrite bool_decide_eq_true_2 by done. cbn [negb].
  destruct (wal_append_run base hist w (control_rec WAL_COMMIT (t_id t)) Hi)
    as (w1 & -> & Hi1 & Hk1 & Hn1 & _);
    [lia|pose proof (li_base _ _ _ Hi); pose proof (li_next _ _ _ Hi);
         apply control_rec_ok; unfold WAL_COMMIT; lia|]. fold cr in Hi1.
  rewrite Ret_bind. cbn beta iota.
  destruct (flush_all_run _ _ w1 (next_lsn (wal w)) Hi1) as (w2 & -> & Hi2 & Hk2 & Hn2 & Hf2 & _);
    [lia|]. rewrite Ret_bind. cbn beta zeta.
  pose proof (keeps_trans _ _ _ Hk1 Hk2) as Hk. pose proof (keeps_same_view _ _ _ _ Hi Hk) as Hv.
  set (w3 := txn_finish h count_committed (txn_put h _ w2)).
  assert (log_inv base (hist ++ [cr]) w3) as Hi3.
  { apply log_inv_finish. by apply (log_inv_txns _ _ w2). }
  assert (txns w3 = delete h (txns w)) as Ht3.
  { cbn. rewrite delete_insert_eq, (k_txns _ _ Hk). done. }
  destruct (checkpoint_pending w3).
  2: { exists w3, []. split_and!; done || (simpl; lia). }
  set (w4 := mk_w (wal w3) false (fs w3) (txns w3) (next_addr w3) None).
  assert (log_inv base (hist ++ [cr]) w4) as Hi4 by by apply (log_inv_txns _ _ w3).
  destruct (checkpointing (wal w4)) eqn:Hck.
  { unfold wal_checkpoint. rewrite Hck. exists w4, []. split_and!; done || (simpl; lia). }
  assert (next_lsn (wal w4) = next_lsn (wal w) + 1) as Hn4 by (cbn; lia).
  destruct (wal_checkpoint_run _ _ w4 Hi4 ltac:(lia) Hck)
    as (w5 & -> & Hi5 & Hv5 & Hf5 & Ht5 & _). rewrite Ret_bind.
  rewrite <- app_assoc in Hi5. eexists w5, _. split; [reflexivity|]. split; [exact Hi5|].
  split_and!; [simpl; lia| |done|by rewrite Ht5].
  transitivity w4; [exact Hv|exact Hv5].
Qed.

(** ** Reading records back *)

Lemma log_inv_read base hist w d :
  log_inv base hist w → sectors d = sectors (dev w) → type d = type (dev w) →
  log_inv base hist (set_dev w d) ∧ keeps w (set_dev w d).
Proof.
  intros Hi Hs Ht. pose proof (log_inv_wf _ _ _ Hi) as Hwf.
  assert (dev_frame (dev w) d) as Hd.
  { unfold dev_frame, block_size, sector_of, wf in *. rewrite Hs, Ht. done. }
  destruct (cache_dev_frame _ _ (li_cache _ _ _ Hi) (li_nolog _ _ _ Hi) Hd) as (Hc & Hn & _).
  split; [|by constructor]. destruct Hi. constructor; try done.
  - intros i r Hr Hwin. rewrite <- (li_disk0 i r Hr Hwin). unfold sector_of.
    change (dev (set_dev w d)) with d. by rewrite Hs.
  - destruct Hd as [Hsz _]. change (dev (set_dev w d)) with d. lia.
Qed.

(** A record among the 64 newest flushed ones is read back as it was appended. *)
Lemma wal_read_run base hist w i r :
  log_inv base hist w → hist !! i = Some r →
  lsn r ≤ flushed_lsn (wal w) < lsn r + WAL_LOG_SECTORS →
  ∃ d, wal_read_record (lsn r) w = Ret (Some r, set_dev w d) ∧
    sectors d = sectors (dev w) ∧ type d = type (dev w).
Proof.
  intros Hi Hr Hwin. destruct (hist_max _ _ _ _ _ Hi Hr) as [Hb _].
  destruct (li_hist _ _ _ Hi i r Hr) as (_ & Hok & Hcs).
  unfold wal_read_record. rewrite (proj2 (Z.eqb_neq (lsn r) 0)) by lia.
  pose proof (log_sector_bound (lsn r)). pose proof (li_size _ _ _ Hi) as Hsz.
  unfold WAL_METADATA_SECTOR, WAL_LOG_START_SECTOR, WAL_LOG_SECTORS in Hsz.
  destruct (block_read_spec (dev w) (log_sector (lsn r)) ltac:(lia)) as (d & -> & Hs & Ht).
  exists d. rewrite Ret_bind. cbn beta iota zeta. rewrite (li_disk _ _ _ Hi i r Hr Hwin).
  rewrite decode_encode, Z.eqb_refl, Hcs by done. done.
Qed.

(** ** Logging a write *)

(** The records a write of [len] bytes at [ofs] is split into, before they get
    their LSNs: consecutive chunks of at most 232 bytes. *)
Definition chunk_count (len : Z) : nat := Z.to_nat (DIV_ROUND_UP len WAL_MAX_DATA_SIZE).

Definition chunk_size (len : Z) (k : nat) : Z := Z.min 232 (len - 232 * Z.of_nat k).

Definition chunk_rec (id sec : Z) (old new : list Z) (ofs len : Z) (k : nat) : wal_record :=
  let n := Z.to_nat (chunk_size len k) in
  mk_rec 0 id WAL_WRITE 0 sec (ofs + 232 * Z.of_nat k) (chunk_size len k)
    (splice (replicate 232 0) 0 (slice old (232 * k) n))
    (splice (replicate 232 0) 0 (slice new (232 * k) n)) (replicate 20 0).

Definition chunk_recs (id sec : Z) (old new : list Z) (ofs len : Z) : list wal_record :=
  chunk_rec id sec old new ofs len <$> seq 0 (chunk_count len).

(** Consecutive LSNs from [l] on, and the checksums. *)
Fixpoint stamp (l : Z) (recs : list wal_record) : list wal_record :=
  match recs with
  | [] => []
  | r :: recs => seal (with_lsn r l) :: stamp (l + 1) recs
  end.

Lemma chunk_count_spec len :
  0 ≤ len → 232 * (Z.of_nat (chunk_count len) - 1) < len ≤ 232 * Z.of_nat (chunk_count len) ∨
            (len = 0 ∧ chunk_count len = 0%nat).
Proof.
  intros. unfold chunk_count, DIV_ROUND_UP, WAL_MAX_DATA_SIZE.
  destruct (decide (len = 0)) as [->|]; [right; done|left].
  pose proof (Z.div_mod (len + 232 - 1) 232 ltac:(lia)).
  pose proof (Z.mod_pos_bound (len + 232 - 1) 232 ltac:(lia)). rewrite Z2Nat.id; lia.
Qed.

Lemma chunk_rec_ok id sec old new ofs len k l :
  0 ≤ id < 2 ^ 32 → 0 ≤ sec < 2 ^ 32 → 0 ≤ ofs → ofs + len ≤ 512 →
  Forall is_byte old → Forall is_byte new →
  len ≤ Z.of_nat (length old) → len ≤ Z.of_nat (length new) →
  (k < chunk_count len)%nat → 0 ≤ len → 1 ≤ l < 2 ^ 64 →
  rec_ok (with_lsn (chunk_rec id sec old new ofs len k) l).
Proof.
  intros Hid Hsec Ho Hlen Hbo Hbn Hlo Hln Hk Hl0 Hl.
  pose proof (chunk_count_spec len Hl0) as Hc.
  assert (0 < chunk_size len k ≤ 232 ∧ 232 * Z.of_nat k + chunk_size len k ≤ len) as [Hs1 Hs2]
    by (unfold chunk_size; lia).
  assert (∀ b, Forall is_byte b → len ≤ Z.of_nat (length b) →
    length (splice (replicate 232 0) 0 (slice b (232 * k) (Z.to_nat (chunk_size len k)))) = 232%nat ∧
    Forall is_byte (splice (replicate 232 0) 0 (slice b (232 * k) (Z.to_nat (chunk_size len k))))).
  { intros b Hb Hlb. split.
    - rewrite length_splice; rewrite length_replicate; [done|]. rewrite length_slice; lia.
    - apply Forall_splice; [apply Forall_replicate; unfold is_byte; lia|by apply Forall_slice]. }
  unfold chunk_rec. constructor; rec_simpl; try lia; auto.
  - unfold WAL_WRITE. lia.
  - split; [apply length_replicate|]. apply Forall_replicate. unfold is_byte. lia.
Qed.

(** What appending to the log for a transaction keeps: like [keeps], but for the
    transaction's own [last_lsn]. *)
Definition keeps_txn (h : nat) (t : wal_txn) (w w' : wst) : Prop :=
  ∃ l, keeps (set_txns w (<[h := mk_txn (t_id t) (t_state t) (first_lsn t) l]> (txns w))) w'.

Section log_write.
Context (base : Z) (h : nat) (sec : Z) (old new : list Z) (ofs len id : Z).
Context (Hid : 0 ≤ id < 2 ^ 32) (Hsec : 0 ≤ sec < 2 ^ 32) (Ho : 0 ≤ ofs) (Hlen : 0 ≤ len)
        (Hend : ofs + len ≤ 512).
Context (Hbo : Forall is_byte old) (Hbn : Forall is_byte new)
        (Hlo : len ≤ Z.of_nat (length old)) (Hln : len ≤ Z.of_nat (length new)).

Local Abbreviation crec := (chunk_rec id sec old new ofs len).

(** One iteration builds the record of chunk [k]. *)
Lemma log_write_step fuel k t w :
  (k < chunk_count len)%nat → t_id t = id →
  log_write_loop (S fuel) h t sec old new ofs len (232 * Z.of_nat k) w =
  ('(l, w) ← wal_append_record (crec k) w;
   let t := mk_txn (t_id t) (t_state t) (first_lsn t) l in
   log_write_loop fuel h t sec old new ofs len (Z.min len (232 * Z.of_nat (S k))) (txn_put h t w)).
Proof using Hid Hsec Ho Hlen Hend Hlo Hln.
  intros Hk Ht. pose proof (chunk_count_spec len Hlen) as Hc.
  assert (0 < chunk_size len k ≤ 232 ∧ 232 * Z.of_nat k + chunk_size len k = Z.min len (232 * Z.of_nat (S k)))
    as [Hs1 Hs2] by (unfold chunk_size; lia).
  cbn [log_write_loop]. rewrite (proj2 (Z.ltb_lt (232 * Z.of_nat k) len)) by lia.
  rewrite (wrap_small 16 (len - 232 * Z.of_nat k)) by lia. cbn zeta.
  replace (if WAL_MAX_DATA_SIZE <? len - 232 * Z.of_nat k then WAL_MAX_DATA_SIZE
           else len - 232 * Z.of_nat k) with (chunk_size len k).
  2: { unfold chunk_size, WAL_MAX_DATA_SIZE. destruct (Z.ltb_spec 232 (len - 232 * Z.of_nat k)); lia. }
  replace (Z.to_nat (232 * Z.of_nat k)) with (232 * k)%nat by lia.
  unfold memcpy_from. rewrite !(proj2 (Nat.leb_le _ _)) by lia. rewrite !Ret_bind.
  rewrite (wrap_small 16 (ofs + _)), (wrap_small 16 (_ + chunk_size len k)), Hs2, Ht by lia.
  unfold chunk_rec. done.
Qed.

Lemma log_write_loop_run n fuel k t hist w :
  (k + n = chunk_count len)%nat → (n ≤ fuel)%nat → t_id t = id → txns w !! h = Some t →
  log_inv base hist w → next_lsn (wal w) + Z.of_nat n < 2 ^ 64 →
  ∃ w', log_write_loop fuel h t sec old new ofs len (Z.min len (232 * Z.of_nat k)) w = Ret w' ∧
    log_inv base (hist ++ stamp (next_lsn (wal w)) (crec <$> seq k n)) w' ∧
    next_lsn (wal w') = next_lsn (wal w) + Z.of_nat n ∧ keeps_txn h t w w'.
Proof.
  pose proof (chunk_count_spec len Hlen) as Hc.
  revert fuel k t hist w. induction n as [|n IH]; intros fuel k t hist w Hkn Hf Ht Hh Hi Hmax.
  { exists w. replace (Z.min len (232 * Z.of_nat k)) with len by lia.
    assert (log_write_loop fuel h t sec old new ofs len len w = Ret w) as ->
      by (destruct fuel; cbn [log_write_loop]; by rewrite Z.ltb_irrefl).
    cbn [seq fmap list_fmap stamp]. rewrite app_nil_r. split_and!; try done; [lia|].
    exists (last_lsn t). destruct t as [ti ts tf tl]. cbn [t_id t_state first_lsn last_lsn].
    rewrite insert_id by done. destruct (keeps_refl w (log_inv_wf _ _ _ Hi)). by constructor. }
  destruct fuel as [|fuel]; [lia|]. pose proof (li_base _ _ _ Hi). pose proof (li_next _ _ _ Hi).
  rewrite Z.min_r by lia. rewrite log_write_step by (done || lia).
  destruct (wal_append_run base hist w (crec k) Hi) as (w1 & -> & Hi1 & Hk1 & Hn1 & _);
    [lia|apply chunk_rec_ok; done || lia|].
  rewrite Ret_bind. cbn beta iota zeta.
  set (t1 := mk_txn (t_id t) (t_state t) (first_lsn t) (next_lsn (wal w))).
  destruct (IH fuel (S k) t1 (hist ++ [seal (with_lsn (crec k) (next_lsn (wal w)))]) (txn_put h t1 w1)) as (w2 & Hr & Hi2 & Hn2 & l & Hk2).
  - lia.
  - lia.
  - done.
  - cbn. apply lookup_insert_eq.
  - apply (log_inv_txns _ _ w1). exact Hi1.
  - cbn. lia.
  - exists w2. split; [exact Hr|]. change (next_lsn (wal (txn_put h t1 w1))) with (next_lsn (wal w1)) in *.
    rewrite Hn1 in Hi2. cbn [seq fmap list_fmap stamp]. rewrite <- app_assoc in Hi2.
    split_and!; [exact Hi2|lia|]. exists l. destruct Hk1, Hk2. constructor; try done.
    + rewrite k_txns1. cbn. rewrite insert_insert_eq. by rewrite k_txns0.
    + rewrite k_addr1. done.
    + rewrite k_cur1. done.
    + rewrite k_id1. done.
    + rewrite k_active1. done.
    + rewrite k_ckpt1. done.
    + rewrite k_stats1. done.
    + rewrite k_fs1. cbn. rewrite k_fs0. done.
    + eapply dev_frame_trans; [exact k_dev0|exact k_dev1].
Qed.

Lemma wal_log_write_run t hist w :
  txns w !! h = Some t → t_id t = id → t_state t = TXN_ACTIVE → log_inv base hist w →
  next_lsn (wal w) + Z.of_nat (chunk_count len) < 2 ^ 64 →
  ∃ w', wal_log_write (Some h) sec old new ofs len w = Ret (true, w') ∧
    log_inv base (hist ++ stamp (next_lsn (wal w)) (chunk_recs id sec old new ofs len)) w' ∧
    next_lsn (wal w') = next_lsn (wal w) + Z.of_nat (chunk_count len) ∧
    (∃ l, txns w' = <[h := mk_txn id TXN_ACTIVE (first_lsn t) l]> (txns w)) ∧
    fs w' = Cache.with_device (fs w) (dev w') ∧ current_txn w' = current_txn w ∧ same_view w w'.
Proof.
  intros Hh Ht Ha Hi Hmax. unfold wal_log_write, txn_get. rewrite Hh, Ret_bind, Ha.
  rewrite bool_decide_eq_true_2 by done. cbn [negb].
  destruct (log_write_loop_run (chunk_count len) (Z.to_nat len) 0 t hist w)
    as (w1 & Hr & Hi1 & Hn1 & l & Hk1); try done.
  { unfold chunk_count, DIV_ROUND_UP, WAL_MAX_DATA_SIZE. apply Z2Nat.inj_le; [|lia|].
    - apply Z.div_pos; lia.
    - destruct (decide (len = 0)) as [->|]; [done|]. apply Z.div_le_upper_bound; lia. }
  change (232 * Z.of_nat 0) with 0 in Hr. rewrite Z.min_r in Hr by lia. rewrite Hr, Ret_bind.
  eexists. split; [reflexivity|]. destruct Hk1. split_and!.
  - destruct Hi1. by constructor.
  - done.
  - exists l. cbn. by rewrite k_txns0, Ht, Ha.
  - cbn. rewrite k_fs0. done.
  - done.
  - split; [apply k_dev0|]. intros s Hs Hl. cbn. rewrite k_fs0.
    apply (cache_dev_frame (fs w) (dev w1)); try done; apply Hi.
Qed.
End log_write.
End WalProofs.
