(* ===== verification/WalTxn.v ===== *)
(** * Write-ahead log: transactions

    Transactions as the file system runs them: begin, writes that are logged
    before they reach the cache, and abort or commit.  An aborted transaction
    leaves the disk as it found it; a committed one is on disk in full. *)

From stdpp Require Import base tactics numbers list list_numbers option gmap.
From S2P Require Import Prelude Block Cache WalRecord Wal WalProofs.

Open Scope Z_scope.

Module WalTxn.
Import Block WalRecord Wal WalProofs.

(** ** Logged writes *)

(** The body of the loop of [inode_write_at] under a transaction: the old bytes
    are read, old and new bytes are logged, then the new bytes are stored. *)
Definition logged_write (h : nat) (sec ofs : Z) (buf : list Z) (n : Z) (w : wst) : outcome wst :=
  '(old, c) ← Cache.cache_read_at sec ofs n (fs w);
  '(_, w) ← wal_log_write (Some h) sec old buf ofs n (set_fs w c);
  c ← Cache.cache_write sec buf ofs n (fs w);
  Ret (set_fs w c).

(** A sequence of such writes. *)
Record write_op := mk_op { op_sector : Z; op_offset : Z; op_data : list Z }.

Definition op_length (x : write_op) : Z := Z.of_nat (length (op_data x)).

Fixpoint run_writes (h : nat) (ops : list write_op) (w : wst) : outcome wst :=
  match ops with
  | [] => Ret w
  | x :: ops =>
      w ← logged_write h (op_sector x) (op_offset x) (op_data x) (op_length x) w;
      run_writes h ops w
  end.

(** A write inside one sector of the device, outside the log. *)
Record op_ok (size : Z) (x : write_op) : Prop := {
  op_sec : 0 ≤ op_sector x < size ∧ op_sector x < 2 ^ 32;
  op_nolog : ¬ log_area (op_sector x);
  op_range : 0 ≤ op_offset x ∧ 0 < op_length x ∧ op_offset x + op_length x ≤ 512;
  op_bytes : Forall is_byte (op_data x)
}.

(** What the writes leave on a view of the disk. *)
Definition op_view (x : write_op) (v : Z → list Z) (s : Z) : list Z :=
  if s =? op_sector x then splice (v s) (Z.to_nat (op_offset x)) (op_data x) else v s.

Definition write_view (ops : list write_op) (v : Z → list Z) : Z → list Z :=
  foldl (λ v x, op_view x v) v ops.

(** The records that log the writes, numbered from [l]: the write's sector, its
    offsets, the bytes the view held before it and the bytes it stores. *)
Definition op_records (id : Z) (x : write_op) (v : Z → list Z) : list wal_record :=
  chunk_recs id (op_sector x)
    (slice (v (op_sector x)) (Z.to_nat (op_offset x)) (Z.to_nat (op_length x)))
    (op_data x) (op_offset x) (op_length x).

Fixpoint write_records (id l : Z) (ops : list write_op) (v : Z → list Z) : list wal_record :=
  match ops with
  | [] => []
  | x :: ops =>
      stamp l (op_records id x v) ++
      write_records id (l + Z.of_nat (chunk_count (op_length x))) ops (op_view x v)
  end.

(** Views that agree outside the log. *)
Definition views_agree (v1 v2 : Z → list Z) : Prop := ∀ s, 0 ≤ s → ¬ log_area s → v1 s = v2 s.

Lemma op_view_agree x v1 v2 : views_agree v1 v2 → views_agree (op_view x v1) (op_view x v2).
Proof. intros H s Hs Hl. unfold op_view. by rewrite H. Qed.

Lemma write_view_agree ops v1 v2 :
  views_agree v1 v2 → views_agree (write_view ops v1) (write_view ops v2).
Proof.
  revert v1 v2. induction ops as [|x ops IH]; intros v1 v2 H; [done|]. by apply IH, op_view_agree.
Qed.

Lemma write_records_agree size id l ops v1 v2 :
  Forall (op_ok size) ops → views_agree v1 v2 →
  write_records id l ops v1 = write_records id l ops v2.
Proof.
  intros Hok. revert l v1 v2. induction Hok as [|x ops Hx _ IH]; intros l v1 v2 H; [done|].
  destruct Hx as [[Hs _] Hl _ _]. cbn [write_records]. unfold op_records at 1 2.
  rewrite (H (op_sector x)) by (done || lia). f_equal. by apply IH, op_view_agree.
Qed.

Lemma stamp_length l rs : length (stamp l rs) = length rs.
Proof. revert l. induction rs; intros; simpl; auto. Qed.

Lemma write_records_length id l ops v :
  length (write_records id l ops v) = sum_list_with (λ x, chunk_count (op_length x)) ops.
Proof.
  revert l v. induction ops as [|x ops IH]; intros l v; [done|].
  cbn [write_records sum_list_with]. rewrite length_app, stamp_length, IH.
  unfold op_records, chunk_recs. by rewrite length_fmap, length_seq.
Qed.

(** ** Undoing records *)

(** One UNDO step on a view of the disk. *)
Definition undo1 (r : wal_record) (v : Z → list Z) (s : Z) : list Z :=
  if s =? rsector r
  then splice (v s) (Z.to_nat (offset r)) (take (Z.to_nat (rlength r)) (old_data r)) else v s.

(** All records undone, the newest first. *)
Definition undo_view (recs : list wal_record) (v : Z → list Z) : Z → list Z :=
  foldr undo1 v recs.

(** A record [cache_write] accepts. *)
Record undoable (size : Z) (r : wal_record) : Prop := {
  un_sec : 0 ≤ rsector r < size;
  un_nolog : ¬ log_area (rsector r);
  un_range : 0 ≤ offset r ∧ 0 < rlength r ∧ offset r + rlength r ≤ 512;
  un_len : rlength r ≤ Z.of_nat (length (old_data r))
}.

Lemma undo_view_app rs1 rs2 v : undo_view (rs1 ++ rs2) v = undo_view rs1 (undo_view rs2 v).
Proof. apply foldr_app. Qed.

(** The result at one sector depends on that sector only. *)
Lemma undo_view_local rs v1 v2 s : v1 s = v2 s → undo_view rs v1 s = undo_view rs v2 s.
Proof.
  intros Hv. induction rs as [|r rs IH]; simpl; [done|]. unfold undo1. by rewrite IH.
Qed.

Lemma undo_view_stamp l rs v s : undo_view (stamp l rs) v s = undo_view rs v s.
Proof.
  revert l. induction rs as [|r rs IH]; intros l; simpl; [done|].
  unfold undo1. rewrite IH. done.
Qed.

Lemma splice_take_pad {A} (x : list A) ofs (c : list A) (z : A) n :
  (length c ≤ n)%nat →
  splice x ofs (take (length c) (splice (replicate n z) 0 c)) = splice x ofs c.
Proof.
  intros Hc. unfold splice at 2. rewrite take_0, app_nil_l, take_app_length. done.
Qed.

Section chunks.
Context (id sec : Z) (v : list Z) (new : list Z) (ofs len : Z).
Context (Hv : length v = 512%nat) (Ho : 0 ≤ ofs) (Hlen : 0 ≤ len) (Hend : ofs + len ≤ 512).

Local Abbreviation old := (slice v (Z.to_nat ofs) (Z.to_nat len)).
Local Abbreviation crec := (chunk_rec id sec old new ofs len).

Lemma chunk_old k :
  (k < chunk_count len)%nat →
  slice old (232 * k) (Z.to_nat (chunk_size len k)) =
  slice v (Z.to_nat ofs + 232 * k) (Z.to_nat (chunk_size len k)).
Proof using Hv Ho Hlen Hend.
  intros Hk. pose proof (chunk_count_spec len Hlen).
  assert (0 < chunk_size len k ∧ 232 * Z.of_nat k + chunk_size len k ≤ len) as [? ?]
    by (unfold chunk_size; lia).
  apply list_eq. intros i. destruct (decide (i < Z.to_nat (chunk_size len k))%nat).
  - rewrite !lookup_slice by lia. f_equal; lia.
  - unfold slice. rewrite !lookup_take_ge by lia. done.
Qed.

Lemma undo_chunk k u :
  (k < chunk_count len)%nat →
  undo1 (crec k) u sec =
  splice (u sec) (Z.to_nat ofs + 232 * k)
         (slice v (Z.to_nat ofs + 232 * k) (Z.to_nat (chunk_size len k))).
Proof using Hv Ho Hlen Hend.
  intros Hk. pose proof (chunk_count_spec len Hlen).
  assert (0 < chunk_size len k ≤ 232 ∧ 232 * Z.of_nat k + chunk_size len k ≤ len) as [? ?]
    by (unfold chunk_size; lia).
  unfold undo1, chunk_rec. rec_simpl. rewrite Z.eqb_refl, chunk_old by done.
  replace (Z.to_nat (ofs + 232 * Z.of_nat k)) with (Z.to_nat ofs + 232 * k)%nat by lia.
  set (c := slice v (Z.to_nat ofs + 232 * k) (Z.to_nat (chunk_size len k))). assert (length c = Z.to_nat (chunk_size len k)) as <-
    by (apply length_slice; lia). apply splice_take_pad. subst c. rewrite length_slice; lia.
Qed.

(** Undoing chunks [k], [k+1], ... restores exactly the bytes they cover. *)
Lemma undo_chunks_lookup n k u i :
  (k + n ≤ chunk_count len)%nat → length (u sec) = 512%nat →
  length (undo_view (crec <$> seq k n) u sec) = 512%nat ∧
  undo_view (crec <$> seq k n) u sec !! i =
  if decide (ofs + 232 * Z.of_nat k ≤ Z.of_nat i < ofs + Z.min len (232 * Z.of_nat (k + n)))
  then v !! i else u sec !! i.
Proof using Hv Ho Hlen Hend.
  pose proof (chunk_count_spec len Hlen) as Hc.
  revert k. induction n as [|n IH]; intros k Hk Hu; cbn [seq fmap list_fmap undo_view foldr].
  { split; [done|]. rewrite decide_False by lia. done. }
  destruct (IH (S k) ltac:(lia) Hu) as [IHl IHi]. fold (undo_view (crec <$> seq (S k) n) u) in *.
  rewrite undo_chunk by lia.
  assert (0 < chunk_size len k ≤ 232 ∧
          232 * Z.of_nat k + chunk_size len k = Z.min len (232 * Z.of_nat (S k))) as [? Hcs]
    by (unfold chunk_size; lia).
  set (c := slice v (Z.to_nat ofs + 232 * k) (Z.to_nat (chunk_size len k))). assert (length c = Z.to_nat (chunk_size len k)) as Hlc
    by (apply length_slice; lia).
  split; [rewrite length_splice; lia|].
  destruct (decide (Z.to_nat ofs + 232 * k ≤ i < Z.to_nat ofs + 232 * k + length c)%nat).
  - rewrite lookup_splice_in by lia. rewrite decide_True by lia. subst c.
    rewrite lookup_slice by lia. f_equal. lia.
  - rewrite lookup_splice_out by lia. rewrite IHi.
    repeat case_decide; try done; exfalso; lia.
Qed.

(** Undoing the records of one write takes back exactly that write. *)
Lemma undo_write_restores u s :
  length new = Z.to_nat len → (s = sec → u s = splice v (Z.to_nat ofs) new) →
  undo_view (chunk_recs id sec old new ofs len) u s = if s =? sec then v else u s.
Proof using Hv Ho Hlen Hend.
  intros Hn Hu. destruct (Z.eqb_spec s sec) as [->|Hne].
  - apply list_eq. intros i.
    assert (length (u sec) = 512%nat) as Hlu by (rewrite Hu, length_splice by (done || lia); done).
    unfold chunk_recs. destruct (undo_chunks_lookup (chunk_count len) 0 u i ltac:(lia) Hlu) as [_ ->].
    pose proof (chunk_count_spec len Hlen) as Hc.
    case_decide; [done|]. rewrite Hu, lookup_splice_out by (done || lia). done.
  - unfold chunk_recs. generalize (seq 0 (chunk_count len)). intros ks.
    induction ks as [|k ks IH]; simpl; [done|]. unfold undo1 at 1. rec_simpl. cbn [chunk_rec rsector].
    rewrite (proj2 (Z.eqb_neq s sec)) by done. exact IH.
Qed.
End chunks.

(** ** A transaction in progress *)

(** Since the transaction [h] began with record [b], the records [ws] were
    appended, all of them its own writes; undoing them gives the view [v0]. *)
Record in_txn (base : Z) (pre : list wal_record) (b : wal_record) (h : nat) (id : Z)
    (v0 : Z → list Z) (ws : list wal_record) (w : wst) : Prop := {
  it_log : log_inv base (pre ++ b :: ws) w;
  it_id : 0 ≤ id < 2 ^ 32;
  it_begin : rtype b = WAL_BEGIN;
  it_txn : ∃ l, txns w !! h = Some (mk_txn id TXN_ACTIVE (base + Z.of_nat (length pre)) l);
  it_writes : Forall (λ r, txn_id r = id ∧ rtype r = WAL_WRITE ∧ undoable (block_size (dev w)) r) ws;
  it_bytes : ∀ s, 0 ≤ s < block_size (dev w) → ¬ log_area s → Forall is_byte (Cache.cview (fs w) s);
  it_view : ∀ s, 0 ≤ s → ¬ log_area s → undo_view ws (Cache.cview (fs w)) s = v0 s
}.

Lemma cache_read_at_log base hist w s ofs n :
  log_inv base hist w → 0 ≤ s < block_size (dev w) → ¬ log_area s →
  0 ≤ ofs → 0 < n → ofs + n ≤ 512 →
  ∃ c, Cache.cache_read_at s ofs n (fs w) =
         Ret (slice (Cache.cview (fs w) s) (Z.to_nat ofs) (Z.to_nat n), c) ∧
    log_inv base hist (set_fs w c) ∧ same_view w (set_fs w c).
Proof.
  intros Hi Hs Hl Ho Hn Hle.
  destruct (Cache.cache_read_at_run (fs w) s (li_cache _ _ _ Hi) Hs ofs n Ho Hn Hle)
    as (c & Hr & Hc & [Hsz Hv]). exists c. split_and!; [done| |split; [done|intros; by apply Hv]].
  apply log_inv_fs; try done; [|intros; by apply Hv].
  eapply no_log_within; [apply Hi|by eapply Cache.cache_read_at_within|]. by intros ? ->.
Qed.

Lemma cache_write_log base hist w s buf ofs n :
  log_inv base hist w → 0 ≤ s < block_size (dev w) → ¬ log_area s →
  0 ≤ ofs → 0 < n → ofs + n ≤ 512 → n ≤ Z.of_nat (length buf) →
  ∃ c, Cache.cache_write s buf ofs n (fs w) = Ret c ∧ log_inv base hist (set_fs w c) ∧
    Cache.view_upd (fs w) c s
      (splice (Cache.cview (fs w) s) (Z.to_nat ofs) (take (Z.to_nat n) buf)).
Proof.
  intros Hi Hs Hl Ho Hn Hle Hb.
  destruct (Cache.cache_write_run (fs w) s (li_cache _ _ _ Hi) Hs buf ofs n Ho Hn Hle Hb)
    as (c & Hr & Hc & [Hsz Hv]). exists c. split_and!; [done| |split; [done|intros; by apply Hv]].
  apply log_inv_fs; try done.
  - eapply no_log_within; [apply Hi|by eapply Cache.cache_write_within|]. by intros ? ->.
  - intros s' Hs' Hl'. rewrite Hv by done. destruct (Z.eqb_spec s' s) as [->|]; done.
Qed.

Lemma chunk_recs_undoable id sec old new ofs len size l :
  0 ≤ sec < size → ¬ log_area sec → 0 ≤ ofs → 0 < len → ofs + len ≤ 512 →
  len ≤ Z.of_nat (length old) →
  Forall (λ r, txn_id r = id ∧ rtype r = WAL_WRITE ∧ undoable size r)
         (stamp l (chunk_recs id sec old new ofs len)).
Proof.
  intros Hs Hl Ho Hn He Hold. pose proof (chunk_count_spec len ltac:(lia)) as Hc.
  unfold chunk_recs.
  assert (∀ k n l, (k + n ≤ chunk_count len)%nat →
    Forall (λ r, txn_id r = id ∧ rtype r = WAL_WRITE ∧ undoable size r)
           (stamp l (chunk_rec id sec old new ofs len <$> seq k n))) as H; [|by apply H].
  clear l. intros k n. revert k. induction n as [|n IH]; intros k l Hk; [constructor|].
  cbn [seq fmap list_fmap stamp]. constructor; [|apply IH; lia].
  assert (0 < chunk_size len k ≤ 232 ∧ 232 * Z.of_nat k + chunk_size len k ≤ len) as [? ?]
    by (unfold chunk_size; lia).
  split_and!; [done|done|]. unfold chunk_rec, seal. rec_simpl. constructor; rec_simpl; try done; try lia.
  rewrite length_splice; rewrite length_replicate; [lia|]. rewrite length_slice; lia.
Qed.

(** One logged write keeps the transaction undoable. *)
Lemma logged_write_run base pre b h id v0 ws w x :
  in_txn base pre b h id v0 ws w → op_ok (block_size (dev w)) x →
  next_lsn (wal w) + Z.of_nat (chunk_count (op_length x)) < 2 ^ 64 →
  ∃ w', logged_write h (op_sector x) (op_offset x) (op_data x) (op_length x) w = Ret w' ∧
    in_txn base pre b h id v0
      (ws ++ stamp (next_lsn (wal w)) (op_records id x (Cache.cview (fs w)))) w' ∧
    views_agree (Cache.cview (fs w')) (op_view x (Cache.cview (fs w))) ∧
    next_lsn (wal w') = next_lsn (wal w) + Z.of_nat (chunk_count (op_length x)) ∧
    block_size (dev w') = block_size (dev w).
Proof.
  intros Ht [[Hs Hs32] Hnl (Ho & Hn & Hend) Hbytes] Hmax. destruct Ht.
  destruct (it_txn0) as [l0 Hh]. unfold logged_write.
  set (s := op_sector x) in *. set (ofs := op_offset x) in *. set (n := op_length x) in *.
  destruct (cache_read_at_log _ _ w s ofs n it_log0 Hs Hnl Ho Hn Hend) as (c1 & -> & Hi1 & Hv1).
  rewrite Ret_bind. cbn beta iota.
  set (v := Cache.cview (fs w) s) in *.
  assert (length v = 512%nat) as Hlv by (apply Cache.cview_length; [apply it_log0|exact Hs]).
  set (old := slice v (Z.to_nat ofs) (Z.to_nat n)).
  assert (length old = Z.to_nat n) as Hlo by (apply length_slice; lia).
  destruct (wal_log_write_run base h s old (op_data x) ofs n id) with
    (t := mk_txn id TXN_ACTIVE (base + Z.of_nat (length pre)) l0) (hist := pre ++ b :: ws)
    (w := set_fs w c1) as (w2 & -> & Hi2 & Hn2 & (l2 & Ht2) & Hf2 & _ & Hv2); try done; try lia.
  { apply Forall_slice. by apply it_bytes0. }
  rewrite Ret_bind. cbn beta iota.
  assert (same_view w w2) as Hv12 by (etransitivity; [exact Hv1|exact Hv2]).
  destruct (cache_write_log _ _ w2 s (op_data x) ofs n Hi2) as (c3 & -> & Hi3 & Hsz3 & Hv3); try done.
  { rewrite (proj1 Hv12). done. }
  rewrite Ret_bind. change (next_lsn (wal (set_fs w c1))) with (next_lsn (wal w)) in *.
  set (ws' := stamp (next_lsn (wal w)) (chunk_recs id s old (op_data x) ofs n)) in *.
  assert (Cache.cview (fs w2) s = v) as Hvs by (apply Hv12; [lia|done]).
  assert (take (Z.to_nat n) (op_data x) = op_data x) as Htk.
  { apply take_ge. unfold n, op_length. lia. }
  rewrite Hvs, Htk in Hv3. rewrite <- (app_assoc pre (b :: ws) ws') in Hi3.
  assert (block_size (dev (set_fs w2 c3)) = block_size (dev w)) as Hsize.
  { change (dev (set_fs w2 c3)) with (Cache.fs_device c3).
    transitivity (block_size (dev w2)); [exact Hsz3|exact (proj1 Hv12)]. }
  exists (set_fs w2 c3). split; [done|].
  change (stamp (next_lsn (wal w)) (op_records id x (Cache.cview (fs w)))) with ws'.
  split; [|split_and!; [|done|done]].
  2: { intros s' Hs' Hl'. change (fs (set_fs w2 c3)) with c3. rewrite Hv3 by done. unfold op_view.
       fold s. destruct (Z.eqb_spec s' s) as [->|]; [done|]. by apply (proj2 Hv12). }
  constructor; try done.
  - exists l2. change (txns (set_fs w2 c3)) with (txns w2). rewrite Ht2. apply lookup_insert_eq.
  - rewrite Hsize. apply Forall_app. split; [done|].
    apply chunk_recs_undoable; try done; lia.
  - intros s' Hs' Hl'. change (fs (set_fs w2 c3)) with c3. rewrite Hsize in Hs'.
    rewrite Hv3 by lia. destruct (s' =? s).
    + apply Forall_splice; [|done]. by apply it_bytes0.
    + rewrite (proj2 Hv12) by (done || lia). by apply it_bytes0.
  - intros s' Hs' Hl'. rewrite undo_view_app, <- (it_view0 s' Hs' Hl').
    apply undo_view_local. unfold ws'. rewrite undo_view_stamp.
    change (fs (set_fs w2 c3)) with c3.
    unfold old. rewrite undo_write_restores; try done; try lia.
    + destruct (Z.eqb_spec s' s) as [->|Hne]; [done|].
      rewrite Hv3, (proj2 (Z.eqb_neq s' s)) by done. by apply (proj2 Hv12).
    + unfold n, op_length. lia.
    + intros ->. rewrite Hv3, Z.eqb_refl by done. done.
Qed.

Lemma run_writes_run base pre b h id v0 ops ws w :
  in_txn base pre b h id v0 ws w → Forall (op_ok (block_size (dev w))) ops →
  let n := sum_list_with (λ x, chunk_count (op_length x)) ops in
  next_lsn (wal w) + Z.of_nat n < 2 ^ 64 →
  let ws' := write_records id (next_lsn (wal w)) ops (Cache.cview (fs w)) in
  ∃ w', run_writes h ops w = Ret w' ∧ in_txn base pre b h id v0 (ws ++ ws') w' ∧
    views_agree (Cache.cview (fs w')) (write_view ops (Cache.cview (fs w))) ∧ next_lsn (wal w') = next_lsn (wal w) + Z.of_nat n ∧
    block_size (dev w') = block_size (dev w).
Proof.
  revert ws w. induction ops as [|x ops IH]; intros ws w Ht Hok n Hmax; subst n.
  { exists w. rewrite app_nil_r. simpl. split_and!; try done. lia. }
  inversion Hok as [|? ? Hx Hops]; subst. cbn [sum_list_with] in *. cbn [run_writes].
  destruct (logged_write_run base pre b h id v0 ws w x Ht Hx ltac:(lia))
    as (w1 & -> & Ht1 & Hv1 & Hn1 & Hsz1). rewrite Ret_bind.
  destruct (IH _ w1 Ht1) as (w2 & -> & Ht2 & Hv2 & Hn2 & Hsz2); [by rewrite Hsz1|lia|].
  rewrite Hn1, (write_records_agree _ _ _ ops _ _ Hops Hv1), <- app_assoc in Ht2.
  exists w2. split_and!; try done; [|lia|lia].
  intros s Hs Hl. rewrite Hv2 by done. apply (write_view_agree ops _ _ Hv1 s Hs Hl).
Qed.

(** ** Abort *)

Section abort.
Context (base : Z) (hist : list wal_record).

(** A record in the window is read back by the loops of [wal_txn_abort]. *)
Lemma read_window w i r :
  log_inv base hist w → hist !! i = Some r → flushed_lsn (wal w) = next_lsn (wal w) - 1 →
  (length hist - i ≤ 64)%nat →
  ∃ c, wal_read_record (lsn r) w = Ret (Some r, set_fs w c) ∧ log_inv base hist (set_fs w c) ∧
    same_view w (set_fs w c).
Proof.
  intros Hi Hr Hf Hwin. pose proof (lookup_lt_Some _ _ _ Hr).
  destruct (li_hist _ _ _ Hi i r Hr) as (Hl & _). pose proof (li_next _ _ _ Hi).
  destruct (wal_read_run base hist w i r Hi Hr) as (d & Hrd & Hs & Ht);
    [unfold WAL_LOG_SECTORS; lia|].
  destruct (log_inv_read _ _ _ d Hi Hs Ht) as [Hi' Hk].
  exists (Cache.with_device (fs w) d). split_and!; [exact Hrd|exact Hi'|].
  exact (keeps_same_view _ _ _ _ Hi Hk).
Qed.

Lemma collect_run w i ws id acc :
  log_inv base hist w → flushed_lsn (wal w) = next_lsn (wal w) - 1 →
  (length hist - i ≤ 64)%nat → drop i hist = ws → (length acc + length ws ≤ 64)%nat →
  Forall (λ r, txn_id r = id ∧ rtype r = WAL_WRITE) ws →
  ∃ c, collect_undo (length ws) (base + Z.of_nat i) id acc w =
         Ret (acc ++ (lsn <$> ws), set_fs w c) ∧
    log_inv base hist (set_fs w c) ∧ same_view w (set_fs w c).
Proof.
  revert w i acc. induction ws as [|r ws IH]; intros w i acc Hi Hf Hwin Hd Hacc Hall.
  { exists (fs w). cbn. rewrite app_nil_r. split_and!; [by destruct w|by destruct w|done]. }
  inversion Hall as [|? ? [Hid Hty] Hws]; subst.
  assert (hist !! i = Some r) as Hr.
  { rewrite <- (Nat.add_0_r i), <- lookup_drop, Hd. done. }
  destruct (li_hist _ _ _ Hi i r Hr) as (Hl & _).
  cbn [length collect_undo] in *. rewrite (proj2 (Z.ltb_lt _ _)) by (unfold MAX_UNDO_RECORDS; lia).
  rewrite <- Hl. destruct (read_window w i r Hi Hr Hf Hwin) as (c & -> & Hi1 & Hv1).
  rewrite Ret_bind. cbn beta iota. rewrite Hty, !Z.eqb_refl. cbn [andb].
  destruct (IH (set_fs w c) (S i) (acc ++ [lsn r])) as (c2 & Hr2 & Hi2 & Hv2); try done.
  - lia.
  - replace (S i) with (i + 1)%nat by lia. rewrite <- drop_drop, Hd. done.
  - rewrite length_app. simpl. lia.
  - exists c2. replace (lsn r + 1) with (base + Z.of_nat (S i)) by lia. rewrite Hr2.
    cbn [fmap list_fmap]. rewrite <- app_assoc. split_and!; try done.
    etransitivity; [exact Hv1|exact Hv2].
Qed.

Lemma apply_undo_run ws w :
  log_inv base hist w → flushed_lsn (wal w) = next_lsn (wal w) - 1 →
  (∀ r, r ∈ ws → ∃ i, hist !! i = Some r ∧ (length hist - i ≤ 64)%nat) →
  Forall (undoable (block_size (dev w))) ws →
  ∃ c, apply_undo (rev (lsn <$> ws)) w = Ret (set_fs w c) ∧ log_inv base hist (set_fs w c) ∧
    block_size (dev (set_fs w c)) = block_size (dev w) ∧
    ∀ s, 0 ≤ s → ¬ log_area s → Cache.cview c s = undo_view ws (Cache.cview (fs w)) s.
Proof.
  revert w. induction ws as [|r ws IH] using rev_ind; intros w Hi Hf Hin Hu.
  { exists (fs w). cbn. split_and!; try done; by destruct w. }
  apply Forall_app in Hu as [Hu Hr]. apply Forall_cons_1 in Hr as [[Hs Hnl (Ho & Hn & He) Hlen] _].
  destruct (Hin r ltac:(set_solver)) as (i & Hri & Hwin).
  rewrite fmap_app, rev_app_distr. cbn [fmap list_fmap rev app apply_undo].
  destruct (read_window w i r Hi Hri Hf Hwin) as (c1 & -> & Hi1 & Hv1).
  rewrite Ret_bind. cbn beta iota.
  destruct (cache_write_log _ _ (set_fs w c1) (rsector r) (old_data r) (offset r) (rlength r) Hi1)
    as (c2 & -> & Hi2 & Hsz2 & Hv2); try done.
  { rewrite (proj1 Hv1). done. }
  rewrite !Ret_bind. change (set_fs (set_fs w c1) c2) with (set_fs w c2) in *.
  assert (block_size (dev (set_fs w c2)) = block_size (dev w)) as Hsize.
  { transitivity (block_size (dev (set_fs w c1))); [exact Hsz2|exact (proj1 Hv1)]. }
  destruct (IH (set_fs w c2) Hi2 Hf) as (c3 & -> & Hi3 & Hsz3 & Hv3).
  - intros r' Hr'. apply Hin. set_solver.
  - by rewrite Hsize.
  - exists c3. change (set_fs (set_fs w c2) c3) with (set_fs w c3) in *.
    split_and!; [done|done|congruence|]. intros s Hs' Hl'. rewrite Hv3 by done.
    rewrite undo_view_app. apply undo_view_local. change (fs (set_fs w c2)) with c2.
    rewrite Hv2 by done. cbn [undo_view foldr]. unfold undo1.
    destruct (Z.eqb_spec s (rsector r)) as [->|]; rewrite ?(proj2 Hv1) by done; done.
Qed.
End abort.

Lemma wal_txn_abort_run base pre b h id v0 ws w :
  in_txn base pre b h id v0 ws w → (length ws ≤ 63)%nat → next_lsn (wal w) + 1 < 2 ^ 64 →
  ∃ w' r, wal_txn_abort true true (Some h) w = Ret w' ∧
    log_inv base (pre ++ b :: ws ++ [r]) w' ∧ rtype r = WAL_ABORT ∧
    txns w' = delete h (txns w) ∧
    ∀ s, 0 ≤ s → ¬ log_area s →
      Cache.cview (fs w') s = v0 s ∧ sector_of (dev w') s = v0 s.
Proof.
  intros Ht Hlen Hmax. destruct Ht. destruct it_txn0 as [l Hh].
  unfold wal_txn_abort, txn_get. rewrite Hh, Ret_bind. cbn [t_state t_id first_lsn negb].
  rewrite bool_decide_eq_true_2 by done. cbn [negb]. cbn zeta.
  set (hist := pre ++ b :: ws) in *.
  pose proof (li_base _ _ _ it_log0). pose proof (li_next _ _ _ it_log0) as Hnext.
  assert (length hist = length pre + S (length ws))%nat as Hlh by (subst hist; by rewrite length_app).
  destruct (wal_flush_run base hist w it_log0 (next_lsn (wal w)))
    as (w1 & -> & Hi1 & Hk1 & Hn1 & _ & _ & _ & _ & _ & Hf1). rewrite Ret_bind.
  rewrite (proj2 (Z.leb_gt _ _)) in Hf1 by (pose proof (li_flushed _ _ _ it_log0); lia).
  pose proof (keeps_same_view _ _ _ _ it_log0 Hk1) as Hv1. rewrite <- Hn1 in Hf1.
  replace (Z.to_nat (next_lsn (wal w) - (base + Z.of_nat (length pre)))) with (S (length ws)) by lia.
  assert (hist !! length pre = Some b) as Hb
    by (subst hist; rewrite lookup_app_r, Nat.sub_diag by lia; done).
  destruct (li_hist _ _ _ it_log0 _ _ Hb) as (Hbl & _).
  cbn [collect_undo length]. change (Z.of_nat 0 <? MAX_UNDO_RECORDS) with true. cbn iota. rewrite <- Hbl.
  destruct (read_window base hist w1 (length pre) b Hi1 Hb Hf1 ltac:(lia)) as (c2 & -> & Hi2 & Hv2).
  rewrite Ret_bind. cbn beta iota. rewrite it_begin0, andb_false_r.
  destruct (collect_run base hist (set_fs w1 c2) (S (length pre)) ws id [])
    as (c3 & Hc3 & Hi3 & Hv3); try done; try (simpl; lia).
  { subst hist. replace (S (length pre)) with (length (pre ++ [b])) by (rewrite length_app; simpl; lia).
    replace (pre ++ b :: ws) with ((pre ++ [b]) ++ ws) by (by rewrite <- app_assoc).
    apply drop_app_length. }
  { eapply Forall_impl; [exact it_writes0|]. by intros r (? & ? & _). }
  replace (lsn b + 1) with (base + Z.of_nat (S (length pre))) by lia. rewrite Hc3, Ret_bind.
  cbn beta iota. rewrite app_nil_l. change (set_fs (set_fs w1 c2) c3) with (set_fs w1 c3) in *.
  assert (same_view w (set_fs w1 c3)) as Hv03
    by (etransitivity; [exact Hv1|]; etransitivity; [exact Hv2|exact Hv3]).
  destruct (apply_undo_run base hist ws (set_fs w1 c3) Hi3 Hf1) as (c4 & -> & Hi4 & Hsz4 & Hv4).
  { intros r (j & Hj)%list_elem_of_lookup. exists (length pre + S j)%nat. split; [|lia].
    subst hist. rewrite lookup_app_r by lia. by replace (length pre + S j - length pre)%nat with (S j) by lia. }
  { rewrite (proj1 Hv03). eapply Forall_impl; [exact it_writes0|]. by intros r (_ & _ & ?). }
  rewrite Ret_bind. change (set_fs (set_fs w1 c3) c4) with (set_fs w1 c4) in *.
  destruct (cache_flush_log base hist (set_fs w1 c4) Hi4) as (c5 & -> & Hi5 & Hv5 & Hd5).
  rewrite Ret_bind. change (set_fs (set_fs w1 c4) c5) with (set_fs w1 c5) in *.
  destruct (wal_append_run base hist (set_fs w1 c5) (control_rec WAL_ABORT id) Hi5)
    as (w6 & -> & Hi6 & Hk6 & _).
  { change (next_lsn (wal (set_fs w1 c5))) with (next_lsn (wal w1)). lia. }
  { change (next_lsn (wal (set_fs w1 c5))) with (next_lsn (wal w1)).
    apply control_rec_ok; unfold WAL_ABORT; lia. }
  rewrite Ret_bind. eexists _, _. split; [reflexivity|]. split_and!.
  - apply log_inv_finish. subst hist. rewrite <- app_assoc in Hi6. exact Hi6.
  - done.
  - cbn. rewrite (k_txns _ _ Hk6). cbn. by rewrite (k_txns _ _ Hk1).
  - intros s Hs Hl. pose proof (keeps_same_view _ _ _ _ Hi5 Hk6) as [_ Hv6].
    assert (Cache.cview c4 s = v0 s) as Hc4.
    { rewrite Hv4, <- it_view0 by done. apply undo_view_local. by apply (proj2 Hv03). }
    split.
    + change (Cache.cview (fs w6) s = v0 s). rewrite Hv6 by done.
      rewrite (proj2 Hv5) by done. exact Hc4.
    + change (sector_of (dev w6) s = v0 s). destruct (k_dev _ _ Hk6) as (_ & _ & Hsec).
      rewrite Hsec, Hd5 by done. exact Hc4.
Qed.

(** ** Begin, start and stop *)

Lemma wal_txn_begin_run base hist w :
  log_inv base hist w → 0 ≤ next_txn_id (wal w) < 2 ^ 32 → next_lsn (wal w) + 1 < 2 ^ 64 →
  let b := seal (with_lsn (control_rec WAL_BEGIN (next_txn_id (wal w))) (next_lsn (wal w))) in
  (∀ s, 0 ≤ s < block_size (dev w) → ¬ log_area s → Forall is_byte (Cache.cview (fs w) s)) →
  ∃ w', wal_txn_begin true w = Ret (Some (next_addr w), w') ∧
    in_txn base hist b (next_addr w) (next_txn_id (wal w)) (Cache.cview (fs w)) [] w' ∧
    next_lsn (wal w') = next_lsn (wal w) + 1 ∧ next_txn_id (wal w') = u32 (next_txn_id (wal w) + 1) ∧
    same_view w w'.
Proof.
  intros Hi Hid Hmax b Hbytes. unfold wal_txn_begin. cbn [negb]. cbn zeta.
  set (w0 := mk_w _ _ _ _ _ _).
  assert (log_inv base hist w0) as Hi0 by (destruct Hi; by constructor).
  pose proof (li_base _ _ _ Hi). pose proof (li_next _ _ _ Hi) as Hnx.
  destruct (wal_append_run base hist w0 (control_rec WAL_BEGIN (next_txn_id (wal w))) Hi0)
    as (w1 & -> & Hi1 & Hk1 & Hn1 & _); [exact Hmax|apply control_rec_ok; cbn; unfold WAL_BEGIN; lia|].
  rewrite Ret_bind. cbn beta iota zeta.
  change (next_lsn (wal w0)) with (next_lsn (wal w)) in *. fold b in Hi1.
  pose proof (keeps_same_view _ _ _ _ Hi0 Hk1) as [Hsz Hv].
  eexists. split; [reflexivity|]. split_and!; try done.
  - constructor; try done.
    + destruct Hi1. by constructor.
    + exists (next_lsn (wal w)). cbn. rewrite lookup_insert_eq. by rewrite Hnx.
    + intros s Hs Hl. change (Forall is_byte (Cache.cview (fs w1) s)).
      rewrite Hv by (done || lia). apply Hbytes; [|done].
      change (0 ≤ s < block_size (dev w1)) in Hs. rewrite Hsz in Hs. exact Hs.
  - cbn. rewrite (k_id _ _ Hk1). done.
Qed.

(** Everything the log needs of the machine it starts on. *)
Record bootable (w : wst) : Prop := {
  bo_cache : Cache.cache_inv (fs w);
  bo_nolog : no_log_cached (fs w);
  bo_size : WAL_METADATA_SECTOR < block_size (dev w)
}.

Lemma log_inv_start w buf n :
  bootable w → length buf = 8%nat → 1 ≤ n < 2 ^ 64 → next_lsn (wal w) = n →
  flushed_lsn (wal w) = n - 1 → log_inv n [] (set_wal w (wal_reset buf (wal w))).
Proof.
  intros [] Hb Hn Hnx Hf. constructor; try done; cbn; try lia.
  - exists buf, 0%nat. split_and!; try done; lia.
Qed.

Lemma wal_init_format_run w buf malloc_undo :
  bootable w → length buf = 8%nat →
  ∃ w', wal_init true (Some buf) malloc_undo w = Ret w' ∧ log_inv 1 [] w' ∧ fs w' = fs w ∧
    next_lsn (wal w') = 1 ∧ next_txn_id (wal w') = 1 ∧ next_addr w' = next_addr w.
Proof.
  intros Hb Hbuf. eexists. split; [reflexivity|]. split_and!; try done.
  apply (log_inv_start (set_wal w (set_next_txn (set_lsns (wal w) 1 0) 1))); try done.
  destruct Hb. by constructor.
Qed.

(** *** The metadata sector *)

Record meta_ok (m : wal_metadata) : Prop := {
  me_magic : 0 ≤ magic m < 2 ^ 32;
  me_clean : 0 ≤ clean_shutdown m < 2 ^ 32;
  me_lsn : 0 ≤ m_last_lsn m < 2 ^ 64;
  me_txn : 0 ≤ last_txn_id m < 2 ^ 32;
  me_pad : length (m_padding m) = 492%nat
}.

Lemma meta_encode_length m : meta_ok m → length (meta_encode m) = 512%nat.
Proof. intros []. unfold meta_encode. rewrite !length_app, !length_le_bytes. lia. Qed.

Lemma meta_roundtrip m : meta_ok m → meta_decode (meta_encode m) = m.
Proof.
  intros []. destruct m as [mg cl ls tx pd]. cbn [magic clean_shutdown m_last_lsn last_txn_id m_padding] in *.
  unfold meta_decode, meta_encode. cbn [magic clean_shutdown m_last_lsn last_txn_id m_padding].
  f_equal;
    (repeat (erewrite slice_app_skip; [|apply length_le_bytes|lia]; cbn [Nat.sub]));
    first [ rewrite slice_app_hit by apply length_le_bytes; apply le_roundtrip; simpl; lia
          | by rewrite slice_full by eassumption ].
Qed.

Lemma meta_area : log_area WAL_METADATA_SECTOR.
Proof. unfold log_area, WAL_METADATA_SECTOR, WAL_LOG_START_SECTOR, WAL_LOG_SECTORS. lia. Qed.

Lemma meta_sector_pos : 0 ≤ WAL_METADATA_SECTOR.
Proof. done. Qed.

Lemma meta_write_run m w :
  wf (dev w) → WAL_METADATA_SECTOR < block_size (dev w) → meta_ok m →
  ∃ d, wal_write_metadata m w = Ret (set_dev w d) ∧ dev_frame (dev w) d ∧
    sector_of d WAL_METADATA_SECTOR = meta_encode m ∧
    ∀ s, 0 ≤ s → s ≠ WAL_METADATA_SECTOR → sector_of d s = sector_of (dev w) s.
Proof.
  intros Hwf Hsz Hm. unfold wal_write_metadata. pose proof meta_sector_pos.
  destruct (block_write_spec (dev w) WAL_METADATA_SECTOR ltac:(lia) (meta_encode m) Hwf
    (meta_encode_length m Hm)) as (d & -> & Hwd & Hsd & Hc).
  exists d. rewrite Ret_bind. split_and!; [done| | |].
  - split; [done|split; [done|]]. intros s Hs Ha. rewrite Hc by done.
    destruct (Z.eqb_spec s WAL_METADATA_SECTOR) as [->|]; [|done]. destruct Ha. apply meta_area.
  - by rewrite Hc, Z.eqb_refl.
  - intros s Hs Hne. by rewrite Hc, (proj2 (Z.eqb_neq _ _) Hne).
Qed.

Lemma meta_read_run w :
  wf (dev w) → WAL_METADATA_SECTOR < block_size (dev w) →
  ∃ d, wal_read_metadata w = Ret (meta_decode (sector_of (dev w) WAL_METADATA_SECTOR), set_dev w d) ∧
    sectors d = sectors (dev w) ∧ type d = type (dev w).
Proof.
  intros Hwf Hsz. unfold wal_read_metadata. pose proof meta_sector_pos.
  destruct (block_read_spec (dev w) WAL_METADATA_SECTOR ltac:(lia)) as (d & -> & Hs & Ht).
  exists d. by rewrite Ret_bind.
Qed.

Lemma meta_decode_pad b : length b = 512%nat → length (m_padding (meta_decode b)) = 492%nat.
Proof. intros. unfold meta_decode. cbn [m_padding]. rewrite length_slice; lia. Qed.

Lemma dev_frame_read d d' : wf d → sectors d' = sectors d → type d' = type d → dev_frame d d'.
Proof. unfold dev_frame, wf, block_size, sector_of. by intros ? -> ->. Qed.

(** A clean shutdown leaves the newest LSN and transaction id in the metadata
    sector and every newest log record in its own sector. *)
Lemma wal_shutdown_run base hist w :
  log_inv base hist w → 1 ≤ next_txn_id (wal w) < 2 ^ 32 →
  ∃ w', wal_shutdown w = Ret w' ∧ dev_frame (dev w) (dev w') ∧
    log_buffer (wal w') = None ∧
    (∃ pad, length pad = 492%nat ∧
      sector_of (dev w') WAL_METADATA_SECTOR =
      meta_encode (mk_meta WAL_METADATA_MAGIC 1 (next_lsn (wal w) - 1) (next_txn_id (wal w) - 1) pad)) ∧
    ∀ i r, hist !! i = Some r → next_lsn (wal w) - lsn r ≤ 64 →
      sector_of (dev w') (log_sector (lsn r)) = encode r.
Proof.
  intros Hi Hid. pose proof (li_base _ _ _ Hi). pose proof (li_next _ _ _ Hi).
  pose proof (li_max _ _ _ Hi). unfold wal_shutdown.
  rewrite (proj2 (Z.ltb_lt 0 (next_lsn (wal w)))), (wrap_small 64) by lia.
  destruct (flush_all_run base hist w _ Hi eq_refl) as (w1 & -> & Hi1 & Hk1 & Hn1 & Hf1 & _).
  rewrite Ret_bind.
  destruct (meta_read_run w1 (log_inv_wf _ _ _ Hi1) (li_size _ _ _ Hi1)) as (d2 & -> & Hs2 & Ht2).
  rewrite Ret_bind. cbn beta iota.
  change (wal (set_dev w1 d2)) with (wal w1). rewrite Hn1, (k_id _ _ Hk1).
  rewrite (proj2 (Z.ltb_lt 0 (next_lsn (wal w)))), (proj2 (Z.ltb_lt 0 (next_txn_id (wal w)))),
    (wrap_small 64), (wrap_small 32) by lia.
  set (pad := m_padding _).
  assert (length pad = 492%nat) as Hpad.
  { apply meta_decode_pad, sector_length; [|by apply (log_inv_wf _ _ _ Hi1)].
    pose proof (li_size _ _ _ Hi1). pose proof meta_sector_pos. lia. }
  pose proof (dev_frame_read (dev w1) d2 (log_inv_wf _ _ _ Hi1) Hs2 Ht2) as Hfr2.
  destruct (meta_write_run (mk_meta WAL_METADATA_MAGIC 1 (next_lsn (wal w) - 1)
    (next_txn_id (wal w) - 1) pad) (set_dev w1 d2)) as (d3 & -> & Hfr3 & Hm3 & Ho3).
  - apply Hfr2.
  - change (dev (set_dev w1 d2)) with d2. rewrite (proj1 Hfr2). apply Hi1.
  - by constructor; cbn; try done; lia.
  - rewrite Ret_bind. change (set_dev (set_dev w1 d2) d3) with (set_dev w1 d3).
    destruct (li_buffer _ _ _ Hi1) as (buf & _ & Hb & _).
    change (log_buffer (wal (set_dev w1 d3))) with (log_buffer (wal w1)). rewrite Hb.
    eexists. split; [reflexivity|].
    change (dev (set_wal (set_dev w1 d3) _)) with d3. split_and!; try done.
    + eapply dev_frame_trans; [exact (k_dev _ _ Hk1)|]. eapply dev_frame_trans; [exact Hfr2|exact Hfr3].
    + by exists pad.
    + intros i r Hr Hwin. pose proof (log_sector_bound (lsn r)) as Hls.
      rewrite Ho3 by (unfold WAL_METADATA_SECTOR, WAL_LOG_START_SECTOR, WAL_LOG_SECTORS; lia).
      change (dev (set_dev w1 d2)) with d2. unfold sector_of. rewrite Hs2.
      apply (li_disk _ _ _ Hi1 i r Hr). destruct (hist_max _ _ _ _ _ Hi1 Hr) as [_ ?].
      unfold WAL_LOG_SECTORS. lia.
Qed.

(** Starting on a cleanly shut down device continues its counters. *)
Lemma wal_init_clean_run w buf mu n t pad :
  bootable w → length buf = 8%nat → 1 ≤ n < 2 ^ 64 → 1 ≤ t < 2 ^ 32 → length pad = 492%nat →
  sector_of (dev w) WAL_METADATA_SECTOR =
    meta_encode (mk_meta WAL_METADATA_MAGIC 1 (n - 1) (t - 1) pad) →
  ∃ w', wal_init false (Some buf) mu w = Ret w' ∧ log_inv n [] w' ∧ next_txn_id (wal w') = t ∧
    dev_frame (dev w) (dev w') ∧
    (∀ s, 0 ≤ s → s ≠ WAL_METADATA_SECTOR → sector_of (dev w') s = sector_of (dev w) s) ∧
    clean_shutdown (meta_decode (sector_of (dev w') WAL_METADATA_SECTOR)) = 0.
Proof.
  intros Hb Hbuf Hn Ht Hpad Hmeta. pose proof Hb as [Hc Hnl Hsz]. pose proof (Cache.inv_dev _ Hc) as Hwf.
  unfold wal_init. destruct (meta_read_run w Hwf Hsz) as (d1 & -> & Hs1 & Ht1).
  rewrite Hmeta, meta_roundtrip by (by constructor; cbn; try done; lia).
  rewrite Ret_bind. cbn [magic clean_shutdown m_last_lsn last_txn_id m_padding].
  rewrite Z.eqb_refl. cbn [negb Z.eqb Pos.eqb].
  pose proof (dev_frame_read (dev w) d1 Hwf Hs1 Ht1) as Hfr1.
  assert ((if 0 <? n - 1 then (u64 (n - 1 + 1), n - 1) else (1, 0)) = (n, n - 1)) as ->.
  { destruct (Z.ltb_spec 0 (n - 1)); f_equal; try lia. rewrite wrap_small; lia. }
  rewrite Ret_bind. replace (u32 (t - 1 + 1)) with t by (rewrite wrap_small; lia).
  set (w1 := set_wal (set_dev w d1) _).
  set (m2 := mk_meta WAL_METADATA_MAGIC 0 (n - 1) (t - 1) pad).
  assert (meta_ok m2) as Hm2 by (by constructor; cbn; try done; lia).
  destruct (meta_write_run m2 w1) as (d2 & -> & Hfr2 & Hmm & Ho2); try done.
  - apply Hfr1.
  - change (dev w1) with d1. by rewrite (proj1 Hfr1).
  - change (dev w1) with d1 in *. pose proof (dev_frame_trans _ _ _ Hfr1 Hfr2) as Hfr.
    destruct (cache_dev_frame (fs w) d2 Hc Hnl Hfr) as (Hc2 & Hn2 & _).
    rewrite Ret_bind. eexists. split; [reflexivity|]. split_and!; try done.
    + apply (log_inv_start (set_dev w1 d2) buf n); try done. constructor; [exact Hc2|exact Hn2|].
      change (dev (set_dev w1 d2)) with d2. by rewrite (proj1 Hfr).
    + intros s Hs Hne. change (sector_of d2 s = sector_of (dev w) s). rewrite Ho2 by done. unfold sector_of. by rewrite Hs1.
    + change (clean_shutdown (meta_decode (sector_of d2 WAL_METADATA_SECTOR)) = 0). by rewrite Hmm, meta_roundtrip.
Qed.

(** ** The chunks of a write *)

Lemma stamp_lookup l rs i r :
  stamp l rs !! i = Some r →
  ∃ r0, rs !! i = Some r0 ∧ r = seal (with_lsn r0 (l + Z.of_nat i)).
Proof.
  revert l i. induction rs as [|r0 rs IH]; intros l i; [done|]. destruct i as [|i]; simpl.
  - intros [= <-]. exists r0. by rewrite Z.add_0_r.
  - intros (r1 & ? & ->)%IH. exists r1. split; [done|]. do 2 f_equal. lia.
Qed.

Lemma concat_slices {A} (b : list A) len n k :
  0 ≤ len → Z.of_nat (length b) = len → (k + n = chunk_count len)%nat →
  concat ((λ k, slice b (232 * k) (Z.to_nat (chunk_size len k))) <$> seq k n) = drop (232 * k) b.
Proof.
  intros Hlen Hb. pose proof (chunk_count_spec len Hlen) as Hc. revert k.
  induction n as [|n IH]; intros k Hk; cbn [seq fmap list_fmap concat].
  { rewrite drop_ge; [done|]. lia. }
  rewrite IH by lia. unfold slice, chunk_size.
  rewrite <- (firstn_skipn (Z.to_nat (232 `min` (len - 232 * Z.of_nat k))) (drop (232 * k) b)) at 2.
  f_equal. rewrite drop_drop. destruct (decide (232 ≤ len - 232 * Z.of_nat k)).
  - f_equal. lia.
  - rewrite !drop_ge by lia. done.
Qed.

Lemma take_pad (c : list Z) n : (length c ≤ n)%nat →
  take (length c) (splice (replicate n 0) 0 c) = c.
Proof. intros. unfold splice. rewrite take_0, app_nil_l, take_app_length. done. Qed.

Lemma stamp_concat (f : wal_record → list Z) l rs (g : nat → wal_record) ks :
  (∀ r l, f (seal (with_lsn r l)) = f r) → rs = g <$> ks →
  concat (f <$> stamp l rs) = concat ((λ k, f (g k)) <$> ks).
Proof.
  intros Hf ->. revert l. induction ks as [|k ks IH]; intros l; [done|].
  cbn [fmap list_fmap stamp concat]. rewrite Hf. f_equal. apply IH.
Qed.

(** The data of the records of one write, put together, is the data written. *)
Lemma chunks_concat id sec old new ofs len l :
  0 ≤ len → Z.of_nat (length old) = len → Z.of_nat (length new) = len →
  let ws := stamp l (chunk_recs id sec old new ofs len) in
  concat ((λ r, take (Z.to_nat (rlength r)) (old_data r)) <$> ws) = old ∧
  concat ((λ r, take (Z.to_nat (rlength r)) (new_data r)) <$> ws) = new.
Proof.
  intros Hlen Ho Hn ws. pose proof (chunk_count_spec len Hlen) as Hc.
  assert (∀ b : list Z, Z.of_nat (length b) = len →
    concat ((λ k, take (Z.to_nat (chunk_size len k)) (splice (replicate 232 0) 0
              (slice b (232 * k) (Z.to_nat (chunk_size len k))))) <$> seq 0 (chunk_count len)) = b) as H.
  { intros b Hb. transitivity (drop (232 * 0) b); [|done].
    rewrite <- (concat_slices b len (chunk_count len) 0) by done. f_equal.
    apply list_fmap_ext. intros i k Hk. apply lookup_seq in Hk as [-> Hk].
    change (0 + i)%nat with i in *. assert (0 < chunk_size len i ≤ 232 ∧ 232 * Z.of_nat i + chunk_size len i ≤ len) as [? ?]
      by (unfold chunk_size; lia).
    set (c := slice _ _ _). assert (length c = Z.to_nat (chunk_size len i)) as <-
      by (apply length_slice; lia). apply take_pad. subst c. rewrite length_slice; lia. }
  split; unfold ws; (erewrite stamp_concat; [|done|reflexivity]); by apply H.
Qed.

Lemma chunks_fields id sec old new ofs len l i r :
  0 ≤ len → stamp l (chunk_recs id sec old new ofs len) !! i = Some r →
  lsn r = l + Z.of_nat i ∧ rtype r = WAL_WRITE ∧ txn_id r = id ∧ rsector r = sec ∧
  offset r = ofs + 232 * Z.of_nat i ∧ 0 < rlength r ≤ WAL_MAX_DATA_SIZE.
Proof.
  intros Hlen (r0 & Hr & ->)%stamp_lookup. unfold chunk_recs in Hr.
  apply list_lookup_fmap_Some in Hr as (k & -> & [-> Hk]%lookup_seq).
  pose proof (chunk_count_spec len Hlen). unfold WAL_MAX_DATA_SIZE.
  unfold chunk_rec, seal. rec_simpl. cbn [Nat.add]. split_and!; try done; unfold chunk_size; lia.
Qed.

(** ** Properties *)

(** C11. A transaction that begins, performs any sequence of logged writes whose
    records fit in the log (at most 61 WRITE records, so that with BEGIN, COMMIT
    and the CHECKPOINT of a deferred checkpoint none overwrites another) and
    commits: every call returns normally, the commit reports success, and when it
    returns the whole transaction stands on the device in consecutive log sectors:
    its BEGIN record, then for each write the records that carry the transaction's
    id, the write's sector and offset, the bytes it replaced and the bytes it
    stored, then its COMMIT record, each with its LSN and its checksum, even if the
    commit also ran a deferred checkpoint.  Outside the log the file system sees
    the writes applied in their order, and the transaction is no longer active. *)
Theorem wal_commit_durable (base : Z) (hist : list wal_record) (w : wst) (ops : list write_op)
    (Hi : log_inv base hist w) (Hid : 0 ≤ next_txn_id (wal w) < 2 ^ 32)
    (Hbytes : ∀ s, 0 ≤ s < block_size (dev w) → ¬ log_area s → Forall is_byte (Cache.cview (fs w) s))
    (Hops : Forall (op_ok (block_size (dev w))) ops)
    (Hfit : (sum_list_with (λ x, chunk_count (op_length x)) ops ≤ 61)%nat)
    (Hmax : next_lsn (wal w) + 64 < 2 ^ 64) :
  let id := next_txn_id (wal w) in
  let n := sum_list_with (λ x, chunk_count (op_length x)) ops in
  let recs := seal (with_lsn (control_rec WAL_BEGIN id) (next_lsn (wal w))) ::
    write_records id (next_lsn (wal w) + 1) ops (Cache.cview (fs w)) ++
    [seal (with_lsn (control_rec WAL_COMMIT id) (next_lsn (wal w) + 1 + Z.of_nat n))] in
  ∃ h w1 w2 w3,
    wal_txn_begin true w = Ret (Some h, w1) ∧ run_writes h ops w1 = Ret w2 ∧
    wal_txn_commit (Some h) w2 = Ret (true, w3) ∧
    length recs = (n + 2)%nat ∧
    (∀ i r, recs !! i = Some r →
       lsn r = next_lsn (wal w) + Z.of_nat i ∧
       sector_of (dev w3) (log_sector (lsn r)) = encode r) ∧
    views_agree (Cache.cview (fs w3)) (write_view ops (Cache.cview (fs w))) ∧
    txns w3 !! h = None.
Proof.
  intros id n recs.
  destruct (wal_txn_begin_run base hist w Hi Hid ltac:(lia) Hbytes)
    as (w1 & Hb & Ht1 & Hn1 & _ & Hv1). set (b := seal _) in Ht1.
  destruct (run_writes_run _ _ _ _ _ _ ops [] w1 Ht1) as (w2 & Hr & Ht2 & Hv2 & Hn2 & _).
  { by rewrite (proj1 Hv1). }
  { lia. }
  assert (views_agree (Cache.cview (fs w1)) (Cache.cview (fs w))) as Hv by exact (proj2 Hv1).
  rewrite app_nil_l, Hn1, (write_records_agree _ _ _ ops _ _ Hops Hv) in Ht2.
  fold id n in Ht2, Hn2, Hr. set (ws := write_records id _ ops _) in Ht2.
  assert (length ws = n) as Hl by apply write_records_length.
  destruct Ht2. destruct it_txn0 as [l Hh].
  destruct (wal_txn_commit_run base _ w2 (next_addr w) _ it_log0 Hh eq_refl it_id0 ltac:(lia))
    as (w3 & tail & Hc & Hi3 & Htl & Hv3 & Hf3 & Htx).
  cbn [t_id] in Hi3. rewrite Hn2, Hn1 in Hi3. set (c := seal _) in Hi3.
  change recs with (b :: ws ++ [c]).
  exists (next_addr w), w1, w2, w3. do 3 (split; [done|]).
  split; [simpl; rewrite length_app; simpl; lia|].
  split; [|split; [|rewrite Htx; apply lookup_delete_eq]].
  - intros i r Hir.
    assert ((hist ++ b :: ws) ++ c :: tail = hist ++ (b :: ws ++ [c]) ++ tail) as Heq
      by (rewrite <- app_assoc; cbn [app]; by rewrite <- app_assoc).
    rewrite Heq in Hi3.
    assert ((hist ++ (b :: ws ++ [c]) ++ tail) !! (length hist + i)%nat = Some r) as Hr3.
    { rewrite lookup_app_r by lia. replace (length hist + i - length hist)%nat with i by lia.
      by apply lookup_app_l_Some. }
    destruct (li_hist _ _ _ Hi3 _ _ Hr3) as (Hlr & _). pose proof (li_next _ _ _ Hi).
    pose proof (li_next _ _ _ Hi3) as Hn3. rewrite !length_app in Hn3. simpl in Hn3.
    rewrite !length_app in Hn3. simpl in Hn3.
    apply lookup_lt_Some in Hir. simpl in Hir. rewrite length_app in Hir. simpl in Hir.
    split; [lia|]. apply (li_disk _ _ _ Hi3 _ _ Hr3). rewrite Hf3. unfold WAL_LOG_SECTORS. lia.
  - intros s Hs Hls. rewrite (proj2 Hv3), Hv2 by done. apply (write_view_agree ops _ _ Hv s Hs Hls).
Qed.

(** C10. A transaction that begins, performs any sequence of logged writes whose
    records fit in the log (at most 63 WRITE records, so that with BEGIN none has
    been overwritten when the abort reads them back) and aborts, with memory for
    the abort's undo list, leaves the disk as it found it: every sector outside
    the log has its old contents again, in the cache and on the device, the log
    ends with an ABORT record, and the transaction is no longer active.  (For a
    longer transaction this fails, see [wal_abort_partial].) *)
Theorem wal_abort_restores (base : Z) (hist : list wal_record) (w : wst) (ops : list write_op)
    (Hi : log_inv base hist w) (Hid : 0 ≤ next_txn_id (wal w) < 2 ^ 32)
    (Hbytes : ∀ s, 0 ≤ s < block_size (dev w) → ¬ log_area s → Forall is_byte (Cache.cview (fs w) s))
    (Hops : Forall (op_ok (block_size (dev w))) ops)
    (Hfit : (sum_list_with (λ x, chunk_count (op_length x)) ops ≤ 63)%nat)
    (Hmax : next_lsn (wal w) + 66 < 2 ^ 64) :
  ∃ h w1 w2 w3,
    wal_txn_begin true w = Ret (Some h, w1) ∧ run_writes h ops w1 = Ret w2 ∧
    wal_txn_abort true true (Some h) w2 = Ret w3 ∧ txns w3 !! h = None ∧
    (∃ hist' r, log_inv base (hist' ++ [r]) w3 ∧ rtype r = WAL_ABORT) ∧
    ∀ s, 0 ≤ s → ¬ log_area s →
      Cache.cview (fs w3) s = Cache.cview (fs w) s ∧ sector_of (dev w3) s = Cache.cview (fs w) s.
Proof.
  destruct (wal_txn_begin_run base hist w Hi Hid ltac:(lia) Hbytes)
    as (w1 & Hb & Ht1 & Hn1 & _ & Hv1). set (b := seal _) in Ht1.
  destruct (run_writes_run _ _ _ _ _ _ ops [] w1 Ht1) as (w2 & Hr & Ht2 & _ & Hn2 & _).
  { by rewrite (proj1 Hv1). }
  { lia. }
  rewrite app_nil_l in Ht2. set (ws := write_records _ _ ops _) in Ht2.
  assert (length ws = sum_list_with (λ x, chunk_count (op_length x)) ops) as Hl
    by apply write_records_length.
  destruct (wal_txn_abort_run _ _ _ _ _ _ ws w2 Ht2 ltac:(lia) ltac:(lia))
    as (w3 & r & Ha & Hi3 & Hty & Htx & Hv3).
  exists (next_addr w), w1, w2, w3. split_and!; try done.
  - rewrite Htx. apply lookup_delete_eq.
  - exists (hist ++ b :: ws), r. by rewrite <- app_assoc.
Qed.

(** [wal_log_write] splits a write into records of at most 232 bytes: it
    returns true after appending exactly [ceil (len / 232)] WRITE records with
    consecutive LSNs, whose old and new bytes, concatenated, are the old and the
    new bytes of the write. *)
Theorem wal_log_write_splits (base : Z) (hist : list wal_record) (w : wst) (h : nat) (t : wal_txn)
    (sec ofs len : Z) (old new : list Z)
    (Hi : log_inv base hist w) (Ht : txns w !! h = Some t) (Ha : t_state t = TXN_ACTIVE)
    (Hid : 0 ≤ t_id t < 2 ^ 32) (Hsec : 0 ≤ sec < 2 ^ 32)
    (Ho : 0 ≤ ofs) (Hlen : 0 ≤ len) (Hend : ofs + len ≤ 512)
    (Hbo : Forall is_byte old) (Hbn : Forall is_byte new)
    (Hlo : Z.of_nat (length old) = len) (Hln : Z.of_nat (length new) = len)
    (Hmax : next_lsn (wal w) + 3 < 2 ^ 64) :
  ∃ w' ws, wal_log_write (Some h) sec old new ofs len w = Ret (true, w') ∧
    log_inv base (hist ++ ws) w' ∧ same_view w w' ∧
    length ws = Z.to_nat (DIV_ROUND_UP len WAL_MAX_DATA_SIZE) ∧
    (∀ i r, ws !! i = Some r → lsn r = next_lsn (wal w) + Z.of_nat i ∧ rtype r = WAL_WRITE ∧
       txn_id r = t_id t ∧ rsector r = sec ∧ offset r = ofs + 232 * Z.of_nat i ∧
       0 < rlength r ≤ WAL_MAX_DATA_SIZE) ∧
    concat ((λ r, take (Z.to_nat (rlength r)) (old_data r)) <$> ws) = old ∧
    concat ((λ r, take (Z.to_nat (rlength r)) (new_data r)) <$> ws) = new.
Proof.
  pose proof (chunk_count_spec len Hlen) as Hc.
  destruct (wal_log_write_run base h sec old new ofs len (t_id t) Hid Hsec Ho Hlen Hend Hbo Hbn
    ltac:(lia) ltac:(lia) t hist w Ht eq_refl Ha Hi ltac:(lia))
    as (w' & Hr & Hi' & _ & _ & _ & _ & Hv).
  exists w', (stamp (next_lsn (wal w)) (chunk_recs (t_id t) sec old new ofs len)).
  split; [done|]. split; [done|]. split; [done|]. split.
  { rewrite stamp_length. unfold chunk_recs. by rewrite length_fmap, length_seq. }
  split; [intros; by eapply chunks_fields|]. by apply chunks_concat.
Qed.

(** A clean shutdown followed by a restart continues the log: whatever
    machine state the restart begins with, on the same device [wal_init] resumes
    at the next LSN and the next transaction id, marks the session dirty, and the
    newest 64 records and every sector outside the log survive unchanged. *)
Theorem wal_clean_restart (base : Z) (hist : list wal_record) (w : wst)
    (buf : list wal_record) (mu : bool)
    (Hi : log_inv base hist w) (Hid : 1 ≤ next_txn_id (wal w) < 2 ^ 32)
    (Hbuf : length buf = 8%nat) :
  ∃ w1, wal_shutdown w = Ret w1 ∧
    ∀ r, bootable r → dev r = dev w1 →
    ∃ w2, wal_init false (Some buf) mu r = Ret w2 ∧
      log_inv (next_lsn (wal w)) [] w2 ∧ next_txn_id (wal w2) = next_txn_id (wal w) ∧
      clean_shutdown (meta_decode (sector_of (dev w2) WAL_METADATA_SECTOR)) = 0 ∧
      (∀ s, 0 ≤ s → ¬ log_area s → sector_of (dev w2) s = sector_of (dev w) s) ∧
      ∀ i x, hist !! i = Some x → next_lsn (wal w) - lsn x ≤ 64 →
        sector_of (dev w2) (log_sector (lsn x)) = encode x.
Proof.
  destruct (wal_shutdown_run base hist w Hi Hid) as (w1 & Hs & Hfr & _ & (pad & Hpad & Hm) & Hlog).
  exists w1. split; [done|]. intros r Hb Hdev.
  pose proof (li_base _ _ _ Hi). pose proof (li_next _ _ _ Hi). pose proof (li_max _ _ _ Hi).
  rewrite <- Hdev in Hm, Hfr, Hlog.
  destruct (wal_init_clean_run r buf mu (next_lsn (wal w)) (next_txn_id (wal w)) pad Hb Hbuf)
    as (w2 & Hw2 & Hi2 & Ht2 & Hfr2 & Ho2 & Hcl); try done; [lia|].
  exists w2. do 4 (split; [done|]). split.
  - intros s Hs0 Ha. destruct Hfr as (_ & _ & Hf), Hfr2 as (_ & _ & Hf2). rewrite Hf2, Hf; done.
  - intros i x Hx Hwin. pose proof (log_sector_bound (lsn x)).
    rewrite Ho2; [by apply (Hlog i)|lia|].
    unfold WAL_METADATA_SECTOR, WAL_LOG_START_SECTOR, WAL_LOG_SECTORS; lia.
Qed.

(** When the metadata sector is corrupted, [wal_init] writes fresh metadata
    and then overwrites it with the corrupted copy it read: the magic number on
    disk stays wrong, so that after a crash in this session the next start again
    skips recovery. *)
Theorem wal_init_bad_magic_persists (w : wst) (buf : list wal_record) (mu : bool)
    (Hb : bootable w)
    (Hbytes : Forall is_byte (sector_of (dev w) WAL_METADATA_SECTOR))
    (Hbad : magic (meta_decode (sector_of (dev w) WAL_METADATA_SECTOR)) ≠ WAL_METADATA_MAGIC) :
  ∃ w', wal_init false (Some buf) mu w = Ret w' ∧ next_lsn (wal w') = 1 ∧
    magic (meta_decode (sector_of (dev w') WAL_METADATA_SECTOR)) =
    magic (meta_decode (sector_of (dev w) WAL_METADATA_SECTOR)).
Proof.
  pose proof Hb as [Hc Hnl Hsz]. pose proof (Cache.inv_dev _ Hc) as Hwf. pose proof meta_sector_pos.
  unfold wal_init. destruct (meta_read_run w Hwf Hsz) as (d1 & -> & Hs1 & Ht1).
  set (m := meta_decode _) in *. rewrite Ret_bind. cbn beta iota.
  rewrite (proj2 (Z.eqb_neq _ _) Hbad). cbn [negb].
  pose proof (dev_frame_read (dev w) d1 Hwf Hs1 Ht1) as Hfr1.
  destruct (meta_write_run (mk_meta WAL_METADATA_MAGIC 1 0 0 (replicate 492 0)) (set_dev w d1))
    as (d2 & Hw2 & Hfr2 & _).
  { apply Hfr1. }
  { change (dev (set_dev w d1)) with d1. by rewrite (proj1 Hfr1). }
  { by constructor; cbn; try done; try lia; apply length_replicate. }
  unfold wal_init_metadata. rewrite Hw2, Ret_bind.
  change (set_dev (set_dev w d1) d2) with (set_dev w d2).
  set (w2 := set_wal (set_dev w d2) _). change (dev (set_dev w d1)) with d1 in Hfr2.
  pose proof (dev_frame_trans _ _ _ Hfr1 Hfr2) as Hfr.
  set (m' := mk_meta (magic m) 0 (m_last_lsn m) (last_txn_id m) (m_padding m)).
  assert (meta_ok m') as Hm'.
  { assert (length (sector_of (dev w) WAL_METADATA_SECTOR) = 512%nat) as Hl
      by (apply sector_length; [lia|done]).
    assert (∀ o n, (o + n ≤ 512)%nat →
      0 ≤ le_val (slice (sector_of (dev w) WAL_METADATA_SECTOR) o n) < 256 ^ Z.of_nat n) as Hv.
    { intros o n Hn. rewrite <- (length_slice (sector_of (dev w) WAL_METADATA_SECTOR) o n) at 3 by lia.
      apply le_val_bound. by apply Forall_slice. }
    constructor; unfold m', m, meta_decode; cbn [magic clean_shutdown m_last_lsn last_txn_id m_padding];
      [apply (Hv 0%nat 4%nat)|done|apply (Hv 8%nat 8%nat)|apply (Hv 16%nat 4%nat)|rewrite length_slice];
      lia. }
  destruct (meta_write_run m' w2) as (d3 & -> & _ & Hm3 & _); try done.
  { apply Hfr. }
  { change (dev w2) with d2. by rewrite (proj1 Hfr). }
  rewrite Ret_bind. eexists. split; [reflexivity|]. split; [done|].
  change (dev (set_wal (set_dev w2 d3) _)) with d3. by rewrite Hm3, meta_roundtrip.
Qed.

(** ** A freshly formatted machine *)

Definition demo_sectors : list (list Z) := replicate 70 (replicate 512 0).

Definition demo_fs : Cache.cst :=
  Cache.cache_init
    (Cache.mk_cst (mk_block BLOCK_FILESYS demo_sectors 0 0)
       (replicate 64 (Cache.mk_entry 0 Cache.CACHE_INVALID false false (replicate 512 0))) 0 0
       Cache.CACHE_REPLACE_CLOCK (Cache.mk_stats 0 0 0 0) false
       (Cache.mk_prefetch (replicate 16 0) 0 0 false)).

Definition demo_boot : wst :=
  mk_w (mk_wal 1 0 1 None 0 0 [] 0 false (mk_wstats 0 0 0 0)) false demo_fs ∅ 0 None.

Definition demo : wst := set_wal demo_boot (wal_reset (replicate 8 zero_rec) (wal demo_boot)).

Lemma demo_cache : Cache.cache_inv demo_fs ∧ ∀ s, Cache.cview demo_fs s = demo_sectors !!! Z.to_nat s.
Proof.
  apply Cache.cache_init_inv; try done.
  - split; [done|]. apply Forall_replicate. reflexivity.
  - apply Forall_replicate. reflexivity.
Qed.

Lemma demo_nolog : no_log_cached demo_fs.
Proof.
  intros s (n & e & Hn & Hst & _). unfold demo_fs, Cache.cache_init in Hn.
  cbn [Cache.cache_prefetch_init Cache.with_prefetch Cache.with_flusher Cache.with_clock_hand
       Cache.with_cache Cache.cache] in Hn.
  apply list_lookup_fmap_Some in Hn as (? & -> & _). done.
Qed.

Lemma demo_bootable : bootable demo_boot.
Proof. constructor; [apply demo_cache|apply demo_nolog|reflexivity]. Qed.

Lemma demo_log : log_inv 1 [] demo.
Proof. apply log_inv_start; [apply demo_bootable|apply length_replicate|lia|done|done]. Qed.

Lemma demo_bytes s :
  0 ≤ s < block_size (dev demo) → ¬ log_area s → Forall is_byte (Cache.cview (fs demo) s).
Proof.
  intros Hs _. change (fs demo) with demo_fs. rewrite (proj2 demo_cache).
  change (block_size (dev demo)) with 70 in Hs.
  unfold demo_sectors. rewrite lookup_total_replicate_2 by lia.
  apply Forall_replicate. unfold is_byte. lia.
Qed.

Definition demo_op : write_op := mk_op 67 10 (replicate 300 7).

Lemma demo_op_ok : op_ok (block_size (dev demo)) demo_op.
Proof.
  change (block_size (dev demo)) with 70. constructor; cbn [demo_op op_sector op_offset op_data].
  - lia.
  - unfold log_area, WAL_METADATA_SECTOR, WAL_LOG_START_SECTOR, WAL_LOG_SECTORS. lia.
  - unfold op_length. cbn [demo_op op_data]. rewrite length_replicate. lia.
  - apply Forall_replicate. unfold is_byte. lia.
Qed.

Lemma wal_commit_durable_witness :
  ∃ h w1 w2 w3, wal_txn_begin true demo = Ret (Some h, w1) ∧ run_writes h [demo_op] w1 = Ret w2 ∧
    wal_txn_commit (Some h) w2 = Ret (true, w3) ∧ txns w3 !! h = None ∧
    Cache.cview (fs w3) 67 = replicate 10 0 ++ replicate 300 7 ++ replicate 202 0.
Proof.
  destruct (wal_commit_durable 1 [] demo [demo_op] demo_log) as
    (h & w1 & w2 & w3 & Hb & Hr & Hc & _ & _ & Hv & Ht).
  - cbn. lia.
  - exact demo_bytes.
  - constructor; [exact demo_op_ok|constructor].
  - cbn [sum_list_with]. unfold op_length. cbn [demo_op op_data]. rewrite length_replicate.
    vm_compute. lia.
  - cbn. lia.
  - exists h, w1, w2, w3. do 4 (split; [done|]).
    rewrite Hv by (lia || apply demo_op_ok). unfold write_view, op_view. cbn [foldl].
    change (fs demo) with demo_fs. rewrite (proj2 demo_cache). reflexivity.
Defined.

Lemma wal_abort_restores_witness :
  ∃ h w1 w2 w3, wal_txn_begin true demo = Ret (Some h, w1) ∧ run_writes h [demo_op] w1 = Ret w2 ∧
    wal_txn_abort true true (Some h) w2 = Ret w3 ∧ sector_of (dev w3) 67 = replicate 512 0.
Proof.
  destruct (wal_abort_restores 1 [] demo [demo_op] demo_log) as
    (h & w1 & w2 & w3 & Hb & Hr & Hc & _ & _ & Hv).
  - cbn. lia.
  - exact demo_bytes.
  - constructor; [exact demo_op_ok|constructor].
  - cbn [sum_list_with]. unfold op_length. cbn [demo_op op_data]. rewrite length_replicate.
    vm_compute. lia.
  - cbn. lia.
  - exists h, w1, w2, w3. do 3 (split; [done|]).
    destruct (Hv 67) as [_ ->]; [lia|apply demo_op_ok|].
    change (fs demo) with demo_fs. rewrite (proj2 demo_cache). reflexivity.
Defined.

(** The same machine with one open transaction. *)
Definition demo_open : wst := txn_put 5 (mk_txn 3 TXN_ACTIVE 1 1) demo.

Lemma demo_open_log : log_inv 1 [] demo_open.
Proof. apply (log_inv_txns 1 [] demo). apply demo_log. Qed.

Lemma wal_log_write_splits_witness :
  ∃ w' ws, wal_log_write (Some 5%nat) 67 (replicate 300 0) (replicate 300 7) 10 300 demo_open =
             Ret (true, w') ∧ length ws = 2%nat ∧
    concat ((λ r, take (Z.to_nat (rlength r)) (new_data r)) <$> ws) = replicate 300 7.
Proof.
  destruct (wal_log_write_splits 1 [] demo_open 5 (mk_txn 3 TXN_ACTIVE 1 1) 67 10 300
    (replicate 300 0) (replicate 300 7) demo_open_log) as (w' & ws & Hr & _ & _ & Hl & _ & _ & Hn);
    [apply lookup_insert_eq|reflexivity|cbn; lia|lia|lia|lia|lia
    |apply Forall_replicate; unfold is_byte; lia|apply Forall_replicate; unfold is_byte; lia
    |rewrite length_replicate; lia|rewrite length_replicate; lia|cbn; lia|].
  exists w', ws. split; [exact Hr|split; [exact Hl|exact Hn]].
Defined.

Lemma wal_clean_restart_witness :
  ∃ w1, wal_shutdown demo = Ret w1 ∧
    ∃ w2, wal_init false (Some (replicate 8 zero_rec)) true
            (mk_w (wal demo_boot) false (Cache.with_device demo_fs (dev w1)) ∅ 0 None) = Ret w2 ∧
      next_txn_id (wal w2) = 1.
Proof.
  destruct (wal_clean_restart 1 [] demo (replicate 8 zero_rec) true demo_log) as (w1 & Hs & Hx);
    [cbn; lia|apply length_replicate|].
  exists w1. split; [done|].
  destruct (wal_shutdown_run 1 [] demo demo_log ltac:(cbn; lia)) as (w1' & Hs' & Hfr & _).
  rewrite Hs in Hs'. injection Hs' as <-.
  destruct (cache_dev_frame demo_fs (dev w1) (proj1 demo_cache) demo_nolog Hfr) as (Hc & Hn & _).
  edestruct (Hx (mk_w (wal demo_boot) false (Cache.with_device demo_fs (dev w1)) ∅ 0 None))
    as (w2 & Hw & _ & Ht & _); [|reflexivity|by exists w2].
  constructor; [exact Hc|exact Hn|].
  change (WAL_METADATA_SECTOR < block_size (dev w1)). by rewrite (proj1 Hfr).
Defined.

Lemma wal_init_bad_magic_persists_witness :
  ∃ w', wal_init false (Some (replicate 8 zero_rec)) true demo_boot = Ret w' ∧
    magic (meta_decode (sector_of (dev w') WAL_METADATA_SECTOR)) = 0.
Proof.
  destruct (wal_init_bad_magic_persists demo_boot (replicate 8 zero_rec) true demo_bootable)
    as (w' & Hw & _ & Hm).
  - change (sector_of (dev demo_boot) WAL_METADATA_SECTOR) with (demo_sectors !!! 66%nat).
    unfold demo_sectors. rewrite lookup_total_replicate_2 by lia.
    apply Forall_replicate. unfold is_byte. lia.
  - vm_compute. done.
  - exists w'. split; [done|]. rewrite Hm. reflexivity.
Defined.

(** ** A transaction longer than the log *)

(** Begin, the given writes, abort. *)
Definition abort_script (ops : list write_op) (w : wst) : outcome wst :=
  '(h, w) ← wal_txn_begin true w;
  match h with
  | None => Ret w
  | Some h => w ← run_writes h ops w; wal_txn_abort true true (Some h) w
  end.

(** Writes of one byte each, at offsets 0, 1, ... of sector 67. *)
Definition byte_ops (n : nat) : list write_op := (λ k, mk_op 67 (Z.of_nat k) [7]) <$> seq 0 n.

(** Abort is silently incomplete for a transaction of more than 64 records:
    the log has wrapped over its first WRITE record, so the first byte keeps the
    aborted value while the other 64 are restored; with 64 writes all are. *)
Theorem wal_abort_partial :
  ((λ w, sector_of (dev w) 67) <$> abort_script (byte_ops 65) demo = Ret (7 :: replicate 511 0)) ∧
  ((λ w, sector_of (dev w) 67) <$> abort_script (byte_ops 64) demo = Ret (replicate 512 0)).
Proof. split; vm_compute; reflexivity. Qed.
End WalTxn.
