(* ===== verification/WalRecovery.v ===== *)
(** * Write-ahead log: crash recovery

    [wal_recover] against its specification: replay the committed writes in log
    order, then take back the writes of unfinished transactions, newest first.
    For a log of committed transactions and one unfinished transaction the disk
    after recovery is exactly the effect of the committed ones, whatever part of
    the writes had reached the disk before the crash. *)

From stdpp Require Import base tactics numbers list list_numbers option gmap sorting.
From S2P Require Import Prelude Block Cache WalRecord Wal WalProofs WalTxn.

Open Scope Z_scope.

Module WalRecovery.
Import Block WalRecord Wal WalProofs WalTxn.

(** ** Replaying on a view *)

Definition redo1 (r : wal_record) (v : Z → list Z) (s : Z) : list Z :=
  if s =? rsector r
  then splice (v s) (Z.to_nat (offset r)) (take (Z.to_nat (rlength r)) (new_data r)) else v s.

(** All records replayed, the oldest first. *)
Definition redo_view (recs : list wal_record) (v : Z → list Z) : Z → list Z :=
  fold_left (λ v r, redo1 r v) recs v.

Lemma redo_view_local recs v1 v2 s : v1 s = v2 s → redo_view recs v1 s = redo_view recs v2 s.
Proof.
  revert v1 v2. induction recs as [|r recs IH]; intros v1 v2 Hv; [done|].
  cbn [redo_view fold_left]. apply IH. unfold redo1. by rewrite Hv.
Qed.

(** A WRITE record that touches one sector of the device, outside the log. *)
Record writable (size : Z) (r : wal_record) : Prop := {
  wr_undo : undoable size r;
  wr_len : rlength r ≤ Z.of_nat (length (new_data r))
}.
















(** ** The exchange sort *)

Lemma sort_inner_spec x l m l' :
  sort_inner x l = (m, l') →
  m :: l' ≡ₚ x :: l ∧ u_lsn x ≤ u_lsn m ∧ Forall (λ y, u_lsn y ≤ u_lsn m) l'.
Proof.
  revert x m l'. induction l as [|y l IH]; intros x m l'; cbn [sort_inner].
  { intros [= <- <-]. split_and!; [done|lia|constructor]. }
  destruct (Z.ltb_spec (u_lsn x) (u_lsn y)).
  - destruct (sort_inner y l) as [m1 l1] eqn:Hs. intros [= <- <-].
    destruct (IH _ _ _ Hs) as (Hp & Hm & Hf). split_and!; [|lia|constructor; [lia|done]].
    rewrite Permutation_swap, Hp. done.
  - destruct (sort_inner x l) as [m1 l1] eqn:Hs. intros [= <- <-].
    destruct (IH _ _ _ Hs) as (Hp & Hm & Hf). split_and!; [|lia|constructor; [lia|done]].
    rewrite Permutation_swap, Hp, Permutation_swap. done.
Qed.

Definition lsn_ge (x y : undo_entry) : Prop := u_lsn y ≤ u_lsn x.

Lemma sort_outer_spec n l :
  (length l ≤ n)%nat → sort_outer n l ≡ₚ l ∧ StronglySorted lsn_ge (sort_outer n l).
Proof.
  revert l. induction n as [|n IH]; intros [|x l] Hl; cbn [sort_outer length] in *;
    [split; [done|constructor]|lia|split; [done|constructor]|].
  destruct (sort_inner x l) as [m l'] eqn:Hs. destruct (sort_inner_spec _ _ _ _ Hs) as (Hp & _ & Hf).
  assert (length l' = length l) as Hll by (apply Permutation_length in Hp; simpl in Hp; lia).
  destruct (IH l' ltac:(lia)) as [Hp' Hs']. split; [by rewrite Hp', Hp|].
  constructor; [done|]. rewrite Hp'. done.
Qed.

Lemma sorted_inj l x y :
  StronglySorted (λ x y, u_lsn x < u_lsn y) l → x ∈ l → y ∈ l → u_lsn x = u_lsn y → x = y.
Proof.
  induction 1 as [|z l Hl IH Hz]; [by intros ?%elem_of_nil|]. rewrite Forall_forall in Hz.
  intros [->|Hx]%elem_of_cons [->|Hy]%elem_of_cons Heq; [done| | |by apply IH].
  - apply Hz in Hy. lia.
  - apply Hz in Hx. lia.
Qed.

Lemma sorted_rev l : StronglySorted (λ x y, u_lsn x < u_lsn y) l → StronglySorted lsn_ge (rev l).
Proof.
  induction 1 as [|z l Hl IH Hz]; [constructor|]. cbn [rev]. apply StronglySorted_app_2; [|done|].
  - rewrite Forall_forall in Hz. intros x y Hx%list_elem_of_In%in_rev%list_elem_of_In
      Hy%list_elem_of_singleton. subst. unfold lsn_ge. apply Hz in Hx. lia.
  - repeat constructor.
Qed.

(** The sort of entries collected in increasing LSN order reverses them. *)
Lemma sort_undo_rev l :
  StronglySorted (λ x y, u_lsn x < u_lsn y) l → sort_undo l = rev l.
Proof.
  intros Hl. destruct (sort_outer_spec (length l) l ltac:(lia)) as [Hp Hs].
  apply (StronglySorted_unique_strong lsn_ge); [|exact Hs|by apply sorted_rev|].
  - intros x y Hx Hy H1 H2. unfold lsn_ge in *. apply (sorted_inj l); [done| | |lia].
    + by rewrite <- Hp.
    + by apply list_elem_of_In, in_rev, list_elem_of_In.
  - unfold sort_undo. rewrite Hp. apply Permutation_rev.
Qed.

(** ** The log on disk *)

(** The log sectors hold exactly the records [hist], with LSNs 1, 2, ...; the
    sectors behind them hold nothing with a valid checksum. *)
Definition log_image (d : block) (hist : list wal_record) : Prop :=
  (length hist ≤ 64)%nat ∧
  ∀ s, 0 ≤ s < WAL_LOG_SECTORS →
    match hist !! Z.to_nat s with
    | Some r => sector_of d (WAL_LOG_START_SECTOR + s) = encode r ∧ rec_ok r ∧
                checksum_ok r = true ∧ lsn r = 1 + s
    | None => checksum_ok (decode (sector_of d (WAL_LOG_START_SECTOR + s))) = false
    end.

(** The device differs from [d] only in its statistics. *)
Definition same_dev (d d' : block) : Prop := sectors d' = sectors d ∧ type d' = type d.

Lemma same_dev_sector d d' s : same_dev d d' → sector_of d' s = sector_of d s.
Proof. unfold sector_of. by intros [-> _]. Qed.

Lemma same_dev_trans d1 d2 d3 : same_dev d1 d2 → same_dev d2 d3 → same_dev d1 d3.
Proof. intros [? ?] [? ?]. split; congruence. Qed.

Lemma same_dev_wf d d' : same_dev d d' → wf d → wf d' ∧ block_size d' = block_size d.
Proof. unfold wf, block_size. by intros [-> ->]. Qed.

Lemma log_image_same d d' hist :
  (∀ s, 0 ≤ s → log_area s → sector_of d' s = sector_of d s) → log_image d hist → log_image d' hist.
Proof.
  intros Hs [Hl Hi]. split; [done|]. intros s Hr. specialize (Hi s Hr).
  rewrite Hs; [done|unfold WAL_LOG_START_SECTOR; lia|].
  unfold log_area, WAL_METADATA_SECTOR, WAL_LOG_START_SECTOR, WAL_LOG_SECTORS in *. lia.
Qed.

Section loops.
Context (hist : list wal_record).

Lemma read_log_run d s :
  log_image d hist → WAL_METADATA_SECTOR < block_size d → 0 ≤ s < WAL_LOG_SECTORS →
  ∃ d', read_log s d = Ret (hist !! Z.to_nat s, d') ∧ same_dev d d'.
Proof.
  intros [_ Hi] Hsz Hs. unfold read_log. specialize (Hi s Hs).
  unfold WAL_METADATA_SECTOR, WAL_LOG_START_SECTOR, WAL_LOG_SECTORS in *.
  destruct (block_read_spec d (2 + s) ltac:(lia)) as (d' & -> & ? & ?). rewrite Ret_bind.
  cbn beta iota zeta. exists d'. split; [|done].
  destruct (hist !! Z.to_nat s) as [r|].
  - destruct Hi as (-> & Hok & Hcs & _). by rewrite decode_encode, Hcs.
  - by rewrite Hi.
Qed.

Lemma drop_step s n :
  0 ≤ s → s + Z.of_nat (S n) = WAL_LOG_SECTORS → (length hist ≤ 64)%nat →
  (∃ r, hist !! Z.to_nat s = Some r ∧ drop (Z.to_nat s) hist = r :: drop (Z.to_nat (s + 1)) hist) ∨
  (hist !! Z.to_nat s = None ∧ drop (Z.to_nat s) hist = [] ∧ drop (Z.to_nat (s + 1)) hist = []).
Proof.
  intros Hs Hn Hl. replace (Z.to_nat (s + 1)) with (S (Z.to_nat s)) by lia.
  destruct (hist !! Z.to_nat s) as [r|] eqn:Hr.
  - left. exists r. split; [done|]. by apply drop_S.
  - right. apply lookup_ge_None in Hr. rewrite !drop_ge by lia. done.
Qed.

Definition track_rec (seen : list seen_txn) (r : wal_record) : list seen_txn :=
  track (txn_id r) (rtype r) (Z.to_nat MAX_TXNS) seen.

Lemma analysis_run n s seen mx d :
  log_image d hist → WAL_METADATA_SECTOR < block_size d → 0 ≤ s →
  s + Z.of_nat n = WAL_LOG_SECTORS →
  ∃ d', analysis n s seen mx d =
    Ret (fold_left track_rec (drop (Z.to_nat s) hist) seen,
         fold_left (λ m r, if m <? lsn r then lsn r else m) (drop (Z.to_nat s) hist) mx, d') ∧
    same_dev d d'.
Proof.
  revert s seen mx d. induction n as [|n IH]; intros s seen mx d Hi Hsz Hs Hn.
  { exists d. rewrite drop_ge; [done|]. destruct Hi as [Hl _]. unfold WAL_LOG_SECTORS in Hn. lia. }
  cbn [analysis]. destruct (read_log_run d s Hi Hsz ltac:(lia)) as (d1 & -> & Hd1). rewrite Ret_bind.
  cbn beta iota.
  assert (log_image d1 hist) as Hi1.
  { apply (log_image_same d); [|done]. intros. by apply same_dev_sector. }
  assert (WAL_METADATA_SECTOR < block_size d1) as Hsz1 by (unfold block_size; by rewrite (proj1 Hd1)).
  destruct (drop_step s n Hs Hn (proj1 Hi)) as [(r & Hr & ->)|(Hr & -> & Hd)]; rewrite Hr.
  - destruct Hi as [_ Hi]. specialize (Hi s ltac:(lia)). rewrite Hr in Hi. destruct Hi as (_ & _ & _ & Hlsn).
    rewrite (proj2 (Z.eqb_neq (lsn r) 0)) by lia.
    destruct (IH (s + 1) (track_rec seen r) (if mx <? lsn r then lsn r else mx) d1)
      as (d2 & Hr2 & Hd2); [done|done|lia|lia|].
    exists d2. split; [exact Hr2|by eapply same_dev_trans].
  - destruct (IH (s + 1) seen mx d1) as (d2 & Hr2 & Hd2); [done|done|lia|lia|]. rewrite Hd in Hr2.
    exists d2. split; [exact Hr2|by eapply same_dev_trans].
Qed.

(** The data writes of recovery leave the log alone and change one sector. *)
Lemma patch_run d r data :
  wf d → undoable (block_size d) r → rlength r ≤ Z.of_nat (length data) →
  ∃ d', patch (rsector r) (offset r) (rlength r) data d = Ret d' ∧ wf d' ∧
    block_size d' = block_size d ∧
    ∀ s, 0 ≤ s → sector_of d' s =
      if s =? rsector r
      then splice (sector_of d s) (Z.to_nat (offset r)) (take (Z.to_nat (rlength r)) data)
      else sector_of d s.
Proof.
  intros Hwf [Hs Hnl (Ho & Hn & He) _] Hlen. unfold patch.
  destruct (block_read_spec d (rsector r) Hs) as (d1 & -> & Hsec & Hty). rewrite Ret_bind. cbn beta iota.
  pose proof (sector_length d (rsector r) Hs Hwf) as Hl.
  unfold memcpy. rewrite !(proj2 (Nat.leb_le _ _)) by lia. cbn [andb]. rewrite Ret_bind.
  destruct (same_dev_wf d d1 (conj Hsec Hty) Hwf) as [Hwf1 Hsz1].
  destruct (block_write_spec d1 (rsector r) ltac:(lia)
    (splice (sector_of d (rsector r)) (Z.to_nat (offset r)) (take (Z.to_nat (rlength r)) data)))
    as (d2 & Hr & Hwf2 & Hsz2 & Hc); [done|rewrite length_splice; rewrite ?length_take; lia|].
  exists d2. split_and!; [exact Hr|done|congruence|]. intros s Hs0. rewrite Hc by done.
  destruct (Z.eqb_spec s (rsector r)) as [->|]; [done|]. by apply same_dev_sector.
Qed.

Definition is_write_of (ids : list Z) (r : wal_record) : Prop :=
  rtype r = WAL_WRITE ∧ txn_id r ∈ ids.

#[global] Instance is_write_of_dec ids r : Decision (is_write_of ids r).
Proof. unfold is_write_of. apply _. Defined.

Lemma is_write_of_bool ids r :
  (rtype r =? WAL_WRITE) && bool_decide (txn_id r ∈ ids) = bool_decide (is_write_of ids r).
Proof.
  unfold is_write_of. destruct (Z.eqb_spec (rtype r) WAL_WRITE); cbn [andb].
  - apply bool_decide_ext. naive_solver.
  - symmetry. apply bool_decide_eq_false. naive_solver.
Qed.

Lemma redo_run n s ids d :
  log_image d hist → wf d → WAL_METADATA_SECTOR < block_size d → 0 ≤ s →
  s + Z.of_nat n = WAL_LOG_SECTORS →
  Forall (λ r, rtype r = WAL_WRITE → writable (block_size d) r) hist →
  ∃ d', redo n s ids d = Ret d' ∧ wf d' ∧ block_size d' = block_size d ∧ log_image d' hist ∧
    ∀ x, 0 ≤ x → sector_of d' x =
      redo_view (filter (is_write_of ids) (drop (Z.to_nat s) hist)) (sector_of d) x.
Proof.
  revert s d. induction n as [|n IH]; intros s d Hi Hwf Hsz Hs Hn Hw.
  { exists d. rewrite drop_ge; [done|]. destruct Hi as [Hl _]. unfold WAL_LOG_SECTORS in Hn. lia. }
  cbn [redo]. destruct (read_log_run d s Hi Hsz ltac:(lia)) as (d1 & -> & Hd1). rewrite Ret_bind.
  cbn beta iota. destruct (same_dev_wf d d1 Hd1 Hwf) as [Hwf1 Hsz1].
  assert (log_image d1 hist) as Hi1.
  { apply (log_image_same d); [|done]. intros. by apply same_dev_sector. }
  assert (∀ d2, log_image d2 hist → wf d2 → block_size d2 = block_size d →
    ∃ d', redo n (s + 1) ids d2 = Ret d' ∧ wf d' ∧ block_size d' = block_size d ∧ log_image d' hist ∧
      ∀ x, 0 ≤ x → sector_of d' x =
        redo_view (filter (is_write_of ids) (drop (Z.to_nat (s + 1)) hist)) (sector_of d2) x) as IH'.
  { intros d2 Hi2 Hwf2 Hsz2. rewrite <- Hsz2. apply IH; try done; rewrite ?Hsz2; done || lia. }
  destruct (drop_step s n Hs Hn (proj1 Hi)) as [(r & Hr & ->)|(Hr & -> & Hd)]; rewrite Hr.
  2: { rewrite Hd in IH'. destruct (IH' d1 Hi1 Hwf1 Hsz1) as (d' & ? & ? & ? & ? & Hx). exists d'.
       split_and!; try done. intros x Hx0. rewrite Hx by done. by apply same_dev_sector. }
  rewrite is_write_of_bool. rewrite filter_cons.
  case_bool_decide as Hc; [rewrite decide_True by done|rewrite decide_False by done].
  - pose proof (Forall_lookup_1 _ _ _ _ Hw Hr (proj1 Hc)) as [Hu Hlen].
    destruct (patch_run d1 r (new_data r) Hwf1) as (d2 & -> & Hwf2 & Hsz2 & Hp); [by rewrite Hsz1|done|].
    rewrite Ret_bind. destruct (IH' d2) as (d' & ? & ? & ? & ? & Hx).
    + apply (log_image_same d1); [|done]. intros x Hx0 Ha. rewrite Hp by done.
      destruct (Z.eqb_spec x (rsector r)) as [->|]; [|done]. by destruct (un_nolog _ _ Hu).
    + done.
    + congruence.
    + exists d'. split_and!; try done. intros x Hx0. rewrite Hx by done.
      cbn [redo_view fold_left]. apply redo_view_local. unfold redo1. rewrite Hp by done.
      by rewrite !(same_dev_sector d d1).
  - destruct (IH' d1 Hi1 Hwf1 Hsz1) as (d' & ? & ? & ? & ? & Hx). exists d'. split_and!; try done.
    intros x Hx0. rewrite Hx by done. apply redo_view_local. by apply same_dev_sector.
Qed.

Definition undo_of (r : wal_record) : undo_entry :=
  mk_undo (rsector r) (offset r) (rlength r) (take (Z.to_nat (rlength r)) (old_data r)) (lsn r).

Lemma undo_scan_run n s ids acc d :
  log_image d hist → WAL_METADATA_SECTOR < block_size d → 0 ≤ s →
  s + Z.of_nat n = WAL_LOG_SECTORS → (length acc + n ≤ 64)%nat →
  Forall (λ r, rtype r = WAL_WRITE → rlength r ≤ Z.of_nat (length (old_data r))) hist →
  ∃ d', undo_scan n s ids acc d =
    Ret (acc ++ (undo_of <$> filter (is_write_of ids) (drop (Z.to_nat s) hist)), d') ∧ same_dev d d'.
Proof.
  revert s acc d. induction n as [|n IH]; intros s acc d Hi Hsz Hs Hn Hacc Hw.
  { exists d. rewrite drop_ge, filter_nil; [by rewrite fmap_nil, app_nil_r|].
    destruct Hi as [Hl _]. unfold WAL_LOG_SECTORS in Hn. lia. }
  cbn [undo_scan]. destruct (read_log_run d s Hi Hsz ltac:(lia)) as (d1 & -> & Hd1). rewrite Ret_bind.
  cbn beta iota.
  assert (log_image d1 hist) as Hi1.
  { apply (log_image_same d); [|done]. intros. by apply same_dev_sector. }
  assert (WAL_METADATA_SECTOR < block_size d1) as Hsz1 by (unfold block_size; by rewrite (proj1 Hd1)).
  assert (∀ acc', (length acc' + n ≤ 64)%nat →
    ∃ d', undo_scan n (s + 1) ids acc' d1 =
      Ret (acc' ++ (undo_of <$> filter (is_write_of ids) (drop (Z.to_nat (s + 1)) hist)), d') ∧
      same_dev d d') as IH'.
  { intros acc' Ha. destruct (IH (s + 1) acc' d1) as (d' & Hr & Hd); try done; [lia|lia|].
    exists d'. split; [done|by eapply same_dev_trans]. }
  destruct (drop_step s n Hs Hn (proj1 Hi)) as [(r & Hr & ->)|(Hr & -> & Hd)]; rewrite Hr.
  2: { rewrite Hd in IH'. apply IH'. lia. }
  rewrite is_write_of_bool, filter_cons. rewrite (proj2 (Z.ltb_lt _ _)) by (unfold MAX_UNDO; lia).
  rewrite andb_true_r.
  case_bool_decide as Hc; [rewrite decide_True by done|rewrite decide_False by done; apply IH'; lia].
  pose proof (Forall_lookup_1 _ _ _ _ Hw Hr (proj1 Hc)) as Hlen.
  unfold memcpy_from. rewrite (proj2 (Nat.leb_le _ _)) by lia. rewrite Ret_bind.
  destruct (IH' (acc ++ [undo_of r])) as (d' & Hr' & Hd'); [rewrite length_app; simpl; lia|].
  rewrite <- app_assoc in Hr'. exists d'. split; [exact Hr'|done].
Qed.

Lemma undo_apply_run us d :
  wf d → Forall (writable (block_size d)) us →
  ∃ d', undo_apply (rev (undo_of <$> us)) d = Ret d' ∧ wf d' ∧ block_size d' = block_size d ∧
    ∀ x, 0 ≤ x → sector_of d' x = undo_view us (sector_of d) x.
Proof.
  revert d. induction us as [|r us IH] using rev_ind; intros d Hwf Hw.
  { exists d. done. }
  apply Forall_app in Hw as [Hw Hr]. apply Forall_cons_1 in Hr as [[Hu Hlen] _].
  rewrite fmap_app, rev_app_distr. cbn [fmap list_fmap rev app undo_apply].
  cbn [undo_of u_sector u_offset u_length u_old_data].
  assert (length (take (Z.to_nat (rlength r)) (old_data r)) = Z.to_nat (rlength r)) as Hlt
    by (rewrite length_take; destruct Hu; lia).
  destruct (patch_run d r (take (Z.to_nat (rlength r)) (old_data r)) Hwf Hu) as
    (d1 & -> & Hwf1 & Hsz1 & Hp); [rewrite Hlt; destruct Hu; lia|]. rewrite Ret_bind.
  destruct (IH d1 Hwf1) as (d2 & -> & Hwf2 & Hsz2 & Hv); [by rewrite Hsz1|].
  exists d2. split_and!; [done|done|congruence|]. intros x Hx. rewrite Hv, undo_view_app by done.
  apply undo_view_local. cbn [undo_view foldr]. unfold undo1. rewrite Hp by done.
  rewrite take_take, Nat.min_id. done.
Qed.
End loops.

(** ** Analysis *)

(** What the table [seen] says about the records [recs]. *)
Record seen_ok (recs : list wal_record) (seen : list seen_txn) : Prop := {
  so_len : (length seen ≤ length recs)%nat;
  so_id : ∀ id, id ≠ 0 → (id ∈ s_id <$> seen) ↔ ∃ r, r ∈ recs ∧ txn_id r = id;
  so_zero : 0 ∉ s_id <$> seen;
  so_committed : ∀ t, t ∈ seen →
    s_committed t = true ↔ ∃ r, r ∈ recs ∧ txn_id r = s_id t ∧ rtype r = WAL_COMMIT;
  so_aborted : ∀ t, t ∈ seen →
    s_aborted t = true ↔ ∃ r, r ∈ recs ∧ txn_id r = s_id t ∧ rtype r = WAL_ABORT
}.

Lemma note_outcome_id ty t : s_id (note_outcome ty t) = s_id t.
Proof. unfold note_outcome. by repeat destruct (_ =? _). Qed.

(** The effect of [track] on the table. *)
Lemma track_spec id ty room seen :
  (length seen < room)%nat → NoDup (s_id <$> seen) →
  NoDup (s_id <$> track id ty room seen) ∧
  (length (track id ty room seen) ≤ S (length seen))%nat ∧
  (∀ t, t ∈ track id ty room seen ↔
     (t ∈ seen ∧ s_id t ≠ id) ∨
     (∃ t0, t0 ∈ seen ∧ s_id t0 = id ∧ t = note_outcome ty t0) ∨
     (id ≠ 0 ∧ id ∉ s_id <$> seen ∧ t = note_outcome ty (mk_seen id false false))).
Proof.
  revert room. induction seen as [|x seen IH]; intros room Hr Hnd; cbn [track length] in *.
  { destruct room as [|room]; [lia|]. destruct (Z.eqb_spec id 0) as [->|Hne].
    - split_and!; [constructor|simpl; lia|]. intros t. split; [by intros ?%elem_of_nil|].
      intros [[?%elem_of_nil _]|[(t0 & ?%elem_of_nil & _)|[? _]]]; done.
    - split_and!; [cbn; apply NoDup_singleton|simpl; lia|]. intros t. rewrite list_elem_of_singleton. split.
      + intros ->. right; right. split_and!; [done|set_solver|done].
      + intros [[?%elem_of_nil _]|[(t0 & ?%elem_of_nil & _)|(_ & _ & ->)]]; done. }
  rewrite fmap_cons in Hnd. apply NoDup_cons in Hnd as [Hx Hnd].
  destruct (Z.eqb_spec (s_id x) id) as [Hid|Hid].
  - split_and!.
    + rewrite fmap_cons, note_outcome_id. by constructor.
    + simpl. lia.
    + intros t. rewrite elem_of_cons. split.
      * intros [->|Ht]; [right; left; exists x; split_and!; [by left|done|done]|].
        left. split; [by right|]. intros Heq. apply Hx. rewrite Hid, <- Heq. by apply list_elem_of_fmap_2.
      * intros [[[->|?]%elem_of_cons Hn]|[(t0 & [->|Ht0]%elem_of_cons & H0 & ->)|(_ & Hn & _)]].
        -- done.
        -- by right.
        -- by left.
        -- destruct Hx. rewrite Hid, <- H0. by apply list_elem_of_fmap_2.
        -- destruct Hn. rewrite fmap_cons, Hid. by left.
  - destruct (IH (pred room) ltac:(lia) Hnd) as (Hnd' & Hlen & Hin). split_and!.
    + rewrite fmap_cons. constructor; [|done].
      intros (t & Heq & Ht)%list_elem_of_fmap. apply Hin in Ht as [[Ht _]|[(t0 & Ht0 & Hi0 & ->)|(_ & _ & ->)]].
      * apply Hx. rewrite Heq. by apply list_elem_of_fmap_2.
      * rewrite note_outcome_id in Heq. congruence.
      * rewrite note_outcome_id in Heq. done.
    + simpl. lia.
    + intros t. rewrite elem_of_cons, Hin, fmap_cons, not_elem_of_cons. split.
      * intros [->|[[? ?]|[(t0 & ? & ? & ?)|(? & ? & ?)]]].
        -- left. split; [by left|done].
        -- left. split; [by right|done].
        -- right; left. exists t0. split_and!; [by right|done|done].
        -- right; right. split_and!; [done|congruence|done|done].
      * intros [[[->|?]%elem_of_cons Hn]|[(t0 & [->|Ht0]%elem_of_cons & H0 & ->)|(? & [_ ?] & ->)]].
        -- by left.
        -- right; left. done.
        -- done.
        -- right; right; left. by exists t0.
        -- right; right; right. done.
Qed.

Lemma note_committed ty t :
  s_committed (note_outcome ty t) = true ↔ ty = WAL_COMMIT ∨ s_committed t = true.
Proof.
  unfold note_outcome. destruct (Z.eqb_spec ty WAL_COMMIT), (Z.eqb_spec ty WAL_ABORT); simpl; naive_solver.
Qed.

Lemma note_aborted ty t :
  s_aborted (note_outcome ty t) = true ↔ ty = WAL_ABORT ∨ s_aborted t = true.
Proof.
  assert (WAL_COMMIT ≠ WAL_ABORT) by done. unfold note_outcome.
  destruct (Z.eqb_spec ty WAL_COMMIT), (Z.eqb_spec ty WAL_ABORT); simpl; naive_solver congruence.
Qed.

(** A flag of the table after one more record, for both outcomes. *)
Lemma track_flag (flag : seen_txn → bool) (kind : Z) recs seen r t :
  (∀ ty t, flag (note_outcome ty t) = true ↔ ty = kind ∨ flag t = true) →
  flag (mk_seen (txn_id r) false false) = false →
  seen_ok recs seen →
  (∀ t, t ∈ seen → flag t = true ↔ ∃ r, r ∈ recs ∧ txn_id r = s_id t ∧ rtype r = kind) →
  (t ∈ seen ∧ s_id t ≠ txn_id r) ∨
  (∃ t0, t0 ∈ seen ∧ s_id t0 = txn_id r ∧ t = note_outcome (rtype r) t0) ∨
  (txn_id r ≠ 0 ∧ txn_id r ∉ s_id <$> seen ∧
   t = note_outcome (rtype r) (mk_seen (txn_id r) false false)) →
  flag t = true ↔ ∃ x, x ∈ recs ++ [r] ∧ txn_id x = s_id t ∧ rtype x = kind.
Proof.
  intros Hnote Hnew Hok Hold Ht.
  assert ((∃ x, x ∈ recs ++ [r] ∧ txn_id x = s_id t ∧ rtype x = kind) ↔
          (∃ x, x ∈ recs ∧ txn_id x = s_id t ∧ rtype x = kind) ∨
          (txn_id r = s_id t ∧ rtype r = kind)) as ->.
  { split.
    - intros (x & [?|Hx%list_elem_of_singleton]%elem_of_app & ? & ?); [left; eauto|subst; eauto].
    - intros [(x & ? & ? & ?)|[? ?]]; [exists x|exists r]; rewrite elem_of_app; set_solver. }
  destruct Ht as [[Ht Hne]|[(t0 & Ht0 & Hid & ->)|(Hz & Hnin & ->)]].
  - rewrite (Hold t Ht). split; [auto|]. intros [?|[? _]]; [done|congruence].
  - rewrite Hnote, note_outcome_id, (Hold t0 Ht0). naive_solver.
  - rewrite Hnote, note_outcome_id, Hnew. cbn [s_id]. split; [intros [?|?]; [naive_solver|done]|].
    intros [(x & Hx & Hxi & _)|[_ ?]]; [|auto].
    destruct Hnin. apply (so_id _ _ Hok); [done|eauto].
Qed.

Lemma fold_track recs :
  (length recs ≤ 64)%nat →
  NoDup (s_id <$> fold_left track_rec recs []) ∧ seen_ok recs (fold_left track_rec recs []).
Proof.
  induction recs as [|r recs IH] using rev_ind; intros Hl.
  { split; [constructor|]. constructor; cbn; try done.
    - intros id _. split; [by intros ?%elem_of_nil|by intros (? & ?%elem_of_nil & _)].
    - by apply not_elem_of_nil.
    - by intros ? ?%elem_of_nil.
    - by intros ? ?%elem_of_nil. }
  rewrite length_app in Hl. simpl in Hl. destruct (IH ltac:(lia)) as [Hnd Hok]. clear IH.
  rewrite fold_left_app. cbn [fold_left]. set (seen := fold_left track_rec recs []) in *.
  destruct (track_spec (txn_id r) (rtype r) (Z.to_nat MAX_TXNS) seen) as (Hnd' & Hlen & Hin);
    [pose proof (so_len _ _ Hok); unfold MAX_TXNS; lia|done|].
  fold (track_rec seen r) in *. split; [done|]. constructor.
  - rewrite length_app. simpl. pose proof (so_len _ _ Hok). lia.
  - intros id Hid. split.
    + intros (t & -> & [[Ht _]|[(t0 & Ht0 & Hi0 & ->)|(_ & _ & ->)]]%Hin)%list_elem_of_fmap.
      * destruct (proj1 (so_id _ _ Hok (s_id t) Hid)) as (x & ? & ?); [by apply list_elem_of_fmap_2|].
        exists x. rewrite elem_of_app. auto.
      * exists r. rewrite elem_of_app, note_outcome_id. set_solver.
      * exists r. rewrite elem_of_app, note_outcome_id. set_solver.
    + intros (x & Hx & <-). apply list_elem_of_fmap.
      destruct (decide (txn_id x ∈ s_id <$> seen)) as [Hs|Hs].
      * apply list_elem_of_fmap in Hs as (t & Heq & Ht).
        destruct (decide (s_id t = txn_id r)) as [Hr|Hr].
        -- exists (note_outcome (rtype r) t). rewrite note_outcome_id. split; [done|].
           apply Hin. right; left. eauto.
        -- exists t. split; [done|]. apply Hin. left. eauto.
      * apply elem_of_app in Hx as [Hx|Hx%list_elem_of_singleton].
        -- destruct Hs. apply (so_id _ _ Hok); eauto.
        -- subst x. exists (note_outcome (rtype r) (mk_seen (txn_id r) false false)).
           rewrite note_outcome_id. split; [done|]. apply Hin. auto.
  - intros (t & H0 & [[Ht _]|[(t0 & Ht0 & Hi0 & ->)|(Hz & _ & ->)]]%Hin)%list_elem_of_fmap.
    + apply (so_zero _ _ Hok). rewrite H0. by apply list_elem_of_fmap_2.
    + apply (so_zero _ _ Hok). rewrite note_outcome_id in H0. rewrite H0. by apply list_elem_of_fmap_2.
    + by rewrite note_outcome_id in H0.
  - intros t Ht%Hin. apply (track_flag s_committed WAL_COMMIT recs seen); try done;
      [apply note_committed|apply Hok].
  - intros t Ht%Hin. apply (track_flag s_aborted WAL_ABORT recs seen); try done;
      [apply note_aborted|apply Hok].
Qed.

(** The transactions recovery replays, and those it takes back. *)
Lemma committed_spec recs id :
  (length recs ≤ 64)%nat →
  id ∈ committed_txns (fold_left track_rec recs []) ↔
  id ≠ 0 ∧ ∃ r, r ∈ recs ∧ txn_id r = id ∧ rtype r = WAL_COMMIT.
Proof.
  intros Hl. destruct (fold_track recs Hl) as [Hnd Hok]. unfold committed_txns.
  rewrite list_elem_of_fmap. setoid_rewrite list_elem_of_filter. split.
  - intros (t & -> & Hc & Ht). split; [|by apply (so_committed _ _ Hok)].
    intros H0. apply (so_zero _ _ Hok). rewrite <- H0. by apply list_elem_of_fmap_2.
  - intros (Hz & r & Hr & Hid & Hty).
    assert (id ∈ s_id <$> fold_left track_rec recs []) as (t & -> & Ht)%list_elem_of_fmap
      by (apply (so_id _ _ Hok); eauto).
    exists t. split_and!; [done|apply (so_committed _ _ Hok); eauto|done].
Qed.

Lemma uncommitted_spec recs id :
  (length recs ≤ 64)%nat →
  id ∈ uncommitted_txns (fold_left track_rec recs []) ↔
  id ≠ 0 ∧ (∃ r, r ∈ recs ∧ txn_id r = id) ∧
  ∀ r, r ∈ recs → txn_id r = id → rtype r ≠ WAL_COMMIT ∧ rtype r ≠ WAL_ABORT.
Proof.
  intros Hl. destruct (fold_track recs Hl) as [Hnd Hok]. unfold uncommitted_txns.
  rewrite list_elem_of_fmap. setoid_rewrite list_elem_of_filter. split.
  - intros (t & -> & [Hc Ha] & Ht).
    assert (s_id t ≠ 0) as Hz.
    { intros H0. apply (so_zero _ _ Hok). rewrite <- H0. by apply list_elem_of_fmap_2. }
    split_and!; [done|by apply (so_id _ _ Hok); [|apply list_elem_of_fmap_2]|].
    intros r Hr Hid. split; intros Hty.
    + rewrite (proj2 (so_committed _ _ Hok t Ht)) in Hc by eauto. done.
    + rewrite (proj2 (so_aborted _ _ Hok t Ht)) in Ha by eauto. done.
  - intros (Hz & He & Hno).
    pose proof (proj2 (so_id _ _ Hok id Hz) He) as (t & -> & Ht)%list_elem_of_fmap.
    exists t. split_and!; [done| | |done]; apply not_true_iff_false.
    + intros (r & Hr & Hid & Hty)%(so_committed _ _ Hok t Ht). by destruct (Hno r Hr Hid).
    + intros (r & Hr & Hid & Hty)%(so_aborted _ _ Hok t Ht). by destruct (Hno r Hr Hid).
Qed.

(** ** Recovery *)

(** A write of a transaction whose COMMIT record is in the log. *)
Definition committed_in (hist : list wal_record) (r : wal_record) : Prop :=
  rtype r = WAL_WRITE ∧ txn_id r ≠ 0 ∧
  Exists (λ c, txn_id c = txn_id r ∧ rtype c = WAL_COMMIT) hist.

(** A write of a transaction with neither a COMMIT nor an ABORT record. *)
Definition unfinished_in (hist : list wal_record) (r : wal_record) : Prop :=
  rtype r = WAL_WRITE ∧ txn_id r ≠ 0 ∧
  Forall (λ c, txn_id c ≠ txn_id r ∨ (rtype c ≠ WAL_COMMIT ∧ rtype c ≠ WAL_ABORT)) hist.

#[global] Instance committed_in_dec hist r : Decision (committed_in hist r).
Proof. unfold committed_in. apply _. Defined.
#[global] Instance unfinished_in_dec hist r : Decision (unfinished_in hist r).
Proof. unfold unfinished_in. apply _. Defined.

Definition committed_writes (hist : list wal_record) : list wal_record :=
  filter (committed_in hist) hist.
Definition unfinished_writes (hist : list wal_record) : list wal_record :=
  filter (unfinished_in hist) hist.

Lemma filter_ext_in {A} (P Q : A → Prop) `{!∀ x, Decision (P x), !∀ x, Decision (Q x)} (l : list A) :
  (∀ x, x ∈ l → P x ↔ Q x) → filter P l = filter Q l.
Proof.
  induction l as [|x l IH]; intros He; [done|].
  rewrite !filter_cons, IH by (intros; apply He; by right).
  pose proof (He x ltac:(by left)) as [H1 H2].
  destruct (decide (P x)) as [Hp|Hp], (decide (Q x)) as [Hq|Hq]; try done;
    exfalso; auto.
Qed.

Section recover.
Context (hist : list wal_record) (Hlen : (length hist ≤ 64)%nat).
Let seen := fold_left track_rec hist [].

Lemma committed_filter :
  filter (is_write_of (committed_txns seen)) hist = committed_writes hist.
Proof using Hlen.
  apply filter_ext_in. intros r Hr. unfold is_write_of, committed_in, seen.
  rewrite committed_spec, Exists_exists by done. naive_solver.
Qed.

Lemma uncommitted_filter :
  filter (is_write_of (uncommitted_txns seen)) hist = unfinished_writes hist.
Proof using Hlen.
  apply filter_ext_in. intros r Hr. unfold is_write_of, unfinished_in, seen.
  rewrite uncommitted_spec, Forall_forall by done. split.
  - intros (Hw & Hz & _ & Hno). split_and!; [done|done|]. intros c Hc.
    destruct (decide (txn_id c = txn_id r)); [right; by apply Hno|by left].
  - intros (Hw & Hz & Hno). split_and!; [done|done|eauto|]. intros c Hc Hid.
    destruct (Hno c Hc); [done|done].
Qed.

Lemma fold_max_lsn m :
  fold_left (λ m r, if m <? lsn r then lsn r else m) hist m = fold_left Z.max (lsn <$> hist) m.
Proof.
  revert m. induction hist as [|r l IH]; intros m; [done|]. cbn [fold_left fmap list_fmap].
  replace (Z.max m (lsn r)) with (if m <? lsn r then lsn r else m); [apply IH; simpl in Hlen; lia|].
  destruct (Z.ltb_spec m (lsn r)); lia.
Qed.
End recover.

Lemma log_image_hist d hist i r :
  log_image d hist → hist !! i = Some r →
  rec_ok r ∧ checksum_ok r = true ∧ lsn r = 1 + Z.of_nat i.
Proof.
  intros [Hl Hi] Hr. pose proof (lookup_lt_Some _ _ _ Hr).
  specialize (Hi (Z.of_nat i)). rewrite Nat2Z.id, Hr in Hi. unfold WAL_LOG_SECTORS in Hi.
  destruct Hi as (_ & ? & ? & ?); [lia|done].
Qed.

Lemma log_image_max d hist :
  log_image d hist → fold_left (λ m r, if m <? lsn r then lsn r else m) hist 0 = Z.of_nat (length hist).
Proof.
  intros Hi. rewrite fold_max_lsn by apply Hi.
  destruct (decide (hist = [])) as [->|Hne]; [done|].
  apply fold_max_last; [|lia|].
  - intros y (r & -> & (i & Hr)%list_elem_of_lookup)%list_elem_of_fmap.
    destruct (log_image_hist _ _ _ _ Hi Hr) as (_ & _ & ->). apply lookup_lt_Some in Hr. lia.
  - destruct (lookup_lt_is_Some_2 hist (length hist - 1)) as [r Hr].
    { destruct hist; [done|simpl; lia]. }
    destruct (log_image_hist _ _ _ _ Hi Hr) as (_ & _ & Hl). pose proof (lookup_lt_Some _ _ _ Hr).
    replace (Z.of_nat (length hist)) with (lsn r) by lia.
    by apply list_elem_of_fmap_2, list_elem_of_lookup_2 with (length hist - 1)%nat.
Qed.

(** The undo entries of a log in LSN order are collected in LSN order. *)
Lemma undo_sorted d hist (P : wal_record → Prop) `{!∀ r, Decision (P r)} :
  log_image d hist → StronglySorted (λ x y, u_lsn x < u_lsn y) (undo_of <$> filter P hist).
Proof.
  intros Hi. assert (StronglySorted (λ x y, lsn x < lsn y) hist) as Hs.
  { assert (∀ n i l, drop i hist = l → length l = n →
      StronglySorted (λ x y, lsn x < lsn y) l) as Hgen; [|by apply (Hgen (length hist) 0%nat)].
    induction n as [|n IH]; intros i l Hd Hl; [destruct l; [constructor|done]|].
    destruct l as [|r l]; [done|]. simpl in Hl.
    assert (hist !! i = Some r) as Hr by (rewrite <- (Nat.add_0_r i), <- lookup_drop, Hd; done).
    assert (drop (S i) hist = l) as Hd'.
    { replace (S i) with (i + 1)%nat by lia. rewrite <- drop_drop, Hd. done. }
    constructor; [by apply (IH (S i)); [|lia]|]. apply Forall_lookup. intros j x Hx.
    rewrite <- Hd', lookup_drop in Hx.
    destruct (log_image_hist _ _ _ _ Hi Hr) as (_ & _ & ->).
    destruct (log_image_hist _ _ _ _ Hi Hx) as (_ & _ & ->). lia. }
  clear Hi. induction Hs as [|r l Hl IH Hf]; [constructor|]. rewrite filter_cons.
  destruct (decide (P r)); [|done]. rewrite fmap_cons. constructor; [done|].
  rewrite Forall_fmap. apply Forall_forall. intros x [_ Hx]%list_elem_of_filter.
  rewrite Forall_forall in Hf. by apply Hf.
Qed.

Lemma next_id_fold seen m :
  Forall (λ t, 0 ≤ s_id t < 2 ^ 32 - 1) seen →
  let n := fold_left (λ id t, if id <=? s_id t then u32 (s_id t + 1) else id) seen m in
  m ≤ n ∧ Forall (λ t, s_id t < n) seen.
Proof.
  intros Hs. revert m. induction Hs as [|t seen Ht Hs IH]; intros m; [split; [done|constructor]|].
  cbn [fold_left]. rewrite (wrap_small 32 (s_id t + 1)) by lia. cbn zeta in IH |- *.
  destruct (IH (if m <=? s_id t then s_id t + 1 else m)) as [H1 H2].
  destruct (Z.leb_spec m (s_id t)); (split; [lia|constructor; [lia|done]]).
Qed.

(** Recovery on a log image, as one function on the disk. *)
Lemma wal_recover_run hist w :
  log_image (dev w) hist → wf (dev w) → WAL_METADATA_SECTOR < block_size (dev w) →
  Forall (λ r, rtype r = WAL_WRITE → writable (block_size (dev w)) r) hist →
  ∃ w', wal_recover true w = Ret w' ∧ wf (dev w') ∧ block_size (dev w') = block_size (dev w) ∧
    (∀ s, 0 ≤ s → sector_of (dev w') s =
       undo_view (unfinished_writes hist)
                 (redo_view (committed_writes hist) (sector_of (dev w))) s) ∧
    next_lsn (wal w') = 1 + Z.of_nat (length hist) ∧
    flushed_lsn (wal w') = Z.of_nat (length hist) ∧
    next_txn_id (wal w') = next_id_after (fold_left track_rec hist []).
Proof.
  intros Hi Hwf Hsz Hw. pose proof (proj1 Hi) as Hlen. unfold wal_recover.
  change (Z.to_nat WAL_LOG_SECTORS) with 64%nat.
  destruct (analysis_run hist 64 0 [] 0 (dev w) Hi Hsz ltac:(lia) eq_refl) as (d1 & Hr1 & Hd1).
  change (drop (Z.to_nat 0) hist) with hist in Hr1. rewrite (log_image_max _ _ Hi) in Hr1. rewrite Hr1, Ret_bind.
  cbn beta iota. destruct (same_dev_wf _ _ Hd1 Hwf) as [Hwf1 Hsz1].
  assert (log_image d1 hist) as Hi1.
  { apply (log_image_same (dev w)); [|done]. intros. by apply same_dev_sector. }
  destruct (redo_run hist 64 0 (committed_txns (fold_left track_rec hist [])) d1 Hi1 Hwf1)
    as (d2 & -> & Hwf2 & Hsz2 & Hi2 & Hv2); [lia|lia|done|by rewrite Hsz1|].
  change (drop (Z.to_nat 0) hist) with hist in Hv2. rewrite committed_filter in Hv2 by done.
  rewrite Ret_bind. cbn [negb]. cbn zeta.
  destruct (undo_scan_run hist 64 0 (uncommitted_txns (fold_left track_rec hist [])) [] d2 Hi2)
    as (d3 & -> & Hd3); [lia|lia|done|simpl; lia| |].
  { eapply Forall_impl; [exact Hw|]. cbn. intros r Hr Hty. apply Hr in Hty as [[] _]. done. }
  change (drop (Z.to_nat 0) hist) with hist. rewrite app_nil_l, uncommitted_filter by done. rewrite Ret_bind. cbn beta iota.
  rewrite sort_undo_rev by (by eapply undo_sorted).
  destruct (same_dev_wf _ _ Hd3 Hwf2) as [Hwf3 Hsz3].
  destruct (undo_apply_run (unfinished_writes hist) d3 Hwf3) as (d4 & -> & Hwf4 & Hsz4 & Hv4).
  { rewrite Hsz3, Hsz2, Hsz1. apply Forall_forall. intros r [(Hty & _) Hr]%list_elem_of_filter.
    rewrite Forall_forall in Hw. by apply Hw. }
  rewrite Ret_bind. eexists. split; [reflexivity|].
  set (w' := set_wal _ _). change (dev w') with d4.
  split; [done|]. split; [congruence|]. split; [|split_and!; cbn; [|done|done]].
  - intros s Hs. rewrite Hv4 by done. apply undo_view_local.
    rewrite (same_dev_sector d2 d3) by done. rewrite Hv2 by done. apply redo_view_local.
    by apply same_dev_sector.
  - rewrite wrap_small; lia.
Qed.

(** ** Properties *)

(** [wal_recover] on an unwrapped log of at most 64 records: it returns, and
    the disk is the result of replaying, in log order, exactly the writes of the
    transactions with a COMMIT record and then taking back, newest first, exactly
    the writes of the transactions with neither COMMIT nor ABORT.  The LSN
    counter resumes behind the log, and no transaction id in the log is given out
    again. *)
Theorem wal_recover_refines (hist : list wal_record) (w : wst)
    (Hlog : log_image (dev w) hist) (Hwf : wf (dev w))
    (Hsz : WAL_METADATA_SECTOR < block_size (dev w))
    (Hw : Forall (λ r, rtype r = WAL_WRITE → writable (block_size (dev w)) r) hist)
    (Hids : Forall (λ r, txn_id r < 2 ^ 32 - 1) hist) :
  ∃ w', wal_recover true w = Ret w' ∧
    (∀ s, 0 ≤ s → sector_of (dev w') s =
       undo_view (unfinished_writes hist)
                 (redo_view (committed_writes hist) (sector_of (dev w))) s) ∧
    next_lsn (wal w') = 1 + Z.of_nat (length hist) ∧
    flushed_lsn (wal w') = Z.of_nat (length hist) ∧
    Forall (λ r, txn_id r < next_txn_id (wal w')) hist.
Proof.
  destruct (wal_recover_run hist w Hlog Hwf Hsz Hw) as (w' & Hr & _ & _ & Hv & Hn & Hf & Ht).
  exists w'. split_and!; try done. rewrite Ht.
  destruct (fold_track hist (proj1 Hlog)) as [_ Hok].
  assert (Forall (λ t, 0 ≤ s_id t < 2 ^ 32 - 1) (fold_left track_rec hist [])) as Hb.
  { apply Forall_forall. intros t Hin. pose proof (list_elem_of_fmap_2 s_id _ _ Hin) as Hin'.
    assert (s_id t ≠ 0) as Hz by (intros H0; apply (so_zero _ _ Hok); by rewrite <- H0).
    apply (so_id _ _ Hok) in Hin' as (r & (i & Hri)%list_elem_of_lookup & <-); [|done].
    destruct (log_image_hist _ _ _ _ Hlog Hri) as ([] & _).
    pose proof (Forall_lookup_1 _ _ _ _ Hids Hri). cbn in *. lia. }
  destruct (next_id_fold _ 1 Hb) as [H1 H2]. fold (next_id_after (fold_left track_rec hist [])) in *.
  apply Forall_forall. intros r Hin. destruct (decide (txn_id r = 0)) as [->|Hz]; [lia|].
  assert (txn_id r ∈ s_id <$> fold_left track_rec hist []) as (t & -> & Ht')%list_elem_of_fmap
    by (apply (so_id _ _ Hok); eauto).
  rewrite Forall_forall in H2. by apply H2.
Qed.


(** The undo list is put in decreasing LSN order whatever order the log
    sectors had it in, without losing or duplicating an entry. *)
Theorem wal_undo_sorted (l : list undo_entry) :
  sort_undo l ≡ₚ l ∧ StronglySorted lsn_ge (sort_undo l).
Proof. by apply sort_outer_spec. Qed.

(** ** A log that wrapped *)

(** Begin, the given writes, commit. *)
Definition commit_script (ops : list write_op) (w : wst) : outcome wst :=
  '(h, w) ← wal_txn_begin true w;
  match h with
  | None => Ret w
  | Some h => w ← run_writes h ops w; '(_, w) ← wal_txn_commit (Some h) w; Ret w
  end.

Fixpoint commit_scripts (n : nat) (w : wst) : outcome wst :=
  match n with O => Ret w | S n => w ← commit_script [] w; commit_scripts n w end.

(** Power loss: memory is gone, the device is as it was. *)
Definition crash (w : wst) : wst :=
  mk_w (wal demo_boot) false (Cache.with_device demo_fs (dev w)) ∅ 0 None.

(** Thirty empty transactions, then one whose two writes to byte 0 of sector 67
    get LSNs 64 and 65. *)
Definition wrapped_run : outcome wst :=
  w ← commit_scripts 30 demo;
  commit_script [mk_op 67 100 [1]; mk_op 67 0 [65]; mk_op 67 0 [66]] w.

(** REDO replays the log in sector order, which is not LSN order once the log
    has wrapped: a committed transaction that wrote 65 and then 66 to one byte,
    with the two records on both sides of the wrap, reads 66 before the crash and
    65 after recovery. *)
Theorem wal_redo_wrapped_order :
  ((λ w, Cache.cview (fs w) 67 !! 0%nat) <$> wrapped_run = Ret (Some 66)) ∧
  ((λ w, sector_of (dev w) 67 !! 0%nat) <$> (w ← wrapped_run; wal_recover true (crash w))
   = Ret (Some 65)).
Proof. split; vm_compute; reflexivity. Qed.

(** ** Witnesses *)

(** The machine of [demo] after a crash in the middle of a second transaction. *)
Definition crashed_hist : list wal_record :=
  let wr id old new := mk_rec 0 id WAL_WRITE 0 67 0 1
    (old :: replicate 231 0) (new :: replicate 231 0) (replicate 20 0) in
  stamp 1 [control_rec WAL_BEGIN 1; wr 1 0 5; control_rec WAL_COMMIT 1;
           control_rec WAL_BEGIN 2; wr 2 5 6].

(** The unfinished write had reached the disk. *)
Definition crashed : wst :=
  set_dev demo_boot
    (mk_block BLOCK_FILESYS
       (replicate 2 (replicate 512 0) ++ (encode <$> crashed_hist) ++
        replicate 60 (replicate 512 0) ++ [6 :: replicate 511 0] ++ replicate 2 (replicate 512 0)) 0 0).

Definition log_imageb (d : block) (hist : list wal_record) : bool :=
  (length hist <=? 64)%nat &&
  forallb (λ s, match hist !! s with
                | Some r => bool_decide (sector_of d (WAL_LOG_START_SECTOR + Z.of_nat s) = encode r) &&
                            checksum_ok r && (lsn r =? 1 + Z.of_nat s)
                | None => negb (checksum_ok (decode (sector_of d (WAL_LOG_START_SECTOR + Z.of_nat s))))
                end) (seq 0 64).

Lemma log_imageb_ok d hist : Forall rec_ok hist → log_imageb d hist = true → log_image d hist.
Proof.
  intros Hok [Hl%Nat.leb_le Hall]%andb_true_iff. split; [done|]. intros s Hs.
  rewrite forallb_forall in Hall. specialize (Hall (Z.to_nat s)).
  rewrite Z2Nat.id in Hall by lia. unfold WAL_LOG_SECTORS in Hs.
  specialize (Hall ltac:(apply in_seq; lia)). destruct (hist !! Z.to_nat s) as [r|] eqn:Hr.
  - reflect_bools. rewrite bool_decide_eq_true in *. split_and!; try done.
    by apply (Forall_lookup_1 _ _ _ _ Hok Hr).
  - by apply negb_true_iff in Hall.
Qed.


Lemma crashed_rec_ok : Forall rec_ok crashed_hist.
Proof.
  assert (∀ b, is_byte b → length (b :: replicate 231 0) = 232%nat ∧ Forall is_byte (b :: replicate 231 0))
    as Hb.
  { intros b Hb. split; [cbn [length]; by rewrite length_replicate|]. constructor; [done|].
    apply Forall_replicate. unfold is_byte. lia. }
  assert (∀ l id old new, 1 ≤ l < 2 ^ 64 → 0 ≤ id < 2 ^ 32 → is_byte old → is_byte new →
    rec_ok (seal (with_lsn (mk_rec 0 id WAL_WRITE 0 67 0 1 (old :: replicate 231 0)
      (new :: replicate 231 0) (replicate 20 0)) l))) as Hw.
  { intros l id old new Hl Hid Ho Hn. apply seal_ok. constructor; rec_simpl; try lia; auto.
    - unfold WAL_WRITE. lia.
    - split; [apply length_replicate|]. apply Forall_replicate. unfold is_byte. lia. }
  assert (∀ l ty id, 1 ≤ l < 2 ^ 64 → 0 ≤ ty < 2 ^ 32 → 0 ≤ id < 2 ^ 32 →
    rec_ok (seal (with_lsn (control_rec ty id) l))) as Hc.
  { intros. apply seal_ok, control_rec_ok; lia. }
  unfold crashed_hist. cbn [stamp]. unfold WAL_BEGIN, WAL_COMMIT.
  repeat (apply Forall_cons_2; [first [apply Hc; lia|apply Hw; unfold is_byte; lia]|]).
  apply Forall_nil_2.
Qed.

Lemma crashed_image : log_image (dev crashed) crashed_hist.
Proof. apply log_imageb_ok; [apply crashed_rec_ok|vm_compute; reflexivity]. Qed.

Lemma crashed_wf : wf (dev crashed).
Proof. split; [done|]. apply Forall_forall. intros b Hb. revert b Hb. apply Forall_forall.
  apply (bool_decide_unpack _). vm_compute. exact I. Qed.

Lemma crashed_writable :
  Forall (λ r, rtype r = WAL_WRITE → writable (block_size (dev crashed)) r) crashed_hist.
Proof.
  replace (block_size (dev crashed)) with 70 by (vm_compute; reflexivity).
  unfold crashed_hist. cbn [stamp].
  assert (¬ log_area 67) as H67.
  { unfold log_area, WAL_METADATA_SECTOR, WAL_LOG_START_SECTOR, WAL_LOG_SECTORS. lia. }
  repeat (apply Forall_cons_2; [unfold seal; rec_simpl; intros Hty; first [discriminate Hty|
    constructor; [constructor|]; rec_simpl; cbn [length]; rewrite ?length_replicate; (done || lia)]|]).
  apply Forall_nil_2.
Qed.

Lemma wal_recover_refines_witness :
  ∃ w', wal_recover true crashed = Ret w' ∧ next_lsn (wal w') = 6.
Proof.
  destruct (wal_recover_refines crashed_hist crashed crashed_image crashed_wf) as (w' & Hr & _ & Hn & _).
  - vm_compute. done.
  - exact crashed_writable.
  - apply (bool_decide_unpack _). vm_compute. exact I.
  - exists w'. split; [exact Hr|]. rewrite Hn. vm_compute. reflexivity.
Defined.

End WalRecovery.
