(* ===== verification/Inode.v ===== *)
(** * Inodes ([filesys/inode.c])

    The inode layer over a store of sectors: the buffer cache, the free map and
    the current transaction, which the code reaches through a handful of calls.
    [Store] is that interface.
    In-memory inodes live in a heap; [open_inodes] lists their addresses. *)

From stdpp Require Import base tactics numbers list list_numbers option gmap.
From S2P Require Import Prelude Block Bitmap.

Open Scope Z_scope.

(** ** What the inode layer calls *)

Class Store (St : Type) := {
  cache_read : Z → St → outcome (list Z * St);
  cache_read_at : Z → Z → Z → St → outcome (list Z * St);
  cache_write : Z → list Z → Z → Z → St → outcome St;
  free_map_allocate_one : St → outcome (option Z * St);
  free_map_release : Z → St → outcome St;  (** one sector *)
  wal_get_current_txn : St → option nat;
  wal_log_write : nat → Z → list Z → list Z → Z → Z → St → outcome St
}.

Module Inode.
Import Block.

Definition DIRECT_BLOCK_COUNT : Z := 12.
Definition INODE_MAGIC : Z := 0x494e4f44.
Definition PTRS_PER_BLOCK : Z := 128.
Definition INVALID_SECTOR : Z := 2 ^ 32 - 1.
Definition INODE_TYPE_FILE : Z := 0.
Definition INODE_TYPE_DIR : Z := 1.
Definition INODE_TYPE_SYMLINK : Z := 2.

Record inode_disk := mk_disk {
  direct : list Z;
  indirect : Z;
  doubly_indirect : Z;
  length_ : Z;
  type_ : Z;
  nlink : Z;
  magic : Z;
  unused : list Z
}.

Record inode := mk_inode {
  sector : Z;
  open_cnt : Z;
  removed : bool;
  skip_wal : bool;
  deny_write_cnt : Z;
  data : inode_disk
}.

(** Field updates. *)
Definition set_direct (d : inode_disk) (l : list Z) : inode_disk :=
  mk_disk l (indirect d) (doubly_indirect d) (length_ d) (type_ d) (nlink d) (magic d) (unused d).
Definition set_indirect (d : inode_disk) (s : Z) : inode_disk :=
  mk_disk (direct d) s (doubly_indirect d) (length_ d) (type_ d) (nlink d) (magic d) (unused d).
Definition set_doubly (d : inode_disk) (s : Z) : inode_disk :=
  mk_disk (direct d) (indirect d) s (length_ d) (type_ d) (nlink d) (magic d) (unused d).
Definition set_length (d : inode_disk) (n : Z) : inode_disk :=
  mk_disk (direct d) (indirect d) (doubly_indirect d) n (type_ d) (nlink d) (magic d) (unused d).
Definition set_nlink (d : inode_disk) (n : Z) : inode_disk :=
  mk_disk (direct d) (indirect d) (doubly_indirect d) (length_ d) (type_ d) n (magic d) (unused d).
Definition set_data (i : inode) (d : inode_disk) : inode :=
  mk_inode (sector i) (open_cnt i) (removed i) (skip_wal i) (deny_write_cnt i) d.
Definition set_open_cnt (i : inode) (n : Z) : inode :=
  mk_inode (sector i) n (removed i) (skip_wal i) (deny_write_cnt i) (data i).
Definition set_deny (i : inode) (n : Z) : inode :=
  mk_inode (sector i) (open_cnt i) (removed i) (skip_wal i) n (data i).

(** ** On-disk layout: 128 words *)

Definition ptrs_encode (l : list Z) : list Z := Bitmap.words_to_bytes l.
Definition ptrs_decode (b : list Z) : list Z := Bitmap.bytes_to_words 128 b.

Definition disk_encode (d : inode_disk) : list Z :=
  ptrs_encode (direct d ++ [indirect d; doubly_indirect d; u32 (length_ d); type_ d; nlink d;
                            magic d] ++ unused d).

Definition disk_decode (b : list Z) : inode_disk :=
  let w := ptrs_decode b in
  mk_disk (take 12 w) (w !!! 12%nat) (w !!! 13%nat) (s32 (w !!! 14%nat)) (w !!! 15%nat)
          (w !!! 16%nat) (w !!! 17%nat) (drop 18 w).

Definition bytes_to_sectors (size : Z) : Z := DIV_ROUND_UP size BLOCK_SECTOR_SIZE.

Definition zeros : list Z := replicate 512 0.
Definition zero_ptrs : list Z := replicate 128 0.

Section ops.
Context {St : Type} `{!Store St}.

(** An indirect block read through the cache. *)
Definition read_ptrs (s : Z) (st : St) : outcome (list Z * St) :=
  '(b, st) ← cache_read s st; Ret (ptrs_decode b, st).

Definition write_ptrs (s : Z) (l : list Z) (st : St) : outcome St :=
  cache_write s (ptrs_encode l) 0 BLOCK_SECTOR_SIZE st.

Definition byte_to_sector (d : inode_disk) (pos : Z) (st : St) : outcome (Z * St) :=
  if length_ d <=? pos then Ret (INVALID_SECTOR, st)
  else
    let block_idx := Z.quot pos BLOCK_SECTOR_SIZE in
    if block_idx <? DIRECT_BLOCK_COUNT then
      s ← array_get (direct d) block_idx; Ret (s, st)
    else
      let block_idx := block_idx - DIRECT_BLOCK_COUNT in
      if block_idx <? PTRS_PER_BLOCK then
        '(buffer, st) ← read_ptrs (indirect d) st;
        s ← array_get buffer block_idx; Ret (s, st)
      else
        let block_idx := block_idx - PTRS_PER_BLOCK in
        '(buffer, st) ← read_ptrs (doubly_indirect d) st;
        indirect_block ← array_get buffer (block_idx / PTRS_PER_BLOCK);
        '(buffer, st) ← read_ptrs indirect_block st;
        s ← array_get buffer (block_idx mod PTRS_PER_BLOCK); Ret (s, st).

(** ** Freeing *)

(** Releases every nonzero pointer of the list. *)
Fixpoint release_ptrs (l : list Z) (st : St) : outcome St :=
  match l with
  | [] => Ret st
  | s :: l => st ← (if negb (s =? 0) then free_map_release s st else Ret st); release_ptrs l st
  end.

(** Releases every nonzero indirect block of the list with its data blocks. *)
Fixpoint release_indirect (l : list Z) (st : St) : outcome St :=
  match l with
  | [] => Ret st
  | s :: l =>
      st ← (if negb (s =? 0) then
              '(ind, st) ← read_ptrs s st;
              st ← release_ptrs ind st;
              free_map_release s st
            else Ret st);
      release_indirect l st
  end.

Definition inode_deallocate (d : inode_disk) (st : St) : outcome St :=
  st ← release_ptrs (direct d) st;
  st ← release_indirect [indirect d] st;
  if negb (doubly_indirect d =? 0) then
    '(dbl, st) ← read_ptrs (doubly_indirect d) st;
    st ← release_indirect dbl st;
    free_map_release (doubly_indirect d) st
  else Ret st.

(** ** Allocating *)

(** Allocates and clears a data block for entries [i], [i+1], ... of [arr] while
    fewer than [target] blocks are allocated; [n] entries remain.  With [keep],
    an entry that is already set is counted and kept.  The boolean is false when
    the disk is full. *)
Fixpoint alloc_blocks (n : nat) (keep : bool) (i : Z) (arr : list Z) (allocated target : Z) (st : St)
    : outcome (bool * list Z * Z * St) :=
  match n with
  | O => Ret (true, arr, allocated, st)
  | S n =>
      if allocated <? target then
        old ← array_get arr i;
        if keep && negb (old =? 0) then
          alloc_blocks n keep (i + 1) arr (allocated + 1) target st
        else
          '(r, st) ← free_map_allocate_one st;
          match r with
          | None => Ret (false, arr, allocated, st)
          | Some s =>
              arr ← array_set arr i s;
              st ← cache_write s zeros 0 BLOCK_SECTOR_SIZE st;
              alloc_blocks n keep (i + 1) arr (allocated + 1) target st
          end
      else Ret (true, arr, allocated, st)
  end.

(** The loop over the doubly indirect block, from entry [i] and position [j] in
    its indirect block. *)
Fixpoint alloc_indirect (n : nat) (keep : bool) (i j : Z) (dbl : list Z) (allocated target : Z)
    (st : St) : outcome (bool * list Z * Z * St) :=
  match n with
  | O => Ret (true, dbl, allocated, st)
  | S n =>
      if allocated <? target then
        old ← array_get dbl i;
        '(ok, dbl, ind, st) ←
          (if keep && negb (old =? 0) then
             '(ind, st) ← read_ptrs old st; Ret (true, dbl, ind, st)
           else
             '(r, st) ← free_map_allocate_one st;
             match r with
             | None => Ret (false, dbl, zero_ptrs, st)
             | Some s => dbl ← array_set dbl i s; Ret (true, dbl, zero_ptrs, st)
             end);
        if negb ok then Ret (false, dbl, allocated, st)
        else
          '(ok, ind, allocated, st) ←
            alloc_blocks (Z.to_nat (PTRS_PER_BLOCK - j)) keep j ind allocated target st;
          if negb ok then Ret (false, dbl, allocated, st)
          else
            s ← array_get dbl i;
            st ← write_ptrs s ind st;
            alloc_indirect n keep (i + 1) 0 dbl allocated target st
      else Ret (true, dbl, allocated, st)
  end.

(** [inode_create_internal]; [calloc_ok]: whether the in-memory copy could be
    allocated.  The three stages are those of the source; a failed one goes to
    [inode_deallocate]. *)
Definition create_direct (sectors : Z) (d : inode_disk) (st : St)
    : outcome (bool * inode_disk * Z * St) :=
  '(ok, l, allocated, st) ←
    alloc_blocks (Z.to_nat DIRECT_BLOCK_COUNT) false 0 (direct d) 0 sectors st;
  Ret (ok, set_direct d l, allocated, st).

Definition create_indirect (sectors allocated : Z) (d : inode_disk) (st : St)
    : outcome (bool * inode_disk * Z * St) :=
  if allocated <? sectors then
    '(r, st) ← free_map_allocate_one st;
    match r with
    | None => Ret (false, d, allocated, st)
    | Some s =>
        let d := set_indirect d s in
        '(ok, l, allocated, st) ←
          alloc_blocks (Z.to_nat PTRS_PER_BLOCK) false 0 zero_ptrs allocated sectors st;
        if negb ok then Ret (false, d, allocated, st)
        else st ← write_ptrs s l st; Ret (true, d, allocated, st)
    end
  else Ret (true, d, allocated, st).

Definition create_doubly (sectors allocated : Z) (d : inode_disk) (st : St)
    : outcome (bool * inode_disk * St) :=
  if allocated <? sectors then
    '(r, st) ← free_map_allocate_one st;
    match r with
    | None => Ret (false, d, st)
    | Some s =>
        let d := set_doubly d s in
        '(ok, l, _, st) ←
          alloc_indirect (Z.to_nat PTRS_PER_BLOCK) false 0 0 zero_ptrs allocated sectors st;
        if negb ok then Ret (false, d, st)
        else st ← write_ptrs s l st; Ret (true, d, st)
    end
  else Ret (true, d, st).

Definition inode_create_internal (calloc_ok : bool) (sec len ty : Z) (st : St)
    : outcome (bool * St) :=
  ASSERT (0 <=? len);;
  if negb calloc_ok then Ret (false, st)
  else
    DEFINED (len + 511 <? 2 ^ 31);;
    let d := mk_disk (replicate 12 0) 0 0 len ty 1 INODE_MAGIC (replicate 110 0) in
    let sectors := bytes_to_sectors len in
    '(ok, d, allocated, st) ← create_direct sectors d st;
    '(ok, d, allocated, st) ←
      (if ok : bool then create_indirect sectors allocated d st
       else Ret (false, d, allocated, st));
    '(ok, d, st) ←
      (if ok : bool then create_doubly sectors allocated d st else Ret (false, d, st));
    if ok : bool then
      st ← cache_write sec (disk_encode d) 0 BLOCK_SECTOR_SIZE st;
      Ret (true, st)
    else st ← inode_deallocate d st; Ret (false, st).

Definition inode_create (calloc_ok : bool) (sec len : Z) (st : St) : outcome (bool * St) :=
  inode_create_internal calloc_ok sec len INODE_TYPE_FILE st.

Definition inode_create_dir (calloc_ok : bool) (sec len : Z) (st : St) : outcome (bool * St) :=
  inode_create_internal calloc_ok sec len INODE_TYPE_DIR st.

(** ** Extension *)

Definition write_inode (sec : Z) (d : inode_disk) (st : St) : outcome St :=
  cache_write sec (disk_encode d) 0 BLOCK_SECTOR_SIZE st.

(** The three stages of [inode_extend]; the in-memory inode keeps what a failed
    stage stored in it. *)
Definition extend_direct (old_sectors new_sectors : Z) (d : inode_disk) (st : St)
    : outcome (bool * inode_disk * Z * St) :=
  '(ok, l, allocated, st) ←
    alloc_blocks (Z.to_nat (DIRECT_BLOCK_COUNT - old_sectors)) false old_sectors (direct d)
                 old_sectors new_sectors st;
  Ret (ok, set_direct d l, allocated, st).

Definition extend_indirect (old_sectors new_sectors allocated : Z) (d : inode_disk) (st : St)
    : outcome (bool * inode_disk * Z * St) :=
  '(ok, d, l, st) ←
    (if indirect d =? 0 then
       '(r, st) ← free_map_allocate_one st;
       match r with
       | None => Ret (false, d, zero_ptrs, st)
       | Some s => Ret (true, set_indirect d s, zero_ptrs, st)
       end
     else '(l, st) ← read_ptrs (indirect d) st; Ret (true, d, l, st));
  if negb ok then Ret (false, d, allocated, st)
  else
    let start := if DIRECT_BLOCK_COUNT <? old_sectors then old_sectors - DIRECT_BLOCK_COUNT else 0 in
    '(ok, l, allocated, st) ←
      alloc_blocks (Z.to_nat (PTRS_PER_BLOCK - start)) true start l allocated new_sectors st;
    if negb ok then Ret (false, d, allocated, st)
    else st ← write_ptrs (indirect d) l st; Ret (true, d, allocated, st).

Definition extend_doubly (old_sectors new_sectors allocated : Z) (d : inode_disk) (st : St)
    : outcome (bool * inode_disk * St) :=
  '(ok, d, l, st) ←
    (if doubly_indirect d =? 0 then
       '(r, st) ← free_map_allocate_one st;
       match r with
       | None => Ret (false, d, zero_ptrs, st)
       | Some s => Ret (true, set_doubly d s, zero_ptrs, st)
       end
     else '(l, st) ← read_ptrs (doubly_indirect d) st; Ret (true, d, l, st));
  if negb ok then Ret (false, d, st)
  else
    let dbl_base := DIRECT_BLOCK_COUNT + PTRS_PER_BLOCK in
    let dbl_start := if dbl_base <? old_sectors then old_sectors - dbl_base else 0 in
    let dbl_idx := dbl_start / PTRS_PER_BLOCK in
    '(ok, l, _, st) ←
      alloc_indirect (Z.to_nat (PTRS_PER_BLOCK - dbl_idx)) true dbl_idx
                     (dbl_start mod PTRS_PER_BLOCK) l allocated new_sectors st;
    if negb ok then Ret (false, d, st)
    else st ← write_ptrs (doubly_indirect d) l st; Ret (true, d, st).

Definition inode_extend (sec : Z) (d : inode_disk) (new_length : Z) (st : St)
    : outcome (bool * inode_disk * St) :=
  ASSERT (length_ d <? new_length);;
  DEFINED (new_length + 511 <? 2 ^ 31);;
  let old_sectors := bytes_to_sectors (length_ d) in
  let new_sectors := bytes_to_sectors new_length in
  let finish d st :=
    let d := set_length d new_length in
    st ← write_inode sec d st; Ret (true, d, st) in
  if new_sectors =? old_sectors then finish d st
  else
    '(ok, d, allocated, st) ← extend_direct old_sectors new_sectors d st;
    if negb ok then Ret (false, d, st)
    else if new_sectors <=? allocated then finish d st
    else
      '(ok, d, allocated, st) ← extend_indirect old_sectors new_sectors allocated d st;
      if negb ok then Ret (false, d, st)
      else if new_sectors <=? allocated then finish d st
      else
        '(ok, d, st) ← extend_doubly old_sectors new_sectors allocated d st;
        if negb ok then Ret (false, d, st) else finish d st.

(** ** Reading and writing *)

(** The number of bytes one iteration of the read and write loops handles. *)
Definition chunk (d : inode_disk) (size offset : Z) : Z :=
  let inode_left := length_ d - offset in
  let sector_left := BLOCK_SECTOR_SIZE - Z.rem offset BLOCK_SECTOR_SIZE in
  let min_left := if inode_left <? sector_left then inode_left else sector_left in
  if size <? min_left then size else min_left.

(** Every iteration handles at least one byte, so [size] iterations suffice. *)
Fixpoint read_loop (fuel : nat) (d : inode_disk) (size offset : Z) (acc : list Z) (st : St)
    : outcome (list Z * St) :=
  if 0 <? size then
    match fuel with
    | O => UB
    | S fuel =>
        '(sector_idx, st) ← byte_to_sector d offset st;
        let chunk_size := chunk d size offset in
        if chunk_size <=? 0 then Ret (acc, st)
        else
          '(b, st) ← cache_read_at sector_idx (Z.rem offset BLOCK_SECTOR_SIZE) chunk_size st;
          read_loop fuel d (size - chunk_size) (offset + chunk_size) (acc ++ b) st
    end
  else Ret (acc, st).

(** The bytes read; the C function returns their number. *)
Definition read_data (d : inode_disk) (size offset : Z) (st : St) : outcome (list Z * St) :=
  read_loop (Z.to_nat size) d size offset [] st.

(** The loop of [inode_write_at]; [txn] is the transaction to log to, if any. *)
Fixpoint write_loop (fuel : nat) (txn : option nat) (d : inode_disk) (buffer : list Z)
    (size offset written : Z) (st : St) : outcome (Z * St) :=
  if 0 <? size then
    match fuel with
    | O => UB
    | S fuel =>
        '(sector_idx, st) ← byte_to_sector d offset st;
        let sector_ofs := Z.rem offset BLOCK_SECTOR_SIZE in
        let chunk_size := chunk d size offset in
        if chunk_size <=? 0 then Ret (written, st)
        else
          let src := drop (Z.to_nat written) buffer in
          st ← (match txn with
                | None => Ret st
                | Some t =>
                    '(old, st) ← cache_read_at sector_idx sector_ofs chunk_size st;
                    wal_log_write t sector_idx old src sector_ofs chunk_size st
                end);
          st ← cache_write sector_idx src sector_ofs chunk_size st;
          write_loop fuel txn d buffer (size - chunk_size) (offset + chunk_size)
                     (written + chunk_size) st
    end
  else Ret (written, st).

(** [inode_write_at] on the in-memory inode; [malloc_ok]: whether the buffer for
    the old data could be allocated. *)
Definition write_inode_at (malloc_ok : bool) (i : inode) (buffer : list Z) (size offset : Z)
    (st : St) : outcome (Z * inode * St) :=
  if negb (deny_write_cnt i =? 0) then Ret (0, i, st)
  else
    let end_pos := offset + size in
    DEFINED (end_pos <? 2 ^ 31);;
    '(ok, d, st) ← (if length_ (data i) <? end_pos then inode_extend (sector i) (data i) end_pos st
                    else Ret (true, data i, st));
    let i := set_data i d in
    if negb ok then Ret (0, i, st)
    else
      let txn := if skip_wal i then None else wal_get_current_txn st in
      if negb malloc_ok && bool_decide (is_Some txn) then Ret (0, i, st)
      else
        '(n, st) ← write_loop (Z.to_nat size) txn d buffer size offset 0 st;
        Ret (n, i, st).

(** ** The table of open inodes *)

Record ist := mk_ist {
  store : St;
  heap : gmap nat inode;
  open_inodes : list nat;
  next_inode : nat
}.

Definition with_store (w : ist) (st : St) : ist :=
  mk_ist st (heap w) (open_inodes w) (next_inode w).
Definition put_inode (w : ist) (p : nat) (i : inode) : ist :=
  mk_ist (store w) (<[p := i]> (heap w)) (open_inodes w) (next_inode w).

(** [*inode], undefined once it was freed. *)
Definition get_inode (w : ist) (p : nat) : outcome inode :=
  match heap w !! p with Some i => Ret i | None => UB end.

Definition inode_init (st : St) : ist := mk_ist st ∅ [] 0.

(** The first open inode with the given sector. *)
Fixpoint find_open (h : gmap nat inode) (l : list nat) (sec : Z) : option nat :=
  match l with
  | [] => None
  | p :: l => match h !! p with
              | Some i => if sector i =? sec then Some p else find_open h l sec
              | None => find_open h l sec
              end
  end.

Definition inode_reopen (p : option nat) (w : ist) : outcome (option nat * ist) :=
  match p with
  | None => Ret (None, w)
  | Some q => i ← get_inode w q; Ret (p, put_inode w q (set_open_cnt i (open_cnt i + 1)))
  end.

Definition inode_open (malloc_ok : bool) (sec : Z) (w : ist) : outcome (option nat * ist) :=
  match find_open (heap w) (open_inodes w) sec with
  | Some p => inode_reopen (Some p) w
  | None =>
      if negb malloc_ok then Ret (None, w)
      else
        let p := next_inode w in
        '(b, st) ← cache_read sec (store w);
        Ret (Some p, mk_ist st (<[p := mk_inode sec 1 false false 0 (disk_decode b)]> (heap w))
                            (p :: open_inodes w) (S p))
  end.

Definition inode_close (p : option nat) (w : ist) : outcome ist :=
  match p with
  | None => Ret w
  | Some p =>
      i ← get_inode w p;
      let i := set_open_cnt i (open_cnt i - 1) in
      if open_cnt i =? 0 then
        st ← (if removed i && (nlink (data i) =? 0) then
                st ← free_map_release (sector i) (store w);
                inode_deallocate (data i) st
              else Ret (store w));
        Ret (mk_ist st (delete p (heap w)) (filter (λ q, q ≠ p) (open_inodes w)) (next_inode w))
      else Ret (put_inode w p i)
  end.

(** An update of the in-memory inode. *)
Definition update_inode (p : nat) (f : inode → inode) (w : ist) : outcome ist :=
  i ← get_inode w p; Ret (put_inode w p (f i)).

Definition inode_remove (p : nat) (w : ist) : outcome ist :=
  update_inode p (λ i, mk_inode (sector i) (open_cnt i) true (skip_wal i) (deny_write_cnt i) (data i)) w.

Definition inode_set_skip_wal (p : nat) (skip : bool) (w : ist) : outcome ist :=
  update_inode p (λ i, mk_inode (sector i) (open_cnt i) (removed i) skip (deny_write_cnt i) (data i)) w.

Definition inode_deny_write (p : nat) (w : ist) : outcome ist :=
  i ← get_inode w p;
  let i := set_deny i (deny_write_cnt i + 1) in
  ASSERT (deny_write_cnt i <=? open_cnt i);;
  Ret (put_inode w p i).

Definition inode_allow_write (p : nat) (w : ist) : outcome ist :=
  i ← get_inode w p;
  ASSERT (0 <? deny_write_cnt i);;
  ASSERT (deny_write_cnt i <=? open_cnt i);;
  Ret (put_inode w p (set_deny i (deny_write_cnt i - 1))).

Definition inode_get_inumber (p : nat) (w : ist) : outcome Z := sector <$> get_inode w p.
Definition inode_is_removed (p : nat) (w : ist) : outcome bool := removed <$> get_inode w p.
Definition inode_length (p : nat) (w : ist) : outcome Z := (λ i, length_ (data i)) <$> get_inode w p.
Definition inode_get_nlink (p : nat) (w : ist) : outcome Z := (λ i, nlink (data i)) <$> get_inode w p.
Definition inode_is_type (ty : Z) (p : nat) (w : ist) : outcome bool :=
  (λ i, type_ (data i) =? ty) <$> get_inode w p.
Definition inode_is_dir := inode_is_type INODE_TYPE_DIR.
Definition inode_is_symlink := inode_is_type INODE_TYPE_SYMLINK.
Definition inode_is_file := inode_is_type INODE_TYPE_FILE.

Definition inode_read_at (p : nat) (size offset : Z) (w : ist) : outcome (list Z * ist) :=
  i ← get_inode w p;
  '(b, st) ← read_data (data i) size offset (store w);
  Ret (b, with_store w st).

Definition inode_write_at (malloc_ok : bool) (p : nat) (buffer : list Z) (size offset : Z) (w : ist)
    : outcome (Z * ist) :=
  i ← get_inode w p;
  '(n, i, st) ← write_inode_at malloc_ok i buffer size offset (store w);
  Ret (n, put_inode (with_store w st) p i).

(** The link count changes in memory and on disk. *)
Definition change_nlink (p : nat) (n : Z → Z) (w : ist) : outcome ist :=
  i ← get_inode w p;
  let d := set_nlink (data i) (u32 (n (nlink (data i)))) in
  st ← write_inode (sector i) d (store w);
  Ret (put_inode (with_store w st) p (set_data i d)).

Definition inode_inc_nlink (p : nat) (w : ist) : outcome ist := change_nlink p (λ n, n + 1) w.

Definition inode_dec_nlink (p : nat) (w : ist) : outcome ist :=
  i ← get_inode w p;
  ASSERT (0 <? nlink (data i));;
  change_nlink p (λ n, n - 1) w.

(** [target]: the bytes of the string without its terminator; the three flags
    are the memory allocations. *)
Definition inode_create_symlink (calloc_ok malloc_open malloc_write : bool) (sec : Z)
    (target : list Z) (w : ist) : outcome (bool * ist) :=
  let target_len := Z.of_nat (length target) in
  '(ok, st) ← inode_create_internal calloc_ok sec target_len INODE_TYPE_SYMLINK (store w);
  let w := with_store w st in
  if negb ok then Ret (false, w)
  else if target_len =? 0 then Ret (true, w)
  else
    '(p, w) ← inode_open malloc_open sec w;
    match p with
    | None => Ret (false, w)
    | Some q =>
        '(written, w) ← inode_write_at malloc_write q target target_len 0 w;
        w ← inode_close p w;
        Ret (written =? target_len, w)
    end.
End ops.
End Inode.
