(* ===== verification/InodeProofs.v ===== *)
(** * Inodes: reading, writing and growing files

    The inode layer's theorems, proved against the laws of the store it calls.
    A file is the function from byte positions to bytes that its block map
    defines on the view of the disk. *)

From stdpp Require Import base tactics numbers list list_numbers option gmap.
From S2P Require Import Prelude Block Bitmap Inode.

Open Scope Z_scope.

(** ** What the store promises

    [s_inv]: the store is in order; [s_view]: the contents of the sectors;
    [s_free]: the free map; [s_usable]: the sectors files may live in; [s_room]:
    a lower bound on the log records that can still be written. *)

Class SectorModel (St : Type) := {
  s_inv : St → Prop;
  s_view : St → Z → list Z;
  s_free : St → Z → bool;
  s_usable : Z → Prop;
  s_room : St → Z
}.

(** Nothing changed that the inode layer can see. *)
Record quiet {St} `{!Store St} `{!SectorModel St} (st st' : St) : Prop := {
  q_inv : s_inv st';
  q_view : ∀ x, s_usable x → s_view st' x = s_view st x;
  q_free : ∀ x, s_free st' x = s_free st x;
  q_txn : wal_get_current_txn st' = wal_get_current_txn st;
  q_room : s_room st' = s_room st
}.

(** Sector [s] now holds [b]. *)
Record stored {St} `{!Store St} `{!SectorModel St} (s : Z) (b : list Z) (st st' : St) : Prop := {
  sd_inv : s_inv st';
  sd_view : ∀ x, s_usable x → s_view st' x = if x =? s then b else s_view st x;
  sd_free : ∀ x, s_free st' x = s_free st x;
  sd_txn : wal_get_current_txn st' = wal_get_current_txn st;
  sd_room : s_room st' = s_room st
}.

(** At most three records were logged. *)
Record logged {St} `{!Store St} `{!SectorModel St} (st st' : St) : Prop := {
  lg_inv : s_inv st';
  lg_view : ∀ x, s_usable x → s_view st' x = s_view st x;
  lg_free : ∀ x, s_free st' x = s_free st x;
  lg_txn : wal_get_current_txn st' = wal_get_current_txn st;
  lg_room : s_room st - 3 ≤ s_room st'
}.

Class SectorLaws (St : Type) `{!Store St} `{!SectorModel St} := {
  law_read st s :
    s_inv st → s_usable s → ∃ st', cache_read s st = Ret (s_view st s, st') ∧ quiet st st';
  law_read_at st s ofs n :
    s_inv st → s_usable s → 0 ≤ ofs → 0 < n → ofs + n ≤ 512 →
    ∃ st', cache_read_at s ofs n st = Ret (slice (s_view st s) (Z.to_nat ofs) (Z.to_nat n), st') ∧
      quiet st st';
  law_write st s b ofs n :
    s_inv st → s_usable s → 0 ≤ ofs → 0 < n → ofs + n ≤ 512 → n ≤ Z.of_nat (length b) →
    Forall is_byte b →
    ∃ st', cache_write s b ofs n st = Ret st' ∧
      stored s (splice (s_view st s) (Z.to_nat ofs) (take (Z.to_nat n) b)) st st';
  law_log st t s old new ofs n :
    s_inv st → s_usable s → 0 ≤ ofs → 0 < n → ofs + n ≤ 512 →
    n ≤ Z.of_nat (length old) → n ≤ Z.of_nat (length new) → Forall is_byte old → Forall is_byte new →
    wal_get_current_txn st = Some t → 3 ≤ s_room st →
    ∃ st', wal_log_write t s old new ofs n st = Ret st' ∧ logged st st';
  law_length st s : s_inv st → s_usable s → length (s_view st s) = 512%nat;
  law_bytes st s : s_inv st → s_usable s → Forall is_byte (s_view st s)
}.

(** Allocating a sector takes one that was free, if there is any, and changes
    neither the files' sectors nor the log. *)
Class AllocLaws (St : Type) `{!Store St} `{!SectorModel St} := {
  law_alloc st :
    s_inv st →
    ∃ r st', free_map_allocate_one st = Ret (r, st') ∧ s_inv st' ∧
      (∀ x, s_usable x → s_view st' x = s_view st x) ∧
      wal_get_current_txn st' = wal_get_current_txn st ∧ s_room st' = s_room st ∧
      match r with
      | Some s => s_usable s ∧ s_free st s = true ∧
          ∀ x, s_free st' x = if bool_decide (x = s) then false else s_free st x
      | None => ∀ x, s_free st x = false ∧ s_free st' x = false
      end
}.

Module InodeProofs.
Import Block Inode.

Section proofs.
Context {St : Type} `{!Store St} `{!SectorModel St} `{!SectorLaws St}.

Lemma quiet_refl (st : St) : s_inv st → quiet st st.
Proof. done. Qed.

Lemma quiet_trans (st1 st2 st3 : St) : quiet st1 st2 → quiet st2 st3 → quiet st1 st3.
Proof.
  intros [? Hv1 Hf1 Ht1 Hr1] [? Hv2 Hf2 Ht2 Hr2]. constructor; [done| | |congruence|congruence].
  - intros x Hx. by rewrite Hv2, Hv1.
  - intros x. by rewrite Hf2, Hf1.
Qed.

(** ** The block map *)

Definition ptr (v : Z → list Z) (s k : Z) : Z := ptrs_decode (v s) !!! Z.to_nat k.

Definition bmap (v : Z → list Z) (d : inode_disk) (k : Z) : Z :=
  if k <? 12 then direct d !!! Z.to_nat k
  else if k <? 140 then ptr v (indirect d) (k - 12)
  else ptr v (ptr v (doubly_indirect d) ((k - 140) / 128)) ((k - 140) mod 128).

Definition MAX_BLOCKS : Z := 12 + 128 + 128 * 128.

(** The index blocks the map goes through for block [k]. *)
Definition index_of (v : Z → list Z) (d : inode_disk) (k : Z) : list Z :=
  if k <? 12 then []
  else if k <? 140 then [indirect d]
  else [doubly_indirect d; ptr v (doubly_indirect d) ((k - 140) / 128)].

(** Byte [i] of the file. *)
Definition file_byte (v : Z → list Z) (d : inode_disk) (i : Z) : option Z :=
  v (bmap v d (i / 512)) !! Z.to_nat (i mod 512).

(** The first [n] blocks are mapped to distinct usable sectors, none of which is
    an index block. *)
Record mapped (v : Z → list Z) (d : inode_disk) (n : Z) : Prop := {
  m_direct : length (direct d) = 12%nat;
  m_max : 0 ≤ n ≤ MAX_BLOCKS;
  m_data : ∀ k, 0 ≤ k < n → s_usable (bmap v d k);
  m_index : ∀ k x, 0 ≤ k < n → x ∈ index_of v d k → s_usable x;
  m_inj : ∀ k1 k2, 0 ≤ k1 < n → 0 ≤ k2 < n → bmap v d k1 = bmap v d k2 → k1 = k2;
  m_disj : ∀ k1 k2, 0 ≤ k1 < n → 0 ≤ k2 < n → bmap v d k1 ∉ index_of v d k2
}.

(** A file of [length_ d] bytes. *)
Record file_ok (v : Z → list Z) (d : inode_disk) : Prop := {
  f_len : 0 ≤ length_ d < 2 ^ 31;
  f_map : mapped v d (bytes_to_sectors (length_ d))
}.

Lemma bytes_to_sectors_spec n :
  0 ≤ n → 512 * (bytes_to_sectors n - 1) < n ≤ 512 * bytes_to_sectors n ∧ 0 ≤ bytes_to_sectors n.
Proof.
  intros. unfold bytes_to_sectors, DIV_ROUND_UP, BLOCK_SECTOR_SIZE.
  pose proof (Z.div_mod (n + 512 - 1) 512 ltac:(lia)).
  pose proof (Z.mod_pos_bound (n + 512 - 1) 512 ltac:(lia)).
  pose proof (Z.div_pos (n + 512 - 1) 512 ltac:(lia) ltac:(lia)). lia.
Qed.

(** Byte positions below the length lie in mapped blocks. *)
Lemma pos_block n i : 0 ≤ i < n → 0 ≤ i / 512 < bytes_to_sectors n.
Proof.
  intros. pose proof (bytes_to_sectors_spec n ltac:(lia)).
  pose proof (Z.div_mod i 512 ltac:(lia)). pose proof (Z.mod_pos_bound i 512 ltac:(lia)). lia.
Qed.

Lemma ptrs_decode_length b : length (ptrs_decode b) = 128%nat.
Proof.
  unfold ptrs_decode. generalize 128%nat. intros n. revert b.
  induction n as [|n IH]; intros b; [done|]. cbn [Bitmap.bytes_to_words length]. by rewrite IH.
Qed.

Lemma get_ptr v s k :
  0 ≤ k < 128 → array_get (ptrs_decode (v s)) k = Ret (ptr v s k).
Proof.
  intros Hk. destruct (array_get_in (ptrs_decode (v s)) k) as (x & -> & Hx);
    [rewrite ptrs_decode_length; lia|].
  unfold ptr. by rewrite (list_lookup_total_correct _ _ _ Hx).
Qed.

Lemma read_ptrs_run st s :
  s_inv st → s_usable s →
  ∃ st', read_ptrs s st = Ret (ptrs_decode (s_view st s), st') ∧ quiet st st'.
Proof.
  intros Hi Hu. unfold read_ptrs. destruct (law_read st s Hi Hu) as (st' & -> & Hq).
  exists st'. rewrite Ret_bind. done.
Qed.

(** [byte_to_sector] follows the block map and changes nothing. *)
Lemma byte_to_sector_run st d pos :
  s_inv st → mapped (s_view st) d (bytes_to_sectors (length_ d)) → 0 ≤ pos < length_ d →
  ∃ st', byte_to_sector d pos st = Ret (bmap (s_view st) d (pos / 512), st') ∧ quiet st st'.
Proof.
  intros Hi Hm Hpos. pose proof (pos_block (length_ d) pos Hpos) as Hk. destruct Hm.
  unfold byte_to_sector. rewrite (proj2 (Z.leb_gt (length_ d) pos)) by lia. cbn zeta.
  unfold BLOCK_SECTOR_SIZE, DIRECT_BLOCK_COUNT, PTRS_PER_BLOCK. rewrite Z.quot_div_nonneg by lia.
  set (k := pos / 512) in *. specialize (m_index0 k). unfold index_of in m_index0. unfold bmap.
  unfold MAX_BLOCKS in m_max0.
  destruct (Z.ltb_spec k 12) as [H12|H12].
  { destruct (array_get_in (direct d) k) as (x & -> & Hx); [lia|]. rewrite Ret_bind. exists st.
    rewrite (list_lookup_total_correct _ _ _ Hx). done. }
  destruct (Z.ltb_spec k 140) as [H140|H140].
  - rewrite (proj2 (Z.ltb_lt (k - 12) 128)) by lia.
    destruct (read_ptrs_run st (indirect d) Hi) as (st1 & -> & Hq); [apply m_index0; [lia|set_solver]|].
    rewrite Ret_bind. cbn beta iota. rewrite get_ptr, Ret_bind by lia. by exists st1.
  - rewrite (proj2 (Z.ltb_ge (k - 12) 128)) by lia. replace (k - 12 - 128) with (k - 140) by lia.
    destruct (read_ptrs_run st (doubly_indirect d) Hi) as (st1 & -> & Hq1);
      [apply m_index0; [lia|set_solver]|].
    rewrite Ret_bind. cbn beta iota.
    assert (0 ≤ (k - 140) / 128 < 128) as Hd.
    { split; [apply Z.div_pos; lia|apply Z.div_lt_upper_bound; lia]. }
    rewrite get_ptr, Ret_bind by lia. set (ind := ptr _ (doubly_indirect d) _) in *.
    assert (s_usable ind) as Hu by (apply m_index0; [lia|set_solver]).
    destruct (read_ptrs_run st1 ind (q_inv _ _ Hq1) Hu) as (st2 & -> & Hq2).
    rewrite Ret_bind. cbn beta iota. rewrite (q_view _ _ Hq1) by done.
    rewrite get_ptr, Ret_bind by (apply Z.mod_pos_bound; lia).
    exists st2. split; [done|by eapply quiet_trans].
Qed.

(** The map depends only on the index blocks. *)
Lemma bmap_local v v' d k :
  (∀ x, x ∈ index_of v d k → v' x = v x) → bmap v' d k = bmap v d k ∧ index_of v' d k = index_of v d k.
Proof.
  intros H. unfold bmap, index_of in *. destruct (k <? 12); [done|]. destruct (k <? 140).
  - unfold ptr. rewrite H by set_solver. done.
  - assert (ptr v' (doubly_indirect d) ((k - 140) / 128) = ptr v (doubly_indirect d) ((k - 140) / 128))
      as Hp by (unfold ptr; rewrite H by set_solver; done).
    rewrite !Hp. split; [|done]. unfold ptr at 1. rewrite H by set_solver. done.
Qed.

Lemma mapped_local v v' d n :
  (∀ k x, 0 ≤ k < n → x ∈ index_of v d k → v' x = v x) → mapped v d n → mapped v' d n.
Proof.
  intros H []. assert (∀ k, 0 ≤ k < n → bmap v' d k = bmap v d k ∧ index_of v' d k = index_of v d k) as Hl.
  { intros k Hk. apply bmap_local. intros x. by apply H. }
  constructor; try done.
  - intros k Hk. rewrite (proj1 (Hl k Hk)). by apply m_data0.
  - intros k x Hk. rewrite (proj2 (Hl k Hk)). by apply m_index0.
  - intros k1 k2 H1 H2. rewrite (proj1 (Hl k1 H1)), (proj1 (Hl k2 H2)). by apply m_inj0.
  - intros k1 k2 H1 H2. rewrite (proj1 (Hl k1 H1)), (proj2 (Hl k2 H2)). by apply m_disj0.
Qed.

(** ** Reading *)

(** The chunk one iteration handles: inside one block, inside the file. *)
Lemma chunk_bounds d size offset :
  0 ≤ offset < length_ d → 0 < size →
  let c := chunk d size offset in
  0 < c ≤ size ∧ offset + c ≤ length_ d ∧ offset mod 512 + c ≤ 512 ∧
  Z.rem offset BLOCK_SECTOR_SIZE = offset mod 512 ∧ (c < size → offset + c = length_ d ∨ (offset + c) mod 512 = 0).
Proof.
  intros Ho Hs c. unfold c, chunk, BLOCK_SECTOR_SIZE. rewrite Z.rem_mod_nonneg by lia.
  pose proof (Z.mod_pos_bound offset 512 ltac:(lia)).
  destruct (Z.ltb_spec (length_ d - offset) (512 - offset mod 512)) as [H1|H1].
  - destruct (Z.ltb_spec size (length_ d - offset)); (split; [lia|]; split; [lia|]; split; [lia|];
      split; [done|]; intros; left; lia).
  - destruct (Z.ltb_spec size (512 - offset mod 512));
      (split; [lia|]; split; [lia|]; split; [lia|]; split; [done|]; intros; try lia).
    right. replace (offset + (512 - offset mod 512)) with (0 + (offset / 512 + 1) * 512).
    + rewrite Z.mod_add by lia. done.
    + pose proof (Z.div_mod offset 512 ltac:(lia)). lia.
Qed.

Lemma same_block offset j : 0 ≤ offset → 0 ≤ j → offset mod 512 + j < 512 →
  (offset + j) / 512 = offset / 512 ∧ (offset + j) mod 512 = offset mod 512 + j.
Proof.
  intros Ho Hj Hlt. pose proof (Z.div_mod offset 512 ltac:(lia)).
  pose proof (Z.mod_pos_bound offset 512 ltac:(lia)).
  assert ((offset + j) / 512 = offset / 512) as Hd.
  { symmetry. apply (Z.div_unique _ 512 _ (offset mod 512 + j)); lia. }
  split; [done|]. rewrite Z.mod_eq, Hd by lia. lia.
Qed.

Section read.
Context (d : inode_disk).
Local Abbreviation nblocks := (bytes_to_sectors (length_ d)).

Lemma quiet_mapped st st' :
  mapped (s_view st) d nblocks → quiet st st' → mapped (s_view st') d nblocks.
Proof.
  intros Hm Hq. apply (mapped_local (s_view st)); [|done]. intros k x Hk Hx.
  apply Hq. by apply (m_index _ _ _ Hm k).
Qed.

Lemma quiet_byte st st' i :
  mapped (s_view st) d nblocks → quiet st st' → 0 ≤ i < length_ d →
  file_byte (s_view st') d i = file_byte (s_view st) d i.
Proof.
  intros Hm Hq Hi. pose proof (pos_block _ _ Hi) as Hk. unfold file_byte.
  destruct (bmap_local (s_view st) (s_view st') d (i / 512)) as [-> _].
  - intros x Hx. apply Hq. by apply (m_index _ _ _ Hm (i / 512)).
  - rewrite (q_view _ _ Hq); [done|]. by apply (m_data _ _ _ Hm).
Qed.

Lemma read_loop_run fuel size offset acc st :
  s_inv st → mapped (s_view st) d nblocks → 0 ≤ offset → size ≤ Z.of_nat fuel →
  ∃ b st', read_loop fuel d size offset acc st = Ret (acc ++ b, st') ∧ quiet st st' ∧
    Z.of_nat (length b) = Z.max 0 (Z.min size (length_ d - offset)) ∧
    ∀ j, (j < length b)%nat → b !! j = file_byte (s_view st) d (offset + Z.of_nat j).
Proof.
  revert size offset acc st. induction fuel as [|fuel IH]; intros size offset acc st Hi Hm Ho Hf;
    cbn [read_loop]; destruct (Z.ltb_spec 0 size) as [Hs|Hs].
  - lia.
  - exists [], st. rewrite app_nil_r. split_and!; [done|by apply quiet_refl|simpl; lia|simpl; lia].
  - destruct (decide (offset < length_ d)) as [Hin|Hout].
    2: { unfold byte_to_sector. rewrite (proj2 (Z.leb_le (length_ d) offset)), Ret_bind by lia.
         cbn beta iota. rewrite (proj2 (Z.leb_le (chunk d size offset) 0)).
         - exists [], st. rewrite app_nil_r. split_and!; [done|by apply quiet_refl|simpl; lia|simpl; lia].
         - unfold chunk. pose proof (Z.rem_bound_pos offset 512 ltac:(lia) ltac:(lia)).
           unfold BLOCK_SECTOR_SIZE. destruct (Z.ltb_spec (length_ d - offset) (512 - Z.rem offset 512)); [|lia].
           destruct (Z.ltb_spec size (length_ d - offset)); lia. }
    pose proof (chunk_bounds d size offset ltac:(lia) Hs) as (Hc1 & Hc2 & Hc3 & Hrem & Hmore).
    destruct (byte_to_sector_run st d offset Hi Hm ltac:(lia)) as (st1 & -> & Hq1).
    rewrite Ret_bind. cbn beta iota. rewrite (proj2 (Z.leb_gt (chunk d size offset) 0)), Hrem by lia.
    set (c := chunk d size offset) in *. set (s := bmap (s_view st) d (offset / 512)).
    pose proof (pos_block (length_ d) offset ltac:(lia)) as Hk.
    assert (s_usable s) as Hu by (by apply (m_data _ _ _ Hm)).
    pose proof (Z.mod_pos_bound offset 512 ltac:(lia)) as Hmb.
    destruct (law_read_at st1 s (offset mod 512) c (q_inv _ _ Hq1) Hu)
      as (st2 & -> & Hq12); [lia..|].
    rewrite Ret_bind. cbn beta iota. rewrite (q_view _ _ Hq1) by done.
    assert (quiet st st2) as Hq2 by (eapply quiet_trans; done).
    pose proof (law_length st s Hi Hu) as Hl512.
    set (b1 := slice (s_view st s) (Z.to_nat (offset mod 512)) (Z.to_nat c)).
    assert (length b1 = Z.to_nat c) as Hl1 by (apply length_slice; lia).
    destruct (IH (size - c) (offset + c) (acc ++ b1) st2) as (b2 & st3 & Hr & Hq3 & Hl2 & Hb2);
      [apply Hq2|by eapply quiet_mapped|lia|lia|].
    exists (b1 ++ b2), st3. rewrite app_assoc. split_and!; [done|by eapply quiet_trans| |].
    + rewrite length_app. lia.
    + intros j Hj. rewrite length_app in Hj. destruct (decide (j < Z.to_nat c)%nat) as [Hlt|Hge].
      * rewrite lookup_app_l by lia. unfold b1. rewrite lookup_slice by lia. unfold file_byte.
        destruct (same_block offset (Z.of_nat j) Ho ltac:(lia) ltac:(lia)) as [-> ->]. fold s.
        f_equal. lia.
      * rewrite lookup_app_r by lia. rewrite Hb2 by lia.
        replace (offset + c + Z.of_nat (j - length b1)) with (offset + Z.of_nat j) by lia.
        apply quiet_byte; [done|done|lia].
  - exists [], st. rewrite app_nil_r. split_and!; [done|by apply quiet_refl|simpl; lia|simpl; lia].
Qed.
End read.

(** ** Writing in place *)

(** The free map and the current transaction are as before. *)
Record books (st st' : St) : Prop := {
  bk_inv : s_inv st';
  bk_free : ∀ x, s_free st' x = s_free st x;
  bk_txn : wal_get_current_txn st' = wal_get_current_txn st
}.

Lemma quiet_books st st' : quiet st st' → books st st'.
Proof. by intros []. Qed.

Lemma logged_books st st' : logged st st' → books st st'.
Proof. by intros []. Qed.

Lemma books_trans st1 st2 st3 : books st1 st2 → books st2 st3 → books st1 st3.
Proof.
  intros [? Hf1 Ht1] [? Hf2 Ht2]. constructor; [done| |congruence]. intros x. by rewrite Hf2, Hf1.
Qed.

(** Sectors that are no data block of the file keep their contents. *)
Definition frame (d : inode_disk) (n : Z) (v v' : Z → list Z) : Prop :=
  ∀ x, s_usable x → (∀ k, 0 ≤ k < n → x ≠ bmap v d k) → v' x = v x.

Section write.
Context (d : inode_disk).
Local Abbreviation nblocks := (bytes_to_sectors (length_ d)).

(** One chunk stored into its block. *)
Lemma write_chunk_run st b offset c :
  s_inv st → mapped (s_view st) d nblocks → 0 ≤ offset → 0 < c → offset + c ≤ length_ d →
  offset mod 512 + c ≤ 512 → c ≤ Z.of_nat (length b) → Forall is_byte b →
  ∃ st', cache_write (bmap (s_view st) d (offset / 512)) b (offset mod 512) c st = Ret st' ∧
    books st st' ∧ s_room st' = s_room st ∧ mapped (s_view st') d nblocks ∧
    (∀ k, 0 ≤ k < nblocks → bmap (s_view st') d k = bmap (s_view st) d k) ∧
    frame d nblocks (s_view st) (s_view st') ∧
    ∀ i, 0 ≤ i < length_ d → file_byte (s_view st') d i =
      if decide (offset ≤ i < offset + c) then b !! Z.to_nat (i - offset) else file_byte (s_view st) d i.
Proof.
  intros Hi Hm Ho Hc He Hb Hl Hby. pose proof (pos_block (length_ d) offset ltac:(lia)) as Hk.
  set (s := bmap (s_view st) d (offset / 512)).
  assert (s_usable s) as Hu by (by apply (m_data _ _ _ Hm)).
  pose proof (Z.mod_pos_bound offset 512 ltac:(lia)) as Hmb.
  destruct (law_write st s b (offset mod 512) c Hi Hu) as (st' & Hr & [Hi' Hv Hf Ht Hrm]); [lia..|done|].
  assert (∀ k x, 0 ≤ k < nblocks → x ∈ index_of (s_view st) d k → s_view st' x = s_view st x) as Hidx.
  { intros k x Hk0 Hx. rewrite Hv by (by apply (m_index _ _ _ Hm k)).
    destruct (Z.eqb_spec x s) as [->|]; [|done]. by destruct (m_disj _ _ _ Hm (offset / 512) k Hk Hk0). }
  assert (∀ k, 0 ≤ k < nblocks → bmap (s_view st') d k = bmap (s_view st) d k) as Hbm.
  { intros k Hk0. apply bmap_local. intros x. by apply Hidx. }
  exists st'. split_and!; try done.
  - by eapply mapped_local.
  - intros x Hx Hne. rewrite Hv by done. rewrite (proj2 (Z.eqb_neq x s)); [done|]. by apply Hne.
  - intros i Hi0. pose proof (pos_block _ _ Hi0) as Hki. unfold file_byte. rewrite Hbm by done.
    rewrite Hv by (by apply (m_data _ _ _ Hm)).
    pose proof (law_length st s Hi Hu) as Hl512.
    assert (length (take (Z.to_nat c) b) = Z.to_nat c) as Hlt by (rewrite length_take; lia).
    pose proof (Z.mod_pos_bound i 512 ltac:(lia)). pose proof (Z.div_mod i 512 ltac:(lia)).
    pose proof (Z.div_mod offset 512 ltac:(lia)).
    destruct (Z.eqb_spec (bmap (s_view st) d (i / 512)) s) as [Heq|Hne].
    + apply (m_inj _ _ _ Hm) in Heq; [|done|done]. rewrite Heq. fold s.
      case_decide as Hin.
      * rewrite lookup_splice_in by lia. rewrite lookup_take_lt by lia. f_equal. lia.
      * rewrite lookup_splice_out by lia. done.
    + case_decide as Hin; [|done]. destruct Hne. unfold s. f_equal.
      replace i with (offset + (i - offset)) by lia. apply same_block; lia.
Qed.

(** The optional logging of one chunk changes no sector. *)
Lemma log_chunk_run st txn b s ofs c :
  s_inv st → s_usable s → 0 ≤ ofs → 0 < c → ofs + c ≤ 512 → c ≤ Z.of_nat (length b) →
  Forall is_byte b →
  (∀ t, txn = Some t → wal_get_current_txn st = Some t ∧ 3 ≤ s_room st) →
  ∃ st', (match txn with
          | None => Ret st
          | Some t =>
              '(old, st) ← cache_read_at s ofs c st; wal_log_write t s old b ofs c st
          end) = Ret st' ∧ books st st' ∧ (∀ x, s_usable x → s_view st' x = s_view st x) ∧
    s_room st - 3 ≤ s_room st'.
Proof.
  intros Hi Hu Ho Hc He Hl Hb Ht. destruct txn as [t|]; [|exists st; split_and!; [done|by apply quiet_books, quiet_refl|done|lia]].
  destruct (Ht t eq_refl) as [Htx Hr].
  destruct (law_read_at st s ofs c Hi Hu Ho Hc He) as (st1 & -> & Hq). rewrite Ret_bind. cbn beta iota.
  destruct (law_log st1 t s (slice (s_view st s) (Z.to_nat ofs) (Z.to_nat c)) b ofs c (q_inv _ _ Hq) Hu Ho Hc He)
    as (st2 & -> & Hg).
  - rewrite length_slice; [lia|]. rewrite law_length by done. lia.
  - done.
  - apply Forall_slice. by apply law_bytes.
  - done.
  - by rewrite (q_txn _ _ Hq).
  - by rewrite (q_room _ _ Hq).
  - exists st2. split_and!; [done|eapply books_trans; [by apply quiet_books|by apply logged_books]| |].
    + intros x Hx. rewrite (lg_view _ _ Hg), (q_view _ _ Hq) by done. done.
    + rewrite <- (q_room _ _ Hq). apply Hg.
Qed.

(** The map and the bytes of the file only depend on the view. *)
Lemma view_bmap st st' k :
  mapped (s_view st) d nblocks → (∀ x, s_usable x → s_view st' x = s_view st x) → 0 ≤ k < nblocks →
  bmap (s_view st') d k = bmap (s_view st) d k.
Proof.
  intros Hm Hv Hk. apply bmap_local. intros x Hx. apply Hv. by apply (m_index _ _ _ Hm k).
Qed.

Lemma view_mapped st st' :
  mapped (s_view st) d nblocks → (∀ x, s_usable x → s_view st' x = s_view st x) →
  mapped (s_view st') d nblocks.
Proof.
  intros Hm Hv. apply (mapped_local (s_view st)); [|done]. intros k x Hk Hx.
  apply Hv. by apply (m_index _ _ _ Hm k).
Qed.

Lemma view_byte st st' i :
  mapped (s_view st) d nblocks → (∀ x, s_usable x → s_view st' x = s_view st x) → 0 ≤ i < length_ d →
  file_byte (s_view st') d i = file_byte (s_view st) d i.
Proof.
  intros Hm Hv Hi. pose proof (pos_block _ _ Hi) as Hk. unfold file_byte.
  rewrite (view_bmap st st') by done. rewrite Hv; [done|]. by apply (m_data _ _ _ Hm).
Qed.

(** What a write of [size] bytes at [offset] leaves behind; byte [i] of the range
    comes from position [written + (i - offset)] of the buffer. *)
Record written_to (buffer : list Z) (size offset written : Z) (st st' : St) : Prop := {
  wt_books : books st st';
  wt_map : mapped (s_view st') d nblocks;
  wt_bmap : ∀ k, 0 ≤ k < nblocks → bmap (s_view st') d k = bmap (s_view st) d k;
  wt_frame : frame d nblocks (s_view st) (s_view st');
  wt_byte : ∀ i, 0 ≤ i < length_ d → file_byte (s_view st') d i =
      if decide (offset ≤ i < offset + size) then buffer !! Z.to_nat (written + (i - offset))
      else file_byte (s_view st) d i;
  wt_room : s_room st - 3 * size ≤ s_room st'
}.

Lemma written_nothing buffer offset written st :
  s_inv st → mapped (s_view st) d nblocks → written_to buffer 0 offset written st st.
Proof.
  intros Hi Hm. constructor; try done; [|lia]. intros i Hi0. by rewrite decide_False by lia.
Qed.

(** One iteration and the rest of the loop. *)
Lemma written_step buffer c size offset written st st1 st2 st3 st' :
  0 ≤ offset → 0 < c ≤ size → offset + size ≤ length_ d → 0 ≤ written →
  mapped (s_view st) d nblocks → quiet st st1 →
  books st1 st2 → (∀ x, s_usable x → s_view st2 x = s_view st1 x) → s_room st1 - 3 ≤ s_room st2 →
  books st2 st3 → s_room st3 = s_room st2 →
  (∀ k, 0 ≤ k < nblocks → bmap (s_view st3) d k = bmap (s_view st2) d k) →
  frame d nblocks (s_view st2) (s_view st3) →
  (∀ i, 0 ≤ i < length_ d → file_byte (s_view st3) d i =
     if decide (offset ≤ i < offset + c) then drop (Z.to_nat written) buffer !! Z.to_nat (i - offset)
     else file_byte (s_view st2) d i) →
  written_to buffer (size - c) (offset + c) (written + c) st3 st' →
  written_to buffer size offset written st st'.
Proof.
  intros Ho Hc He Hw Hm Hq Hb2 Hv2 Hr2 Hb3 Hr3 Hm3 Hf3 Hy3 [Hbk Hmp Hbm Hfr Hby Hrm].
  assert (∀ x, s_usable x → s_view st2 x = s_view st x) as Hv.
  { intros x Hx. rewrite Hv2 by done. by apply Hq. }
  pose proof (λ k, view_bmap st st2 k Hm Hv) as Hbm2. constructor; [|done| | | |].
  - eapply books_trans; [by apply quiet_books|]. eapply books_trans; [done|]. by eapply books_trans.
  - intros k Hk. by rewrite Hbm, Hm3, Hbm2.
  - intros x Hx Hne. rewrite Hfr; [|exact Hx|].
    + rewrite Hf3; [by apply Hv|exact Hx|]. intros k Hk. rewrite Hbm2 by done. by apply Hne.
    + intros k Hk. rewrite Hm3, Hbm2 by done. by apply Hne.
  - intros i Hi0. rewrite Hby, Hy3 by done. rewrite (view_byte st st2) by done.
    repeat case_decide; try lia; try done.
    + f_equal. lia.
    + rewrite lookup_drop. f_equal. lia.
  - rewrite <- (q_room _ _ Hq). lia.
Qed.

Lemma write_loop_run fuel txn buffer size offset written st :
  s_inv st → mapped (s_view st) d nblocks → 0 ≤ offset → offset + size ≤ length_ d →
  0 ≤ written → 0 ≤ size ≤ Z.of_nat fuel → written + size ≤ Z.of_nat (length buffer) →
  Forall is_byte buffer →
  (∀ t, txn = Some t → wal_get_current_txn st = Some t ∧ 3 * size ≤ s_room st) →
  ∃ st', write_loop fuel txn d buffer size offset written st = Ret (written + size, st') ∧
    written_to buffer size offset written st st'.
Proof.
  revert size offset written st.
  induction fuel as [|fuel IH]; intros size offset written st Hi Hm Ho He Hw Hf Hl Hby Ht; cbn [write_loop];
    destruct (Z.ltb_spec 0 size) as [Hs|Hs].
  - lia.
  - exists st. replace size with 0 by lia. rewrite Z.add_0_r. split; [done|by apply written_nothing].
  - pose proof (chunk_bounds d size offset ltac:(lia) Hs) as (Hc1 & Hc2 & Hc3 & Hrem & Hmore).
    destruct (byte_to_sector_run st d offset Hi Hm ltac:(lia)) as (st1 & -> & Hq1).
    rewrite Ret_bind. cbn beta iota zeta. rewrite (proj2 (Z.leb_gt (chunk d size offset) 0)), Hrem by lia.
    set (c := chunk d size offset) in *.
    pose proof (pos_block (length_ d) offset ltac:(lia)) as Hk.
    pose proof (Z.mod_pos_bound offset 512 ltac:(lia)) as Hmb.
    set (src := drop (Z.to_nat written) buffer).
    assert (c ≤ Z.of_nat (length src)) by (unfold src; rewrite length_drop; lia).
    assert (Forall is_byte src) by (by apply Forall_drop).
    destruct (log_chunk_run st1 txn src (bmap (s_view st) d (offset / 512)) (offset mod 512) c)
      as (st2 & -> & Hb2 & Hv2 & Hr2); try done; try lia; [apply Hq1|by apply (m_data _ _ _ Hm)| |].
    { intros t Htx. destruct (Ht t Htx) as [Ht1 Ht2]. rewrite (q_txn _ _ Hq1), (q_room _ _ Hq1). split; [done|lia]. }
    rewrite Ret_bind.
    assert (∀ x, s_usable x → s_view st2 x = s_view st x) as Hv.
    { intros x Hx. rewrite Hv2 by done. by apply Hq1. }
    rewrite <- (view_bmap st st2 (offset / 512) Hm Hv Hk).
    destruct (write_chunk_run st2 src offset c (bk_inv _ _ Hb2) (view_mapped st st2 Hm Hv))
      as (st3 & -> & Hb3 & Hr3 & Hm3 & Hbm3 & Hfr3 & Hby3); try done; try lia.
    rewrite Ret_bind.
    destruct (IH (size - c) (offset + c) (written + c) st3) as (st4 & Hr & Hwt);
      [apply Hb3|exact Hm3|lia..|done| |].
    { intros t Htx. destruct (Ht t Htx) as [Ht1 Ht2].
      rewrite (bk_txn _ _ Hb3), (bk_txn _ _ Hb2), (q_txn _ _ Hq1). split; [done|].
      pose proof (q_room _ _ Hq1). lia. }
    exists st4. rewrite Hr. split; [f_equal; f_equal; lia|].
    eapply (written_step buffer c size offset written st st1 st2 st3); done.
  - exists st. replace size with 0 by lia. rewrite Z.add_0_r. split; [done|by apply written_nothing].
Qed.
End write.

(** ** Reading and writing files *)

Lemma read_data_run d size ofs st :
  s_inv st → mapped (s_view st) d (bytes_to_sectors (length_ d)) → 0 ≤ ofs →
  ∃ b st', read_data d size ofs st = Ret (b, st') ∧ quiet st st' ∧
    Z.of_nat (length b) = Z.max 0 (Z.min size (length_ d - ofs)) ∧
    ∀ j, (j < length b)%nat → b !! j = file_byte (s_view st) d (ofs + Z.of_nat j).
Proof.
  intros Hi Hm Ho. unfold read_data.
  destruct (decide (0 ≤ size)) as [Hs|Hs].
  - by apply (read_loop_run d (Z.to_nat size) size ofs [] st Hi Hm Ho ltac:(lia)).
  - exists [], st. replace (Z.to_nat size) with 0%nat by lia. cbn [read_loop].
    rewrite (proj2 (Z.ltb_ge 0 size)) by lia.
    split_and!; [done|by apply quiet_refl|cbn; lia|cbn; lia].
Qed.

(** A write that stays inside the file. *)
Lemma write_inode_at_run i buffer size ofs st :
  s_inv st → file_ok (s_view st) (data i) → deny_write_cnt i = 0 → 0 ≤ ofs → 0 ≤ size →
  size = Z.of_nat (length buffer) → Forall is_byte buffer → ofs + size ≤ length_ (data i) →
  (skip_wal i = false → 3 * size ≤ s_room st) →
  ∃ st', write_inode_at true i buffer size ofs st = Ret (size, i, st') ∧
    written_to (data i) buffer size ofs 0 st st'.
Proof.
  intros Hi Hf Hd Ho Hs Hl Hb He Hr. pose proof (f_len _ _ Hf) as Hlen.
  unfold write_inode_at. rewrite Hd. cbn [negb Z.eqb].
  rewrite (proj2 (Z.ltb_lt (ofs + size) (2 ^ 31))) by lia. cbn [DEFINED]. rewrite Ret_bind.
  rewrite (proj2 (Z.ltb_ge (length_ (data i)) (ofs + size))) by lia. rewrite Ret_bind. cbn beta iota.
  assert (set_data i (data i) = i) as -> by (by destruct i). cbn [negb andb].
  destruct (write_loop_run (data i) (Z.to_nat size) (if skip_wal i then None else wal_get_current_txn st)
    buffer size ofs 0 st Hi (f_map _ _ Hf)) as (st' & -> & Hw); [lia..|done| |].
  { intros t Ht. destruct (skip_wal i); [done|]. auto. }
  rewrite Ret_bind. by exists st'.
Qed.

(** What is read where the buffer was written is the buffer. *)
Lemma written_back d buffer size ofs st st' b :
  written_to d buffer size ofs 0 st st' → size = Z.of_nat (length buffer) → 0 ≤ ofs →
  ofs + size ≤ length_ d → Z.of_nat (length b) = Z.max 0 (Z.min size (length_ d - ofs)) →
  (∀ j, (j < length b)%nat → b !! j = file_byte (s_view st') d (ofs + Z.of_nat j)) → b = buffer.
Proof.
  intros Hw Hs Ho He Hl Hb. apply list_eq. intros j. destruct (decide (j < length b)%nat) as [Hj|Hj].
  - rewrite Hb, (wt_byte _ _ _ _ _ _ _ Hw), decide_True by lia. f_equal. lia.
  - by rewrite !(proj2 (lookup_ge_None _ _)) by lia.
Qed.

(** ** Growing a file by less than a sector *)

(** The sectors of the file and of its inode are in use, and the inode's own
    sector is none of the file's blocks. *)
Record owned (st : St) (sec : Z) (d : inode_disk) : Prop := {
  ow_usable : s_usable sec;
  ow_taken : s_free st sec = false;
  ow_data : ∀ k, 0 ≤ k < bytes_to_sectors (length_ d) →
    s_free st (bmap (s_view st) d k) = false ∧ bmap (s_view st) d k ≠ sec;
  ow_index : ∀ k x, 0 ≤ k < bytes_to_sectors (length_ d) → x ∈ index_of (s_view st) d k →
    s_free st x = false ∧ x ≠ sec;
  ow_unused : length (unused d) = 110%nat
}.

Lemma owned_local st st' sec d :
  mapped (s_view st) d (bytes_to_sectors (length_ d)) →
  (∀ k x, 0 ≤ k < bytes_to_sectors (length_ d) → x ∈ index_of (s_view st) d k →
     s_view st' x = s_view st x) →
  (∀ x, s_free st x = false → s_free st' x = false) → owned st sec d → owned st' sec d.
Proof.
  intros Hm Hv Hf []. constructor; [done|by apply Hf| | |done].
  - intros k Hk. destruct (bmap_local (s_view st) (s_view st') d k) as [-> _]; [by intros; eapply Hv|].
    destruct (ow_data0 k Hk). split; [by apply Hf|done].
  - intros k x Hk. destruct (bmap_local (s_view st) (s_view st') d k) as [_ ->]; [by intros; eapply Hv|].
    intros Hx. destruct (ow_index0 k x Hk Hx). split; [by apply Hf|done].
Qed.

Lemma disk_encode_ok d :
  length (direct d) = 12%nat → length (unused d) = 110%nat →
  length (disk_encode d) = 512%nat ∧ Forall is_byte (disk_encode d).
Proof.
  intros Hd Hu. unfold disk_encode, ptrs_encode. split.
  - rewrite Bitmap.length_words_to_bytes, !length_app, Hd, Hu. done.
  - unfold Bitmap.words_to_bytes. generalize (direct d ++ [indirect d; doubly_indirect d; u32 (length_ d);
      type_ d; nlink d; magic d] ++ unused d). intros l. induction l as [|x l IH]; [by apply Forall_nil_2|].
    rewrite fmap_cons. apply Forall_app_2; [apply le_bytes_ok|exact IH].
Qed.

(** A whole sector is overwritten. *)
Lemma write_sector_run st s b :
  s_inv st → s_usable s → length b = 512%nat → Forall is_byte b →
  ∃ st', cache_write s b 0 BLOCK_SECTOR_SIZE st = Ret st' ∧ stored s b st st'.
Proof.
  intros Hi Hu Hl Hb. unfold BLOCK_SECTOR_SIZE.
  destruct (law_write st s b 0 512 Hi Hu) as (st' & Hr & Hs); [lia..|done|].
  exists st'. split; [done|]. rewrite take_ge in Hs by lia.
  rewrite splice_full in Hs; [done|]. rewrite law_length by done. lia.
Qed.

(** The file [d] became [d'], [n] bytes long, with its inode written to sector
    [sec]; [new] is the block that was allocated, if any. *)
Record grown (d d' : inode_disk) (sec n : Z) (new : option Z) (st st' : St) : Prop := {
  gr_inv : s_inv st';
  gr_txn : wal_get_current_txn st' = wal_get_current_txn st;
  gr_room : s_room st' = s_room st;
  gr_len : length_ d' = n;
  gr_file : file_ok (s_view st') d';
  gr_owned : owned st' sec d';
  gr_inode : s_view st' sec = disk_encode d';
  gr_byte : ∀ j, 0 ≤ j < length_ d → file_byte (s_view st') d' j = file_byte (s_view st) d j;
  gr_frame : ∀ x, s_usable x → x ≠ sec → s_free st x = false → s_view st' x = s_view st x;
  gr_free : ∀ x, s_free st' x = if bool_decide (new = Some x) then false else s_free st x;
  gr_new : ∀ s, new = Some s → s_free st s = true
}.

Lemma set_length_map v d n k : bmap v (set_length d n) k = bmap v d k ∧
  index_of v (set_length d n) k = index_of v d k.
Proof. done. Qed.

Section grow.
Context `{!AllocLaws St}.
Context (d : inode_disk) (sec n : Z) (st : St).
Context (Hi : s_inv st) (Hf : file_ok (s_view st) d) (Ho : owned st sec d).
Context (Hn : length_ d < n) (Hn31 : n + 511 < 2 ^ 31).
Local Abbreviation old := (bytes_to_sectors (length_ d)).

(** No block is needed: the length changes in memory and on disk. *)
Lemma grow_same :
  bytes_to_sectors n = old →
  ∃ d' st', inode_extend sec d n st = Ret (true, d', st') ∧ grown d d' sec n None st st'.
Proof using SectorLaws0 Hi Hf Ho Hn Hn31.
  intros Hs. unfold inode_extend. rewrite (proj2 (Z.ltb_lt _ _) Hn).
  rewrite (proj2 (Z.ltb_lt _ _) Hn31). cbn [DEFINED]. rewrite !Ret_bind. cbn zeta.
  rewrite Hs, Z.eqb_refl. destruct Hf as [Hl Hm]. pose proof Ho as [Hu Ht Hd Hx Hun].
  set (d' := set_length d n). destruct (disk_encode_ok d' (m_direct _ _ _ Hm) Hun) as [Hel Heb].
  unfold write_inode.
  destruct (write_sector_run st sec _ Hi Hu Hel Heb) as (st' & -> & [Hi' Hv' Hf' Ht' Hr']).
  rewrite Ret_bind. exists d', st'. split; [done|].
  assert (∀ k x, 0 ≤ k < old → x ∈ index_of (s_view st) d k → s_view st' x = s_view st x) as Hidx.
  { intros k x Hk Hxk. destruct (Hx k x Hk Hxk) as [_ Hne].
    rewrite Hv' by (by apply (m_index _ _ _ Hm k)). by rewrite (proj2 (Z.eqb_neq _ _) Hne). }
  pose proof (mapped_local _ _ _ _ Hidx Hm) as Hm'.
  assert (length_ d' = n) as Hln by done.
  constructor; [exact Hi'|exact Ht'|exact Hr'|exact Hln| | | | | | |].
  - constructor; [rewrite Hln; lia|]. rewrite Hln, Hs. by destruct Hm'.
  - assert (owned st' sec d) as [? ? H1 H2 ?].
    { apply (owned_local st); try done. intros x. by rewrite Hf'. }
    constructor; [done|done| | |exact Hun]; rewrite Hln, Hs; [exact H1|exact H2].
  - by rewrite Hv', Z.eqb_refl.
  - intros j Hj. pose proof (pos_block _ _ Hj) as Hk. unfold file_byte.
    change (bmap (s_view st') d' (j / 512)) with (bmap (s_view st') d (j / 512)).
    destruct (bmap_local (s_view st) (s_view st') d (j / 512)) as [-> _]; [by intros; eapply Hidx|].
    destruct (Hd _ Hk) as [_ Hne]. rewrite Hv' by (by apply (m_data _ _ _ Hm)).
    by rewrite (proj2 (Z.eqb_neq _ _) Hne).
  - intros x Hux Hne _. rewrite Hv' by done. by rewrite (proj2 (Z.eqb_neq _ _) Hne).
  - intros x. rewrite bool_decide_eq_false_2 by done. apply Hf'.
  - intros s Hs'. discriminate Hs'.
Qed.
(** The block that [alloc_blocks] adds behind the last direct one. *)
Lemma extend_direct_run :
  old < 12 →
  ∃ r st1, free_map_allocate_one st = Ret (r, st1) ∧
    match r with
    | None => extend_direct old (old + 1) d st = Ret (false, d, old, st1) ∧ quiet st st1 ∧
        ∀ x, s_free st x = false
    | Some s => ∃ st2, s_usable s ∧ s_free st s = true ∧
        extend_direct old (old + 1) d st =
          Ret (true, set_direct d (<[Z.to_nat old := s]> (direct d)), old + 1, st2) ∧
        s_inv st2 ∧ wal_get_current_txn st2 = wal_get_current_txn st ∧ s_room st2 = s_room st ∧
        (∀ x, s_usable x → x ≠ s → s_view st2 x = s_view st x) ∧
        ∀ x, s_free st2 x = if bool_decide (x = s) then false else s_free st x
    end.
Proof using SectorLaws0 AllocLaws0 Hi Hf Ho Hn.
  intros H12. pose proof (bytes_to_sectors_spec (length_ d) (proj1 (f_len _ _ Hf))) as [_ H0].
  pose proof (m_direct _ _ _ (f_map _ _ Hf)) as Hdl.
  destruct (law_alloc st Hi) as (r & st1 & Hr & Hi1 & Hv1 & Ht1 & Hr1 & Hres).
  exists r, st1. split; [exact Hr|]. unfold extend_direct, DIRECT_BLOCK_COUNT.
  destruct (Z.to_nat (12 - old)) as [|m] eqn:Hm; [lia|]. cbn [alloc_blocks].
  rewrite (proj2 (Z.ltb_lt old (old + 1))) by lia.
  destruct (array_get_in (direct d) old) as (x0 & -> & _); [lia|]. rewrite Ret_bind. cbn [andb].
  rewrite Hr, Ret_bind. destruct r as [s|].
  - destruct Hres as (Hu & Hfr & Hfm). rewrite array_set_in, Ret_bind by lia.
    destruct (write_sector_run st1 s zeros Hi1 Hu) as (st2 & -> & [Hi2 Hv2 Hf2 Ht2 Hr2]).
    { apply length_replicate. } { by apply (bool_decide_unpack (Forall is_byte zeros)). }
    rewrite !Ret_bind. exists st2. split; [done|]. split; [done|].
    split; [destruct m; cbn [alloc_blocks]; rewrite ?Z.ltb_irrefl, Ret_bind; done|].
    split; [done|]. split; [congruence|]. split; [congruence|]. split.
    + intros x Hx Hne. rewrite Hv2 by done. rewrite (proj2 (Z.eqb_neq _ _) Hne). by apply Hv1.
    + intros x. by rewrite Hf2.
  - rewrite Ret_bind. split; [by destruct d|]. split; [|intros x; apply Hres].
    constructor; try done. intros x. destruct (Hres x). congruence.
Qed.

Lemma grow_block :
  bytes_to_sectors n = old + 1 → old < 12 →
  ∃ ok d' st', inode_extend sec d n st = Ret (ok, d', st') ∧
    if ok : bool then ∃ s, grown d d' sec n (Some s) st st'
    else d' = d ∧ quiet st st' ∧ ∀ x, s_free st x = false.
Proof using SectorLaws0 AllocLaws0 Hi Hf Ho Hn Hn31.
  intros Hs H12. unfold inode_extend. rewrite (proj2 (Z.ltb_lt _ _) Hn).
  rewrite (proj2 (Z.ltb_lt _ _) Hn31). cbn [DEFINED]. rewrite !Ret_bind. cbn zeta.
  rewrite Hs, (proj2 (Z.eqb_neq _ _)) by lia.
  destruct (extend_direct_run H12) as (r & st1 & _ & Hres). destruct r as [s|].
  2: { destruct Hres as (-> & Hq & Hno). rewrite Ret_bind. exists false, d, st1. done. }
  destruct Hres as (st2 & Hus & Hfs & -> & Hi2 & Ht2 & Hr2 & Hv2 & Hf2).
  rewrite Ret_bind. cbn beta iota. cbn [negb]. rewrite Z.leb_refl.
  destruct Hf as [Hl Hm]. pose proof Ho as [Hu Ht Hd Hx Hun].
  pose proof (bytes_to_sectors_spec (length_ d) ltac:(lia)) as [_ H0].
  set (d' := set_length (set_direct d _) n).
  assert (length (direct d') = 12%nat) as Hdl by (cbn; rewrite length_insert; apply (m_direct _ _ _ Hm)).
  destruct (disk_encode_ok d' Hdl Hun) as [Hel Heb]. unfold write_inode.
  destruct (write_sector_run st2 sec _ Hi2 Hu Hel Heb) as (st3 & -> & [Hi3 Hv3 Hf3 Ht3 Hr3]).
  rewrite Ret_bind. exists true, d', st3. split; [done|]. exists s.
  assert (sec ≠ s) as Hss by (intros ->; congruence).
  assert (∀ x, s_usable x → x ≠ sec → s_free st x = false → s_view st3 x = s_view st x) as Hfr.
  { intros x Hux Hne Hfx. rewrite Hv3 by done. rewrite (proj2 (Z.eqb_neq _ _) Hne).
    apply Hv2; [done|]. intros ->. congruence. }
  assert (∀ v k, 0 ≤ k < old + 1 → bmap v d' k = (if decide (k = old) then s else bmap v d k) ∧
            index_of v d' k = []) as Hb.
  { intros v k Hk. unfold bmap, index_of. rewrite !(proj2 (Z.ltb_lt k 12)) by lia. split; [|done].
    cbn [d' set_length set_direct direct]. case_decide as Hko.
    - subst k. apply list_lookup_total_insert_eq. rewrite (m_direct _ _ _ Hm). lia.
    - apply list_lookup_total_insert_ne. lia. }
  assert (∀ k, 0 ≤ k < old → index_of (s_view st) d k = [] ∧
     ∀ v, bmap v d k = bmap (s_view st) d k) as Hb0.
  { intros k Hk. unfold bmap, index_of. by rewrite !(proj2 (Z.ltb_lt k 12)) by lia. }
  assert (length_ d' = n) as Hln by done.
  assert (∀ k, 0 ≤ k < old → s ≠ bmap (s_view st3) d k) as Hsd.
  { intros k Hk. rewrite (proj2 (Hb0 k Hk)). intros He. destruct (Hd k Hk) as [Hfb _]. congruence. }
  assert (mapped (s_view st3) d' (old + 1)) as Hm3.
  { constructor.
    - exact Hdl.
    - unfold MAX_BLOCKS. lia.
    - intros k Hk. rewrite (proj1 (Hb _ k Hk)). case_decide; [done|].
      rewrite (proj2 (Hb0 k ltac:(lia))). apply (m_data _ _ _ Hm). lia.
    - intros k x Hk. rewrite (proj2 (Hb _ k Hk)). by intros ?%elem_of_nil.
    - intros k1 k2 H1 H2. rewrite (proj1 (Hb _ k1 H1)), (proj1 (Hb _ k2 H2)).
      repeat case_decide; try congruence.
      + intros He. by destruct (Hsd k2 ltac:(lia)).
      + intros He. by destruct (Hsd k1 ltac:(lia)).
      + rewrite (proj2 (Hb0 k1 ltac:(lia))), (proj2 (Hb0 k2 ltac:(lia))). apply (m_inj _ _ _ Hm); lia.
    - intros k1 k2 H1 H2. rewrite (proj2 (Hb _ k2 H2)). apply not_elem_of_nil. }
  constructor; [exact Hi3|congruence|congruence|exact Hln| | | | | | |].
  - constructor; [rewrite Hln; lia|]. by rewrite Hln, Hs.
  - constructor; [done|by rewrite Hf3, Hf2, bool_decide_eq_false_2| | |exact Hun]; rewrite Hln, Hs.
    + intros k Hk. rewrite (proj1 (Hb _ k Hk)), Hf3, Hf2. case_decide.
      * rewrite bool_decide_eq_true_2 by done. split; [done|congruence].
      * rewrite (proj2 (Hb0 k ltac:(lia))). destruct (Hd k ltac:(lia)) as [Hfb Hnb].
        split; [|done]. by case_bool_decide.
    + intros k x Hk. rewrite (proj2 (Hb _ k Hk)). by intros ?%elem_of_nil.
  - by rewrite Hv3, Z.eqb_refl.
  - intros j Hj. pose proof (pos_block _ _ Hj) as Hk. unfold file_byte.
    rewrite (proj1 (Hb _ (j / 512) ltac:(lia))), decide_False by lia. rewrite (proj2 (Hb0 _ Hk)).
    destruct (Hd _ Hk) as [Hfb Hnb]. rewrite Hfr; [done| |done|done]. by apply (m_data _ _ _ Hm).
  - exact Hfr.
  - intros x. rewrite Hf3, Hf2. repeat case_bool_decide; congruence.
  - intros s' [= <-]. exact Hfs.
Qed.
End grow.

(** Whether a file of [len] bytes needs another block to hold [n] bytes. *)
Definition needs_block (len n : Z) : bool := negb (bytes_to_sectors n =? bytes_to_sectors len).

Section append.
Context `{!AllocLaws St}.

Lemma grow_run d sec n st :
  s_inv st → file_ok (s_view st) d → owned st sec d → length_ d < n → n + 511 < 2 ^ 31 →
  (needs_block (length_ d) n = true → bytes_to_sectors n = bytes_to_sectors (length_ d) + 1 ∧ bytes_to_sectors (length_ d) < 12) →
  ∃ ok d' st', inode_extend sec d n st = Ret (ok, d', st') ∧
    if ok : bool then ∃ new, grown d d' sec n new st st' ∧ (is_Some new ↔ needs_block (length_ d) n = true)
    else d' = d ∧ quiet st st' ∧ needs_block (length_ d) n = true ∧ ∀ x, s_free st x = false.
Proof using SectorLaws0 AllocLaws0.
  intros Hi Hf Ho Hn H31 Hb. unfold needs_block in *.
  destruct (Z.eqb_spec (bytes_to_sectors n) (bytes_to_sectors (length_ d))) as [Hs|Hs]; cbn [negb] in *.
  - destruct (grow_same d sec n st Hi Hf Ho Hn H31 Hs) as (d' & st' & Hr & Hg).
    exists true, d', st'. split; [done|]. exists None. split; [done|]. split; [by intros [? ?]|done].
  - destruct (Hb eq_refl) as [Hs1 H12].
    destruct (grow_block d sec n st Hi Hf Ho Hn H31 Hs1 ltac:(lia)) as (ok & d' & st' & Hr & Hg).
    exists ok, d', st'. split; [done|]. destruct ok.
    + destruct Hg as [s Hg]. exists (Some s). split; [done|]. split; [done|eauto].
    + destruct Hg as (? & ? & ?). done.
Qed.

(** What is written into a file stays clear of its inode. *)
Lemma written_owned st st' sec d b n ofs w :
  mapped (s_view st) d (bytes_to_sectors (length_ d)) → owned st sec d →
  written_to d b n ofs w st st' → owned st' sec d ∧ s_view st' sec = s_view st sec.
Proof using SectorLaws0.
  intros Hm Ho Hw. pose proof Ho as [Hu _ Hd _ _]. split.
  - apply (owned_local st); try done.
    + intros k x Hk Hx. apply (wt_frame _ _ _ _ _ _ _ Hw); [by apply (m_index _ _ _ Hm k)|].
      intros k' Hk' ->. by apply (m_disj _ _ _ Hm k' k Hk' Hk).
    + intros x. by rewrite (bk_free _ _ (wt_books _ _ _ _ _ _ _ Hw)).
  - apply (wt_frame _ _ _ _ _ _ _ Hw); [done|]. intros k Hk ->. by destruct (Hd k Hk).
Qed.

(** A write that ends behind the end of the file, by at most one direct block:
    the file grows and takes the bytes, or the disk is full and nothing changes. *)
Lemma write_inode_at_append i buffer size ofs st :
  s_inv st → file_ok (s_view st) (data i) → owned st (sector i) (data i) → deny_write_cnt i = 0 →
  0 ≤ ofs → size = Z.of_nat (length buffer) → Forall is_byte buffer →
  length_ (data i) < ofs + size → ofs + size + 511 < 2 ^ 31 →
  (needs_block (length_ (data i)) (ofs + size) = true →
     bytes_to_sectors (ofs + size) = bytes_to_sectors (length_ (data i)) + 1 ∧
     bytes_to_sectors (length_ (data i)) < 12) →
  3 * size ≤ s_room st →
  ∃ n d' st', write_inode_at true i buffer size ofs st = Ret (n, set_data i d', st') ∧
    ((n = 0 ∧ d' = data i ∧ quiet st st' ∧ needs_block (length_ (data i)) (ofs + size) = true ∧
      ∀ x, s_free st x = false) ∨
     (n = size ∧ ∃ new st1, grown (data i) d' (sector i) (ofs + size) new st st1 ∧
      (is_Some new ↔ needs_block (length_ (data i)) (ofs + size) = true) ∧
      written_to d' buffer size ofs 0 st1 st')).
Proof using SectorLaws0 AllocLaws0.
  intros Hi Hf Ho Hd Ho0 Hs Hb Hlt H31 Hnb Hr. unfold write_inode_at. rewrite Hd. cbn [negb Z.eqb].
  rewrite (proj2 (Z.ltb_lt (ofs + size) (2 ^ 31))) by lia. cbn [DEFINED]. rewrite Ret_bind.
  rewrite (proj2 (Z.ltb_lt (length_ (data i)) (ofs + size))) by lia.
  destruct (grow_run (data i) (sector i) (ofs + size) st Hi Hf Ho Hlt H31 Hnb)
    as (ok & d' & st1 & -> & Hg). rewrite Ret_bind. cbn beta iota. destruct ok; cbn [negb andb].
  2: { destruct Hg as (-> & Hq & Hnb' & Hno). exists 0, (data i), st1. split; [done|]. by left. }
  destruct Hg as (new & Hg & Hnew).
  destruct (write_loop_run d' (Z.to_nat size) (if skip_wal (set_data i d') then None else wal_get_current_txn st1)
    buffer size ofs 0 st1 (gr_inv _ _ _ _ _ _ _ Hg) (f_map _ _ (gr_file _ _ _ _ _ _ _ Hg)))
    as (st' & Hw & Hwt); [done|rewrite (gr_len _ _ _ _ _ _ _ Hg); lia|lia|lia|lia|done| |].
  { intros t Ht. rewrite (gr_room _ _ _ _ _ _ _ Hg). destruct (skip_wal (set_data i d')); [done|]. split; [done|lia]. }
  cbn [data set_data]. rewrite Hw, Ret_bind. exists size, d', st'. split; [done|]. right. split; [done|].
  exists new, st1. done.
Qed.
End append.

(** ** The table of open inodes *)

(** Every listed inode is live with a positive count, no sector is open twice,
    and addresses at or above [next_inode] are unused. *)
Record table_ok (w : ist (St:=St)) : Prop := {
  tb_nodup : NoDup (open_inodes w);
  tb_live : ∀ p, p ∈ open_inodes w ↔ is_Some (heap w !! p);
  tb_count : ∀ p i, heap w !! p = Some i → 0 < open_cnt i;
  tb_sector : ∀ p q i j, heap w !! p = Some i → heap w !! q = Some j → sector i = sector j → p = q;
  tb_fresh : ∀ p, is_Some (heap w !! p) → (p < next_inode w)%nat
}.

Lemma find_open_Some h l sec p :
  find_open h l sec = Some p → p ∈ l ∧ ∃ i, h !! p = Some i ∧ sector i = sec.
Proof.
  induction l as [|q l IH]; [done|]. cbn [find_open]. destruct (h !! q) as [i|] eqn:Hq.
  - destruct (Z.eqb_spec (sector i) sec); [|intros [? ?]%IH; split; [by right|done]].
    intros [= <-]. split; [by left|eauto].
  - intros [? ?]%IH. split; [by right|done].
Qed.

Lemma find_open_None h l sec :
  find_open h l sec = None → ∀ p i, p ∈ l → h !! p = Some i → sector i ≠ sec.
Proof.
  induction l as [|q l IH]; [by intros _ p i ?%elem_of_nil|]. cbn [find_open].
  intros H p i [->|Hp]%elem_of_cons Hi.
  - rewrite Hi in H. destruct (Z.eqb_spec (sector i) sec); done.
  - destruct (h !! q) as [j|]; [destruct (_ =? _); [done|]|]; by eapply IH.
Qed.

(** A lookup in the table finds exactly the inode open at that sector. *)
Lemma find_open_spec w sec :
  table_ok w →
  match find_open (heap w) (open_inodes w) sec with
  | Some p => ∃ i, heap w !! p = Some i ∧ sector i = sec
  | None => ∀ p i, heap w !! p = Some i → sector i ≠ sec
  end.
Proof.
  intros []. destruct (find_open _ _ _) as [p|] eqn:H.
  - by apply find_open_Some in H as [_ ?].
  - intros p i Hp. eapply find_open_None; [done| |done]. apply tb_live0. eauto.
Qed.

Lemma inode_open_shared mo w sec p i :
  table_ok w → heap w !! p = Some i → sector i = sec →
  inode_open mo sec w = Ret (Some p, put_inode w p (set_open_cnt i (open_cnt i + 1))).
Proof.
  intros Ht Hp Hs. pose proof (find_open_spec w sec Ht) as Hf. unfold inode_open.
  destruct (find_open (heap w) (open_inodes w) sec) as [q|].
  - destruct Hf as (j & Hj & Hsj). assert (q = p) as -> by (eapply (tb_sector _ Ht); [done|done|congruence]).
    unfold inode_reopen, get_inode. by rewrite Hp.
  - by destruct (Hf p i Hp).
Qed.

Lemma inode_open_fresh w sec :
  table_ok w → s_inv (store w) → s_usable sec → (∀ p i, heap w !! p = Some i → sector i ≠ sec) →
  ∃ st', inode_open true sec w =
    Ret (Some (next_inode w),
         mk_ist st' (<[next_inode w := mk_inode sec 1 false false 0
                                         (disk_decode (s_view (store w) sec))]> (heap w))
                (next_inode w :: open_inodes w) (S (next_inode w))) ∧ quiet (store w) st'.
Proof.
  intros Ht Hi Hu Hno. unfold inode_open.
  destruct (find_open (heap w) (open_inodes w) sec) as [q|] eqn:Hf.
  - apply find_open_Some in Hf as (_ & j & Hj & Hsj). by destruct (Hno q j Hj).
  - cbn [negb]. destruct (law_read (store w) sec Hi Hu) as (st' & -> & Hq).
    exists st'. by rewrite Ret_bind.
Qed.

Lemma table_ok_put w p i j :
  table_ok w → heap w !! p = Some i → sector j = sector i → 0 < open_cnt j →
  table_ok (put_inode w p j).
Proof.
  intros [] Hp Hs Hc. constructor; try done; cbn.
  - intros q. rewrite tb_live0. destruct (decide (p = q)) as [->|].
    + rewrite lookup_insert_eq. rewrite Hp. split; eauto.
    + by rewrite lookup_insert_ne.
  - intros q k [[-> ->]|[_ Hq]]%lookup_insert_Some; [done|by eapply tb_count0].
  - intros q r k l [[-> ->]|[Hne Hq]]%lookup_insert_Some [[-> ->]|[Hne' Hr]]%lookup_insert_Some Heq; try done.
    + rewrite Hs in Heq. eauto.
    + rewrite Hs in Heq. eauto.
    + eauto.
  - intros q Hq. destruct (decide (p = q)) as [->|]; [apply tb_fresh0; eauto|].
    rewrite lookup_insert_ne in Hq by done. eauto.
Qed.

Lemma table_ok_new w st' i :
  table_ok w → 0 < open_cnt i → (∀ q j, heap w !! q = Some j → sector j ≠ sector i) →
  table_ok (mk_ist st' (<[next_inode w := i]> (heap w)) (next_inode w :: open_inodes w) (S (next_inode w))).
Proof.
  intros [] Hc Hno.
  assert (heap w !! next_inode w = None) as Hfr.
  { destruct (heap w !! next_inode w) eqn:H; [|done].
    specialize (tb_fresh0 (next_inode w) ltac:(eauto)). lia. }
  constructor; cbn.
  - constructor; [|done]. rewrite tb_live0, Hfr. by intros [? ?].
  - intros q. rewrite elem_of_cons, tb_live0. destruct (decide (next_inode w = q)) as [<-|].
    + rewrite lookup_insert_eq. split; eauto.
    + rewrite lookup_insert_ne by done. split; [intros [->|?]; done|by right].
  - intros q k [[<- <-]|[_ Hq]]%lookup_insert_Some; [done|by eapply tb_count0].
  - intros q r k l [[<- <-]|[Hne Hq]]%lookup_insert_Some [[<- <-]|[Hne' Hr]]%lookup_insert_Some Heq; try done.
    + by destruct (Hno _ _ Hr).
    + by destruct (Hno _ _ Hq).
    + eauto.
  - intros q Hq. destruct (decide (next_inode w = q)) as [<-|]; [lia|].
    rewrite lookup_insert_ne in Hq by done. specialize (tb_fresh0 q Hq). lia.
Qed.

(** ** Properties *)

(** [inode_open] shares: if an inode of the sector is already open, the same
    address is returned with its count raised, and opening twice in a row always
    gives the same address.  [inode_close] takes the opening back: the table of
    open inodes is exactly what it was, and no sector or free-map bit changed. *)
Theorem inode_open_close (w : ist (St:=St)) (sec : Z)
    (Ht : table_ok w) (Hi : s_inv (store w)) (Hu : s_usable sec) :
  ∃ p w1, inode_open true sec w = Ret (Some p, w1) ∧ table_ok w1 ∧
    (∀ q i, heap w !! q = Some i → sector i = sec → q = p) ∧
    (∃ w2, inode_open true sec w1 = Ret (Some p, w2)) ∧
    ∃ w3, inode_close (Some p) w1 = Ret w3 ∧ heap w3 = heap w ∧ open_inodes w3 = open_inodes w ∧
      quiet (store w) (store w3).
Proof.
  pose proof (find_open_spec w sec Ht) as Hf.
  destruct (find_open (heap w) (open_inodes w) sec) as [p|].
  - destruct Hf as (i & Hp & Hs). pose proof (tb_count _ Ht p i Hp) as Hc.
    set (i1 := set_open_cnt i (open_cnt i + 1)).
    assert (table_ok (put_inode w p i1)) as Ht1 by (eapply table_ok_put; [done|done|done|cbn; lia]).
    exists p, (put_inode w p i1). split_and!.
    + by apply inode_open_shared.
    + done.
    + intros q j Hq Hj. eapply (tb_sector _ Ht); [done|done|congruence].
    + eexists. eapply inode_open_shared; [done|apply lookup_insert_eq|done].
    + unfold inode_close, get_inode. cbn [heap put_inode]. rewrite lookup_insert_eq, Ret_bind.
      cbn [open_cnt set_open_cnt i1]. rewrite (proj2 (Z.eqb_neq _ _)) by lia.
      eexists. split; [reflexivity|]. cbn. split_and!; [|done|by apply quiet_refl].
      rewrite insert_insert_eq. apply insert_id. rewrite Hp. f_equal. unfold i1, set_open_cnt.
      cbn [sector open_cnt removed skip_wal deny_write_cnt data].
      rewrite Z.add_simpl_r. by destruct i.
  - destruct (inode_open_fresh w sec Ht Hi Hu Hf) as (st' & Ho & Hq).
    set (i := mk_inode sec 1 false false 0 _) in Ho. set (w1 := mk_ist st' _ _ _) in Ho.
    assert (table_ok w1) as Ht1 by (apply table_ok_new; [done|done|exact Hf]).
    assert (heap w !! next_inode w = None) as Hfr.
    { destruct (heap w !! next_inode w) eqn:H; [|done].
      pose proof (tb_fresh _ Ht (next_inode w) ltac:(eauto)). lia. }
    exists (next_inode w), w1. split_and!; [done|done| | |].
    + intros q j Hq' Hj. by destruct (Hf q j Hq').
    + eexists. eapply inode_open_shared; [done|apply lookup_insert_eq|done].
    + unfold inode_close, get_inode. cbn [heap w1]. rewrite lookup_insert_eq, Ret_bind.
      change (open_cnt (set_open_cnt i (open_cnt i - 1)) =? 0) with true. cbn iota.
      change (removed (set_open_cnt i (open_cnt i - 1))) with false. cbn [andb]. rewrite Ret_bind. eexists. split; [reflexivity|].
      cbn [heap open_inodes store w1]. split_and!; [| |exact Hq].
      * by rewrite delete_insert_id.
      * rewrite filter_cons, decide_False by (intros H; by apply H).
        apply filter_all. intros q Hq0 ->. apply (tb_live _ Ht) in Hq0. rewrite Hfr in Hq0.
        by destruct Hq0.
Qed.

(** Reading a file returns exactly the bytes of the requested range that lie
    below its length, through direct, indirect and doubly indirect blocks, and
    changes nothing. *)
Theorem inode_read_bytes (w : ist (St:=St)) (p : nat) (i : inode) (size ofs : Z)
    (Hi : s_inv (store w)) (Hp : heap w !! p = Some i)
    (Hf : file_ok (s_view (store w)) (data i)) (Ho : 0 ≤ ofs) (Hs : 0 ≤ size) :
  ∃ b w', inode_read_at p size ofs w = Ret (b, w') ∧ heap w' = heap w ∧
    quiet (store w) (store w') ∧
    Z.of_nat (length b) = Z.max 0 (Z.min size (length_ (data i) - ofs)) ∧
    ∀ j, (j < length b)%nat → b !! j = file_byte (s_view (store w)) (data i) (ofs + Z.of_nat j).
Proof.
  unfold inode_read_at, get_inode. rewrite Hp, Ret_bind.
  destruct (read_data_run (data i) size ofs (store w) Hi (f_map _ _ Hf) Ho) as (b & st' & -> & Hq & Hl & Hb).
  rewrite Ret_bind. exists b, (with_store w st'). done.
Qed.

(** C33. A write inside a file stores all its bytes, with or without a current
    transaction to log to: it returns the full size, reading the range back gives
    exactly the bytes written, every other byte of the file, every sector that is
    not a data block of the file and the free map are unchanged.  While writes
    are denied nothing is written and the result is 0. *)
Theorem inode_write_read (w : ist (St:=St)) (p : nat) (i : inode) (buffer : list Z) (size ofs : Z)
    (Hi : s_inv (store w)) (Hp : heap w !! p = Some i)
    (Hf : file_ok (s_view (store w)) (data i)) (Ho : 0 ≤ ofs) (Hs : size = Z.of_nat (length buffer))
    (Hb : Forall is_byte buffer) (He : ofs + size ≤ length_ (data i))
    (Hr : 3 * size ≤ s_room (store w)) :
  (deny_write_cnt i ≠ 0 → inode_write_at true p buffer size ofs w = Ret (0, w)) ∧
  (deny_write_cnt i = 0 →
   ∃ w1 w2, inode_write_at true p buffer size ofs w = Ret (size, w1) ∧
    inode_read_at p size ofs w1 = Ret (buffer, w2) ∧
    heap w1 = heap w ∧ (∀ x, s_free (store w1) x = s_free (store w) x) ∧
    frame (data i) (bytes_to_sectors (length_ (data i))) (s_view (store w)) (s_view (store w1)) ∧
    ∀ k, 0 ≤ k < length_ (data i) → ¬ (ofs ≤ k < ofs + size) →
      file_byte (s_view (store w1)) (data i) k = file_byte (s_view (store w)) (data i) k).
Proof.
  unfold inode_write_at, get_inode. rewrite Hp, Ret_bind. split; intros Hd.
  - unfold write_inode_at. rewrite (proj2 (Z.eqb_neq _ _) Hd). cbn [negb]. rewrite Ret_bind. cbn.
    do 2 f_equal. unfold put_inode, with_store. cbn. rewrite insert_id by done. by destruct w.
  - destruct (write_inode_at_run i buffer size ofs (store w)) as (st' & -> & Hw); try done; [lia|].
    rewrite Ret_bind. cbn beta iota. set (w1 := put_inode (with_store w st') p i).
    assert (heap w1 = heap w) as Hh by (cbn; by apply insert_id).
    destruct (read_data_run (data i) size ofs st' (bk_inv _ _ (wt_books _ _ _ _ _ _ _ Hw))
      (wt_map _ _ _ _ _ _ _ Hw) Ho) as (b & st2 & Hrd & _ & Hl & Hbb).
    exists w1, (with_store w1 st2). split; [reflexivity|].
    split; [|split; [exact Hh|split; [apply Hw|split; [apply Hw|]]]].
    + unfold inode_read_at, get_inode. rewrite Hh, Hp, Ret_bind. change (store w1) with st'.
      rewrite Hrd, Ret_bind. cbn beta iota. do 2 f_equal.
      apply (written_back (data i) buffer size ofs (store w) st'); done.
    + intros k Hk Hout. change (store w1) with st'. rewrite (wt_byte _ _ _ _ _ _ _ Hw), decide_False by done.
      done.
Qed.
End proofs.
End InodeProofs.
