(* ===== verification/Volume.v ===== *)
(** * The mounted volume

    The components below the inode layer put together as the code does: sectors
    go through the buffer cache, logging through the log manager, allocation
    through the free map, and the free map keeps itself in a file, that is, in an
    inode of the same volume.  While the free map writes its file it holds
    [free_map_lock], so a nested allocation would fail the assertion of
    [lock_acquire]: on that level allocation panics.  [volume_sectors] and
    [volume_alloc] show that the whole keeps the promises the inode layer is
    proved against. *)

From stdpp Require Import base tactics numbers list list_numbers option gmap.
From S2P Require Import Prelude Block Bitmap Cache FreeMap WalRecord Wal WalProofs WalTxn Inode InodeProofs.

Open Scope Z_scope.

Module Volume.
Import Block Inode InodeProofs.

(** ** Sectors and log: the level the free map file is written on *)

Definition w_cache_read (s : Z) (w : Wal.wst) : outcome (list Z * Wal.wst) :=
  '(b, c) ← Cache.cache_read s (Wal.fs w); Ret (b, Wal.set_fs w c).
Definition w_cache_read_at (s ofs n : Z) (w : Wal.wst) : outcome (list Z * Wal.wst) :=
  '(b, c) ← Cache.cache_read_at s ofs n (Wal.fs w); Ret (b, Wal.set_fs w c).
Definition w_cache_write (s : Z) (b : list Z) (ofs n : Z) (w : Wal.wst) : outcome Wal.wst :=
  c ← Cache.cache_write s b ofs n (Wal.fs w); Ret (Wal.set_fs w c).
Definition w_log_write (t : nat) (s : Z) (old new : list Z) (ofs n : Z) (w : Wal.wst)
    : outcome Wal.wst :=
  '(_, w) ← Wal.wal_log_write (Some t) s old new ofs n w; Ret w.

#[global] Instance wal_store : Store Wal.wst := {
  cache_read := w_cache_read;
  cache_read_at := w_cache_read_at;
  cache_write := w_cache_write;
  free_map_allocate_one := λ _, Panic;
  free_map_release := λ _ _, Panic;
  wal_get_current_txn := Wal.wal_get_current_txn;
  wal_log_write := w_log_write
}.

(** The store is in order when the log invariant holds and the current
    transaction, if any, is active.  Files live outside the log. *)
Record wal_ready (size : Z) (w : Wal.wst) : Prop := {
  wr_log : ∃ base hist, WalProofs.log_inv base hist w;
  wr_size : block_size (Wal.dev w) = size;
  wr_max : size ≤ 2 ^ 32;
  wr_bytes : ∀ s, 0 ≤ s < size → ¬ WalProofs.log_area s → Forall is_byte (Cache.cview (Wal.fs w) s);
  wr_txn : ∀ h, Wal.current_txn w = Some h →
    ∃ t, Wal.txns w !! h = Some t ∧ Wal.t_state t = Wal.TXN_ACTIVE ∧ 0 ≤ Wal.t_id t < 2 ^ 32
}.

#[global] Instance wal_model (size : Z) : SectorModel Wal.wst := {
  s_inv := wal_ready size;
  s_view := λ w, Cache.cview (Wal.fs w);
  s_free := λ _ _, false;
  s_usable := λ s, 0 ≤ s < size ∧ ¬ WalProofs.log_area s;
  s_room := λ w, 2 ^ 64 - 1 - Wal.next_lsn (Wal.wal w)
}.

(** An access through the cache that leaves the log alone keeps the store ready. *)
Lemma wal_ready_fs size w c :
  wal_ready size w → (∃ base hist, WalProofs.log_inv base hist (Wal.set_fs w c)) →
  block_size (Cache.fs_device c) = block_size (Wal.dev w) →
  (∀ s, 0 ≤ s < size → ¬ WalProofs.log_area s → Forall is_byte (Cache.cview c s)) →
  wal_ready size (Wal.set_fs w c).
Proof.
  intros [] Hl Hs Hb. constructor; [done| |done|done|done].
  change (block_size (Cache.fs_device c) = size). by rewrite Hs.
Qed.

Lemma wal_ready_view size w c s b :
  wal_ready size w → 0 ≤ s < size → ¬ WalProofs.log_area s →
  (∃ base hist, WalProofs.log_inv base hist (Wal.set_fs w c)) →
  block_size (Cache.fs_device c) = block_size (Wal.dev w) → Forall is_byte b →
  (∀ x, 0 ≤ x → ¬ WalProofs.log_area x → Cache.cview c x = if x =? s then b else Cache.cview (Wal.fs w) x) →
  stored (SectorModel0:=wal_model size) s b w (Wal.set_fs w c).
Proof.
  intros Hw Hs Hn Hl Hz Hb Hv. constructor; try done.
  - apply (wal_ready_fs size w c Hw Hl Hz). intros x Hx Hxn. rewrite Hv by (done || lia).
    destruct (x =? s); [done|by apply (wr_bytes _ _ Hw)].
  - intros x [Hx Hxn]. apply Hv; [lia|done].
Qed.

Lemma wal_ready_quiet size w c :
  wal_ready size w → (∃ base hist, WalProofs.log_inv base hist (Wal.set_fs w c)) →
  WalProofs.same_view w (Wal.set_fs w c) → quiet (SectorModel0:=wal_model size) w (Wal.set_fs w c).
Proof.
  intros Hw Hl [Hz Hv]. constructor; try done.
  - apply (wal_ready_fs size w c Hw Hl Hz). intros x Hx Hxn.
    change (Cache.cview c x) with (Cache.cview (Wal.fs (Wal.set_fs w c)) x).
    rewrite Hv by (done || lia). by apply (wr_bytes _ _ Hw).
  - intros x [Hx Hxn]. apply Hv; [lia|done].
Qed.

(** Logging keeps the store ready and uses up at most three sequence numbers. *)
Lemma w_log_write_run size w t s old new ofs n :
  wal_ready size w → 0 ≤ s < size → ¬ WalProofs.log_area s → 0 ≤ ofs → 0 < n → ofs + n ≤ 512 →
  n ≤ Z.of_nat (length old) → n ≤ Z.of_nat (length new) → Forall is_byte old → Forall is_byte new →
  Wal.current_txn w = Some t → 3 ≤ 2 ^ 64 - 1 - Wal.next_lsn (Wal.wal w) →
  ∃ w', w_log_write t s old new ofs n w = Ret w' ∧ logged (SectorModel0:=wal_model size) w w'.
Proof.
  intros Hw Hs Hn Ho Hn0 He Hlo Hln Hbo Hbn Ht Hr.
  destruct (wr_log _ _ Hw) as (base & hist & Hi). destruct (wr_txn _ _ Hw t Ht) as (x & Hx & Ha & Hid).
  pose proof (WalProofs.chunk_count_spec n ltac:(lia)) as Hc. pose proof (wr_max _ _ Hw).
  unfold w_log_write.
  destruct (WalProofs.wal_log_write_run base t s old new ofs n (Wal.t_id x)) with
    (t := x) (hist := hist) (w := w) as (w' & Hrun & Hi' & Hnx & (l & Htx) & Hf & Hcur & Hv); try done; try lia.
  rewrite Hrun, Ret_bind. exists w'. destruct Hv as [Hz Hv]. split; [done|].
  constructor; [constructor| | | |].
  - eauto.
  - rewrite Hz. apply Hw.
  - apply Hw.
  - intros y Hy Hyn. rewrite Hv by (done || lia). by apply (wr_bytes _ _ Hw).
  - intros h. rewrite Hcur, Ht. intros [= <-]. rewrite Htx, lookup_insert_eq. eauto.
  - intros y [Hy Hyn]. apply Hv; [lia|done].
  - done.
  - exact Hcur.
  - cbn. rewrite Hnx. lia.
Qed.

Lemma cache_read_log base hist w s :
  WalProofs.log_inv base hist w → 0 ≤ s < block_size (Wal.dev w) → ¬ WalProofs.log_area s →
  ∃ c, Cache.cache_read s (Wal.fs w) = Ret (Cache.cview (Wal.fs w) s, c) ∧
    WalProofs.log_inv base hist (Wal.set_fs w c) ∧ WalProofs.same_view w (Wal.set_fs w c).
Proof.
  intros Hi Hs Hl. destruct (Cache.cache_read_run (Wal.fs w) s (WalProofs.li_cache _ _ _ Hi) Hs)
    as (c & Hr & Hc & [Hsz Hv]). exists c. split_and!; [done| |split; [done|intros; by apply Hv]].
  apply WalProofs.log_inv_fs; try done; [|intros; by apply Hv].
  eapply WalProofs.no_log_within; [apply Hi|by eapply Cache.cache_read_within|]. by intros ? ->.
Qed.

(** The buffer cache and the log keep what the inode layer relies on. *)
#[global] Instance wal_sectors (size : Z) : SectorLaws Wal.wst (SectorModel0:=wal_model size).
Proof.
  split.
  - intros w s Hw [Hs Hn]. destruct (wr_log _ _ Hw) as (base & hist & Hi). pose proof (wr_size _ _ Hw).
    cbn [cache_read wal_store]. unfold w_cache_read.
    destruct (cache_read_log base hist w s Hi) as (c & -> & Hi' & Hv); [lia|done|]. rewrite Ret_bind.
    eexists. split; [done|]. apply wal_ready_quiet; eauto.
  - intros w s ofs n Hw [Hs Hn] Ho Hn0 He. destruct (wr_log _ _ Hw) as (base & hist & Hi).
    pose proof (wr_size _ _ Hw). cbn [cache_read_at wal_store]. unfold w_cache_read_at.
    destruct (WalTxn.cache_read_at_log base hist w s ofs n Hi) as (c & -> & Hi' & Hv); [lia|done..|].
    rewrite Ret_bind. eexists. split; [done|]. apply wal_ready_quiet; eauto.
  - intros w s b ofs n Hw [Hs Hn] Ho Hn0 He Hl Hb. destruct (wr_log _ _ Hw) as (base & hist & Hi).
    pose proof (wr_size _ _ Hw). cbn [cache_write wal_store]. unfold w_cache_write.
    destruct (WalTxn.cache_write_log base hist w s b ofs n Hi) as (c & -> & Hi' & [Hz Hv]); [lia|done..|].
    rewrite Ret_bind. eexists. split; [done|]. apply wal_ready_view; eauto.
    apply Forall_splice; [by apply (wr_bytes _ _ Hw)|by apply Forall_take].
  - intros w t s old new ofs n Hw [Hs Hn] Ho Hn0 He Hlo Hln Hbo Hbn Ht Hr. by apply w_log_write_run.
  - intros w s Hw [Hs Hn]. destruct (wr_log _ _ Hw) as (base & hist & Hi).
    apply Cache.cview_length; [apply Hi|]. pose proof (wr_size _ _ Hw). unfold Wal.dev in *. lia.
  - intros w s Hw [Hs Hn]. by apply (wr_bytes _ _ Hw).
Qed.

(** ** The whole volume *)

Record volume := mk_volume {
  v_wal : Wal.wst;
  v_map : FreeMap.fmst;
  v_map_inode : inode  (** the inode behind [free_map_file] *)
}.

(** [file_write_at (free_map_file, ...)]; the inode is marked [skip_wal], so no
    memory is allocated. *)
Definition map_write (buf : list Z) (size ofs : Z) (x : inode * Wal.wst)
    : outcome (Z * (inode * Wal.wst)) :=
  '(n, i, w) ← write_inode_at true (fst x) buf size ofs (snd x);
  Ret (n, (i, w)).

Definition v_alloc (v : volume) : outcome (option Z * volume) :=
  '(r, f, x) ← FreeMap.free_map_allocate_one map_write (v_map v) (v_map_inode v, v_wal v);
  Ret (r, mk_volume (snd x) f (fst x)).

Definition v_release (s : Z) (v : volume) : outcome volume :=
  '(f, x) ← FreeMap.free_map_release map_write s 1 (v_map v) (v_map_inode v, v_wal v);
  Ret (mk_volume (snd x) f (fst x)).

(** An operation on the sectors or the log. *)
Definition on_wal {A} (f : Wal.wst → outcome (A * Wal.wst)) (v : volume) : outcome (A * volume) :=
  '(a, w) ← f (v_wal v); Ret (a, mk_volume w (v_map v) (v_map_inode v)).

Definition on_wal' (f : Wal.wst → outcome Wal.wst) (v : volume) : outcome volume :=
  w ← f (v_wal v); Ret (mk_volume w (v_map v) (v_map_inode v)).

#[global] Instance volume_store : Store volume := {
  cache_read := λ s, on_wal (w_cache_read s);
  cache_read_at := λ s ofs n, on_wal (w_cache_read_at s ofs n);
  cache_write := λ s b ofs n, on_wal' (w_cache_write s b ofs n);
  free_map_allocate_one := v_alloc;
  free_map_release := v_release;
  wal_get_current_txn := λ v, Wal.wal_get_current_txn (v_wal v);
  wal_log_write := λ t s old new ofs n, on_wal' (w_log_write t s old new ofs n)
}.

(** ** What the volume promises the inode layer *)

(** A run that touched nothing but the cache. *)
Definition fs_only (w w' : Wal.wst) : Prop := w' = Wal.set_fs w (Wal.fs w').

Lemma fs_only_refl w : fs_only w w.
Proof. by destruct w. Qed.

Lemma fs_only_trans w1 w2 w3 : fs_only w1 w2 → fs_only w2 w3 → fs_only w1 w3.
Proof. unfold fs_only. intros H1 H2. rewrite H2, H1. done. Qed.

Lemma read_ptrs_fs s w l w' : read_ptrs s w = Ret (l, w') → fs_only w w'.
Proof. unfold read_ptrs. cbn [cache_read wal_store]. unfold w_cache_read. intros H. outcome_inv. done. Qed.

Lemma byte_to_sector_fs d pos w s w' : byte_to_sector d pos w = Ret (s, w') → fs_only w w'.
Proof.
  unfold byte_to_sector. cbn zeta. intros H.
  repeat (case_match; outcome_inv; try apply fs_only_refl);
    repeat match goal with H : read_ptrs _ _ = _ |- _ => apply read_ptrs_fs in H end;
    eauto using fs_only_trans.
Qed.

Lemma write_loop_fs fuel d b size ofs wr w n w' :
  write_loop fuel None d b size ofs wr w = Ret (n, w') → fs_only w w'.
Proof.
  revert size ofs wr w. induction fuel as [|fuel IH]; intros size ofs wr w; cbn [write_loop];
    destruct (0 <? size); intros H; outcome_inv; try apply fs_only_refl.
  match goal with H : byte_to_sector _ _ _ = _ |- _ => apply byte_to_sector_fs in H; rename H into Hb end.
  case_match; outcome_inv; [done|]. eapply fs_only_trans; [exact Hb|].
  unfold w_cache_write in *. outcome_inv. eapply fs_only_trans; [|by eapply IH]. done.
Qed.

Section promise.
Context (size : Z) (F : list Z).

Local Abbreviation wview w := (Cache.cview (Wal.fs w)).
Local Abbreviation map_blocks d := (bytes_to_sectors (length_ d)).

(** A file whose blocks and index blocks are all in [F]. *)
Definition lives_in (v : Z → list Z) (d : inode_disk) : Prop :=
  ∀ k, 0 ≤ k < map_blocks d → bmap v d k ∈ F ∧ ∀ x, x ∈ index_of v d k → x ∈ F.

(** The volume is in order: the store below it is, the bitmap covers the device,
    and its file is open, as long as the bitmap and kept in the sectors [F],
    which are in use. *)
Record vol_ready (v : volume) : Prop := {
  vr_wal : wal_ready size (v_wal v);
  vr_map : FreeMap.fm_inv (v_map v);
  vr_cnt : Bitmap.bit_cnt (FreeMap.free_map (v_map v)) = size;
  vr_open : FreeMap.free_map_file (v_map v) = true;
  vr_file : file_ok (SectorModel0:=wal_model size) (wview (v_wal v)) (data (v_map_inode v));
  vr_deny : deny_write_cnt (v_map_inode v) = 0;
  vr_skip : skip_wal (v_map_inode v) = true;
  vr_len : length_ (data (v_map_inode v)) = Bitmap.byte_cnt size;
  vr_blocks : lives_in (wview (v_wal v)) (data (v_map_inode v));
  vr_taken : ∀ s, s ∈ F → 0 ≤ s ∧ FreeMap.in_use (v_map v) s
}.

#[global] Instance volume_model : SectorModel volume := {
  s_inv := vol_ready;
  s_view := λ v, wview (v_wal v);
  s_free := λ v s, (0 <=? s) && (s <? size) && negb (Bitmap.bm_bit (FreeMap.free_map (v_map v)) s);
  s_usable := λ s, (0 ≤ s < size ∧ ¬ WalProofs.log_area s) ∧ s ∉ F;
  s_room := λ v, 2 ^ 64 - 1 - Wal.next_lsn (Wal.wal (v_wal v))
}.

(** The map of a file is kept when its sectors are. *)
Lemma map_file_same v v' d :
  file_ok (SectorModel0:=wal_model size) v d → lives_in v d →
  (∀ x, x ∈ F → 0 ≤ x < size → ¬ WalProofs.log_area x → v' x = v x) →
  file_ok (SectorModel0:=wal_model size) v' d ∧ lives_in v' d.
Proof.
  intros [Hl Hm] HF Hv.
  assert (∀ k x, 0 ≤ k < map_blocks d → x ∈ index_of v d k → v' x = v x) as Hidx.
  { intros k x Hk Hx. destruct (m_index _ _ _ Hm k x Hk Hx). apply Hv; [|done|done].
    by apply (proj2 (HF k Hk)). }
  split; [constructor; [done|by eapply mapped_local]|].
  intros k Hk. destruct (bmap_local (SectorLaws0:=wal_sectors size) v v' d k) as [-> ->]; [by intros; eapply Hidx|]. by apply HF.
Qed.

(** The volume over another state of the store below. *)
Lemma vol_same v w' :
  vol_ready v → wal_ready size w' →
  (∀ x, x ∈ F → 0 ≤ x < size → ¬ WalProofs.log_area x → wview w' x = wview (v_wal v) x) →
  vol_ready (mk_volume w' (v_map v) (v_map_inode v)).
Proof.
  intros [] Hw Hv. destruct (map_file_same _ (wview w') _ vr_file0 vr_blocks0 Hv). by constructor.
Qed.

Lemma vol_quiet v w' :
  vol_ready v → quiet (SectorModel0:=wal_model size) (v_wal v) w' →
  quiet v (mk_volume w' (v_map v) (v_map_inode v)).
Proof.
  intros Hv [Hi Hvw Hf Ht Hr]. constructor; [|by intros x [Hx _]; apply Hvw|done|exact Ht|exact Hr].
  apply vol_same; [done|exact Hi|]. intros x _ Hx Hn. by apply Hvw.
Qed.

#[global] Instance volume_sectors : SectorLaws volume.
Proof.
  split.
  - intros v s Hv [Hs _]. cbn [cache_read volume_store]. unfold on_wal.
    destruct (law_read (SectorModel0:=wal_model size) (v_wal v) s (vr_wal _ Hv) Hs) as (w' & Hr & Hq).
    change (w_cache_read s (v_wal v) = Ret (wview (v_wal v) s, w')) in Hr. rewrite Hr, Ret_bind.
    eexists. split; [reflexivity|]. by apply vol_quiet.
  - intros v s ofs n Hv [Hs _] Ho Hn He. cbn [cache_read_at volume_store]. unfold on_wal.
    destruct (law_read_at (SectorModel0:=wal_model size) (v_wal v) s ofs n (vr_wal _ Hv) Hs Ho Hn He)
      as (w' & Hr & Hq).
    cbn [cache_read_at wal_store s_view wal_model] in Hr. rewrite Hr, Ret_bind.
    eexists. split; [reflexivity|]. by apply vol_quiet.
  - intros v s b ofs n Hv [Hs HF] Ho Hn He Hl Hb. cbn [cache_write volume_store]. unfold on_wal'.
    destruct (law_write (SectorModel0:=wal_model size) (v_wal v) s b ofs n (vr_wal _ Hv) Hs Ho Hn He Hl Hb)
      as (w' & Hr & [Hi Hvw Hf Ht Hrm]).
    cbn [cache_write wal_store s_view wal_model] in Hr. rewrite Hr, Ret_bind.
    eexists. split; [reflexivity|]. constructor; [|by intros x [Hx _]; apply Hvw|done|exact Ht|exact Hrm].
    apply vol_same; [done|exact Hi|]. intros x Hx Hx1 Hx2.
    change (s_view (SectorModel:=wal_model size) w' x = s_view (SectorModel:=wal_model size) (v_wal v) x).
    rewrite Hvw by done. rewrite (proj2 (Z.eqb_neq x s)); [done|]. by intros ->.
  - intros v t s old new ofs n Hv [Hs HF] Ho Hn He Hlo Hln Hbo Hbn Ht Hr.
    cbn [wal_log_write volume_store]. unfold on_wal'.
    change (wal_get_current_txn (v_wal v) = Some t) in Ht.
    change (3 ≤ s_room (SectorModel:=wal_model size) (v_wal v)) in Hr.
    destruct (law_log (SectorModel0:=wal_model size) (v_wal v) t s old new ofs n (vr_wal _ Hv) Hs Ho Hn He
      Hlo Hln Hbo Hbn Ht Hr) as (w' & Hrun & [Hi Hvw Hf Htx Hrm]).
    cbn [wal_log_write wal_store] in Hrun. rewrite Hrun, Ret_bind.
    eexists. split; [reflexivity|]. constructor; [|by intros x [Hx _]; apply Hvw|done|exact Htx|exact Hrm].
    apply vol_same; [done|exact Hi|]. intros x _ Hx Hxn. by apply Hvw.
  - intros v s Hv [Hs _].
    by apply (law_length (SectorModel0:=wal_model size) (v_wal v) s (vr_wal _ Hv)).
  - intros v s Hv [Hs _].
    by apply (law_bytes (SectorModel0:=wal_model size) (v_wal v) s (vr_wal _ Hv)).
Qed.
(** The states the free map's file goes through while it is written. *)
Definition map_state (v : volume) (x : inode * Wal.wst) : Prop :=
  fst x = v_map_inode v ∧ wal_ready size (snd x) ∧ fs_only (v_wal v) (snd x) ∧
  file_ok (SectorModel0:=wal_model size) (wview (snd x)) (data (v_map_inode v)) ∧
  lives_in (wview (snd x)) (data (v_map_inode v)) ∧
  ∀ y, 0 ≤ y < size → ¬ WalProofs.log_area y → y ∉ F → wview (snd x) y = wview (v_wal v) y.

(** The bitmap is written in full, and only to the sectors [F]. *)
Lemma map_write_run v b x :
  vol_ready v → Bitmap.wf b → Bitmap.bit_cnt b = size → map_state v x →
  ∃ ok x', Bitmap.bitmap_write map_write b x = Ret (ok, x') ∧ ok = true ∧ map_state v x'.
Proof.
  intros Hv Hwf Hc (Hi & Hw & Hfs & Hf & HF & Hview). destruct x as [i w]. cbn [fst snd] in *. subst i.
  pose proof Hv as [_ _ _ _ _ Hd Hsk Hl _ _]. set (i := v_map_inode v) in *.
  set (buf := Bitmap.words_to_bytes (Bitmap.bits b)).
  assert (Bitmap.byte_cnt size = Z.of_nat (length buf)) as Hlen
    by (rewrite <- Hc; by apply Bitmap.byte_cnt_words).
  assert (Forall is_byte buf) as Hbytes.
  { unfold buf, Bitmap.words_to_bytes. clear. induction (Bitmap.bits b) as [|z l IH]; [by apply Forall_nil_2|].
    rewrite fmap_cons. apply Forall_app_2; [apply le_bytes_ok|exact IH]. }
  destruct (write_inode_at_run (SectorModel0:=wal_model size) i buf (Bitmap.byte_cnt size) 0 w)
    as (w' & Hr & Hwt); try done; [lia|lia|congruence|].
  assert (fs_only w w') as Hfs'.
  { revert Hr. unfold write_inode_at. rewrite Hd. cbn [negb Z.eqb].
    rewrite (proj2 (Z.ltb_ge (length_ (data i)) _)) by (rewrite Hl; lia). rewrite Ret_bind.
    cbn [set_data skip_wal]. rewrite Hsk. cbn [negb]. rewrite andb_false_r. intros Hr. outcome_inv.
    by eapply write_loop_fs. }
  assert (∀ y, 0 ≤ y < size → ¬ WalProofs.log_area y → y ∉ F → wview w' y = wview w y) as Hout.
  { intros y Hy Hn HyF. apply (wt_frame _ _ _ _ _ _ _ Hwt); [done|]. intros k Hk ->.
    by apply HyF, HF. }
  exists true, (i, w'). split; [|split; [done|]].
  - unfold Bitmap.bitmap_write, map_write. rewrite Hc. cbn [fst snd]. fold buf. rewrite Hr, !Ret_bind.
    by rewrite Z.eqb_refl.
  - unfold map_state. cbn [fst snd]. split; [done|]. split; [apply Hwt|].
    split; [by eapply fs_only_trans|]. split; [constructor; [apply Hf|apply Hwt]|].
    split; [|intros y Hy Hn HyF; by rewrite Hout, Hview].
    fold i. fold i in HF. intros k Hk. rewrite (wt_bmap _ _ _ _ _ _ _ Hwt) by done. split; [by apply HF|].
    destruct (bmap_local (SectorLaws0:=wal_sectors size) (wview w) (wview w') (data i) k) as [_ ->];
      [|by apply HF].
    intros x Hx. apply (wt_frame _ _ _ _ _ _ _ Hwt); [by apply (m_index _ _ _ (f_map _ _ Hf) k)|].
    intros k' Hk' ->. by apply (m_disj _ _ _ (f_map _ _ Hf) k' k).
Qed.

#[global] Instance volume_alloc : AllocLaws volume.
Proof.
  split. intros v Hv. pose proof Hv as [Hw Hm Hc Hop Hf Hd Hsk Hl HF Ht].
  change (free_map_allocate_one v) with (v_alloc v). unfold v_alloc, FreeMap.free_map_allocate_one.
  destruct (FreeMap.allocate_rel map_write size (map_state v) (λ ok, ok = true)) with
    (cnt := 1) (f := v_map v) (s := (v_map_inode v, v_wal v))
    as (r & f' & x & Hr & (Hi & Hw' & Hfs & Hf' & HF' & Hview) & Hm' & Hc' & Hop' & Hres); try done.
  { intros b s Hwf Hb HI. by apply map_write_run. }
  { split_and!; try done; apply fs_only_refl. }
  rewrite Hr, Ret_bind. cbn beta iota. exists r, (mk_volume (snd x) f' (fst x)). split; [done|].
  assert (∀ y, 0 ≤ y → FreeMap.in_use (v_map v) y → FreeMap.in_use f' y) as Huse.
  { intros y Hy0 Hy. unfold FreeMap.in_use. destruct r as [s|].
    - destruct Hres as [(_ & _ & _ & Hset) _]. rewrite Hset by done. by destruct (_ && _).
    - destruct Hres as [Hun _]. by rewrite Hun. }
  split; [|split; [by intros y [[Hy Hn] HyF]; apply Hview|]].
  { constructor; cbn [v_wal v_map v_map_inode]; rewrite ?Hi; try done; [congruence|congruence|].
    intros s Hs. destruct (Ht s Hs) as [H0 Hu]. split; [done|]. by apply Huse. }
  split; [by rewrite Hfs|]. split; [by rewrite Hfs|]. destruct r as [s|].
  - destruct Hres as [(Hs67 & Hle & Hrun & Hset) _]. rewrite Hc in Hle.
    pose proof (Hrun s ltac:(lia)) as Hfree.
    assert (66 < s) as H66 by exact Hs67.
    cbn [s_usable volume_model]. split_and!.
    + lia.
    + lia.
    + unfold WalProofs.log_area, Wal.WAL_METADATA_SECTOR, Wal.WAL_LOG_START_SECTOR, Wal.WAL_LOG_SECTORS. lia.
    + intros HsF. destruct (Ht s HsF) as [_ Hu]. unfold FreeMap.in_use in Hu. congruence.
    + cbn [s_free volume_model]. rewrite Hfree, (proj2 (Z.leb_le 0 s)), (proj2 (Z.ltb_lt s size)) by lia. done.
    + intros y. cbn [s_free volume_model v_map]. destruct (Z.leb_spec 0 y) as [Hy|Hy]; cbn [andb].
      2: { by rewrite bool_decide_eq_false_2 by lia. }
      rewrite Hset by done. case_bool_decide as Hys.
      * subst y. rewrite (proj2 (Z.leb_le s s)), (proj2 (Z.ltb_lt s (s + 1))) by lia.
        cbn [andb negb]. apply andb_false_r.
      * destruct (Z.leb_spec s y), (Z.ltb_spec y (s + 1)); cbn [andb]; done || lia.
  - destruct Hres as [Hun [[_ Hff]|Hno]]; [done|]. rewrite Hc in Hno.
    assert (∀ y, s_free v y = false) as Hv0.
    { intros y. cbn [s_free volume_model]. destruct (Z.leb_spec 0 y) as [Hy|]; [|done].
      destruct (Z.ltb_spec y size) as [Hy'|]; [|done]. cbn [andb]. apply negb_false_iff.
      destruct (Bitmap.bm_bit _ y) eqn:Hb; [done|]. destruct (Hno y Hy ltac:(lia)).
      intros j Hj. by replace j with y by lia. }
    intros y. split; [done|]. rewrite <- (Hv0 y). cbn [s_free volume_model v_map].
    destruct (Z.leb_spec 0 y); [|done]. by rewrite Hun.
Qed.
End promise.

(** ** Formatting *)

(** [free_map_init], [inode_init] and [free_map_create] on a device of the given
    sectors: the free map gets its inode in sector 0 and writes itself there. *)
Definition empty_inode : inode :=
  mk_inode 0 0 false false 0 (mk_disk (replicate 12 0) 0 0 0 0 0 0 (replicate 110 0)).

Definition boot (sectors : list (list Z)) : Wal.wst :=
  Wal.set_dev WalTxn.demo (mk_block BLOCK_FILESYS sectors 0 0).

Definition mkfs (sectors : list (list Z)) : outcome volume :=
  let size := Z.of_nat (length sectors) in
  f ← FreeMap.free_map_init (Some (replicate (Z.to_nat (Bitmap.elem_cnt size)) 0)) size;
  let v := mk_volume (boot sectors) f empty_inode in
  '(ok, v) ← inode_create true FreeMap.FREE_MAP_SECTOR (Bitmap.bitmap_file_size (FreeMap.free_map f)) v;
  if negb ok then Panic
  else
    '(b, w) ← w_cache_read FreeMap.FREE_MAP_SECTOR (v_wal v);
    let i := mk_inode FreeMap.FREE_MAP_SECTOR 1 false true 0 (disk_decode b) in
    '(f, x) ← FreeMap.free_map_create map_write (v_map v) (i, w);
    Ret (mk_volume (snd x) f (fst x)).

(** A device whose last sector still holds the data of a deleted file: the word 1. *)
Definition used_device : list (list Z) :=
  replicate 81 (replicate 512 0) ++ [1 :: replicate 511 0].

(** Creating a file of 13 blocks when 13 sectors are left: 12 for the data and
    one for the indirect block, none for the last data block. *)
Definition full_create : outcome (bool * volume) :=
  v ← mkfs used_device;
  '(s, v) ← v_alloc v;
  match s with
  | None => Panic
  | Some s => inode_create true s (13 * 512) v
  end.

(** When [inode_create_internal] runs out of space after it allocated the
    indirect block, it calls [inode_deallocate] before the indirect block was
    written: the stale contents of that sector are taken for block pointers and
    the sectors they name are freed.  Here a failed creation frees sector 1, the
    root directory. *)
Theorem inode_create_failure_frees_root :
  ((λ x, (fst x, Bitmap.bm_bit (FreeMap.free_map (v_map (snd x))) FreeMap.ROOT_DIR_SECTOR))
     <$> full_create = Ret (false, false)) ∧
  ((λ v, Bitmap.bm_bit (FreeMap.free_map (v_map v)) FreeMap.ROOT_DIR_SECTOR)
     <$> mkfs used_device = Ret true).
Proof. split; vm_compute; reflexivity. Qed.

(** ** A file on a concrete machine *)

Definition demo_disk : inode_disk :=
  mk_disk ([67; 68] ++ replicate 10 0) 0 0 700 INODE_TYPE_FILE 1 INODE_MAGIC (replicate 110 0).

Definition demo_table : ist (St:=Wal.wst) :=
  mk_ist WalTxn.demo {[ 0%nat := mk_inode 69 1 false false 0 demo_disk ]} [0%nat] 1.

Lemma volume_demo_inv : wal_ready 70 WalTxn.demo.
Proof.
  constructor; [by exists 1, []; apply WalTxn.demo_log|done|lia|apply WalTxn.demo_bytes|done].
Qed.

Lemma demo_file : file_ok (SectorModel0:=wal_model 70) (s_view (SectorModel:=wal_model 70) (store demo_table)) demo_disk.
Proof.
  split; [cbn; lia|]. change (bytes_to_sectors (length_ demo_disk)) with 2.
  assert (∀ v k, 0 ≤ k < 2 → bmap v demo_disk k = 67 + k ∧ index_of v demo_disk k = []) as H.
  { intros v k Hk. unfold bmap, index_of. rewrite (proj2 (Z.ltb_lt k 12)) by lia.
    assert (k = 0 ∨ k = 1) as [-> | ->] by lia; done. }
  constructor.
  - reflexivity.
  - unfold MAX_BLOCKS. lia.
  - intros k Hk. rewrite (proj1 (H _ k Hk)). cbn. unfold WalProofs.log_area, Wal.WAL_METADATA_SECTOR,
      Wal.WAL_LOG_START_SECTOR, Wal.WAL_LOG_SECTORS. lia.
  - intros k x Hk. rewrite (proj2 (H _ k Hk)). by intros ?%elem_of_nil.
  - intros k1 k2 H1 H2. rewrite (proj1 (H _ k1 H1)), (proj1 (H _ k2 H2)). lia.
  - intros k1 k2 H1 H2. rewrite (proj2 (H _ k2 H2)). apply not_elem_of_nil.
Qed.

Lemma inode_read_bytes_witness :
  ∃ b w', inode_read_at 0 1000 600 demo_table = Ret (b, w') ∧ length b = 100%nat.
Proof.
  destruct (inode_read_bytes (SectorModel0:=wal_model 70) demo_table 0 (mk_inode 69 1 false false 0 demo_disk) 1000 600 volume_demo_inv eq_refl
    demo_file) as (b & w' & Hr & _ & _ & Hl & _); [lia|lia|].
  exists b, w'. split; [exact Hr|]. cbn [data demo_disk length_] in Hl. lia.
Defined.

Lemma inode_write_read_witness :
  ∃ w1 w2, inode_write_at true 0 (replicate 300 9) 300 400 demo_table = Ret (300, w1) ∧
    inode_read_at 0 300 400 w1 = Ret (replicate 300 9, w2).
Proof.
  destruct (inode_write_read (SectorModel0:=wal_model 70) demo_table 0 (mk_inode 69 1 false false 0 demo_disk) (replicate 300 9) 300 400
    volume_demo_inv eq_refl demo_file) as [_ H];
    [lia|by rewrite length_replicate|by apply Forall_replicate|cbn; lia|cbn; lia|].
  destruct (H eq_refl) as (w1 & w2 & H1 & H2 & _). by exists w1, w2.
Defined.

Lemma demo_table_ok : table_ok demo_table.
Proof.
  constructor; cbn.
  - apply NoDup_singleton.
  - intros p. rewrite list_elem_of_singleton. split.
    + intros ->. rewrite lookup_singleton_eq. eauto.
    + intros [i [<- _]%lookup_singleton_Some]. done.
  - intros p i [_ <-]%lookup_singleton_Some. done.
  - intros p q i j [<- _]%lookup_singleton_Some [<- _]%lookup_singleton_Some _. done.
  - intros p [i [<- _]%lookup_singleton_Some]. lia.
Qed.

Lemma inode_open_close_witness :
  ∃ p w1 w3, inode_open true 68 demo_table = Ret (Some p, w1) ∧ inode_close (Some p) w1 = Ret w3 ∧
    open_inodes w3 = open_inodes demo_table.
Proof.
  destruct (inode_open_close (SectorModel0:=wal_model 70) demo_table 68 demo_table_ok volume_demo_inv)
    as (p & w1 & Ho & _ & _ & _ & w3 & Hc & _ & Hl & _).
  { cbn. unfold WalProofs.log_area, Wal.WAL_METADATA_SECTOR, Wal.WAL_LOG_START_SECTOR, Wal.WAL_LOG_SECTORS. lia. }
  by exists p, w1, w3.
Defined.
End Volume.
