(* ===== verification/File.v ===== *)
(** * Open files ([filesys/file.c])

    The state above the inode layer and the monad its code runs in.  [struct
    file] and [struct dir] objects live in heaps; a pointer is an address, and an
    [option] where the code accepts a null pointer.  Memory allocation is an
    oracle: [mallocs] lists the results of the coming calls, and every further
    call succeeds.  The locks of [struct file] have no effect on one thread. *)

From stdpp Require Import base tactics numbers list list_numbers option gmap.
From S2P Require Import Prelude Inode.

Open Scope Z_scope.

(** ** State *)

Record file := mk_file {
  f_inode : nat;
  f_pos : Z;
  f_deny_write : bool;
  f_ref_count : Z
}.

Record dir := mk_dir {
  d_inode : nat;
  d_pos : Z
}.

Record kst {St : Type} := mk_kst {
  inodes : Inode.ist (St:=St);
  files : gmap nat file;
  dirs : gmap nat dir;
  next_obj : nat;
  mallocs : list bool;
  cwd : option nat  (** [thread_current ()->cwd] *)
}.
Arguments kst : clear implicits.

(** ** The monad *)

Definition K (St A : Type) : Type := kst St → outcome (A * kst St).

#[global] Instance K_ret {St} : MRet (K St) := λ A a k, Ret (a, k).
#[global] Instance K_bind {St} : MBind (K St) := λ A B f m k, '(a, k) ← m k; f a k.

Section monad.
Context {St : Type}.

Definition pureK {A} (m : outcome A) : K St A := λ k, a ← m; Ret (a, k).
Definition getK : K St (kst St) := λ k, Ret (k, k).

Definition with_inodes (k : kst St) (w : Inode.ist) : kst St :=
  mk_kst _ w (files k) (dirs k) (next_obj k) (mallocs k) (cwd k).
Definition with_files (k : kst St) (f : gmap nat file) : kst St :=
  mk_kst _ (inodes k) f (dirs k) (next_obj k) (mallocs k) (cwd k).
Definition with_dirs (k : kst St) (d : gmap nat dir) : kst St :=
  mk_kst _ (inodes k) (files k) d (next_obj k) (mallocs k) (cwd k).
Definition with_mallocs (k : kst St) (l : list bool) : kst St :=
  mk_kst _ (inodes k) (files k) (dirs k) (next_obj k) l (cwd k).
Definition with_cwd (k : kst St) (c : option nat) : kst St :=
  mk_kst _ (inodes k) (files k) (dirs k) (next_obj k) (mallocs k) c.
Definition bump (k : kst St) : kst St :=
  mk_kst _ (inodes k) (files k) (dirs k) (S (next_obj k)) (mallocs k) (cwd k).

(** Operations of the inode layer. *)
Definition inodesK {A} (f : Inode.ist → outcome (A * Inode.ist)) : K St A := λ k,
  '(a, w) ← f (inodes k); Ret (a, with_inodes k w).
Definition inodesK' (f : Inode.ist → outcome Inode.ist) : K St unit := λ k,
  w ← f (inodes k); Ret (tt, with_inodes k w).
Definition askK {A} (f : Inode.ist → outcome A) : K St A := λ k,
  a ← f (inodes k); Ret (a, k).
(** Operations of the store below it. *)
Definition storeK {A} (f : St → outcome (A * St)) : K St A := λ k,
  '(a, st) ← f (Inode.store (inodes k)); Ret (a, with_inodes k (Inode.with_store (inodes k) st)).
Definition storeK' (f : St → outcome St) : K St unit := λ k,
  st ← f (Inode.store (inodes k)); Ret (tt, with_inodes k (Inode.with_store (inodes k) st)).

(** Whether the next allocation succeeds. *)
Definition malloc : K St bool := λ k,
  match mallocs k with
  | [] => Ret (true, k)
  | b :: l => Ret (b, with_mallocs k l)
  end.

Lemma K_run {A B} (m : K St A) (f : A → K St B) k a k' :
  m k = Ret (a, k') → (m ≫= f) k = f a k'.
Proof. intros H. unfold mbind, K_bind. by rewrite H. Qed.

Lemma K_inv {A B} (m : K St A) (f : A → K St B) k b k' :
  (m ≫= f) k = Ret (b, k') → ∃ a k1, m k = Ret (a, k1) ∧ f a k1 = Ret (b, k').
Proof. intros H. apply bind_Ret in H as ([a k1] & H1 & H2). eauto. Qed.
End monad.

Module File.
Section file.
Context {St : Type} `{!Store St}.

(** [*file], undefined once it was freed. *)
Definition get_file (p : nat) : K St file := λ k,
  match files k !! p with Some f => Ret (f, k) | None => UB end.
Definition put_file (p : nat) (f : file) : K St unit := λ k,
  Ret (tt, with_files k (<[p := f]> (files k))).
Definition free_file (p : nat) : K St unit := λ k,
  Ret (tt, with_files k (delete p (files k))).
Definition new_file (f : file) : K St nat := λ k,
  Ret (next_obj k, bump (with_files k (<[next_obj k := f]> (files k)))).

(** The two allocations below the inode calls use the same oracle. *)
Definition inode_open (sec : Z) : K St (option nat) :=
  ok ← malloc; inodesK (Inode.inode_open ok sec).
Definition inode_write_at (p : nat) (buffer : list Z) (size ofs : Z) : K St Z :=
  ok ← malloc; inodesK (Inode.inode_write_at ok p buffer size ofs).

Definition file_open (i : option nat) : K St (option nat) :=
  ok ← malloc;
  match i with
  | Some q =>
      if ok : bool then p ← new_file (mk_file q 0 false 1); mret (Some p)
      else inodesK' (Inode.inode_close i);; mret None
  | None => inodesK' (Inode.inode_close i);; mret None
  end.

Definition file_reopen (p : option nat) : K St (option nat) :=
  match p with
  | None => mret None
  | Some p => f ← get_file p; i ← inodesK (Inode.inode_reopen (Some (f_inode f))); file_open i
  end.

Definition file_dup (p : option nat) : K St (option nat) :=
  match p with
  | None => mret None
  | Some q =>
      f ← get_file q;
      put_file q (mk_file (f_inode f) (f_pos f) (f_deny_write f) (f_ref_count f + 1));; mret p
  end.

Definition file_deny_write (p : nat) : K St unit :=
  f ← get_file p;
  if negb (f_deny_write f) then
    put_file p (mk_file (f_inode f) (f_pos f) true (f_ref_count f));;
    inodesK' (Inode.inode_deny_write (f_inode f))
  else mret tt.

Definition file_allow_write (p : nat) : K St unit :=
  f ← get_file p;
  if f_deny_write f then
    put_file p (mk_file (f_inode f) (f_pos f) false (f_ref_count f));;
    inodesK' (Inode.inode_allow_write (f_inode f))
  else mret tt.

Definition file_close (p : option nat) : K St unit :=
  match p with
  | None => mret tt
  | Some p =>
      f ← get_file p;
      let f := mk_file (f_inode f) (f_pos f) (f_deny_write f) (f_ref_count f - 1) in
      put_file p f;;
      if f_ref_count f =? 0 then
        file_allow_write p;;
        inodesK' (Inode.inode_close (Some (f_inode f)));;
        free_file p
      else mret tt
  end.

Definition file_get_inode (p : nat) : K St nat := f ← get_file p; mret (f_inode f).

(** The bytes read; the C function returns their number. *)
Definition file_read (p : nat) (size : Z) : K St (list Z) :=
  f ← get_file p;
  b ← inodesK (Inode.inode_read_at (f_inode f) size (f_pos f));
  put_file p (mk_file (f_inode f) (f_pos f + Z.of_nat (length b)) (f_deny_write f) (f_ref_count f));;
  mret b.

Definition file_read_at (p : nat) (size ofs : Z) : K St (list Z) :=
  f ← get_file p; inodesK (Inode.inode_read_at (f_inode f) size ofs).

Definition file_write (p : nat) (buffer : list Z) (size : Z) : K St Z :=
  f ← get_file p;
  n ← inode_write_at (f_inode f) buffer size (f_pos f);
  put_file p (mk_file (f_inode f) (f_pos f + n) (f_deny_write f) (f_ref_count f));;
  mret n.

Definition file_write_at (p : nat) (buffer : list Z) (size ofs : Z) : K St Z :=
  f ← get_file p; inode_write_at (f_inode f) buffer size ofs.

Definition file_length (p : nat) : K St Z := f ← get_file p; askK (Inode.inode_length (f_inode f)).

Definition file_seek (p : nat) (new_pos : Z) : K St unit :=
  pureK (ASSERT (0 <=? new_pos));;
  f ← get_file p; put_file p (mk_file (f_inode f) new_pos (f_deny_write f) (f_ref_count f)).

Definition file_tell (p : nat) : K St Z := f ← get_file p; mret (f_pos f).
End file.
End File.
