(* ===== verification/FileProofs.v ===== *)
(** * Open files: sharing, write denial and the position

    The theorems about [file.c], and how the layers above the inodes see a file
    held by an inode. *)

From stdpp Require Import base tactics numbers list list_numbers option gmap.
From S2P Require Import Prelude Block Inode InodeProofs File.

Open Scope Z_scope.

Module FileProofs.
Import Inode InodeProofs.

Section proofs.
Context {St : Type} `{!Store St} `{!SectorModel St} `{!SectorLaws St}.

(** Only the store moved on, and nothing in it that can be seen. *)
Record kquiet (k k' : kst St) : Prop := {
  kq_store : quiet (store (inodes k)) (store (inodes k'));
  kq_eq : k' = with_inodes k (with_store (inodes k) (store (inodes k')))
}.

Lemma kquiet_intro k st' :
  quiet (store (inodes k)) st' → kquiet k (with_inodes k (with_store (inodes k) st')).
Proof. by constructor. Qed.

Lemma kquiet_trans k1 k2 k3 : kquiet k1 k2 → kquiet k2 k3 → kquiet k1 k3.
Proof.
  intros [Hq1 He1] [Hq2 He2]. constructor; [by eapply quiet_trans|]. rewrite He2, He1. done.
Qed.

Lemma kquiet_refl k : s_inv (store (inodes k)) → kquiet k k.
Proof. intros Hi. constructor; [by apply quiet_refl|]. by destruct k as [[] ? ? ? ? ?]. Qed.

Lemma kquiet_same k k' : kquiet k k' →
  dirs k' = dirs k ∧ mallocs k' = mallocs k ∧ heap (inodes k') = heap (inodes k).
Proof. intros [_ He]. rewrite He. done. Qed.

(** An inode of the heap that holds a well-formed file. *)
Record inode_file (k : kst St) (q : nat) (i : inode) : Prop := {
  if_inv : s_inv (store (inodes k));
  if_heap : heap (inodes k) !! q = Some i;
  if_file : file_ok (s_view (store (inodes k))) (data i)
}.

Lemma inode_file_quiet k k' q i : inode_file k q i → kquiet k k' → inode_file k' q i.
Proof.
  intros [Hi Hh Hf] [Hq He]. constructor; [apply Hq|by rewrite He|].
  destruct Hf. constructor; [done|]. by eapply quiet_mapped.
Qed.

Lemma inode_write_K k q i b ofs :
  inode_file k q i → deny_write_cnt i = 0 → mallocs k = [] → 0 ≤ ofs → Forall is_byte b →
  ofs + Z.of_nat (length b) ≤ length_ (data i) → 3 * Z.of_nat (length b) ≤ s_room (store (inodes k)) →
  ∃ st', File.inode_write_at q b (Z.of_nat (length b)) ofs k =
      Ret (Z.of_nat (length b), with_inodes k (with_store (inodes k) st')) ∧
    written_to (data i) b (Z.of_nat (length b)) ofs 0 (store (inodes k)) st'.
Proof.
  intros [Hi Hh Hf] Hd Hm Ho Hb He Hr. unfold File.inode_write_at.
  erewrite K_run by (unfold malloc; by rewrite Hm). unfold inodesK, inode_write_at, get_inode. rewrite Hh, Ret_bind.
  destruct (write_inode_at_run i b (Z.of_nat (length b)) ofs (store (inodes k))) as (st' & -> & Hw); try done; [lia|].
  rewrite !Ret_bind. exists st'. split; [|done]. do 3 f_equal. unfold put_inode, with_store. cbn.
  by rewrite insert_id.
Qed.

(** A write past the end of the file, see [write_inode_at_append]. *)
Lemma inode_append_K `{!AllocLaws St} k q i b ofs :
  inode_file k q i → owned (store (inodes k)) (sector i) (data i) → deny_write_cnt i = 0 →
  mallocs k = [] → 0 ≤ ofs → Forall is_byte b → let size := Z.of_nat (length b) in
  length_ (data i) < ofs + size → ofs + size + 511 < 2 ^ 31 →
  (needs_block (length_ (data i)) (ofs + size) = true →
     bytes_to_sectors (ofs + size) = bytes_to_sectors (length_ (data i)) + 1 ∧
     bytes_to_sectors (length_ (data i)) < 12) →
  3 * size ≤ s_room (store (inodes k)) →
  ∃ n d' st', File.inode_write_at q b size ofs k =
      Ret (n, with_inodes k (put_inode (with_store (inodes k) st') q (set_data i d'))) ∧
    ((n = 0 ∧ d' = data i ∧ quiet (store (inodes k)) st' ∧
      needs_block (length_ (data i)) (ofs + size) = true ∧ ∀ x, s_free (store (inodes k)) x = false) ∨
     (n = size ∧ ∃ new st1, grown (data i) d' (sector i) (ofs + size) new (store (inodes k)) st1 ∧
      (is_Some new ↔ needs_block (length_ (data i)) (ofs + size) = true) ∧
      written_to d' b size ofs 0 st1 st')).
Proof.
  intros [Hi Hh Hf] Ho Hd Hm Ho0 Hb size Hlt H31 Hnb Hr. unfold File.inode_write_at.
  erewrite K_run by (unfold malloc; by rewrite Hm). unfold inodesK, inode_write_at, get_inode.
  rewrite Hh, Ret_bind.
  destruct (write_inode_at_append i b size ofs (store (inodes k)) Hi Hf Ho Hd Ho0 eq_refl Hb Hlt H31 Hnb Hr)
    as (n & d' & st' & -> & Hres). rewrite !Ret_bind. exists n, d', st'. done.
Qed.

Lemma inode_file_written k q i b n ofs st' :
  inode_file k q i → written_to (data i) b n ofs 0 (store (inodes k)) st' →
  inode_file (with_inodes k (with_store (inodes k) st')) q i.
Proof.
  intros [Hi Hh Hf] Hw. constructor; [apply Hw|done|]. destruct Hf. constructor; [done|apply Hw].
Qed.


(** Reading through the inode layer. *)
Lemma inode_read_K k q i size ofs :
  inode_file k q i → 0 ≤ ofs →
  ∃ b st', inodesK (inode_read_at q size ofs) k = Ret (b, with_inodes k (with_store (inodes k) st')) ∧
    quiet (store (inodes k)) st' ∧
    Z.of_nat (length b) = Z.max 0 (Z.min size (length_ (data i) - ofs)) ∧
    ∀ j, (j < length b)%nat → b !! j = file_byte (s_view (store (inodes k))) (data i) (ofs + Z.of_nat j).
Proof.
  intros [Hi Hh Hf] Ho. unfold inodesK, inode_read_at, get_inode. rewrite Hh, Ret_bind.
  destruct (read_data_run (data i) size ofs (store (inodes k)) Hi (f_map _ _ Hf) Ho)
    as (b & st' & -> & Hq & Hl & Hb). rewrite !Ret_bind. by exists b, st'.
Qed.

Lemma get_file_run (k : kst St) p f : files k !! p = Some f → File.get_file p k = Ret (f, k).
Proof. intros H. unfold File.get_file. by rewrite H. Qed.

(** ** Reference counts *)

(** A sequence of [file_dup] (true) and [file_close] (false) calls. *)
Fixpoint run_refs (ops : list bool) (p : nat) : K St unit :=
  match ops with
  | [] => mret tt
  | o :: ops => (if o then File.file_dup (Some p);; mret tt else File.file_close (Some p));; run_refs ops p
  end.

Fixpoint balance (ops : list bool) : Z :=
  match ops with [] => 0 | o :: ops => (if o then 1 else -1) + balance ops end.

Definition set_refs (f : file) (n : Z) : file := mk_file (f_inode f) (f_pos f) (f_deny_write f) n.

(** While the count stays positive only the count changes. *)
Lemma run_refs_run ops k p f :
  files k !! p = Some f → (∀ n, (n ≤ length ops)%nat → 0 < f_ref_count f + balance (take n ops)) →
  run_refs ops p k = Ret (tt, with_files k (<[p := set_refs f (f_ref_count f + balance ops)]> (files k))).
Proof.
  revert k f. induction ops as [|o ops IH]; intros k f Hp Hn; cbn [run_refs balance].
  - rewrite Z.add_0_r. unfold mret, K_ret. rewrite insert_id by (by destruct f). by destruct k.
  - assert (∃ f1, f1 = set_refs f (f_ref_count f + if o then 1 else -1) ∧
      (if o then File.file_dup (Some p);; mret tt else File.file_close (Some p)) k =
        Ret (tt, with_files k (<[p := f1]> (files k)))) as (f1 & Hf1 & Hs).
    { eexists. split; [reflexivity|]. destruct o.
      - unfold File.file_dup. erewrite K_run; [reflexivity|]. by erewrite K_run by (by apply get_file_run).
      - specialize (Hn 1%nat ltac:(cbn; lia)). change (balance (take 1 (false :: ops))) with (-1) in Hn.
        unfold File.file_close.
        erewrite K_run by (by apply get_file_run). cbn zeta. erewrite K_run by reflexivity.
        cbn [f_ref_count]. rewrite (proj2 (Z.eqb_neq (f_ref_count f - 1) 0)) by lia. reflexivity. }
    erewrite K_run by exact Hs. rewrite (IH _ f1).
    + cbn [files with_files]. rewrite insert_insert_eq. subst f1. cbn [set_refs f_ref_count].
      unfold set_refs. cbn [f_inode f_pos f_deny_write]. by rewrite Z.add_assoc.
    + apply lookup_insert_eq.
    + intros n Hln. specialize (Hn (S n) ltac:(cbn; lia)). subst f1. cbn [take balance] in Hn. cbn [set_refs f_ref_count]. by rewrite <- Z.add_assoc.
Qed.

(** ** Properties *)

(** C35. An open file is released exactly once: as long as calls of [file_dup]
    and [file_close] leave the reference count positive nothing else changes, and
    the [file_close] that drops the count to zero gives up the file's write
    denial, closes the inode once and frees the file. *)
Theorem file_ref_counting (k : kst St) (p : nat) (f : file) (i : inode) (ops : list bool)
    (w' : ist (St:=St))
    (Hp : files k !! p = Some f) (Hi : heap (inodes k) !! f_inode f = Some i)
    (Hdeny : f_deny_write f = true → 0 < deny_write_cnt i ≤ open_cnt i)
    (Hpre : ∀ n, (n ≤ length ops)%nat → 0 < f_ref_count f + balance (take n ops))
    (Hlast : f_ref_count f + balance ops = 1)
    (Hclose : inode_close (Some (f_inode f))
        (if f_deny_write f then put_inode (inodes k) (f_inode f) (set_deny i (deny_write_cnt i - 1))
         else inodes k) = Ret w') :
  ∃ k1 k2, run_refs ops p k = Ret (tt, k1) ∧ inodes k1 = inodes k ∧
    File.file_close (Some p) k1 = Ret (tt, k2) ∧ inodes k2 = w' ∧ files k2 = delete p (files k).
Proof.
  pose proof (run_refs_run ops k p f Hp Hpre) as Hr. rewrite Hlast in Hr.
  set (k1 := with_files k _) in Hr. exists k1.
  set (f0 := mk_file (f_inode f) (f_pos f) (f_deny_write f) 0).
  set (k0 := with_files k1 (<[p := f0]> (files k1))).
  assert (∃ k', File.file_allow_write p k0 = Ret (tt, k') ∧ delete p (files k') = delete p (files k) ∧
            inode_close (Some (f_inode f)) (inodes k') = Ret w') as (k' & Ha & Hf' & Hc).
  { unfold File.file_allow_write. erewrite K_run by (apply get_file_run; apply lookup_insert_eq).
    cbn [f_deny_write f0]. destruct (f_deny_write f) eqn:Hden.
    - destruct (Hdeny eq_refl) as [Hd0 Hd1]. erewrite K_run by reflexivity. unfold inodesK', inode_allow_write, get_inode.
      cbn [inodes with_files f0 f_inode k0 k1]. rewrite Hi, Ret_bind.
      rewrite (proj2 (Z.ltb_lt _ _)), (proj2 (Z.leb_le _ _)) by lia. eexists. split; [reflexivity|].
      split; [|exact Hclose]. cbn. by rewrite !insert_insert_eq, delete_insert_eq.
    - exists k0. split; [done|]. split; [|exact Hclose]. cbn. by rewrite insert_insert_eq, delete_insert_eq. }
  eexists. split; [exact Hr|]. split; [done|]. split; [|split].
  - unfold File.file_close. erewrite K_run by (apply get_file_run; apply lookup_insert_eq).
    cbn zeta. erewrite K_run by reflexivity. cbn [set_refs f_ref_count f_inode f_pos f_deny_write].
    change (1 - 1 =? 0) with true. cbn iota. erewrite K_run by exact Ha.
    erewrite K_run by (unfold inodesK'; rewrite Hc; reflexivity). reflexivity.
  - done.
  - exact Hf'.
Qed.

(** Writing to an open file, seeking back and reading returns the bytes
    written: [file_write] advances the position by the full size, [file_seek]
    sets it and [file_read] advances it again, so the position ends where it was
    after the write. *)
Theorem file_write_seek_read (k : kst St) (p q : nat) (f : file) (i : inode) (b : list Z)
    (Hp : files k !! p = Some f) (Hq : f_inode f = q) (Hi : inode_file k q i)
    (Hd : deny_write_cnt i = 0) (Hm : mallocs k = []) (Hpos : 0 ≤ f_pos f) (Hb : Forall is_byte b)
    (He : f_pos f + Z.of_nat (length b) ≤ length_ (data i))
    (Hr : 3 * Z.of_nat (length b) ≤ s_room (store (inodes k))) :
  let n := Z.of_nat (length b) in
  ∃ k1 k2 k3, File.file_write p b n k = Ret (n, k1) ∧
    File.file_tell p k1 = Ret (f_pos f + n, k1) ∧
    File.file_seek p (f_pos f) k1 = Ret (tt, k2) ∧
    File.file_read p n k2 = Ret (b, k3) ∧ File.file_tell p k3 = Ret (f_pos f + n, k3).
Proof.
  intros n. subst q.
  destruct (inode_write_K k (f_inode f) i b (f_pos f) Hi Hd Hm Hpos Hb He Hr) as (st1 & Hw & Hwt).
  pose proof (inode_file_written _ _ _ _ _ _ _ Hi Hwt) as Hi1. set (k0 := with_inodes k _) in *.
  set (f1 := mk_file (f_inode f) (f_pos f + n) (f_deny_write f) (f_ref_count f)).
  set (k1 := with_files k0 (<[p := f1]> (files k0))).
  set (f2 := mk_file (f_inode f) (f_pos f) (f_deny_write f) (f_ref_count f)).
  set (k2 := with_files k1 (<[p := f2]> (files k1))).
  assert (inode_file k2 (f_inode f) i) as Hi2 by (by destruct Hi1; constructor).
  destruct (inode_read_K k2 (f_inode f) i n (f_pos f) Hi2 Hpos) as (b' & st2 & Hrd & Hq & Hl & Hbb).
  assert (b' = b) as -> by (eapply (written_back (data i) b n (f_pos f) (store (inodes k)) st1); done).
  set (k3 := with_files (with_inodes k2 (with_store (inodes k2) st2))
               (<[p := f1]> (files k2))).
  exists k1, k2, k3. split_and!.
  - unfold File.file_write. erewrite K_run by (by apply get_file_run). by erewrite K_run by exact Hw.
  - unfold File.file_tell. erewrite K_run by (apply get_file_run; apply lookup_insert_eq). done.
  - unfold File.file_seek. erewrite K_run by (unfold pureK; by rewrite (proj2 (Z.leb_le 0 _) Hpos)).
    by erewrite K_run by (apply get_file_run; apply lookup_insert_eq).
  - unfold File.file_read. erewrite K_run by (apply get_file_run; apply lookup_insert_eq).
    cbn [f_inode f_pos f2]. by erewrite K_run by exact Hrd.
  - unfold File.file_tell. erewrite K_run by (apply get_file_run; apply lookup_insert_eq). done.
Qed.
End proofs.
End FileProofs.
