(* ===== verification/Directory.v ===== *)
(** * Directories ([filesys/directory.c])

    A directory is a file of 20-byte entries: a sector, a name of at most 14
    characters with its terminator, and a flag.  [struct dir_entry] variables are
    kept as their bytes, since a short read fills them only in part.  Names given
    to the functions are the characters of the C string without its terminator. *)

From stdpp Require Import base tactics numbers list list_numbers option gmap.
From S2P Require Import Prelude Strings Inode File.

Open Scope Z_scope.

Module Directory.

Definition NAME_MAX : Z := 14.
Definition ENTRY_SIZE : Z := 20.  (** [sizeof (struct dir_entry)] *)
Definition ROOT_DIR_SECTOR : Z := 1.

(** The fields of an entry's bytes. *)
Definition inode_sector (e : list Z) : Z := le_val (take 4 e).
Definition name (e : list Z) : list Z := slice e 4 15.
Definition in_use (e : list Z) : bool := negb (e !!! 19%nat =? 0).

Definition dir_entry (sec : Z) (nm : list Z) (used : bool) : list Z :=
  le_bytes 4 sec ++ nm ++ [if used then 1 else 0].

(** A C string as the code passes it. *)
Definition cstring (s : list Z) : list Z := s ++ [0].
Definition dot : list Z := [46].
Definition dotdot : list Z := [46; 46].

Section dir.
Context {St : Type} `{!Store St}.

Definition get_dir (p : nat) : K St dir := λ k,
  match dirs k !! p with Some d => Ret (d, k) | None => UB end.
Definition put_dir (p : nat) (d : dir) : K St unit := λ k,
  Ret (tt, with_dirs k (<[p := d]> (dirs k))).
Definition free_dir (p : nat) : K St unit := λ k,
  Ret (tt, with_dirs k (delete p (dirs k))).
Definition new_dir (d : dir) : K St nat := λ k,
  Ret (next_obj k, bump (with_dirs k (<[next_obj k := d]> (dirs k)))).

Definition dir_create (sec entry_cnt : Z) : K St bool :=
  ok ← malloc; storeK (Inode.inode_create_dir ok sec (entry_cnt * ENTRY_SIZE)).

Definition dir_open (i : option nat) : K St (option nat) :=
  ok ← malloc;
  match i with
  | Some q =>
      if ok : bool then p ← new_dir (mk_dir q 0); mret (Some p)
      else inodesK' (Inode.inode_close i);; mret None
  | None => inodesK' (Inode.inode_close i);; mret None
  end.

Definition dir_open_root : K St (option nat) :=
  i ← File.inode_open ROOT_DIR_SECTOR; dir_open i.

Definition dir_reopen (p : option nat) : K St (option nat) :=
  match p with
  | None => mret None
  | Some p => d ← get_dir p; i ← inodesK (Inode.inode_reopen (Some (d_inode d))); dir_open i
  end.

Definition dir_close (p : option nat) : K St unit :=
  match p with
  | None => mret tt
  | Some p => d ← get_dir p; inodesK' (Inode.inode_close (Some (d_inode d)));; free_dir p
  end.

Definition dir_get_inode (p : nat) : K St nat := d ← get_dir p; mret (d_inode d).
Definition dir_get_pos (p : nat) : K St Z := d ← get_dir p; mret (d_pos d).
Definition dir_set_pos (p : nat) (pos : Z) : K St unit :=
  d ← get_dir p; put_dir p (mk_dir (d_inode d) pos).

(** [inode_read_at (inode, &e, sizeof e, ofs) == sizeof e] and the entry after it. *)
Definition read_entry (i : nat) (e : list Z) (ofs : Z) : K St (bool * list Z) :=
  b ← inodesK (Inode.inode_read_at i ENTRY_SIZE ofs);
  mret (Z.of_nat (length b) =? ENTRY_SIZE, b ++ drop (length b) e).

(** More iterations than entries in the directory. *)
Definition entry_fuel (i : nat) : K St nat :=
  len ← askK (Inode.inode_length i); mret (S (Z.to_nat len)).

(** The entry and its offset. *)
Fixpoint lookup_loop (fuel : nat) (i : nat) (nm e : list Z) (ofs : Z) : K St (option (list Z * Z)) :=
  match fuel with
  | O => pureK UB
  | S fuel =>
      '(full, e) ← read_entry i e ofs;
      if negb full then mret None
      else
        found ← (if in_use e then r ← pureK (Strings.strcmp (cstring nm) (name e)); mret (r =? 0)
                 else mret false);
        if found : bool then mret (Some (e, ofs))
        else lookup_loop fuel i nm e (ofs + ENTRY_SIZE)
  end.

(** [e0]: what the uninitialised entry variable holds. *)
Definition lookup (e0 : list Z) (p : nat) (nm : list Z) : K St (option (list Z * Z)) :=
  d ← get_dir p;
  fuel ← entry_fuel (d_inode d);
  lookup_loop fuel (d_inode d) nm e0 0.

Definition dir_lookup (e0 : list Z) (p : nat) (nm : list Z) : K St (option nat) :=
  r ← lookup e0 p nm;
  match r with
  | Some (e, _) => File.inode_open (inode_sector e)
  | None => mret None
  end.

(** The loop that looks for a free slot; the entry variable keeps what it read. *)
Fixpoint slot_loop (fuel : nat) (i : nat) (e : list Z) (ofs : Z) : K St (Z * list Z) :=
  match fuel with
  | O => pureK UB
  | S fuel =>
      '(full, e) ← read_entry i e ofs;
      if negb full then mret (ofs, e)
      else if negb (in_use e) then mret (ofs, e)
      else slot_loop fuel i e (ofs + ENTRY_SIZE)
  end.

Definition dir_add (e0 : list Z) (p : nat) (nm : list Z) (sec : Z) : K St bool :=
  len ← pureK (Strings.strlen (cstring nm));
  if bool_decide (nm = []) || (NAME_MAX <? len) then mret false
  else
    r ← lookup e0 p nm;
    if bool_decide (is_Some r) then mret false
    else
      d ← get_dir p;
      fuel ← entry_fuel (d_inode d);
      '(ofs, e) ← slot_loop fuel (d_inode d) e0 0;
      '(_, nm') ← pureK (Strings.strlcpy (name e) (cstring nm) (NAME_MAX + 1));
      n ← File.inode_write_at (d_inode d) (dir_entry sec nm' true) ENTRY_SIZE ofs;
      mret (n =? ENTRY_SIZE).

Definition dir_remove (e0 : list Z) (p : nat) (nm : list Z) : K St bool :=
  r ← lookup e0 p nm;
  match r with
  | None => mret false
  | Some (e, ofs) =>
      i ← File.inode_open (inode_sector e);
      match i with
      | None => mret false
      | Some q =>
          d ← get_dir p;
          n ← File.inode_write_at (d_inode d) (dir_entry (inode_sector e) (name e) false) ENTRY_SIZE ofs;
          if negb (n =? ENTRY_SIZE) then inodesK' (Inode.inode_close i);; mret false
          else
            inodesK' (Inode.inode_dec_nlink q);;
            links ← askK (Inode.inode_get_nlink q);
            (if links =? 0 then inodesK' (Inode.inode_remove q) else mret tt);;
            inodesK' (Inode.inode_close i);;
            mret true
      end
  end.

(** [buf]: the caller's name buffer. *)
Fixpoint readdir_loop (fuel : nat) (p : nat) (e buf : list Z) : K St (bool * list Z) :=
  match fuel with
  | O => pureK UB
  | S fuel =>
      d ← get_dir p;
      '(full, e) ← read_entry (d_inode d) e (d_pos d);
      if negb full then mret (false, buf)
      else
        put_dir p (mk_dir (d_inode d) (d_pos d + ENTRY_SIZE));;
        if in_use e then
          '(_, buf) ← pureK (Strings.strlcpy buf (name e) (NAME_MAX + 1)); mret (true, buf)
        else readdir_loop fuel p e buf
  end.

Definition dir_readdir (e0 : list Z) (p : nat) (buf : list Z) : K St (bool * list Z) :=
  d ← get_dir p;
  fuel ← entry_fuel (d_inode d);
  readdir_loop fuel p e0 buf.

Fixpoint empty_loop (fuel : nat) (i : nat) (e : list Z) (ofs : Z) : K St bool :=
  match fuel with
  | O => pureK UB
  | S fuel =>
      '(full, e) ← read_entry i e ofs;
      if negb full then mret true
      else
        other ← (if in_use e then
                   r1 ← pureK (Strings.strcmp (name e) (cstring dot));
                   if r1 =? 0 then mret false
                   else r2 ← pureK (Strings.strcmp (name e) (cstring dotdot)); mret (negb (r2 =? 0))
                 else mret false);
        if other : bool then mret false else empty_loop fuel i e (ofs + ENTRY_SIZE)
  end.

Definition dir_is_empty (e0 : list Z) (p : nat) : K St bool :=
  d ← get_dir p;
  fuel ← entry_fuel (d_inode d);
  empty_loop fuel (d_inode d) e0 0.

Definition dir_create_with_parent (e0 : list Z) (sec parent_sector entry_cnt : Z) : K St bool :=
  let entry_cnt := if entry_cnt <? 2 then 2 else entry_cnt in
  calloc ← malloc;
  ok ← storeK (Inode.inode_create_dir calloc sec (entry_cnt * ENTRY_SIZE));
  if negb ok then mret false
  else
    i ← File.inode_open sec;
    p ← dir_open i;
    match p with
    | None => mret false
    | Some q =>
        success ← dir_add e0 q dot sec;
        success ← (if success : bool then dir_add e0 q dotdot parent_sector else mret false);
        dir_close p;;
        mret success
    end.
End dir.
End Directory.
