(* ===== verification/DirProofs.v ===== *)
(** * Directories: what lookup and insertion do

    A directory's contents are the list of its entries, read off the view of the
    disk; the operations act on that list. *)

From stdpp Require Import base tactics numbers list list_numbers option gmap.
From S2P Require Import Prelude Block Strings Inode InodeProofs File FileProofs Directory.

Open Scope Z_scope.

Module DirProofs.
Import Inode InodeProofs FileProofs Directory.

(** ** Entries *)

(** The name of an entry in use is terminated. *)
Definition entry_ok (e : list Z) : Prop := in_use e = true → 0 ∈ name e.

(** The entry has the name [nm]. *)
Definition names (nm e : list Z) : Prop := in_use e = true ∧ Strings.c_str (name e) = nm.

#[global] Instance names_dec nm e : Decision (names nm e).
Proof. unfold names. apply _. Defined.

(** The sector a list of entries gives to a name. *)
Definition dir_find (l : list (list Z)) (nm : list Z) : option Z :=
  (λ x, inode_sector x.2) <$> list_find (names nm) l.

Lemma c_str_split l : 0 ∈ l → ∃ z, l = Strings.c_str l ++ 0 :: z ∧ Strings.text (Strings.c_str l).
Proof.
  induction l as [|c l IH]; [by intros ?%elem_of_nil|]. cbn. destruct (Z.eqb_spec c 0) as [->|Hc].
  - intros _. exists l. split; [done|]. by apply Forall_nil_2.
  - intros [|Hl]%elem_of_cons; [done|]. destruct (IH Hl) as (z & Hz & Ht). exists z.
    split; [cbn; by rewrite <- Hz|by constructor].
Qed.

(** The comparison of [lookup] decides [names]. *)
Lemma strcmp_names nm e : Strings.text nm → entry_ok e → in_use e = true →
  ∃ r, Strings.strcmp (cstring nm) (name e) = Ret r ∧ (r = 0 ↔ names nm e).
Proof.
  intros Hn Hok Hu. destruct (c_str_split (name e) (Hok Hu)) as (z & Hz & Ht).
  destruct (Strings.strcmp_run nm (Strings.c_str (name e)) [] z Hn Ht) as (r & Hr & H0).
  exists r. unfold cstring. rewrite Hz at 1. split; [done|]. rewrite H0. unfold names. naive_solver.
Qed.

Lemma name_entry sec nm used : length nm = 15%nat → name (dir_entry sec nm used) = nm.
Proof.
  intros Hl. unfold name, dir_entry, slice. rewrite drop_app_length' by (by rewrite length_le_bytes).
  by apply take_app_length'.
Qed.

Lemma in_use_entry sec nm used : length nm = 15%nat → in_use (dir_entry sec nm used) = used.
Proof.
  intros Hl. unfold in_use, dir_entry. rewrite app_assoc.
  rewrite (list_lookup_total_correct _ _ (if used then 1 else 0)); [by destruct used|].
  apply list_lookup_middle. rewrite length_app, length_le_bytes. lia.
Qed.

Lemma sector_entry sec nm used : inode_sector (dir_entry sec nm used) = u32 sec.
Proof.
  unfold inode_sector, dir_entry. rewrite take_app_length' by (by rewrite length_le_bytes).
  by rewrite le_val_le_bytes.
Qed.

Lemma dir_entry_bytes sec nm used : Forall is_byte nm → Forall is_byte (dir_entry sec nm used).
Proof.
  intros Hn. apply Forall_app_2; [apply le_bytes_ok|]. apply Forall_app_2; [done|].
  constructor; [|by apply Forall_nil_2]. unfold is_byte. destruct used; lia.
Qed.

Lemma length_entry sec nm used : length nm = 15%nat → length (dir_entry sec nm used) = 20%nat.
Proof. intros H. unfold dir_entry. rewrite !length_app, length_le_bytes, H. done. Qed.

(** ** Appending *)

Lemma list_find_app_new l new nm :
  list_find (names nm) l = None → names nm new →
  list_find (names nm) (l ++ [new]) = Some (length l, new).
Proof. intros Hl Hn. rewrite list_find_app_r by done. cbn. by rewrite decide_True by done. Qed.

Lemma list_find_app_old l new nm :
  ¬ names nm new → list_find (names nm) (l ++ [new]) = list_find (names nm) l.
Proof.
  intros Hn. destruct (list_find (names nm) l) as [[j e]|] eqn:H; [by apply list_find_app_l|].
  rewrite list_find_app_r by done. cbn. by rewrite decide_False by done.
Qed.

(** ** Inserting into a free slot *)

Section insert.
Context (l : list (list Z)) (j : nat) (old new : list Z).
Context (Hj : l !! j = Some old) (Hold : in_use old = false).

Lemma list_find_insert_other nm : ¬ names nm new →
  list_find (names nm) (<[j := new]> l) = list_find (names nm) l.
Proof using Hj Hold.
  intros Hn. revert j Hj. induction l as [|e l' IH]; intros [|j'] Hj'; [done..| |]; cbn in Hj' |- *.
  - injection Hj' as ->. rewrite !decide_False; [done| |done]. intros [? _]. congruence.
  - case_decide; [done|]. f_equal. by apply IH.
Qed.

Lemma list_find_insert_new nm : names nm new → list_find (names nm) l = None →
  list_find (names nm) (<[j := new]> l) = Some (j, new).
Proof using Hj.
  intros Hn. revert j Hj. induction l as [|e l' IH]; intros [|j'] Hj'; [done..| |]; cbn in Hj' |- *.
  - intros _. by rewrite (decide_True (P:=names nm new)).
  - case_decide; [done|]. intros Hf.
    assert (list_find (names nm) l' = None) as Hf' by (by destruct (list_find _ l') as [[? ?]|]).
    transitivity (prod_map S id <$> Some (j', new)); [f_equal; by apply IH|done].
Qed.
End insert.

Section proofs.
Context {St : Type} `{!Store St} `{!SectorModel St} `{!SectorLaws St}.

(** ** The entries of a directory file *)

Definition nslots (d : inode_disk) : Z := length_ d / 20.

Definition slot (v : Z → list Z) (d : inode_disk) (m : Z) : list Z :=
  (λ j, default 0 (file_byte v d (20 * m + j))) <$> seqZ 0 20.

Definition slots (v : Z → list Z) (d : inode_disk) : list (list Z) := slot v d <$> seqZ 0 (nslots d).

Lemma length_slot v d m : length (slot v d m) = 20%nat.
Proof. unfold slot. by rewrite length_fmap, length_seqZ. Qed.

Lemma lookup_slots v d m : 0 ≤ m < nslots d → slots v d !! Z.to_nat m = Some (slot v d m).
Proof.
  intros Hm. unfold slots. rewrite list_lookup_fmap, lookup_seqZ_lt by lia. cbn. do 2 f_equal. lia.
Qed.

Lemma length_slots v d : Z.of_nat (length (slots v d)) = Z.max 0 (nslots d).
Proof. unfold slots. rewrite length_fmap, length_seqZ. lia. Qed.

Lemma slots_quiet k k' q i : inode_file k q i → kquiet k k' →
  slots (s_view (store (inodes k'))) (data i) = slots (s_view (store (inodes k))) (data i).
Proof.
  intros [Hi Hh Hf] [Hq He]. unfold slots. apply list_fmap_ext. intros n m Hm. unfold slot.
  apply list_fmap_ext. intros n' j Hj.
  apply lookup_seqZ in Hm as [-> Hm]. apply lookup_seqZ in Hj as [-> Hj]. unfold nslots in Hm.
  rewrite (quiet_byte (data i) (store (inodes k)) (store (inodes k'))); [done|apply Hf|exact Hq|].
  pose proof (Z.div_mod (length_ (data i)) 20 ltac:(lia)).
  pose proof (Z.mod_pos_bound (length_ (data i)) 20 ltac:(lia)). lia.
Qed.

(** The bytes of a file are bytes. *)
Lemma file_byte_ok st d x c :
  s_inv st → file_ok (s_view st) d → file_byte (s_view st) d x = Some c → 0 ≤ x < length_ d → is_byte c.
Proof.
  intros Hi Hf Hc Hx. pose proof (pos_block (length_ d) x Hx) as Hk. unfold file_byte in Hc.
  pose proof (law_bytes st _ Hi (m_data _ _ _ (f_map _ _ Hf) (x / 512) Hk)) as Hb.
  by eapply (Forall_lookup_1 _ _ _ _ Hb).
Qed.

(** [read_entry] at a slot boundary. *)
Lemma read_entry_run k q i e m :
  inode_file k q i → 0 ≤ m → length e = 20%nat →
  ∃ e' k', read_entry q e (20 * m) k = Ret ((m <? nslots (data i), e'), k') ∧ kquiet k k' ∧
    length e' = 20%nat ∧ (Forall is_byte e → Forall is_byte e') ∧
    (m < nslots (data i) → e' = slot (s_view (store (inodes k))) (data i) m).
Proof.
  intros [Hi Hh Hf] Hm He. unfold read_entry, mbind, K_bind, inodesK, inode_read_at, get_inode.
  rewrite Hh, Ret_bind.
  destruct (read_data_run (data i) ENTRY_SIZE (20 * m) (store (inodes k)) Hi (f_map _ _ Hf))
    as (b & st' & -> & Hq & Hl & Hb); [lia|]. rewrite !Ret_bind. unfold ENTRY_SIZE in *.
  pose proof (f_len _ _ Hf) as Hlen. unfold nslots.
  pose proof (Z.div_mod (length_ (data i)) 20 ltac:(lia)).
  pose proof (Z.mod_pos_bound (length_ (data i)) 20 ltac:(lia)).
  exists (b ++ drop (length b) e), (with_inodes k (with_store (inodes k) st')).
  split; [|split; [by apply kquiet_intro|split; [|split]]].
  - unfold mret, K_ret. do 3 f_equal. destruct (Z.ltb_spec m (length_ (data i) / 20)).
    + apply Z.eqb_eq. lia.
    + apply Z.eqb_neq. lia.
  - rewrite length_app, length_drop. lia.
  - intros Hbe. apply Forall_app_2; [|by apply Forall_drop]. apply Forall_lookup_2. intros j c Hj.
    pose proof (lookup_lt_Some _ _ _ Hj). rewrite Hb in Hj by done.
    by eapply (file_byte_ok (store (inodes k)) (data i)); [| |exact Hj|lia].
  - intros Hin. assert (length b = 20%nat) as Hlb by lia. rewrite drop_ge, app_nil_r by lia.
    apply list_eq. intros j. destruct (decide (j < 20)%nat) as [Hj|Hj].
    + unfold slot. rewrite list_lookup_fmap, lookup_seqZ_lt by lia. cbn [fmap option_fmap option_map].
      rewrite Hb by lia. rewrite Z.add_0_l.
      destruct (file_byte (s_view (store (inodes k))) (data i) (20 * m + Z.of_nat j)) eqn:Hx; [done|].
      specialize (Hb j ltac:(lia)). rewrite Hx in Hb. apply lookup_ge_None in Hb. lia.
    + rewrite !(proj2 (lookup_ge_None _ _)); [done|rewrite length_slot; lia|lia].
Qed.

(** ** Lookup *)

Definition entries_ok (l : list (list Z)) : Prop := Forall entry_ok l.

Lemma drop_slots v d m : 0 ≤ m < nslots d →
  drop (Z.to_nat m) (slots v d) = slot v d m :: drop (Z.to_nat (m + 1)) (slots v d).
Proof.
  intros Hm. rewrite (drop_S _ _ _ (lookup_slots v d m Hm)). do 2 f_equal. lia.
Qed.

Lemma lookup_loop_run fuel k q i nm e m :
  inode_file k q i → entries_ok (slots (s_view (store (inodes k))) (data i)) → Strings.text nm →
  length e = 20%nat → 0 ≤ m → Z.max 0 (nslots (data i) - m) < Z.of_nat fuel →
  ∃ k', lookup_loop fuel q nm e (20 * m) k =
      Ret ((λ x, (x.2, 20 * (m + Z.of_nat x.1))) <$>
             list_find (names nm) (drop (Z.to_nat m) (slots (s_view (store (inodes k))) (data i))), k') ∧
    kquiet k k'.
Proof.
  revert k e m. induction fuel as [|fuel IH]; intros k e m Hd Hok Ht He Hm Hf; [lia|].
  cbn [lookup_loop].
  destruct (read_entry_run k q i e m Hd Hm He) as (e' & k1 & Hr & Hq1 & Hl' & Hbe & He').
  erewrite K_run by exact Hr. cbn beta iota. destruct (Z.ltb_spec m (nslots (data i))) as [Hin|Hout]; cbn [negb].
  2: { exists k1. rewrite drop_ge by (pose proof (length_slots (s_view (store (inodes k))) (data i)); lia).
       done. }
  specialize (He' Hin). subst e'. rewrite drop_slots by lia.
  set (v := s_view (store (inodes k))) in *. set (s := slot v (data i) m) in *. cbn [list_find].
  assert (entry_ok s) as Hs.
  { apply (proj1 (list.Forall_forall _ _) Hok). eapply list_elem_of_lookup_2, lookup_slots. lia. }
  assert (∃ f, (if in_use s then r ← pureK (Strings.strcmp (cstring nm) (name s)); mret (r =? 0)
                 else mret false : K St bool) k1 = Ret (f, k1) ∧ (f = true ↔ names nm s)) as (f & Hfr & Hfs).
  { destruct (in_use s) eqn:Hu.
    - destruct (strcmp_names nm s Ht Hs Hu) as (r & Hr' & H0). exists (r =? 0).
      unfold mbind, K_bind, pureK. rewrite Hr', !Ret_bind. split; [done|]. by rewrite Z.eqb_eq.
    - exists false. split; [done|]. unfold names. rewrite Hu. naive_solver. }
  erewrite K_run by exact Hfr. destruct f.
  - rewrite decide_True by (by apply Hfs). exists k1. split; [|done]. unfold mret, K_ret. cbn. do 4 f_equal. lia.
  - rewrite decide_False by (intros H; by apply Hfs in H).
    replace (20 * m + ENTRY_SIZE) with (20 * (m + 1)) by (unfold ENTRY_SIZE; lia).
    destruct (IH k1 s (m + 1)) as (k2 & Hr2 & Hq2); [by eapply inode_file_quiet| |done|done|lia|lia|].
    { by rewrite (slots_quiet k k1 q i Hd Hq1). }
    rewrite (slots_quiet k k1 q i Hd Hq1) in Hr2. fold v in Hr2. rewrite Hr2.
    exists k2. split; [|by eapply kquiet_trans]. f_equal. f_equal.
    destruct (list_find _ _) as [[x y]|]; [|done]. cbn. do 2 f_equal. lia.
Qed.

Lemma entry_fuel_run k q i : inode_file k q i →
  entry_fuel q k = Ret (S (Z.to_nat (length_ (data i))), k) ∧
  Z.max 0 (nslots (data i)) < Z.of_nat (S (Z.to_nat (length_ (data i)))).
Proof.
  intros [Hi Hh Hf]. unfold entry_fuel, mbind, K_bind, askK, inode_length, get_inode. rewrite Hh.
  split; [done|]. pose proof (f_len _ _ Hf). unfold nslots.
  pose proof (Z.div_mod (length_ (data i)) 20 ltac:(lia)).
  pose proof (Z.mod_pos_bound (length_ (data i)) 20 ltac:(lia)). lia.
Qed.

Lemma get_dir_run (k : kst St) p d : dirs k !! p = Some d → get_dir p k = Ret (d, k).
Proof. intros H. unfold get_dir. by rewrite H. Qed.

(** [lookup] finds the first entry with the name. *)
Lemma lookup_run k p q pos i nm e0 :
  dirs k !! p = Some (mk_dir q pos) → inode_file k q i →
  entries_ok (slots (s_view (store (inodes k))) (data i)) → Strings.text nm → length e0 = 20%nat →
  ∃ k', lookup e0 p nm k =
      Ret ((λ x, (x.2, 20 * Z.of_nat x.1)) <$>
             list_find (names nm) (slots (s_view (store (inodes k))) (data i)), k') ∧ kquiet k k'.
Proof.
  intros Hp Hd Hok Ht He. unfold lookup. erewrite K_run by (by apply get_dir_run). cbn [d_inode].
  destruct (entry_fuel_run k q i Hd) as [Hef Hfu]. erewrite K_run by exact Hef.
  destruct (lookup_loop_run (S (Z.to_nat (length_ (data i)))) k q i nm e0 0) as (k' & Hr & Hq); try done; [lia|].
  exists k'. change (20 * 0) with 0 in Hr. rewrite Hr. split; [|done]. reflexivity.
Qed.

(** ** Insertion *)

Definition unused (e : list Z) : Prop := in_use e = false.

#[global] Instance unused_dec e : Decision (unused e).
Proof. unfold unused. apply _. Defined.

Lemma slot_loop_run fuel k q i e m j s :
  inode_file k q i → length e = 20%nat → 0 ≤ m → Z.max 0 (nslots (data i) - m) < Z.of_nat fuel →
  list_find unused (drop (Z.to_nat m) (slots (s_view (store (inodes k))) (data i))) = Some (j, s) →
  ∃ k', slot_loop fuel q e (20 * m) k = Ret ((20 * (m + Z.of_nat j), s), k') ∧ kquiet k k'.
Proof.
  revert k e m j. induction fuel as [|fuel IH]; intros k e m j Hd He Hm Hf Hj; [lia|].
  cbn [slot_loop].
  destruct (read_entry_run k q i e m Hd Hm He) as (e' & k1 & Hr & Hq1 & Hl' & Hbe & He').
  erewrite K_run by exact Hr. cbn beta iota. destruct (Z.ltb_spec m (nslots (data i))) as [Hin|Hout]; cbn [negb].
  2: { rewrite drop_ge in Hj by (pose proof (length_slots (s_view (store (inodes k))) (data i)); lia). done. }
  specialize (He' Hin). subst e'. rewrite drop_slots in Hj by lia.
  set (v := s_view (store (inodes k))) in *. set (s0 := slot v (data i) m) in *. cbn [list_find] in Hj.
  case_decide as Hu; unfold unused in Hu.
  - injection Hj as <- <-. rewrite Hu. cbn [negb]. exists k1. split; [|done].
    unfold mret, K_ret. do 3 f_equal. lia.
  - apply not_false_is_true in Hu. rewrite Hu. cbn [negb].
    replace (20 * m + ENTRY_SIZE) with (20 * (m + 1)) by (unfold ENTRY_SIZE; lia).
    destruct (list_find unused (drop (Z.to_nat (m + 1)) (slots v (data i)))) as [[j' s']|] eqn:Hf'; [|done].
    cbn in Hj. injection Hj as <- <-.
    destruct (IH k1 s0 (m + 1) j') as (k2 & Hr2 & Hq2); [by eapply inode_file_quiet|done|lia|lia| |].
    { by rewrite (slots_quiet k k1 q i Hd Hq1). }
    exists k2. rewrite Hr2. split; [|by eapply kquiet_trans]. do 3 f_equal. lia.
Qed.

(** Without a free slot the loop stops behind the last entry. *)
Lemma slot_loop_end fuel k q i e m :
  inode_file k q i → length e = 20%nat → Forall is_byte e → 0 ≤ m ≤ nslots (data i) →
  nslots (data i) - m < Z.of_nat fuel →
  list_find unused (drop (Z.to_nat m) (slots (s_view (store (inodes k))) (data i))) = None →
  ∃ e' k', slot_loop fuel q e (20 * m) k = Ret ((20 * nslots (data i), e'), k') ∧ kquiet k k' ∧
    length e' = 20%nat ∧ Forall is_byte e'.
Proof.
  revert k e m. induction fuel as [|fuel IH]; intros k e m Hd He Hby Hm Hf Hj; [lia|].
  cbn [slot_loop].
  destruct (read_entry_run k q i e m Hd ltac:(lia) He) as (e' & k1 & Hr & Hq1 & Hl' & Hbe & He').
  specialize (Hbe Hby). erewrite K_run by exact Hr. cbn beta iota.
  destruct (Z.ltb_spec m (nslots (data i))) as [Hin|Hout]; cbn [negb].
  2: { exists e', k1. split; [|done]. unfold mret, K_ret. do 3 f_equal. lia. }
  specialize (He' Hin). subst e'. rewrite drop_slots in Hj by lia.
  set (v := s_view (store (inodes k))) in *. set (s0 := slot v (data i) m) in *. cbn [list_find] in Hj.
  case_decide as Hu; [done|]. unfold unused in Hu. apply not_false_is_true in Hu. rewrite Hu. cbn [negb].
  replace (20 * m + ENTRY_SIZE) with (20 * (m + 1)) by (unfold ENTRY_SIZE; lia).
  destruct (list_find unused (drop (Z.to_nat (m + 1)) (slots v (data i)))) as [[j' s']|] eqn:Hf'; [done|].
  destruct (IH k1 s0 (m + 1)) as (e2 & k2 & Hr2 & Hq2 & H2); [by eapply inode_file_quiet|done|done|lia|lia| |].
  { by rewrite (slots_quiet k k1 q i Hd Hq1). }
  exists e2, k2. rewrite Hr2. split; [done|]. split; [by eapply kquiet_trans|done].
Qed.

Lemma slot_bytes k q i m : inode_file k q i → 0 ≤ m < nslots (data i) →
  Forall is_byte (slot (s_view (store (inodes k))) (data i) m).
Proof.
  intros [Hi Hh Hf] Hm. unfold slot. apply Forall_fmap, list.Forall_forall. intros j Hj.
  apply elem_of_seqZ in Hj. cbn. unfold nslots in Hm.
  pose proof (Z.div_mod (length_ (data i)) 20 ltac:(lia)).
  pose proof (Z.mod_pos_bound (length_ (data i)) 20 ltac:(lia)).
  destruct (file_byte _ _ _) as [c|] eqn:Hc; [|unfold is_byte; cbn; lia]. cbn.
  eapply file_byte_ok; [exact Hi|exact Hf|exact Hc|lia].
Qed.

(** A whole entry written over slot [m]. *)
Lemma slots_written st st' d e m :
  written_to d e 20 (20 * m) 0 st st' → 0 ≤ m < nslots d → length e = 20%nat →
  slots (s_view st') d = <[Z.to_nat m := e]> (slots (s_view st) d).
Proof.
  intros Hw Hm He. unfold nslots in Hm.
  pose proof (Z.div_mod (length_ d) 20 ltac:(lia)). pose proof (Z.mod_pos_bound (length_ d) 20 ltac:(lia)).
  assert (∀ n, 0 ≤ n < nslots d → slot (s_view st') d n = if decide (n = m) then e else slot (s_view st) d n) as Hs.
  { intros n Hn. unfold nslots in Hn. case_decide as Hnm.
    - subst n. apply list_eq. intros j. destruct (decide (j < 20)%nat) as [Hj|Hj].
      + unfold slot. rewrite list_lookup_fmap, lookup_seqZ_lt by lia. cbn [fmap option_fmap option_map].
        rewrite (wt_byte _ _ _ _ _ _ _ Hw), decide_True by lia.
        replace (Z.to_nat (0 + (20 * m + (0 + Z.of_nat j) - 20 * m))) with j by lia.
        destruct (lookup_lt_is_Some_2 e j) as [c Hc]; [lia|]. by rewrite Hc.
      + rewrite !(proj2 (lookup_ge_None _ _)); [done|lia|rewrite length_slot; lia].
    - unfold slot. apply list_fmap_ext. intros j' j Hj. apply lookup_seqZ in Hj as [-> Hj].
      rewrite (wt_byte _ _ _ _ _ _ _ Hw), decide_False by lia. done. }
  apply list_eq. intros j. destruct (decide (j < length (slots (s_view st) d))%nat) as [Hj|Hj].
  - pose proof (length_slots (s_view st) d). rewrite <- (Nat2Z.id j) at 1.
    rewrite lookup_slots, Hs by (unfold nslots in *; lia). case_decide as Hjm.
    + rewrite <- Hjm, Nat2Z.id, list_lookup_insert_eq by lia. done.
    + rewrite list_lookup_insert_ne by lia. rewrite <- (Nat2Z.id j) at 2.
      rewrite lookup_slots by (unfold nslots in *; lia). done.
  - rewrite (proj2 (lookup_ge_None (slots (s_view st') d) j)).
    2: { pose proof (length_slots (s_view st) d). pose proof (length_slots (s_view st') d). lia. }
    symmetry. apply lookup_ge_None. rewrite length_insert. lia.
Qed.

Lemma seqZ_one m : seqZ m 1 = [m].
Proof. done. Qed.

(** The directory with one more entry behind the last. *)
Lemma slots_appended st st1 st' d d' sec new e :
  file_ok (s_view st) d → length e = 20%nat → length_ d < 20 * nslots d + 20 →
  grown d d' sec (20 * nslots d + 20) new st st1 →
  written_to d' e 20 (20 * nslots d) 0 st1 st' →
  slots (s_view st') d' = slots (s_view st) d ++ [e].
Proof.
  intros Hf He Hlt Hg Hw. pose proof (f_len _ _ Hf) as Hlen.
  pose proof (gr_len _ _ _ _ _ _ _ Hg) as Hl'.
  assert (0 ≤ nslots d ∧ 20 * nslots d ≤ length_ d) as [Hn0 Hn].
  { unfold nslots. split; [apply Z.div_pos; lia|apply Z.mul_div_le; lia]. }
  assert (nslots d' = nslots d + 1) as Hns.
  { unfold nslots at 1. rewrite Hl'. rewrite <- (Z.div_mul (nslots d + 1) 20) by lia. f_equal. lia. }
  unfold slots. rewrite Hns, seqZ_app by lia. rewrite fmap_app, seqZ_one. apply (f_equal2 app).
  - apply list_fmap_ext. intros ? m Hm. apply lookup_seqZ in Hm as [-> Hm]. unfold slot.
    apply list_fmap_ext. intros ? j Hj. apply lookup_seqZ in Hj as [-> Hj].
    rewrite (wt_byte _ _ _ _ _ _ _ Hw), decide_False by lia.
    by rewrite (gr_byte _ _ _ _ _ _ _ Hg) by lia.
  - rewrite list_fmap_singleton. apply (f_equal (λ x, [x])). replace (0 + nslots d) with (nslots d) by lia.
    apply list_eq. intros j. destruct (decide (j < 20)%nat) as [Hj|Hj].
    + unfold slot. rewrite list_lookup_fmap, lookup_seqZ_lt by lia. cbn [fmap option_fmap option_map].
      rewrite (wt_byte _ _ _ _ _ _ _ Hw), decide_True by lia.
      replace (Z.to_nat (0 + (20 * nslots d + (0 + Z.of_nat j) - 20 * nslots d))) with j by lia.
      destruct (lookup_lt_is_Some_2 e j) as [c Hc]; [lia|]. by rewrite Hc.
    + rewrite !(proj2 (lookup_ge_None _ _)); [done|lia|rewrite length_slot; lia].
Qed.

Lemma dir_find_None l nm : dir_find l nm = None ↔ list_find (names nm) l = None.
Proof. unfold dir_find. by rewrite fmap_None. Qed.

(** The map after an entry was stored in a free slot. *)
Lemma dir_find_inserted l j old new nm s nm' :
  l !! j = Some old → unused old → list_find (names nm) l = None → names nm new →
  inode_sector new = s →
  dir_find (<[j := new]> l) nm' = if bool_decide (nm' = nm) then Some s else dir_find l nm'.
Proof.
  intros Hj Hun Hf Hn <-. unfold dir_find. case_bool_decide as Hnm.
  - subst nm'. by rewrite (list_find_insert_new l j old new Hj nm Hn Hf).
  - rewrite (list_find_insert_other l j old new Hj Hun nm'); [done|]. intros [_ Hx]. destruct Hn. congruence.
Qed.

(** The map after an entry was appended. *)
Lemma dir_find_appended l new nm s nm' :
  list_find (names nm) l = None → names nm new → inode_sector new = s →
  dir_find (l ++ [new]) nm' = if bool_decide (nm' = nm) then Some s else dir_find l nm'.
Proof.
  intros Hf Hn <-. unfold dir_find. case_bool_decide as Hnm.
  - subst nm'. by rewrite list_find_app_new.
  - rewrite list_find_app_old; [done|]. intros [_ Hx]. destruct Hn. congruence.
Qed.

Lemma owned_quiet k k' q i :
  inode_file k q i → kquiet k k' → owned (store (inodes k)) (sector i) (data i) →
  owned (store (inodes k')) (sector i) (data i).
Proof.
  intros Hd [Hq _]. pose proof (f_map _ _ (if_file _ _ _ Hd)) as Hm. apply owned_local; [exact Hm| |].
  - intros a x Ha Hx. apply (q_view _ _ Hq). by apply (m_index _ _ _ Hm a).
  - intros x. by rewrite (q_free _ _ Hq).
Qed.

(** The directory, the name and the entry variable a call works with. *)
Record dir_call (k : kst St) (p q : nat) (i : inode) (nm e0 : list Z) : Prop := {
  dc_dir : ∃ pos, dirs k !! p = Some (mk_dir q pos);
  dc_file : inode_file k q i;
  dc_ok : entries_ok (slots (s_view (store (inodes k))) (data i));
  dc_deny : deny_write_cnt i = 0;
  dc_mem : mallocs k = [];
  dc_room : 60 ≤ s_room (store (inodes k));
  dc_text : Strings.text nm;
  dc_bytes : Forall is_byte nm;
  dc_len : (0 < length nm ≤ 14)%nat;
  dc_e0 : length e0 = 20%nat ∧ Forall is_byte e0
}.

(** The position behind the last entry when one is appended. *)
Definition append_end (d : inode_disk) : Z := 20 * nslots d + 20.

(** A write of less than a sector behind the end needs at most one more block. *)
Lemma needs_one_block len n :
  0 ≤ len < n → n ≤ len + 512 → needs_block len n = true →
  bytes_to_sectors n = bytes_to_sectors len + 1.
Proof.
  intros Hn Hle Hb. unfold needs_block in Hb. apply negb_true_iff, Z.eqb_neq in Hb.
  pose proof (bytes_to_sectors_spec n ltac:(lia)). pose proof (bytes_to_sectors_spec len ltac:(lia)). lia.
Qed.

(** Files are far below the limit of [off_t]. *)
Lemma file_small v d : file_ok v d → length_ d ≤ 512 * MAX_BLOCKS.
Proof.
  intros [Hl Hm]. pose proof (bytes_to_sectors_spec (length_ d) ltac:(lia)). pose proof (m_max _ _ _ Hm). lia.
Qed.

Section add.
Context (k : kst St) (p q : nat) (i : inode) (nm e0 : list Z) (Hc : dir_call k p q i nm e0).
Local Abbreviation l := (slots (s_view (store (inodes k))) (data i)).

Lemma dir_add_start sec :
  ∃ k1, kquiet k k1 ∧
    dir_add e0 p nm sec k =
      (if bool_decide (is_Some (list_find (names nm) l)) then mret false : K St bool
       else
         d ← get_dir p;
         fuel ← entry_fuel (d_inode d);
         '(ofs, e) ← slot_loop fuel (d_inode d) e0 0;
         '(_, nm') ← pureK (Strings.strlcpy (name e) (cstring nm) (NAME_MAX + 1));
         n ← File.inode_write_at (d_inode d) (dir_entry sec nm' true) ENTRY_SIZE ofs;
         mret (n =? ENTRY_SIZE)) k1.
Proof using Hc SectorLaws0.
  destruct Hc as [(pos & Hp) Hd Hok _ _ _ Ht _ Hlen [He _]]. unfold dir_add.
  erewrite K_run by (unfold pureK, cstring; rewrite Strings.strlen_run by done; reflexivity).
  rewrite bool_decide_eq_false_2 by (by destruct nm; cbn in *; [lia|]). cbn [orb].
  rewrite (proj2 (Z.ltb_ge NAME_MAX _)) by (unfold NAME_MAX; lia).
  destruct (lookup_run k p q pos i nm e0 Hp Hd Hok Ht He) as (k1 & Hr1 & Hq1).
  erewrite K_run by exact Hr1. exists k1. split; [done|].
  destruct (list_find (names nm) l); cbn [fmap option_fmap option_map].
  - by rewrite !bool_decide_eq_true_2 by eauto.
  - by rewrite !bool_decide_eq_false_2 by (by intros [? ?]).
Qed.

(** The new entry's name field. *)
Lemma copied_name (e : list Z) : length e = 20%nat → Forall is_byte e →
  ∃ nm', Strings.strlcpy (name e) (cstring nm) (NAME_MAX + 1) = Ret (Z.of_nat (length nm), nm') ∧
    length nm' = 15%nat ∧ Forall is_byte nm' ∧ Strings.c_str nm' = nm ∧ 0 ∈ nm'.
Proof using Hc.
  intros Hl Hb. destruct Hc as [_ _ _ _ _ _ Ht Hbn Hlen _].
  assert (length (name e) = 15%nat) as Hn by (unfold name; apply length_slice; lia).
  unfold cstring. rewrite Strings.strlcpy_fits by (try done; unfold NAME_MAX; lia).
  eexists. split; [reflexivity|]. split_and!.
  - rewrite length_app. cbn. rewrite length_drop. lia.
  - apply Forall_app_2; [done|]. constructor; [unfold is_byte; lia|].
    apply Forall_drop. unfold name. by apply Forall_slice.
  - by apply Strings.c_str_app.
  - apply elem_of_app. right. by left.
Qed.

(** What is left to do once the position and the entry variable are known. *)
Lemma dir_add_write sec k1 ofs e :
  kquiet k k1 → length e = 20%nat → Forall is_byte e →
  ∃ new, length new = 20%nat ∧ Forall is_byte new ∧
    ('(_, nm') ← pureK (Strings.strlcpy (name e) (cstring nm) (NAME_MAX + 1));
     n ← File.inode_write_at q (dir_entry sec nm' true) ENTRY_SIZE ofs;
     mret (n =? ENTRY_SIZE) : K St bool) k1 =
    (n ← File.inode_write_at q new 20 ofs; mret (n =? 20)) k1 ∧
    names nm new ∧ entry_ok new ∧ inode_sector new = u32 sec.
Proof using Hc.
  intros _ He Hb. destruct (copied_name e He Hb) as (nm' & Hcp & Hl' & Hb' & Hcs & H0).
  exists (dir_entry sec nm' true). split; [by apply length_entry|]. split; [by apply dir_entry_bytes|].
  split; [by erewrite K_run by (unfold pureK; rewrite Hcp; reflexivity)|].
  split; [split; [by apply in_use_entry|by rewrite name_entry]|].
  split; [intros _; by rewrite name_entry|apply sector_entry].
Qed.

Lemma dir_add_fresh sec j free :
  list_find (names nm) l = None → list_find unused l = Some (j, free) →
  ∃ k' new, dir_add e0 p nm sec k = Ret (true, k') ∧ inode_file k' q i ∧
    slots (s_view (store (inodes k'))) (data i) = <[j := new]> l ∧
    names nm new ∧ entry_ok new ∧ inode_sector new = u32 sec ∧
    heap (inodes k') = heap (inodes k) ∧
    (∀ x, s_free (store (inodes k')) x = s_free (store (inodes k)) x) ∧
    (owned (store (inodes k)) (sector i) (data i) → owned (store (inodes k')) (sector i) (data i)).
Proof using Hc SectorLaws0.
  intros Hnone Hfree. destruct (dir_add_start sec) as (k1 & Hq1 & ->).
  pose proof Hc as [(pos & Hp) Hd Hok Hdeny Hmem Hroom Ht Hb Hlen [He _]].
  rewrite Hnone, bool_decide_eq_false_2 by (by intros [? ?]).
  pose proof (inode_file_quiet k k1 q i Hd Hq1) as Hd1. pose proof (slots_quiet k k1 q i Hd Hq1) as Hs1.
  assert (dirs k1 = dirs k ∧ mallocs k1 = mallocs k ∧ heap (inodes k1) = heap (inodes k)) as (Hdirs & Hmal & Hheap)
    by (by apply kquiet_same).
  erewrite K_run by (apply get_dir_run; by rewrite Hdirs). cbn [d_inode].
  destruct (entry_fuel_run k1 q i Hd1) as [Hef Hfu]. erewrite K_run by exact Hef.
  destruct (slot_loop_run (S (Z.to_nat (length_ (data i)))) k1 q i e0 0 j free) as (k2 & Hr2 & Hq2);
    [exact Hd1|exact He|lia|lia|rewrite Hs1; exact Hfree|].
  change (20 * 0) with 0 in Hr2. erewrite K_run by exact Hr2. cbn beta iota. rewrite Z.add_0_l.
  apply list_find_Some in Hfree as (Hj & Hun & _). pose proof (lookup_lt_Some _ _ _ Hj) as Hjl.
  pose proof (length_slots (s_view (store (inodes k))) (data i)) as Hll.
  assert (free = slot (s_view (store (inodes k))) (data i) (Z.of_nat j)) as Hfr.
  { rewrite <- (Nat2Z.id j), lookup_slots in Hj by lia. by injection Hj. }
  assert (kquiet k k2) as Hq02 by (by eapply kquiet_trans).
  destruct (dir_add_write sec k2 (20 * Z.of_nat j) free Hq02) as (new & Hnl & Hnb & -> & Hnm & Hno & Hsec).
  { rewrite Hfr. apply length_slot. }
  { rewrite Hfr. apply (slot_bytes k q i); [done|lia]. }
  pose proof (inode_file_quiet k k2 q i Hd Hq02) as Hd2.
  destruct (kquiet_same k k2 Hq02) as (_ & Hmal2 & Hheap2). pose proof Hq02 as [Hqs _].
  pose proof (f_len _ _ (if_file _ _ _ Hd)). unfold nslots in Hll.
  pose proof (Z.div_mod (length_ (data i)) 20 ltac:(lia)).
  pose proof (Z.mod_pos_bound (length_ (data i)) 20 ltac:(lia)).
  destruct (inode_write_K k2 q i new (20 * Z.of_nat j) Hd2 Hdeny) as (st' & Hr3 & Hw).
  { by rewrite Hmal2. } { lia. } { done. } { lia. } { rewrite (q_room _ _ Hqs). lia. }
  rewrite Hnl in Hr3, Hw. change (Z.of_nat 20) with 20 in *. erewrite K_run by exact Hr3.
  eexists _, new. split; [reflexivity|].
  split; [by eapply inode_file_written|]. cbn [inodes with_inodes store with_store heap].
  split; [|split; [exact Hnm|split; [exact Hno|split; [exact Hsec|split; [exact Hheap2|split]]]]].
  - rewrite (slots_written _ _ _ _ _ Hw); [|unfold nslots; lia|exact Hnl].
    by rewrite Nat2Z.id, (slots_quiet k k2 q i Hd Hq02).
  - intros x. by rewrite (bk_free _ _ (wt_books _ _ _ _ _ _ _ Hw)), (q_free _ _ Hqs).
  - intros How. pose proof (owned_quiet k k2 q i Hd Hq02 How) as How2.
    destruct (written_owned (store (inodes k2)) st' (sector i) (data i) new 20 (20 * Z.of_nat j) 0) as [H3 _];
      [apply (f_map _ _ (if_file _ _ _ Hd2))|exact How2|exact Hw|exact H3].
Qed.
(** Without a free slot the entry goes behind the last one; the file grows, by a
    block if it must, or the disk is full and nothing changes. *)
Lemma dir_add_append `{!AllocLaws St} sec :
  owned (store (inodes k)) (sector i) (data i) →
  list_find (names nm) l = None → list_find unused l = None →
  (needs_block (length_ (data i)) (append_end (data i)) = true →
     bytes_to_sectors (length_ (data i)) < 12) →
  ∃ ok d' new k' e, dir_add e0 p nm sec k = Ret (ok, k') ∧
    inode_file k' q (set_data i d') ∧ owned (store (inodes k')) (sector i) d' ∧
    heap (inodes k') = <[q := set_data i d']> (heap (inodes k)) ∧
    (∀ x, s_free (store (inodes k')) x =
       if bool_decide (new = Some x) then false else s_free (store (inodes k)) x) ∧
    if ok : bool then
      slots (s_view (store (inodes k'))) d' = l ++ [e] ∧ names nm e ∧ entry_ok e ∧
      inode_sector e = u32 sec ∧ s_view (store (inodes k')) (sector i) = disk_encode d' ∧
      (is_Some new ↔ needs_block (length_ (data i)) (append_end (data i)) = true) ∧
      ∀ x, new = Some x → s_free (store (inodes k)) x = true
    else d' = data i ∧ slots (s_view (store (inodes k'))) d' = l ∧ new = None ∧
      needs_block (length_ (data i)) (append_end (data i)) = true ∧
      ∀ x, s_free (store (inodes k)) x = false.
Proof using Hc SectorLaws0.
  intros How Hnone Hfree H12. destruct (dir_add_start sec) as (k1 & Hq1 & ->).
  pose proof Hc as [(pos & Hp) Hd Hok Hdeny Hmem Hroom Ht Hb Hlen [He Heb]].
  rewrite Hnone, bool_decide_eq_false_2 by (by intros [? ?]).
  pose proof (inode_file_quiet k k1 q i Hd Hq1) as Hd1. pose proof (slots_quiet k k1 q i Hd Hq1) as Hs1.
  destruct (kquiet_same k k1 Hq1) as (Hdirs & Hmal & Hheap).
  erewrite K_run by (apply get_dir_run; by rewrite Hdirs). cbn [d_inode].
  destruct (entry_fuel_run k1 q i Hd1) as [Hef Hfu]. erewrite K_run by exact Hef.
  pose proof (if_file _ _ _ Hd) as Hf0. pose proof (f_len _ _ Hf0) as Hlen0. pose proof (file_small _ _ Hf0) as Hsm.
  assert (0 ≤ nslots (data i) ∧ 20 * nslots (data i) ≤ length_ (data i) < append_end (data i)) as [Hn0 Hn].
  { unfold append_end, nslots. pose proof (Z.div_mod (length_ (data i)) 20 ltac:(lia)).
    pose proof (Z.mod_pos_bound (length_ (data i)) 20 ltac:(lia)).
    pose proof (Z.div_pos (length_ (data i)) 20 ltac:(lia) ltac:(lia)). lia. }
  destruct (slot_loop_end (S (Z.to_nat (length_ (data i)))) k1 q i e0 0) as (e1 & k2 & Hr2 & Hq2 & Hl1 & Hb1);
    [exact Hd1|exact He|exact Heb|lia|lia|rewrite Hs1; exact Hfree|].
  change (20 * 0) with 0 in Hr2. erewrite K_run by exact Hr2. cbn beta iota.
  assert (kquiet k k2) as Hq02 by (by eapply kquiet_trans).
  destruct (dir_add_write sec k2 (20 * nslots (data i)) e1 Hq02 Hl1 Hb1)
    as (new & Hnl & Hnb & -> & Hnm & Hno & Hsec).
  pose proof (inode_file_quiet k k2 q i Hd Hq02) as Hd2.
  destruct (kquiet_same k k2 Hq02) as (_ & Hmal2 & Hheap2). pose proof Hq02 as [Hqs _].
  assert (owned (store (inodes k2)) (sector i) (data i)) as How2.
  { apply (owned_local (store (inodes k))); [apply Hf0| | |exact How].
    - intros a x Ha Hx. apply (q_view _ _ Hqs). by apply (m_index _ _ _ (f_map _ _ Hf0) a).
    - intros x. by rewrite (q_free _ _ Hqs). }
  unfold append_end in *.
  destruct (inode_append_K k2 q i new (20 * nslots (data i)) Hd2 How2 Hdeny) as (n & d' & st' & Hr3 & Hres);
    rewrite ?Hnl; change (Z.of_nat 20) with 20 in *.
  { by rewrite Hmal2. } { lia. } { done. } { lia. } { unfold MAX_BLOCKS in Hsm. lia. }
  { intros Hnb'. split; [|by apply H12]. by apply needs_one_block; [lia|lia|]. }
  { rewrite (q_room _ _ Hqs). lia. }
  rewrite Hnl in Hr3, Hres. change (Z.of_nat 20) with 20 in *. erewrite K_run by exact Hr3.
  destruct Hres as [(-> & -> & Hq3 & Hnb' & Hno') | (-> & blk & st1 & Hg & Hblk & Hw)].
  - exists false, (data i), None. eexists _, new. split; [reflexivity|].
    assert (set_data i (data i) = i) as Hid by (by destruct i). rewrite Hid.
    assert (kquiet k2 (with_inodes k2 (put_inode (with_store (inodes k2) st') q i))) as Hq4.
    { constructor; [exact Hq3|]. cbn. unfold put_inode, with_store. cbn.
      by rewrite insert_id by apply Hd2. }
    pose proof (kquiet_trans _ _ _ Hq02 Hq4) as Hq04. pose proof Hq04 as [Hqs4 _].
    split; [by eapply inode_file_quiet|]. split; [|split; [|split; [|split; [done|split; [|split; [done|split; [done|]]]]]]].
    + apply (owned_local (store (inodes k2))); [apply Hd2| | |exact How2].
      * intros a x Ha Hx. apply (q_view _ _ Hq3). by apply (m_index _ _ _ (f_map _ _ (if_file _ _ _ Hd2)) a).
      * intros x. by rewrite (q_free _ _ Hq3).
    + cbn. by rewrite Hheap2.
    + intros x. rewrite bool_decide_eq_false_2 by done. apply (q_free _ _ Hqs4).
    + exact (slots_quiet k _ q i Hd Hq04).
    + intros x. by rewrite <- (q_free _ _ Hqs).
  - exists true, d', blk. eexists _, new. split; [reflexivity|].
    destruct (written_owned st1 st' (sector i) d' new 20 (20 * nslots (data i)) 0) as [How' Hin];
      [apply (gr_file _ _ _ _ _ _ _ Hg)|apply (gr_owned _ _ _ _ _ _ _ Hg)|exact Hw|].
    cbn [inodes with_inodes store put_inode with_store heap].
    split; [constructor; cbn; [apply Hw|apply lookup_insert_eq|]|].
    { constructor; [apply (f_len _ _ (gr_file _ _ _ _ _ _ _ Hg))|apply Hw]. }
    split; [exact How'|]. split; [by rewrite Hheap2|]. split.
    { intros x. rewrite (bk_free _ _ (wt_books _ _ _ _ _ _ _ Hw)), (gr_free _ _ _ _ _ _ _ Hg).
      by rewrite (q_free _ _ Hqs). }
    split; [|split; [done|split; [done|split; [done|split; [|split; [exact Hblk|]]]]]].
    + rewrite (slots_appended (store (inodes k2)) st1 st' (data i) d' (sector i) blk new);
        [|apply Hd2|exact Hnl|lia|exact Hg|exact Hw].
      by rewrite (slots_quiet k k2 q i Hd Hq02).
    + rewrite Hin. apply (gr_inode _ _ _ _ _ _ _ Hg).
    + intros x Hx. rewrite <- (q_free _ _ Hqs). by apply (gr_new _ _ _ _ _ _ _ Hg).
Qed.
End add.

(** C34. [dir_add] looks for the name, then for a free slot, and otherwise
    appends behind the last entry, growing the directory's file; the theorem is
    for directories whose next entry does not need an indirect block, that is,
    with a free slot, or with room in the last sector, or of fewer than 12
    sectors.  It succeeds exactly when the name is not yet in use and there is
    room: a free slot, space in the last sector, or a free sector on the disk.
    After a success the directory maps the name to the sector and every other
    name as before; after a failure every name is mapped as before.  The entries
    stay well formed, and apart from the directory's inode, whose new length is
    also on disk, and the sector that was allocated, if a new one was needed, the
    table of inodes and the free map are unchanged. *)
Theorem dir_add_maps `{!AllocLaws St} (k : kst St) (p q : nat) (i : inode) (nm e0 : list Z) (sec : Z)
    (Hc : dir_call k p q i nm e0) (How : owned (store (inodes k)) (sector i) (data i))
    (H12 : list_find unused (slots (s_view (store (inodes k))) (data i)) = None →
       needs_block (length_ (data i)) (append_end (data i)) = true →
       bytes_to_sectors (length_ (data i)) < 12) :
  let l := slots (s_view (store (inodes k))) (data i) in
  let grows := list_find unused l = None ∧
    needs_block (length_ (data i)) (append_end (data i)) = true in
  ∃ ok d' new k', dir_add e0 p nm sec k = Ret (ok, k') ∧
    inode_file k' q (set_data i d') ∧ owned (store (inodes k')) (sector i) d' ∧
    let l' := slots (s_view (store (inodes k'))) d' in
    entries_ok l' ∧
    (ok = true ↔ dir_find l nm = None ∧ (grows → ∃ x, s_free (store (inodes k)) x = true)) ∧
    (∀ nm', dir_find l' nm' =
       if ok && bool_decide (nm' = nm) then Some (u32 sec) else dir_find l nm') ∧
    heap (inodes k') = <[q := set_data i d']> (heap (inodes k)) ∧
    (d' = data i ∨ s_view (store (inodes k')) (sector i) = disk_encode d') ∧
    (is_Some new ↔ ok = true ∧ grows) ∧
    (∀ x, new = Some x → s_free (store (inodes k)) x = true) ∧
    ∀ x, s_free (store (inodes k')) x =
      if bool_decide (new = Some x) then false else s_free (store (inodes k)) x.
Proof.
  intros l grows.
  pose proof (dc_file _ _ _ _ _ _ Hc) as Hd. pose proof (dc_ok _ _ _ _ _ _ Hc) as Hok. fold l in Hok.
  assert (set_data i (data i) = i) as Hid by (by destruct i).
  destruct (list_find (names nm) l) as [x|] eqn:Hfind.
  - destruct (dir_add_start k p q i nm e0 Hc sec) as (k1 & Hq1 & ->). fold l.
    rewrite Hfind, bool_decide_eq_true_2 by eauto. exists false, (data i), None, k1. split; [done|].
    rewrite Hid. split; [by eapply inode_file_quiet|]. split; [by eapply owned_quiet|].
    cbn zeta. rewrite (slots_quiet k k1 q i Hd Hq1). fold l.
    rewrite dir_find_None, Hfind. split; [done|]. split; [by split; [|intros [? _]]|]. split; [done|].
    destruct (kquiet_same _ _ Hq1) as (_ & _ & ->). split; [by rewrite insert_id by apply Hd|].
    split; [by left|]. split; [by split; [intros [? ?]|intros [? _]]|]. split; [done|].
    intros y. rewrite bool_decide_eq_false_2 by done. apply Hq1.
  - destruct (list_find unused l) as [[j free]|] eqn:Hfree.
    + destruct (dir_add_fresh k p q i nm e0 Hc sec j free Hfind Hfree)
        as (k' & new & Hr & Hd' & Hs & Hn & Hno & Hsec & Hh & Hfm & How').
      exists true, (data i), None, k'. split; [done|]. rewrite Hid. split; [done|]. split; [by apply How'|].
      cbn zeta. rewrite Hs. fold l.
      apply list_find_Some in Hfree as (Hj & Hun & _). rewrite dir_find_None.
      split; [by apply Forall_insert|]. split; [by split; [|intros _]; [split; [done|intros [? _]]|]|].
      split; [|split; [by rewrite Hh, insert_id by apply Hd|split; [by left|split; [|split; [done|]]]]].
      * intros nm'. cbn [andb]. by eapply dir_find_inserted.
      * by split; [intros [? ?]|intros (_ & ? & _)].
      * intros y. rewrite bool_decide_eq_false_2 by done. apply Hfm.
    + destruct (dir_add_append k p q i nm e0 Hc sec How Hfind Hfree (H12 Hfree))
        as (ok & d' & new & k' & e & Hr & Hd' & How' & Hh & Hfm & Hres).
      exists ok, d', new, k'. split; [done|]. split; [done|]. split; [done|]. cbn zeta.
      rewrite dir_find_None. destruct ok.
      * destruct Hres as (Hs & Hn & Hno & Hsec & Hin & Hnew & Hnf). rewrite Hs. fold l.
        split; [by apply Forall_app_2; [|apply Forall_singleton]|].
        split; [split; [|done]|]. { intros _. split; [done|]. intros [_ Hnb].
          destruct (proj2 Hnew Hnb) as [x Hx]. exists x. by apply Hnf. }
        split; [intros nm'; cbn [andb]; by apply dir_find_appended|]. split; [done|]. split; [by right|].
        split; [|split; [exact Hnf|exact Hfm]]. rewrite Hnew. unfold grows. naive_solver.
      * destruct Hres as (-> & Hs & -> & Hnb & Hno). rewrite Hs. fold l. split; [done|].
        split; [split; [done|]|]. { intros [_ Hx]. destruct (Hx (conj eq_refl Hnb)) as [x Hx'].
          by rewrite Hno in Hx'. }
        split; [done|]. split; [done|]. split; [by left|]. split; [|split; [done|exact Hfm]].
        by split; [intros [? ?]|intros [? _]].
Qed.
End proofs.
End DirProofs.
