(* ===== verification/Filesys.v ===== *)
(** * Paths and file system calls ([filesys/filesys.c])

    Path resolution through directories and symbolic links, and the calls that
    create, open, remove and link files.  A path is the characters of its C
    string; a null path is not modelled, the system calls reject it.  The kernel
    is built with user programs, so every thread has a working directory. *)

From stdpp Require Import base tactics numbers list list_numbers option gmap.
From S2P Require Import Prelude Strings Inode File Directory.

Open Scope Z_scope.

(** ** What the file system calls of the log *)

Class TxnStore (St : Type) := {
  wal_txn_begin : bool → St → outcome (option nat * St);
  wal_txn_commit : nat → St → outcome St;
  wal_txn_abort : bool → bool → nat → St → outcome St;
  wal_set_current_txn : option nat → St → St
}.

Module Filesys.
Import Directory.

Definition MAX_PATH_COMPONENTS : Z := 16.
Definition MAX_SYMLINK_DEPTH : Z := 8.
Definition MAX_SYMLINK_TARGET_LEN : Z := 4096.

Definition slash : Z := 47.

(** ** Splitting paths *)

(** The loop that skips leading slashes, from the contents [p] at offset [s]. *)
Fixpoint skip_slashes (p : list Z) (s : Z) : outcome Z :=
  match p with
  | [] => UB
  | c :: p => if c =? slash then skip_slashes p (s + 1) else Ret s
  end.

(** The components, or nothing when there are too many. *)
Definition components (skip : bool) (path : list Z) : outcome (option (list (list Z))) :=
  let m := cstring path in
  s ← (if skip then skip_slashes m 0 else Ret 0);
  '(r, m) ← Strings.collect_tokens (S (length m)) MAX_PATH_COMPONENTS [slash; 0] m s [];
  Ret (match r with
       | None => None
       | Some offs => Some (map (λ o, Strings.c_str (drop (Z.to_nat o) m)) offs)
       end).

Fixpoint comp_lengths (l : list (list Z)) : outcome Z :=
  match l with
  | [] => Ret 0
  | c :: l => n ← Strings.strlen (cstring c); m ← comp_lengths l; Ret (n + 1 + m)
  end.

(** [strlcat (buf, "/", size); strlcat (buf, c, size);] for every component *)
Fixpoint append_comps (buf : list Z) (l : list (list Z)) (size : Z) : outcome (list Z) :=
  match l with
  | [] => Ret buf
  | c :: l =>
      '(_, buf) ← Strings.strlcat buf [slash; 0] size;
      '(_, buf) ← Strings.strlcat buf (cstring c) size;
      append_comps buf l size
  end.

(** The link's target followed by the components that remain; [junk] is what the
    allocated buffer holds. *)
Definition link_path (junk : Z) (target : list Z) (rest : list (list Z)) : outcome (list Z) :=
  more ← comp_lengths rest;
  let new_path_len := Z.of_nat (length target) + 1 + more in
  '(_, buf) ← Strings.strlcpy (replicate (Z.to_nat (new_path_len + 1)) junk) (cstring target) (new_path_len + 1);
  buf ← append_comps buf rest (new_path_len + 1);
  Ret (Strings.c_str buf).

(** The components joined by slashes. *)
Definition join_path (junk : Z) (l : list (list Z)) : outcome (list Z) :=
  more ← comp_lengths l;
  let remaining_len := 1 + more in
  buf ← array_set (replicate (Z.to_nat (remaining_len + 1)) junk) 0 0;
  match l with
  | [] => Ret (Strings.c_str buf)
  | c :: l =>
      '(_, buf) ← Strings.strlcat buf (cstring c) (remaining_len + 1);
      buf ← append_comps buf l (remaining_len + 1);
      Ret (Strings.c_str buf)
  end.

Section fs.
Context {St : Type} `{!Store St} `{!TxnStore St}.
(** What uninitialised entry variables and allocated buffers hold. *)
Variable e0 : list Z.
Variable junk : Z.

Definition is_str (a b : list Z) : K St bool :=
  r ← pureK (Strings.strcmp (cstring a) (cstring b)); mret (r =? 0).

(** A resolved path: the parent directory and the final name. *)
Definition resolved : Type := option (nat * list Z).

Definition get_start_dir (path : list Z) : K St (option nat) :=
  match path with
  | [] => mret None
  | c :: _ =>
      if c =? slash then dir_open_root
      else
        k ← getK;
        match cwd k with
        | Some d =>
            i ← dir_get_inode d;
            removed ← askK (Inode.inode_is_removed i);
            if removed : bool then mret None else dir_reopen (Some d)
        | None => dir_open_root
        end
  end.

(** [".."]: to the parent if the directory has one; nothing when the parent
    cannot be opened, with the directory closed. *)
Definition go_parent (cur : nat) : K St (option nat) :=
  r ← dir_lookup e0 cur dotdot;
  match r with
  | None => mret (Some cur)
  | Some _ =>
      p ← dir_open r;
      dir_close (Some cur);;
      mret p
  end.

(** Into the directory of inode [i]. *)
Definition go_child (cur i : nat) : K St (option nat) :=
  dir ← askK (Inode.inode_is_dir i);
  if negb dir then
    inodesK' (Inode.inode_close (Some i));; dir_close (Some cur);; mret None
  else
    p ← dir_open (Some i);
    dir_close (Some cur);;
    mret p.

(** The target of the symbolic link [i], which is closed. *)
Definition read_target (i : nat) : K St (option (list Z)) :=
  target_len ← askK (Inode.inode_length i);
  if (target_len <=? 0) || (MAX_SYMLINK_TARGET_LEN <? target_len) then
    inodesK' (Inode.inode_close (Some i));; mret None
  else
    ok ← malloc;
    if negb ok then inodesK' (Inode.inode_close (Some i));; mret None
    else
      b ← inodesK (Inode.inode_read_at i target_len 0);
      inodesK' (Inode.inode_close (Some i));;
      if negb (Z.of_nat (length b) =? target_len) then mret None else mret (Some b).

(** The final component: too long, or the result. *)
Definition finish (cur : nat) (comp : list Z) : K St resolved :=
  len ← pureK (Strings.strlen (cstring comp));
  if NAME_MAX <? len then dir_close (Some cur);; mret None
  else mret (Some (cur, comp)).

(** The components of a relative link target, from the directory [cur] of the
    link; a further link is handed to [parse] with the remaining components. *)
Fixpoint walk_target (parse : list Z → K St resolved) (comps : list (list Z)) (cur : nat)
    : K St resolved :=
  match comps with
  | [] => pureK UB
  | [comp] => finish cur comp
  | comp :: rest =>
      d ← is_str comp dot;
      if d : bool then walk_target parse rest cur
      else
        dd ← is_str comp dotdot;
        if dd : bool then
          r ← go_parent cur;
          match r with None => mret None | Some cur => walk_target parse rest cur end
        else
          i ← dir_lookup e0 cur comp;
          match i with
          | None => dir_close (Some cur);; mret None
          | Some i =>
              link ← askK (Inode.inode_is_symlink i);
              if link : bool then
                ok ← malloc;
                if negb ok then
                  inodesK' (Inode.inode_close (Some i));; dir_close (Some cur);; mret None
                else
                  remaining ← pureK (join_path junk comps);
                  inodesK' (Inode.inode_close (Some i));;
                  r ← parse remaining;
                  dir_close (Some cur);;
                  mret r
              else
                r ← go_child cur i;
                match r with None => mret None | Some cur => walk_target parse rest cur end
          end
  end.

(** A symbolic link in the middle of a path, with the components after it. *)
Definition follow_link (parse : list Z → K St resolved) (i cur : nat) (rest : list (list Z))
    : K St resolved :=
  t ← read_target i;
  match t with
  | None => dir_close (Some cur);; mret None
  | Some target =>
      ok ← malloc;
      if negb ok then dir_close (Some cur);; mret None
      else
        new_path ← pureK (link_path junk target rest);
        if match new_path with c :: _ => c =? slash | [] => false end then
          dir_close (Some cur);; parse new_path
        else
          ok ← malloc;
          if negb ok then dir_close (Some cur);; mret None
          else
            comps ← pureK (components false new_path);
            match comps with
            | None => dir_close (Some cur);; mret None
            | Some [] => mret (Some (cur, []))
            | Some comps => walk_target parse comps cur
            end
  end.

Fixpoint walk (parse : list Z → K St resolved) (comps : list (list Z)) (cur : nat) : K St resolved :=
  match comps with
  | [] => pureK UB
  | [comp] => finish cur comp
  | comp :: rest =>
      d ← is_str comp dot;
      if d : bool then walk parse rest cur
      else
        dd ← is_str comp dotdot;
        if dd : bool then
          r ← go_parent cur;
          match r with None => mret None | Some cur => walk parse rest cur end
        else
          i ← dir_lookup e0 cur comp;
          match i with
          | None => dir_close (Some cur);; mret None
          | Some i =>
              link ← askK (Inode.inode_is_symlink i);
              if link : bool then follow_link parse i cur rest
              else
                r ← go_child cur i;
                match r with None => mret None | Some cur => walk parse rest cur end
          end
  end.

(** [fuel] bounds the recursion, which [symlink_depth] stops. *)
Fixpoint parse_path_recursive (fuel : nat) (symlink_depth : Z) (path : list Z) : K St resolved :=
  match fuel with
  | O => pureK UB
  | S fuel =>
      if bool_decide (path = []) then mret None
      else if MAX_SYMLINK_DEPTH <? symlink_depth then mret None
      else
        ok ← malloc;
        if negb ok then mret None
        else
          cur ← get_start_dir path;
          match cur with
          | None => mret None
          | Some cur =>
              root ← is_str path [slash];
              if root : bool then mret (Some (cur, []))
              else
                comps ← pureK (components true path);
                match comps with
                | None => dir_close (Some cur);; mret None
                | Some [] => mret (Some (cur, []))
                | Some comps => walk (parse_path_recursive fuel (symlink_depth + 1)) comps cur
                end
          end
  end.

Definition parse_path (path : list Z) : K St resolved := parse_path_recursive 10 0 path.

(** ** Transactions around a call *)

Definition begin_txn : K St (option nat) :=
  ok ← malloc;
  txn ← storeK (wal_txn_begin ok);
  match txn with
  | Some _ => storeK' (λ st, Ret (wal_set_current_txn txn st));; mret txn
  | None => mret txn
  end.

Definition end_txn (txn : option nat) (success : bool) : K St unit :=
  match txn with
  | None => mret tt
  | Some t =>
      (if success then storeK' (wal_txn_commit t)
       else lsns ← malloc; rec ← malloc; storeK' (wal_txn_abort lsns rec t));;
      storeK' (λ st, Ret (wal_set_current_txn None st))
  end.

(** ** The calls *)

Definition filesys_create (path : list Z) (initial_size : Z) : K St bool :=
  r ← parse_path path;
  match r with
  | None => mret false
  | Some (parent_dir, []) => dir_close (Some parent_dir);; mret false
  | Some (parent_dir, final_name) =>
      txn ← begin_txn;
      s ← storeK free_map_allocate_one;
      success ← match s with
                | None => mret false
                | Some sec =>
                    calloc ← malloc;
                    ok ← storeK (Inode.inode_create calloc sec initial_size);
                    if ok : bool then dir_add e0 parent_dir final_name sec else mret false
                end;
      let inode_sector := default 0 s in
      (if negb success && negb (inode_sector =? 0) then storeK' (free_map_release inode_sector)
       else mret tt);;
      end_txn txn success;;
      dir_close (Some parent_dir);;
      mret success
  end.

(** The directory itself, as a file. *)
Definition open_dir_file (d : nat) : K St (option nat) :=
  i ← dir_get_inode d;
  i ← inodesK (Inode.inode_reopen (Some i));
  dir_close (Some d);;
  File.file_open i.

(** The components of a relative target in [filesys_open]; links in the middle
    are not followed here. *)
Fixpoint open_walk (comps : list (list Z)) (cur : nat) : K St resolved :=
  match comps with
  | [] => pureK UB
  | [comp] =>
      '(_, nm) ← pureK (Strings.strlcpy (replicate 15 junk) (cstring comp) (NAME_MAX + 1));
      mret (Some (cur, Strings.c_str nm))
  | comp :: rest =>
      d ← is_str comp dot;
      if d : bool then open_walk rest cur
      else
        dd ← is_str comp dotdot;
        if dd : bool then
          r ← go_parent cur;
          match r with None => mret None | Some cur => open_walk rest cur end
        else
          i ← dir_lookup e0 cur comp;
          match i with
          | None => dir_close (Some cur);; mret None
          | Some i =>
              r ← go_child cur i;
              match r with None => mret None | Some cur => open_walk rest cur end
          end
  end.

(** Where a link's target leads: the directory and name to look up next. *)
Definition open_target (target : list Z) (parent_dir : nat) : K St resolved :=
  if match target with c :: _ => c =? slash | [] => false end then
    dir_close (Some parent_dir);; parse_path (Strings.c_str (cstring target))
  else
    ok ← malloc;
    if negb ok then dir_close (Some parent_dir);; mret None
    else
      comps ← pureK (components false (Strings.c_str (cstring target)));
      match comps with
      | None => dir_close (Some parent_dir);; mret None
      | Some [] => mret (Some (parent_dir, []))
      | Some comps => open_walk comps parent_dir
      end.

(** The loop of [filesys_open] from inode [i] in [parent_dir]. *)
Fixpoint open_loop (fuel : nat) (symlink_depth : Z) (parent_dir i : nat) : K St (option nat) :=
  match fuel with
  | O => pureK UB
  | S fuel =>
      link ← askK (Inode.inode_is_symlink i);
      if negb link then dir_close (Some parent_dir);; File.file_open (Some i)
      else
        let symlink_depth := symlink_depth + 1 in
        if MAX_SYMLINK_DEPTH <? symlink_depth then
          inodesK' (Inode.inode_close (Some i));; dir_close (Some parent_dir);; mret None
        else
          t ← read_target i;
          match t with
          | None => dir_close (Some parent_dir);; mret None
          | Some target =>
              r ← open_target target parent_dir;
              match r with
              | None => mret None
              | Some (parent_dir, []) => open_dir_file parent_dir
              | Some (parent_dir, final_name) =>
                  i ← dir_lookup e0 parent_dir final_name;
                  match i with
                  | None => dir_close (Some parent_dir);; mret None
                  | Some i => open_loop fuel symlink_depth parent_dir i
                  end
              end
          end
  end.

Definition filesys_open (path : list Z) : K St (option nat) :=
  r ← parse_path path;
  match r with
  | None => mret None
  | Some (parent_dir, []) => open_dir_file parent_dir
  | Some (parent_dir, final_name) =>
      i ← dir_lookup e0 parent_dir final_name;
      match i with
      | None => dir_close (Some parent_dir);; mret None
      | Some i => open_loop 10 0 parent_dir i
      end
  end.

(** Whether [inode i] may be removed: a directory must be empty.  The inode is
    closed. *)
Definition removable (i : nat) : K St bool :=
  dir ← askK (Inode.inode_is_dir i);
  if dir : bool then
    target_dir ← dir_open (Some i);
    match target_dir with
    | None => mret false
    | Some t => empty ← dir_is_empty e0 t; dir_close target_dir;; mret empty
    end
  else inodesK' (Inode.inode_close (Some i));; mret true.

Definition filesys_remove (path : list Z) : K St bool :=
  r ← parse_path path;
  match r with
  | None => mret false
  | Some (parent_dir, []) => dir_close (Some parent_dir);; mret false
  | Some (parent_dir, final_name) =>
      d ← is_str final_name dot;
      dd ← (if d : bool then mret true else is_str final_name dotdot);
      if dd : bool then dir_close (Some parent_dir);; mret false
      else
        i ← dir_lookup e0 parent_dir final_name;
        match i with
        | None => dir_close (Some parent_dir);; mret false
        | Some i =>
            ok ← removable i;
            if negb ok then dir_close (Some parent_dir);; mret false
            else
              txn ← begin_txn;
              success ← dir_remove e0 parent_dir final_name;
              end_txn txn success;;
              dir_close (Some parent_dir);;
              mret success
        end
  end.

(** The inode a resolved path of [filesys_chdir] names; [parent_dir] is closed. *)
Definition chdir_inode (parent_dir : nat) (final_name : list Z) : K St (option nat) :=
  here ← (if bool_decide (final_name = []) then mret true else is_str final_name dot);
  if here : bool then
    i ← dir_get_inode parent_dir;
    i ← inodesK (Inode.inode_reopen (Some i));
    dir_close (Some parent_dir);;
    mret i
  else
    i ← dir_lookup e0 parent_dir final_name;
    dir_close (Some parent_dir);;
    mret i.

(** Follows links until something else is found. *)
Fixpoint chdir_loop (fuel : nat) (symlink_depth : Z) (i : nat) : K St (option nat) :=
  match fuel with
  | O => pureK UB
  | S fuel =>
      link ← askK (Inode.inode_is_symlink i);
      if negb link then mret (Some i)
      else
        let symlink_depth := symlink_depth + 1 in
        if MAX_SYMLINK_DEPTH <? symlink_depth then
          inodesK' (Inode.inode_close (Some i));; mret None
        else
          t ← read_target i;
          match t with
          | None => mret None
          | Some target =>
              r ← parse_path (Strings.c_str (cstring target));
              match r with
              | None => mret None
              | Some (parent_dir, []) =>
                  i ← dir_get_inode parent_dir;
                  i ← inodesK (Inode.inode_reopen (Some i));
                  dir_close (Some parent_dir);;
                  match i with None => pureK UB | Some i => chdir_loop fuel symlink_depth i end
              | Some (parent_dir, final_name) =>
                  i ← dir_lookup e0 parent_dir final_name;
                  dir_close (Some parent_dir);;
                  match i with None => mret None | Some i => chdir_loop fuel symlink_depth i end
              end
          end
  end.

Definition set_cwd (d : option nat) : K St unit := λ k, Ret (tt, with_cwd k d).

Definition filesys_chdir (dir_path : list Z) : K St bool :=
  r ← parse_path dir_path;
  match r with
  | None => mret false
  | Some (parent_dir, final_name) =>
      i ← chdir_inode parent_dir final_name;
      match i with
      | None => mret false
      | Some i =>
          i ← chdir_loop 10 0 i;
          match i with
          | None => mret false
          | Some i =>
              dir ← askK (Inode.inode_is_dir i);
              if negb dir then inodesK' (Inode.inode_close (Some i));; mret false
              else
                new_dir ← dir_open (Some i);
                match new_dir with
                | None => mret false
                | Some _ =>
                    k ← getK;
                    dir_close (cwd k);;
                    set_cwd new_dir;;
                    mret true
                end
          end
      end
  end.

(** Whether the name exists; what was found is closed again. *)
Definition name_taken (parent_dir : nat) (final_name : list Z) : K St bool :=
  existing ← dir_lookup e0 parent_dir final_name;
  match existing with
  | None => mret false
  | Some _ => inodesK' (Inode.inode_close existing);; mret true
  end.

(** Gives the inode of a failed [mkdir] or [symlink] up. *)
Definition discard_inode (sec : Z) : K St unit :=
  i ← File.inode_open sec;
  match i with
  | None => mret tt
  | Some q => inodesK' (Inode.inode_remove q);; inodesK' (Inode.inode_close i)
  end.

Definition filesys_mkdir (dir_path : list Z) : K St bool :=
  r ← parse_path dir_path;
  match r with
  | None => mret false
  | Some (parent_dir, []) => dir_close (Some parent_dir);; mret false
  | Some (parent_dir, final_name) =>
      d ← is_str final_name dot;
      dd ← (if d : bool then mret true else is_str final_name dotdot);
      if dd : bool then dir_close (Some parent_dir);; mret false
      else
        taken ← name_taken parent_dir final_name;
        if taken : bool then dir_close (Some parent_dir);; mret false
        else
          txn ← begin_txn;
          s ← storeK free_map_allocate_one;
          success ← match s with
                    | None => mret false
                    | Some new_sector =>
                        i ← dir_get_inode parent_dir;
                        parent_sector ← askK (Inode.inode_get_inumber i);
                        ok ← dir_create_with_parent e0 new_sector parent_sector 16;
                        if negb ok then storeK' (free_map_release new_sector);; mret false
                        else
                          ok ← dir_add e0 parent_dir final_name new_sector;
                          if negb ok then discard_inode new_sector;; mret false else mret true
                    end;
          end_txn txn success;;
          dir_close (Some parent_dir);;
          mret success
  end.

Definition filesys_link (oldpath newpath : list Z) : K St bool :=
  r ← parse_path oldpath;
  match r with
  | None => mret false
  | Some (src_dir, []) => dir_close (Some src_dir);; mret false
  | Some (src_dir, src_name) =>
      src ← dir_lookup e0 src_dir src_name;
      dir_close (Some src_dir);;
      match src with
      | None => mret false
      | Some src_inode =>
          dir ← askK (Inode.inode_is_dir src_inode);
          removed ← (if dir : bool then mret true else askK (Inode.inode_is_removed src_inode));
          if removed : bool then inodesK' (Inode.inode_close src);; mret false
          else
            r ← parse_path newpath;
            match r with
            | None => inodesK' (Inode.inode_close src);; mret false
            | Some (dst_dir, []) =>
                dir_close (Some dst_dir);; inodesK' (Inode.inode_close src);; mret false
            | Some (dst_dir, dst_name) =>
                taken ← name_taken dst_dir dst_name;
                if taken : bool then
                  dir_close (Some dst_dir);; inodesK' (Inode.inode_close src);; mret false
                else
                  txn ← begin_txn;
                  src_sector ← askK (Inode.inode_get_inumber src_inode);
                  success ← dir_add e0 dst_dir dst_name src_sector;
                  (if success : bool then inodesK' (Inode.inode_inc_nlink src_inode) else mret tt);;
                  end_txn txn success;;
                  dir_close (Some dst_dir);;
                  inodesK' (Inode.inode_close src);;
                  mret success
            end
      end
  end.

Definition filesys_symlink (target linkpath : list Z) : K St bool :=
  r ← parse_path linkpath;
  match r with
  | None => mret false
  | Some (parent_dir, []) => dir_close (Some parent_dir);; mret false
  | Some (parent_dir, link_name) =>
      taken ← name_taken parent_dir link_name;
      if taken : bool then dir_close (Some parent_dir);; mret false
      else
        txn ← begin_txn;
        s ← storeK free_map_allocate_one;
        success ← match s with
                  | None => mret false
                  | Some inode_sector =>
                      m1 ← malloc; m2 ← malloc; m3 ← malloc;
                      ok ← inodesK (Inode.inode_create_symlink m1 m2 m3 inode_sector target);
                      if negb ok then storeK' (free_map_release inode_sector);; mret false
                      else
                        ok ← dir_add e0 parent_dir link_name inode_sector;
                        if negb ok then discard_inode inode_sector;; mret false else mret true
                  end;
        end_txn txn success;;
        dir_close (Some parent_dir);;
        mret success
  end.

(** The bytes placed in the buffer, or nothing for -1. *)
Definition filesys_readlink (path : list Z) (bufsize : Z) : K St (option (list Z)) :=
  r ← parse_path path;
  match r with
  | None => mret None
  | Some (parent_dir, []) => dir_close (Some parent_dir);; mret None
  | Some (parent_dir, final_name) =>
      i ← dir_lookup e0 parent_dir final_name;
      dir_close (Some parent_dir);;
      match i with
      | None => mret None
      | Some q =>
          link ← askK (Inode.inode_is_symlink q);
          if negb link then inodesK' (Inode.inode_close i);; mret None
          else
            target_len ← askK (Inode.inode_length q);
            let len := u32 target_len in
            b ← inodesK (Inode.inode_read_at q (s32 (if len <? bufsize then len else bufsize)) 0);
            inodesK' (Inode.inode_close i);;
            mret (Some b)
      end
  end.
End fs.
End Filesys.
