(* ===== verification/FsDemo.v ===== *)
(** * A concrete directory and file

    The theorems on files applied to the machine of [Volume], with an inode of 700
    zero bytes in sectors 67 and 68 as an open file; the theorem on directories
    applied to a mounted volume with an empty directory, whose first entry takes
    the last free sector. *)

From stdpp Require Import base tactics numbers list list_numbers option gmap.
From S2P Require Import Prelude Block Bitmap FreeMap Strings Wal WalTxn Inode InodeProofs Volume File FileProofs Directory DirProofs.

Open Scope Z_scope.

Module FsDemo.
Import Inode InodeProofs FileProofs Directory DirProofs Volume.

Definition demo_inode : inode := mk_inode 69 1 false false 0 demo_disk.

Definition demo_kernel : kst Wal.wst :=
  mk_kst _ demo_table {[ 1%nat := mk_file 0 400 false 2 ]} {[ 0%nat := mk_dir 0 0 ]} 2 [] None.

#[local] Instance demo_model : SectorModel Wal.wst := wal_model 70.

Lemma demo_inode_file : inode_file demo_kernel 0 demo_inode.
Proof. constructor; [exact volume_demo_inv|reflexivity|exact demo_file]. Qed.

(** Every byte of the demo disk is zero. *)
Lemma demo_byte d x : default 0 (file_byte (s_view (store demo_table)) d x) = 0.
Proof.
  unfold file_byte. change (s_view (store demo_table)) with (Cache.Cache.cview WalTxn.demo_fs).
  rewrite (proj2 WalTxn.demo_cache). unfold WalTxn.demo_sectors.
  generalize (Z.to_nat (bmap (Cache.Cache.cview WalTxn.demo_fs) d (x / 512))), (Z.to_nat (x mod 512)). intros n m.
  destruct (decide (n < 70)%nat) as [Hn|Hn].
  - rewrite lookup_total_replicate_2 by done. destruct (replicate 512 0 !! m) eqn:H; [|done].
    by apply lookup_replicate in H as [-> _].
  - rewrite list_lookup_total_alt, (lookup_ge_None_2 (replicate 70 (replicate 512 0)) n); [done|].
    rewrite length_replicate. lia.
Qed.

(** ** An empty directory on a mounted volume *)

(** Sectors 0 to 68 are in use; the free map's file is in sector 67 and the inode
    of the directory in sector 68. *)
Definition demo_volume : volume :=
  mk_volume WalTxn.demo
    (FreeMap.mk_fm (Bitmap.mk_bitmap 70 [2 ^ 32 - 1; 2 ^ 32 - 1; 31]) true)
    (mk_inode 0 1 false true 0
       (mk_disk (67 :: replicate 11 0) 0 0 12 INODE_TYPE_FILE 1 INODE_MAGIC (replicate 110 0))).

#[local] Instance demo_volume_model : SectorModel volume := volume_model 70 [67].

Lemma demo_free_map : FreeMap.fm_inv (v_map demo_volume).
Proof.
  split; [repeat split; cbn; try lia; repeat constructor; lia|]. split; [done|].
  assert (∀ n : nat, (n ≤ 66)%nat → Bitmap.bm_bit (FreeMap.free_map (v_map demo_volume)) (Z.of_nat n) = true) as H.
  { intros n Hn. do 67 (destruct n as [|n]; [reflexivity|]). lia. }
  intros s Hs. unfold FreeMap.in_use. rewrite <- (Z2Nat.id s) by lia. apply H.
  unfold FreeMap.WAL_METADATA_SECTOR, FreeMap.WAL_LOG_START_SECTOR, FreeMap.WAL_LOG_SECTORS in Hs. lia.
Qed.

(** The one block of the free map's file. *)
Lemma demo_map_block v k :
  0 ≤ k < 1 → bmap v (data (v_map_inode demo_volume)) k = 67 ∧
    index_of v (data (v_map_inode demo_volume)) k = [].
Proof. intros Hk. by replace k with 0 by lia. Qed.

Lemma demo_volume_ready : vol_ready 70 [67] demo_volume.
Proof.
  constructor; [exact volume_demo_inv|exact demo_free_map|done|done| |done|done|done| |].
  - split; [cbn; lia|]. change (bytes_to_sectors _) with 1. constructor.
    + done.
    + unfold MAX_BLOCKS. lia.
    + intros k Hk. rewrite (proj1 (demo_map_block _ k Hk)). cbn. unfold WalProofs.WalProofs.log_area, Wal.WAL_METADATA_SECTOR,
        Wal.WAL_LOG_START_SECTOR, Wal.WAL_LOG_SECTORS. lia.
    + intros k x Hk. rewrite (proj2 (demo_map_block _ k Hk)). by intros ?%elem_of_nil.
    + intros k1 k2 H1 H2 _. lia.
    + intros k1 k2 H1 H2. rewrite (proj2 (demo_map_block _ k2 H2)). apply not_elem_of_nil.
  - intros k Hk. change (bytes_to_sectors _) with 1 in Hk.
    rewrite (proj1 (demo_map_block _ k Hk)), (proj2 (demo_map_block _ k Hk)).
    split; [by left|]. by intros x ?%elem_of_nil.
  - intros s ->%list_elem_of_singleton. done.
Qed.

Definition empty_dir : inode :=
  mk_inode 68 1 false false 0
    (mk_disk (replicate 12 0) 0 0 0 INODE_TYPE_DIR 1 INODE_MAGIC (replicate 110 0)).

Definition demo_mounted : kst volume :=
  mk_kst _ (mk_ist demo_volume {[ 0%nat := empty_dir ]} [0%nat] 1) ∅ {[ 0%nat := mk_dir 0 0 ]} 1 [] None.

Lemma demo_empty v : slots v (data empty_dir) = [].
Proof. done. Qed.

Lemma demo_dir_call : dir_call demo_mounted 0 0 empty_dir [97; 98] (replicate 20 0).
Proof.
  constructor.
  - by exists 0.
  - constructor; [exact demo_volume_ready|done|]. split; [cbn; lia|].
    change (bytes_to_sectors _) with 0.
    constructor; [done|unfold MAX_BLOCKS; lia|intros; lia|intros; lia|intros; lia|intros; lia].
  - rewrite demo_empty. by apply Forall_nil_2.
  - done.
  - done.
  - cbn. lia.
  - by apply (bool_decide_unpack (Strings.text [97; 98])).
  - by apply (bool_decide_unpack (Forall is_byte [97; 98])).
  - cbn. lia.
  - split; [done|]. apply Forall_replicate. unfold is_byte. lia.
Qed.

Lemma demo_owned : owned demo_volume (sector empty_dir) (data empty_dir).
Proof.
  constructor; [|done| | |done].
  - cbn. split; [unfold WalProofs.WalProofs.log_area, Wal.WAL_METADATA_SECTOR, Wal.WAL_LOG_START_SECTOR,
      Wal.WAL_LOG_SECTORS; lia|]. by intros ?%list_elem_of_singleton.
  - intros k Hk. change (bytes_to_sectors _) with 0 in Hk. lia.
  - intros k x Hk. change (bytes_to_sectors _) with 0 in Hk. lia.
Qed.

Lemma dir_add_maps_witness :
  ∃ d' k', dir_add (replicate 20 0) 0 [97; 98] 5 demo_mounted = Ret (true, k') ∧
    dir_find (slots (s_view (store (inodes k'))) d') [97; 98] = Some 5 ∧
    ∃ s, s_free (store (inodes demo_mounted)) s = true ∧ s_free (store (inodes k')) s = false.
Proof.
  destruct (dir_add_maps demo_mounted 0 0 empty_dir [97; 98] (replicate 20 0) 5 demo_dir_call demo_owned)
    as (ok & d' & new & k' & Hr & _ & _ & _ & Hok & Hf & _ & _ & Hn & Hold & Hfree); [done|].
  assert (ok = true) as ->.
  { apply Hok. rewrite demo_empty. split; [done|]. intros _. by exists 69. }
  exists d', k'. split; [exact Hr|]. split; [exact (Hf [97; 98])|].
  destruct (proj2 Hn) as [s Hs]; [by rewrite demo_empty|]. exists s. split; [by apply Hold|].
  by rewrite Hfree, bool_decide_eq_true_2.
Defined.

Lemma file_write_seek_read_witness :
  ∃ k1 k2 k3, File.file_write 1 [5; 6] 2 demo_kernel = Ret (2, k1) ∧
    File.file_seek 1 400 k1 = Ret (tt, k2) ∧ File.file_read 1 2 k2 = Ret ([5; 6], k3).
Proof.
  destruct (file_write_seek_read demo_kernel 1 0 (mk_file 0 400 false 2) demo_inode [5; 6])
    as (k1 & k2 & k3 & H1 & _ & H2 & H3 & _);
    [done|done|exact demo_inode_file|done|done|cbn; lia|by apply (bool_decide_unpack (Forall is_byte [5; 6]))
    |cbn; lia|cbn; lia|].
  by exists k1, k2, k3.
Defined.

Lemma file_ref_counting_witness :
  ∃ k1 k2, run_refs [true; false; false] 1 demo_kernel = Ret (tt, k1) ∧
    File.file_close (Some 1%nat) k1 = Ret (tt, k2) ∧ files k2 = ∅.
Proof.
  destruct (file_ref_counting demo_kernel 1 (mk_file 0 400 false 2) demo_inode [true; false; false]
    (mk_ist (store demo_table) ∅ [] 1)) as (k1 & k2 & H1 & _ & H2 & _ & H3);
    [done|done|done| |done|done|].
  - intros n Hn. destruct n as [|[|[|[|n]]]]; cbn in *; lia.
  - by exists k1, k2.
Defined.
End FsDemo.
