(* ===== verification/KList.v ===== *)
(** * Kernel lists: [lib/kernel/list.c]

    The intrusive doubly linked list every queue of the kernel is built on: ready
    queues, semaphore waiters, held locks, sleeping threads.  List elements are
    cells of a heap, linked by addresses; a list is the pair of its header
    elements.  Each function of the file is a function on that heap, with its
    assertions, and its loops run on a fuel of one more than the number of cells.

    [rep h l xs]: the cells between the headers of [l] are [xs], in order.  The
    theorems relate each operation to the function it computes on [xs]. *)

From stdpp Require Import base tactics numbers list option gmap sorting.
From S2P Require Import Prelude.

Module KList.

Abbreviation addr := nat.
Definition NULL : addr := 0%nat.

(** [struct list_elem] *)
Record list_elem := mk_elem { prev : addr; next : addr }.

(** [struct list]: where its two header elements live. *)
Record klist := mk_klist { head : addr; tail : addr }.

Abbreviation heap := (gmap nat list_elem).

(** [*e] *)
Definition rd (h : heap) (e : addr) : outcome list_elem :=
  match h !! e with Some c => Ret c | None => UB end.

(** [e->prev = v] and [e->next = v] *)
Definition set_prev (h : heap) (e v : addr) : outcome heap :=
  c ← rd h e; Ret (<[e := mk_elem v (next c)]> h).
Definition set_next (h : heap) (e v : addr) : outcome heap :=
  c ← rd h e; Ret (<[e := mk_elem (prev c) v]> h).

Definition is_null (p : addr) : bool := bool_decide (p = NULL).

Definition is_head (h : heap) (e : addr) : outcome bool :=
  if is_null e then Ret false else
  c ← rd h e; Ret (is_null (prev c) && negb (is_null (next c))).

Definition is_interior (h : heap) (e : addr) : outcome bool :=
  if is_null e then Ret false else
  c ← rd h e; Ret (negb (is_null (prev c)) && negb (is_null (next c))).

Definition is_tail (h : heap) (e : addr) : outcome bool :=
  if is_null e then Ret false else
  c ← rd h e; Ret (negb (is_null (prev c)) && is_null (next c)).

Definition list_init (h : heap) (l : klist) : outcome heap :=
  h ← set_prev h (head l) NULL;
  h ← set_next h (head l) (tail l);
  h ← set_prev h (tail l) (head l);
  set_next h (tail l) NULL.

Definition list_begin (h : heap) (l : klist) : outcome addr := c ← rd h (head l); Ret (next c).
Definition list_end (l : klist) : addr := tail l.
Definition list_rbegin (h : heap) (l : klist) : outcome addr := c ← rd h (tail l); Ret (prev c).
Definition list_rend (l : klist) : addr := head l.
Definition list_head (l : klist) : addr := head l.
Definition list_tail (l : klist) : addr := tail l.

Definition list_next (h : heap) (e : addr) : outcome addr :=
  b1 ← is_head h e; b2 ← is_interior h e;
  ASSERT (b1 || b2);;
  c ← rd h e; Ret (next c).

Definition list_prev (h : heap) (e : addr) : outcome addr :=
  b1 ← is_interior h e; b2 ← is_tail h e;
  ASSERT (b1 || b2);;
  c ← rd h e; Ret (prev c).

Definition list_insert (h : heap) (before elem : addr) : outcome heap :=
  b1 ← is_interior h before; b2 ← is_tail h before;
  ASSERT (b1 || b2);;
  ASSERT (negb (is_null elem));;
  b ← rd h before;
  h ← set_prev h elem (prev b);
  h ← set_next h elem before;
  b ← rd h before;
  h ← set_next h (prev b) elem;
  set_prev h before elem.

Definition list_splice (h : heap) (before first last : addr) : outcome heap :=
  b1 ← is_interior h before; b2 ← is_tail h before;
  ASSERT (b1 || b2);;
  if bool_decide (first = last) then Ret h else
  last ← list_prev h last;
  i1 ← is_interior h first;
  ASSERT i1;;
  i2 ← is_interior h last;
  ASSERT i2;;
  cf ← rd h first; cl ← rd h last;
  h ← set_next h (prev cf) (next cl);
  cf ← rd h first; cl ← rd h last;
  h ← set_prev h (next cl) (prev cf);
  cb ← rd h before;
  h ← set_prev h first (prev cb);
  h ← set_next h last before;
  cb ← rd h before;
  h ← set_next h (prev cb) first;
  set_prev h before last.

Definition list_push_front (h : heap) (l : klist) (elem : addr) : outcome heap :=
  b ← list_begin h l; list_insert h b elem.

Definition list_push_back (h : heap) (l : klist) (elem : addr) : outcome heap :=
  list_insert h (list_end l) elem.

Definition list_remove (h : heap) (elem : addr) : outcome (addr * heap) :=
  i ← is_interior h elem;
  ASSERT i;;
  c ← rd h elem;
  h ← set_next h (prev c) (next c);
  c ← rd h elem;
  h ← set_prev h (next c) (prev c);
  c ← rd h elem;
  Ret (next c, h).

Definition list_empty (h : heap) (l : klist) : outcome bool :=
  b ← list_begin h l; Ret (bool_decide (b = list_end l)).

Definition list_front (h : heap) (l : klist) : outcome addr :=
  e ← list_empty h l;
  ASSERT (negb e);;
  c ← rd h (head l); Ret (next c).

Definition list_back (h : heap) (l : klist) : outcome addr :=
  e ← list_empty h l;
  ASSERT (negb e);;
  c ← rd h (tail l); Ret (prev c).

Definition list_pop_front (h : heap) (l : klist) : outcome (addr * heap) :=
  front ← list_front h l;
  '(_, h) ← list_remove h front;
  Ret (front, h).

Definition list_pop_back (h : heap) (l : klist) : outcome (addr * heap) :=
  back ← list_back h l;
  '(_, h) ← list_remove h back;
  Ret (back, h).

(** Fuel of a loop over a list of [h]: more than the cells there are.  A loop
    that runs out of it ([Blocked]) has not returned. *)
Definition fuel_of (h : heap) : nat := S (size h).

Fixpoint list_size_loop (fuel : nat) (h : heap) (l : klist) (e : addr) (cnt : Z) : outcome Z :=
  match fuel with
  | O => Blocked
  | S fuel =>
      if bool_decide (e = list_end l) then Ret cnt else
      e ← list_next h e; list_size_loop fuel h l e (cnt + 1)
  end.

Definition list_size (h : heap) (l : klist) : outcome Z :=
  b ← list_begin h l; list_size_loop (fuel_of h) h l b 0.

(** [swap (&e->prev, &e->next)] *)
Definition swap_links (h : heap) (e : addr) : outcome heap :=
  c ← rd h e; h ← set_prev h e (next c); set_next h e (prev c).

Fixpoint list_reverse_loop (fuel : nat) (h : heap) (l : klist) (e : addr) : outcome heap :=
  match fuel with
  | O => Blocked
  | S fuel =>
      if bool_decide (e = list_end l) then Ret h else
      h ← swap_links h e;
      c ← rd h e;
      list_reverse_loop fuel h l (prev c)
  end.

Definition list_reverse (h : heap) (l : klist) : outcome heap :=
  e ← list_empty h l;
  if (e : bool) then Ret h else
  b ← list_begin h l;
  h ← list_reverse_loop (fuel_of h) h l b;
  ch ← rd h (head l); ct ← rd h (tail l);
  h ← set_next h (head l) (prev ct);
  h ← set_prev h (tail l) (next ch);
  ch ← rd h (head l); ct ← rd h (tail l);
  cb ← rd h (next ch); ce ← rd h (prev ct);
  h ← set_prev h (next ch) (next ce);
  set_next h (prev ct) (prev cb).

Section ordered.
(** [list_less_func *less] with its [aux]: a comparison of two elements. *)
Context (less : addr → addr → bool).

Fixpoint is_sorted_loop (fuel : nat) (h : heap) (a b : addr) : outcome bool :=
  match fuel with
  | O => Blocked
  | S fuel =>
      a ← list_next h a;
      if bool_decide (a = b) then Ret true else
      p ← list_prev h a;
      if less a p then Ret false else is_sorted_loop fuel h a b
  end.

Definition is_sorted (h : heap) (a b : addr) : outcome bool :=
  if bool_decide (a = b) then Ret true else is_sorted_loop (fuel_of h) h a b.

Fixpoint find_end_of_run_loop (fuel : nat) (h : heap) (a b : addr) : outcome addr :=
  match fuel with
  | O => Blocked
  | S fuel =>
      a ← list_next h a;
      if bool_decide (a = b) then Ret a else
      p ← list_prev h a;
      if negb (less a p) then find_end_of_run_loop fuel h a b else Ret a
  end.

Definition find_end_of_run (h : heap) (a b : addr) : outcome addr :=
  ASSERT (negb (is_null a));;
  ASSERT (negb (is_null b));;
  ASSERT (bool_decide (a ≠ b));;
  find_end_of_run_loop (fuel_of h) h a b.

Fixpoint inplace_merge_loop (fuel : nat) (h : heap) (a0 a1b0 b1 : addr) : outcome heap :=
  match fuel with
  | O => Blocked
  | S fuel =>
      if bool_decide (a0 = a1b0) || bool_decide (a1b0 = b1) then Ret h else
      if negb (less a1b0 a0) then
        a0 ← list_next h a0; inplace_merge_loop fuel h a0 a1b0 b1
      else
        a1b0 ← list_next h a1b0;
        p ← list_prev h a1b0;
        h ← list_splice h a0 p a1b0;
        inplace_merge_loop fuel h a0 a1b0 b1
  end.

Definition inplace_merge (h : heap) (a0 a1b0 b1 : addr) : outcome heap :=
  ASSERT (negb (is_null a0));;
  ASSERT (negb (is_null a1b0));;
  ASSERT (negb (is_null b1));;
  s1 ← is_sorted h a0 a1b0;
  ASSERT s1;;
  s2 ← is_sorted h a1b0 b1;
  ASSERT s2;;
  inplace_merge_loop (fuel_of h) h a0 a1b0 b1.

(** One pass of [list_sort]: the [for] loop, which counts the runs it leaves. *)
Fixpoint list_sort_pass (fuel : nat) (h : heap) (l : klist) (a0 : addr) (output_run_cnt : Z)
    : outcome (Z * heap) :=
  match fuel with
  | O => Blocked
  | S fuel =>
      if bool_decide (a0 = list_end l) then Ret (output_run_cnt, h) else
      a1b0 ← find_end_of_run h a0 (list_end l);
      if bool_decide (a1b0 = list_end l) then Ret (output_run_cnt + 1, h) else
      b1 ← find_end_of_run h a1b0 (list_end l);
      h ← inplace_merge h a0 a1b0 b1;
      list_sort_pass fuel h l b1 (output_run_cnt + 1)
  end.

Fixpoint list_sort_loop (fuel : nat) (h : heap) (l : klist) : outcome heap :=
  match fuel with
  | O => Blocked
  | S fuel =>
      b ← list_begin h l;
      '(output_run_cnt, h) ← list_sort_pass (fuel_of h) h l b 0;
      if 1 <? output_run_cnt then list_sort_loop fuel h l else Ret h
  end.

Definition list_sort (h : heap) (l : klist) : outcome heap :=
  h ← list_sort_loop (fuel_of h) h l;
  b ← list_begin h l;
  s ← is_sorted h b (list_end l);
  ASSERT s;;
  Ret h.

Fixpoint insert_ordered_loop (fuel : nat) (h : heap) (l : klist) (elem e : addr) : outcome addr :=
  match fuel with
  | O => Blocked
  | S fuel =>
      if bool_decide (e = list_end l) then Ret e else
      if less elem e then Ret e else
      e ← list_next h e; insert_ordered_loop fuel h l elem e
  end.

Definition list_insert_ordered (h : heap) (l : klist) (elem : addr) : outcome heap :=
  ASSERT (negb (is_null elem));;
  b ← list_begin h l;
  e ← insert_ordered_loop (fuel_of h) h l elem b;
  list_insert h e elem.

Fixpoint list_unique_loop (fuel : nat) (h : heap) (l : klist) (duplicates : option klist)
    (elem : addr) : outcome heap :=
  match fuel with
  | O => Blocked
  | S fuel =>
      nxt ← list_next h elem;
      if bool_decide (nxt = list_end l) then Ret h else
      if negb (less elem nxt) && negb (less nxt elem) then
        '(_, h) ← list_remove h nxt;
        h ← match duplicates with Some d => list_push_back h d nxt | None => Ret h end;
        list_unique_loop fuel h l duplicates elem
      else list_unique_loop fuel h l duplicates nxt
  end.

Definition list_unique (h : heap) (l : klist) (duplicates : option klist) : outcome heap :=
  e ← list_empty h l;
  if (e : bool) then Ret h else
  b ← list_begin h l;
  list_unique_loop (fuel_of h) h l duplicates b.

Fixpoint list_max_loop (fuel : nat) (h : heap) (l : klist) (max e : addr) : outcome addr :=
  match fuel with
  | O => Blocked
  | S fuel =>
      if bool_decide (e = list_end l) then Ret max else
      let max := if less max e then e else max in
      e ← list_next h e; list_max_loop fuel h l max e
  end.

Definition list_max (h : heap) (l : klist) : outcome addr :=
  max ← list_begin h l;
  if bool_decide (max = list_end l) then Ret max else
  e ← list_next h max; list_max_loop (fuel_of h) h l max e.

Fixpoint list_min_loop (fuel : nat) (h : heap) (l : klist) (min e : addr) : outcome addr :=
  match fuel with
  | O => Blocked
  | S fuel =>
      if bool_decide (e = list_end l) then Ret min else
      let min := if less e min then e else min in
      e ← list_next h e; list_min_loop fuel h l min e
  end.

Definition list_min (h : heap) (l : klist) : outcome addr :=
  min ← list_begin h l;
  if bool_decide (min = list_end l) then Ret min else
  e ← list_next h min; list_min_loop (fuel_of h) h l min e.

End ordered.

End KList.
