(* ===== verification/KListProofs.v ===== *)
(** * Kernel lists: what the pointer operations compute

    The representation predicate of a list, and for every operation of [KList]
    the function it computes on the list of elements it represents. *)

From stdpp Require Import base tactics numbers list option gmap sorting.
From S2P Require Import Prelude KList.

Module KListProofs.
Import KList.

Definition nxt (h : heap) (a : addr) : option addr := next <$> h !! a.
Definition prv (h : heap) (a : addr) : option addr := prev <$> h !! a.

(** [b] follows [a], both ways. *)
Definition link (h : heap) (a b : addr) : Prop := nxt h a = Some b ∧ prv h b = Some a.

(** Every element of [l] is linked to the one after it. *)
Fixpoint path (h : heap) (l : list addr) : Prop :=
  match l with
  | a :: (b :: _) as l' => link h a b ∧ path h l'
  | _ => True
  end.

(** The elements of list [l] are [xs]. *)
Record rep (h : heap) (l : klist) (xs : list addr) : Prop := mk_rep {
  rep_null : h !! NULL = None;
  rep_nodup : NoDup (head l :: xs ++ [tail l]);
  rep_path : path h (head l :: xs ++ [tail l]);
  rep_head : prv h (head l) = Some NULL;
  rep_tail : nxt h (tail l) = Some NULL }.

(** ** Paths *)

(** The last of [l1] is linked to the first of [l2]. *)
Definition joined (h : heap) (l1 l2 : list addr) : Prop :=
  ∀ a b, list.last l1 = Some a → list.head l2 = Some b → link h a b.

Lemma path_app h l1 l2 : path h (l1 ++ l2) ↔ path h l1 ∧ joined h l1 l2 ∧ path h l2.
Proof.
  unfold joined. induction l1 as [|x l1 IH]; [simpl; naive_solver|].
  destruct l1 as [|y l1].
  - destruct l2; simpl; naive_solver.
  - rewrite last_cons_cons. cbn [app path] in *. rewrite IH. tauto.
Qed.

(** A path keeps its links when only the link into it and the link out of it change. *)
Lemma path_frame h h' l : NoDup l →
  (∀ x, x ∈ l → list.last l ≠ Some x → nxt h' x = nxt h x) →
  (∀ x, x ∈ l → list.head l ≠ Some x → prv h' x = prv h x) →
  path h l → path h' l.
Proof.
  induction l as [|a l IH]; intros Hnd Hn Hp; [done|]. destruct l as [|b l]; [done|].
  intros [[Hab Hba] Hl]. apply NoDup_cons in Hnd as [Ha Hnd]. split.
  - assert (list.last (b :: l) ≠ Some a) as Hla by (intros E%last_Some_elem_of; done).
    split; [rewrite Hn; [done|by left|by rewrite last_cons_cons]|].
    rewrite Hp; [done|by right; left|]. intros [= ->]. apply Ha. by left.
  - apply IH; [done|..|done].
    + intros x Hx Hl'. apply Hn; [by right|by rewrite last_cons_cons].
    + intros x Hx _. apply Hp; [by right|]. intros [= ->]. done.
Qed.

Lemma path_mapped h l x : path h l → x ∈ l → list.last l ≠ Some x → is_Some (nxt h x).
Proof.
  induction l as [|a l IH]; intros Hl Hx; [set_solver|]. destruct l as [|b l].
  - apply list_elem_of_singleton in Hx as ->. done.
  - rewrite last_cons_cons. destruct Hl as [[Hn _] Hl].
    apply elem_of_cons in Hx as [->|Hx]; [by rewrite Hn; eauto|by apply IH].
Qed.

Lemma nxt_prv_mapped h x : is_Some (nxt h x) ↔ is_Some (h !! x).
Proof. unfold nxt. by rewrite fmap_is_Some. Qed.
Lemma prv_mapped h x : is_Some (prv h x) ↔ is_Some (h !! x).
Proof. unfold prv. by rewrite fmap_is_Some. Qed.

Lemma rep_mapped h l xs x : rep h l xs → x ∈ head l :: xs ++ [tail l] → is_Some (h !! x).
Proof.
  intros R Hx. apply nxt_prv_mapped. destruct (decide (x = tail l)) as [->|Hne].
  - rewrite (rep_tail _ _ _ R). eauto.
  - eapply path_mapped; [apply R|done|]. rewrite app_comm_cons, last_snoc. congruence.
Qed.

Lemma rep_nonnull h l xs x : rep h l xs → x ∈ head l :: xs ++ [tail l] → x ≠ NULL.
Proof. intros R Hx ->. destruct (rep_mapped _ _ _ _ R Hx) as [? H]. rewrite (rep_null _ _ _ R) in H. done. Qed.

(** A list fits in the fuel of a loop over it. *)
Lemma rep_fuel h l xs : rep h l xs → (length xs + 2 < fuel_of h)%nat.
Proof.
  intros R. unfold fuel_of. rewrite <- size_dom.
  pose proof (size_list_to_set (C:=gset addr) _ (rep_nodup _ _ _ R)) as Hs.
  simpl in Hs. rewrite length_app in Hs. simpl in Hs.
  assert (list_to_set (C:=gset addr) (head l :: xs ++ [tail l]) ⊆ dom h) as Hd%subseteq_size.
  { intros x Hx%elem_of_list_to_set. apply elem_of_dom. by eapply rep_mapped. }
  simpl in *. lia.
Qed.

(** Same cells, other links. *)
Definition same_cells (h h' : heap) : Prop := ∀ x, is_Some (h !! x) ↔ is_Some (h' !! x).

Lemma same_cells_fuel h h' : same_cells h h' → fuel_of h' = fuel_of h.
Proof.
  intros H. unfold fuel_of. rewrite <- !size_dom. do 2 f_equal. apply set_eq.
  intros x. rewrite !elem_of_dom. symmetry. apply H.
Qed.

Lemma same_cells_null h h' : same_cells h h' → h !! NULL = None → h' !! NULL = None.
Proof.
  intros H Hn. apply eq_None_not_Some. intros Hs%H. rewrite Hn in Hs. by apply is_Some_None in Hs.
Qed.

Lemma same_cells_trans h1 h2 h3 : same_cells h1 h2 → same_cells h2 h3 → same_cells h1 h3.
Proof. intros H1 H2 x. rewrite (H1 x). apply H2. Qed.

(** ** Single accesses *)

(** Runs the bookkeeping between two accesses. *)
Ltac kstep := cbn [mbind outcome_bind ASSERT negb andb orb prev next].

Lemma rd_links h e p n : prv h e = Some p → nxt h e = Some n → rd h e = Ret (mk_elem p n).
Proof.
  unfold prv, nxt, rd. intros (c & -> & Hc)%fmap_Some (c' & Hc' & Hn)%fmap_Some.
  destruct c. simplify_eq/=. done.
Qed.

Lemma rd_mapped h e : is_Some (h !! e) → ∃ c, rd h e = Ret c ∧ h !! e = Some c.
Proof. intros [c Hc]. exists c. unfold rd. by rewrite Hc. Qed.

Lemma set_prev_run h e v : is_Some (h !! e) →
  ∃ h', set_prev h e v = Ret h' ∧ same_cells h h' ∧ (∀ x, nxt h' x = nxt h x) ∧
    (∀ x, prv h' x = if decide (x = e) then Some v else prv h x).
Proof.
  intros [c Hc]. unfold set_prev, rd. rewrite Hc. simpl. eexists. split; [reflexivity|].
  unfold same_cells, nxt, prv. split_and!; intros x; destruct (decide (x = e)) as [->|];
    rewrite ?lookup_insert_eq, ?lookup_insert_ne by done; rewrite ?Hc; naive_solver.
Qed.

Lemma set_next_run h e v : is_Some (h !! e) →
  ∃ h', set_next h e v = Ret h' ∧ same_cells h h' ∧ (∀ x, prv h' x = prv h x) ∧
    (∀ x, nxt h' x = if decide (x = e) then Some v else nxt h x).
Proof.
  intros [c Hc]. unfold set_next, rd. rewrite Hc. simpl. eexists. split; [reflexivity|].
  unfold same_cells, nxt, prv. split_and!; intros x; destruct (decide (x = e)) as [->|];
    rewrite ?lookup_insert_eq, ?lookup_insert_ne by done; rewrite ?Hc; naive_solver.
Qed.

Lemma is_null_false p : p ≠ NULL → is_null p = false.
Proof. intros. unfold is_null. by rewrite bool_decide_false. Qed.

Lemma kind_run h e p n : prv h e = Some p → nxt h e = Some n → e ≠ NULL →
  is_head h e = Ret (is_null p && negb (is_null n)) ∧
  is_interior h e = Ret (negb (is_null p) && negb (is_null n)) ∧
  is_tail h e = Ret (negb (is_null p) && is_null n).
Proof.
  intros Hp Hn He. unfold is_head, is_interior, is_tail. rewrite (is_null_false e) by done.
  by rewrite (rd_links _ _ _ _ Hp Hn).
Qed.

(** An element's two links, from one of them. *)
Lemma other_prv h e n : nxt h e = Some n → ∃ p, prv h e = Some p.
Proof. unfold nxt, prv. intros (c & -> & _)%fmap_Some. by eexists. Qed.
Lemma other_nxt h e p : prv h e = Some p → ∃ n, nxt h e = Some n.
Proof. unfold nxt, prv. intros (c & -> & _)%fmap_Some. by eexists. Qed.

Lemma list_next_run h e n : nxt h e = Some n → n ≠ NULL → e ≠ NULL → list_next h e = Ret n.
Proof.
  intros Hn Hn0 He. destruct (other_prv _ _ _ Hn) as [p Hp]. unfold list_next.
  destruct (kind_run _ _ _ _ Hp Hn He) as (-> & -> & _). rewrite (is_null_false n) by done.
  rewrite (rd_links _ _ _ _ Hp Hn). by destruct (is_null p).
Qed.

Lemma list_prev_run h e p : prv h e = Some p → p ≠ NULL → e ≠ NULL → list_prev h e = Ret p.
Proof.
  intros Hp Hp0 He. destruct (other_nxt _ _ _ Hp) as [n Hn]. unfold list_prev.
  destruct (kind_run _ _ _ _ Hp Hn He) as (_ & -> & ->). rewrite (is_null_false p) by done.
  rewrite (rd_links _ _ _ _ Hp Hn). by destruct (is_null n).
Qed.

(** ** Blocks

    A list is cut into blocks of consecutive elements, headers included. *)

Definition first_of (l : klist) (ys : list addr) : addr := default (tail l) (list.head ys).
Definition last_of (l : klist) (xs : list addr) : addr := default (head l) (list.last xs).

Lemma front_last l xs : list.last (head l :: xs) = Some (last_of l xs).
Proof. unfold last_of. rewrite last_cons. by destruct (list.last xs). Qed.
Lemma back_first l ys : list.head (ys ++ [tail l]) = Some (first_of l ys).
Proof. by destruct ys. Qed.
Lemma front_in l xs : last_of l xs ∈ head l :: xs.
Proof. apply last_Some_elem_of, front_last. Qed.
Lemma back_in l ys : first_of l ys ∈ ys ++ [tail l].
Proof. apply head_Some_elem_of, back_first. Qed.
Lemma front_head l xs : list.head (head l :: xs) = Some (head l).
Proof. done. Qed.
Lemma back_last l ys : list.last (ys ++ [tail l]) = Some (tail l).
Proof. apply last_snoc. Qed.

Lemma rep_cut h l xs ys : rep h l (xs ++ ys) →
  path h (head l :: xs) ∧ link h (last_of l xs) (first_of l ys) ∧ path h (ys ++ [tail l]) ∧
  NoDup (head l :: xs) ∧ NoDup (ys ++ [tail l]) ∧ (∀ x, x ∈ head l :: xs → x ∉ ys ++ [tail l]).
Proof.
  intros R. pose proof (rep_path _ _ _ R) as Hp. pose proof (rep_nodup _ _ _ R) as Hnd.
  rewrite <- app_assoc, app_comm_cons in Hnd, Hp. apply NoDup_app in Hnd as (Hn1 & Hd & Hn2).
  apply path_app in Hp as (Hp1 & Hj & Hp2). split_and!; [done|..|done|done|done|done].
  apply Hj; [apply front_last|apply back_first].
Qed.

Lemma list_begin_run h l xs : rep h l xs → list_begin h l = Ret (first_of l xs).
Proof.
  intros R. destruct (rep_cut h l [] xs R) as (_ & [Hn _] & _).
  change (last_of l []) with (head l) in Hn. unfold list_begin. by rewrite (rd_links _ _ _ _ (rep_head _ _ _ R) Hn).
Qed.

Lemma list_rbegin_run h l xs : rep h l xs → list_rbegin h l = Ret (last_of l xs).
Proof.
  intros R. pose proof R as R'. rewrite <- (app_nil_r xs) in R'.
  destruct (rep_cut h l xs [] R') as (_ & [_ Hp] & _).
  change (first_of l []) with (tail l) in Hp. unfold list_rbegin. by rewrite (rd_links _ _ _ _ Hp (rep_tail _ _ _ R)).
Qed.

(** Two cells differ: by a known disequality, or because they are in different blocks. *)
Ltac cell_ne :=
  solve [ assumption | congruence
        | let E := fresh "E" in intros E;
          match goal with
          | Hd : ∀ x, x ∈ ?A → x ∉ ?B, H1 : ?u ∈ ?A, H2 : ?v ∈ ?B, E : ?u = ?v |- False =>
              apply (Hd u H1); rewrite E; exact H2
          | Hd : ∀ x, x ∈ ?A → x ∉ ?B, H1 : ?u ∈ ?A, H2 : ?v ∈ ?B, E : ?v = ?u |- False =>
              apply (Hd u H1); rewrite <- E; exact H2
          | H1 : ?u ∈ ?A, H2 : ?v ∉ ?A, E : ?u = ?v |- False => apply H2; rewrite <- E; exact H1
          | H1 : ?u ∈ ?A, H2 : ?v ∉ ?A, E : ?v = ?u |- False => apply H2; rewrite E; exact H1
          end ].

(** Reads a link after the updates that [H] lists. *)
Ltac links H :=
  rewrite H; repeat (first [ rewrite decide_True by done | rewrite decide_False by cell_ne ]).

(** ** Insertion *)

(** What [list_insert] does to the links. *)
Lemma list_insert_links h before elem p :
  prv h before = Some p → p ≠ NULL → before ≠ NULL → elem ≠ NULL → is_Some (h !! p) →
  is_Some (h !! elem) → elem ≠ before → elem ≠ p → p ≠ before →
  ∃ h', list_insert h before elem = Ret h' ∧ same_cells h h' ∧
    (∀ x, nxt h' x = if decide (x = p) then Some elem
                     else if decide (x = elem) then Some before else nxt h x) ∧
    (∀ x, prv h' x = if decide (x = before) then Some elem
                     else if decide (x = elem) then Some p else prv h x).
Proof.
  intros Hp Hp0 Hb He Hmp Hme Heb Hep Hpb.
  destruct (other_nxt _ _ _ Hp) as [n Hn]. unfold list_insert.
  destruct (kind_run _ _ _ _ Hp Hn Hb) as (_ & -> & ->). rewrite (is_null_false p) by done.
  rewrite (is_null_false elem) by done. cbn [mbind outcome_bind].
  replace (negb false && negb (is_null n) || negb false && is_null n) with true
    by (by destruct (is_null n)). rewrite (rd_links _ _ _ _ Hp Hn). kstep.
  destruct (set_prev_run h elem p Hme) as (h1 & -> & S1 & N1 & P1).
  kstep. destruct (set_next_run h1 elem before) as (h2 & -> & S2 & P2 & N2); [by apply S1|].
  assert (prv h2 before = Some p) as Hp2.
  { rewrite P2, P1, decide_False; [done|congruence]. }
  destruct (other_nxt _ _ _ Hp2) as [n2 Hn2]. kstep. rewrite (rd_links _ _ _ _ Hp2 Hn2). kstep.
  destruct (set_next_run h2 p elem) as (h3 & -> & S3 & P3 & N3); [by apply S2, S1|].
  kstep. destruct (set_prev_run h3 before elem) as (h4 & -> & S4 & N4 & P4).
  { apply S3, S2, S1. apply prv_mapped. by rewrite Hp. }
  exists h4. split; [done|]. split; [by repeat (eapply same_cells_trans; [eassumption|])|].
  split; intros x.
  - rewrite N4, N3, N2, N1. done.
  - rewrite P4, P3, P2, P1. done.
Qed.

(** Inserting before the first of [ys] (or before the tail). *)
Lemma list_insert_rep h l xs ys elem :
  rep h l (xs ++ ys) → elem ∉ head l :: (xs ++ ys) ++ [tail l] → is_Some (h !! elem) →
  ∃ h', list_insert h (first_of l ys) elem = Ret h' ∧
    rep h' l (xs ++ elem :: ys) ∧ same_cells h h'.
Proof.
  intros R Hnew Hm. destruct (rep_cut _ _ _ _ R) as (Hp1 & [Hn Hp] & Hp2 & Hn1 & Hn2 & Hd).
  pose proof (front_in l xs) as Hl. pose proof (back_in l ys) as Hb.
  assert (first_of l ys ∈ head l :: (xs ++ ys) ++ [tail l]) as Hb' by set_solver.
  assert (last_of l xs ∈ head l :: (xs ++ ys) ++ [tail l]) as Hl' by set_solver.
  assert (elem ≠ NULL) as He0.
  { intros ->. rewrite (rep_null _ _ _ R) in Hm. by apply is_Some_None in Hm. }
  destruct (list_insert_links h (first_of l ys) elem (last_of l xs)) as (h' & Hrun & Hsc & Hnx & Hpv);
    [done|by eapply rep_nonnull|by eapply rep_nonnull|done|by eapply rep_mapped|done|
     by intros -> |by intros -> |by intros E; apply (Hd _ Hl); rewrite E|].
  assert (elem ∉ head l :: xs ∧ elem ∉ ys ++ [tail l]) as [He1 He2] by set_solver.
  pose proof (front_in l xs) as Hl2. pose proof (back_in l ys) as Hb2.
  exists h'. split; [done|]. split; [|done]. constructor.
  - eapply same_cells_null; [exact Hsc|apply R].
  - rewrite <- (Permutation_middle xs ys elem). cbn [app]. rewrite Permutation_swap.
    constructor; [done|apply R].
  - rewrite <- app_assoc, app_comm_cons, path_app. cbn [app]. split_and!.
    + apply (path_frame h); [done|..|done]; rewrite ?front_last; intros x Hx Hx'.
      * by links Hnx.
      * by links Hpv.
    + intros a b. rewrite front_last. cbn [list.head]. intros [= <-] [= <-]. split.
      * by links Hnx.
      * by links Hpv.
    + change (elem :: ys ++ [tail l]) with ([elem] ++ (ys ++ [tail l])). apply path_app. split_and!.
      * done.
      * intros a b. rewrite back_first. intros [= <-] [= <-]. split; [by links Hnx|by links Hpv].
      * apply (path_frame h); [done|..|done]; rewrite ?back_first, ?back_last; intros x Hx Hx'.
        -- by links Hnx.
        -- by links Hpv.
  - assert (head l ∈ head l :: xs) by left. links Hpv. apply R.
  - assert (tail l ∈ ys ++ [tail l]) by set_solver. links Hnx. apply R.
Qed.

(** ** Removal *)

Lemma list_remove_links h elem p n :
  link h p elem → link h elem n → p ≠ NULL → n ≠ NULL → elem ≠ NULL → p ≠ elem → elem ≠ n →
  is_Some (h !! p) → is_Some (h !! n) →
  ∃ h', list_remove h elem = Ret (n, h') ∧ same_cells h h' ∧
    (∀ x, nxt h' x = if decide (x = p) then Some n else nxt h x) ∧
    (∀ x, prv h' x = if decide (x = n) then Some p else prv h x).
Proof.
  intros [_ Hp] [Hn _] Hp0 Hn0 He Hpe Hen Hmp Hmn. unfold list_remove.
  destruct (kind_run _ _ _ _ Hp Hn He) as (_ & -> & _).
  rewrite (is_null_false p), (is_null_false n) by done. rewrite (rd_links _ _ _ _ Hp Hn). kstep.
  destruct (set_next_run h p n Hmp) as (h1 & -> & S1 & P1 & N1). kstep.
  assert (prv h1 elem = Some p) as Hp1 by (by rewrite P1).
  assert (nxt h1 elem = Some n) as Hn1 by (by rewrite N1, decide_False by congruence).
  rewrite (rd_links _ _ _ _ Hp1 Hn1). kstep.
  destruct (set_prev_run h1 n p) as (h2 & -> & S2 & N2 & P2); [by apply S1|]. kstep.
  assert (prv h2 elem = Some p) as Hp2 by (by rewrite P2, decide_False by congruence).
  assert (nxt h2 elem = Some n) as Hn2 by (by rewrite N2).
  rewrite (rd_links _ _ _ _ Hp2 Hn2). kstep. exists h2.
  split; [done|]. split; [by eapply same_cells_trans|]. split; intros x.
  - by rewrite N2, N1.
  - by rewrite P2, P1.
Qed.

Lemma list_remove_rep h l xs y ys :
  rep h l (xs ++ y :: ys) →
  ∃ h', list_remove h y = Ret (first_of l ys, h') ∧ rep h' l (xs ++ ys) ∧ same_cells h h'.
Proof.
  intros R. destruct (rep_cut _ _ _ _ R) as (Hp1 & Hlk1 & Hp2 & Hn1 & Hn2 & Hd).
  change (first_of l (y :: ys)) with y in Hlk1.
  cbn [app] in Hp2, Hn2. change (y :: ys ++ [tail l]) with ([y] ++ (ys ++ [tail l])) in Hp2.
  apply path_app in Hp2 as (_ & Hj & Hp2).
  pose proof (Hj y (first_of l ys) eq_refl (back_first _ _)) as Hlk2.
  apply NoDup_cons in Hn2 as [Hy Hn2].
  pose proof (front_in l xs) as Hl. pose proof (back_in l ys) as Hb.
  assert (y ∉ head l :: xs) as Hy1. { intros Hc. apply (Hd _ Hc). by left. }
  assert (∀ x, x ∈ head l :: xs → x ∉ ys ++ [tail l]) as Hd'.
  { intros x Hx Hc. apply (Hd x Hx). by right. }
  clear Hd. assert (∀ x, x ∈ ys ++ [tail l] → x ∈ head l :: (xs ++ y :: ys) ++ [tail l]) as Hi2 by set_solver.
  assert (∀ x, x ∈ head l :: xs → x ∈ head l :: (xs ++ y :: ys) ++ [tail l]) as Hi1 by set_solver.
  destruct (list_remove_links h y (last_of l xs) (first_of l ys)) as (h' & Hrun & Hsc & Hnx & Hpv);
    [done|done|by eapply rep_nonnull, Hi1|by eapply rep_nonnull, Hi2|
     eapply rep_nonnull; [exact R|set_solver]|by intros <-|by intros -> |
     by eapply rep_mapped, Hi1|by eapply rep_mapped, Hi2|].
  exists h'. split; [done|]. split; [|done]. constructor.
  - eapply same_cells_null; [exact Hsc|apply R].
  - rewrite <- app_assoc, app_comm_cons. apply NoDup_app. auto.
  - rewrite <- app_assoc, app_comm_cons, path_app. split_and!.
    + apply (path_frame h); [done|..|done]; rewrite ?front_last; intros x Hx Hx'.
      * by links Hnx.
      * by links Hpv.
    + intros a b. rewrite front_last, back_first. intros [= <-] [= <-]. split.
      * by links Hnx.
      * by links Hpv.
    + apply (path_frame h); [done|..|done]; rewrite ?back_first, ?back_last; intros x Hx Hx'.
      * by links Hnx.
      * by links Hpv.
  - assert (head l ∈ head l :: xs) by left. links Hpv. apply R.
  - assert (tail l ∈ ys ++ [tail l]) by set_solver. links Hnx. apply R.
Qed.

(** ** Queue operations *)

Lemma list_push_back_rep h l xs elem :
  rep h l xs → elem ∉ head l :: xs ++ [tail l] → is_Some (h !! elem) →
  ∃ h', list_push_back h l elem = Ret h' ∧ rep h' l (xs ++ [elem]) ∧ same_cells h h'.
Proof.
  intros R Hn Hm. apply (list_insert_rep h l xs [] elem); by rewrite ?app_nil_r.
Qed.

Lemma list_push_front_rep h l xs elem :
  rep h l xs → elem ∉ head l :: xs ++ [tail l] → is_Some (h !! elem) →
  ∃ h', list_push_front h l elem = Ret h' ∧ rep h' l (elem :: xs) ∧ same_cells h h'.
Proof.
  intros R Hn Hm. unfold list_push_front. rewrite (list_begin_run _ _ _ R). kstep.
  apply (list_insert_rep h l [] xs elem R Hn Hm).
Qed.

Lemma first_of_tail h l xs : rep h l xs → bool_decide (first_of l xs = tail l) = bool_decide (xs = []).
Proof.
  intros R. destruct xs as [|x xs]; [by rewrite !bool_decide_true|].
  rewrite !bool_decide_false; [done..|]. cbn. intros ->.
  pose proof (rep_nodup _ _ _ R) as Hnd. apply NoDup_cons in Hnd as [_ Hnd].
  apply NoDup_cons in Hnd as [Hx _]. set_solver.
Qed.

Lemma list_empty_run h l xs : rep h l xs → list_empty h l = Ret (bool_decide (xs = [])).
Proof.
  intros R. unfold list_empty. rewrite (list_begin_run _ _ _ R). kstep.
  unfold list_end. by rewrite (first_of_tail _ _ _ R).
Qed.

Lemma list_pop_front_rep h l x xs :
  rep h l (x :: xs) →
  ∃ h', list_pop_front h l = Ret (x, h') ∧ rep h' l xs ∧ same_cells h h'.
Proof.
  intros R. unfold list_pop_front, list_front. rewrite (list_empty_run _ _ _ R).
  rewrite bool_decide_false by done. kstep.
  pose proof (list_begin_run _ _ _ R) as Hb. unfold list_begin in Hb. rewrite Hb. kstep.
  change (first_of l (x :: xs)) with x.
  destruct (list_remove_rep h l [] x xs R) as (h' & -> & R' & Hs). eauto.
Qed.

Lemma list_pop_back_rep h l xs x :
  rep h l (xs ++ [x]) →
  ∃ h', list_pop_back h l = Ret (x, h') ∧ rep h' l xs ∧ same_cells h h'.
Proof.
  intros R. unfold list_pop_back, list_back. rewrite (list_empty_run _ _ _ R).
  rewrite bool_decide_false by (by destruct xs). kstep.
  pose proof (list_rbegin_run _ _ _ R) as Hb. unfold list_rbegin in Hb. rewrite Hb. kstep.
  replace (last_of l (xs ++ [x])) with x by (unfold last_of; by rewrite last_snoc).
  destruct (list_remove_rep h l xs x [] R) as (h' & -> & R' & Hs). rewrite app_nil_r in R'. eauto.
Qed.

(** ** Walking a list *)

Lemma list_next_rep h l xs y ys : rep h l (xs ++ y :: ys) → list_next h y = Ret (first_of l ys).
Proof.
  intros R. pose proof R as R'. rewrite cons_middle, app_assoc in R'.
  destruct (rep_cut _ _ _ _ R') as (_ & [Hn _] & _).
  replace (last_of l (xs ++ [y])) with y in Hn by (unfold last_of; by rewrite last_snoc).
  pose proof (back_in l ys).
  apply list_next_run; [done|eapply rep_nonnull; [exact R|set_solver]..].
Qed.

Lemma list_prev_rep h l xs ys : rep h l (xs ++ ys) → list_prev h (first_of l ys) = Ret (last_of l xs).
Proof.
  intros R. destruct (rep_cut _ _ _ _ R) as (_ & [_ Hp] & _).
  pose proof (back_in l ys). pose proof (front_in l xs).
  apply list_prev_run; [done|eapply rep_nonnull; [exact R|set_solver]..].
Qed.

Lemma rep_shift h l xs y ys : rep h l (xs ++ y :: ys) → rep h l ((xs ++ [y]) ++ ys).
Proof. by rewrite <- app_assoc. Qed.

Lemma rep_distinct h l xs y ys zs :
  rep h l (xs ++ y :: ys ++ zs) → bool_decide (y = first_of l zs) = false.
Proof.
  intros R. apply bool_decide_false. intros E. pose proof (rep_nodup _ _ _ R) as Hnd.
  rewrite <- app_assoc, app_comm_cons in Hnd. apply NoDup_app in Hnd as (_ & _ & Hnd).
  cbn [app] in Hnd. apply NoDup_cons in Hnd as [Hy _]. apply Hy. rewrite E, <- app_assoc.
  apply elem_of_app. right. apply back_in.
Qed.

Lemma rep_not_end h l xs y ys : rep h l (xs ++ y :: ys) → bool_decide (y = list_end l) = false.
Proof. rewrite <- (app_nil_r ys). apply rep_distinct. Qed.

Lemma list_size_loop_run fuel h l xs ys cnt :
  rep h l (xs ++ ys) → (length ys < fuel)%nat →
  list_size_loop fuel h l (first_of l ys) cnt = Ret (cnt + Z.of_nat (length ys)).
Proof.
  revert fuel xs cnt. induction ys as [|y ys IH]; intros [|fuel] xs cnt R Hf; simpl in Hf; try lia;
    cbn [list_size_loop].
  - rewrite bool_decide_true by done. f_equal. simpl. lia.
  - change (first_of l (y :: ys)) with y.
    rewrite (rep_not_end _ _ _ _ _ R), (list_next_rep _ _ _ _ _ R). kstep.
    rewrite (IH _ _ _ (rep_shift _ _ _ _ _ R)) by lia. f_equal. simpl. lia.
Qed.

Lemma list_size_run h l xs : rep h l xs → list_size h l = Ret (Z.of_nat (length xs)).
Proof.
  intros R. unfold list_size. rewrite (list_begin_run _ _ _ R). kstep.
  rewrite (list_size_loop_run _ _ _ [] xs 0 R); [done|]. pose proof (rep_fuel _ _ _ R). lia.
Qed.

Section ordered_proofs.
Context (less : addr → addr → bool).

(** [x] before the first element it is less than. *)
Fixpoint ordered_insert (x : addr) (xs : list addr) : list addr :=
  match xs with
  | [] => [x]
  | y :: ys => if less x y then x :: y :: ys else y :: ordered_insert x ys
  end.

(** The first of the maximal elements of [x :: xs], and of the minimal ones. *)
Definition pick_max (x : addr) (xs : list addr) : addr :=
  foldl (λ m e, if less m e then e else m) x xs.
Definition pick_min (x : addr) (xs : list addr) : addr :=
  foldl (λ m e, if less e m then e else m) x xs.

Lemma ordered_insert_perm x xs : ordered_insert x xs ≡ₚ x :: xs.
Proof.
  induction xs as [|y ys IH]; [done|]. cbn [ordered_insert]. destruct (less x y); [done|].
  rewrite IH. apply Permutation_swap.
Qed.

(** An ordered list stays ordered. *)
Lemma ordered_insert_sorted (R : addr → addr → Prop) `{!Transitive R} x xs :
  (∀ y, less x y = true → R x y) → (∀ y, less x y = false → R y x) →
  StronglySorted R xs → StronglySorted R (ordered_insert x xs).
Proof.
  intros Ht Hf. induction 1 as [|y ys Hs IH Hy]; cbn [ordered_insert]; [repeat constructor|].
  destruct (less x y) eqn:E.
  - constructor; [by constructor|]. constructor; [by apply Ht|].
    eapply Forall_impl; [exact Hy|]. intros z Hz. etrans; [by apply Ht|done].
  - constructor; [done|]. rewrite ordered_insert_perm. constructor; [by apply Hf|done].
Qed.

(** [pick_max] is one of the elements and none is greater. *)
Lemma pick_max_in x xs : pick_max x xs ∈ x :: xs.
Proof.
  revert x. induction xs as [|y xs IH]; intros x; [by left|]. unfold pick_max in *. cbn [foldl].
  destruct (less x y); [right; apply IH|]. specialize (IH x). apply elem_of_cons in IH as [->|IH].
  - by left.
  - by right; right.
Qed.

Lemma pick_max_ge (key : addr → Z) x xs :
  (∀ a b, less a b = (key a <? key b)) → ∀ y, y ∈ x :: xs → key y ≤ key (pick_max x xs).
Proof.
  intros Hk. revert x. induction xs as [|z xs IH]; intros x y Hy; unfold pick_max in *; cbn [foldl].
  - apply list_elem_of_singleton in Hy as ->. done.
  - rewrite Hk. specialize (IH (if key x <? key z then z else x)).
    destruct (Z.ltb_spec (key x) (key z)).
    + apply elem_of_cons in Hy as [->|Hy]; [|by apply IH].
      pose proof (IH z ltac:(by left)). lia.
    + apply elem_of_cons in Hy as [->|Hy]; [apply IH; by left|].
      apply elem_of_cons in Hy as [->|Hy]; [|apply IH; by right].
      pose proof (IH x ltac:(by left)). lia.
Qed.

Lemma insert_ordered_loop_run fuel h l xs ys elem :
  rep h l (xs ++ ys) → (length ys < fuel)%nat →
  ∃ ys1 ys2, ys = ys1 ++ ys2 ∧ ordered_insert elem ys = ys1 ++ elem :: ys2 ∧
    insert_ordered_loop less fuel h l elem (first_of l ys) = Ret (first_of l ys2).
Proof.
  revert fuel xs. induction ys as [|y ys IH]; intros [|fuel] xs R Hf; simpl in Hf; try lia;
    cbn [insert_ordered_loop ordered_insert].
  - exists [], []. by rewrite bool_decide_true.
  - change (first_of l (y :: ys)) with y. rewrite (rep_not_end _ _ _ _ _ R).
    destruct (less elem y); [by exists [], (y :: ys)|].
    rewrite (list_next_rep _ _ _ _ _ R). kstep.
    destruct (IH fuel _ (rep_shift _ _ _ _ _ R)) as (ys1 & ys2 & -> & -> & Hr); [lia|].
    by exists (y :: ys1), ys2.
Qed.

Lemma list_insert_ordered_rep h l xs elem :
  rep h l xs → elem ∉ head l :: xs ++ [tail l] → is_Some (h !! elem) →
  ∃ h', list_insert_ordered less h l elem = Ret h' ∧ rep h' l (ordered_insert elem xs) ∧
    same_cells h h'.
Proof.
  intros R Hn Hm. unfold list_insert_ordered. rewrite is_null_false.
  2: { intros ->. rewrite (rep_null _ _ _ R) in Hm. by apply is_Some_None in Hm. }
  kstep. rewrite (list_begin_run _ _ _ R). kstep.
  destruct (insert_ordered_loop_run (fuel_of h) h l [] xs elem R) as (xs1 & xs2 & -> & -> & ->).
  { pose proof (rep_fuel _ _ _ R). lia. }
  kstep. by apply list_insert_rep.
Qed.

Lemma list_max_loop_run fuel h l xs ys m :
  rep h l (xs ++ ys) → (length ys < fuel)%nat →
  list_max_loop less fuel h l m (first_of l ys) = Ret (pick_max m ys).
Proof.
  revert fuel xs m. induction ys as [|y ys IH]; intros [|fuel] xs m R Hf; simpl in Hf; try lia;
    cbn [list_max_loop].
  - by rewrite bool_decide_true.
  - change (first_of l (y :: ys)) with y.
    rewrite (rep_not_end _ _ _ _ _ R), (list_next_rep _ _ _ _ _ R). kstep.
    rewrite (IH _ _ _ (rep_shift _ _ _ _ _ R)) by lia. done.
Qed.

Lemma list_min_loop_run fuel h l xs ys m :
  rep h l (xs ++ ys) → (length ys < fuel)%nat →
  list_min_loop less fuel h l m (first_of l ys) = Ret (pick_min m ys).
Proof.
  revert fuel xs m. induction ys as [|y ys IH]; intros [|fuel] xs m R Hf; simpl in Hf; try lia;
    cbn [list_min_loop].
  - by rewrite bool_decide_true.
  - change (first_of l (y :: ys)) with y.
    rewrite (rep_not_end _ _ _ _ _ R), (list_next_rep _ _ _ _ _ R). kstep.
    rewrite (IH _ _ _ (rep_shift _ _ _ _ _ R)) by lia. done.
Qed.

Lemma list_max_run h l xs : rep h l xs →
  list_max less h l = Ret (match xs with [] => tail l | x :: xs => pick_max x xs end).
Proof.
  intros R. unfold list_max. rewrite (list_begin_run _ _ _ R). kstep. destruct xs as [|x xs].
  - by rewrite bool_decide_true.
  - change (first_of l (x :: xs)) with x. rewrite (rep_not_end _ _ [] _ _ R).
    rewrite (list_next_rep _ _ [] _ _ R). kstep.
    apply (list_max_loop_run _ _ _ [x]); [done|]. pose proof (rep_fuel _ _ _ R) as Hf. simpl in Hf. lia.
Qed.

Lemma list_min_run h l xs : rep h l xs →
  list_min less h l = Ret (match xs with [] => tail l | x :: xs => pick_min x xs end).
Proof.
  intros R. unfold list_min. rewrite (list_begin_run _ _ _ R). kstep. destruct xs as [|x xs].
  - by rewrite bool_decide_true.
  - change (first_of l (x :: xs)) with x. rewrite (rep_not_end _ _ [] _ _ R).
    rewrite (list_next_rep _ _ [] _ _ R). kstep.
    apply (list_min_loop_run _ _ _ [x]); [done|]. pose proof (rep_fuel _ _ _ R) as Hf. simpl in Hf. lia.
Qed.

End ordered_proofs.

(** ** Reversal *)

Lemma swap_links_run h e p n : prv h e = Some p → nxt h e = Some n →
  ∃ h', swap_links h e = Ret h' ∧ same_cells h h' ∧
    (∀ x, nxt h' x = if decide (x = e) then Some p else nxt h x) ∧
    (∀ x, prv h' x = if decide (x = e) then Some n else prv h x).
Proof.
  intros Hp Hn. assert (is_Some (h !! e)) as Hm by (apply prv_mapped; by rewrite Hp).
  unfold swap_links. rewrite (rd_links _ _ _ _ Hp Hn). kstep.
  destruct (set_prev_run h e n Hm) as (h1 & -> & S1 & N1 & P1). kstep.
  destruct (set_next_run h1 e p) as (h2 & -> & S2 & P2 & N2); [by apply S1|].
  exists h2. split; [done|]. split; [by eapply same_cells_trans|]. split; intros x.
  - by rewrite N2, N1.
  - by rewrite P2, P1.
Qed.

(** The links of the cells of [ys] are exchanged, the others are as before. *)
Definition swapped (h h' : heap) (ys : list addr) : Prop :=
  (∀ x, nxt h' x = if decide (x ∈ ys) then prv h x else nxt h x) ∧
  (∀ x, prv h' x = if decide (x ∈ ys) then nxt h x else prv h x).

Lemma list_reverse_loop_run fuel h l ys :
  NoDup (ys ++ [tail l]) → path h (ys ++ [tail l]) → (length ys < fuel)%nat →
  ∃ h', list_reverse_loop fuel h l (first_of l ys) = Ret h' ∧ same_cells h h' ∧ swapped h h' ys.
Proof.
  revert fuel h. induction ys as [|y ys IH]; intros [|fuel] h Hnd Hp Hf; simpl in Hf; try lia;
    cbn [list_reverse_loop].
  - rewrite bool_decide_true by done. exists h. split; [done|]. split; [done|].
    split; intros x; by rewrite decide_False by set_solver.
  - change (first_of l (y :: ys)) with y. cbn [app] in Hnd. apply NoDup_cons in Hnd as [Hy Hnd].
    rewrite bool_decide_false by (unfold list_end; set_solver).
    change ((y :: ys) ++ [tail l]) with ([y] ++ (ys ++ [tail l])) in Hp.
    apply path_app in Hp as (_ & Hj & Hp).
    destruct (Hj y (first_of l ys) eq_refl (back_first _ _)) as [Hn _].
    destruct (other_prv _ _ _ Hn) as [p Hpy].
    destruct (swap_links_run h y p _ Hpy Hn) as (h1 & -> & S1 & N1 & P1). kstep.
    assert (prv h1 y = Some (first_of l ys)) as Hp1 by (by rewrite P1, decide_True).
    destruct (other_nxt _ _ _ Hp1) as [n1 Hn1]. rewrite (rd_links _ _ _ _ Hp1 Hn1). kstep.
    destruct (IH fuel h1 Hnd) as (h' & -> & S' & N' & P'); [|lia|].
    { apply (path_frame h); [done|..|done]; intros x Hx _.
      - rewrite N1, decide_False; [done|]. by intros ->.
      - rewrite P1, decide_False; [done|]. by intros ->. }
    exists h'. split; [done|]. split; [by eapply same_cells_trans|].
    assert (y ∉ ys) by set_solver. split; intros x.
    + rewrite N', P1, N1. destruct (decide (x = y)) as [->|].
      * by rewrite decide_False, decide_True by set_solver.
      * destruct (decide (x ∈ ys)); [by rewrite decide_True by set_solver|by rewrite decide_False by set_solver].
    + rewrite P', P1, N1. destruct (decide (x = y)) as [->|].
      * by rewrite decide_False, decide_True by set_solver.
      * destruct (decide (x ∈ ys)); [by rewrite decide_True by set_solver|by rewrite decide_False by set_solver].
Qed.

(** Exchanging the links of a path reverses it. *)
Lemma path_swapped h h' xs l : xs ⊆ l → swapped h h' l → path h xs → path h' (reverse xs).
Proof.
  intros Hl [Hn Hp]. induction xs as [|x xs IH]; intros Hx; [done|].
  rewrite reverse_cons, path_app. destruct xs as [|y xs]; [done|]. destruct Hx as [[Hxy Hyx] Hx].
  split_and!; [apply IH; [set_solver|done]| |done].
  intros a b. rewrite last_reverse. intros [= <-] [= <-]. split.
  - by rewrite Hn, decide_True by set_solver.
  - by rewrite Hp, decide_True by set_solver.
Qed.

Lemma list_reverse_rep h l xs : rep h l xs →
  ∃ h', list_reverse h l = Ret h' ∧ rep h' l (reverse xs) ∧ same_cells h h'.
Proof.
  intros R. unfold list_reverse. rewrite (list_empty_run _ _ _ R).
  destruct xs as [|x xs]; [rewrite bool_decide_true by done; by exists h|].
  rewrite bool_decide_false by done. kstep. rewrite (list_begin_run _ _ _ R). kstep.
  destruct (rep_cut h l [] (x :: xs) R) as (_ & [Hnh Hph] & HP & _ & HN & HD).
  change (last_of l []) with (head l) in *.
  destruct (list_reverse_loop_run (fuel_of h) h l (x :: xs) HN HP) as (h1 & -> & S1 & Hsw).
  { pose proof (rep_fuel _ _ _ R). simpl in *. lia. }
  kstep. destruct (list.last (x :: xs)) as [z|] eqn:Ez; [|by apply last_None in Ez].
  pose proof HP as HP'. apply path_app in HP' as (HPx & Hj & _).
  destruct (Hj _ _ Ez eq_refl) as [Hnz Hpt]. clear Hj.
  assert (x ∈ x :: xs) as Ix by left. pose proof (last_Some_elem_of _ _ Ez) as Iz.
  assert (tail l ∉ x :: xs ∧ head l ∉ x :: xs) as [Ht Hh].
  { split; [|specialize (HD (head l) ltac:(by left)); set_solver].
    apply NoDup_app in HN as (_ & HN & _). intros Hc. apply (HN _ Hc). by left. }
  assert (head l ≠ tail l) as Hht by (specialize (HD (head l) ltac:(by left)); set_solver).
  pose proof (path_swapped _ _ _ _ ltac:(reflexivity) Hsw HPx) as HR. destruct Hsw as [N1 P1].
  set (X := x :: xs) in *.
  assert (prv h1 (head l) = Some NULL) as A1 by (rewrite P1, decide_False by done; apply R).
  assert (nxt h1 (head l) = Some x) as A2 by (by rewrite N1, decide_False by done).
  assert (prv h1 (tail l) = Some z) as A3 by (by rewrite P1, decide_False by done).
  assert (nxt h1 (tail l) = Some NULL) as A4 by (rewrite N1, decide_False by done; apply R).
  assert (nxt h1 x = Some (head l)) as A5 by (by rewrite N1, decide_True by done).
  assert (prv h1 z = Some (tail l)) as A6 by (by rewrite P1, decide_True by done).
  rewrite (rd_links _ _ _ _ A1 A2), (rd_links _ _ _ _ A3 A4). kstep.
  destruct (set_next_run h1 (head l) z) as (h2 & -> & S2 & P2 & N2);
    [apply prv_mapped; by rewrite A1|]. kstep.
  destruct (set_prev_run h2 (tail l) x) as (h3 & -> & S3 & N3 & P3);
    [apply S2, prv_mapped; by rewrite A3|]. kstep.
  assert (x ≠ head l ∧ z ≠ tail l) as [Hxh Hzt] by (split; intros E; rewrite E in *; done).
  assert (nxt h3 (head l) = Some z) as B1 by (by rewrite N3, N2, decide_True).
  assert (prv h3 (tail l) = Some x) as B2 by (by rewrite P3, decide_True).
  assert (nxt h3 x = Some (head l)) as B3 by (by rewrite N3, N2, decide_False).
  assert (prv h3 z = Some (tail l)) as B4 by (by rewrite P3, P2, decide_False).
  destruct (other_prv _ _ _ B1) as [? B1']. destruct (other_nxt _ _ _ B2) as [? B2'].
  destruct (other_prv _ _ _ B3) as [? B3']. destruct (other_nxt _ _ _ B4) as [? B4'].
  rewrite (rd_links _ _ _ _ B1' B1), (rd_links _ _ _ _ B2 B2'). kstep.
  rewrite (rd_links _ _ _ _ B4 B4'), (rd_links _ _ _ _ B3' B3). kstep.
  destruct (set_prev_run h3 z (head l)) as (h4 & -> & S4 & N4 & P4); [apply prv_mapped; by rewrite B4|].
  kstep. destruct (set_next_run h4 x (tail l)) as (h5 & -> & S5 & P5 & N5);
    [apply S4, nxt_prv_mapped; by rewrite B3|].
  assert (same_cells h h5) as Hsc by (by repeat (eapply same_cells_trans; [eassumption|])).
  exists h5. split; [done|]. split; [|done].
  assert (∀ y, nxt h5 y = if decide (y = x) then Some (tail l)
    else if decide (y = head l) then Some z else nxt h1 y) as Hnx by (intros y; by rewrite N5, N4, N3, N2).
  assert (∀ y, prv h5 y = if decide (y = z) then Some (head l)
    else if decide (y = tail l) then Some x else prv h1 y) as Hpv by (intros y; by rewrite P5, P4, P3, P2).
  assert (list.head (reverse X) = Some z) as Ehr by (by rewrite head_reverse).
  assert (list.last (reverse X) = Some x) as Elr by (by rewrite last_reverse).
  constructor.
  - eapply same_cells_null; [exact Hsc|apply R].
  - rewrite (reverse_Permutation X). apply R.
  - change (path h5 ([head l] ++ (reverse X ++ [tail l]))). rewrite 2!path_app. split_and!; [done|..|done].
    + intros a b. rewrite head_app, Ehr. intros [= <-] [= <-]. split; [by links Hnx|by links Hpv].
    + apply (path_frame h1); [by rewrite (reverse_Permutation X); apply NoDup_app in HN as (? & _)|..|done];
        rewrite ?Ehr, ?Elr; intros y Hy Hy'; rewrite elem_of_reverse in Hy.
      * by links Hnx.
      * by links Hpv.
    + intros a b. rewrite Elr. intros [= <-] [= <-]. split; [by links Hnx|by links Hpv].
  - by links Hpv.
  - by links Hnx.
Qed.

(** ** The list as an abstract data type *)

Inductive lop :=
| Push_front (e : addr) | Push_back (e : addr) | Insert_ordered (e : addr)
| Pop_front | Pop_back | Remove (e : addr) | Reverse | Size | Max.

Section adt.
Context (less : addr → addr → bool).

(** What an operation does to a list of elements, and its answer; [None] where
    the caller breaks the contract of [list.h]. *)
Definition spec_op (o : lop) (xs : list addr) : option (Z * list addr) :=
  match o with
  | Push_front e => if decide (e ∈ xs) then None else Some (0, e :: xs)
  | Push_back e => if decide (e ∈ xs) then None else Some (0, xs ++ [e])
  | Insert_ordered e => if decide (e ∈ xs) then None else Some (0, ordered_insert less e xs)
  | Pop_front => match xs with [] => None | x :: xs => Some (Z.of_nat x, xs) end
  | Pop_back => match list.last xs with None => None | Some x => Some (Z.of_nat x, take (length xs - 1) xs) end
  | Remove e => if decide (e ∈ xs) then Some (0, filter (λ x, x ≠ e) xs) else None
  | Reverse => Some (0, reverse xs)
  | Size => Some (Z.of_nat (length xs), xs)
  | Max => match xs with [] => None | x :: ys => Some (Z.of_nat (pick_max less x ys), xs) end
  end.

(** The same on the heap. *)
Definition heap_op (o : lop) (l : klist) (h : heap) : outcome (Z * heap) :=
  match o with
  | Push_front e => h ← list_push_front h l e; Ret (0, h)
  | Push_back e => h ← list_push_back h l e; Ret (0, h)
  | Insert_ordered e => h ← list_insert_ordered less h l e; Ret (0, h)
  | Pop_front => '(x, h) ← list_pop_front h l; Ret (Z.of_nat x, h)
  | Pop_back => '(x, h) ← list_pop_back h l; Ret (Z.of_nat x, h)
  | Remove e => '(_, h) ← list_remove h e; Ret (0, h)
  | Reverse => h ← list_reverse h l; Ret (0, h)
  | Size => n ← list_size h l; Ret (n, h)
  | Max => x ← list_max less h l; Ret (Z.of_nat x, h)
  end.

Definition op_elem (o : lop) : list addr :=
  match o with
  | Push_front e | Push_back e | Insert_ordered e | Remove e => [e]
  | _ => []
  end.

Fixpoint spec_ops (os : list lop) (xs : list addr) : option (list Z * list addr) :=
  match os with
  | [] => Some ([], xs)
  | o :: os => '(r, xs) ← spec_op o xs; '(rs, xs) ← spec_ops os xs; Some (r :: rs, xs)
  end.

Fixpoint heap_ops (os : list lop) (l : klist) (h : heap) : outcome (list Z * heap) :=
  match os with
  | [] => Ret ([], h)
  | o :: os => '(r, h) ← heap_op o l h; '(rs, h) ← heap_ops os l h; Ret (r :: rs, h)
  end.

(** Cells that can be elements of [l]. *)
Definition usable (h : heap) (l : klist) (e : addr) : Prop :=
  is_Some (h !! e) ∧ e ≠ head l ∧ e ≠ tail l.

Lemma usable_fresh h l xs e : usable h l e → e ∉ xs → e ∉ head l :: xs ++ [tail l].
Proof. unfold usable. set_solver. Qed.

Lemma filter_remove (xs ys : list addr) e : NoDup (xs ++ e :: ys) →
  filter (λ x, x ≠ e) (xs ++ e :: ys) = xs ++ ys.
Proof.
  intros Hnd. apply NoDup_app in Hnd as (_ & Hd & Hnd%NoDup_cons). rewrite filter_app, filter_cons.
  rewrite decide_False by tauto. rewrite !filter_all; [done|..].
  - intros x Hx ->. tauto.
  - intros x Hx ->. apply (Hd e Hx). by left.
Qed.

Lemma heap_op_refines o l h xs r ys :
  rep h l xs → Forall (usable h l) (op_elem o) → spec_op o xs = Some (r, ys) →
  ∃ h', heap_op o l h = Ret (r, h') ∧ rep h' l ys ∧ same_cells h h'.
Proof.
  intros R Hu Hs. destruct o as [e|e|e| | |e| | | ]; cbn [spec_op op_elem heap_op] in *;
    try apply Forall_cons_1 in Hu as [He _].
  - destruct (decide (e ∈ xs)); [done|]. injection Hs as <- <-.
    destruct (list_push_front_rep h l xs e R) as (h' & -> & ? & ?); [by apply (usable_fresh h)|apply He|].
    by exists h'.
  - destruct (decide (e ∈ xs)); [done|]. injection Hs as <- <-.
    destruct (list_push_back_rep h l xs e R) as (h' & -> & ? & ?); [by apply (usable_fresh h)|apply He|].
    by exists h'.
  - destruct (decide (e ∈ xs)); [done|]. injection Hs as <- <-.
    destruct (list_insert_ordered_rep less h l xs e R) as (h' & -> & ? & ?);
      [by apply (usable_fresh h)|apply He|]. by exists h'.
  - destruct xs as [|x xs]; [done|]. injection Hs as <- <-.
    destruct (list_pop_front_rep h l x xs R) as (h' & -> & ? & ?). by exists h'.
  - destruct (list.last xs) as [x|] eqn:E; [|done]. injection Hs as <- <-.
    apply last_Some in E as [zs ->]. destruct (list_pop_back_rep h l zs x R) as (h' & -> & ? & ?).
    exists h'. split; [done|]. split; [|done]. rewrite length_app. cbn [length].
    rewrite take_app_le, take_ge by lia. done.
  - destruct (decide (e ∈ xs)) as [Hin|]; [|done]. injection Hs as <- <-.
    apply list_elem_of_split in Hin as (x1 & x2 & ->).
    destruct (list_remove_rep h l x1 e x2 R) as (h' & -> & R' & ?). exists h'.
    split; [done|]. split; [|done]. rewrite filter_remove; [done|].
    pose proof (rep_nodup _ _ _ R) as Hnd. apply NoDup_cons in Hnd as [_ Hnd].
    by apply NoDup_app in Hnd as (? & _).
  - injection Hs as <- <-. destruct (list_reverse_rep h l xs R) as (h' & -> & ? & ?). by exists h'.
  - injection Hs as <- <-. rewrite (list_size_run h l xs R). by exists h.
  - destruct xs as [|x xs]; [done|]. injection Hs as <- <-. rewrite (list_max_run less h l _ R). by exists h.
Qed.

(** C9. Any sequence of pushes, ordered insertions, pops, removals, reversals and
    queries that respects the contract of [list.h] runs on the linked cells
    without a failed assertion, gives the answers the same sequence gives on the
    list of elements, and leaves the headers and cells linked, both ways, as
    the list it ends with. *)
Theorem list_ops_refine os l h xs rs ys :
  rep h l xs → Forall (usable h l) (concat (op_elem <$> os)) → spec_ops os xs = Some (rs, ys) →
  ∃ h', heap_ops os l h = Ret (rs, h') ∧ rep h' l ys.
Proof.
  revert h xs rs. induction os as [|o os IH]; intros h xs rs R Hu Hs; cbn [spec_ops heap_ops] in *.
  - injection Hs as <- <-. by exists h.
  - apply bind_Some in Hs as ([r xs'] & Ho & Hs). apply bind_Some in Hs as ([rs' ys'] & Hos & Hs).
    injection Hs as <- <-. cbn [fmap list_fmap concat] in Hu. apply Forall_app in Hu as [Hu1 Hu2].
    destruct (heap_op_refines o l h xs r xs' R Hu1 Ho) as (h1 & -> & R1 & S1). kstep.
    destruct (IH h1 xs' rs' R1) as (h' & -> & R'); [|done|by exists h'].
    eapply Forall_impl; [exact Hu2|]. intros x [Hx ?]. split; [by apply S1|done].
Qed.

End adt.

End KListProofs.
