(* ===== verification/KListSort.v ===== *)
(** * Kernel lists: [list_splice] and the in-place merge sort

    [list_sort] repeatedly merges adjacent runs by splicing cells.  For an
    asymmetric [less] it returns, passes all its assertions, and leaves the
    elements it was given in order. *)

From stdpp Require Import base tactics numbers list option gmap sorting.
From S2P Require Import Prelude KList KListProofs.

Module KListSort.
Import KList KListProofs.

(** ** Moving a block backwards *)

Lemma list_splice_links h before first last n pb pf nf pl :
  link h pb before → link h pf first → link h last n →
  nxt h first = Some nf → nf ≠ NULL → prv h last = Some pl → pl ≠ NULL →
  Forall (λ x, x ≠ NULL ∧ is_Some (h !! x)) [before; first; last; n; pb; pf] →
  first ≠ n → before ≠ n → before ≠ first → pf ≠ last → pb ≠ pf → pb ≠ last →
  ∃ h', list_splice h before first n = Ret h' ∧ same_cells h h' ∧
    (∀ x, nxt h' x = if decide (x = pb) then Some first
                     else if decide (x = last) then Some before
                     else if decide (x = pf) then Some n else nxt h x) ∧
    (∀ x, prv h' x = if decide (x = before) then Some last
                     else if decide (x = first) then Some pb
                     else if decide (x = n) then Some pf else prv h x).
Proof.
  intros [Hnb Hpb] [Hnf Hpf] [Hnl Hpn] Hnf2 Hnf0 Hpl Hpl0 Hall Hfn Hbn Hbf Hfl Hbp Hbl.
  repeat (apply Forall_cons_1 in Hall as [[? ?] Hall]).
  destruct (other_nxt _ _ _ Hpb) as [nb Hnb2].
  unfold list_splice. destruct (kind_run _ _ _ _ Hpb Hnb2) as (_ & -> & ->); [done|].
  rewrite (is_null_false pb) by done. kstep.
  replace (negb (is_null nb) || is_null nb) with true by (by destruct (is_null nb)). kstep.
  rewrite bool_decide_false by done. rewrite (list_prev_run _ _ _ Hpn) by done. kstep.
  destruct (kind_run _ _ _ _ Hpf Hnf2) as (_ & -> & _); [done|].
  rewrite (is_null_false pf), (is_null_false nf) by done. kstep.
  destruct (kind_run _ _ _ _ Hpl Hnl) as (_ & -> & _); [done|].
  rewrite (is_null_false pl), (is_null_false n) by done. kstep.
  rewrite (rd_links _ _ _ _ Hpf Hnf2), (rd_links _ _ _ _ Hpl Hnl). kstep.
  destruct (set_next_run h pf n) as (h1 & -> & S1 & P1 & N1); [done|]. kstep.
  assert (prv h1 first = Some pf) as Hf1 by (by rewrite P1).
  assert (nxt h1 last = Some n) as Hl1 by (by rewrite N1, decide_False by congruence).
  destruct (other_nxt _ _ _ Hf1) as [? Hf1']. destruct (other_prv _ _ _ Hl1) as [? Hl1'].
  rewrite (rd_links _ _ _ _ Hf1 Hf1'), (rd_links _ _ _ _ Hl1' Hl1). kstep.
  destruct (set_prev_run h1 n pf) as (h2 & -> & S2 & N2 & P2); [by apply S1|]. kstep.
  assert (prv h2 before = Some pb) as Hb2 by (by rewrite P2, P1, decide_False by congruence).
  destruct (other_nxt _ _ _ Hb2) as [? Hb2']. rewrite (rd_links _ _ _ _ Hb2 Hb2'). kstep.
  destruct (set_prev_run h2 first pb) as (h3 & -> & S3 & N3 & P3); [by apply S2, S1|]. kstep.
  destruct (set_next_run h3 last before) as (h4 & -> & S4 & P4 & N4); [by apply S3, S2, S1|]. kstep.
  assert (prv h4 before = Some pb) as Hb4 by (by rewrite P4, P3, decide_False by congruence).
  destruct (other_nxt _ _ _ Hb4) as [? Hb4']. rewrite (rd_links _ _ _ _ Hb4 Hb4'). kstep.
  destruct (set_next_run h4 pb first) as (h5 & -> & S5 & P5 & N5); [by apply S4, S3, S2, S1|]. kstep.
  destruct (set_prev_run h5 before last) as (h6 & -> & S6 & N6 & P6); [by apply S5, S4, S3, S2, S1|].
  exists h6. split; [done|]. split; [by repeat (eapply same_cells_trans; [eassumption|])|].
  split; intros y.
  - by rewrite N6, N5, N4, N3, N2, N1.
  - by rewrite P6, P5, P4, P3, P2, P1.
Qed.

(** Neighbours inside a list are not null. *)
Lemma rep_interior h l xs y ys : rep h l (xs ++ y :: ys) →
  nxt h y = Some (first_of l ys) ∧ prv h y = Some (last_of l xs) ∧
  first_of l ys ≠ NULL ∧ last_of l xs ≠ NULL.
Proof.
  intros R. destruct (rep_cut _ _ _ _ R) as (_ & [_ Hp] & _).
  pose proof (rep_shift _ _ _ _ _ R) as R'. destruct (rep_cut _ _ _ _ R') as (_ & [Hn _] & _).
  replace (last_of l (xs ++ [y])) with y in Hn by (unfold last_of; by rewrite last_snoc).
  pose proof (back_in l ys). pose proof (front_in l xs).
  split_and!; [done|done|eapply rep_nonnull; [exact R|set_solver]..].
Qed.

(** Blocks of pairwise disjoint cells. *)
Lemma rep_blocks h l xs Q S ys :
  rep h l (xs ++ Q ++ S ++ ys) →
  (path h (head l :: xs) ∧ path h Q ∧ path h S ∧ path h (ys ++ [tail l])) ∧
  (NoDup (head l :: xs) ∧ NoDup Q ∧ NoDup S ∧ NoDup (ys ++ [tail l])) ∧
  (∀ x, x ∈ head l :: xs → x ∉ Q) ∧ (∀ x, x ∈ head l :: xs → x ∉ S) ∧
  (∀ x, x ∈ head l :: xs → x ∉ ys ++ [tail l]) ∧ (∀ x, x ∈ Q → x ∉ S) ∧
  (∀ x, x ∈ Q → x ∉ ys ++ [tail l]) ∧ (∀ x, x ∈ S → x ∉ ys ++ [tail l]) ∧
  joined h (head l :: xs) (Q ++ S ++ ys ++ [tail l]) ∧
  joined h Q (S ++ ys ++ [tail l]) ∧ joined h S (ys ++ [tail l]).
Proof.
  intros R. pose proof (rep_path _ _ _ R) as HP. pose proof (rep_nodup _ _ _ R) as Hnd.
  rewrite <- !app_assoc, app_comm_cons in HP, Hnd.
  apply path_app in HP as (HP1 & J1 & HP). apply path_app in HP as (HPQ & J2 & HP).
  apply path_app in HP as (HPS & J3 & HP2).
  apply NoDup_app in Hnd as (N1 & D1 & Hnd). apply NoDup_app in Hnd as (NQ & D2 & Hnd).
  apply NoDup_app in Hnd as (NS & D3 & N2).
  split_and!; try done; intros x Hx Hx'; first [apply (D1 x Hx) | apply (D2 x Hx)];
    rewrite !elem_of_app in *; tauto.
Qed.

Lemma first_of_nonnull h l xs ys : rep h l (xs ++ ys) → first_of l ys ≠ NULL.
Proof.
  intros R. eapply rep_nonnull; [exact R|]. rewrite <- app_assoc, app_comm_cons, elem_of_app.
  right. apply back_in.
Qed.

(** [q] and [s] change places. *)
Lemma list_splice_rep h l xs b q f s ys :
  rep h l (xs ++ (b :: q) ++ (f :: s) ++ ys) →
  ∃ h', list_splice h b f (first_of l ys) = Ret h' ∧
    rep h' l (xs ++ (f :: s) ++ (b :: q) ++ ys) ∧ same_cells h h'.
Proof.
  intros R. set (Q := b :: q) in *. set (S := f :: s) in *.
  destruct (list.last Q) as [lq|] eqn:Elq; [|by apply last_None in Elq].
  destruct (list.last S) as [ls|] eqn:Els; [|by apply last_None in Els].
  destruct (rep_blocks _ _ _ _ _ _ R) as
    ((P1 & PQ & PS & P2) & (N1 & NQ & NS & N2) & D1 & D2 & D3 & D4 & D5 & D6 & J1 & J2 & J3).
  pose proof (J1 _ b (front_last _ _) eq_refl) as L1.
  pose proof (J2 _ f Elq eq_refl) as L2. pose proof (J3 _ _ Els (back_first _ _)) as L3.
  pose proof (front_in l xs) as I1. pose proof (back_in l ys) as I2.
  assert (list.head Q = Some b ∧ list.head S = Some f) as [Ehq Ehs] by done.
  assert (b ∈ Q) as Ib by left. assert (f ∈ S) as If by left.
  pose proof (last_Some_elem_of _ _ Elq) as Ilq. pose proof (last_Some_elem_of _ _ Els) as Ils.
  assert (∀ x, x ∈ head l :: xs ∨ x ∈ Q ∨ x ∈ S ∨ x ∈ ys ++ [tail l] → x ≠ NULL ∧ is_Some (h !! x)) as Hin.
  { intros x Hx. assert (x ∈ head l :: (xs ++ Q ++ S ++ ys) ++ [tail l]) as Hx'.
    { rewrite <- !app_assoc, app_comm_cons, !elem_of_app. rewrite elem_of_app in Hx. tauto. }
    split; [by eapply rep_nonnull|by eapply rep_mapped]. }
  assert (∃ nf, nxt h f = Some nf ∧ nf ≠ NULL) as (nf & Hnf & Hnf0).
  { unfold S in R. rewrite app_assoc in R. cbn [app] in R. destruct (rep_interior _ _ _ _ _ R). naive_solver. }
  assert (∃ pl, prv h ls = Some pl ∧ pl ≠ NULL) as (pl & Hpl & Hpl0).
  { apply last_Some in Els as [s0 Es]. rewrite Es in R.
    assert (rep h l ((xs ++ Q ++ s0) ++ ls :: ys)) as R'.
    { rewrite <- !app_assoc in R. by rewrite <- !app_assoc. }
    clear R. rename R' into R. destruct (rep_interior _ _ _ _ _ R). naive_solver. }
  destruct (list_splice_links h b f ls (first_of l ys) (last_of l xs) lq nf pl)
    as (h' & Hrun & Hsc & Hnx & Hpv); [done|done|done|done|done|done|done|..|].
  { repeat (apply Forall_cons_2; [apply Hin; tauto|]). apply Forall_nil_2. }
  1-6: cell_ne.
  exists h'. split; [done|]. split; [|done]. constructor.
  - eapply same_cells_null; [exact Hsc|apply R].
  - rewrite (Permutation_app_swap_app S Q ys). apply R.
  - rewrite <- !app_assoc, app_comm_cons, 3!path_app. split_and!.
    + apply (path_frame h); [done|..|done]; rewrite ?front_last; intros x Hx Hx';
        [by links Hnx|by links Hpv].
    + intros x y. rewrite front_last. intros [= <-] [= <-]. split; [by links Hnx|by links Hpv].
    + apply (path_frame h); [done|..|done]; rewrite ?Els, ?Ehs; intros x Hx Hx';
        [by links Hnx|by links Hpv].
    + intros x y. rewrite Els. intros [= <-] [= <-]. split; [by links Hnx|by links Hpv].
    + apply (path_frame h); [done|..|done]; rewrite ?Elq, ?Ehq; intros x Hx Hx';
        [by links Hnx|by links Hpv].
    + intros x y. rewrite Elq, back_first. intros [= <-] [= <-]. split; [by links Hnx|by links Hpv].
    + apply (path_frame h); [done|..|done]; rewrite ?back_first, ?back_last; intros x Hx Hx';
        [by links Hnx|by links Hpv].
  - assert (head l ∈ head l :: xs) by left. links Hpv. apply R.
  - assert (tail l ∈ ys ++ [tail l]) by set_solver. links Hnx. apply R.
Qed.

Section sort.
Context (less : addr → addr → bool).

(** In order: no element is less than the one before it. *)
Abbreviation in_order := (Sorted (λ a b, less b a = false)).

(** ** Runs *)

(** The run [x :: ys] starts with, and what follows it. *)
Fixpoint span_run (x : addr) (ys : list addr) : list addr * list addr :=
  match ys with
  | [] => ([x], [])
  | y :: ys' => if less y x then ([x], ys) else let '(r, rest) := span_run y ys' in (x :: r, rest)
  end.

(** The number of runs. *)
Fixpoint runs (xs : list addr) : nat :=
  match xs with
  | [] => 0
  | x :: ys => match ys with [] => 1 | y :: _ => (if less y x then 1 else 0) + runs ys end
  end.

Lemma span_run_spec x ys r rest : span_run x ys = (r, rest) →
  x :: ys = r ++ rest ∧ (∃ r', r = x :: r') ∧ in_order r ∧ runs (x :: ys) = S (runs rest).
Proof.
  revert x r rest. induction ys as [|y ys IH]; intros x r rest; cbn [span_run].
  - intros [= <- <-]. split_and!; [done|eauto|repeat constructor|done].
  - destruct (less y x) eqn:E.
    + intros [= <- <-]. split_and!; [done|eauto|repeat constructor|]. cbn [runs]. by rewrite E.
    + destruct (span_run y ys) as [r0 rest0] eqn:Es. intros [= <- <-].
      destruct (IH _ _ _ Es) as (Heq & [r' ->] & Hs & Hr). split_and!.
      * by rewrite Heq.
      * eauto.
      * constructor; [done|]. by constructor.
      * rewrite <- Hr. cbn [runs]. by rewrite E.
Qed.

Lemma runs_app_le xs ys : (runs (xs ++ ys) ≤ runs xs + runs ys)%nat.
Proof.
  induction xs as [|x xs IH]; [done|]. destruct xs as [|x' xs].
  - destruct ys as [|y ys]; [done|]. cbn [app runs]. destruct (less y x); simpl; lia.
  - cbn [app runs] in *. lia.
Qed.

Lemma runs_sorted xs : (runs xs ≤ 1)%nat ↔ in_order xs.
Proof.
  induction xs as [|x xs IH]; [split; [constructor|simpl; lia]|].
  destruct xs as [|y xs]; [split; [repeat constructor|simpl; lia]|].
  assert (1 ≤ runs (y :: xs))%nat as Hpos by (destruct (span_run y xs) eqn:E;
    apply span_run_spec in E; destruct E as (_ & _ & _ & ->); lia).
  change (runs (x :: y :: xs)) with ((if less y x then 1 else 0) + runs (y :: xs))%nat.
  split.
  - intros Hr. destruct (less y x) eqn:E; [lia|]. constructor; [apply IH; lia|by constructor].
  - intros [Hs Hx]%Sorted_inv. apply IH in Hs. apply HdRel_inv in Hx. rewrite Hx. lia.
Qed.

Lemma runs_length xs : (runs xs ≤ length xs)%nat.
Proof.
  induction xs as [|x xs IH]; [done|]. destruct xs as [|y xs]; [done|].
  cbn [runs length] in *. destruct (less y x); lia.
Qed.

(** ** Merging *)

Inductive merges : list addr → list addr → list addr → Prop :=
| merges_l B : merges [] B B
| merges_r A : merges A [] A
| merges_a a A b B m : less b a = false → merges A (b :: B) m → merges (a :: A) (b :: B) (a :: m)
| merges_b a A b B m : less b a = true → merges (a :: A) B m → merges (a :: A) (b :: B) (b :: m).

Lemma merges_perm A B m : merges A B m → A ++ B ≡ₚ m.
Proof.
  induction 1; [done|by rewrite app_nil_r|by simpl; f_equiv|].
  rewrite <- IHmerges. symmetry. apply (Permutation_middle (a :: A)).
Qed.

Context (less_asym : ∀ a b, less a b = true → less b a = false).

(** The head of a merge is the head of one of its parts. *)
Lemma merges_sorted A B m : merges A B m → in_order A → in_order B → in_order m.
Proof.
  induction 1 as [B|A|a A b B m Hba Hm IH|a A b B m Hba Hm IH]; intros HA HB; [done|done|..].
  - apply Sorted_inv in HA as [HA Ha]. constructor; [by apply IH|].
    inversion Hm; subst; constructor; first [done | by apply HdRel_inv in Ha].
  - apply Sorted_inv in HB as [HB Hb]. constructor; [by apply IH|].
    inversion Hm; subst; constructor; first [by apply less_asym | by apply HdRel_inv in Hb].
Qed.

(** ** Stability *)

(** Neither is less than the other. *)
Definition tie (x y : addr) : bool := negb (less x y) && negb (less y x).

(** When [less] is a strict weak order, elements that tie are in the same order in both lists. *)
Definition stable (xs ys : list addr) : Prop :=
  (∀ a b c, less a b = true → less a c = true ∨ less c b = true) →
  ∀ x, filter (λ y, tie x y = true) ys = filter (λ y, tie x y = true) xs.

Lemma stable_refl xs : stable xs xs.
Proof. done. Qed.
Lemma stable_trans xs ys zs : stable xs ys → stable ys zs → stable xs zs.
Proof. intros H1 H2 Hw x. by rewrite (H2 Hw), (H1 Hw). Qed.
Lemma stable_app xs ys xs' ys' : stable xs ys → stable xs' ys' → stable (xs ++ xs') (ys ++ ys').
Proof. intros H1 H2 Hw x. by rewrite !filter_app, (H1 Hw), (H2 Hw). Qed.

(** In a run nothing is less than the first element. *)
Lemma in_order_first a A x : (∀ a b c, less a b = true → less a c = true ∨ less c b = true) →
  in_order (a :: A) → x ∈ A → less x a = false.
Proof.
  intros Hw. revert a. induction A as [|b A IH]; intros a [Hs Ha]%Sorted_inv Hx; [by apply elem_of_nil in Hx|].
  apply HdRel_inv in Ha. apply elem_of_cons in Hx as [->|Hx]; [done|]. destruct (less x a) eqn:E; [|done].
  destruct (Hw x a b E) as [E'|E']; [|congruence]. by rewrite (IH b Hs Hx) in E'.
Qed.

Lemma merges_stable A B m : merges A B m → in_order A → stable (A ++ B) m.
Proof.
  induction 1 as [B|A|a A b B m Hba Hm IH|a A b B m Hba Hm IH]; intros HA Hw x; [done|by rewrite app_nil_r|..].
  - apply Sorted_inv in HA as [HA Ha]. cbn [app]. by rewrite !filter_cons, (IH HA Hw x).
  - specialize (IH HA Hw x). rewrite (filter_cons _ b m), IH, !filter_app, (filter_cons _ b B). case_decide as Hb; [|done].
    destruct (filter (λ y, tie x y = true) (a :: A)) as [|y l] eqn:Ef; [done|exfalso].
    assert (y ∈ filter (λ y, tie x y = true) (a :: A)) as [Hxy Hy]%list_elem_of_filter by (rewrite Ef; by left). unfold tie in Hb, Hxy.
    apply andb_true_iff in Hb as [Hb1 Hb2], Hxy as [Hy1 Hy2].
    apply negb_true_iff in Hb1, Hb2, Hy1, Hy2. assert (less b y = true) as E.
    { apply elem_of_cons in Hy as [->|Hy]; [done|]. destruct (Hw b a y Hba) as [?|E]; [done|].
      by rewrite (in_order_first a A y Hw HA Hy) in E. }
    destruct (Hw b y x E); congruence.
Qed.

Lemma inplace_merge_loop_run fuel h l xs A B ys :
  rep h l (xs ++ A ++ B ++ ys) → (length A + length B < fuel)%nat →
  ∃ h' m, inplace_merge_loop less fuel h (first_of l (A ++ B ++ ys)) (first_of l (B ++ ys))
            (first_of l ys) = Ret h' ∧
    rep h' l (xs ++ m ++ ys) ∧ same_cells h h' ∧ merges A B m.
Proof.
  revert h xs A B. induction fuel as [|fuel IH]; intros h xs A B R Hf; [lia|].
  cbn [inplace_merge_loop]. destruct A as [|a A].
  { rewrite bool_decide_true by done. exists h, B. split_and!; [done|done|done|constructor]. }
  destruct B as [|b B].
  { rewrite (bool_decide_true (first_of l ([] ++ ys) = _)) by done. rewrite orb_true_r.
    exists h, (a :: A). split_and!; [done|done|done|constructor]. }
  pose proof (rep_distinct h l xs a A ((b :: B) ++ ys) R) as Hab.
  change (first_of l ((a :: A) ++ (b :: B) ++ ys)) with a in *.
  change (first_of l ((b :: B) ++ ys)) with b in *. rewrite Hab.
  assert (rep h l ((xs ++ a :: A) ++ b :: B ++ ys)) as Rb by (by rewrite <- app_assoc).
  rewrite (rep_distinct _ _ _ _ _ _ Rb). cbn [orb]. destruct (less b a) eqn:Hba; cbn [negb].
  - rewrite (list_next_rep _ _ _ _ _ Rb). kstep.
    rewrite (list_prev_rep h l ((xs ++ a :: A) ++ [b]) (B ++ ys)) by (by rewrite <- app_assoc). kstep.
    replace (last_of l ((xs ++ a :: A) ++ [b])) with b by (unfold last_of; by rewrite last_snoc).
    destruct (list_splice_rep h l xs a A b [] (B ++ ys) R) as (h1 & -> & R1 & S1). kstep.
    destruct (IH h1 (xs ++ [b]) (a :: A) B) as (h' & m & Hrun & R' & S' & Hm);
      [by rewrite <- app_assoc|simpl in *; lia|].
    exists h', (b :: m). split_and!; [exact Hrun|by rewrite <- app_assoc in R'| |by constructor].
    by eapply same_cells_trans.
  - rewrite (list_next_rep h l xs a (A ++ (b :: B) ++ ys) R). kstep.
    destruct (IH h (xs ++ [a]) A (b :: B)) as (h' & m & Hrun & R' & S' & Hm);
      [by rewrite <- app_assoc|simpl in *; lia|].
    exists h', (a :: m). split_and!; [exact Hrun|by rewrite <- app_assoc in R'|done|by constructor].
Qed.

Lemma is_sorted_loop_run fuel h l xs y ys zs :
  rep h l (xs ++ y :: ys ++ zs) → in_order (y :: ys) → (length ys < fuel)%nat →
  is_sorted_loop less fuel h y (first_of l zs) = Ret true.
Proof.
  revert fuel xs y. induction ys as [|y' ys IH]; intros [|fuel] xs y R Hs Hf; simpl in Hf; try lia;
    cbn [is_sorted_loop]; rewrite (list_next_rep _ _ _ _ _ R); kstep.
  - by rewrite bool_decide_true.
  - apply Sorted_inv in Hs as [Hs Hy%HdRel_inv].
    pose proof (rep_shift _ _ _ _ _ R) as R'.
    change (first_of l ((y' :: ys) ++ zs)) with y'.
    rewrite (rep_distinct h l (xs ++ [y]) y' ys zs R').
    pose proof (list_prev_rep _ _ _ _ R') as Hp.
    change (list_prev h y' = Ret (last_of l (xs ++ [y]))) in Hp. rewrite Hp. kstep.
    replace (last_of l (xs ++ [y])) with y by (unfold last_of; by rewrite last_snoc).
    rewrite Hy. by apply (IH fuel (xs ++ [y])); [|done|lia].
Qed.

Lemma is_sorted_run h l xs ys zs :
  rep h l (xs ++ ys ++ zs) → in_order ys →
  is_sorted less h (first_of l (ys ++ zs)) (first_of l zs) = Ret true.
Proof.
  intros R Hs. unfold is_sorted. destruct ys as [|y ys]; [by rewrite bool_decide_true|].
  pose proof (rep_distinct h l xs y ys zs R) as Hd.
  change (first_of l ((y :: ys) ++ zs)) with y. rewrite Hd.
  eapply is_sorted_loop_run; [exact R|done|]. pose proof (rep_fuel _ _ _ R) as Hf.
  rewrite !length_app in Hf. simpl in Hf. lia.
Qed.

Lemma find_end_of_run_loop_run fuel h l xs y ys r rest :
  rep h l (xs ++ y :: ys) → (length ys < fuel)%nat → span_run y ys = (r, rest) →
  find_end_of_run_loop less fuel h y (list_end l) = Ret (first_of l rest).
Proof.
  revert fuel xs y r rest. induction ys as [|y' ys IH]; intros [|fuel] xs y r rest R Hf;
    simpl in Hf; try lia; cbn [find_end_of_run_loop span_run];
    rewrite (list_next_rep _ _ _ _ _ R); kstep.
  - rewrite bool_decide_true by done. by intros [= <- <-].
  - change (first_of l (y' :: ys)) with y'. pose proof (rep_shift _ _ _ _ _ R) as R'.
    rewrite (rep_not_end _ _ _ _ _ R').
    pose proof (list_prev_rep _ _ _ _ R') as Hp.
    change (list_prev h y' = Ret (last_of l (xs ++ [y]))) in Hp. rewrite Hp. kstep.
    replace (last_of l (xs ++ [y])) with y by (unfold last_of; by rewrite last_snoc).
    destruct (less y' y); kstep; [by intros [= <- <-]|].
    destruct (span_run y' ys) as [r0 rest0] eqn:Es. intros [= <- <-].
    by eapply IH; [exact R'|lia|].
Qed.

Lemma find_end_of_run_run h l xs y ys r rest :
  rep h l (xs ++ y :: ys) → span_run y ys = (r, rest) →
  find_end_of_run less h y (list_end l) = Ret (first_of l rest).
Proof.
  intros R Hs. unfold find_end_of_run.
  rewrite (is_null_false y (first_of_nonnull _ _ _ _ R)).
  rewrite (is_null_false (list_end l)).
  2: { apply (first_of_nonnull h l (xs ++ y :: ys) []). by rewrite app_nil_r. }
  kstep.
  rewrite bool_decide_not, (rep_not_end _ _ _ _ _ R). kstep.
  eapply find_end_of_run_loop_run; [exact R| |done].
  pose proof (rep_fuel _ _ _ R) as Hf. rewrite length_app in Hf. simpl in Hf. lia.
Qed.

Lemma inplace_merge_run h l xs A B ys :
  rep h l (xs ++ A ++ B ++ ys) → in_order A → in_order B →
  ∃ h' m, inplace_merge less h (first_of l (A ++ B ++ ys)) (first_of l (B ++ ys))
            (first_of l ys) = Ret h' ∧
    rep h' l (xs ++ m ++ ys) ∧ same_cells h h' ∧ merges A B m.
Proof.
  intros R HA HB. unfold inplace_merge.
  assert (rep h l ((xs ++ A) ++ B ++ ys)) as R2 by (by rewrite <- app_assoc).
  assert (rep h l (((xs ++ A) ++ B) ++ ys)) as R3 by (by rewrite <- app_assoc).
  rewrite (is_null_false (first_of l (A ++ B ++ ys)) (first_of_nonnull _ _ _ _ R)).
  rewrite (is_null_false (first_of l (B ++ ys)) (first_of_nonnull _ _ _ _ R2)).
  rewrite (is_null_false (first_of l ys) (first_of_nonnull _ _ _ _ R3)). kstep.
  rewrite (is_sorted_run h l xs A (B ++ ys) R HA). kstep.
  rewrite (is_sorted_run h l (xs ++ A) B ys R2 HB). kstep.
  apply inplace_merge_loop_run; [done|]. pose proof (rep_fuel _ _ _ R) as Hf.
  rewrite !length_app in Hf. lia.
Qed.

(** ** Passes *)

(** A pass halves the number of runs. *)
Lemma list_sort_pass_run fuel h l xs ys cnt :
  rep h l (xs ++ ys) → (length ys < fuel)%nat →
  ∃ h' ys' k, list_sort_pass less fuel h l (first_of l ys) cnt = Ret (cnt + Z.of_nat k, h') ∧
    rep h' l (xs ++ ys') ∧ same_cells h h' ∧ ys ≡ₚ ys' ∧ stable ys ys' ∧
    (runs ys' ≤ k)%nat ∧ (2 * k ≤ runs ys + 1)%nat.
Proof.
  revert h xs ys cnt. induction fuel as [|fuel IH]; intros h xs ys cnt R Hf; [lia|].
  cbn [list_sort_pass]. destruct ys as [|y ys].
  { rewrite bool_decide_true by done. exists h, [], 0%nat. rewrite Z.add_0_r.
    split_and!; [done|done|done|done|done|simpl; lia|lia]. }
  change (first_of l (y :: ys)) with y. rewrite (rep_not_end _ _ _ _ _ R).
  destruct (span_run y ys) as [A rest] eqn:EA.
  rewrite (find_end_of_run_run _ _ _ _ _ _ _ R EA). kstep.
  apply span_run_spec in EA as (Eys & [A' EA'] & HA & HrA). rewrite Eys in R, HrA, Hf |- *.
  destruct rest as [|b rest].
  { rewrite bool_decide_true by done. exists h, (A ++ []), 1%nat. rewrite HrA.
    split_and!; [done|done|done|done|done|simpl; lia|simpl; lia]. }
  assert (rep h l ((xs ++ A) ++ b :: rest)) as Rb by (by rewrite <- app_assoc).
  change (first_of l (b :: rest)) with b. rewrite (rep_not_end _ _ _ _ _ Rb).
  destruct (span_run b rest) as [B post] eqn:EB.
  rewrite (find_end_of_run_run _ _ _ _ _ _ _ Rb EB). kstep.
  apply span_run_spec in EB as (Eb & [B' EB'] & HB & HrB). rewrite HrB in HrA. rewrite Eb in R.
  destruct (inplace_merge_run h l xs A B post R HA HB) as (h1 & m & Hm & R1 & S1 & Hmg).
  assert (first_of l (A ++ B ++ post) = y) as F1 by (by rewrite EA').
  assert (first_of l (B ++ post) = b) as F2 by (by rewrite EB').
  rewrite F1, F2 in Hm. rewrite Hm. kstep.
  destruct (IH h1 (xs ++ m) post (cnt + 1)) as (h' & ys' & k & -> & R' & S' & Hp & Hst & Hk1 & Hk2).
  { by rewrite <- app_assoc. }
  { rewrite Eb, !length_app in Hf. rewrite EA', EB' in Hf. simpl in Hf. lia. }
  exists h', (m ++ ys'), (S k). split_and!.
  - f_equal. f_equal. lia.
  - by rewrite <- app_assoc in R'.
  - by eapply same_cells_trans.
  - rewrite Eb, <- Hp, <- (merges_perm _ _ _ Hmg). by rewrite <- app_assoc.
  - rewrite Eb, app_assoc. apply stable_app; [by apply merges_stable|done].
  - pose proof (runs_app_le m ys').
    pose proof (proj2 (runs_sorted m) (merges_sorted _ _ _ Hmg HA HB)). lia.
  - lia.
Qed.

Lemma list_sort_loop_run fuel h l xs :
  rep h l xs → (runs xs < fuel)%nat →
  ∃ h' ys, list_sort_loop less fuel h l = Ret h' ∧ rep h' l ys ∧ same_cells h h' ∧
    xs ≡ₚ ys ∧ in_order ys ∧ stable xs ys.
Proof.
  revert h xs. induction fuel as [|fuel IH]; intros h xs R Hf; [lia|].
  cbn [list_sort_loop]. rewrite (list_begin_run _ _ _ R). kstep.
  destruct (list_sort_pass_run (fuel_of h) h l [] xs 0 R) as (h1 & ys & k & -> & R1 & S1 & Hp & Hst & Hk1 & Hk2).
  { pose proof (rep_fuel _ _ _ R). lia. }
  kstep. destruct (Z.ltb_spec 1 (0 + Z.of_nat k)) as [Hk|Hk].
  - destruct (IH h1 ys R1) as (h' & zs & -> & R' & S' & Hp' & Hs & Hst'); [lia|].
    exists h', zs. split_and!; [done|done|by eapply same_cells_trans|by rewrite Hp|done|by eapply stable_trans].
  - exists h1, ys. split_and!; [done|done|done|done| |done]. apply runs_sorted. lia.
Qed.

(** C8. [list_sort] on a list in the heap returns, whatever the number of
    elements: no assertion of it, of [inplace_merge] or of [list_splice] fails,
    no loop runs away, and the cells it leaves linked between the headers are the
    elements it was given, none of them less than the one before it, when [less]
    never orders two elements both ways.  If [less] is a strict weak order the sort
    is stable: the elements that tie with any given one keep their order. *)
Theorem list_sort_sorts h l xs :
  rep h l xs →
  ∃ h' ys, list_sort less h l = Ret h' ∧ rep h' l ys ∧ xs ≡ₚ ys ∧ in_order ys ∧
    ((∀ a b c, less a b = true → less a c = true ∨ less c b = true) →
     ∀ x, filter (λ y, tie x y = true) ys = filter (λ y, tie x y = true) xs).
Proof.
  intros R. unfold list_sort.
  destruct (list_sort_loop_run (fuel_of h) h l xs R) as (h' & ys & -> & R' & S' & Hp & Hs & Hst).
  { pose proof (rep_fuel _ _ _ R). pose proof (runs_length xs). lia. }
  kstep. rewrite (list_begin_run _ _ _ R'). kstep.
  pose proof (is_sorted_run h' l [] ys []) as Hso. rewrite app_nil_r in Hso.
  change (first_of l []) with (list_end l) in Hso. rewrite Hso by done. kstep. by exists h', ys.
Qed.

End sort.

(** ** A heap with an empty list and four free cells *)

Definition demo_list : klist := mk_klist 1 2.
Definition demo_heap : heap :=
  list_to_map [(1, mk_elem 0 2); (2, mk_elem 1 0); (3, mk_elem 0 0); (4, mk_elem 0 0);
               (5, mk_elem 0 0); (6, mk_elem 0 0)]%nat.

Lemma list_init_rep h l : h !! NULL = None → is_Some (h !! head l) → is_Some (h !! tail l) →
  head l ≠ tail l → ∃ h', list_init h l = Ret h' ∧ rep h' l [] ∧ same_cells h h'.
Proof.
  intros H0 Hh Ht Hne. unfold list_init.
  destruct (set_prev_run h (head l) NULL Hh) as (h1 & -> & S1 & N1 & P1). kstep.
  destruct (set_next_run h1 (head l) (tail l)) as (h2 & -> & S2 & P2 & N2); [by apply S1|]. kstep.
  destruct (set_prev_run h2 (tail l) (head l)) as (h3 & -> & S3 & N3 & P3); [by apply S2, S1|]. kstep.
  destruct (set_next_run h3 (tail l) NULL) as (h4 & -> & S4 & P4 & N4); [by apply S3, S2, S1|].
  assert (same_cells h h4) as Hsc by (by repeat (eapply same_cells_trans; [eassumption|])).
  exists h4. split; [done|]. split; [|done]. constructor.
  - by eapply same_cells_null.
  - cbn [app]. apply NoDup_cons. split; [set_solver|]. apply NoDup_singleton.
  - split; [|done]. split.
    + rewrite N4, N3, N2, decide_False, decide_True; done.
    + rewrite P4, P3, decide_True; done.
  - rewrite P4, P3, P2, P1, decide_False, decide_True; done.
  - by rewrite N4, decide_True.
Qed.

Lemma demo_rep : rep demo_heap demo_list [].
Proof.
  constructor; [by vm_compute| |by vm_compute..].
  apply NoDup_cons. split; [vm_compute; set_solver|]. apply NoDup_singleton.
Qed.

(** Cells 5, 3 and 6 pushed, 4 inserted in order, the front popped. *)
Lemma list_ops_refine_witness :
  ∃ h', heap_ops Nat.ltb [Push_back 5; Push_front 3; Push_back 6; Insert_ordered 4; Pop_front; Max; Size]%nat
          demo_list demo_heap = Ret ([0; 0; 0; 0; 3; 6; 3], h') ∧ rep h' demo_list [4; 5; 6]%nat.
Proof.
  eapply list_ops_refine; [exact demo_rep| |vm_compute; reflexivity].
  repeat (apply Forall_cons_2; [split_and!; vm_compute; [by eexists|done..]|]). apply Forall_nil_2.
Defined.

(** The cells 5, 4, 6, 3 linked in this order. *)
Definition demo_linked : heap :=
  list_to_map [(1, mk_elem 0 5); (5, mk_elem 1 4); (4, mk_elem 5 6); (6, mk_elem 4 3);
               (3, mk_elem 6 2); (2, mk_elem 3 0)]%nat.

Lemma demo_linked_rep : rep demo_linked demo_list [5; 4; 6; 3]%nat.
Proof.
  constructor; [by vm_compute| |by vm_compute..].
  apply (bool_decide_unpack _). by vm_compute.
Qed.

(** Four cells in an order the comparison does not have, sorted. *)
Lemma list_sort_sorts_witness :
  ∃ h' ys, list_sort Nat.ltb demo_linked demo_list = Ret h' ∧ rep h' demo_list ys ∧
    [5; 4; 6; 3]%nat ≡ₚ ys ∧ Sorted (λ a b, Nat.ltb b a = false) ys.
Proof.
  destruct (list_sort_sorts Nat.ltb) with (h := demo_linked) (l := demo_list) (xs := [5; 4; 6; 3]%nat)
    as (h' & ys & H1 & H2 & H3 & H4 & _); [|exact demo_linked_rep|by exists h', ys].
  intros a b. rewrite Nat.ltb_lt, Nat.ltb_ge. lia.
Defined.

End KListSort.
