(* ===== verification/FixedPoint.v ===== *)
(** * Fixed-point arithmetic: [threads/fixed-point.h]

    16.16 numbers in a C [int], as the multi-level feedback scheduler uses them.
    Signed overflow of an [int] expression is undefined behaviour; a [long long]
    intermediate is wide enough for every product, and its conversion to [int]
    wraps. *)

From stdpp Require Import base tactics numbers.
From S2P Require Import Prelude.

Module FixedPoint.

Definition FIX_P : Z := 16.
Definition FIX_Q : Z := 16.
Definition FIX_F : Z := Z.shiftl 1 FIX_Q.
Definition FIX_MAX_INT : Z := Z.shiftl 1 FIX_P - 1.
Definition FIX_MIN_INT : Z := - FIX_MAX_INT.

(** The value of an [int] expression. *)
Definition int_expr (x : Z) : outcome Z :=
  if (- 2 ^ 31 <=? x) && (x <? 2 ^ 31) then Ret x else UB.

(** [fixed_point_t] *)
Record fixed_point_t := mk_fix { f : Z }.

Definition fix_int (n : Z) : outcome fixed_point_t :=
  ASSERT ((FIX_MIN_INT <=? n) && (n <=? FIX_MAX_INT));;
  v ← int_expr (n * FIX_F); Ret (mk_fix v).

Definition fix_frac (n d : Z) : outcome fixed_point_t :=
  ASSERT (negb (d =? 0));;
  q ← int_expr (Z.quot n d);
  ASSERT ((FIX_MIN_INT <=? q) && (q <=? FIX_MAX_INT));;
  Ret (mk_fix (s32 (Z.quot (n * FIX_F) d))).

Definition fix_round (x : fixed_point_t) : outcome Z :=
  v ← int_expr (f x + Z.quot FIX_F 2); Ret (Z.quot v FIX_F).

Definition fix_trunc (x : fixed_point_t) : Z := Z.quot (f x) FIX_F.

Definition fix_add (x y : fixed_point_t) : outcome fixed_point_t :=
  v ← int_expr (f x + f y); Ret (mk_fix v).

Definition fix_sub (x y : fixed_point_t) : outcome fixed_point_t :=
  v ← int_expr (f x - f y); Ret (mk_fix v).

Definition fix_mul (x y : fixed_point_t) : fixed_point_t :=
  mk_fix (s32 (Z.quot (f x * f y) FIX_F)).

Definition fix_scale (x : fixed_point_t) (n : Z) : outcome fixed_point_t :=
  ASSERT (0 <=? n);;
  v ← int_expr (f x * n); Ret (mk_fix v).

Definition fix_div (x y : fixed_point_t) : outcome fixed_point_t :=
  DEFINED (negb (f y =? 0));;
  Ret (mk_fix (s32 (Z.quot (f x * FIX_F) (f y)))).

Definition fix_unscale (x : fixed_point_t) (n : Z) : outcome fixed_point_t :=
  ASSERT (0 <? n);;
  Ret (mk_fix (Z.quot (f x) n)).

Definition fix_inv (x : fixed_point_t) : outcome fixed_point_t :=
  one ← fix_int 1; fix_div one x.

Definition fix_compare (x y : fixed_point_t) : Z :=
  if f x <? f y then -1 else if f y <? f x then 1 else 0.

(** ** Lemmas *)

Lemma int_expr_ok x : - 2 ^ 31 ≤ x < 2 ^ 31 → int_expr x = Ret x.
Proof.
  intros. unfold int_expr. destruct (Z.leb_spec (- 2 ^ 31) x), (Z.ltb_spec x (2 ^ 31)); [done|lia..].
Qed.

Lemma int_expr_Ret x v : int_expr x = Ret v ↔ v = x ∧ - 2 ^ 31 ≤ x < 2 ^ 31.
Proof.
  unfold int_expr. destruct (Z.leb_spec (- 2 ^ 31) x), (Z.ltb_spec x (2 ^ 31)); naive_solver lia.
Qed.

Lemma fix_F : FIX_F = 65536.
Proof. done. Qed.

(** Division toward zero loses less than the divisor. *)
Lemma quot_error x d : 0 < d → Z.abs (x - d * Z.quot x d) < d.
Proof.
  intros Hd. pose proof (Z.quot_rem x d ltac:(lia)) as Hq. pose proof (Z.rem_bound_abs x d ltac:(lia)). lia.
Qed.

Lemma quot_abs_le x d : 0 < d → Z.abs (Z.quot x d) * d ≤ Z.abs x.
Proof.
  intros Hd. pose proof (Z.quot_rem x d ltac:(lia)) as Hq. destruct (Z.le_ge_cases 0 x).
  - pose proof (Z.rem_bound_pos x d ltac:(lia) ltac:(lia)).
    pose proof (Z.quot_pos x d ltac:(lia) ltac:(lia)). lia.
  - pose proof (Z.rem_nonpos x d ltac:(lia) ltac:(lia)).
    pose proof (Z.quot_pos (- x) d ltac:(lia) ltac:(lia)) as Hp. rewrite Z.quot_opp_l in Hp by lia. lia.
Qed.

(** [fix_int] on the integers the format holds, and back. *)
Lemma fix_int_run n : - 32768 ≤ n < 32768 → fix_int n = Ret (mk_fix (n * FIX_F)).
Proof.
  intros Hn. unfold fix_int. rewrite (int_expr_ok (n * FIX_F)) by (rewrite fix_F; lia).
  change FIX_MIN_INT with (-65535). change FIX_MAX_INT with 65535.
  destruct (Z.leb_spec (-65535) n), (Z.leb_spec n 65535); [done|lia..].
Qed.

Lemma fix_round_nonneg x : 0 ≤ f x < 2 ^ 31 - 32768 → fix_round x = Ret ((f x + 32768) / FIX_F).
Proof.
  intros Hx. unfold fix_round. change (Z.quot FIX_F 2) with 32768. rewrite int_expr_ok by lia.
  cbn [mbind outcome_bind]. by rewrite Z.quot_div_nonneg by (rewrite ?fix_F; lia).
Qed.

(** The operations are exact where they can be and off by less than one unit in
    the last place otherwise: an integer the format holds converts and truncates back to itself, addition is
    exact, a product or quotient that fits differs from the real one by less than
    1/65536, and rounding a number that is not negative gives a nearest integer. *)
Theorem fixed_point_accuracy :
  (∀ n, - 32768 ≤ n < 32768 → ∃ x, fix_int n = Ret x ∧ fix_trunc x = n) ∧
  (∀ x y, - 2 ^ 31 ≤ f x + f y < 2 ^ 31 → fix_add x y = Ret (mk_fix (f x + f y))) ∧
  (∀ x y, Z.abs (f x * f y) < 2 ^ 31 * FIX_F →
     Z.abs (FIX_F * f (fix_mul x y) - f x * f y) < FIX_F) ∧
  (∀ x y, 0 < f y → Z.abs (f x * FIX_F) < 2 ^ 31 * f y →
     ∃ q, fix_div x y = Ret q ∧ Z.abs (f y * f q - f x * FIX_F) < f y) ∧
  (∀ x, 0 ≤ f x < 2 ^ 31 - 32768 → ∃ r, fix_round x = Ret r ∧ 2 * Z.abs (f x - FIX_F * r) ≤ FIX_F).
Proof.
  split_and!.
  - intros n Hn. exists (mk_fix (n * FIX_F)). split; [by apply fix_int_run|].
    unfold fix_trunc. cbn [f]. by rewrite Z.quot_mul by done.
  - intros x y H. unfold fix_add. by rewrite int_expr_ok.
  - intros x y H. unfold fix_mul. cbn [f]. rewrite fix_F in *.
    pose proof (quot_abs_le (f x * f y) 65536 ltac:(lia)).
    pose proof (quot_error (f x * f y) 65536 ltac:(lia)). rewrite s32_small by lia. lia.
  - intros x y Hy H. unfold fix_div. destruct (Z.eqb_spec (f y) 0); [lia|].
    cbn [negb DEFINED mbind outcome_bind]. eexists. split; [reflexivity|]. cbn [f].
    pose proof (quot_abs_le (f x * FIX_F) (f y) Hy). pose proof (quot_error (f x * FIX_F) (f y) Hy).
    rewrite s32_small by nia. lia.
  - intros x Hx. rewrite fix_round_nonneg by done. eexists. split; [done|].
    rewrite fix_F. pose proof (Z.div_mod (f x + 32768) 65536 ltac:(lia)).
    pose proof (Z.mod_pos_bound (f x + 32768) 65536 ltac:(lia)). lia.
Qed.

(** [fix_round] does not round to the nearest integer below zero: it adds one
    half and then truncates toward zero, so that [-1.0] rounds to [0] and every
    integer of the format below zero rounds to the next one up. *)
Theorem fix_round_negative_wrong n : - 32768 ≤ n < 0 →
  ∃ x, fix_int n = Ret x ∧ fix_round x = Ret (n + 1).
Proof.
  intros Hn. exists (mk_fix (n * FIX_F)). split; [apply fix_int_run; lia|].
  unfold fix_round. change (Z.quot FIX_F 2) with 32768. rewrite fix_F. cbn [f].
  rewrite int_expr_ok by lia. cbn [mbind outcome_bind]. f_equal.
  replace (n * 65536 + 32768) with (- ((- n - 1) * 65536 + 32768)) by lia.
  rewrite Z.quot_opp_l, Z.quot_div_nonneg by lia. rewrite Z.div_add_l by lia.
  change (32768 / 65536) with 0. lia.
Qed.

Lemma fix_round_negative_wrong_witness : ∃ x, fix_int (-1) = Ret x ∧ fix_round x = Ret 0.
Proof. apply (fix_round_negative_wrong (-1)). lia. Defined.

End FixedPoint.
