(* ===== verification/ThreadState.v ===== *)
(** * Threads: the scheduler's state

    [struct thread], the static variables of [threads/thread.c] and
    [devices/timer.c], and functional updates of their fields. *)

From stdpp Require Import base tactics numbers list option.
From S2P Require Import Prelude.

Module ThreadState.

(** [struct thread *]: the page a thread lives in. *)
Abbreviation tptr := nat.

(** [struct lock *]: the guard of a readers-writers lock, the lock of tid
    allocation, any other lock. *)
Inductive lid := L_tid | L_rw (r : nat) | L_lock (n : nat).

#[global] Instance lid_eq_dec : EqDecision lid.
Proof. solve_decision. Defined.

(** [enum thread_status] *)
Inductive thread_status := THREAD_RUNNING | THREAD_READY | THREAD_BLOCKED | THREAD_DYING.

#[global] Instance thread_status_eq_dec : EqDecision thread_status.
Proof. solve_decision. Defined.

(** [enum sched_policy] *)
Inductive sched_policy := SCHED_FIFO | SCHED_PRIO | SCHED_FAIR | SCHED_MLFQS.

#[global] Instance sched_policy_eq_dec : EqDecision sched_policy.
Proof. solve_decision. Defined.

(** [enum fair_sched_type] *)
Inductive fair_sched_type :=
  FAIR_SCHED_STRIDE | FAIR_SCHED_LOTTERY | FAIR_SCHED_CFS | FAIR_SCHED_EEVDF.

#[global] Instance fair_sched_type_eq_dec : EqDecision fair_sched_type.
Proof. solve_decision. Defined.

Definition PRI_MIN : Z := 0.
Definition PRI_DEFAULT : Z := 31.
Definition PRI_MAX : Z := 63.

(** [struct thread]: the fields the scheduler and the synchronisation code use.
    [magic] is whether the page still holds a thread ([magic == THREAD_MAGIC]). *)
Record thread := mk_thread {
  tid : Z;
  status : thread_status;
  priority : Z;
  eff_priority : Z;
  waiting_lock : option lid;
  held_locks : list lid;
  wake_up_tick : Z;
  tickets : Z;
  stride : Z;
  pass : Z;
  vruntime : Z;
  deadline : Z;
  nice_fair : Z;
  nice : Z;
  recent_cpu : Z;
  has_pcb : bool;
  magic : bool }.

Definition with_tid (r : thread) (v : Z) : thread :=
  mk_thread v (status r) (priority r) (eff_priority r) (waiting_lock r) (held_locks r)
    (wake_up_tick r) (tickets r) (stride r) (pass r) (vruntime r) (deadline r) (nice_fair r) (nice
    r) (recent_cpu r) (has_pcb r) (magic r).
Definition with_status (r : thread) (v : thread_status) : thread :=
  mk_thread (tid r) v (priority r) (eff_priority r) (waiting_lock r) (held_locks r) (wake_up_tick
    r) (tickets r) (stride r) (pass r) (vruntime r) (deadline r) (nice_fair r) (nice r) (recent_cpu
    r) (has_pcb r) (magic r).
Definition with_priority (r : thread) (v : Z) : thread :=
  mk_thread (tid r) (status r) v (eff_priority r) (waiting_lock r) (held_locks r) (wake_up_tick r)
    (tickets r) (stride r) (pass r) (vruntime r) (deadline r) (nice_fair r) (nice r) (recent_cpu r)
    (has_pcb r) (magic r).
Definition with_eff_priority (r : thread) (v : Z) : thread :=
  mk_thread (tid r) (status r) (priority r) v (waiting_lock r) (held_locks r) (wake_up_tick r)
    (tickets r) (stride r) (pass r) (vruntime r) (deadline r) (nice_fair r) (nice r) (recent_cpu r)
    (has_pcb r) (magic r).
Definition with_waiting_lock (r : thread) (v : option lid) : thread :=
  mk_thread (tid r) (status r) (priority r) (eff_priority r) v (held_locks r) (wake_up_tick r)
    (tickets r) (stride r) (pass r) (vruntime r) (deadline r) (nice_fair r) (nice r) (recent_cpu r)
    (has_pcb r) (magic r).
Definition with_held_locks (r : thread) (v : list lid) : thread :=
  mk_thread (tid r) (status r) (priority r) (eff_priority r) (waiting_lock r) v (wake_up_tick r)
    (tickets r) (stride r) (pass r) (vruntime r) (deadline r) (nice_fair r) (nice r) (recent_cpu r)
    (has_pcb r) (magic r).
Definition with_wake_up_tick (r : thread) (v : Z) : thread :=
  mk_thread (tid r) (status r) (priority r) (eff_priority r) (waiting_lock r) (held_locks r) v
    (tickets r) (stride r) (pass r) (vruntime r) (deadline r) (nice_fair r) (nice r) (recent_cpu r)
    (has_pcb r) (magic r).
Definition with_vruntime (r : thread) (v : Z) : thread :=
  mk_thread (tid r) (status r) (priority r) (eff_priority r) (waiting_lock r) (held_locks r)
    (wake_up_tick r) (tickets r) (stride r) (pass r) v (deadline r) (nice_fair r) (nice r)
    (recent_cpu r) (has_pcb r) (magic r).
Definition with_deadline (r : thread) (v : Z) : thread :=
  mk_thread (tid r) (status r) (priority r) (eff_priority r) (waiting_lock r) (held_locks r)
    (wake_up_tick r) (tickets r) (stride r) (pass r) (vruntime r) v (nice_fair r) (nice r)
    (recent_cpu r) (has_pcb r) (magic r).
Definition with_nice (r : thread) (v : Z) : thread :=
  mk_thread (tid r) (status r) (priority r) (eff_priority r) (waiting_lock r) (held_locks r)
    (wake_up_tick r) (tickets r) (stride r) (pass r) (vruntime r) (deadline r) (nice_fair r) v
    (recent_cpu r) (has_pcb r) (magic r).
Definition with_recent_cpu (r : thread) (v : Z) : thread :=
  mk_thread (tid r) (status r) (priority r) (eff_priority r) (waiting_lock r) (held_locks r)
    (wake_up_tick r) (tickets r) (stride r) (pass r) (vruntime r) (deadline r) (nice_fair r) (nice
    r) v (has_pcb r) (magic r).
Definition with_magic (r : thread) (v : bool) : thread :=
  mk_thread (tid r) (status r) (priority r) (eff_priority r) (waiting_lock r) (held_locks r)
    (wake_up_tick r) (tickets r) (stride r) (pass r) (vruntime r) (deadline r) (nice_fair r) (nice
    r) (recent_cpu r) (has_pcb r) v.

(** The static variables of [thread.c] and [timer.c], and the thread pages. *)
Record sched := mk_sched {
  threads : tptr → thread;
  current : tptr;
  idle_thread : option tptr;
  initial_thread : tptr;
  fifo_ready_list : list tptr;
  priority_ready_list : list tptr;
  fair_ready_list : list tptr;
  all_list : list tptr;
  sleeping_threads : list tptr;
  active_sched_policy : sched_policy;
  active_fair_sched_type : fair_sched_type;
  thread_ticks : Z;
  ticks : Z;
  idle_ticks : Z;
  kernel_ticks : Z;
  user_ticks : Z;
  load_avg : Z;
  eevdf_min_vruntime : Z;
  next_tid : Z;
  yield_on_return : bool }.

Definition with_threads (r : sched) (v : tptr → thread) : sched :=
  mk_sched v (current r) (idle_thread r) (initial_thread r) (fifo_ready_list r)
    (priority_ready_list r) (fair_ready_list r) (all_list r) (sleeping_threads r)
    (active_sched_policy r) (active_fair_sched_type r) (thread_ticks r) (ticks r) (idle_ticks r)
    (kernel_ticks r) (user_ticks r) (load_avg r) (eevdf_min_vruntime r) (next_tid r)
    (yield_on_return r).
Definition with_current (r : sched) (v : tptr) : sched :=
  mk_sched (threads r) v (idle_thread r) (initial_thread r) (fifo_ready_list r)
    (priority_ready_list r) (fair_ready_list r) (all_list r) (sleeping_threads r)
    (active_sched_policy r) (active_fair_sched_type r) (thread_ticks r) (ticks r) (idle_ticks r)
    (kernel_ticks r) (user_ticks r) (load_avg r) (eevdf_min_vruntime r) (next_tid r)
    (yield_on_return r).
Definition with_idle_thread (r : sched) (v : option tptr) : sched :=
  mk_sched (threads r) (current r) v (initial_thread r) (fifo_ready_list r) (priority_ready_list r)
    (fair_ready_list r) (all_list r) (sleeping_threads r) (active_sched_policy r)
    (active_fair_sched_type r) (thread_ticks r) (ticks r) (idle_ticks r) (kernel_ticks r)
    (user_ticks r) (load_avg r) (eevdf_min_vruntime r) (next_tid r) (yield_on_return r).
Definition with_fifo_ready_list (r : sched) (v : list tptr) : sched :=
  mk_sched (threads r) (current r) (idle_thread r) (initial_thread r) v (priority_ready_list r)
    (fair_ready_list r) (all_list r) (sleeping_threads r) (active_sched_policy r)
    (active_fair_sched_type r) (thread_ticks r) (ticks r) (idle_ticks r) (kernel_ticks r)
    (user_ticks r) (load_avg r) (eevdf_min_vruntime r) (next_tid r) (yield_on_return r).
Definition with_priority_ready_list (r : sched) (v : list tptr) : sched :=
  mk_sched (threads r) (current r) (idle_thread r) (initial_thread r) (fifo_ready_list r) v
    (fair_ready_list r) (all_list r) (sleeping_threads r) (active_sched_policy r)
    (active_fair_sched_type r) (thread_ticks r) (ticks r) (idle_ticks r) (kernel_ticks r)
    (user_ticks r) (load_avg r) (eevdf_min_vruntime r) (next_tid r) (yield_on_return r).
Definition with_fair_ready_list (r : sched) (v : list tptr) : sched :=
  mk_sched (threads r) (current r) (idle_thread r) (initial_thread r) (fifo_ready_list r)
    (priority_ready_list r) v (all_list r) (sleeping_threads r) (active_sched_policy r)
    (active_fair_sched_type r) (thread_ticks r) (ticks r) (idle_ticks r) (kernel_ticks r)
    (user_ticks r) (load_avg r) (eevdf_min_vruntime r) (next_tid r) (yield_on_return r).
Definition with_all_list (r : sched) (v : list tptr) : sched :=
  mk_sched (threads r) (current r) (idle_thread r) (initial_thread r) (fifo_ready_list r)
    (priority_ready_list r) (fair_ready_list r) v (sleeping_threads r) (active_sched_policy r)
    (active_fair_sched_type r) (thread_ticks r) (ticks r) (idle_ticks r) (kernel_ticks r)
    (user_ticks r) (load_avg r) (eevdf_min_vruntime r) (next_tid r) (yield_on_return r).
Definition with_sleeping_threads (r : sched) (v : list tptr) : sched :=
  mk_sched (threads r) (current r) (idle_thread r) (initial_thread r) (fifo_ready_list r)
    (priority_ready_list r) (fair_ready_list r) (all_list r) v (active_sched_policy r)
    (active_fair_sched_type r) (thread_ticks r) (ticks r) (idle_ticks r) (kernel_ticks r)
    (user_ticks r) (load_avg r) (eevdf_min_vruntime r) (next_tid r) (yield_on_return r).
Definition with_thread_ticks (r : sched) (v : Z) : sched :=
  mk_sched (threads r) (current r) (idle_thread r) (initial_thread r) (fifo_ready_list r)
    (priority_ready_list r) (fair_ready_list r) (all_list r) (sleeping_threads r)
    (active_sched_policy r) (active_fair_sched_type r) v (ticks r) (idle_ticks r) (kernel_ticks r)
    (user_ticks r) (load_avg r) (eevdf_min_vruntime r) (next_tid r) (yield_on_return r).
Definition with_ticks (r : sched) (v : Z) : sched :=
  mk_sched (threads r) (current r) (idle_thread r) (initial_thread r) (fifo_ready_list r)
    (priority_ready_list r) (fair_ready_list r) (all_list r) (sleeping_threads r)
    (active_sched_policy r) (active_fair_sched_type r) (thread_ticks r) v (idle_ticks r)
    (kernel_ticks r) (user_ticks r) (load_avg r) (eevdf_min_vruntime r) (next_tid r)
    (yield_on_return r).
Definition with_idle_ticks (r : sched) (v : Z) : sched :=
  mk_sched (threads r) (current r) (idle_thread r) (initial_thread r) (fifo_ready_list r)
    (priority_ready_list r) (fair_ready_list r) (all_list r) (sleeping_threads r)
    (active_sched_policy r) (active_fair_sched_type r) (thread_ticks r) (ticks r) v (kernel_ticks
    r) (user_ticks r) (load_avg r) (eevdf_min_vruntime r) (next_tid r) (yield_on_return r).
Definition with_kernel_ticks (r : sched) (v : Z) : sched :=
  mk_sched (threads r) (current r) (idle_thread r) (initial_thread r) (fifo_ready_list r)
    (priority_ready_list r) (fair_ready_list r) (all_list r) (sleeping_threads r)
    (active_sched_policy r) (active_fair_sched_type r) (thread_ticks r) (ticks r) (idle_ticks r) v
    (user_ticks r) (load_avg r) (eevdf_min_vruntime r) (next_tid r) (yield_on_return r).
Definition with_user_ticks (r : sched) (v : Z) : sched :=
  mk_sched (threads r) (current r) (idle_thread r) (initial_thread r) (fifo_ready_list r)
    (priority_ready_list r) (fair_ready_list r) (all_list r) (sleeping_threads r)
    (active_sched_policy r) (active_fair_sched_type r) (thread_ticks r) (ticks r) (idle_ticks r)
    (kernel_ticks r) v (load_avg r) (eevdf_min_vruntime r) (next_tid r) (yield_on_return r).
Definition with_load_avg (r : sched) (v : Z) : sched :=
  mk_sched (threads r) (current r) (idle_thread r) (initial_thread r) (fifo_ready_list r)
    (priority_ready_list r) (fair_ready_list r) (all_list r) (sleeping_threads r)
    (active_sched_policy r) (active_fair_sched_type r) (thread_ticks r) (ticks r) (idle_ticks r)
    (kernel_ticks r) (user_ticks r) v (eevdf_min_vruntime r) (next_tid r) (yield_on_return r).
Definition with_eevdf_min_vruntime (r : sched) (v : Z) : sched :=
  mk_sched (threads r) (current r) (idle_thread r) (initial_thread r) (fifo_ready_list r)
    (priority_ready_list r) (fair_ready_list r) (all_list r) (sleeping_threads r)
    (active_sched_policy r) (active_fair_sched_type r) (thread_ticks r) (ticks r) (idle_ticks r)
    (kernel_ticks r) (user_ticks r) (load_avg r) v (next_tid r) (yield_on_return r).
Definition with_next_tid (r : sched) (v : Z) : sched :=
  mk_sched (threads r) (current r) (idle_thread r) (initial_thread r) (fifo_ready_list r)
    (priority_ready_list r) (fair_ready_list r) (all_list r) (sleeping_threads r)
    (active_sched_policy r) (active_fair_sched_type r) (thread_ticks r) (ticks r) (idle_ticks r)
    (kernel_ticks r) (user_ticks r) (load_avg r) (eevdf_min_vruntime r) v (yield_on_return r).
Definition with_yield_on_return (r : sched) (v : bool) : sched :=
  mk_sched (threads r) (current r) (idle_thread r) (initial_thread r) (fifo_ready_list r)
    (priority_ready_list r) (fair_ready_list r) (all_list r) (sleeping_threads r)
    (active_sched_policy r) (active_fair_sched_type r) (thread_ticks r) (ticks r) (idle_ticks r)
    (kernel_ticks r) (user_ticks r) (load_avg r) (eevdf_min_vruntime r) (next_tid r) v.

(** [x] at [k]. *)
Definition fupd {K V} `{EqDecision K} (g : K → V) (k : K) (v : V) : K → V :=
  λ k', if decide (k' = k) then v else g k'.

Lemma fupd_eq {K V} `{EqDecision K} (g : K → V) k v : fupd g k v k = v.
Proof. unfold fupd. by rewrite decide_True. Qed.
Lemma fupd_ne {K V} `{EqDecision K} (g : K → V) k k' v : k' ≠ k → fupd g k v k' = g k'.
Proof. intros. unfold fupd. by rewrite decide_False. Qed.

(** An update of the fields of one thread. *)
Definition upd (s : sched) (t : tptr) (g : thread → thread) : sched :=
  with_threads s (fupd (threads s) t (g (threads s t))).

Abbreviation th s t := (threads s t).

Lemma upd_eq s t g : threads (upd s t g) t = g (threads s t).
Proof. apply fupd_eq. Qed.
Lemma upd_ne s t g t' : t' ≠ t → threads (upd s t g) t' = threads s t'.
Proof. apply fupd_ne. Qed.

End ThreadState.
