(* ===== verification/Thread.v ===== *)
(** * Threads: [threads/thread.c] and the tick handler of [devices/timer.c]

    The scheduler as functions on [ThreadState.sched].  A function that ends in
    [schedule] returns the state in which the chosen thread runs: what the caller
    does after it is resumed is the business of the machine of [Synch].

    Every function here runs with interrupts off or inside the timer interrupt, so
    each is one atomic transition.  Kernel lists are lists of thread pages, with
    the insertion and maximum functions that [KListProofs] shows the linked cells
    compute.  [process_activate] and stack frames are not part of the state. *)

From stdpp Require Import base tactics numbers list option.
From S2P Require Import Prelude KList KListProofs FixedPoint ThreadState.

Module Thread.
Import ThreadState.

Definition TIME_SLICE : Z := 4.
Definition TIMER_FREQ : Z := 100.
Definition VRUNTIME_SCALE : Z := 1024.
Definition INT64_MAX : Z := 2 ^ 63 - 1.

(** [list_remove (&t->elem)]: an element is at most once in its list. *)
Definition list_remove (t : tptr) (l : list tptr) : list tptr := filter (λ x, x ≠ t) l.

Definition is_thread (s : sched) (t : option tptr) : bool :=
  match t with Some t => magic (th s t) | None => false end.

Definition thread_current (s : sched) : outcome tptr :=
  ASSERT (is_thread s (Some (current s)));;
  ASSERT (bool_decide (status (th s (current s)) = THREAD_RUNNING));;
  Ret (current s).

Definition is_idle (s : sched) (t : tptr) : bool := bool_decide (idle_thread s = Some t).

Definition thread_priority_less (s : sched) (a b : tptr) : bool :=
  eff_priority (th s a) <? eff_priority (th s b).
Definition thread_priority_greater (s : sched) (a b : tptr) : bool :=
  eff_priority (th s b) <? eff_priority (th s a).

(** ** Ready queues *)

Definition insert_by_priority (s : sched) (t : tptr) : sched :=
  with_priority_ready_list s
    (KListProofs.ordered_insert (thread_priority_greater s) t (priority_ready_list s)).

Definition thread_reinsert_ready (s : sched) (t : tptr) : outcome sched :=
  ASSERT (is_thread s (Some t));;
  ASSERT (bool_decide (status (th s t) = THREAD_READY));;
  match active_sched_policy s with
  | SCHED_PRIO | SCHED_MLFQS =>
      let s := with_priority_ready_list s (list_remove t (priority_ready_list s)) in
      Ret (insert_by_priority s t)
  | _ => Ret s
  end.

Definition thread_enqueue (s : sched) (t : tptr) : outcome sched :=
  ASSERT (is_thread s (Some t));;
  Ret match active_sched_policy s with
      | SCHED_FIFO => with_fifo_ready_list s (fifo_ready_list s ++ [t])
      | SCHED_PRIO => insert_by_priority s t
      | SCHED_FAIR => with_fair_ready_list s (fair_ready_list s ++ [t])
      | SCHED_MLFQS => insert_by_priority s t
      end.

Definition thread_unblock (s : sched) (t : tptr) : outcome sched :=
  ASSERT (is_thread s (Some t));;
  ASSERT (bool_decide (status (th s t) = THREAD_BLOCKED));;
  s ← thread_enqueue s t;
  Ret (upd s t (λ r, with_status r THREAD_READY)).

(** ** Fair scheduling *)

Definition fair_weight : list Z :=
  [88761; 71755; 56483; 46273; 36291; 29154; 23254; 18705; 14949; 11916;
   9548; 7620; 6100; 4904; 3906; 3121; 2501; 1991; 1586; 1277;
   1024; 820; 655; 526; 423; 335; 272; 215; 172; 137;
   110; 87; 70; 56; 45; 36; 29; 23; 18; 15; 12].

Definition fair_update_vruntime (s : sched) (t : tptr) (ticks_used : Z) : outcome sched :=
  if bool_decide (active_sched_policy s ≠ SCHED_FAIR) then Ret s else
  if bool_decide (active_fair_sched_type s ≠ FAIR_SCHED_CFS) &&
     bool_decide (active_fair_sched_type s ≠ FAIR_SCHED_EEVDF) then Ret s else
  if is_idle s t then Ret s else
  if ticks_used =? 0 then Ret s else
  let nice_idx := nice_fair (th s t) + 20 in
  let nice_idx := if nice_idx <? 0 then 0 else nice_idx in
  let nice_idx := if 40 <? nice_idx then 40 else nice_idx in
  weight ← array_get fair_weight nice_idx;
  let delta := Z.quot (ticks_used * VRUNTIME_SCALE * 1024) weight in
  let v := vruntime (th s t) + delta in
  let slice_vruntime := Z.quot (TIME_SLICE * VRUNTIME_SCALE * 1024) weight in
  Ret (upd s t (λ r, with_deadline (with_vruntime r v) (v + slice_vruntime))).

(** ** Choosing the next thread *)

Definition thread_schedule_fifo (s : sched) : outcome (option tptr * sched) :=
  match fifo_ready_list s with
  | t :: l => Ret (Some t, with_fifo_ready_list s l)
  | [] => Ret (idle_thread s, s)
  end.

Definition thread_schedule_prio (s : sched) : outcome (option tptr * sched) :=
  match priority_ready_list s with
  | t :: l => Ret (Some t, with_priority_ready_list s l)
  | [] => Ret (idle_thread s, s)
  end.

Definition thread_schedule_stride (s : sched) : outcome (option tptr * sched) :=
  match fair_ready_list s with [] => Ret (idle_thread s, s) | _ => Panic end.

Definition thread_schedule_lottery (s : sched) : outcome (option tptr * sched) :=
  match fair_ready_list s with [] => Ret (idle_thread s, s) | _ => Panic end.

(** The loop both fair schedulers run: the first element with the smallest key
    below [min] among those that pass [ok]. *)
Fixpoint scan_min (ok : tptr → bool) (key : tptr → Z) (l : list tptr) (winner : option tptr) (min : Z)
    : option tptr * Z :=
  match l with
  | [] => (winner, min)
  | t :: l => if ok t && (key t <? min) then scan_min ok key l (Some t) (key t)
              else scan_min ok key l winner min
  end.

Definition take_winner (s : sched) (winner : option tptr) : outcome (option tptr * sched) :=
  match winner with
  | Some w => Ret (Some w, with_fair_ready_list s (list_remove w (fair_ready_list s)))
  | None => Panic
  end.

Definition thread_schedule_cfs (s : sched) : outcome (option tptr * sched) :=
  match fair_ready_list s with
  | [] => Ret (idle_thread s, s)
  | l =>
      let '(winner, _) := scan_min (λ _, true) (λ t, vruntime (th s t)) l None INT64_MAX in
      take_winner s winner
  end.

Definition thread_schedule_eevdf (s : sched) : outcome (option tptr * sched) :=
  match fair_ready_list s with
  | [] => Ret (idle_thread s, s)
  | l =>
      let '(_, local_min_vruntime) :=
        scan_min (λ _, true) (λ t, vruntime (th s t)) l None INT64_MAX in
      let s := if eevdf_min_vruntime s <? local_min_vruntime
               then with_eevdf_min_vruntime s local_min_vruntime else s in
      let eligible_threshold := eevdf_min_vruntime s + VRUNTIME_SCALE in
      let '(winner, _) :=
        scan_min (λ t, vruntime (th s t) <=? eligible_threshold) (λ t, deadline (th s t))
          l None INT64_MAX in
      let winner := match winner with
                    | Some w => Some w
                    | None => list_find (λ t, vruntime (th s t) = local_min_vruntime) l ≫= λ p, Some p.2
                    end in
      take_winner s winner
  end.

Definition thread_schedule_fair (s : sched) : outcome (option tptr * sched) :=
  match active_fair_sched_type s with
  | FAIR_SCHED_STRIDE => thread_schedule_stride s
  | FAIR_SCHED_LOTTERY => thread_schedule_lottery s
  | FAIR_SCHED_CFS => thread_schedule_cfs s
  | FAIR_SCHED_EEVDF => thread_schedule_eevdf s
  end.

Definition thread_schedule_mlfqs (s : sched) : outcome (option tptr * sched) :=
  match priority_ready_list s with
  | [] => Ret (idle_thread s, s)
  | t :: l => Ret (Some t, with_priority_ready_list s l)
  end.

Definition next_thread_to_run (s : sched) : outcome (option tptr * sched) :=
  match active_sched_policy s with
  | SCHED_FIFO => thread_schedule_fifo s
  | SCHED_PRIO => thread_schedule_prio s
  | SCHED_FAIR => thread_schedule_fair s
  | SCHED_MLFQS => thread_schedule_mlfqs s
  end.

(** ** Switching *)

Definition thread_switch_tail (s : sched) (prev : option tptr) : outcome sched :=
  let cur := current s in
  let s := upd s cur (λ r, with_status r THREAD_RUNNING) in
  let s := with_thread_ticks s 0 in
  match prev with
  | Some p =>
      if bool_decide (status (th s p) = THREAD_DYING) && bool_decide (p ≠ initial_thread s) then
        ASSERT (bool_decide (p ≠ cur));;
        Ret (upd s p (λ r, with_magic r false))
      else Ret s
  | None => Ret s
  end.

Definition schedule (s : sched) : outcome sched :=
  let cur := current s in
  '(next, s) ← next_thread_to_run s;
  ASSERT (bool_decide (status (th s cur) ≠ THREAD_RUNNING));;
  ASSERT (is_thread s next);;
  match next with
  | Some n =>
      if bool_decide (cur = n) then thread_switch_tail s None
      else thread_switch_tail (with_current s n) (Some cur)
  | None => Panic
  end.

Definition thread_block (s : sched) : outcome sched :=
  cur ← thread_current s;
  s ← fair_update_vruntime s cur (thread_ticks s);
  schedule (upd s cur (λ r, with_status r THREAD_BLOCKED)).

Definition thread_yield (s : sched) : outcome sched :=
  cur ← thread_current s;
  s ← fair_update_vruntime s cur (thread_ticks s);
  s ← (if is_idle s cur then Ret s else thread_enqueue s cur);
  schedule (upd s cur (λ r, with_status r THREAD_READY)).

Definition thread_exit (s : sched) : outcome sched :=
  cur ← thread_current s;
  let s := with_all_list s (list_remove cur (all_list s)) in
  schedule (upd s cur (λ r, with_status r THREAD_DYING)).

(** ** Creation *)

(** The fields of a page after [memset] and the assignments of [init_thread]. *)
Definition fresh_thread (s : sched) (prio : Z) : thread :=
  let init_slice := Z.quot (TIME_SLICE * VRUNTIME_SCALE * 1024) 1024 in
  mk_thread 0 THREAD_BLOCKED prio prio None [] 0 100 0 0
    (eevdf_min_vruntime s) (eevdf_min_vruntime s + init_slice) 0 0 0 false true.

Definition init_thread (s : sched) (t : tptr) (prio : Z) : outcome sched :=
  ASSERT ((PRI_MIN <=? prio) && (prio <=? PRI_MAX));;
  let s := upd s t (λ _, fresh_thread s prio) in
  Ret (with_all_list s (all_list s ++ [t])).

(** The body of [allocate_tid] between its lock operations, and the store of its result. *)
Definition take_tid (s : sched) (t : tptr) : sched :=
  let s' := upd s t (λ r, with_tid r (next_tid s)) in
  with_next_tid s' (next_tid s + 1).

(** ** Multi-level feedback queues *)

Definition mlfqs_update_priority (s : sched) (t : tptr) : outcome sched :=
  if is_idle s t then Ret s else
  q ← FixedPoint.fix_unscale (FixedPoint.mk_fix (recent_cpu (th s t))) 4;
  let recent_cpu_term := FixedPoint.fix_trunc q in
  let nice_term := nice (th s t) * 2 in
  let new_priority := PRI_MAX - recent_cpu_term - nice_term in
  let new_priority := if new_priority <? PRI_MIN then PRI_MIN else new_priority in
  let new_priority := if PRI_MAX <? new_priority then PRI_MAX else new_priority in
  Ret (upd s t (λ r, with_priority r new_priority)).

Definition mlfqs_update_recent_cpu (s : sched) (t : tptr) : outcome sched :=
  if is_idle s t then Ret s else
  let load := FixedPoint.mk_fix (load_avg s) in
  twice_load ← FixedPoint.fix_scale load 2;
  one ← FixedPoint.fix_int 1;
  twice_load_plus_1 ← FixedPoint.fix_add twice_load one;
  coefficient ← FixedPoint.fix_div twice_load twice_load_plus_1;
  let recent := FixedPoint.mk_fix (recent_cpu (th s t)) in
  n ← FixedPoint.fix_int (nice (th s t));
  new_recent ← FixedPoint.fix_add (FixedPoint.fix_mul coefficient recent) n;
  Ret (upd s t (λ r, with_recent_cpu r (FixedPoint.f new_recent))).

Definition mlfqs_update_load_avg (s : sched) : outcome sched :=
  cur ← thread_current s;
  let ready_threads := Z.of_nat (length (priority_ready_list s)) in
  let ready_threads := if is_idle s cur then ready_threads else ready_threads + 1 in
  let load := FixedPoint.mk_fix (load_avg s) in
  coef_59_60 ← FixedPoint.fix_frac 59 60;
  coef_1_60 ← FixedPoint.fix_frac 1 60;
  let term1 := FixedPoint.fix_mul coef_59_60 load in
  n ← FixedPoint.fix_int ready_threads;
  let term2 := FixedPoint.fix_mul coef_1_60 n in
  new_load ← FixedPoint.fix_add term1 term2;
  Ret (with_load_avg s (FixedPoint.f new_load)).

Definition thread_mlfqs_tick (s : sched) : outcome sched :=
  cur ← thread_current s;
  if is_idle s cur then Ret s else
  one ← FixedPoint.fix_int 1;
  r ← FixedPoint.fix_add (FixedPoint.mk_fix (recent_cpu (th s cur))) one;
  Ret (upd s cur (λ t, with_recent_cpu t (FixedPoint.f r))).

(** A loop over [all_list], which its body does not change. *)
Fixpoint for_threads (g : sched → tptr → outcome sched) (l : list tptr) (s : sched) : outcome sched :=
  match l with [] => Ret s | t :: l => s ← g s t; for_threads g l s end.

Definition thread_foreach (g : sched → tptr → outcome sched) (s : sched) : outcome sched :=
  for_threads g (all_list s) s.

Definition thread_mlfqs_update_priorities (s : sched) : outcome sched :=
  thread_foreach mlfqs_update_priority s.

Definition thread_mlfqs_update_stats (s : sched) : outcome sched :=
  s ← mlfqs_update_load_avg s;
  thread_foreach (λ s t, s ← mlfqs_update_recent_cpu s t; mlfqs_update_priority s t) s.

Definition thread_get_priority (s : sched) : outcome Z :=
  cur ← thread_current s; Ret (eff_priority (th s cur)).

Definition thread_set_nice (s : sched) (n : Z) : outcome sched :=
  ASSERT ((-20 <=? n) && (n <=? 20));;
  cur ← thread_current s;
  let s := upd s cur (λ r, with_nice r n) in
  match active_sched_policy s with
  | SCHED_MLFQS => s ← mlfqs_update_priority s cur; thread_yield s
  | _ => Ret s
  end.

Definition thread_get_nice (s : sched) : outcome Z :=
  cur ← thread_current s; Ret (nice (th s cur)).

Definition thread_get_load_avg (s : sched) : outcome Z :=
  x ← FixedPoint.fix_scale (FixedPoint.mk_fix (load_avg s)) 100; FixedPoint.fix_round x.

Definition thread_get_recent_cpu (s : sched) : outcome Z :=
  cur ← thread_current s;
  x ← FixedPoint.fix_scale (FixedPoint.mk_fix (recent_cpu (th s cur))) 100; FixedPoint.fix_round x.

(** ** The timer *)

Definition thread_tick (s : sched) : outcome sched :=
  t ← thread_current s;
  let s := if is_idle s t then with_idle_ticks s (idle_ticks s + 1)
           else if has_pcb (th s t) then with_user_ticks s (user_ticks s + 1)
           else with_kernel_ticks s (kernel_ticks s + 1) in
  let s := with_thread_ticks s (u32 (thread_ticks s + 1)) in
  Ret (if TIME_SLICE <=? thread_ticks s then with_yield_on_return s true else s).

(** The loop of [timer_interrupt] that wakes sleepers. *)
Fixpoint wake_sleepers (l : list tptr) (s : sched) : outcome sched :=
  match l with
  | [] => Ret s
  | t :: l =>
      if ticks s <? wake_up_tick (th s t) then Ret s else
      let s := with_sleeping_threads s l in
      s ← thread_unblock s t;
      wake_sleepers l s
  end.

Definition timer_interrupt (s : sched) : outcome sched :=
  let s := with_ticks s (ticks s + 1) in
  s ← thread_tick s;
  s ← (match active_sched_policy s with
       | SCHED_MLFQS =>
           s ← thread_mlfqs_tick s;
           if ticks s mod TIMER_FREQ =? 0 then thread_mlfqs_update_stats s
           else if ticks s mod 4 =? 0 then thread_mlfqs_update_priorities s
           else Ret s
       | _ => Ret s
       end);
  wake_sleepers (sleeping_threads s) s.

(** [intr_handler] around the timer interrupt. *)
Definition intr_handler_timer (s : sched) : outcome sched :=
  s ← timer_interrupt (with_yield_on_return s false);
  if yield_on_return s then thread_yield s else Ret s.

(** The insertion loop of [timer_sleep]: before the first thread that wakes later. *)
Definition insert_sleeper (s : sched) (t : tptr) : sched :=
  with_sleeping_threads s
    (KListProofs.ordered_insert (λ a b, wake_up_tick (th s a) <? wake_up_tick (th s b)) t
       (sleeping_threads s)).

Definition timer_sleep (s : sched) (n : Z) : outcome sched :=
  let start := ticks s in
  cur ← thread_current s;
  let s := upd s cur (λ r, with_wake_up_tick r (start + n)) in
  thread_block (insert_sleeper s cur).

End Thread.
