(* ===== verification/ThreadProofs.v ===== *)
(** * Threads: the scheduler's invariant

    [shape s run]: every ready thread is in the ready queue of the active policy,
    every queued thread is ready, sleepers are blocked, only the threads of [run]
    are running, and the priority queue is in order.  Each transition of [Thread]
    keeps it, so that a context switch never fails, and picks the thread the policy
    says. *)

From stdpp Require Import base tactics numbers list option sorting sets.
From S2P Require Import Prelude KList KListProofs FixedPoint ThreadState Thread.

Module ThreadProofs.
Import ThreadState Thread.

(** The ready queue of the active policy. *)
Definition ready (s : sched) : list tptr :=
  match active_sched_policy s with
  | SCHED_FIFO => fifo_ready_list s
  | SCHED_PRIO | SCHED_MLFQS => priority_ready_list s
  | SCHED_FAIR => fair_ready_list s
  end.

(** [a] runs before [b] under the priority policies. *)
Definition higher (s : sched) (a b : tptr) : Prop := eff_priority (th s b) ≤ eff_priority (th s a).

#[global] Instance higher_trans s : Transitive (higher s).
Proof. unfold higher. intros a b c. lia. Qed.

Record shape (s : sched) (run : tptr → Prop) : Prop := mk_shape {
  sh_run t : magic (th s t) = true → status (th s t) = THREAD_RUNNING → run t;
  sh_ready t : t ∈ ready s → magic (th s t) = true ∧ status (th s t) = THREAD_READY;
  sh_all t : magic (th s t) = true → status (th s t) = THREAD_READY →
    t ∈ ready s ∨ idle_thread s = Some t;
  sh_nodup : NoDup (ready s);
  sh_idle : ∃ i, idle_thread s = Some i ∧ magic (th s i) = true ∧ i ∉ ready s ∧
    i ∉ sleeping_threads s ∧ status (th s i) ≠ THREAD_DYING;
  sh_sleep t : t ∈ sleeping_threads s → magic (th s t) = true ∧ status (th s t) = THREAD_BLOCKED;
  sh_sleep_nodup : NoDup (sleeping_threads s);
  sh_prio : active_sched_policy s = SCHED_PRIO → StronglySorted (higher s) (ready s) }.

(** The state between two transitions: one thread runs. *)
Record sched_ok (s : sched) : Prop := mk_sched_ok {
  ok_shape : shape s (λ t, t = current s);
  ok_magic : magic (th s (current s)) = true;
  ok_running : status (th s (current s)) = THREAD_RUNNING }.

(** The unimplemented fair policies panic; the others find a thread whose key is
    below the sentinel of their scan. *)
Definition schedulable (s : sched) : Prop :=
  active_sched_policy s = SCHED_FAIR →
  (active_fair_sched_type s = FAIR_SCHED_CFS ∨ active_fair_sched_type s = FAIR_SCHED_EEVDF) ∧
  ∀ t, vruntime (th s t) < INT64_MAX ∧ deadline (th s t) < INT64_MAX.

(** What no transition changes. *)
Record steady (s s' : sched) : Prop := mk_steady {
  st_policy : active_sched_policy s' = active_sched_policy s;
  st_fair : active_fair_sched_type s' = active_fair_sched_type s;
  st_idle : idle_thread s' = idle_thread s;
  st_initial : initial_thread s' = initial_thread s }.

Lemma steady_refl s : steady s s.
Proof. done. Qed.
Lemma steady_trans s1 s2 s3 : steady s1 s2 → steady s2 s3 → steady s1 s3.
Proof. intros [] []. constructor; congruence. Qed.
Create HintDb sched.
#[export] Hint Resolve steady_refl steady_trans : sched.

(** ** Entering the ready queue *)

Lemma elem_of_list_remove t x l : t ∈ list_remove x l ↔ t ≠ x ∧ t ∈ l.
Proof. unfold list_remove. by rewrite list_elem_of_filter. Qed.

Lemma thread_enqueue_run s t : magic (th s t) = true →
  ∃ s', thread_enqueue s t = Ret s' ∧ steady s s' ∧ threads s' = threads s ∧
    ready s' ≡ₚ t :: ready s ∧ current s' = current s ∧ sleeping_threads s' = sleeping_threads s ∧
    all_list s' = all_list s ∧
    (active_sched_policy s = SCHED_PRIO →
     StronglySorted (higher s) (ready s) → StronglySorted (higher s) (ready s')).
Proof.
  intros Hm. unfold thread_enqueue. cbn [is_thread]. rewrite Hm. cbn [ASSERT mbind outcome_bind].
  eexists. split; [reflexivity|].
  destruct (active_sched_policy s) eqn:E; unfold insert_by_priority, ready; cbn;
    rewrite ?E; split_and!; try done; try (by rewrite Permutation_app_comm).
  - apply KListProofs.ordered_insert_perm.
  - intros _. apply KListProofs.ordered_insert_sorted; [apply _|..]; intros y;
      unfold thread_priority_greater, higher.
    + rewrite Z.ltb_lt. lia.
    + rewrite Z.ltb_ge. lia.
  - apply KListProofs.ordered_insert_perm.
Qed.

(** Pointwise view of a status update. *)
Lemma status_upd s t st x :
  th (upd s t (λ r, with_status r st)) x =
  if decide (x = t) then with_status (th s t) st else th s x.
Proof. unfold upd, fupd. cbn. done. Qed.

Lemma StronglySorted_higher s s' l :
  (∀ t, t ∈ l → eff_priority (th s' t) = eff_priority (th s t)) →
  StronglySorted (higher s) l → StronglySorted (higher s') l.
Proof.
  intros He. induction 1 as [|x l Hs IH Hx]; [constructor|]. constructor.
  - apply IH. intros t Ht. apply He. by right.
  - rewrite list.Forall_forall in Hx |- *. intros y Hy. unfold higher.
    rewrite !He by (done || by left || by right). by apply Hx.
Qed.

Lemma StronglySorted_remove s x l : StronglySorted (higher s) l →
  StronglySorted (higher s) (list_remove x l).
Proof.
  unfold list_remove. induction 1 as [|y l Hs IH Hy]; [constructor|]. rewrite filter_cons.
  destruct (decide (y ≠ x)); [|done]. constructor; [done|].
  rewrite list.Forall_forall in Hy |- *. intros z [_ Hz]%list_elem_of_filter. by apply Hy.
Qed.

(** A thread that is in no queue becomes ready. *)
Lemma make_ready s s1 t run :
  shape s run → thread_enqueue s t = Ret s1 → magic (th s t) = true →
  status (th s t) ≠ THREAD_READY → t ∉ sleeping_threads s → idle_thread s ≠ Some t →
  let s' := upd s1 t (λ r, with_status r THREAD_READY) in
  shape s' (λ x, run x ∧ x ≠ t) ∧ steady s s' ∧ current s' = current s ∧
  sleeping_threads s' = sleeping_threads s ∧ ready s' ≡ₚ t :: ready s ∧ all_list s' = all_list s ∧
  (∀ x, th s' x = if decide (x = t) then with_status (th s t) THREAD_READY else th s x).
Proof.
  intros H He Hm Hst Hsl Hid. destruct (thread_enqueue_run s t Hm) as
    (s2 & E & Hsd & Hth & Hp & Hc & Hs & Ha & Hso). rewrite E in He. injection He as ->.
  set (s' := upd s1 t _).
  assert (∀ x, th s' x = if decide (x = t) then with_status (th s t) THREAD_READY else th s x) as Hx.
  { intros x. unfold s'. rewrite status_upd, Hth. done. }
  assert (ready s' = ready s1) as Hr by done.
  assert (t ∉ ready s) as Hnr. { intros Hc'. by apply (sh_ready _ _ H) in Hc' as [_ ?]. }
  split_and!; [|by destruct Hsd|done|done|by rewrite Hr|done|done]. constructor.
  - intros x. rewrite Hx. destruct (decide (x = t)); [done|]. intros ??. split; [by apply (sh_run _ _ H)|done].
  - intros x. rewrite Hr, Hp, Hx, elem_of_cons. destruct (decide (x = t)) as [->|]; [done|].
    intros [?|?]; [done|by apply (sh_ready _ _ H)].
  - intros x. rewrite Hr, Hp, Hx, elem_of_cons. destruct (decide (x = t)) as [->|]; [auto|].
    intros Hm' Hs'. destruct (sh_all _ _ H x Hm' Hs'); [auto|]. right. by rewrite <- (st_idle _ _ Hsd) in *.
  - rewrite Hr, Hp. constructor; [done|apply H].
  - destruct (sh_idle _ _ H) as (i & Hi & Hmi & Hni & Hnsi & Hdi). exists i.
    assert (i ≠ t) by congruence. rewrite Hx, decide_False, Hr, Hp by done.
    split_and!; [by rewrite <- (st_idle _ _ Hsd) in Hi|done|set_solver| |done].
    change (sleeping_threads s') with (sleeping_threads s1). by rewrite Hs.
  - intros x. change (sleeping_threads s') with (sleeping_threads s1). rewrite Hs, Hx. intros Hin.
    rewrite decide_False by congruence. by apply (sh_sleep _ _ H).
  - change (sleeping_threads s') with (sleeping_threads s1). rewrite Hs. apply H.
  - intros Hpo. rewrite Hr. apply (StronglySorted_higher s).
    + intros x _. rewrite Hx. by destruct (decide (x = t)) as [->|].
    + change (active_sched_policy s' = SCHED_PRIO) with (active_sched_policy s1 = SCHED_PRIO) in Hpo.
      rewrite (st_policy _ _ Hsd) in Hpo. apply Hso; [done|]. by apply (sh_prio _ _ H).
Qed.

(** ** Choosing a thread *)

Lemma scan_min_spec ok key l w m w' m' : scan_min ok key l w m = (w', m') →
  (w' = w ∧ m' = m ∧ ∀ t, t ∈ l → ok t = true → m ≤ key t) ∨
  (∃ n, n ∈ l ∧ w' = Some n ∧ m' = key n ∧ ok n = true ∧ key n < m ∧
     ∀ t, t ∈ l → ok t = true → key n ≤ key t).
Proof.
  revert w m. induction l as [|x l IH]; intros w m; cbn [scan_min].
  - intros [= <- <-]. left. split_and!; [done|done|]. intros t Ht. by apply not_elem_of_nil in Ht.
  - destruct (ok x) eqn:Eo; cbn [andb]; [destruct (Z.ltb_spec (key x) m)|]; intros Hs;
      destruct (IH _ _ Hs) as [(-> & -> & Hle)|(n & Hn & -> & -> & Hon & Hlt & Hle)].
    + right. exists x. split_and!; [by left|done|done|done|done|].
      intros t [->|Ht]%elem_of_cons Hot; [done|by apply Hle].
    + right. exists n. split_and!; [by right|done|done|done|lia|].
      intros t [->|Ht]%elem_of_cons Hot; [lia|by apply Hle].
    + left. split_and!; [done|done|]. intros t [->|Ht]%elem_of_cons Hot; [done|by apply Hle].
    + right. exists n. split_and!; [by right|done|done|done|done|].
      intros t [->|Ht]%elem_of_cons Hot; [lia|by apply Hle].
    + left. split_and!; [done|done|]. intros t [->|Ht]%elem_of_cons Hot; [congruence|by apply Hle].
    + right. exists n. split_and!; [by right|done|done|done|done|].
      intros t [->|Ht]%elem_of_cons Hot; [congruence|by apply Hle].
Qed.

(** The least virtual runtime among the ready threads, or the global one if that is greater:
    what makes a thread eligible. *)
Definition eligible (s : sched) (n : tptr) : Prop :=
  ∀ m, (∀ t, t ∈ ready s → m ≤ vruntime (th s t)) → (∃ t, t ∈ ready s ∧ m = vruntime (th s t)) →
  vruntime (th s n) ≤ Z.max m (eevdf_min_vruntime s) + VRUNTIME_SCALE.

(** The thread the policy must run next. *)
Definition chosen (s : sched) (n : tptr) : Prop :=
  n ∈ ready s ∧
  match active_sched_policy s with
  | SCHED_FIFO | SCHED_MLFQS => list.head (ready s) = Some n
  | SCHED_PRIO => ∀ t, t ∈ ready s → eff_priority (th s t) ≤ eff_priority (th s n)
  | SCHED_FAIR =>
      match active_fair_sched_type s with
      | FAIR_SCHED_CFS => ∀ t, t ∈ ready s → vruntime (th s n) ≤ vruntime (th s t)
      | FAIR_SCHED_EEVDF =>
          eligible s n ∧
          ∀ t, t ∈ ready s → eligible s t → deadline (th s n) ≤ deadline (th s t)
      | _ => False
      end
  end.

(** Taking [n] out of the ready queue. *)
Record popped (s s' : sched) (n : tptr) : Prop := mk_popped {
  po_steady : steady s s';
  po_threads : threads s' = threads s;
  po_current : current s' = current s;
  po_sleep : sleeping_threads s' = sleeping_threads s;
  po_all : all_list s' = all_list s;
  po_ready : ready s' = list_remove n (ready s) }.

Lemma list_remove_head t l : NoDup (t :: l) → list_remove t (t :: l) = l.
Proof.
  intros [Ht _]%NoDup_cons. unfold list_remove. rewrite filter_cons, decide_False by auto.
  apply filter_all. intros x Hx ->. done.
Qed.

Lemma eevdf_choice s l :
  ready s = l → l ≠ [] → active_sched_policy s = SCHED_FAIR → fair_ready_list s = l →
  active_fair_sched_type s = FAIR_SCHED_EEVDF → schedulable s →
  ∃ n s', thread_schedule_eevdf s = Ret (Some n, s') ∧ chosen s n ∧ popped s s' n.
Proof.
  intros Hr Hne Hp Hl Hf Hsch. destruct (Hsch Hp) as [_ Hlt]. unfold thread_schedule_eevdf. rewrite Hl.
  destruct l as [|x l]; [done|]. set (L := x :: l) in *.
  destruct (scan_min _ _ L None INT64_MAX) as [w0 lm] eqn:E0.
  destruct (scan_min_spec _ _ _ _ _ _ _ E0) as [(_ & _ & Hle)|(n0 & Hn0 & -> & -> & _ & _ & Hle0)].
  { exfalso. pose proof (Hle x ltac:(by left) eq_refl). destruct (Hlt x). lia. }
  set (s1 := if _ <? _ then _ else s).
  assert (eevdf_min_vruntime s1 = Z.max (vruntime (th s n0)) (eevdf_min_vruntime s)) as Hm.
  { unfold s1. destruct (Z.ltb_spec (eevdf_min_vruntime s) (vruntime (th s n0))); cbn; lia. }
  assert (threads s1 = threads s ∧ fair_ready_list s1 = L ∧ steady s s1 ∧ current s1 = current s ∧
    sleeping_threads s1 = sleeping_threads s ∧ all_list s1 = all_list s) as (Ht1 & Hl1 & Hsd & Hc1 & Hs1 & Ha1).
  { unfold s1. destruct (_ <? _); done. }
  assert (∀ t, eligible s t ↔ vruntime (th s1 t) <=? eevdf_min_vruntime s1 + VRUNTIME_SCALE = true) as Hel.
  { intros t. rewrite Z.leb_le, Ht1, Hm. unfold eligible. rewrite Hr. split.
    - intros H. apply H; [intros; by apply Hle0|eauto].
    - intros H m Hmle (t0 & Ht0 & ->). pose proof (Hle0 t0 Ht0 eq_refl). pose proof (Hmle n0 Hn0).
      replace (vruntime (th s t0)) with (vruntime (th s n0)) by lia. done. }
  destruct (scan_min _ _ L None INT64_MAX) as [w1 d1] eqn:E1 at 1.
  destruct (scan_min_spec _ _ _ _ _ _ _ E1) as [(_ & _ & Hle)|(n & Hn & -> & _ & Hon & _ & Hle1)].
  { exfalso. assert (eligible s n0) as He0.
    { apply Hel. rewrite Z.leb_le, Ht1, Hm. unfold VRUNTIME_SCALE. lia. }
    apply Hel in He0. specialize (Hle n0 Hn0 He0). rewrite Ht1 in Hle. destruct (Hlt n0). lia. }
  cbn [take_winner]. eexists n, _. split; [reflexivity|]. split.
  - unfold chosen. rewrite Hr, Hp, Hf. split; [done|]. split; [by apply Hel|].
    intros t Ht He. apply Hel in He. specialize (Hle1 t Ht He). by rewrite Ht1 in Hle1.
  - destruct Hsd. constructor; cbn; try done.
    unfold ready. cbn. rewrite st_policy0, Hp. cbn. by rewrite Hl1, Hl.
Qed.

Lemma next_thread_run s run : shape s run → schedulable s →
  ∃ n s', next_thread_to_run s = Ret (Some n, s') ∧ popped s s' n ∧
    (chosen s n ∨ ready s = [] ∧ idle_thread s = Some n).
Proof.
  intros H Hsch. destruct (ready s) as [|x l] eqn:Er.
  - destruct (sh_idle _ _ H) as (i & Hi & _). exists i, s. split_and!; [|by constructor; rewrite ?Er|by right].
    unfold next_thread_to_run, ready in *. destruct (active_sched_policy s) eqn:Ep.
    + unfold thread_schedule_fifo. by rewrite Er, Hi.
    + unfold thread_schedule_prio. by rewrite Er, Hi.
    + unfold thread_schedule_fair. destruct (Hsch Ep) as [[-> | ->] _];
        unfold thread_schedule_cfs, thread_schedule_eevdf; by rewrite Er, Hi.
    + unfold thread_schedule_mlfqs. by rewrite Er, Hi.
  - pose proof (sh_nodup _ _ H) as Hnd. rewrite Er in Hnd.
    unfold next_thread_to_run. destruct (active_sched_policy s) eqn:Ep.
    + exists x. unfold thread_schedule_fifo. pose proof Er as Er'. unfold ready in Er. rewrite Ep in Er. rewrite Er.
      eexists. split; [done|]. split; [|left; unfold chosen; rewrite Er', Ep; split; [by left|done]].
      constructor; cbn; try done. rewrite Er', list_remove_head by done. unfold ready. cbn. by rewrite Ep.
    + exists x. unfold thread_schedule_prio. pose proof Er as Er'. unfold ready in Er. rewrite Ep in Er. rewrite Er.
      eexists. split; [done|]. split.
      * constructor; cbn; try done. rewrite Er', list_remove_head by done. unfold ready. cbn. by rewrite Ep.
      * left. unfold chosen. rewrite Er', Ep. split; [by left|]. pose proof (sh_prio _ _ H Ep) as Hs.
        rewrite Er' in Hs. apply StronglySorted_inv in Hs as [_ Hs]. rewrite list.Forall_forall in Hs.
        intros t [->|Ht]%elem_of_cons; [done|by apply Hs].
    + pose proof Er as Er'. unfold ready in Er. rewrite Ep in Er.
      unfold thread_schedule_fair. destruct (Hsch Ep) as [[Ef|Ef] Hlt]; rewrite Ef.
      * unfold thread_schedule_cfs. rewrite Er. set (L := x :: l) in *.
        destruct (scan_min _ _ L None INT64_MAX) as [w m] eqn:Es.
        destruct (scan_min_spec _ _ _ _ _ _ _ Es) as [(_ & _ & Hle)|(n & Hn & -> & _ & _ & _ & Hle)].
        { exfalso. pose proof (Hle x ltac:(by left) eq_refl). destruct (Hlt x). lia. }
        exists n. eexists. split; [reflexivity|]. split.
        -- constructor; cbn; try done. rewrite Er', Er. unfold ready. cbn. by rewrite Ep.
        -- left. unfold chosen. rewrite Er', Ep, Ef. split; [done|]. intros t Ht. by apply Hle.
      * destruct (eevdf_choice s (x :: l)) as (n & s' & -> & Hc & Hpo); try done. eauto 10.
    + exists x. unfold thread_schedule_mlfqs. pose proof Er as Er'. unfold ready in Er. rewrite Ep in Er. rewrite Er.
      eexists. split; [done|]. split; [|left; unfold chosen; rewrite Er', Ep; split; [by left|done]].
      constructor; cbn; try done. rewrite Er', list_remove_head by done. unfold ready. cbn. by rewrite Ep.
Qed.

(** ** The context switch *)

(** What a switch to [n] leaves of the other threads: all of it, but for the page
    of a thread that has exited. *)
Record switched (s s' : sched) (n : tptr) : Prop := mk_switched {
  sw_steady : steady s s';
  sw_current : current s' = n;
  sw_next : th s' n = with_status (th s n) THREAD_RUNNING;
  sw_others x : x ≠ n → th s' x = th s x ∨
    x = current s ∧ status (th s x) = THREAD_DYING ∧ th s' x = with_magic (th s x) false;
  sw_sleep : sleeping_threads s' = sleeping_threads s;
  sw_all : all_list s' = all_list s;
  sw_from : n ∈ ready s ∨ ready s = [] ∧ idle_thread s = Some n }.

Lemma switched_eff s s' n x : switched s s' n → eff_priority (th s' x) = eff_priority (th s x).
Proof.
  intros H. destruct (decide (x = n)) as [->|Hx]; [by rewrite (sw_next _ _ _ H)|].
  destruct (sw_others _ _ _ H x Hx) as [-> |(_ & _ & ->)]; done.
Qed.

Lemma shape_magic s run t : shape s run →
  t ∈ ready s ∨ idle_thread s = Some t → magic (th s t) = true ∧ status (th s t) ≠ THREAD_DYING ∧
    t ∉ sleeping_threads s.
Proof.
  intros H [Ht|Ht].
  - destruct (sh_ready _ _ H t Ht) as [? Hs]. split_and!; [done|by rewrite Hs|].
    intros Hc. apply (sh_sleep _ _ H) in Hc as [_ ?]. congruence.
  - destruct (sh_idle _ _ H) as (i & Hi & ? & _ & ? & ?). naive_solver.
Qed.

Lemma popped_shape s s1 n : shape s (λ _, False) → popped s s1 n →
  n ∈ ready s ∨ idle_thread s = Some n →
  let s' := upd (with_thread_ticks (with_current s1 n) 0) n (λ r, with_status r THREAD_RUNNING) in
  shape s' (λ x, x = n).
Proof.
  intros H [Hsd Hth Hc Hsl Ha Hr] Hn s'.
  destruct (shape_magic _ _ _ H Hn) as (Hm & Hnd & Hns).
  assert (∀ x, th s' x = if decide (x = n) then with_status (th s n) THREAD_RUNNING else th s x) as Hx.
  { intros x. unfold s'. rewrite status_upd. cbn. by rewrite Hth. }
  assert (ready s' = list_remove n (ready s)) as Hr' by (rewrite <- Hr; done).
  assert (sleeping_threads s' = sleeping_threads s) as Hs' by done.
  assert (idle_thread s' = idle_thread s) as Hi' by (apply (st_idle _ _ Hsd)).
  constructor; intros *; rewrite ?Hx, ?Hr', ?Hs', ?Hi', ?elem_of_list_remove.
  - destruct (decide (t = n)); [done|]. intros ??. by destruct (sh_run _ _ H t).
  - intros [Ht Hin]. rewrite decide_False by done. by apply (sh_ready _ _ H).
  - destruct (decide (t = n)) as [->|]; [done|]. intros Hmt Hst.
    destruct (sh_all _ _ H t Hmt Hst); auto.
  - apply NoDup_filter, H.
  - destruct (sh_idle _ _ H) as (i & Hi & Hmi & Hni & Hnsi & Hdi). exists i.
    rewrite Hx, elem_of_list_remove. split_and!; [done|by destruct (decide (i = n)) as [->|]|tauto|done|].
    by destruct (decide (i = n)).
  - intros Hin. rewrite decide_False by congruence. by apply (sh_sleep _ _ H).
  - apply H.
  - intros Hp. apply (StronglySorted_higher s).
    + intros x _. rewrite Hx. by destruct (decide (x = n)) as [->|].
    + apply StronglySorted_remove, (sh_prio _ _ H).
      rewrite <- (st_policy _ _ Hsd). done.
Qed.

Lemma free_shape s p run : shape s run → status (th s p) = THREAD_DYING →
  shape (upd s p (λ r, with_magic r false)) run.
Proof.
  intros H Hp. set (s' := upd s p _).
  assert (∀ x, th s' x = if decide (x = p) then with_magic (th s p) false else th s x) as Hx by done.
  constructor; intros *; try rewrite Hx.
  - destruct (decide (t = p)); [done|apply H].
  - change (ready s') with (ready s). intros Ht. destruct (sh_ready _ _ H t Ht).
    rewrite decide_False by congruence. done.
  - destruct (decide (t = p)); [done|apply H].
  - apply H.
  - destruct (sh_idle _ _ H) as (i & Hi & Hmi & Hni & Hnsi & Hdi). exists i. rewrite Hx.
    rewrite decide_False by congruence. done.
  - change (sleeping_threads s') with (sleeping_threads s). intros Ht. destruct (sh_sleep _ _ H t Ht).
    rewrite decide_False by congruence. done.
  - apply H.
  - intros Hpo. apply (StronglySorted_higher s); [|by apply H].
    intros x _. rewrite Hx. by destruct (decide (x = p)) as [->|].
Qed.

Lemma schedule_switch s n s1 : shape s (λ _, False) → status (th s (current s)) ≠ THREAD_RUNNING →
  next_thread_to_run s = Ret (Some n, s1) → popped s s1 n →
  n ∈ ready s ∨ ready s = [] ∧ idle_thread s = Some n →
  ∃ s', schedule s = Ret s' ∧ sched_ok s' ∧ switched s s' n.
Proof.
  intros H Hcur Hnext Hpo Hch. unfold schedule. rewrite Hnext. cbn [mbind outcome_bind].
  assert (n ∈ ready s ∨ idle_thread s = Some n) as Hn by tauto.
  pose proof (popped_shape s s1 n H Hpo Hn) as Hsh. destruct Hpo as [Hsd Hth Hc Hsl Ha Hr].
  destruct (shape_magic _ _ _ H Hn) as (Hm & Hnd & Hns).
  rewrite Hth. rewrite (bool_decide_true (status _ ≠ _)) by done. cbn [ASSERT is_thread].
  rewrite Hth, Hm. set (s2 := upd (with_thread_ticks (with_current s1 n) 0) n
    (λ r, with_status r THREAD_RUNNING)) in *.
  assert (∀ x, th s2 x = if decide (x = n) then with_status (th s n) THREAD_RUNNING else th s x) as Hx.
  { intros x. unfold s2. rewrite status_upd. cbn. by rewrite Hth. }
  assert (sched_ok s2) as Hok by (constructor; [exact Hsh| |]; cbn; rewrite fupd_eq; cbn; by rewrite ?Hth).
  destruct (decide (current s = n)) as [E|E].
  - rewrite bool_decide_true by done. unfold thread_switch_tail. rewrite Hc, E.
    exists s2. split; [|split; [exact Hok|]].
    + unfold s2, upd. cbn. f_equal. rewrite <- E, <- Hc. by destruct s1.
    + constructor; try done; [destruct Hsd; done|by rewrite Hx, decide_True|].
      intros x Hxn. left. by rewrite Hx, decide_False.
  - rewrite bool_decide_false by done. unfold thread_switch_tail. cbn [current with_current].
    set (s3 := with_thread_ticks _ 0).
    assert (s3 = s2) as -> by done.
    destruct (bool_decide (status (th s2 (current s)) = THREAD_DYING)) eqn:Ed; cbn [andb];
      [destruct (bool_decide (current s ≠ initial_thread s2)) eqn:Ei|].
    + apply bool_decide_eq_true in Ed. rewrite bool_decide_true by done. cbn [ASSERT mbind outcome_bind].
      eexists. split; [reflexivity|]. split.
      * destruct Hok as [Ho1 Ho2 Ho3]. change (current s2) with n in *.
        constructor; [by apply free_shape|..]; cbn [current upd with_threads];
          change (current (upd s2 (current s) (λ r, with_magic r false))) with n;
          rewrite upd_ne by done; done.
      * rewrite Hx, decide_False in Ed by done.
        constructor; try done; [destruct Hsd; done|rewrite upd_ne by done; by rewrite Hx, decide_True|].
        intros x Hxn. destruct (decide (x = current s)) as [->|Hxc].
        -- right. rewrite upd_eq, Hx, decide_False by done. done.
        -- left. rewrite upd_ne, Hx, decide_False by done. done.
    + exists s2. split; [done|]. split; [done|]. constructor; try done; [destruct Hsd; done|by rewrite Hx, decide_True|].
      intros x Hxn. left. by rewrite Hx, decide_False.
    + exists s2. split; [done|]. split; [done|]. constructor; try done; [destruct Hsd; done|by rewrite Hx, decide_True|].
      intros x Hxn. left. by rewrite Hx, decide_False.
Qed.

(** Under [schedulable] a switch goes through, to the thread the policy chooses. *)
Lemma schedule_run s : shape s (λ _, False) → schedulable s → status (th s (current s)) ≠ THREAD_RUNNING →
  ∃ s' n, schedule s = Ret s' ∧ sched_ok s' ∧ switched s s' n ∧
    (chosen s n ∨ ready s = [] ∧ idle_thread s = Some n).
Proof.
  intros H Hsch Hcur. destruct (next_thread_run s _ H Hsch) as (n & s1 & Hnext & Hpo & Hch).
  destruct (schedule_switch s n s1 H Hcur Hnext Hpo) as (s' & ? & ? & ?).
  { destruct Hch as [[? _]|?]; auto. }
  eauto 10.
Qed.

(** A fair scheduler that finds a thread finds a ready one. *)
Lemma take_winner_inv s s1 w no s' :
  take_winner s1 w = Ret (no, s') → active_sched_policy s = SCHED_FAIR →
  steady s s1 → threads s1 = threads s → current s1 = current s →
  sleeping_threads s1 = sleeping_threads s → all_list s1 = all_list s →
  fair_ready_list s1 = fair_ready_list s →
  ∃ n, w = Some n ∧ no = Some n ∧ popped s s' n.
Proof.
  intros Hw Hp Hsd Ht Hc Hs Ha Hf. destruct w as [n|]; [|done]. injection Hw as <- <-.
  exists n. split; [done|]. split; [done|]. destruct Hsd. constructor; cbn; try done.
  unfold ready. cbn. by rewrite st_policy0, Hp, Hf.
Qed.

Lemma thread_schedule_fair_inv s no s' :
  active_sched_policy s = SCHED_FAIR → thread_schedule_fair s = Ret (no, s') →
  (ready s = [] ∧ no = idle_thread s ∧ s' = s) ∨
  (∃ n, no = Some n ∧ n ∈ ready s ∧ popped s s' n).
Proof.
  intros Ep. unfold thread_schedule_fair, thread_schedule_stride, thread_schedule_lottery.
  assert (ready s = fair_ready_list s) as Hr by (unfold ready; by rewrite Ep). rewrite Hr.
  destruct (active_fair_sched_type s).
  1,2: destruct (fair_ready_list s); [intros [= <- <-]; by left|done].
  - unfold thread_schedule_cfs. destruct (fair_ready_list s) as [|x l] eqn:El;
      [intros [= <- <-]; by left|]. set (L := x :: l) in *.
    destruct (scan_min _ _ L None INT64_MAX) as [w m] eqn:Es. intros Hw. right.
    destruct (take_winner_inv s s w no s' Hw) as (n & -> & -> & Hpo); try done.
    destruct (scan_min_spec _ _ _ _ _ _ _ Es) as [(? & _)|(n' & ? & [= <-] & _)]; [done|eauto].
  - unfold thread_schedule_eevdf. destruct (fair_ready_list s) as [|x l] eqn:El;
      [intros [= <- <-]; by left|]. set (L := x :: l) in *.
    destruct (scan_min _ _ L None INT64_MAX) as [w0 lm] eqn:E0.
    set (s1 := if _ <? _ then _ else s).
    destruct (scan_min _ _ L None INT64_MAX) as [w1 d1] eqn:E1 at 1. intros Hw. right.
    eapply (take_winner_inv s s1) in Hw as (n & Hwn & -> & Hpo); try done;
      try (unfold s1; by destruct (_ <? _)).
    exists n. split_and!; [done| |done].
    destruct w1 as [n1|].
    + injection Hwn as ->.
      destruct (scan_min_spec _ _ _ _ _ _ _ E1) as [(? & _)|(n' & ? & [= <-] & _)]; [done|eauto].
    + apply bind_Some in Hwn as ([i y] & Hf & [= <-]). apply list_find_Some in Hf as (Hf & _).
      by eapply list_elem_of_lookup_2.
Qed.

Lemma next_thread_inv s run no s' : shape s run → next_thread_to_run s = Ret (no, s') →
  ∃ n, no = Some n ∧ popped s s' n ∧ (n ∈ ready s ∨ ready s = [] ∧ idle_thread s = Some n).
Proof.
  intros H Hnext. destruct (active_sched_policy s) eqn:Ep.
  3: { unfold next_thread_to_run in Hnext. rewrite Ep in Hnext.
    destruct (thread_schedule_fair_inv _ _ _ Ep Hnext) as [(Hr & -> & ->)|(n & -> & Hn & Hpo)]; [|eauto].
    destruct (sh_idle _ _ H) as (i & Hi & _). exists i. split; [done|]. split; [|auto].
    constructor; rewrite ?Hr; done. }
  all: destruct (next_thread_run s run H) as (n & s1 & E & Hpo & Hch);
    [intros E; congruence|rewrite E in Hnext; injection Hnext as <- <-; exists n;
     split; [done|split; [done|destruct Hch as [[? _]|?]; auto]]].
Qed.

(** A switch that goes through. *)
Lemma schedule_inv s s' : shape s (λ _, False) → status (th s (current s)) ≠ THREAD_RUNNING →
  schedule s = Ret s' → ∃ n, sched_ok s' ∧ switched s s' n.
Proof.
  intros H Hcur Hs. pose proof Hs as Hs0. unfold schedule in Hs0.
  apply bind_Ret in Hs0 as ([no s1] & Hnext & _).
  destruct (next_thread_inv _ _ _ _ H Hnext) as (n & -> & Hpo & Hch).
  destruct (schedule_switch s n s1 H Hcur Hnext Hpo Hch) as (s2 & E & ? & ?).
  rewrite E in Hs. injection Hs as ->. eauto.
Qed.

(** ** Transitions *)

Lemma shape_run_weaken s (run run' : tptr → Prop) : shape s run → (∀ x, run x → run' x) → shape s run'.
Proof. intros [] Hr. constructor; auto. Qed.

(** The accounting of the fair policies touches the virtual times of one thread. *)
Lemma fair_update_inv s t n s' : fair_update_vruntime s t n = Ret s' →
  s' = s ∨ ∃ v d, s' = upd s t (λ r, with_deadline (with_vruntime r v) d).
Proof.
  unfold fair_update_vruntime. repeat (case_match; [intros [= ->]; by left|]).
  intros (w & _ & Hs)%bind_Ret. injection Hs as <-. right. eauto.
Qed.

(** Equal up to virtual times. *)
Definition vtimes (s s' : sched) : Prop := s' = with_threads s (threads s') ∧
  ∀ x, status (th s' x) = status (th s x) ∧ magic (th s' x) = magic (th s x) ∧
       eff_priority (th s' x) = eff_priority (th s x) ∧ wake_up_tick (th s' x) = wake_up_tick (th s x) ∧
       priority (th s' x) = priority (th s x) ∧ waiting_lock (th s' x) = waiting_lock (th s x) ∧
       held_locks (th s' x) = held_locks (th s x).

Lemma fair_update_vtimes s t n s' : fair_update_vruntime s t n = Ret s' → vtimes s s'.
Proof.
  intros [->|(v & d & ->)]%fair_update_inv.
  - split; [by destruct s|done].
  - split; [done|]. intros x. unfold upd, fupd. cbn. by destruct (decide (x = t)) as [->|].
Qed.

Lemma vtimes_shape s s' run : vtimes s s' → shape s run → shape s' run.
Proof.
  intros [Hs Hx] H. rewrite Hs. set (g := threads s') in *.
  constructor; intros *; cbn [threads with_threads]; try (destruct (Hx t) as (-> & -> & _)).
  - apply H.
  - apply H.
  - apply H.
  - apply H.
  - destruct (sh_idle _ _ H) as (i & ?). exists i. cbn [threads with_threads].
    destruct (Hx i) as (-> & -> & _). done.
  - apply H.
  - apply H.
  - intros Hp. apply (StronglySorted_higher s); [|by apply H]. intros t _. apply Hx.
Qed.

Lemma vtimes_ok s s' : vtimes s s' → sched_ok s → sched_ok s'.
Proof.
  intros Hv [Ho1 Ho2 Ho3]. pose proof (vtimes_shape _ _ _ Hv Ho1) as Hsh. destruct Hv as [Hs Hx].
  assert (current s' = current s) as Hc by (by rewrite Hs). destruct (Hx (current s)) as (E1 & E2 & _).
  constructor; rewrite ?Hc; [done|congruence..].
Qed.

(** What a transition keeps of every thread. *)
Definition same_fields (r r' : thread) : Prop :=
  priority r' = priority r ∧ eff_priority r' = eff_priority r ∧ waiting_lock r' = waiting_lock r ∧
  held_locks r' = held_locks r ∧ wake_up_tick r' = wake_up_tick r.

Lemma same_fields_trans r1 r2 r3 : same_fields r1 r2 → same_fields r2 r3 → same_fields r1 r3.
Proof. unfold same_fields. intuition congruence. Qed.

(** The current thread leaves the processor with status [st]. *)
Record moved (s s' : sched) (st : thread_status) : Prop := mk_moved {
  mv_ok : sched_ok s';
  mv_steady : steady s s';
  mv_sleep : sleeping_threads s' = sleeping_threads s;
  mv_fields x : same_fields (th s x) (th s' x);
  mv_old : current s' = current s ∨ status (th s' (current s)) = st;
  mv_magic x : magic (th s' x) = magic (th s x) ∨ x = current s ∧ st = THREAD_DYING;
  mv_others x : x ≠ current s → x ≠ current s' → status (th s' x) = status (th s x);
  mv_new : current s' = current s ∨ current s' ∈ ready s ∨ idle_thread s = Some (current s');
  mv_self : current s' = current s → st = THREAD_READY ∨ idle_thread s = Some (current s) }.

(** The running thread stops without entering the ready queue. *)
Lemma stop_shape s st : sched_ok s →
  st = THREAD_BLOCKED ∨ (st = THREAD_DYING ∧ idle_thread s ≠ Some (current s)) ∨
    (st = THREAD_READY ∧ idle_thread s = Some (current s)) →
  shape (upd s (current s) (λ r, with_status r st)) (λ _, False).
Proof.
  intros [H Hm Hr] Hst. set (s' := upd s _ _).
  assert (∀ x, th s' x = if decide (x = current s) then with_status (th s (current s)) st else th s x) as Hx
    by (intros x; apply status_upd).
  assert (current s ∉ ready s ∧ current s ∉ sleeping_threads s) as [Hnr Hns].
  { split; intros Hc; [apply (sh_ready _ _ H) in Hc as [_ ?]|apply (sh_sleep _ _ H) in Hc as [_ ?]]; congruence. }
  constructor; intros *; try rewrite Hx.
  - destruct (decide (t = current s)) as [->|Ht]; [intros _; cbn; naive_solver|]. intros ??.
    by apply Ht, (sh_run _ _ H).
  - intros Hin. rewrite decide_False by (by intros ->). by apply (sh_ready _ _ H).
  - destruct (decide (t = current s)) as [->|Ht]; [|apply H]. intros _. cbn. naive_solver.
  - apply H.
  - destruct (sh_idle _ _ H) as (i & Hi & Hmi & Hni & Hnsi & Hdi). exists i. rewrite Hx.
    split_and!; [done|by destruct (decide (i = current s)) as [->|]|done|done|].
    destruct (decide (i = current s)) as [->|]; [|done]. cbn. naive_solver.
  - intros Hin. rewrite decide_False by (by intros ->). by apply (sh_sleep _ _ H).
  - apply H.
  - intros Hp. apply (StronglySorted_higher s); [|by apply H].
    intros x _. rewrite Hx. by destruct (decide (x = current s)) as [->|].
Qed.

Lemma thread_current_run s : sched_ok s → thread_current s = Ret (current s).
Proof.
  intros [_ Hm Hr]. unfold thread_current. cbn [is_thread]. rewrite Hm. cbn [ASSERT mbind outcome_bind].
  by rewrite bool_decide_true.
Qed.

(** From the state before the switch to a move of the current thread. *)
Lemma switched_moved s s0 s1 s' n st : sched_ok s → vtimes s s0 → sched_ok s' → switched s1 s' n →
  steady s0 s1 → current s1 = current s → sleeping_threads s1 = sleeping_threads s →
  (∀ x, th s1 x = if decide (x = current s) then with_status (th s0 (current s)) st else th s0 x) →
  (∀ x, x ∈ ready s1 → x = current s ∧ st = THREAD_READY ∨ x ∈ ready s) →
  moved s s' st.
Proof.
  intros Hok Hv Hok' Hsw Hsd Hc Hsl Hx Hrd. pose proof Hv as [Hs0 Hf].
  assert (∀ x, same_fields (th s x) (th s1 x) ∧ magic (th s1 x) = magic (th s x)) as Hf1.
  { intros x. rewrite Hx. destruct (Hf x) as (?&?&?&?&?&?&?), (Hf (current s)) as (?&?&?&?&?&?&?).
    unfold same_fields. destruct (decide (x = current s)) as [->|]; cbn; tauto. }
  assert (∀ x, x ≠ current s → status (th s1 x) = status (th s x)) as Hst.
  { intros x Hxc. rewrite Hx, decide_False by done. by destruct (Hf x). }
  pose proof (sw_current _ _ _ Hsw) as Hn.
  constructor.
  - done.
  - eapply steady_trans; [|apply (sw_steady _ _ _ Hsw)]. eapply steady_trans; [|exact Hsd]. by rewrite Hs0.
  - by rewrite (sw_sleep _ _ _ Hsw).
  - intros x. eapply same_fields_trans; [apply Hf1|]. destruct (decide (x = n)) as [->|Hxn].
    + by rewrite (sw_next _ _ _ Hsw).
    + destruct (sw_others _ _ _ Hsw x Hxn) as [-> |(_ & _ & ->)]; done.
  - rewrite Hn. destruct (decide (n = current s)) as [|Hne]; [by left|right].
    destruct (sw_others _ _ _ Hsw (current s)) as [-> |(_ & _ & ->)]; [done|..]; rewrite Hx, decide_True; done.
  - intros x. destruct (decide (x = n)) as [->|Hxn].
    + left. rewrite (sw_next _ _ _ Hsw). cbn. apply Hf1.
    + destruct (sw_others _ _ _ Hsw x Hxn) as [-> |(-> & Hd & _)]; [left; apply Hf1|right].
      split; [done|]. rewrite Hc, Hx, decide_True in Hd by done. done.
  - intros x Hxc Hxn. rewrite Hn in Hxn. rewrite <- (Hst x Hxc).
    destruct (sw_others _ _ _ Hsw x Hxn) as [-> |(-> & _)]; [done|]. by rewrite Hc in Hxc.
  - rewrite Hn. destruct (sw_from _ _ _ Hsw) as [Hin|[_ Hid]].
    + apply Hrd in Hin. tauto.
    + right. right. rewrite <- Hid, (st_idle _ _ Hsd). by rewrite Hs0.
  - rewrite Hn. intros ->. destruct (sw_from _ _ _ Hsw) as [Hin|[_ Hid]].
    + apply Hrd in Hin as [[_ ?]|Hin]; [by left|]. destruct Hok as [Hsh _ Hrun].
      apply (sh_ready _ _ Hsh) in Hin as [_ ?]. congruence.
    + right. rewrite <- Hid, (st_idle _ _ Hsd). by rewrite Hs0.
Qed.

Lemma thread_block_inv s s' : sched_ok s → thread_block s = Ret s' → moved s s' THREAD_BLOCKED.
Proof.
  intros Hok Hb. unfold thread_block in Hb. rewrite (thread_current_run _ Hok) in Hb.
  cbn [mbind outcome_bind] in Hb. apply bind_Ret in Hb as (s0 & Hv%fair_update_vtimes & Hb).
  assert (current s0 = current s) as Hc by (destruct Hv as [-> _]; done).
  pose proof (vtimes_ok _ _ Hv Hok) as Hok0. rewrite <- Hc in Hb.
  pose proof (stop_shape s0 THREAD_BLOCKED Hok0 ltac:(by left)) as Hsh.
  apply schedule_inv in Hb as (n & Hok' & Hsw); [|done|cbn; by rewrite fupd_eq].
  eapply switched_moved; [done|done|done|exact Hsw|done|done|by destruct Hv as [-> _]|..].
  - intros x. rewrite <- Hc. apply status_upd.
  - intros x Hx. right. destruct Hv as [Hv _]. rewrite Hv in Hx. done.
Qed.

Lemma thread_exit_inv s s' : sched_ok s → idle_thread s ≠ Some (current s) →
  thread_exit s = Ret s' → moved s s' THREAD_DYING.
Proof.
  intros Hok Hid Hb. unfold thread_exit in Hb. rewrite (thread_current_run _ Hok) in Hb.
  cbn [mbind outcome_bind] in Hb. set (s0 := with_all_list s _) in Hb.
  assert (sched_ok s0) as Hok0.
  { destruct Hok as [[] ??]. split; [split|..]; assumption. }
  pose proof (stop_shape s0 THREAD_DYING Hok0 ltac:(right; left; done)) as Hsh.
  apply schedule_inv in Hb as (n & Hok' & Hsw); [|done|cbn; by rewrite fupd_eq].
  assert (moved s0 s' THREAD_DYING) as [].
  { eapply (switched_moved s0 s0); [done|split; [by destruct s|done]|done|exact Hsw|done|done|done|..].
    - intros x. apply status_upd.
    - intros x Hx. by right. }
  destruct mv_steady0. constructor; try assumption. by constructor.
Qed.

Lemma thread_yield_inv s s' : sched_ok s → thread_yield s = Ret s' → moved s s' THREAD_READY.
Proof.
  intros Hok Hb. unfold thread_yield in Hb. rewrite (thread_current_run _ Hok) in Hb.
  cbn [mbind outcome_bind] in Hb. apply bind_Ret in Hb as (s0 & Hv%fair_update_vtimes & Hb).
  assert (current s0 = current s) as Hc by (destruct Hv as [-> _]; done).
  pose proof (vtimes_ok _ _ Hv Hok) as Hok0. rewrite <- Hc in Hb.
  apply bind_Ret in Hb as (s1 & He & Hb). unfold is_idle in He.
  destruct (bool_decide (idle_thread s0 = Some (current s0))) eqn:Ei.
  - apply bool_decide_eq_true in Ei. injection He as <-.
    pose proof (stop_shape s0 THREAD_READY Hok0 ltac:(by right; right)) as Hsh.
    apply schedule_inv in Hb as (n & Hok' & Hsw); [|done|cbn; by rewrite fupd_eq].
    eapply switched_moved; [done|done|done|exact Hsw|done|done|by destruct Hv as [-> _]|..].
    + intros x. rewrite <- Hc. apply status_upd.
    + intros x Hx. right. destruct Hv as [Hv _]. rewrite Hv in Hx. done.
  - apply bool_decide_eq_false in Ei. pose proof Hok0 as [H0 Hm0 Hr0].
    assert (current s0 ∉ sleeping_threads s0) as Hns.
    { intros Hin. apply (sh_sleep _ _ H0) in Hin as [_ ?]. congruence. }
    destruct (make_ready s0 s1 (current s0) _ H0 He Hm0) as (Hsh & Hsd & Hc1 & Hsl & Hp & _ & Hx);
      [by rewrite Hr0|done|done|].
    apply schedule_inv in Hb as (n & Hok' & Hsw).
    + eapply switched_moved; [done|done|done|exact Hsw|done|by rewrite <- Hc|
        rewrite Hsl; by destruct Hv as [-> _]|..].
      * intros x. rewrite <- Hc. apply Hx.
      * intros x. rewrite Hp, elem_of_cons, <- Hc. intros [->|Hin]; [by left|right].
        destruct Hv as [Hv _]. rewrite Hv in Hin. done.
    + eapply shape_run_weaken; [exact Hsh|]. naive_solver.
    + rewrite Hc1, Hx, decide_True by done. done.
Qed.

(** ** Waking up and the timer *)

Lemma thread_unblock_run s t : sched_ok s → magic (th s t) = true →
  status (th s t) = THREAD_BLOCKED → t ∉ sleeping_threads s → idle_thread s ≠ Some t →
  ∃ s', thread_unblock s t = Ret s' ∧ sched_ok s' ∧ steady s s' ∧ current s' = current s ∧
    sleeping_threads s' = sleeping_threads s ∧ ready s' ≡ₚ t :: ready s ∧
    (∀ x, th s' x = if decide (x = t) then with_status (th s t) THREAD_READY else th s x).
Proof.
  intros Hok Hm Hst Hns Hid. pose proof Hok as [H Hmc Hrc]. unfold thread_unblock. cbn [is_thread].
  rewrite Hm. cbn [ASSERT mbind outcome_bind]. rewrite bool_decide_true by done. cbn [ASSERT].
  destruct (thread_enqueue_run s t Hm) as (s1 & He & _). rewrite He. eexists. split; [reflexivity|].
  destruct (make_ready s s1 t _ H He Hm) as (Hsh & Hsd & Hc1 & Hsl & Hp & _ & Hx);
    [by rewrite Hst|done|done|]. split_and!; [|done..].
  assert (current s ≠ t) by congruence. constructor; rewrite ?Hc1.
  - eapply shape_run_weaken; [exact Hsh|]. naive_solver.
  - by rewrite Hx, decide_False.
  - by rewrite Hx, decide_False.
Qed.

(** Only fields the invariant does not read differ. *)
Record similar (s s' : sched) : Prop := mk_similar {
  sm_steady : steady s s';
  sm_ready : ready s' = ready s;
  sm_sleep : sleeping_threads s' = sleeping_threads s;
  sm_current : current s' = current s;
  sm_th x : status (th s' x) = status (th s x) ∧ magic (th s' x) = magic (th s x) ∧
    eff_priority (th s' x) = eff_priority (th s x) ∧ waiting_lock (th s' x) = waiting_lock (th s x) ∧
    held_locks (th s' x) = held_locks (th s x) ∧ wake_up_tick (th s' x) = wake_up_tick (th s x) }.

Lemma similar_refl s : similar s s.
Proof. done. Qed.
Lemma similar_trans s1 s2 s3 : similar s1 s2 → similar s2 s3 → similar s1 s3.
Proof.
  intros [? ? ? ? H1] [? ? ? ? H2]. constructor; [eauto with sched|congruence..|].
  intros x. destruct (H1 x) as (?&?&?&?&?&?), (H2 x) as (?&?&?&?&?&?). split_and!; congruence.
Qed.

Lemma similar_ok s s' : similar s s' → sched_ok s → sched_ok s'.
Proof.
  intros [Hsd Hr Hsl Hc Hx] [H Hm Hru]. constructor.
  - constructor; intros *; rewrite ?Hr, ?Hsl, ?Hc; try (destruct (Hx t) as (-> & -> & _)).
    + apply H.
    + apply H.
    + rewrite (st_idle _ _ Hsd). apply H.
    + apply H.
    + destruct (sh_idle _ _ H) as (i & ?). exists i. rewrite (st_idle _ _ Hsd).
      destruct (Hx i) as (-> & -> & _). done.
    + apply H.
    + apply H.
    + rewrite (st_policy _ _ Hsd). intros Hp. apply (StronglySorted_higher s); [|by apply H].
      intros t _. apply Hx.
  - rewrite Hc. by destruct (Hx (current s)) as (_ & -> & _).
  - rewrite Hc. by destruct (Hx (current s)) as (-> & _).
Qed.

(** An update of fields the invariant does not read. *)
Lemma similar_upd s t g :
  (∀ r, status (g r) = status r ∧ magic (g r) = magic r ∧ eff_priority (g r) = eff_priority r ∧
        waiting_lock (g r) = waiting_lock r ∧ held_locks (g r) = held_locks r ∧
        wake_up_tick (g r) = wake_up_tick r) →
  similar s (upd s t g).
Proof.
  intros Hg. constructor; try done. intros x. unfold upd, fupd. cbn.
  destruct (decide (x = t)) as [->|]; [apply Hg|done].
Qed.

Lemma mlfqs_priority_similar s t s' : mlfqs_update_priority s t = Ret s' → similar s s'.
Proof.
  unfold mlfqs_update_priority. case_match; [intros [= ->]; apply similar_refl|].
  intros (q & _ & Hs)%bind_Ret. injection Hs as <-. by apply similar_upd.
Qed.

Lemma mlfqs_recent_similar s t s' : mlfqs_update_recent_cpu s t = Ret s' → similar s s'.
Proof.
  unfold mlfqs_update_recent_cpu. case_match; [intros [= ->]; apply similar_refl|].
  intros Hs. do 6 (apply bind_Ret in Hs as (? & _ & Hs)). injection Hs as <-. by apply similar_upd.
Qed.

Lemma for_threads_similar g l s s' : (∀ s t s', g s t = Ret s' → similar s s') →
  for_threads g l s = Ret s' → similar s s'.
Proof.
  intros Hg. revert s. induction l as [|t l IH]; intros s; cbn [for_threads].
  - intros [= ->]. apply similar_refl.
  - intros (s1 & H1 & H2)%bind_Ret. eapply similar_trans; eauto.
Qed.

Lemma mlfqs_tick_similar s s' : thread_mlfqs_tick s = Ret s' → similar s s'.
Proof.
  unfold thread_mlfqs_tick. intros (c & _ & Hs)%bind_Ret. case_match; [injection Hs as ->; apply similar_refl|].
  do 2 (apply bind_Ret in Hs as (? & _ & Hs)). injection Hs as <-. by apply similar_upd.
Qed.

Lemma mlfqs_stats_similar s s' : thread_mlfqs_update_stats s = Ret s' → similar s s'.
Proof.
  unfold thread_mlfqs_update_stats, mlfqs_update_load_avg. intros (s1 & Hl & Hs)%bind_Ret.
  do 5 (apply bind_Ret in Hl as (? & _ & Hl)). injection Hl as <-.
  eapply similar_trans; [|eapply for_threads_similar, Hs].
  - done.
  - intros s2 t s3 (s4 & H1 & H2)%bind_Ret.
    eapply similar_trans; [by eapply mlfqs_recent_similar|by eapply mlfqs_priority_similar].
Qed.

Lemma thread_tick_similar s s' : thread_tick s = Ret s' → similar s s'.
Proof.
  unfold thread_tick. intros (t & _ & Hs)%bind_Ret. injection Hs as <-.
  repeat case_match; done.
Qed.

(** What a timer interrupt does to threads and queues. *)
Record ticked (s s' : sched) : Prop := mk_ticked {
  tk_ok : sched_ok s';
  tk_steady : steady s s';
  tk_current : current s' = current s;
  tk_th x : magic (th s' x) = magic (th s x) ∧ eff_priority (th s' x) = eff_priority (th s x) ∧
    waiting_lock (th s' x) = waiting_lock (th s x) ∧ held_locks (th s' x) = held_locks (th s x);
  tk_status x : x ∉ sleeping_threads s → status (th s' x) = status (th s x);
  tk_sleep x : x ∈ sleeping_threads s' → x ∈ sleeping_threads s;
  tk_woken x : x ∈ sleeping_threads s → x ∈ sleeping_threads s' ∨ status (th s' x) = THREAD_READY }.

Lemma thread_unblock_ticks s t s' : thread_unblock s t = Ret s' → ticks s' = ticks s.
Proof.
  unfold thread_unblock, thread_enqueue. intros H. outcome_inv. by destruct (active_sched_policy s).
Qed.

(** The first sleeper wakes. *)
Lemma wake_one s t l : sched_ok s → sleeping_threads s = t :: l →
  ∃ s', thread_unblock (with_sleeping_threads s l) t = Ret s' ∧ sched_ok s' ∧ steady s s' ∧
    current s' = current s ∧ ticks s' = ticks s ∧ sleeping_threads s' = l ∧ ready s' ≡ₚ t :: ready s ∧
    (∀ x, th s' x = if decide (x = t) then with_status (th s t) THREAD_READY else th s x).
Proof.
  intros Hok Hl. set (s1 := with_sleeping_threads s l). pose proof Hok as [H Hm Hr].
  assert (t ∈ sleeping_threads s) as Hin by (rewrite Hl; by left).
  destruct (sh_sleep _ _ H t Hin) as [Hmt Hst]. pose proof (sh_sleep_nodup _ _ H) as Hnd.
  rewrite Hl in Hnd. apply NoDup_cons in Hnd as [Htl Hnd].
  assert (idle_thread s ≠ Some t) as Hid.
  { destruct (sh_idle _ _ H) as (i & Hi & _ & _ & Hni & _). rewrite Hi. by intros [= ->]. }
  assert (sched_ok s1) as Hok1.
  { constructor; [|done|done]. destruct H as [H1 H2 H3 H4 H5 H6 H7 H8]. constructor; try assumption.
    - destruct H5 as (i & ? & ? & ? & Hni & ?). exists i. split_and!; try done. rewrite Hl in Hni. set_solver.
    - intros x Hx. apply H6. rewrite Hl. by right. }
  destruct (thread_unblock_run s1 t Hok1) as (s3 & E & Hok3 & Hsd & Hc & Hsl & Hp & Hx); try done.
  exists s3. split; [done|]. split; [done|]. split; [by destruct Hsd|]. split; [done|].
  split; [|done]. by apply thread_unblock_ticks in E.
Qed.

Lemma wake_sleepers_inv l s s' : sched_ok s → sleeping_threads s = l →
  wake_sleepers l s = Ret s' → ticked s s'.
Proof.
  revert s. induction l as [|t l IH]; intros s Hok Hl; cbn [wake_sleepers].
  { intros [= ->]. constructor; auto with sched. }
  destruct (ticks s <? wake_up_tick (th s t)); [intros [= ->]; constructor; auto with sched|].
  intros (s2 & Hu & Hw)%bind_Ret.
  destruct (wake_one s t l Hok Hl) as (s3 & E & Hok3 & Hsd & Hc & _ & Hsl & Hp & Hx).
  rewrite E in Hu. injection Hu as ->.
  destruct (IH s2 Hok3 Hsl Hw) as [? Hsd2 Hc2 Ht2 Hst2 Hsl2 Hwo2].
  pose proof (sh_sleep_nodup _ _ (ok_shape _ Hok)) as Hnd. rewrite Hl in Hnd. apply NoDup_cons in Hnd as [Htl Hnd].
  constructor.
  - done.
  - by eapply steady_trans.
  - by rewrite Hc2, Hc.
  - intros x. destruct (Ht2 x) as (-> & -> & -> & ->). rewrite Hx. by destruct (decide (x = t)) as [->|].
  - intros x. rewrite Hl, not_elem_of_cons. intros [Hne Hnl]. rewrite Hst2 by (by rewrite Hsl).
    by rewrite Hx, decide_False.
  - intros x Hx2. apply Hsl2 in Hx2. rewrite Hsl in Hx2. rewrite Hl. by right.
  - intros x. rewrite Hl, elem_of_cons. intros [->|Hin']; [right|apply Hwo2; by rewrite Hsl].
    rewrite Hst2 by (by rewrite Hsl). by rewrite Hx, decide_True.
Qed.

Lemma ticked_similar s s1 s' : similar s s1 → ticked s1 s' → ticked s s'.
Proof.
  intros [Hsd Hr Hsl Hc Hx] [? Hsd' Hc' Ht Hst Hsl' Hwo]. constructor.
  - done.
  - eauto with sched.
  - congruence.
  - intros x. destruct (Hx x) as (_ & <- & <- & <- & <- & _). apply Ht.
  - intros x Hn. rewrite Hst by (by rewrite Hsl). apply Hx.
  - intros x Hx'. rewrite <- Hsl. by apply Hsl'.
  - intros x. rewrite <- Hsl. apply Hwo.
Qed.

(** The timer interrupt up to the loop that wakes sleepers. *)
Lemma timer_split s s' : timer_interrupt s = Ret s' →
  ∃ s2, similar s s2 ∧ wake_sleepers (sleeping_threads s2) s2 = Ret s'.
Proof.
  intros Ht. unfold timer_interrupt in Ht.
  apply bind_Ret in Ht as (s1 & Hti%thread_tick_similar & Ht). apply bind_Ret in Ht as (s2 & Hml & Ht).
  assert (similar s1 s2) as Hs2.
  { destruct (active_sched_policy s1); try (injection Hml as ->; apply similar_refl).
    apply bind_Ret in Hml as (s3 & H3%mlfqs_tick_similar & Hml). eapply similar_trans; [exact H3|].
    case_match; [by apply mlfqs_stats_similar|]. case_match; [|injection Hml as ->; apply similar_refl].
    by eapply for_threads_similar, Hml; intros ???; apply mlfqs_priority_similar. }
  exists s2. split; [|done]. eapply similar_trans; [|exact Hs2]. eapply similar_trans; [|exact Hti]. done.
Qed.

Lemma timer_interrupt_inv s s' : sched_ok s → timer_interrupt s = Ret s' → ticked s s'.
Proof.
  intros Hok (s2 & Hs & Ht)%timer_split. eapply ticked_similar; [exact Hs|].
  eapply wake_sleepers_inv; [by eapply similar_ok|done|done].
Qed.

(** ** Sleeping *)

(** The scheduler does not read the list of sleepers. *)
Abbreviation with_sleep L := (λ s, with_sleeping_threads s L).

Lemma next_thread_sleep s L : next_thread_to_run (with_sleeping_threads s L) =
  (λ p, (p.1, with_sleeping_threads p.2 L)) <$> next_thread_to_run s.
Proof.
  unfold next_thread_to_run. cbn [active_sched_policy with_sleeping_threads].
  destruct (active_sched_policy s).
  - unfold thread_schedule_fifo. cbn. by destruct (fifo_ready_list s).
  - unfold thread_schedule_prio. cbn. by destruct (priority_ready_list s).
  - unfold thread_schedule_fair. cbn. destruct (active_fair_sched_type s).
    + unfold thread_schedule_stride. cbn. by destruct (fair_ready_list s).
    + unfold thread_schedule_lottery. cbn. by destruct (fair_ready_list s).
    + unfold thread_schedule_cfs. cbn [fair_ready_list with_sleeping_threads].
      destruct (fair_ready_list s) as [|x l]; [done|]. cbn [threads with_sleeping_threads].
      destruct (scan_min _ _ (x :: l) None INT64_MAX) as [[w|] m]; done.
    + unfold thread_schedule_eevdf. cbn [fair_ready_list with_sleeping_threads].
      destruct (fair_ready_list s) as [|x l] eqn:El; [done|].
      cbn [threads with_sleeping_threads eevdf_min_vruntime].
      destruct (scan_min _ _ (x :: l) None INT64_MAX) as [w0 lm].
      destruct (eevdf_min_vruntime s <? lm);
        cbn [threads with_sleeping_threads with_eevdf_min_vruntime eevdf_min_vruntime];
        (destruct (scan_min _ _ (x :: l) None INT64_MAX) as [[w|] m]; [done|]);
        (destruct (list_find _ (x :: l) ≫= _) as [w|]; done).
  - unfold thread_schedule_mlfqs. cbn. by destruct (priority_ready_list s).
Qed.

Lemma switch_tail_sleep s p L : thread_switch_tail (with_sleeping_threads s L) p =
  with_sleep L <$> thread_switch_tail s p.
Proof.
  unfold thread_switch_tail. destruct p as [p|]; [|done]. cbn. unfold fupd.
  destruct (bool_decide _ && bool_decide _); [|done]. by destruct (bool_decide _).
Qed.

Lemma schedule_sleep s L : schedule (with_sleeping_threads s L) = with_sleep L <$> schedule s.
Proof.
  unfold schedule. rewrite next_thread_sleep. destruct (next_thread_to_run s) as [[n s1]| | |]; [|done..].
  cbn [fmap outcome_fmap mbind outcome_bind fst snd]. cbn [threads with_sleeping_threads current].
  destruct (ASSERT (bool_decide (status (th s1 (current s)) ≠ THREAD_RUNNING))); [|done..].
  cbn [mbind outcome_bind]. change (is_thread (with_sleeping_threads s1 L) n) with (is_thread s1 n).
  destruct (ASSERT (is_thread s1 n)); [|done..]. cbn [mbind outcome_bind].
  destruct n as [n|]; [|done]. destruct (bool_decide (current s = n)); [apply switch_tail_sleep|].
  apply (switch_tail_sleep (with_current s1 n)).
Qed.

Lemma fair_update_sleep s t n L : fair_update_vruntime (with_sleeping_threads s L) t n =
  with_sleep L <$> fair_update_vruntime s t n.
Proof.
  unfold fair_update_vruntime, is_idle. cbn [active_sched_policy active_fair_sched_type idle_thread threads with_sleeping_threads].
  repeat (case_match; [done|]). by destruct (array_get _ _).
Qed.

Lemma thread_block_sleep s L : thread_block (with_sleeping_threads s L) = with_sleep L <$> thread_block s.
Proof.
  unfold thread_block. change (thread_current (with_sleeping_threads s L)) with (thread_current s).
  destruct (thread_current s) as [c| | |]; [|done..]. cbn [mbind outcome_bind]. rewrite fair_update_sleep.
  cbn [thread_ticks with_sleeping_threads].
  destruct (fair_update_vruntime s c (thread_ticks s)) as [s1| | |]; [|done..].
  cbn [fmap outcome_fmap mbind outcome_bind]. apply (schedule_sleep (upd s1 c _)).
Qed.

(** What [timer_sleep] does. *)
Record slept (s s' : sched) : Prop := mk_slept {
  sl_ok : sched_ok s';
  sl_steady : steady s s';
  sl_sleep : sleeping_threads s' ≡ₚ current s :: sleeping_threads s;
  sl_old : status (th s' (current s)) = THREAD_BLOCKED;
  sl_new : current s' ≠ current s;
  sl_magic x : magic (th s' x) = magic (th s x);
  sl_others x : x ≠ current s → x ≠ current s' → status (th s' x) = status (th s x);
  sl_next : current s' ∈ ready s ∨ idle_thread s = Some (current s') }.

Lemma timer_sleep_inv s n s' : sched_ok s → idle_thread s ≠ Some (current s) →
  timer_sleep s n = Ret s' → slept s s'.
Proof.
  intros Hok Hid Hrun. unfold timer_sleep in Hrun. rewrite (thread_current_run _ Hok) in Hrun.
  cbn [mbind outcome_bind] in Hrun. set (s0 := upd s (current s) _) in Hrun.
  assert (sched_ok s0) as Hok0.
  { destruct Hok as [H Hm Hr]. constructor.
    - constructor; intros *; try (unfold s0, upd, fupd; cbn;
        destruct (decide (t = current s)) as [->|]; cbn; apply H).
      + apply H.
      + destruct (sh_idle _ _ H) as (i & ?). exists i. unfold s0, upd, fupd. cbn.
        by destruct (decide (i = current s)) as [->|].
      + apply H.
      + intros Hp. apply (StronglySorted_higher s); [|by apply H]. intros x _. unfold s0, upd, fupd. cbn.
        by destruct (decide (x = current s)) as [->|].
    - unfold s0. cbn. rewrite fupd_eq. done.
    - unfold s0. cbn. rewrite fupd_eq. done. }
  unfold insert_sleeper in Hrun. set (L := KListProofs.ordered_insert _ _ _) in Hrun.
  assert (L ≡ₚ current s :: sleeping_threads s) as HL by apply KListProofs.ordered_insert_perm.
  rewrite thread_block_sleep in Hrun. destruct (thread_block s0) as [s1| | |] eqn:Hb; [|done..].
  injection Hrun as <-. apply thread_block_inv in Hb; [|done]. destruct Hb as [Hok1 Hsd Hsl _ Hold Hma Hoth Hnew Hself].
  change (current s0) with (current s) in *.
  assert (∀ x, status (th s0 x) = status (th s x) ∧ magic (th s0 x) = magic (th s x)) as Hx.
  { intros x. unfold s0, upd, fupd. cbn. by destruct (decide (x = current s)) as [->|]. }
  assert (current s1 ≠ current s) as Hne by (intros E; destruct (Hself E); done).
  assert (status (th s1 (current s)) = THREAD_BLOCKED) as Hbl by (by destruct Hold).
  assert (magic (th s1 (current s)) = true) as Hmc.
  { destruct (Hma (current s)) as [-> |[_ ?]]; [|done]. destruct (Hx (current s)) as [_ ->]. apply (ok_magic _ Hok). }
  constructor; cbn [sleeping_threads with_sleeping_threads current threads].
  - destruct Hok1 as [H1 Hm1 Hr1]. constructor; [|done|done]. destruct H1 as [G1 G2 G3 G4 G5 G6 G7 G8].
    rewrite Hsl in G6, G7. constructor; try assumption; cbn [sleeping_threads with_sleeping_threads].
    + destruct G5 as (i & Hi & ? & ? & Hns & ?). exists i. split_and!; try done. change (i ∉ L). rewrite HL, elem_of_cons.
      rewrite Hsl in Hns. intros [->|?]; [|done]. apply Hid. rewrite <- Hi. symmetry. apply (st_idle _ _ Hsd).
    + intros t Ht. change (t ∈ L) in Ht. rewrite HL in Ht. apply elem_of_cons in Ht as [->|?]; [done|by apply G6].
    + change (NoDup L). rewrite HL. constructor; [|done]. intros Hin. destruct Hok as [H _ Hr].
      apply (sh_sleep _ _ H) in Hin as [_ ?]. congruence.
  - by destruct Hsd.
  - done.
  - done.
  - done.
  - intros x. destruct (Hma x) as [-> |[_ ?]]; [apply Hx|done].
  - intros x H1 H2. rewrite Hoth by done. apply Hx.
  - destruct Hnew as [?|?]; [done|]. done.
Qed.

(** ** Creation *)

Lemma init_thread_inv s t p s' : sched_ok s → magic (th s t) = false → init_thread s t p = Ret s' →
  sched_ok s' ∧ steady s s' ∧ current s' = current s ∧ sleeping_threads s' = sleeping_threads s ∧
  (∀ x, x ≠ t → th s' x = th s x) ∧ magic (th s' t) = true ∧ status (th s' t) = THREAD_BLOCKED.
Proof.
  intros Hok Hm Hrun. unfold init_thread in Hrun. apply bind_Ret in Hrun as (u & _ & E). injection E as <-.
  set (s1 := upd s t _). pose proof Hok as [H Hmc Hrc].
  assert (∀ x, x ≠ t → th s1 x = th s x) as Hne by (intros; by apply upd_ne).
  assert (th s1 t = fresh_thread s p) as Ht by apply upd_eq.
  split_and!; [|done|done|done|done|cbn; by rewrite fupd_eq|cbn; by rewrite fupd_eq].
  assert (current s ≠ t) as Hct by congruence.
  assert (shape s1 (λ x, x = current s)) as [].
  { constructor; intros *.
    - destruct (decide (t0 = t)) as [->|]; [by rewrite Ht|rewrite Hne by done; apply H].
    - intros Hin. change (t0 ∈ ready s) in Hin. destruct (sh_ready _ _ H t0 Hin). rewrite Hne by congruence. done.
    - destruct (decide (t0 = t)) as [->|]; [by rewrite Ht|rewrite Hne by done; apply H].
    - apply H.
    - destruct (sh_idle _ _ H) as (i & Hi & Hmi & ?). exists i. rewrite Hne by congruence. done.
    - intros Hin. change (t0 ∈ sleeping_threads s) in Hin. destruct (sh_sleep _ _ H t0 Hin).
      rewrite Hne by congruence. done.
    - apply H.
    - intros Hp. apply (StronglySorted_higher s); [|by apply H]. intros x Hx. rewrite Hne; [done|].
      intros ->. apply (sh_ready _ _ H) in Hx as [? _]. congruence. }
  split; [by split|..]; cbn [current with_all_list threads]; change (current s1) with (current s);
    rewrite Hne by done; done.
Qed.

End ThreadProofs.
