(* ===== verification/Synch.v ===== *)
(** * Synchronisation: [threads/synch.c] on a machine of threads

    Semaphores, locks with priority donation, condition variables and
    readers-writers locks.  Threads interleave: [stack m t] is the code thread [t]
    still has to run, a list of control points.  [exec] runs the control point on
    top of the running thread's stack, one stretch of code between two points
    where an interrupt can arrive; a call replaces a control point by those of its
    body, and a call that sleeps leaves the processor to another thread.  Between
    two stretches the timer may preempt ([tick]), an interrupt handler may up a
    semaphore ([intr_sema_up]), and a thread that has run out of code may call any
    function of the interface ([call]).

    [owned] records, for each thread, the locks it has acquired and not released,
    and [inside], for each readers-writers lock, the threads that have entered and not
    left it; no function reads them. *)

From stdpp Require Import base tactics numbers list option.
From S2P Require Import Prelude KList KListProofs ThreadState Thread.

Module Synch.
Import ThreadState Thread.

(** [struct semaphore *]: of a client, inside a lock, or on the stack of a thread
    in [cond_wait]. *)
Inductive sid := S_client (n : nat) | S_lock (l : lid) | S_waiter (t : tptr).

(** [struct condition *]: of a client, or the two of a readers-writers lock. *)
Inductive cid := C_client (n : nat) | C_read (r : nat) | C_write (r : nat).

#[global] Instance sid_eq_dec : EqDecision sid.
Proof. solve_decision. Defined.
#[global] Instance cid_eq_dec : EqDecision cid.
Proof. solve_decision. Defined.

(** [struct semaphore] *)
Record semaphore := mk_sema { value : Z; waiters : list tptr }.

(** [struct rw_lock]: its counters. *)
Record rw_lock := mk_rw { AR : Z; WR : Z; AW : Z; WW : Z }.

(** Control points. *)
Inductive point :=
| P_sema_down (s : sid)
| P_sema_try_down (n : nat)
| P_sema_up (s : sid)
| P_yield_to (t : tptr)
| P_lock_acquire (l : lid)
| P_lock_donate (l : lid)
| P_lock_donate_to (h : tptr)
| P_lock_holder (l : lid)
| P_lock_held (l : lid)
| P_lock_try_acquire (l : lid)
| P_lock_release (l : lid)
| P_lock_clear (l : lid)
| P_cond_wait (c : cid) (l : lid)
| P_cond_signal (c : cid) (l : lid)
| P_cond_broadcast (c : cid) (l : lid)
| P_rw_test (r : nat) (reader : bool)
| P_rw_wait (r : nat) (reader : bool)
| P_rw_woken (r : nat) (reader : bool)
| P_rw_enter (r : nat) (reader : bool)
| P_rw_leave (r : nat) (reader : bool)
| P_rw_wake (r : nat) (reader : bool)
| P_take_tid (t : tptr)
| P_unblock (t : tptr)
| P_idle.

Record machine := mk_machine {
  sch : sched;
  semas : sid → semaphore;
  holder : lid → option tptr;
  conds : cid → list tptr;
  rws : nat → rw_lock;
  stack : tptr → list point;
  owned : tptr → list lid;
  inside : nat → list (tptr * bool) }.

Definition with_sch (m : machine) (v : sched) : machine :=
  mk_machine v (semas m) (holder m) (conds m) (rws m) (stack m) (owned m) (inside m).
Definition with_sema (m : machine) (s : sid) (v : semaphore) : machine :=
  mk_machine (sch m) (fupd (semas m) s v) (holder m) (conds m) (rws m) (stack m) (owned m) (inside m).
Definition with_holder (m : machine) (l : lid) (v : option tptr) : machine :=
  mk_machine (sch m) (semas m) (fupd (holder m) l v) (conds m) (rws m) (stack m) (owned m) (inside m).
Definition with_cond (m : machine) (c : cid) (v : list tptr) : machine :=
  mk_machine (sch m) (semas m) (holder m) (fupd (conds m) c v) (rws m) (stack m) (owned m) (inside m).
Definition with_rw (m : machine) (r : nat) (v : rw_lock) : machine :=
  mk_machine (sch m) (semas m) (holder m) (conds m) (fupd (rws m) r v) (stack m) (owned m) (inside m).
Definition with_stack (m : machine) (t : tptr) (v : list point) : machine :=
  mk_machine (sch m) (semas m) (holder m) (conds m) (rws m) (fupd (stack m) t v) (owned m) (inside m).
Definition with_owned (m : machine) (t : tptr) (v : list lid) : machine :=
  mk_machine (sch m) (semas m) (holder m) (conds m) (rws m) (stack m) (fupd (owned m) t v) (inside m).
Definition with_inside (m : machine) (r : nat) (v : list (tptr * bool)) : machine :=
  mk_machine (sch m) (semas m) (holder m) (conds m) (rws m) (stack m) (owned m) (fupd (inside m) r v).

Abbreviation cur m := (current (sch m)).
Abbreviation policy m := (active_sched_policy (sch m)).

(** The running thread goes on with [code]. *)
Definition goto (m : machine) (code : list point) : machine := with_stack m (cur m) code.

(** ** Semaphores *)

Definition sema_init (m : machine) (s : sid) (v : Z) : machine := with_sema m s (mk_sema v []).

(** [sema_down]: the loop test; [k] is what the thread does after the call. *)
Definition sema_down (m : machine) (s : sid) (k : list point) : outcome machine :=
  let sem := semas m s in
  if value sem =? 0 then
    c ← thread_current (sch m);
    let m := with_sema m s (mk_sema (value sem) (waiters sem ++ [c])) in
    s' ← thread_block (sch m);
    Ret (with_sch m s')
  else Ret (goto (with_sema m s (mk_sema (value sem - 1) (waiters sem))) k).

Definition sema_try_down (m : machine) (s : sid) : bool * machine :=
  let sem := semas m s in
  if 0 <? value sem then (true, with_sema m s (mk_sema (value sem - 1) (waiters sem)))
  else (false, m).

(** The waiter [sema_up] wakes: the first of the highest priority under
    [SCHED_PRIO], the first otherwise. *)
Definition sema_pick (m : machine) (ws : list tptr) : option tptr :=
  match ws with
  | [] => None
  | w :: ws' =>
      match policy m with
      | SCHED_PRIO => Some (KListProofs.pick_max (thread_priority_less (sch m)) w ws')
      | _ => Some w
      end
  end.

(** The part of [sema_up] with interrupts off. *)
Definition sema_up_off (m : machine) (s : sid) : outcome (option tptr * machine) :=
  let sem := semas m s in
  match sema_pick m (waiters sem) with
  | Some t =>
      let m := with_sema m s (mk_sema (u32 (value sem + 1)) (list_remove t (waiters sem))) in
      s' ← thread_unblock (sch m) t;
      Ret (Some t, with_sch m s')
  | None => Ret (None, with_sema m s (mk_sema (u32 (value sem + 1)) []))
  end.

(** [sema_up] by a thread: the yield test comes after interrupts are back on. *)
Definition sema_up (m : machine) (s : sid) (k : list point) : outcome machine :=
  '(woken, m) ← sema_up_off m s;
  Ret (goto m (match woken with Some t => P_yield_to t :: k | None => k end)).

(** [if (t->eff_priority > thread_current ()->eff_priority) thread_yield ();].  The
    page of [t] may have been freed by then. *)
Definition yield_to (m : machine) (t : tptr) (k : list point) : outcome machine :=
  DEFINED (is_thread (sch m) (Some t));;
  c ← thread_current (sch m);
  let m := goto m k in
  if eff_priority (th (sch m) c) <? eff_priority (th (sch m) t) then
    s' ← thread_yield (sch m); Ret (with_sch m s')
  else Ret m.

(** ** Locks *)

Definition lock_held_by_current_thread (m : machine) (l : lid) : bool :=
  bool_decide (holder m l = Some (cur m)).

Definition lock_init (m : machine) (l : lid) : machine :=
  sema_init (with_holder m l None) (S_lock l) 1.

Definition lock_acquire (m : machine) (l : lid) (k : list point) : outcome machine :=
  ASSERT (negb (lock_held_by_current_thread m l));;
  let down := P_sema_down (S_lock l) :: P_lock_holder l :: k in
  match policy m with
  | SCHED_PRIO =>
      let m := with_sch m (upd (sch m) (cur m) (λ r, with_waiting_lock r (Some l))) in
      Ret (goto m (P_lock_donate l :: down))
  | _ => Ret (goto m down)
  end.

(** The test that decides on a donation, read with interrupts on.  It reads the page of
    the holder, which is gone if the holder has exited. *)
Definition lock_donate (m : machine) (l : lid) (k : list point) : outcome machine :=
  match holder m l with
  | Some h =>
      c ← thread_current (sch m);
      DEFINED (is_thread (sch m) (Some h));;
      Ret (goto m (if eff_priority (th (sch m) h) <? eff_priority (th (sch m) c)
                   then P_lock_donate_to h :: k else k))
  | None => Ret (goto m k)
  end.

(** A new effective priority for [t], which moves in the ready queue if it is there. *)
Definition donate (s : sched) (t : tptr) (p : Z) : outcome sched :=
  DEFINED (is_thread s (Some t));;
  let s := upd s t (λ r, with_eff_priority r p) in
  if bool_decide (status (th s t) = THREAD_READY) then thread_reinsert_ready s t else Ret s.

(** The chain of locks [holder] waits for. *)
Fixpoint donate_chain (fuel : nat) (hold : lid → option tptr) (s : sched) (h : tptr) : outcome sched :=
  match fuel with
  | O => Blocked
  | S fuel =>
      match waiting_lock (th s h) ≫= hold with
      | Some next_holder =>
          DEFINED (is_thread s (Some next_holder));;
          s ← (if eff_priority (th s next_holder) <? eff_priority (th s h)
               then donate s next_holder (eff_priority (th s h)) else Ret s);
          donate_chain fuel hold s next_holder
      | None => Ret s
      end
  end.

(** Holders are threads, and a chain without a cycle passes each once: one more
    iteration than there are threads. *)
Definition chain_fuel (m : machine) : nat := S (S (length (all_list (sch m)))).

Definition lock_donate_to (m : machine) (h : tptr) (k : list point) : outcome machine :=
  c ← thread_current (sch m);
  s ← donate (sch m) h (eff_priority (th (sch m) c));
  s ← donate_chain (chain_fuel m) (holder m) s h;
  Ret (with_sch (goto m k) s).

(** [lock->holder = thread_current ();] *)
Definition lock_holder (m : machine) (l : lid) (k : list point) : outcome machine :=
  c ← thread_current (sch m);
  let m := with_owned (with_holder m l (Some c)) c (l :: owned m c) in
  match policy m with
  | SCHED_PRIO => Ret (goto m (P_lock_held l :: k))
  | _ => Ret (goto m k)
  end.

(** The rest under [SCHED_PRIO].  [lock_try_acquire] leaves [waiting_lock] alone, which is
    [NULL] outside [lock_acquire]. *)
Definition lock_held (m : machine) (l : lid) (k : list point) : outcome machine :=
  c ← thread_current (sch m);
  let m := with_sch m (upd (sch m) c (λ r, with_held_locks (with_waiting_lock r None)
                                             (held_locks r ++ [l]))) in
  Ret (goto m k).

Definition lock_try_acquire (m : machine) (l : lid) (k : list point) : outcome machine :=
  ASSERT (negb (lock_held_by_current_thread m l));;
  let '(success, m) := sema_try_down m (S_lock l) in
  Ret (goto m (if success then P_lock_holder l :: k else k)).

(** The greatest effective priority among [p] and the waiters of the locks of [held]. *)
Definition donated_priority (m : machine) (p : Z) (held : list lid) : Z :=
  foldl (λ max_prio l,
    match waiters (semas m (S_lock l)) with
    | [] => max_prio
    | w :: ws =>
        let t := KListProofs.pick_max (thread_priority_less (sch m)) w ws in
        if max_prio <? eff_priority (th (sch m) t) then eff_priority (th (sch m) t) else max_prio
    end) p held.

Definition lock_release (m : machine) (l : lid) (k : list point) : outcome machine :=
  ASSERT (lock_held_by_current_thread m l);;
  let rest := P_lock_clear l :: P_sema_up (S_lock l) :: k in
  match policy m with
  | SCHED_PRIO =>
      c ← thread_current (sch m);
      let held := filter (λ x, x ≠ l) (held_locks (th (sch m) c)) in
      let max_prio := donated_priority m (priority (th (sch m) c)) held in
      let s := upd (sch m) c (λ r, with_eff_priority (with_held_locks r held) max_prio) in
      Ret (goto (with_sch m s) rest)
  | _ => Ret (goto m rest)
  end.

(** [lock->holder = NULL;] *)
Definition lock_clear (m : machine) (l : lid) (k : list point) : outcome machine :=
  let m := with_owned (with_holder m l None) (cur m) (filter (λ x, x ≠ l) (owned m (cur m))) in
  Ret (goto m k).

(** ** Condition variables *)

Definition cond_init (m : machine) (c : cid) : machine := with_cond m c [].

Definition cond_wait (m : machine) (c : cid) (l : lid) (k : list point) : outcome machine :=
  ASSERT (lock_held_by_current_thread m l);;
  let t := cur m in
  let m := sema_init m (S_waiter t) 0 in
  let m := with_cond m c (conds m c ++ [t]) in
  Ret (goto m (P_lock_release l :: P_sema_down (S_waiter t) :: P_lock_acquire l :: k)).

(** [cond_sema_priority_less] reads the front of both semaphores' waiters. *)
Definition cond_front (m : machine) (t : tptr) : outcome tptr :=
  match waiters (semas m (S_waiter t)) with w :: _ => Ret w | [] => Panic end.

Definition cond_sema_priority_less (m : machine) (a b : tptr) : outcome bool :=
  ta ← cond_front m a; tb ← cond_front m b;
  Ret (eff_priority (th (sch m) ta) <? eff_priority (th (sch m) tb)).

(** [list_max] with that comparison. *)
Fixpoint cond_max (m : machine) (max : tptr) (l : list tptr) : outcome tptr :=
  match l with
  | [] => Ret max
  | e :: l => b ← cond_sema_priority_less m max e; cond_max m (if (b : bool) then e else max) l
  end.

Definition cond_signal (m : machine) (c : cid) (l : lid) (k : list point) : outcome machine :=
  ASSERT (lock_held_by_current_thread m l);;
  match conds m c with
  | [] => Ret (goto m k)
  | w :: ws =>
      t ← (match policy m with SCHED_PRIO => cond_max m w ws | _ => Ret w end);
      let m := with_cond m c (list_remove t (w :: ws)) in
      Ret (goto m (P_sema_up (S_waiter t) :: k))
  end.

Definition cond_broadcast (m : machine) (c : cid) (l : lid) (k : list point) : outcome machine :=
  match conds m c with
  | [] => Ret (goto m k)
  | _ => Ret (goto m (P_cond_signal c l :: P_cond_broadcast c l :: k))
  end.

(** ** Readers-writers locks *)

Definition rw_lock_init (m : machine) (r : nat) : machine :=
  with_rw (cond_init (cond_init (lock_init m (L_rw r)) (C_read r)) (C_write r)) r (mk_rw 0 0 0 0).

Definition rw_cond (r : nat) (reader : bool) : cid := if reader then C_read r else C_write r.

Definition rw_lock_acquire (r : nat) (reader : bool) : list point :=
  [P_lock_acquire (L_rw r); P_rw_test r reader].

(** The test of the [while] loop. *)
Definition rw_test (m : machine) (r : nat) (reader : bool) (k : list point) : outcome machine :=
  let w := rws m r in
  let busy := if reader then 0 <? AW w + WW w else 0 <? AR w + AW w in
  Ret (goto m (if busy then P_rw_wait r reader :: k
               else P_rw_enter r reader :: P_lock_release (L_rw r) :: k)).

(** The loop's body up to [cond_wait], and after it. *)
Definition rw_wait (m : machine) (r : nat) (reader : bool) (k : list point) : outcome machine :=
  let w := rws m r in
  let m := with_rw m r (if reader then mk_rw (AR w) (WR w + 1) (AW w) (WW w)
                        else mk_rw (AR w) (WR w) (AW w) (WW w + 1)) in
  Ret (goto m (P_cond_wait (rw_cond r reader) (L_rw r) :: P_rw_woken r reader :: k)).

Definition rw_woken (m : machine) (r : nat) (reader : bool) (k : list point) : outcome machine :=
  let w := rws m r in
  let m := with_rw m r (if reader then mk_rw (AR w) (WR w - 1) (AW w) (WW w)
                        else mk_rw (AR w) (WR w) (AW w) (WW w - 1)) in
  Ret (goto m (P_rw_test r reader :: k)).

(** [AR++] or [AW++] *)
Definition rw_enter (m : machine) (r : nat) (reader : bool) (k : list point) : outcome machine :=
  let w := rws m r in
  let m := with_rw m r (if reader then mk_rw (AR w + 1) (WR w) (AW w) (WW w)
                        else mk_rw (AR w) (WR w) (AW w + 1) (WW w)) in
  let m := with_inside m r ((cur m, reader) :: inside m r) in
  Ret (goto m k).

Definition rw_lock_release (r : nat) (reader : bool) : list point :=
  [P_lock_acquire (L_rw r); P_rw_leave r reader].

Fixpoint remove_one (e : tptr * bool) (l : list (tptr * bool)) : list (tptr * bool) :=
  match l with [] => [] | x :: l => if decide (x = e) then l else x :: remove_one e l end.

(** [AR--] or [AW--] *)
Definition rw_leave (m : machine) (r : nat) (reader : bool) (k : list point) : outcome machine :=
  let w := rws m r in
  let m := with_rw m r (if reader then mk_rw (AR w - 1) (WR w) (AW w) (WW w)
                        else mk_rw (AR w) (WR w) (AW w - 1) (WW w)) in
  let m := with_inside m r (remove_one (cur m, reader) (inside m r)) in
  Ret (goto m (P_rw_wake r reader :: P_lock_release (L_rw r) :: k)).

(** Whom a release wakes. *)
Definition rw_wake (m : machine) (r : nat) (reader : bool) (k : list point) : outcome machine :=
  let w := rws m r in
  let signal := P_cond_signal (C_write r) (L_rw r) :: k in
  Ret (goto m (if reader then if (AR w =? 0) && (0 <? WW w) then signal else k
               else if 0 <? WW w then signal
               else if 0 <? WR w then P_cond_broadcast (C_read r) (L_rw r) :: k else k)).

(** ** Threads *)

(** [thread_create] once [palloc_get_page] has given the page [t]. *)
Definition thread_create (m : machine) (t : tptr) (prio : Z) : outcome machine :=
  s ← init_thread (sch m) t prio;
  let m := with_owned (with_stack (with_sch m s) t []) t [] in
  Ret (goto m [P_lock_acquire L_tid; P_take_tid t; P_lock_release L_tid; P_unblock t; P_yield_to t]).

Definition take_tid_point (m : machine) (t : tptr) (k : list point) : outcome machine :=
  Ret (goto (with_sch m (take_tid (sch m) t)) k).

Definition unblock_point (m : machine) (t : tptr) (k : list point) : outcome machine :=
  s ← thread_unblock (sch m) t; Ret (with_sch (goto m k) s).

(** The loop of the idle thread. *)
Definition idle (m : machine) : outcome machine :=
  s ← thread_block (sch m); Ret (with_sch m s).

Definition thread_set_priority (m : machine) (new_priority : Z) : outcome machine :=
  match policy m with
  | SCHED_MLFQS => Ret m
  | SCHED_PRIO =>
      c ← thread_current (sch m);
      let s := upd (sch m) c (λ r, with_priority r new_priority) in
      let m := with_sch m s in
      let max_prio := donated_priority m new_priority (held_locks (th s c)) in
      let s := upd s c (λ r, with_eff_priority r max_prio) in
      let m := with_sch m s in
      match priority_ready_list s with
      | front :: _ =>
          if eff_priority (th s c) <? eff_priority (th s front) then
            s ← thread_yield s; Ret (with_sch m s)
          else Ret m
      | [] => Ret m
      end
  | _ =>
      c ← thread_current (sch m);
      Ret (with_sch m (upd (sch m) c (λ r, with_eff_priority (with_priority r new_priority) new_priority)))
  end.

(** ** The machine *)

(** One stretch of code of the running thread. *)
Definition exec (m : machine) : outcome machine :=
  match stack m (cur m) with
  | [] => Ret m
  | p :: k =>
      match p with
      | P_sema_down s => sema_down m s k
      | P_sema_try_down n => Ret (goto (sema_try_down m (S_client n)).2 k)
      | P_sema_up s => sema_up m s k
      | P_yield_to t => yield_to m t k
      | P_lock_acquire l => lock_acquire m l k
      | P_lock_donate l => lock_donate m l k
      | P_lock_donate_to h => lock_donate_to m h k
      | P_lock_holder l => lock_holder m l k
      | P_lock_held l => lock_held m l k
      | P_lock_try_acquire l => lock_try_acquire m l k
      | P_lock_release l => lock_release m l k
      | P_lock_clear l => lock_clear m l k
      | P_cond_wait c l => cond_wait m c l k
      | P_cond_signal c l => cond_signal m c l k
      | P_cond_broadcast c l => cond_broadcast m c l k
      | P_rw_test r b => rw_test m r b k
      | P_rw_wait r b => rw_wait m r b k
      | P_rw_woken r b => rw_woken m r b k
      | P_rw_enter r b => rw_enter m r b k
      | P_rw_leave r b => rw_leave m r b k
      | P_rw_wake r b => rw_wake m r b k
      | P_take_tid t => take_tid_point m t k
      | P_unblock t => unblock_point m t k
      | P_idle => idle m
      end
  end.

(** The interface a kernel thread calls. *)
Inductive api :=
| A_sema_down (n : nat) | A_sema_try_down (n : nat) | A_sema_up (n : nat)
| A_lock_acquire (n : nat) | A_lock_try_acquire (n : nat) | A_lock_release (n : nat)
| A_cond_wait (n l : nat) | A_cond_signal (n l : nat) | A_cond_broadcast (n l : nat)
| A_rw_acquire (r : nat) (reader : bool) | A_rw_release (r : nat) (reader : bool)
| A_create (t : tptr) (prio : Z) | A_exit | A_yield
| A_set_priority (p : Z) | A_set_nice (n : Z) | A_sleep (n : Z).

Definition call (m : machine) (a : api) : outcome machine :=
  match a with
  | A_sema_down n => Ret (goto m [P_sema_down (S_client n)])
  | A_sema_try_down n => Ret (goto m [P_sema_try_down n])
  | A_sema_up n => Ret (goto m [P_sema_up (S_client n)])
  | A_lock_acquire n => Ret (goto m [P_lock_acquire (L_lock n)])
  | A_lock_try_acquire n => Ret (goto m [P_lock_try_acquire (L_lock n)])
  | A_lock_release n => Ret (goto m [P_lock_release (L_lock n)])
  | A_cond_wait n l => Ret (goto m [P_cond_wait (C_client n) (L_lock l)])
  | A_cond_signal n l => Ret (goto m [P_cond_signal (C_client n) (L_lock l)])
  | A_cond_broadcast n l => Ret (goto m [P_cond_broadcast (C_client n) (L_lock l)])
  | A_rw_acquire r b => Ret (goto m (rw_lock_acquire r b))
  | A_rw_release r b => Ret (goto m (rw_lock_release r b))
  | A_create t prio => thread_create m t prio
  | A_exit => s ← thread_exit (sch m); Ret (with_sch m s)
  | A_yield => s ← thread_yield (sch m); Ret (with_sch m s)
  | A_set_priority p => thread_set_priority m p
  | A_set_nice n => s ← thread_set_nice (sch m) n; Ret (with_sch m s)
  | A_sleep n => s ← timer_sleep (sch m) n; Ret (with_sch m s)
  end.

(** A timer interrupt. *)
Definition tick (m : machine) : outcome machine :=
  s ← intr_handler_timer (sch m); Ret (with_sch m s).

(** Another interrupt handler that ups a semaphore: no yield. *)
Definition intr_sema_up (m : machine) (n : nat) : outcome machine :=
  '(_, m) ← sema_up_off m (S_client n); Ret m.

(** A page that [palloc_get_page] gives out holds no thread, and a caller leaves a
    readers-writers lock in the mode in which it has entered it. *)
Inductive step : machine → machine → Prop :=
| step_exec m m' : stack m (cur m) ≠ [] → exec m = Ret m' → step m m'
| step_tick m m' : tick m = Ret m' → step m m'
| step_intr_up m n m' : intr_sema_up m n = Ret m' → step m m'
| step_call m a m' :
    stack m (cur m) = [] →
    (∀ t p, a = A_create t p → magic (th (sch m) t) = false) →
    (∀ r b, a = A_rw_release r b → (cur m, b) ∈ inside m r) →
    call m a = Ret m' → step m m'.

(** ** The machine once the scheduler has started *)

Definition no_thread : thread :=
  mk_thread 0 THREAD_DYING 0 0 None [] 0 0 0 0 0 0 0 0 0 false false.
Definition boot_thread (n prio : Z) (st : thread_status) : thread :=
  mk_thread n st prio prio None [] 0 100 0 0 0 4096 0 0 0 false true.

(** Page 1 is the initial thread, running; page 2 the idle thread, which has
    blocked after upping the semaphore [thread_start] waits for. *)
Definition boot_threads : tptr → thread :=
  fupd (fupd (λ _, no_thread) 1%nat (boot_thread 1 PRI_DEFAULT THREAD_RUNNING))
    2%nat (boot_thread 2 PRI_MIN THREAD_BLOCKED).

Definition boot_sched (p : sched_policy) (f : fair_sched_type) : sched :=
  mk_sched boot_threads 1 (Some 2%nat) 1 [] [] [] [1; 2]%nat [] p f 0 0 0 0 0 0 0 3 false.

Definition boot (p : sched_policy) (f : fair_sched_type) : machine :=
  mk_machine (boot_sched p f)
    (λ s, match s with S_lock _ => mk_sema 1 [] | _ => mk_sema 0 [] end)
    (λ _, None) (λ _, []) (λ _, mk_rw 0 0 0 0)
    (fupd (λ _, []) 2%nat [P_idle]) (λ _, []) (λ _, []).

Inductive reachable (p : sched_policy) (f : fair_sched_type) : machine → Prop :=
| reach_boot : reachable p f (boot p f)
| reach_step m m' : reachable p f m → step m m' → reachable p f m'.

(** ** Runs *)

Inductive event := E_exec | E_tick | E_intr_up (n : nat) | E_call (a : api).

Definition may_call (m : machine) (a : api) : bool :=
  match a with
  | A_create t _ => negb (magic (th (sch m) t))
  | A_rw_release r b => bool_decide ((cur m, b) ∈ inside m r)
  | _ => true
  end.

(** One event, if it can happen. *)
Definition happen (m : machine) (e : event) : outcome machine :=
  match e with
  | E_exec => match stack m (cur m) with [] => Blocked | _ => exec m end
  | E_tick => tick m
  | E_intr_up n => intr_sema_up m n
  | E_call a => match stack m (cur m) with
                | [] => if may_call m a then call m a else Blocked
                | _ => Blocked
                end
  end.

Fixpoint run (m : machine) (es : list event) : outcome machine :=
  match es with [] => Ret m | e :: es => m ← happen m e; run m es end.

Lemma happen_step m e m' : happen m e = Ret m' → step m m'.
Proof.
  destruct e as [| |n|a]; cbn [happen].
  - destruct (stack m (cur m)) eqn:E; [done|]. intros H. apply step_exec; [by rewrite E|done].
  - apply step_tick.
  - apply step_intr_up.
  - destruct (stack m (cur m)) eqn:E; [|done]. destruct (may_call m a) eqn:Ec; [|done].
    intros H. apply (step_call _ a); [done|..|done].
    + intros t p ->. cbn in Ec. by apply negb_true_iff in Ec.
    + intros r b ->. cbn in Ec. by apply bool_decide_eq_true in Ec.
Qed.

Lemma run_reachable p f m es m' : reachable p f m → run m es = Ret m' → reachable p f m'.
Proof.
  revert m. induction es as [|e es IH]; intros m Hr; cbn [run].
  - by intros [= <-].
  - intros (m1 & H1 & H2)%bind_Ret. eapply IH; [|exact H2]. eapply reach_step; [done|by eapply happen_step].
Qed.

End Synch.
