(* ===== verification/SynchProofs.v ===== *)
(** * Synchronisation: mutual exclusion

    In every reachable state of the machine a lock is free, held by one thread, or
    in the hands of one thread that is taking it or giving it back; so two threads
    never both own a lock. *)

From stdpp Require Import base tactics numbers list option.
From S2P Require Import Prelude KList KListProofs ThreadState Thread Synch.

Module SynchProofs.
Import ThreadState Thread Synch.

(** ** Code

    [P_lock_holder] follows the down of the lock's semaphore at once, and the up of
    a lock's semaphore follows [P_lock_clear] at once: no other code has them. *)
Fixpoint code_ok (k : list point) : bool :=
  match k with
  | [] => true
  | P_sema_down (S_lock l) :: k' =>
      match k' with P_lock_holder l' :: k => bool_decide (l = l') && code_ok k | _ => false end
  | P_lock_holder _ :: _ | P_sema_up (S_lock _) :: _ | P_lock_clear _ :: _ => false
  | _ :: k => code_ok k
  end.

(** Who has the lock's token: a thread about to become its holder or about to up its
    semaphore; and a holder about to give it up. *)
Inductive token := T_none | T_token (l : lid) | T_clear (l : lid).

Definition tok (k : list point) : token :=
  match k with
  | P_lock_holder l :: _ | P_sema_up (S_lock l) :: _ => T_token l
  | P_lock_clear l :: _ => T_clear l
  | _ => T_none
  end.

(** The code a thread may be left with. *)
Definition stack_ok (k : list point) : bool :=
  match k with
  | P_lock_holder _ :: k | P_sema_up (S_lock _) :: k => code_ok k
  | P_lock_clear l :: k' =>
      match k' with P_sema_up (S_lock l') :: k => bool_decide (l = l') && code_ok k | _ => false end
  | _ => code_ok k
  end.

Lemma code_ok_tok k : code_ok k = true → tok k = T_none.
Proof. by destruct k as [|[[]| |[]| | | | | | | | | | | | | | | | | | | | | ] k]. Qed.

Lemma code_ok_stack k : code_ok k = true → stack_ok k = true.
Proof. destruct k as [|[[]| |[]| | | | | | | | | | | | | | | | | | | | | ] k]; done. Qed.

(** ** The invariant *)

Definition free (m : machine) (l : lid) : Prop :=
  value (semas m (S_lock l)) = 1 ∧ holder m l = None ∧ ∀ t, tok (stack m t) ≠ T_token l.
Definition held (m : machine) (l : lid) : Prop :=
  value (semas m (S_lock l)) = 0 ∧ holder m l ≠ None ∧ ∀ t, tok (stack m t) ≠ T_token l.
Definition passing (m : machine) (l : lid) (t : tptr) : Prop :=
  value (semas m (S_lock l)) = 0 ∧ holder m l = None ∧ ∀ t', tok (stack m t') = T_token l ↔ t' = t.

Record lock_inv (m : machine) : Prop := mk_lock_inv {
  li_stack t : stack_ok (stack m t) = true;
  li_lock l : free m l ∨ held m l ∨ ∃ t, passing m l t;
  li_clear t l : tok (stack m t) = T_clear l → holder m l = Some t;
  li_owned t l : l ∈ owned m t → holder m l = Some t }.

(** The part of a state the invariant reads. *)
Definition same_locks (m m' : machine) : Prop :=
  (∀ l, value (semas m' (S_lock l)) = value (semas m (S_lock l))) ∧
  (∀ l, holder m' l = holder m l) ∧ (∀ t, owned m' t = owned m t).

(** A step of thread [c] that passes no lock on. *)
Lemma lock_inv_step m m' c k' : lock_inv m → same_locks m m' →
  (∀ t, t ≠ c → stack m' t = stack m t) → stack m' c = k' →
  tok (stack m c) = T_none → tok k' = T_none → stack_ok k' = true → lock_inv m'.
Proof.
  intros [Hs Hl Hc Ho] (Hv & Hh & Hw) Hst <- Ht Ht' Hk.
  assert (∀ t, tok (stack m' t) = tok (stack m t)) as Htok.
  { intros t. destruct (decide (t = c)) as [->|]; [congruence|by rewrite Hst]. }
  constructor.
  - intros t. destruct (decide (t = c)) as [->|]; [done|by rewrite Hst].
  - intros l. destruct (Hl l) as [(?&?&?)|[(?&?&?)|(t&?&?&?)]].
    + left. unfold free. rewrite Hv, Hh. setoid_rewrite Htok. done.
    + right. left. unfold held. rewrite Hv, Hh. setoid_rewrite Htok. done.
    + right. right. exists t. unfold passing. rewrite Hv, Hh. setoid_rewrite Htok. done.
  - intros t l. rewrite Htok, Hh. apply Hc.
  - intros t l. rewrite Hw, Hh. apply Ho.
Qed.

(** What changes for other locks when [c] deals with [l]. *)
Definition same_other_locks (m m' : machine) (l : lid) : Prop :=
  ∀ l', l' ≠ l → value (semas m' (S_lock l')) = value (semas m (S_lock l')) ∧ holder m' l' = holder m l'.

(** A step of [c] that moves the state of lock [l]. *)
Lemma lock_inv_pass m m' c l k' : lock_inv m → same_other_locks m m' l →
  (∀ t, t ≠ c → stack m' t = stack m t) → stack m' c = k' → stack_ok k' = true →
  (∀ l', tok (stack m c) = T_token l' ∨ tok (stack m c) = T_clear l' → l' = l) →
  (∀ l', tok k' = T_token l' ∨ tok k' = T_clear l' → l' = l) →
  (free m' l ∨ held m' l ∨ ∃ t, passing m' l t) →
  (∀ t, tok (stack m' t) = T_clear l → holder m' l = Some t) →
  (∀ t l', l' ∈ owned m' t → holder m' l' = Some t) → lock_inv m'.
Proof.
  intros [Hs Hl Hc Ho] Hoth Hst <- Hk Hold Hnew Hlk Hcl How. constructor; [| | |done].
  - intros t. destruct (decide (t = c)) as [->|]; [done|by rewrite Hst].
  - intros l'. destruct (decide (l' = l)) as [->|Hne]; [done|]. destruct (Hoth l' Hne) as [Hv Hh].
    assert (∀ t, tok (stack m' t) = T_token l' ↔ tok (stack m t) = T_token l') as Htok.
    { intros t. destruct (decide (t = c)) as [->|]; [|by rewrite Hst].
      split; intros H; exfalso; apply Hne; [apply Hnew; auto|apply Hold; auto]. }
    destruct (Hl l') as [(?&?&?)|[(?&?&?)|(t&?&?&?)]].
    + left. unfold free. rewrite Hv, Hh. setoid_rewrite Htok. done.
    + right. left. unfold held. rewrite Hv, Hh. setoid_rewrite Htok. done.
    + right. right. exists t. unfold passing. rewrite Hv, Hh. setoid_rewrite Htok. done.
  - intros t l'. destruct (decide (l' = l)) as [->|Hne]; [apply Hcl|]. rewrite (proj2 (Hoth l' Hne)).
    destruct (decide (t = c)) as [->|]; [|rewrite Hst by done; apply Hc].
    intros H. exfalso. apply Hne. apply Hnew. auto.
Qed.

(** ** Steps *)

Lemma thread_unblock_current s t s' : thread_unblock s t = Ret s' → current s' = current s.
Proof.
  unfold thread_unblock, thread_enqueue. intros H. outcome_inv. by destruct (active_sched_policy s).
Qed.

Lemma goto_ne m k t : t ≠ cur m → stack (goto m k) t = stack m t.
Proof. intros. cbn. by rewrite fupd_ne. Qed.
Lemma goto_eq m k : stack (goto m k) (cur m) = k.
Proof. cbn. by rewrite fupd_eq. Qed.

(** The running thread goes on with [k'] and no lock is passed on. *)
Lemma lock_inv_goto m m' k' : lock_inv m → same_locks m m' →
  (∀ t, stack m' t = stack (goto m k') t) → code_ok (stack m (cur m)) = true → code_ok k' = true →
  lock_inv m'.
Proof.
  intros H Hl Hst H1 H2. apply (lock_inv_step m m' (cur m) k'); [done|done| | | | |].
  - intros t Ht. by rewrite Hst, goto_ne.
  - by rewrite Hst, goto_eq.
  - by apply code_ok_tok.
  - by apply code_ok_tok.
  - by apply code_ok_stack.
Qed.

(** Nothing the invariant reads changes. *)
Lemma lock_inv_same m m' : lock_inv m → same_locks m m' → (∀ t, stack m' t = stack m t) → lock_inv m'.
Proof.
  intros [Hs Hl Hc Ho] (Hv & Hh & Hw) Hst. constructor.
  - intros t. by rewrite Hst.
  - intros l. destruct (Hl l) as [(?&?&?)|[(?&?&?)|(t&?&?&?)]].
    + left. unfold free. rewrite Hv, Hh. setoid_rewrite Hst. done.
    + right. left. unfold held. rewrite Hv, Hh. setoid_rewrite Hst. done.
    + right. right. exists t. unfold passing. rewrite Hv, Hh. setoid_rewrite Hst. done.
  - intros t l. rewrite Hst, Hh. apply Hc.
  - intros t l. rewrite Hw, Hh. apply Ho.
Qed.

(** A semaphore that belongs to no lock. *)
Lemma same_locks_sema m s v : (∀ l, s ≠ S_lock l) → same_locks m (with_sema m s v).
Proof. intros Hs. split_and!; intros; [|done|done]. cbn. rewrite fupd_ne; [done|]. intros E. by apply (Hs l). Qed.

Lemma lock_down_inv m m' l k : lock_inv m → 0 < value (semas m (S_lock l)) →
  tok (stack m (cur m)) = T_none → code_ok k = true →
  m' = goto (with_sema m (S_lock l) (mk_sema (value (semas m (S_lock l)) - 1) (waiters (semas m (S_lock l)))))
         (P_lock_holder l :: k) →
  lock_inv m'.
Proof.
  intros H Hv Htk Hk ->. assert (free m l) as (Hv1 & Hh & Hnt).
  { destruct (li_lock _ H l) as [?|[(?&_)|(?&?&_)]]; [done|lia..]. }
  set (m' := goto _ _). assert (∀ t, t ≠ cur m → stack m' t = stack m t) as Hst
    by (intros; unfold m'; cbn; by rewrite fupd_ne).
  assert (stack m' (cur m) = P_lock_holder l :: k) as Hsc by (unfold m'; cbn; by rewrite fupd_eq).
  eapply (lock_inv_pass m m' (cur m) l); [done| |done|exact Hsc|done|..].
  - intros l' Hne. split; [|done]. cbn. by rewrite fupd_ne by congruence.
  - rewrite Htk. naive_solver.
  - cbn. naive_solver.
  - right. right. exists (cur m). split_and!.
    + cbn. rewrite fupd_eq. cbn. lia.
    + done.
    + intros t. destruct (decide (t = cur m)) as [->|Hne]; [by rewrite Hsc|]. rewrite Hst by done.
      split; [|done]. intros E. by apply Hnt in E.
  - intros t. destruct (decide (t = cur m)) as [->|Hne]; [by rewrite Hsc|]. rewrite Hst by done.
    apply (li_clear _ H).
  - apply (li_owned _ H).
Qed.

Lemma lock_holder_inv m m' l k : lock_inv m → stack m (cur m) = P_lock_holder l :: k → code_ok k = true →
  lock_holder m l k = Ret m' → lock_inv m'.
Proof.
  intros H Hsk Hk Hrun. unfold lock_holder in Hrun. apply bind_Ret in Hrun as (c & Hc & Hrun).
  assert (c = cur m) as -> by (unfold thread_current in Hc; by outcome_inv).
  assert (∃ k', code_ok k' = true ∧
    m' = goto (with_owned (with_holder m l (Some (cur m))) (cur m) (l :: owned m (cur m))) k') as (k' & Hk' & ->).
  { cbn [sch] in Hrun. destruct (policy m) eqn:E; cbn in Hrun; rewrite E in Hrun; injection Hrun as <-;
      (eexists; split; [|reflexivity]); done. }
  assert (passing m l (cur m)) as (Hv & Hh & Hp).
  { destruct (li_lock _ H l) as [(?&?&Hn)|[(?&?&Hn)|(t & Hp)]]; [by destruct (Hn (cur m)); rewrite Hsk..|].
    destruct Hp as (?&?&Hp). replace (cur m) with t; [done|]. symmetry. apply Hp. by rewrite Hsk. }
  set (m' := goto _ _). assert (∀ t, t ≠ cur m → stack m' t = stack m t) as Hst
    by (intros; unfold m'; cbn; by rewrite fupd_ne).
  assert (stack m' (cur m) = k') as Hsc by (unfold m'; cbn; by rewrite fupd_eq).
  eapply (lock_inv_pass m m' (cur m) l); [done| |done|exact Hsc|by apply code_ok_stack|..].
  - intros l' Hne. split; [done|]. cbn. by rewrite fupd_ne.
  - rewrite Hsk. cbn. naive_solver.
  - rewrite (code_ok_tok k') by done. naive_solver.
  - right. left. split_and!; [done|cbn; by rewrite fupd_eq|]. intros t.
    destruct (decide (t = cur m)) as [->|Hne]; [by rewrite Hsc, (code_ok_tok k')|]. rewrite Hst by done.
    intros E%Hp. done.
  - intros t. destruct (decide (t = cur m)) as [->|Hne]; [by rewrite Hsc, (code_ok_tok k')|].
    rewrite Hst by done. intros E%(li_clear _ H). congruence.
  - intros t l'. cbn. unfold fupd. destruct (decide (t = cur m)) as [->|Hne].
    + intros [->|Hin]%elem_of_cons; [by rewrite decide_True|].
      destruct (decide (l' = l)) as [->|]; [done|]. by apply (li_owned _ H).
    + intros Hin%(li_owned _ H). rewrite decide_False; [done|]. intros ->. congruence.
Qed.

Lemma lock_clear_inv m m' l k : lock_inv m → stack m (cur m) = P_lock_clear l :: P_sema_up (S_lock l) :: k →
  code_ok k = true → lock_clear m l (P_sema_up (S_lock l) :: k) = Ret m' → lock_inv m'.
Proof.
  intros H Hsk Hk [= <-]. assert (holder m l = Some (cur m)) as Hh by (apply (li_clear _ H); by rewrite Hsk).
  set (m' := goto _ _). assert (∀ t, t ≠ cur m → stack m' t = stack m t) as Hst
    by (intros; unfold m'; cbn; by rewrite fupd_ne).
  assert (stack m' (cur m) = P_sema_up (S_lock l) :: k) as Hsc by (unfold m'; cbn; by rewrite fupd_eq).
  assert (held m l) as (Hv & _ & Hnt).
  { destruct (li_lock _ H l) as [(?&?&?)|[?|(?&?&?&?)]]; [congruence|done|congruence]. }
  eapply (lock_inv_pass m m' (cur m) l); [done| |done|exact Hsc|done|..].
  - intros l' Hne. split; [done|]. cbn. by rewrite fupd_ne.
  - rewrite Hsk. cbn. naive_solver.
  - cbn. naive_solver.
  - right. right. exists (cur m). split_and!; [done|cbn; by rewrite fupd_eq|]. intros t.
    destruct (decide (t = cur m)) as [->|Hne]; [by rewrite Hsc|]. rewrite Hst by done.
    split; [|done]. intros E. by apply Hnt in E.
  - intros t. destruct (decide (t = cur m)) as [->|Hne]; [by rewrite Hsc|].
    rewrite Hst by done. intros E%(li_clear _ H). congruence.
  - intros t l'. cbn. unfold fupd. destruct (decide (t = cur m)) as [->|Hne].
    + intros [Hne Hin]%list_elem_of_filter. rewrite decide_False by done. by apply (li_owned _ H).
    + intros Hin%(li_owned _ H). rewrite decide_False; [done|]. intros ->. congruence.
Qed.

(** What an up changes. *)
Lemma sema_up_off_inv m s w m' : sema_up_off m s = Ret (w, m') →
  ∃ sc ws, m' = with_sch (with_sema m s (mk_sema (u32 (value (semas m s) + 1)) ws)) sc ∧
    current sc = cur m.
Proof.
  unfold sema_up_off. destruct (sema_pick m (waiters (semas m s))) as [t|].
  - intros (s' & Hu & E)%bind_Ret. injection E as <- <-. eexists s', _. split; [reflexivity|].
    by apply thread_unblock_current in Hu.
  - intros [= <- <-]. eexists (sch m), []. split; [|done]. by destruct m.
Qed.

Lemma sema_up_inv m s k m' : sema_up m s k = Ret m' →
  ∃ sc ws k', m' = goto (with_sch (with_sema m s (mk_sema (u32 (value (semas m s) + 1)) ws)) sc) k' ∧
    current sc = cur m ∧ (k' = k ∨ ∃ t, k' = P_yield_to t :: k).
Proof.
  unfold sema_up. intros ([w m1] & (sc & ws & -> & Hc)%sema_up_off_inv & E)%bind_Ret.
  injection E as <-. eexists sc, ws, _. split; [reflexivity|]. split; [done|]. destruct w; eauto.
Qed.

Lemma lock_up_inv m m' l k : lock_inv m → stack m (cur m) = P_sema_up (S_lock l) :: k → code_ok k = true →
  sema_up m (S_lock l) k = Ret m' → lock_inv m'.
Proof.
  intros H Hsk Hk (sc & ws & k' & -> & Hc & Hk')%sema_up_inv.
  assert (code_ok k' = true) as Hok by (by destruct Hk' as [->|[t ->]]).
  assert (passing m l (cur m)) as (Hv & Hh & Hp).
  { destruct (li_lock _ H l) as [(?&?&Hn)|[(?&?&Hn)|(t & Hp)]]; [by destruct (Hn (cur m)); rewrite Hsk..|].
    destruct Hp as (?&?&Hp). replace (cur m) with t; [done|]. symmetry. apply Hp. by rewrite Hsk. }
  set (m' := goto _ _). assert (∀ t, t ≠ cur m → stack m' t = stack m t) as Hst.
  { intros. unfold m'. cbn. rewrite Hc. by rewrite fupd_ne. }
  assert (stack m' (cur m) = k') as Hsc by (unfold m'; cbn; by rewrite Hc, fupd_eq).
  eapply (lock_inv_pass m m' (cur m) l); [done| |done|exact Hsc|by apply code_ok_stack|..].
  - intros l' Hne. split; [|done]. cbn. by rewrite fupd_ne by congruence.
  - rewrite Hsk. cbn. naive_solver.
  - rewrite (code_ok_tok k') by done. naive_solver.
  - left. split_and!; [|done|].
    + unfold m'. cbn. rewrite fupd_eq. cbn. by rewrite Hv.
    + intros t. destruct (decide (t = cur m)) as [->|Hne]; [by rewrite Hsc, (code_ok_tok k')|].
      rewrite Hst by done. intros E%Hp. done.
  - intros t. destruct (decide (t = cur m)) as [->|Hne]; [by rewrite Hsc, (code_ok_tok k')|].
    rewrite Hst by done. apply (li_clear _ H).
  - apply (li_owned _ H).
Qed.

Lemma lock_release_inv m m' l k : lock_inv m → code_ok (stack m (cur m)) = true → code_ok k = true →
  lock_release m l k = Ret m' → lock_inv m'.
Proof.
  intros H Hsk Hk Hrun. unfold lock_release in Hrun. apply bind_Ret in Hrun as (u & Hh & Hrun).
  apply ASSERT_Ret, bool_decide_eq_true in Hh.
  assert (∃ sc, m' = goto (with_sch m sc) (P_lock_clear l :: P_sema_up (S_lock l) :: k) ∧
    current sc = cur m) as (sc & -> & Hc).
  { destruct (policy m); [..|]; try (injection Hrun as <-; exists (sch m); by destruct m).
    apply bind_Ret in Hrun as (c & _ & E). injection E as <-. eauto. }
  set (m' := goto _ _). assert (∀ t, t ≠ cur m → stack m' t = stack m t) as Hst.
  { intros. unfold m'. cbn. rewrite Hc. by rewrite fupd_ne. }
  assert (stack m' (cur m) = P_lock_clear l :: P_sema_up (S_lock l) :: k) as Hsc
    by (unfold m'; cbn; by rewrite Hc, fupd_eq).
  assert (held m l) as (Hv & _ & Hnt).
  { destruct (li_lock _ H l) as [(?&?&?)|[?|(?&?&?&?)]]; [congruence|done|congruence]. }
  eapply (lock_inv_pass m m' (cur m) l); [done| |done|exact Hsc| |..].
  - done.
  - cbn. by rewrite bool_decide_true.
  - rewrite (code_ok_tok _ Hsk). naive_solver.
  - cbn. naive_solver.
  - right. left. split_and!; [done|change (holder m l ≠ None); congruence|]. intros t.
    destruct (decide (t = cur m)) as [->|Hne]; [by rewrite Hsc|]. by rewrite Hst.
  - intros t. destruct (decide (t = cur m)) as [->|Hne]; [done|].
    rewrite Hst by done. apply (li_clear _ H).
  - apply (li_owned _ H).
Qed.

(** A new scheduler state changes no lock. *)
Lemma same_locks_sch m s : same_locks m (with_sch m s).
Proof. done. Qed.

Lemma lock_inv_sch m s : lock_inv m → lock_inv (with_sch m s).
Proof. intros H. by apply (lock_inv_same m). Qed.

Lemma sema_down_inv m m' s k : lock_inv m → stack m (cur m) = P_sema_down s :: k →
  stack_ok (P_sema_down s :: k) = true → sema_down m s k = Ret m' → lock_inv m'.
Proof.
  intros H Hsk Hk Hrun. unfold sema_down in Hrun. destruct (Z.eqb_spec (value (semas m s)) 0) as [E|E].
  - apply bind_Ret in Hrun as (c & _ & Hrun). apply bind_Ret in Hrun as (s' & _ & Hrun). injection Hrun as <-.
    apply (lock_inv_same m); [done| |done]. split_and!; [|done|done]. intros l. cbn.
    destruct (decide (S_lock l = s)) as [<-|]; [by rewrite fupd_eq|by rewrite fupd_ne].
  - injection Hrun as <-. destruct s as [n|l|t].
    + apply (lock_inv_goto m _ k); [done|by apply same_locks_sema|done|by rewrite Hsk|done].
    + destruct k as [|[] k]; try done. cbn in Hk. apply andb_true_iff in Hk as [El%bool_decide_eq_true Hk].
      subst l0. apply (lock_down_inv m _ l k); [done| |by rewrite Hsk|done|done].
      destruct (li_lock _ H l) as [(Hv&_)|[(Hv&_)|(?&Hv&_)]]; lia.
    + apply (lock_inv_goto m _ k); [done|by apply same_locks_sema|done|by rewrite Hsk|done].
Qed.

(** The running thread goes on with plain code [k']; only the scheduler's state and
    what the invariant does not read change besides. *)
Ltac plain k' :=
  eapply (lock_inv_goto _ _ k');
    [eassumption|split_and!; intros; reflexivity|intros; reflexivity
    |match goal with H : stack _ _ = _ |- _ => rewrite H end; assumption|first [assumption|reflexivity]].

Lemma exec_lock_inv m m' : lock_inv m → stack m (cur m) ≠ [] → exec m = Ret m' → lock_inv m'.
Proof.
  intros H Hne. unfold exec. pose proof (li_stack _ H (cur m)) as Hok.
  destruct (stack m (cur m)) as [|p k] eqn:Hsk; [done|]. intros Hrun.
  destruct p as [s|n|s|t|l|l|h|l|l|l|l|l|c l|c l|c l|r b|r b|r b|r b|r b|r b|t|t|].
  - by eapply sema_down_inv.
  - injection Hrun as <-. unfold sema_try_down. destruct (0 <? value (semas m (S_client n))); cbn [snd].
    + apply (lock_inv_goto m _ k); [done|by apply same_locks_sema|done|by rewrite Hsk|done].
    + plain k.
  - destruct s as [n|l|t]; [|by eapply lock_up_inv|].
    all: apply sema_up_inv in Hrun as (sc & ws & k' & -> & Hc & Hk');
      apply (lock_inv_goto m _ k'); [done| |cbn; by rewrite Hc|by rewrite Hsk|by destruct Hk' as [->|[u ->]]].
    all: split_and!; [|done|done]; intros l; cbn; by rewrite fupd_ne.
  - apply bind_Ret in Hrun as (u & _ & Hrun). apply bind_Ret in Hrun as (c & _ & Hrun).
    cbn zeta in Hrun. case_match; [apply bind_Ret in Hrun as (s' & _ & Hrun)|]; injection Hrun as <-; plain k.
  - apply bind_Ret in Hrun as (u & _ & Hrun).
    assert (code_ok (P_sema_down (S_lock l) :: P_lock_holder l :: k) = true) as Hd
      by (cbn; by rewrite bool_decide_true).
    destruct (policy m); injection Hrun as <-;
      first [plain (P_sema_down (S_lock l) :: P_lock_holder l :: k)
            |plain (P_lock_donate l :: P_sema_down (S_lock l) :: P_lock_holder l :: k)].
  - unfold lock_donate in Hrun. destruct (holder m l) as [h|]; [|injection Hrun as <-; plain k].
    apply bind_Ret in Hrun as (c & _ & Hrun). apply bind_Ret in Hrun as (u & _ & Hrun). injection Hrun as <-.
    case_match; [plain (P_lock_donate_to h :: k)|plain k].
  - apply bind_Ret in Hrun as (c & _ & Hrun). apply bind_Ret in Hrun as (s1 & _ & Hrun).
    apply bind_Ret in Hrun as (s2 & _ & Hrun). injection Hrun as <-. plain k.
  - by eapply lock_holder_inv.
  - apply bind_Ret in Hrun as (c & _ & Hrun). injection Hrun as <-. plain k.
  - apply bind_Ret in Hrun as (u & _ & Hrun). unfold sema_try_down in Hrun.
    destruct (Z.ltb_spec 0 (value (semas m (S_lock l)))); injection Hrun as <-.
    + eapply (lock_down_inv m _ l k); [done|done|by rewrite Hsk|done|done].
    + plain k.
  - apply (lock_release_inv m m' l k); [done|by rewrite Hsk|done|done].
  - destruct k as [|[| |[|l'|]| | | | | | | | | | | | | | | | | | | | | ] k]; try done.
    cbn in Hok. apply andb_true_iff in Hok as [->%bool_decide_eq_true Hok]. by eapply lock_clear_inv.
  - apply bind_Ret in Hrun as (u & _ & Hrun). injection Hrun as <-.
    apply (lock_inv_goto m _ (P_lock_release l :: P_sema_down (S_waiter (cur m)) :: P_lock_acquire l :: k));
      [done| |done|by rewrite Hsk|done].
    split_and!; [|done|done]. intros l'. cbn. by rewrite fupd_ne.
  - apply bind_Ret in Hrun as (u & _ & Hrun). destruct (conds m c) as [|w ws]; [injection Hrun as <-; plain k|].
    apply bind_Ret in Hrun as (t & _ & Hrun). injection Hrun as <-. plain (P_sema_up (S_waiter t) :: k).
  - unfold cond_broadcast in Hrun. destruct (conds m c) as [|w ws]; injection Hrun as <-;
      [plain k|plain (P_cond_signal c l :: P_cond_broadcast c l :: k)].
  - injection Hrun as <-. destruct (if b then 0 <? AW (rws m r) + WW (rws m r) else 0 <? AR (rws m r) + AW (rws m r));
      [plain (P_rw_wait r b :: k)|plain (P_rw_enter r b :: P_lock_release (L_rw r) :: k)].
  - injection Hrun as <-. plain (P_cond_wait (rw_cond r b) (L_rw r) :: P_rw_woken r b :: k).
  - injection Hrun as <-. plain (P_rw_test r b :: k).
  - injection Hrun as <-. plain k.
  - injection Hrun as <-. plain (P_rw_wake r b :: P_lock_release (L_rw r) :: k).
  - injection Hrun as <-. eapply lock_inv_goto; [exact H|by split_and!|done|by rewrite Hsk|].
    repeat case_match; done.
  - injection Hrun as <-. plain k.
  - apply bind_Ret in Hrun as (s' & _ & Hrun). injection Hrun as <-. plain k.
  - apply bind_Ret in Hrun as (s' & _ & Hrun). injection Hrun as <-. by apply lock_inv_sch.
Qed.

Lemma call_lock_inv m a m' : lock_inv m → stack m (cur m) = [] →
  (∀ t p, a = A_create t p → stack m t = []) → call m a = Ret m' → lock_inv m'.
Proof.
  intros H Hsk Hcr Hrun.
  destruct a as [n|n|n|n|n|n|n l|n l|n l|r b|r b|t p| | |p|n|n]; cbn [call] in Hrun.
  1-11: injection Hrun as <-; match goal with |- lock_inv (goto _ ?k') =>
    eapply (lock_inv_goto m _ k'); [done|by split_and!|done|by rewrite Hsk|done] end.
  - unfold thread_create in Hrun. apply bind_Ret in Hrun as (s' & Hi & E). injection E as <-.
    unfold init_thread in Hi. apply bind_Ret in Hi as (u & _ & E). injection E as <-.
    specialize (Hcr t p eq_refl). set (m1 := with_owned (with_stack m t []) t []).
    assert (lock_inv m1) as H1.
    { destruct H as [Hs Hl Hc Ho].
      assert (∀ x, stack m1 x = stack m x) as Hst.
      { intros x. cbn. unfold fupd. by destruct (decide (x = t)) as [->|]. }
      assert (lock_inv (with_stack m t [])) as [].
      { apply (lock_inv_same m); [by constructor|by split_and!|done]. }
      constructor; [done|done|done|]. intros x l. cbn. unfold fupd.
      destruct (decide (x = t)); [by intros ?%not_elem_of_nil|apply Ho]. }
    match goal with |- lock_inv (goto _ ?k') =>
      eapply (lock_inv_goto m1 _ k'); [done|by split_and!|done| |done] end.
    cbn. unfold fupd. destruct (decide (cur m = t)); [done|by rewrite Hsk].
  - apply bind_Ret in Hrun as (s' & _ & E). injection E as <-. by apply lock_inv_sch.
  - apply bind_Ret in Hrun as (s' & _ & E). injection E as <-. by apply lock_inv_sch.
  - unfold thread_set_priority in Hrun.
    destruct (policy m); [..|by injection Hrun as <-]; apply bind_Ret in Hrun as (c & _ & Hrun).
    1,3: injection Hrun as <-; by apply lock_inv_sch.
    repeat case_match; try (apply bind_Ret in Hrun as (s' & _ & Hrun)); injection Hrun as <-;
      repeat apply lock_inv_sch; done.
  - apply bind_Ret in Hrun as (s' & _ & E). injection E as <-. by apply lock_inv_sch.
  - apply bind_Ret in Hrun as (s' & _ & E). injection E as <-. by apply lock_inv_sch.
Qed.

Lemma tick_lock_inv m m' : lock_inv m → tick m = Ret m' → lock_inv m'.
Proof. intros H (s' & _ & E)%bind_Ret. injection E as <-. by apply lock_inv_sch. Qed.

Lemma intr_up_lock_inv m n m' : lock_inv m → intr_sema_up m n = Ret m' → lock_inv m'.
Proof.
  intros H ([w m1] & (sc & ws & -> & Hc)%sema_up_off_inv & E)%bind_Ret. injection E as <-.
  apply (lock_inv_same m); [done| |done]. split_and!; [|done|done]. intros l. cbn. by rewrite fupd_ne.
Qed.

Lemma boot_lock_inv p f : lock_inv (boot p f).
Proof.
  assert (∀ t, stack (boot p f) t = [] ∨ stack (boot p f) t = [P_idle]) as Hst.
  { intros t. cbn. unfold fupd. destruct (decide (t = 2%nat)); auto. }
  constructor.
  - intros t. by destruct (Hst t) as [-> | ->].
  - intros l. left. split_and!; [done|done|]. intros t. by destruct (Hst t) as [-> | ->].
  - intros t l. by destruct (Hst t) as [-> | ->].
  - intros t l ?%not_elem_of_nil. done.
Qed.

End SynchProofs.
