(* ===== verification/SynchSched.v ===== *)
(** * Synchronisation: threads and queues

    The invariant of the machine that ties control points to queues: a thread that
    waits on a semaphore is blocked in its [sema_down], a thread under creation is
    blocked until it is put on the ready queue, the idle thread runs its loop, and
    no blocked thread is lost.  With it, every reachable state satisfies the
    scheduler's invariant. *)

From stdpp Require Import base tactics numbers list option sorting sets.
From S2P Require Import Prelude KList KListProofs ThreadState Thread ThreadProofs Synch SynchProofs.

Module SynchSched.
Import ThreadState Thread ThreadProofs Synch SynchProofs.

(** The threads that code is to unblock, and to donate to. *)
Fixpoint unblocks (k : list point) : list tptr :=
  match k with [] => [] | P_unblock t :: k => t :: unblocks k | _ :: k => unblocks k end.
Fixpoint donees (k : list point) : list tptr :=
  match k with [] => [] | P_lock_donate_to t :: k => t :: donees k | _ :: k => donees k end.

Lemma unblocks_in t k : t ∈ unblocks k → P_unblock t ∈ k.
Proof.
  induction k as [|p k IH]; [set_solver|]. intros Hin.
  destruct p; cbn in Hin; try (right; by apply IH). apply elem_of_cons in Hin as [->|?]; [by left|right; by apply IH].
Qed.

(** Code of the idle loop. *)
Fixpoint idles (k : list point) : bool :=
  match k with [] => false | P_idle :: _ => true | _ :: k => idles k end.

(** Only [u] downs the semaphore on its own stack. *)
Fixpoint own (u : tptr) (k : list point) : bool :=
  match k with
  | [] => true
  | P_sema_down (S_waiter t) :: k => bool_decide (t = u) && own u k
  | _ :: k => own u k
  end.

Record wait_inv (m : machine) : Prop := mk_wait_inv {
  wi_sched : sched_ok (sch m);
  wi_dead t : magic (th (sch m) t) = false → stack m t = [];
  wi_idle i : idle_thread (sch m) = Some i → stack m i = [P_idle] ∧ ∀ l, holder m l ≠ Some i;
  wi_loop t : idles (stack m t) = true → idle_thread (sch m) = Some t;
  wi_own u : own u (stack m u) = true;
  wi_wait s t : t ∈ waiters (semas m s) →
    magic (th (sch m) t) = true ∧ status (th (sch m) t) = THREAD_BLOCKED ∧
    list.head (stack m t) = Some (P_sema_down s) ∧ t ∉ sleeping_threads (sch m);
  wi_nodup s : NoDup (waiters (semas m s));
  wi_embryo u t : t ∈ unblocks (stack m u) →
    magic (th (sch m) t) = true ∧ status (th (sch m) t) = THREAD_BLOCKED ∧ stack m t = [] ∧
    t ∉ sleeping_threads (sch m) ∧ idle_thread (sch m) ≠ Some t;
  wi_unique u u' t : t ∈ unblocks (stack m u) → t ∈ unblocks (stack m u') → u = u';
  wi_once u : (length (unblocks (stack m u)) ≤ 1)%nat;
  wi_donee u h : h ∈ donees (stack m u) → idle_thread (sch m) ≠ Some h;
  wi_blocked t : magic (th (sch m) t) = true → status (th (sch m) t) = THREAD_BLOCKED →
    (∃ s, t ∈ waiters (semas m s)) ∨ t ∈ sleeping_threads (sch m) ∨
    (∃ u, t ∈ unblocks (stack m u)) ∨ idle_thread (sch m) = Some t }.

Lemma wi_cur m : wait_inv m →
  magic (th (sch m) (cur m)) = true ∧ status (th (sch m) (cur m)) = THREAD_RUNNING.
Proof. intros [[_ ? ?]]. done. Qed.

(** The running thread waits nowhere. *)
Lemma cur_not_waiting m s : wait_inv m → cur m ∉ waiters (semas m s).
Proof. intros H Hin. destruct (wi_wait _ H _ _ Hin) as (_ & Hb & _), (wi_cur _ H). congruence. Qed.

(** ** Transitions that leave the running thread on the processor *)

Record calm (s s' : sched) : Prop := mk_calm {
  cm_ok : sched_ok s';
  cm_steady : steady s s';
  cm_current : current s' = current s;
  cm_sleep : sleeping_threads s' = sleeping_threads s;
  cm_th x : status (th s' x) = status (th s x) ∧ magic (th s' x) = magic (th s x) }.

Lemma calm_refl s : sched_ok s → calm s s.
Proof. by constructor. Qed.

Lemma calm_trans s1 s2 s3 : calm s1 s2 → calm s2 s3 → calm s1 s3.
Proof.
  intros [? ? ? ? H1] [? ? ? ? H2]. constructor; [done|eauto with sched|congruence..|].
  intros x. destruct (H1 x), (H2 x). split; congruence.
Qed.

(** Fields of the running thread other than its status. *)
Lemma calm_upd s g : sched_ok s →
  (∀ r, status (g r) = status r ∧ magic (g r) = magic r) → calm s (upd s (current s) g).
Proof.
  intros Hok Hg. set (s' := upd s (current s) g).
  assert (∀ x, status (th s' x) = status (th s x) ∧ magic (th s' x) = magic (th s x)) as Hx.
  { intros x. unfold s', upd, fupd. cbn. destruct (decide (x = current s)) as [->|]; [apply Hg|done]. }
  constructor; [|done..]. destruct Hok as [H Hm Hr]. constructor.
  - constructor; intros *; try (destruct (Hx t) as [-> ->]).
    + apply H.
    + apply H.
    + apply H.
    + apply H.
    + destruct (sh_idle _ _ H) as (i & ?). exists i. by destruct (Hx i) as [-> ->].
    + apply H.
    + apply H.
    + intros Hp. apply (StronglySorted_higher s); [|by apply H]. intros t Ht. unfold s'. rewrite upd_ne; [done|].
      intros ->. apply (sh_ready _ _ H) in Ht as [_ ?]. congruence.
  - change (current s') with (current s). by destruct (Hx (current s)) as [_ ->].
  - change (current s') with (current s). by destruct (Hx (current s)) as [-> _].
Qed.

Lemma calm_similar s s' : sched_ok s → similar s s' → calm s s'.
Proof.
  intros Hok Hs. pose proof (similar_ok _ _ Hs Hok). destruct Hs as [? ? ? ? Hx]. constructor; [done..|].
  intros x. by destruct (Hx x) as (? & ? & _).
Qed.

(** A donation. *)
Lemma donate_calm s t p s' : sched_ok s → idle_thread s ≠ Some t → donate s t p = Ret s' → calm s s'.
Proof.
  intros Hok Hid Hrun. unfold donate in Hrun. apply bind_Ret in Hrun as (u0 & _ & Hrun). set (s1 := upd s t _) in *.
  assert (∀ x, th s1 x = if decide (x = t) then with_eff_priority (th s t) p else th s x) as Hx by done.
  assert (∀ x, status (th s1 x) = status (th s x) ∧ magic (th s1 x) = magic (th s x)) as Hsm.
  { intros x. rewrite Hx. by destruct (decide (x = t)) as [->|]. }
  pose proof Hok as [H Hm Hr].
  assert (∀ s2, steady s s2 → current s2 = current s → sleeping_threads s2 = sleeping_threads s →
    threads s2 = threads s1 → ready s2 ≡ₚ ready s →
    (active_sched_policy s = SCHED_PRIO → StronglySorted (higher s1) (ready s2)) → calm s s2) as Hfin.
  { intros s2 Hsd Hc Hsl Hth Hp Hso. constructor; [|done|done|done|by rewrite Hth]. constructor.
    - constructor; intros *; rewrite ?Hth, ?Hp, ?Hsl, ?Hc; try (destruct (Hsm t0) as [-> ->]).
      + apply H.
      + apply H.
      + rewrite (st_idle _ _ Hsd). apply H.
      + apply H.
      + destruct (sh_idle _ _ H) as (i & ?). exists i. rewrite Hp, (st_idle _ _ Hsd).
        by destruct (Hsm i) as [-> ->].
      + apply H.
      + apply H.
      + rewrite (st_policy _ _ Hsd). intros Hpo. apply (StronglySorted_higher s1); [by rewrite Hth|auto].
    - rewrite Hth, Hc. by destruct (Hsm (current s)) as [_ ->].
    - rewrite Hth, Hc. by destruct (Hsm (current s)) as [-> _]. }
  destruct (bool_decide (status (th s1 t) = THREAD_READY)) eqn:Es.
  - apply bool_decide_eq_true in Es. unfold thread_reinsert_ready in Hrun.
    apply bind_Ret in Hrun as (u & Hmt & Hrun). apply bind_Ret in Hrun as (u' & _ & Hrun).
    apply ASSERT_Ret in Hmt. cbn [is_thread] in Hmt.
    destruct (Hsm t) as [E1 E2]. rewrite E1 in Es. rewrite E2 in Hmt.
    assert (t ∈ ready s) as Hin by (destruct (sh_all _ _ H t Hmt Es); done).
    unfold insert_by_priority in Hrun. set (s3 := with_priority_ready_list s1 _) in Hrun.
    assert (ready s = priority_ready_list s →
      KListProofs.ordered_insert (thread_priority_greater s3) t (priority_ready_list s3) ≡ₚ ready s) as Hl.
    { intros Hrd. rewrite KListProofs.ordered_insert_perm.
      change (priority_ready_list s3) with (list_remove t (priority_ready_list s)). rewrite <- Hrd.
      apply NoDup_Permutation.
      - constructor; [rewrite elem_of_list_remove; tauto|]. apply NoDup_filter, H.
      - apply H.
      - intros x. rewrite elem_of_cons, elem_of_list_remove. destruct (decide (x = t)) as [->|]; tauto. }
    change (active_sched_policy s1) with (active_sched_policy s) in Hrun.
    destruct (active_sched_policy s) eqn:Hpol; injection Hrun as <-.
    1,3: apply Hfin; done.
    + assert (ready s = priority_ready_list s) as Hrd by (unfold ready; by rewrite Hpol).
      apply Hfin; [done|done|done|done| |]; unfold ready at 1; cbn; rewrite Hpol; [by apply Hl|intros _].
      apply KListProofs.ordered_insert_sorted; [apply _|..].
      * intros y. unfold thread_priority_greater, higher. cbn. rewrite Z.ltb_lt. lia.
      * intros y. unfold thread_priority_greater, higher. cbn. rewrite Z.ltb_ge. lia.
      * unfold s3. cbn. rewrite <- Hrd. apply (StronglySorted_higher s); [|by apply StronglySorted_remove, H].
        intros x [Hne _]%elem_of_list_remove. by rewrite Hx, decide_False.
    + apply Hfin; [done|done|done|done| |done].
      unfold ready at 1; cbn; rewrite Hpol. apply Hl. unfold ready. by rewrite Hpol.
  - apply bool_decide_eq_false in Es. injection Hrun as <-. apply Hfin; [done|done|done|done|done|].
    intros Hpol. apply (StronglySorted_higher s); [|by apply H]. intros x Hx'. rewrite Hx, decide_False; [done|].
    intros ->. apply (sh_ready _ _ H) in Hx' as [_ ?]. destruct (Hsm t). congruence.
Qed.

Lemma donate_chain_calm fuel hold s h s' : sched_ok s →
  (∀ l t, hold l = Some t → idle_thread s ≠ Some t) →
  donate_chain fuel hold s h = Ret s' → calm s s'.
Proof.
  revert s h. induction fuel as [|fuel IH]; intros s h Hok Hh; [done|]. cbn [donate_chain].
  destruct (waiting_lock (th s h) ≫= hold) as [n|] eqn:E; [|intros [= ->]; by apply calm_refl].
  apply bind_Some in E as (l & _ & Hl).
  intros (u & _ & (s1 & H1 & H2)%bind_Ret)%bind_Ret. assert (calm s s1) as Hc1.
  { case_match; [|injection H1 as <-; by apply calm_refl]. eapply donate_calm; [done|by eapply Hh|done]. }
  eapply calm_trans; [exact Hc1|]. eapply IH; [apply Hc1| |exact H2].
  intros l' t Hl'. rewrite (st_idle _ _ (cm_steady _ _ Hc1)). by eapply Hh.
Qed.

(** The running thread goes on with [k']. *)
Lemma wait_inv_calm m m' k' : wait_inv m → calm (sch m) (sch m') →
  (idle_thread (sch m) = Some (cur m) → k' = stack m (cur m)) →
  (∀ t, stack m' t = fupd (stack m) (cur m) k' t) →
  (∀ s, waiters (semas m' s) = waiters (semas m s)) →
  (∀ l t, holder m' l = Some t → holder m l = Some t ∨ idle_thread (sch m) ≠ Some t) →
  unblocks k' = unblocks (stack m (cur m)) → idles k' = idles (stack m (cur m)) →
  own (cur m) k' = true →
  (∀ h, h ∈ donees k' → h ∈ donees (stack m (cur m)) ∨ idle_thread (sch m) ≠ Some h) →
  wait_inv m'.
Proof.
  intros H [Hok Hsd Hc Hsl Hx] Hid Hst Hw Hh Hub Hil How Hdo. destruct (wi_cur _ H) as [Hmc Hrc].
  assert (∀ u, unblocks (stack m' u) = unblocks (stack m u)) as Hun.
  { intros u. rewrite Hst. unfold fupd. by destruct (decide (u = cur m)) as [->|]. }
  assert (∀ t, t ≠ cur m → stack m' t = stack m t) as Hne by (intros; rewrite Hst; by apply fupd_ne).
  pose proof (st_idle _ _ Hsd) as Hi.
  constructor.
  - done.
  - intros t. destruct (Hx t) as [_ ->]. intros Hd. rewrite Hne; [by apply (wi_dead _ H)|]. congruence.
  - rewrite Hi. intros i Ei. destruct (wi_idle _ H i Ei) as [Esk Hl]. split.
    + rewrite Hst. unfold fupd. destruct (decide (i = cur m)) as [->|]; [by rewrite (Hid Ei)|done].
    + intros l El. apply Hh in El as [El|El]; [by apply (Hl l)|done].
  - intros t. rewrite Hst, Hi. unfold fupd. destruct (decide (t = cur m)) as [->|]; [rewrite Hil|]; apply (wi_loop _ H).
  - intros t. rewrite Hst. unfold fupd. destruct (decide (t = cur m)) as [->|]; [done|apply H].
  - intros s t. rewrite Hw, Hsl. destruct (Hx t) as [-> ->]. intros Hin. rewrite Hne; [by apply (wi_wait _ H)|].
    intros ->. by apply (cur_not_waiting m s H).
  - intros s. rewrite Hw. apply H.
  - intros u t. rewrite Hun, Hsl, Hi. destruct (Hx t) as [-> ->]. intros Hin.
    destruct (wi_embryo _ H u t Hin) as (?&?&?&?&?). rewrite Hne by congruence. done.
  - intros u u' t. rewrite !Hun. apply (wi_unique _ H).
  - intros u. rewrite Hun. apply H.
  - intros u h. rewrite Hst, Hi. unfold fupd. destruct (decide (u = cur m)) as [->|]; [|apply (wi_donee _ H)].
    intros [Hd|Hd]%Hdo; [by eapply (wi_donee _ H)|done].
  - intros t. destruct (Hx t) as [-> ->]. rewrite Hsl, Hi. setoid_rewrite Hw. setoid_rewrite Hun.
    apply (wi_blocked _ H).
Qed.

(** ** Transitions that may switch threads *)

(** A blocked thread that is neither running nor idle stays as it is. *)
Lemma moved_blocked m s' st t : wait_inv m → moved (sch m) s' st →
  magic (th (sch m) t) = true → status (th (sch m) t) = THREAD_BLOCKED →
  idle_thread (sch m) ≠ Some t →
  magic (th s' t) = true ∧ status (th s' t) = THREAD_BLOCKED ∧ t ≠ cur m ∧ t ≠ current s'.
Proof.
  intros H Hmv Hm Hb Hid. destruct (wi_cur _ H) as [Hmc Hrc].
  assert (t ≠ cur m) as Hne by congruence.
  assert (t ≠ current s') as Hne'.
  { intros ->. destruct (mv_new _ _ _ Hmv) as [E|[E|E]]; [done| |done].
    destruct (wi_sched _ H) as [Hsh _ _]. apply (sh_ready _ _ Hsh) in E as [_ E]. congruence. }
  split_and!; [|by rewrite (mv_others _ _ _ Hmv)|done|done].
  destruct (mv_magic _ _ _ Hmv t) as [-> |[-> _]]; done.
Qed.

Lemma wait_inv_moved m m' st : wait_inv m → moved (sch m) (sch m') st →
  (∀ t, stack m' t = stack m t) → (∀ l, holder m' l = holder m l) →
  (∀ s t, t ∈ waiters (semas m s) → t ∈ waiters (semas m' s)) →
  (∀ s t, t ∈ waiters (semas m' s) → t ∈ waiters (semas m s) ∨
     t = cur m ∧ st = THREAD_BLOCKED ∧ list.head (stack m t) = Some (P_sema_down s)) →
  (∀ s, NoDup (waiters (semas m' s))) →
  (st = THREAD_DYING → stack m (cur m) = []) →
  (st = THREAD_BLOCKED → idle_thread (sch m) = Some (cur m) ∨ ∃ s, cur m ∈ waiters (semas m' s)) →
  wait_inv m'.
Proof.
  intros H Hmv Hst Hh Hw1 Hw2 Hnd Hdy Hbl. destruct (wi_cur _ H) as [Hmc Hrc].
  pose proof (mv_steady _ _ _ Hmv) as Hsd. pose proof (st_idle _ _ Hsd) as Hi.
  assert (∀ t, list.head (stack m t) = None ∨ (∃ s, list.head (stack m t) = Some (P_sema_down s)) →
    idle_thread (sch m) ≠ Some t) as Hnid.
  { intros t Ht Ei. destruct (wi_idle _ H t Ei) as [E _]. rewrite E in Ht. cbn in Ht. naive_solver. }
  constructor.
  - apply Hmv.
  - intros t Hd. rewrite Hst. destruct (mv_magic _ _ _ Hmv t) as [E|[-> E]]; [|by apply Hdy].
    apply (wi_dead _ H). congruence.
  - rewrite Hi. intros i Ei. rewrite Hst. destruct (wi_idle _ H i Ei). split; [done|]. intros l. by rewrite Hh.
  - intros t. rewrite Hst, Hi. apply (wi_loop _ H).
  - intros t. rewrite Hst. apply H.
  - intros s t Hin. rewrite Hst, (mv_sleep _ _ _ Hmv). apply Hw2 in Hin as [Hin|(-> & -> & Hhd)].
    + destruct (wi_wait _ H s t Hin) as (Hm & Hb & Hhd & Hns).
      destruct (moved_blocked m _ _ t H Hmv Hm Hb) as (?&?&_); [apply Hnid; eauto|done].
    + assert (current (sch m') ≠ cur m) as Hne.
      { intros E. destruct (mv_self _ _ _ Hmv E) as [?|E']; [done|]. by apply (Hnid (cur m)); [eauto|]. }
      split_and!; [destruct (mv_magic _ _ _ Hmv (cur m)) as [-> |[_ ?]]; done| |done|].
      * by destruct (mv_old _ _ _ Hmv).
      * intros Hin. destruct (wi_sched _ H) as [Hsh _ _]. apply (sh_sleep _ _ Hsh) in Hin as [_ ?]. congruence.
  - done.
  - intros u t. rewrite !Hst, (mv_sleep _ _ _ Hmv), Hi. intros Hin.
    destruct (wi_embryo _ H u t Hin) as (Hm & Hb & Hsk & Hns & Hid).
    destruct (moved_blocked m _ _ t H Hmv Hm Hb Hid) as (?&?&_). done.
  - intros u u' t. rewrite !Hst. apply (wi_unique _ H).
  - intros u. rewrite Hst. apply H.
  - intros u h. rewrite Hst, Hi. apply (wi_donee _ H).
  - intros t Hm Hb. rewrite (mv_sleep _ _ _ Hmv), Hi. setoid_rewrite Hst.
    destruct (decide (t = current (sch m'))) as [->|Hnc].
    { destruct (mv_ok _ _ _ Hmv) as [_ _ E]. congruence. }
    destruct (decide (t = cur m)) as [->|Hne].
    + destruct (mv_old _ _ _ Hmv) as [E|E]; [done|]. assert (st = THREAD_BLOCKED) as -> by congruence.
      destruct (Hbl eq_refl) as [?|[s ?]]; eauto.
    + rewrite (mv_others _ _ _ Hmv t Hne Hnc) in Hb.
      destruct (mv_magic _ _ _ Hmv t) as [E|[-> _]]; [|done]. rewrite E in Hm.
      destruct (wi_blocked _ H t Hm Hb) as [[s Hs]|?]; [left; eauto|auto].
Qed.

Lemma wait_inv_ticked m s' : wait_inv m → ticked (sch m) s' → wait_inv (with_sch m s').
Proof.
  intros H [Hok Hsd Hc Ht Hst Hsl Hwo]. pose proof (st_idle _ _ Hsd) as Hi.
  constructor; cbn [sch with_sch stack semas holder]; rewrite ?Hi.
  - done.
  - intros t. destruct (Ht t) as [-> _]. apply (wi_dead _ H).
  - apply (wi_idle _ H).
  - apply (wi_loop _ H).
  - apply H.
  - intros s t Hin. destruct (wi_wait _ H s t Hin) as (?&?&?&?). destruct (Ht t) as [-> _].
    rewrite Hst by done. split_and!; auto.
  - apply H.
  - intros u t Hin. destruct (wi_embryo _ H u t Hin) as (?&?&?&?&?). destruct (Ht t) as [-> _].
    rewrite Hst by done. split_and!; auto.
  - apply H.
  - apply H.
  - apply (wi_donee _ H).
  - intros t Hm Hb. destruct (Ht t) as [E _]. rewrite E in Hm.
    destruct (decide (t ∈ sleeping_threads (sch m))) as [Hin|Hn].
    + destruct (Hwo t Hin) as [?|?]; [auto|congruence].
    + rewrite Hst in Hb by done. destruct (wi_blocked _ H t Hm Hb) as [?|[?|?]]; [auto|done|auto].
Qed.

(** ** Waking a thread *)

Lemma sema_pick_in m ws t : sema_pick m ws = Some t → t ∈ ws.
Proof.
  unfold sema_pick. destruct ws as [|w ws]; [done|].
  destruct (policy m); intros [= <-]; first [by left|apply KListProofs.pick_max_in].
Qed.

(** [t] leaves its queue for the ready queue. *)
Lemma wait_inv_woken m m' t : wait_inv m →
  sched_ok (sch m') → steady (sch m) (sch m') → cur m' = cur m →
  sleeping_threads (sch m') = sleeping_threads (sch m) →
  (∀ x, th (sch m') x = if decide (x = t) then with_status (th (sch m) t) THREAD_READY else th (sch m) x) →
  (∀ u, u ≠ cur m → stack m' u = stack m u) →
  (idle_thread (sch m) = Some (cur m) → stack m' (cur m) = stack m (cur m)) →
  (∀ l, holder m' l = holder m l) → magic (th (sch m) t) = true →
  (∀ s x, x ∈ waiters (semas m' s) ↔ x ∈ waiters (semas m s) ∧ x ≠ t) →
  (∀ s, NoDup (waiters (semas m' s))) →
  (∀ u x, x ∈ unblocks (stack m' u) ↔ x ∈ unblocks (stack m u) ∧ x ≠ t) →
  (∀ u, length (unblocks (stack m' u)) ≤ 1)%nat →
  (∀ u h, h ∈ donees (stack m' u) → h ∈ donees (stack m u)) →
  (∀ u, idles (stack m' u) = idles (stack m u)) → (∀ u, own u (stack m' u) = true) →
  wait_inv m'.
Proof.
  intros H Hok Hsd Hc Hsl Hx Hst Hid Hh Hmt Hw Hnd Hub Honce Hdo Hil How. pose proof (st_idle _ _ Hsd) as Hi.
  destruct (wi_cur _ H) as [Hmc Hrc].
  assert (∀ x, magic (th (sch m') x) = magic (th (sch m) x)) as Hma.
  { intros x. rewrite Hx. by destruct (decide (x = t)) as [->|]. }
  constructor; rewrite ?Hi, ?Hsl.
  - done.
  - intros x. rewrite Hma. intros Hd. rewrite Hst by congruence. by apply (wi_dead _ H).
  - intros i Ei. destruct (wi_idle _ H i Ei). split; [|intros l; by rewrite Hh].
    destruct (decide (i = cur m)) as [->|]; [by rewrite (Hid Ei)|by rewrite Hst].
  - intros x. rewrite Hil. apply (wi_loop _ H).
  - done.
  - intros s x. rewrite Hw, Hma, Hx. intros [Hin Hne]. rewrite decide_False by done.
    destruct (wi_wait _ H s x Hin) as (?&?&?&?). rewrite Hst by congruence. done.
  - done.
  - intros u x. rewrite Hub, Hma, Hx. intros [Hin Hne]. rewrite decide_False by done.
    destruct (wi_embryo _ H u x Hin) as (?&?&?&?&?). rewrite Hst by congruence. done.
  - intros u u' x. rewrite !Hub. intros [? _] [? _]. by eapply (wi_unique _ H).
  - done.
  - intros u h Hd. apply Hdo in Hd. by eapply (wi_donee _ H).
  - intros x. rewrite Hma, Hx. destruct (decide (x = t)) as [->|Hne]; [done|]. intros Hm Hb.
    destruct (wi_blocked _ H x Hm Hb) as [[s Hs]|[?|[[u Hu]|?]]]; [left|auto|right; right; left|auto].
    + exists s. by rewrite Hw.
    + exists u. by rewrite Hub.
Qed.

Lemma wait_inv_up m s w m' : wait_inv m →
  sema_up_off m s = Ret (w, m') →
  wait_inv m' ∧ cur m' = cur m ∧ idle_thread (sch m') = idle_thread (sch m) ∧
  (∀ t, stack m' t = stack m t).
Proof.
  intros H Hrun. unfold sema_up_off in Hrun.
  destruct (sema_pick m (waiters (semas m s))) as [t|] eqn:Ep.
  - apply sema_pick_in in Ep. destruct (wi_wait _ H s t Ep) as (Hm & Hb & Hhd & Hns).
    assert (idle_thread (sch m) ≠ Some t) as Hidt.
    { intros Ei. destruct (wi_idle _ H t Ei) as [E _]. by rewrite E in Hhd. }
    apply bind_Ret in Hrun as (s' & Hu & E). injection E as <- <-.
    destruct (thread_unblock_run (sch m) t (wi_sched _ H) Hm Hb Hns Hidt)
      as (s2 & E & Hok & Hsd & Hc & Hsl & Hp & Hx).
    change (thread_unblock (sch m) t = Ret s') in Hu. rewrite E in Hu. injection Hu as ->.
    split; [|split; [done|split; [apply (st_idle _ _ Hsd)|done]]].
    eapply (wait_inv_woken m _ t); cbn [sch with_sch with_sema stack holder semas]; try done.
    + intros s0 x. unfold fupd. destruct (decide (s0 = s)) as [->|Hne].
      * cbn [waiters]. rewrite elem_of_list_remove. tauto.
      * split; [|tauto]. intros Hin. split; [done|]. intros ->.
        destruct (wi_wait _ H s0 t Hin) as (_ & _ & E' & _). congruence.
    + intros s0. unfold fupd. destruct (decide (s0 = s)) as [->|Hne]; [|apply H].
      apply NoDup_filter, H.
    + intros u x. split; [|tauto]. intros Hin. split; [done|]. intros ->.
      destruct (wi_embryo _ H u t Hin) as (_ & _ & E' & _). by rewrite E' in Hhd.
    + apply (wi_once _ H).
    + apply (wi_own _ H).
  - injection Hrun as <- <-. split; [|done].
    assert (waiters (semas m s) = []) as Hem.
    { unfold sema_pick in Ep. destruct (waiters (semas m s)); [done|]. by destruct (policy m). }
    apply (wait_inv_calm m _ (stack m (cur m))); [done|apply calm_refl, H|done| | |auto|done|done|apply H|auto].
    + intros t. cbn. unfold fupd. by destruct (decide (t = cur m)) as [->|].
    + intros s0. cbn. unfold fupd. by destruct (decide (s0 = s)) as [->|].
Qed.

(** ** Steps *)

Lemma cur_not_idle m p k : wait_inv m → stack m (cur m) = p :: k → p ≠ P_idle →
  idle_thread (sch m) ≠ Some (cur m).
Proof. intros H Hsk Hp Ei. destruct (wi_idle _ H _ Ei) as [E _]. congruence. Qed.

(** The running thread goes on with [k'], its scheduler state as before or with other
    fields of its own. *)
Lemma wait_inv_goto m m' k' : wait_inv m → calm (sch m) (sch m') →
  idle_thread (sch m) ≠ Some (cur m) →
  (∀ t, stack m' t = fupd (stack m) (cur m) k' t) →
  (∀ s, waiters (semas m' s) = waiters (semas m s)) → (∀ l, holder m' l = holder m l) →
  unblocks k' = unblocks (stack m (cur m)) → donees k' = donees (stack m (cur m)) →
  idles k' = idles (stack m (cur m)) → own (cur m) k' = true → wait_inv m'.
Proof.
  intros H Hc Hid Hst Hw Hh Hu Hd Hil How. apply (wait_inv_calm m m' k'); try done.
  - intros l t. rewrite Hh. auto.
  - intros h. rewrite Hd. auto.
Qed.

Ltac go k' :=
  eapply (wait_inv_goto _ _ k');
    [eassumption|match goal with Ho : sched_ok _ |- _ =>
                   first [exact (calm_refl _ Ho)|by apply (calm_upd _ _ Ho)] end
    |eassumption|intros; reflexivity|intros; reflexivity|intros; reflexivity
    |match goal with H : stack _ _ = _ |- _ => by rewrite H end
    |match goal with H : stack _ _ = _ |- _ => by rewrite H end
    |match goal with H : stack _ _ = _ |- _ => by rewrite H end
    |assumption].

Lemma same_waiters m s v s0 : waiters v = waiters (semas m s) →
  waiters (fupd (semas m) s v s0) = waiters (semas m s0).
Proof. intros E. unfold fupd. by destruct (decide (s0 = s)) as [->|]. Qed.

Lemma sema_down_wait m m' s k : wait_inv m → stack m (cur m) = P_sema_down s :: k →
  sema_down m s k = Ret m' → wait_inv m'.
Proof.
  intros H Hsk Hrun. pose proof (cur_not_idle _ _ _ H Hsk ltac:(done)) as Hid.
  unfold sema_down in Hrun. destruct (value (semas m s) =? 0).
  - rewrite (thread_current_run _ (wi_sched _ H)) in Hrun. cbn [mbind outcome_bind] in Hrun.
    apply bind_Ret in Hrun as (s' & Hb & E). injection E as <-. cbn [sch with_sema] in Hb.
    apply thread_block_inv in Hb; [|apply H]. pose proof (cur_not_waiting m s H) as Hnw.
    eapply (wait_inv_moved m _ THREAD_BLOCKED); cbn [sch with_sch with_sema stack holder semas]; try done.
    + intros s0 t Hin. unfold fupd. destruct (decide (s0 = s)) as [->|]; [|done]. cbn. set_solver.
    + intros s0 t. unfold fupd. destruct (decide (s0 = s)) as [->|]; [|auto]. cbn [waiters].
      rewrite elem_of_app, list_elem_of_singleton. intros [?| ->]; [auto|]. right. by rewrite Hsk.
    + intros s0. unfold fupd. destruct (decide (s0 = s)) as [->|]; [|apply H]. cbn [waiters].
      apply NoDup_app. split_and!; [apply H| |apply NoDup_singleton].
      intros x Hx ->%list_elem_of_singleton. done.
    + intros _. right. exists s. rewrite fupd_eq. cbn. set_solver.
  - injection Hrun as <-.
    eapply (wait_inv_goto m _ k); [done|apply calm_refl, H|done|done| |done|by rewrite Hsk..|].
    + intros s0. by apply same_waiters.
    + pose proof (wi_own _ H (cur m)) as Ho. rewrite Hsk in Ho. cbn in Ho. destruct s; [done..|].
      by apply andb_true_iff in Ho as [_ ?].
Qed.

Lemma sema_up_wait m m' s k : wait_inv m → stack m (cur m) = P_sema_up s :: k →
  sema_up m s k = Ret m' → wait_inv m'.
Proof.
  intros H Hsk Hrun. pose proof (cur_not_idle _ _ _ H Hsk ltac:(done)) as Hid.
  unfold sema_up in Hrun. apply bind_Ret in Hrun as ([w m1] & Hu & E). injection E as <-.
  destruct (wait_inv_up _ _ _ _ H Hu) as (H1 & Hc & Hi & Hst).
  set (k' := match w with Some _ => _ | None => _ end).
  apply (wait_inv_goto m1 _ k'); [done|apply calm_refl, H1|by rewrite Hc, Hi|done|done|done|..].
  1-3: rewrite Hc, Hst, Hsk; by destruct w.
  pose proof (wi_own _ H (cur m)) as Ho. rewrite Hsk in Ho. rewrite Hc. by destruct w.
Qed.

Lemma unblock_wait m m' t k : wait_inv m → stack m (cur m) = P_unblock t :: k →
  unblock_point m t k = Ret m' → wait_inv m'.
Proof.
  intros H Hsk Hrun. pose proof (cur_not_idle _ _ _ H Hsk ltac:(done)) as Hid.
  assert (t ∈ unblocks (stack m (cur m))) as Hin by (rewrite Hsk; by left).
  destruct (wi_embryo _ H _ _ Hin) as (Hm & Hb & Htk & Hns & Hidt).
  apply bind_Ret in Hrun as (s' & Hu & E). injection E as <-.
  destruct (thread_unblock_run (sch m) t (wi_sched _ H) Hm Hb Hns Hidt)
    as (s2 & E & Hok & Hsd & Hc & Hsl & Hp & Hx). rewrite E in Hu. injection Hu as ->.
  pose proof (wi_once _ H (cur m)) as Ho. rewrite Hsk in Ho. cbn in Ho.
  assert (unblocks k = []) as Hk by (destruct (unblocks k); [done|simpl in Ho; lia]).
  assert (∀ u, unblocks (fupd (stack m) (cur m) k u) = if decide (u = cur m) then [] else unblocks (stack m u)) as Hun.
  { intros u. unfold fupd. by destruct (decide (u = cur m)). }
  eapply (wait_inv_woken m _ t); cbn [sch with_sch goto with_stack stack holder semas]; try done.
  - intros u Hu. by apply fupd_ne.
  - intros s0 x. split; [|tauto]. intros Hin'. split; [done|]. intros ->.
    destruct (wi_wait _ H s0 t Hin') as (_ & _ & E' & _). by rewrite Htk in E'.
  - apply H.
  - intros u x. rewrite Hun. destruct (decide (u = cur m)) as [->|Hne].
    + rewrite Hsk. cbn. rewrite Hk. set_solver.
    + split; [|tauto]. intros Hin'. split; [done|]. intros ->. apply Hne. by eapply (wi_unique _ H).
  - intros u. rewrite Hun. destruct (decide (u = cur m)); [simpl; lia|apply H].
  - intros u h. unfold fupd. destruct (decide (u = cur m)) as [->|]; [|done]. by rewrite Hsk.
  - intros u. unfold fupd. destruct (decide (u = cur m)) as [->|]; [|done]. by rewrite Hsk.
  - intros u. unfold fupd. destruct (decide (u = cur m)) as [->|]; [|apply H].
    pose proof (wi_own _ H (cur m)) as Hw. by rewrite Hsk in Hw.
Qed.

Lemma exec_wait_inv m m' : wait_inv m → exec m = Ret m' → stack m (cur m) ≠ [] → wait_inv m'.
Proof.
  intros H Hrun Hne. unfold exec in Hrun.
  destruct (stack m (cur m)) as [|p k] eqn:Hsk; [done|].
  assert (p ≠ P_idle → idle_thread (sch m) ≠ Some (cur m)) as Hid by (by eapply cur_not_idle).
  pose proof (wi_sched _ H) as Hok. pose proof (thread_current_run _ Hok) as Hcur.
  pose proof (wi_own _ H (cur m)) as Hown. rewrite Hsk in Hown.
  destruct p as [s|n|s|t|l|l|h|l|l|l|l|l|c l|c l|c l|r b|r b|r b|r b|r b|r b|t|t|];
    try (specialize (Hid ltac:(done))).
  - by eapply sema_down_wait.
  - injection Hrun as <-. unfold sema_try_down. destruct (0 <? value (semas m (S_client n))); cbn [snd]; [|go k].
    eapply (wait_inv_goto m _ k); [done|by apply calm_refl|done|done| |done|by rewrite Hsk..|done].
    intros s0. by apply same_waiters.
  - by eapply sema_up_wait.
  - apply bind_Ret in Hrun as (u & _ & Hrun). rewrite Hcur in Hrun. cbn [mbind outcome_bind] in Hrun.
    assert (wait_inv (goto m k)) as Hg by go k. cbn zeta in Hrun. case_match.
    + apply bind_Ret in Hrun as (s' & Hy & E). injection E as <-. apply thread_yield_inv in Hy; [|done].
      eapply (wait_inv_moved (goto m k) _ THREAD_READY); try done; auto. apply Hg.
    + injection Hrun as <-. done.
  - apply bind_Ret in Hrun as (u & _ & Hrun). destruct (policy m); injection Hrun as <-;
      first [go (P_sema_down (S_lock l) :: P_lock_holder l :: k)
            |go (P_lock_donate l :: P_sema_down (S_lock l) :: P_lock_holder l :: k)].
  - unfold lock_donate in Hrun. destruct (holder m l) as [h|] eqn:Eh; [|injection Hrun as <-; go k].
    rewrite Hcur in Hrun. cbn [mbind outcome_bind] in Hrun. apply bind_Ret in Hrun as (u & _ & Hrun).
    injection Hrun as <-. case_match; [|go k].
    eapply (wait_inv_calm m _ (P_lock_donate_to h :: k)); [done|by apply calm_refl|done|done|done|auto|by rewrite Hsk..|done|].
    intros h' [->|Hin]%elem_of_cons; [right|left; by rewrite Hsk]. intros Ei.
    destruct (wi_idle _ H h Ei) as [_ Hl]. by apply (Hl l).
  - unfold lock_donate_to in Hrun. rewrite Hcur in Hrun. cbn [mbind outcome_bind] in Hrun.
    apply bind_Ret in Hrun as (s1 & Hd & Hrun). apply bind_Ret in Hrun as (s2 & Hch & E). injection E as <-.
    assert (idle_thread (sch m) ≠ Some h) as Hih by (eapply (wi_donee _ H (cur m)); rewrite Hsk; by left).
    pose proof (donate_calm _ _ _ _ Hok Hih Hd) as Hc1.
    assert (calm s1 s2) as Hc2.
    { eapply donate_chain_calm; [apply Hc1| |exact Hch]. intros l t Hl. rewrite (st_idle _ _ (cm_steady _ _ Hc1)).
      intros Ei. destruct (wi_idle _ H t Ei) as [_ Hn]. by apply (Hn l). }
    eapply (wait_inv_calm m _ k); [done|by eapply calm_trans|done|done|done|auto|by rewrite Hsk..|done|].
    intros h' Hin. left. rewrite Hsk. by right.
  - unfold lock_holder in Hrun. rewrite Hcur in Hrun. cbn [mbind outcome_bind] in Hrun.
    assert (∀ k', unblocks k' = unblocks k → donees k' = donees k → idles k' = idles k → own (cur m) k' = true →
      wait_inv (goto (with_owned (with_holder m l (Some (cur m))) (cur m) (l :: owned m (cur m))) k')) as Hg.
    { intros k' E1 E2 E3 E4. eapply (wait_inv_calm m _ k'); [done|by apply calm_refl|done|done|done| |by rewrite Hsk..|done|].
      - intros l' t. cbn. unfold fupd. destruct (decide (l' = l)); [intros [= <-]; by right|auto].
      - intros h. rewrite E2, Hsk. auto. }
    cbn [sch with_owned with_holder] in Hrun. destruct (policy m); injection Hrun as <-; by apply Hg.
  - unfold lock_held in Hrun. rewrite Hcur in Hrun. injection Hrun as <-. go k.
  - apply bind_Ret in Hrun as (u & _ & Hrun). unfold sema_try_down in Hrun.
    destruct (0 <? value (semas m (S_lock l))); injection Hrun as <-; [|go k].
    eapply (wait_inv_goto m _ (P_lock_holder l :: k)); [done|by apply calm_refl|done|done| |done|by rewrite Hsk..|done].
    intros s0. by apply same_waiters.
  - apply bind_Ret in Hrun as (u & _ & Hrun).
    destruct (policy m); [..|]; try (injection Hrun as <-; go (P_lock_clear l :: P_sema_up (S_lock l) :: k)).
    rewrite Hcur in Hrun. injection Hrun as <-. go (P_lock_clear l :: P_sema_up (S_lock l) :: k).
  - injection Hrun as <-. eapply (wait_inv_calm m _ k); [done|by apply calm_refl|done|done|done| |by rewrite Hsk..|done|].
    + intros l' t. cbn. unfold fupd. destruct (decide (l' = l)); [done|auto].
    + intros h. rewrite Hsk. auto.
  - apply bind_Ret in Hrun as (u & _ & Hrun). injection Hrun as <-.
    eapply (wait_inv_goto m _ (P_lock_release l :: P_sema_down (S_waiter (cur m)) :: P_lock_acquire l :: k));
      [done|by apply calm_refl|done|done| |done|by rewrite Hsk..|cbn; by rewrite bool_decide_true].
    intros s0. cbn. rewrite same_waiters; [done|]. cbn [waiters].
    destruct (waiters (semas m (S_waiter (cur m)))) as [|x l'] eqn:Ew; [done|exfalso].
    assert (x ∈ waiters (semas m (S_waiter (cur m)))) as Hin by (rewrite Ew; by left).
    destruct (wi_wait _ H _ _ Hin) as (_ & _ & Hhd & _). pose proof (wi_own _ H x) as Ho.
    destruct (stack m x) as [|q kx]; [done|]. injection Hhd as ->. cbn in Ho.
    apply andb_true_iff in Ho as [<-%bool_decide_eq_true _]. by apply (cur_not_waiting m _ H) in Hin.
  - apply bind_Ret in Hrun as (u & _ & Hrun). destruct (conds m c) as [|w ws]; [injection Hrun as <-; go k|].
    apply bind_Ret in Hrun as (t & _ & Hrun). injection Hrun as <-. go (P_sema_up (S_waiter t) :: k).
  - unfold cond_broadcast in Hrun. destruct (conds m c) as [|w ws]; injection Hrun as <-;
      [go k|go (P_cond_signal c l :: P_cond_broadcast c l :: k)].
  - injection Hrun as <-. destruct (if b then 0 <? AW (rws m r) + WW (rws m r) else 0 <? AR (rws m r) + AW (rws m r));
      [go (P_rw_wait r b :: k)|go (P_rw_enter r b :: P_lock_release (L_rw r) :: k)].
  - injection Hrun as <-. go (P_cond_wait (rw_cond r b) (L_rw r) :: P_rw_woken r b :: k).
  - injection Hrun as <-. go (P_rw_test r b :: k).
  - injection Hrun as <-. go k.
  - injection Hrun as <-. go (P_rw_wake r b :: P_lock_release (L_rw r) :: k).
  - injection Hrun as <-. repeat case_match; first [go k|go (P_cond_signal (C_write r) (L_rw r) :: k)|
      go (P_cond_broadcast (C_read r) (L_rw r) :: k)].
  - injection Hrun as <-. eapply (wait_inv_goto m _ k); [done| |done|done|done|done|by rewrite Hsk..|done].
    apply calm_similar; [done|].
    apply (similar_trans _ (upd (sch m) t (λ r, with_tid r (next_tid (sch m))))); [by apply similar_upd|done].
  - by eapply unblock_wait.
  - apply bind_Ret in Hrun as (s' & Hb & E). injection E as <-. apply thread_block_inv in Hb; [|done].
    eapply (wait_inv_moved m _ THREAD_BLOCKED); try done; auto; [apply H|].
    intros _. left. apply (wi_loop _ H). by rewrite Hsk.
Qed.

(** A state the scheduler changed, the rest as before. *)
Lemma wait_inv_sch_moved m s' st : wait_inv m → moved (sch m) s' st → st ≠ THREAD_BLOCKED →
  (st = THREAD_DYING → stack m (cur m) = []) → wait_inv (with_sch m s').
Proof.
  intros H Hmv Hst Hd. eapply (wait_inv_moved m _ st); try done; auto. apply H.
Qed.

Lemma wait_inv_sch_calm m s' : wait_inv m → calm (sch m) s' → wait_inv (with_sch m s').
Proof.
  intros H Hc. apply (wait_inv_calm m _ (stack m (cur m))); [done|done|done| |done|auto|done|done|apply H|auto].
  intros t. cbn. unfold fupd. by destruct (decide (t = cur m)) as [->|].
Qed.

Lemma wait_inv_slept m s' : wait_inv m → slept (sch m) s' → wait_inv (with_sch m s').
Proof.
  intros H [Hok Hsd Hsl Hold Hne Hma Hoth Hnext]. pose proof (st_idle _ _ Hsd) as Hi.
  destruct (wi_cur _ H) as [Hmc Hrc].
  assert (∀ t, magic (th (sch m) t) = true → status (th (sch m) t) = THREAD_BLOCKED →
    idle_thread (sch m) ≠ Some t → status (th s' t) = THREAD_BLOCKED ∧ t ≠ cur m) as Hkeep.
  { intros t Hm Hb Hid. assert (t ≠ cur m) by congruence. split; [|done]. rewrite Hoth; [done..|].
    intros ->. destruct Hnext as [E|E]; [|done]. destruct (wi_sched _ H) as [Hsh _ _].
    apply (sh_ready _ _ Hsh) in E as [_ E]. congruence. }
  constructor; cbn [sch with_sch stack semas holder]; rewrite ?Hi.
  - done.
  - intros t. rewrite Hma. apply H.
  - apply H.
  - apply H.
  - apply H.
  - intros s t Hin. destruct (wi_wait _ H s t Hin) as (Hm & Hb & Hhd & Hns). rewrite Hma, Hsl, elem_of_cons.
    destruct (Hkeep t Hm Hb) as [? ?]; [|split_and!; tauto].
    intros Ei. destruct (wi_idle _ H t Ei) as [E _]. by rewrite E in Hhd.
  - apply H.
  - intros u t Hin. destruct (wi_embryo _ H u t Hin) as (Hm & Hb & Hsk & Hns & Hid).
    rewrite Hma, Hsl, elem_of_cons. destruct (Hkeep t Hm Hb Hid) as [? ?]. split_and!; tauto.
  - apply H.
  - apply H.
  - apply (wi_donee _ H).
  - intros t. rewrite Hma, Hsl, elem_of_cons. intros Hm Hb.
    destruct (decide (t = cur m)) as [->|Hn]; [auto|].
    destruct (decide (t = current s')) as [->|Hn']; [destruct Hok as [_ _ ?]; congruence|].
    rewrite Hoth in Hb by done. destruct (wi_blocked _ H t Hm Hb) as [?|[?|[?|?]]]; auto.
Qed.

Lemma create_wait m t p m' : wait_inv m → stack m (cur m) = [] → magic (th (sch m) t) = false →
  thread_create m t p = Ret m' → wait_inv m'.
Proof.
  intros H Hsk Hm Hrun. unfold thread_create in Hrun. apply bind_Ret in Hrun as (s' & Hi & E).
  injection E as <-. destruct (init_thread_inv _ _ _ _ (wi_sched _ H) Hm Hi) as (Hok & Hsd & Hc & Hsl & Hne & Hmt & Hbt).
  pose proof (st_idle _ _ Hsd) as Hid. destruct (wi_cur _ H) as [Hmc Hrc].
  assert (t ≠ cur m) as Htc by congruence. pose proof (wi_dead _ H t Hm) as Htk.
  set (k := [P_lock_acquire L_tid; P_take_tid t; P_lock_release L_tid; P_unblock t; P_yield_to t]).
  set (m' := goto _ k).
  assert (∀ u, stack m' u = if decide (u = cur m) then k else stack m u) as Hst.
  { intros u. unfold m'. cbn. rewrite Hc. unfold fupd. destruct (decide (u = cur m)); [done|].
    by destruct (decide (u = t)) as [->|]. }
  assert (∀ u x, x ∈ unblocks (stack m' u) ↔ x ∈ unblocks (stack m u) ∨ u = cur m ∧ x = t) as Hub.
  { intros u x. rewrite Hst. destruct (decide (u = cur m)) as [->|]; [|naive_solver].
    rewrite Hsk. cbn. set_solver. }
  assert (∀ u, t ∉ unblocks (stack m u)) as Hnu.
  { intros u Hin. destruct (wi_embryo _ H u t Hin) as (? & _). congruence. }
  assert (idle_thread (sch m) ≠ Some t) as Hit.
  { intros Ei. destruct (wi_idle _ H t Ei) as [E _]. congruence. }
  assert (idle_thread (sch m) ≠ Some (cur m)) as Hic.
  { intros Ei. destruct (wi_idle _ H _ Ei) as [E _]. congruence. }
  constructor; change (sch m') with s'; rewrite ?Hid, ?Hsl.
  - done.
  - intros x Hx. rewrite Hst. destruct (decide (x = cur m)) as [->|]; [rewrite Hne in Hx by done; congruence|].
    apply (wi_dead _ H). destruct (decide (x = t)) as [->|]; [congruence|]. by rewrite Hne in Hx.
  - intros i Ei. rewrite Hst, decide_False by congruence. apply (wi_idle _ H i Ei).
  - intros x. rewrite Hst. destruct (decide (x = cur m)); [done|]. apply (wi_loop _ H).
  - intros x. rewrite Hst. destruct (decide (x = cur m)); [done|]. apply (wi_own _ H).
  - intros s x Hin. change (x ∈ waiters (semas m s)) in Hin.
    destruct (wi_wait _ H s x Hin) as (?&?&?&?). rewrite Hst, decide_False by congruence.
    rewrite Hne by congruence. done.
  - apply H.
  - intros u x. rewrite Hub. intros [Hin|[-> ->]].
    + destruct (wi_embryo _ H u x Hin) as (?&?&?&?&?). rewrite Hst, decide_False by congruence.
      rewrite Hne by congruence. done.
    + rewrite Hst, decide_False by done. split_and!; try done.
      intros Hin. destruct (wi_sched _ H) as [Hsh _ _]. apply (sh_sleep _ _ Hsh) in Hin as [? _]. congruence.
  - intros u u' x. rewrite !Hub. intros [H1|[-> ->]] [H2|[-> E]]; [by eapply (wi_unique _ H)|subst|..|done].
    + by apply Hnu in H1.
    + by apply Hnu in H2.
  - intros u. rewrite Hst. destruct (decide (u = cur m)); [simpl; lia|apply H].
  - intros u h. rewrite Hst. destruct (decide (u = cur m)); [set_solver|apply (wi_donee _ H)].
  - intros x. destruct (decide (x = t)) as [->|Hxt].
    + intros _ _. right. right. left. exists (cur m). rewrite Hub. auto.
    + rewrite Hne by done. intros Hmx Hbx. destruct (wi_blocked _ H x Hmx Hbx) as [?|[?|[[u Hu]|?]]]; auto.
      right. right. left. exists u. rewrite Hub. auto.
Qed.

Lemma call_wait_inv m a m' : wait_inv m → stack m (cur m) = [] →
  (∀ t p, a = A_create t p → magic (th (sch m) t) = false) → call m a = Ret m' → wait_inv m'.
Proof.
  intros H Hsk Hcr Hrun. pose proof (wi_sched _ H) as Hok. pose proof (thread_current_run _ Hok) as Hcur.
  assert (idle_thread (sch m) ≠ Some (cur m)) as Hid.
  { intros Ei. destruct (wi_idle _ H _ Ei) as [E _]. congruence. }
  destruct a as [n|n|n|n|n|n|n l|n l|n l|r b|r b|t p| | |p|n|n]; cbn [call] in Hrun.
  1-11: injection Hrun as <-; match goal with |- wait_inv (goto _ ?k') =>
    eapply (wait_inv_goto m _ k'); [done|by apply calm_refl|done|done|done|done|by rewrite Hsk..|done] end.
  - eapply create_wait; [done|done|by eapply Hcr|done].
  - apply bind_Ret in Hrun as (s' & He & E). injection E as <-. apply thread_exit_inv in He; [|done|done].
    by eapply wait_inv_sch_moved.
  - apply bind_Ret in Hrun as (s' & He & E). injection E as <-. apply thread_yield_inv in He; [|done].
    by eapply wait_inv_sch_moved.
  - unfold thread_set_priority in Hrun. rewrite Hcur in Hrun. cbn [mbind outcome_bind] in Hrun.
    destruct (policy m).
    + injection Hrun as <-. apply wait_inv_sch_calm; [done|]. by apply calm_upd.
    + set (s1 := upd (sch m) (cur m) _) in Hrun. set (s2 := upd s1 (cur m) _) in Hrun.
      assert (calm (sch m) s1) as Hc1 by (by apply calm_upd).
      assert (calm (sch m) s2) as Hc2 by (eapply calm_trans; [exact Hc1|by apply (calm_upd s1); [apply Hc1|]]).
      pose proof (wait_inv_sch_calm m s2 H Hc2) as H2.
      destruct (priority_ready_list s2); [injection Hrun as <-; exact H2|].
      case_match; [|injection Hrun as <-; exact H2].
      apply bind_Ret in Hrun as (s' & He & E). injection E as <-. apply thread_yield_inv in He; [|apply Hc2].
      apply (wait_inv_sch_moved (with_sch m s2) s' THREAD_READY H2 He); done.
    + injection Hrun as <-. apply wait_inv_sch_calm; [done|]. by apply calm_upd.
    + by injection Hrun as <-.
  - unfold thread_set_nice in Hrun. apply bind_Ret in Hrun as (s' & He & E). injection E as <-.
    apply bind_Ret in He as (u & _ & He). rewrite Hcur in He. cbn [mbind outcome_bind] in He.
    set (s1 := upd (sch m) (cur m) _) in He. assert (calm (sch m) s1) as Hc1 by (by apply calm_upd).
    destruct (active_sched_policy s1); try (injection He as <-; by apply wait_inv_sch_calm).
    apply bind_Ret in He as (s2 & Hs2 & He). apply mlfqs_priority_similar in Hs2.
    assert (calm (sch m) s2) as Hc2 by (eapply calm_trans; [exact Hc1|apply calm_similar; [apply Hc1|done]]).
    pose proof (wait_inv_sch_calm m s2 H Hc2) as H2. apply thread_yield_inv in He; [|apply Hc2].
    apply (wait_inv_sch_moved (with_sch m s2) s' THREAD_READY H2 He); done.
  - apply bind_Ret in Hrun as (s' & He & E). injection E as <-. apply timer_sleep_inv in He; [|done|done].
    by apply wait_inv_slept.
Qed.

Lemma tick_wait_inv m m' : wait_inv m → tick m = Ret m' → wait_inv m'.
Proof.
  intros H Hrun. apply bind_Ret in Hrun as (s' & Hi & E). injection E as <-.
  unfold intr_handler_timer in Hi. apply bind_Ret in Hi as (s1 & Ht & Hi).
  assert (ticked (sch m) s1) as Htk.
  { eapply ticked_similar; [|apply timer_interrupt_inv, Ht; eapply similar_ok, H]; done. }
  pose proof (wait_inv_ticked _ _ H Htk) as H1.
  destruct (yield_on_return s1); [|by injection Hi as <-]. apply thread_yield_inv in Hi; [|apply Htk].
  apply (wait_inv_sch_moved (with_sch m s1) s' THREAD_READY H1 Hi); done.
Qed.

Lemma intr_up_wait_inv m n m' : wait_inv m → intr_sema_up m n = Ret m' → wait_inv m'.
Proof. intros H ([w m1] & (? & _)%wait_inv_up & E)%bind_Ret; [|done]. by injection E as <-. Qed.

Lemma boot_threads_spec t :
  (t = 1%nat ∧ magic (boot_threads t) = true ∧ status (boot_threads t) = THREAD_RUNNING) ∨
  (t = 2%nat ∧ magic (boot_threads t) = true ∧ status (boot_threads t) = THREAD_BLOCKED) ∨
  (t ≠ 1%nat ∧ t ≠ 2%nat ∧ magic (boot_threads t) = false).
Proof.
  unfold boot_threads, fupd. destruct (decide (t = 2%nat)) as [->|]; [auto|].
  destruct (decide (t = 1%nat)) as [->|]; [auto|]. right. right. done.
Qed.

Lemma boot_wait_inv p f : wait_inv (boot p f).
Proof.
  assert (∀ t, stack (boot p f) t = if decide (t = 2%nat) then [P_idle] else []) as Hst by done.
  assert (ready (boot_sched p f) = []) as Hr by (by destruct p).
  constructor; cbn [boot sch semas holder].
  - constructor; [|done|done]. constructor; rewrite ?Hr; try done.
    + intros t. cbn. destruct (boot_threads_spec t) as [(->&_)|[(->&_&->)|(_&_&->)]]; done.
    + intros t ?%not_elem_of_nil. done.
    + intros t. cbn. destruct (boot_threads_spec t) as [(->&_&->)|[(->&_&->)|(_&_&->)]]; done.
    + constructor.
    + exists 2%nat. cbn. split_and!; [done|done|set_solver|set_solver|done].
    + intros t ?%not_elem_of_nil. done.
    + constructor.
    + intros _. constructor.
  - intros t. rewrite Hst. cbn. destruct (boot_threads_spec t) as [(->&->&_)|[(->&->&_)|(_&?&_)]]; [done..|].
    by rewrite decide_False.
  - intros i [= <-]. rewrite Hst. done.
  - intros t. rewrite Hst. cbn. by destruct (decide (t = 2%nat)) as [->|].
  - intros t. rewrite Hst. by destruct (decide (t = 2%nat)) as [->|].
  - intros s t Hin. exfalso. destruct s; by apply not_elem_of_nil in Hin.
  - intros s. destruct s; constructor.
  - intros u t Hin. exfalso. rewrite Hst in Hin. by destruct (decide (u = 2%nat)); apply not_elem_of_nil in Hin.
  - intros u u' t Hin. exfalso. rewrite Hst in Hin. by destruct (decide (u = 2%nat)); apply not_elem_of_nil in Hin.
  - intros u. rewrite Hst. destruct (decide (u = 2%nat)); simpl; lia.
  - intros u h Hin. exfalso. rewrite Hst in Hin. by destruct (decide (u = 2%nat)); apply not_elem_of_nil in Hin.
  - intros t. cbn. destruct (boot_threads_spec t) as [(->&_&->)|[(->&_&->)|(_&_&->)]]; [done| |done]. auto.
Qed.

(** ** The policy never changes *)

Lemma unblock_steady s t s' : thread_unblock s t = Ret s' → steady s s'.
Proof.
  unfold thread_unblock, thread_enqueue. intros H. outcome_inv. by destruct (active_sched_policy s) eqn:E.
Qed.

Lemma exec_steady m m' : wait_inv m → exec m = Ret m' → steady (sch m) (sch m').
Proof.
  intros H Hrun. unfold exec in Hrun. pose proof (wi_sched _ H) as Hok.
  pose proof (thread_current_run _ Hok) as Hcur.
  destruct (stack m (cur m)) as [|p k] eqn:Hsk; [by injection Hrun as <-|].
  assert (p ≠ P_idle → idle_thread (sch m) ≠ Some (cur m)) as Hid by (by eapply cur_not_idle).
  destruct p as [s|n|s|t|l|l|h|l|l|l|l|l|c l|c l|c l|r b|r b|r b|r b|r b|r b|t|t|].
  - unfold sema_down in Hrun. rewrite Hcur in Hrun. case_match; [|by injection Hrun as <-].
    cbn [mbind outcome_bind] in Hrun. apply bind_Ret in Hrun as (s' & Hb & E). injection E as <-. by apply thread_block_inv in Hb as [].
  - injection Hrun as <-. unfold sema_try_down. by case_match.
  - apply bind_Ret in Hrun as ([w m1] & Hu & E). injection E as <-. unfold sema_up_off in Hu. case_match.
    + apply bind_Ret in Hu as (s' & Hu & E). injection E as <- <-. by apply unblock_steady in Hu.
    + by injection Hu as <- <-.
  - apply bind_Ret in Hrun as (u & _ & Hrun). rewrite Hcur in Hrun. cbn [mbind outcome_bind] in Hrun.
    cbn zeta in Hrun. case_match; [|by injection Hrun as <-].
    apply bind_Ret in Hrun as (s' & Hb & E). injection E as <-. by apply thread_yield_inv in Hb as [].
  - apply bind_Ret in Hrun as (u & _ & Hrun). destruct (policy m); by injection Hrun as <-.
  - unfold lock_donate in Hrun. rewrite Hcur in Hrun. cbn [mbind outcome_bind] in Hrun.
    destruct (holder m l); [apply bind_Ret in Hrun as (u & _ & Hrun)|]; by injection Hrun as <-.
  - unfold lock_donate_to in Hrun. rewrite Hcur in Hrun. cbn [mbind outcome_bind] in Hrun.
    apply bind_Ret in Hrun as (s1 & Hd & Hrun). apply bind_Ret in Hrun as (s2 & Hch & E). injection E as <-.
    assert (idle_thread (sch m) ≠ Some h) as Hih by (eapply (wi_donee _ H (cur m)); rewrite Hsk; by left).
    pose proof (donate_calm _ _ _ _ Hok Hih Hd) as Hc1.
    assert (calm s1 s2) as Hc2.
    { eapply donate_chain_calm; [apply Hc1| |exact Hch]. intros l t Hl. rewrite (st_idle _ _ (cm_steady _ _ Hc1)).
      intros Ei. destruct (wi_idle _ H t Ei) as [_ Hn]. by apply (Hn l). }
    eapply steady_trans; [apply Hc1|apply Hc2].
  - unfold lock_holder in Hrun. rewrite Hcur in Hrun. cbn [mbind outcome_bind sch with_owned with_holder] in Hrun.
    destruct (policy m); by injection Hrun as <-.
  - unfold lock_held in Hrun. rewrite Hcur in Hrun. by injection Hrun as <-.
  - apply bind_Ret in Hrun as (u & _ & Hrun). unfold sema_try_down in Hrun.
    destruct (0 <? value (semas m (S_lock l))); by injection Hrun as <-.
  - apply bind_Ret in Hrun as (u & _ & Hrun). rewrite Hcur in Hrun. destruct (policy m); by injection Hrun as <-.
  - by injection Hrun as <-.
  - apply bind_Ret in Hrun as (u & _ & Hrun). by injection Hrun as <-.
  - apply bind_Ret in Hrun as (u & _ & Hrun). destruct (conds m c); [by injection Hrun as <-|].
    apply bind_Ret in Hrun as (t & _ & Hrun). by injection Hrun as <-.
  - unfold cond_broadcast in Hrun. destruct (conds m c); by injection Hrun as <-.
  - by injection Hrun as <-.
  - by injection Hrun as <-.
  - by injection Hrun as <-.
  - by injection Hrun as <-.
  - by injection Hrun as <-.
  - by injection Hrun as <-.
  - by injection Hrun as <-.
  - apply bind_Ret in Hrun as (s' & Hu & E). injection E as <-. by apply unblock_steady in Hu.
  - apply bind_Ret in Hrun as (s' & Hb & E). injection E as <-. by apply thread_block_inv in Hb as [].
Qed.

Lemma call_steady m a m' : wait_inv m → stack m (cur m) = [] → call m a = Ret m' → steady (sch m) (sch m').
Proof.
  intros H Hsk Hrun. pose proof (wi_sched _ H) as Hok. pose proof (thread_current_run _ Hok) as Hcur.
  assert (idle_thread (sch m) ≠ Some (cur m)) as Hid.
  { intros Ei. destruct (wi_idle _ H _ Ei) as [E _]. congruence. }
  destruct a as [n|n|n|n|n|n|n l|n l|n l|r b|r b|t p| | |p|n|n]; cbn [call] in Hrun; try (by injection Hrun as <-).
  - apply bind_Ret in Hrun as (s' & Hi & E). injection E as <-.
    apply bind_Ret in Hi as (u & _ & E). by injection E as <-.
  - apply bind_Ret in Hrun as (s' & Hb & E). injection E as <-. by apply thread_exit_inv in Hb as [].
  - apply bind_Ret in Hrun as (s' & Hb & E). injection E as <-. by apply thread_yield_inv in Hb as [].
  - unfold thread_set_priority in Hrun. rewrite Hcur in Hrun. cbn [mbind outcome_bind] in Hrun.
    destruct (policy m); try (by injection Hrun as <-).
    set (s1 := upd (sch m) (cur m) _) in Hrun. set (s2 := upd s1 (cur m) _) in Hrun.
    assert (calm (sch m) s1) as Hc1 by (by apply calm_upd).
    assert (calm s1 s2) as Hc2 by (by apply (calm_upd s1); [apply Hc1|]).
    destruct (priority_ready_list s2); [by injection Hrun as <-|].
    case_match; [|by injection Hrun as <-].
    apply bind_Ret in Hrun as (s' & He & E). injection E as <-. apply thread_yield_inv in He as []; [|apply Hc2].
    eapply steady_trans; [apply Hc1|]. by eapply steady_trans; [apply Hc2|].
  - apply bind_Ret in Hrun as (s' & He & E). injection E as <-. unfold thread_set_nice in He.
    apply bind_Ret in He as (u & _ & He). rewrite Hcur in He. cbn [mbind outcome_bind] in He.
    set (s1 := upd (sch m) (cur m) _) in He. assert (calm (sch m) s1) as Hc1 by (by apply calm_upd).
    destruct (active_sched_policy s1); try (by injection He as <-).
    apply bind_Ret in He as (s2 & Hs2%mlfqs_priority_similar & He).
    apply thread_yield_inv in He as []; [|by eapply similar_ok, Hc1].
    eapply steady_trans; [apply Hc1|]. by eapply steady_trans; [apply Hs2|].
  - apply bind_Ret in Hrun as (s' & He & E). injection E as <-. by apply timer_sleep_inv in He as [].
Qed.

Lemma tick_steady m m' : wait_inv m → tick m = Ret m' → steady (sch m) (sch m').
Proof.
  intros H Hrun. apply bind_Ret in Hrun as (s' & Hi & E). injection E as <-.
  unfold intr_handler_timer in Hi. apply bind_Ret in Hi as (s1 & Ht & Hi).
  assert (ticked (sch m) s1) as Htk.
  { eapply ticked_similar; [|apply timer_interrupt_inv, Ht; eapply similar_ok, H]; done. }
  destruct (yield_on_return s1); [|injection Hi as <-; apply Htk]. apply thread_yield_inv in Hi as []; [|apply Htk].
  by eapply steady_trans; [apply Htk|].
Qed.

Lemma step_steady m m' : wait_inv m → step m m' → steady (sch m) (sch m').
Proof.
  intros H Hs. inversion Hs as [? ? Hne He|? ? Ht|? n ? Hi|? a ? Hsk Hcr Hrw Hc]; subst.
  - by apply exec_steady.
  - by apply tick_steady.
  - apply bind_Ret in Hi as ([w m1] & Hu & E). injection E as <-. unfold sema_up_off in Hu. case_match.
    + apply bind_Ret in Hu as (s' & Hu & E). injection E as <- <-. by apply unblock_steady in Hu.
    + by injection Hu as <- <-.
  - by eapply call_steady.
Qed.

(** ** Reachable states *)

Lemma reachable_inv p f m : reachable p f m → lock_inv m ∧ wait_inv m.
Proof.
  induction 1 as [|m m' Hr [Hl Hw] Hs]; [split; [apply boot_lock_inv|apply boot_wait_inv]|].
  inversion Hs as [? ? Hne He|? ? Ht|? n ? Hi|? a ? Hsk Hcr Hrw Hc]; subst; split.
  - by eapply exec_lock_inv.
  - by eapply exec_wait_inv.
  - by eapply tick_lock_inv.
  - by eapply tick_wait_inv.
  - by eapply intr_up_lock_inv.
  - by eapply intr_up_wait_inv.
  - eapply call_lock_inv; [done|done| |done]. intros t q ->. apply (wi_dead _ Hw). by eapply Hcr.
  - by eapply call_wait_inv.
Qed.

(** C2. Mutual exclusion.  In every state the machine reaches, under every scheduling
    policy and whatever the threads call, preempt and interrupt, two threads that have
    both returned from [lock_acquire] (or from a successful [lock_try_acquire]) on a
    lock without having released it are the same thread, which is the lock's
    recorded holder, and the lock's semaphore is down. *)
Theorem lock_mutual_exclusion p f m l t t' :
  reachable p f m → l ∈ owned m t → l ∈ owned m t' →
  t = t' ∧ holder m l = Some t ∧ value (semas m (S_lock l)) = 0.
Proof.
  intros [Hl _]%reachable_inv Ht Ht'. pose proof (li_owned _ Hl _ _ Ht) as E.
  pose proof (li_owned _ Hl _ _ Ht') as E'. split; [congruence|]. split; [done|].
  destruct (li_lock _ Hl l) as [(_&?&_)|[(?&_)|(?&?&_)]]; [congruence|done|done].
Qed.

(** C7. Every thread is where its status says.  In every reachable state one thread
    runs, a ready thread is in the ready queue of the active policy (or is the idle
    thread) exactly once, a thread in a semaphore's queue is blocked inside
    [sema_down] on that semaphore and in no other queue, and a blocked thread waits on
    a semaphore, sleeps, is still being created, or is the idle thread: none is lost. *)
Theorem threads_accounted_for p f m : reachable p f m →
  (∀ t, magic (th (sch m) t) = true →
    match status (th (sch m) t) with
    | THREAD_RUNNING => t = cur m
    | THREAD_READY => t ∈ ready (sch m) ∨ idle_thread (sch m) = Some t
    | THREAD_BLOCKED => (∃ s, t ∈ waiters (semas m s)) ∨ t ∈ sleeping_threads (sch m) ∨
        (∃ u, P_unblock t ∈ stack m u) ∨ idle_thread (sch m) = Some t
    | THREAD_DYING => True
    end) ∧
  NoDup (ready (sch m)) ∧
  (∀ t, t ∈ ready (sch m) → magic (th (sch m) t) = true ∧ status (th (sch m) t) = THREAD_READY) ∧
  (∀ s t, t ∈ waiters (semas m s) →
     status (th (sch m) t) = THREAD_BLOCKED ∧ list.head (stack m t) = Some (P_sema_down s) ∧
     t ∉ sleeping_threads (sch m) ∧ NoDup (waiters (semas m s)) ∧
     ∀ s', t ∈ waiters (semas m s') → s' = s).
Proof.
  intros [_ H]%reachable_inv. destruct (wi_sched _ H) as [Hsh Hm Hr]. split_and!.
  - intros t Ht. destruct (status (th (sch m) t)) eqn:E.
    + by apply (sh_run _ _ Hsh).
    + by apply (sh_all _ _ Hsh).
    + destruct (wi_blocked _ H t Ht E) as [?|[?|[[u Hu]|?]]]; auto. right. right. left. exists u.
      by apply unblocks_in.
    + done.
  - apply Hsh.
  - apply Hsh.
  - intros s t Hin. destruct (wi_wait _ H s t Hin) as (_ & ? & Hhd & ?). split_and!; try done; [apply H|].
    intros s' Hin'. destruct (wi_wait _ H s' t Hin') as (_ & _ & Hhd' & _). congruence.
Qed.

Lemma reachable_policy p f m : reachable p f m →
  policy m = p ∧ active_fair_sched_type (sch m) = f ∧ idle_thread (sch m) = Some 2%nat.
Proof.
  induction 1 as [|m m' Hr (Hp & Hf & Hi) Hs]; [done|]. destruct (reachable_inv _ _ _ Hr) as [_ Hw].
  destruct (step_steady _ _ Hw Hs) as [E1 E2 E3 _]. split_and!; congruence.
Qed.

(** C26. Under the priority policy, in every reachable state the ready queue is in
    decreasing order of effective priority, donations included, and the thread a
    switch takes from it has an effective priority no ready thread exceeds. *)
Theorem priority_queue_sorted f m : reachable SCHED_PRIO f m →
  StronglySorted (higher (sch m)) (priority_ready_list (sch m)) ∧
  ∀ t l, priority_ready_list (sch m) = t :: l →
    next_thread_to_run (sch m) = Ret (Some t, with_priority_ready_list (sch m) l) ∧
    ∀ x, magic (th (sch m) x) = true → status (th (sch m) x) = THREAD_READY →
      idle_thread (sch m) ≠ Some x → eff_priority (th (sch m) x) ≤ eff_priority (th (sch m) t).
Proof.
  intros Hr. destruct (reachable_policy _ _ _ Hr) as (Hp & _). destruct (reachable_inv _ _ _ Hr) as [_ H].
  destruct (wi_sched _ H) as [Hsh _ _].
  assert (ready (sch m) = priority_ready_list (sch m)) as E by (unfold ready; by rewrite Hp).
  pose proof (sh_prio _ _ Hsh Hp) as Hs. rewrite E in Hs. split; [done|]. intros t l El. split.
  - unfold next_thread_to_run, thread_schedule_prio. by rewrite Hp, El.
  - intros x Hm Hx Hi. destruct (sh_all _ _ Hsh x Hm Hx) as [Hin|]; [|done]. rewrite E, El in Hin.
    rewrite El in Hs. apply StronglySorted_inv in Hs as [_ Hs]. rewrite list.Forall_forall in Hs.
    apply elem_of_cons in Hin as [->|Hin]; [done|by apply Hs].
Qed.

End SynchSched.
