(* ===== verification/SynchRw.v ===== *)
(** * Synchronisation: readers-writers locks

    In every reachable state a thread inside a readers-writers lock as a writer is
    alone in it.  The invariant has two halves: the code a thread is left with takes
    and gives back the inner lock in pairs and touches the counters only in between
    ([guard]), and the counters count the threads inside. *)

From stdpp Require Import base tactics numbers list option.
From S2P Require Import Prelude KList KListProofs ThreadState Thread ThreadProofs Synch SynchProofs SynchSched.

Module SynchRw.
Import ThreadState Thread Synch SynchProofs SynchSched.

(** ** Code *)

(** Whether a control point needs the inner lock of [r] or needs not to have it, and
    whether the thread has it once that control point's code is over. *)
Definition effect (r : nat) (p : point) : option (bool * bool) :=
  match p with
  | P_lock_acquire l | P_lock_holder l => if decide (l = L_rw r) then Some (false, true) else None
  | P_lock_release l | P_lock_clear l => if decide (l = L_rw r) then Some (true, false) else None
  | P_cond_wait _ l => if decide (l = L_rw r) then Some (true, true) else None
  | P_rw_test r' _ | P_rw_wait r' _ | P_rw_woken r' _ | P_rw_leave r' _ =>
      if decide (r' = r) then Some (true, false) else None
  | P_rw_enter r' _ | P_rw_wake r' _ => if decide (r' = r) then Some (true, true) else None
  | _ => None
  end.

Definition tries (r : nat) (p : point) : bool :=
  match p with P_lock_try_acquire l => bool_decide (l = L_rw r) | _ => false end.

(** Code that a thread can run from a state where [h] says whether it has the inner
    lock of [r]. *)
Fixpoint guard (r : nat) (h : bool) (k : list point) : bool :=
  match k with
  | [] => negb h
  | p :: k =>
      negb (tries r p) &&
      match effect r p with
      | None => guard r h k
      | Some (pre, post) => Bool.eqb h pre && guard r post k
      end
  end.

(** Control points of the readers-writers functions. *)
Definition is_rw (p : point) : bool :=
  match p with
  | P_rw_test _ _ | P_rw_wait _ _ | P_rw_woken _ _ | P_rw_enter _ _ | P_rw_leave _ _ | P_rw_wake _ _ => true
  | _ => false
  end.
Definition is_enter (p : point) : bool := match p with P_rw_enter _ _ => true | _ => false end.

Fixpoint rw_points (k : list point) : nat :=
  match k with [] => 0 | p :: k => (if is_rw p then 1 else 0) + rw_points k end.

Lemma rw_points_app k k' : rw_points (k ++ k') = (rw_points k + rw_points k')%nat.
Proof. induction k as [|p k IH]; cbn; [done|]. rewrite IH. lia. Qed.

Lemma rw_points_none p k : rw_points k = 0%nat → p ∈ k → is_rw p = false.
Proof.
  induction k as [|q k IH]; cbn; intros H Hin; [by apply not_elem_of_nil in Hin|].
  apply elem_of_cons in Hin as [->|Hin]; [by destruct (is_rw q)|]. apply IH; [|done]. destruct (is_rw q); lia.
Qed.

(** ** The invariant *)

(** The threads inside [r] in a mode. *)
Definition count_in (b : bool) (l : list (tptr * bool)) : Z :=
  Z.of_nat (length (filter (λ e, e.2 = b) l)).

(** The counter of the threads in [cond_wait] counts them. *)
Definition waiting (b : bool) (w : rw_lock) : Z := if b then WR w else WW w.
Definition waiting_ok (m : machine) (r : nat) (b : bool) : Prop :=
  ∃ l, NoDup l ∧ waiting b (rws m r) = Z.of_nat (length l) ∧ ∀ t, t ∈ l ↔ P_rw_woken r b ∈ stack m t.

Record rw_inv (m : machine) : Prop := mk_rw_inv {
  ri_guard t r : guard r (bool_decide (L_rw r ∈ owned m t)) (stack m t) = true;
  ri_once t : (rw_points (stack m t) ≤ 1)%nat;
  ri_tail t p : p ∈ tail (stack m t) → is_enter p = false;
  ri_count r : AR (rws m r) = count_in true (inside m r) ∧ AW (rws m r) = count_in false (inside m r);
  ri_excl r : AW (rws m r) ≤ 1 ∧ (AW (rws m r) = 1 → AR (rws m r) = 0);
  ri_enter t r b : list.head (stack m t) = Some (P_rw_enter r b) →
    AW (rws m r) = 0 ∧ (b = false → AR (rws m r) = 0);
  ri_leave t r b : P_rw_leave r b ∈ stack m t → (t, b) ∈ inside m r;
  ri_waiting r b : waiting_ok m r b }.

Lemma waiting_ok_same m m' r b : waiting_ok m r b → waiting b (rws m' r) = waiting b (rws m r) →
  (∀ t, P_rw_woken r b ∈ stack m' t ↔ P_rw_woken r b ∈ stack m t) → waiting_ok m' r b.
Proof.
  intros (l & Hn & Hl & Hs) E Hst. exists l. split; [done|]. split; [congruence|]. intros t. by rewrite Hst.
Qed.


(** Whoever runs a readers-writers function past its [lock_acquire] has the inner lock. *)
Lemma rw_has m t r p k post : rw_inv m → stack m t = p :: k → effect r p = Some (true, post) →
  L_rw r ∈ owned m t ∧ guard r post k = true.
Proof.
  intros H Hst He. pose proof (ri_guard _ H t r) as Hg. rewrite Hst in Hg. cbn in Hg. rewrite He in Hg.
  apply andb_prop in Hg as [_ Hg]. apply andb_prop in Hg as [Hg ?]. split; [|done].
  apply eqb_prop in Hg. by apply bool_decide_eq_true in Hg.
Qed.

(** Only the scheduler, the semaphores, the conditions or the holders change. *)
Lemma rw_inv_same m m' : rw_inv m → (∀ t, stack m' t = stack m t) → owned m' = owned m →
  rws m' = rws m → inside m' = inside m → rw_inv m'.
Proof.
  intros [H1 H2 H3 H4 H5 H6 H7 H8] Hs Ho Hr Hi. constructor; intros *; rewrite ?Hs, ?Ho, ?Hr, ?Hi; eauto.
  apply (waiting_ok_same m); [done|by rewrite Hr|]. intros t. by rewrite Hs.
Qed.

(** The running thread goes on with [k'], and the counters of those inside stay. *)
Lemma rw_inv_code m m' k' : rw_inv m →
  (∀ t, stack m' t = fupd (stack m) (cur m) k' t) →
  (∀ t, t ≠ cur m → owned m' t = owned m t) →
  (∀ r, AR (rws m' r) = AR (rws m r) ∧ AW (rws m' r) = AW (rws m r)) → inside m' = inside m →
  (∀ r, guard r (bool_decide (L_rw r ∈ owned m' (cur m))) k' = true) →
  (rw_points k' ≤ 1)%nat → (∀ p, p ∈ tail k' → is_enter p = false) →
  (∀ r b, list.head k' = Some (P_rw_enter r b) → AW (rws m r) = 0 ∧ (b = false → AR (rws m r) = 0)) →
  (∀ r b, P_rw_leave r b ∈ k' → (cur m, b) ∈ inside m r) → (∀ r b, waiting_ok m' r b) → rw_inv m'.
Proof.
  intros [H1 H2 H3 H4 H5 H6 H7 H8] Hs Ho Hr Hi Hg Hn Ht Hh Hl Hw.
  assert (∀ t, t = cur m ∧ stack m' t = k' ∨ t ≠ cur m ∧ stack m' t = stack m t) as Hc.
  { intros t. rewrite Hs. unfold fupd. destruct (decide (t = cur m)); auto. }
  constructor; intros *; rewrite ?Hi; destruct_and? Hr.
  - destruct (Hc t) as [[-> ->]|[Hne ->]]; [apply Hg|]. by rewrite Ho.
  - destruct (Hc t) as [[-> ->]|[Hne ->]]; auto.
  - destruct (Hc t) as [[-> ->]|[Hne ->]]; eauto.
  - destruct (Hr r) as [-> ->]. auto.
  - destruct (Hr r) as [-> ->]. auto.
  - destruct (Hr r) as [-> ->]. destruct (Hc t) as [[-> ->]|[Hne ->]]; eauto.
  - destruct (Hc t) as [[-> ->]|[Hne ->]]; eauto.
  - apply Hw.
Qed.

Lemma waiting_code m m' k' r b : rw_inv m → waiting b (rws m' r) = waiting b (rws m r) →
  (∀ t, stack m' t = fupd (stack m) (cur m) k' t) →
  (P_rw_woken r b ∈ k' ↔ P_rw_woken r b ∈ stack m (cur m)) → waiting_ok m' r b.
Proof.
  intros H E Hs Hk. apply (waiting_ok_same m); [apply H|done|]. intros t. rewrite Hs. unfold fupd.
  by destruct (decide (t = cur m)) as [->|].
Qed.

(** The top of the running thread's stack is replaced by [new]. *)
Lemma rw_inv_goto m m' p k new : rw_inv m → stack m (cur m) = p :: k →
  (∀ t, stack m' t = fupd (stack m) (cur m) (new ++ k) t) →
  (∀ t, t ≠ cur m → owned m' t = owned m t) →
  (∀ r, AR (rws m' r) = AR (rws m r) ∧ AW (rws m' r) = AW (rws m r)) → inside m' = inside m →
  (∀ r, guard r (bool_decide (L_rw r ∈ owned m (cur m))) (p :: k) = true →
        guard r (bool_decide (L_rw r ∈ owned m' (cur m))) (new ++ k) = true) →
  (rw_points new ≤ rw_points [p])%nat → (∀ q, q ∈ new → is_enter q = false) →
  (∀ r b, P_rw_leave r b ∈ new → p = P_rw_leave r b) → (∀ r b, waiting_ok m' r b) → rw_inv m'.
Proof.
  intros H Hst Hs Ho Hr Hi Hg Hn He Hl Hw.
  assert (∀ q, q ∈ k → is_enter q = false) as Hk.
  { intros q Hq. apply (ri_tail _ H (cur m)). by rewrite Hst. }
  assert (∀ q, q ∈ new ++ k → is_enter q = false) as Hall.
  { intros q [Hq|Hq]%elem_of_app; auto. }
  apply (rw_inv_code m m' (new ++ k)); [done..| | | | | |done].
  - intros r. apply Hg. rewrite <- Hst. apply H.
  - pose proof (ri_once _ H (cur m)) as Hc. rewrite Hst in Hc. change (p :: k) with ([p] ++ k) in Hc.
    rewrite rw_points_app in Hc |- *. lia.
  - intros q Hq. apply Hall. destruct (new ++ k); [done|]. by right.
  - intros r b Hh. apply head_Some_elem_of in Hh. by apply Hall in Hh.
  - intros r b Hq. apply (ri_leave _ H). rewrite Hst. apply elem_of_app in Hq as [Hq|Hq]; [|by right].
    rewrite (Hl r b Hq). by left.
Qed.

(** ** Steps *)

Lemma waiting_top m m' p k new : rw_inv m → stack m (cur m) = p :: k → rw_points [p] = 0%nat →
  (∀ t, stack m' t = fupd (stack m) (cur m) (new ++ k) t) → rws m' = rws m → rw_points new = 0%nat →
  ∀ r b, waiting_ok m' r b.
Proof.
  intros H Hst Hp Hs Hr Hn r b. eapply waiting_code; [done|by rewrite Hr|done|]. rewrite Hst.
  rewrite elem_of_app, elem_of_cons. split; intros [E|E]; auto.
  - by apply (rw_points_none _ _ Hn) in E.
  - subst p. done.
Qed.

(** Code of no interest to the readers-writers locks. *)
Lemma rw_inv_plain m m' p k new : rw_inv m → stack m (cur m) = p :: k →
  (∀ t, stack m' t = fupd (stack m) (cur m) (new ++ k) t) →
  owned m' = owned m → rws m' = rws m → inside m' = inside m →
  (∀ r h, guard r h (p :: k) = true → guard r h (new ++ k) = true) →
  rw_points [p] = 0%nat → rw_points new = 0%nat → rw_inv m'.
Proof.
  intros H Hst Hs Ho Hr Hi Hg Hp Hn.
  apply (rw_inv_goto m m' p k new); [done|done|done|by rewrite Ho|by rewrite Hr|done|..].
  - intros r. rewrite Ho. apply Hg.
  - lia.
  - intros q Hq. pose proof (rw_points_none q new Hn Hq). by destruct q.
  - intros r b Hq. by pose proof (rw_points_none _ _ Hn Hq).
  - by apply (waiting_top m m' p k new).
Qed.

Lemma thread_current_Ret s c : thread_current s = Ret c → c = current s.
Proof. unfold thread_current. intros. by outcome_inv. Qed.

(** Solves the guard of [rw_inv_plain] for the code of the lock and condition functions. *)
Ltac guard_plain :=
  intros r0 h0; cbn [app guard tries effect negb andb];
  repeat first [progress cbn [negb andb] | case_decide | case_bool_decide];
  try (intros Hg0; apply andb_prop in Hg0 as [Hh0 Hg0]; apply eqb_prop in Hh0; subst h0);
  try done; try naive_solver.

Lemma sema_up_off_frame m s w m' : sema_up_off m s = Ret (w, m') →
  current (sch m') = cur m ∧ stack m' = stack m ∧ owned m' = owned m ∧ rws m' = rws m ∧ inside m' = inside m.
Proof.
  unfold sema_up_off. intros Hrun. case_match; [|by injection Hrun as <- <-].
  apply bind_Ret in Hrun as (s' & Hu & E). injection E as <- <-. apply thread_unblock_current in Hu. done.
Qed.

Lemma rw_holder_inv m m' l k : rw_inv m → stack m (cur m) = P_lock_holder l :: k →
  lock_holder m l k = Ret m' → rw_inv m'.
Proof.
  intros H Hst Hrun. apply bind_Ret in Hrun as (c & Hc & Hrun).
  apply thread_current_Ret in Hc as ->.
  set (new := match policy m with SCHED_PRIO => [P_lock_held l] | _ => [] end).
  assert (m' = goto (with_owned (with_holder m l (Some (cur m))) (cur m) (l :: owned m (cur m))) (new ++ k)) as ->.
  { cbn in Hrun. unfold new. by destruct (policy m); injection Hrun as <-. }
  apply (rw_inv_goto m _ (P_lock_holder l) k new); [done|done|done| |done|done|..].
  - intros t Ht. cbn. by rewrite fupd_ne.
  - intros r. cbn [goto with_stack with_owned with_holder owned]. rewrite fupd_eq.
    assert (∀ h, guard r h (new ++ k) = guard r h k) as -> by (unfold new; by destruct (policy m)).
    cbn [guard tries effect negb andb]. case_decide as El.
    + subst l. intros [_ Hg]%andb_prop. rewrite bool_decide_true; [done|by left].
    + intros Hg. erewrite bool_decide_ext; [exact Hg|]. rewrite elem_of_cons. naive_solver.
  - unfold new. destruct (policy m); cbn; lia.
  - unfold new. intros q. destruct (policy m); intros Hq; try by apply not_elem_of_nil in Hq.
    apply list_elem_of_singleton in Hq as ->. done.
  - unfold new. intros r b. destruct (policy m); intros Hq; try by apply not_elem_of_nil in Hq.
    by apply list_elem_of_singleton in Hq.
  - apply (waiting_top m _ (P_lock_holder l) k new); try done. unfold new. by destruct (policy m).
Qed.

Lemma rw_clear_inv m m' l k : rw_inv m → stack m (cur m) = P_lock_clear l :: k →
  lock_clear m l k = Ret m' → rw_inv m'.
Proof.
  intros H Hst [= <-].
  apply (rw_inv_goto m _ (P_lock_clear l) k []); [done|done|done| |done|done|..].
  - intros t Ht. cbn. by rewrite fupd_ne.
  - intros r. cbn [goto with_stack with_owned with_holder owned app]. rewrite fupd_eq.
    cbn [guard tries effect negb andb]. case_decide as El.
    + subst l. intros [_ Hg]%andb_prop. rewrite bool_decide_false; [done|]. rewrite list_elem_of_filter. naive_solver.
    + intros Hg. erewrite bool_decide_ext; [exact Hg|]. rewrite list_elem_of_filter. naive_solver.
  - cbn. lia.
  - intros q Hq. by apply not_elem_of_nil in Hq.
  - intros r b Hq. by apply not_elem_of_nil in Hq.
  - by apply (waiting_top m _ (P_lock_clear l) k []).
Qed.

(** The points below a readers-writers one are of other functions. *)
Lemma rw_below m p k : rw_inv m → stack m (cur m) = p :: k → is_rw p = true → rw_points k = 0%nat.
Proof.
  intros H Hst Hp. pose proof (ri_once _ H (cur m)) as Ho. rewrite Hst in Ho. cbn in Ho. rewrite Hp in Ho. lia.
Qed.

(** A readers-writers function goes on with [new]. *)
Lemma rw_inv_rw m m' p new k : rw_inv m → stack m (cur m) = p :: k → is_rw p = true →
  (∀ t, stack m' t = fupd (stack m) (cur m) (new ++ k) t) →
  owned m' = owned m →
  (∀ r, AR (rws m' r) = AR (rws m r) ∧ AW (rws m' r) = AW (rws m r)) → inside m' = inside m →
  (∀ r h, guard r h (p :: k) = true → guard r h (new ++ k) = true) →
  (rw_points new ≤ 1)%nat → (∀ q, q ∈ tail new → is_enter q = false) →
  (∀ r b, list.head new = Some (P_rw_enter r b) → AW (rws m r) = 0 ∧ (b = false → AR (rws m r) = 0)) →
  (∀ r b, P_rw_leave r b ∉ new) → (∀ r b, waiting_ok m' r b) → rw_inv m'.
Proof.
  intros H Hst Hp Hs Ho Hr Hi Hg Hn He Hh Hl Hw. pose proof (rw_below m p k H Hst Hp) as Hk.
  apply (rw_inv_code m m' (new ++ k)); [done|done|by rewrite Ho|done|done| | | | | |done].
  - intros r. rewrite Ho. apply Hg. rewrite <- Hst. apply H.
  - rewrite rw_points_app. lia.
  - intros q Hq. assert (q ∈ tail new ∨ q ∈ k) as [?|Hq'].
    { destruct new; cbn in Hq |- *; [right; by destruct k; [|right]|]. by apply elem_of_app in Hq. }
    + by apply He.
    + apply (rw_points_none q k Hk) in Hq'. by destruct q.
  - intros r b Hq. destruct new as [|q new]; cbn in Hq; [|by apply Hh].
    apply head_Some_elem_of, (rw_points_none _ k Hk) in Hq. done.
  - intros r b Hq. apply elem_of_app in Hq as [Hq|Hq]; [by apply Hl in Hq|].
    by apply (rw_points_none _ k Hk) in Hq.
Qed.

(** Code without [P_rw_woken] over code without readers-writers points. *)
Lemma waiting_rw m m' p new k : rw_inv m → stack m (cur m) = p :: k → is_rw p = true →
  (∀ t, stack m' t = fupd (stack m) (cur m) (new ++ k) t) →
  (∀ r b, waiting b (rws m' r) = waiting b (rws m r)) →
  (∀ r b, p ≠ P_rw_woken r b) → (∀ r b, P_rw_woken r b ∉ new) → ∀ r b, waiting_ok m' r b.
Proof.
  intros H Hst Hp Hs Hr Hpw Hnw r b. pose proof (rw_below m p k H Hst Hp) as Hk.
  eapply waiting_code; [done|done|done|]. rewrite Hst, elem_of_app, elem_of_cons.
  split; intros [E|E]; auto; [by apply Hnw in E|by destruct (Hpw r b)].
Qed.

(** Splits a membership in a list given by its elements. *)
Ltac in_cases H :=
  repeat (apply elem_of_cons in H as [H|H]); [try discriminate H..|by apply not_elem_of_nil in H].

Ltac guard_rw :=
  intros r0 h0; cbn [app guard tries effect negb andb];
  repeat first [progress cbn [negb andb] | case_decide | case_bool_decide];
  simplify_eq;
  try (intros [Hh0%eqb_prop Hg0]%andb_prop; subst h0; cbn; rewrite ?Hg0);
  try done.

Lemma waiting_nonneg m r b : rw_inv m → 0 ≤ waiting b (rws m r).
Proof. intros H. destruct (ri_waiting _ H r b) as (l & _ & -> & _). lia. Qed.

Lemma rw_test_inv m m' r b k : rw_inv m → stack m (cur m) = P_rw_test r b :: k →
  rw_test m r b k = Ret m' → rw_inv m'.
Proof.
  intros H Hst [= <-]. destruct (if b then _ else _) eqn:Eb.
  - apply (rw_inv_rw m _ (P_rw_test r b) [P_rw_wait r b] k); [done..| | | | | |].
    + guard_rw.
    + done.
    + intros q Hq. by apply not_elem_of_nil in Hq.
    + done.
    + intros r' b' Hq. in_cases Hq.
    + apply (waiting_rw m _ (P_rw_test r b) [P_rw_wait r b] k); try done. intros r' b' Hq. in_cases Hq.
  - apply (rw_inv_rw m _ (P_rw_test r b) [P_rw_enter r b; P_lock_release (L_rw r)] k); [done..| | | | | |].
    + guard_rw.
    + done.
    + intros q Hq. cbn in Hq. in_cases Hq. by subst q.
    + intros r' b' [= <- <-]. pose proof (ri_count _ H r) as [Ha Hw]. unfold count_in in *.
      pose proof (waiting_nonneg m r false H) as Hn. cbn in Hn.
      destruct b; apply Z.ltb_ge in Eb; split; try done; lia.
    + intros r' b' Hq. in_cases Hq.
    + apply (waiting_rw m _ (P_rw_test r b) [P_rw_enter r b; P_lock_release (L_rw r)] k); try done.
      intros r' b' Hq. in_cases Hq.
Qed.

Lemma rw_wait_inv m m' r b k : rw_inv m → stack m (cur m) = P_rw_wait r b :: k →
  rw_wait m r b k = Ret m' → rw_inv m'.
Proof.
  intros H Hst [= <-]. pose proof (rw_below m _ k H Hst eq_refl) as Hk. set (w := if b then _ else _).
  apply (rw_inv_rw m _ (P_rw_wait r b) [P_cond_wait (rw_cond r b) (L_rw r); P_rw_woken r b] k); [done..| | | | | | | |].
  - intros r'. cbn. unfold fupd. case_decide; [subst r'|done]. unfold w. by destruct b.
  - done.
  - guard_rw.
  - done.
  - intros q Hq. cbn in Hq. in_cases Hq. by subst q.
  - done.
  - intros r' b' Hq. in_cases Hq.
  - intros r' b'. destruct (decide ((r', b') = (r, b))) as [[= -> ->]|Hne].
    + destruct (ri_waiting _ H r b) as (l & Hn & Hl & Hin).
      assert (cur m ∉ l) as Hc.
      { rewrite Hin, Hst. intros [E|E]%elem_of_cons; [done|]. by apply (rw_points_none _ _ Hk) in E. }
      exists (cur m :: l). split; [by constructor|]. split.
      * cbn. rewrite fupd_eq. unfold w. cbn in Hl. destruct b; cbn in *; lia.
      * intros t. cbn. unfold fupd. rewrite elem_of_cons, Hin. destruct (decide (t = cur m)) as [->|Ht]; [|naive_solver].
        split; [intros _; right; left|by left].
    + eapply waiting_code; [done| |done|].
      * cbn. unfold fupd. case_decide; [subst r'|done]. unfold w. destruct b, b'; done.
      * rewrite Hst. cbn. rewrite !elem_of_cons. naive_solver.
Qed.

Lemma rw_woken_inv m m' r b k : rw_inv m → stack m (cur m) = P_rw_woken r b :: k →
  rw_woken m r b k = Ret m' → rw_inv m'.
Proof.
  intros H Hst [= <-]. pose proof (rw_below m _ k H Hst eq_refl) as Hk. set (w := if b then _ else _).
  apply (rw_inv_rw m _ (P_rw_woken r b) [P_rw_test r b] k); [done..| | | | | | | |].
  - intros r'. cbn. unfold fupd. case_decide; [subst r'|done]. unfold w. by destruct b.
  - done.
  - guard_rw.
  - done.
  - intros q Hq. cbn in Hq. in_cases Hq.
  - done.
  - intros r' b' Hq. in_cases Hq.
  - intros r' b'. destruct (decide ((r', b') = (r, b))) as [[= -> ->]|Hne].
    + destruct (ri_waiting _ H r b) as (l & Hn & Hl & Hin).
      assert (cur m ∈ l) as Hc by (rewrite Hin, Hst; by left).
      apply list_elem_of_split in Hc as (l1 & l2 & ->).
      exists (l1 ++ l2). split; [|split].
      * apply list.NoDup_app in Hn as (?&Hd&[??]%list.NoDup_cons). apply list.NoDup_app. split_and!; [done| |done].
        intros x Hx Hx'. apply (Hd x Hx). by right.
      * rewrite length_app in Hl |- *. cbn in Hl |- *. rewrite fupd_eq. unfold w. destruct b; cbn in *; lia.
      * intros t. cbn. unfold fupd. specialize (Hin t). rewrite elem_of_app, elem_of_cons in Hin. rewrite elem_of_app.
        apply list.NoDup_app in Hn as (?&Hd&[Hn2 ?]%list.NoDup_cons).
        destruct (decide (t = cur m)) as [->|Ht].
        -- split; [|intros [E|E]%elem_of_cons; [done|by apply (rw_points_none _ _ Hk) in E]].
           intros [E|E]; [|done]. exfalso. apply (Hd _ E). by left.
        -- naive_solver.
    + eapply waiting_code; [done| |done|].
      * cbn. unfold fupd. case_decide; [subst r'|done]. unfold w. destruct b, b'; done.
      * rewrite Hst, !elem_of_cons. naive_solver.
Qed.

Lemma rw_wake_inv m m' r b k : rw_inv m → stack m (cur m) = P_rw_wake r b :: k →
  rw_wake m r b k = Ret m' → rw_inv m'.
Proof.
  intros H Hst Hrun.
  assert (∃ new, (∀ q, q ∈ new → is_rw q = false) ∧ (∀ r h, guard r h (new ++ k) = guard r h k) ∧
    rw_points new = 0%nat ∧ m' = goto m (new ++ k)) as (new & Hq & Hg & Hn & ->).
  { set (sg := [P_cond_signal (C_write r) (L_rw r)]). set (bc := [P_cond_broadcast (C_read r) (L_rw r)]).
    assert (m' = goto m (sg ++ k) ∨ m' = goto m (bc ++ k) ∨ m' = goto m ([] ++ k)) as [->|[->| ->]].
    { revert Hrun. unfold rw_wake. repeat case_match; intros [= <-]; auto. }
    - exists sg. split_and!; try done. intros q Hq. unfold sg in Hq. in_cases Hq. by subst q.
    - exists bc. split_and!; try done. intros q Hq. unfold bc in Hq. in_cases Hq. by subst q.
    - exists []. split_and!; try done. intros q Hq. by apply not_elem_of_nil in Hq. }
  apply (rw_inv_rw m _ (P_rw_wake r b) new k); [done..| | | | | | ].
  - intros r' h. rewrite Hg. cbn [guard tries effect negb andb]. case_decide; [|done].
    by intros [->%eqb_prop ?]%andb_prop.
  - lia.
  - intros q Hq'. assert (q ∈ new) as Hin by (destruct new; [done|by right]). apply Hq in Hin. by destruct q.
  - intros r' b' Hh%head_Some_elem_of. by apply Hq in Hh.
  - intros r' b' Hh. by apply Hq in Hh.
  - apply (waiting_rw m _ (P_rw_wake r b) new k); try done. intros r' b' Hh. by apply Hq in Hh.
Qed.

(** The lock's counters change: only its owner can be past the test of the loop. *)
Lemma rw_inv_count m m' p k new r : lock_inv m → rw_inv m → stack m (cur m) = p :: k → is_rw p = true →
  L_rw r ∈ owned m (cur m) →
  (∀ t, stack m' t = fupd (stack m) (cur m) (new ++ k) t) → owned m' = owned m →
  (∀ r', r' ≠ r → rws m' r' = rws m r' ∧ inside m' r' = inside m r') →
  (∀ b, waiting b (rws m' r) = waiting b (rws m r)) →
  (∀ r' h, guard r' h (p :: k) = true → guard r' h (new ++ k) = true) →
  (rw_points new ≤ 1)%nat → (∀ q r' b, q ∈ new → is_enter q = false ∧ q ≠ P_rw_leave r' b ∧ q ≠ P_rw_woken r' b) →
  (∀ r' b, p ≠ P_rw_woken r' b) →
  (∀ t b, t ≠ cur m → (t, b) ∈ inside m r → (t, b) ∈ inside m' r) →
  AR (rws m' r) = count_in true (inside m' r) → AW (rws m' r) = count_in false (inside m' r) →
  AW (rws m' r) ≤ 1 → (AW (rws m' r) = 1 → AR (rws m' r) = 0) → rw_inv m'.
Proof.
  intros Hlk H Hst Hp Hown Hs Ho Hoth Hwt Hg Hn Hnew Hpw Hin HA HW H1 H2.
  pose proof (rw_below m p k H Hst Hp) as Hk.
  assert (∀ q, q ∈ new ++ k → is_enter q = false ∧ ∀ r' b, q ≠ P_rw_leave r' b) as Hall.
  { intros q [Hq|Hq]%elem_of_app.
    - split; [by destruct (Hnew q 0%nat true Hq)|]. intros r' b. by destruct (Hnew q r' b Hq) as (_ & ? & _).
    - apply (rw_points_none q k Hk) in Hq. by destruct q. }
  assert (∀ t, t = cur m ∧ stack m' t = new ++ k ∨ t ≠ cur m ∧ stack m' t = stack m t) as Hc.
  { intros t. rewrite Hs. unfold fupd. destruct (decide (t = cur m)); auto. }
  constructor; intros *; rewrite ?Ho.
  - destruct (Hc t) as [[-> ->]|[Hne ->]]; [apply Hg; rewrite <- Hst|]; apply H.
  - destruct (Hc t) as [[-> ->]|[Hne ->]]; [rewrite rw_points_app; lia|apply H].
  - destruct (Hc t) as [[-> ->]|[Hne ->]]; [|apply H]. intros Hq. apply Hall. destruct (new ++ k); [done|by right].
  - destruct (decide (r0 = r)) as [->|Hne]; [done|]. destruct (Hoth r0 Hne) as [-> ->]. apply H.
  - destruct (decide (r0 = r)) as [->|Hne]; [done|]. destruct (Hoth r0 Hne) as [-> _]. apply H.
  - destruct (Hc t) as [[-> ->]|[Hne ->]]; [intros Hq%head_Some_elem_of; by apply Hall in Hq as [? _]|].
    destruct (decide (r0 = r)) as [->|Hne']; [|destruct (Hoth r0 Hne') as [-> _]; apply H].
    intros Hh. exfalso. apply Hne. destruct (stack m t) as [|q k0] eqn:Et; [done|]. injection Hh as ->.
    destruct (rw_has m t r _ k0 true H Et) as [Hot _]; [cbn; by rewrite decide_True|].
    pose proof (li_owned _ Hlk _ _ Hot). pose proof (li_owned _ Hlk _ _ Hown). congruence.
  - destruct (Hc t) as [[-> ->]|[Hne ->]]; [intros Hq; by apply Hall in Hq as [_ Hq]; destruct (Hq r0 b)|].
    intros Hq%(ri_leave _ H). destruct (decide (r0 = r)) as [->|Hne']; [by apply Hin|].
    by destruct (Hoth r0 Hne') as [_ ->].
  - apply (waiting_rw m m' p new k); try done.
    + intros r' b'. destruct (decide (r' = r)) as [->|Hne]; [done|]. by destruct (Hoth r' Hne) as [-> _].
    + intros r' b' Hq. by destruct (Hnew _ r' b' Hq) as (_ & _ & ?).
Qed.

Lemma count_in_cons e b l : count_in b (e :: l) = count_in b l + (if Bool.eqb e.2 b then 1 else 0).
Proof.
  unfold count_in. rewrite filter_cons. destruct (decide (e.2 = b)) as [E|E].
  - rewrite E, Bool.eqb_reflx. cbn [length]. lia.
  - apply eqb_false_iff in E. rewrite E. lia.
Qed.

Lemma rw_enter_inv m m' r b k : lock_inv m → rw_inv m → stack m (cur m) = P_rw_enter r b :: k →
  rw_enter m r b k = Ret m' → rw_inv m'.
Proof.
  intros Hlk H Hst [= <-]. destruct (rw_has m _ r _ k true H Hst) as [Hown _]; [cbn; by rewrite decide_True|].
  destruct (ri_enter _ H (cur m) r b) as [HW HR]; [by rewrite Hst|]. destruct (ri_count _ H r) as [Ca Cw].
  set (w := if b then _ else _).
  apply (rw_inv_count m _ (P_rw_enter r b) k [] r); [done..| | | | | | | | | | |].
  - intros r' Hne. cbn. by rewrite !fupd_ne.
  - intros b'. cbn. rewrite fupd_eq. unfold w. by destruct b, b'.
  - intros r' h. cbn [app guard tries effect negb andb]. case_decide; [|done]. by intros [->%eqb_prop ?]%andb_prop.
  - cbn. lia.
  - intros q r' b' Hq. by apply not_elem_of_nil in Hq.
  - done.
  - intros t b' _ Hin. cbn. rewrite fupd_eq. by right.
  - cbn. rewrite !fupd_eq, count_in_cons. unfold w. destruct b; cbn; lia.
  - cbn. rewrite !fupd_eq, count_in_cons. unfold w. destruct b; cbn; lia.
  - cbn. rewrite !fupd_eq. unfold w. destruct b; cbn; lia.
  - cbn. rewrite !fupd_eq. unfold w. destruct b; cbn; [lia|auto].
Qed.

Lemma count_remove_one e b l : e ∈ l →
  count_in b (remove_one e l) = count_in b l - (if Bool.eqb e.2 b then 1 else 0).
Proof.
  unfold count_in. induction l as [|x l IH]; intros Hin; [by apply not_elem_of_nil in Hin|]. cbn [remove_one].
  destruct (decide (x = e)) as [->|Hne].
  - rewrite filter_cons. destruct (Bool.eqb e.2 b) eqn:E.
    + apply eqb_prop in E. rewrite decide_True by done. cbn. lia.
    + apply eqb_false_iff in E. rewrite decide_False by done. lia.
  - apply elem_of_cons in Hin as [->|Hin]; [done|]. specialize (IH Hin).
    rewrite !filter_cons. destruct (decide (x.2 = b)); cbn [length]; lia.
Qed.

Lemma remove_one_ne e x l : x ≠ e → x ∈ l → x ∈ remove_one e l.
Proof.
  intros Hne. induction l as [|y l IH]; [done|]. cbn. rewrite elem_of_cons. intros [->|Hin].
  - rewrite decide_False by done. by left.
  - case_decide; [done|]. right. by apply IH.
Qed.

Lemma rw_leave_inv m m' r b k : lock_inv m → rw_inv m → stack m (cur m) = P_rw_leave r b :: k →
  rw_leave m r b k = Ret m' → rw_inv m'.
Proof.
  intros Hlk H Hst [= <-]. destruct (rw_has m _ r _ k false H Hst) as [Hown _]; [cbn; by rewrite decide_True|].
  assert ((cur m, b) ∈ inside m r) as Hin by (apply (ri_leave _ H); rewrite Hst; by left).
  destruct (ri_count _ H r) as [Ca Cw]. destruct (ri_excl _ H r) as [H1 H2].
  pose proof (count_remove_one _ true _ Hin) as Ra. pose proof (count_remove_one _ false _ Hin) as Rw.
  set (w := if b then _ else _).
  apply (rw_inv_count m _ (P_rw_leave r b) k [P_rw_wake r b; P_lock_release (L_rw r)] r);
    [done..| | | | | | | | | | |].
  - intros r' Hne. cbn. by rewrite !fupd_ne.
  - intros b'. cbn. rewrite fupd_eq. unfold w. by destruct b, b'.
  - guard_rw.
  - done.
  - intros q r' b' Hq. in_cases Hq; by subst q.
  - done.
  - intros t b' Hne Hq. cbn. rewrite fupd_eq. apply remove_one_ne; congruence.
  - cbn. rewrite !fupd_eq. unfold w. destruct b; cbn in *; lia.
  - cbn. rewrite !fupd_eq. unfold w. destruct b; cbn in *; lia.
  - cbn. rewrite !fupd_eq. unfold w. destruct b; cbn in *; lia.
  - cbn. rewrite !fupd_eq. unfold w, count_in in *. destruct b; cbn in *; lia.
Qed.

(** ** Every step *)

(** What the running code did, a case per branch. *)
Ltac run_inv :=
  outcome_inv; repeat (match goal with H : _ = Ret ?m' |- context [?m'] => case_match end; outcome_inv); subst.

Lemma exec_rw_inv m m' : lock_inv m → rw_inv m → stack m (cur m) ≠ [] → exec m = Ret m' → rw_inv m'.
Proof.
  intros Hlk H Hne Hrun. unfold exec in Hrun. destruct (stack m (cur m)) as [|p k] eqn:Hst; [done|clear Hne].
  destruct p as [s|n|s|t|l|l|h|l|l|l|l|l|c l|c l|c l|r b|r b|r b|r b|r b|r b|t|t| ].
  - unfold sema_down in Hrun. case_match.
    + outcome_inv; subst; by apply (rw_inv_same m).
    + injection Hrun as <-. apply (rw_inv_plain m _ _ _ [] H Hst); done.
  - injection Hrun as <-. unfold sema_try_down. case_match;
      apply (rw_inv_plain m _ _ _ [] H Hst); done.
  - apply bind_Ret in Hrun as ([w m1] & Hu & E). injection E as <-.
    apply sema_up_off_frame in Hu as (Hc & Hs & Ho & Hr & Hi).
    apply (rw_inv_plain m _ _ _ (match w with Some t => [P_yield_to t] | None => [] end) H Hst);
      [|exact Ho|exact Hr|exact Hi|by destruct w|done|by destruct w].
    intros t. cbn. rewrite Hc, Hs. by destruct w.
  - unfold yield_to in Hrun. run_inv; apply (rw_inv_plain m _ _ _ [] H Hst); done.
  - unfold lock_acquire in Hrun. apply bind_Ret in Hrun as (u & _ & Hrun).
    apply (rw_inv_plain m _ _ _ (match policy m with SCHED_PRIO => [P_lock_donate l] | _ => [] end ++
      [P_sema_down (S_lock l); P_lock_holder l]) H Hst);
      destruct (policy m); injection Hrun as <-; try done; guard_plain.
  - unfold lock_donate in Hrun. destruct (holder m l) as [h|].
    + apply bind_Ret in Hrun as (c & _ & Hrun). apply bind_Ret in Hrun as (u & _ & E). injection E as <-. case_match;
      [apply (rw_inv_plain m _ _ _ [P_lock_donate_to h] H Hst)|apply (rw_inv_plain m _ _ _ [] H Hst)]; done.
    + injection Hrun as <-. apply (rw_inv_plain m _ _ _ [] H Hst); done.
  - unfold lock_donate_to in Hrun. outcome_inv; subst; apply (rw_inv_plain m _ _ _ [] H Hst); done.
  - by eapply rw_holder_inv.
  - unfold lock_held in Hrun. outcome_inv; subst; apply (rw_inv_plain m _ _ _ [] H Hst); done.
  - unfold lock_try_acquire, sema_try_down in Hrun. apply bind_Ret in Hrun as (u & _ & Hrun).
    assert (∀ r, l ≠ L_rw r) as Hl.
    { intros r ->. pose proof (ri_guard _ H (cur m) r) as Hg. rewrite Hst in Hg. cbn in Hg.
      by rewrite bool_decide_true in Hg. }
    destruct (0 <? _); cbn in Hrun; injection Hrun as <-;
      [apply (rw_inv_plain m _ _ _ [P_lock_holder l] H Hst)|apply (rw_inv_plain m _ _ _ [] H Hst)]; try done; guard_plain.
  - unfold lock_release in Hrun. apply bind_Ret in Hrun as (u & _ & Hrun).
    apply (rw_inv_plain m _ _ _ [P_lock_clear l; P_sema_up (S_lock l)] H Hst);
      destruct (policy m); run_inv; try done; guard_plain.
  - by eapply rw_clear_inv.
  - unfold cond_wait in Hrun. outcome_inv; subst.
    apply (rw_inv_plain m _ _ _ [P_lock_release l; P_sema_down (S_waiter (cur m)); P_lock_acquire l] H Hst);
      try done; guard_plain.
  - unfold cond_signal in Hrun. apply bind_Ret in Hrun as (u & _ & Hrun).
    destruct (conds m c) as [|w ws]; [injection Hrun as <-; apply (rw_inv_plain m _ _ _ [] H Hst); done|].
    apply bind_Ret in Hrun as (t & _ & E). injection E as <-.
    apply (rw_inv_plain m _ _ _ [P_sema_up (S_waiter t)] H Hst); done.
  - unfold cond_broadcast in Hrun.
    destruct (conds m c) as [|w ws]; injection Hrun as <-; [apply (rw_inv_plain m _ _ _ [] H Hst); done|].
    apply (rw_inv_plain m _ _ _ [P_cond_signal c l; P_cond_broadcast c l] H Hst); done.
  - by eapply rw_test_inv.
  - by eapply rw_wait_inv.
  - by eapply rw_woken_inv.
  - by eapply rw_enter_inv.
  - by eapply rw_leave_inv.
  - by eapply rw_wake_inv.
  - injection Hrun as <-. apply (rw_inv_plain m _ _ _ [] H Hst); done.
  - unfold unblock_point in Hrun. outcome_inv; subst; apply (rw_inv_plain m _ _ _ [] H Hst); done.
  - unfold idle in Hrun. outcome_inv; subst; by apply (rw_inv_same m).
Qed.

(** A call starts code that leaves no lock of the kernel behind. *)
Lemma rw_inv_call m code : rw_inv m → stack m (cur m) = [] →
  (∀ r, guard r false code = true) → (rw_points code ≤ 1)%nat → (∀ p, p ∈ code → is_enter p = false) →
  (∀ r b, P_rw_leave r b ∈ code → (cur m, b) ∈ inside m r) → (∀ r b, P_rw_woken r b ∉ code) →
  rw_inv (goto m code).
Proof.
  intros H Hst Hg Hn He Hl Hw. apply (rw_inv_code m _ code); try done.
  - intros r. pose proof (ri_guard _ H (cur m) r) as Hg'. rewrite Hst in Hg'. cbn in Hg'. cbn [goto with_stack owned].
    by destruct (bool_decide _).
  - intros p Hp. apply He. destruct code; [done|by right].
  - intros r b Hh%head_Some_elem_of. by apply He in Hh.
  - intros r b. eapply waiting_code; [done|done|done|]. rewrite Hst. split; intros E; [by apply Hw in E|].
    by apply not_elem_of_nil in E.
Qed.

(** A new thread's stack and locks. *)
Lemma rw_inv_embryo m t : rw_inv m → stack m t = [] → rw_inv (with_owned (with_stack m t []) t []).
Proof.
  intros H Hst.
  assert (∀ u, stack (with_owned (with_stack m t []) t []) u = stack m u) as Hs.
  { intros u. cbn. unfold fupd. case_decide; congruence. }
  constructor; intros *; rewrite ?Hs; try apply H.
  - cbn. unfold fupd. case_decide as E; [|apply H]. subst t0. rewrite Hst. rewrite bool_decide_false; [done|].
    by apply not_elem_of_nil.
  - apply (waiting_ok_same m); [apply H|done|]. intros u. by rewrite Hs.
Qed.

Lemma call_rw_inv m a m' : wait_inv m → rw_inv m → stack m (cur m) = [] →
  (∀ t p, a = A_create t p → magic (th (sch m) t) = false) →
  (∀ r b, a = A_rw_release r b → (cur m, b) ∈ inside m r) →
  call m a = Ret m' → rw_inv m'.
Proof.
  intros Hw H Hst Hcr Hrw Hrun.
  assert (∀ s, rw_inv (with_sch m s)) as Hsame by (intros s; by apply (rw_inv_same m)).
  destruct a as [n|n|n|n|n|n|n l|n l|n l|r b|r b|t p| | |p|n|n]; cbn [call] in Hrun;
    unfold rw_lock_acquire, rw_lock_release in Hrun;
    try (injection Hrun as <-; apply rw_inv_call; [done|done| |cbn; lia|intros q Hq; in_cases Hq; by subst q| |];
         [intros; cbn; repeat (case_decide; simplify_eq; cbn); done|intros r' b' Hq; in_cases Hq; try (injection Hq as -> ->; by apply Hrw)
          |intros r' b' Hq; in_cases Hq]).
  - apply bind_Ret in Hrun as (s & Hi & E). injection E as <-.
    set (m1 := with_owned _ t []).
    assert (rw_inv m1) as H1.
    { apply rw_inv_embryo; [done|]. apply (wi_dead _ Hw). by eapply Hcr. }
    assert (t ≠ cur m) as Hne.
    { intros ->. destruct (wi_cur _ Hw) as [E _]. by rewrite (Hcr _ _ eq_refl) in E. }
    assert (current s = cur m) as Hc by (unfold init_thread in Hi; by outcome_inv).
    apply rw_inv_call; [done| | | | | |].
    + unfold m1. cbn. rewrite Hc. unfold fupd. case_decide; done.
    + intros r. done.
    + cbn. lia.
    + intros q Hq; in_cases Hq; by subst q.
    + intros r' b' Hq. in_cases Hq.
    + intros r' b' Hq. in_cases Hq.
  - apply bind_Ret in Hrun as (s & _ & E). injection E as <-. done.
  - apply bind_Ret in Hrun as (s & _ & E). injection E as <-. done.
  - unfold thread_set_priority in Hrun. run_inv; try done; by apply (rw_inv_same m).
  - apply bind_Ret in Hrun as (s & _ & E). injection E as <-. done.
  - apply bind_Ret in Hrun as (s & _ & E). injection E as <-. done.
Qed.

Lemma boot_rw_inv p f : rw_inv (boot p f).
Proof.
  assert (∀ t, stack (boot p f) t = [] ∨ stack (boot p f) t = [P_idle]) as Hs.
  { intros t. cbn. unfold fupd. case_decide; auto. }
  constructor; intros *; try (destruct (Hs t) as [-> | ->]); try done;
    try (intros Hq; by apply not_elem_of_nil in Hq).
  - cbn. lia.
  - cbn. lia.
  - intros Hq. in_cases Hq.
  - exists []. split; [by constructor|]. split; [by destruct b|]. intros t.
    destruct (Hs t) as [-> | ->]; split; intros Hq; try (by apply not_elem_of_nil in Hq); in_cases Hq.
Qed.

Lemma reachable_rw_inv p f m : reachable p f m → rw_inv m.
Proof.
  induction 1 as [|m m' Hr H Hs]; [apply boot_rw_inv|]. destruct (reachable_inv _ _ _ Hr) as [Hl Hw].
  inversion Hs as [? ? Hne He|? ? Ht|? n ? Hi|? a ? Hsk Hcr Hrw Hc]; subst.
  - by eapply exec_rw_inv.
  - apply bind_Ret in Ht as (s' & _ & E). injection E as <-. by apply (rw_inv_same m).
  - apply bind_Ret in Hi as ([w m1] & Hu & E). injection E as <-.
    apply sema_up_off_frame in Hu as (_ & Hs' & Ho & Hr' & Hi). apply (rw_inv_same m); [done| |done..].
    by rewrite Hs'.
  - by eapply call_rw_inv.
Qed.

(** C4. Readers and writers exclude each other.  In every reachable state a thread
    inside a readers-writers lock as a writer is the only one inside it, and the
    counters [AR], [AW], [WR] and [WW] are the numbers of threads inside as readers,
    inside as writers, and of threads that have gone to wait in either mode. *)
Theorem rw_lock_exclusion p f m r : reachable p f m →
  (∀ t, (t, false) ∈ inside m r → inside m r = [(t, false)]) ∧
  AR (rws m r) = count_in true (inside m r) ∧ AW (rws m r) = count_in false (inside m r) ∧
  ∀ b, waiting_ok m r b.
Proof.
  intros H%reachable_rw_inv. destruct (ri_count _ H r) as [Ca Cw]. destruct (ri_excl _ H r) as [H1 H2].
  split; [|split_and!; [done|done|apply H]]. intros t Hin.
  rewrite Cw in H1, H2. rewrite Ca in H2. clear H Ca Cw.
  apply list_elem_of_split in Hin as (l1 & l2 & E). rewrite E in *.
  assert (∀ b, count_in b (l1 ++ (t, false) :: l2) =
    count_in b l1 + count_in b l2 + (if Bool.eqb false b then 1 else 0)) as Hc.
  { intros b. unfold count_in at 1. rewrite list.filter_app, length_app, Nat2Z.inj_add. fold (count_in b l1).
    fold (count_in b ((t, false) :: l2)). rewrite count_in_cons. cbn. lia. }
  pose proof (Hc false) as Hf. pose proof (Hc true) as Ht. cbn [Bool.eqb] in Hf, Ht. unfold count_in in *.
  specialize (H2 ltac:(lia)).
  assert (∀ l : list (tptr * bool), length (filter (λ e, e.2 = true) l) = 0%nat →
    length (filter (λ e, e.2 = false) l) = 0%nat → l = []) as Hnil.
  { clear. intros [|[x b] l]; [done|]. rewrite !filter_cons. by destruct b. }
  rewrite (Hnil l1), (Hnil l2); [done|lia..].
Qed.

End SynchRw.
