(* ===== verification/SynchDemo.v ===== *)
(** * Synchronisation: runs

    Concrete runs of the machine, from the state in which the scheduler has started:
    the states at which the theorems on reachable states are instantiated, and runs
    that show what the interleavings of [synch.c] and [thread.c] can do. *)

From stdpp Require Import base tactics numbers list option sorting.
From S2P Require Import Prelude KList KListProofs ThreadState Thread ThreadProofs Synch SynchProofs SynchSched SynchRw.

Module SynchDemo.
Import ThreadState Thread ThreadProofs Synch SynchProofs SynchSched SynchRw.

(** The state a run ends in. *)
Definition final (p : sched_policy) (f : fair_sched_type) (es : list event) : machine :=
  match run (boot p f) es with Ret m => m | _ => boot p f end.

Lemma final_reachable p f es : reachable p f (final p f es).
Proof.
  unfold final. destruct (run (boot p f) es) as [m| | |] eqn:E; try apply reach_boot.
  eapply run_reachable; [apply reach_boot|exact E].
Qed.

(** [n] stretches of code of the running thread. *)
Definition execs (n : nat) : list event := replicate n E_exec.

(** The initial thread takes lock 0 and creates a thread of priority 40, which runs
    at once, donates to the holder of lock 0 and waits for it. *)
Definition donation_run : list event :=
  E_call (A_lock_acquire 0) :: execs 5 ++ E_call (A_create 3 40) :: execs 11 ++
  E_call (A_lock_acquire 0) :: execs 4.

Definition donated : machine := final SCHED_PRIO FAIR_SCHED_CFS donation_run.

Lemma lock_mutual_exclusion_witness :
  owned donated 1%nat = [L_lock 0] ∧ holder donated (L_lock 0) = Some 1%nat ∧
  value (semas donated (S_lock (L_lock 0))) = 0.
Proof.
  split; [vm_compute; reflexivity|].
  apply (lock_mutual_exclusion SCHED_PRIO FAIR_SCHED_CFS donated (L_lock 0) 1%nat 1%nat).
  - apply final_reachable.
  - apply (bool_decide_eq_true_1 (L_lock 0 ∈ owned donated 1%nat)). vm_compute. reflexivity.
  - apply (bool_decide_eq_true_1 (L_lock 0 ∈ owned donated 1%nat)). vm_compute. reflexivity.
Defined.

Lemma threads_accounted_for_witness :
  waiters (semas donated (S_lock (L_lock 0))) = [3%nat] ∧
  status (th (sch donated) 3%nat) = THREAD_BLOCKED ∧ 3%nat ∉ sleeping_threads (sch donated) ∧
  NoDup (ready (sch donated)).
Proof.
  destruct (threads_accounted_for SCHED_PRIO FAIR_SCHED_CFS donated (final_reachable _ _ _)) as (_ & Hn & _ & Hw).
  split; [vm_compute; reflexivity|].
  destruct (Hw (S_lock (L_lock 0)) 3%nat) as (Hb & _ & Hs & _).
  - apply (bool_decide_eq_true_1 (3%nat ∈ waiters (semas donated (S_lock (L_lock 0))))). vm_compute. reflexivity.
  - exact (conj Hb (conj Hs Hn)).
Defined.

(** Two more threads of lower priorities than the donated one. *)
Definition queued : machine :=
  final SCHED_PRIO FAIR_SCHED_CFS
    (donation_run ++ E_call (A_create 4 20) :: execs 11 ++ E_call (A_create 5 35) :: execs 11).

Lemma priority_queue_sorted_witness :
  priority_ready_list (sch queued) = [5; 4]%nat ∧
  next_thread_to_run (sch queued) = Ret (Some 5%nat, with_priority_ready_list (sch queued) [4%nat]).
Proof.
  assert (priority_ready_list (sch queued) = [5; 4]%nat) as E by (vm_compute; reflexivity). split; [exact E|].
  destruct (priority_queue_sorted FAIR_SCHED_CFS queued (final_reachable _ _ _)) as [_ H].
  exact (proj1 (H 5%nat [4%nat] E)).
Defined.

(** The initial thread is inside as a writer, and a reader waits. *)
Definition writing : machine :=
  final SCHED_FIFO FAIR_SCHED_CFS (E_call (A_rw_acquire 0 false) :: execs 8 ++
    E_call (A_create 3 31) :: execs 9 ++ E_call A_yield :: E_call (A_rw_acquire 0 true) :: execs 10).

Lemma rw_lock_exclusion_witness :
  inside writing 0%nat = [(1%nat, false)] ∧ AR (rws writing 0%nat) = 0 ∧ WR (rws writing 0%nat) = 1.
Proof.
  split; [|vm_compute; split; reflexivity].
  apply (rw_lock_exclusion SCHED_FIFO FAIR_SCHED_CFS writing 0%nat (final_reachable _ _ _)).
  apply (bool_decide_eq_true_1 ((1%nat, false) ∈ inside writing 0%nat)). vm_compute. reflexivity.
Defined.

(** ** Interleavings that go wrong *)

(** A full time slice. *)
Definition slice : list event := replicate 4 E_tick.

(** Threads 3 and 4 wait on condition 0 with lock 0; the time slice of 4 ends once it
    has released the lock and before it sleeps on its own semaphore.  Thread 1 then
    takes the lock and signals. *)
Definition cond_race : list event :=
  E_call (A_create 3 31) :: execs 11 ++ E_call (A_create 4 31) :: execs 11 ++
  E_call A_yield :: E_call (A_lock_acquire 0) :: execs 5 ++ E_call (A_cond_wait 0 0) :: execs 5 ++
  E_call (A_lock_acquire 0) :: execs 5 ++ E_call (A_cond_wait 0 0) :: execs 4 ++ slice ++
  E_call (A_lock_acquire 0) :: execs 5.

(** [cond_signal] under the priority policy can bring the kernel down.  There is a
    reachable state in which the running thread holds the lock, calls [cond_signal] with
    two waiters, and an assertion fails: [cond_sema_priority_less] takes the front of the
    empty list of the waiter that has released the lock and not yet gone to sleep. *)
Theorem cond_signal_race_panics :
  ∃ m, reachable SCHED_PRIO FAIR_SCHED_CFS m ∧ holder m (L_lock 0) = Some (cur m) ∧
    conds m (C_client 0) = [3; 4]%nat ∧ waiters (semas m (S_waiter 4)) = [] ∧
    stack m (cur m) = [P_cond_signal (C_client 0) (L_lock 0)] ∧ exec m = Panic.
Proof.
  exists (final SCHED_PRIO FAIR_SCHED_CFS (cond_race ++ [E_call (A_cond_signal 0 0)])).
  split; [apply final_reachable|]. vm_compute. repeat split.
Qed.

(** The creator's time slice ends once the new thread 3 is on the ready queue; 3 runs and
    exits before the creator runs again. *)
Definition create_race : list event := E_call (A_create 3 31) :: execs 8 ++ slice ++ [E_call A_exit].

(** [thread_create] can read a page that has been freed.  There is a reachable state in
    which the running thread is about to compare its effective priority with that of the
    thread it created, and that thread has run, exited and had its page freed. *)
Theorem thread_create_reads_freed :
  ∃ m, reachable SCHED_FIFO FAIR_SCHED_CFS m ∧ stack m (cur m) = [P_yield_to 3] ∧
    magic (th (sch m) 3%nat) = false ∧ exec m = UB.
Proof.
  exists (final SCHED_FIFO FAIR_SCHED_CFS create_race).
  split; [apply final_reachable|]. vm_compute. repeat split.
Qed.

End SynchDemo.
