(* ===== verification/Donation.v ===== *)
(** * Priority donation

    What the donation loop of [lock_acquire] and the recomputation of [lock_release]
    and [thread_set_priority] do to effective priorities: a donation reaches every
    thread of the chain of holders, and a release leaves a thread with the greatest of
    its own priority and those of the waiters of the locks it still holds.  A cycle of
    waiting threads keeps the loop, which runs with interrupts off, from ending. *)

From stdpp Require Import base tactics numbers list option sorting.
From S2P Require Import Prelude KList KListProofs ThreadState Thread ThreadProofs Synch SynchProofs SynchSched SynchDemo.

Module Donation.
Import ThreadState Thread ThreadProofs Synch SynchProofs SynchSched SynchDemo.

(** ** Chains *)

(** The thread that holds the lock [t] waits for. *)
Definition next_holder (hold : lid → option tptr) (s : sched) (t : tptr) : option tptr :=
  waiting_lock (th s t) ≫= hold.

(** [chain] lists the holders after [h], to the one that waits for no held lock. *)
Fixpoint chain_of (hold : lid → option tptr) (s : sched) (h : tptr) (chain : list tptr) : Prop :=
  match chain with
  | [] => next_holder hold s h = None
  | n :: chain => next_holder hold s h = Some n ∧ chain_of hold s n chain
  end.

(** The running maximum of [p] and the elements of a list. *)
Fixpoint running_max (p : Z) (l : list Z) : list Z :=
  match l with [] => [] | x :: l => Z.max p x :: running_max (Z.max p x) l end.

(** Nothing differs but effective priorities, those of [ts] only, and the order of the ready
    list of the priority policies. *)
Record raised (s s' : sched) (ts : list tptr) : Prop := mk_raised {
  rs_rest : s' = with_priority_ready_list (with_threads s (threads s')) (priority_ready_list s');
  rs_eff t : th s' t = with_eff_priority (th s t) (eff_priority (th s' t));
  rs_others t : t ∉ ts → th s' t = th s t }.

Lemma with_eff_same r : r = with_eff_priority r (eff_priority r).
Proof. by destruct r. Qed.

Lemma rest_refl s : s = with_priority_ready_list (with_threads s (threads s)) (priority_ready_list s).
Proof. by destruct s. Qed.

Lemma raised_refl s l : raised s s l.
Proof. constructor; [apply rest_refl|intros; apply with_eff_same|done]. Qed.

Lemma donate_spec s t p : magic (th s t) = true →
  ∃ s', donate s t p = Ret s' ∧ raised s s' [t] ∧ eff_priority (th s' t) = p.
Proof.
  intros Hm. unfold donate. cbn [is_thread]. rewrite Hm. cbn [DEFINED mbind outcome_bind].
  set (s1 := upd s t _). assert (magic (th s1 t) = true) as Hm1 by (unfold s1; by rewrite upd_eq).
  assert (∀ s', threads s' = threads s1 → s' = with_priority_ready_list s1 (priority_ready_list s') →
    raised s s' [t] ∧ eff_priority (th s' t) = p) as Hfin.
  { intros s' E Es. split; [constructor|]; [by rewrite Es at 1; rewrite E|..]; rewrite E; unfold s1.
    - intros x. destruct (decide (x = t)) as [->|]; [by rewrite upd_eq|rewrite upd_ne by done; apply with_eff_same].
    - intros x Hx. rewrite upd_ne; [done|]. intros ->. apply Hx. by left.
    - by rewrite upd_eq. }
  destruct (bool_decide (status (th s1 t) = THREAD_READY)) eqn:E; [|eexists; split; [done|apply Hfin; [done|apply rest_refl]]].
  unfold thread_reinsert_ready. cbn [is_thread]. rewrite Hm1, E. cbn [ASSERT mbind outcome_bind].
  destruct (active_sched_policy s1); eexists; (split; [done|apply Hfin; [done|]]); first [done|apply rest_refl].
Qed.

(** The body of the loop on one holder. *)
Lemma donate_raise s t p : magic (th s t) = true →
  ∃ s', (if eff_priority (th s t) <? p then donate s t p else Ret s) = Ret s' ∧
    raised s s' [t] ∧ eff_priority (th s' t) = Z.max p (eff_priority (th s t)).
Proof.
  intros Hm. destruct (Z.ltb_spec (eff_priority (th s t)) p).
  - rewrite Z.max_l by lia. by apply donate_spec.
  - exists s. split; [done|]. rewrite Z.max_r by lia. split; [apply raised_refl|done].
Qed.

Lemma raised_trans s1 s2 s3 l l' : raised s1 s2 l → raised s2 s3 l' → raised s1 s3 (l ++ l').
Proof.
  intros [R1 E1 O1] [R2 E2 O2]. constructor.
  - rewrite R2 at 1. by rewrite R1 at 1.
  - intros t. rewrite E2 at 1. rewrite E1 at 1. by destruct (th s1 t).
  - intros t. rewrite elem_of_app. intros Hn. rewrite O2, O1; tauto.
Qed.

Lemma chain_of_raised hold s s' l h chain : raised s s' l → chain_of hold s h chain → chain_of hold s' h chain.
Proof.
  intros Hr. assert (∀ t, next_holder hold s' t = next_holder hold s t) as E.
  { intros t. unfold next_holder. by rewrite (rs_eff _ _ _ Hr t). }
  revert h. induction chain as [|n chain IH]; intros h; cbn; rewrite E; naive_solver.
Qed.

Lemma donate_chain_run hold chain : ∀ fuel s h, chain_of hold s h chain → NoDup (h :: chain) →
  (∀ t, t ∈ chain → magic (th s t) = true) → (length chain < fuel)%nat →
  ∃ s', donate_chain fuel hold s h = Ret s' ∧ raised s s' chain ∧
    map (λ t, eff_priority (th s' t)) chain =
    running_max (eff_priority (th s h)) (map (λ t, eff_priority (th s t)) chain).
Proof.
  induction chain as [|n chain IH]; intros [|fuel] s h Hc Hn Hm Hf; cbn in Hf; try lia; cbn [donate_chain].
  - cbn in Hc. unfold next_holder in Hc. rewrite Hc. exists s. split; [done|].
    split; [apply raised_refl|done].
  - destruct Hc as [Hh Hc]. unfold next_holder in Hh. rewrite Hh. cbn [is_thread]. rewrite (Hm n) by by left.
    cbn [DEFINED mbind outcome_bind].
    destruct (donate_raise s n (eff_priority (th s h))) as (s1 & E1 & R1 & P1); [apply Hm; by left|].
    rewrite E1. cbn [mbind outcome_bind]. apply list.NoDup_cons in Hn as [Hh' Hn].
    destruct (IH fuel s1 n) as (s2 & E2 & R2 & P2).
    + by eapply chain_of_raised.
    + done.
    + intros t Ht. rewrite (rs_eff _ _ _ R1 t). cbn. apply Hm. by right.
    + lia.
    + exists s2. split; [done|]. split; [by apply (raised_trans _ _ _ [n] chain R1 R2)|].
      apply list.NoDup_cons in Hn as [Hnc _]. cbn [map running_max]. f_equal.
      * by rewrite (rs_others _ _ _ R2 n Hnc), P1.
      * rewrite P2, P1. f_equal. apply map_ext_in. intros t Ht%list_elem_of_In. rewrite (rs_others _ _ _ R1); [done|].
        intros ->%list_elem_of_singleton. done.
Qed.

(** The ready list keeps its threads and stays in order. *)
Lemma donate_queue s t p s' : sched_ok s → idle_thread s ≠ Some t → magic (th s t) = true → donate s t p = Ret s' →
  calm s s' ∧ priority_ready_list s' ≡ₚ priority_ready_list s.
Proof.
  intros Hok Hid Hm Hrun. split; [by eapply donate_calm|]. unfold donate in Hrun. cbn [is_thread] in Hrun. rewrite Hm in Hrun.
  cbn [DEFINED mbind outcome_bind] in Hrun. set (s1 := upd s t _) in *. destruct Hok as [H _ _].
  assert (status (th s1 t) = status (th s t) ∧ magic (th s1 t) = true) as [E1 E2] by (unfold s1; by rewrite upd_eq).
  destruct (bool_decide (status (th s1 t) = THREAD_READY)) eqn:E; [|by injection Hrun as <-].
  unfold thread_reinsert_ready in Hrun. cbn [is_thread] in Hrun. rewrite E2, E in Hrun. cbn [ASSERT mbind outcome_bind] in Hrun.
  apply bool_decide_eq_true in E. rewrite E1 in E. destruct (sh_all _ _ H t Hm E) as [Hin|]; [|done].
  change (active_sched_policy s1) with (active_sched_policy s) in Hrun. pose proof (sh_nodup _ _ H) as Hn. unfold ready in Hin, Hn.
  assert (t ∈ priority_ready_list s → NoDup (priority_ready_list s) →
    t :: list_remove t (priority_ready_list s) ≡ₚ priority_ready_list s) as Hp.
  { intros Ht Hnd. apply NoDup_Permutation; [|done|].
    - constructor; [rewrite elem_of_list_remove; tauto|]. by apply NoDup_filter.
    - intros x. rewrite elem_of_cons, elem_of_list_remove. destruct (decide (x = t)) as [->|]; tauto. }
  destruct (active_sched_policy s); injection Hrun as <-; [done| |done|]; cbn; rewrite KListProofs.ordered_insert_perm; by apply Hp.
Qed.

Lemma donate_chain_queue fuel hold s h s' : sched_ok s → (∀ l t, hold l = Some t → idle_thread s ≠ Some t) →
  donate_chain fuel hold s h = Ret s' → priority_ready_list s' ≡ₚ priority_ready_list s.
Proof.
  revert s h. induction fuel as [|fuel IH]; intros s h Hok Hh; [done|]. cbn [donate_chain].
  destruct (waiting_lock (th s h) ≫= hold) as [n|] eqn:E; [|by intros [= ->]]. apply bind_Some in E as (l & _ & Hl).
  intros (u & Hm%DEFINED_Ret & (s1 & H1 & H2)%bind_Ret)%bind_Ret. cbn [is_thread] in Hm.
  assert (calm s s1 ∧ priority_ready_list s1 ≡ₚ priority_ready_list s) as [Hc Hp].
  { case_match; [|injection H1 as <-; split; [by apply calm_refl|done]]. eapply donate_queue; [done|by eapply Hh|done|done]. }
  rewrite (IH s1 n); [done|apply Hc| |done]. intros l' t Hl'. rewrite (st_idle _ _ (cm_steady _ _ Hc)). by eapply Hh.
Qed.

(** C30. A donation reaches the whole chain.  When the thread that asks for a lock has a
    higher effective priority than the holder [h], the holders after [h] (each holding the lock
    the one before waits for) end in one that waits for no held lock and are distinct live
    threads, and the idle thread holds no lock, the donation code returns.  Each thread of
    the chain then has the greatest of the donor's priority, its own and those of the threads
    before it.  Nothing else of any thread changes; the ready list has the same threads,
    still in order of priority under the priority policy ([sched_ok]), and the rest of the
    scheduler and of the locks is as it was. *)
Theorem donation_reaches_chain m h chain k : sched_ok (sch m) →
  (∀ l t, holder m l = Some t → idle_thread (sch m) ≠ Some t) → idle_thread (sch m) ≠ Some h →
  chain_of (holder m) (sch m) h chain → NoDup (h :: chain) → h :: chain ⊆ all_list (sch m) →
  (∀ t, t ∈ h :: chain → magic (th (sch m) t) = true) →
  eff_priority (th (sch m) h) < eff_priority (th (sch m) (cur m)) →
  ∃ m', lock_donate_to m h k = Ret m' ∧ m' = with_sch (goto m k) (sch m') ∧ raised (sch m) (sch m') (h :: chain) ∧
    sched_ok (sch m') ∧ priority_ready_list (sch m') ≡ₚ priority_ready_list (sch m) ∧
    map (λ t, eff_priority (th (sch m') t)) (h :: chain) =
    running_max (eff_priority (th (sch m) (cur m))) (map (λ t, eff_priority (th (sch m) t)) (h :: chain)).
Proof.
  intros Hok Hidle Hih Hc Hn Hin Hm Hlt. unfold lock_donate_to. rewrite (thread_current_run _ Hok). cbn [mbind outcome_bind].
  destruct (donate_spec (sch m) h (eff_priority (th (sch m) (cur m)))) as (s1 & E1 & R1 & P1); [apply Hm; by left|].
  destruct (donate_queue _ _ _ _ Hok Hih (Hm h ltac:(by left)) E1) as [C1 Q1].
  rewrite E1. cbn [mbind outcome_bind].
  assert (length (h :: chain) ≤ length (all_list (sch m)))%nat as Hlen.
  { apply submseteq_length, NoDup_submseteq; [done|]. intros x Hx. by apply Hin. }
  assert (∀ l t, holder m l = Some t → idle_thread s1 ≠ Some t) as Hidle1 by (by rewrite (st_idle _ _ (cm_steady _ _ C1))).
  destruct (donate_chain_run (holder m) chain (chain_fuel m) s1 h) as (s2 & E2 & R2 & P2).
  - by eapply chain_of_raised.
  - done.
  - intros t Ht. rewrite (rs_eff _ _ _ R1 t). cbn. apply Hm. by right.
  - cbn in Hlen. unfold chain_fuel. lia.
  - rewrite E2. eexists. split; [done|]. split; [done|]. cbn [sch with_sch]. split; [by apply (raised_trans _ _ _ [h] chain R1 R2)|].
    split; [apply (donate_chain_calm _ _ _ _ _ (cm_ok _ _ C1) Hidle1 E2)|].
    split; [by rewrite (donate_chain_queue _ _ _ _ _ (cm_ok _ _ C1) Hidle1 E2)|].
    apply list.NoDup_cons in Hn as [Hh Hn]. cbn [map running_max].
    rewrite (rs_others _ _ _ R2 h Hh), P1, P2, P1, Z.max_l by lia. do 2 f_equal.
    apply map_ext_in. intros t Ht%list_elem_of_In. rewrite (rs_others _ _ _ R1); [done|].
    intros ->%list_elem_of_singleton. done.
Qed.

(** ** Cycles *)

(** The donation loop does not end on a cycle.  If every thread of [C] waits for a lock
    held by a live thread of [C] (two threads that each hold the lock the other waits for,
    say), the loop entered on one of them runs out of any number of iterations. *)
Theorem donation_cycle_diverges hold (C : tptr → Prop) fuel s h :
  (∀ t, C t → ∃ n, next_holder hold s t = Some n ∧ C n ∧ magic (th s n) = true) → C h →
  donate_chain fuel hold s h = Blocked.
Proof.
  revert s h. induction fuel as [|fuel IH]; intros s h HC Hh; [done|]. cbn [donate_chain].
  destruct (HC h Hh) as (n & Hn & HCn & Hm). unfold next_holder in Hn. rewrite Hn. cbn [is_thread]. rewrite Hm.
  cbn [DEFINED mbind outcome_bind]. destruct (donate_raise s n (eff_priority (th s h)) Hm) as (s1 & E & R & _).
  rewrite E. cbn [mbind outcome_bind]. apply IH; [|done]. intros t (n' & Hn' & ? & ?)%HC. exists n'.
  unfold next_holder. rewrite (rs_eff _ _ _ R t), (rs_eff _ _ _ R n'). done.
Qed.

(** ** Release *)

(** The waiters of the locks of [held]. *)
Definition lock_waiters (m : machine) (held : list lid) : list tptr :=
  held ≫= λ l, waiters (semas m (S_lock l)).

Definition eff_of (m : machine) (t : tptr) : Z := eff_priority (th (sch m) t).

(** [donated_priority] is the greatest of [p] and the waiters' effective priorities. *)
Lemma donated_priority_max m p held :
  p ≤ donated_priority m p held ∧
  (∀ t, t ∈ lock_waiters m held → eff_of m t ≤ donated_priority m p held) ∧
  (donated_priority m p held = p ∨ ∃ t, t ∈ lock_waiters m held ∧ eff_of m t = donated_priority m p held).
Proof.
  revert p. induction held as [|l held IH]; intros p; cbn [donated_priority foldl].
  { split; [lia|]. split; [intros t Ht; by apply not_elem_of_nil in Ht|by left]. }
  set (p' := match waiters _ with [] => _ | _ => _ end). fold (donated_priority m p' held).
  assert (p ≤ p' ∧ (∀ t, t ∈ waiters (semas m (S_lock l)) → eff_of m t ≤ p') ∧
    (p' = p ∨ ∃ t, t ∈ waiters (semas m (S_lock l)) ∧ eff_of m t = p')) as (Hp & Hw & He).
  { subst p'. destruct (waiters (semas m (S_lock l))) as [|w ws].
    { split; [lia|]. split; [intros t Ht; by apply not_elem_of_nil in Ht|by left]. }
    set (t := KListProofs.pick_max _ w ws).
    assert (t ∈ w :: ws) as Hin by apply KListProofs.pick_max_in.
    assert (∀ x, x ∈ w :: ws → eff_of m x ≤ eff_of m t) as Hge.
    { by apply (KListProofs.pick_max_ge (thread_priority_less (sch m)) (eff_of m)). }
    change (eff_priority (th (sch m) t)) with (eff_of m t). destruct (Z.ltb_spec p (eff_of m t)).
    - split; [lia|]. split; [done|]. right. by exists t.
    - split; [lia|]. split; [|by left]. intros x Hx%Hge. lia. }
  destruct (IH p') as (H1 & H2 & H3). split; [lia|]. split.
  - intros t. cbn. rewrite elem_of_app. intros [Ht|Ht]; [|by apply H2]. apply Hw in Ht. lia.
  - destruct H3 as [H3|(t & Ht & E)]; [|right; exists t; split; [cbn; rewrite elem_of_app; by right|done]].
    rewrite H3. destruct He as [He|(t & Ht & E)]; [by left|]. right. exists t.
    split; [cbn; rewrite elem_of_app; by left|done].
Qed.

(** The greatest of [p] and the effective priorities of [ts]. *)
Definition greatest (m : machine) (p : Z) (ts : list tptr) (x : Z) : Prop :=
  p ≤ x ∧ (∀ t, t ∈ ts → eff_of m t ≤ x) ∧ (x = p ∨ ∃ t, t ∈ ts ∧ eff_of m t = x).

(** A release gives donations back exactly.  Under the priority policy
    [lock_release] by the holder returns; the thread's effective priority is then the
    greatest of its own priority and the effective priorities of the threads that wait
    for the locks it still holds, the lock is off its list, no other thread changes,
    and the code goes on to clear the holder and up the lock's semaphore. *)
Theorem lock_release_priority m l k : sched_ok (sch m) → policy m = SCHED_PRIO → holder m l = Some (cur m) →
  ∃ m', lock_release m l k = Ret m' ∧
    let held := filter (λ x, x ≠ l) (held_locks (th (sch m) (cur m))) in
    held_locks (th (sch m') (cur m)) = held ∧
    greatest m (priority (th (sch m) (cur m))) (lock_waiters m held) (eff_priority (th (sch m') (cur m))) ∧
    (∀ t, t ≠ cur m → th (sch m') t = th (sch m) t) ∧
    stack m' (cur m) = P_lock_clear l :: P_sema_up (S_lock l) :: k.
Proof.
  intros Hok Hp Hh. unfold lock_release, lock_held_by_current_thread. rewrite bool_decide_true by done.
  cbn [ASSERT mbind outcome_bind]. rewrite Hp, (thread_current_run _ Hok). cbn [mbind outcome_bind].
  eexists. split; [done|]. cbn [sch goto with_stack with_sch stack]. rewrite !upd_eq. split_and!.
  - done.
  - apply donated_priority_max.
  - intros t Ht. by apply upd_ne.
  - by rewrite fupd_eq.
Qed.

(** ** Condition variables *)

(** The waiters of a condition have all gone to sleep. *)
Definition all_asleep (m : machine) (c : cid) : Prop :=
  ∀ t, t ∈ conds m c → waiters (semas m (S_waiter t)) = [t].

Lemma cond_max_run m max l : (∀ t, t ∈ max :: l → waiters (semas m (S_waiter t)) = [t]) →
  cond_max m max l = Ret (KListProofs.pick_max (thread_priority_less (sch m)) max l).
Proof.
  revert max. induction l as [|e l IH]; intros max H; [done|].
  cbn [cond_max]. unfold cond_sema_priority_less, cond_front. rewrite (H max), (H e); [|by right; left|by left].
  cbn [mbind outcome_bind]. rewrite IH.
  - done.
  - intros t Ht. apply H. apply elem_of_cons in Ht as [->|Ht]; [|by right; right].
    case_match; [by right; left|by left].
Qed.

(** [cond_signal] wakes the waiter of the highest effective priority (the first one
    under the other policies), once every waiter of the condition sleeps on its own
    semaphore: it takes that waiter off the condition's list and ups its semaphore. *)
Theorem cond_signal_wakes m c l k w ws : holder m l = Some (cur m) → conds m c = w :: ws → all_asleep m c →
  ∃ m' t, cond_signal m c l k = Ret m' ∧ t ∈ w :: ws ∧
    conds m' c = list_remove t (w :: ws) ∧ stack m' (cur m) = P_sema_up (S_waiter t) :: k ∧
    (policy m = SCHED_PRIO → ∀ x, x ∈ w :: ws → eff_of m x ≤ eff_of m t) ∧ (policy m ≠ SCHED_PRIO → t = w).
Proof.
  intros Hh Hc Ha. unfold cond_signal, lock_held_by_current_thread. rewrite bool_decide_true by done.
  cbn [ASSERT mbind outcome_bind]. rewrite Hc. unfold all_asleep in Ha. rewrite Hc in Ha.
  pose proof (cond_max_run m w ws Ha) as Hrun.
  destruct (policy m) eqn:Hp; rewrite ?Hrun; cbn [mbind outcome_bind]; eexists _, _;
    (split; [done|]); cbn [conds goto with_stack with_cond stack]; rewrite !fupd_eq.
  - split; [by left|]. done.
  - split; [apply KListProofs.pick_max_in|]. split; [done|]. split; [done|]. split; [|done].
    intros _ x. by apply (KListProofs.pick_max_ge (thread_priority_less (sch m)) (eff_of m)).
  - split; [by left|]. done.
  - split; [by left|]. done.
Qed.

(** ** Runs *)

Lemma final_ok p f es : sched_ok (sch (final p f es)).
Proof. destruct (reachable_inv _ _ _ (final_reachable p f es)) as [_ H]. apply H. Qed.

(** Thread 1 holds lock 0; thread 3 holds lock 1 and waits for lock 0; thread 4 of priority
    50 has asked for lock 1 and is about to donate. *)
Definition nested : list event :=
  E_call (A_lock_acquire 0) :: execs 5 ++ E_call (A_create 3 35) :: execs 11 ++
  E_call (A_lock_acquire 1) :: execs 5 ++ E_call (A_lock_acquire 0) :: execs 4.
Definition donating : machine :=
  final SCHED_PRIO FAIR_SCHED_CFS
    (nested ++ E_call (A_create 4 50) :: execs 11 ++ E_call (A_lock_acquire 1) :: execs 2).

Lemma donation_reaches_chain_witness :
  list.head (stack donating (cur donating)) = Some (P_lock_donate_to 3) ∧
  ∃ m', lock_donate_to donating 3 (tail (stack donating (cur donating))) = Ret m' ∧
    map (λ t, eff_priority (th (sch m') t)) [3; 1]%nat = [50; 50].
Proof.
  split; [vm_compute; reflexivity|].
  destruct (donation_reaches_chain donating 3 [1%nat] (tail (stack donating (cur donating))))
    as (m' & E & _ & _ & _ & _ & P).
  - apply final_ok.
  - intros l t Hl Hi. destruct (reachable_inv _ _ _ (final_reachable _ _ _ : reachable _ _ donating)) as [_ H].
    exact (proj2 (wi_idle _ H t Hi) l Hl).
  - vm_compute. discriminate.
  - vm_compute. split; reflexivity.
  - apply (bool_decide_eq_true_1 (NoDup [3; 1]%nat)). vm_compute. reflexivity.
  - apply (bool_decide_eq_true_1 ([3; 1]%nat ⊆ all_list (sch donating))). vm_compute. reflexivity.
  - apply Forall_forall, Forall_cons. split; [vm_compute; reflexivity|].
    apply Forall_cons. split; [vm_compute; reflexivity|apply Forall_nil; exact I].
  - vm_compute. reflexivity.
  - exists m'. split; [exact E|]. rewrite P. vm_compute. reflexivity.
Defined.

(** Thread 4 has donated 50 to thread 1 by asking for lock 0, and thread 1 asks for
    lock 1: thread 3 and thread 1 wait for each other. *)
Definition deadlocked : machine :=
  final SCHED_PRIO FAIR_SCHED_CFS
    (nested ++ E_call (A_create 4 50) :: execs 11 ++ E_call (A_lock_acquire 0) :: execs 4 ++
     E_call (A_lock_acquire 1) :: execs 2).

Lemma donation_cycle_diverges_witness :
  list.head (stack deadlocked (cur deadlocked)) = Some (P_lock_donate_to 3) ∧
  ∀ fuel, donate_chain fuel (holder deadlocked) (sch deadlocked) 3 = Blocked.
Proof.
  split; [vm_compute; reflexivity|]. intros fuel.
  apply (donation_cycle_diverges (holder deadlocked) (λ t, t = 3%nat ∨ t = 1%nat) fuel (sch deadlocked) 3).
  - intros t [-> | ->].
    + exists 1%nat. vm_compute. auto.
    + exists 3%nat. vm_compute. auto.
  - auto.
Defined.

Lemma lock_release_priority_witness :
  eff_of donated 1%nat = 40 ∧ ∃ m', lock_release donated (L_lock 0) [] = Ret m' ∧
    held_locks (th (sch m') 1%nat) = [] ∧ eff_priority (th (sch m') 1%nat) = 31.
Proof.
  split; [vm_compute; reflexivity|].
  destruct (lock_release_priority donated (L_lock 0) []) as (m' & E & Hl & (_ & _ & Hg) & _).
  - apply final_ok.
  - vm_compute. reflexivity.
  - vm_compute. reflexivity.
  - exists m'. split; [exact E|]. change (cur donated) with (id (cur donated)) in *.
    assert (id (cur donated) = 1%nat) as Ec by (vm_compute; reflexivity). rewrite Ec in Hl, Hg.
    split; [rewrite Hl; vm_compute; reflexivity|]. destruct Hg as [Hg|(t & Ht & _)].
    + rewrite Hg. vm_compute. reflexivity.
    + exfalso. revert Ht.
      assert (lock_waiters donated (filter (λ x, x ≠ L_lock 0) (held_locks (th (sch donated) 1%nat))) = []) as ->
        by (vm_compute; reflexivity). apply not_elem_of_nil.
Defined.

(** Threads 3 and 4, of priorities 31 and 32, sleep on condition 0; thread 1 has the lock
    and signals. *)
Definition signalling : machine :=
  final SCHED_PRIO FAIR_SCHED_CFS
    (E_call (A_create 3 31) :: execs 11 ++ E_call A_yield :: E_call (A_lock_acquire 0) :: execs 5 ++
     E_call (A_cond_wait 0 0) :: execs 5 ++ E_call (A_create 4 32) :: execs 11 ++
     E_call (A_lock_acquire 0) :: execs 5 ++ E_call (A_cond_wait 0 0) :: execs 5 ++
     E_call (A_lock_acquire 0) :: execs 5 ++ [E_call (A_cond_signal 0 0)]).

Lemma cond_signal_wakes_witness :
  ∃ m', exec signalling = Ret m' ∧ conds m' (C_client 0) = [3%nat] ∧
    stack m' (cur signalling) = [P_sema_up (S_waiter 4)].
Proof.
  destruct (cond_signal_wakes signalling (C_client 0) (L_lock 0) [] 3%nat [4%nat])
    as (m' & t & E & Ht & Hc & Hs & Hp & _).
  - vm_compute. reflexivity.
  - vm_compute. reflexivity.
  - intros t Ht. assert (conds signalling (C_client 0) = [3; 4]%nat) as Ec by (vm_compute; reflexivity).
    rewrite Ec in Ht. apply elem_of_cons in Ht as [->|Ht]; [vm_compute; reflexivity|].
    apply list_elem_of_singleton in Ht as ->. vm_compute. reflexivity.
  - assert (t = 4%nat) as ->.
    { apply elem_of_cons in Ht as [->|Ht%list_elem_of_singleton]; [|exact Ht]. exfalso.
      assert (eff_of signalling 4%nat ≤ eff_of signalling 3%nat) as Hle.
      { apply Hp; [vm_compute; reflexivity|]. right. left. }
      revert Hle. vm_compute. intros Hle. apply Hle. reflexivity. }
    exists m'. split; [|split; [rewrite Hc; vm_compute; reflexivity|exact Hs]].
    rewrite <- E. vm_compute. reflexivity.
Defined.

End Donation.
