(* ===== verification/Scheduler.v ===== *)
(** * Scheduling: what each policy promises

    The theorems of the thread component: the thread each policy switches to, the
    alarm clock, and the multi-level feedback scheduler's load average and
    priorities. *)

From stdpp Require Import base tactics numbers list option sorting sets.
From S2P Require Import Prelude KList KListProofs FixedPoint ThreadState Thread ThreadProofs Synch SynchSched SynchDemo.

Module Scheduler.
Import ThreadState Thread ThreadProofs Synch SynchSched SynchDemo.

(** ** The next thread *)

(** C31. [schedule] always finds a thread and switches to the one the active policy must
    run: the longest waiting one (FIFO), one of the highest effective priority (PRIO), the
    first of the queue (MLFQS), the smallest virtual runtime (CFS), the earliest deadline
    among the eligible (EEVDF), and the idle thread only when no thread is ready.  The two
    fair policies without an implementation, of which stride is the default, panic as soon
    as a thread is ready. *)
Theorem schedule_follows_policy s : shape s (λ _, False) → status (th s (current s)) ≠ THREAD_RUNNING →
  (schedulable s → ∃ s' n, schedule s = Ret s' ∧ sched_ok s' ∧ switched s s' n ∧
    (chosen s n ∨ ready s = [] ∧ idle_thread s = Some n)) ∧
  (active_sched_policy s = SCHED_FAIR → ready s ≠ [] →
   active_fair_sched_type s = FAIR_SCHED_STRIDE ∨ active_fair_sched_type s = FAIR_SCHED_LOTTERY →
   schedule s = Panic).
Proof.
  intros H Hc. split; [intros Hs; by apply schedule_run|]. intros Hp Hr Hf.
  unfold schedule, next_thread_to_run, thread_schedule_fair, thread_schedule_stride, thread_schedule_lottery.
  unfold ready in Hr. rewrite Hp in Hr |- *. destruct (fair_ready_list s); [done|]. by destruct Hf as [-> | ->].
Qed.

(** The running thread has blocked with two threads ready. *)
Definition before_switch : sched :=
  let s := sch (final SCHED_PRIO FAIR_SCHED_CFS
    (E_call (A_create 3 20) :: execs 11 ++ E_call (A_create 4 25) :: execs 11)) in
  upd s (current s) (λ r, with_status r THREAD_BLOCKED).

Lemma schedule_follows_policy_witness :
  ready before_switch = [4; 3]%nat ∧ ∃ s', schedule before_switch = Ret s' ∧ current s' = 4%nat ∧ sched_ok s'.
Proof.
  assert (ready before_switch = [4; 3]%nat) as Er by (vm_compute; reflexivity). split; [exact Er|].
  destruct (schedule_follows_policy before_switch) as [H _].
  - refine (stop_shape _ THREAD_BLOCKED (wi_sched _ (proj2 (reachable_inv _ _ _ (final_reachable _ _ _)))) _).
    left. reflexivity.
  - vm_compute. intros [=].
  - destruct H as (s' & n & E & Hok & Hsw & [[Hn Hmax]|[Hn _]]).
    + assert (active_sched_policy before_switch = SCHED_PRIO) as Ep by (vm_compute; reflexivity).
      intros Ef. exfalso. rewrite Ep in Ef. discriminate Ef.
    + exists s'. split; [exact E|]. split; [|exact Hok].
      assert (active_sched_policy before_switch = SCHED_PRIO) as Ep by (vm_compute; reflexivity). rewrite Ep in Hmax.
      rewrite (sw_current _ _ _ Hsw). rewrite Er in Hn. apply elem_of_cons in Hn as [->|Hn]; [reflexivity|].
      apply list_elem_of_singleton in Hn as ->. exfalso.
      assert (4%nat ∈ ready before_switch) as Hin by (rewrite Er; left). apply Hmax in Hin.
      revert Hin. vm_compute. intros Hle. apply Hle. reflexivity.
    + exfalso. rewrite Er in Hn. discriminate Hn.
Defined.

(** ** The alarm clock *)

(** Sleepers are in the order in which they wake. *)
Definition earlier (s : sched) (a b : tptr) : Prop := wake_up_tick (th s a) ≤ wake_up_tick (th s b).
Definition sleep_sorted (s : sched) : Prop := StronglySorted (earlier s) (sleeping_threads s).

#[global] Instance earlier_trans s : Transitive (earlier s).
Proof. unfold earlier. intros a b c. lia. Qed.

Lemma earlier_ext s s' l : (∀ t, t ∈ l → wake_up_tick (th s' t) = wake_up_tick (th s t)) →
  StronglySorted (earlier s) l → StronglySorted (earlier s') l.
Proof.
  intros He. induction 1 as [|x l Hs IH Hx]; constructor.
  - apply IH. intros t Ht. apply He. by right.
  - rewrite list.Forall_forall in Hx |- *. intros y Hy. unfold earlier.
    rewrite !He by (done || by left || by right). by apply Hx.
Qed.

Lemma sorted_filter {A} (R : A → A → Prop) (P : A → Prop) `{∀ x, Decision (P x)} (l : list A) :
  StronglySorted R l → StronglySorted R (filter P l).
Proof.
  induction 1 as [|x l Hs IH Hx]; [constructor|]. rewrite filter_cons. case_decide; [|done]. constructor; [done|].
  rewrite list.Forall_forall in Hx |- *. intros y [_ Hy]%list_elem_of_filter. by apply Hx.
Qed.

Lemma earlier_filter s l : StronglySorted (earlier s) l →
  ∀ t l', l = t :: l' → ticks s < wake_up_tick (th s t) → filter (λ x, ticks s < wake_up_tick (th s x)) l = l.
Proof.
  intros Hs t l' -> Ht. apply StronglySorted_inv in Hs as [_ Hs]. rewrite list.Forall_forall in Hs.
  apply list_filter_all. intros x [->|Hx%Hs]%elem_of_cons; [done|]. unfold earlier in Hx. lia.
Qed.

(** Waking the due sleepers: what is left of the list, and where the others are. *)
Lemma wake_sleepers_run l s : sched_ok s → sleeping_threads s = l → sleep_sorted s →
  ∃ s', wake_sleepers l s = Ret s' ∧ sched_ok s' ∧ current s' = current s ∧
    sleeping_threads s' = filter (λ x, ticks s < wake_up_tick (th s x)) l ∧
    ready s' ≡ₚ filter (λ x, wake_up_tick (th s x) ≤ ticks s) l ++ ready s ∧
    (∀ x, wake_up_tick (th s' x) = wake_up_tick (th s x)).
Proof.
  revert s. induction l as [|t l IH]; intros s Hok Hl Hso; cbn [wake_sleepers].
  { exists s. done. }
  unfold sleep_sorted in Hso. rewrite Hl in Hso.
  destruct (Z.ltb_spec (ticks s) (wake_up_tick (th s t))) as [Hlt|Hge].
  { exists s. split; [done|]. split; [done|]. split; [done|]. rewrite (earlier_filter s _ Hso t l eq_refl Hlt).
    split; [done|]. split; [|done]. apply StronglySorted_inv in Hso as [_ Hso]. rewrite list.Forall_forall in Hso.
    rewrite list_filter_none; [done|]. intros x [->|Hx%Hso]%elem_of_cons; [lia|]. unfold earlier in Hx. lia. }
  destruct (wake_one s t l Hok Hl) as (s2 & E & Hok2 & _ & Hc2 & Hk2 & Hsl2 & Hp2 & Hx2). rewrite E.
  cbn [mbind outcome_bind].
  assert (∀ x, wake_up_tick (th s2 x) = wake_up_tick (th s x)) as Hw.
  { intros x. rewrite Hx2. by destruct (decide (x = t)) as [->|]. }
  destruct (IH s2) as (s' & E' & Hok' & Hc' & Hsl' & Hp' & Hw'); [done|done| |].
  { unfold sleep_sorted. rewrite Hsl2. apply StronglySorted_inv in Hso as [Hso _].
    by apply (earlier_ext s). }
  exists s'. split; [done|]. split; [done|]. split; [congruence|].
  assert (∀ k : list tptr, filter (λ x, ticks s2 < wake_up_tick (th s2 x)) k = filter (λ x, ticks s < wake_up_tick (th s x)) k) as F1.
  { intros k. apply list_filter_iff. intros x. by rewrite Hk2, Hw. }
  assert (∀ k : list tptr, filter (λ x, wake_up_tick (th s2 x) ≤ ticks s2) k = filter (λ x, wake_up_tick (th s x) ≤ ticks s) k) as F2.
  { intros k. apply list_filter_iff. intros x. by rewrite Hk2, Hw. }
  rewrite !filter_cons, decide_False, decide_True by lia. split; [by rewrite Hsl', F1|]. split.
  - rewrite Hp', F2, Hp2. cbn [app]. symmetry. apply Permutation_middle.
  - intros x. by rewrite Hw', Hw.
Qed.

(** C32. The alarm clock wakes exactly the threads that are due.  On a list of sleepers in
    the order of their wake-up ticks, the timer interrupt's loop returns; it leaves the
    sleepers whose tick has not come, in order, makes every other one ready, and the
    running thread stays.  The list [timer_sleep] inserts into is again in that order. *)
Theorem alarm_clock s : sched_ok s → sleep_sorted s →
  (∃ s', wake_sleepers (sleeping_threads s) s = Ret s' ∧ sched_ok s' ∧ sleep_sorted s' ∧
    current s' = current s ∧
    sleeping_threads s' = filter (λ x, ticks s < wake_up_tick (th s x)) (sleeping_threads s) ∧
    ready s' ≡ₚ filter (λ x, wake_up_tick (th s x) ≤ ticks s) (sleeping_threads s) ++ ready s) ∧
  ∀ n, let s1 := upd s (current s) (λ r, with_wake_up_tick r n) in
    sleep_sorted (insert_sleeper s1 (current s)) ∧
    sleeping_threads (insert_sleeper s1 (current s)) ≡ₚ current s :: sleeping_threads s.
Proof.
  intros Hok Hs. split.
  - destruct (wake_sleepers_run _ s Hok eq_refl Hs) as (s' & E & Hok' & Hc & Hsl & Hp & Hw).
    exists s'. split_and!; try done. unfold sleep_sorted. rewrite Hsl. apply (earlier_ext s); [done|].
    apply sorted_filter, Hs.
  - intros n s1.
    assert (∀ x, x ∈ sleeping_threads s → th s1 x = th s x) as Hx.
    { intros x Hin. apply upd_ne. intros ->. apply (sh_sleep _ _ (ok_shape _ Hok)) in Hin as [_ ?].
      pose proof (ok_running _ Hok). congruence. }
    split; [|apply KListProofs.ordered_insert_perm].
    apply KListProofs.ordered_insert_sorted; [exact (earlier_trans s1)|..].
    + intros y. rewrite Z.ltb_lt. unfold earlier. cbn [threads insert_sleeper with_sleeping_threads]. lia.
    + intros y. rewrite Z.ltb_ge. done.
    + apply (earlier_ext s); [|exact Hs]. intros x Hin. exact (f_equal wake_up_tick (Hx x Hin)).
Qed.

(** Threads 3 and 1 sleep until ticks 2 and 5; the idle thread runs at tick 3. *)
Definition sleeping : sched :=
  with_ticks (sch (final SCHED_FIFO FAIR_SCHED_CFS (E_call (A_create 3 31) :: execs 9 ++
    [E_call (A_sleep 5); E_call (A_sleep 2)]))) 3.

Lemma with_ticks_ok s n : sched_ok s → sched_ok (with_ticks s n).
Proof. intros H. apply (similar_ok s); [by constructor|done]. Qed.

Lemma alarm_clock_witness :
  sleeping_threads sleeping = [3; 1]%nat ∧
  ∃ s', wake_sleepers (sleeping_threads sleeping) sleeping = Ret s' ∧ sleeping_threads s' = [1%nat] ∧
    ready s' ≡ₚ [3%nat].
Proof.
  split; [vm_compute; reflexivity|].
  destruct (alarm_clock sleeping) as [(s' & E & _ & _ & _ & Hs & Hr) _].
  - apply with_ticks_ok, (wi_sched _ (proj2 (reachable_inv _ _ _ (final_reachable _ _ _)))).
  - unfold sleep_sorted. assert (sleeping_threads sleeping = [3; 1]%nat) as -> by (vm_compute; reflexivity).
    repeat constructor. unfold earlier. vm_compute. intros [=].
  - exists s'. split; [exact E|]. split; [rewrite Hs; vm_compute; reflexivity|].
    rewrite Hr. vm_compute. reflexivity.
Defined.

(** ** Multi-level feedback queues *)

(** The threads the load average counts. *)
Definition load (s : sched) : Z :=
  Z.of_nat (length (priority_ready_list s)) + (if is_idle s (current s) then 0 else 1).

(** The load average never overflows and never exceeds the number of threads.  If it is
    between 0 and [n] (below 32768) and at most [n] threads are ready or running, the
    update returns and leaves it between 0 and [n]; so does reading it as a percentage
    when [n] is at most 327. *)
Theorem mlfqs_load_avg_bounded s n : sched_ok s → n < 32768 → load s ≤ n →
  0 ≤ load_avg s ≤ n * 65536 →
  (∃ s', mlfqs_update_load_avg s = Ret s' ∧ s' = with_load_avg s (load_avg s') ∧
    0 ≤ load_avg s' ≤ n * 65536) ∧
  (n ≤ 327 → ∃ v, thread_get_load_avg s = Ret v ∧ 0 ≤ v ≤ n * 100 + 1).
Proof.
  intros Hok Hn Hl Ha. assert (0 ≤ load s) as Hl0 by (unfold load; case_match; lia). split.
  - unfold mlfqs_update_load_avg. rewrite (thread_current_run _ Hok). cbn [mbind outcome_bind].
    assert ((if is_idle s (current s) then Z.of_nat (length (priority_ready_list s))
             else Z.of_nat (length (priority_ready_list s)) + 1) = load s) as ->
      by (unfold load; case_match; lia).
    assert (FixedPoint.fix_frac 59 60 = Ret (FixedPoint.mk_fix 64443)) as -> by reflexivity.
    assert (FixedPoint.fix_frac 1 60 = Ret (FixedPoint.mk_fix 1092)) as -> by reflexivity.
    cbn [mbind outcome_bind]. rewrite (FixedPoint.fix_int_run (load s)) by lia. cbn [mbind outcome_bind].
    unfold FixedPoint.fix_mul. cbn [FixedPoint.f]. rewrite FixedPoint.fix_F.
    set (x := Z.quot (64443 * load_avg s) 65536). set (y := Z.quot (1092 * (load s * 65536)) 65536).
    assert (0 ≤ x ≤ n * 64443) as Hx.
    { unfold x. rewrite Z.quot_div_nonneg by lia. split; [apply Z.div_pos; lia|].
      apply Z.div_le_upper_bound; lia. }
    assert (0 ≤ y ≤ n * 1092) as Hy.
    { unfold y. rewrite Z.quot_div_nonneg by lia. split; [apply Z.div_pos; lia|].
      apply Z.div_le_upper_bound; lia. }
    rewrite !s32_small by lia. unfold FixedPoint.fix_add. cbn [FixedPoint.f].
    rewrite FixedPoint.int_expr_ok by lia. eexists. split; [done|]. cbn. split; [done|lia].
  - intros Hn'. unfold thread_get_load_avg, FixedPoint.fix_scale. cbn [FixedPoint.f].
    change (0 <=? 100) with true. cbn [ASSERT mbind outcome_bind]. rewrite FixedPoint.int_expr_ok by lia.
    cbn [mbind outcome_bind]. unfold FixedPoint.fix_round. cbn [FixedPoint.f]. rewrite FixedPoint.fix_F.
    change (Z.quot 65536 2) with 32768. rewrite FixedPoint.int_expr_ok by lia. eexists. split; [done|].
    rewrite Z.quot_div_nonneg by lia. split; [apply Z.div_pos; lia|]. apply Z.div_le_upper_bound; lia.
Qed.

Lemma mlfqs_load_avg_bounded_witness :
  ∃ s', mlfqs_update_load_avg (sch (boot SCHED_MLFQS FAIR_SCHED_CFS)) = Ret s' ∧ 0 ≤ load_avg s' ≤ 65536.
Proof.
  destruct (mlfqs_load_avg_bounded (sch (boot SCHED_MLFQS FAIR_SCHED_CFS)) 1) as [(s' & E & _ & H) _].
  - exact (wi_sched _ (boot_wait_inv _ _)).
  - lia.
  - vm_compute. intros [=].
  - vm_compute. split; intros [=].
  - exists s'. split; [exact E|lia].
Defined.

Lemma ordered_insert_sublist less x l : l `sublist_of` KListProofs.ordered_insert less x l.
Proof.
  induction l as [|y l IH]; cbn [KListProofs.ordered_insert]; [apply sublist_nil_l|].
  destruct (less x y); [by apply sublist_cons|by apply sublist_skip].
Qed.

Lemma unblock_sublist s t s' : thread_unblock s t = Ret s' → ready s `sublist_of` ready s'.
Proof.
  unfold thread_unblock, thread_enqueue. intros H. outcome_inv. subst. unfold ready, insert_by_priority.
  destruct (active_sched_policy s) eqn:E; cbn; rewrite E; cbn.
  - by apply sublist_inserts_r.
  - apply ordered_insert_sublist.
  - by apply sublist_inserts_r.
  - apply ordered_insert_sublist.
Qed.

Lemma wake_sublist l s s' : wake_sleepers l s = Ret s' → ready s `sublist_of` ready s'.
Proof.
  revert s. induction l as [|t l IH]; intros s; cbn [wake_sleepers]; [by intros [= ->]|].
  case_match; [by intros [= ->]|]. intros (s2 & Hu%unblock_sublist & Hw%IH)%bind_Ret.
  etrans; [exact Hu|exact Hw].
Qed.

(** The multi-level feedback scheduler's priorities order nothing.  Whatever the tick,
    the timer interrupt, which recomputes [priority], leaves the effective priority of
    every thread as it was, and the ready queue, which is kept in the order of effective
    priorities, loses no thread and is not reordered: threads are only added to it. *)
Theorem mlfqs_priorities_unused s s' : sched_ok s → timer_interrupt s = Ret s' →
  (∀ t, eff_priority (th s' t) = eff_priority (th s t)) ∧ ready s `sublist_of` ready s'.
Proof.
  intros Hok Ht. destruct (timer_interrupt_inv _ _ Hok Ht) as [_ _ _ Hx _ _ _]. split; [intros t; apply Hx|].
  destruct (timer_split _ _ Ht) as (s2 & Hs & Hw).
  rewrite <- (sm_ready _ _ Hs). by eapply wake_sublist.
Qed.

(** The initial thread has used 40 ticks of processor at tick 3. *)
Definition busy : sched :=
  upd (with_ticks (sch (boot SCHED_MLFQS FAIR_SCHED_CFS)) 3) 1%nat (λ r, with_recent_cpu r (40 * 65536)).

Lemma mlfqs_priorities_unused_witness :
  ∃ s', timer_interrupt busy = Ret s' ∧ priority (th busy 1%nat) = 31 ∧ priority (th s' 1%nat) = 53 ∧
    eff_priority (th s' 1%nat) = 31.
Proof.
  destruct (timer_interrupt busy) as [s'| | |] eqn:E; [|exfalso; vm_compute in E; discriminate E..].
  exists s'. split; [reflexivity|]. split; [vm_compute; reflexivity|].
  split; [vm_compute in E; injection E as <-; vm_compute; reflexivity|].
  refine (eq_trans (proj1 (mlfqs_priorities_unused busy s' _ E) 1%nat) _); [|vm_compute; reflexivity].
  refine (cm_ok _ _ (calm_upd (with_ticks (sch (boot SCHED_MLFQS FAIR_SCHED_CFS)) 3) _ _ _)).
  - apply with_ticks_ok. exact (wi_sched _ (boot_wait_inv _ _)).
  - intros r. split; reflexivity.
Defined.

(** A recent-CPU value from 328 up overflows the [int] of [fix_scale]. *)
Lemma recent_cpu_overflow s : sched_ok s → 328 * 65536 ≤ recent_cpu (th s (current s)) →
  thread_get_recent_cpu s = UB.
Proof.
  intros Hok Hr. unfold thread_get_recent_cpu. rewrite (thread_current_run _ Hok). cbn [mbind outcome_bind].
  unfold FixedPoint.fix_scale. cbn [FixedPoint.f]. change (0 <=? 100) with true. cbn [ASSERT mbind outcome_bind].
  unfold FixedPoint.int_expr. destruct (Z.ltb_spec (recent_cpu (th s (current s)) * 100) (2 ^ 31)); [lia|].
  by rewrite andb_false_r.
Qed.

End Scheduler.
