(* ===== verification/Sort.v ===== *)
(** * Sorting and searching: [lib/stdlib.c]

    Heap sort and binary search on arrays of equal-sized elements, and [atoi].  An array is
    the list of its elements, and its indices count elements, as the code multiplies
    every index by [size].  The order is the caller's [compare]. *)

From stdpp Require Import base tactics numbers list option sorting.
From S2P Require Import Prelude.

Module Sort.

Section Array.
Context {A : Type} (compare : A → A → Z).

(** Indices are 1-based. *)
Definition do_swap (array : list A) (a_idx b_idx : Z) : outcome (list A) :=
  a ← array_get array (a_idx - 1);
  b ← array_get array (b_idx - 1);
  array ← array_set array (a_idx - 1) b;
  array_set array (b_idx - 1) a.

Definition do_compare (array : list A) (a_idx b_idx : Z) : outcome Z :=
  a ← array_get array (a_idx - 1);
  b ← array_get array (b_idx - 1);
  Ret (compare a b).

(** One step of the choice of the largest among an element and its children. *)
Definition larger (array : list A) (child max cnt : Z) : outcome Z :=
  if child <=? cnt then
    c ← do_compare array child max;
    Ret (if 0 <? c then child else max)
  else Ret max.

(** The fuel bounds the depth of the heap. *)
Fixpoint heapify (fuel : nat) (array : list A) (i cnt : Z) : outcome (list A) :=
  match fuel with
  | O => Blocked
  | S fuel =>
      let left := u32 (2 * i) in
      let right := u32 (2 * i + 1) in
      max ← larger array left i cnt;
      max ← larger array right max cnt;
      if max =? i then Ret array else
      array ← do_swap array i max;
      heapify fuel array max cnt
  end.

(** [for (i = cnt / 2; i > 0; i--)] *)
Fixpoint build_loop (i : nat) (array : list A) (cnt : Z) : outcome (list A) :=
  match i with
  | O => Ret array
  | S i' => array ← heapify (S (Z.to_nat cnt)) array (Z.of_nat i) cnt; build_loop i' array cnt
  end.

(** [for (i = cnt; i > 1; i--)] *)
Fixpoint sort_loop (i : nat) (array : list A) : outcome (list A) :=
  match i with
  | O => Ret array
  | S i' =>
      if Z.of_nat i <=? 1 then Ret array else
      array ← do_swap array 1 (Z.of_nat i);
      array ← heapify (S i) array 1 (Z.of_nat i - 1);
      sort_loop i' array
  end.

Definition sort (array : list A) : outcome (list A) :=
  let cnt := length array in
  array ← build_loop (cnt / 2) array (Z.of_nat cnt);
  sort_loop cnt array.

Definition qsort (array : list A) : outcome (list A) := sort array.

(** The loop of [binary_search] between the elements [first] and [last]; the result is the
    index of the match. *)
Fixpoint search_loop (fuel : nat) (key : A) (array : list A) (first last : Z) : outcome (option Z) :=
  if first <? last then
    match fuel with
    | O => Blocked
    | S fuel =>
        let middle := first + (last - first) / 2 in
        m ← array_get array middle;
        let cmp := compare key m in
        if cmp <? 0 then search_loop fuel key array first middle
        else if 0 <? cmp then search_loop fuel key array (middle + 1) last
        else Ret (Some middle)
    end
  else Ret None.

Definition binary_search (key : A) (array : list A) : outcome (option Z) :=
  search_loop (length array) key array 0 (Z.of_nat (length array)).

Definition bsearch (key : A) (array : list A) : outcome (option Z) := binary_search key array.

(** ** The order *)

(** A [strcmp()]-type result: the sign is antisymmetric, and the order is transitive. *)
Record strcmp_type : Prop := {
  cmp_flip x y : 0 < compare x y ↔ compare y x < 0;
  cmp_trans x y z : compare x y ≤ 0 → compare y z ≤ 0 → compare x z ≤ 0 }.

Definition le (x y : A) : Prop := compare x y ≤ 0.

Section Proofs.
Context (Hcmp : strcmp_type).

Lemma le_total x y : ¬ le x y → le y x.
Proof. unfold le. pose proof (cmp_flip Hcmp x y). lia. Qed.
Lemma le_refl x : le x x.
Proof. unfold le. pose proof (cmp_flip Hcmp x x). lia. Qed.
Lemma le_trans x y z : le x y → le y z → le x z.
Proof. apply (cmp_trans Hcmp). Qed.

(** Element [i], counting from 1; element [a] is at least element [b]. *)
Definition at_ (l : list A) (i : Z) : option A := l !! Z.to_nat (i - 1).
Definition ge (l : list A) (a b : Z) : Prop := ∀ x y, at_ l a = Some x → at_ l b = Some y → le y x.

Lemma ge_refl l a : ge l a a.
Proof. intros x y H1 H2. rewrite H1 in H2. injection H2 as ->. apply le_refl. Qed.

Lemma at_in l i : 1 ≤ i ≤ Z.of_nat (length l) → ∃ x, at_ l i = Some x ∧ array_get l (i - 1) = Ret x.
Proof. intros Hi. destruct (array_get_in l (i - 1)) as (x & Hg & Hx); [lia|]. by exists x. Qed.

Lemma ge_trans l a b c : 1 ≤ b ≤ Z.of_nat (length l) → ge l a b → ge l b c → ge l a c.
Proof. intros Hb H1 H2 x y Hx Hy. destruct (at_in l b Hb) as (z & Hz & _). eapply le_trans; eauto. Qed.

(** The order of the swapped array. *)
Definition exch (a b k : Z) : Z := if k =? a then b else if k =? b then a else k.

Lemma do_swap_run l a b : 1 ≤ a ≤ Z.of_nat (length l) → 1 ≤ b ≤ Z.of_nat (length l) →
  ∃ l', do_swap l a b = Ret l' ∧ l' ≡ₚ l ∧ length l' = length l ∧ ∀ k, 1 ≤ k → at_ l' k = at_ l (exch a b k).
Proof.
  intros Ha Hb. destruct (at_in l a Ha) as (x & Hx & Hgx), (at_in l b Hb) as (y & Hy & Hgy).
  unfold do_swap. rewrite Hgx, Hgy. cbn [mbind outcome_bind]. rewrite array_set_in by lia. cbn [mbind outcome_bind].
  rewrite array_set_in by (rewrite length_insert; lia). eexists. split; [done|].
  split; [by apply Permutation_insert_swap|]. split; [by rewrite !length_insert|].
  intros k Hk. unfold exch, at_ in *. destruct (Z.eqb_spec k b) as [->|Hkb].
  - rewrite list_lookup_insert_eq by (rewrite length_insert; lia). destruct (Z.eqb_spec b a) as [->|]; congruence.
  - rewrite list_lookup_insert_ne by lia. destruct (Z.eqb_spec k a) as [->|].
    + by rewrite list_lookup_insert_eq by lia.
    + by rewrite list_lookup_insert_ne by lia.
Qed.

(** ** Floating down *)

Lemma larger_run l child max cnt : cnt ≤ Z.of_nat (length l) → 1 ≤ max ≤ cnt → 1 ≤ child →
  ∃ m, larger l child max cnt = Ret m ∧ (m = max ∨ (m = child ∧ child ≤ cnt)) ∧ ge l m max ∧
    (child ≤ cnt → ge l m child).
Proof.
  intros Hl Hm Hc. unfold larger. destruct (Z.leb_spec child cnt) as [Hle|Hgt].
  - destruct (at_in l child) as (x & Hx & Hgx); [lia|]. destruct (at_in l max) as (y & Hy & Hgy); [lia|].
    unfold do_compare. rewrite Hgx, Hgy. cbn [mbind outcome_bind]. eexists. split; [done|].
    assert (ge l child max ↔ le y x) as Hg1.
    { split; [intros H; by apply H|]. intros H a b Ha Hb. rewrite Hx in Ha. rewrite Hy in Hb. congruence. }
    assert (ge l max child ↔ le x y) as Hg2.
    { split; [intros H; by apply H|]. intros H a b Ha Hb. rewrite Hy in Ha. rewrite Hx in Hb. congruence. }
    unfold le in *. pose proof (cmp_flip Hcmp x y). destruct (Z.ltb_spec 0 (compare x y)).
    + split; [by right|]. split; [apply Hg1; lia|]. intros _. apply ge_refl.
    + split; [by left|]. split; [apply ge_refl|]. intros _. apply Hg2. lia.
  - exists max. split; [done|]. split; [by left|]. split; [apply ge_refl|lia].
Qed.

Definition child (j c : Z) : Prop := c = 2 * j ∨ c = 2 * j + 1.

(** Every element from [s] on is at least its children, up to [cnt]. *)
Definition heap (l : list A) (s cnt : Z) : Prop := ∀ j c, s ≤ j → child j c → c ≤ cnt → ge l j c.

(** The same except for element [i], whose children are at most its parent. *)
Definition hole (l : list A) (s cnt i : Z) : Prop :=
  (∀ j c, s ≤ j → j ≠ i → child j c → c ≤ cnt → ge l j c) ∧
  (∀ g c, s ≤ g → child g i → child i c → c ≤ cnt → ge l g c).

(** One step down: the largest of an element and its children moves up. *)
Lemma hole_step l l' s cnt i m : 1 ≤ s ≤ i → cnt ≤ Z.of_nat (length l) → hole l s cnt i → child i m → m ≤ cnt → ge l m i →
  (∀ c, child i c → c ≤ cnt → ge l m c) → (∀ k, 1 ≤ k → at_ l' k = at_ l (exch i m k)) → hole l' s cnt m.
Proof.
  intros Hs Hl [H1 H2] Hm Hmc Hmi Hmax Hl'. unfold hole, child in *.
  assert (∀ a b, 1 ≤ a → 1 ≤ b → ge l (exch i m a) (exch i m b) → ge l' a b) as Hge.
  { intros a b Ha Hb H x y. rewrite !Hl' by done. apply H. }
  split.
  - intros j c Hj Hjm Hc Hcc. apply Hge; [lia|lia|]. unfold exch.
    destruct (Z.eqb_spec j i) as [->|Hji].
    + destruct (Z.eqb_spec c i); [lia|]. destruct (Z.eqb_spec c m) as [->|]; [done|]. by apply Hmax.
    + destruct (Z.eqb_spec j m); [lia|]. destruct (Z.eqb_spec c i) as [->|].
      * apply H2; lia.
      * destruct (Z.eqb_spec c m); [lia|]. apply H1; lia.
  - intros g c Hg Hgm Hc Hcc. assert (g = i) as -> by lia. apply Hge; [lia|lia|]. unfold exch.
    rewrite Z.eqb_refl. destruct (Z.eqb_spec c i); [lia|]. destruct (Z.eqb_spec c m); [lia|]. apply H1; lia.
Qed.

Lemma heapify_run fuel : ∀ l s cnt i, 1 ≤ s ≤ i → i ≤ cnt → cnt ≤ Z.of_nat (length l) → cnt < 2 ^ 31 →
  cnt - i < Z.of_nat fuel → hole l s cnt i →
  ∃ l', heapify fuel l i cnt = Ret l' ∧ l' ≡ₚ l ∧ length l' = length l ∧ heap l' s cnt ∧
    ∀ k, cnt < k → at_ l' k = at_ l k.
Proof.
  induction fuel as [|fuel IH]; intros l s cnt i Hs Hi Hl Hw Hf Hh; [lia|]. cbn [heapify].
  rewrite !wrap_small by lia.
  destruct (larger_run l (2 * i) i cnt) as (m1 & -> & Hm1 & Hg1 & Hg1'); [lia..|]. cbn [mbind outcome_bind].
  destruct (larger_run l (2 * i + 1) m1 cnt) as (m & -> & Hm & Hg2 & Hg2'); [lia..|]. cbn [mbind outcome_bind].
  assert (ge l m i) as Hmi by (apply (ge_trans l m m1 i); [lia|done|done]).
  assert (∀ c, child i c → c ≤ cnt → ge l m c) as Hmax.
  { intros c [->| ->] Hc; [|by apply Hg2']. apply (ge_trans l m m1); [lia|done|by apply Hg1']. }
  destruct (Z.eqb_spec m i) as [->|Hne].
  - exists l. split; [done|]. split; [done|]. split; [done|]. split; [|done].
    intros j c Hj Hc Hcc. destruct (decide (j = i)) as [->|]; [by apply Hmax|]. by apply (proj1 Hh).
  - destruct (do_swap_run l i m) as (l1 & -> & Hp & Hlen & Hl1); [lia|lia|]. cbn [mbind outcome_bind].
    assert (child i m ∧ m ≤ cnt) as [Hmc Hmle] by (unfold child; lia).
    destruct (IH l1 s cnt m) as (l2 & -> & Hp2 & Hlen2 & Hh2 & Hout); [lia|lia|lia|done|lia| |].
    { by apply (hole_step l l1 s cnt i m). }
    exists l2. split; [done|]. split; [by etrans|]. split; [congruence|]. split; [done|].
    intros k Hk. rewrite Hout, Hl1 by lia. unfold exch. destruct (Z.eqb_spec k i); [lia|]. destruct (Z.eqb_spec k m); [lia|done].
Qed.

(** ** Sorting *)

Lemma build_run n : ∀ l cnt, cnt = Z.of_nat (length l) → cnt < 2 ^ 31 → Z.of_nat n ≤ cnt →
  heap l (Z.of_nat n + 1) cnt →
  ∃ l', build_loop n l cnt = Ret l' ∧ l' ≡ₚ l ∧ heap l' 1 cnt.
Proof.
  induction n as [|n IH]; intros l cnt Hc Hw Hn Hh; [by exists l|]. cbn [build_loop].
  destruct (heapify_run (S (Z.to_nat cnt)) l (Z.of_nat (S n)) cnt (Z.of_nat (S n))) as (l1 & -> & Hp & Hlen & Hh1 & _);
    [lia|lia|lia|done|lia| |].
  { split; [intros j c Hj Hne; apply Hh; lia|]. intros g c Hg Hgi. unfold child in Hgi. lia. }
  cbn [mbind outcome_bind]. destruct (IH l1 cnt) as (l2 & -> & Hp2 & Hh2); [congruence|done|lia| |].
  { intros j c Hj. apply Hh1. lia. }
  exists l2. split; [done|]. split; [by etrans|done].
Qed.

(** The first element of a heap is the greatest. *)
Lemma heap_root l cnt k : heap l 1 cnt → cnt ≤ Z.of_nat (length l) → 1 ≤ k ≤ cnt → ge l 1 k.
Proof.
  intros Hh Hl Hk. remember (Z.to_nat k) as n. revert k Heqn Hk.
  induction (lt_wf n) as [n _ IH]. intros k -> Hk. destruct (decide (k = 1)) as [->|]; [apply ge_refl|].
  pose proof (Z.div_mod k 2 ltac:(lia)). pose proof (Z.mod_pos_bound k 2 ltac:(lia)).
  apply (ge_trans l 1 (k / 2) k); [lia|apply (IH (Z.to_nat (k / 2))); lia|]. apply Hh; [lia|unfold child; lia|lia].
Qed.

Lemma at_take l n k : 1 ≤ k ≤ Z.of_nat n → at_ (take n l) k = at_ l k.
Proof. intros Hk. unfold at_. apply lookup_take_lt. lia. Qed.

Lemma elem_of_take_at l n x : x ∈ take n l → ∃ k, 1 ≤ k ≤ Z.of_nat n ∧ at_ l k = Some x.
Proof.
  intros (i & Hi)%list_elem_of_lookup_1. apply lookup_take_Some in Hi as [Hi Hn].
  exists (Z.of_nat i + 1). split; [lia|]. unfold at_. by replace (Z.to_nat (Z.of_nat i + 1 - 1)) with i by lia.
Qed.

(** The part that is done is in order and at least the part that is still a heap. *)
Definition partitioned (l : list A) (i : nat) : Prop :=
  StronglySorted le (drop i l) ∧ ∀ x y, x ∈ take i l → y ∈ drop i l → le x y.

Lemma same_tail_perm (l l' : list A) n : l' ≡ₚ l → (∀ k, Z.of_nat n < k → at_ l' k = at_ l k) →
  drop n l' = drop n l ∧ take n l' ≡ₚ take n l.
Proof.
  intros Hp Hk. assert (drop n l' = drop n l) as E.
  { apply list_eq. intros i. rewrite !lookup_drop. specialize (Hk (Z.of_nat (n + i) + 1) ltac:(lia)). unfold at_ in Hk.
    by replace (Z.to_nat (Z.of_nat (n + i) + 1 - 1)) with (n + i)%nat in Hk by lia. }
  split; [done|]. rewrite <- (take_drop n l), <- (take_drop n l'), E in Hp. by apply Permutation_app_inv_r in Hp.
Qed.

(** One round: the greatest element of the heap goes to its end. *)
Lemma sort_step l i : (1 < i ≤ length l)%nat → Z.of_nat (length l) < 2 ^ 31 → heap l 1 (Z.of_nat i) → partitioned l i →
  ∃ l1 l2, do_swap l 1 (Z.of_nat i) = Ret l1 ∧ heapify (S i) l1 1 (Z.of_nat i - 1) = Ret l2 ∧ l2 ≡ₚ l ∧
    heap l2 1 (Z.of_nat i - 1) ∧ partitioned l2 (i - 1).
Proof.
  intros Hi Hw Hh [Hs Hle]. destruct (do_swap_run l 1 (Z.of_nat i)) as (l1 & E1 & Hp1 & Hlen1 & Hl1); [lia|lia|].
  assert (hole l1 1 (Z.of_nat i - 1) 1) as Hhole.
  { split; [|intros g c Hg [?|?]; lia]. intros j c Hj Hne Hc Hcc x y. rewrite !Hl1 by (destruct Hc; lia). unfold exch.
    destruct (Z.eqb_spec j 1); [lia|]. destruct (Z.eqb_spec j (Z.of_nat i)); [destruct Hc; lia|].
    destruct (Z.eqb_spec c 1); [destruct Hc; lia|]. destruct (Z.eqb_spec c (Z.of_nat i)); [lia|].
    intros Hx Hy. apply (Hh j c); [lia|done|lia|done|done]. }
  destruct (heapify_run (S i) l1 1 (Z.of_nat i - 1) 1) as (l2 & E2 & Hp2 & Hlen2 & Hh2 & Hout);
    [lia|lia|lia|lia|lia|done|].
  exists l1, l2. split; [done|]. split; [done|]. split; [by etrans|]. split; [done|].
  destruct (at_in l 1) as (m & Hm & _); [lia|].
  destruct (same_tail_perm l1 l2 (i - 1) Hp2) as [Ed Et]; [intros k Hk; apply Hout; lia|].
  destruct (same_tail_perm l l1 i Hp1) as [Ed1 Et1].
  { intros k Hk. rewrite Hl1 by lia. unfold exch. destruct (Z.eqb_spec k 1), (Z.eqb_spec k (Z.of_nat i)); done || lia. }
  assert (drop (i - 1) l2 = m :: drop i l) as E.
  { rewrite Ed. assert (at_ l1 (Z.of_nat i) = Some m) as Him.
    { rewrite Hl1 by lia. unfold exch. destruct (Z.eqb_spec (Z.of_nat i) 1); [lia|]. by rewrite Z.eqb_refl. }
    unfold at_ in Him. replace (Z.to_nat (Z.of_nat i - 1)) with (i - 1)%nat in Him by lia.
    rewrite (drop_S l1 m (i - 1) Him). rewrite <- Ed1. by replace (S (i - 1)) with i by lia. }
  assert (∀ x, x ∈ take i l → le x m) as Hroot.
  { intros x (k & Hk & Hx)%elem_of_take_at. by apply (heap_root l (Z.of_nat i) k Hh ltac:(lia) Hk m x). }
  assert (m ∈ take i l) as Hmin.
  { apply list_elem_of_lookup. exists O. rewrite lookup_take_lt by lia. exact Hm. }
  assert (∀ x, x ∈ take (i - 1) l2 → x ∈ take i l) as Hsub.
  { intros x Hx. rewrite <- Et1. rewrite Et in Hx. apply list_elem_of_lookup in Hx as (j & Hj).
    apply lookup_take_Some in Hj as [Hj Hlt]. apply list_elem_of_lookup. exists j. rewrite lookup_take_lt by lia. done. }
  split; rewrite E.
  - constructor; [done|]. apply list.Forall_forall. intros y Hy. by apply Hle.
  - intros x y Hx [->|Hy]%elem_of_cons; [apply Hroot, Hsub, Hx|]. by apply Hle; [apply Hsub|].
Qed.

Lemma sort_loop_run n : ∀ l, (n ≤ length l)%nat → Z.of_nat (length l) < 2 ^ 31 → heap l 1 (Z.of_nat n) → partitioned l n →
  ∃ l', sort_loop n l = Ret l' ∧ l' ≡ₚ l ∧ StronglySorted le l'.
Proof.
  induction n as [|n IH]; intros l Hn Hw Hh Hpart.
  { exists l. split; [done|]. split; [done|]. exact (proj1 Hpart). }
  cbn [sort_loop]. destruct (Z.leb_spec (Z.of_nat (S n)) 1).
  - assert (n = 0)%nat as -> by lia. exists l. split; [done|]. split; [done|]. destruct Hpart as [Hs Hle].
    destruct l as [|x l]; [constructor|]. cbn in Hs, Hle. constructor; [done|]. apply list.Forall_forall.
    intros y Hy. apply Hle; [|done]. left.
  - destruct (sort_step l (S n)) as (l1 & l2 & -> & E2 & Hp2 & Hh2 & Hpart2); [lia|done|done|done|]. cbn [mbind outcome_bind].
    rewrite E2. cbn [mbind outcome_bind]. pose proof (Permutation_length Hp2).
    destruct (IH l2) as (l' & -> & Hp' & Hs'); [lia|lia| | |].
    + by replace (Z.of_nat (S n) - 1) with (Z.of_nat n) in Hh2 by lia.
    + by replace (S n - 1)%nat with n in Hpart2 by lia.
    + exists l'. split; [done|]. split; [by etrans|done].
Qed.

(** [sort] sorts.  On an array of fewer than [2^31] elements, with a [strcmp]-type
    comparison, the heap sort returns (every access is inside the array) a permutation of
    the array in ascending order. *)
Theorem sort_sorts l : Z.of_nat (length l) < 2 ^ 31 →
  ∃ r, sort l = Ret r ∧ r ≡ₚ l ∧ StronglySorted le r.
Proof.
  intros Hw. unfold sort. destruct (build_run (length l / 2) l (Z.of_nat (length l))) as (l1 & -> & Hp1 & Hh); [done|done| | |].
  - apply inj_le, Nat.Div0.div_le_upper_bound. lia.
  - intros j c Hj Hc Hcc. pose proof (Nat.div_mod (length l) 2 ltac:(lia)).
    pose proof (Nat.mod_upper_bound (length l) 2 ltac:(lia)). unfold child in Hc. lia.
  - cbn [mbind outcome_bind]. pose proof (Permutation_length Hp1) as Hlen. rewrite <- Hlen.
    destruct (sort_loop_run (length l1) l1) as (r & -> & Hp & Hs); [lia|lia|by rewrite Hlen| |].
    + unfold partitioned. rewrite drop_all. split; [constructor|]. intros x y _ []%not_elem_of_nil.
    + exists r. split; [done|]. split; [by etrans|done].
Qed.

(** ** Searching *)

(** On which side of an element the key lies decides the elements beyond it. *)
Lemma beyond_lt key m x : compare key m < 0 → le m x → compare key x < 0.
Proof.
  intros H1 H2. pose proof (cmp_trans Hcmp key m x ltac:(lia) H2). destruct (decide (compare key x = 0)) as [E|]; [|lia].
  pose proof (cmp_flip Hcmp x key). pose proof (cmp_flip Hcmp m key).
  pose proof (cmp_trans Hcmp m x key H2 ltac:(lia)). lia.
Qed.

Lemma beyond_gt key m x : 0 < compare key m → le x m → 0 < compare key x.
Proof.
  intros H1 H2. destruct (decide (0 < compare key x)); [done|].
  pose proof (cmp_trans Hcmp key x m ltac:(lia) H2). lia.
Qed.

Lemma sorted_le l i j x y : StronglySorted le l → (i ≤ j)%nat → l !! i = Some x → l !! j = Some y → le x y.
Proof.
  intros Hs. revert i j. induction Hs as [|z l Hs IH Hf]; intros i j Hij Hx Hy; [done|].
  destruct i as [|i], j as [|j]; cbn in Hx, Hy; [|..|lia|].
  - injection Hx as ->. injection Hy as ->. apply le_refl.
  - injection Hx as ->. rewrite list.Forall_forall in Hf. apply Hf. apply list_elem_of_lookup. by exists j.
  - apply (IH i j); [lia|done|done].
Qed.

Lemma search_run fuel key l : StronglySorted le l → ∀ first last, 0 ≤ first → last ≤ Z.of_nat (length l) →
  last - first ≤ Z.of_nat fuel →
  (∀ i x, l !! i = Some x → Z.of_nat i < first → compare key x ≠ 0) →
  (∀ i x, l !! i = Some x → last ≤ Z.of_nat i → compare key x ≠ 0) →
  ∃ r, search_loop fuel key l first last = Ret r ∧
    match r with
    | Some i => 0 ≤ i ∧ ∃ x, l !! Z.to_nat i = Some x ∧ compare key x = 0
    | None => ∀ x, x ∈ l → compare key x ≠ 0
    end.
Proof.
  intros Hs. induction fuel as [|fuel IH]; intros first last H1 H2 Hf Hlo Hhi; cbn [search_loop];
    destruct (Z.ltb_spec first last) as [Hlt|Hge]; try lia.
  1,3: exists None; split; [done|]; intros x (i & Hi)%list_elem_of_lookup;
    destruct (decide (Z.of_nat i < first)); [by apply (Hlo i)|apply (Hhi i); [done|lia]].
  pose proof (Z.div_mod (last - first) 2 ltac:(lia)). pose proof (Z.mod_pos_bound (last - first) 2 ltac:(lia)).
  set (mid := first + (last - first) / 2). destruct (array_get_in l mid) as (m & -> & Hm); [lia|]. cbn [mbind outcome_bind].
  destruct (Z.ltb_spec (compare key m) 0) as [Hc|Hc]; [|destruct (Z.ltb_spec 0 (compare key m)) as [Hc'|Hc']].
  - apply IH; [lia|lia|lia|done|]. intros i x Hx Hi. assert (compare key x < 0); [|lia]. apply (beyond_lt key m x Hc).
    apply (sorted_le l (Z.to_nat mid) i); [done|lia|done|done].
  - apply IH; [lia|lia|lia| |done]. intros i x Hx Hi. assert (0 < compare key x); [|lia]. apply (beyond_gt key m x Hc').
    apply (sorted_le l i (Z.to_nat mid)); [done|lia|done|done].
  - exists (Some mid). split; [done|]. split; [lia|]. exists m. split; [done|lia].
Qed.

(** [binary_search] finds.  In an array that is in order the search always returns: the
    index of an element equal to the key, or a null pointer when no element is. *)
Theorem binary_search_finds key l : StronglySorted le l →
  ∃ r, binary_search key l = Ret r ∧
    match r with
    | Some i => 0 ≤ i ∧ ∃ x, l !! Z.to_nat i = Some x ∧ compare key x = 0
    | None => ∀ x, x ∈ l → compare key x ≠ 0
    end.
Proof.
  intros Hs. apply search_run; [done|lia|lia|lia|intros; lia|]. intros i x Hx%lookup_lt_Some Hi. lia.
Qed.

End Proofs.
End Array.

(** Comparison of integers by subtraction. *)
Lemma Zcompare_ok : strcmp_type (λ x y : Z, x - y).
Proof. constructor; lia. Qed.

Lemma sort_sorts_witness : ∃ r, sort (λ x y : Z, x - y) [3; 1; 2; 5; 1] = Ret r ∧ r ≡ₚ [3; 1; 2; 5; 1] ∧ hd 0 r = 1.
Proof.
  destruct (sort_sorts (λ x y : Z, x - y) Zcompare_ok [3; 1; 2; 5; 1] eq_refl) as (r & E & Hp & _).
  exists r. split; [exact E|]. split; [exact Hp|]. vm_compute in E. injection E as <-. reflexivity.
Defined.

Lemma binary_search_finds_witness : StronglySorted (le (λ x y : Z, x - y)) [1; 3; 4] ∧
  binary_search (λ x y : Z, x - y) 3 [1; 3; 4] = Ret (Some 1).
Proof.
  assert (StronglySorted (le (λ x y : Z, x - y)) [1; 3; 4]) as Hs by (repeat constructor; unfold le; lia).
  split; [exact Hs|]. destruct (binary_search_finds (λ x y : Z, x - y) Zcompare_ok 3 [1; 3; 4] Hs) as (r & E & _).
  rewrite E. vm_compute in E. injection E as <-. reflexivity.
Defined.

(** ** [atoi] *)

Definition isspace (c : Z) : bool :=
  (c =? 32) || (c =? 12) || (c =? 10) || (c =? 13) || (c =? 9) || (c =? 11).
Definition isdigit (c : Z) : bool := (48 <=? c) && (c <=? 57).

(** The value of an [int] expression: overflow is undefined. *)
Definition int_value (x : Z) : outcome Z := DEFINED ((- 2 ^ 31 <=? x) && (x <? 2 ^ 31));; Ret x.

Fixpoint skip_spaces (s : list Z) : list Z :=
  match s with
  | c :: t => if isspace c then skip_spaces t else s
  | [] => []
  end.

(** The digits are accumulated below zero, where the range of [int] is larger. *)
Fixpoint atoi_digits (s : list Z) (value : Z) : outcome Z :=
  match s with
  | c :: t =>
      if isdigit c then
        p ← int_value (value * 10);
        v ← int_value (p - (c - 48));
        atoi_digits t v
      else Ret value
  | [] => UB
  end.

(** [s] is a string object; reading past its end is undefined. *)
Definition atoi (s : list Z) : outcome Z :=
  match skip_spaces s with
  | [] => UB
  | c :: t =>
      let negative := c =? 45 in
      value ← atoi_digits (if (c =? 43) || (c =? 45) then t else c :: t) 0;
      if negative then Ret value else int_value (- value)
  end.

(** The usual decimal notation. *)
Fixpoint digits (fuel : nat) (n : Z) (acc : list Z) : list Z :=
  match fuel with
  | O => acc
  | S fuel => let acc := 48 + n mod 10 :: acc in if n <? 10 then acc else digits fuel (n / 10) acc
  end.
Definition decimal (n : Z) : list Z := if n <? 0 then 45 :: digits 10 (- n) [] else digits 10 n [].

Lemma int_value_ok x : - 2 ^ 31 ≤ x < 2 ^ 31 → int_value x = Ret x.
Proof. intros. unfold int_value. destruct (Z.leb_spec (- 2 ^ 31) x), (Z.ltb_spec x (2 ^ 31)); done || lia. Qed.

Lemma isdigit_spec c : isdigit c = true ↔ 48 ≤ c ≤ 57.
Proof. unfold isdigit. rewrite andb_true_iff, !Z.leb_le. done. Qed.

Lemma atoi_digit c t v : 0 ≤ c ≤ 9 → - 2 ^ 31 ≤ v * 10 - c → v ≤ 0 →
  atoi_digits (48 + c :: t) v = atoi_digits t (v * 10 - c).
Proof.
  intros Hc Hv Hv0. cbn [atoi_digits]. rewrite (proj2 (isdigit_spec (48 + c))) by lia.
  rewrite int_value_ok by lia. cbn [mbind outcome_bind]. replace (48 + c - 48) with c by lia. by rewrite int_value_ok by lia.
Qed.

Lemma digits_S fuel n acc :
  digits (S fuel) n acc = if n <? 10 then 48 + n mod 10 :: acc else digits fuel (n / 10) (48 + n mod 10 :: acc).
Proof. done. Qed.

Lemma atoi_digits_run fuel : ∀ n acc t, 0 ≤ n ≤ 2 ^ 31 → n < 10 ^ Z.of_nat (S fuel) →
  atoi_digits (digits (S fuel) n acc ++ t) 0 = atoi_digits (acc ++ t) (- n).
Proof.
  induction fuel as [|fuel IH]; intros n acc t Hn Hf; rewrite digits_S; pose proof (Z.mod_pos_bound n 10 ltac:(lia));
    pose proof (Z.div_mod n 10 ltac:(lia)); destruct (Z.ltb_spec n 10).
  1,3: cbn [app]; rewrite Z.mod_small by lia; rewrite atoi_digit by lia; f_equal; lia.
  - lia.
  - rewrite (IH (n / 10)).
    + cbn [app]. rewrite atoi_digit by lia. f_equal. lia.
    + split; [apply Z.div_pos; lia|]. lia.
    + apply Z.div_lt_upper_bound; [lia|]. rewrite Nat2Z.inj_succ, Z.pow_succ_r in Hf by lia. lia.
Qed.

Lemma digits_head fuel : ∀ n acc, 0 ≤ n → ∃ c t, digits (S fuel) n acc = c :: t ∧ isdigit c = true.
Proof.
  induction fuel as [|fuel IH]; intros n acc Hn; rewrite digits_S; pose proof (Z.mod_pos_bound n 10 ltac:(lia)); destruct (n <? 10).
  1-3: eexists _, _; split; [done|]; apply isdigit_spec; lia.
  apply IH, Z.div_pos; lia.
Qed.

Lemma skip_spaces_app w s : Forall (λ c, isspace c = true) w → skip_spaces (w ++ s) = skip_spaces s.
Proof. induction 1 as [|c w Hc _ IH]; [done|]. cbn. by rewrite Hc. Qed.

Lemma not_space c : isdigit c = true ∨ c = 45 → isspace c = false.
Proof.
  rewrite isdigit_spec. unfold isspace. intros Hc.
  repeat match goal with |- context [c =? ?n] => destruct (Z.eqb_spec c n); [lia|] end. done.
Qed.

Lemma atoi_run w n c t : Forall (λ c, isspace c = true) w → - 2 ^ 31 ≤ n < 2 ^ 31 → isdigit c = false →
  atoi (w ++ decimal n ++ c :: t) = Ret n.
Proof.
  intros Hw Hn Hc. unfold atoi. rewrite skip_spaces_app by done. unfold decimal. destruct (Z.ltb_spec n 0).
  - cbn [app skip_spaces]. rewrite not_space by (by right). cbn [Z.eqb Pos.eqb orb].
    rewrite atoi_digits_run by (cbn; lia). cbn [app atoi_digits]. rewrite Hc. cbn [mbind outcome_bind]. f_equal. lia.
  - destruct (digits_head 9 n [] ltac:(lia)) as (d & s & E & Hd).
    pose proof (atoi_digits_run 9 n [] (c :: t) ltac:(lia) ltac:(cbn; lia)) as Hrun. rewrite E in *. cbn [app] in *.
    cbn [skip_spaces]. rewrite not_space by (by left). apply isdigit_spec in Hd.
    destruct (Z.eqb_spec d 43), (Z.eqb_spec d 45); try lia. cbn [orb]. rewrite Hrun. cbn [app atoi_digits].
    rewrite Hc. cbn [mbind outcome_bind]. rewrite int_value_ok by lia. f_equal. lia.
Qed.


(** [atoi] reads back every [int].  For each value of type [int], the least included, [atoi]
    applied to its decimal notation, after any white space and before anything that is not a
    digit, returns it, without an overflow on the way. *)
Theorem atoi_reads_decimal w n c t : Forall (λ c, isspace c = true) w → - 2 ^ 31 ≤ n < 2 ^ 31 → isdigit c = false →
  atoi (w ++ decimal n ++ c :: t) = Ret n.
Proof. apply atoi_run. Qed.

Lemma atoi_reads_decimal_witness : atoi [32; 45; 50; 49; 52; 55; 52; 56; 51; 54; 52; 56; 0] = Ret (- 2 ^ 31).
Proof. apply (atoi_reads_decimal [32] (- 2 ^ 31) 0 []); [repeat constructor|lia|reflexivity]. Defined.

End Sort.
