(* ===== verification/Random.v ===== *)
(** * Pseudo-random numbers: [lib/random.c]

    The RC4 generator. *)

From stdpp Require Import base tactics numbers list list_numbers option.
From S2P Require Import Prelude.

Module Random.

(** [s], [s_i], [s_j] and [inited]. *)
Record rng := mk_rng { S_ : list Z; s_i : Z; s_j : Z; inited : bool }.

(** The state at boot: everything is zero. *)
Definition boot : rng := mk_rng (replicate 256 0) 0 0 false.

Definition swap_byte (s : list Z) (a b : Z) : outcome (list Z) :=
  x ← array_get s a; y ← array_get s b;
  s ← array_set s a y; array_set s b x.

(** The key schedule from index [i] on. *)
Fixpoint init_loop (n : nat) (i j : Z) (seedp : list Z) (s : list Z) : outcome (list Z) :=
  match n with
  | O => Ret s
  | S n =>
      x ← array_get s i;
      k ← array_get seedp (i mod 4);
      let j := u8 (j + (x + k)) in
      s ← swap_byte s i j;
      init_loop n (i + 1) j seedp s
  end.

Definition random_init (seed : Z) : outcome rng :=
  s ← init_loop 256 0 0 (le_bytes 4 seed) (seqZ 0 256);
  Ret (mk_rng s 0 0 true).

(** One byte. *)
Definition random_byte (r : rng) : outcome (Z * rng) :=
  let i := u8 (s_i r + 1) in
  x ← array_get (S_ r) i;
  let j := u8 (s_j r + x) in
  s ← swap_byte (S_ r) i j;
  x ← array_get s i;
  y ← array_get s j;
  b ← array_get s (u8 (x + y));
  Ret (b, mk_rng s i j (inited r)).

Fixpoint random_loop (size : nat) (r : rng) : outcome (list Z * rng) :=
  match size with
  | O => Ret ([], r)
  | S size =>
      '(b, r) ← random_byte r;
      '(bs, r) ← random_loop size r;
      Ret (b :: bs, r)
  end.

Definition random_bytes (r : rng) (size : nat) : outcome (list Z * rng) :=
  r ← (if inited r then Ret r else random_init 0);
  random_loop size r.

(** [unsigned long] has four bytes. *)
Definition random_ulong (r : rng) : outcome (Z * rng) :=
  '(bs, r) ← random_bytes r 4; Ret (le_val bs, r).

(** ** Invariant *)

(** RC4's table is always a permutation of the bytes. *)
Definition table (s : list Z) : Prop := s ≡ₚ seqZ 0 256.

Record rng_ok (r : rng) : Prop := mk_rng_ok {
  rk_table : inited r = true → table (S_ r);
  rk_i : is_byte (s_i r);
  rk_j : is_byte (s_j r) }.

Lemma boot_ok : rng_ok boot.
Proof. by constructor. Qed.

Lemma table_get s i : table s → is_byte i → ∃ x, array_get s i = Ret x ∧ s !! Z.to_nat i = Some x ∧ is_byte x.
Proof.
  intros Ht Hi. assert (length s = 256%nat) as Hl by (rewrite (Permutation_length Ht); by rewrite length_seqZ).
  unfold is_byte in *. destruct (array_get_in s i) as (x & E & Hx); [lia|]. exists x. split; [done|]. split; [done|].
  assert (x ∈ s) as Hin by (apply list_elem_of_lookup; eauto). unfold table in Ht. rewrite Ht, elem_of_seqZ in Hin. lia.
Qed.

Lemma swap_byte_run s a b : table s → is_byte a → is_byte b → ∃ s', swap_byte s a b = Ret s' ∧ table s'.
Proof.
  intros Ht Ha Hb. destruct (table_get s a Ht Ha) as (x & Ex & Hx & _), (table_get s b Ht Hb) as (y & Ey & Hy & _).
  pose proof (lookup_lt_Some _ _ _ Hx). pose proof (lookup_lt_Some _ _ _ Hy). unfold is_byte in *.
  unfold swap_byte. rewrite Ex, Ey. cbn [mbind outcome_bind]. rewrite array_set_in by lia. cbn [mbind outcome_bind].
  rewrite array_set_in by (rewrite length_insert; lia). eexists. split; [done|]. unfold table.
  by rewrite (Permutation_insert_swap s _ _ x y Hx Hy).
Qed.

Lemma u8_byte x : is_byte (u8 x).
Proof. apply (wrap_bound 8). lia. Qed.

Lemma init_loop_run n : ∀ i j seedp s, table s → 0 ≤ i → i + Z.of_nat n ≤ 256 → length seedp = 4%nat →
  ∃ s', init_loop n i j seedp s = Ret s' ∧ table s'.
Proof.
  induction n as [|n IH]; intros i j seedp s Ht Hi Hn Hs; [by exists s|]. cbn [init_loop].
  destruct (table_get s i Ht) as (x & -> & _ & _); [unfold is_byte; lia|]. cbn [mbind outcome_bind].
  pose proof (Z.mod_pos_bound i 4 ltac:(lia)). destruct (array_get_in seedp (i mod 4)) as (k & -> & _); [lia|].
  cbn [mbind outcome_bind]. destruct (swap_byte_run s i (u8 (j + (x + k))) Ht) as (s' & -> & Ht'); [unfold is_byte; lia|apply u8_byte|].
  cbn [mbind outcome_bind]. apply IH; [done|lia|lia|done].
Qed.

Lemma random_init_run seed : ∃ r, random_init seed = Ret r ∧ inited r = true ∧ rng_ok r.
Proof.
  unfold random_init. destruct (init_loop_run 256 0 0 (le_bytes 4 seed) (seqZ 0 256)) as (s & -> & Ht); [by unfold table|lia|lia|done|].
  cbn [mbind outcome_bind]. eexists. split; [done|]. split; [done|]. by constructor.
Qed.

Lemma random_byte_run r : rng_ok r → inited r = true →
  ∃ b r', random_byte r = Ret (b, r') ∧ is_byte b ∧ inited r' = true ∧ rng_ok r'.
Proof.
  intros [Ht _ _] Hi. specialize (Ht Hi). unfold random_byte.
  destruct (table_get (S_ r) (u8 (s_i r + 1)) Ht (u8_byte _)) as (x & -> & _). cbn [mbind outcome_bind].
  destruct (swap_byte_run (S_ r) (u8 (s_i r + 1)) (u8 (s_j r + x)) Ht (u8_byte _) (u8_byte _)) as (s & -> & Hs).
  cbn [mbind outcome_bind]. destruct (table_get s (u8 (s_i r + 1)) Hs (u8_byte _)) as (x1 & -> & _).
  cbn [mbind outcome_bind]. destruct (table_get s (u8 (s_j r + x)) Hs (u8_byte _)) as (x2 & -> & _). cbn [mbind outcome_bind].
  destruct (table_get s (u8 (x1 + x2)) Hs (u8_byte _)) as (b & -> & _ & Hb). cbn [mbind outcome_bind].
  exists b. eexists. split; [done|]. split; [done|]. split; [done|]. constructor; [done|apply u8_byte..].
Qed.

Lemma random_loop_run n : ∀ r, rng_ok r → inited r = true →
  ∃ bs r', random_loop n r = Ret (bs, r') ∧ length bs = n ∧ Forall is_byte bs ∧ inited r' = true ∧ rng_ok r'.
Proof.
  induction n as [|n IH]; intros r Hr Hi; [by exists [], r|]. cbn [random_loop].
  destruct (random_byte_run r Hr Hi) as (b & r1 & -> & Hb & Hi1 & Hr1). cbn [mbind outcome_bind].
  destruct (IH r1 Hr1 Hi1) as (bs & r2 & -> & Hl & Hbs & Hi2 & Hr2). cbn [mbind outcome_bind].
  exists (b :: bs), r2. cbn. by rewrite Hl; auto.
Qed.

Lemma random_loop_app n m r :
  random_loop (n + m) r = '(b1, r) ← random_loop n r; '(b2, r) ← random_loop m r; Ret (b1 ++ b2, r).
Proof.
  revert r. induction n as [|n IH]; intros r; cbn [random_loop Nat.add app].
  - cbn [mbind outcome_bind]. by destruct (random_loop m r) as [[bs r']| | |].
  - destruct (random_byte r) as [[b r1]| | |]; cbn [mbind outcome_bind]; try done. rewrite IH.
    destruct (random_loop n r1) as [[b1 r2]| | |]; cbn [mbind outcome_bind]; try done.
    by destruct (random_loop m r2) as [[b2 r3]| | |].
Qed.

(** The generator is a permutation machine.  From the state at boot or any state that
    requests lead to, [random_bytes] returns as many bytes as asked for, every table access
    is inside the table, and the table stays a permutation of the 256 bytes; and the stream
    does not depend on how it is cut into requests. *)
Theorem random_stream r n m : rng_ok r →
  ∃ b1 r1 b2 r2, random_bytes r n = Ret (b1, r1) ∧ random_bytes r1 m = Ret (b2, r2) ∧
    random_bytes r (n + m) = Ret (b1 ++ b2, r2) ∧ length b1 = n ∧ Forall is_byte b1 ∧ inited r1 = true ∧ rng_ok r1.
Proof.
  intros Hr. assert (∃ r0, (if inited r then Ret r else random_init 0) = Ret r0 ∧ inited r0 = true ∧ rng_ok r0) as (r0 & E & Hi & Hr0).
  { destruct (inited r) eqn:Hi; [by exists r|]. apply random_init_run. }
  destruct (random_loop_run n r0 Hr0 Hi) as (b1 & r1 & E1 & Hl & Hb & Hi1 & Hr1).
  destruct (random_loop_run m r1 Hr1 Hi1) as (b2 & r2 & E2 & _).
  exists b1, r1, b2, r2. unfold random_bytes. rewrite E, Hi1. cbn [mbind outcome_bind].
  rewrite random_loop_app, E1. cbn [mbind outcome_bind]. rewrite E2. cbn [mbind outcome_bind]. done.
Qed.

Lemma random_stream_witness : ∃ b r, random_bytes boot 8 = Ret (b, r) ∧ length b = 8%nat.
Proof.
  destruct (random_stream boot 8 0 boot_ok) as (b & r & _ & _ & E & _ & _ & Hl & _). exists b, r. split; [exact E|exact Hl].
Defined.

End Random.
