(* ===== verification/Stdio.v ===== *)
(** * Formatted output: [lib/stdio.c]

    [__vprintf] and what it calls, on strings of bytes and lists of arguments of the 32-bit
    port.  The output callback only appends, so formatting yields the characters it is
    called with, in order; [vsnprintf] then stores them as its helper does.  Arithmetic on
    [double] is a parameter. *)

From stdpp Require Import base tactics numbers list list_numbers option.
From Stdlib Require Ascii String.
From S2P Require Import Prelude Strings Sort.

Open Scope Z_scope.

Module Stdio.
Import Strings Sort.

Import String.StringSyntax.
Bind Scope string_scope with String.string.

(** The bytes of a literal. *)
Definition bytes (s : String.string) : list Z := (λ a, Z.of_N (Ascii.N_of_ascii a)) <$> String.list_ascii_of_string s.
Definition literal (s : String.string) : list Z := bytes s ++ [0].

(** ** Conversions *)

Definition MINUS : Z := 1.
Definition PLUS : Z := 2.
Definition SPACE : Z := 4.
Definition POUND : Z := 8.
Definition ZERO : Z := 16.
Definition GROUP : Z := 32.
Definition flag (flags f : Z) : bool := negb (Z.land flags f =? 0).

Inductive int_type := CHAR | SHORT | INT | INTMAX | LONG | LONGLONG | PTRDIFFT | SIZET.

Record printf_conversion := mk_conv { flags : Z; width : Z; precision : Z; type : int_type }.

Record integer_base := mk_base { base : Z; digits_ : list Z; x_ : Z; group : Z }.
Definition base_d : integer_base := mk_base 10 (bytes "0123456789") 0 3.
Definition base_o : integer_base := mk_base 8 (bytes "01234567") 0 3.
Definition base_x : integer_base := mk_base 16 (bytes "0123456789abcdef") 120 4.
Definition base_X : integer_base := mk_base 16 (bytes "0123456789ABCDEF") 88 4.

Section Printf.
(** Type [double], its conversion to [int], [(int) ((d - first) * 10^n)] and [d < 0]. *)
Context {double : Type} (to_int : double → Z) (fraction : double → Z → Z) (is_negative : double → bool).

(** A variable argument: a 32-bit word, a 64-bit word, a string or null, a [double]. *)
Inductive va_item := Word (w : Z) | DWord (w : Z) | Str (s : option (list Z)) | Dbl (d : double).
Definition va_list := list va_item.

Definition va_word (args : va_list) : outcome (Z * va_list) :=
  match args with Word w :: args => Ret (w, args) | _ => UB end.
Definition va_dword (args : va_list) : outcome (Z * va_list) :=
  match args with DWord w :: args => Ret (w, args) | _ => UB end.

(** ** [parse_conversion] *)

Definition flag_char (c : Z) : option Z :=
  if c =? 45 then Some MINUS else if c =? 43 then Some PLUS else if c =? 32 then Some SPACE
  else if c =? 35 then Some POUND else if c =? 48 then Some ZERO else if c =? 39 then Some GROUP else None.

Fixpoint parse_flags (format : list Z) (flags : Z) : outcome (Z * list Z) :=
  match format with
  | [] => UB
  | c :: rest => match flag_char c with Some f => parse_flags rest (Z.lor flags f) | None => Ret (flags, format) end
  end.

Fixpoint parse_number (format : list Z) (n : Z) : outcome (Z * list Z) :=
  match format with
  | [] => UB
  | c :: rest =>
      if isdigit c then
        v ← int_value (n * 10); v ← int_value (v + c); v ← int_value (v - 48);
        parse_number rest v
      else Ret (n, format)
  end.

(** A number, or [*] for the next argument. *)
Definition parse_star (format : list Z) (args : va_list) : outcome (Z * list Z * va_list) :=
  match format with
  | [] => UB
  | c :: rest =>
      if c =? 42 then '(w, args) ← va_word args; Ret (s32 w, rest, args)
      else '(n, format) ← parse_number format 0; Ret (n, format, args)
  end.

Definition parse_precision (format : list Z) (args : va_list) : outcome (Z * list Z * va_list) :=
  match format with
  | [] => UB
  | c :: rest =>
      if c =? 46 then
        '(p, format, args) ← parse_star rest args;
        Ret (if p <? 0 then -1 else p, format, args)
      else Ret (-1, format, args)
  end.

Definition parse_type (format : list Z) : outcome (int_type * list Z) :=
  match format with
  | [] => UB
  | c :: rest =>
      let twice (k : Z) (one two : int_type) :=
        match rest with
        | [] => UB
        | c2 :: rest2 => Ret (if c2 =? k then (two, rest2) else (one, rest))
        end in
      if c =? 104 then twice 104 SHORT CHAR
      else if c =? 106 then Ret (INTMAX, rest)
      else if c =? 108 then twice 108 LONG LONGLONG
      else if c =? 116 then Ret (PTRDIFFT, rest)
      else if c =? 122 then Ret (SIZET, rest)
      else Ret (INT, format)
  end.

Definition clear (flags f : Z) : Z := Z.land flags (Z.lnot f).

Definition parse_conversion (format : list Z) (args : va_list) : outcome (list Z * printf_conversion * va_list) :=
  '(fl, format) ← parse_flags format 0;
  let fl := if flag fl MINUS then clear fl ZERO else fl in
  let fl := if flag fl PLUS then clear fl SPACE else fl in
  '(w, format, args) ← parse_star format args;
  w' ← (if w <? 0 then int_value (- w) else Ret w);
  let fl := if w <? 0 then Z.lor fl MINUS else fl in
  '(p, format, args) ← parse_precision format args;
  let fl := if 0 <=? p then clear fl ZERO else fl in
  '(t, format) ← parse_type format;
  Ret (format, mk_conv fl w' p t, args).

(** ** Output *)

Definition output_dup (ch : Z) (cnt : Z) : list Z := replicate (Z.to_nat cnt) ch.

(** The digits of [value] in reverse order; the fuel bounds their number in base 8. *)
Fixpoint digits_loop (fuel : nat) (c : printf_conversion) (b : integer_base) (value digit_cnt : Z) : outcome (list Z) :=
  match fuel with
  | O => Blocked
  | S fuel =>
      if 0 <? value then
        let comma := if flag (flags c) GROUP && (0 <? digit_cnt) && (digit_cnt mod group b =? 0) then [44] else [] in
        d ← array_get (digits_ b) (value mod base b);
        ds ← digits_loop fuel c b (value / base b) (digit_cnt + 1);
        Ret (comma ++ d :: ds)
      else Ret []
  end.

Definition format_integer (value : Z) (is_signed negative : bool) (b : integer_base) (c : printf_conversion) : outcome (list Z) :=
  let sign := if is_signed then
                if flag (flags c) PLUS then if negative then [45] else [43]
                else if flag (flags c) SPACE then if negative then [45] else [32]
                else if negative then [45] else []
              else [] in
  let x := if flag (flags c) POUND && negb (value =? 0) then x_ b else 0 in
  cp ← digits_loop 23 c b value 0;
  let precision := if precision c <? 0 then 1 else precision c in
  let len := Z.of_nat (length cp) in
  let cp := cp ++ replicate (Z.to_nat (Z.min precision 63 - len)) 48 in
  let cp := if flag (flags c) POUND && (base b =? 8) && negb (bool_decide (list.last cp = Some 48)) then cp ++ [48] else cp in
  DEFINED (Z.of_nat (length cp) <=? 64);;
  let pad_cnt := width c - Z.of_nat (length cp) - (if x =? 0 then 0 else 2) - Z.of_nat (length sign) in
  let pad_cnt := if pad_cnt <? 0 then 0 else pad_cnt in
  Ret ((if Z.land (flags c) (Z.lor MINUS ZERO) =? 0 then output_dup 32 pad_cnt else [])
       ++ sign ++ (if x =? 0 then [] else [48; x])
       ++ (if flag (flags c) ZERO then output_dup 48 pad_cnt else [])
       ++ rev cp ++ (if flag (flags c) MINUS then output_dup 32 pad_cnt else [])).

Definition format_string (string : list Z) (length : Z) (c : printf_conversion) : outcome (list Z) :=
  let pad := width c - length in
  body ← memcpy_from string 0 (Z.to_nat length);
  Ret ((if (0 <? pad) && negb (flag (flags c) MINUS) then output_dup 32 pad else [])
       ++ body ++ (if (0 <? pad) && flag (flags c) MINUS then output_dup 32 pad else [])).

(** ** The conversions of [__vprintf] *)

(** Conversion to a [w]-bit signed type. *)
Definition sgn (w x : Z) : Z := let y := wrap w x in if y <? 2 ^ (w - 1) then y else y - 2 ^ w.

Definition signed_arg (t : int_type) (args : va_list) : outcome (Z * va_list) :=
  match t with
  | CHAR => '(w, args) ← va_word args; Ret (sgn 8 w, args)
  | SHORT => '(w, args) ← va_word args; Ret (sgn 16 w, args)
  | INT | LONG | PTRDIFFT => '(w, args) ← va_word args; Ret (sgn 32 w, args)
  | INTMAX | LONGLONG => '(w, args) ← va_dword args; Ret (sgn 64 w, args)
  | SIZET => '(w, args) ← va_word args;
             let value := u32 w in
             Ret (if (2 ^ 32 - 1) / 2 <? value then value - (2 ^ 32 - 1) - 1 else value, args)
  end.

Definition unsigned_arg (t : int_type) (args : va_list) : outcome (Z * va_list) :=
  match t with
  | CHAR => '(w, args) ← va_word args; Ret (u8 w, args)
  | SHORT => '(w, args) ← va_word args; Ret (u16 w, args)
  | INT | LONG | SIZET => '(w, args) ← va_word args; Ret (u32 w, args)
  | INTMAX | LONGLONG => '(w, args) ← va_dword args; Ret (u64 w, args)
  | PTRDIFFT => '(w, args) ← va_word args;
                Ret (Z.land (u64 (sgn 32 w)) (Z.lor (Z.shiftl (2 ^ 31 - 1) 1) 1), args)
  end.

(** The absolute value of an [intmax_t]; the least one has none. *)
Definition abs64 (v : Z) : outcome Z := DEFINED (negb (v =? - 2 ^ 63));; Ret (if v <? 0 then - v else v).
Definition abs32 (v : Z) : outcome Z := if v <? 0 then int_value (- v) else Ret v.

Definition format_float (d : double) (c : printf_conversion) : outcome (list Z) :=
  let p := if precision c <? 0 then 6 else precision c in
  let p := if 9 <? p then 9 else p in
  let first := to_int d in
  let rest := fraction d p in
  f ← abs32 first;
  before ← format_integer f true (is_negative d) base_d (mk_conv (flags c) (width c) (-1) (type c));
  r ← abs32 rest;
  after ← format_integer r false false base_d (mk_conv (flags c) (width c) (if p =? 0 then 1 else p) (type c));
  Ret (before ++ [46] ++ after).

(** One conversion; [printf] is [__printf], for the messages about unsupported conversions. *)
Definition convert (printf : list Z → va_list → outcome (list Z)) (ch : Z) (c : printf_conversion) (args : va_list)
  : outcome (list Z * va_list) :=
  if (ch =? 100) || (ch =? 105) then
    '(value, args) ← signed_arg (type c) args;
    v ← abs64 value;
    out ← format_integer v true (value <? 0) base_d c;
    Ret (out, args)
  else if (ch =? 111) || (ch =? 117) || (ch =? 120) || (ch =? 88) then
    '(value, args) ← unsigned_arg (type c) args;
    let b := if ch =? 111 then base_o else if ch =? 117 then base_d else if ch =? 120 then base_x else base_X in
    out ← format_integer value false false b c;
    Ret (out, args)
  else if ch =? 99 then
    '(w, args) ← va_word args;
    out ← format_string [u8 w] 1 c;
    Ret (out, args)
  else if ch =? 115 then
    match args with
    | Str s :: args =>
        let s := default (literal "(null)") s in
        len ← (if precision c <? 0 then strlen s else strnlen (Z.to_nat (precision c)) s);
        out ← format_string s len c;
        Ret (out, args)
    | _ => UB
    end
  else if ch =? 112 then
    '(w, args) ← va_word args;
    out ← format_integer (u32 w) false false base_x (mk_conv POUND (width c) (precision c) (type c));
    Ret (out, args)
  else if ch =? 102 then
    match args with
    | Dbl d :: args => out ← format_float d c; Ret (out, args)
    | _ => UB
    end
  else if (ch =? 101) || (ch =? 69) || (ch =? 103) || (ch =? 71) || (ch =? 110) then
    out ← printf (literal "<<no %%%c in kernel>>") [Word ch]; Ret (out, args)
  else
    out ← printf (literal "<<no %%%c conversion>>") [Word ch]; Ret (out, args).

(** The fuel counts characters of the format, those of a message included. *)
Fixpoint vprintf_loop (fuel : nat) (format : list Z) (args : va_list) : outcome (list Z) :=
  match fuel with
  | O => Blocked
  | S fuel =>
      match format with
      | [] => UB
      | c :: rest =>
          if c =? 0 then Ret []
          else if negb (c =? 37) then out ← vprintf_loop fuel rest args; Ret (c :: out)
          else match rest with
               | [] => UB
               | c :: rest' =>
                   if c =? 37 then out ← vprintf_loop fuel rest' args; Ret (37 :: out)
                   else
                     '(format, conv, args) ← parse_conversion rest args;
                     match format with
                     | [] => UB
                     | ch :: format =>
                         '(s, args) ← convert (vprintf_loop fuel) ch conv args;
                         out ← vprintf_loop fuel format args;
                         Ret (s ++ out)
                     end
               end
      end
  end.

Definition __vprintf (format : list Z) (args : va_list) : outcome (list Z) :=
  vprintf_loop (length format + 32) format args.

(** ** [vsnprintf] *)

(** [vsnprintf_helper] on each character: the position, the length and the buffer. *)
Fixpoint helper_loop (out : list Z) (buffer : list Z) (p length max_length : Z) : outcome (list Z * Z * Z) :=
  match out with
  | [] => Ret (buffer, p, length)
  | ch :: out =>
      next ← int_value (length + 1);
      if length <? max_length then
        buffer ← array_set buffer p ch;
        helper_loop out buffer (p + 1) next max_length
      else helper_loop out buffer p next max_length
  end.

Definition vsnprintf (buffer : list Z) (buf_size : Z) (format : list Z) (args : va_list) : outcome (Z * list Z) :=
  let max_length := s32 (if 0 <? buf_size then buf_size - 1 else 0) in
  out ← __vprintf format args;
  '(buffer, p, length) ← helper_loop out buffer 0 0 max_length;
  buffer ← (if 0 <? buf_size then array_set buffer p 0 else Ret buffer);
  Ret (length, buffer).

Definition snprintf (buffer : list Z) (buf_size : Z) (format : list Z) (args : va_list) : outcome (Z * list Z) :=
  vsnprintf buffer buf_size format args.

(** ** What is stored *)

Lemma helper_rest out : ∀ buffer p len max, max ≤ len → 0 ≤ len → len + Z.of_nat (length out) < 2 ^ 31 →
  helper_loop out buffer p len max = Ret (buffer, p, len + Z.of_nat (length out)).
Proof.
  induction out as [|ch out IH]; intros buffer p len max Hm Hl Hw; cbn [helper_loop length] in *; [do 2 f_equal; lia|].
  rewrite int_value_ok by lia. cbn [mbind outcome_bind]. destruct (Z.ltb_spec len max); [lia|].
  rewrite IH by lia. do 2 f_equal. lia.
Qed.

Lemma helper_run out : ∀ buffer len max, len ≤ max → max < Z.of_nat (length buffer) → 0 ≤ len →
  len + Z.of_nat (length out) < 2 ^ 31 → let n := Nat.min (length out) (Z.to_nat (max - len)) in
  helper_loop out buffer len len max
  = Ret (take (Z.to_nat len) buffer ++ take n out ++ drop (Z.to_nat len + n) buffer, len + Z.of_nat n, len + Z.of_nat (length out)).
Proof.
  induction out as [|ch out IH]; intros buffer len max Hlm Hmb Hl Hw n.
  { subst n. cbn. rewrite !Nat.add_0_r, take_drop, Z.add_0_r. done. }
  destruct (decide (len = max)) as [->|Hne].
  - subst n. rewrite helper_rest by done. replace (Z.to_nat (max - max)) with O by lia. rewrite Nat.min_0_r. cbn [take app].
    rewrite Nat.add_0_r, take_drop, Z.add_0_r. done.
  - cbn [helper_loop length] in *. rewrite int_value_ok by lia. cbn [mbind outcome_bind].
    destruct (Z.ltb_spec len max); [|lia]. rewrite array_set_in by lia. cbn [mbind outcome_bind].
    rewrite IH by (rewrite ?length_insert; lia). subst n.
    replace (Nat.min (S (length out)) (Z.to_nat (max - len))) with (S (Nat.min (length out) (Z.to_nat (max - (len + 1))))) by lia.
    set (k := Nat.min (length out) _). cbn [take]. f_equal. f_equal; [|lia]. f_equal; [|lia].
    replace (Z.to_nat (len + 1)) with (S (Z.to_nat len)) by lia.
    rewrite (take_S_r _ _ ch) by (apply list_lookup_insert_eq; lia). rewrite take_insert_ge, <- app_assoc by lia.
    cbn [app]. do 3 f_equal. rewrite drop_insert_lt by lia. f_equal. lia.
Qed.

Lemma vsnprintf_run buffer buf_size format args out :
  __vprintf format args = Ret out → Z.of_nat (length out) < 2 ^ 31 - 1 →
  0 ≤ buf_size ≤ Z.of_nat (length buffer) → buf_size ≤ 2 ^ 31 →
  ∃ r, vsnprintf buffer buf_size format args = Ret (Z.of_nat (length out), r) ∧
    if buf_size =? 0 then r = buffer
    else let n := Nat.min (length out) (Z.to_nat (buf_size - 1)) in r = take n out ++ 0 :: drop (S n) buffer.
Proof.
  intros E Hw Hb Hs. unfold vsnprintf. rewrite E. cbn [mbind outcome_bind]. destruct (Z.ltb_spec 0 buf_size) as [Hpos|Hz].
  - rewrite s32_small by lia. rewrite helper_run by lia. replace (buf_size - 1 - 0) with (buf_size - 1) by lia.
    set (n := Nat.min _ _). cbn [mbind outcome_bind]. change (Z.to_nat 0) with O. rewrite take_0. cbn [app Nat.add].
    destruct (Z.eqb_spec buf_size 0); [lia|].
    rewrite array_set_in by (rewrite ?length_app, ?length_take, ?length_drop; lia). cbn [mbind outcome_bind]. eexists.
    split; [f_equal; f_equal; lia|]. cbn zeta.
    rewrite insert_app_r_alt by (rewrite length_take; lia). f_equal.
    replace (Z.to_nat (0 + Z.of_nat n) - length (take n out))%nat with O by (rewrite length_take; lia).
    destruct (lookup_lt_is_Some_2 buffer n) as [y Hy]; [lia|]. by rewrite (drop_S _ _ _ Hy).
  - assert (buf_size = 0) as -> by lia. change (s32 0) with 0. rewrite helper_rest by lia. cbn [mbind outcome_bind].
    eexists. split; [f_equal; f_equal; lia|done].
Qed.


(** C39. [vsnprintf] stays inside the buffer.  Whatever is formatted, a call with the size of the
    buffer or less stores the first [buf_size - 1] characters of the output, or all if they
    are fewer, then a null byte; every other byte of the buffer is as before, none is written
    when the size is 0, and the result is the full length of the output. *)
Theorem vsnprintf_bounded buffer buf_size format args out :
  __vprintf format args = Ret out → Z.of_nat (length out) < 2 ^ 31 - 1 →
  0 ≤ buf_size ≤ Z.of_nat (length buffer) → buf_size ≤ 2 ^ 31 →
  ∃ r, vsnprintf buffer buf_size format args = Ret (Z.of_nat (length out), r) ∧
    if buf_size =? 0 then r = buffer
    else let n := Nat.min (length out) (Z.to_nat (buf_size - 1)) in r = take n out ++ 0 :: drop (S n) buffer.
Proof. apply vsnprintf_run. Qed.

(** ** Numbers *)

(** The digits of [v], the least first, and the number that digits, the greatest first, denote. *)
Fixpoint lsb (b : Z) (fuel : nat) (v : Z) : list Z :=
  match fuel with
  | O => []
  | S fuel => if 0 <? v then v mod b :: lsb b fuel (v / b) else []
  end.
Definition val (b : Z) (ds : list Z) : Z := fold_left (λ v d, v * b + d) ds 0.

Definition digit (b : integer_base) (d : Z) : Z := default 0 (digits_ b !! Z.to_nat d).

(** The bases of the conversions. *)
Definition real_base (b : integer_base) : Prop := b = base_d ∨ b = base_o ∨ b = base_x ∨ b = base_X.

Lemma real_base_ok b : real_base b → 8 ≤ base b ∧ Z.of_nat (length (digits_ b)) = base b.
Proof. intros [->|[->|[->| ->]]]; done. Qed.

Lemma val_lsb b fuel : 1 < b → ∀ v, 0 ≤ v < b ^ Z.of_nat fuel →
  val b (rev (lsb b fuel v)) = v ∧ Forall (λ d, 0 ≤ d < b) (lsb b fuel v) ∧ (length (lsb b fuel v) ≤ fuel)%nat.
Proof.
  intros Hb. induction fuel as [|fuel IH]; intros v Hv; cbn [lsb].
  { change (b ^ Z.of_nat 0) with 1 in Hv. assert (v = 0) as -> by lia. by split. }
  destruct (Z.ltb_spec 0 v); [|split; [assert (v = 0) as -> by lia; done|split; [done|cbn; lia]]].
  pose proof (Z.mod_pos_bound v b ltac:(lia)). pose proof (Z.div_mod v b ltac:(lia)).
  rewrite Nat2Z.inj_succ, Z.pow_succ_r in Hv by lia.
  destruct (IH (v / b)) as (E & Hf & Hl); [split; [apply Z.div_pos; lia|apply Z.div_lt_upper_bound; lia]|].
  split; [|split; [by constructor|cbn; lia]]. cbn [rev]. unfold val in *. rewrite fold_left_app. cbn [fold_left]. lia.
Qed.

Lemma digits_loop_run b c fuel : real_base b → flag (flags c) GROUP = false → ∀ v k, 0 ≤ v < base b ^ Z.of_nat fuel →
  digits_loop (S fuel) c b v k = Ret (digit b <$> lsb (base b) fuel v).
Proof.
  intros Hb Hg. destruct (real_base_ok b Hb) as [Hb8 Hlen]. induction fuel as [|fuel IH]; intros v k Hv.
  { change (base b ^ Z.of_nat 0) with 1 in Hv. assert (v = 0) as -> by lia. done. }
  remember (S fuel) as n. cbn [digits_loop]. rewrite Hg. subst n. cbn [andb lsb].
  destruct (Z.ltb_spec 0 v); [|done]. pose proof (Z.mod_pos_bound v (base b) ltac:(lia)).
  destruct (array_get_in (digits_ b) (v mod base b)) as (d & -> & Hd); [lia|]. cbn [mbind outcome_bind].
  rewrite Nat2Z.inj_succ, Z.pow_succ_r in Hv by lia. rewrite IH.
  - cbn [mbind outcome_bind app]. rewrite fmap_cons. unfold digit at 2. by rewrite Hd.
  - split; [apply Z.div_pos; lia|apply Z.div_lt_upper_bound; lia].
Qed.

Lemma rev_replicate {A} n (x : A) : rev (replicate n x) = replicate n x.
Proof. rewrite rev_alt. apply reverse_replicate. Qed.

(** The sign that a conversion writes. *)
Definition sign_of (is_signed negative : bool) (c : printf_conversion) : list Z :=
  if is_signed then
    if negative then [45] else if flag (flags c) PLUS then [43] else if flag (flags c) SPACE then [32] else []
  else [].

(** The padding that fills the field: blanks before, zeros, blanks after. *)
Definition pads (c : printf_conversion) (n : Z) : list Z * list Z * list Z :=
  ((if Z.land (flags c) (Z.lor MINUS ZERO) =? 0 then output_dup 32 n else []),
   (if flag (flags c) ZERO then output_dup 48 n else []),
   (if flag (flags c) MINUS then output_dup 32 n else [])).

Lemma format_integer_run value is_signed negative b c : real_base b → 0 ≤ value < 2 ^ 64 →
  flag (flags c) GROUP = false → flag (flags c) POUND = false → precision c ≤ 63 →
  let ds := rev (lsb (base b) 22 value) in
  let prec := if precision c <? 0 then 1 else precision c in
  let body := replicate (Z.to_nat (prec - Z.of_nat (length ds))) 48 ++ (digit b <$> ds) in
  let sign := sign_of is_signed negative c in
  let '(l, z, r) := pads c (Z.max 0 (width c - Z.of_nat (length body) - Z.of_nat (length sign))) in
  format_integer value is_signed negative b c = Ret (l ++ sign ++ z ++ body ++ r).
Proof.
  intros Hb Hv Hg Hp Hprec ds prec body sign. destruct (real_base_ok b Hb) as [Hb8 _].
  assert (0 ≤ value < base b ^ Z.of_nat 22) as Hv'.
  { split; [lia|]. apply Z.lt_le_trans with (8 ^ Z.of_nat 22); [change (8 ^ Z.of_nat 22) with (2 ^ 66); lia|].
    apply Z.pow_le_mono_l. lia. }
  destruct (val_lsb (base b) 22 ltac:(lia) value Hv') as (_ & _ & Hlen).
  assert (length ds = length (lsb (base b) 22 value)) as Eds by (unfold ds; apply length_rev).
  unfold pads, format_integer. rewrite (digits_loop_run b c 22 Hb Hg) by done. cbn [mbind outcome_bind].
  rewrite Hp. cbn [andb Z.eqb]. rewrite length_fmap. fold prec.
  set (zs := replicate (Z.to_nat (Z.min prec 63 - _)) 48).
  assert (rev ((digit b <$> lsb (base b) 22 value) ++ zs) = body) as Erev.
  { rewrite rev_app_distr. unfold body, zs. rewrite <- Eds. f_equal.
    - rewrite rev_replicate. f_equal. unfold prec. destruct (Z.ltb_spec (precision c) 0); lia.
    - unfold ds. by rewrite map_rev. }
  assert (length ((digit b <$> lsb (base b) 22 value) ++ zs) = length body) as El by (rewrite <- Erev; by rewrite length_rev).
  assert (Z.of_nat (length body) ≤ 63) as Hbody.
  { unfold body. rewrite length_app, length_replicate, length_fmap. unfold prec. destruct (Z.ltb_spec (precision c) 0); lia. }
  rewrite El, Erev. unfold DEFINED. destruct (Z.leb_spec (Z.of_nat (length body)) 64); [|lia]. cbn [mbind outcome_bind app].
  assert ((if is_signed then if flag (flags c) PLUS then if negative then [45] else [43]
           else if flag (flags c) SPACE then if negative then [45] else [32] else if negative then [45] else [] else []) = sign) as ->.
  { unfold sign, sign_of. by destruct is_signed, (flag (flags c) PLUS), (flag (flags c) SPACE), negative. }
  assert (∀ n, (if n <? 0 then 0 else n) = Z.max 0 n) as -> by (intros n; destruct (Z.ltb_spec n 0); lia).
  by replace (width c - Z.of_nat (length body) - 0) with (width c - Z.of_nat (length body)) by lia.
Qed.

Lemma val_zeros b n ds : val b (replicate n 0 ++ ds) = val b ds.
Proof.
  unfold val. rewrite fold_left_app. f_equal. induction n as [|n IH]; [done|]. cbn [replicate fold_left].
  by replace (0 * b + 0) with 0 by lia.
Qed.

Lemma digit_zero b : real_base b → digit b 0 = 48.
Proof. intros [->|[->|[->| ->]]]; done. Qed.

Lemma no_minus_bit f : Z.land f (Z.lor MINUS ZERO) = 0 ↔ flag f MINUS = false ∧ flag f ZERO = false.
Proof.
  unfold flag. rewrite !negb_false_iff, !Z.eqb_eq, Z.land_lor_distr_r. split; [apply Z.lor_eq_0_iff|].
  intros [-> ->]. done.
Qed.

Lemma pads_length c n : 0 ≤ n → let '(l, z, r) := pads c n in n ≤ Z.of_nat (length l + length z + length r).
Proof.
  intros Hn. unfold pads, output_dup. destruct (Z.eqb_spec (Z.land (flags c) (Z.lor MINUS ZERO)) 0) as [E|E].
  - rewrite length_replicate. lia.
  - destruct (flag (flags c) MINUS) eqn:Em, (flag (flags c) ZERO) eqn:Ez; rewrite ?length_replicate; try (cbn; lia).
    destruct E. by apply no_minus_bit.
Qed.

Definition blanks (l : list Z) : Prop := Forall (λ ch, ch = 32) l.

Lemma blanks_if (p : bool) n : blanks (if p then output_dup 32 n else []).
Proof. destruct p; [by apply Forall_replicate|constructor]. Qed.

(** Integer conversions print the number.  Every value of up to 64 bits, in each base the
    conversions use, with any flags but grouping and the alternate form, any width and a
    precision of at most 63, comes out as blanks, the sign, digits of that base that denote
    the value, and blanks; the blanks are all on one side, and the output is as long as the
    width when the digits the value and the precision need leave room. *)
Theorem format_integer_denotes value is_signed negative b c : real_base b → 0 ≤ value < 2 ^ 64 →
  flag (flags c) GROUP = false → flag (flags c) POUND = false → precision c ≤ 63 →
  ∃ l ds r, let sign := sign_of is_signed negative c in
    format_integer value is_signed negative b c = Ret (l ++ sign ++ (digit b <$> ds) ++ r) ∧
    Forall (λ d, 0 ≤ d < base b) ds ∧ val (base b) ds = value ∧ blanks l ∧ blanks r ∧
    (if flag (flags c) MINUS then l = [] else r = []) ∧
    width c ≤ Z.of_nat (length (l ++ sign ++ (digit b <$> ds) ++ r)) ∧ precision c ≤ Z.of_nat (length ds).
Proof.
  intros Hb Hv Hg Hp Hprec. pose proof (format_integer_run value is_signed negative b c Hb Hv Hg Hp Hprec) as E.
  destruct (real_base_ok b Hb) as [Hb8 _]. cbn zeta in E. set (ds0 := rev (lsb (base b) 22 value)) in *.
  set (prec := if precision c <? 0 then 1 else precision c) in *. set (sign := sign_of is_signed negative c) in *.
  set (k := Z.to_nat (prec - Z.of_nat (length ds0))) in *. set (body := replicate k 48 ++ (digit b <$> ds0)) in *.
  set (n := Z.max 0 _) in E. destruct (pads c n) as [[l z] r] eqn:Epads. unfold pads in Epads.
  assert (0 ≤ value < base b ^ Z.of_nat 22) as Hv'.
  { split; [lia|]. apply Z.lt_le_trans with (8 ^ Z.of_nat 22); [change (8 ^ Z.of_nat 22) with (2 ^ 66); lia|].
    apply Z.pow_le_mono_l. lia. }
  destruct (val_lsb (base b) 22 ltac:(lia) value Hv') as (Eval & Hf & _).
  assert (∃ m, z = replicate m 48) as [m ->].
  { injection Epads as _ <- _. case_match; [by eexists|by exists O]. }
  exists l, (replicate (m + k) 0 ++ ds0), r. cbn zeta.
  assert (digit b <$> replicate (m + k) 0 ++ ds0 = replicate m 48 ++ body) as Ebody.
  { unfold body. rewrite fmap_app, fmap_replicate, digit_zero, replicate_add, app_assoc by done. done. }
  rewrite Ebody, E, <- (app_assoc (replicate m 48)). split; [done|]. split.
  { apply Forall_app. split; [apply Forall_replicate; lia|]. unfold ds0. rewrite list.Forall_forall in Hf |- *.
    intros d Hd. apply Hf. by apply list_elem_of_In, in_rev, list_elem_of_In in Hd. }
  split; [by rewrite val_zeros|]. pose proof (pads_length c n ltac:(lia)) as Hlen. unfold pads in Hlen.
  injection Epads as <- Ez <-. rewrite Ez in Hlen. clear Ez.
  split; [apply blanks_if|]. split; [apply blanks_if|].
  split; [|split].
  - destruct (flag (flags c) MINUS) eqn:Em; [|done]. destruct (Z.eqb_spec (Z.land (flags c) (Z.lor MINUS ZERO)) 0) as [Ez'|]; [|done].
    apply no_minus_bit in Ez' as [Ez' _]. congruence.
  - rewrite !length_app. rewrite length_replicate in *. subst n. lia.
  - rewrite length_app, length_replicate. unfold k, prec. destruct (Z.ltb_spec (precision c) 0); lia.
Qed.

(** ** [%d] and [atoi] *)

Lemma digits_lsb fuel : ∀ n acc, 0 < n < 10 ^ Z.of_nat (S fuel) →
  digits (S fuel) n acc = rev ((λ d, 48 + d) <$> lsb 10 (S fuel) n) ++ acc.
Proof.
  induction fuel as [|fuel IH]; intros n acc Hn; rewrite digits_S; destruct (Z.ltb_spec n 10).
  1,3: cbn [lsb]; destruct (Z.ltb_spec 0 n); [|lia]; rewrite ?(Z.div_small n 10) by lia; done.
  - change (10 ^ Z.of_nat 1) with 10 in Hn. lia.
  - remember (S fuel) as m. cbn [lsb]. subst m. destruct (Z.ltb_spec 0 n); [|lia]. rewrite IH.
    + cbn [fmap list_fmap rev]. by rewrite <- app_assoc.
    + rewrite Nat2Z.inj_succ, Z.pow_succ_r in Hn by lia.
      split; [apply Z.div_str_pos; lia|apply Z.div_lt_upper_bound; lia].
Qed.

Lemma lsb_more b fuel : 1 < b → ∀ n v, (fuel ≤ n)%nat → 0 ≤ v < b ^ Z.of_nat fuel → lsb b n v = lsb b fuel v.
Proof.
  intros Hb. induction fuel as [|fuel IH]; intros n v Hn Hv.
  - change (b ^ Z.of_nat 0) with 1 in Hv. assert (v = 0) as -> by lia. by destruct n.
  - destruct n as [|n]; [lia|]. cbn [lsb]. destruct (Z.ltb_spec 0 v); [|done]. f_equal. apply IH; [lia|].
    rewrite Nat2Z.inj_succ, Z.pow_succ_r in Hv by lia.
    split; [apply Z.div_pos; lia|apply Z.div_lt_upper_bound; lia].
Qed.

Lemma digit_d d : 0 ≤ d < 10 → digit base_d d = 48 + d.
Proof.
  intros Hd. assert (d = 0 ∨ d = 1 ∨ d = 2 ∨ d = 3 ∨ d = 4 ∨ d = 5 ∨ d = 6 ∨ d = 7 ∨ d = 8 ∨ d = 9) as Hc by lia.
  by repeat (destruct Hc as [->|Hc]; [done|]); subst.
Qed.

Lemma digit_o d : 0 ≤ d < 8 → digit base_o d = 48 + d.
Proof.
  intros Hd. assert (d = 0 ∨ d = 1 ∨ d = 2 ∨ d = 3 ∨ d = 4 ∨ d = 5 ∨ d = 6 ∨ d = 7) as Hc by lia.
  by repeat (destruct Hc as [->|Hc]; [done|]); subst.
Qed.

Lemma printf_d n : - 2 ^ 31 ≤ n < 2 ^ 31 → __vprintf (literal "%d") [Word n] = Ret (decimal n).
Proof.
  intros Hn. change (literal "%d") with [37; 100; 0]. unfold __vprintf. cbn [length Nat.add].
  remember 34%nat as fuel eqn:Hfuel. change (vprintf_loop (S fuel) [37; 100; 0] [Word n])
    with ('(s, args) ← convert (vprintf_loop fuel) 100 (mk_conv 0 0 (-1) INT) [Word n];
          out ← vprintf_loop fuel [0] args; Ret (s ++ out)).
  unfold convert. cbn [Z.eqb Pos.eqb orb type signed_arg va_word mbind outcome_bind].
  assert (sgn 32 n = n) as -> by apply (s32_small n Hn).
  unfold abs64. destruct (Z.eqb_spec n (- 2 ^ 63)); [lia|]. cbn [negb DEFINED mbind outcome_bind].
  set (v := if n <? 0 then - n else n). assert (0 ≤ v ≤ 2 ^ 31) as Hv by (unfold v; destruct (Z.ltb_spec n 0); lia).
  pose proof (format_integer_run v true (n <? 0) base_d (mk_conv 0 0 (-1) INT) (or_introl eq_refl) ltac:(lia) eq_refl eq_refl ltac:(cbn; lia)) as E.
  cbn [base base_d width precision flags pads] in E. change (-1 <? 0) with true in E.
  rewrite Z.max_l in E by lia. change (output_dup _ 0) with (@nil Z) in E.
  change (Z.land 0 (Z.lor MINUS ZERO) =? 0) with true in E. change (flag 0 ZERO) with false in E.
  change (flag 0 MINUS) with false in E. cbn [app] in E. rewrite app_nil_r in E. rewrite E. cbn [mbind outcome_bind].
  rewrite Hfuel. cbn [vprintf_loop Z.eqb mbind outcome_bind]. rewrite app_nil_r. f_equal. unfold decimal, sign_of, v.
  destruct (decide (n = 0)) as [->|Hnz]; [done|].
  assert (0 < v) as Hv0 by (unfold v; destruct (Z.ltb_spec n 0); lia).
  assert (replicate (Z.to_nat (1 - Z.of_nat (length (rev (lsb 10 22 v))))) 48 ++ (digit base_d <$> rev (lsb 10 22 v))
    = digits 10 v []) as Ed.
  { rewrite digits_lsb by lia. rewrite app_nil_r, (lsb_more 10 10) by lia.
    destruct (val_lsb 10 10 ltac:(lia) v ltac:(lia)) as (_ & Hf & _).
    assert (length (rev (lsb 10 10 v)) ≠ O) as Hl.
    { rewrite length_rev. cbn [lsb]. destruct (Z.ltb_spec 0 v); cbn; lia. }
    replace (Z.to_nat (1 - Z.of_nat (length (rev (lsb 10 10 v))))) with O by lia. cbn [replicate app].
    rewrite <- map_rev. apply list_fmap_ext. intros i d Hd. apply digit_d.
    rewrite list.Forall_forall in Hf. apply Hf. apply list_elem_of_In, in_rev, list_elem_of_In, list_elem_of_lookup. eauto. }
  fold v. rewrite Ed. unfold v. by destruct (Z.ltb_spec n 0).
Qed.

Lemma length_decimal n : - 2 ^ 31 ≤ n < 2 ^ 31 → (length (decimal n) ≤ 11)%nat.
Proof.
  intros Hn. assert (∀ v, 0 ≤ v ≤ 2 ^ 31 → (length (digits 10 v []) ≤ 10)%nat) as H.
  { intros v Hv. destruct (decide (v = 0)) as [->|]; [cbn; lia|]. rewrite digits_lsb by lia.
    destruct (val_lsb 10 10 ltac:(lia) v ltac:(lia)) as (_ & _ & Hl).
    rewrite app_nil_r, length_rev, length_fmap. done. }
  unfold decimal. destruct (Z.ltb_spec n 0); [pose proof (H (- n) ltac:(lia)); cbn [length]; lia|].
  pose proof (H n ltac:(lia)). lia.
Qed.

(** [snprintf] and [atoi] are inverse.  Printing any [int] with ["%d"] into a buffer of at
    least twelve bytes stores its decimal notation, and [atoi] of the buffer is the number. *)
Theorem snprintf_atoi buffer n : - 2 ^ 31 ≤ n < 2 ^ 31 → 12 ≤ Z.of_nat (length buffer) ≤ 2 ^ 31 →
  ∃ r, snprintf buffer (Z.of_nat (length buffer)) (literal "%d") [Word n] = Ret (Z.of_nat (length (decimal n)), r) ∧
    length r = length buffer ∧ atoi r = Ret n.
Proof.
  intros Hn Hb. pose proof (length_decimal n Hn). pose proof (printf_d n Hn) as E.
  destruct (vsnprintf_run buffer (Z.of_nat (length buffer)) _ _ _ E) as (r & Er & Hr); [lia|lia|lia|].
  exists r. split; [exact Er|]. destruct (Z.eqb_spec (Z.of_nat (length buffer)) 0); [lia|]. cbn zeta in Hr.
  rewrite Nat.min_l, firstn_all in Hr by lia. subst r. split.
  - rewrite length_app. cbn [length]. rewrite length_drop. lia.
  - apply (atoi_run [] n 0); done.
Qed.

(** A format that ends in a percent sign makes [__vprintf] read past its terminator. *)
Lemma percent_at_end s args : Forall (λ c, c ≠ 0 ∧ c ≠ 37) s → __vprintf (s ++ [37; 0]) args = UB.
Proof.
  intros Hs. unfold __vprintf. rewrite length_app. cbn [length].
  assert (vprintf_loop (length s + 34) (s ++ [37; 0]) args = UB) as H.
  { induction Hs as [|c s [H0 H37] _ IH]; [reflexivity|].
    cbn [length app Nat.add vprintf_loop]. destruct (Z.eqb_spec c 0); [done|]. destruct (Z.eqb_spec c 37); [done|].
    cbn [negb]. by rewrite IH. }
  rewrite <- H. f_equal. lia.
Qed.

(** ** [%0no] *)

(** [v] in octal with exactly [n] digits. *)
Definition octal (n : nat) (v : Z) : list Z :=
  replicate (n - length (lsb 8 n v)) 48 ++ ((λ d, 48 + d) <$> rev (lsb 8 n v)).

Lemma lsb_nonempty b n v : 0 < v → n ≠ O → length (lsb b n v) ≠ O.
Proof. intros Hv Hn. destruct n; [done|]. cbn [lsb]. destruct (Z.ltb_spec 0 v); cbn; lia. Qed.

Lemma format_octal n v : (0 < n ≤ 22)%nat → 0 ≤ v < 8 ^ Z.of_nat n → v < 2 ^ 64 →
  format_integer v false false base_o (mk_conv ZERO (Z.of_nat n) (-1) INT) = Ret (octal n v).
Proof.
  intros Hn Hv Hv64. pose proof (format_integer_run v false false base_o (mk_conv ZERO (Z.of_nat n) (-1) INT)
    (or_intror (or_introl eq_refl)) ltac:(lia) eq_refl eq_refl ltac:(cbn; lia)) as E.
  cbn [base base_o width precision flags pads sign_of] in E. change (-1 <? 0) with true in E. cbn iota in E.
  change (Z.land ZERO (Z.lor MINUS ZERO) =? 0) with false in E. change (flag ZERO ZERO) with true in E.
  change (flag ZERO MINUS) with false in E. cbn iota zeta in E. rewrite E. clear E.
  rewrite (lsb_more 8 n) by lia. destruct (val_lsb 8 n ltac:(lia) v Hv) as (_ & Hf & Hl).
  assert (digit base_o <$> rev (lsb 8 n v) = (λ d, 48 + d) <$> rev (lsb 8 n v)) as ->.
  { apply list_fmap_ext. intros i d Hd. apply digit_o. rewrite list.Forall_forall in Hf.
    apply Hf, list_elem_of_In, in_rev, list_elem_of_In, list_elem_of_lookup. eauto. }
  cbn [app]. rewrite app_nil_r. f_equal. unfold octal, output_dup. rewrite !length_app, length_replicate, length_fmap, length_rev.
  rewrite app_assoc, <- replicate_add. do 2 f_equal. cbn [length]. lia.
Qed.

Lemma length_octal n v : 0 ≤ v < 8 ^ Z.of_nat n → length (octal n v) = n.
Proof.
  intros Hv. destruct (val_lsb 8 n ltac:(lia) v Hv) as (_ & _ & Hl). unfold octal.
  rewrite length_app, length_replicate, length_fmap, length_rev. lia.
Qed.

(** [printf("%0no", v)] for the one-digit and two-digit widths. *)
Lemma printf_07o v : 0 ≤ v < 8 ^ 7 → __vprintf (literal "%07o") [Word v] = Ret (octal 7 v).
Proof.
  intros Hv. change (literal "%07o") with [37; 48; 55; 111; 0]. unfold __vprintf. cbn [length Nat.add].
  remember 36%nat as fuel eqn:Hfuel. change (vprintf_loop (S fuel) [37; 48; 55; 111; 0] [Word v])
    with ('(s, args) ← convert (vprintf_loop fuel) 111 (mk_conv ZERO 7 (-1) INT) [Word v];
          out ← vprintf_loop fuel [0] args; Ret (s ++ out)).
  unfold convert. cbn [Z.eqb Pos.eqb orb type unsigned_arg va_word mbind outcome_bind].
  rewrite (wrap_small 32 v) by lia. pose proof (format_octal 7 v ltac:(lia) Hv ltac:(lia)) as E.
  change (Z.of_nat 7) with 7 in E. rewrite E. cbn [mbind outcome_bind].
  rewrite Hfuel. cbn [vprintf_loop Z.eqb mbind outcome_bind]. by rewrite app_nil_r.
Qed.

Lemma printf_011o v : 0 ≤ v < 2 ^ 32 → __vprintf (literal "%011o") [Word v] = Ret (octal 11 v).
Proof.
  intros Hv. change (literal "%011o") with [37; 48; 49; 49; 111; 0]. unfold __vprintf. cbn [length Nat.add].
  remember 37%nat as fuel eqn:Hfuel. change (vprintf_loop (S fuel) [37; 48; 49; 49; 111; 0] [Word v])
    with ('(s, args) ← convert (vprintf_loop fuel) 111 (mk_conv ZERO 11 (-1) INT) [Word v];
          out ← vprintf_loop fuel [0] args; Ret (s ++ out)).
  unfold convert. cbn [Z.eqb Pos.eqb orb type unsigned_arg va_word mbind outcome_bind].
  rewrite (wrap_small 32 v) by lia. pose proof (format_octal 11 v ltac:(lia) ltac:(lia) ltac:(lia)) as E.
  change (Z.of_nat 11) with 11 in E. rewrite E. cbn [mbind outcome_bind].
  rewrite Hfuel. cbn [vprintf_loop Z.eqb mbind outcome_bind]. by rewrite app_nil_r.
Qed.

End Printf.

(** [double] plays no part in these runs. *)
Notation no_double f := (f unit (λ _, 0) (λ _ _, 0) (λ _, false)).

Lemma vsnprintf_bounded_witness :
  snd <$> no_double (@vsnprintf) (replicate 6 255) 4 (literal "%d!") [Word 1234] = Ret [49; 50; 51; 0; 255; 255].
Proof.
  destruct (no_double (@vsnprintf_bounded) (replicate 6 255) 4 (literal "%d!") [Word 1234] [49; 50; 51; 52; 33])
    as (r & -> & Hr); [vm_compute; reflexivity|cbn; lia|cbn; lia|lia|]. cbn in Hr. subst r. reflexivity.
Defined.

Lemma format_integer_denotes_witness : ∃ ds, val 16 ds = 255 ∧
  format_integer 255 false false base_x (mk_conv 0 0 (-1) INT) = Ret (digit base_x <$> ds).
Proof.
  destruct (format_integer_denotes 255 false false base_x (mk_conv 0 0 (-1) INT)) as (l & ds & r & _ & _ & Hval & _);
    [right; right; left; reflexivity|lia|reflexivity|reflexivity|cbn; lia|].
  exists [15; 15]. split; [reflexivity|vm_compute; reflexivity].
Defined.

Lemma snprintf_atoi_witness : ∃ r,
  no_double (@snprintf) (replicate 16 0) 16 (literal "%d") [Word (-17)] = Ret (3, r) ∧ atoi r = Ret (-17).
Proof.
  destruct (no_double (@snprintf_atoi) (replicate 16 0) (-17)) as (r & E & _ & Hr); [lia|cbn; lia|].
  exists r. split; [exact E|exact Hr].
Defined.

End Stdio.
