(* ===== verification/Ustar.v ===== *)
(** * Tar archives: [lib/ustar.c]

    A header is its 512 bytes, a field an offset and a size in them.  [ustar_make_header]
    writes the fields with the [snprintf] of [Stdio] and the string functions of
    [Strings]. *)

From stdpp Require Import base tactics numbers list list_numbers option.
From Stdlib Require Ascii String.
From S2P Require Import Prelude Strings Sort Stdio.

Open Scope Z_scope.

Module Ustar.
Import Strings Sort Stdio.
Import String.StringSyntax.

Definition USTAR_REGULAR : Z := 48.
Definition USTAR_DIRECTORY : Z := 53.
Definition USTAR_HEADER_SIZE : nat := 512.

(** [struct ustar_header]: offset and size of the fields in use. *)
Definition name : nat * nat := (0, 100)%nat.
Definition mode : nat * nat := (100, 8)%nat.
Definition uid : nat * nat := (108, 8)%nat.
Definition gid : nat * nat := (116, 8)%nat.
Definition size : nat * nat := (124, 12)%nat.
Definition mtime : nat * nat := (136, 12)%nat.
Definition chksum : nat * nat := (148, 8)%nat.
Definition typeflag : nat * nat := (156, 1)%nat.
Definition magic : nat * nat := (257, 6)%nat.
Definition version : nat * nat := (263, 2)%nat.
Definition uname : nat * nat := (265, 32)%nat.
Definition gname : nat * nat := (297, 32)%nat.
Definition prefix : nat * nat := (345, 155)%nat.

(** The header from a field on, and a write that starts there. *)
Definition field (f : nat * nat) (h : list Z) : list Z := drop (fst f) h.
Definition write (f : nat * nat) (w : list Z → outcome (Z * list Z)) (h : list Z) : outcome (list Z) :=
  '(_, r) ← w (field f h); Ret (take (fst f) h ++ r).

(** [snprintf] without [double]s. *)
Definition snprintf (buffer : list Z) (buf_size : Z) (format : list Z) (args : list (@va_item unit)) : outcome (Z * list Z) :=
  Stdio.snprintf (λ _, 0) (λ _ _, 0) (λ _, false) buffer buf_size format args.

Definition put_string (f : nat * nat) (src : list Z) (h : list Z) : outcome (list Z) :=
  write f (λ dst, strlcpy dst src (Z.of_nat (snd f))) h.
Definition put_octal (f : nat * nat) (len : nat) (format : list Z) (v : Z) (h : list Z) : outcome (list Z) :=
  write f (λ dst, snprintf dst (Z.of_nat len) format [Word v]) h.
Definition put_byte (ofs : nat) (b : Z) (h : list Z) : outcome (list Z) := array_set h (Z.of_nat ofs) b.

(** The sum of the bytes, those of the checksum field counted as spaces. *)
Fixpoint sum_loop (n : nat) (i : Z) (h : list Z) (acc : Z) : outcome Z :=
  match n with
  | O => Ret acc
  | S n =>
      let start := Z.of_nat (fst chksum) in
      let in_chksum_field := (start <=? i) && (i <? start + Z.of_nat (snd chksum)) in
      b ← array_get h i;
      sum_loop n (i + 1) h (u32 (acc + (if in_chksum_field then 32 else b)))
  end.
Definition calculate_chksum (h : list Z) : outcome Z := sum_loop USTAR_HEADER_SIZE 0 h 0.

(** Does the name start with ["/"], ["./"] or ["../"]? *)
Definition antisocial (file_name : list Z) : outcome bool :=
  c ← array_get file_name 0;
  if c =? 47 then Ret true else
  a ← memcmp 2 file_name (literal "./");
  if a =? 0 then Ret true else
  b ← memcmp 3 file_name (literal "../");
  Ret (b =? 0).

(** The fuel bounds the number of slashes. *)
Fixpoint strip_loop (fuel : nat) (file_name : list Z) : outcome (list Z) :=
  match fuel with
  | O => Blocked
  | S fuel =>
      bad ← antisocial file_name;
      if (bad : bool) then
        r ← strchr file_name 47;
        match r with
        | Some i => strip_loop fuel (drop (Z.to_nat i + 1) file_name)
        | None => UB
        end
      else Ret file_name
  end.

Definition strip_antisocial_prefixes (file_name : list Z) : outcome (list Z) :=
  file_name ← strip_loop (S (length file_name)) file_name;
  c ← array_get file_name 0;
  if c =? 0 then Ret (literal ".") else
  r ← strcmp file_name (literal "..");
  Ret (if r =? 0 then literal "." else file_name).

Definition ustar_make_header (file_name : list Z) (type : Z) (sz : Z) (header : list Z) : outcome (bool * list Z) :=
  ASSERT ((type =? USTAR_REGULAR) || (type =? USTAR_DIRECTORY));;
  file_name ← strip_antisocial_prefixes file_name;
  len ← strlen file_name;
  if 99 <? len then Ret (false, header) else
  h ← memset USTAR_HEADER_SIZE header 0;
  h ← put_string name file_name h;
  h ← put_octal mode 8 (literal "%07o") (if type =? USTAR_REGULAR then 420 else 493) h;
  h ← put_string uid (literal "0000000") h;
  h ← put_string gid (literal "0000000") h;
  h ← put_octal size 12 (literal "%011o") sz h;
  h ← put_octal mtime 12 (literal "%011o") 1136102400 h;
  h ← put_byte (fst typeflag) type h;
  h ← put_string magic (literal "ustar") h;
  h ← put_byte (fst version) 48 h;
  h ← put_byte (fst version + 1) 48 h;
  h ← put_string gname (literal "root") h;
  h ← put_string uname (literal "root") h;
  sum ← calculate_chksum h;
  h ← put_octal chksum 8 (literal "%07o") sum h;
  Ret (true, h).

(** The field's value, or [None] when it is malformed. *)
Fixpoint parse_octal_loop (n : nat) (first : bool) (s : list Z) (value : Z) : outcome (option Z) :=
  match n with
  | O => Ret None
  | S n =>
      match s with
      | [] => UB
      | c :: s =>
          if (48 <=? c) && (c <=? 55) then
            if (2 ^ 32 - 1) / 8 <? value then Ret None
            else parse_octal_loop n false s (u32 (c - 48 + value * 8))
          else if (c =? 32) || (c =? 0) then Ret (if first then None else Some value)
          else Ret None
      end
  end.
Definition parse_octal_field (f : nat * nat) (h : list Z) : outcome (option Z) := parse_octal_loop (snd f) true (field f h) 0.

Definition is_all_zeros (block : list Z) (cnt : nat) : outcome bool :=
  s ← memcpy_from block 0 cnt; Ret (forallb (λ b, b =? 0) s).

(** What parsing a header finds. *)
Inductive parsed :=
| Error (message : String.string)
| End_of_archive
| Entry (file_name : list Z) (type sz : Z).

Definition ustar_parse_header (header : list Z) : outcome parsed :=
  z ← is_all_zeros header USTAR_HEADER_SIZE;
  if (z : bool) then Ret End_of_archive else
  m ← memcmp 6 (field magic header) (literal "ustar");
  if negb (m =? 0) then Ret (Error "not a ustar archive") else
  v0 ← array_get header (Z.of_nat (fst version));
  v1 ← array_get header (Z.of_nat (fst version) + 1);
  if negb (v0 =? 48) || negb (v1 =? 48) then Ret (Error "invalid ustar version") else
  c ← parse_octal_field chksum header;
  match c with
  | None => Ret (Error "corrupt chksum field")
  | Some c =>
      sum ← calculate_chksum header;
      if negb (c =? sum) then Ret (Error "checksum mismatch") else
      last ← array_get header (Z.of_nat (fst name + snd name - 1));
      pre ← array_get header (Z.of_nat (fst prefix));
      if negb (last =? 0) || negb (pre =? 0) then Ret (Error "file name too long") else
      type ← array_get header (Z.of_nat (fst typeflag));
      if negb (type =? USTAR_REGULAR) && negb (type =? USTAR_DIRECTORY) then Ret (Error "unimplemented file type") else
      s ← (if type =? USTAR_REGULAR then parse_octal_field size header else Ret (Some 0));
      match s with
      | None => Ret (Error "corrupt file size field")
      | Some s =>
          if 2 ^ 31 - 1 <? s then Ret (Error "file too large") else
          file_name ← strip_antisocial_prefixes (field name header);
          Ret (Entry file_name type s)
      end
  end.

(** ** Names *)

Definition starts (p s : list Z) : bool := bool_decide (take (length p) s = p).

(** A name that leaves the directory it is extracted in. *)
Definition escapes (s : list Z) : bool := starts [47] s || starts [46; 47] s || starts [46; 46; 47] s.

(** A name that [strip_antisocial_prefixes] leaves alone. *)
Definition social (s : list Z) : Prop := escapes s = false ∧ s ≠ [] ∧ s ≠ [46; 46].

Lemma memcmp_text p q s r : text s → text p →
  ∃ v, memcmp (length p) (s ++ 0 :: r) (p ++ q) = Ret v ∧ (v = 0 ↔ take (length p) s = p).
Proof.
  intros Hs Hp. revert s Hs. induction Hp as [|y p Hy Hp IH]; intros s Hs; [by exists 0|].
  destruct Hs as [|x s Hx Hs]; cbn [app memcmp length take].
  - destruct (Z.eqb_spec 0 y); [congruence|]. cbn [negb]. eexists. split; [done|].
    split; [|discriminate]. destruct (y <? 0); discriminate.
  - destruct (Z.eqb_spec x y) as [->|Hne]; cbn [negb].
    + destruct (IH s Hs) as (v & E & Hv). exists v. split; [done|]. rewrite Hv. split; congruence.
    + eexists. split; [done|]. split; [|congruence]. destruct (y <? x); discriminate.
Qed.

Lemma antisocial_run s r : text s → antisocial (s ++ 0 :: r) = Ret (escapes s).
Proof.
  intros Hs. unfold antisocial, escapes. assert (starts [47] s = match s with c :: _ => c =? 47 | [] => false end) as E1.
  { unfold starts. destruct s as [|c s]; [done|]. cbn. rewrite firstn_O. destruct (Z.eqb_spec c 47) as [->|].
    - by rewrite bool_decide_eq_true_2.
    - rewrite bool_decide_eq_false_2; congruence. }
  destruct (memcmp_text [46; 47] [0] s r Hs) as (a & Ea & Ha); [by repeat constructor|].
  destruct (memcmp_text [46; 46; 47] [0] s r Hs) as (b & Eb & Hb); [by repeat constructor|].
  change ([46; 47] ++ [0]) with (literal "./") in Ea. change ([46; 46; 47] ++ [0]) with (literal "../") in Eb.
  cbn [length] in *. rewrite E1.
  assert (array_get (s ++ 0 :: r) 0 = Ret (match s with c :: _ => c | [] => 0 end)) as -> by (by destruct s).
  cbn [mbind outcome_bind]. assert (match s with c :: _ => c | [] => 0 end =? 47 = match s with c :: _ => c =? 47 | [] => false end) as ->
    by (by destruct s).
  destruct (match s with c :: _ => c =? 47 | [] => false end); [done|]. rewrite Ea. cbn [mbind outcome_bind orb].
  unfold starts. cbn [length]. destruct (Z.eqb_spec a 0) as [->|Hna].
  - by rewrite bool_decide_eq_true_2 by (by apply Ha).
  - rewrite bool_decide_eq_false_2 by (by rewrite <- Ha). cbn [orb]. rewrite Eb. cbn [mbind outcome_bind]. f_equal.
    destruct (Z.eqb_spec b 0) as [->|]; symmetry; [apply bool_decide_eq_true_2; by apply Hb|].
    apply bool_decide_eq_false_2. by rewrite <- Hb.
Qed.

Lemma escapes_slash s : escapes s = true → ∃ d t, s = d ++ 47 :: t ∧ 47 ∉ d.
Proof.
  unfold escapes, starts. rewrite !orb_true_iff, !bool_decide_eq_true. intros [[E|E]|E]; cbn [length] in E;
    match type of E with take ?n _ = _ => rewrite <- (take_drop n s), E end.
  - exists [], (drop 1 s). split; [done|]. apply not_elem_of_nil.
  - exists [46], (drop 2 s). split; [done|]. by intros ?%list_elem_of_singleton.
  - exists [46; 46], (drop 3 s). split; [done|]. rewrite elem_of_cons. by intros [?|?%list_elem_of_singleton].
Qed.

Lemma strchr_split d t c : text d → c ≠ 0 → c ∉ d → strchr (d ++ c :: t) c = Ret (Some (Z.of_nat (length d))).
Proof.
  intros Hd Hc. induction Hd as [|x d Hx Hd IH]; cbn [app strchr length]; [by rewrite Z.eqb_refl|].
  rewrite not_elem_of_cons. intros [Hne Hin]. destruct (Z.eqb_spec x c); [congruence|]. destruct (Z.eqb_spec x 0); [done|].
  rewrite IH by done. cbn [mbind outcome_bind option_map]. do 2 f_equal. lia.
Qed.

Lemma strip_loop_run fuel : ∀ s r, text s → (length s < fuel)%nat →
  ∃ n, strip_loop fuel (s ++ 0 :: r) = Ret (n ++ 0 :: r) ∧ text n ∧ escapes n = false ∧ (escapes s = false → n = s) ∧
    n `suffix_of` s.
Proof.
  induction fuel as [|fuel IH]; intros s r Hs Hf; [lia|]. cbn [strip_loop]. rewrite antisocial_run by done.
  cbn [mbind outcome_bind]. destruct (escapes s) eqn:E; [|by exists s].
  destruct (escapes_slash s E) as (d & t & -> & Hd). pose proof Hs as Hs'. apply Forall_app in Hs as [Htd Hs].
  apply list.Forall_cons in Hs as [_ Ht]. rewrite <- app_assoc. cbn [app].
  rewrite strchr_split by done. cbn [mbind outcome_bind].
  assert (drop (Z.to_nat (Z.of_nat (length d)) + 1) (d ++ 47 :: t ++ 0 :: r) = t ++ 0 :: r) as ->.
  { rewrite Nat2Z.id, drop_app_ge by lia. by replace (length d + 1 - length d)%nat with 1%nat by lia. }
  rewrite length_app in Hf. cbn [length] in Hf. destruct (IH t r Ht) as (n & -> & Hn & He & _ & Hsuf); [lia|].
  exists n. split; [done|]. split; [done|]. split; [done|]. split; [done|]. etrans; [done|].
  rewrite cons_middle, app_assoc. by eexists.
Qed.

(** The name that remains. *)
Lemma strip_run s r : text s → ∃ n r', strip_antisocial_prefixes (s ++ 0 :: r) = Ret (n ++ 0 :: r') ∧ text n ∧ social n ∧
  (social s → n = s) ∧ (n = [46] ∨ n `suffix_of` s).
Proof.
  intros Hs. unfold strip_antisocial_prefixes.
  destruct (strip_loop_run (S (length (s ++ 0 :: r))) s r Hs) as (n & -> & Hn & He & Hid & Hsuf); [rewrite length_app; lia|].
  cbn [mbind outcome_bind]. assert (text [46]) as Hdot by (by repeat constructor).
  assert (social [46]) as Hsd by (by split). destruct n as [|c n'] eqn:En.
  { cbn. exists [46], []. split; [done|]. split; [done|]. split; [done|]. split; [|by left].
    intros (H1 & H2 & _). destruct H2. symmetry. by apply Hid. }
  rewrite <- En in *. assert (array_get (n ++ 0 :: r) 0 = Ret c) as -> by (by subst). cbn [mbind outcome_bind].
  assert (c ≠ 0) as Hc by (rewrite En in Hn; by apply list.Forall_cons in Hn as [? _]).
  destruct (Z.eqb_spec c 0); [done|].
  destruct (strcmp_run n [46; 46] r [] Hn ltac:(by repeat constructor)) as (v & E & Hv).
  change ([46; 46] ++ [0]) with (literal "..") in E. rewrite E. cbn [mbind outcome_bind].
  destruct (Z.eqb_spec v 0) as [->|Hnz].
  - exists [46], []. split; [done|]. split; [done|]. split; [done|]. split; [|by left].
    intros (H1 & _ & H3). rewrite <- (Hid H1) in H3. by destruct H3; apply Hv.
  - exists n, r. split; [done|]. split; [done|]. split; [|split; [intros (H1 & _); by apply Hid|by right]].
    split; [done|]. split; [by subst|]. by rewrite <- Hv.
Qed.

(** ** A header as the list of its fields *)

Abbreviation zeros := (λ k, replicate k 0).
Definition pad (k : nat) (src : list Z) : list Z := src ++ zeros (k - length src)%nat.

Lemma length_pad k src : (length src ≤ k)%nat → length (pad k src) = k.
Proof. intros. unfold pad. rewrite length_app, length_replicate. lia. Qed.

(** Field [i] of the header [concat fs]. *)
Lemma split_fields (fs : list (list Z)) i x : fs !! i = Some x →
  concat fs = concat (take i fs) ++ x ++ concat (drop (S i) fs).
Proof. intros Hx. rewrite <- (take_drop_middle fs i x Hx) at 1. by rewrite concat_app. Qed.

Lemma split_insert (fs : list (list Z)) i x y : fs !! i = Some x →
  concat (<[i := y]> fs) = concat (take i fs) ++ y ++ concat (drop (S i) fs).
Proof.
  intros Hx. pose proof (lookup_lt_Some _ _ _ Hx). rewrite insert_take_drop, concat_app by done. done.
Qed.

Lemma zeros_fill (src B : list Z) k : (length src < k)%nat →
  src ++ 0 :: drop (S (length src)) (zeros k ++ B) = pad k src ++ B.
Proof.
  intros Hk. unfold pad. rewrite <- app_assoc. f_equal. rewrite drop_app_le by (rewrite length_replicate; lia).
  rewrite drop_replicate. replace (k - length src)%nat with (S (k - S (length src))) by lia. done.
Qed.

(** The stores of one field. *)
Lemma put_string_field fs i f src r : fs !! i = Some (zeros (snd f)) → fst f = length (concat (take i fs)) →
  text src → (length src < snd f)%nat →
  put_string f (src ++ 0 :: r) (concat fs) = Ret (concat (<[i := pad (snd f) src]> fs)).
Proof.
  intros Hf Ho Ht Hl. unfold put_string, write, field. rewrite (split_fields fs i _ Hf), (split_insert fs i _ _ Hf).
  rewrite Ho, drop_app_length, take_app_length.
  rewrite strlcpy_fits by (try done; rewrite length_app, length_replicate; lia). cbn [mbind outcome_bind].
  by rewrite zeros_fill.
Qed.

Lemma put_octal_field fs i f format v src : fs !! i = Some (zeros (snd f)) → fst f = length (concat (take i fs)) →
  __vprintf (λ _ : unit, 0) (λ _ _, 0) (λ _, false) format [Word v] = Ret src → (length src < snd f)%nat → (snd f ≤ 12)%nat →
  put_octal f (snd f) format v (concat fs) = Ret (concat (<[i := pad (snd f) src]> fs)).
Proof.
  intros Hf Ho Hp Hl H12. unfold put_octal, write, field, snprintf, Stdio.snprintf.
  rewrite (split_fields fs i _ Hf), (split_insert fs i _ _ Hf). rewrite Ho, drop_app_length, take_app_length.
  destruct (vsnprintf_run (λ _ : unit, 0) (λ _ _, 0) (λ _, false) (zeros (snd f) ++ concat (drop (S i) fs)) (Z.of_nat (snd f)) format
    [Word v] src Hp) as (r & -> & Hr); [lia|rewrite length_app, length_replicate; lia|lia|]. cbn [mbind outcome_bind].
  destruct (Z.eqb_spec (Z.of_nat (snd f)) 0); [lia|]. cbn zeta in Hr. rewrite Nat.min_l, firstn_all in Hr by lia. subst r.
  by rewrite zeros_fill.
Qed.

Lemma put_byte_field fs i x ofs b : fs !! i = Some [x] → ofs = length (concat (take i fs)) →
  put_byte ofs b (concat fs) = Ret (concat (<[i := [b]]> fs)).
Proof.
  intros Hf ->. unfold put_byte. rewrite (split_fields fs i _ Hf), (split_insert fs i _ _ Hf).
  rewrite array_set_in by (rewrite !length_app; cbn; lia). rewrite Nat2Z.id, insert_app_r_alt, Nat.sub_diag by lia. done.
Qed.

(** The reads of one field. *)
Lemma concat_split (fs : list (list Z)) i : concat fs = concat (take i fs) ++ concat (drop i fs).
Proof. by rewrite <- concat_app, take_drop. Qed.

Lemma field_fields (fs : list (list Z)) i f : fst f = length (concat (take i fs)) → field f (concat fs) = concat (drop i fs).
Proof. intros Ho. unfold field. rewrite Ho, (concat_split fs i) at 1. by rewrite drop_app_length. Qed.

Lemma get_field (fs : list (list Z)) i ofs : ofs = length (concat (take i fs)) →
  array_get (concat fs) (Z.of_nat ofs) = array_get (concat (drop i fs)) 0.
Proof.
  intros ->. unfold array_get. destruct (Z.leb_spec 0 (Z.of_nat (length (concat (take i fs))))); [|lia].
  rewrite Nat2Z.id. cbn [Z.leb Z.compare Z.to_nat]. rewrite (concat_split fs i) at 1.
  by rewrite lookup_app_r, Nat.sub_diag by lia.
Qed.

(** ** The checksum *)

Definition sum (l : list Z) : Z := foldr Z.add 0 l.

Lemma sum_app a b : sum (a ++ b) = sum a + sum b.
Proof. unfold sum. induction a as [|x a IH]; cbn [app foldr]; [done|]. rewrite IH. lia. Qed.

Lemma sum_bound l : Forall is_byte l → 0 ≤ sum l ≤ 255 * Z.of_nat (length l).
Proof. unfold sum. induction 1 as [|x l Hx _ IH]; cbn [length foldr]; [lia|]. unfold is_byte in Hx. lia. Qed.

Lemma sum_loop_add n m i h acc : sum_loop (n + m) i h acc = acc' ← sum_loop n i h acc; sum_loop m (i + Z.of_nat n) h acc'.
Proof.
  revert i acc. induction n as [|n IH]; intros i acc; cbn [sum_loop Nat.add].
  - cbn [mbind outcome_bind]. by rewrite Z.add_0_r.
  - destruct (array_get h i); cbn [mbind outcome_bind]; try done. rewrite IH. by replace (i + 1 + Z.of_nat n) with (i + Z.of_nat (S n)) by lia.
Qed.

(** A region outside the checksum field, or inside it. *)
Lemma sum_loop_run (inside : bool) b : ∀ a c acc, 
  (∀ i, Z.of_nat (length a) ≤ i < Z.of_nat (length a + length b) → ((148 <=? i) && (i <? 156)) = inside) →
  Forall is_byte b → 0 ≤ acc → acc + 256 * Z.of_nat (length b) < 2 ^ 32 →
  sum_loop (length b) (Z.of_nat (length a)) (a ++ b ++ c) acc
  = Ret (acc + if inside then 32 * Z.of_nat (length b) else sum b).
Proof.
  induction b as [|x b IH]; intros a c acc Hi Hb Ha Hw; cbn [sum_loop length]; [f_equal; destruct inside; cbn; lia|].
  apply list.Forall_cons in Hb as [Hx Hb]. unfold is_byte in Hx.
  assert (array_get (a ++ (x :: b) ++ c) (Z.of_nat (length a)) = Ret x) as ->.
  { apply array_get_Ret. split; [lia|]. rewrite Nat2Z.id, lookup_app_r, Nat.sub_diag by lia. done. }
  cbn [mbind outcome_bind fst snd chksum]. change (Z.of_nat 148) with 148. change (Z.of_nat 8) with 8.
  rewrite Hi by (cbn [length]; lia). cbn [length] in *.
  replace (Z.of_nat (length a) + 1) with (Z.of_nat (length (a ++ [x]))) by (rewrite length_app; cbn; lia).
  replace (a ++ (x :: b) ++ c) with ((a ++ [x]) ++ b ++ c) by (by rewrite <- app_assoc).
  rewrite wrap_small by (destruct inside; lia). rewrite IH; [|intros i Hr; apply Hi; rewrite length_app in Hr; cbn in *; lia|done|destruct inside; lia|destruct inside; lia].
  f_equal. change (sum (x :: b)) with (x + sum b). destruct inside; lia.
Qed.

Lemma calculate_chksum_run a c b : length a = 148%nat → length c = 8%nat → length b = 356%nat → Forall is_byte a → Forall is_byte c → Forall is_byte b →
  calculate_chksum (a ++ c ++ b) = Ret (sum a + 256 + sum b).
Proof.
  intros Ha Hc Hb Fa Fc Fb. pose proof (sum_bound a Fa). pose proof (sum_bound b Fb).
  unfold calculate_chksum, USTAR_HEADER_SIZE. change 512%nat with (148 + (8 + 356))%nat.
  rewrite !sum_loop_add.
  pose proof (sum_loop_run false a [] (c ++ b) 0 ltac:(intros i Hi; cbn in Hi; destruct (Z.leb_spec 148 i); [lia|done])
    Fa ltac:(lia) ltac:(lia)) as E1.
  pose proof (sum_loop_run true c a b (sum a) ltac:(intros i Hi; destruct (Z.leb_spec 148 i), (Z.ltb_spec i 156); done || lia)
    Fc ltac:(lia) ltac:(lia)) as E2.
  pose proof (sum_loop_run false b (a ++ c) [] (sum a + 256)
    ltac:(intros i Hi; rewrite length_app in Hi; destruct (Z.ltb_spec i 156); [lia|by rewrite andb_false_r])
    Fb ltac:(lia) ltac:(lia)) as E3.
  cbn iota in E1, E2, E3. rewrite Z.add_0_l in E1. rewrite Ha in E1, E2. rewrite Hc in E2. rewrite length_app, Ha, Hc, Hb, app_nil_r, <- app_assoc in E3.
  cbn [app length] in E1. change (Z.of_nat 0) with 0 in E1. rewrite E1. cbn [mbind outcome_bind]. change (0 + Z.of_nat 148) with (Z.of_nat 148).
  change (32 * Z.of_nat 8) with 256 in E2. rewrite sum_loop_add, E2. cbn [mbind outcome_bind].
  change (Z.of_nat 148 + Z.of_nat 8) with (Z.of_nat (148 + 8)). by rewrite E3.
Qed.

(** ** The header of an entry *)

(** The sizes of the fields, the version as two bytes and everything after [gname] as one. *)
Definition widths : list nat := [100; 8; 8; 8; 12; 12; 8; 1; 100; 6; 1; 1; 32; 32; 183]%nat.
Definition shaped (fs : list (list Z)) : Prop := length <$> fs = widths.

Lemma shaped_offset fs i : shaped fs → length (concat (take i fs)) = list_sum (take i widths).
Proof. intros <-. rewrite length_concat. f_equal. symmetry. apply firstn_map. Qed.

Lemma shaped_rest fs i : shaped fs → length (concat (drop i fs)) = list_sum (drop i widths).
Proof. intros <-. rewrite length_concat. f_equal. symmetry. apply skipn_map. Qed.

Lemma shaped_insert fs i x y : shaped fs → fs !! i = Some x → length y = length x → shaped (<[i := y]> fs).
Proof.
  intros Hs Hx Hl. unfold shaped in *. rewrite list_fmap_insert, Hs, Hl. apply list_insert_id.
  by rewrite <- Hs, list_lookup_fmap, Hx.
Qed.

Lemma put_string_shaped fs i f src r : shaped fs → fs !! i = Some (zeros (snd f)) → fst f = list_sum (take i widths) →
  text src → (length src < snd f)%nat →
  put_string f (src ++ 0 :: r) (concat fs) = Ret (concat (<[i := pad (snd f) src]> fs)) ∧ shaped (<[i := pad (snd f) src]> fs).
Proof.
  intros Hs Hx Ho Ht Hl. split; [apply put_string_field; try done; by rewrite shaped_offset|].
  apply (shaped_insert fs i _ _ Hs Hx). rewrite length_pad, length_replicate by lia. done.
Qed.

Lemma put_octal_shaped fs i f len format v src : len = snd f → shaped fs → fs !! i = Some (zeros (snd f)) → fst f = list_sum (take i widths) →
  __vprintf (λ _ : unit, 0) (λ _ _, 0) (λ _, false) format [Word v] = Ret src → (length src < snd f)%nat → (snd f ≤ 12)%nat →
  put_octal f len format v (concat fs) = Ret (concat (<[i := pad (snd f) src]> fs)) ∧ shaped (<[i := pad (snd f) src]> fs).
Proof.
  intros -> Hs Hx Ho Hp Hl H12. split; [apply put_octal_field; try done; by rewrite shaped_offset|].
  apply (shaped_insert fs i _ _ Hs Hx). rewrite length_pad, length_replicate by lia. done.
Qed.

Lemma put_byte_shaped fs i x ofs b : shaped fs → fs !! i = Some [x] → ofs = list_sum (take i widths) →
  put_byte ofs b (concat fs) = Ret (concat (<[i := [b]]> fs)) ∧ shaped (<[i := [b]]> fs).
Proof.
  intros Hs Hx Ho. split; [apply (put_byte_field fs i x); [done|by rewrite shaped_offset]|].
  by apply (shaped_insert fs i _ _ Hs Hx).
Qed.

(** The fields of the header of an entry, whose checksum field holds [ck]. *)
Definition entry (n : list Z) (type sz : Z) (ck : list Z) : list (list Z) :=
  [pad 100 n; pad 8 (octal 7 (if type =? USTAR_REGULAR then 420 else 493)); pad 8 (bytes "0000000"); pad 8 (bytes "0000000");
   pad 12 (octal 11 sz); pad 12 (octal 11 1136102400); ck; [type]; zeros 100%nat; pad 6 (bytes "ustar"); [48]; [48];
   pad 32 (bytes "root"); pad 32 (bytes "root"); zeros 183%nat].

Lemma memset_zeros h : length h = 512%nat → memset USTAR_HEADER_SIZE h 0 = Ret (concat (zeros <$> widths)).
Proof.
  intros Hl. assert (∀ n l, length l = n → memset n l 0 = Ret (zeros n)) as H.
  { induction n as [|n IH]; intros [|x l] [=]; [done|]. cbn [memset]. rewrite IH by done. done. }
  unfold USTAR_HEADER_SIZE. by rewrite H.
Qed.

Lemma is_byte_zeros k : Forall is_byte (zeros k).
Proof. apply Forall_replicate. unfold is_byte. lia. Qed.

Lemma is_byte_bytes l : Forall is_byte (bytes l).
Proof.
  apply Forall_fmap, list.Forall_forall. intros a _. unfold compose, is_byte. pose proof (Ascii.N_ascii_bounded a). lia.
Qed.

Lemma is_byte_pad k l : Forall is_byte l → Forall is_byte (pad k l).
Proof. intros. apply Forall_app. split; [done|apply is_byte_zeros]. Qed.

Lemma is_byte_octal n v : 0 ≤ v < 8 ^ Z.of_nat n → Forall is_byte (octal n v).
Proof.
  intros Hv. destruct (val_lsb 8 n ltac:(lia) v Hv) as (_ & Hf & _). unfold octal. apply Forall_app. split.
  - apply Forall_replicate. unfold is_byte. lia.
  - apply Forall_fmap. rewrite list.Forall_forall in Hf |- *. intros d Hd. unfold is_byte, compose.
    assert (0 ≤ d < 8); [|lia]. apply Hf. by apply list_elem_of_In, in_rev, list_elem_of_In in Hd.
Qed.

Lemma entry_bytes n type sz ck : Forall is_byte n → is_byte type → 0 ≤ sz < 2 ^ 31 → Forall is_byte ck →
  Forall (Forall is_byte) (entry n type sz ck).
Proof.
  intros Hn Ht Hs Hc. unfold entry.
  apply list.Forall_cons; split; [by apply is_byte_pad|].
  apply list.Forall_cons; split; [apply is_byte_pad, is_byte_octal; destruct (type =? USTAR_REGULAR); cbn; lia|].
  apply list.Forall_cons; split; [apply is_byte_pad, is_byte_bytes|].
  apply list.Forall_cons; split; [apply is_byte_pad, is_byte_bytes|].
  apply list.Forall_cons; split; [apply is_byte_pad, is_byte_octal; cbn; lia|].
  apply list.Forall_cons; split; [apply is_byte_pad, is_byte_octal; cbn; lia|].
  apply list.Forall_cons; split; [done|].
  apply list.Forall_cons; split; [by constructor|].
  apply list.Forall_cons; split; [apply is_byte_zeros|].
  apply list.Forall_cons; split; [apply is_byte_pad, is_byte_bytes|].
  apply list.Forall_cons; split; [by constructor|].
  apply list.Forall_cons; split; [by constructor|].
  apply list.Forall_cons; split; [apply is_byte_pad, is_byte_bytes|].
  apply list.Forall_cons; split; [apply is_byte_pad, is_byte_bytes|].
  apply list.Forall_cons; split; [apply is_byte_zeros|].
  constructor.
Qed.

Lemma entry_chksum n type sz : shaped (entry n type sz (zeros 8%nat)) → Forall is_byte n → is_byte type → 0 ≤ sz < 2 ^ 31 →
  ∃ c, 0 ≤ c < 8 ^ 7 ∧
    ∀ ck, length ck = 8%nat → Forall is_byte ck → calculate_chksum (concat (entry n type sz ck)) = Ret c.
Proof.
  intros Hs Hn Ht Hz. pose proof (entry_bytes n type sz (zeros 8%nat) Hn Ht Hz (is_byte_zeros 8)) as Hb.
  set (a := concat (take 6 (entry n type sz []))). set (b := concat (drop 7 (entry n type sz []))).
  assert (length a = 148%nat) as La by exact (shaped_offset _ 6 Hs).
  assert (length b = 356%nat) as Lb by exact (shaped_rest _ 7 Hs).
  assert (Forall is_byte a) as Ba by (apply Forall_concat; exact (Forall_take _ 6 _ Hb)).
  assert (Forall is_byte b) as Bb by (apply Forall_concat; exact (Forall_drop _ 7 _ Hb)).
  pose proof (sum_bound a Ba). pose proof (sum_bound b Bb). exists (sum a + 256 + sum b). split; [lia|].
  intros ck Hl Hc. rewrite (split_fields (entry n type sz ck) 6 ck eq_refl).
  by apply calculate_chksum_run.
Qed.

(** One store into the header: [lem] gives the next fields and that they have their sizes. *)
Ltac put_step Hs lem :=
  let E := fresh "E" in let S := fresh "S" in
  destruct lem as [E S]; rewrite E; cbn [mbind outcome_bind]; clear E Hs; cbn [insert list_insert] in *; rename S into Hs.

Lemma make_header_run file_name s r type sz h : strip_antisocial_prefixes file_name = Ret (s ++ 0 :: r) → text s →
  (length s ≤ 99)%nat → length h = 512%nat →
  type = USTAR_REGULAR ∨ type = USTAR_DIRECTORY → 0 ≤ sz < 2 ^ 31 → Forall is_byte s →
  ∃ c, ustar_make_header file_name type sz h = Ret (true, concat (entry s type sz (pad 8 (octal 7 c)))) ∧
    shaped (entry s type sz (pad 8 (octal 7 c))) ∧ 0 ≤ c < 8 ^ 7 ∧
    ∀ ck, length ck = 8%nat → Forall is_byte ck → calculate_chksum (concat (entry s type sz ck)) = Ret c.
Proof.
  intros Hstrip Ht Hl Hh Hty Hsz Hby. unfold ustar_make_header.
  assert ((type =? USTAR_REGULAR) || (type =? USTAR_DIRECTORY) = true) as -> by (by destruct Hty as [->| ->]).
  cbn [ASSERT mbind outcome_bind]. rewrite Hstrip. cbn [mbind outcome_bind]. rewrite strlen_run by done. cbn [mbind outcome_bind].
  destruct (Z.ltb_spec 99 (Z.of_nat (length s))); [lia|]. rewrite memset_zeros by done. cbn [mbind outcome_bind].
  assert (shaped (zeros <$> widths)) as Hs by reflexivity.
  cbn [fmap list_fmap widths] in *.
  change (literal "0000000") with (bytes "0000000" ++ 0 :: []). change (literal "ustar") with (bytes "ustar" ++ 0 :: []).
  change (literal "root") with (bytes "root" ++ 0 :: []).
  put_step Hs (put_string_shaped _ 0 name s r Hs eq_refl eq_refl Ht ltac:(cbn; lia)).
  assert (0 ≤ (if type =? USTAR_REGULAR then 420 else 493) < 8 ^ 7) as Hmode by (destruct (type =? USTAR_REGULAR); lia).
  set (m := if type =? USTAR_REGULAR then 420 else 493) in *.
  put_step Hs (put_octal_shaped _ 1 mode 8 _ m _ eq_refl Hs eq_refl eq_refl (printf_07o _ _ _ m Hmode)
    ltac:(rewrite length_octal; cbn; lia) ltac:(cbn; lia)).
  put_step Hs (put_string_shaped _ 2 uid (bytes "0000000") [] Hs eq_refl eq_refl ltac:(by repeat constructor) ltac:(cbn; lia)).
  put_step Hs (put_string_shaped _ 3 gid (bytes "0000000") [] Hs eq_refl eq_refl ltac:(by repeat constructor) ltac:(cbn; lia)).
  put_step Hs (put_octal_shaped _ 4 size 12 _ sz _ eq_refl Hs eq_refl eq_refl (printf_011o _ _ _ sz ltac:(lia))
    ltac:(rewrite length_octal; cbn; lia) ltac:(cbn; lia)).
  put_step Hs (put_octal_shaped _ 5 mtime 12 _ 1136102400 _ eq_refl Hs eq_refl eq_refl (printf_011o _ _ _ 1136102400 ltac:(lia))
    ltac:(rewrite length_octal; cbn; lia) ltac:(cbn; lia)).
  put_step Hs (put_byte_shaped _ 7 0 (fst typeflag) type Hs eq_refl eq_refl).
  put_step Hs (put_string_shaped _ 9 magic (bytes "ustar") [] Hs eq_refl eq_refl ltac:(by repeat constructor) ltac:(cbn; lia)).
  put_step Hs (put_byte_shaped _ 10 0 (fst version) 48 Hs eq_refl eq_refl).
  put_step Hs (put_byte_shaped _ 11 0 (fst version + 1)%nat 48 Hs eq_refl eq_refl).
  put_step Hs (put_string_shaped _ 13 gname (bytes "root") [] Hs eq_refl eq_refl ltac:(by repeat constructor) ltac:(cbn; lia)).
  put_step Hs (put_string_shaped _ 12 uname (bytes "root") [] Hs eq_refl eq_refl ltac:(by repeat constructor) ltac:(cbn; lia)).
  fold m. change (shaped (entry s type sz (zeros 8%nat))) in Hs.
  assert (is_byte type) as Htb by (destruct Hty as [->| ->]; unfold is_byte, USTAR_REGULAR, USTAR_DIRECTORY; lia).
  destruct (entry_chksum s type sz Hs Hby Htb Hsz) as (c & Hc & Hck). exists c.
  match goal with |- context [calculate_chksum ?h] => change h with (concat (entry s type sz (zeros 8%nat))) end.
  rewrite Hck by (apply is_byte_zeros || reflexivity). cbn [mbind outcome_bind].
  destruct (put_octal_shaped _ 6 chksum 8 _ c _ eq_refl Hs eq_refl eq_refl (printf_07o _ _ _ c Hc)
    ltac:(rewrite length_octal; cbn; lia) ltac:(cbn; lia)) as [E S]. rewrite E. cbn [mbind outcome_bind].
  split; [reflexivity|]. split; [exact S|]. exact (conj Hc Hck).
Qed.

(** ** Parsing *)

Definition accumulate (ds : list Z) (v : Z) : Z := fold_left (λ v d, v * 8 + d) ds v.

Lemma accumulate_ge ds v : Forall (λ d, 0 ≤ d < 8) ds → 0 ≤ v → v ≤ accumulate ds v.
Proof.
  intros Hd. revert v. induction Hd as [|d ds Hd _ IH]; intros v Hv; cbn; [lia|].
  etrans; [|apply IH; lia]. lia.
Qed.

Lemma parse_octal_digits ds : ∀ k first t v, Forall (λ d, 0 ≤ d < 8) ds → 0 ≤ v → accumulate ds v < 2 ^ 32 →
  parse_octal_loop (length ds + k) first (((λ d, 48 + d) <$> ds) ++ t) v
  = parse_octal_loop k (first && bool_decide (ds = [])) t (accumulate ds v).
Proof.
  induction ds as [|d ds IH]; intros k first t v Hd Hv Hw.
  { cbn. by rewrite andb_true_r. }
  apply list.Forall_cons in Hd as [Hd Hds]. cbn [length Nat.add fmap list_fmap app parse_octal_loop accumulate fold_left] in *.
  pose proof (accumulate_ge ds (v * 8 + d) Hds ltac:(lia)) as Hge. unfold accumulate in Hge.
  destruct (Z.leb_spec 48 (48 + d)), (Z.leb_spec (48 + d) 55); try lia. cbn [andb].
  change ((2 ^ 32 - 1) / 8) with 536870911. destruct (Z.ltb_spec 536870911 v); [lia|].
  rewrite wrap_small by lia. replace (48 + d - 48 + v * 8) with (v * 8 + d) by lia. rewrite IH by (done || lia).
  rewrite (bool_decide_eq_false_2 (d :: ds = [])) by done. by rewrite andb_false_r.
Qed.

Lemma parse_octal_run n v t : (0 < n)%nat → 0 ≤ v < 8 ^ Z.of_nat n → v < 2 ^ 32 →
  parse_octal_loop (S n) true (octal n v ++ 0 :: t) 0 = Ret (Some v).
Proof.
  intros Hn Hv Hw. destruct (val_lsb 8 n ltac:(lia) v Hv) as (Eval & Hf & Hl).
  set (ds := replicate (n - length (lsb 8 n v)) 0 ++ rev (lsb 8 n v)).
  assert (octal n v = (λ d, 48 + d) <$> ds) as -> by (unfold octal, ds; by rewrite fmap_app, fmap_replicate).
  assert (length ds = n) as Hlen by (unfold ds; rewrite length_app, length_replicate, length_rev; lia).
  assert (Forall (λ d, 0 ≤ d < 8) ds) as Hds.
  { apply Forall_app. split; [apply Forall_replicate; lia|]. rewrite list.Forall_forall in Hf |- *.
    intros d Hd. apply Hf. by apply list_elem_of_In, in_rev, list_elem_of_In in Hd. }
  assert (accumulate ds 0 = v) as Hacc by (change (accumulate ds 0) with (val 8 ds); unfold ds; by rewrite val_zeros).
  replace (S n) with (length ds + 1)%nat by lia. rewrite parse_octal_digits by (try done; lia). rewrite Hacc.
  rewrite bool_decide_eq_false_2; [done|]. intros E. rewrite E in Hlen. cbn in Hlen. lia.
Qed.

Lemma parse_entry_run n type sz c : shaped (entry n type sz (pad 8 (octal 7 c))) → text n → social n → (length n ≤ 99)%nat →
  type = USTAR_REGULAR ∨ type = USTAR_DIRECTORY → 0 ≤ sz < 2 ^ 31 → 0 ≤ c < 8 ^ 7 →
  calculate_chksum (concat (entry n type sz (pad 8 (octal 7 c)))) = Ret c →
  ∃ fn, ustar_parse_header (concat (entry n type sz (pad 8 (octal 7 c)))) = Ret (Entry fn type (if type =? USTAR_REGULAR then sz else 0)) ∧
    c_str fn = n.
Proof.
  intros Hs Ht Hsoc Hl Hty Hsz Hc Hck. set (fs := entry n type sz (pad 8 (octal 7 c))) in *.
  assert (length (concat fs) = 512%nat) as Hlen by exact (shaped_rest fs 0 Hs).
  assert (∀ i ofs, ofs = list_sum (take i widths) → array_get (concat fs) (Z.of_nat ofs) = array_get (concat (drop i fs)) 0) as Hget.
  { intros i ofs Ho. apply get_field. by rewrite shaped_offset. }
  assert (∀ i f, fst f = list_sum (take i widths) → field f (concat fs) = concat (drop i fs)) as Hfield.
  { intros i f Ho. apply field_fields. by rewrite shaped_offset. }
  unfold ustar_parse_header, is_all_zeros, memcpy_from. rewrite Hlen. change (0 + USTAR_HEADER_SIZE <=? 512)%nat with true.
  cbn [mbind outcome_bind]. rewrite slice_full by done.
  assert (forallb (λ b, b =? 0) (concat fs) = false) as ->.
  { apply not_true_iff_false. rewrite forallb_forall. intros Hall. specialize (Hall 48). discriminate Hall.
    apply in_concat. exists [48]. split; [|by left]. unfold fs, entry. do 10 right. by left. }
  rewrite (Hfield 9%nat magic eq_refl). change (concat (drop 9 fs)) with (literal "ustar" ++ concat (drop 10 fs)).
  change (memcmp 6 (literal "ustar" ++ concat (drop 10 fs)) (literal "ustar")) with (@Ret Z 0). cbn [mbind outcome_bind Z.eqb negb].
  rewrite (Hget 10%nat (fst version) eq_refl). change (array_get (concat (drop 10 fs)) 0) with (@Ret Z 48).
  change (Z.of_nat (fst version) + 1) with (Z.of_nat (fst version + 1)).
  rewrite (Hget 11%nat (fst version + 1)%nat eq_refl). change (array_get (concat (drop 11 fs)) 0) with (@Ret Z 48).
  cbn [mbind outcome_bind Z.eqb Pos.eqb negb orb].
  unfold parse_octal_field. rewrite (Hfield 6%nat chksum eq_refl). change (concat (drop 6 fs)) with (pad 8 (octal 7 c) ++ concat (drop 7 fs)).
  assert (∀ k n' v t, (S n' = k)%nat → length (octal n' v) = n' → pad k (octal n' v) ++ t = octal n' v ++ 0 :: t) as Hpad.
  { intros k n' v t <- Hn'. unfold pad. rewrite Hn', <- app_assoc. by replace (S n' - n')%nat with 1%nat by lia. }
  rewrite (Hpad 8%nat 7%nat c _ eq_refl (length_octal 7 c Hc)). cbn [snd chksum].
  rewrite (parse_octal_run 7 c _ ltac:(lia) Hc ltac:(lia)). cbn [mbind outcome_bind].
  rewrite Hck. cbn [mbind outcome_bind]. rewrite Z.eqb_refl. cbn [negb].
  assert (concat fs = n ++ 0 :: (zeros (99 - length n)%nat ++ concat (drop 1 fs))) as Ename.
  { change (concat fs) with (pad 100 n ++ concat (drop 1 fs)). unfold pad. rewrite <- app_assoc. f_equal.
    by replace (100 - length n)%nat with (S (99 - length n)) by lia. }
  assert (array_get (concat fs) (Z.of_nat (fst name + snd name - 1)) = Ret 0) as ->.
  { apply array_get_Ret. split; [lia|]. rewrite Nat2Z.id, Ename. cbn [fst snd name Nat.add Nat.sub].
    rewrite lookup_app_r by lia. destruct (decide (length n = 99)%nat) as [->|]; [done|].
    replace (99 - length n)%nat with (S (98 - length n)) by lia.
    match goal with |- (0 :: ?l) !! S ?i = _ => change (l !! i = Some 0) end.
    rewrite lookup_app_l by (rewrite length_replicate; lia). apply lookup_replicate_2. lia. }
  assert (array_get (concat fs) (Z.of_nat (fst prefix)) = Ret 0) as ->.
  { apply array_get_Ret. split; [lia|]. rewrite Nat2Z.id, (concat_split fs 14).
    rewrite lookup_app_r by (rewrite shaped_offset by done; cbn; lia). by rewrite shaped_offset by done. }
  cbn [mbind outcome_bind Z.eqb negb orb].
  rewrite (Hget 7%nat (fst typeflag) eq_refl). change (array_get (concat (drop 7 fs)) 0) with (@Ret Z type). cbn [mbind outcome_bind].
  assert (negb (type =? USTAR_REGULAR) && negb (type =? USTAR_DIRECTORY) = false) as -> by (by destruct Hty as [->| ->]).
  rewrite (Hfield 4%nat size eq_refl). change (concat (drop 4 fs)) with (pad 12 (octal 11 sz) ++ concat (drop 5 fs)).
  assert (0 ≤ sz < 8 ^ Z.of_nat 11) as Hsz8 by (cbn; lia).
  rewrite (Hpad 12%nat 11%nat sz _ eq_refl (length_octal 11 sz Hsz8)). cbn [snd size].
  rewrite (parse_octal_run 11 sz _ ltac:(lia) Hsz8 ltac:(lia)).
  assert ((if type =? USTAR_REGULAR then Ret (Some sz) else Ret (Some 0)) = Ret (Some (if type =? USTAR_REGULAR then sz else 0))) as ->
    by (by destruct (type =? USTAR_REGULAR)).
  cbn [mbind outcome_bind]. destruct (Z.ltb_spec (2 ^ 31 - 1) (if type =? USTAR_REGULAR then sz else 0)) as [Hbig|_];
    [destruct (type =? USTAR_REGULAR); lia|].
  change (field name (concat fs)) with (concat fs). rewrite Ename.
  destruct (strip_run n (zeros (99 - length n)%nat ++ concat (drop 1 fs)) Ht) as (n' & r' & -> & _ & _ & Hid & _).
  cbn [mbind outcome_bind]. rewrite (Hid Hsoc). eexists. split; [done|]. by apply c_str_app.
Qed.

(** Archive headers round-trip.  A file name loses its unsafe prefixes; when more than 99
    bytes remain [ustar_make_header] fails and leaves the buffer alone.  Otherwise, for a file
    or directory and a size that fits in [int], it succeeds, and [ustar_parse_header] of the
    header gives back the type, the size (0 for a directory) and the stripped name. *)
Theorem ustar_roundtrip s r type sz h : text s → Forall is_byte s → length h = 512%nat →
  type = USTAR_REGULAR ∨ type = USTAR_DIRECTORY → 0 ≤ sz < 2 ^ 31 →
  ∃ n r', strip_antisocial_prefixes (s ++ 0 :: r) = Ret (n ++ 0 :: r') ∧ text n ∧ social n ∧
    if (length n <=? 99)%nat then
      ∃ h' fn, ustar_make_header (s ++ 0 :: r) type sz h = Ret (true, h') ∧ length h' = 512%nat ∧
        ustar_parse_header h' = Ret (Entry fn type (if type =? USTAR_REGULAR then sz else 0)) ∧ c_str fn = n
    else ustar_make_header (s ++ 0 :: r) type sz h = Ret (false, h).
Proof.
  intros Ht Hb Hh Hty Hsz. destruct (strip_run s r Ht) as (n & r' & E & Hn & Hsoc & _ & Hsuf). exists n, r'.
  split; [done|]. split; [done|]. split; [done|]. destruct (Nat.leb_spec (length n) 99) as [Hl|Hl].
  - assert (Forall is_byte n) as Hbn.
    { destruct Hsuf as [->|[k ->]]; [by repeat constructor|by apply Forall_app in Hb as [_ Hb]]. }
    destruct (make_header_run _ n r' type sz h E Hn Hl Hh Hty Hsz Hbn) as (c & Em & Hs & Hc & Hck).
    destruct (parse_entry_run n type sz c Hs Hn Hsoc Hl Hty Hsz Hc) as (fn & Ep & Hfn).
    { apply Hck; [pose proof (length_octal 7 c Hc); apply length_pad; lia|by apply is_byte_pad, is_byte_octal]. }
    eexists _, fn. split; [exact Em|]. split; [exact (shaped_rest _ 0 Hs)|]. by split.
  - unfold ustar_make_header. assert ((type =? USTAR_REGULAR) || (type =? USTAR_DIRECTORY) = true) as -> by (by destruct Hty as [->| ->]).
    cbn [ASSERT mbind outcome_bind]. rewrite E. cbn [mbind outcome_bind]. rewrite strlen_run by done. cbn [mbind outcome_bind].
    destruct (Z.ltb_spec 99 (Z.of_nat (length n))); [done|lia].
Qed.

Lemma first_zero l : ∀ i, l !! i = Some 0 → ∃ s r, l = s ++ 0 :: r ∧ text s.
Proof.
  induction l as [|x l IH]; intros i Hi; [done|]. destruct (decide (x = 0)) as [->|Hx]; [exists [], l; by split; [|constructor]|].
  destruct i as [|i]; [cbn in Hi; congruence|]. destruct (IH i Hi) as (s & r & -> & Hs).
  exists (x :: s), r. split; [done|by constructor].
Qed.

(** No name escapes.  Whatever a header holds as name, the name that parsing reports is
    not empty, does not start with a slash, ["./"] or ["../"], and is not [".."]. *)
Theorem ustar_names_stay header fn type sz : ustar_parse_header header = Ret (Entry fn type sz) → social (c_str fn).
Proof.
  unfold ustar_parse_header. intros H.
  repeat first [apply bind_Ret in H as (? & ? & H)
    | match type of H with
      | (if ?c then _ else _) = _ => destruct c eqn:?; [done|]
      | match ?o with Some _ => _ | None => _ end = _ => destruct o; [|done]
      end].
  injection H as -> <- <-. match goal with
  | Hl : array_get header (Z.of_nat (fst name + snd name - 1)) = Ret ?l, Hz : negb (?l =? 0) || _ = false |- _ =>
      apply orb_false_iff in Hz as [Hz _]; apply negb_false_iff, Z.eqb_eq in Hz; subst l;
      apply array_get_Ret in Hl as [_ Hl]; destruct (first_zero _ _ Hl) as (s & r & -> & Hs)
  end.
  match goal with Hn : strip_antisocial_prefixes (field name _) = _ |- _ => change (field name (s ++ 0 :: r)) with (s ++ 0 :: r) in Hn;
    destruct (strip_run s r Hs) as (n & r' & E & Hn' & Hsoc & _); rewrite E in Hn; injection Hn as <- end.
  by rewrite c_str_app.
Qed.

Definition example_header : list Z :=
  match ustar_make_header (literal "/etc/passwd") USTAR_REGULAR 1234 (zeros 512%nat) with Ret (_, h) => h | _ => [] end.

Lemma ustar_roundtrip_witness : ∃ h' fn,
  ustar_make_header (bytes "/etc/passwd" ++ 0 :: []) USTAR_REGULAR 1234 (zeros 512%nat) = Ret (true, h') ∧
  ustar_parse_header h' = Ret (Entry fn USTAR_REGULAR 1234) ∧ c_str fn = bytes "etc/passwd".
Proof.
  destruct (ustar_roundtrip (bytes "/etc/passwd") [] USTAR_REGULAR 1234 (zeros 512%nat)) as (n & r' & E & Ht & _ & Hr).
  - by repeat constructor.
  - apply is_byte_bytes.
  - reflexivity.
  - by left.
  - lia.
  - assert (strip_antisocial_prefixes (bytes "/etc/passwd" ++ 0 :: []) = Ret (bytes "etc/passwd" ++ 0 :: [])) as E' by (vm_compute; reflexivity).
    rewrite E in E'. injection E' as E'. assert (n = bytes "etc/passwd") as -> by (rewrite <- (c_str_app n r' Ht), E'; reflexivity).
    destruct Hr as (h' & fn & Em & _ & Ep & Hfn). exists h', fn. split; [exact Em|]. split; [exact Ep|exact Hfn].
Defined.

Lemma ustar_names_stay_witness : ∃ fn, ustar_parse_header example_header = Ret (Entry fn USTAR_REGULAR 1234) ∧ social (c_str fn).
Proof.
  assert (∃ fn, ustar_parse_header example_header = Ret (Entry fn USTAR_REGULAR 1234)) as [fn E] by (eexists; vm_compute; reflexivity).
  exists fn. split; [exact E|]. exact (ustar_names_stay _ _ _ _ E).
Defined.


End Ustar.
