(* ===== verification/Checksum.v ===== *)
(** * Byte order and the Internet checksum: [net/util]

    [byteorder.h] on the little-endian machine, and [checksum.c].  A packet is a list of
    bytes; reading past it is undefined. *)

From stdpp Require Import base tactics numbers list option.
From S2P Require Import Prelude.

Module Checksum.

(** ** [byteorder.h] *)

Definition htons (x : Z) : Z := Z.lor (Z.shiftl (Z.land x 0xFF) 8) (Z.land (Z.shiftr x 8) 0xFF).
Definition ntohs (x : Z) : Z := htons x.
Definition htonl (x : Z) : Z :=
  Z.lor (Z.lor (Z.lor (u32 (Z.shiftl (Z.land x 0xFF) 24)) (Z.shiftl (Z.land x 0xFF00) 8)) (Z.land (Z.shiftr x 8) 0xFF00))
    (Z.land (Z.shiftr x 24) 0xFF).
Definition ntohl (x : Z) : Z := htonl x.

(** ** [checksum.c] *)

Fixpoint checksum_partial (len : nat) (bytes : list Z) (sum : Z) : outcome Z :=
  match len with
  | O => Ret sum
  | S O => match bytes with
           | b0 :: _ => Ret (u32 (sum + Z.shiftl b0 8))
           | [] => UB
           end
  | S (S len) => match bytes with
                 | b0 :: b1 :: bytes => checksum_partial len bytes (u32 (sum + Z.lor (Z.shiftl b0 8) b1))
                 | _ => UB
                 end
  end.

(** The fuel bounds the number of folds. *)
Fixpoint fold_sum (fuel : nat) (sum : Z) : outcome Z :=
  if Z.shiftr sum 16 =? 0 then Ret sum
  else match fuel with
       | O => Blocked
       | S fuel => fold_sum fuel (Z.land sum 0xFFFF + Z.shiftr sum 16)
       end.

Definition checksum_finish (sum : Z) : outcome Z :=
  sum ← fold_sum 3 sum; Ret (htons (Z.land (Z.lnot sum) 0xFFFF)).

Definition checksum (data : list Z) (len : nat) : outcome Z :=
  sum ← checksum_partial len data 0; checksum_finish sum.

Definition checksum_pseudo_header (src_ip dst_ip protocol len : Z) : Z :=
  let sum := Z.land (Z.shiftr (ntohl src_ip) 16) 0xFFFF in
  let sum := sum + Z.land (ntohl src_ip) 0xFFFF in
  let sum := sum + Z.land (Z.shiftr (ntohl dst_ip) 16) 0xFFFF in
  let sum := sum + Z.land (ntohl dst_ip) 0xFFFF in
  let sum := sum + protocol in
  sum + len.

(** ** Byte order *)

Lemma lor_add a b n : 0 ≤ n → 0 ≤ b < 2 ^ n → Z.lor (Z.shiftl a n) b = a * 2 ^ n + b.
Proof.
  intros Hn Hb. rewrite <- (Z.shiftl_mul_pow2 a n Hn), <- Z.add_lor_land.
  assert (Z.land (Z.shiftl a n) b = 0) as ->; [|lia].
  apply Z.bits_inj'. intros i Hi. rewrite Z.bits_0, Z.land_spec, Z.shiftl_spec by done.
  destruct (Z.ltb_spec i n); [by rewrite Z.testbit_neg_r by lia|].
  destruct (decide (b = 0)) as [->|]; [by rewrite Z.bits_0, andb_false_r|].
  rewrite (Z.bits_above_log2 b i); [by rewrite andb_false_r|lia|]. apply Z.lt_le_trans with n; [|lia].
  apply Z.log2_lt_pow2; lia.
Qed.

Lemma land_ff x : Z.land x 0xFF = x mod 256.
Proof. change 0xFF with (Z.ones 8). by apply Z.land_ones. Qed.
Lemma land_ffff x : Z.land x 0xFFFF = x mod 65536.
Proof. change 0xFFFF with (Z.ones 16). by apply Z.land_ones. Qed.
Lemma shiftr_16 x : Z.shiftr x 16 = x / 65536.
Proof. by rewrite Z.shiftr_div_pow2. Qed.
Lemma shiftr_8 x : Z.shiftr x 8 = x / 256.
Proof. by rewrite Z.shiftr_div_pow2. Qed.

Lemma htons_swap x : 0 ≤ x < 65536 → htons x = x mod 256 * 256 + x / 256.
Proof.
  intros Hx. unfold htons. rewrite !land_ff, shiftr_8. rewrite lor_add by (try apply Z.mod_pos_bound; lia).
  rewrite (Z.mod_small (x / 256)); [done|]. split; [apply Z.div_pos; lia|apply Z.div_lt_upper_bound; lia].
Qed.

Lemma htons_bound x : 0 ≤ x < 65536 → 0 ≤ htons x < 65536.
Proof.
  intros Hx. rewrite htons_swap by done. pose proof (Z.mod_pos_bound x 256 ltac:(lia)).
  pose proof (Z.div_mod x 256 ltac:(lia)). lia.
Qed.

Lemma swap_parts x : 0 ≤ x < 65536 →
  (x mod 256 * 256 + x / 256) mod 256 = x / 256 ∧ (x mod 256 * 256 + x / 256) / 256 = x mod 256.
Proof.
  intros Hx. pose proof (Z.mod_pos_bound x 256 ltac:(lia)). pose proof (Z.div_mod x 256 ltac:(lia)).
  split; symmetry; [apply (Z.mod_unique_pos _ _ (x mod 256))|apply (Z.div_unique_pos _ _ _ (x / 256))]; lia.
Qed.

Lemma ntohs_htons x : 0 ≤ x < 65536 → ntohs (htons x) = x.
Proof.
  intros Hx. unfold ntohs. rewrite (htons_swap (htons x)) by (by apply htons_bound). rewrite htons_swap by done.
  pose proof (Z.mod_pos_bound x 256 ltac:(lia)). pose proof (Z.div_mod x 256 ltac:(lia)).
  assert (0 ≤ x / 256 < 256) by lia. destruct (swap_parts x Hx) as [-> ->]. lia.
Qed.

Lemma htons_0 x : 0 ≤ x < 65536 → htons x = 0 ↔ x = 0.
Proof. intros Hx. split; [|by intros ->]. intros E. rewrite <- (ntohs_htons x Hx), E. done. Qed.

(** The bytes of a stored network-order word are the most significant first. *)
Lemma le_htons x : 0 ≤ x < 65536 → le_bytes 2 (htons x) = [x / 256; x mod 256].
Proof.
  intros Hx. rewrite htons_swap by done. pose proof (Z.mod_pos_bound x 256 ltac:(lia)). pose proof (Z.div_mod x 256 ltac:(lia)).
  assert (0 ≤ x / 256 < 256) by lia.
  change (le_bytes 2 ?z) with [z mod 256; (z / 256) mod 256]. destruct (swap_parts x Hx) as [-> ->].
  by rewrite Z.mod_mod by lia.
Qed.

(** ** The sum *)

(** The sum of the 16-bit words, the last padded with a zero byte. *)
Fixpoint words (d : list Z) : Z :=
  match d with
  | b0 :: b1 :: d => b0 * 256 + b1 + words d
  | [b0] => b0 * 256
  | [] => 0
  end.

Lemma list_two_ind {A} (Q : list A → Prop) : Q [] → (∀ x, Q [x]) → (∀ x y l, Q l → Q (x :: y :: l)) → ∀ l, Q l.
Proof.
  intros H0 H1 H2. assert (∀ l, Q l ∧ ∀ x, Q (x :: l)) as H; [|intros l; apply H].
  induction l as [|x l [IH1 IH2]]; split; auto.
Qed.

Lemma words_bound d : Forall is_byte d → 0 ≤ words d ≤ 32768 * (Z.of_nat (length d) + 1).
Proof.
  induction d as [|x|x y l IH] using list_two_ind; intros Hd; cbn [words length].
  - lia.
  - apply list.Forall_cons in Hd as [Hx _]. unfold is_byte in Hx. lia.
  - apply list.Forall_cons in Hd as [Hx Hd]. apply list.Forall_cons in Hd as [Hy Hd]. specialize (IH Hd). unfold is_byte in *. lia.
Qed.

Lemma words_app a b : Nat.Even (length a) → words (a ++ b) = words a + words b.
Proof.
  induction a as [|x|x y l IH] using list_two_ind; intros [k Hk]; cbn [words app length] in *; [lia|lia|].
  rewrite IH; [lia|]. exists (k - 1)%nat. lia.
Qed.

Lemma checksum_partial_run d rest s : Forall is_byte d → 0 ≤ s → s + words d < 2 ^ 32 →
  checksum_partial (length d) (d ++ rest) s = Ret (s + words d).
Proof.
  revert s. induction d as [|x|x y l IH] using list_two_ind; intros s Hd Hs Hw; cbn [words length app checksum_partial] in *.
  - f_equal. lia.
  - apply list.Forall_cons in Hd as [Hx _]. unfold is_byte in Hx. rewrite Z.shiftl_mul_pow2 by lia.
    change (2 ^ 8) with 256. by rewrite wrap_small by lia.
  - apply list.Forall_cons in Hd as [Hx Hd]. apply list.Forall_cons in Hd as [Hy Hd]. unfold is_byte in *.
    pose proof (words_bound l Hd). rewrite lor_add by lia. change (2 ^ 8) with 256. rewrite wrap_small by lia.
    rewrite IH by (done || lia). f_equal. lia.
Qed.

(** Folding keeps the sum modulo 65535. *)
Lemma fold_step s : 0 ≤ s →
  let s' := Z.land s 0xFFFF + Z.shiftr s 16 in
  s' mod 65535 = s mod 65535 ∧ (s' = 0 ↔ s = 0) ∧ s' ≤ 65535 + s / 65536 ∧ 0 ≤ s'.
Proof.
  intros Hs. cbv zeta. rewrite land_ffff, shiftr_16. pose proof (Z.mod_pos_bound s 65536 ltac:(lia)).
  pose proof (Z.div_mod s 65536 ltac:(lia)). pose proof (Z.div_pos s 65536 Hs ltac:(lia)). repeat split; try lia.
  replace s with (s mod 65536 + s / 65536 + s / 65536 * 65535) at 3 by lia. by rewrite Z.mod_add.
Qed.

Lemma fold_sum_run s : 0 ≤ s < 2 ^ 32 →
  ∃ r, fold_sum 3 s = Ret r ∧ 0 ≤ r < 65536 ∧ r mod 65535 = s mod 65535 ∧ (r = 0 ↔ s = 0).
Proof.
  intros Hs.
  assert (∀ fuel t, 0 ≤ t → (∀ u, 0 ≤ u → u ≤ 65535 + t / 65536 → ∃ r, fold_sum fuel u = Ret r ∧ 0 ≤ r < 65536 ∧
              r mod 65535 = u mod 65535 ∧ (r = 0 ↔ u = 0)) →
            ∃ r, fold_sum (S fuel) t = Ret r ∧ 0 ≤ r < 65536 ∧ r mod 65535 = t mod 65535 ∧ (r = 0 ↔ t = 0)) as Step.
  { intros fuel t Ht Hk. change (fold_sum (S fuel) t) with
      (if Z.shiftr t 16 =? 0 then Ret t else fold_sum fuel (Z.land t 0xFFFF + Z.shiftr t 16)).
    destruct (Z.eqb_spec (Z.shiftr t 16) 0) as [E|E].
    - rewrite shiftr_16 in E. apply Z.div_small_iff in E; [|lia]. exists t. repeat split; try done; lia.
    - destruct (fold_step t Ht) as (E1 & E2 & E3 & E4). destruct (Hk _ E4 E3) as (r & -> & Hr & Em & Ez).
      exists r. rewrite Em, E1. repeat split; try done; tauto. }
  assert (∀ u, 0 ≤ u → u < 65536 → ∃ r, fold_sum 0 u = Ret r ∧ 0 ≤ r < 65536 ∧
              r mod 65535 = u mod 65535 ∧ (r = 0 ↔ u = 0)) as Base.
  { intros u H0 H1. exists u. cbn [fold_sum]. rewrite shiftr_16, Z.div_small by lia. done. }
  pose proof (Z.div_lt_upper_bound s 65536 65536 ltac:(lia) ltac:(lia)).
  apply Step; [lia|]. intros u Hu Hu'. apply Step; [lia|]. intros v Hv Hv'.
  assert (u / 65536 ≤ 1) by (apply Z.lt_succ_r, Z.div_lt_upper_bound; lia).
  destruct (decide (v < 65536)); [apply Step; [done|]; intros w Hw Hw'; apply Base; [lia|]|].
  { rewrite Z.div_small in Hw' by lia. lia. }
  assert (v = 65536) as -> by lia. exists 1. vm_compute. repeat split; discriminate.
Qed.

Lemma lnot_ffff r : 0 ≤ r < 65536 → Z.land (Z.lnot r) 0xFFFF = 65535 - r.
Proof.
  intros Hr. rewrite land_ffff. symmetry. apply (Z.mod_unique_pos _ _ (-1)); unfold Z.lnot; lia.
Qed.

(** Finishing a sum: what makes it a positive multiple of 65535. *)
Lemma finish_run s : 0 ≤ s < 2 ^ 32 →
  ∃ c, checksum_finish s = Ret (htons c) ∧ 0 ≤ c < 65536 ∧ (c + s) mod 65535 = 0 ∧ 0 < c + s ∧ (c = 0 ↔ s ≠ 0 ∧ s mod 65535 = 0).
Proof.
  intros Hs. unfold checksum_finish. destruct (fold_sum_run s Hs) as (r & -> & Hr & Em & Ez). cbn [mbind outcome_bind].
  rewrite lnot_ffff by done. exists (65535 - r).
  assert ((65535 - r + s) mod 65535 = 0) as E0.
  { replace (65535 - r + s) with (s - r + 1 * 65535) by lia. rewrite Z.mod_add by lia.
    rewrite Zminus_mod, Em, Z.sub_diag. done. }
  repeat split; try done; try lia.
  - assert (r = 65535) as -> by lia. done.
  - intros [Hn Em']. rewrite Em' in Em. apply Z.mod_divide in Em as [k Hk]; [|lia]. lia.
Qed.

(** What [checksum] stores. *)
Lemma checksum_run d rest : Forall is_byte d → Z.of_nat (length d) ≤ 131070 →
  ∃ c, checksum (d ++ rest) (length d) = Ret (htons c) ∧ 0 ≤ c < 65536 ∧ (c + words d) mod 65535 = 0 ∧ 0 < c + words d ∧
       (c = 0 ↔ words d ≠ 0 ∧ words d mod 65535 = 0).
Proof.
  intros Hd Hl. pose proof (words_bound d Hd). unfold checksum. rewrite checksum_partial_run by (done || lia).
  cbn [mbind outcome_bind]. rewrite Z.add_0_l. apply finish_run. lia.
Qed.

Lemma words_insert d i x y : d !! i = Some x →
  ∃ k, (k = 1 ∨ k = 256) ∧ words (<[i := y]> d) = words d + k * (y - x).
Proof.
  revert i. induction d as [|z|z w l IH] using list_two_ind; intros [|[|i]] E; cbn in E; simplify_eq.
  1, 2: exists 256; split; [by right|]; cbn [insert list_insert words]; lia.
  - exists 1. split; [by left|]. cbn [insert list_insert words]. lia.
  - destruct (IH i E) as (k & Hk & Ew). exists k. split; [done|]. change (<[S (S i) := y]> (z :: w :: l)) with (z :: w :: <[i := y]> l). cbn [words]. rewrite Ew. lia.
Qed.

Lemma checksum_valid d : Forall is_byte d → Z.of_nat (length d) ≤ 131070 →
  checksum d (length d) = Ret 0 ↔ words d ≠ 0 ∧ words d mod 65535 = 0.
Proof.
  intros Hd Hl. destruct (checksum_run d [] Hd Hl) as (c & E & Hc & _ & _ & Hz). rewrite app_nil_r in E. rewrite E, <- Hz.
  rewrite <- (htons_0 c Hc). split; [by injection 1|by intros ->].
Qed.

(** The packet with the checksum stored. *)
Lemma checksum_stored a b : Forall is_byte a → Forall is_byte b → Nat.Even (length a) → Z.of_nat (length a + length b) ≤ 131068 →
  ∃ c, checksum (a ++ [0; 0] ++ b) (length (a ++ [0; 0] ++ b)) = Ret c ∧ 0 ≤ c < 65536 ∧
    let p := a ++ le_bytes 2 c ++ b in
    Forall is_byte p ∧ Z.of_nat (length p) ≤ 131070 ∧ words p ≠ 0 ∧ words p mod 65535 = 0.
Proof.
  intros Hba Hbb Ha Hl.
  assert (Forall is_byte (a ++ [0; 0] ++ b)) as H0.
  { apply Forall_app; split; [done|]. repeat (apply list.Forall_cons; split; [unfold is_byte; lia|]). done. }
  destruct (checksum_run _ [] H0) as (c & E & Hc & Em & Hp & _); [cbn [app]; rewrite length_app; cbn [length]; lia|].
  rewrite app_nil_r in E. exists (htons c). split; [done|]. split; [by apply htons_bound|]. cbv zeta. rewrite le_htons by done.
  pose proof (Z.mod_pos_bound c 256 ltac:(lia)). pose proof (Z.div_mod c 256 ltac:(lia)).
  split; [|split; [cbn [app]; rewrite length_app; cbn [length]; lia|]].
  { apply Forall_app; split; [done|]. repeat (apply list.Forall_cons; split; [unfold is_byte; lia|]). done. }
  assert (words (a ++ [c / 256; c mod 256] ++ b) = c + words (a ++ [0; 0] ++ b)) as Ew.
  { rewrite (words_app a), (words_app a ([0; 0] ++ b)) by done. cbn [app words]. lia. }
  rewrite Ew. split; [lia|done].
Qed.

(** ** The claim *)

(** The Internet checksum is sound.  When the checksum of a packet whose two checksum
    bytes are zero is stored at their (even) place, [checksum] of the packet is 0, which is
    the test [ip_input] and [icmp_input] make; and a packet that passes the test fails it
    after any single byte is changed. *)
Theorem checksum_sound a b : Forall is_byte (a ++ b) → Nat.Even (length a) → Z.of_nat (length (a ++ b)) ≤ 131068 →
  ∃ c, checksum (a ++ [0; 0] ++ b) (length (a ++ [0; 0] ++ b)) = Ret c ∧
    let p := a ++ le_bytes 2 c ++ b in
    checksum p (length p) = Ret 0 ∧
    ∀ i x y, p !! i = Some x → is_byte y → y ≠ x → checksum (<[i := y]> p) (length p) ≠ Ret 0.
Proof.
  intros Hab Ha Hl. apply Forall_app in Hab as [Hba Hbb]. rewrite length_app in Hl.
  destruct (checksum_stored a b Hba Hbb Ha Hl) as (c & E & _ & Hbp & Hlp & Hnz & Em). exists c. split; [done|]. cbv zeta in *.
  set (p := a ++ le_bytes 2 c ++ b) in *. split; [by apply checksum_valid|].
  intros i x y Hi Hy Hne Hv. destruct (words_insert p i x y Hi) as (k & Hk & Ei).
  rewrite <- (length_insert p i y) in Hv. apply checksum_valid in Hv as [_ Hv]; [|by apply Forall_insert|by rewrite length_insert].
  pose proof (proj1 (list.Forall_forall _ _) Hbp x (list_elem_of_lookup_2 _ _ _ Hi)) as Hx. unfold is_byte in Hx, Hy.
  rewrite Ei in Hv. apply Z.mod_divide in Hv as [m Hm]; [|lia]. apply Z.mod_divide in Em as [k' Hn]; [|lia].
  assert (k * (y - x) = (m - k') * 65535) as Ed by lia. destruct (Z.lt_trichotomy (m - k') 0) as [|[|]], Hk as [-> | ->]; nia.
Qed.

Lemma checksum_sound_witness :
  let a := [0x45; 0; 0; 21] in let b := [127; 0; 0; 1; 7] in
  ∃ c, checksum (a ++ [0; 0] ++ b) (length (a ++ [0; 0] ++ b)) = Ret c ∧
    let p := a ++ le_bytes 2 c ++ b in
    checksum p (length p) = Ret 0 ∧
    ∀ i x y, p !! i = Some x → is_byte y → y ≠ x → checksum (<[i := y]> p) (length p) ≠ Ret 0.
Proof.
  cbv zeta. apply (checksum_sound [0x45; 0; 0; 21] [127; 0; 0; 1; 7]); cbn [app length].
  - repeat (apply list.Forall_cons; split; [unfold is_byte; lia|]). apply list.Forall_nil. done.
  - exists 2%nat. reflexivity.
  - lia.
Defined.

End Checksum.
