(* ===== verification/Pbuf.v ===== *)
(** * Packet buffers: [net/buf/pbuf.c]

    A pbuf is named by its block on the kernel heap.  The store holds the blocks, what
    [malloc] will answer and what a fresh block holds; using a block that was freed, or bytes
    outside it, is undefined. *)

From stdpp Require Import base tactics numbers list list_numbers option gmap.
From S2P Require Import Prelude State.

Open Scope Z_scope.

Module Pbuf.

(** ** Buffers *)

Definition PBUF_HEADER_SPACE : Z := 64.
Definition PBUF_TRANSPORT : Z := 0.
Definition PBUF_IP : Z := 1.
Definition PBUF_LINK : Z := 2.
Definition PBUF_RAW : Z := 3.

Inductive pbuf_type := PBUF_RAM | PBUF_REF.

(** [data] are the bytes behind the structure; [payload] is an offset into them, or null. *)
Record pbuf := mk_pbuf {
  next : option nat; data : list Z; payload : option Z; tot_len : Z; len : Z; type : pbuf_type; ref : Z }.

Record pstore := mk_pstore {
  pbufs : gmap nat pbuf; next_block : nat;
  mallocs : list bool;          (** what [malloc] answers next; after that it succeeds *)
  garbage : nat → nat → Z }.    (** what a fresh block holds *)

Definition with_pbufs (s : pstore) (m : gmap nat pbuf) : pstore := mk_pstore m (next_block s) (mallocs s) (garbage s).

(** [malloc] succeeds. *)
Definition malloc_ok : st pstore bool := λ s,
  match mallocs s with
  | [] => Ret (true, s)
  | b :: l => Ret (b, mk_pstore (pbufs s) (next_block s) l (garbage s))
  end.

Definition layer_header_size (layer : Z) : Z :=
  if layer =? PBUF_TRANSPORT then PBUF_HEADER_SPACE else if layer =? PBUF_IP then 34
  else if layer =? PBUF_LINK then 14 else 0.

Definition load (p : nat) : st pstore pbuf := λ s,
  match pbufs s !! p with Some b => Ret (b, s) | None => UB end.
Definition store (p : nat) (b : pbuf) : st pstore unit := λ s,
  match pbufs s !! p with Some _ => Ret (tt, with_pbufs s (<[p := b]> (pbufs s))) | None => UB end.

(** ** [pbuf.c] *)

(** [size] is converted to [uint16_t] by the call. *)
Definition pbuf_alloc (layer size : Z) (type : pbuf_type) : st pstore (option nat) :=
  let size := u16 size in
  lift (ASSERT ((PBUF_TRANSPORT <=? layer) && (layer <=? PBUF_RAW)));;
  let header_space := layer_header_size layer in
  ok ← malloc_ok;
  if negb ok then mret None else
  λ s, let id := next_block s in
    let p := match type with
             | PBUF_RAM => mk_pbuf None (garbage s id <$> seq 0 (Z.to_nat (header_space + size))) (Some header_space) size size PBUF_RAM 1
             | PBUF_REF => mk_pbuf None [] None size 0 PBUF_REF 1
             end in
    Ret (Some id, mk_pstore (<[id := p]> (pbufs s)) (S id) (mallocs s) (garbage s)).

Definition with_ref (b : pbuf) (r : Z) : pbuf := mk_pbuf (next b) (data b) (payload b) (tot_len b) (len b) (type b) r.

Definition pbuf_free (p : option nat) : st pstore (option nat) :=
  match p with
  | None => mret None
  | Some p =>
      b ← load p;
      lift (ASSERT (0 <? ref b));;
      if 0 <? ref b - 1 then store p (with_ref b (ref b - 1));; mret (next b)
      else λ s, Ret (next b, with_pbufs s (delete p (pbufs s)))
  end.

Definition pbuf_ref (p : nat) : st pstore unit :=
  b ← load p; lift (ASSERT (ref b <? 255));; store p (with_ref b (ref b + 1)).

(** The window of the data moves by [delta]. *)
Definition moved (b : pbuf) (delta : Z) : pbuf :=
  mk_pbuf (next b) (data b) (z ← payload b; Some (z + delta)) (u16 (tot_len b - delta)) (u16 (len b - delta)) (type b) (ref b).

Definition pbuf_header (p : nat) (delta : Z) : st pstore bool :=
  b ← load p;
  if delta <? 0 then
    match type b, payload b with
    | PBUF_RAM, Some z => if z + delta <? 0 then mret false else store p (moved b delta);; mret true
    | PBUF_RAM, None => lift UB
    | PBUF_REF, _ => mret false
    end
  else if 0 <? delta then
    if len b <? delta then mret false else store p (moved b delta);; mret true
  else mret true.

(** [payload + ofs], [n] bytes: loaded and stored. *)
Definition peek (p : nat) (ofs n : Z) : st pstore (list Z) :=
  b ← load p;
  match payload b with
  | Some z => lift (DEFINED ((0 <=? z + ofs) && (0 <=? n));; memcpy_from (data b) (Z.to_nat (z + ofs)) (Z.to_nat n))
  | None => lift UB
  end.

Definition with_data (b : pbuf) (d : list Z) : pbuf := mk_pbuf (next b) d (payload b) (tot_len b) (len b) (type b) (ref b).

Definition poke (p : nat) (ofs : Z) (src : list Z) : st pstore unit :=
  b ← load p;
  match payload b with
  | Some z =>
      lift (DEFINED (0 <=? z + ofs));;
      d ← lift (memcpy (data b) (Z.to_nat (z + ofs)) src (length src));
      store p (with_data b d)
  | None => lift UB
  end.

(** The loop that skips to the offset.  The fuel bounds the chain. *)
Fixpoint skip_loop (fuel : nat) (p : option nat) (offset : Z) : st pstore (option nat * Z) :=
  match p with
  | None => mret (None, offset)
  | Some q =>
      b ← load q;
      if len b <=? offset then
        match fuel with O => lift Blocked | S fuel => skip_loop fuel (next b) (offset - len b) end
      else mret (p, offset)
  end.

(** Both copies go through the chain in chunks. *)
Fixpoint copy_in_loop (fuel : nat) (p : option nat) (src : list Z) (len_ copied offset : Z) : st pstore Z :=
  match p with
  | Some q =>
      if copied <? len_ then
        b ← load q;
        let chunk := Z.min (len b - offset) (len_ - copied) in
        piece ← lift (memcpy_from src (Z.to_nat copied) (Z.to_nat chunk));
        poke q offset piece;;
        match fuel with O => lift Blocked | S fuel => copy_in_loop fuel (next b) src len_ (copied + chunk) 0 end
      else mret copied
  | None => mret copied
  end.

Definition pbuf_copy_in (fuel : nat) (p : option nat) (src : list Z) (len_ offset : Z) : st pstore Z :=
  '(p, offset) ← skip_loop fuel p offset; copy_in_loop fuel p src len_ 0 offset.

Fixpoint copy_out_loop (fuel : nat) (p : option nat) (dst : list Z) (len_ copied offset : Z) : st pstore (Z * list Z) :=
  match p with
  | Some q =>
      if copied <? len_ then
        b ← load q;
        let chunk := Z.min (len b - offset) (len_ - copied) in
        piece ← peek q offset chunk;
        dst ← lift (memcpy dst (Z.to_nat copied) piece (Z.to_nat chunk));
        match fuel with O => lift Blocked | S fuel => copy_out_loop fuel (next b) dst len_ (copied + chunk) 0 end
      else mret (copied, dst)
  | None => mret (copied, dst)
  end.

Definition pbuf_copy_out (fuel : nat) (p : option nat) (dst : list Z) (len_ offset : Z) : st pstore (Z * list Z) :=
  '(p, offset) ← skip_loop fuel p offset; copy_out_loop fuel p dst len_ 0 offset.

(** The pbuf and the offset of the pointer returned. *)
Definition pbuf_get_contiguous (fuel : nat) (p : option nat) (offset len_ : Z) : st pstore (option (nat * Z)) :=
  '(p, offset) ← skip_loop fuel p offset;
  match p with
  | None => mret None
  | Some q => b ← load q; if u32 (offset + len_) <=? len b then mret (Some (q, offset)) else mret None
  end.

(** ** The contents of a chain *)

(** The payload of the pbuf lies inside its block. *)
Definition window_ok (b : pbuf) : Prop :=
  match payload b with Some z => 0 ≤ z ∧ 0 ≤ len b ∧ z + len b ≤ Z.of_nat (length (data b)) | None => False end.

Definition window (b : pbuf) : list Z :=
  match payload b with Some z => slice (data b) (Z.to_nat z) (Z.to_nat (len b)) | None => [] end.

(** [l] are the pbufs reached from [p]. *)
Fixpoint chain (m : gmap nat pbuf) (p : option nat) (l : list nat) : Prop :=
  match l with
  | [] => p = None
  | q :: l => p = Some q ∧ ∃ b, m !! q = Some b ∧ window_ok b ∧ chain m (next b) l
  end.

Definition contents (m : gmap nat pbuf) (l : list nat) : list Z :=
  mjoin ((λ q, match m !! q with Some b => window b | None => [] end) <$> l).

Lemma length_window b : window_ok b → Z.of_nat (length (window b)) = len b.
Proof.
  unfold window_ok, window. destruct (payload b) as [z|]; [|done]. intros (? & ? & ?). rewrite length_slice; lia.
Qed.

Lemma contents_cons m q l b : m !! q = Some b → contents m (q :: l) = window b ++ contents m l.
Proof. intros E. unfold contents. cbn [fmap list_fmap mjoin list_join]. by rewrite E. Qed.

Lemma load_run (s : pstore) q b : pbufs s !! q = Some b → load q s = Ret (b, s).
Proof. intros E. unfold load. by rewrite E. Qed.

Lemma peek_run s q b o n : pbufs s !! q = Some b → window_ok b → 0 ≤ o → 0 ≤ n → o + n ≤ len b →
  peek q o n s = Ret (slice (window b) (Z.to_nat o) (Z.to_nat n), s).
Proof.
  intros E Hw Ho Hn Hl. unfold peek. rewrite (st_bind_run _ _ _ _ _ (load_run s q b E)).
  unfold window_ok, window in *. destruct (payload b) as [z|]; [|done]. destruct Hw as (Hz & Hb & Hd).
  unfold lift. rewrite (proj2 (Z.leb_le 0 (z + o))), (proj2 (Z.leb_le 0 n)) by lia. cbn [andb DEFINED mbind outcome_bind].
  unfold memcpy_from. rewrite (proj2 (Nat.leb_le _ _)) by lia. cbn [mbind outcome_bind]. do 2 f_equal.
  apply list_eq. intros i. destruct (decide (i < Z.to_nat n)%nat).
  - rewrite !lookup_slice by lia. f_equal. lia.
  - unfold slice. by rewrite !lookup_take_ge by lia.
Qed.

Lemma poke_run s q b o src : pbufs s !! q = Some b → window_ok b → 0 ≤ o → o + Z.of_nat (length src) ≤ len b →
  ∃ b', poke q o src s = Ret (tt, with_pbufs s (<[q := b']> (pbufs s))) ∧ window_ok b' ∧ next b' = next b ∧ len b' = len b ∧
        payload b' = payload b ∧ window b' = splice (window b) (Z.to_nat o) src.
Proof.
  intros E Hw Ho Hl. unfold poke. rewrite (st_bind_run _ _ _ _ _ (load_run s q b E)).
  pose proof (length_window b Hw) as Hlw. unfold window_ok, window in *. destruct (payload b) as [z|] eqn:Ep; [|done].
  destruct Hw as (Hz & Hb & Hd). exists (with_data b (splice (data b) (Z.to_nat (z + o)) src)). cbn [payload with_data data next len].
  rewrite Ep. assert (length (splice (data b) (Z.to_nat (z + o)) src) = length (data b)) as Hs by (apply length_splice; lia).
  rewrite Hs. split; [|repeat split; try done; try lia].
  - unfold mbind, st_bind, lift. rewrite (proj2 (Z.leb_le 0 (z + o))) by lia. cbn [DEFINED mbind outcome_bind].
    unfold memcpy. rewrite (proj2 (Nat.leb_le _ _)), Nat.leb_refl by lia. cbn [andb mbind outcome_bind].
    unfold store. rewrite E, firstn_all. done.
  - apply list_eq. intros i. destruct (decide (i < Z.to_nat (len b))%nat) as [Hi|].
    + rewrite lookup_slice by done. destruct (decide (Z.to_nat o ≤ i < Z.to_nat o + length src)%nat).
      * rewrite !lookup_splice_in by lia. f_equal. lia.
      * rewrite !lookup_splice_out by lia. by rewrite lookup_slice.
    + unfold slice at 1. rewrite lookup_take_ge by lia. symmetry. apply lookup_ge_None. rewrite length_splice by lia. lia.
Qed.

(** ** Copies *)

Lemma skip_run fuel s p l o : chain (pbufs s) p l → 0 ≤ o → (length l ≤ fuel)%nat →
  ∃ l1 l2 p' o', l = l1 ++ l2 ∧ skip_loop fuel p o s = Ret (p', o', s) ∧ chain (pbufs s) p' l2 ∧
    o = Z.of_nat (length (contents (pbufs s) l1)) + o' ∧ 0 ≤ o' ∧
    match l2 with q :: _ => ∃ b, pbufs s !! q = Some b ∧ o' < len b | [] => True end.
Proof.
  revert fuel p o. induction l as [|q l IH]; intros fuel p o Hc Ho Hf; cbn [chain] in Hc.
  - subst p. exists [], [], None, o. destruct fuel; repeat split; done.
  - destruct Hc as (-> & b & Eb & Hw & Hc). cbn [length] in Hf. destruct fuel as [|fuel]; [lia|].
    cbn [skip_loop]. rewrite (st_bind_run _ _ _ _ _ (load_run s q b Eb)). destruct (Z.leb_spec (len b) o) as [Hlo|Hlo].
    + destruct (IH fuel (next b) (o - len b) Hc ltac:(lia) ltac:(lia)) as (l1 & l2 & p' & o' & -> & Er & Hc' & Eo & Ho' & Hh).
      exists (q :: l1), l2, p', o'. repeat split; try done. rewrite (contents_cons _ _ _ b Eb), length_app.
      pose proof (length_window b Hw). lia.
    + exists [], (q :: l), (Some q), o. repeat split; try done; [|by exists b]. by exists b.
Qed.

Lemma slice_app_l {A} (a b : list A) o n : (o + n ≤ length a)%nat → slice (a ++ b) o n = slice a o n.
Proof. intros H. unfold slice. rewrite drop_app_le by lia. rewrite take_app_le; [done|]. rewrite length_drop. lia. Qed.

Lemma slice_app_r {A} (a b : list A) o n : (length a ≤ o)%nat → slice (a ++ b) o n = slice b (o - length a) n.
Proof. intros H. unfold slice. by rewrite drop_app_ge by done. Qed.

(** A window across the boundary of two lists. *)
Lemma slice_app_split {A} (a b : list A) o n : (o ≤ length a ≤ o + n)%nat →
  slice (a ++ b) o n = slice a o (length a - o) ++ slice b 0 (n - (length a - o)).
Proof.
  intros H. unfold slice. rewrite drop_app_le by lia. rewrite take_app, length_drop, drop_0. f_equal.
  rewrite !take_ge; rewrite ?length_drop; lia || done.
Qed.

Lemma slice_none {A} (l : list A) o : slice l o (Z.to_nat 0) = [].
Proof. done. Qed.

(** Storing two adjacent pieces. *)
Lemma splice_app {A} (d : list A) o a b : (o + length a ≤ length d)%nat → splice (splice d o a) (o + length a) b = splice d o (a ++ b).
Proof.
  intros H. assert (length (take o d ++ a) = o + length a)%nat as E by (rewrite length_app, length_take; lia).
  assert (take (o + length a) (splice d o a) = take o d ++ a) as E1.
  { unfold splice. by rewrite app_assoc, take_app_le, take_ge by lia. }
  assert (drop (o + length a + length b) (splice d o a) = drop (o + length a + length b) d) as E2.
  { unfold splice. rewrite app_assoc, drop_app_ge, E, drop_drop by lia. f_equal. lia. }
  unfold splice at 1. rewrite E1, E2. unfold splice. rewrite length_app, <- !app_assoc, Nat.add_assoc. done.
Qed.

Lemma copy_out_run s len_ : ∀ l fuel p dst copied o,
  chain (pbufs s) p l → (length l ≤ fuel)%nat → 0 ≤ copied ≤ len_ → len_ ≤ Z.of_nat (length dst) → 0 ≤ o →
  match l with q :: _ => ∃ b, pbufs s !! q = Some b ∧ o ≤ len b | [] => o = 0 end →
  len_ - copied ≤ Z.of_nat (length (contents (pbufs s) l)) - o →
  copy_out_loop fuel p dst len_ copied o s =
    Ret (len_, splice dst (Z.to_nat copied) (slice (contents (pbufs s) l) (Z.to_nat o) (Z.to_nat (len_ - copied))), s).
Proof.
  induction l as [|q l IH]; intros fuel p dst copied o Hc Hf Hcop Hd Ho Hh Hlen; cbn [chain] in Hc.
  - subst p o. cbn [contents fmap list_fmap mjoin list_join length] in *. assert (copied = len_) as -> by lia.
    destruct fuel; cbn [copy_out_loop]; by rewrite Z.sub_diag, slice_none, splice_nil.
  - destruct Hc as (-> & b & Eb & Hw & Hc). destruct Hh as (b' & Eb' & Hob). simplify_eq. cbn [length] in Hf.
    destruct fuel as [|fuel]; [lia|]. cbn [copy_out_loop]. pose proof (length_window b Hw) as Hlw.
    rewrite (contents_cons _ _ _ b Eb) in *. rewrite length_app in Hlen.
    destruct (Z.ltb_spec copied len_) as [Hlt|Hge].
    2: { assert (copied = len_) as -> by lia. by rewrite Z.sub_diag, slice_none, splice_nil. }
    rewrite (st_bind_run _ _ _ _ _ (load_run s q b Eb)).
    set (chunk := Z.min (len b - o) (len_ - copied)).
    assert (0 ≤ chunk) by lia.
    rewrite (st_bind_run _ _ _ _ _ (peek_run s q b o chunk Eb Hw Ho ltac:(lia) ltac:(lia))).
    set (piece := slice (window b) (Z.to_nat o) (Z.to_nat chunk)).
    assert (length piece = Z.to_nat chunk) as Hp by (apply length_slice; lia).
    assert (memcpy dst (Z.to_nat copied) piece (Z.to_nat chunk) = Ret (splice dst (Z.to_nat copied) piece)) as Em.
    { apply memcpy_Ret. rewrite Hp. repeat split; try lia. rewrite take_ge by lia. done. }
    unfold mbind at 1, st_bind at 1, lift. rewrite Em. cbn [mbind outcome_bind].
    assert (length (splice dst (Z.to_nat copied) piece) = length dst) as Hls by (apply length_splice; lia).
    rewrite IH; try done; try lia.
    2: { destruct l as [|q' l]; [done|]. cbn [chain] in Hc. destruct Hc as (_ & b2 & Eb2 & Hw2 & _). exists b2.
         pose proof (length_window b2 Hw2). split; [done|lia]. }
    do 3 f_equal. replace (Z.to_nat (copied + chunk)) with (Z.to_nat copied + length piece)%nat by lia.
    rewrite splice_app by lia. f_equal. unfold piece.
    destruct (decide (len b - o ≤ len_ - copied)).
    + rewrite slice_app_split by lia. f_equal; [f_equal; lia|]. f_equal. lia.
    + replace (Z.to_nat (len_ - (copied + chunk))) with 0%nat by lia. rewrite slice_app_l by lia.
      change 0%nat with (Z.to_nat 0). rewrite slice_none, app_nil_r. f_equal. lia.
Qed.

Lemma chain_ext m m' p l : (∀ q, q ∈ l → m' !! q = m !! q) → chain m p l → chain m' p l.
Proof.
  revert p. induction l as [|q l IH]; intros p He; cbn [chain]; [done|]. intros (-> & b & Eb & Hw & Hc).
  split; [done|]. exists b. rewrite He by (by left). repeat split; try done. apply IH; [|done]. intros q' Hq'. apply He. by right.
Qed.

Lemma contents_ext m m' l : (∀ q, q ∈ l → m' !! q = m !! q) → contents m' l = contents m l.
Proof.
  intros He. unfold contents. f_equal. apply list_fmap_ext. intros i q Hq. rewrite He; [done|].
  apply list_elem_of_lookup. by exists i.
Qed.

(** The chain after a copy into it. *)
Definition copied_to (m m' : gmap nat pbuf) (p : option nat) (l : list nat) (o : nat) (src : list Z) : Prop :=
  chain m' p l ∧ contents m' l = splice (contents m l) o src ∧
  (∀ q, q ∉ l → m' !! q = m !! q) ∧
  ∀ q, q ∈ l → (len <$> m' !! q) = (len <$> m !! q).

Lemma copied_none m p l o : chain m p l → copied_to m m p l o [].
Proof. intros Hc. repeat split; try done. by rewrite splice_nil. Qed.

Lemma splice_app_l {A} (a b : list A) o src : (o + length src ≤ length a)%nat → splice (a ++ b) o src = splice a o src ++ b.
Proof. intros H. unfold splice. rewrite take_app_le, drop_app_le by lia. by rewrite <- !app_assoc. Qed.

Lemma splice_app_split {A} (a b : list A) o src1 src2 : (o + length src1 = length a)%nat →
  splice (a ++ b) o (src1 ++ src2) = splice a o src1 ++ splice b 0 src2.
Proof.
  intros H. unfold splice. rewrite length_app, take_app_le by lia. rewrite drop_app_ge by lia.
  rewrite (drop_ge a) by lia. rewrite app_nil_r, <- !app_assoc. change (take 0 b) with (@nil A). cbn [Nat.add app]. do 4 f_equal. lia.
Qed.

Lemma copy_in_run src len_ : len_ ≤ Z.of_nat (length src) → ∀ l s fuel p copied o,
  NoDup l → chain (pbufs s) p l → (length l ≤ fuel)%nat → 0 ≤ copied ≤ len_ → 0 ≤ o →
  match l with q :: _ => ∃ b, pbufs s !! q = Some b ∧ o ≤ len b | [] => o = 0 end →
  len_ - copied ≤ Z.of_nat (length (contents (pbufs s) l)) - o →
  ∃ m', copy_in_loop fuel p src len_ copied o s = Ret (len_, with_pbufs s m') ∧
    copied_to (pbufs s) m' p l (Z.to_nat o) (slice src (Z.to_nat copied) (Z.to_nat (len_ - copied))).
Proof.
  intros Hsrc. induction l as [|q l IH]; intros s fuel p copied o Hnd Hc Hf Hcop Ho Hh Hlen.
  - cbn [chain] in Hc. subst p o. cbn [contents fmap list_fmap mjoin list_join length] in *. assert (copied = len_) as -> by lia.
    exists (pbufs s). rewrite Z.sub_diag, slice_none. split; [by destruct fuel, s|by apply copied_none].
  - pose proof Hc as Hc0. cbn [chain] in Hc. destruct Hc as (-> & b & Eb & Hw & Hc). destruct Hh as (b' & Eb' & Hob). simplify_eq.
    cbn [length] in Hf. apply list.NoDup_cons in Hnd as [Hq Hnd].
    destruct fuel as [|fuel]; [lia|]. cbn [copy_in_loop]. pose proof (length_window b Hw) as Hlw.
    rewrite (contents_cons _ _ _ b Eb), length_app in Hlen.
    destruct (Z.ltb_spec copied len_) as [Hlt|Hge].
    2: { assert (copied = len_) as -> by lia. exists (pbufs s). rewrite Z.sub_diag, slice_none. split; [by destruct s|by apply copied_none]. }
    rewrite (st_bind_run _ _ _ _ _ (load_run s q b Eb)).
    set (chunk := Z.min (len b - o) (len_ - copied)). assert (0 ≤ chunk) by lia.
    set (piece := slice src (Z.to_nat copied) (Z.to_nat chunk)).
    assert (length piece = Z.to_nat chunk) as Hp by (apply length_slice; lia).
    assert (memcpy_from src (Z.to_nat copied) (Z.to_nat chunk) = Ret piece) as Em by (apply memcpy_from_Ret; split; [lia|done]).
    unfold mbind at 1, st_bind at 1, lift. rewrite Em. cbn [mbind outcome_bind].
    destruct (poke_run s q b o piece Eb Hw Ho ltac:(lia)) as (b' & Epk & Hw' & En & El & _ & Ewin).
    fold (mbind (M := st pstore) (A := ()) (B := Z)). rewrite (st_bind_run _ _ _ _ _ Epk).
    set (m1 := <[q := b']> (pbufs s)).
    assert (∀ q', q' ∈ l → m1 !! q' = pbufs s !! q') as Hm1 by (intros q' Hq'; apply lookup_insert_ne; by intros ->).
    destruct (IH (with_pbufs s m1) fuel (next b) (copied + chunk) 0 Hnd) as (m' & Er & Hc' & Ec' & Hout & Hin); cbn [pbufs with_pbufs]; try done; try lia.
    + by apply (chain_ext (pbufs s)).
    + destruct l as [|q' l]; [done|]. cbn [chain] in Hc. destruct Hc as (_ & b2 & Eb2 & Hw2 & _). exists b2.
      pose proof (length_window b2 Hw2). split; [rewrite Hm1 by (by left); done|lia].
    + rewrite (contents_ext (pbufs s) m1 l Hm1). lia.
    + exists m'. split; [done|]. cbn [pbufs with_pbufs] in *.
      assert (m' !! q = Some b') as Eq by (rewrite Hout by done; apply lookup_insert_eq).
      rewrite (contents_ext (pbufs s) m1 l Hm1) in Ec'. repeat split.
      * exists b'. rewrite En. done.
      * rewrite (contents_cons _ _ _ b' Eq), (contents_cons _ _ _ b Eb), Ec', Ewin.
        destruct (decide (len b - o ≤ len_ - copied)).
        -- replace (slice src (Z.to_nat copied) (Z.to_nat (len_ - copied)))
             with (piece ++ slice src (Z.to_nat (copied + chunk)) (Z.to_nat (len_ - (copied + chunk)))).
           { rewrite splice_app_split by lia. done. }
           unfold piece. unfold slice. rewrite <- (take_drop (Z.to_nat chunk) (take (Z.to_nat (len_ - copied)) (drop (Z.to_nat copied) src))).
           f_equal; [rewrite take_take; f_equal; lia|]. rewrite skipn_firstn_comm, drop_drop. f_equal; [lia|f_equal; lia].
        -- replace (len_ - (copied + chunk)) with 0 by lia. rewrite slice_none, splice_nil.
           replace (Z.to_nat (len_ - copied)) with (Z.to_nat chunk) by lia. fold piece. by rewrite splice_app_l by lia.
      * intros q' Hq'. apply not_elem_of_cons in Hq' as [Hne Hq']. rewrite Hout by done. by apply lookup_insert_ne.
      * intros q' Hq'. apply elem_of_cons in Hq' as [->|Hq']; [rewrite Eq, Eb; cbn; by rewrite El|].
        rewrite Hin by done. by rewrite Hm1.
Qed.

Lemma contents_app m l1 l2 : contents m (l1 ++ l2) = contents m l1 ++ contents m l2.
Proof. unfold contents. by rewrite fmap_app, join_app. Qed.

Lemma chain_head m p l : chain m p l → p = head l.
Proof. destruct l; cbn [chain]; [done|]. by intros [-> _]. Qed.

Lemma chain_replace m m' p l1 l2 : chain m p (l1 ++ l2) → (∀ q, q ∈ l1 → m' !! q = m !! q) →
  chain m' (head l2) l2 → chain m' p (l1 ++ l2).
Proof.
  revert p. induction l1 as [|q l1 IH]; intros p Hc He Hc2; [apply chain_head in Hc as ->; done|].
  cbn [app chain] in *. destruct Hc as (-> & b & Eb & Hw & Hc). split; [done|]. exists b. rewrite He by (by left).
  repeat split; try done. apply IH; [done| |done]. intros q' Hq'. apply He. by right.
Qed.

Lemma pbuf_copy_out_run s p l dst n offset fuel : chain (pbufs s) p l → (length l ≤ fuel)%nat →
  0 ≤ offset → 0 ≤ n ≤ Z.of_nat (length dst) → offset + n ≤ Z.of_nat (length (contents (pbufs s) l)) →
  pbuf_copy_out fuel p dst n offset s = Ret (n, splice dst 0 (slice (contents (pbufs s) l) (Z.to_nat offset) (Z.to_nat n)), s).
Proof.
  intros Hc Hf Ho Hn Hl. destruct (skip_run fuel s p l offset Hc Ho Hf) as (l1 & l2 & p' & o' & -> & Er & Hc' & -> & Ho' & Hh).
  unfold pbuf_copy_out. rewrite (st_bind_run _ _ _ _ _ Er). rewrite length_app in Hf. rewrite contents_app, length_app in *.
  destruct (decide (n = 0)) as [->|].
  { rewrite slice_none, splice_nil. destruct p', fuel; done. }
  rewrite (copy_out_run _ n l2); try done; try lia.
  - rewrite Z.sub_0_r, slice_app_r by lia. do 5 f_equal. lia.
  - destruct l2 as [|q l2]; [cbn [contents fmap list_fmap mjoin list_join length] in Hl; lia|].
    destruct Hh as (b & Eb & Hb). exists b. split; [done|lia].
Qed.

Lemma pbuf_copy_in_run s p l src offset fuel : chain (pbufs s) p l → NoDup l → (length l ≤ fuel)%nat →
  0 ≤ offset → offset + Z.of_nat (length src) ≤ Z.of_nat (length (contents (pbufs s) l)) →
  ∃ m', pbuf_copy_in fuel p src (Z.of_nat (length src)) offset s = Ret (Z.of_nat (length src), with_pbufs s m') ∧
    copied_to (pbufs s) m' p l (Z.to_nat offset) src.
Proof.
  intros Hc Hnd Hf Ho Hl. destruct (skip_run fuel s p l offset Hc Ho Hf) as (l1 & l2 & p' & o' & -> & Er & Hc' & -> & Ho' & Hh).
  unfold pbuf_copy_in. rewrite (st_bind_run _ _ _ _ _ Er). rewrite length_app in Hf. rewrite contents_app, length_app in Hl.
  destruct src as [|x src].
  { exists (pbufs s). split; [destruct p', fuel, s; done|by apply copied_none]. }
  apply NoDup_app in Hnd as (Hnd1 & Hdis & Hnd2).
  destruct (copy_in_run (x :: src) (Z.of_nat (length (x :: src))) ltac:(lia) l2 s fuel p' 0 o' Hnd2 Hc') as (m' & Er' & Hc2 & Ec2 & Hout & Hin);
    try done; try lia.
  { destruct l2 as [|q l2]; [cbn [contents fmap list_fmap mjoin list_join length] in Hl; lia|].
    destruct Hh as (b & Eb & Hb). exists b. split; [done|lia]. }
  exists m'. split; [done|].
  assert (∀ q, q ∈ l1 → m' !! q = pbufs s !! q) as H1 by (intros q Hq; apply Hout; by apply Hdis).
  rewrite Z.sub_0_r, Nat2Z.id in Ec2. rewrite slice_full in Ec2 by done.
  split; [|split; [|split]].
  - apply (chain_replace (pbufs s)); [done..|]. by rewrite <- (chain_head _ _ _ Hc').
  - rewrite !contents_app, Ec2, (contents_ext _ _ l1 H1). unfold splice.
    rewrite take_app_ge, drop_app_ge, <- !app_assoc by lia. f_equal. f_equal; [f_equal; lia|]. f_equal. f_equal. lia.
  - intros q Hq. apply Hout. intros Hq2. apply Hq, elem_of_app. by right.
  - intros q Hq. apply elem_of_app in Hq as [Hq|Hq]; [by rewrite H1|by apply Hin].
Qed.

(** Headers: what is prepended can be stripped again, and gives the packet back. *)
Lemma header_roundtrip s p b z n : pbufs s !! p = Some b → type b = PBUF_RAM → payload b = Some z →
  0 < n ≤ z → 0 ≤ len b → len b + n < 65536 → 0 ≤ tot_len b → tot_len b + n < 65536 →
  ∃ s', pbuf_header p (- n) s = Ret (true, s') ∧ pbufs s' !! p = Some (moved b (- n)) ∧
    payload (moved b (- n)) = Some (z - n) ∧ len (moved b (- n)) = len b + n ∧ tot_len (moved b (- n)) = tot_len b + n ∧
    pbuf_header p n s' = Ret (true, s).
Proof.
  intros E Et Ez Hn Hl Hl' Ht Ht'. exists (with_pbufs s (<[p := moved b (- n)]> (pbufs s))).
  assert (len (moved b (- n)) = len b + n) as El by (cbn [moved len]; rewrite wrap_small; lia).
  assert (tot_len (moved b (- n)) = tot_len b + n) as Etl by (cbn [moved tot_len]; rewrite wrap_small; lia).
  assert (payload (moved b (- n)) = Some (z - n)) as Epl by (cbn [moved payload]; by rewrite Ez).
  assert (pbufs (with_pbufs s (<[p := moved b (- n)]> (pbufs s))) !! p = Some (moved b (- n))) as El' by apply lookup_insert_eq.
  assert (moved (moved b (- n)) n = b) as Eb.
  { unfold moved at 1. rewrite Epl, El, Etl. cbn [mbind option_bind moved next data type ref].
    rewrite !wrap_small by lia. destruct b; cbn in *. f_equal; [rewrite Ez; f_equal|..]; lia. }
  split; [|split; [done|]]; [|repeat split; try done].
  - unfold pbuf_header. rewrite (st_bind_run _ _ _ _ _ (load_run s p b E)). rewrite (proj2 (Z.ltb_lt (- n) 0)) by lia.
    rewrite Et, Ez. rewrite (proj2 (Z.ltb_ge _ _)) by lia. unfold mbind, st_bind, store. by rewrite E.
  - unfold pbuf_header. rewrite (st_bind_run _ _ _ _ _ (load_run _ p _ El')). rewrite (proj2 (Z.ltb_ge n 0)), (proj2 (Z.ltb_lt 0 n)) by lia.
    rewrite El. rewrite (proj2 (Z.ltb_ge _ _)) by lia. unfold mbind, st_bind, store. rewrite El'.
    cbn [mbind outcome_bind]. unfold mret, st_ret. do 2 f_equal. rewrite Eb. destruct s as [m nb ml g].
    unfold with_pbufs. cbn [pbufs next_block mallocs garbage] in *. f_equal. rewrite insert_insert_eq. by apply insert_id.
Qed.

(** ** The claim *)

(** A copy into a chain of packet buffers stores the bytes at the offset and nothing
    else, across the boundaries of the buffers: the contents of the chain are the old ones
    with the bytes spliced in, the lengths and every other buffer are unchanged; and a copy
    out of the same place returns the bytes. *)
Theorem pbuf_copy_roundtrip s p l src offset fuel : chain (pbufs s) p l → NoDup l → (length l ≤ fuel)%nat →
  0 ≤ offset → offset + Z.of_nat (length src) ≤ Z.of_nat (length (contents (pbufs s) l)) →
  ∃ m', pbuf_copy_in fuel p src (Z.of_nat (length src)) offset s = Ret (Z.of_nat (length src), with_pbufs s m') ∧
    contents m' l = splice (contents (pbufs s) l) (Z.to_nat offset) src ∧
    (∀ q, q ∈ l → (len <$> m' !! q) = (len <$> pbufs s !! q)) ∧
    (∀ q, q ∉ l → m' !! q = pbufs s !! q) ∧
    ∀ dst, length dst = length src →
      pbuf_copy_out fuel p dst (Z.of_nat (length src)) offset (with_pbufs s m') = Ret (Z.of_nat (length src), src, with_pbufs s m').
Proof.
  intros Hc Hnd Hf Ho Hl. destruct (pbuf_copy_in_run s p l src offset fuel Hc Hnd Hf Ho Hl) as (m' & Er & Hc' & Ec & Hout & Hin).
  exists m'. repeat split; try done. intros dst Hd.
  assert (length (contents m' l) = length (contents (pbufs s) l)) as El by (rewrite Ec; apply length_splice; lia).
  rewrite (pbuf_copy_out_run (with_pbufs s m') p l); cbn [pbufs with_pbufs]; try done; try lia.
  rewrite Nat2Z.id, Ec, slice_splice_same, splice_full by lia. done.
Qed.

Definition two_pbufs : pstore :=
  mk_pstore {[ 0%nat := mk_pbuf (Some 1%nat) [9; 9; 1; 2; 3] (Some 2) 5 3 PBUF_RAM 1;
               1%nat := mk_pbuf None [4; 5] (Some 0) 2 2 PBUF_RAM 1 ]} 2 [] (λ _ _, 0).

Lemma pbuf_copy_roundtrip_witness : ∃ m',
  pbuf_copy_in 2 (Some 0%nat) [7; 8] 2 2 two_pbufs = Ret (2, with_pbufs two_pbufs m') ∧
  contents m' [0%nat; 1%nat] = [1; 2; 7; 8; 5] ∧
  pbuf_copy_out 2 (Some 0%nat) [0; 0] 2 2 (with_pbufs two_pbufs m') = Ret (2, [7; 8], with_pbufs two_pbufs m').
Proof.
  destruct (pbuf_copy_roundtrip two_pbufs (Some 0%nat) [0%nat; 1%nat] [7; 8] 2 2) as (m' & E1 & E2 & _ & _ & E3).
  - split; [done|]. eexists. split; [reflexivity|]. split; [cbn; lia|]. split; [done|]. eexists. split; [reflexivity|]. split; [cbn; lia|reflexivity].
  - apply (bool_decide_unpack _). vm_compute. exact I.
  - cbn. lia.
  - lia.
  - vm_compute. discriminate.
  - exists m'. split; [exact E1|]. split; [exact E2|]. exact (E3 [0; 0] eq_refl).
Defined.

End Pbuf.
