(* ===== verification/Netdev.v ===== *)
(** * Network devices: [net/driver]

    The state of the network stack, the device layer of [netdev.c], the loopback device of
    [loopback.c] and the descriptor rings of [e1000.c].  A device is named by its place in
    [netdev_list]; devices are never unregistered.  The locks have no effect on one thread.

    The E1000 is outside the kernel: its registers are a memory that software writes, and
    which descriptors it has completed or filled is part of the state. *)

From stdpp Require Import base tactics numbers list list_numbers option gmap.
From S2P Require Import Prelude Strings Checksum State Pbuf.

Open Scope Z_scope.

Module Netdev.
Import Pbuf.

(** ** State *)

Definition NETDEV_MTU : Z := 1500.
Definition NETDEV_FLAG_UP : Z := 1.
Definition NETDEV_FLAG_BROADCAST : Z := 2.
Definition NETDEV_FLAG_LOOPBACK : Z := 4.
Definition NETDEV_FLAG_PROMISC : Z := 8.
Definition has_flag (flags f : Z) : bool := negb (Z.land flags f =? 0).

(** The two tables of operations; both have [transmit], only the second [poll]. *)
Inductive netdev_ops := loopback_ops | e1000_ops.

(** [rx_queue] holds the pbufs of the queue's entries, [rx_sem] the value of the semaphore. *)
Record netdev := mk_netdev {
  name : list Z; mac_addr : list Z; ip_addr : Z; netmask : Z; gateway : Z; mtu : Z; flags : Z;
  ops : netdev_ops; rx_queue : list nat; rx_sem : Z; rx_packets : Z; tx_packets : Z; rx_bytes : Z;
  tx_bytes : Z; rx_errors : Z; tx_errors : Z; rx_dropped : Z }.

Record tx_desc := mk_tx_desc { tx_buffer : option nat; tx_length : Z; tx_cmd : Z; tx_status : Z }.
Record rx_desc := mk_rx_desc { rx_length : Z; rx_status : Z }.

(** The driver's private data; [eeprom] are the words of the EEPROM. *)
Record e1000_priv := mk_e1000 {
  mmio : Z → Z; eeprom : Z → Z; tx_ring : list tx_desc; tx_head : Z; tx_tail : Z; tx_bufs : list (option nat);
  tx_sem : Z; rx_ring : list rx_desc; rx_tail : Z; rx_bufs : list (list Z) }.

(** [link/arp.c] *)
Inductive arp_state := ARP_STATE_EMPTY | ARP_STATE_PENDING | ARP_STATE_VALID.
Record arp_entry := mk_arp_entry {
  arp_ip : Z; arp_mac : list Z; state : arp_state; expire_time : Z; retry_time : Z; retry_count : Z;
  pending : list (nat * nat) (** the pbuf and the device *) }.

(** [inet/route.c] *)
Record route_entry := mk_route { dst : Z; mask : Z; rt_gateway : Z; rt_dev : option nat; rt_flags : Z; valid : bool }.

(** [transport/udp.c] *)
Record udp_pcb := mk_udp_pcb {
  local_ip : Z; local_port : Z; remote_ip : Z; remote_port : Z;
  recv_queue : list (nat * Z * Z) (** pbuf, source address and port *); recv_sem : Z; bound : bool }.

Record net := mk_net {
  pbs : pstore; netdev_initialized : bool; devs : list netdev; e1000 : e1000_priv; arp_initialized : bool;
  arp_cache : list arp_entry; ticks : Z; route_initialized : bool; routes : list route_entry;
  default_dev : option nat; default_gateway : Z; ip_initialized : bool; ip_id_counter : Z;
  icmp_initialized : bool; udp_pcbs : gmap nat udp_pcb; udp_pcb_list : list nat; udp_next_port : Z }.

Definition set_pbs (n : net) (x : pstore) : net := mk_net x (netdev_initialized n) (devs n) (e1000 n) (arp_initialized n) (arp_cache n) (ticks n) (route_initialized n) (routes n) (default_dev n) (default_gateway n) (ip_initialized n) (ip_id_counter n) (icmp_initialized n) (udp_pcbs n) (udp_pcb_list n) (udp_next_port n).
Definition set_netdev_initialized (n : net) (x : bool) : net := mk_net (pbs n) x (devs n) (e1000 n) (arp_initialized n) (arp_cache n) (ticks n) (route_initialized n) (routes n) (default_dev n) (default_gateway n) (ip_initialized n) (ip_id_counter n) (icmp_initialized n) (udp_pcbs n) (udp_pcb_list n) (udp_next_port n).
Definition set_devs (n : net) (x : list netdev) : net := mk_net (pbs n) (netdev_initialized n) x (e1000 n) (arp_initialized n) (arp_cache n) (ticks n) (route_initialized n) (routes n) (default_dev n) (default_gateway n) (ip_initialized n) (ip_id_counter n) (icmp_initialized n) (udp_pcbs n) (udp_pcb_list n) (udp_next_port n).
Definition set_e1000 (n : net) (x : e1000_priv) : net := mk_net (pbs n) (netdev_initialized n) (devs n) x (arp_initialized n) (arp_cache n) (ticks n) (route_initialized n) (routes n) (default_dev n) (default_gateway n) (ip_initialized n) (ip_id_counter n) (icmp_initialized n) (udp_pcbs n) (udp_pcb_list n) (udp_next_port n).
Definition set_arp_initialized (n : net) (x : bool) : net := mk_net (pbs n) (netdev_initialized n) (devs n) (e1000 n) x (arp_cache n) (ticks n) (route_initialized n) (routes n) (default_dev n) (default_gateway n) (ip_initialized n) (ip_id_counter n) (icmp_initialized n) (udp_pcbs n) (udp_pcb_list n) (udp_next_port n).
Definition set_arp_cache (n : net) (x : list arp_entry) : net := mk_net (pbs n) (netdev_initialized n) (devs n) (e1000 n) (arp_initialized n) x (ticks n) (route_initialized n) (routes n) (default_dev n) (default_gateway n) (ip_initialized n) (ip_id_counter n) (icmp_initialized n) (udp_pcbs n) (udp_pcb_list n) (udp_next_port n).
Definition set_ticks (n : net) (x : Z) : net := mk_net (pbs n) (netdev_initialized n) (devs n) (e1000 n) (arp_initialized n) (arp_cache n) x (route_initialized n) (routes n) (default_dev n) (default_gateway n) (ip_initialized n) (ip_id_counter n) (icmp_initialized n) (udp_pcbs n) (udp_pcb_list n) (udp_next_port n).
Definition set_route_initialized (n : net) (x : bool) : net := mk_net (pbs n) (netdev_initialized n) (devs n) (e1000 n) (arp_initialized n) (arp_cache n) (ticks n) x (routes n) (default_dev n) (default_gateway n) (ip_initialized n) (ip_id_counter n) (icmp_initialized n) (udp_pcbs n) (udp_pcb_list n) (udp_next_port n).
Definition set_routes (n : net) (x : list route_entry) : net := mk_net (pbs n) (netdev_initialized n) (devs n) (e1000 n) (arp_initialized n) (arp_cache n) (ticks n) (route_initialized n) x (default_dev n) (default_gateway n) (ip_initialized n) (ip_id_counter n) (icmp_initialized n) (udp_pcbs n) (udp_pcb_list n) (udp_next_port n).
Definition set_default_dev (n : net) (x : option nat) : net := mk_net (pbs n) (netdev_initialized n) (devs n) (e1000 n) (arp_initialized n) (arp_cache n) (ticks n) (route_initialized n) (routes n) x (default_gateway n) (ip_initialized n) (ip_id_counter n) (icmp_initialized n) (udp_pcbs n) (udp_pcb_list n) (udp_next_port n).
Definition set_default_gateway (n : net) (x : Z) : net := mk_net (pbs n) (netdev_initialized n) (devs n) (e1000 n) (arp_initialized n) (arp_cache n) (ticks n) (route_initialized n) (routes n) (default_dev n) x (ip_initialized n) (ip_id_counter n) (icmp_initialized n) (udp_pcbs n) (udp_pcb_list n) (udp_next_port n).
Definition set_ip_initialized (n : net) (x : bool) : net := mk_net (pbs n) (netdev_initialized n) (devs n) (e1000 n) (arp_initialized n) (arp_cache n) (ticks n) (route_initialized n) (routes n) (default_dev n) (default_gateway n) x (ip_id_counter n) (icmp_initialized n) (udp_pcbs n) (udp_pcb_list n) (udp_next_port n).
Definition set_ip_id_counter (n : net) (x : Z) : net := mk_net (pbs n) (netdev_initialized n) (devs n) (e1000 n) (arp_initialized n) (arp_cache n) (ticks n) (route_initialized n) (routes n) (default_dev n) (default_gateway n) (ip_initialized n) x (icmp_initialized n) (udp_pcbs n) (udp_pcb_list n) (udp_next_port n).
Definition set_icmp_initialized (n : net) (x : bool) : net := mk_net (pbs n) (netdev_initialized n) (devs n) (e1000 n) (arp_initialized n) (arp_cache n) (ticks n) (route_initialized n) (routes n) (default_dev n) (default_gateway n) (ip_initialized n) (ip_id_counter n) x (udp_pcbs n) (udp_pcb_list n) (udp_next_port n).
Definition set_udp_pcbs (n : net) (x : gmap nat udp_pcb) : net := mk_net (pbs n) (netdev_initialized n) (devs n) (e1000 n) (arp_initialized n) (arp_cache n) (ticks n) (route_initialized n) (routes n) (default_dev n) (default_gateway n) (ip_initialized n) (ip_id_counter n) (icmp_initialized n) x (udp_pcb_list n) (udp_next_port n).
Definition set_udp_pcb_list (n : net) (x : list nat) : net := mk_net (pbs n) (netdev_initialized n) (devs n) (e1000 n) (arp_initialized n) (arp_cache n) (ticks n) (route_initialized n) (routes n) (default_dev n) (default_gateway n) (ip_initialized n) (ip_id_counter n) (icmp_initialized n) (udp_pcbs n) x (udp_next_port n).
Definition set_udp_next_port (n : net) (x : Z) : net := mk_net (pbs n) (netdev_initialized n) (devs n) (e1000 n) (arp_initialized n) (arp_cache n) (ticks n) (route_initialized n) (routes n) (default_dev n) (default_gateway n) (ip_initialized n) (ip_id_counter n) (icmp_initialized n) (udp_pcbs n) (udp_pcb_list n) x.

Definition with_name (d : netdev) (x : list Z) : netdev := mk_netdev x (mac_addr d) (ip_addr d) (netmask d) (gateway d) (mtu d) (flags d) (ops d) (rx_queue d) (rx_sem d) (rx_packets d) (tx_packets d) (rx_bytes d) (tx_bytes d) (rx_errors d) (tx_errors d) (rx_dropped d).
Definition with_mac_addr (d : netdev) (x : list Z) : netdev := mk_netdev (name d) x (ip_addr d) (netmask d) (gateway d) (mtu d) (flags d) (ops d) (rx_queue d) (rx_sem d) (rx_packets d) (tx_packets d) (rx_bytes d) (tx_bytes d) (rx_errors d) (tx_errors d) (rx_dropped d).
Definition with_ip_addr (d : netdev) (x : Z) : netdev := mk_netdev (name d) (mac_addr d) x (netmask d) (gateway d) (mtu d) (flags d) (ops d) (rx_queue d) (rx_sem d) (rx_packets d) (tx_packets d) (rx_bytes d) (tx_bytes d) (rx_errors d) (tx_errors d) (rx_dropped d).
Definition with_netmask (d : netdev) (x : Z) : netdev := mk_netdev (name d) (mac_addr d) (ip_addr d) x (gateway d) (mtu d) (flags d) (ops d) (rx_queue d) (rx_sem d) (rx_packets d) (tx_packets d) (rx_bytes d) (tx_bytes d) (rx_errors d) (tx_errors d) (rx_dropped d).
Definition with_gateway (d : netdev) (x : Z) : netdev := mk_netdev (name d) (mac_addr d) (ip_addr d) (netmask d) x (mtu d) (flags d) (ops d) (rx_queue d) (rx_sem d) (rx_packets d) (tx_packets d) (rx_bytes d) (tx_bytes d) (rx_errors d) (tx_errors d) (rx_dropped d).
Definition with_mtu (d : netdev) (x : Z) : netdev := mk_netdev (name d) (mac_addr d) (ip_addr d) (netmask d) (gateway d) x (flags d) (ops d) (rx_queue d) (rx_sem d) (rx_packets d) (tx_packets d) (rx_bytes d) (tx_bytes d) (rx_errors d) (tx_errors d) (rx_dropped d).
Definition with_flags (d : netdev) (x : Z) : netdev := mk_netdev (name d) (mac_addr d) (ip_addr d) (netmask d) (gateway d) (mtu d) x (ops d) (rx_queue d) (rx_sem d) (rx_packets d) (tx_packets d) (rx_bytes d) (tx_bytes d) (rx_errors d) (tx_errors d) (rx_dropped d).
Definition with_ops (d : netdev) (x : netdev_ops) : netdev := mk_netdev (name d) (mac_addr d) (ip_addr d) (netmask d) (gateway d) (mtu d) (flags d) x (rx_queue d) (rx_sem d) (rx_packets d) (tx_packets d) (rx_bytes d) (tx_bytes d) (rx_errors d) (tx_errors d) (rx_dropped d).
Definition with_rx_queue (d : netdev) (x : list nat) : netdev := mk_netdev (name d) (mac_addr d) (ip_addr d) (netmask d) (gateway d) (mtu d) (flags d) (ops d) x (rx_sem d) (rx_packets d) (tx_packets d) (rx_bytes d) (tx_bytes d) (rx_errors d) (tx_errors d) (rx_dropped d).
Definition with_rx_sem (d : netdev) (x : Z) : netdev := mk_netdev (name d) (mac_addr d) (ip_addr d) (netmask d) (gateway d) (mtu d) (flags d) (ops d) (rx_queue d) x (rx_packets d) (tx_packets d) (rx_bytes d) (tx_bytes d) (rx_errors d) (tx_errors d) (rx_dropped d).
Definition with_rx_packets (d : netdev) (x : Z) : netdev := mk_netdev (name d) (mac_addr d) (ip_addr d) (netmask d) (gateway d) (mtu d) (flags d) (ops d) (rx_queue d) (rx_sem d) x (tx_packets d) (rx_bytes d) (tx_bytes d) (rx_errors d) (tx_errors d) (rx_dropped d).
Definition with_tx_packets (d : netdev) (x : Z) : netdev := mk_netdev (name d) (mac_addr d) (ip_addr d) (netmask d) (gateway d) (mtu d) (flags d) (ops d) (rx_queue d) (rx_sem d) (rx_packets d) x (rx_bytes d) (tx_bytes d) (rx_errors d) (tx_errors d) (rx_dropped d).
Definition with_rx_bytes (d : netdev) (x : Z) : netdev := mk_netdev (name d) (mac_addr d) (ip_addr d) (netmask d) (gateway d) (mtu d) (flags d) (ops d) (rx_queue d) (rx_sem d) (rx_packets d) (tx_packets d) x (tx_bytes d) (rx_errors d) (tx_errors d) (rx_dropped d).
Definition with_tx_bytes (d : netdev) (x : Z) : netdev := mk_netdev (name d) (mac_addr d) (ip_addr d) (netmask d) (gateway d) (mtu d) (flags d) (ops d) (rx_queue d) (rx_sem d) (rx_packets d) (tx_packets d) (rx_bytes d) x (rx_errors d) (tx_errors d) (rx_dropped d).
Definition with_rx_errors (d : netdev) (x : Z) : netdev := mk_netdev (name d) (mac_addr d) (ip_addr d) (netmask d) (gateway d) (mtu d) (flags d) (ops d) (rx_queue d) (rx_sem d) (rx_packets d) (tx_packets d) (rx_bytes d) (tx_bytes d) x (tx_errors d) (rx_dropped d).
Definition with_tx_errors (d : netdev) (x : Z) : netdev := mk_netdev (name d) (mac_addr d) (ip_addr d) (netmask d) (gateway d) (mtu d) (flags d) (ops d) (rx_queue d) (rx_sem d) (rx_packets d) (tx_packets d) (rx_bytes d) (tx_bytes d) (rx_errors d) x (rx_dropped d).
Definition with_rx_dropped (d : netdev) (x : Z) : netdev := mk_netdev (name d) (mac_addr d) (ip_addr d) (netmask d) (gateway d) (mtu d) (flags d) (ops d) (rx_queue d) (rx_sem d) (rx_packets d) (tx_packets d) (rx_bytes d) (tx_bytes d) (rx_errors d) (tx_errors d) x.

Definition with_mmio (e : e1000_priv) (x : Z → Z) : e1000_priv := mk_e1000 x (eeprom e) (tx_ring e) (tx_head e) (tx_tail e) (tx_bufs e) (tx_sem e) (rx_ring e) (rx_tail e) (rx_bufs e).
Definition with_eeprom (e : e1000_priv) (x : Z → Z) : e1000_priv := mk_e1000 (mmio e) x (tx_ring e) (tx_head e) (tx_tail e) (tx_bufs e) (tx_sem e) (rx_ring e) (rx_tail e) (rx_bufs e).
Definition with_tx_ring (e : e1000_priv) (x : list tx_desc) : e1000_priv := mk_e1000 (mmio e) (eeprom e) x (tx_head e) (tx_tail e) (tx_bufs e) (tx_sem e) (rx_ring e) (rx_tail e) (rx_bufs e).
Definition with_tx_head (e : e1000_priv) (x : Z) : e1000_priv := mk_e1000 (mmio e) (eeprom e) (tx_ring e) x (tx_tail e) (tx_bufs e) (tx_sem e) (rx_ring e) (rx_tail e) (rx_bufs e).
Definition with_tx_tail (e : e1000_priv) (x : Z) : e1000_priv := mk_e1000 (mmio e) (eeprom e) (tx_ring e) (tx_head e) x (tx_bufs e) (tx_sem e) (rx_ring e) (rx_tail e) (rx_bufs e).
Definition with_tx_bufs (e : e1000_priv) (x : list (option nat)) : e1000_priv := mk_e1000 (mmio e) (eeprom e) (tx_ring e) (tx_head e) (tx_tail e) x (tx_sem e) (rx_ring e) (rx_tail e) (rx_bufs e).
Definition with_tx_sem (e : e1000_priv) (x : Z) : e1000_priv := mk_e1000 (mmio e) (eeprom e) (tx_ring e) (tx_head e) (tx_tail e) (tx_bufs e) x (rx_ring e) (rx_tail e) (rx_bufs e).
Definition with_rx_ring (e : e1000_priv) (x : list rx_desc) : e1000_priv := mk_e1000 (mmio e) (eeprom e) (tx_ring e) (tx_head e) (tx_tail e) (tx_bufs e) (tx_sem e) x (rx_tail e) (rx_bufs e).
Definition with_rx_tail (e : e1000_priv) (x : Z) : e1000_priv := mk_e1000 (mmio e) (eeprom e) (tx_ring e) (tx_head e) (tx_tail e) (tx_bufs e) (tx_sem e) (rx_ring e) x (rx_bufs e).
Definition with_rx_bufs (e : e1000_priv) (x : list (list Z)) : e1000_priv := mk_e1000 (mmio e) (eeprom e) (tx_ring e) (tx_head e) (tx_tail e) (tx_bufs e) (tx_sem e) (rx_ring e) (rx_tail e) x.

Notation N := (st net).

(** An operation on the packet buffers. *)
Definition pb {A} (m : st pstore A) : N A := λ n, '(a, s) ← m (pbs n); Ret (a, set_pbs n s).

Definition get_dev (d : nat) : N netdev := λ n, match devs n !! d with Some x => Ret (x, n) | None => UB end.
Definition set_dev (d : nat) (x : netdev) : N unit := λ n, Ret (tt, set_devs n (<[d := x]> (devs n))).
Definition get_e1000 : N e1000_priv := λ n, Ret (e1000 n, n).
Definition put_e1000 (e : e1000_priv) : N unit := λ n, Ret (tt, set_e1000 n e).

(** ** [netdev.c] *)

Definition netdev_init : N unit := λ n, Ret (tt, set_netdev_initialized (set_devs n []) true).

Definition netdev_input (d : nat) (p : nat) : N unit :=
  ok ← pb malloc_ok;
  dev ← get_dev d;
  if negb ok then
    set_dev d (with_rx_dropped dev (u32 (rx_dropped dev + 1)));; pb (pbuf_free (Some p));; mret tt
  else
    let dev := with_rx_packets (with_rx_queue dev (rx_queue dev ++ [p])) (u32 (rx_packets dev + 1)) in
    b ← pb (load p);
    set_dev d (with_rx_sem (with_rx_bytes dev (u32 (rx_bytes dev + tot_len b))) (rx_sem dev + 1)).

Definition netdev_receive (d : nat) : N (option nat) :=
  dev ← get_dev d;
  match rx_queue dev with
  | [] => mret None
  | p :: q => set_dev d (with_rx_queue dev q);; mret (Some p)
  end.

(** The searches of the list of devices. *)
Definition find_dev (test : netdev → bool) : N (option nat) := λ n,
  _ ← ASSERT (netdev_initialized n);
  Ret (fst <$> list_find (λ d, test d = true) (devs n), n).

Definition name_is (s : list Z) (d : netdev) : bool :=
  match Strings.strcmp (name d) s with Ret r => r =? 0 | _ => false end.

Definition netdev_find_by_name (s : list Z) : N (option nat) := find_dev (name_is s).
Definition netdev_find_by_ip (ip : Z) : N (option nat) := find_dev (λ d, ip_addr d =? ip).
Definition netdev_get_default : N (option nat) :=
  find_dev (λ d, negb (has_flag (flags d) NETDEV_FLAG_LOOPBACK) && has_flag (flags d) NETDEV_FLAG_UP).
Definition netdev_get_loopback : N (option nat) := find_dev (λ d, has_flag (flags d) NETDEV_FLAG_LOOPBACK).

Definition netdev_set_ip (d : nat) (ip mask gw : Z) : N unit :=
  dev ← get_dev d; set_dev d (with_gateway (with_netmask (with_ip_addr dev ip) mask) gw).
Definition netdev_up (d : nat) : N unit := dev ← get_dev d; set_dev d (with_flags dev (Z.lor (flags dev) NETDEV_FLAG_UP)).
Definition netdev_down (d : nat) : N unit :=
  dev ← get_dev d; set_dev d (with_flags dev (Z.land (flags dev) (u16 (Z.lnot NETDEV_FLAG_UP)))).

(** ** [loopback.c] *)

Definition loopback_init_dev (dev : netdev) : netdev :=
  with_flags (with_mac_addr dev (replicate 6 0)) (Z.lor (flags dev) NETDEV_FLAG_LOOPBACK).

Definition loopback_transmit (d : nat) (p : nat) : N Z := netdev_input d p;; mret 0.

(** ** [e1000.c] *)

Definition E1000_EERD : Z := 0x14.
Definition E1000_TDT : Z := 0x3818.
Definition E1000_TDH : Z := 0x3810.
Definition E1000_RDT : Z := 0x2818.
Definition E1000_RDH : Z := 0x2810.
Definition E1000_TDBAL : Z := 0x3800.
Definition E1000_TDBAH : Z := 0x3804.
Definition E1000_TDLEN : Z := 0x3808.
Definition E1000_TIPG : Z := 0x410.
Definition E1000_TCTL : Z := 0x400.
Definition E1000_RDBAL : Z := 0x2800.
Definition E1000_RDBAH : Z := 0x2804.
Definition E1000_RDLEN : Z := 0x2808.
Definition E1000_RCTL : Z := 0x100.
Definition E1000_MTA : Z := 0x5200.
Definition PHYS_BASE : Z := 0xc0000000.
Definition E1000_RAL : Z := 0x5400.
Definition E1000_RAH : Z := 0x5404.
Definition E1000_EERD_START : Z := 1.
Definition E1000_EERD_DONE : Z := 16.
Definition E1000_RAH_AV : Z := 2 ^ 31.
Definition E1000_TX_RING_SIZE : Z := 32.
Definition E1000_RX_RING_SIZE : Z := 32.
Definition E1000_TXD_STAT_DD : Z := 1.
Definition E1000_TXD_CMD : Z := 11. (** EOP, IFCS, RS *)
Definition E1000_RXD_STAT_DD : Z := 1.
Definition E1000_RXD_STAT_EOP : Z := 2.

Definition e1000_read (e : e1000_priv) (reg : Z) : Z := mmio e reg.
Definition e1000_write (e : e1000_priv) (reg val : Z) : e1000_priv :=
  with_mmio e (λ r, if r =? reg then u32 val else mmio e r).

(** When the read is done the register holds the word and the done bit. *)
Definition e1000_eeprom_read (e : e1000_priv) (addr : Z) : Z * e1000_priv :=
  let e := e1000_write e E1000_EERD (Z.lor (Z.shiftl addr 8) E1000_EERD_START) in
  let val := Z.lor (Z.shiftl (eeprom e addr) 16) E1000_EERD_DONE in
  (Z.land (Z.shiftr val 16) 0xFFFF, e).

Definition e1000_read_mac (e : e1000_priv) : list Z * e1000_priv :=
  let '(w0, e) := e1000_eeprom_read e 0 in
  let '(w1, e) := e1000_eeprom_read e 1 in
  let '(w2, e) := e1000_eeprom_read e 2 in
  ([Z.land w0 0xFF; Z.land (Z.shiftr w0 8) 0xFF; Z.land w1 0xFF; Z.land (Z.shiftr w1 8) 0xFF;
    Z.land w2 0xFF; Z.land (Z.shiftr w2 8) 0xFF], e).

Definition e1000_set_mac (e : e1000_priv) (mac : list Z) : outcome e1000_priv :=
  match mac with
  | [m0; m1; m2; m3; m4; m5] =>
      let ral := Z.lor (Z.lor (Z.lor m0 (Z.shiftl m1 8)) (Z.shiftl m2 16)) (Z.shiftl m3 24) in
      let rah := Z.lor (Z.lor m4 (Z.shiftl m5 8)) E1000_RAH_AV in
      Ret (e1000_write (e1000_write e E1000_RAL ral) E1000_RAH rah)
  | _ => UB
  end.

(** [vtop] of a kernel address. *)
Definition vtop (vaddr : Z) : outcome Z := ASSERT (PHYS_BASE <=? vaddr);; Ret (vaddr - PHYS_BASE).

(** [ring_page] is what [palloc_get_page] returned. *)
Definition e1000_tx_init (ring_page : Z) (e : e1000_priv) : outcome e1000_priv :=
  ASSERT (negb (ring_page =? 0));;
  tx_ring_phys ← vtop ring_page;
  let e := with_tx_ring e (replicate 32 (mk_tx_desc None 0 0 E1000_TXD_STAT_DD)) in
  let e := with_tx_bufs e (replicate 32 None) in
  let e := with_tx_sem (with_tx_tail (with_tx_head e 0) 0) E1000_TX_RING_SIZE in
  let e := e1000_write e E1000_TDBAL tx_ring_phys in
  let e := e1000_write e E1000_TDBAH 0 in
  let e := e1000_write e E1000_TDLEN (E1000_TX_RING_SIZE * 16) in
  let e := e1000_write e E1000_TDH 0 in
  let e := e1000_write e E1000_TDT 0 in
  let e := e1000_write e E1000_TIPG (Z.lor (Z.lor 10 (Z.shiftl 8 10)) (Z.shiftl 6 20)) in
  Ret (e1000_write e E1000_TCTL (Z.lor (Z.lor (Z.lor 2 8) (Z.shiftl 0x10 4)) (Z.shiftl 0x40 12))).

Fixpoint clear_mta (n : nat) (e : e1000_priv) : e1000_priv :=
  match n with
  | O => e
  | S n => e1000_write (clear_mta n e) (E1000_MTA + Z.of_nat n * 4) 0
  end.

(** The pages that [palloc_get_page] returned for the buffers, by their contents. *)
Definition e1000_rx_init (ring_page : Z) (pages : list (option (list Z))) (e : e1000_priv) : outcome e1000_priv :=
  ASSERT (negb (ring_page =? 0));;
  rx_ring_phys ← vtop ring_page;
  bufs ← (match mapM id (take 32 pages) with Some bufs => Ret bufs | None => Panic end);
  let e := with_rx_bufs e bufs in
  let e := with_rx_ring e (replicate 32 (mk_rx_desc 0 0)) in
  let e := with_rx_tail e 0 in
  let e := e1000_write e E1000_RDBAL rx_ring_phys in
  let e := e1000_write e E1000_RDBAH 0 in
  let e := e1000_write e E1000_RDLEN (E1000_RX_RING_SIZE * 16) in
  let e := e1000_write e E1000_RDH 0 in
  let e := e1000_write e E1000_RDT (E1000_RX_RING_SIZE - 1) in
  let e := clear_mta 128 e in
  Ret (e1000_write e E1000_RCTL (Z.lor (Z.lor (Z.lor 2 (Z.shiftl 1 15)) 0) (Z.shiftl 1 26))).

(** The fuel, the size of the ring, bounds the distance from head to tail. *)
Fixpoint reclaim_loop (fuel : nat) : N unit :=
  e ← get_e1000;
  if negb (tx_head e =? tx_tail e) then
    desc ← lift (array_get (tx_ring e) (tx_head e));
    if Z.land (tx_status desc) E1000_TXD_STAT_DD =? 0 then mret tt
    else
      p ← lift (array_get (tx_bufs e) (tx_head e));
      pb (pbuf_free p);;
      bufs ← lift (array_set (tx_bufs e) (tx_head e) None);
      ring ← lift (array_set (tx_ring e) (tx_head e) (mk_tx_desc (tx_buffer desc) (tx_length desc) (tx_cmd desc) 0));
      put_e1000 (with_tx_sem (with_tx_head (with_tx_ring (with_tx_bufs e bufs) ring)
                   ((tx_head e + 1) mod E1000_TX_RING_SIZE)) (tx_sem e + 1));;
      match fuel with O => lift Blocked | S fuel => reclaim_loop fuel end
  else mret tt.

Definition e1000_reclaim_tx : N unit := reclaim_loop 32.

Definition e1000_netdev_init (e : e1000_priv) (dev : netdev) : outcome (netdev * e1000_priv) :=
  let '(mac, e) := e1000_read_mac e in
  e ← e1000_set_mac e mac;
  Ret (with_flags (with_mac_addr dev mac) (Z.lor (flags dev) NETDEV_FLAG_BROADCAST), e).

(** [sema_down] of [tx_sem] sleeps when no descriptor is available. *)
Definition e1000_transmit (d : nat) (p : nat) : N Z :=
  e ← get_e1000;
  if tx_sem e =? 0 then lift Blocked else
  let e := with_tx_sem e (tx_sem e - 1) in
  put_e1000 e;;
  let tail := e1000_read e E1000_TDT mod E1000_TX_RING_SIZE in
  b ← pb (load p);
  linear ← (match next b with
            | None => mret (Some p)
            | Some _ =>
                linear ← pb (pbuf_alloc PBUF_RAW (tot_len b) PBUF_RAM);
                match linear with
                | None => put_e1000 (with_tx_sem e (tx_sem e + 1));; pb (pbuf_free (Some p));; mret None
                | Some l =>
                    n ← get;
                    lb ← pb (load l);
                    '(_, d) ← pb (pbuf_copy_out (size (pbufs (pbs n))) (Some p) (data lb) (tot_len b) 0);
                    pb (poke l 0 d);;
                    pb (pbuf_free (Some p));;
                    mret (Some l)
                end
            end);
  match linear with
  | None => mret (-1)
  | Some p =>
      b ← pb (load p);
      ring ← lift (array_set (tx_ring e) tail (mk_tx_desc (Some p) (len b) E1000_TXD_CMD 0));
      bufs ← lift (array_set (tx_bufs e) tail (Some p));
      let tail := (tail + 1) mod E1000_TX_RING_SIZE in
      put_e1000 (e1000_write (with_tx_bufs (with_tx_ring e ring) bufs) E1000_TDT tail);;
      mret 0
  end.

Definition e1000_set_mac_addr (d : nat) (mac : list Z) : N unit :=
  dev ← get_dev d; set_dev d (with_mac_addr dev mac);;
  e ← get_e1000; e ← lift (e1000_set_mac e mac); put_e1000 e.

(** Receiving stops at the first descriptor the device has not filled; it clears every one it
    passes, so the size of the ring bounds the loop. *)
Fixpoint poll_loop (fuel : nat) (d : nat) : N unit :=
  e ← get_e1000;
  desc ← lift (array_get (rx_ring e) (rx_tail e));
  if Z.land (rx_status desc) E1000_RXD_STAT_DD =? 0 then mret tt
  else
    when (negb (Z.land (rx_status desc) E1000_RXD_STAT_EOP =? 0))
      (p ← pb (pbuf_alloc PBUF_RAW (rx_length desc) PBUF_RAM);
       match p with
       | None => mret tt
       | Some p =>
           buf ← lift (array_get (rx_bufs e) (rx_tail e));
           bytes ← lift (memcpy_from buf 0 (Z.to_nat (rx_length desc)));
           pb (poke p 0 bytes);; netdev_input d p
       end);;
    ring ← lift (array_set (rx_ring e) (rx_tail e) (mk_rx_desc (rx_length desc) 0));
    let old_tail := rx_tail e in
    e' ← get_e1000;
    put_e1000 (e1000_write (with_rx_tail (with_rx_ring e' ring) ((old_tail + 1) mod E1000_RX_RING_SIZE)) E1000_RDT old_tail);;
    match fuel with O => lift Blocked | S fuel => poll_loop fuel d end.

Definition e1000_poll (d : nat) : N unit := poll_loop 32 d;; e1000_reclaim_tx.

(** ** Registration and transmission *)

(** [ops->init]; both return 0. *)
Definition ops_init (dev : netdev) : N netdev :=
  match ops dev with
  | loopback_ops => mret (loopback_init_dev dev)
  | e1000_ops => e ← get_e1000; '(dev, e) ← lift (e1000_netdev_init e dev); put_e1000 e;; mret dev
  end.

Definition netdev_register (s : list Z) (o : netdev_ops) : N (option nat) :=
  n ← get;
  lift (ASSERT (netdev_initialized n));;
  ok ← pb malloc_ok;
  if negb ok then mret None else
  '(_, nm) ← lift (Strings.strlcpy (replicate 8 0) s 8);
  dev ← ops_init (mk_netdev nm (replicate 6 0) 0 0 0 NETDEV_MTU 0 o [] 0 0 0 0 0 0 0 0);
  n ← get;
  put (set_devs n (devs n ++ [dev]));;
  mret (Some (length (devs n))).

Definition transmit (d : nat) (o : netdev_ops) (p : nat) : N Z :=
  match o with loopback_ops => loopback_transmit d p | e1000_ops => e1000_transmit d p end.

Definition netdev_transmit (d : nat) (p : nat) : N Z :=
  dev ← get_dev d;
  if negb (has_flag (flags dev) NETDEV_FLAG_UP) then pb (pbuf_free (Some p));; mret (-1) else
  err ← transmit d (ops dev) p;
  dev ← get_dev d;
  if err =? 0 then
    b ← pb (load p);
    set_dev d (with_tx_bytes (with_tx_packets dev (u32 (tx_packets dev + 1))) (u32 (tx_bytes dev + tot_len b)));; mret err
  else set_dev d (with_tx_errors dev (u32 (tx_errors dev + 1)));; mret err.

(** [loopback_init] of [loopback.c]: 127.0.0.1/8 in network byte order. *)
Definition LOOPBACK_IP : Z := Checksum.htonl 0x7F000001.
Definition LOOPBACK_MASK : Z := Checksum.htonl 0xFF000000.
Definition lo_name : list Z := [108; 111; 0].

Definition loopback_init : N unit :=
  dev ← netdev_register lo_name loopback_ops;
  match dev with
  | None => mret tt
  | Some d => netdev_set_ip d LOOPBACK_IP LOOPBACK_MASK 0;; netdev_up d
  end.

(** ** The transmit ring wedges *)

(** [m] does not change what [f] reads. *)
Definition keeps {A B} (f : net → B) (m : N A) : Prop := ∀ n a n', m n = Ret (a, n') → f n' = f n.

Lemma keeps_bind {A A' B} (f : net → B) (m : N A) (k : A → N A') :
  keeps f m → (∀ a, keeps f (k a)) → keeps f (m ≫= k).
Proof. intros Hm Hk n a n' H. apply st_bind_Ret in H as (x & n1 & E1 & E2). rewrite (Hk x _ _ _ E2). by eapply Hm. Qed.
Lemma keeps_ret {A B} (f : net → B) (a : A) : keeps f (mret a).
Proof. intros n x n' H. by injection H as <- <-. Qed.
Lemma keeps_lift {A B} (f : net → B) (m : outcome A) : keeps f (lift m).
Proof. intros n x n' H. unfold lift in H. destruct m; cbn in H; [|discriminate..]. by injection H as _ <-. Qed.
Lemma keeps_pb {A} {B} (f : net → B) (m : st pstore A) : (∀ n s, f (set_pbs n s) = f n) → keeps f (pb m).
Proof. intros Hf n x n' H. unfold pb in H. destruct (m (pbs n)) as [[]| | |]; cbn in H; [|discriminate..]. injection H as _ <-. apply Hf. Qed.
Lemma keeps_get_dev {B} (f : net → B) d : keeps f (get_dev d).
Proof. intros n x n' H. unfold get_dev in H. destruct (devs n !! d); [|done]. by injection H as _ <-. Qed.
Lemma keeps_set_dev {B} (f : net → B) d x : (∀ n l, f (set_devs n l) = f n) → keeps f (set_dev d x).
Proof. intros Hf n y n' H. injection H as _ <-. apply Hf. Qed.
Lemma keeps_get_e1000 {B} (f : net → B) : keeps f get_e1000.
Proof. intros n x n' H. by injection H as _ <-. Qed.
Lemma keeps_if {A B} (f : net → B) (b : bool) (m m' : N A) : keeps f m → keeps f m' → keeps f (if b then m else m').
Proof. by destruct b. Qed.
Lemma keeps_when {B} (f : net → B) b m : keeps f m → keeps f (when b m).
Proof. intros H. destruct b; [done|apply keeps_ret]. Qed.
Create HintDb keeps.
#[export] Hint Resolve keeps_bind keeps_ret keeps_lift keeps_pb keeps_get_dev keeps_set_dev keeps_get_e1000 keeps_if keeps_when : keeps.

Lemma keeps_netdev_input {B} (f : net → B) d p :
  (∀ n s, f (set_pbs n s) = f n) → (∀ n l, f (set_devs n l) = f n) → keeps f (netdev_input d p).
Proof. intros Hp Hd. unfold netdev_input. eauto 20 with keeps. Qed.

(** The driver's counters of the transmit ring. *)
Definition tx_state (n : net) : Z * Z * Z := (tx_head (e1000 n), tx_tail (e1000 n), tx_sem (e1000 n)).

Lemma poll_tx_state fuel d : keeps tx_state (poll_loop fuel d).
Proof.
  induction fuel as [|fuel IH]; intros n a n' H; cbn [poll_loop] in H;
    apply st_bind_Ret in H as (e & n1 & Ee & H); injection Ee as <- <-;
    apply st_bind_Ret in H as (desc & n2 & Ed & H); apply (keeps_lift (λ n, n)) in Ed as ->;
    (destruct (_ =? 0); [by injection H as _ <-|]);
    apply st_bind_Ret in H as ([] & n3 & Ew & H);
    apply st_bind_Ret in H as (ring & n4 & Er & H); apply (keeps_lift (λ n, n)) in Er as ->;
    apply st_bind_Ret in H as (e & n5 & Ee & H); injection Ee as <- <-;
    apply st_bind_Ret in H as ([] & n6 & Eq & H); injection Eq as <-; [discriminate H|].
  rewrite (IH _ _ _ H). transitivity (tx_state n3); [done|]. revert Ew.
  apply (keeps_when tx_state). apply keeps_bind; [by apply keeps_pb|]. intros [q|]; [|apply keeps_ret].
  apply keeps_bind; [apply keeps_lift|]. intros buf. apply keeps_bind; [apply keeps_lift|]. intros bytes.
  apply keeps_bind; [by apply keeps_pb|]. intros _. by apply keeps_netdev_input.
Qed.

(** With nothing between head and tail there is nothing to reclaim. *)
Lemma reclaim_idle n : tx_head (e1000 n) = tx_tail (e1000 n) → e1000_reclaim_tx n = Ret (tt, n).
Proof.
  intros E. unfold e1000_reclaim_tx. cbn [reclaim_loop]. rewrite (st_bind_run get_e1000 _ n (e1000 n) n eq_refl).
  by rewrite E, Z.eqb_refl.
Qed.

(** A call of [e1000_transmit] that returns 0 takes one descriptor; one that fails takes none. *)
Lemma transmit_tx_state n d p r n' : e1000_transmit d p n = Ret (r, n') →
  tx_sem (e1000 n) ≠ 0 ∧ tx_head (e1000 n') = tx_head (e1000 n) ∧ tx_tail (e1000 n') = tx_tail (e1000 n) ∧
  (r = 0 ∧ tx_sem (e1000 n') = tx_sem (e1000 n) - 1 ∨ r = -1 ∧ tx_sem (e1000 n') = tx_sem (e1000 n)).
Proof.
  unfold e1000_transmit. intros H. apply st_bind_Ret in H as (e & n1 & Ee & H). injection Ee as <- <-.
  destruct (Z.eqb_spec (tx_sem (e1000 n)) 0) as [|Hs]; [discriminate H|]. split; [done|].
  set (e := with_tx_sem (e1000 n) (tx_sem (e1000 n) - 1)) in *.
  apply st_bind_Ret in H as ([] & n2 & Ee & H). injection Ee as <-.
  apply st_bind_Ret in H as (b & n3 & Eb & H). apply (keeps_pb e1000) in Eb; [|done].
  apply st_bind_Ret in H as (linear & n4 & El & H).
  assert (match linear with Some _ => e1000 n4 = e | None => e1000 n4 = with_tx_sem e (tx_sem e + 1) end) as E4.
  { destruct (next b); [|by injection El as <- <-].
    apply st_bind_Ret in El as ([l|] & n5 & E5 & El); apply (keeps_pb e1000) in E5; [|done| |done].
    - revert linear n4 H El. cbn beta iota. intros linear n4 _ El.
      apply st_bind_Ret in El as (? & n6 & E6 & El). injection E6 as <- <-.
      apply st_bind_Ret in El as (lb & n7 & E7 & El). apply (keeps_pb e1000) in E7; [|done].
      apply st_bind_Ret in El as ([? ?] & n8 & E8 & El). apply (keeps_pb e1000) in E8; [|done].
      apply st_bind_Ret in El as ([] & n9 & E9 & El). apply (keeps_pb e1000) in E9; [|done].
      apply st_bind_Ret in El as (? & n10 & E10 & El). apply (keeps_pb e1000) in E10; [|done].
      injection El as <- <-. rewrite E10, E9, E8, E7, E5, Eb. done.
    - apply st_bind_Ret in El as ([] & n6 & E6 & El). injection E6 as <-.
      apply st_bind_Ret in El as (? & n7 & E7 & El). apply (keeps_pb e1000) in E7; [|done].
      injection El as <- <-. rewrite E7. done. }
  destruct linear as [q|].
  - apply st_bind_Ret in H as (b' & n5 & E5 & H). apply (keeps_pb e1000) in E5; [|done].
    apply st_bind_Ret in H as (ring & n6 & E6 & H). apply (keeps_lift (λ n, n)) in E6 as ->.
    apply st_bind_Ret in H as (bufs & n6 & E6 & H). apply (keeps_lift (λ n, n)) in E6 as ->.
    apply st_bind_Ret in H as ([] & n7 & E7 & H). injection E7 as <-. injection H as <- <-. cbn. auto.
  - injection H as <- <-. rewrite E4. subst e. destruct (e1000 n). cbn. repeat split; right; split; [done|lia].
Qed.

(** What may happen to the driver, with the number of packets accepted so far: a call of
    [e1000_transmit], a poll, the device completing descriptors and filling others, and
    anything the rest of the stack does. *)
Inductive running (n0 : net) : Z → net → Prop :=
| Start : running n0 0 n0
| Transmit k n d p r n' : running n0 k n → e1000_transmit d p n = Ret (r, n') → running n0 (if r =? 0 then k + 1 else k) n'
| Poll k n d n' : running n0 k n → e1000_poll d n = Ret (tt, n') → running n0 k n'
| Other k n n' : running n0 k n → tx_state n' = tx_state n → running n0 k n'.

Lemma running_tx_state page e n0 k n : e1000_tx_init page e = Ret (e1000 n0) → running n0 k n → tx_state n = (0, 0, 32 - k).
Proof.
  intros H0. unfold e1000_tx_init, vtop in H0. destruct (page =? 0); [discriminate H0|]. destruct (PHYS_BASE <=? page); [|discriminate H0].
  injection H0 as H0. induction 1 as [|k n d p r n' _ IH Ht|k n d n' _ IH Hp|k n n' _ IH Hs].
  - unfold tx_state. rewrite <- H0. done.
  - destruct (transmit_tx_state _ _ _ _ _ Ht) as (_ & Eh & Et & Hr). unfold tx_state in *. injection IH as Ih It Is.
    rewrite Eh, Et, Ih, It. f_equal. destruct Hr as [[-> ->]|[-> ->]]; rewrite Is; cbn; lia.
  - apply st_bind_Ret in Hp as ([] & n1 & E1 & E2). apply poll_tx_state in E1. rewrite IH in E1.
    rewrite reclaim_idle in E2; [injection E2 as <-; done|]. unfold tx_state in E1. injection E1 as -> -> _. done.
  - by rewrite Hs.
Qed.

(** The E1000 driver never reclaims a transmit descriptor: [e1000_transmit] advances the
    device's tail register but not [tx_tail], so head and tail stay equal and a poll finds
    nothing to free.  After [e1000_tx_init], whatever the device completes, at most 32
    packets are accepted, and from the 32nd on every transmission sleeps for ever on [tx_sem]. *)
Theorem e1000_tx_wedges page e n0 k n : e1000_tx_init page e = Ret (e1000 n0) → running n0 k n →
  e1000_reclaim_tx n = Ret (tt, n) ∧ tx_sem (e1000 n) = 32 - k ∧ k ≤ 32 ∧
  (k = 32 → ∀ d p, e1000_transmit d p n = Blocked).
Proof.
  intros H0 Hr. pose proof (running_tx_state _ _ _ _ _ H0 Hr) as E. unfold tx_state in E. injection E as Eh Et Es.
  split; [apply reclaim_idle; by rewrite Eh, Et|]. split; [done|]. split.
  - induction Hr as [|k n d p r n' Hr IH Ht|k n d n' Hr IH Hp|k n n' Hr IH Hs]; [lia|..].
    + pose proof (running_tx_state _ _ _ _ _ H0 Hr) as E. unfold tx_state in E. injection E as Eh' Et' Es'.
      destruct (transmit_tx_state _ _ _ _ _ Ht) as (Hne & _). specialize (IH Eh' Et' Es'). destruct (r =? 0); lia.
    + pose proof (running_tx_state _ _ _ _ _ H0 Hr) as E. unfold tx_state in E. injection E as ? ? ?. auto.
    + pose proof (running_tx_state _ _ _ _ _ H0 Hr) as E. unfold tx_state in E. injection E as ? ? ?. auto.
  - intros -> d p. unfold e1000_transmit. rewrite (st_bind_run get_e1000 _ n (e1000 n) n eq_refl), Es. done.
Qed.

(** ** A run *)

Definition cold_e1000 : e1000_priv := mk_e1000 (λ _, 0) (λ a, nth (Z.to_nat a) [0x5452; 0x1200; 0x5634] 0) [] 0 0 [] 0 [] 0 [].
Definition cold_net : net :=
  mk_net (mk_pstore ∅ 0 [] (λ _ _, 0)) false [] cold_e1000 false
    (replicate 32 (mk_arp_entry 0 (replicate 6 0) ARP_STATE_EMPTY 0 0 0 [])) 0 false (replicate 16 (mk_route 0 0 0 None 0 false)) None 0
    false 0 false ∅ [] 49152.

(** One packet in a fresh driver. *)
Definition one_packet : net :=
  let n := set_pbs cold_net (with_pbufs (pbs cold_net) {[ 0%nat := mk_pbuf None [1; 2; 3] (Some 0) 3 3 PBUF_RAM 1 ]}) in
  match e1000_tx_init 0xc0100000 (e1000 n) with Ret e => set_e1000 n e | _ => n end.

Lemma e1000_tx_wedges_witness : ∃ n, e1000_transmit 0 0 one_packet = Ret (0, n) ∧
  e1000_reclaim_tx n = Ret (tt, n) ∧ tx_sem (e1000 n) = 32 - 1 ∧ 1 ≤ 32 ∧
  (1 = 32 → ∀ d p, e1000_transmit d p n = Blocked).
Proof.
  destruct (e1000_transmit 0 0 one_packet) as [[r n]| | |] eqn:E; [|exfalso; revert E; vm_compute; discriminate..].
  assert (r = 0) as ->.
  { assert (match e1000_transmit 0 0 one_packet with Ret (r, _) => r | _ => 1 end = 0) as Er by (vm_compute; reflexivity).
    rewrite E in Er. exact Er. }
  exists n. split; [reflexivity|]. apply (e1000_tx_wedges 0xc0100000 cold_e1000 one_packet 1 n); [reflexivity|].
  exact (Transmit _ 0 _ 0 0 0 n (Start one_packet) E).
Defined.

End Netdev.
