(* ===== verification/Arp.v ===== *)
(** * The link layer: [net/link]

    Ethernet output and the address resolution protocol.  A header is the bytes of the
    packet; fields are loaded and stored in the little-endian order of the machine, so that
    [ntohs] and [htons] of the source appear as they are.  [ethernet_input] dispatches to
    the layer above and is in [Ip]. *)

From stdpp Require Import base tactics numbers list list_numbers option gmap.
From S2P Require Import Prelude Checksum State Pbuf Netdev.

Open Scope Z_scope.

Module Arp.
Import Checksum Pbuf Netdev.

(** ** Fields of a header *)

Definition rd8 (p : nat) (ofs : Z) : N Z := l ← pb (peek p ofs 1); mret (le_val l).
Definition rd16 (p : nat) (ofs : Z) : N Z := l ← pb (peek p ofs 2); mret (le_val l).
Definition rd32 (p : nat) (ofs : Z) : N Z := l ← pb (peek p ofs 4); mret (le_val l).
Definition wr8 (p : nat) (ofs v : Z) : N unit := pb (poke p ofs (le_bytes 1 v)).
Definition wr16 (p : nat) (ofs v : Z) : N unit := pb (poke p ofs (le_bytes 2 v)).
Definition wr32 (p : nat) (ofs v : Z) : N unit := pb (poke p ofs (le_bytes 4 v)).

(** [pbuf_free (p)] as a statement. *)
Definition free (p : nat) : N unit := pb (pbuf_free (Some p));; mret tt.

(** ** [ethernet.c] *)

Definition ETH_ADDR_LEN : Z := 6.
Definition ETH_HEADER_LEN : Z := 14.
Definition ETH_TYPE_IP : Z := 0x0800.
Definition ETH_TYPE_ARP : Z := 0x0806.
Definition eth_broadcast_addr : list Z := replicate 6 0xFF.

Definition eth_addr_matches (addr dev_addr : list Z) : bool := bool_decide (addr = dev_addr).
Definition eth_is_broadcast (addr : list Z) : bool := eth_addr_matches addr eth_broadcast_addr.

Definition ethernet_output (d p : nat) (dest : list Z) (type : Z) : N Z :=
  ok ← pb (pbuf_header p (- ETH_HEADER_LEN));
  if negb ok then free p;; mret (-1) else
  pb (poke p 0 dest);;
  dev ← get_dev d;
  pb (poke p 6 (mac_addr dev));;
  wr16 p 12 (htons type);;
  netdev_transmit d p.

(** ** [arp.c] *)

Definition ARP_HWTYPE_ETHERNET : Z := 1.
Definition ARP_PROTO_IP : Z := 0x0800.
Definition ARP_OP_REQUEST : Z := 1.
Definition ARP_OP_REPLY : Z := 2.
Definition ARP_CACHE_SIZE : nat := 32.
Definition ARP_CACHE_TIMEOUT : Z := 300 * 100.
Definition ARP_MAX_PENDING : Z := 4.
Definition ARP_HEADER_LEN : Z := 28.
Definition INT64_MAX : Z := 2 ^ 63 - 1.

#[global] Instance arp_state_eq_dec : EqDecision arp_state.
Proof. solve_decision. Defined.

Definition with_pending (e : arp_entry) (l : list (nat * nat)) : arp_entry :=
  mk_arp_entry (arp_ip e) (arp_mac e) (state e) (expire_time e) (retry_time e) (retry_count e) l.
(** [mac] learnt at time [now]. *)
Definition resolved (e : arp_entry) (ip : Z) (mac : list Z) (now : Z) : arp_entry :=
  mk_arp_entry ip mac ARP_STATE_VALID (now + ARP_CACHE_TIMEOUT) (retry_time e) (retry_count e) (pending e).
Definition with_state (e : arp_entry) (s : arp_state) : arp_entry :=
  mk_arp_entry (arp_ip e) (arp_mac e) s (expire_time e) (retry_time e) (retry_count e) (pending e).

Definition entry (i : nat) : N arp_entry := λ n, match arp_cache n !! i with Some e => Ret (e, n) | None => UB end.
Definition set_entry (i : nat) (e : arp_entry) : N unit := λ n, Ret (tt, set_arp_cache n (<[i := e]> (arp_cache n))).

Definition timer_ticks : N Z := λ n, Ret (ticks n, n).

Definition arp_init : N unit := λ n,
  Ret (tt, set_arp_initialized (set_arp_cache n ((λ e, with_pending (with_state e ARP_STATE_EMPTY) []) <$> arp_cache n)) true).

Definition arp_assert : N unit := λ n, _ ← ASSERT (arp_initialized n); Ret (tt, n).

(** The entry in use for an address. *)
Definition entry_for (ip : Z) (e : arp_entry) : Prop := state e ≠ ARP_STATE_EMPTY ∧ arp_ip e = ip.
Definition arp_find_entry (ip : Z) : N (option nat) := λ n, Ret (fst <$> list_find (entry_for ip) (arp_cache n), n).

(** The entries after index [i]: the first empty one, or the oldest. *)
Fixpoint oldest_loop (l : list arp_entry) (i : nat) (oldest_time : Z) (oldest_idx : option nat) : bool * option nat :=
  match l with
  | [] => (false, oldest_idx)
  | e :: l =>
      if bool_decide (state e = ARP_STATE_EMPTY) then (true, Some i)
      else if expire_time e <? oldest_time then oldest_loop l (S i) (expire_time e) (Some i)
      else oldest_loop l (S i) oldest_time oldest_idx
  end.

(** Takes the pending packets of an entry off one by one and frees them. *)
Fixpoint free_pending (i : nat) (l : list (nat * nat)) : N unit :=
  match l with
  | [] => mret tt
  | (p, _) :: l => e ← entry i; set_entry i (with_pending e l);; free p;; free_pending i l
  end.

Definition arp_alloc_entry : N (option nat) :=
  n ← get;
  match oldest_loop (arp_cache n) 0 INT64_MAX None with
  | (true, Some i) => e ← entry i; set_entry i (with_pending e []);; mret (Some i)
  | (false, Some i) => e ← entry i; free_pending i (pending e);; e ← entry i; set_entry i (with_pending e []);; mret (Some i)
  | (_, None) => mret None
  end.

(** The header of an ARP packet of ours. *)
Definition arp_fill (p : nat) (dev : netdev) (op : Z) (target_mac : list Z) (target_ip : Z) : N unit :=
  wr16 p 0 (htons ARP_HWTYPE_ETHERNET);;
  wr16 p 2 (htons ARP_PROTO_IP);;
  wr8 p 4 6;;
  wr8 p 5 4;;
  wr16 p 6 (htons op);;
  pb (poke p 8 (mac_addr dev));;
  wr32 p 14 (ip_addr dev);;
  pb (poke p 18 target_mac);;
  wr32 p 24 target_ip.

Definition arp_send_request (d : nat) (ip : Z) : N unit :=
  p ← pb (pbuf_alloc PBUF_LINK ARP_HEADER_LEN PBUF_RAM);
  match p with
  | None => mret tt
  | Some p =>
      dev ← get_dev d;
      arp_fill p dev ARP_OP_REQUEST (replicate 6 0) ip;;
      ethernet_output d p eth_broadcast_addr ETH_TYPE_ARP;; mret tt
  end.

Definition arp_send_reply (d : nat) (target_ip : Z) (target_mac : list Z) : N unit :=
  p ← pb (pbuf_alloc PBUF_LINK ARP_HEADER_LEN PBUF_RAM);
  match p with
  | None => mret tt
  | Some p =>
      dev ← get_dev d;
      arp_fill p dev ARP_OP_REPLY target_mac target_ip;;
      ethernet_output d p target_mac ETH_TYPE_ARP;; mret tt
  end.

Fixpoint send_pending_loop (i : nat) (l : list (nat * nat)) : N unit :=
  match l with
  | [] => mret tt
  | (p, d) :: l =>
      e ← entry i;
      set_entry i (with_pending e l);;
      ethernet_output d p (arp_mac e) ETH_TYPE_IP;;
      send_pending_loop i l
  end.
Definition arp_send_pending (i : nat) : N unit := e ← entry i; send_pending_loop i (pending e).

Definition arp_input (d p : nat) : N unit :=
  arp_assert;;
  b ← pb (load p);
  if len b <? ARP_HEADER_LEN then free p else
  hw_type ← rd16 p 0; proto_type ← rd16 p 2; hw_len ← rd8 p 4; proto_len ← rd8 p 5;
  if negb (ntohs hw_type =? ARP_HWTYPE_ETHERNET) || negb (ntohs proto_type =? ARP_PROTO_IP)
     || negb (hw_len =? 6) || negb (proto_len =? 4) then free p else
  opcode ← rd16 p 6;
  sender_mac ← pb (peek p 8 6); sender_ip ← rd32 p 14; target_ip ← rd32 p 24;
  dev ← get_dev d;
  found ← arp_find_entry sender_ip;
  match found with
  | Some i =>
      e ← entry i; now ← timer_ticks;
      set_entry i (resolved e (arp_ip e) sender_mac now);; arp_send_pending i
  | None =>
      if target_ip =? ip_addr dev then
        found ← arp_alloc_entry;
        match found with
        | Some i => e ← entry i; now ← timer_ticks; set_entry i (resolved e sender_ip sender_mac now)
        | None => mret tt
        end
      else mret tt
  end;;
  (if (ntohs opcode =? ARP_OP_REQUEST) && (target_ip =? ip_addr dev)
   then arp_send_reply d sender_ip sender_mac else mret tt);;
  free p.

(** The hardware address, if it is known. *)
Definition arp_resolve (d : nat) (ip : Z) : N (option (list Z)) :=
  arp_assert;;
  if ip =? 0xFFFFFFFF then mret (Some eth_broadcast_addr) else
  if Z.shiftr (ntohl ip) 24 =? 127 then mret (Some (replicate 6 0)) else
  found ← arp_find_entry ip;
  match found with
  | Some i =>
      e ← entry i;
      match state e with
      | ARP_STATE_VALID => mret (Some (arp_mac e))
      | _ => mret None
      end
  | None =>
      found ← arp_alloc_entry;
      match found with
      | Some i =>
          e ← entry i; now ← timer_ticks;
          set_entry i (mk_arp_entry ip (arp_mac e) ARP_STATE_PENDING (now + ARP_CACHE_TIMEOUT) (now + 100) 0 (pending e))
      | None => mret tt
      end;;
      arp_send_request d ip;; mret None
  end.

Definition arp_queue_packet (d : nat) (ip : Z) (p : nat) : N bool :=
  arp_assert;;
  found ← arp_find_entry ip;
  match found with
  | None => mret false
  | Some i =>
      e ← entry i;
      if bool_decide (state e ≠ ARP_STATE_PENDING) then mret false else
      when (ARP_MAX_PENDING <=? Z.of_nat (length (pending e)))
        (match pending e with
         | (oldest, _) :: l => set_entry i (with_pending e l);; free oldest
         | [] => mret tt
         end);;
      ok ← pb malloc_ok;
      if negb ok then mret false else
      pb (pbuf_ref p);;
      e ← entry i;
      set_entry i (with_pending e (pending e ++ [(p, d)]));; mret true
  end.

Definition arp_cache_update (ip : Z) (mac : list Z) : N unit :=
  arp_assert;;
  found ← arp_find_entry ip;
  found ← (match found with
           | Some i => mret (Some i)
           | None =>
               found ← arp_alloc_entry;
               match found with
               | None => mret None
               | Some i =>
                   e ← entry i;
                   set_entry i (mk_arp_entry ip (arp_mac e) (state e) (expire_time e) (retry_time e) (retry_count e) []);; mret (Some i)
               end
           end);
  match found with
  | None => mret tt
  | Some i => e ← entry i; now ← timer_ticks; set_entry i (resolved e (arp_ip e) mac now)
  end.

Definition arp_announce (d : nat) : N unit := dev ← get_dev d; arp_send_request d (ip_addr dev).

Fixpoint timer_loop (count i : nat) (now : Z) : N unit :=
  match count with
  | O => mret tt
  | S count =>
      e ← entry i;
      when (bool_decide (state e ≠ ARP_STATE_EMPTY) && (expire_time e <=? now))
        (free_pending i (pending e);; e ← entry i; set_entry i (with_state e ARP_STATE_EMPTY));;
      timer_loop count (S i) now
  end.

Definition arp_timer : N unit :=
  n ← get;
  if negb (arp_initialized n) then mret tt else timer_loop ARP_CACHE_SIZE 0 (ticks n).

(** ** What the layer below leaves alone *)

Ltac keeps_step :=
  match goal with
  | |- keeps _ (_ ≫= _) => apply keeps_bind; [|intros ?]
  | |- keeps _ (mret _) => apply keeps_ret
  | |- keeps _ (lift _) => apply keeps_lift
  | |- keeps _ (pb _) => apply keeps_pb; assumption
  | |- keeps _ (get_dev _) => apply keeps_get_dev
  | |- keeps _ (set_dev _ _) => apply keeps_set_dev; assumption
  | |- keeps _ get_e1000 => apply keeps_get_e1000
  | |- keeps _ (match ?x with _ => _ end) => destruct x
  | |- keeps _ (when _ _) => apply keeps_when
  | |- keeps _ (let '(_, _) := ?x in _) => destruct x
  | H : context [keeps _ _] |- _ => apply H
  end.

Section link.
Context {B : Type} (f : net → B).
Hypothesis f_pbs : ∀ n s, f (set_pbs n s) = f n.
Hypothesis f_devs : ∀ n l, f (set_devs n l) = f n.
Hypothesis f_e1000 : ∀ n e, f (set_e1000 n e) = f n.

Lemma keeps_put_e1000 e : keeps f (put_e1000 e).
Proof. intros n [] n' H. injection H as <-. apply f_e1000. Qed.
Lemma keeps_get : keeps f get.
Proof. intros n x n' H. by injection H as _ <-. Qed.

Lemma keeps_netdev_transmit d p : keeps f (netdev_transmit d p).
Proof.
  pose proof keeps_put_e1000 as Hput. pose proof keeps_get as Hget.
  pose proof (λ d p, keeps_netdev_input f d p f_pbs f_devs) as Hin.
  unfold netdev_transmit, transmit, loopback_transmit, e1000_transmit. repeat keeps_step.
Qed.

Lemma keeps_ethernet_output d p dest type : keeps f (ethernet_output d p dest type).
Proof. pose proof keeps_netdev_transmit as Ht. unfold ethernet_output, free, wr16. repeat keeps_step. Qed.

Lemma keeps_arp_send_request d ip : keeps f (arp_send_request d ip).
Proof.
  pose proof keeps_ethernet_output as Ho. unfold arp_send_request, arp_fill, wr8, wr16, wr32. repeat keeps_step.
Qed.

Lemma keeps_arp_send_reply d ip mac : keeps f (arp_send_reply d ip mac).
Proof.
  pose proof keeps_ethernet_output as Ho. unfold arp_send_reply, arp_fill, wr8, wr16, wr32. repeat keeps_step.
Qed.
End link.

(** ** The cache *)

(** What the cache says: the address and the state of every entry. *)
Definition key (e : arp_entry) : Z * arp_state := (arp_ip e, state e).
Definition keys (n : net) : list (Z * arp_state) := key <$> arp_cache n.

(** An entry in use for the address; no two entries in use have the same one. *)
Definition in_use (ip : Z) (k : Z * arp_state) : Prop := k.2 ≠ ARP_STATE_EMPTY ∧ k.1 = ip.
Definition unique (l : list (Z * arp_state)) : Prop :=
  ∀ ip i j x y, l !! i = Some x → l !! j = Some y → in_use ip x → in_use ip y → i = j.
Definition absent (ip : Z) (l : list (Z * arp_state)) : Prop := ∀ i x, l !! i = Some x → ¬ in_use ip x.
Definition present (ip : Z) (i : nat) (l : list (Z * arp_state)) : Prop := ∃ x, l !! i = Some x ∧ in_use ip x.

(** A property of the keys holds before and after what keeps them. *)
Lemma hoare_keeps {A} (m : N A) (P : list (Z * arp_state) → Prop) : keeps keys m → hoare (λ n, P (keys n)) m (λ _ n, P (keys n)).
Proof. intros Hk n a n' Hn E. by rewrite (Hk _ _ _ E). Qed.

Lemma entry_Ret i n e n' : entry i n = Ret (e, n') ↔ n' = n ∧ arp_cache n !! i = Some e.
Proof. unfold entry. destruct (arp_cache n !! i); naive_solver. Qed.

(** Reading an entry and storing another in its place. *)
Lemma hoare_entry {A} i P (k : arp_entry → N A) Q :
  (∀ e, hoare (λ n, P n ∧ arp_cache n !! i = Some e) (k e) Q) → hoare P (e ← entry i; k e) Q.
Proof. intros H. eapply hoare_bind; [|exact H]. intros n e n' Hn E. by apply entry_Ret in E as [-> E]. Qed.

Lemma hoare_set_entry i e' (P : list (Z * arp_state) → Prop) :
  hoare (λ n, P (<[i := key e']> (keys n))) (set_entry i e') (λ _ n, P (keys n)).
Proof. intros n [] n' Hn H. injection H as <-. unfold keys in *. cbn [arp_cache set_arp_cache]. by rewrite list_fmap_insert. Qed.

(** An entry whose address and state stay. *)
Lemma hoare_update i e' (P : list (Z * arp_state) → Prop) (e : arp_entry) : key e' = key e →
  hoare (λ n, P (keys n) ∧ arp_cache n !! i = Some e) (set_entry i e') (λ _ n, P (keys n)).
Proof.
  intros K. eapply hoare_weaken; [apply (hoare_set_entry i e' P)| |done]. intros n [Hp E]. rewrite K, list_insert_id; [done|].
  unfold keys. by rewrite list_lookup_fmap, E.
Qed.

Lemma keeps_of_hoare {A} (m : N A) : (∀ P : list (Z * arp_state) → Prop, hoare (λ n, P (keys n)) m (λ _ n, P (keys n))) → keeps keys m.
Proof. intros H n a n' E. by apply (H (λ k, k = keys n) n a n'). Qed.

Lemma keeps_free_keys p : keeps keys (free p).
Proof. unfold free. apply keeps_bind; [by apply keeps_pb|intros; apply keeps_ret]. Qed.

Lemma keeps_output_keys d p dest type : keeps keys (ethernet_output d p dest type).
Proof. by apply keeps_ethernet_output. Qed.

Lemma keeps_free_pending i l : keeps keys (free_pending i l).
Proof.
  apply keeps_of_hoare. intros P. induction l as [|[p d] l IH]; [apply hoare_ret|]. cbn [free_pending].
  apply hoare_entry. intros e. eapply hoare_bind; [by apply hoare_update|]. intros [].
  eapply hoare_bind; [apply hoare_keeps, keeps_free_keys|]. intros []. exact IH.
Qed.

Lemma keeps_send_pending i : keeps keys (arp_send_pending i).
Proof.
  apply keeps_of_hoare. intros P. unfold arp_send_pending. apply hoare_entry. intros e.
  apply (hoare_weaken _ (λ n, P (keys n)) _ (λ _ n, P (keys n)) (λ _ n, P (keys n))); [|by intros n []|done].
  induction (pending e) as [|[p d] l IH]; [apply hoare_ret|]. cbn [send_pending_loop].
  apply hoare_entry. intros e'. eapply hoare_bind; [by apply hoare_update|]. intros [].
  eapply hoare_bind; [apply hoare_keeps, keeps_output_keys|]. intros ?. exact IH.
Qed.

(** [arp_alloc_entry] changes no entry's address or state. *)
Lemma keeps_alloc : keeps keys arp_alloc_entry.
Proof.
  apply keeps_of_hoare. intros P. unfold arp_alloc_entry.
  eapply hoare_bind; [apply hoare_keeps, keeps_get|]. intros n. destruct (oldest_loop _ _ _ _) as [[] [i|]]; try apply hoare_ret.
  - apply hoare_entry. intros e. eapply hoare_bind; [by apply hoare_update|]. intros []. apply hoare_ret.
  - apply hoare_entry. intros e. eapply hoare_bind.
    { eapply hoare_weaken; [apply (hoare_keeps _ P), keeps_free_pending|by intros ? []|done]. }
    intros []. apply hoare_entry. intros e'. eapply hoare_bind; [by apply hoare_update|]. intros []. apply hoare_ret.
Qed.

Lemma hoare_find ip (P : list (Z * arp_state) → Prop) : hoare (λ n, P (keys n)) (arp_find_entry ip)
  (λ r n, P (keys n) ∧ match r with Some i => present ip i (keys n) | None => absent ip (keys n) end).
Proof.
  intros n r n' Hn H. injection H as <- <-. split; [done|].
  destruct (list_find (entry_for ip) (arp_cache n)) as [[i e]|] eqn:E; cbn.
  - apply list_find_Some in E as (E & He & _). exists (key e). unfold keys. by rewrite list_lookup_fmap, E.
  - pose proof (proj1 (list_find_None _ _) E) as Ha. intros i x Hi Hx. unfold keys in Hi. rewrite list_lookup_fmap in Hi.
    destruct (arp_cache n !! i) as [e|] eqn:Ei; [|done]. injection Hi as <-. by apply (proj1 (Forall_lookup _ _) Ha i e).
Qed.

(** An address that no entry has is put in use; an entry in use keeps its address; an entry
    falls out of use. *)
Lemma unique_insert l i ip s : unique l → absent ip l → unique (<[i := (ip, s)]> l).
Proof.
  intros Hu Ha jp j k x y Hj Hk Hx Hy. apply list_lookup_insert_Some in Hj, Hk.
  destruct Hj as [(<- & <- & _)|[? Hj]], Hk as [(<- & <- & _)|[? Hk]]; [done|..].
  - destruct Hx as [_ Hx]. cbn in Hx. subst jp. by destruct (Ha k y).
  - destruct Hy as [_ Hy]. cbn in Hy. subst jp. by destruct (Ha j x).
  - by apply (Hu jp j k x y).
Qed.

Lemma unique_update l i x s : unique l → l !! i = Some x → x.2 ≠ ARP_STATE_EMPTY ∨ s = ARP_STATE_EMPTY → unique (<[i := (x.1, s)]> l).
Proof.
  intros Hu Hi Hs jp j k y z Hj Hk Hy Hz. apply list_lookup_insert_Some in Hj, Hk.
  destruct Hj as [(<- & <- & _)|[? Hj]], Hk as [(<- & <- & _)|[? Hk]]; [done|..].
  - destruct Hy as [Hy1 Hy2], Hs; [|done]. cbn in Hy2. by apply (Hu jp i k x z).
  - destruct Hz as [Hz1 Hz2], Hs; [|done]. cbn in Hz2. by apply (Hu jp j i y x).
  - by apply (Hu jp j k y z).
Qed.

(** ** Every operation keeps the addresses unique *)

Notation ok := (λ n, unique (keys n)).
Notation preserves m := (hoare ok m (λ _, ok)).

Lemma arp_keeps {A} (m : N A) : keeps keys m → preserves m.
Proof. apply hoare_keeps. Qed.

(** The read-only operations. *)
Lemma keeps_entry {B} (f : net → B) i : keeps f (entry i).
Proof. intros n e n' H. by apply entry_Ret in H as [-> _]. Qed.
Lemma keeps_ticks {B} (f : net → B) : keeps f timer_ticks.
Proof. intros n x n' H. by injection H as _ <-. Qed.
Lemma keeps_assert {B} (f : net → B) : keeps f arp_assert.
Proof. intros n [] n' H. unfold arp_assert in H. destruct (arp_initialized n); [|done]. by injection H as <-. Qed.
Lemma keeps_find {B} (f : net → B) ip : keeps f (arp_find_entry ip).
Proof. intros n x n' H. by injection H as _ <-. Qed.
Lemma keeps_reads {B} (f : net → B) p o : (∀ n s, f (set_pbs n s) = f n) → keeps f (rd8 p o) ∧ keeps f (rd16 p o) ∧ keeps f (rd32 p o).
Proof.
  intros Hf. unfold rd8, rd16, rd32. repeat split; (apply keeps_bind; [by apply keeps_pb|intros; apply keeps_ret]).
Qed.

(** One step of a proof about the keys of the cache. *)
Ltac keys_step :=
  match goal with
  | |- keeps keys (rd8 _ _) => by apply keeps_reads
  | |- keeps keys (rd16 _ _) => by apply keeps_reads
  | |- keeps keys (rd32 _ _) => by apply keeps_reads
  | |- keeps keys (pb _) => by apply keeps_pb
  | |- keeps keys (arp_send_request _ _) => by apply keeps_arp_send_request
  | |- keeps keys (arp_send_reply _ _ _) => by apply keeps_arp_send_reply
  | |- keeps keys _ => first [apply keeps_free_keys | apply keeps_assert | apply keeps_entry | apply keeps_ticks
      | apply keeps_get_dev | apply keeps_alloc | apply keeps_send_pending | apply keeps_find | apply keeps_free_pending]
  end.
(** The next statement keeps the keys. *)
Ltac kept P := eapply hoare_bind; [apply (hoare_keeps _ P); keys_step|intros ?].

(** A new entry for an address that had none. *)
Lemma hoare_new i e' ip : arp_ip e' = ip →
  hoare (λ n, unique (keys n) ∧ absent ip (keys n)) (set_entry i e') (λ _, ok).
Proof.
  intros <-. eapply hoare_weaken; [apply (hoare_set_entry i e' unique)| |done]. intros n [Hu Ha]. by apply unique_insert.
Qed.

(** An entry in use that keeps its address, or falls out of use. *)
Lemma hoare_again ip i e e' : arp_ip e' = arp_ip e →
  hoare (λ n, (unique (keys n) ∧ present ip i (keys n)) ∧ arp_cache n !! i = Some e) (set_entry i e') (λ _, ok).
Proof.
  intros Hip. eapply hoare_weaken; [apply (hoare_set_entry i e' unique)| |done]. intros n [[Hu (x & Hx & Hs & _)] He].
  assert (keys n !! i = Some (key e)) as Hk by (unfold keys; by rewrite list_lookup_fmap, He).
  unfold key. rewrite Hip. apply (unique_update _ _ (key e)); [done|done|]. left. congruence.
Qed.

Lemma hoare_empty i e : hoare (λ n, unique (keys n) ∧ arp_cache n !! i = Some e) (set_entry i (with_state e ARP_STATE_EMPTY)) (λ _, ok).
Proof.
  eapply hoare_weaken; [apply (hoare_set_entry i _ unique)| |done]. intros n [Hu He].
  apply (unique_update _ _ (key e)); [done| |by right]. unfold keys. by rewrite list_lookup_fmap, He.
Qed.

Lemma hoare_ticks {A} P (k : Z → N A) Q : (∀ now, hoare P (k now) Q) → hoare P (now ← timer_ticks; k now) Q.
Proof. intros H. apply (hoare_bind _ _ _ (λ _, P)); [intros n ? n' Hn E; injection E as <- <-; exact Hn|exact H]. Qed.

Lemma hoare_skip P : hoare (λ n, unique (keys n) ∧ P n) (mret tt) (λ _, ok).
Proof. intros n [] n' [Hn _] H. by injection H as <-. Qed.

Lemma input_ok d p : preserves (arp_input d p).
Proof.
  unfold arp_input. kept unique. kept unique. apply hoare_if; [apply arp_keeps; keys_step|].
  do 4 kept unique. apply hoare_if; [apply arp_keeps; keys_step|]. kept unique.
  eapply hoare_bind; [apply (hoare_keeps _ unique); keys_step|intros mac].
  eapply hoare_bind; [apply (hoare_keeps _ unique); keys_step|intros sip]. do 2 kept unique.
  eapply hoare_bind; [apply (hoare_find _ unique)|]. intros found.
  eapply hoare_bind; [|intros ?; eapply hoare_bind; [|intros ?; apply arp_keeps; keys_step]].
  2: { apply hoare_if; [apply arp_keeps; keys_step|apply hoare_ret]. }
  destruct found as [i|].
  - apply hoare_entry. intros e. apply hoare_ticks. intros now.
    eapply hoare_bind; [by apply hoare_again|intros ?; apply arp_keeps; keys_step].
  - apply hoare_if; [|apply hoare_skip]. kept (λ l, unique l ∧ absent sip l).
    match goal with |- hoare _ (match ?x with _ => _ end) _ => destruct x as [i|] end; [|apply hoare_skip].
    apply hoare_entry. intros e. apply hoare_ticks. intros now.
    eapply hoare_weaken; [by apply (hoare_new i _ sip)|by intros ? []|done].
Qed.

Lemma resolve_ok d ip : preserves (arp_resolve d ip).
Proof.
  unfold arp_resolve. kept unique. repeat (apply hoare_if; [apply arp_keeps, keeps_ret|]).
  eapply hoare_bind; [apply (hoare_find _ unique)|]. intros [i|].
  - apply hoare_entry. intros e. intros n r n' [[Hu _] _] H. by destruct (state e); injection H as _ <-.
  - kept (λ l, unique l ∧ absent ip l).
    eapply hoare_bind; [|intros ?; eapply hoare_bind; [|intros ?; apply arp_keeps, keeps_ret]].
    2: { apply arp_keeps. keys_step. }
    match goal with |- hoare _ (match ?x with _ => _ end) _ => destruct x as [i|] end; [|apply hoare_skip].
    apply hoare_entry. intros e. apply hoare_ticks. intros now.
    eapply hoare_weaken; [by apply (hoare_new i _ ip)|by intros ? []|done].
Qed.

Lemma queue_ok d ip p : preserves (arp_queue_packet d ip p).
Proof.
  unfold arp_queue_packet. kept unique.
  eapply hoare_bind; [apply (hoare_keeps _ unique); keys_step|intros [i|]]; [|apply arp_keeps, keeps_ret].
  apply hoare_entry. intros e. apply hoare_if; [intros n ? n' [Hn _] H; by injection H as <- <-|].
  eapply hoare_bind; [|intros ?].
  { instantiate (1 := λ _, ok). unfold when. apply hoare_if; [|apply hoare_skip]. destruct (pending e) as [|[oldest d'] l]; [apply hoare_skip|].
    eapply hoare_bind; [by apply hoare_update|intros ?]. apply arp_keeps. keys_step. }
  kept unique. apply hoare_if; [apply arp_keeps, keeps_ret|]. kept unique.
  apply hoare_entry. intros e'. eapply hoare_bind; [by apply hoare_update|intros ?]. apply arp_keeps, keeps_ret.
Qed.

(** No entry in use but the [i]th has the address. *)
Definition only (ip : Z) (i : nat) (l : list (Z * arp_state)) : Prop :=
  unique l ∧ ∀ j x, l !! j = Some x → in_use ip x → j = i.

Lemma only_insert ip i s l : only ip i l → only ip i (<[i := (ip, s)]> l).
Proof.
  intros [Hu Ho]. split.
  - intros jp j k x y Hj Hk Hx Hy. apply list_lookup_insert_Some in Hj, Hk.
    destruct Hj as [(<- & <- & _)|[? Hj]], Hk as [(<- & <- & _)|[? Hk]]; [done|..].
    + destruct Hx as [_ Hx]. cbn in Hx. subst jp. symmetry. by apply (Ho k y).
    + destruct Hy as [_ Hy]. cbn in Hy. subst jp. by apply (Ho j x).
    + by apply (Hu jp j k x y).
  - intros j x Hj Hx. apply list_lookup_insert_Some in Hj as [(<- & _)|[? Hj]]; [done|]. by apply (Ho j x).
Qed.

Lemma only_present ip i l : unique l → present ip i l → only ip i l.
Proof. intros Hu (x & Hi & Hx). split; [done|]. intros j y Hj Hy. by apply (Hu ip j i y x). Qed.

Lemma only_absent ip i l : unique l → absent ip l → only ip i l.
Proof. intros Hu Ha. split; [done|]. intros j x Hj Hx. by destruct (Ha j x). Qed.

Lemma update_ok ip mac : preserves (arp_cache_update ip mac).
Proof.
  unfold arp_cache_update. kept unique. eapply hoare_bind; [apply (hoare_find _ unique)|]. intros found.
  apply (hoare_bind _ _ _ (λ r n, match r with Some i => only ip i (keys n) ∧ fst <$> keys n !! i = Some ip | None => unique (keys n) end)).
  - destruct found as [i|].
    { intros n r n' [Hu Hp] H. injection H as <- <-. split; [by apply only_present|]. destruct Hp as (x & -> & _ & Hx). cbn. by rewrite Hx. }
    kept (λ l, unique l ∧ absent ip l).
    match goal with |- hoare _ (match ?x with _ => _ end) _ => destruct x as [i|] end.
    2: { intros n r n' [Hu Hp] H. by injection H as <- <-. }
    apply hoare_entry. intros e n r n' [[Hu Ha] He] H. apply st_bind_Ret in H as ([] & n1 & E1 & H). injection E1 as <-. injection H as <- <-.
    unfold keys. cbn [arp_cache set_arp_cache]. rewrite list_fmap_insert. split; [by apply only_insert, only_absent|].
    unfold key at 1. cbn [arp_ip state]. rewrite list_lookup_insert_eq; [done|]. rewrite length_fmap. by apply lookup_lt_Some in He.
  - intros [i|]; [|apply arp_keeps, keeps_ret]. apply hoare_entry. intros e. apply hoare_ticks. intros now.
    eapply hoare_weaken; [apply (hoare_set_entry i _ unique)| |done]. intros n [[Ho Hk] He].
    unfold keys in Hk. rewrite list_lookup_fmap, He in Hk. injection Hk as Hk. unfold key. cbn [arp_ip state resolved]. rewrite Hk.
    by apply only_insert.
Qed.

Lemma timer_ok : preserves arp_timer.
Proof.
  unfold arp_timer. eapply hoare_bind; [apply hoare_keeps, keeps_get|]. intros n. apply hoare_if; [apply arp_keeps, keeps_ret|].
  generalize 0%nat. generalize (ticks n). induction ARP_CACHE_SIZE as [|count IH]; intros now i; [apply arp_keeps, keeps_ret|].
  cbn [timer_loop]. apply hoare_entry. intros e. eapply hoare_bind; [|intros ?; apply IH].
  unfold when. apply hoare_if; [|apply hoare_skip].
  eapply hoare_bind; [eapply hoare_weaken; [apply (hoare_keeps _ unique), keeps_free_pending|by intros ? []|done]|intros ?].
  apply hoare_entry. intros e'. apply hoare_empty.
Qed.

(** ** Claims *)

(** What the layer above and the timer do to the cache: a run of these operations, between
    which anything happens that leaves the cache alone. *)
Inductive arp_op :=
| Input (d p : nat) | Resolve (d : nat) (ip : Z) | Queue (d : nat) (ip : Z) (p : nat) | Update (ip : Z) (mac : list Z) | Timer.

Definition arp_run (o : arp_op) : N unit :=
  match o with
  | Input d p => arp_input d p
  | Resolve d ip => arp_resolve d ip;; mret tt
  | Queue d ip p => arp_queue_packet d ip p;; mret tt
  | Update ip mac => arp_cache_update ip mac
  | Timer => arp_timer
  end.

Inductive arp_reachable : net → Prop :=
| Arp_init n n' : arp_init n = Ret (tt, n') → arp_reachable n'
| Arp_op o n n' : arp_reachable n → arp_run o n = Ret (tt, n') → arp_reachable n'
| Arp_other n n' : arp_reachable n → arp_cache n' = arp_cache n → arp_reachable n'.

(** C38. The ARP cache never holds two entries in use for one address: from [arp_init], after
    any sequence of received packets, resolutions, queued packets, updates and timer calls,
    two entries that are not empty have different addresses. *)
Theorem arp_cache_unique n : arp_reachable n → ∀ i j e e', arp_cache n !! i = Some e → arp_cache n !! j = Some e' →
  state e ≠ ARP_STATE_EMPTY → state e' ≠ ARP_STATE_EMPTY → arp_ip e = arp_ip e' → i = j.
Proof.
  intros Hr. assert (unique (keys n)) as Hu.
  { induction Hr as [n n' H|o n n' _ IH H|n n' _ IH H].
    - injection H as <-. intros ip i j x y Hi Hj [Hs _]. exfalso. unfold keys in Hi. cbn [arp_cache set_arp_initialized set_arp_cache] in Hi.
      rewrite !list_lookup_fmap in Hi. destruct (arp_cache n !! i); [|done]. by injection Hi as <-.
    - destruct o as [d p|d ip|d ip p|ip mac|]; cbn [arp_run] in H; try (apply st_bind_Ret in H as (r & n1 & H & E); injection E as <-).
      + by apply (input_ok d p n tt).
      + by apply (resolve_ok d ip n r).
      + by apply (queue_ok d ip p n r).
      + by apply (update_ok ip mac n tt).
      + by apply (timer_ok n tt).
    - unfold keys. by rewrite H. }
  intros i j e e' Hi Hj He He' Hip. apply (Hu (arp_ip e) i j (key e) (key e')); unfold keys; rewrite ?list_lookup_fmap, ?Hi, ?Hj; done.
Qed.

(** Two addresses learnt, the first of them again. *)
Definition two_hosts : net :=
  match (arp_init;; arp_cache_update 1 [1; 1; 1; 1; 1; 1];; arp_cache_update 2 [2; 2; 2; 2; 2; 2];; arp_cache_update 1 [3; 3; 3; 3; 3; 3]) cold_net with
  | Ret (_, n) => n | _ => cold_net end.

Lemma arp_cache_unique_witness : arp_resolve 0 1 two_hosts = Ret (Some [3; 3; 3; 3; 3; 3], two_hosts) ∧
  ∀ i j e e', arp_cache two_hosts !! i = Some e → arp_cache two_hosts !! j = Some e' →
  state e ≠ ARP_STATE_EMPTY → state e' ≠ ARP_STATE_EMPTY → arp_ip e = arp_ip e' → i = j.
Proof.
  split; [vm_compute; reflexivity|]. apply (arp_cache_unique two_hosts).
  destruct (arp_init cold_net) as [[[] n0]| | |] eqn:E0; [|exfalso; revert E0; vm_compute; discriminate..].
  destruct (arp_cache_update 1 [1; 1; 1; 1; 1; 1] n0) as [[[] n1]| | |] eqn:E1.
  2-4: exfalso; injection E0 as <-; revert E1; vm_compute; discriminate.
  destruct (arp_cache_update 2 [2; 2; 2; 2; 2; 2] n1) as [[[] n2]| | |] eqn:E2.
  2-4: exfalso; injection E0 as <-; revert E1; vm_compute; intros E1; injection E1 as <-; revert E2; vm_compute; discriminate.
  destruct (arp_cache_update 1 [3; 3; 3; 3; 3; 3] n2) as [[[] n3]| | |] eqn:E3.
  2-4: exfalso; injection E0 as <-; revert E1; vm_compute; intros E1; injection E1 as <-; revert E2; vm_compute; intros E2;
    injection E2 as <-; revert E3; vm_compute; discriminate.
  assert (two_hosts = n3) as ->.
  { unfold two_hosts. rewrite (st_bind_run _ _ _ _ _ E0), (st_bind_run _ _ _ _ _ E1), (st_bind_run _ _ _ _ _ E2), E3. reflexivity. }
  apply (Arp_op (Update 1 [3; 3; 3; 3; 3; 3]) n2 n3); [|exact E3]. apply (Arp_op (Update 2 [2; 2; 2; 2; 2; 2]) n1 n2); [|exact E2].
  apply (Arp_op (Update 1 [1; 1; 1; 1; 1; 1]) n0 n1); [|exact E1]. exact (Arp_init cold_net n0 E0).
Defined.

End Arp.
