(* ===== verification/Route.v ===== *)
(** * Routing: [net/inet/route.c]

    The routing table and the longest-prefix match.  Addresses and masks are the 32-bit
    words in network byte order, compared as the little-endian machine compares them. *)

From stdpp Require Import base tactics numbers list list_numbers option gmap.
From S2P Require Import Prelude Checksum State Pbuf Netdev.

Open Scope Z_scope.

Module Route.
Import Checksum Pbuf Netdev.

Definition ROUTE_FLAG_GATEWAY : Z := 1.
Definition ROUTE_FLAG_HOST : Z := 2.
Definition ROUTE_FLAG_LOCAL : Z := 4.

Record route_result := mk_result { res_dev : nat; res_gateway : Z; res_flags : Z }.

Definition route_assert : N unit := λ n, _ ← ASSERT (route_initialized n); Ret (tt, n).

Definition route_init : N unit := λ n,
  Ret (tt, set_route_initialized (set_routes n ((λ r, mk_route (dst r) (mask r) (rt_gateway r) (rt_dev r) (rt_flags r) false) <$> routes n)) true).

(** The loop over the table. *)
Fixpoint best_loop (l : list route_entry) (i : nat) (dst_ : Z) (best_match : option nat) (best_mask : Z) : option nat :=
  match l with
  | [] => best_match
  | r :: l =>
      if negb (valid r) then best_loop l (S i) dst_ best_match best_mask
      else if Z.land dst_ (mask r) =? dst r then
        if best_mask <=? mask r then best_loop l (S i) dst_ (Some i) (mask r)
        else best_loop l (S i) dst_ best_match best_mask
      else best_loop l (S i) dst_ best_match best_mask
  end.

(** The route, or [None] for the return value -1.  A route of the table whose device is null
    would be followed; no caller adds one. *)
Definition route_lookup (dst_ : Z) : N (option route_result) :=
  route_assert;;
  if Z.shiftr (ntohl dst_) 24 =? 127 then
    lo ← netdev_get_loopback; mret ((λ d, mk_result d 0 ROUTE_FLAG_LOCAL) <$> lo)
  else
  local ← netdev_find_by_ip dst_;
  match local with
  | Some d => mret (Some (mk_result d 0 ROUTE_FLAG_LOCAL))
  | None =>
      n ← get;
      match best_loop (routes n) 0 dst_ None 0 with
      | Some i =>
          r ← lift (match routes n !! i with Some r => Ret r | None => UB end);
          d ← lift (match rt_dev r with Some d => Ret d | None => UB end);
          mret (Some (mk_result d (rt_gateway r) (rt_flags r)))
      | None =>
          match default_dev n with
          | Some d => mret (Some (mk_result d (default_gateway n) (if negb (default_gateway n =? 0) then ROUTE_FLAG_GATEWAY else 0)))
          | None =>
              d ← netdev_get_default;
              match d with
              | Some d =>
                  dev ← get_dev d;
                  mret (Some (if Z.land dst_ (netmask dev) =? Z.land (ip_addr dev) (netmask dev) then mk_result d 0 0
                              else if negb (gateway dev =? 0) then mk_result d (gateway dev) ROUTE_FLAG_GATEWAY
                              else mk_result d 0 0))
              | None => mret None
              end
          end
      end
  end.

Definition route_add (dst_ mask_ gw : Z) (d : option nat) : N Z :=
  route_assert;;
  n ← get;
  match list_find (λ r, valid r = false) (routes n) with
  | Some (i, _) =>
      put (set_routes n (<[i := mk_route dst_ mask_ gw d (if negb (gw =? 0) then ROUTE_FLAG_GATEWAY else 0) true]> (routes n)));;
      mret 0
  | None => mret (-1)
  end.

Definition route_set_default (gw : Z) (d : option nat) : N unit :=
  route_assert;; n ← get; put (set_default_gateway (set_default_dev n d) gw).

(** ** Masks *)

(** The mask of a prefix of [k] bits. *)
Definition cidr (k : nat) : Z := htonl (2 ^ 32 - 2 ^ (32 - Z.of_nat k)).

(** Longer prefixes have greater masks, although they are compared in network byte order. *)
Lemma cidr_monotone j k : (j ≤ 32)%nat → (k ≤ 32)%nat → cidr j ≤ cidr k ↔ (j ≤ k)%nat.
Proof.
  assert (forallb (λ j, forallb (λ k, Bool.eqb (cidr j <=? cidr k) (j <=? k)%nat) (seq 0 33)) (seq 0 33) = true) as H by (vm_compute; reflexivity).
  intros Hj Hk. pose proof (proj1 (forallb_forall _ _) H j (proj2 (in_seq 33 0 j) ltac:(lia))) as Hjk.
  pose proof (proj1 (forallb_forall _ _) Hjk k (proj2 (in_seq 33 0 k) ltac:(lia))) as E. apply Bool.eqb_prop in E.
  rewrite <- Z.leb_le, E. apply Nat.leb_le.
Qed.

Lemma cidr_nonneg k : (k ≤ 32)%nat → 0 ≤ cidr k.
Proof. intros Hk. change 0 with (cidr 0). apply cidr_monotone; lia. Qed.

(** A route that covers an address, with a prefix of [k] bits. *)
Definition covers (r : route_entry) (ip : Z) (k : nat) : Prop :=
  valid r = true ∧ (k ≤ 32)%nat ∧ mask r = cidr k ∧ Z.land ip (cidr k) = dst r.
(** The masks of the table are masks of prefixes. *)
Definition cidr_table (l : list route_entry) : Prop := Forall (λ r, valid r = true → ∃ k, (k ≤ 32)%nat ∧ mask r = cidr k) l.

Lemma best_run ip : ∀ l i bm bk, cidr_table l → (bk ≤ 32)%nat →
  let r := best_loop l i ip bm (cidr bk) in
  (∃ j e k, r = Some (i + j)%nat ∧ l !! j = Some e ∧ covers e ip k ∧ (bk ≤ k)%nat ∧
    ∀ j' e' k', l !! j' = Some e' → covers e' ip k' → (k' ≤ k)%nat ∧ (k' = k → (j' ≤ j)%nat)) ∨
  (r = bm ∧ ∀ j e k, l !! j = Some e → covers e ip k → (k < bk)%nat).
Proof.
  induction l as [|e l IH]; intros i bm bk Ht Hbk; [right; split; done|]. cbn [best_loop].
  apply list.Forall_cons in Ht as [He Ht].
  assert (Skip : (∀ k, covers e ip k → (k < bk)%nat) → let r := best_loop l (S i) ip bm (cidr bk) in
    (∃ j e0 k, r = Some (i + j)%nat ∧ (e :: l) !! j = Some e0 ∧ covers e0 ip k ∧ (bk ≤ k)%nat ∧
      ∀ j' e' k', (e :: l) !! j' = Some e' → covers e' ip k' → (k' ≤ k)%nat ∧ (k' = k → (j' ≤ j)%nat)) ∨
    (r = bm ∧ ∀ j e0 k, (e :: l) !! j = Some e0 → covers e0 ip k → (k < bk)%nat)).
  { intros Hc. destruct (IH (S i) bm bk Ht Hbk) as [(j & e0 & k & -> & Hj & Hc0 & Hk & Hmax)|[-> Hno]]; [left|right; split; [done|]].
    - exists (S j), e0, k. split; [f_equal; lia|]. repeat split; try apply Hc0; try done.
      + destruct j' as [|j']; [injection H as <-; apply Hc in H0; lia|]. by destruct (Hmax j' e' k' H H0).
      + destruct j' as [|j']; [lia|]. destruct (Hmax j' e' k' H H0) as [_ Hle]. intros E. specialize (Hle E). lia.
    - intros [|j] e0 k Hj Hc0; [injection Hj as <-; by apply Hc|by apply (Hno j e0)]. }
  destruct (valid e) eqn:Ev; cbn [negb]; [|apply Skip; intros k [Hv _]; congruence].
  destruct (He eq_refl) as (k & Hk & Em).
  assert (∀ k', covers e ip k' → k' = k) as Huniq.
  { intros k' (_ & Hk' & Em' & _). rewrite Em in Em'. apply Nat.le_antisymm; apply cidr_monotone; lia. }
  rewrite Em. destruct (Z.eqb_spec (Z.land ip (cidr k)) (dst e)) as [Ed|Ed]; [|apply Skip; intros k' Hc; pose proof (Huniq _ Hc) as ->; by destruct Hc as (_ & _ & _ & ?)].
  assert (covers e ip k) as Hce by done.
  destruct (Z.leb_spec (cidr bk) (cidr k)) as [Hle|Hlt].
  2: { apply Skip. intros k' Hc. rewrite (Huniq _ Hc). apply Nat.nle_gt. rewrite <- cidr_monotone by done. lia. }
  apply cidr_monotone in Hle; [|done..]. left.
  destruct (IH (S i) (Some i) k Ht Hk) as [(j & e0 & k0 & -> & Hj & Hc0 & Hk0 & Hmax)|[-> Hno]].
  - exists (S j), e0, k0. split; [f_equal; lia|]. repeat split; try apply Hc0; try done; try lia.
    + destruct j' as [|j']; [injection H as <-; rewrite (Huniq _ H0); lia|]. by destruct (Hmax j' e' k' H H0).
    + destruct j' as [|j']; [lia|]. destruct (Hmax j' e' k' H H0) as [_ Hl]. intros E. specialize (Hl E). lia.
  - exists 0%nat, e, k. split; [f_equal; lia|]. repeat split; try apply Hce; try done.
    + destruct j' as [|j']; [injection H as <-; by rewrite (Huniq _ H0)|]. specialize (Hno j' e' k' H H0). lia.
    + destruct j' as [|j']; [lia|]. specialize (Hno j' e' k' H H0). lia.
Qed.

(** ** The claim *)

(** C27. Routing takes the longest matching prefix.  For an address that is neither 127/8 nor
    one of ours, in a table whose masks are masks of prefixes: when some route covers the
    address, [route_lookup] returns the device, gateway and flags of a covering route, no
    covering route has a longer prefix, and among those with the same prefix it is the last
    of the table. When none covers it and there is a default device, the default is returned. *)
Theorem route_longest_prefix n ip : route_initialized n = true → netdev_initialized n = true →
  Z.shiftr (ntohl ip) 24 ≠ 127 → Forall (λ d, ip_addr d ≠ ip) (devs n) →
  cidr_table (routes n) → Forall (λ r, valid r = true → rt_dev r ≠ None) (routes n) →
  (∃ i r k d, routes n !! i = Some r ∧ covers r ip k ∧ rt_dev r = Some d ∧
     route_lookup ip n = Ret (Some (mk_result d (rt_gateway r) (rt_flags r)), n) ∧
     ∀ j r' k', routes n !! j = Some r' → covers r' ip k' → (k' ≤ k)%nat ∧ (k' = k → (j ≤ i)%nat)) ∨
  ((∀ j r k, routes n !! j = Some r → ¬ covers r ip k) ∧
     ∀ d, default_dev n = Some d →
     route_lookup ip n = Ret (Some (mk_result d (default_gateway n) (if negb (default_gateway n =? 0) then ROUTE_FLAG_GATEWAY else 0)), n)).
Proof.
  intros Hri Hni Hl Hd Ht Hr.
  assert (∀ x, (match best_loop (routes n) 0 ip None (cidr 0) with
            | Some i => r ← lift (match routes n !! i with Some r => Ret r | None => UB end);
                d ← lift (match rt_dev r with Some d => Ret d | None => UB end);
                mret (Some (mk_result d (rt_gateway r) (rt_flags r)))
            | None => match default_dev n with
                | Some d => mret (Some (mk_result d (default_gateway n) (if negb (default_gateway n =? 0) then ROUTE_FLAG_GATEWAY else 0)))
                | None => d ← netdev_get_default;
                    match d with
                    | Some d => dev ← get_dev d;
                        mret (Some (if Z.land ip (netmask dev) =? Z.land (ip_addr dev) (netmask dev) then mk_result d 0 0
                              else if negb (gateway dev =? 0) then mk_result d (gateway dev) ROUTE_FLAG_GATEWAY else mk_result d 0 0))
                    | None => mret None
                    end
                end
            end) n = x → route_lookup ip n = x) as Eq.
  { intros x <-. unfold route_lookup. rewrite (st_bind_run route_assert _ n tt n) by (unfold route_assert; by rewrite Hri).
    destruct (Z.eqb_spec (Z.shiftr (ntohl ip) 24) 127); [done|].
    rewrite (st_bind_run (netdev_find_by_ip ip) _ n None n); [by rewrite (st_bind_run get _ n n n eq_refl)|].
    unfold netdev_find_by_ip, find_dev. rewrite Hni. cbn [ASSERT mbind outcome_bind]. do 2 f_equal.
    rewrite (proj2 (list_find_None _ _)); [done|]. eapply list.Forall_impl; [exact Hd|]. cbn. intros d Hne He. by apply Z.eqb_eq in He. }
  destruct (best_run ip (routes n) 0 None 0 Ht ltac:(lia)) as [(j & e & k & Eb & Hj & Hc & _ & Hmax)|[Eb Hno]]; [left|right].
  - rewrite Nat.add_0_l in Eb. destruct (rt_dev e) as [d|] eqn:Ed.
    2: { by destruct (proj1 (Forall_lookup _ _) Hr j e Hj (proj1 Hc)). }
    exists j, e, k, d. repeat split; try done; try apply Hc; try (by destruct (Hmax j0 r' k' H H0)).
    apply Eq. rewrite Eb, Hj. unfold mbind, st_bind, lift. cbn [mbind outcome_bind]. rewrite Ed. done.
  - split; [intros j r k Hj Hc; specialize (Hno j r k Hj Hc); lia|]. intros d Ed. apply Eq. rewrite Eb, Ed. done.
Qed.

(** 10/8, 10.1/16 and a default. *)
Definition three_routes : net :=
  let n := set_netdev_initialized (set_route_initialized cold_net true) true in
  match (route_add (htonl 0x0A000000) (cidr 8) 0 (Some 1%nat);; route_add (htonl 0x0A010000) (cidr 16) (htonl 0x0A010001) (Some 2%nat);;
         route_set_default (htonl 0x0A000001) (Some 1%nat)) n with
  | Ret (_, n) => n | _ => n end.

Lemma route_longest_prefix_witness : ∃ i r k d, routes three_routes !! i = Some r ∧ covers r (htonl 0x0A010203) k ∧ rt_dev r = Some d ∧
  route_lookup (htonl 0x0A010203) three_routes = Ret (Some (mk_result d (rt_gateway r) (rt_flags r)), three_routes) ∧ (16 ≤ k)%nat.
Proof.
  assert (routes three_routes = mk_route (htonl 0x0A000000) (cidr 8) 0 (Some 1%nat) 0 true
            :: mk_route (htonl 0x0A010000) (cidr 16) (htonl 0x0A010001) (Some 2%nat) 1 true
            :: replicate 14 (mk_route 0 0 0 None 0 false)) as E by (vm_compute; reflexivity).
  assert (covers (mk_route (htonl 0x0A010000) (cidr 16) (htonl 0x0A010001) (Some 2%nat) 1 true) (htonl 0x0A010203) 16) as H16.
  { split; [reflexivity|]. split; [lia|]. split; [reflexivity|]. vm_compute. reflexivity. }
  destruct (route_longest_prefix three_routes (htonl 0x0A010203)) as [(i & r & k & d & Hi & Hc & Hd & Hr & Hmax)|[Hno _]].
  1, 2: vm_compute; reflexivity.
  - vm_compute. discriminate.
  - assert (devs three_routes = []) as -> by (vm_compute; reflexivity). apply list.Forall_nil. exact I.
  - rewrite E. repeat (apply list.Forall_cons; split); [by exists 8%nat; split; [lia|]|by exists 16%nat; split; [lia|]|..];
      try (intros H; discriminate H). apply list.Forall_nil. exact I.
  - rewrite E. repeat (apply list.Forall_cons; split); try (intros H; discriminate H); try (intros _ H; discriminate H).
    apply list.Forall_nil. exact I.
  - exists i, r, k, d. repeat (split; [assumption|]). refine (proj1 (Hmax 1%nat _ 16%nat _ H16)). rewrite E. reflexivity.
  - exfalso. refine (Hno 1%nat _ 16%nat _ H16). rewrite E. reflexivity.
Defined.

End Route.
