(* ===== verification/Ip.v ===== *)
(** * The network layer: [net/inet/ip.c], [net/inet/icmp.c], [net/net.c]

    Output, input and dispatch of IPv4 packets, ICMP, Ethernet input, the configuration and
    one turn of the input thread.  What the functions print is not modelled. *)

From stdpp Require Import base tactics numbers list list_numbers option gmap.
From S2P Require Import Prelude Checksum State Pbuf Netdev Arp Route.

Open Scope Z_scope.

Module Ip.
Import Checksum Pbuf Netdev Arp Route.

(** ** [ip.c] *)

Definition IP_VERSION : Z := 4.
Definition IP_HLEN_MIN : Z := 5.
Definition IP_PROTO_ICMP : Z := 1.
Definition IP_PROTO_TCP : Z := 6.
Definition IP_PROTO_UDP : Z := 17.
Definition IP_FLAG_MF : Z := 0x2000.
Definition IP_FRAG_OFFSET : Z := 0x1FFF.
Definition IP_DEFAULT_TTL : Z := 64.
Definition IP_HEADER_LEN : Z := 20.
Definition IP_HDR_VERSION (version_ihl : Z) : Z := Z.land (Z.shiftr version_ihl 4) 0xF.
Definition IP_HDR_HLEN (version_ihl : Z) : Z := Z.land version_ihl 0xF * 4.

Definition ip_init : N unit := λ n, Ret (tt, set_ip_initialized (set_ip_id_counter n 1) true).
Definition ip_assert : N unit := λ n, _ ← ASSERT (ip_initialized n); Ret (tt, n).

Definition ip_is_local (ip : Z) : N bool :=
  if Z.shiftr (ntohl ip) 24 =? 127 then mret true
  else d ← netdev_find_by_ip ip; mret (match d with Some _ => true | None => false end).

Definition ip_is_broadcast (ip : Z) (dev : netdev) : bool :=
  (ip =? 0xFFFFFFFF) ||
  (negb (netmask dev =? 0) && (ip =? Z.lor (ip_addr dev) (u32 (Z.lnot (netmask dev))))).

(** [checksum (payload, n)] *)
Definition checksum_of (p : nat) (n : Z) : N Z := d ← pb (peek p 0 n); lift (checksum d (Z.to_nat n)).

Definition next_id : N Z := λ n, Ret (ip_id_counter n, set_ip_id_counter n (u16 (ip_id_counter n + 1))).

(** The header of an outgoing packet. *)
Definition ip_fill (p : nat) (tot src dst_ protocol ttl : Z) : N unit :=
  wr8 p 0 (Z.lor (Z.shiftl IP_VERSION 4) IP_HLEN_MIN);;
  wr8 p 1 0;;
  wr16 p 2 (htons tot);;
  id ← next_id;
  wr16 p 4 (htons id);;
  wr16 p 6 0;;
  wr8 p 8 ttl;;
  wr8 p 9 protocol;;
  wr16 p 10 0;;
  wr32 p 12 src;;
  wr32 p 16 dst_;;
  c ← checksum_of p IP_HEADER_LEN;
  wr16 p 10 c.

(** The device and the next hop, or the return value -1. *)
Definition ip_route (d : option nat) (dst_ : Z) : N (option (nat * Z)) :=
  match d with
  | None =>
      route ← route_lookup dst_;
      mret ((λ r, (res_dev r, if negb (Z.land (res_flags r) ROUTE_FLAG_GATEWAY =? 0) then res_gateway r else dst_)) <$> route)
  | Some d =>
      dev ← get_dev d;
      mret (Some (d, if Z.land dst_ (netmask dev) =? Z.land (ip_addr dev) (netmask dev) then dst_
                     else if negb (gateway dev =? 0) then gateway dev else dst_))
  end.

Definition ip_output (d : option nat) (p : nat) (src dst_ protocol ttl : Z) : N Z :=
  ip_assert;;
  route ← ip_route d dst_;
  match route with
  | None => free p;; mret (-1)
  | Some (d, next_hop) =>
      dev ← get_dev d;
      let src := if src =? 0 then ip_addr dev else src in
      let ttl := if ttl =? 0 then IP_DEFAULT_TTL else ttl in
      ok ← pb (pbuf_header p (- IP_HEADER_LEN));
      if negb ok then free p;; mret (-1) else
      b ← pb (load p);
      ip_fill p (tot_len b) src dst_ protocol ttl;;
      if has_flag (flags dev) NETDEV_FLAG_LOOPBACK then netdev_transmit d p else
      mac ← (if ip_is_broadcast dst_ dev then mret (Some eth_broadcast_addr) else arp_resolve d next_hop);
      match mac with
      | None =>
          queued ← arp_queue_packet d next_hop p;
          (if negb queued then free p else mret tt);; mret 0
      | Some mac => ethernet_output d p mac ETH_TYPE_IP
      end
  end.

Definition ip_output_hdr (d p : nat) (dst_mac : list Z) : N Z := ethernet_output d p dst_mac ETH_TYPE_IP.

(** ** [icmp.c] *)

Definition ICMP_TYPE_ECHO_REPLY : Z := 0.
Definition ICMP_TYPE_DEST_UNREACHABLE : Z := 3.
Definition ICMP_TYPE_ECHO_REQUEST : Z := 8.
Definition ICMP_TYPE_TIME_EXCEEDED : Z := 11.
Definition ICMP_HEADER_LEN : Z := 8.

Definition icmp_init : N unit := λ n, Ret (tt, set_icmp_initialized n true).
Definition icmp_assert : N unit := λ n, _ ← ASSERT (icmp_initialized n); Ret (tt, n).

Definition icmp_input (d p : nat) (src dst_ : Z) : N unit :=
  icmp_assert;;
  b ← pb (load p);
  if len b <? ICMP_HEADER_LEN then free p else
  cksum ← checksum_of p (len b);
  if negb (cksum =? 0) then free p else
  type ← rd8 p 0;
  if type =? ICMP_TYPE_ECHO_REQUEST then
    wr8 p 0 ICMP_TYPE_ECHO_REPLY;;
    wr8 p 1 0;;
    wr16 p 2 0;;
    c ← checksum_of p (len b);
    wr16 p 2 c;;
    ip_output (Some d) p dst_ src IP_PROTO_ICMP 0;; mret tt
  else free p.

(** [memcpy] of [n] bytes of [src], behind the ICMP header. *)
Definition icmp_data (p : nat) (src : option (list Z)) (n : Z) : N unit :=
  match src with
  | Some src => if 0 <? n then l ← lift (memcpy_from src 0 (Z.to_nat n)); pb (poke p ICMP_HEADER_LEN l) else mret tt
  | None => mret tt
  end.

Definition icmp_echo_request (d : option nat) (dst_ id seq : Z) (src : option (list Z)) (n : Z) : N Z :=
  icmp_assert;;
  p ← pb (pbuf_alloc PBUF_IP (ICMP_HEADER_LEN + n) PBUF_RAM);
  match p with
  | None => mret (-1)
  | Some p =>
      wr8 p 0 ICMP_TYPE_ECHO_REQUEST;;
      wr8 p 1 0;;
      wr16 p 2 0;;
      wr16 p 4 (htons id);;
      wr16 p 6 (htons seq);;
      icmp_data p src n;;
      b ← pb (load p);
      c ← checksum_of p (len b);
      wr16 p 2 c;;
      ip_output d p 0 dst_ IP_PROTO_ICMP 0
  end.

Definition icmp_dest_unreachable (d : option nat) (dst_ code : Z) (orig : option (list Z)) (orig_len : Z) : N unit :=
  icmp_assert;;
  let orig_len := Z.min orig_len 28 in
  p ← pb (pbuf_alloc PBUF_IP (ICMP_HEADER_LEN + orig_len) PBUF_RAM);
  match p with
  | None => mret tt
  | Some p =>
      wr8 p 0 ICMP_TYPE_DEST_UNREACHABLE;;
      wr8 p 1 code;;
      wr16 p 2 0;;
      wr32 p 4 0;;
      icmp_data p orig orig_len;;
      b ← pb (load p);
      c ← checksum_of p (len b);
      wr16 p 2 c;;
      ip_output d p 0 dst_ IP_PROTO_ICMP 0;; mret tt
  end.

(** ** Input *)

(** The packet is cut to [tot] bytes. *)
Definition trimmed (b : pbuf) (tot : Z) : pbuf :=
  mk_pbuf (next b) (data b) (payload b) tot (if len b <? tot then len b else tot) (type b) (ref b).

(** UDP and TCP packets are freed like unknown ones. *)
Definition ip_input (d p : nat) : N unit :=
  ip_assert;;
  b ← pb (load p);
  if len b <? IP_HEADER_LEN then free p else
  version_ihl ← rd8 p 0;
  if negb (IP_HDR_VERSION version_ihl =? IP_VERSION) then free p else
  let hlen := IP_HDR_HLEN version_ihl in
  if (hlen <? IP_HEADER_LEN) || (len b <? hlen) then free p else
  cksum ← checksum_of p hlen;
  if negb (cksum =? 0) then free p else
  tot ← rd16 p 2;
  let tot := ntohs tot in
  if (tot <? hlen) || (tot_len b <? tot) then free p else
  (if tot <? tot_len b then pb (store p (trimmed b tot)) else mret tt);;
  dst_ ← rd32 p 16;
  local ← ip_is_local dst_;
  dev ← get_dev d;
  if negb local && negb (ip_is_broadcast dst_ dev) then free p else
  frag_off ← rd16 p 6;
  if negb (Z.land (ntohs frag_off) (Z.lor IP_FLAG_MF IP_FRAG_OFFSET) =? 0) then free p else
  src ← rd32 p 12;
  protocol ← rd8 p 9;
  ok ← pb (pbuf_header p hlen);
  if negb ok then free p else
  if protocol =? IP_PROTO_ICMP then icmp_input d p src dst_ else free p.

Definition ethernet_input (d p : nat) : N unit :=
  b ← pb (load p);
  if len b <? ETH_HEADER_LEN then free p else
  dest ← pb (peek p 0 6);
  dev ← get_dev d;
  if negb (eth_addr_matches dest (mac_addr dev)) && negb (eth_is_broadcast dest) && negb (has_flag (flags dev) NETDEV_FLAG_PROMISC)
  then free p else
  type ← rd16 p 12;
  let type := ntohs type in
  ok ← pb (pbuf_header p ETH_HEADER_LEN);
  if negb ok then free p else
  if type =? ETH_TYPE_IP then ip_input d p
  else if type =? ETH_TYPE_ARP then arp_input d p
  else free p.

(** ** Addresses as text *)

(** The characters of the string, the octets read so far, the one being read. *)
Fixpoint octets_loop (s : list Z) (octets : list Z) (val : Z) (has_digit : bool) : outcome (option (list Z)) :=
  match s with
  | [] => UB
  | c :: s =>
      if (48 <=? c) && (c <=? 57) then
        let val := val * 10 + (c - 48) in
        if 255 <? val then Ret None else octets_loop s octets val true
      else if (c =? 46) || (c =? 0) then
        if negb has_digit || (4 <=? Z.of_nat (length octets)) then Ret None else
        let octets := octets ++ [val] in
        if c =? 0 then Ret (Some octets) else octets_loop s octets 0 false
      else Ret None
  end.

Definition ip_addr_from_str (str : list Z) : outcome Z :=
  r ← octets_loop str [] 0 false;
  match r with
  | Some [a; b; c; d] => Ret (htonl (Z.lor (Z.lor (Z.lor (Z.shiftl a 24) (Z.shiftl b 16)) (Z.shiftl c 8)) d))
  | _ => Ret 0
  end.

(** ** [net.c] *)

Definition eth0_name : list Z := [101; 116; 104; 48; 0].

(** Boot, without the scaffolds of the layers above; [udp_init] only empties its list. *)
Definition net_init : N unit :=
  netdev_init;; arp_init;; route_init;; ip_init;; icmp_init;;
  (λ n, Ret (tt, set_udp_pcb_list n []));;
  loopback_init.

Definition net_configure (ip_str mask_str gw_str : list Z) : N unit :=
  ip ← lift (ip_addr_from_str ip_str);
  mask ← lift (ip_addr_from_str mask_str);
  gw ← lift (ip_addr_from_str gw_str);
  if ip =? 0 then mret tt else
  d ← netdev_get_default;
  d ← (match d with None => netdev_find_by_name eth0_name | Some _ => mret d end);
  match d with
  | None => mret tt
  | Some d =>
      netdev_set_ip d ip mask gw;;
      netdev_up d;;
      when (negb (gw =? 0)) (route_set_default gw (Some d));;
      arp_announce d
  end.

(** One turn of the loop of [net_input_thread]: a packet was processed. *)
Definition net_input_turn (lo eth : option nat) : N bool :=
  (match eth with
   | Some e => dev ← get_dev e; (match ops dev with e1000_ops => e1000_poll e | loopback_ops => mret tt end)
   | None => mret tt
   end);;
  p ← (match lo with Some l => netdev_receive l | None => mret None end);
  match lo, p with
  | Some l, Some p => ip_input l p;; mret true
  | _, _ =>
      match eth with
      | Some e =>
          p ← netdev_receive e;
          match p with
          | Some p => ethernet_input e p;; mret true
          | None => mret false
          end
      | None => mret false
      end
  end.

End Ip.
