(* ===== verification/IpProofs.v ===== *)
(** * A packet's way down and up the stack

    Symbolic execution of the network layer on one packet: what every access of the packet
    does to its bytes, the header [ip_output] writes, the checks [ip_input] makes; then the
    claim that an echo request on the loopback device is answered. *)

From stdpp Require Import base tactics numbers list list_numbers option gmap.
From S2P Require Import Prelude Checksum State Pbuf Netdev Arp Route Ip.

Open Scope Z_scope.

Module IpProofs.
Import Checksum Pbuf Netdev Arp Route Ip.

(** ** One packet *)

(** Block [p] holds one packet: [pre] is the unused space before its bytes [w]. *)
Definition packet (pre w : list Z) : pbuf :=
  mk_pbuf None (pre ++ w) (Some (Z.of_nat (length pre))) (Z.of_nat (length w)) (Z.of_nat (length w)) PBUF_RAM 1.
Definition pkt (s : pstore) (p : nat) (pre w : list Z) : pstore := with_pbufs s (<[p := packet pre w]> (pbufs s)).
Definition net_pkt (n : net) (p : nat) (pre w : list Z) : net := set_pbs n (pkt (pbs n) p pre w).

Lemma pb_run {A} (m : st pstore A) n a s : m (pbs n) = Ret (a, s) → pb m n = Ret (a, set_pbs n s).
Proof. intros E. unfold pb. by rewrite E. Qed.

Lemma pkt_lookup s p pre w : pbufs (pkt s p pre w) !! p = Some (packet pre w).
Proof. apply lookup_insert_eq. Qed.

Lemma pkt_load s p pre w : load p (pkt s p pre w) = Ret (packet pre w, pkt s p pre w).
Proof. apply load_run, pkt_lookup. Qed.

Lemma pkt_store s p pre w pre' w' : store p (packet pre' w') (pkt s p pre w) = Ret (tt, pkt s p pre' w').
Proof.
  unfold store. rewrite pkt_lookup. unfold pkt, with_pbufs. cbn [pbufs next_block mallocs garbage]. by rewrite insert_insert_eq.
Qed.

Lemma net_run {A} (m : st pstore A) n p pre w pre' w' a : m (pkt (pbs n) p pre w) = Ret (a, pkt (pbs n) p pre' w') →
  pb m (net_pkt n p pre w) = Ret (a, net_pkt n p pre' w').
Proof. intros E. unfold pb, net_pkt. cbn [pbs set_pbs]. by rewrite E. Qed.

Lemma net_load n p pre w : pb (load p) (net_pkt n p pre w) = Ret (packet pre w, net_pkt n p pre w).
Proof. apply net_run, pkt_load. Qed.

Lemma net_peek n p pre w o k : 0 ≤ o → 0 ≤ k → o + k ≤ Z.of_nat (length w) →
  pb (peek p o k) (net_pkt n p pre w) = Ret (slice w (Z.to_nat o) (Z.to_nat k), net_pkt n p pre w).
Proof.
  intros Ho Hk Hl. apply net_run.
  assert (window_ok (packet pre w)) as Hw by (cbn; rewrite length_app; lia).
  rewrite (peek_run _ p (packet pre w) o k (pkt_lookup _ _ _ _) Hw) by (cbn [len packet]; lia || lia).
  unfold window, packet. cbn [payload data len]. rewrite Nat2Z.id.
  assert (slice (pre ++ w) (length pre) (Z.to_nat (Z.of_nat (length w))) = w) as ->; [|done].
  rewrite slice_app_r by lia. rewrite Nat.sub_diag. apply slice_full. lia.
Qed.

Lemma net_poke n p pre w o src : 0 ≤ o → o + Z.of_nat (length src) ≤ Z.of_nat (length w) →
  pb (poke p o src) (net_pkt n p pre w) = Ret (tt, net_pkt n p pre (splice w (Z.to_nat o) src)).
Proof.
  intros Ho Hl. apply net_run. unfold poke.
  rewrite (st_bind_run _ _ _ _ _ (pkt_load _ _ _ _)). cbn [payload packet].
  unfold mbind at 1, st_bind at 1, lift. rewrite (proj2 (Z.leb_le 0 _)) by lia. cbn [DEFINED mbind outcome_bind].
  assert (memcpy (data (packet pre w)) (Z.to_nat (Z.of_nat (length pre) + o)) src (length src)
            = Ret (pre ++ splice w (Z.to_nat o) src)) as E.
  { apply memcpy_Ret. cbn [data packet]. rewrite length_app. repeat split; try lia. rewrite firstn_all.
    unfold splice. replace (Z.to_nat (Z.of_nat (length pre) + o)) with (length pre + Z.to_nat o)%nat by lia.
    rewrite take_app_add, <- Nat.add_assoc, drop_app_add, <- app_assoc. done. }
  unfold mbind at 1, st_bind at 1. rewrite E. cbn [mbind outcome_bind].
  assert (with_data (packet pre w) (pre ++ splice w (Z.to_nat o) src) = packet pre (splice w (Z.to_nat o) src)) as ->.
  { unfold with_data, packet. cbn. by rewrite length_splice by lia. }
  apply pkt_store.
Qed.

(** Headers: [k] bytes of the space become the first bytes of the packet, and back. *)
Lemma net_prepend n p pre hdr w : 0 < Z.of_nat (length hdr) → Z.of_nat (length hdr) + Z.of_nat (length w) < 65536 →
  pb (pbuf_header p (- Z.of_nat (length hdr))) (net_pkt n p (pre ++ hdr) w) = Ret (true, net_pkt n p pre (hdr ++ w)).
Proof.
  intros Hh Hl. apply net_run. unfold pbuf_header.
  rewrite (st_bind_run _ _ _ _ _ (pkt_load _ _ _ _)). rewrite (proj2 (Z.ltb_lt _ 0)) by lia. cbn [type payload packet].
  rewrite length_app. rewrite (proj2 (Z.ltb_ge _ _)) by lia.
  assert (moved (packet (pre ++ hdr) w) (- Z.of_nat (length hdr)) = packet pre (hdr ++ w)) as ->.
  { unfold moved, packet. cbn [next data payload tot_len len type ref mbind option_bind].
    rewrite !length_app, !wrap_small, <- app_assoc by lia. f_equal; [f_equal|..]; lia. }
  by rewrite (st_bind_run _ _ _ _ _ (pkt_store _ _ _ _ _ _)).
Qed.

Lemma net_strip n p pre hdr w : 0 < Z.of_nat (length hdr) → Z.of_nat (length hdr) + Z.of_nat (length w) < 65536 →
  pb (pbuf_header p (Z.of_nat (length hdr))) (net_pkt n p pre (hdr ++ w)) = Ret (true, net_pkt n p (pre ++ hdr) w).
Proof.
  intros Hh Hl. apply net_run. unfold pbuf_header.
  rewrite (st_bind_run _ _ _ _ _ (pkt_load _ _ _ _)). rewrite (proj2 (Z.ltb_ge _ 0)), (proj2 (Z.ltb_lt 0 _)) by lia.
  cbn [len packet]. rewrite length_app. rewrite (proj2 (Z.ltb_ge _ _)) by lia.
  assert (moved (packet pre (hdr ++ w)) (Z.of_nat (length hdr)) = packet (pre ++ hdr) w) as ->.
  { unfold moved, packet. cbn [next data payload tot_len len type ref mbind option_bind].
    rewrite !length_app, !wrap_small, <- app_assoc by lia. f_equal; [f_equal|..]; lia. }
  by rewrite (st_bind_run _ _ _ _ _ (pkt_store _ _ _ _ _ _)).
Qed.

(** Freeing the only reference gives the store before the packet back. *)
Lemma pkt_free s p pre w : pbufs s !! p = None → pbuf_free (Some p) (pkt s p pre w) = Ret (None, s).
Proof.
  intros Hp. unfold pbuf_free. rewrite (st_bind_run _ _ _ _ _ (pkt_load _ _ _ _)).
  unfold mbind, st_bind, lift. cbn. change (0 <? 1 - 1) with false. cbv iota beta. unfold pkt, with_pbufs. cbn [pbufs next_block mallocs garbage].
  rewrite delete_insert_id; [by destruct s|done].
Qed.

Lemma net_free n p pre w : pbufs (pbs n) !! p = None → free p (net_pkt n p pre w) = Ret (tt, n).
Proof.
  intros Hp. unfold free. rewrite (st_bind_run _ _ _ None n); [done|]. unfold pb. cbn [pbs set_pbs net_pkt].
  rewrite pkt_free by done. by destruct n.
Qed.

(** ** Fields *)

Lemma net_rd8 n p pre w o x : (x :: []) = slice w (Z.to_nat o) 1 → 0 ≤ o → o + 1 ≤ Z.of_nat (length w) →
  rd8 p o (net_pkt n p pre w) = Ret (x, net_pkt n p pre w).
Proof.
  intros E Ho Hl. unfold rd8. rewrite (st_bind_run _ _ _ _ _ (net_peek n p pre w o 1 Ho ltac:(lia) Hl)).
  change (Z.to_nat 1) with 1%nat. rewrite <- E. unfold mret, st_ret. do 2 f_equal. unfold le_val. lia.
Qed.

Lemma net_rd n p pre w o k v : slice w (Z.to_nat o) k = le_bytes k v → 0 ≤ v < 256 ^ Z.of_nat k →
  0 ≤ o → o + Z.of_nat k ≤ Z.of_nat (length w) →
  (l ← pb (peek p o (Z.of_nat k)); mret (le_val l)) (net_pkt n p pre w) = Ret (v, net_pkt n p pre w).
Proof.
  intros E Hv Ho Hl. rewrite (st_bind_run _ _ _ _ _ (net_peek n p pre w o (Z.of_nat k) Ho ltac:(lia) Hl)).
  rewrite Nat2Z.id, E, le_roundtrip by done. done.
Qed.

(** ** The IP header *)

(** The header before and behind the checksum. *)
Definition ip_front (tot id protocol ttl : Z) : list Z :=
  le_bytes 1 0x45 ++ le_bytes 1 0 ++ le_bytes 2 (htons tot) ++ le_bytes 2 (htons id) ++ le_bytes 2 0 ++ le_bytes 1 ttl ++ le_bytes 1 protocol.
Definition ip_back (src dst_ : Z) : list Z := le_bytes 4 src ++ le_bytes 4 dst_.
Definition header (c tot id src dst_ protocol ttl : Z) : list Z := ip_front tot id protocol ttl ++ le_bytes 2 c ++ ip_back src dst_.

Lemma header_length c tot id src dst_ protocol ttl : length (header c tot id src dst_ protocol ttl) = 20%nat.
Proof. done. Qed.

Lemma front_ok tot id protocol ttl : Forall is_byte (ip_front tot id protocol ttl).
Proof. unfold ip_front. rewrite !Forall_app. repeat split; apply le_bytes_ok. Qed.
Lemma back_ok src dst_ : Forall is_byte (ip_back src dst_).
Proof. unfold ip_back. rewrite !Forall_app. split; apply le_bytes_ok. Qed.

Definition bump (n : net) : net := set_ip_id_counter n (u16 (ip_id_counter n + 1)).

Lemma next_id_run n p pre w : next_id (net_pkt n p pre w) = Ret (ip_id_counter n, net_pkt (bump n) p pre w).
Proof. done. Qed.

(** One store into a packet whose first bytes are known one by one. *)
Ltac poke_step :=
  lazymatch goal with
  | |- (pb (poke ?p ?o ?s) ≫= ?k) (net_pkt ?n ?p ?pre ?w) = _ =>
      let w' := eval cbv [splice firstn skipn app length le_bytes Nat.add Z.to_nat Pos.to_nat Pos.iter_op Init.Nat.add] in (splice w (Z.to_nat o) s) in
      rewrite (st_bind_run (pb (poke p o s)) k (net_pkt n p pre w) tt (net_pkt n p pre w')
                 (net_poke n p pre w o s ltac:(lia) ltac:(rewrite length_le_bytes; cbn [length]; lia)))
  end.

Lemma checksum_run_of n p pre w k c : 0 ≤ k ≤ Z.of_nat (length w) → checksum (slice w 0 (Z.to_nat k)) (Z.to_nat k) = Ret c →
  checksum_of p k (net_pkt n p pre w) = Ret (c, net_pkt n p pre w).
Proof.
  intros Hk E. unfold checksum_of. rewrite (st_bind_run _ _ _ _ _ (net_peek n p pre w 0 k ltac:(lia) ltac:(lia) ltac:(lia))).
  change (Z.to_nat 0) with 0%nat. unfold lift. by rewrite E.
Qed.

Lemma ip_fill_run n p pre hdr0 w tot src dst_ protocol ttl : length hdr0 = 20%nat →
  ∃ c, checksum (header c tot (ip_id_counter n) src dst_ protocol ttl) 20 = Ret 0 ∧
    ip_fill p tot src dst_ protocol ttl (net_pkt n p pre (hdr0 ++ w))
    = Ret (tt, net_pkt (bump n) p pre (header c tot (ip_id_counter n) src dst_ protocol ttl ++ w)).
Proof.
  intros Hl. do 20 (destruct hdr0 as [|? hdr0]; [discriminate Hl|]). destruct hdr0; [clear Hl|discriminate Hl]. cbn [app].
  destruct (checksum_stored (ip_front tot (ip_id_counter n) protocol ttl) (ip_back src dst_)) as (c & E & Hc & Hb & Hlp & Hnz & Hm);
    [apply front_ok|apply back_ok|by exists 5%nat|change (18 ≤ 131068); lia|].
  exists c. split; [by apply (checksum_valid (header c tot (ip_id_counter n) src dst_ protocol ttl))|].
  unfold ip_fill, wr8, wr16, wr32. do 3 poke_step.
  rewrite (st_bind_run _ _ _ _ _ (next_id_run n p pre _)). do 7 poke_step.
  match goal with |- (_ ≫= _) (net_pkt _ _ _ ?w0) = _ =>
    rewrite (st_bind_run _ _ _ _ _ (checksum_run_of (bump n) p pre w0 IP_HEADER_LEN c ltac:(cbn [length]; unfold IP_HEADER_LEN; lia) E)) end.
  rewrite net_poke; [reflexivity|lia|]. rewrite length_le_bytes. cbn [length]. lia.
Qed.

(** ** The loopback device *)

Lemma net_malloc n p pre w : mallocs (pbs n) = [] → pb malloc_ok (net_pkt n p pre w) = Ret (true, net_pkt n p pre w).
Proof. intros E. apply net_run. unfold malloc_ok. cbn [pkt with_pbufs mallocs]. by rewrite E. Qed.

Lemma net_get_dev n p pre w d dev : devs n !! d = Some dev → get_dev d (net_pkt n p pre w) = Ret (dev, net_pkt n p pre w).
Proof. intros E. unfold get_dev. cbn [devs net_pkt set_pbs]. by rewrite E. Qed.

Lemma net_set_dev n p pre w d dev : set_dev d dev (net_pkt n p pre w) = Ret (tt, net_pkt (set_devs n (<[d := dev]> (devs n))) p pre w).
Proof. done. Qed.

(** The device after a packet of [k] bytes was queued, and after it was sent. *)
Definition received (dev : netdev) (p : nat) (k : Z) : netdev :=
  with_rx_sem (with_rx_bytes (with_rx_packets (with_rx_queue dev (rx_queue dev ++ [p])) (u32 (rx_packets dev + 1))) (u32 (rx_bytes dev + k)))
    (rx_sem dev + 1).
Definition sent (dev : netdev) (p : nat) (k : Z) : netdev :=
  let dev := received dev p k in with_tx_bytes (with_tx_packets dev (u32 (tx_packets dev + 1))) (u32 (tx_bytes dev + k)).
Definition put_dev (n : net) (d : nat) (dev : netdev) : net := set_devs n (<[d := dev]> (devs n)).

Lemma input_run n d dev p pre w : devs n !! d = Some dev → mallocs (pbs n) = [] →
  netdev_input d p (net_pkt n p pre w) = Ret (tt, net_pkt (put_dev n d (received dev p (Z.of_nat (length w)))) p pre w).
Proof.
  intros Hd Hm. unfold netdev_input. rewrite (st_bind_run _ _ _ _ _ (net_malloc n p pre w Hm)).
  rewrite (st_bind_run _ _ _ _ _ (net_get_dev n p pre w d dev Hd)). cbn [negb].
  rewrite (st_bind_run _ _ _ _ _ (net_load n p pre w)). done.
Qed.

Record loopback (n : net) (d : nat) (dev : netdev) : Prop := mk_loopback {
  lo_dev : devs n !! d = Some dev;
  lo_ops : ops dev = loopback_ops;
  lo_up : has_flag (flags dev) NETDEV_FLAG_UP = true;
  lo_flag : has_flag (flags dev) NETDEV_FLAG_LOOPBACK = true;
  lo_mem : mallocs (pbs n) = [] }.

Lemma put_dev_get n d dev dev' : devs n !! d = Some dev → devs (put_dev n d dev') !! d = Some dev'.
Proof. intros E. apply list_lookup_insert_eq. by apply lookup_lt_Some in E. Qed.

Lemma put_dev_twice n d dev dev' : put_dev (put_dev n d dev) d dev' = put_dev n d dev'.
Proof. unfold put_dev. cbn [devs set_devs]. by rewrite list_insert_insert_eq. Qed.

Lemma transmit_run n d dev p pre w : loopback n d dev →
  netdev_transmit d p (net_pkt n p pre w) = Ret (0, net_pkt (put_dev n d (sent dev p (Z.of_nat (length w)))) p pre w).
Proof.
  intros [Hd Ho Hu _ Hm]. unfold netdev_transmit. rewrite (st_bind_run _ _ _ _ _ (net_get_dev n p pre w d dev Hd)), Hu, Ho. cbn [negb transmit].
  set (n1 := put_dev n d (received dev p (Z.of_nat (length w)))).
  assert (loopback_transmit d p (net_pkt n p pre w) = Ret (0, net_pkt n1 p pre w)) as E.
  { unfold loopback_transmit. by rewrite (st_bind_run _ _ _ _ _ (input_run n d dev p pre w Hd Hm)). }
  rewrite (st_bind_run _ _ _ _ _ E).
  rewrite (st_bind_run _ _ _ _ _ (net_get_dev n1 p pre w d _ (put_dev_get n d dev _ Hd))). cbn [Z.eqb].
  rewrite (st_bind_run _ _ _ _ _ (net_load n1 p pre w)). rewrite (st_bind_run _ _ _ _ _ (net_set_dev n1 p pre w d _)).
  transitivity (Ret (0, net_pkt (put_dev n1 d (sent dev p (Z.of_nat (length w)))) p pre w)); [reflexivity|].
  unfold n1. by rewrite put_dev_twice.
Qed.

(** What [ip_output] hands to the loopback device. *)
Lemma output_run n d dev p pre hdr0 w src dst_ protocol : loopback n d dev → ip_initialized n = true → length hdr0 = 20%nat →
  Z.of_nat (length w) + 20 < 65536 →
  let src' := if src =? 0 then ip_addr dev else src in
  ∃ c, let h := header c (20 + Z.of_nat (length w)) (ip_id_counter n) src' dst_ protocol IP_DEFAULT_TTL in
    checksum h 20 = Ret 0 ∧
    ip_output (Some d) p src dst_ protocol 0 (net_pkt n p (pre ++ hdr0) w) =
      Ret (0, net_pkt (put_dev (bump n) d (sent dev p (20 + Z.of_nat (length w)))) p pre (h ++ w)).
Proof.
  intros Hlo Hi Hh Hl src'. destruct (ip_fill_run n p pre hdr0 w (20 + Z.of_nat (length w)) src' dst_ protocol IP_DEFAULT_TTL Hh) as (c & Hc & Hf).
  exists c. cbv zeta. split; [done|]. unfold ip_output.
  assert (ip_assert (net_pkt n p (pre ++ hdr0) w) = Ret (tt, net_pkt n p (pre ++ hdr0) w)) as Ea by (unfold ip_assert; cbn; by rewrite Hi).
  rewrite (st_bind_run _ _ _ _ _ Ea). pose proof (lo_dev _ _ _ Hlo) as Hd.
  unfold ip_route. rewrite (st_bind_run _ _ _ _ _ (st_bind_run _ _ _ _ _ (net_get_dev n p (pre ++ hdr0) w d dev Hd))).
  rewrite (st_bind_run _ _ _ _ _ (net_get_dev n p (pre ++ hdr0) w d dev Hd)). rewrite Z.eqb_refl. fold src'.
  assert (pb (pbuf_header p (- IP_HEADER_LEN)) (net_pkt n p (pre ++ hdr0) w) = Ret (true, net_pkt n p pre (hdr0 ++ w))) as Ep.
  { replace IP_HEADER_LEN with (Z.of_nat (length hdr0)) by (rewrite Hh; done). apply net_prepend; rewrite Hh; lia. }
  rewrite (st_bind_run _ _ _ _ _ Ep). cbn [negb].
  rewrite (st_bind_run _ _ _ _ _ (net_load n p pre (hdr0 ++ w))). cbn [tot_len packet].
  replace (Z.of_nat (length (hdr0 ++ w))) with (20 + Z.of_nat (length w)) by (rewrite length_app, Hh; lia).
  rewrite (st_bind_run _ _ _ _ _ Hf). rewrite (lo_flag _ _ _ Hlo).
  assert (loopback (bump n) d dev) as Hlo' by (by destruct Hlo). rewrite (transmit_run (bump n) d dev p pre _ Hlo').
  rewrite length_app, header_length. do 6 f_equal. lia.
Qed.

(** ** The input checks *)

Definition lo_address (ip : Z) : Prop := Z.shiftr (ntohl ip) 24 = 127.

(** A packet with our header, for a loopback address: [ip_input] strips the header and
    hands the rest to [icmp_input] with the addresses of the header. *)
Lemma ip_input_run n d dev p pre w c id src dst_ : devs n !! d = Some dev → ip_initialized n = true → 0 ≤ id < 65536 →
  0 ≤ src < 2 ^ 32 → 0 ≤ dst_ < 2 ^ 32 → lo_address dst_ → Z.of_nat (length w) + 20 < 65536 →
  let h := header c (20 + Z.of_nat (length w)) id src dst_ IP_PROTO_ICMP IP_DEFAULT_TTL in
  checksum h 20 = Ret 0 →
  ip_input d p (net_pkt n p pre (h ++ w)) = icmp_input d p src dst_ (net_pkt n p (pre ++ h) w).
Proof.
  intros Hd Hi Hid Hs Ht Hlo Hl h Hc. unfold ip_input.
  assert (ip_assert (net_pkt n p pre (h ++ w)) = Ret (tt, net_pkt n p pre (h ++ w))) as Ea by (unfold ip_assert; cbn; by rewrite Hi).
  rewrite (st_bind_run _ _ _ _ _ Ea). rewrite (st_bind_run _ _ _ _ _ (net_load n p pre (h ++ w))). cbn [len tot_len packet].
  assert (Z.of_nat (length (h ++ w)) = 20 + Z.of_nat (length w)) as El by (rewrite length_app; unfold h; rewrite header_length; lia).
  assert (20 ≤ Z.of_nat (length (h ++ w))) as El2 by lia. rewrite El. unfold IP_HEADER_LEN.
  rewrite (proj2 (Z.ltb_ge _ 20)) by lia.
  rewrite (st_bind_run _ _ _ _ _ (net_rd8 n p pre (h ++ w) 0 0x45 eq_refl ltac:(lia) ltac:(lia))).
  change (negb (IP_HDR_VERSION 69 =? IP_VERSION)) with false. change (IP_HDR_HLEN 69) with 20. cbv iota zeta.
  change (20 <? 20) with false. rewrite (proj2 (Z.ltb_ge _ 20)) by lia. cbn [orb].
  rewrite (st_bind_run _ _ _ _ _ (checksum_run_of n p pre (h ++ w) 20 0 ltac:(lia) Hc)). cbn [Z.eqb negb].
  assert (0 ≤ 20 + Z.of_nat (length w) < 65536) as Htot by lia.
  assert (rd16 p 2 (net_pkt n p pre (h ++ w)) = Ret (htons (20 + Z.of_nat (length w)), net_pkt n p pre (h ++ w))) as E2.
  { apply (net_rd n p pre (h ++ w) 2 2); [reflexivity|by apply htons_bound|lia|lia]. }
  rewrite (st_bind_run _ _ _ _ _ E2). rewrite ntohs_htons by done. cbv zeta.
  rewrite (proj2 (Z.ltb_ge _ 20)), Z.ltb_irrefl by lia. cbn [orb]. rewrite (st_bind_run (mret tt) _ _ tt _ eq_refl).
  assert (rd32 p 16 (net_pkt n p pre (h ++ w)) = Ret (dst_, net_pkt n p pre (h ++ w))) as E3.
  { apply (net_rd n p pre (h ++ w) 16 4); [reflexivity|done|lia|lia]. }
  rewrite (st_bind_run _ _ _ _ _ E3).
  assert (ip_is_local dst_ (net_pkt n p pre (h ++ w)) = Ret (true, net_pkt n p pre (h ++ w))) as E4.
  { unfold ip_is_local. unfold lo_address in Hlo. by rewrite Hlo. }
  rewrite (st_bind_run _ _ _ _ _ E4). rewrite (st_bind_run _ _ _ _ _ (net_get_dev n p pre (h ++ w) d dev Hd)). cbn [negb andb].
  assert (rd16 p 6 (net_pkt n p pre (h ++ w)) = Ret (0, net_pkt n p pre (h ++ w))) as E5.
  { apply (net_rd n p pre (h ++ w) 6 2); [reflexivity|lia|lia|lia]. }
  rewrite (st_bind_run _ _ _ _ _ E5). change (negb (Z.land (ntohs 0) (Z.lor IP_FLAG_MF IP_FRAG_OFFSET) =? 0)) with false. cbv iota.
  assert (rd32 p 12 (net_pkt n p pre (h ++ w)) = Ret (src, net_pkt n p pre (h ++ w))) as E6.
  { apply (net_rd n p pre (h ++ w) 12 4); [reflexivity|done|lia|lia]. }
  rewrite (st_bind_run _ _ _ _ _ E6).
  rewrite (st_bind_run _ _ _ _ _ (net_rd8 n p pre (h ++ w) 9 IP_PROTO_ICMP eq_refl ltac:(lia) ltac:(lia))).
  assert (pb (pbuf_header p 20) (net_pkt n p pre (h ++ w)) = Ret (true, net_pkt n p (pre ++ h) w)) as E7.
  { change 20 with (Z.of_nat (length h)). apply net_strip; unfold h; rewrite header_length; lia. }
  rewrite (st_bind_run _ _ _ _ _ E7). done.
Qed.

(** ** ICMP echo *)

(** An ICMP message of code 0: type, checksum and what follows. *)
Definition message (type c : Z) (rest : list Z) : list Z := (le_bytes 1 type ++ le_bytes 1 0) ++ le_bytes 2 c ++ rest.
Definition echo_rest (id seq : Z) (payload : list Z) : list Z := le_bytes 2 (htons id) ++ le_bytes 2 (htons seq) ++ payload.

Lemma message_length type c rest : length (message type c rest) = (4 + length rest)%nat.
Proof. done. Qed.

Lemma echo_rest_ok id seq payload : Forall is_byte payload → Forall is_byte (echo_rest id seq payload).
Proof. intros H. unfold echo_rest. rewrite !Forall_app. repeat split; [apply le_bytes_ok..|done]. Qed.

Lemma message_checksum type rest : Forall is_byte rest → Z.of_nat (length rest) ≤ 65536 →
  ∃ c, checksum (message type 0 rest) (length (message type 0 rest)) = Ret c ∧
       checksum (message type c rest) (length (message type c rest)) = Ret 0.
Proof.
  intros Hr Hl. destruct (checksum_stored (le_bytes 1 type ++ le_bytes 1 0) rest) as (c & E & _ & Hb & Hlp & Hnz & Hm).
  - rewrite Forall_app. split; apply le_bytes_ok.
  - done.
  - by exists 1%nat.
  - change (length (le_bytes 1 type ++ le_bytes 1 0)) with 2%nat. lia.
  - exists c. split; [exact E|]. by apply (checksum_valid (message type c rest)).
Qed.

(** The whole packet. *)
Lemma checksum_all n p pre w c : checksum w (length w) = Ret c →
  checksum_of p (Z.of_nat (length w)) (net_pkt n p pre w) = Ret (c, net_pkt n p pre w).
Proof. intros E. apply checksum_run_of; [lia|]. rewrite Nat2Z.id, slice_full; done. Qed.

(** An echo request becomes the reply, to the sender. *)
Lemma echo_input n d p pre c rest src dst_ : icmp_initialized n = true → Forall is_byte rest → 4 ≤ Z.of_nat (length rest) ≤ 65536 →
  checksum (message 8 c rest) (length (message 8 c rest)) = Ret 0 →
  ∃ c', checksum (message 0 c' rest) (length (message 0 c' rest)) = Ret 0 ∧
    icmp_input d p src dst_ (net_pkt n p pre (message 8 c rest)) =
    (ip_output (Some d) p dst_ src IP_PROTO_ICMP 0;; mret tt) (net_pkt n p pre (message 0 c' rest)).
Proof.
  intros Hi Hr Hl Hc. destruct (message_checksum 0 rest Hr ltac:(lia)) as (c' & E1 & E2). exists c'. split; [done|]. unfold icmp_input.
  assert (icmp_assert (net_pkt n p pre (message 8 c rest)) = Ret (tt, net_pkt n p pre (message 8 c rest))) as Ea by (unfold icmp_assert; cbn; by rewrite Hi).
  rewrite (st_bind_run _ _ _ _ _ Ea). rewrite (st_bind_run _ _ _ _ _ (net_load n p pre (message 8 c rest))). cbn [len packet].
  pose proof (message_length 8 c rest) as Hml. unfold ICMP_HEADER_LEN. rewrite (proj2 (Z.ltb_ge _ 8)) by lia.
  rewrite (st_bind_run _ _ _ _ _ (checksum_all n p pre (message 8 c rest) 0 Hc)). cbn [Z.eqb negb].
  rewrite (st_bind_run _ _ _ _ _ (net_rd8 n p pre (message 8 c rest) 0 8 eq_refl ltac:(lia) ltac:(lia))). cbn [Z.eqb ICMP_TYPE_ECHO_REQUEST Pos.eqb].
  replace (Z.of_nat (length (message 8 c rest))) with (Z.of_nat (length (message 0 0 rest))) by (by rewrite !message_length).
  unfold message at 2. change (le_bytes 1 8) with [8 mod 256]. change (le_bytes 1 0) with [0 mod 256]. change (le_bytes 2 c) with [c mod 256; (c / 256) mod 256].
  cbn [app]. unfold wr8, wr16. do 3 poke_step.
  assert (checksum_of p (Z.of_nat (length (message 0 0 rest))) (net_pkt n p pre (message 0 0 rest)) = Ret (c', net_pkt n p pre (message 0 0 rest))) as E3
    by (by apply checksum_all).
  change (ICMP_TYPE_ECHO_REPLY mod 256 :: 0 mod 256 :: 0 mod 256 :: (0 / 256) mod 256 :: rest) with (message 0 0 rest).
  rewrite (st_bind_run _ _ _ _ _ E3). change (message 0 0 rest) with (0 mod 256 :: 0 mod 256 :: 0 mod 256 :: (0 / 256) mod 256 :: rest). poke_step.
  reflexivity.
Qed.

(** An echo reply is freed. *)
Lemma reply_input n d p pre c rest src dst_ : icmp_initialized n = true → pbufs (pbs n) !! p = None → 4 ≤ Z.of_nat (length rest) →
  checksum (message 0 c rest) (length (message 0 c rest)) = Ret 0 →
  icmp_input d p src dst_ (net_pkt n p pre (message 0 c rest)) = Ret (tt, n).
Proof.
  intros Hi Hp Hl Hc. unfold icmp_input.
  assert (icmp_assert (net_pkt n p pre (message 0 c rest)) = Ret (tt, net_pkt n p pre (message 0 c rest))) as Ea by (unfold icmp_assert; cbn; by rewrite Hi).
  rewrite (st_bind_run _ _ _ _ _ Ea). rewrite (st_bind_run _ _ _ _ _ (net_load n p pre (message 0 c rest))). cbn [len packet].
  pose proof (message_length 0 c rest) as Hml. unfold ICMP_HEADER_LEN. rewrite (proj2 (Z.ltb_ge _ 8)) by lia.
  rewrite (st_bind_run _ _ _ _ _ (checksum_all n p pre (message 0 c rest) 0 Hc)). cbn [Z.eqb negb].
  rewrite (st_bind_run _ _ _ _ _ (net_rd8 n p pre (message 0 c rest) 0 0 eq_refl ltac:(lia) ltac:(lia))).
  cbn [Z.eqb ICMP_TYPE_ECHO_REQUEST]. by apply net_free.
Qed.

(** A fresh packet of [k] bytes for the IP layer. *)
Definition bump_block (n : net) : net :=
  set_pbs n (mk_pstore (pbufs (pbs n)) (S (next_block (pbs n))) (mallocs (pbs n)) (garbage (pbs n))).

Lemma alloc_run n k : mallocs (pbs n) = [] → 0 ≤ k < 65536 →
  ∃ pre hdr0 w, length pre = 14%nat ∧ length hdr0 = 20%nat ∧ Z.of_nat (length w) = k ∧
    pb (pbuf_alloc PBUF_IP k PBUF_RAM) n = Ret (Some (next_block (pbs n)), net_pkt (bump_block n) (next_block (pbs n)) (pre ++ hdr0) w).
Proof.
  intros Hm Hk. set (g := garbage (pbs n) (next_block (pbs n))).
  exists (g <$> seq 0 14), (g <$> seq 14 20), (g <$> seq 34 (Z.to_nat k)). rewrite !length_fmap, !length_seq.
  split; [done|]. split; [done|]. split; [lia|].
  assert (g <$> seq 0 (Z.to_nat (34 + k)) = ((g <$> seq 0 14) ++ (g <$> seq 14 20)) ++ (g <$> seq 34 (Z.to_nat k))) as Eg.
  { replace (Z.to_nat (34 + k)) with (14 + (20 + Z.to_nat k))%nat by lia. rewrite !seq_app, !fmap_app, <- app_assoc. done. }
  assert (packet ((g <$> seq 0 14) ++ (g <$> seq 14 20)) (g <$> seq 34 (Z.to_nat k)) =
          mk_pbuf None (g <$> seq 0 (Z.to_nat (34 + k))) (Some 34) k k PBUF_RAM 1) as Ep.
  { unfold packet. rewrite <- Eg, length_app, !length_fmap, !length_seq. f_equal; lia. }
  unfold net_pkt, pkt. rewrite Ep. unfold pb, pbuf_alloc. rewrite wrap_small by lia.
  rewrite (st_bind_run _ _ (pbs n) tt (pbs n) eq_refl). rewrite (st_bind_run malloc_ok _ (pbs n) true (pbs n)) by (unfold malloc_ok; by rewrite Hm).
  reflexivity.
Qed.

(** An echo request as [icmp_echo_request] builds it and sends it to the loopback device. *)
Lemma echo_request_run n d dev dst_ id sq payload : loopback n d dev → ip_initialized n = true → icmp_initialized n = true →
  Forall is_byte payload → Z.of_nat (length payload) + 28 < 65536 →
  let p := next_block (pbs n) in
  let w c := message 8 c (echo_rest id sq payload) in
  let k := 28 + Z.of_nat (length payload) in
  ∃ pre c ch, length pre = 14%nat ∧
    let h := header ch k (ip_id_counter n) (ip_addr dev) dst_ IP_PROTO_ICMP IP_DEFAULT_TTL in
    checksum (w c) (length (w c)) = Ret 0 ∧ checksum h 20 = Ret 0 ∧
    icmp_echo_request (Some d) dst_ id sq (Some payload) (Z.of_nat (length payload)) n =
      Ret (0, net_pkt (put_dev (bump (bump_block n)) d (sent dev p k)) p pre (h ++ w c)).
Proof.
  intros Hlo Hi Hic Hb Hl p w k.
  destruct (alloc_run n (8 + Z.of_nat (length payload)) (lo_mem _ _ _ Hlo) ltac:(lia)) as (pre & hdr0 & w0 & Hpre & Hhdr & Hw0 & Eal).
  destruct (message_checksum 8 (echo_rest id sq payload) (echo_rest_ok _ _ _ Hb)) as (c & E1 & E2).
  { unfold echo_rest. rewrite !length_app, !length_le_bytes. lia. }
  assert (Z.of_nat (length (w c)) = 8 + Z.of_nat (length payload)) as Hwl.
  { unfold w, echo_rest. rewrite message_length, !length_app, !length_le_bytes. lia. }
  assert (loopback (bump_block n) d dev) as Hlo' by (destruct Hlo; by constructor).
  destruct (output_run (bump_block n) d dev p pre hdr0 (w c) 0 dst_ IP_PROTO_ICMP Hlo' Hi Hhdr ltac:(lia)) as (ch & Hch & Eo).
  cbv zeta in Hch, Eo. change (0 =? 0) with true in *. cbv iota in *.
  replace (20 + Z.of_nat (length (w c))) with k in * by (rewrite Hwl; unfold k; lia).
  exists pre, c, ch. split; [done|]. cbv zeta. split; [done|]. split; [done|].
  unfold icmp_echo_request.
  assert (icmp_assert n = Ret (tt, n)) as Ea by (unfold icmp_assert; cbn; by rewrite Hic).
  rewrite (st_bind_run _ _ _ _ _ Ea). change ICMP_HEADER_LEN with 8. rewrite (st_bind_run _ _ _ _ _ Eal).
  assert (length w0 = 8 + length payload)%nat as Hw0' by lia. fold p. set (n0 := bump_block n) in *.
  assert (∃ a0 a1 a2 a3 a4 a5 a6 a7 r, w0 = a0 :: a1 :: a2 :: a3 :: a4 :: a5 :: a6 :: a7 :: r ∧ length r = length payload) as
    (a0 & a1 & a2 & a3 & a4 & a5 & a6 & a7 & r & -> & Hr).
  { do 8 (destruct w0 as [|? w0]; [discriminate Hw0'|]). repeat eexists. cbn [length] in Hw0'. lia. }
  unfold wr8, wr16. do 5 poke_step. unfold icmp_data.
  match goal with |- (_ ≫= _) (net_pkt _ _ _ ?x) = _ => set (w1 := x) end.
  assert ((if 0 <? Z.of_nat (length payload) then l ← lift (memcpy_from payload 0 (Z.to_nat (Z.of_nat (length payload)))); pb (poke p ICMP_HEADER_LEN l) else mret tt)
            (net_pkt n0 p (pre ++ hdr0) w1) = Ret (tt, net_pkt n0 p (pre ++ hdr0) (w 0))) as Ed.
  { destruct (Z.ltb_spec 0 (Z.of_nat (length payload))) as [Hpos|Hz].
    - unfold mbind, st_bind, lift. rewrite Nat2Z.id. rewrite (proj2 (memcpy_from_Ret payload 0 (length payload) payload)).
      2: { split; [lia|]. by rewrite slice_full. }
      cbn [mbind outcome_bind]. rewrite net_poke; [|unfold ICMP_HEADER_LEN; lia|unfold ICMP_HEADER_LEN, w1; cbn [length]; lia].
      do 2 f_equal. change (Z.to_nat ICMP_HEADER_LEN) with 8%nat. unfold splice. rewrite (drop_ge w1) by (unfold w1; cbn [length]; lia).
      rewrite app_nil_r. reflexivity.
    - assert (payload = []) as -> by (destruct payload; [done|cbn in Hz; lia]). destruct r; [|discriminate Hr]. reflexivity. }
  rewrite (st_bind_run _ _ _ _ _ Ed). rewrite (st_bind_run _ _ _ _ _ (net_load n0 p (pre ++ hdr0) (w 0))). cbn [len packet].
  rewrite (st_bind_run _ _ _ _ _ (checksum_all n0 p (pre ++ hdr0) (w 0) c E1)).
  unfold w at 1, message. change (le_bytes 1 8) with [8 mod 256]. change (le_bytes 1 0) with [0 mod 256].
  change (le_bytes 2 0) with [0 mod 256; (0 / 256) mod 256]. cbn [app]. poke_step. exact Eo.
Qed.

(** ** Turns of the input thread *)

Lemma receive_run n d dev p q pre w : devs n !! d = Some dev → rx_queue dev = p :: q →
  netdev_receive d (net_pkt n p pre w) = Ret (Some p, net_pkt (put_dev n d (with_rx_queue dev q)) p pre w).
Proof.
  intros Hd Hq. unfold netdev_receive. rewrite (st_bind_run _ _ _ _ _ (net_get_dev n p pre w d dev Hd)), Hq. done.
Qed.

Lemma turn_run n d dev p q pre w r n' : devs n !! d = Some dev → rx_queue dev = p :: q →
  ip_input d p (net_pkt (put_dev n d (with_rx_queue dev q)) p pre w) = Ret (r, n') →
  net_input_turn (Some d) None (net_pkt n p pre w) = Ret (true, n').
Proof.
  intros Hd Hq Hin. unfold net_input_turn. rewrite (st_bind_run (mret tt) _ _ tt _ eq_refl).
  rewrite (st_bind_run _ _ _ _ _ (receive_run n d dev p q pre w Hd Hq)). by rewrite (st_bind_run _ _ _ _ _ Hin).
Qed.

Lemma loopback_put n d dev dev' : loopback n d dev → ops dev' = ops dev → flags dev' = flags dev → loopback (put_dev n d dev') d dev'.
Proof. intros [Hd Ho Hu Hf Hm] Eo Ef. constructor; [by apply (put_dev_get n d dev)|by rewrite Eo|by rewrite Ef|by rewrite Ef|done]. Qed.

(** The packet of an echo: its addresses, type and checksums. *)
Definition echo_packet (ch c id src dst_ type : Z) (rest : list Z) : list Z :=
  header ch (20 + Z.of_nat (length (message type c rest))) id src dst_ IP_PROTO_ICMP IP_DEFAULT_TTL ++ message type c rest.
Definition echo_valid (ch c id src dst_ type : Z) (rest : list Z) : Prop :=
  checksum (header ch (20 + Z.of_nat (length (message type c rest))) id src dst_ IP_PROTO_ICMP IP_DEFAULT_TTL) 20 = Ret 0 ∧
  checksum (message type c rest) (length (message type c rest)) = Ret 0.

Lemma turn_echo n d dev p pre ch c id src dst_ rest : loopback n d dev → rx_queue dev = [p] →
  ip_initialized n = true → icmp_initialized n = true → 0 ≤ id < 65536 →
  0 ≤ src < 2 ^ 32 → 0 ≤ dst_ < 2 ^ 32 → dst_ ≠ 0 → lo_address dst_ → Forall is_byte rest → 4 ≤ Z.of_nat (length rest) → Z.of_nat (length rest) + 24 < 65536 →
  echo_valid ch c id src dst_ 8 rest →
  ∃ ch' c' dev', echo_valid ch' c' (ip_id_counter n) dst_ src 0 rest ∧ ops dev' = ops dev ∧ flags dev' = flags dev ∧ rx_queue dev' = [p] ∧
    net_input_turn (Some d) None (net_pkt n p pre (echo_packet ch c id src dst_ 8 rest)) =
      Ret (true, net_pkt (put_dev (bump n) d dev') p pre (echo_packet ch' c' (ip_id_counter n) dst_ src 0 rest)).
Proof.
  intros Hlo Hq Hi Hic Hid Hs Ht Hnz Hl Hb Hr1 Hr2 [Hv1 Hv2]. pose proof (lo_dev _ _ _ Hlo) as Hd.
  set (n1 := put_dev n d (with_rx_queue dev [])). set (dev1 := with_rx_queue dev []).
  assert (loopback n1 d dev1) as Hlo1 by (by apply (loopback_put n d dev)).
  pose proof (message_length 8 c rest) as Hml.
  destruct (echo_input n1 d p (pre ++ header ch (20 + Z.of_nat (length (message 8 c rest))) id src dst_ IP_PROTO_ICMP IP_DEFAULT_TTL) c rest src dst_ Hic Hb ltac:(lia) Hv2)
    as (c' & Hc' & Ee).
  pose proof (message_length 0 c' rest) as Hml'.
  destruct (output_run n1 d dev1 p pre (header ch (20 + Z.of_nat (length (message 8 c rest))) id src dst_ IP_PROTO_ICMP IP_DEFAULT_TTL) (message 0 c' rest) dst_ src IP_PROTO_ICMP
    Hlo1 Hi (header_length _ _ _ _ _ _ _) ltac:(lia)) as (ch' & Hch' & Eo). cbv zeta in Hch', Eo.
  rewrite (proj2 (Z.eqb_neq dst_ 0) Hnz) in Hch', Eo.
  exists ch', c', (sent dev1 p (20 + Z.of_nat (length (message 0 c' rest)))).
  split; [split; [exact Hch'|exact Hc']|]. split; [done|]. split; [done|]. split; [done|].
  apply (turn_run n d dev p [] pre _ tt); [done|done|]. unfold echo_packet. change (put_dev n d (with_rx_queue dev [])) with n1.
  rewrite (ip_input_run n1 d dev1 p pre (message 8 c rest) ch id src dst_ (lo_dev _ _ _ Hlo1) Hi Hid Hs Ht Hl ltac:(lia) Hv1).
  rewrite Ee, (st_bind_run _ _ _ _ _ Eo). unfold mret, st_ret. do 3 f_equal.
  unfold n1. change (bump (put_dev n d (with_rx_queue dev []))) with (put_dev (bump n) d (with_rx_queue dev [])). by rewrite put_dev_twice.
Qed.

Lemma turn_reply n d dev p pre ch c id src dst_ rest : loopback n d dev → rx_queue dev = [p] →
  ip_initialized n = true → icmp_initialized n = true → 0 ≤ id < 65536 → pbufs (pbs n) !! p = None →
  0 ≤ src < 2 ^ 32 → 0 ≤ dst_ < 2 ^ 32 → lo_address dst_ → 4 ≤ Z.of_nat (length rest) → Z.of_nat (length rest) + 24 < 65536 →
  echo_valid ch c id src dst_ 0 rest →
  net_input_turn (Some d) None (net_pkt n p pre (echo_packet ch c id src dst_ 0 rest)) = Ret (true, put_dev n d (with_rx_queue dev [])).
Proof.
  intros Hlo Hq Hi Hic Hid Hp Hs Ht Hl Hr1 Hr2 [Hv1 Hv2]. pose proof (lo_dev _ _ _ Hlo) as Hd.
  pose proof (message_length 0 c rest) as Hml.
  apply (turn_run n d dev p [] pre _ tt); [done|done|]. unfold echo_packet.
  rewrite (ip_input_run (put_dev n d (with_rx_queue dev [])) d (with_rx_queue dev []) p pre (message 0 c rest) ch id src dst_
             (put_dev_get n d dev _ Hd) Hi Hid Hs Ht Hl ltac:(lia) Hv1).
  apply reply_input; [done|done|lia|done].
Qed.

Lemma turn_idle n d dev : devs n !! d = Some dev → rx_queue dev = [] → net_input_turn (Some d) None n = Ret (false, n).
Proof.
  intros Hd Hq. unfold net_input_turn. rewrite (st_bind_run (mret tt) _ _ tt _ eq_refl).
  rewrite (st_bind_run (netdev_receive d) _ n None n); [done|].
  unfold netdev_receive. rewrite (st_bind_run (get_dev d) _ n dev n) by (unfold get_dev; by rewrite Hd). by rewrite Hq.
Qed.

(** ** The claim *)

(** The bytes of a packet. *)
Definition packet_bytes (n : net) (p : nat) : option (list Z) := window <$> pbufs (pbs n) !! p.

Lemma packet_bytes_pkt n p pre w : packet_bytes (net_pkt n p pre w) p = Some w.
Proof.
  unfold packet_bytes. cbn [pbs net_pkt set_pbs]. rewrite pkt_lookup. cbn [fmap option_fmap option_map]. f_equal.
  unfold window. cbn [payload packet data len]. rewrite !Nat2Z.id, slice_app_r, Nat.sub_diag by lia. by apply slice_full.
Qed.

(** C21. An echo request on the loopback device is answered and leaves nothing behind.
    [icmp_echo_request] queues one packet with the request: valid IP and ICMP checksums, our
    address as source, the identifier, sequence number and data given.  The first turn of the
    input thread accepts it and queues, in the same buffer, the reply: addresses exchanged,
    type 0, the same identifier, number and data, valid checksums.  The second accepts and
    frees the reply, so that the packet buffers are as before; the third finds nothing. *)
Theorem ping_loopback n d dev dst_ id sq payload :
  loopback n d dev → ip_initialized n = true → icmp_initialized n = true → rx_queue dev = [] →
  lo_address (ip_addr dev) → 0 ≤ ip_addr dev < 2 ^ 32 → lo_address dst_ → 0 < dst_ < 2 ^ 32 → 0 ≤ ip_id_counter n < 65536 →
  Forall is_byte payload → Z.of_nat (length payload) + 28 < 65536 → pbufs (pbs n) !! next_block (pbs n) = None →
  let p := next_block (pbs n) in let rest := echo_rest id sq payload in
  ∃ n1 n2 n3 ch c ch' c' i',
    icmp_echo_request (Some d) dst_ id sq (Some payload) (Z.of_nat (length payload)) n = Ret (0, n1) ∧
    packet_bytes n1 p = Some (echo_packet ch c (ip_id_counter n) (ip_addr dev) dst_ 8 rest) ∧ echo_valid ch c (ip_id_counter n) (ip_addr dev) dst_ 8 rest ∧
    net_input_turn (Some d) None n1 = Ret (true, n2) ∧
    packet_bytes n2 p = Some (echo_packet ch' c' i' dst_ (ip_addr dev) 0 rest) ∧ echo_valid ch' c' i' dst_ (ip_addr dev) 0 rest ∧
    net_input_turn (Some d) None n2 = Ret (true, n3) ∧
    pbufs (pbs n3) = pbufs (pbs n) ∧ net_input_turn (Some d) None n3 = Ret (false, n3).
Proof.
  intros Hlo Hi Hic Hq Hla Ha Hld Hdst Hid Hb Hl Hp p rest.
  assert (Z.of_nat (length rest) = 4 + Z.of_nat (length payload)) as Hr by (unfold rest, echo_rest; rewrite !length_app, !length_le_bytes; lia).
  assert (Forall is_byte rest) as Hbr by (by apply echo_rest_ok).
  destruct (echo_request_run n d dev dst_ id sq payload Hlo Hi Hic Hb Hl) as (pre & c & ch & Hpre & Hc & Hch & E1). cbv zeta in *. fold rest p in Hc, E1.
  assert (20 + Z.of_nat (length (message 8 c rest)) = 28 + Z.of_nat (length payload)) as Hk by (rewrite message_length; lia).
  rewrite <- Hk in Hch, E1. fold (echo_packet ch c (ip_id_counter n) (ip_addr dev) dst_ 8 rest) in E1.
  set (dev1 := sent dev p (20 + Z.of_nat (length (message 8 c rest)))) in *. set (n0 := put_dev (bump (bump_block n)) d dev1) in *.
  assert (loopback n0 d dev1) as Hlo1 by (apply (loopback_put (bump (bump_block n)) d dev); [by destruct Hlo|done|done]).
  assert (rx_queue dev1 = [p]) as Hq1 by (unfold dev1; cbn; by rewrite Hq).
  assert (0 ≤ ip_id_counter n0 < 65536) as Hid0 by (apply (wrap_bound 16); lia).
  destruct (turn_echo n0 d dev1 p pre ch c (ip_id_counter n) (ip_addr dev) dst_ rest Hlo1 Hq1 Hi Hic Hid Ha ltac:(lia) ltac:(lia) Hld Hbr ltac:(lia) ltac:(lia) (conj Hch Hc))
    as (ch' & c' & dev' & Hv' & Ho' & Hf' & Hq' & E2).
  assert (loopback (put_dev (bump n0) d dev') d dev') as Hlo2 by (apply (loopback_put (bump n0) d dev1); [by destruct Hlo1|done|done]).
  pose proof (turn_reply (put_dev (bump n0) d dev') d dev' p pre ch' c' (ip_id_counter n0) dst_ (ip_addr dev) rest Hlo2 Hq' Hi Hic Hid0 Hp
    ltac:(lia) Ha Hla ltac:(lia) ltac:(lia) Hv') as E3.
  exists (net_pkt n0 p pre (echo_packet ch c (ip_id_counter n) (ip_addr dev) dst_ 8 rest)),
    (net_pkt (put_dev (bump n0) d dev') p pre (echo_packet ch' c' (ip_id_counter n0) dst_ (ip_addr dev) 0 rest)),
    (put_dev (put_dev (bump n0) d dev') d (with_rx_queue dev' [])), ch, c, ch', c', (ip_id_counter n0).
  rewrite !packet_bytes_pkt. repeat (split; [first [exact E1|exact E2|exact E3|reflexivity|exact Hv'|exact (conj Hch Hc)]|]).
  apply (turn_idle _ d (with_rx_queue dev' [])); [|done]. apply (put_dev_get _ d dev'). exact (lo_dev _ _ _ Hlo2).
Qed.

(** The stack after boot. *)
Definition booted : net := match net_init cold_net with Ret (_, n) => n | _ => cold_net end.

Lemma ping_loopback_witness : ∃ n1 n2 n3, 
  icmp_echo_request (Some 0%nat) LOOPBACK_IP 1234 1 (Some [112; 105; 110; 103]) 4 booted = Ret (0, n1) ∧
  net_input_turn (Some 0%nat) None n1 = Ret (true, n2) ∧ net_input_turn (Some 0%nat) None n2 = Ret (true, n3) ∧
  pbufs (pbs n3) = ∅ ∧ net_input_turn (Some 0%nat) None n3 = Ret (false, n3).
Proof.
  assert (devs booted = [mk_netdev [108; 111; 0; 0; 0; 0; 0; 0] (replicate 6 0) LOOPBACK_IP LOOPBACK_MASK 0 1500 5 loopback_ops [] 0 0 0 0 0 0 0 0]) as Ed
    by (vm_compute; reflexivity).
  set (dev := mk_netdev [108; 111; 0; 0; 0; 0; 0; 0] (replicate 6 0) LOOPBACK_IP LOOPBACK_MASK 0 1500 5 loopback_ops [] 0 0 0 0 0 0 0 0) in *.
  assert (pbs booted = pbs cold_net) as Ep by (vm_compute; reflexivity).
  destruct (ping_loopback booted 0 dev LOOPBACK_IP 1234 1 [112; 105; 110; 103]) as (n1 & n2 & n3 & ch & c & ch' & c' & i' & E1 & _ & _ & E2 & _ & _ & E3 & Epb & E4).
  - constructor; [by rewrite Ed|reflexivity|reflexivity|reflexivity|by rewrite Ep].
  - vm_compute. reflexivity.
  - vm_compute. reflexivity.
  - reflexivity.
  - vm_compute. reflexivity.
  - vm_compute. split; discriminate || reflexivity.
  - vm_compute. reflexivity.
  - vm_compute. split; reflexivity.
  - vm_compute. split; discriminate || reflexivity.
  - repeat (apply list.Forall_cons; split; [unfold is_byte; lia|]). apply list.Forall_nil. exact I.
  - cbn. lia.
  - rewrite Ep. reflexivity.
  - exists n1, n2, n3. rewrite Ep in Epb. repeat (split; [assumption|]). exact E4.
Defined.

End IpProofs.
