(* ===== verification/Udp.v ===== *)
(** * UDP: [net/transport/udp.c]

    Protocol control blocks are named by their block on the heap.  [ip_input] frees UDP
    packets without calling [udp_input], so nothing of this file is reached from the layer
    below; the functions are modelled as they stand. *)

From stdpp Require Import base tactics numbers list list_numbers option gmap.
From S2P Require Import Prelude Checksum State Pbuf Netdev Arp Route Ip IpProofs.

Open Scope Z_scope.

Module Udp.
Import Checksum Pbuf Netdev Arp Route Ip IpProofs.

Definition UDP_HEADER_LEN : Z := 8.
Definition UDP_RECV_QUEUE_MAX : Z := 16.

Definition pcb (c : nat) : N udp_pcb := λ n, match udp_pcbs n !! c with Some x => Ret (x, n) | None => UB end.
Definition set_pcb (c : nat) (x : udp_pcb) : N unit := λ n, Ret (tt, set_udp_pcbs n (<[c := x]> (udp_pcbs n))).
Definition with_queue (x : udp_pcb) (q : list (nat * Z * Z)) (sem : Z) : udp_pcb :=
  mk_udp_pcb (local_ip x) (local_port x) (remote_ip x) (remote_port x) q sem (bound x).

Definition udp_init : N unit := λ n, Ret (tt, set_udp_pcb_list n []).

(** The control block bound to the port, the first of the list. *)
Definition bound_to (port : Z) : N (option nat) := λ n,
  Ret (snd <$> list_find (λ c, match udp_pcbs n !! c with Some x => bound x && (local_port x =? port) | None => false end = true) (udp_pcb_list n), n).

(** The sum over the pseudo header and [total] bytes from the payload. *)
Definition udp_checksum (p : nat) (src dst_ total n : Z) : N Z :=
  d ← pb (peek p 0 n);
  lift (sum ← checksum_partial (Z.to_nat n) d (checksum_pseudo_header src dst_ IP_PROTO_UDP total); checksum_finish sum).

Definition udp_input (p : nat) (src dst_ : Z) : N unit :=
  b ← pb (load p);
  if len b <? UDP_HEADER_LEN then free p else
  src_port ← rd16 p 0;
  dst_port ← rd16 p 2;
  cksum ← rd16 p 6;
  ok ← (if negb (cksum =? 0) then
          total ← rd16 p 4;
          c ← udp_checksum p src dst_ (ntohs total) (ntohs total);
          mret (c =? 0)
        else mret true);
  if negb ok then free p else
  found ← bound_to (ntohs dst_port);
  match found with
  | None => free p
  | Some c =>
      x ← pcb c;
      if UDP_RECV_QUEUE_MAX <=? Z.of_nat (length (recv_queue x)) then free p else
      pb (pbuf_header p UDP_HEADER_LEN);;
      ok ← pb malloc_ok;
      if negb ok then free p else
      set_pcb c (with_queue x (recv_queue x ++ [(p, src, ntohs src_port)]) (recv_sem x + 1))
  end.

(** The header, the checksum over the datagram, and 0xFFFF for a checksum of 0. *)
Definition udp_fill (p : nat) (src_ip src_port dst_ dst_port total : Z) : N unit :=
  wr16 p 0 (htons src_port);;
  wr16 p 2 (htons dst_port);;
  wr16 p 4 (htons total);;
  wr16 p 6 0;;
  b ← pb (load p);
  c ← udp_checksum p src_ip dst_ total (len b);
  wr16 p 6 (if c =? 0 then 0xFFFF else c).

Definition udp_output (c : option nat) (p : nat) (dst_ dst_port : Z) : N Z :=
  '(src_port, src_ip) ← (match c with Some c => x ← pcb c; mret (local_port x, local_ip x) | None => mret (0, 0) end);
  b ← pb (load p);
  let total := u16 (UDP_HEADER_LEN + len b) in
  ok ← pb (pbuf_header p (- UDP_HEADER_LEN));
  if negb ok then free p;; mret (-1) else
  udp_fill p src_ip src_port dst_ dst_port total;;
  ip_output None p src_ip dst_ IP_PROTO_UDP 0.

Definition udp_new : N (option nat) :=
  ok ← pb malloc_ok;
  if negb ok then mret None else
  n ← get;
  let c := next_block (pbs n) in
  put (set_udp_pcb_list (set_udp_pcbs (set_pbs n (mk_pstore (pbufs (pbs n)) (S c) (mallocs (pbs n)) (garbage (pbs n))))
         (<[c := mk_udp_pcb 0 0 0 0 [] 0 false]> (udp_pcbs n))) (udp_pcb_list n ++ [c]));;
  mret (Some c).

Fixpoint free_queue (q : list (nat * Z * Z)) : N unit :=
  match q with
  | [] => mret tt
  | (p, _, _) :: q => free p;; free_queue q
  end.

Definition udp_free (c : option nat) : N unit :=
  match c with
  | None => mret tt
  | Some c =>
      x ← pcb c;
      n ← get;
      put (set_udp_pcb_list n (filter (λ c', c' ≠ c) (udp_pcb_list n)));;
      free_queue (recv_queue x);;
      n ← get; put (set_udp_pcbs n (delete c (udp_pcbs n)))
  end.

Definition udp_bind (c : option nat) (ip port : Z) : N Z :=
  match c with
  | None => mret (-1)
  | Some c =>
      x ← pcb c;
      if bound x then mret (-1) else
      port ← (if port =? 0 then
                λ n, let port := udp_next_port n in let next := u16 (port + 1) in
                  Ret (Some port, set_udp_next_port n (if next =? 0 then 49152 else next))
              else found ← bound_to port; mret (match found with Some _ => None | None => Some port end));
      match port with
      | None => mret (-1)
      | Some port => set_pcb c (mk_udp_pcb ip port (remote_ip x) (remote_port x) (recv_queue x) (recv_sem x) true);; mret 0
      end
  end.

Definition udp_connect (c : option nat) (ip port : Z) : N Z :=
  match c with
  | None => mret (-1)
  | Some c =>
      x ← pcb c;
      set_pcb c (mk_udp_pcb (local_ip x) (local_port x) ip port (recv_queue x) (recv_sem x) (bound x));; mret 0
  end.

(** The bytes copied to the buffer, the source address and port; [sema_down] sleeps while the
    queue is empty. *)
Definition udp_recv (c : option nat) (size : Z) : N (option (list Z * Z * Z)) :=
  match c with
  | None => mret None
  | Some c =>
      x ← pcb c;
      if recv_sem x =? 0 then lift Blocked else
      match recv_queue x with
      | [] => lift UB
      | (p, src, port) :: q =>
          set_pcb c (with_queue x q (recv_sem x - 1));;
          b ← pb (load p);
          d ← pb (peek p 0 (Z.min (len b) size));
          free p;;
          mret (Some (d, src, port))
      end
  end.

(** ** The checksum *)

Definition pseudo (src dst_ total : Z) : Z := checksum_pseudo_header src dst_ IP_PROTO_UDP total.

Lemma pseudo_bound src dst_ total : 0 ≤ total < 65536 → 0 < pseudo src dst_ total < 2 ^ 19.
Proof.
  intros Ht. unfold pseudo, checksum_pseudo_header. rewrite !land_ffff. unfold IP_PROTO_UDP.
  pose proof (Z.mod_pos_bound (Z.shiftr (ntohl src) 16) 65536 ltac:(lia)). pose proof (Z.mod_pos_bound (ntohl src) 65536 ltac:(lia)).
  pose proof (Z.mod_pos_bound (Z.shiftr (ntohl dst_) 16) 65536 ltac:(lia)). pose proof (Z.mod_pos_bound (ntohl dst_) 65536 ltac:(lia)). lia.
Qed.

(** The checksum over a whole datagram, from any sum of the pseudo header. *)
Lemma sum_run n p pre w s : Forall is_byte w → Z.of_nat (length w) ≤ 65536 → 0 < s < 2 ^ 19 →
  ∃ c, (d ← pb (peek p 0 (Z.of_nat (length w)));
        lift (sum ← checksum_partial (Z.to_nat (Z.of_nat (length w))) d s; checksum_finish sum)) (net_pkt n p pre w)
         = Ret (htons c, net_pkt n p pre w) ∧ 0 ≤ c < 65536 ∧
    (c + (s + words w)) mod 65535 = 0 ∧ (c = 0 ↔ (s + words w) mod 65535 = 0).
Proof.
  intros Hw Hl Hp. pose proof (words_bound w Hw) as Hb.
  destruct (finish_run (s + words w) ltac:(lia)) as (c & E & Hc & Hm & _ & Hz).
  exists c. split; [|split; [done|split; [done|]]].
  - rewrite (st_bind_run _ _ _ _ _ (net_peek n p pre w 0 (Z.of_nat (length w)) ltac:(lia) ltac:(lia) ltac:(lia))).
    change (Z.to_nat 0) with 0%nat. rewrite Nat2Z.id, slice_full by done. unfold lift.
    pose proof (checksum_partial_run w [] s Hw ltac:(lia) ltac:(lia)) as Er. rewrite app_nil_r in Er.
    rewrite Er. cbn [mbind outcome_bind]. by rewrite E.
  - rewrite Hz. split; [tauto|]. intros H0. split; [lia|done].
Qed.

Lemma udp_checksum_run n p pre w src dst_ total : Forall is_byte w → Z.of_nat (length w) ≤ 65536 → 0 ≤ total < 65536 →
  ∃ c, udp_checksum p src dst_ total (Z.of_nat (length w)) (net_pkt n p pre w) = Ret (htons c, net_pkt n p pre w) ∧ 0 ≤ c < 65536 ∧
    (c + (pseudo src dst_ total + words w)) mod 65535 = 0 ∧ (c = 0 ↔ (pseudo src dst_ total + words w) mod 65535 = 0).
Proof. intros Hw Hl Ht. exact (sum_run n p pre w _ Hw Hl (pseudo_bound src dst_ total Ht)). Qed.

(** The header with a checksum, in host order, and the data. *)
Definition udp_header (v src_port dst_port total : Z) : list Z :=
  (le_bytes 2 (htons src_port) ++ le_bytes 2 (htons dst_port) ++ le_bytes 2 (htons total)) ++ le_bytes 2 (htons v).

Lemma udp_header_words v sp dp total w : 0 ≤ v < 65536 →
  words (udp_header v sp dp total ++ w) = words (udp_header 0 sp dp total ++ w) + v.
Proof.
  intros Hv. unfold udp_header. rewrite <- !(app_assoc (_ ++ _ ++ _)).
  rewrite !(words_app (le_bytes 2 (htons sp) ++ _)) by (by exists 3%nat). rewrite (le_htons v), (le_htons 0) by lia.
  cbn [app words]. pose proof (Z.div_mod v 256 ltac:(lia)). change (0 / 256) with 0. change (0 mod 256) with 0. lia.
Qed.

(** UDP's checksum and the source address.  [udp_output]'s header for a datagram makes the
    receiver's test succeed for exactly the source addresses whose pseudo-header sum agrees
    with the sender's address modulo 65535; the checksum field is never 0, so the test is
    always made.  A block that is not bound to an address sums over source 0 while [ip_output]
    puts the address of the device in the header. *)
Theorem udp_source_checked n p pre h0 payload src sp dst_ dp : length h0 = 8%nat → Forall is_byte payload →
  let total := 8 + Z.of_nat (length payload) in total < 65536 →
  ∃ v, 0 < v < 65536 ∧ let w := udp_header v sp dp total ++ payload in
    udp_fill p src sp dst_ dp total (net_pkt n p pre (h0 ++ payload)) = Ret (tt, net_pkt n p pre w) ∧
    ∀ src', udp_checksum p src' dst_ total total (net_pkt n p pre w) = Ret (0, net_pkt n p pre w) ↔
            pseudo src' dst_ total mod 65535 = pseudo src dst_ total mod 65535.
Proof.
  intros Hh Hb total Ht. set (w0 := udp_header 0 sp dp total ++ payload).
  assert (∀ v, length (udp_header v sp dp total ++ payload) = 8 + length payload)%nat as Hlen by (intros v; by rewrite length_app).
  assert (∀ v, Forall is_byte (udp_header v sp dp total ++ payload)) as Hbytes.
  { intros v. unfold udp_header. rewrite !Forall_app. repeat split; try apply le_bytes_ok. done. }
  assert (∀ v, Z.of_nat (length (udp_header v sp dp total ++ payload)) = total) as Hz by (intros v; rewrite Hlen; unfold total; lia).
  destruct (udp_checksum_run n p pre w0 src dst_ total (Hbytes 0) ltac:(unfold w0; rewrite Hz; lia) ltac:(unfold total in *; lia)) as (c & E & Hc & Hm & Hc0).
  set (v := if c =? 0 then 65535 else c).
  assert (0 < v < 65536) as Hv by (unfold v; destruct (Z.eqb_spec c 0); lia).
  assert ((v + (pseudo src dst_ total + words w0)) mod 65535 = 0) as Hvm.
  { unfold v. destruct (Z.eqb_spec c 0) as [->|]; [|done]. revert Hm. generalize (pseudo src dst_ total + words w0). intros s Hm.
    replace (65535 + s) with (0 + s + 1 * 65535) by lia. by rewrite Z_mod_plus by lia. }
  exists v. split; [done|]. cbv zeta. split.
  - do 8 (destruct h0 as [|? h0]; [discriminate Hh|]). destruct h0; [clear Hh|discriminate Hh]. cbn [app].
    unfold udp_fill, wr16. do 4 poke_step.
    match goal with |- (_ ≫= _) (net_pkt _ _ _ ?x) = _ => change x with w0 end.
    rewrite (st_bind_run _ _ _ _ _ (net_load n p pre w0)). cbn [len packet]. rewrite (st_bind_run _ _ _ _ _ E).
    assert ((if htons c =? 0 then 65535 else htons c) = htons v) as ->.
    { unfold v. pose proof (htons_0 c Hc) as H0. destruct (Z.eqb_spec c 0) as [->|]; [done|].
      destruct (Z.eqb_spec (htons c) 0); [tauto|done]. }
    rewrite net_poke; [reflexivity|lia|]. rewrite length_le_bytes. unfold w0. rewrite Hz. unfold total. lia.
  - intros src'. pose proof (Hz v) as Hzv.
    destruct (udp_checksum_run n p pre (udp_header v sp dp total ++ payload) src' dst_ total (Hbytes v) ltac:(lia) ltac:(unfold total in *; lia)) as (c' & E' & Hc' & _ & Hc0').
    rewrite Hzv in E'. rewrite E'.
    assert (htons c' = 0 ↔ pseudo src' dst_ total mod 65535 = pseudo src dst_ total mod 65535) as Hiff; [|rewrite <- Hiff; split; [by injection 1|by intros ->]].
    rewrite htons_0, Hc0' by done. rewrite udp_header_words by lia. fold w0.
    apply Z.mod_divide in Hvm as [k Hk]; [|lia]. split.
    + intros H0. apply Z.mod_divide in H0 as [j Hj]; [|lia].
      replace (pseudo src' dst_ total) with (pseudo src dst_ total + (j - k) * 65535) by lia. by apply Z_mod_plus.
    + intros H0. replace (pseudo src' dst_ total + (words w0 + v)) with ((pseudo src' dst_ total - pseudo src dst_ total) + k * 65535) by lia.
      rewrite Z_mod_plus, Zminus_mod, H0, Z.sub_diag by lia. done.
Qed.

(** From an unbound block, "hi" to 10.0.2.15: rejected when it arrives from 10.0.2.2, accepted
    from address 0. *)
Lemma udp_source_checked_witness : ∃ v, 0 < v < 65536 ∧ let w := udp_header v 0 7 10 ++ [104; 105] in
  udp_fill 0 0 0 (htonl 0x0A00020F) 7 10 (net_pkt cold_net 0 [] (replicate 8 0 ++ [104; 105])) = Ret (tt, net_pkt cold_net 0 [] w) ∧
  udp_checksum 0 0 (htonl 0x0A00020F) 10 10 (net_pkt cold_net 0 [] w) = Ret (0, net_pkt cold_net 0 [] w) ∧
  udp_checksum 0 (htonl 0x0A000202) (htonl 0x0A00020F) 10 10 (net_pkt cold_net 0 [] w) ≠ Ret (0, net_pkt cold_net 0 [] w).
Proof.
  destruct (udp_source_checked cold_net 0 [] (replicate 8 0) [104; 105] 0 0 (htonl 0x0A00020F) 7) as (v & Hv & E1 & E2).
  - reflexivity.
  - repeat (apply list.Forall_cons; split; [unfold is_byte; lia|]). apply list.Forall_nil. exact I.
  - cbn. lia.
  - exists v. split; [exact Hv|]. split; [exact E1|]. split.
    + apply (proj2 (E2 0)). reflexivity.
    + intros H. pose proof (proj1 (E2 (htonl 0x0A000202)) H) as H'. revert H'. vm_compute. discriminate.
Defined.

(** ** Ports *)

(** An ephemeral port may already be bound: the first block binds 49152 by number, the second
    asks for any port and gets the same. *)
Lemma udp_ephemeral_port_shared : ∃ n a b,
  (a ← udp_new; udp_bind a 0 49152;; b ← udp_new; udp_bind b 0 0;; mret (a, b)) cold_net = Ret ((Some a, Some b), n) ∧
  a ≠ b ∧ (local_port <$> udp_pcbs n !! a) = Some 49152 ∧ (local_port <$> udp_pcbs n !! b) = Some 49152.
Proof. do 3 eexists. split; [vm_compute; reflexivity|]. split; [discriminate|]. split; reflexivity. Qed.

(** A datagram whose length field says more than the packet holds makes [udp_input] read
    behind the packet's block. *)
Lemma udp_length_unchecked : udp_input 0 1 2 (net_pkt cold_net 0 [] [0; 1; 0; 2; 255; 255; 1; 1]) = UB.
Proof. vm_compute. reflexivity. Qed.

End Udp.
