(* ===== verification/NetDemo.v ===== *)
(** * Runs of the network stack

    The kernel's configuration, evaluated: boot, the E1000 registered as [eth0], the address
    of [init.c], an echo request to the gateway that waits for ARP, and the reply. *)

From stdpp Require Import base tactics numbers list list_numbers option gmap.
From S2P Require Import Prelude Checksum State Pbuf Netdev Arp Route Ip IpProofs Udp.

Open Scope Z_scope.

Module NetDemo.
Import Checksum Pbuf Netdev Arp Route Ip IpProofs Udp.

Definition str (l : list Z) : list Z := l ++ [0].
(** "10.0.2.15", "255.255.255.0", "10.0.2.2" *)
Definition our_ip : list Z := str [49; 48; 46; 48; 46; 50; 46; 49; 53].
Definition our_mask : list Z := str [50; 53; 53; 46; 50; 53; 53; 46; 50; 53; 53; 46; 48].
Definition our_gateway : list Z := str [49; 48; 46; 48; 46; 50; 46; 50].

Example parse_our_ip : ip_addr_from_str our_ip = Ret (htonl 0x0A00020F).
Proof. vm_compute. reflexivity. Qed.

(** [e1000_driver_init] after the probe: rings, then registration. *)
Definition eth_init : N unit :=
  e ← get_e1000;
  e ← lift (e1000_tx_init 0xc0100000 e);
  e ← lift (e1000_rx_init 0xc0101000 (replicate 32 (Some (replicate 4096 0))) e);
  put_e1000 e;;
  netdev_register eth0_name e1000_ops;; mret tt.

Definition GATEWAY : Z := htonl 0x0A000202.
Definition gateway_mac : list Z := [0x52; 0x55; 10; 0; 2; 2].

(** Boot and configuration: [eth0] is device 1, and the announcement is block 0. *)
Definition configured : net :=
  match (net_init;; eth_init;; net_configure our_ip our_mask our_gateway) cold_net with Ret (_, n) => n | _ => cold_net end.

Example configured_announces : (tx_head (e1000 configured), tx_sem (e1000 configured), e1000_read (e1000 configured) E1000_TDT,
  take 6 <$> packet_bytes configured 0) = (0, 31, 1, Some (replicate 6 0xFF)).
Proof. vm_compute. reflexivity. Qed.

(** The request to the gateway: the packet is block 1 and waits, the ARP request is block 2. *)
Definition pinged : net :=
  match icmp_echo_request (Some 1%nat) GATEWAY 1234 1 (Some [112; 105; 110; 103]) 4 configured with Ret (_, n) => n | _ => configured end.

(** The gateway's answer, as [e1000_poll] would hand it over. *)
Definition arp_reply : list Z :=
  [0; 1; 8; 0; 6; 4; 0; 2] ++ gateway_mac ++ le_bytes 4 GATEWAY ++ [0x52; 0x54; 0; 0x12; 0x34; 0x56] ++ le_bytes 4 (htonl 0x0A00020F).
Definition answered : net :=
  match arp_input 1 3 (net_pkt pinged 3 [] arp_reply) with Ret (_, n) => n | _ => pinged end.

(** While it waits, the packet has two references: one of the queue, and the sender's, which
    nobody holds any more.  After the answer it is given to the device with both, so when the
    device is done with it, it is not freed. *)
Lemma arp_pending_leak :
  (pending <$> arp_cache pinged !! 0%nat) = Some [(1%nat, 1%nat)] ∧ (ref <$> pbufs (pbs pinged) !! 1%nat) = Some 2 ∧
  (pending <$> arp_cache answered !! 0%nat) = Some [] ∧ (ref <$> pbufs (pbs answered) !! 1%nat) = Some 2 ∧
  take 6 <$> packet_bytes answered 1 = Some gateway_mac ∧
  match pb (pbuf_free (Some 1%nat)) answered with Ret (_, n) => (ref <$> pbufs (pbs n) !! 1%nat) = Some 1 | _ => False end.
Proof. vm_compute. repeat split. Qed.

(** [netdev_transmit] reads the length of a packet that a full heap made the loopback device
    free: the packet is block 0, the queue entry cannot be allocated. *)
Lemma transmit_use_after_free :
  netdev_transmit 0 0 (net_pkt (set_pbs booted (mk_pstore ∅ 1 [false] (λ _ _, 0))) 0 [] [1; 2; 3]) = UB.
Proof. vm_compute. reflexivity. Qed.

(** A valid UDP packet for a bound port is freed by [ip_input]. *)
Definition udp_ready : net := match (c ← udp_new; udp_bind c 0 7) booted with Ret (_, n) => n | _ => booted end.
Lemma udp_never_delivered : ∃ n, ip_output (Some 0%nat) 1 0 LOOPBACK_IP IP_PROTO_UDP 0
    (net_pkt udp_ready 1 (replicate 34 0) (udp_header 0 9 7 10 ++ [104; 105])) = Ret (0, n) ∧
  (match net_input_turn (Some 0%nat) None n with
   | Ret (true, n') => (pbufs (pbs n') !! 1%nat = None) ∧ (recv_queue <$> udp_pcbs n' !! 0%nat) = Some []
   | _ => False end).
Proof. eexists. split; [vm_compute; reflexivity|]. vm_compute. split; reflexivity. Qed.

End NetDemo.
