(* ===== verification/IpText.v ===== *)
(** * Addresses as text: [ip_addr_to_str] and [ip_addr_from_str] of [net/inet/ip.c]

    The printer is [snprintf] of [lib/stdio.c]; the parser is in [Ip]. *)

From stdpp Require Import base tactics numbers list list_numbers option.
From S2P Require Import Prelude Sort Stdio Checksum Ip.

Open Scope Z_scope.

Module IpText.
Import Sort Stdio Checksum Ip.
Import String.StringSyntax.

(** ** Network order of a word *)

Lemma land_ff00 x : 0 ≤ x → Z.land x 0xFF00 = (x / 256) mod 256 * 256.
Proof.
  intros Hx. change 0xFF00 with (Z.shiftl (Z.ones 8) 8).
  replace ((x / 256) mod 256 * 256) with (Z.shiftl (Z.land (Z.shiftr x 8) (Z.ones 8)) 8).
  - apply Z.bits_inj'. intros i Hi. rewrite Z.land_spec, !Z.shiftl_spec by done.
    destruct (Z.ltb_spec i 8).
    + rewrite !(Z.testbit_neg_r _ (i - 8)) by lia. apply andb_false_r.
    + rewrite Z.land_spec, Z.shiftr_spec by lia. do 2 f_equal. lia.
  - rewrite Z.shiftl_mul_pow2, Z.land_ones, Z.shiftr_div_pow2 by lia. done.
Qed.

(** The four bytes of a word, the least significant first, and the word they make. *)
Definition word (a b c d : Z) : Z := ((d * 256 + c) * 256 + b) * 256 + a.

Lemma word_bytes x : 0 ≤ x < 2 ^ 32 → ∃ a b c d, is_byte a ∧ is_byte b ∧ is_byte c ∧ is_byte d ∧ x = word a b c d.
Proof.
  intros Hx. exists (x mod 256), ((x / 256) mod 256), ((x / 256 / 256) mod 256), (x / 256 / 256 / 256). unfold is_byte, word.
  pose proof (Z.div_mod x 256 ltac:(lia)). pose proof (Z.div_mod (x / 256) 256 ltac:(lia)). pose proof (Z.div_mod (x / 256 / 256) 256 ltac:(lia)).
  pose proof (Z.mod_pos_bound x 256 ltac:(lia)). pose proof (Z.mod_pos_bound (x / 256) 256 ltac:(lia)). pose proof (Z.mod_pos_bound (x / 256 / 256) 256 ltac:(lia)).
  lia.
Qed.

Lemma word_div a b c d : is_byte a → word a b c d mod 256 = a ∧ word a b c d / 256 = (d * 256 + c) * 256 + b.
Proof.
  intros Ha. unfold is_byte in Ha. unfold word. split; symmetry.
  - apply (Z.mod_unique_pos _ _ ((d * 256 + c) * 256 + b)); lia.
  - apply (Z.div_unique_pos _ _ _ a); lia.
Qed.

Lemma htonl_word a b c d : is_byte a → is_byte b → is_byte c → is_byte d → htonl (word a b c d) = word d c b a.
Proof.
  intros Ha Hb Hc Hd. destruct (word_div a b c d Ha) as [E0 E1].
  assert (((d * 256 + c) * 256 + b) mod 256 = b ∧ ((d * 256 + c) * 256 + b) / 256 = d * 256 + c) as [E2 E3].
  { unfold is_byte in *. split; symmetry; [apply (Z.mod_unique_pos _ _ (d * 256 + c))|apply (Z.div_unique_pos _ _ _ b)]; lia. }
  assert ((d * 256 + c) mod 256 = c ∧ (d * 256 + c) / 256 = d) as [E4 E5].
  { unfold is_byte in *. split; symmetry; [apply (Z.mod_unique_pos _ _ d)|apply (Z.div_unique_pos _ _ _ c)]; lia. }
  assert (0 ≤ word a b c d) as Hw by (unfold word, is_byte in *; lia). unfold is_byte in *.
  unfold htonl. rewrite (land_ff00 (word a b c d)) by done. rewrite (land_ff00 (Z.shiftr (word a b c d) 8)).
  2: { rewrite shiftr_8. apply Z.div_pos; lia. }
  rewrite !land_ff, shiftr_8, E0, E1, E2, E3, E4. replace (Z.shiftr (word a b c d) 24) with (word a b c d / 256 / 256 / 256).
  2: { rewrite Z.shiftr_div_pow2, !Z.div_div by lia. done. }
  rewrite E1, E3, E5, Z.mod_small by lia. rewrite !Z.shiftl_mul_pow2 by lia. rewrite wrap_small by lia.
  rewrite <- (Z.shiftl_mul_pow2 a 24) by lia. rewrite lor_add by lia.
  replace (a * 2 ^ 24 + b * 256 * 2 ^ 8) with ((a * 256 + b) * 2 ^ 16) by lia. rewrite <- (Z.shiftl_mul_pow2 _ 16) by lia. rewrite lor_add by lia.
  replace ((a * 256 + b) * 2 ^ 16 + c * 256) with (((a * 256 + b) * 256 + c) * 2 ^ 8) by lia. rewrite <- (Z.shiftl_mul_pow2 _ 8) by lia. rewrite lor_add by lia.
  unfold word. lia.
Qed.

(** The octets of a word in host order. *)
Lemma octets_word a b c d : is_byte a → is_byte b → is_byte c → is_byte d →
  Z.land (Z.shiftr (word a b c d) 24) 0xFF = d ∧ Z.land (Z.shiftr (word a b c d) 16) 0xFF = c ∧
  Z.land (Z.shiftr (word a b c d) 8) 0xFF = b ∧ Z.land (word a b c d) 0xFF = a.
Proof.
  intros Ha Hb Hc Hd. destruct (word_div a b c d Ha) as [E0 E1]. unfold is_byte in *.
  rewrite !land_ff. repeat split; [| | |done].
  - rewrite Z.shiftr_div_pow2 by lia. change (2 ^ 24) with (256 * 256 * 256). rewrite <- !Z.div_div by lia. rewrite E1.
    rewrite Z.div_add_l, (Z.div_small b), Z.add_0_r, Z.div_add_l, (Z.div_small c), Z.add_0_r by lia. by apply Z.mod_small.
  - rewrite Z.shiftr_div_pow2 by lia. change (2 ^ 16) with (256 * 256). rewrite <- Z.div_div by lia. rewrite E1.
    rewrite Z.div_add_l, (Z.div_small b), Z.add_0_r by lia. symmetry. apply (Z.mod_unique_pos _ _ d); lia.
  - rewrite shiftr_8, E1. symmetry. apply (Z.mod_unique_pos _ _ (d * 256 + c)); lia.
Qed.

Lemma lor_word a b c d : is_byte a → is_byte b → is_byte c → is_byte d →
  Z.lor (Z.lor (Z.lor (Z.shiftl a 24) (Z.shiftl b 16)) (Z.shiftl c 8)) d = word d c b a.
Proof.
  unfold is_byte. intros Ha Hb Hc Hd. rewrite lor_add by (rewrite ?Z.shiftl_mul_pow2; lia). rewrite (Z.shiftl_mul_pow2 b) by lia.
  replace (a * 2 ^ 24 + b * 2 ^ 16) with ((a * 256 + b) * 2 ^ 16) by lia. rewrite <- (Z.shiftl_mul_pow2 (a * 256 + b) 16) by lia.
  rewrite lor_add by (rewrite ?Z.shiftl_mul_pow2; lia). rewrite (Z.shiftl_mul_pow2 c) by lia.
  replace ((a * 256 + b) * 2 ^ 16 + c * 2 ^ 8) with (((a * 256 + b) * 256 + c) * 2 ^ 8) by lia. rewrite <- (Z.shiftl_mul_pow2 _ 8) by lia.
  rewrite lor_add by lia. unfold word. lia.
Qed.

(** ** Printing and parsing octets *)

Section Text.
(** The arithmetic on [double] that [snprintf] is given plays no part. *)
Context {double : Type} (to_int : double → Z) (fraction : double → Z → Z) (is_negative : double → bool).

Definition ip_format : list Z := literal "%u.%u.%u.%u".

(** The buffer is written in place and returned. *)
Definition ip_addr_to_str (ip : Z) (buf : list Z) : outcome (list Z) :=
  let host_ip := ntohl ip in
  '(_, buf) ← snprintf to_int fraction is_negative buf 16 ip_format
    [Word (Z.land (Z.shiftr host_ip 24) 0xFF); Word (Z.land (Z.shiftr host_ip 16) 0xFF);
     Word (Z.land (Z.shiftr host_ip 8) 0xFF); Word (Z.land host_ip 0xFF)];
  Ret buf.

(** What is true of the decimal notation of each octet. *)
Definition octet_value (l : list Z) : Z := foldl (λ v c, v * 10 + (c - 48)) 0 l.
Definition octet_ok (a : Z) : bool :=
  forallb (λ c, (48 <=? c) && (c <=? 57)) (decimal a) && (octet_value (decimal a) =? a) &&
  (1 <=? length (decimal a))%nat && (length (decimal a) <=? 3)%nat &&
  match format_integer a false false base_d (mk_conv 0 0 (-1) INT) with Ret l => bool_decide (l = decimal a) | _ => false end.

Lemma octets_ok : forallb (λ n, octet_ok (Z.of_nat n)) (seq 0 256) = true.
Proof. vm_compute. reflexivity. Qed.

Lemma octet_spec a : is_byte a → Forall (λ c, 48 ≤ c ≤ 57) (decimal a) ∧ octet_value (decimal a) = a ∧
  (1 ≤ length (decimal a) ≤ 3)%nat ∧ format_integer a false false base_d (mk_conv 0 0 (-1) INT) = Ret (decimal a).
Proof.
  unfold is_byte. intros Ha.
  pose proof (proj1 (forallb_forall _ _) octets_ok (Z.to_nat a) (proj2 (in_seq 256 0 (Z.to_nat a)) ltac:(lia))) as H.
  cbn beta in H. rewrite Z2Nat.id in H by lia. unfold octet_ok in H. reflect_bools.
  destruct (format_integer a false false base_d (mk_conv 0 0 (-1) INT)) as [l| | |]; try discriminate. apply bool_decide_eq_true in H0 as ->.
  split; [|split; [done|split; [lia|done]]]. apply list.Forall_forall. intros c Hc. rewrite forallb_forall in H.
  specialize (H c (proj1 (list_elem_of_In _ _) Hc)). reflect_bools. lia.
Qed.

Lemma octets_digits oct rest : ∀ l v b, Forall (λ c, 48 ≤ c ≤ 57) l → 0 ≤ v → foldl (λ v c, v * 10 + (c - 48)) v l ≤ 255 →
  octets_loop (l ++ rest) oct v b = octets_loop rest oct (foldl (λ v c, v * 10 + (c - 48)) v l) (b || bool_decide (l ≠ [])).
Proof.
  assert (∀ l v, Forall (λ c, 48 ≤ c ≤ 57) l → 0 ≤ v → v ≤ foldl (λ v c, v * 10 + (c - 48)) v l) as Hmono.
  { induction l as [|c l IH]; intros v Hl Hv; [done|]. apply list.Forall_cons in Hl as [Hc Hl]. cbn [foldl].
    specialize (IH (v * 10 + (c - 48)) Hl ltac:(lia)). lia. }
  induction l as [|c l IH]; intros v b Hl Hv Hle; [cbn; by rewrite orb_false_r|].
  apply list.Forall_cons in Hl as [Hc Hl]. cbn [app octets_loop foldl] in *.
  rewrite (proj2 (Z.leb_le 48 c)), (proj2 (Z.leb_le c 57)) by lia. cbn [andb].
  pose proof (Hmono l (v * 10 + (c - 48)) Hl ltac:(lia)). rewrite (proj2 (Z.ltb_ge 255 _)) by lia.
  rewrite IH by (done || lia). by rewrite orb_true_r.
Qed.

(** An octet and the character behind it. *)
Lemma octet_step a sep rest oct : is_byte a → sep = 46 ∨ sep = 0 → Z.of_nat (length oct) < 4 →
  octets_loop (decimal a ++ sep :: rest) oct 0 false =
  if sep =? 0 then Ret (Some (oct ++ [a])) else octets_loop rest (oct ++ [a]) 0 false.
Proof.
  intros Ha Hs Ho. destruct (octet_spec a Ha) as (Hd & Hv & Hl & _). unfold octet_value in Hv. unfold is_byte in Ha.
  rewrite octets_digits by (done || lia). rewrite Hv. rewrite bool_decide_eq_true_2 by (intros E; rewrite E in Hl; cbn in Hl; lia).
  cbn [orb octets_loop]. assert (((48 <=? sep) && (sep <=? 57)) = false) as -> by (destruct Hs as [-> | ->]; done).
  assert (((sep =? 46) || (sep =? 0)) = true) as -> by (destruct Hs as [-> | ->]; done).
  cbn [negb orb]. by rewrite (proj2 (Z.leb_gt 4 _)) by lia.
Qed.

(** One ["%u"] of an octet. *)
Lemma printf_u fuel rest a args : is_byte a → 
  vprintf_loop to_int fraction is_negative (S fuel) (37 :: 117 :: rest) (Word a :: args) =
  (out ← vprintf_loop to_int fraction is_negative fuel rest args; Ret (decimal a ++ out)).
Proof.
  intros Ha. destruct (octet_spec a Ha) as (_ & _ & _ & E). unfold is_byte in Ha.
  change (vprintf_loop to_int fraction is_negative (S fuel) (37 :: 117 :: rest) (Word a :: args))
    with ('(s, args) ← convert to_int fraction is_negative (vprintf_loop to_int fraction is_negative fuel) 117 (mk_conv 0 0 (-1) INT) (Word a :: args);
          out ← vprintf_loop to_int fraction is_negative fuel rest args; Ret (s ++ out)).
  unfold convert. cbn [Z.eqb Pos.eqb orb type unsigned_arg va_word mbind outcome_bind]. rewrite (wrap_small 32 a) by lia. by rewrite E.
Qed.

Lemma printf_dot fuel rest args :
  vprintf_loop to_int fraction is_negative (S fuel) (46 :: rest) args = (out ← vprintf_loop to_int fraction is_negative fuel rest args; Ret (46 :: out)).
Proof. done. Qed.

Lemma printf_ip a b c d : is_byte a → is_byte b → is_byte c → is_byte d →
  __vprintf to_int fraction is_negative ip_format [Word a; Word b; Word c; Word d] =
  Ret (decimal a ++ 46 :: decimal b ++ 46 :: decimal c ++ 46 :: decimal d).
Proof.
  intros Ha Hb Hc Hd. unfold __vprintf. change ip_format with [37; 117; 46; 37; 117; 46; 37; 117; 46; 37; 117; 0].
  cbn [length Nat.add]. do 3 (rewrite printf_u, printf_dot by done). rewrite printf_u by done.
  cbn [vprintf_loop Z.eqb mbind outcome_bind]. by rewrite app_nil_r.
Qed.

(** Internet addresses survive printing.  [ip_addr_to_str] of any address fits in the
    sixteen bytes it is given, terminator included, and [ip_addr_from_str] of the result is
    the address; no octet is printed with leading zeros or misread. *)
Theorem ip_text_roundtrip ip buf : 0 ≤ ip < 2 ^ 32 → length buf = 16%nat →
  ∃ r, ip_addr_to_str ip buf = Ret r ∧ length r = 16%nat ∧ ip_addr_from_str r = Ret ip.
Proof.
  intros Hip Hbuf. destruct (word_bytes ip Hip) as (a & b & c & d & Ha & Hb & Hc & Hd & ->).
  unfold ip_addr_to_str. unfold ntohl. rewrite htonl_word by done. destruct (octets_word d c b a Hd Hc Hb Ha) as (E1 & E2 & E3 & E4).
  cbv zeta. rewrite E1, E2, E3, E4. pose proof (printf_ip a b c d Ha Hb Hc Hd) as Ep.
  destruct (octet_spec a Ha) as (_ & _ & La & _), (octet_spec b Hb) as (_ & _ & Lb & _), (octet_spec c Hc) as (_ & _ & Lc & _), (octet_spec d Hd) as (_ & _ & Ld & _).
  set (out := decimal a ++ 46 :: decimal b ++ 46 :: decimal c ++ 46 :: decimal d) in *.
  assert (length out = length (decimal a) + length (decimal b) + length (decimal c) + length (decimal d) + 3)%nat as Hlen.
  { unfold out. rewrite !length_app; cbn [length]. rewrite !length_app; cbn [length]. rewrite !length_app; cbn [length]. lia. }
  destruct (vsnprintf_run to_int fraction is_negative buf 16 _ _ out Ep) as (r & Er & Hr); [lia|lia|lia|].
  change (16 =? 0) with false in Hr. cbv iota zeta in Hr. rewrite Nat.min_l, firstn_all in Hr by lia. subst r.
  exists (out ++ 0 :: drop (S (length out)) buf). split; [by unfold snprintf; rewrite Er|]. split.
  { rewrite length_app. cbn [length]. rewrite length_drop. lia. }
  unfold ip_addr_from_str, out. rewrite <- app_assoc. cbn [app]. rewrite octet_step by (try done; try lia; cbn; lia). cbn [Z.eqb].
  rewrite <- app_assoc. cbn [app]. rewrite octet_step by (try done; try lia; cbn; lia). cbn [Z.eqb].
  rewrite <- app_assoc. cbn [app]. rewrite octet_step by (try done; try lia; cbn; lia). cbn [Z.eqb].
  rewrite octet_step by (try done; try lia; cbn; lia). cbn [Z.eqb app mbind outcome_bind].
  rewrite lor_word, htonl_word by done. done.
Qed.

End Text.

Lemma ip_text_roundtrip_witness : ∃ r, ip_addr_to_str (λ _ : unit, 0) (λ _ _, 0) (λ _, false) 0x0F02000A (replicate 16 255) = Ret r ∧
  r = [49; 48; 46; 48; 46; 50; 46; 49; 53; 0; 255; 255; 255; 255; 255; 255] ∧ ip_addr_from_str r = Ret 0x0F02000A.
Proof.
  destruct (ip_text_roundtrip (λ _ : unit, 0) (λ _ _, 0) (λ _, false) 0x0F02000A (replicate 16 255)) as (r & E & _ & Hr); [lia|reflexivity|].
  exists r. split; [exact E|]. split; [|exact Hr].
  assert (ip_addr_to_str (λ _ : unit, 0) (λ _ _, 0) (λ _, false) 0x0F02000A (replicate 16 255) =
    Ret [49; 48; 46; 48; 46; 50; 46; 49; 53; 0; 255; 255; 255; 255; 255; 255]) as E' by (vm_compute; reflexivity).
  rewrite E' in E. injection E as <-. reflexivity.
Defined.
End IpText.
