(* ===== verification/Arith64.v ===== *)
(** * 64-bit division: [lib/arithmetic.c]

    The routines the compiler calls for 64-bit division and remainder on i386, over
    the 32-bit [DIVL] instruction.  The quotients are exact and [DIVL] never traps;
    the remainders are truncated to 32 bits. *)

From stdpp Require Import base tactics numbers.
From S2P Require Import Prelude.

Module Arith64.

Definition u64 (x : Z) : Z := wrap 64 x.

(** The conversion of a [uint64_t] to [int64_t], and of an [int64_t] to [uint64_t]. *)
Definition s64 (x : Z) : Z := if u64 x <? 2 ^ 63 then u64 x else u64 x - 2 ^ 64.

(** An [int64_t] expression. *)
Definition int64_expr (x : Z) : outcome Z :=
  if (- 2 ^ 63 <=? x) && (x <? 2 ^ 63) then Ret x else UB.

(** [DIVL] traps on a zero divisor and on a quotient of more than 32 bits. *)
Definition divl (n d : Z) : outcome Z :=
  ASSERT (negb (d =? 0));;
  ASSERT (n / d <? 2 ^ 32);;
  Ret (n / d).

Definition nlz (x : Z) : Z :=
  let '(n, x) := if x <=? 0x0000FFFF then (16, u32 (Z.shiftl x 16)) else (0, x) in
  let '(n, x) := if x <=? 0x00FFFFFF then (n + 8, u32 (Z.shiftl x 8)) else (n, x) in
  let '(n, x) := if x <=? 0x0FFFFFFF then (n + 4, u32 (Z.shiftl x 4)) else (n, x) in
  let '(n, x) := if x <=? 0x3FFFFFFF then (n + 2, u32 (Z.shiftl x 2)) else (n, x) in
  if x <=? 0x7FFFFFFF then n + 1 else n.

Definition udiv64 (n d : Z) : outcome Z :=
  if Z.shiftr d 32 =? 0 then
    let b := Z.shiftl 1 32 in
    let n1 := u32 (Z.shiftr n 32) in
    let n0 := u32 n in
    let d0 := u32 d in
    ASSERT (negb (d0 =? 0));;
    q ← divl (u64 (b * (n1 mod d0) + n0)) d0;
    Ret (u64 (q + b * (n1 / d0)))
  else if n <? d then Ret 0
  else
    let d1 := u32 (Z.shiftr d 32) in
    let s := nlz d1 in
    q ← divl (Z.shiftr n 1) (u32 (Z.shiftr (u64 (Z.shiftl d s)) 32));
    let q := Z.shiftr q (31 - s) in
    Ret (if u64 (n - u64 (u64 (q - 1) * d)) <? d then u64 (q - 1) else q).

Definition umod64 (n d : Z) : outcome Z :=
  q ← udiv64 n d; Ret (u32 (u64 (n - u64 (d * q)))).

Definition sdiv64 (n d : Z) : outcome Z :=
  let n_abs := if 0 <=? n then n else u64 (- u64 n) in
  let d_abs := if 0 <=? d then d else u64 (- u64 d) in
  q_abs ← udiv64 n_abs d_abs;
  if Bool.eqb (n <? 0) (d <? 0) then Ret (s64 q_abs) else int64_expr (- s64 q_abs).

Definition smod64 (n d : Z) : outcome Z :=
  q ← sdiv64 n d;
  p ← int64_expr (d * q);
  r ← int64_expr (n - p);
  Ret (s32 r).

Definition __divdi3 (n d : Z) : outcome Z := sdiv64 n d.
Definition __moddi3 (n d : Z) : outcome Z := smod64 n d.
Definition __udivdi3 (n d : Z) : outcome Z := udiv64 n d.
Definition __umoddi3 (n d : Z) : outcome Z := umod64 n d.

(** ** Lemmas *)

Lemma u64_small x : 0 ≤ x < 2 ^ 64 → u64 x = x.
Proof. intros. unfold u64. by apply wrap_small. Qed.
Lemma u32_small x : 0 ≤ x < 2 ^ 32 → u32 x = x.
Proof. intros. unfold u32. by apply wrap_small. Qed.

(** Shifting by [nlz x] brings the highest bit of [x] to bit 31. *)
Lemma nlz_spec x : 0 < x < 2 ^ 32 → 0 ≤ nlz x ≤ 31 ∧ 2 ^ 31 ≤ x * 2 ^ nlz x < 2 ^ 32.
Proof.
  intros Hx. unfold nlz. rewrite !Z.shiftl_mul_pow2 by lia.
  change (2 ^ 16) with 65536. change (2 ^ 31) with 2147483648. change (2 ^ 32) with 4294967296 in *.
  repeat match goal with
  | |- context [if ?a <=? ?b then _ else _] =>
      destruct (Z.leb_spec a b); cbv beta iota zeta;
      rewrite ?Z.shiftl_mul_pow2 by lia;
      change (2 ^ 8) with 256; change (2 ^ 4) with 16; change (2 ^ 2) with 4;
      rewrite ?(u32_small (_ * _)) by lia
  end;
  match goal with |- 0 ≤ ?n ≤ 31 ∧ _ => let v := eval vm_compute in n in let p := eval vm_compute in (2 ^ n) in
    change n with v; change (2 ^ v) with p end; lia.
Qed.

(** Dividing by the 32 highest bits of the divisor is off by at most one. *)
Lemma quotient_estimate n d w k :
  2 ≤ w → 2 ^ 31 ≤ k → k = d / w → d ≤ n < 2 ^ 64 → n / d ≤ n / (k * w) ≤ n / d + 1.
Proof.
  intros Hw Hk Ek Hn. pose proof (Z.div_mod d w ltac:(lia)) as Ed. pose proof (Z.mod_pos_bound d w ltac:(lia)) as He.
  rewrite <- Ek in Ed. clear Ek. generalize dependent (d mod w). intros e Ed He. set (D := k * w).
  assert (d = D + e) as Ed' by (unfold D; lia). clear Ed. subst d. assert (2 ^ 31 * w ≤ D) as HD by (unfold D; nia).
  assert (0 < D) as HD0 by lia. clearbody D.
  assert (2 ^ 64 * (w - 1) ≤ D * D) as Hsq.
  { assert ((2 ^ 31 * w) * (2 ^ 31 * w) ≤ D * D) by (apply Z.mul_le_mono_nonneg; lia).
    assert (0 ≤ (w - 2) * (w - 2)) by apply Z.square_nonneg.
    change (2 ^ 64) with (4 * (2 ^ 31 * 2 ^ 31)). nia. }
  assert (n * e < (D + e) * D) as Hne.
  { assert (n * e ≤ (2 ^ 64 - 1) * (w - 1)) by (apply Z.mul_le_mono_nonneg; lia). nia. }
  split; [apply Z.div_le_compat_l; lia|].
  set (Q := n / (D + e)). assert (n < (Q + 1) * (D + e)) as HQ.
  { pose proof (Z.mul_succ_div_gt n (D + e) ltac:(lia)). unfold Q. lia. }
  apply Z.lt_succ_r, Z.div_lt_upper_bound; [done|].
  destruct (Z.lt_ge_cases n (D * Z.succ (Q + 1))) as [|Hge]; [done|exfalso].
  assert (n * D < (Q + 1) * (D + e) * D) by (apply Z.mul_lt_mono_pos_r; lia).
  assert (D * Z.succ (Q + 1) * (D + e) ≤ n * (D + e)) by (apply Z.mul_le_mono_nonneg_r; lia).
  nia.
Qed.

(** The branch for divisors of more than 32 bits. *)
Lemma udiv64_big n d : 2 ^ 32 ≤ d < 2 ^ 64 → d ≤ n < 2 ^ 64 →
  let s := nlz (d / 2 ^ 32) in
  let k := d / 2 ^ (32 - s) in
  0 ≤ s ≤ 31 ∧ u64 (d * 2 ^ s) / 2 ^ 32 = k ∧ 2 ^ 31 ≤ k < 2 ^ 32 ∧
  n / 2 / k / 2 ^ (31 - s) = n / (k * 2 ^ (32 - s)).
Proof.
  intros Hd Hn s k.
  assert (0 < d / 2 ^ 32 < 2 ^ 32) as Hd1.
  { split; [apply Z.div_str_pos; lia|apply Z.div_lt_upper_bound; lia]. }
  destruct (nlz_spec _ Hd1) as [Hs Hb]. fold s in Hs, Hb.
  assert (2 ^ 32 = 2 ^ s * 2 ^ (32 - s)) as E32 by (rewrite <- Z.pow_add_r by lia; f_equal; lia).
  assert (0 < 2 ^ s) as Hps by (apply Z.pow_pos_nonneg; lia).
  assert (0 < 2 ^ (32 - s)) as Hpw by (apply Z.pow_pos_nonneg; lia).
  assert (0 < 2 ^ (31 - s)) as Hpv by (apply Z.pow_pos_nonneg; lia).
  assert (d * 2 ^ s < 2 ^ 64) as Hds.
  { assert (d < (d / 2 ^ 32 + 1) * 2 ^ 32) as Hlt.
    { pose proof (Z.mul_succ_div_gt d (2 ^ 32) ltac:(lia)). lia. }
    assert ((d / 2 ^ 32 + 1) * 2 ^ s ≤ 2 ^ 32) as Hle.
    { clearbody s. generalize dependent (d / 2 ^ 32). intros x Hx Hb Hlt.
      assert (x < 2 ^ (32 - s)) as Hxw.
      { destruct (Z.lt_ge_cases x (2 ^ (32 - s))) as [|Hge]; [done|exfalso].
        assert (2 ^ (32 - s) * 2 ^ s ≤ x * 2 ^ s) by (apply Z.mul_le_mono_nonneg_r; lia). lia. }
      assert ((x + 1) * 2 ^ s ≤ 2 ^ (32 - s) * 2 ^ s) by (apply Z.mul_le_mono_nonneg_r; lia). lia. }
    change (2 ^ 64) with (2 ^ 32 * 2 ^ 32).
    assert (d * 2 ^ s < (d / 2 ^ 32 + 1) * 2 ^ 32 * 2 ^ s) by (apply Z.mul_lt_mono_pos_r; lia).
    assert ((d / 2 ^ 32 + 1) * 2 ^ s * 2 ^ 32 ≤ 2 ^ 32 * 2 ^ 32) by (apply Z.mul_le_mono_nonneg_r; lia). lia. }
  assert (d * 2 ^ s / 2 ^ 32 = k) as Ek.
  { unfold k. rewrite E32, (Z.mul_comm d). by rewrite Z.div_mul_cancel_l by lia. }
  split; [done|]. rewrite u64_small by (split; [nia|done]). split; [done|]. split.
  - rewrite <- Ek. split.
    + apply Z.div_le_lower_bound; [lia|]. pose proof (Z.mul_div_le d (2 ^ 32) ltac:(lia)). nia.
    + apply Z.div_lt_upper_bound; [lia|]. change (2 ^ 32 * 2 ^ 32) with (2 ^ 64). lia.
  - rewrite !Z.div_div by (try lia; assert (0 < k) by (rewrite <- Ek; apply Z.div_str_pos; nia); lia). f_equal.
    replace (2 ^ (32 - s)) with (2 * 2 ^ (31 - s)); [lia|]. rewrite <- Z.pow_succ_r by lia. f_equal. lia.
Qed.

Lemma divl_run n d : 0 < d → n / d < 2 ^ 32 → divl n d = Ret (n / d).
Proof.
  intros Hd Hq. unfold divl. destruct (Z.eqb_spec d 0); [lia|]. cbn [negb ASSERT mbind outcome_bind].
  by rewrite (proj2 (Z.ltb_lt _ _) Hq).
Qed.

(** The branch for divisors that fit 32 bits. *)
Lemma udiv64_small n d : 0 ≤ n < 2 ^ 64 → 0 < d < 2 ^ 32 → udiv64 n d = Ret (n / d).
Proof.
  intros Hn Hd. unfold udiv64. rewrite !Z.shiftr_div_pow2, Z.shiftl_mul_pow2 by lia.
  rewrite (Z.div_small d) by lia. cbn [Z.eqb]. rewrite Z.mul_1_l.
  rewrite (u32_small d) by lia.
  rewrite (u32_small (n / 2 ^ 32)) by (split; [apply Z.div_pos|apply Z.div_lt_upper_bound]; lia).
  destruct (Z.eqb_spec d 0) as [|Hd0]; [lia|]. cbn [negb ASSERT mbind outcome_bind].
  pose proof (Z.div_mod n (2 ^ 32) ltac:(lia)) as En. pose proof (Z.mod_pos_bound n (2 ^ 32) ltac:(lia)) as H0.
  change (u32 n) with (n mod 2 ^ 32). set (n1 := n / 2 ^ 32) in *. set (n0 := n mod 2 ^ 32) in *.
  assert (0 ≤ n1) by (apply Z.div_pos; lia).
  pose proof (Z.div_mod n1 d ltac:(lia)) as E1. pose proof (Z.mod_pos_bound n1 d ltac:(lia)) as H1.
  assert (0 ≤ n1 / d) by (apply Z.div_pos; lia).
  set (x := 2 ^ 32 * (n1 mod d) + n0). assert (0 ≤ x < 2 ^ 32 * d) as Hx by (unfold x; nia).
  rewrite (u64_small x) by (split; [lia|]; change (2 ^ 64) with (2 ^ 32 * 2 ^ 32); nia).
  rewrite divl_run by (try apply Z.div_lt_upper_bound; lia). cbn [mbind outcome_bind].
  assert (n / d = x / d + 2 ^ 32 * (n1 / d)) as E.
  { rewrite <- Z.div_add by lia. f_equal. unfold x. nia. }
  rewrite <- E, u64_small; [done|]. split; [apply Z.div_pos; lia|]. apply Z.div_lt_upper_bound; nia.
Qed.

Lemma udiv64_run n d : 0 ≤ n < 2 ^ 64 → 0 < d < 2 ^ 64 → udiv64 n d = Ret (n / d).
Proof.
  intros Hn Hd. destruct (Z.lt_ge_cases d (2 ^ 32)) as [|Hb]; [apply udiv64_small; lia|].
  unfold udiv64. rewrite !Z.shiftr_div_pow2 by lia.
  assert (0 < d / 2 ^ 32 < 2 ^ 32) as Hd1.
  { split; [apply Z.div_str_pos; lia|apply Z.div_lt_upper_bound; lia]. }
  destruct (Z.eqb_spec (d / 2 ^ 32) 0); [lia|].
  destruct (Z.ltb_spec n d); [by rewrite Z.div_small by lia|].
  rewrite (u32_small (d / 2 ^ 32)) by lia.
  destruct (udiv64_big n d) as (Hs & Ek & Hk & Eq); [lia..|].
  set (s := nlz (d / 2 ^ 32)) in *. set (k := d / 2 ^ (32 - s)) in *.
  rewrite Z.shiftl_mul_pow2 by lia. rewrite Ek, (u32_small k) by lia. change (2 ^ 1) with 2.
  rewrite divl_run; [|lia|apply Z.div_lt_upper_bound; [lia|]; apply Z.div_lt_upper_bound; [lia|]; nia].
  cbn [mbind outcome_bind]. rewrite Z.shiftr_div_pow2, Eq by lia.
  assert (n / d ≤ n / (k * 2 ^ (32 - s)) ≤ n / d + 1) as He.
  { apply quotient_estimate; [|lia|done|lia]. rewrite <- (Z.pow_1_r 2) at 1. apply Z.pow_le_mono_r; lia. }
  set (q := n / (k * 2 ^ (32 - s))) in *. set (Q := n / d) in *. clearbody q.
  assert (1 ≤ Q) by (apply Z.div_le_lower_bound; lia).
  pose proof (Z.div_mod n d ltac:(lia)) as En. pose proof (Z.mod_pos_bound n d ltac:(lia)) as Hr. fold Q in En.
  assert (Q < 2 ^ 32) by (apply Z.div_lt_upper_bound; nia).
  rewrite (u64_small (q - 1)) by lia. assert (q = Q ∨ q = Q + 1) as [-> | ->] by lia.
  - rewrite (u64_small ((Q - 1) * d)), u64_small by nia. destruct (Z.ltb_spec (n - (Q - 1) * d) d); [nia|done].
  - replace (Q + 1 - 1) with Q by lia. rewrite (u64_small (Q * d)), u64_small by nia.
    destruct (Z.ltb_spec (n - Q * d) d); [done|nia].
Qed.

(** 64-bit division is exact.  For every 64-bit dividend and nonzero divisor
    [__udivdi3] returns the quotient: neither use of [DIVL] traps, and the estimate from
    the divisor's 32 highest bits is corrected properly.  [__divdi3] returns the quotient
    rounded towards zero whenever it is an [int64_t], with undefined behaviour only for
    quotients of magnitude 2^63. *)
Theorem udivdi3_exact :
  (∀ n d, 0 ≤ n < 2 ^ 64 → 0 < d < 2 ^ 64 → __udivdi3 n d = Ret (n / d)) ∧
  (∀ n d, - 2 ^ 63 ≤ n < 2 ^ 63 → - 2 ^ 63 ≤ d < 2 ^ 63 → d ≠ 0 → Z.abs (Z.quot n d) < 2 ^ 63 →
     __divdi3 n d = Ret (Z.quot n d)).
Proof.
  split; [exact udiv64_run|]. intros n d Hn Hd Hnz Hq. unfold __divdi3, sdiv64.
  assert (∀ x, - 2 ^ 63 ≤ x < 2 ^ 63 → (if 0 <=? x then x else u64 (- u64 x)) = Z.abs x) as Habs.
  { intros x Hx. destruct (Z.leb_spec 0 x); [lia|]. unfold u64, wrap.
    rewrite <- (Z.mod_unique x (2 ^ 64) (-1) (x + 2 ^ 64)) by lia.
    rewrite <- (Z.mod_unique _ (2 ^ 64) (-1) (- x)) by lia. lia. }
  rewrite !Habs by done. rewrite udiv64_run by lia. cbn [mbind outcome_bind].
  rewrite <- (Z.quot_div_nonneg (Z.abs n)), Z.quot_abs by lia.
  assert (s64 (Z.abs (Z.quot n d)) = Z.abs (Z.quot n d)) as ->.
  { unfold s64. rewrite u64_small by lia. by rewrite (proj2 (Z.ltb_lt _ _) Hq). }
  destruct (Z.ltb_spec n 0), (Z.ltb_spec d 0); cbn [Bool.eqb].
  - rewrite Z.abs_eq; [done|]. rewrite <- Z.quot_opp_opp by lia. apply Z.quot_pos; lia.
  - unfold int64_expr. assert (Z.quot n d ≤ 0) by (rewrite <- (Z.opp_involutive n), Z.quot_opp_l by lia;
      pose proof (Z.quot_pos (- n) d); lia).
    rewrite Z.abs_neq, Z.opp_involutive by lia.
    destruct (Z.leb_spec (- 2 ^ 63) (Z.quot n d)), (Z.ltb_spec (Z.quot n d) (2 ^ 63)); [done|lia..].
  - unfold int64_expr. assert (Z.quot n d ≤ 0) by (rewrite <- (Z.opp_involutive d), Z.quot_opp_r by lia;
      pose proof (Z.quot_pos n (- d)); lia).
    rewrite Z.abs_neq, Z.opp_involutive by lia.
    destruct (Z.leb_spec (- 2 ^ 63) (Z.quot n d)), (Z.ltb_spec (Z.quot n d) (2 ^ 63)); [done|lia..].
  - rewrite Z.abs_eq; [done|]. apply Z.quot_pos; lia.
Qed.

(** Remainders are cut to 32 bits.  [__umoddi3] returns the lowest 32 bits of the
    remainder, because [umod64] is declared to return a [uint32_t]: it is right exactly
    when the remainder is below 2^32, and wrong for 2^32 modulo 2^33. *)
Theorem umoddi3_truncates :
  (∀ n d, 0 ≤ n < 2 ^ 64 → 0 < d < 2 ^ 64 →
     __umoddi3 n d = Ret (u32 (n mod d)) ∧ (__umoddi3 n d = Ret (n mod d) ↔ n mod d < 2 ^ 32)) ∧
  __umoddi3 (2 ^ 32) (2 ^ 33) = Ret 0 ∧ __moddi3 (2 ^ 32) (2 ^ 33) = Ret 0.
Proof.
  split; [|split; vm_compute; reflexivity]. intros n d Hn Hd.
  pose proof (Z.div_mod n d ltac:(lia)) as En. pose proof (Z.mod_pos_bound n d ltac:(lia)) as Hr.
  assert (0 ≤ n / d) by (apply Z.div_pos; lia).
  assert (__umoddi3 n d = Ret (u32 (n mod d))) as E.
  { unfold __umoddi3, umod64. rewrite udiv64_run by done. cbn [mbind outcome_bind].
    rewrite (u64_small (d * _)), u64_small by lia. do 2 f_equal. lia. }
  split; [done|]. rewrite E. split.
  - intros [= Eq]. rewrite <- Eq. apply wrap_bound. lia.
  - intros. by rewrite u32_small by lia.
Qed.

Lemma udivdi3_exact_witness : __udivdi3 (2 ^ 63 + 5) (2 ^ 40 + 3) = Ret 8388607 ∧ __divdi3 (-7) 2 = Ret (-3).
Proof.
  split.
  - refine (proj1 udivdi3_exact (2 ^ 63 + 5) (2 ^ 40 + 3) _ _); lia.
  - refine (proj2 udivdi3_exact (-7) 2 _ _ _ _); [lia|lia|lia|]. vm_compute. reflexivity.
Defined.

Lemma umoddi3_truncates_witness : __umoddi3 (2 ^ 33 + 1) (2 ^ 40) = Ret 1 ∧ (2 ^ 33 + 1) mod 2 ^ 40 = 2 ^ 33 + 1.
Proof.
  split; [|reflexivity]. refine (proj1 (proj1 umoddi3_truncates (2 ^ 33 + 1) (2 ^ 40) _ _)); lia.
Defined.

End Arith64.
