(* ===== verification/Hash.v ===== *)
(** * Hash tables: [lib/kernel/hash.c]

    A table is an array of lists of elements.  The hash and comparison functions are
    the callbacks the client registers with [hash_init]; [alloc] says whether the
    allocator gives [rehash] the memory it asks for.  Buckets are lists in the sense of
    [KList]: an element is in at most one of them, and [list_remove] takes it out of
    the one it is in. *)

From stdpp Require Import base tactics numbers list option gmap fin_maps.
From S2P Require Import Prelude.

Module Hash.

(** [struct hash_elem *] *)
Abbreviation elem := nat.

(** [struct hash], without the callbacks. *)
Record hash := mk_hash { elem_cnt : Z; bucket_cnt : Z; buckets : list (list elem) }.

Definition MIN_ELEMS_PER_BUCKET : Z := 1.
Definition BEST_ELEMS_PER_BUCKET : Z := 2.
Definition MAX_ELEMS_PER_BUCKET : Z := 4.

Definition turn_off_least_1bit (x : Z) : Z := Z.land x (u32 (x - 1)).
Definition is_power_of_2 (x : Z) : bool := negb (x =? 0) && (turn_off_least_1bit x =? 0).

(** The loop of [rehash] that rounds the bucket count down to a power of two. *)
Fixpoint round_pow2 (fuel : nat) (x : Z) : outcome Z :=
  match fuel with
  | O => Blocked
  | S fuel => if is_power_of_2 x then Ret x else round_pow2 fuel (turn_off_least_1bit x)
  end.

Definition FNV_32_PRIME : Z := 16777619.
Definition FNV_32_BASIS : Z := 2166136261.

Definition hash_bytes (buf : list Z) : Z :=
  foldl (λ hash b, Z.lxor (u32 (hash * FNV_32_PRIME)) b) FNV_32_BASIS buf.

(** [hash_string] on the bytes of a string up to its terminator. *)
Fixpoint hash_string_loop (s : list Z) (hash : Z) : outcome Z :=
  match s with
  | [] => UB
  | c :: s => if c =? 0 then Ret hash else hash_string_loop s (Z.lxor (u32 (hash * FNV_32_PRIME)) c)
  end.
Definition hash_string (s : list Z) : outcome Z := hash_string_loop s FNV_32_BASIS.

Definition hash_int (i : Z) : Z := hash_bytes (le_bytes 4 (u32 i)).

Section Table.
Context (hashf : elem → Z) (less : elem → elem → bool).

Definition bucket_idx (h : hash) (e : elem) : Z := Z.land (hashf e) (u32 (bucket_cnt h - 1)).

Definition find_bucket (h : hash) (e : elem) : outcome (list elem) := array_get (buckets h) (bucket_idx h e).

Fixpoint find_elem (bucket : list elem) (e : elem) : option elem :=
  match bucket with
  | [] => None
  | hi :: bucket => if negb (less hi e) && negb (less e hi) then Some hi else find_elem bucket e
  end.

(** [list_push_front] on the bucket of [e]. *)
Definition push_bucket (h : hash) (e : elem) : outcome hash :=
  b ← find_bucket h e;
  Ret (mk_hash (elem_cnt h) (bucket_cnt h) (<[Z.to_nat (bucket_idx h e) := e :: b]> (buckets h))).

Definition insert_elem (h : hash) (e : elem) : outcome hash :=
  push_bucket (mk_hash (u32 (elem_cnt h + 1)) (bucket_cnt h) (buckets h)) e.

Definition remove_elem (h : hash) (e : elem) : hash :=
  mk_hash (u32 (elem_cnt h - 1)) (bucket_cnt h) (map (filter (λ x, x ≠ e)) (buckets h)).

(** The loop of [rehash] that moves the elements. *)
Fixpoint move_all (h : hash) (es : list elem) : outcome hash :=
  match es with [] => Ret h | e :: es => h ← push_bucket h e; move_all h es end.

Definition rehash (h : hash) (alloc : bool) : outcome hash :=
  let new_bucket_cnt := elem_cnt h / BEST_ELEMS_PER_BUCKET in
  let new_bucket_cnt := if new_bucket_cnt <? 4 then 4 else new_bucket_cnt in
  new_bucket_cnt ← round_pow2 (Z.to_nat new_bucket_cnt) new_bucket_cnt;
  if new_bucket_cnt =? bucket_cnt h then Ret h
  else if negb alloc then Ret h
  else
    let old_buckets := buckets h in
    let h := mk_hash (elem_cnt h) new_bucket_cnt (replicate (Z.to_nat new_bucket_cnt) []) in
    move_all h (concat old_buckets).

(** The elements a destructor is called for, in order. *)
Definition hash_clear (h : hash) : list elem * hash :=
  (concat (buckets h), mk_hash 0 (bucket_cnt h) (replicate (Z.to_nat (bucket_cnt h)) [])).

(** [hash_destroy]: the elements the destructor is called on; the table is gone. *)
Definition hash_destroy (h : hash) : list elem := fst (hash_clear h).

Definition hash_init (alloc : bool) : option hash :=
  if alloc then Some (hash_clear (mk_hash 0 4 (replicate 4 []))).2 else None.

Definition hash_insert (h : hash) (new : elem) (alloc : bool) : outcome (option elem * hash) :=
  b ← find_bucket h new;
  let old := find_elem b new in
  h ← (match old with None => insert_elem h new | Some _ => Ret h end);
  h ← rehash h alloc;
  Ret (old, h).

Definition hash_replace (h : hash) (new : elem) (alloc : bool) : outcome (option elem * hash) :=
  b ← find_bucket h new;
  let old := find_elem b new in
  let h := match old with Some o => remove_elem h o | None => h end in
  h ← insert_elem h new;
  h ← rehash h alloc;
  Ret (old, h).

Definition hash_find (h : hash) (e : elem) : outcome (option elem) :=
  b ← find_bucket h e; Ret (find_elem b e).

Definition hash_delete (h : hash) (e : elem) (alloc : bool) : outcome (option elem * hash) :=
  b ← find_bucket h e;
  match find_elem b e with
  | Some found => h ← rehash (remove_elem h found) alloc; Ret (Some found, h)
  | None => Ret (None, h)
  end.

(** The elements the action is called for, in order. *)
Definition hash_apply (h : hash) : list elem := concat (buckets h).

Definition hash_size (h : hash) : Z := elem_cnt h.
Definition hash_empty (h : hash) : bool := elem_cnt h =? 0.

(** [struct hash_iterator]: the bucket, the elements of it that are left, and the current one. *)
Record hash_iterator := mk_iter { it_bucket : nat; it_rest : list elem; it_elem : option elem }.

Definition hash_first (h : hash) : outcome hash_iterator :=
  b ← array_get (buckets h) 0; Ret (mk_iter 0 b None).

(** The loop of [hash_next] over the buckets [bs] that follow the current one. *)
Fixpoint next_bucket (i : nat) (bs : list (list elem)) : hash_iterator :=
  match bs with
  | [] => mk_iter (S i) [] None
  | [] :: bs => next_bucket (S i) bs
  | (e :: b) :: _ => mk_iter (S i) b (Some e)
  end.

Definition hash_next (h : hash) (it : hash_iterator) : hash_iterator :=
  match it_rest it with
  | e :: b => mk_iter (it_bucket it) b (Some e)
  | [] => next_bucket (it_bucket it) (drop (S (it_bucket it)) (buckets h))
  end.

Definition hash_cur (it : hash_iterator) : option elem := it_elem it.

(** The iteration idiom of the header: the elements visited in [n] steps. *)
Fixpoint iterate (n : nat) (h : hash) (it : hash_iterator) : list elem :=
  match n with
  | O => []
  | S n => let it := hash_next h it in match hash_cur it with Some e => e :: iterate n h it | None => [] end
  end.

End Table.
End Hash.
