(* ===== verification/HashProofs.v ===== *)
(** * Hash tables: refinement of finite maps

    With callbacks that compare and hash elements by a key, a table is a finite map from
    keys to elements, whatever the allocator does, and its iterator visits each element
    once. *)

From stdpp Require Import base tactics numbers list option gmap fin_maps.
From S2P Require Import Prelude Hash.

Module HashProofs.
Import Hash.

(** ** Powers of two *)

Lemma land_le_r x y : 0 ≤ y → 0 ≤ Z.land x y ≤ y.
Proof.
  intros Hy. assert (Z.land x y + Z.ldiff y x = y) as E.
  { rewrite Z.add_nocarry_lor.
    - apply Z.bits_inj'. intros n Hn. rewrite Z.lor_spec, Z.land_spec, Z.ldiff_spec.
      by destruct (Z.testbit x n), (Z.testbit y n).
    - apply Z.bits_inj'. intros n Hn. rewrite !Z.land_spec, Z.ldiff_spec, Z.bits_0.
      by destruct (Z.testbit x n), (Z.testbit y n). }
  assert (0 ≤ Z.ldiff y x) by (apply Z.ldiff_nonneg; auto).
  assert (0 ≤ Z.land x y) by (apply Z.land_nonneg; auto). lia.
Qed.

Lemma turn_off_lt x : 0 < x < 2 ^ 32 → 0 ≤ turn_off_least_1bit x < x.
Proof.
  intros Hx. unfold turn_off_least_1bit. rewrite wrap_small by lia.
  pose proof (land_le_r x (x - 1)). lia.
Qed.

Lemma is_power_of_2_pow x : 0 < x < 2 ^ 32 → is_power_of_2 x = true → x = 2 ^ Z.log2 x.
Proof.
  intros Hx H. unfold is_power_of_2, turn_off_least_1bit in H. rewrite wrap_small in H by lia. reflect_bools.
  pose proof (Z.log2_spec x ltac:(lia)) as [Hl Hu]. set (k := Z.log2 x) in *.
  assert (0 ≤ k) by apply Z.log2_nonneg.
  destruct (decide (x = 2 ^ k)) as [|Hne]; [done|exfalso].
  assert (Z.testbit (Z.land x (x - 1)) k = true) as Hb; [|rewrite H0, Z.bits_0 in Hb; done].
  rewrite Z.land_spec. unfold k at 1. rewrite Z.bit_log2 by lia. cbn.
  assert (0 < 2 ^ k) by (apply Z.pow_pos_nonneg; lia).
  assert (Z.log2 (x - 1) = k) as <- by (apply Z.log2_unique; lia). apply Z.bit_log2. lia.
Qed.

(** The rounding loop ends at a power of two. *)
Lemma round_pow2_run fuel x : 0 < x < 2 ^ 32 → (Z.to_nat x ≤ fuel)%nat →
  ∃ k, round_pow2 fuel x = Ret (2 ^ k) ∧ 0 ≤ k < 32.
Proof.
  revert x. induction fuel as [|fuel IH]; intros x Hx Hf; [lia|]. cbn [round_pow2].
  destruct (is_power_of_2 x) eqn:E.
  - exists (Z.log2 x). rewrite <- (is_power_of_2_pow x) by done. split; [done|].
    split; [apply Z.log2_nonneg|]. apply Z.log2_lt_pow2; lia.
  - pose proof (turn_off_lt x Hx) as Hlt. apply IH; [|lia].
    unfold is_power_of_2 in E. reflect_bools. destruct E as [E|E]; reflect_bools; lia.
Qed.

Section Proofs.
Context (key : elem → Z) (hashf : elem → Z) (less : elem → elem → bool).
Context (Hless : ∀ a b, less a b = (key a <? key b)) (Hhash : ∀ a b, key a = key b → hashf a = hashf b).

(** ** Placement *)

(** Every element is in the bucket its hash selects. *)
Record placed (h : hash) : Prop := mk_placed {
  pl_cnt : ∃ k, bucket_cnt h = 2 ^ k ∧ 0 ≤ k < 32;
  pl_len : Z.of_nat (length (buckets h)) = bucket_cnt h;
  pl_in i b e : buckets h !! i = Some b → e ∈ b → Z.of_nat i = bucket_idx hashf h e }.

Lemma bucket_idx_mod h e k : bucket_cnt h = 2 ^ k → 0 ≤ k < 32 → bucket_idx hashf h e = hashf e mod 2 ^ k.
Proof.
  intros E Hk. unfold bucket_idx. rewrite E. assert (0 < 2 ^ k) by (apply Z.pow_pos_nonneg; lia).
  assert (2 ^ k ≤ 2 ^ 31) by (apply Z.pow_le_mono_r; lia).
  rewrite wrap_small by lia. rewrite <- Z.land_ones by lia. by rewrite Z.ones_equiv, <- Z.sub_1_r.
Qed.

Lemma bucket_idx_range h e : placed h → 0 ≤ bucket_idx hashf h e < bucket_cnt h.
Proof.
  intros [(k & E & Hk) _ _]. rewrite (bucket_idx_mod h e k E Hk), E. apply Z.mod_pos_bound.
  apply Z.pow_pos_nonneg; lia.
Qed.

Lemma find_bucket_run h e : placed h →
  ∃ b, find_bucket hashf h e = Ret b ∧ buckets h !! Z.to_nat (bucket_idx hashf h e) = Some b.
Proof.
  intros H. pose proof (bucket_idx_range h e H). apply array_get_in. by rewrite (pl_len _ H).
Qed.

Lemma push_bucket_run h e : placed h →
  ∃ h', push_bucket hashf h e = Ret h' ∧ placed h' ∧ elem_cnt h' = elem_cnt h ∧ bucket_cnt h' = bucket_cnt h ∧
    concat (buckets h') ≡ₚ e :: concat (buckets h).
Proof.
  intros H. destruct (find_bucket_run h e H) as (b & E & Hb). unfold push_bucket. rewrite E.
  cbn [mbind outcome_bind]. eexists. split; [done|]. split_and!; [|done|done|].
  - destruct H as [Hc Hl Hin]. constructor; cbn; [done|by rewrite length_insert|].
    intros i b' x Hi Hx. pose proof (bucket_idx_range h e (mk_placed h Hc Hl Hin)) as Hr.
    destruct (decide (i = Z.to_nat (bucket_idx hashf h e))) as [->|Hne].
    + rewrite list_lookup_insert_eq in Hi by (by eapply lookup_lt_Some). injection Hi as <-.
      apply elem_of_cons in Hx as [->|Hx]; [rewrite Z2Nat.id by lia; done|]. by eapply Hin.
    + rewrite list_lookup_insert_ne in Hi by done. by eapply Hin.
  - cbn. rewrite <- (take_drop_middle _ _ _ Hb) at 2. rewrite insert_take_drop by (by eapply lookup_lt_Some).
    rewrite !concat_app. cbn. symmetry. apply Permutation_middle.
Qed.

Lemma move_all_run es : ∀ h, placed h →
  ∃ h', move_all hashf h es = Ret h' ∧ placed h' ∧ elem_cnt h' = elem_cnt h ∧
    concat (buckets h') ≡ₚ es ++ concat (buckets h).
Proof.
  induction es as [|e es IH]; intros h H; cbn [move_all]; [by exists h|].
  destruct (push_bucket_run h e H) as (h1 & E & H1 & Hc1 & _ & Hp1). rewrite E. cbn [mbind outcome_bind].
  destruct (IH h1 H1) as (h' & E' & H' & Hc' & Hp'). exists h'. split_and!; [done|done|congruence|].
  rewrite Hp', Hp1. cbn. symmetry. apply Permutation_middle.
Qed.

Lemma concat_nils n : concat (replicate n ([] : list elem)) = [].
Proof. induction n; done. Qed.

Lemma empty_placed c k : 0 ≤ k < 32 → placed (mk_hash c (2 ^ k) (replicate (Z.to_nat (2 ^ k)) [])).
Proof.
  intros Hk. constructor; cbn.
  - by exists k.
  - rewrite length_replicate. assert (0 < 2 ^ k) by (apply Z.pow_pos_nonneg; lia). lia.
  - intros i b e Hi. apply lookup_replicate in Hi as [-> _]. intros Hx. by apply not_elem_of_nil in Hx.
Qed.

(** Rehashing keeps the elements, whatever the allocator does. *)
Lemma rehash_run h alloc : placed h → 0 ≤ elem_cnt h < 2 ^ 32 →
  ∃ h', rehash hashf h alloc = Ret h' ∧ placed h' ∧ elem_cnt h' = elem_cnt h ∧
    concat (buckets h') ≡ₚ concat (buckets h).
Proof.
  intros H Hc. unfold rehash. change BEST_ELEMS_PER_BUCKET with 2. set (n := if _ <? 4 then 4 else _).
  assert (0 < n < 2 ^ 32) as Hn.
  { unfold n. destruct (Z.ltb_spec (elem_cnt h / 2) 4); [lia|].
    split; [lia|]. apply Z.div_lt_upper_bound; lia. }
  destruct (round_pow2_run (Z.to_nat n) n Hn ltac:(done)) as (k & -> & Hk). cbn [mbind outcome_bind].
  destruct (2 ^ k =? bucket_cnt h); [by exists h|]. destruct alloc; cbn [negb]; [|by exists h].
  destruct (move_all_run (concat (buckets h)) _ (empty_placed (elem_cnt h) k Hk)) as (h' & E & H' & Hc' & Hp').
  exists h'. split_and!; [done|done|done|].
  cbn [buckets] in Hp'. by rewrite concat_nils, app_nil_r in Hp'.
Qed.

(** ** The map a table represents *)

Definition to_map (l : list elem) : gmap Z elem := list_to_map ((λ e, (key e, e)) <$> l).

Record rep (h : hash) (m : gmap Z elem) : Prop := mk_rep {
  rp_placed : placed h;
  rp_cnt : elem_cnt h = Z.of_nat (length (concat (buckets h)));
  rp_keys : NoDup (key <$> concat (buckets h));
  rp_map : m = to_map (concat (buckets h)) }.

Lemma to_map_keys l : ((λ e, (key e, e)) <$> l).*1 = key <$> l.
Proof. rewrite <- list_fmap_compose. by apply list_fmap_ext. Qed.

Lemma to_map_lookup l k e : NoDup (key <$> l) → to_map l !! k = Some e ↔ e ∈ l ∧ key e = k.
Proof.
  intros Hn. unfold to_map. rewrite <- elem_of_list_to_map by (by rewrite to_map_keys).
  rewrite list_elem_of_fmap. naive_solver.
Qed.

Lemma to_map_none l k : to_map l !! k = None ↔ ∀ e, e ∈ l → key e ≠ k.
Proof.
  unfold to_map. rewrite <- not_elem_of_list_to_map, to_map_keys, list_elem_of_fmap. naive_solver.
Qed.

Lemma to_map_perm l l' : NoDup (key <$> l) → l ≡ₚ l' → to_map l = to_map l'.
Proof.
  intros Hn Hp. apply list_to_map_proper; [by rewrite to_map_keys|]. by apply fmap_Permutation.
Qed.

Lemma to_map_size l : NoDup (key <$> l) → size (to_map l) = length l.
Proof. intros Hn. unfold to_map. rewrite map_size_list_to_map by (by rewrite to_map_keys). by rewrite length_fmap. Qed.

Lemma to_map_delete l e : NoDup (key <$> l) → e ∈ l →
  NoDup (key <$> filter (λ x, x ≠ e) l) ∧ to_map (filter (λ x, x ≠ e) l) = delete (key e) (to_map l) ∧
  length l = S (length (filter (λ x, x ≠ e) l)).
Proof.
  intros Hn He. apply list_elem_of_split in He as (l1 & l2 & ->). rewrite fmap_app, fmap_cons in Hn.
  apply NoDup_app in Hn as (Hn1 & Hd & [Hn2 Hn3]%NoDup_cons).
  assert (filter (λ x, x ≠ e) (l1 ++ e :: l2) = l1 ++ l2) as ->.
  { rewrite filter_app, filter_cons_False by naive_solver. f_equal; apply list_filter_all; intros x Hx ->.
    - apply (Hd (key e)); [by apply list_elem_of_fmap_2|by left].
    - by apply Hn2, list_elem_of_fmap_2. }
  assert (NoDup (key <$> l1 ++ l2)) as Hn12.
  { rewrite fmap_app. apply NoDup_app. split_and!; [done| |done]. intros x Hx Hx'. apply (Hd x Hx). by right. }
  split; [done|]. split; [|rewrite !length_app; cbn; lia].
  rewrite (to_map_perm (l1 ++ e :: l2) (e :: l1 ++ l2)).
  - unfold to_map at 2. cbn [fmap list_fmap]. rewrite list_to_map_cons, delete_insert_id; [done|].
    apply not_elem_of_list_to_map. rewrite to_map_keys, fmap_app, elem_of_app. intros [Hx|Hx]; [|done].
    apply (Hd (key e) Hx). by left.
  - rewrite fmap_app, fmap_cons. apply NoDup_app. split_and!; [done|done|]. by apply NoDup_cons.
  - symmetry. apply Permutation_middle.
Qed.

(** The search finds the element of the key. *)
Lemma find_elem_spec b e :
  match find_elem less b e with
  | Some x => x ∈ b ∧ key x = key e
  | None => ∀ x, x ∈ b → key x ≠ key e
  end.
Proof.
  induction b as [|x b IH]; cbn [find_elem].
  - intros x Hx. by apply not_elem_of_nil in Hx.
  - rewrite !Hless. destruct (Z.ltb_spec (key x) (key e)), (Z.ltb_spec (key e) (key x)); cbn [negb andb]; try lia.
    + destruct (find_elem less b e); [destruct IH; split; [by right|done]|].
      intros y [->|Hy]%elem_of_cons; [lia|by apply IH].
    + destruct (find_elem less b e); [destruct IH; split; [by right|done]|].
      intros y [->|Hy]%elem_of_cons; [lia|by apply IH].
    + split; [by left|lia].
Qed.

Lemma elem_of_concat (bs : list (list elem)) e : e ∈ concat bs ↔ ∃ i b, bs !! i = Some b ∧ e ∈ b.
Proof.
  rewrite list_elem_of_In, in_concat. split.
  - intros (b & [i Hi]%list_elem_of_In%list_elem_of_lookup_1 & He%list_elem_of_In). eauto.
  - intros (i & b & Hi & He). exists b. split; apply list_elem_of_In; [by eapply list_elem_of_lookup_2|done].
Qed.

Lemma find_run h m e : rep h m →
  ∃ b, find_bucket hashf h e = Ret b ∧ find_elem less b e = m !! key e.
Proof.
  intros [H Hc Hn ->]. destruct (find_bucket_run h e H) as (b & E & Hb). exists b. split; [done|].
  pose proof (find_elem_spec b e) as Hf. destruct (find_elem less b e) as [x|]; symmetry.
  - apply to_map_lookup; [done|]. destruct Hf. split; [|done]. apply elem_of_concat. eauto.
  - apply to_map_none. intros x (i & b' & Hi & Hx)%elem_of_concat Hk.
    pose proof (pl_in _ H _ _ _ Hi Hx) as Hidx.
    assert (bucket_idx hashf h x = bucket_idx hashf h e) as E' by (unfold bucket_idx; by rewrite (Hhash x e Hk)).
    rewrite E' in Hidx. rewrite <- Hidx, Nat2Z.id in Hb. rewrite Hi in Hb. injection Hb as ->.
    by apply (Hf x).
Qed.

(** ** Operations *)

Lemma insert_elem_run h m e : rep h m → m !! key e = None → elem_cnt h + 1 < 2 ^ 32 →
  ∃ h', insert_elem hashf h e = Ret h' ∧ rep h' (<[key e := e]> m) ∧ elem_cnt h' = elem_cnt h + 1.
Proof.
  intros [H Hc Hn ->] Hk Hlt. unfold insert_elem. rewrite wrap_small by lia.
  set (h0 := mk_hash _ _ _). assert (placed h0) as H0 by (by destruct H).
  destruct (push_bucket_run h0 e H0) as (h1 & E & H1 & Hc1 & _ & Hp1). exists h1. split; [done|].
  change (buckets h0) with (buckets h) in Hp1. rewrite to_map_none in Hk.
  assert (NoDup (key <$> e :: concat (buckets h))) as Hne.
  { cbn. apply NoDup_cons. split; [|done]. intros (x & Hx & Hin)%list_elem_of_fmap. by apply (Hk x). }
  assert (NoDup (key <$> concat (buckets h1))) as Hn1 by (by rewrite Hp1).
  split; [|by rewrite Hc1]. constructor; [done| |done|].
  - rewrite Hc1, Hp1. unfold h0. cbn. lia.
  - rewrite (to_map_perm _ _ Hn1 Hp1). unfold to_map. cbn [fmap list_fmap]. by rewrite list_to_map_cons.
Qed.

Lemma concat_filter (P : elem → Prop) `{∀ x, Decision (P x)} (bs : list (list elem)) :
  concat (map (filter P) bs) = filter P (concat bs).
Proof. induction bs as [|b bs IH]; [done|]. cbn. by rewrite filter_app, IH. Qed.

Lemma remove_elem_run h m e : rep h m → m !! key e = Some e → elem_cnt h < 2 ^ 32 →
  rep (remove_elem h e) (delete (key e) m) ∧ elem_cnt (remove_elem h e) = elem_cnt h - 1.
Proof.
  intros [H Hc Hn ->] Hk Hlt. apply to_map_lookup in Hk as [He _]; [|done].
  destruct (to_map_delete _ e Hn He) as (Hn' & Em & El).
  assert (elem_cnt (remove_elem h e) = elem_cnt h - 1) as Ec by (cbn; apply wrap_small; lia).
  split; [|done]. constructor.
  - destruct H as [H1 H2 H3]. constructor; cbn; [done|by rewrite length_map|].
    intros i b x Hi Hx. rewrite list_lookup_fmap in Hi. apply fmap_Some in Hi as (b' & Hb' & ->).
    apply list_elem_of_filter in Hx as [_ Hx]. by eapply H3.
  - rewrite Ec. cbn. rewrite concat_filter. lia.
  - cbn. by rewrite concat_filter.
  - cbn. by rewrite concat_filter.
Qed.

Lemma rehash_rep h m alloc : rep h m → elem_cnt h < 2 ^ 32 →
  ∃ h', rehash hashf h alloc = Ret h' ∧ rep h' m ∧ elem_cnt h' = elem_cnt h.
Proof.
  intros [H Hc Hn ->] Hlt. destruct (rehash_run h alloc H ltac:(lia)) as (h' & E & H' & Hc' & Hp').
  exists h'. split; [done|]. split; [|done]. constructor; [done|by rewrite Hc', Hp'|by rewrite Hp'|].
  symmetry. apply to_map_perm; [by rewrite Hp'|done].
Qed.

(** The operations a client calls, on tables and on maps. *)
Inductive hop :=
| H_insert (e : elem) (alloc : bool) | H_replace (e : elem) (alloc : bool)
| H_find (e : elem) | H_delete (e : elem) (alloc : bool) | H_clear.

Definition hash_op (h : hash) (op : hop) : outcome (option elem * hash) :=
  match op with
  | H_insert e a => hash_insert hashf less h e a
  | H_replace e a => hash_replace hashf less h e a
  | H_find e => r ← hash_find hashf less h e; Ret (r, h)
  | H_delete e a => hash_delete hashf less h e a
  | H_clear => Ret (None, (hash_clear h).2)
  end.

Definition map_op (m : gmap Z elem) (op : hop) : option elem * gmap Z elem :=
  match op with
  | H_insert e _ => (m !! key e, if m !! key e then m else <[key e := e]> m)
  | H_replace e _ => (m !! key e, <[key e := e]> m)
  | H_find e => (m !! key e, m)
  | H_delete e _ => (m !! key e, delete (key e) m)
  | H_clear => (None, ∅)
  end.

Fixpoint hash_ops (h : hash) (ops : list hop) : outcome (list (option elem) * hash) :=
  match ops with
  | [] => Ret ([], h)
  | op :: ops => '(r, h) ← hash_op h op; '(rs, h) ← hash_ops h ops; Ret (r :: rs, h)
  end.

Fixpoint map_ops (m : gmap Z elem) (ops : list hop) : list (option elem) * gmap Z elem :=
  match ops with
  | [] => ([], m)
  | op :: ops => let '(r, m) := map_op m op in let '(rs, m) := map_ops m ops in (r :: rs, m)
  end.

Lemma rep_key h m k e : rep h m → m !! k = Some e → key e = k.
Proof. intros [_ _ Hn ->] Hk. by apply to_map_lookup in Hk as [_ ?]. Qed.

Lemma hash_op_run h m op : rep h m → elem_cnt h + 1 < 2 ^ 32 →
  ∃ h', hash_op h op = Ret ((map_op m op).1, h') ∧ rep h' (map_op m op).2 ∧ elem_cnt h' ≤ elem_cnt h + 1.
Proof.
  intros H Hlt. destruct op as [e a|e a|e|e a|]; cbn [hash_op map_op fst snd].
  - unfold hash_insert. destruct (find_run h m e H) as (b & Eb & Ef). rewrite Eb. cbn [mbind outcome_bind]. rewrite Ef.
    destruct (m !! key e) as [o|] eqn:Ek.
    + destruct (rehash_rep h m a H ltac:(lia)) as (h' & Er & H' & Hc'). exists h'. cbn [mbind outcome_bind]. rewrite Er. cbn. split; [done|]. split; [done|lia].
    + destruct (insert_elem_run h m e H Ek Hlt) as (h1 & Ei & H1 & Hc1). rewrite Ei. cbn [mbind outcome_bind].
      destruct (rehash_rep h1 _ a H1 ltac:(lia)) as (h' & Er & H' & Hc'). exists h'. cbn [mbind outcome_bind]. rewrite Er. cbn. split; [done|]. split; [done|lia].
  - unfold hash_replace. destruct (find_run h m e H) as (b & Eb & Ef). rewrite Eb. cbn [mbind outcome_bind]. rewrite Ef.
    destruct (m !! key e) as [o|] eqn:Ek.
    + pose proof (rep_key h m _ _ H Ek) as Eo.
      destruct (remove_elem_run h m o H ltac:(by rewrite Eo) ltac:(lia)) as [H0 Hc0]. rewrite Eo in H0.
      destruct (insert_elem_run _ _ e H0) as (h1 & Ei & H1 & Hc1); [by rewrite lookup_delete_eq|lia|]. rewrite Ei.
      cbn [mbind outcome_bind]. rewrite insert_delete_eq in H1.
      destruct (rehash_rep h1 _ a H1 ltac:(lia)) as (h' & Er & H' & Hc'). exists h'. cbn [mbind outcome_bind]. rewrite Er. cbn. split; [done|]. split; [done|lia].
    + destruct (insert_elem_run h m e H Ek Hlt) as (h1 & Ei & H1 & Hc1). rewrite Ei. cbn [mbind outcome_bind].
      destruct (rehash_rep h1 _ a H1 ltac:(lia)) as (h' & Er & H' & Hc'). exists h'. cbn [mbind outcome_bind]. rewrite Er. cbn. split; [done|]. split; [done|lia].
  - unfold hash_find. destruct (find_run h m e H) as (b & Eb & Ef). rewrite Eb. cbn [mbind outcome_bind]. rewrite Ef. exists h. cbn. split; [done|]. split; [done|lia].
  - unfold hash_delete. destruct (find_run h m e H) as (b & Eb & Ef). rewrite Eb. cbn [mbind outcome_bind]. rewrite Ef.
    destruct (m !! key e) as [o|] eqn:Ek.
    + pose proof (rep_key h m _ _ H Ek) as Eo.
      destruct (remove_elem_run h m o H ltac:(by rewrite Eo) ltac:(lia)) as [H0 Hc0]. rewrite Eo in H0.
      destruct (rehash_rep _ _ a H0 ltac:(lia)) as (h' & Er & H' & Hc'). exists h'. cbn [mbind outcome_bind]. rewrite Er. cbn. split; [done|]. split; [done|lia].
    + exists h. split; [done|]. rewrite delete_id by done. split; [done|lia].
  - exists (hash_clear h).2. split; [done|]. destruct H as [H Hc Hn ->]. destruct (pl_cnt _ H) as (k & Ek & Hk).
    cbn. rewrite Ek. split; [|cbn; lia]. constructor; cbn [elem_cnt buckets]; rewrite ?concat_nils; [by apply empty_placed|done|constructor|done].
Qed.

(** The table's iterator: from a bucket on, it visits the rest of it and the buckets after. *)
Lemma iterate_run h n it : (length (it_rest it ++ concat (drop (S (it_bucket it)) (buckets h))) < n)%nat →
  iterate n h it = it_rest it ++ concat (drop (S (it_bucket it)) (buckets h)).
Proof.
  revert it. induction n as [|n IH]; intros [i b o] Hn; cbn [it_rest it_bucket] in *; [lia|].
  cbn [iterate]. unfold hash_next. cbn [it_rest it_bucket]. destruct b as [|e b].
  - cbn [app] in *.
    assert (∀ j b bs, drop (S j) (buckets h) = b :: bs → drop (S (S j)) (buckets h) = bs) as Htl.
    { intros j b bs Hj. replace (S (S j)) with (S j + 1)%nat by lia. by rewrite <- drop_drop, Hj. }
    assert (∀ bs j, drop (S j) (buckets h) = bs →
      match it_elem (next_bucket j bs) with
      | Some e => concat bs = e :: it_rest (next_bucket j bs) ++
          concat (drop (S (it_bucket (next_bucket j bs))) (buckets h))
      | None => concat bs = []
      end) as Hnb.
    { induction bs as [|[|e b] bs IHb]; intros j Hj; cbn [next_bucket]; [done| |].
      - cbn [concat app]. apply IHb. by apply Htl in Hj.
      - cbn. by apply Htl in Hj as ->. }
    specialize (Hnb _ i eq_refl). unfold hash_cur.
    destruct (next_bucket i (drop (S i) (buckets h))) as [i' b' [e|]] eqn:E; cbn [it_elem it_rest it_bucket] in *.
    + rewrite Hnb. f_equal. apply IH. cbn. rewrite Hnb in Hn. cbn in Hn. lia.
    + done.
  - cbn. f_equal. apply IH. cbn in *. lia.
Qed.

Lemma hash_ops_run ops : ∀ h m, rep h m → elem_cnt h + Z.of_nat (length ops) < 2 ^ 32 →
  ∃ h', hash_ops h ops = Ret ((map_ops m ops).1, h') ∧ rep h' (map_ops m ops).2.
Proof.
  induction ops as [|op ops IH]; intros h m H Hlt; cbn [hash_ops map_ops]; [by exists h|]. cbn [length] in Hlt.
  destruct (hash_op_run h m op H ltac:(lia)) as (h1 & E & H1 & Hc1). rewrite E.
  destruct (map_op m op) as [r m1]. cbn [mbind outcome_bind fst snd] in *.
  destruct (IH h1 m1 H1 ltac:(lia)) as (h' & E' & H'). rewrite E'.
  destruct (map_ops m1 ops) as [rs m2]. exists h'. done.
Qed.

(** C22. A hash table is a finite map.  With callbacks that order and hash elements by a key,
    any sequence of insertions, replacements, look-ups, deletions and clearings on a fresh
    table returns what it returns on a map from keys to elements, whether or not memory is
    available for rehashing; the size is the map's, and iterating with [hash_first] and
    [hash_next] visits each of its elements exactly once and then ends. *)
Theorem hash_refines_map h0 ops : hash_init true = Some h0 → Z.of_nat (length ops) < 2 ^ 32 →
  let '(rs, m) := map_ops ∅ ops in
  ∃ h' it, hash_ops h0 ops = Ret (rs, h') ∧ hash_size h' = Z.of_nat (size m) ∧ hash_first h' = Ret it ∧
    ∀ n, (size m < n)%nat →
      NoDup (iterate n h' it) ∧ ∀ e, e ∈ iterate n h' it ↔ m !! key e = Some e.
Proof.
  intros [= <-] Hlt.
  assert (rep (mk_hash 0 4 (replicate 4 [])) ∅) as H0.
  { constructor; [exact (empty_placed 0 2 ltac:(lia))|done|constructor|done]. }
  destruct (hash_ops_run ops _ _ H0 ltac:(cbn; lia)) as (h' & E & H'). destruct (map_ops ∅ ops) as [rs m].
  cbn [fst snd] in *. destruct H' as [Hp Hc Hn ->].
  assert (0 < Z.of_nat (length (buckets h'))) as Hlen.
  { rewrite (pl_len _ Hp). destruct (pl_cnt _ Hp) as (k & -> & Hk). apply Z.pow_pos_nonneg; lia. }
  destruct (array_get_in (buckets h') 0) as (b & Eb & Hb); [lia|].
  exists h', (mk_iter 0 b None). split; [done|]. split; [by rewrite to_map_size by done|].
  split; [unfold hash_first; by rewrite Eb|]. intros n Hs. rewrite to_map_size in Hs by done.
  assert (b ++ concat (drop 1 (buckets h')) = concat (buckets h')) as Eall.
  { destruct (buckets h'); [done|]. injection Hb as ->. done. }
  rewrite iterate_run by (cbn [it_rest it_bucket]; by rewrite Eall). cbn [it_rest it_bucket]. rewrite Eall. split.
  - by eapply NoDup_fmap_1.
  - intros e. rewrite to_map_lookup by done. naive_solver.
Qed.

End Proofs.

(** Elements are their own keys, hashed as integers. *)
Lemma hash_refines_map_witness :
  ∃ h' it, hash_ops (λ e, hash_int (Z.of_nat e)) (λ a b, Z.of_nat a <? Z.of_nat b)
      (mk_hash 0 4 (replicate 4 [])) [H_insert 7 true; H_insert 9 false; H_delete 7 true; H_find 9]%nat =
    Ret ([None; None; Some 7; Some 9]%nat, h') ∧ hash_size h' = 1 ∧ hash_first h' = Ret it ∧ 9%nat ∈ iterate 2 h' it.
Proof.
  destruct (hash_refines_map Z.of_nat (λ e, hash_int (Z.of_nat e)) (λ a b, Z.of_nat a <? Z.of_nat b)
    (λ a b, eq_refl) (λ a b E, f_equal hash_int E) (mk_hash 0 4 (replicate 4 []))
    [H_insert 7 true; H_insert 9 false; H_delete 7 true; H_find 9]%nat eq_refl) as (h' & it & E & Hs & Hf & Hit).
  - vm_compute. reflexivity.
  - exists h', it. split; [exact E|]. split; [exact Hs|]. split; [exact Hf|].
    apply (proj2 (Hit 2%nat ltac:(vm_compute; lia))). vm_compute. reflexivity.
Defined.

End HashProofs.
