(* ===== verification/Palloc.v ===== *)
(** * The page allocator: [threads/palloc.c]

    Two pools of pages, each with a bitmap of the pages in use (the [Bitmap] component).
    Addresses are 32-bit kernel virtual addresses of the i386 port; [mem] is the content
    of memory, byte by byte.  The pools' locks have no effect on one thread.

    [PageAlloc] is what the page allocator promises to its clients: [Malloc] is proved
    against it, and [palloc_pages] shows that the pools keep the promise. *)

From stdpp Require Import base tactics numbers list option.
From S2P Require Import Prelude Bitmap.

(** ** The promise *)

(** A page is named by its number.  [pa_used s q]: page [q] has been handed out.  [pa_mem]
    is the content of memory, which clients write. *)
Class PageAlloc (S : Type) := {
  pa_get : S → Z → outcome (option Z * S);
  pa_free : S → Z → Z → outcome S;
  pa_mem : S → Z → Z;
  pa_set_mem : S → (Z → Z) → S;
  pa_ok : S → Prop;
  pa_used : S → Z → Prop;
  pa_get_spec s cnt : pa_ok s → 0 < cnt →
    ∃ r s', pa_get s cnt = Ret (r, s') ∧ pa_ok s' ∧ pa_mem s' = pa_mem s ∧
      match r with
      | Some p => 0 < p ∧ p + cnt ≤ 2 ^ 20 ∧
          (∀ q, p ≤ q < p + cnt → ¬ pa_used s q) ∧
          (∀ q, pa_used s' q ↔ pa_used s q ∨ p ≤ q < p + cnt)
      | None => ∀ q, pa_used s' q ↔ pa_used s q
      end;
  pa_free_spec s p cnt : pa_ok s → 0 < cnt → (∀ q, p ≤ q < p + cnt → pa_used s q) →
    ∃ s', pa_free s p cnt = Ret s' ∧ pa_ok s' ∧
      (∀ q, pa_used s' q ↔ pa_used s q ∧ ¬ (p ≤ q < p + cnt)) ∧
      (∀ x, ¬ (p ≤ x / 4096 < p + cnt) → pa_mem s' x = pa_mem s x);
  pa_set_mem_spec s m : pa_ok s →
    pa_ok (pa_set_mem s m) ∧ pa_mem (pa_set_mem s m) = m ∧ ∀ q, pa_used (pa_set_mem s m) q ↔ pa_used s q }.

Module Palloc.
Import Bitmap.

(** ** Addresses: [arch/i386/vaddr.h] *)

Definition PGBITS : Z := 12.
Definition PGSIZE : Z := Z.shiftl 1 PGBITS.
Definition PGMASK : Z := Z.shiftl 1 PGBITS - 1.
Definition pg_ofs (va : Z) : Z := Z.land va PGMASK.
Definition pg_no (va : Z) : Z := Z.shiftr va PGBITS.
Definition pg_round_down (va : Z) : Z := Z.land va (u32 (Z.lnot PGMASK)).
Definition PHYS_BASE : Z := 0xc0000000.
Definition ptov (paddr : Z) : outcome Z := ASSERT (paddr <? PHYS_BASE);; Ret (u32 (paddr + PHYS_BASE)).

(** ** Pools *)

Definition PAL_ASSERT : Z := 1.
Definition PAL_ZERO : Z := 2.
Definition PAL_USER : Z := 4.
Definition has (flags f : Z) : bool := negb (Z.land flags f =? 0).

Record pool := mk_pool { used_map : bitmap; base : Z }.
Record palloc := mk_palloc { kernel_pool : pool; user_pool : pool; mem : Z → Z }.

Definition memset (m : Z → Z) (a v n : Z) : Z → Z := λ x, if (a <=? x) && (x <? a + n) then v else m x.

Definition with_map (p : pool) (b : bitmap) : pool := mk_pool b (base p).
Definition with_pool (s : palloc) (user : bool) (p : pool) : palloc :=
  if user then mk_palloc (kernel_pool s) p (mem s) else mk_palloc p (user_pool s) (mem s).
Definition get_pool (s : palloc) (user : bool) : pool := if user then user_pool s else kernel_pool s.
Definition with_mem (s : palloc) (m : Z → Z) : palloc := mk_palloc (kernel_pool s) (user_pool s) m.

Definition palloc_get_multiple (s : palloc) (flags page_cnt : Z) : outcome (Z * palloc) :=
  if page_cnt =? 0 then Ret (0, s) else
  let user := has flags PAL_USER in
  let p := get_pool s user in
  '(page_idx, b) ← bitmap_scan_and_flip (used_map p) 0 page_cnt false;
  let s := with_pool s user (with_map p b) in
  let pages := if negb (page_idx =? BITMAP_ERROR) then u32 (base p + PGSIZE * page_idx) else 0 in
  if negb (pages =? 0) then
    Ret (pages, if has flags PAL_ZERO then with_mem s (memset (mem s) pages 0 (PGSIZE * page_cnt)) else s)
  else ASSERT (negb (has flags PAL_ASSERT));; Ret (0, s).

Definition palloc_get_page (s : palloc) (flags : Z) : outcome (Z * palloc) := palloc_get_multiple s flags 1.

Definition page_from_pool (p : pool) (page : Z) : bool :=
  let page_no := pg_no page in
  let start_page := pg_no (base p) in
  let end_page := start_page + bitmap_size (used_map p) in
  (start_page <=? page_no) && (page_no <? end_page).

Definition palloc_free_multiple (s : palloc) (pages page_cnt : Z) : outcome palloc :=
  ASSERT (pg_ofs pages =? 0);;
  if (pages =? 0) || (page_cnt =? 0) then Ret s else
  user ← (if page_from_pool (kernel_pool s) pages then Ret false
          else if page_from_pool (user_pool s) pages then Ret true
          else Panic);
  let p := get_pool s user in
  let page_idx := pg_no pages - pg_no (base p) in
  let s := with_mem s (memset (mem s) pages 0xcc (PGSIZE * page_cnt)) in
  all ← bitmap_all (used_map p) page_idx page_cnt;
  ASSERT all;;
  b ← bitmap_set_multiple (used_map p) page_idx page_cnt false;
  Ret (with_pool s user (with_map p b)).

Definition palloc_free_page (s : palloc) (page : Z) : outcome palloc := palloc_free_multiple s page 1.

(** [words] is what the memory of the bitmap holds before it is cleared. *)
Definition init_pool (start page_cnt : Z) (words : list Z) : outcome pool :=
  let bm_pages := DIV_ROUND_UP (bitmap_buf_size page_cnt) PGSIZE in
  if page_cnt <? bm_pages then Panic else
  let page_cnt := page_cnt - bm_pages in
  b ← bitmap_create_in_buf page_cnt words (bm_pages * PGSIZE);
  Ret (mk_pool b (start + bm_pages * PGSIZE)).

(** [palloc_init] on i386. *)
Definition palloc_init (init_ram_pages user_page_limit : Z) (kwords uwords : list Z) (m : Z → Z) : outcome palloc :=
  free_start ← ptov (1024 * 1024);
  free_end ← ptov (u32 (init_ram_pages * PGSIZE));
  let free_pages := (free_end - free_start) / PGSIZE in
  let user_pages := free_pages / 2 in
  let user_pages := if user_page_limit <? user_pages then user_page_limit else user_pages in
  let kernel_pages := free_pages - user_pages in
  k ← init_pool free_start kernel_pages kwords;
  u ← init_pool (free_start + kernel_pages * PGSIZE) user_pages uwords;
  Ret (mk_palloc k u m).

(** ** Invariant *)

Definition first_page (p : pool) : Z := base p / 4096.

Record pool_ok (p : pool) : Prop := mk_pool_ok {
  pk_wf : wf (used_map p);
  pk_aligned : base p = first_page p * 4096;
  pk_first : 0 < first_page p;
  pk_last : first_page p + bit_cnt (used_map p) ≤ 2 ^ 20 }.

(** A page of the pool that is handed out. *)
Definition used (p : pool) (q : Z) : Prop :=
  first_page p ≤ q < first_page p + bit_cnt (used_map p) ∧ bm_bit (used_map p) (q - first_page p) = true.

Record palloc_ok (s : palloc) : Prop := mk_palloc_ok {
  po_kernel : pool_ok (kernel_pool s);
  po_user : pool_ok (user_pool s);
  po_apart : first_page (kernel_pool s) + bit_cnt (used_map (kernel_pool s)) ≤ first_page (user_pool s) }.

Lemma po_pool s u : palloc_ok s → pool_ok (get_pool s u).
Proof. intros []. by destruct u. Qed.

Lemma pg_no_div va : pg_no va = va / 4096.
Proof. unfold pg_no, PGBITS. by rewrite Z.shiftr_div_pow2. Qed.

Lemma pg_ofs_mod va : pg_ofs va = va mod 4096.
Proof. unfold pg_ofs, PGMASK, PGBITS. change (Z.shiftl 1 12 - 1) with (Z.ones 12). by rewrite Z.land_ones. Qed.

Lemma pool_ok_with p b : pool_ok p → wf b → bit_cnt b = bit_cnt (used_map p) → pool_ok (with_map p b).
Proof. intros [? ? ? ?] Hw Hc. constructor; cbn; [done|done|done|by rewrite Hc]. Qed.

Lemma with_pool_ok s u b : palloc_ok s → wf b → bit_cnt b = bit_cnt (used_map (get_pool s u)) →
  palloc_ok (with_pool s u (with_map (get_pool s u) b)).
Proof.
  intros Hs Hw Hc. pose proof (pool_ok_with _ b (po_pool s u Hs) Hw Hc) as Hp. destruct Hs as [Hk Hu Ha].
  destruct u; constructor; cbn in *; try done. by rewrite Hc.
Qed.

Lemma get_with_pool s u p : get_pool (with_pool s u p) u = p.
Proof. by destruct u. Qed.
Lemma get_with_pool_ne s u p : get_pool (with_pool s u p) (negb u) = get_pool s (negb u).
Proof. by destruct u. Qed.

(** ** Allocation *)

(** What a successful allocation does to the pool. *)
Definition allocated (p p' : pool) (first cnt : Z) : Prop :=
  first_page p ≤ first ∧ first + cnt ≤ first_page p + bit_cnt (used_map p) ∧
  (∀ q, first ≤ q < first + cnt → ¬ used p q) ∧
  (∀ q, used p' q ↔ used p q ∨ first ≤ q < first + cnt).

(** No run of [cnt] free pages. *)
Definition exhausted (p : pool) (cnt : Z) : Prop :=
  ∀ first, first_page p ≤ first → first + cnt ≤ first_page p + bit_cnt (used_map p) →
  ∃ q, first ≤ q < first + cnt ∧ used p q.

Lemma not_run b i cnt v : 0 < cnt → ¬ run_at b i cnt v → ∃ j, i ≤ j < i + cnt ∧ bm_bit b j = negb v.
Proof.
  intros Hc. assert (∀ n : nat, ¬ run_at b i (Z.of_nat n) v →
    ∃ j, i ≤ j < i + Z.of_nat n ∧ bm_bit b j = negb v) as H.
  { induction n as [|n IH]; intros Hn; [exfalso; apply Hn; intros j Hj; lia|].
    destruct (decide (bm_bit b (i + Z.of_nat n) = v)) as [E|E].
    - destruct IH as (j & ? & ?); [|exists j; split; [lia|done]].
      intros Hr. apply Hn. intros j Hj. destruct (decide (j = i + Z.of_nat n)) as [->|]; [done|]. apply Hr. lia.
    - exists (i + Z.of_nat n). split; [lia|]. by destruct (bm_bit b (i + Z.of_nat n)), v. }
  intros Hn. destruct (H (Z.to_nat cnt)) as (j & ? & ?); [by rewrite Z2Nat.id by lia|]. exists j. split; [lia|done].
Qed.

(** An allocation: the pages it hands out, or the reason why it fails. *)
Lemma palloc_get_run s flags cnt : palloc_ok s → 0 < cnt →
  let u := has flags PAL_USER in
  (∃ s' first, palloc_get_multiple s flags cnt = Ret (first * 4096, s') ∧ palloc_ok s' ∧
     allocated (get_pool s u) (get_pool s' u) first cnt ∧ get_pool s' (negb u) = get_pool s (negb u) ∧
     mem s' = if has flags PAL_ZERO then memset (mem s) (first * 4096) 0 (4096 * cnt) else mem s) ∨
  (exhausted (get_pool s u) cnt ∧
   ∃ s', palloc_get_multiple s flags cnt = (if has flags PAL_ASSERT then Panic else Ret (0, s')) ∧
     palloc_ok s' ∧ mem s' = mem s ∧ ∀ v q, used (get_pool s' v) q ↔ used (get_pool s v) q).
Proof.
  intros Hs Hcnt u. unfold palloc_get_multiple. destruct (Z.eqb_spec cnt 0); [lia|]. fold u.
  set (p := get_pool s u). pose proof (po_pool s u Hs) as Hp. fold p in Hp.
  pose proof (pk_wf _ Hp) as Hwf. pose proof Hwf as (Hb & _).
  destruct (bitmap_scan_and_flip_bits (used_map p) 0 cnt false Hwf ltac:(lia) ltac:(lia))
    as (r & b & E & Hr & Hwf' & Hc & Hbits). rewrite E. cbn [mbind outcome_bind].
  set (s1 := with_pool s u (with_map p b)).
  assert (palloc_ok s1) as Hs1 by (by apply with_pool_ok).
  destruct (Z.eqb_spec r BITMAP_ERROR) as [->|Hne]; cbn [negb andb Z.eqb].
  - right. destruct Hr as [[_ Hno]|(_ & Hle & _)]; [|unfold BITMAP_ERROR in Hle; lia]. split.
    + intros first H1 H2. destruct (not_run (used_map p) (first - first_page p) cnt false) as (j & Hj & Hu).
      * lia.
      * apply Hno; lia.
      * exists (first_page p + j). split; [lia|]. split; [lia|].
        by replace (first_page p + j - first_page p) with j by lia.
    + exists s1. split; [by destruct (has flags PAL_ASSERT)|]. split; [done|].
      split; [by unfold s1; destruct u|]. intros v q.
      assert (∀ q, used (with_map p b) q ↔ used p q) as Hsame.
      { intros q'. unfold used. cbn [used_map with_map]. change (first_page (with_map p b)) with (first_page p).
        rewrite Hc. split; intros [Hq Hbit]; (split; [done|]); [rewrite <- Hbit; symmetry|rewrite <- Hbit];
          apply Hbits; lia. }
      destruct (Bool.bool_dec v u) as [->|Hv].
      * unfold s1. by rewrite get_with_pool.
      * assert (v = negb u) as -> by (by destruct v, u). unfold s1. by rewrite get_with_pool_ne.
  - left. destruct Hr as [[-> _]|(Hr0 & Hle & Hrun & _)]; [done|].
    pose proof (pk_aligned _ Hp) as Hal. pose proof (pk_first _ Hp). pose proof (pk_last _ Hp).
    assert (u32 (base p + PGSIZE * r) = (first_page p + r) * 4096) as Ea.
    { change PGSIZE with 4096. rewrite wrap_small; lia. }
    rewrite Ea. destruct (Z.eqb_spec ((first_page p + r) * 4096) 0); [lia|]. cbn [negb].
    eexists _, (first_page p + r). split; [done|].
    assert (∀ s2, s2 = s1 ∨ (∃ m, s2 = with_mem s1 m) → palloc_ok s2 ∧
      allocated p (get_pool s2 u) (first_page p + r) cnt ∧ get_pool s2 (negb u) = get_pool s (negb u)) as Hfin.
    { intros s2 Hs2. assert (get_pool s2 u = with_map p b ∧ get_pool s2 (negb u) = get_pool s (negb u)) as [Ep En].
      { unfold s1 in Hs2. destruct Hs2 as [->|(m & ->)]; by destruct u. }
      split; [destruct Hs2 as [->|(m & ->)]; [done|by destruct Hs1]|]. rewrite Ep. split; [|done].
      split; [lia|]. split; [lia|]. split.
      - intros q Hq [_ Hbit]. rewrite Hrun in Hbit by lia. done.
      - intros q. unfold used. cbn [used_map with_map]. change (first_page (with_map p b)) with (first_page p).
        rewrite Hc. split.
        + intros [Hq Hbit]. rewrite Hbits in Hbit by lia.
          destruct (Z.eqb_spec r BITMAP_ERROR), (Z.leb_spec r (q - first_page p)),
            (Z.ltb_spec (q - first_page p) (r + cnt)); cbn in Hbit; try (left; done); right; lia.
        + intros Hq. assert (first_page p ≤ q < first_page p + bit_cnt (used_map p)) as Hq' by (destruct Hq as [[? _]|?]; lia).
          split; [done|]. rewrite Hbits by lia.
          destruct (Z.eqb_spec r BITMAP_ERROR), (Z.leb_spec r (q - first_page p)),
            (Z.ltb_spec (q - first_page p) (r + cnt)); cbn; try done; destruct Hq as [[_ ?]|?]; done || lia. }
    destruct (Hfin (if has flags PAL_ZERO then with_mem s1 (memset (mem s1) ((first_page p + r) * 4096) 0 (PGSIZE * cnt))
      else s1)) as (H1 & H2 & H3); [case_match; eauto|]. split; [done|]. split; [done|]. split; [done|].
    assert (mem s1 = mem s) as Em by (unfold s1; by destruct u). case_match; cbn; by rewrite Em.
Qed.

(** ** Release *)

Lemma page_from_pool_spec p first : pool_ok p →
  page_from_pool p (first * 4096) = true ↔ first_page p ≤ first < first_page p + bit_cnt (used_map p).
Proof.
  intros Hp. unfold page_from_pool, bitmap_size. rewrite !pg_no_div, Z.div_mul by lia. fold (first_page p).
  rewrite andb_true_iff, Z.leb_le, Z.ltb_lt. done.
Qed.

(** The pool a page belongs to. *)
Lemma page_pool s u first : palloc_ok s →
  first_page (get_pool s u) ≤ first < first_page (get_pool s u) + bit_cnt (used_map (get_pool s u)) →
  (if page_from_pool (kernel_pool s) (first * 4096) then Ret false
   else if page_from_pool (user_pool s) (first * 4096) then Ret true else Panic) = Ret u.
Proof.
  intros [Hk Hu Ha] Hf. pose proof (page_from_pool_spec _ first Hk) as Ek.
  pose proof (page_from_pool_spec _ first Hu) as Eu. destruct u; cbn in Hf.
  - destruct (page_from_pool (kernel_pool s) (first * 4096)); [pose proof (proj1 Ek eq_refl); lia|].
    by rewrite (proj2 Eu Hf).
  - by rewrite (proj2 Ek Hf).
Qed.

(** A release of pages of one pool: they must all be in use. *)
Lemma palloc_free_run s u first cnt : palloc_ok s → 0 < cnt →
  first_page (get_pool s u) ≤ first → first + cnt ≤ first_page (get_pool s u) + bit_cnt (used_map (get_pool s u)) →
  ((∀ q, first ≤ q < first + cnt → used (get_pool s u) q) ∧
   ∃ s', palloc_free_multiple s (first * 4096) cnt = Ret s' ∧ palloc_ok s' ∧
     (∀ q, used (get_pool s' u) q ↔ used (get_pool s u) q ∧ ¬ (first ≤ q < first + cnt)) ∧
     get_pool s' (negb u) = get_pool s (negb u) ∧ mem s' = memset (mem s) (first * 4096) 0xcc (4096 * cnt)) ∨
  ((∃ q, first ≤ q < first + cnt ∧ ¬ used (get_pool s u) q) ∧ palloc_free_multiple s (first * 4096) cnt = Panic).
Proof.
  intros Hs Hcnt H1 H2. unfold palloc_free_multiple. rewrite pg_ofs_mod, Z.mod_mul by lia.
  cbn [Z.eqb ASSERT mbind outcome_bind]. pose proof (po_pool s u Hs) as Hp. pose proof (pk_first _ Hp).
  destruct (Z.eqb_spec (first * 4096) 0), (Z.eqb_spec cnt 0); try lia. cbn [orb].
  rewrite (page_pool s u) by (done || lia). cbn [mbind outcome_bind].
  set (p := get_pool s u) in *. set (s0 := with_mem s _).
  rewrite !pg_no_div, Z.div_mul by lia. fold (first_page p). pose proof (pk_wf _ Hp) as Hwf.
  destruct (bitmap_all_spec (used_map p) (first - first_page p) cnt Hwf ltac:(lia) ltac:(lia) ltac:(lia))
    as (r & -> & Hr). cbn [mbind outcome_bind]. destruct r; cbn [ASSERT mbind outcome_bind].
  - left. pose proof (proj1 Hr eq_refl) as Hrun. split.
    { intros q Hq. split; [lia|]. apply Hrun. lia. }
    destruct (bitmap_set_multiple_bits (used_map p) (first - first_page p) cnt Hwf ltac:(lia) ltac:(lia) ltac:(lia) false)
      as (b & -> & Hwf' & Hc & Hbits). cbn [mbind outcome_bind]. eexists. split; [done|].
    assert (get_pool s0 u = p) as Ep by (unfold s0; by destruct u).
    assert (palloc_ok s0) as Hs0 by (by destruct Hs).
    split; [rewrite <- Ep; apply with_pool_ok; [done|done|by rewrite Ep]|]. split.
    + intros q. rewrite get_with_pool. unfold used. cbn [used_map with_map].
      change (first_page (with_map p b)) with (first_page p). rewrite Hc. split.
      * intros [Hq Hbit]. rewrite Hbits in Hbit by lia.
        destruct (Z.leb_spec (first - first_page p) (q - first_page p)),
          (Z.ltb_spec (q - first_page p) (first - first_page p + cnt)); cbn in Hbit; try done; (split; [done|lia]).
      * intros [[Hq Hbit] Hn]. split; [done|]. rewrite Hbits by lia.
        destruct (Z.leb_spec (first - first_page p) (q - first_page p)),
          (Z.ltb_spec (q - first_page p) (first - first_page p + cnt)); cbn; try done. lia.
    + split; [by destruct u|]. by destruct u.
  - right. split; [|done].
    destruct (not_run (used_map p) (first - first_page p) cnt true Hcnt) as (j & Hj & Hn); [by rewrite <- Hr|].
    exists (first_page p + j). split; [lia|]. intros [_ Hu].
    replace (first_page p + j - first_page p) with j in Hu by lia. by rewrite Hn in Hu.
Qed.

(** Allocation and release leave the pools where they are. *)
Definition same_place (s s' : palloc) : Prop :=
  ∀ u, base (get_pool s' u) = base (get_pool s u) ∧
    bit_cnt (used_map (get_pool s' u)) = bit_cnt (used_map (get_pool s u)).

Lemma same_place_with s u b : bit_cnt b = bit_cnt (used_map (get_pool s u)) →
  same_place s (with_pool s u (with_map (get_pool s u) b)).
Proof. intros Hb v. by destruct u, v. Qed.

Lemma palloc_get_place s flags cnt r s' : palloc_ok s → 0 < cnt →
  palloc_get_multiple s flags cnt = Ret (r, s') → same_place s s'.
Proof.
  intros Hs Hcnt. unfold palloc_get_multiple. destruct (Z.eqb_spec cnt 0); [lia|].
  set (u := has flags PAL_USER). pose proof (pk_wf _ (po_pool s u Hs)) as Hwf. pose proof Hwf as (Hb & _).
  destruct (bitmap_scan_and_flip_bits (used_map (get_pool s u)) 0 cnt false Hwf ltac:(lia) ltac:(lia))
    as (i & b & -> & _ & _ & Hc & _). cbn [mbind outcome_bind].
  pose proof (same_place_with s u b Hc) as Hp. intros H.
  destruct (negb _); [|destruct (ASSERT _); [|done..]]; injection H as _ <-; [|done].
  by destruct (has flags PAL_ZERO).
Qed.

(** It leaves the other pool alone. *)
Lemma palloc_get_other s flags cnt r s' : palloc_get_multiple s flags cnt = Ret (r, s') →
  get_pool s' (negb (has flags PAL_USER)) = get_pool s (negb (has flags PAL_USER)).
Proof.
  unfold palloc_get_multiple. set (u := has flags PAL_USER). destruct (cnt =? 0); [by intros [= _ <-]|]. intros H.
  apply bind_Ret in H as ([i b] & _ & H). destruct (negb (_ =? 0)).
  - injection H as _ <-. destruct (has flags PAL_ZERO); by destruct u.
  - apply bind_Ret in H as (? & _ & H). injection H as _ <-. by destruct u.
Qed.

Lemma palloc_free_place s u first cnt s' : palloc_ok s → 0 < cnt →
  first_page (get_pool s u) ≤ first → first + cnt ≤ first_page (get_pool s u) + bit_cnt (used_map (get_pool s u)) →
  palloc_free_multiple s (first * 4096) cnt = Ret s' → same_place s s'.
Proof.
  intros Hs Hcnt H1 H2 H. unfold palloc_free_multiple in H. apply bind_Ret in H as (? & _ & H).
  destruct (_ || _); [by injection H as <-|]. rewrite (page_pool s u) in H by (done || lia).
  cbn [mbind outcome_bind] in H. revert H. rewrite !pg_no_div, Z.div_mul by lia. fold (first_page (get_pool s u)).
  intros H. pose proof (pk_wf _ (po_pool s u Hs)) as Hwf.
  apply bind_Ret in H as (? & _ & H). apply bind_Ret in H as (? & _ & H).
  destruct (bitmap_set_multiple_bits (used_map (get_pool s u)) (first - first_page (get_pool s u)) cnt Hwf
    ltac:(lia) ltac:(lia) ltac:(lia) false) as (b & E & _ & Hc & _).
  rewrite E in H. cbn [mbind outcome_bind] in H. injection H as <-.
  intros v. by destruct u, v.
Qed.

(** C23. Pages are handed out once.  From a state in which the pools are sound, an allocation
    hands out a run of pages of the right pool none of which is in use, and marks exactly
    those, or fails (with a null pointer, or a panic under [PAL_ASSERT]) only when the pool
    has no such run; releasing a run makes exactly its pages free again when all are in
    use, and panics otherwise, so that no page is freed twice. *)
Theorem palloc_hands_out_once s flags cnt : palloc_ok s → 0 < cnt →
  let u := has flags PAL_USER in
  ((∃ s' first, palloc_get_multiple s flags cnt = Ret (first * 4096, s') ∧ palloc_ok s' ∧
      allocated (get_pool s u) (get_pool s' u) first cnt ∧ get_pool s' (negb u) = get_pool s (negb u)) ∨
   (exhausted (get_pool s u) cnt ∧ ∃ s', palloc_ok s' ∧ (∀ v q, used (get_pool s' v) q ↔ used (get_pool s v) q) ∧
      palloc_get_multiple s flags cnt = if has flags PAL_ASSERT then Panic else Ret (0, s'))) ∧
  ∀ first, first_page (get_pool s u) ≤ first →
    first + cnt ≤ first_page (get_pool s u) + bit_cnt (used_map (get_pool s u)) →
    ((∀ q, first ≤ q < first + cnt → used (get_pool s u) q) ∧
     ∃ s', palloc_free_multiple s (first * 4096) cnt = Ret s' ∧ palloc_ok s' ∧
       ∀ q, used (get_pool s' u) q ↔ used (get_pool s u) q ∧ ¬ (first ≤ q < first + cnt)) ∨
    ((∃ q, first ≤ q < first + cnt ∧ ¬ used (get_pool s u) q) ∧ palloc_free_multiple s (first * 4096) cnt = Panic).
Proof.
  intros Hs Hc u. split.
  - destruct (palloc_get_run s flags cnt Hs Hc) as [(s' & first & E & H1 & H2 & H3 & _)|(He & s' & E & H1 & _ & H2)].
    + left. eauto 10.
    + right. split; [done|]. exists s'. auto.
  - intros first H1 H2. destruct (palloc_free_run s u first cnt Hs Hc H1 H2) as [(Ha & s' & E & H3 & H4 & _)|?].
    + left. split; [done|]. eauto.
    + by right.
Qed.

(** Two pools of four pages; pages 0 and 2 of the kernel pool are in use. *)
Definition two_pools : palloc :=
  mk_palloc (mk_pool (mk_bitmap 4 [5]) (0xc0101000)) (mk_pool (mk_bitmap 4 [0]) 0xc0105000) (λ _, 0).

Lemma two_pools_ok : palloc_ok two_pools.
Proof.
  assert (∀ w b, 0 ≤ w < 2 ^ 32 → b mod 4096 = 0 → 4096 ≤ b ≤ 2 ^ 32 - 16384 → pool_ok (mk_pool (mk_bitmap 4 [w]) b)) as H.
  { intros w b Hw Hb Hr. constructor; unfold first_page; cbn [base used_map bit_cnt].
    - split; [cbn; lia|]. split; [done|]. by constructor.
    - pose proof (Z.div_mod b 4096 ltac:(lia)). lia.
    - apply Z.div_str_pos. lia.
    - change (2 ^ 20) with ((2 ^ 32 - 16384) / 4096 + 4). apply Z.add_le_mono_r, Z.div_le_mono; lia. }
  constructor; [apply H; done || lia|apply H; done || lia|done].
Qed.

Lemma palloc_hands_out_once_witness :
  ∃ s' first, palloc_get_multiple two_pools 0 1 = Ret (first * 4096, s') ∧ palloc_ok s' ∧
    used (kernel_pool s') first ∧ ¬ used (kernel_pool two_pools) first.
Proof.
  destruct (palloc_hands_out_once two_pools 0 1 two_pools_ok eq_refl) as [[(s' & first & E & Hok & (_ & _ & Ha & Hb) & _)|(He & _)] _].
  - exists s', first. split; [exact E|]. split; [exact Hok|]. split; [apply Hb; right; lia|apply Ha; lia].
  - exfalso. destruct (He 0xc0102) as (q & Hq & _ & Hbit); [vm_compute; intros [=]..|].
    assert (q = 0xc0102) as -> by lia. vm_compute in Hbit. discriminate Hbit.
Defined.

(** ** The pools keep the promise *)

(** [palloc_get_multiple] and [palloc_free_multiple] on kernel pages, by page number. *)
Definition kernel_get (s : palloc) (cnt : Z) : outcome (option Z * palloc) :=
  '(a, s) ← palloc_get_multiple s 0 cnt; Ret (if a =? 0 then None else Some (pg_no a), s).
Definition kernel_free (s : palloc) (p cnt : Z) : outcome palloc := palloc_free_multiple s (p * 4096) cnt.

#[global, refine] Instance palloc_pages : PageAlloc palloc := {|
  pa_get := kernel_get; pa_free := kernel_free; pa_mem := mem; pa_set_mem := with_mem;
  pa_ok := palloc_ok; pa_used s q := used (kernel_pool s) q |}.
Proof.
  - intros s cnt Hs Hc. unfold kernel_get.
    destruct (palloc_get_run s 0 cnt Hs Hc) as [(s' & first & E & H1 & (Ha & Hb & Hc' & Hd) & _ & Hmem)|(_ & s' & E & H1 & Hmem & H2)].
    + pose proof (pk_first _ (po_kernel _ Hs)). pose proof (pk_last _ (po_kernel _ Hs)).
      change (has 0 PAL_USER) with false in Ha, Hb, Hc', Hd. cbn [get_pool] in Ha, Hb, Hc', Hd.
      rewrite E. cbn [mbind outcome_bind]. destruct (Z.eqb_spec (first * 4096) 0); [lia|].
      rewrite pg_no_div, Z.div_mul by lia. exists (Some first), s'. split; [done|]. split; [done|].
      split; [done|]. split; [lia|]. split; [lia|]. split; done.
    + rewrite E. cbn. exists None, s'. split; [done|]. split; [done|]. split; [done|]. apply (H2 false).
  - intros s p cnt Hs Hc Hu. unfold kernel_free.
    pose proof (Hu p ltac:(lia)) as [Hp _]. pose proof (Hu (p + cnt - 1) ltac:(lia)) as [Hq _].
    destruct (palloc_free_run s false p cnt Hs Hc) as [(_ & s' & E & H1 & H2 & _ & Hmem)|((q & Hq' & Hn) & _)];
      [cbn [get_pool]; lia|cbn [get_pool]; lia| |].
    + exists s'. split; [done|]. split; [done|]. split; [done|]. intros x Hx. rewrite Hmem. unfold memset.
      destruct (Z.leb_spec (p * 4096) x), (Z.ltb_spec x (p * 4096 + 4096 * cnt)); cbn; try done. exfalso. apply Hx.
      split; [apply Z.div_le_lower_bound; lia|apply Z.div_lt_upper_bound; lia].
    + by destruct (Hn (Hu q Hq')).
  - intros s m []. by split.
Defined.

#[global] Arguments has : simpl never.
#[global] Arguments ptov : simpl never.
#[global] Arguments pg_ofs : simpl never.
End Palloc.
