(* ===== verification/Malloc.v ===== *)
(** * The block allocator: [threads/malloc.c]

    Blocks of seven sizes are cut from one-page arenas; larger requests get pages of
    their own.  The page allocator is any [PageAlloc].  The header at the start of an
    arena's page is an entry of [arenas], under the number of the page; a free list is a
    list of block addresses.  The descriptors' locks have no effect on one thread. *)

From stdpp Require Import base tactics numbers list option gmap.
From S2P Require Import Prelude Palloc.

Module Malloc.
Import Palloc.

(** [struct desc] *)
Record desc := mk_desc { block_size : Z; blocks_per_arena : Z; free_list : list Z }.

(** [struct arena]: [a_desc] is the index of the descriptor, [None] for a big block, and
    the magic number is there as long as the entry is. *)
Record arena := mk_arena { a_desc : option nat; free_cnt : Z }.

Definition SIZEOF_ARENA : Z := 12.

(** The loop of [malloc_init]. *)
Fixpoint init_descs (fuel : nat) (bs : Z) : list desc :=
  match fuel with
  | O => []
  | S fuel => if bs <? PGSIZE / 2 then mk_desc bs ((PGSIZE - SIZEOF_ARENA) / bs) [] :: init_descs fuel (bs * 2) else []
  end.

Definition malloc_init : outcome (list desc) :=
  let ds := init_descs 32 16 in ASSERT (Z.of_nat (length ds) <=? 10);; Ret ds.

Section Heap.
Context {P : Type} `{PageAlloc P}.

Record heap := mk_heap { descs : list desc; arenas : gmap Z arena; pages : P }.

Definition with_free_list (h : heap) (d : nat) (l : list Z) : heap :=
  mk_heap (alter (λ r, mk_desc (block_size r) (blocks_per_arena r) l) d (descs h)) (arenas h) (pages h).
Definition with_arena (h : heap) (p : Z) (a : arena) : heap := mk_heap (descs h) (<[p := a]> (arenas h)) (pages h).
Definition without_arena (h : heap) (p : Z) : heap := mk_heap (descs h) (delete p (arenas h)) (pages h).
Definition with_pages (h : heap) (s : P) : heap := mk_heap (descs h) (arenas h) s.
Definition memory (h : heap) : Z → Z := pa_mem (pages h).
Definition with_memory (h : heap) (m : Z → Z) : heap := with_pages h (pa_set_mem (pages h) m).

(** [block_to_arena]: the page of the arena and its header. *)
Definition block_to_arena (h : heap) (b : Z) : outcome (Z * arena) :=
  let p := pg_no (pg_round_down b) in
  match arenas h !! p with
  | None => Panic
  | Some a =>
      match a_desc a with
      | Some d =>
          match descs h !! d with
          | Some r => ASSERT (u32 (pg_ofs b - SIZEOF_ARENA) mod block_size r =? 0);; Ret (p, a)
          | None => UB
          end
      | None => ASSERT (pg_ofs b =? SIZEOF_ARENA);; Ret (p, a)
      end
  end.

Definition arena_to_block (h : heap) (p : Z) (idx : Z) : outcome Z :=
  match arenas h !! p with
  | None => Panic
  | Some a =>
      match a_desc a ≫= λ d, descs h !! d with
      | Some r => ASSERT (idx <? blocks_per_arena r);; Ret (p * PGSIZE + SIZEOF_ARENA + idx * block_size r)
      | None => UB
      end
  end.

(** The loop that fills a new arena's free list, from block [i] on. *)
Fixpoint fill_arena (n : nat) (i : Z) (h : heap) (d : nat) (p : Z) : outcome heap :=
  match n with
  | O => Ret h
  | S n =>
      b ← arena_to_block h p i;
      match descs h !! d with
      | Some r => fill_arena n (i + 1) (with_free_list h d (free_list r ++ [b])) d p
      | None => UB
      end
  end.

(** The descriptor for [size]: the first with large enough blocks. *)
Fixpoint find_desc (ds : list desc) (size : Z) (i : nat) : option nat :=
  match ds with
  | [] => None
  | r :: ds => if size <=? block_size r then Some i else find_desc ds size (S i)
  end.

(** The pages a big block takes, in 32-bit arithmetic. *)
Definition big_pages (size : Z) : Z := u32 (u32 (size + SIZEOF_ARENA) + PGSIZE - 1) / PGSIZE.

Definition malloc_big (h : heap) (size : Z) : outcome (Z * heap) :=
  let page_cnt := big_pages size in
  if page_cnt =? 0 then Ret (0, h) else
  '(a, s) ← pa_get (pages h) page_cnt;
  match a with
  | None => Ret (0, with_pages h s)
  | Some p => Ret (p * PGSIZE + SIZEOF_ARENA, with_arena (with_pages h s) p (mk_arena None page_cnt))
  end.

(** A new arena for descriptor [d]. *)
Definition new_arena (h : heap) (d : nat) (r : desc) : outcome (bool * heap) :=
  '(a, s) ← pa_get (pages h) 1;
  match a with
  | None => Ret (false, with_pages h s)
  | Some p =>
      let h := with_arena (with_pages h s) p (mk_arena (Some d) (blocks_per_arena r)) in
      h ← fill_arena (Z.to_nat (blocks_per_arena r)) 0 h d p;
      Ret (true, h)
  end.

(** Taking the first block of the free list of [d]. *)
Definition take_block (h : heap) (d : nat) : outcome (Z * heap) :=
  match descs h !! d with
  | Some r =>
      match free_list r with
      | b :: l =>
          let h := with_free_list h d l in
          '(p, a) ← block_to_arena h b;
          Ret (b, with_arena h p (mk_arena (a_desc a) (u32 (free_cnt a - 1))))
      | [] => Panic
      end
  | None => UB
  end.

Definition malloc (h : heap) (size : Z) : outcome (Z * heap) :=
  if size =? 0 then Ret (0, h) else
  match find_desc (descs h) size 0 with
  | None => malloc_big h size
  | Some d =>
      match descs h !! d with
      | Some r =>
          match free_list r with
          | [] =>
              '(got, h) ← new_arena h d r;
              if (got : bool) then take_block h d else Ret (0, h)
          | _ => take_block h d
          end
      | None => UB
      end
  end.

(** The loop of [free] that takes the blocks of an arena off the free list; [list_remove]
    of a block that is on no list is undefined. *)
Fixpoint drain_arena (n : nat) (i : Z) (h : heap) (d : nat) (p : Z) : outcome heap :=
  match n with
  | O => Ret h
  | S n =>
      b ← arena_to_block h p i;
      match descs h !! d with
      | Some r =>
          if decide (b ∈ free_list r) then
            drain_arena n (i + 1) (with_free_list h d (filter (λ x, x ≠ b) (free_list r))) d p
          else UB
      | None => UB
      end
  end.

Definition free (h : heap) (b : Z) : outcome heap :=
  if b =? 0 then Ret h else
  '(p, a) ← block_to_arena h b;
  match a_desc a with
  | Some d =>
      match descs h !! d with
      | Some r =>
          let h := with_memory h (memset (memory h) b 0xcc (block_size r)) in
          let h := with_free_list h d (b :: free_list r) in
          let cnt := u32 (free_cnt a + 1) in
          let h := with_arena h p (mk_arena (Some d) cnt) in
          if blocks_per_arena r <=? cnt then
            ASSERT (cnt =? blocks_per_arena r);;
            h ← drain_arena (Z.to_nat (blocks_per_arena r)) 0 h d p;
            s ← pa_free (pages h) p 1;
            Ret (without_arena (with_pages h s) p)
          else Ret h
      | None => UB
      end
  | None =>
      s ← pa_free (pages h) p (free_cnt a);
      Ret (without_arena (with_pages h s) p)
  end.

Definition calloc (h : heap) (a b : Z) : outcome (Z * heap) :=
  let size := u32 (a * b) in
  if (size <? a) || (size <? b) then Ret (0, h) else
  '(p, h) ← malloc h size;
  Ret (p, if negb (p =? 0) then with_memory h (memset (memory h) p 0 size) else h).

(** [block_size] of [malloc.c]: the bytes allocated for a block. *)
Definition size_of_block (h : heap) (b : Z) : outcome Z :=
  '(p, a) ← block_to_arena h b;
  match a_desc a with
  | Some d => match descs h !! d with Some r => Ret (block_size r) | None => UB end
  | None => Ret (u32 (PGSIZE * free_cnt a - pg_ofs b))
  end.

Definition memcpy (m : Z → Z) (dst src n : Z) : Z → Z :=
  λ x, if (dst <=? x) && (x <? dst + n) then m (src + (x - dst)) else m x.

Definition realloc (h : heap) (old_block new_size : Z) : outcome (Z * heap) :=
  if new_size =? 0 then h ← free h old_block; Ret (0, h)
  else
    '(new_block, h) ← malloc h new_size;
    if negb (old_block =? 0) && negb (new_block =? 0) then
      old_size ← size_of_block h old_block;
      let min_size := if new_size <? old_size then new_size else old_size in
      let h := with_memory h (memcpy (memory h) new_block old_block min_size) in
      h ← free h old_block;
      Ret (new_block, h)
    else Ret (new_block, h).

End Heap.
End Malloc.
