(* ===== verification/MallocProofs.v ===== *)
(** * The block allocator keeps live blocks apart

    The invariant of the heap, what each step of [Malloc] does to it, and the promise of
    [malloc], [free], [calloc] and [realloc] to their callers, for any page allocator that
    keeps the promise of [PageAlloc]. *)

From stdpp Require Import base tactics numbers list option gmap.
From S2P Require Import Prelude Bitmap Palloc Malloc.

Module MallocProofs.
Import Palloc Malloc.

(** Block [i] of the arena on page [p]. *)
Definition blk (p i : Z) (r : desc) : Z := p * 4096 + 12 + i * block_size r.
Definition arena_blocks (p : Z) (r : desc) (i n : Z) : list Z := (λ j, blk p j r) <$> seqZ i n.
Definition on_page (p : Z) (l : list Z) : list Z := filter (λ b, b / 4096 = p) l.
Definition sizes : list (Z * Z) := [(16, 255); (32, 127); (64, 63); (128, 31); (256, 15); (512, 7); (1024, 3)].

(** [b] is a block of an arena of descriptor [d]. *)
Definition block_in (ar : gmap Z arena) (d : nat) (r : desc) (b : Z) : Prop :=
  ∃ p c i, ar !! p = Some (mk_arena (Some d) c) ∧ 0 ≤ i < blocks_per_arena r ∧ b = blk p i r.

(** [b] is a block of [sz] bytes of arena [a] on page [p], and not free. *)
Definition block_of (ds : list desc) (p : Z) (a : arena) (b sz : Z) : Prop :=
  match a_desc a with
  | Some d => ∃ r i, ds !! d = Some r ∧ 0 ≤ i < blocks_per_arena r ∧ b = blk p i r ∧
                b ∉ free_list r ∧ sz = block_size r
  | None => b = p * 4096 + 12 ∧ sz = free_cnt a * 4096 - 12
  end.

(** The pages of an arena. *)
Definition span (a : arena) : Z := match a_desc a with Some _ => 1 | None => free_cnt a end.

Section Proofs.
Context {P : Type} `{PageAlloc P}.
Notation heap := (@heap P).

(** ** Invariant *)

(** The pages of an arena are in use, and no other arena starts inside it. *)
Record arena_ok (s : P) (ar : gmap Z arena) (p : Z) (a : arena) : Prop := mk_arena_ok {
  ao_first : 0 < p;
  ao_span : 0 < span a;
  ao_last : p + span a ≤ 2 ^ 20;
  ao_used q : p ≤ q < p + span a → pa_used s q;
  ao_alone q : p < q < p + span a → ar !! q = None }.

(** What holds of the free list of a descriptor. *)
Record free_ok (ar : gmap Z arena) (d : nat) (r : desc) (l : list Z) : Prop := mk_free_ok {
  fo_nodup : NoDup l;
  fo_block b : b ∈ l → block_in ar d r b;
  fo_count p c : ar !! p = Some (mk_arena (Some d) c) → c = Z.of_nat (length (on_page p l)) }.

Record heap_inv (h : heap) : Prop := mk_heap_inv {
  hi_pages : pa_ok (pages h);
  hi_descs : (λ r, (block_size r, blocks_per_arena r)) <$> descs h = sizes;
  hi_arena p a : arenas h !! p = Some a → arena_ok (pages h) (arenas h) p a;
  hi_desc p d c : arenas h !! p = Some (mk_arena (Some d) c) → is_Some (descs h !! d);
  hi_free d r : descs h !! d = Some r → free_ok (arenas h) d r (free_list r) }.

(** No arena outside page [x] is left whose blocks are all free. *)
Definition no_idle_but (x : Z) (h : heap) : Prop := ∀ p d c r, p ≠ x →
  arenas h !! p = Some (mk_arena (Some d) c) → descs h !! d = Some r → c < blocks_per_arena r.
Definition no_idle (h : heap) : Prop := ∀ x, no_idle_but x h.

Definition heap_ok (h : heap) : Prop := heap_inv h ∧ no_idle h.

(** [b] is the address of a block of [sz] bytes that is handed out. *)
Definition live (h : heap) (b sz : Z) : Prop := ∃ p a, arenas h !! p = Some a ∧ block_of (descs h) p a b sz.

(** ** Geometry *)

Lemma desc_geom h d r : heap_inv h → descs h !! d = Some r →
  16 ≤ block_size r ∧ 0 < blocks_per_arena r ∧ 12 + blocks_per_arena r * block_size r ≤ 4096.
Proof.
  intros Hi Hd. assert (((λ r, (block_size r, blocks_per_arena r)) <$> descs h) !! d
    = Some (block_size r, blocks_per_arena r)) as E by (by rewrite list_lookup_fmap, Hd).
  rewrite (hi_descs _ Hi) in E. unfold sizes in E.
  do 7 (destruct d as [|d]; [cbn in E; injection E as E1 E2; rewrite <- E1, <- E2; lia|]). done.
Qed.

Lemma blk_bounds p i r : 0 ≤ i < blocks_per_arena r → 16 ≤ block_size r →
  12 + blocks_per_arena r * block_size r ≤ 4096 →
  p * 4096 + 12 ≤ blk p i r ∧ blk p i r + block_size r ≤ p * 4096 + 4096.
Proof. intros. unfold blk. nia. Qed.

Lemma blk_page p i r : 0 ≤ i < blocks_per_arena r → 16 ≤ block_size r →
  12 + blocks_per_arena r * block_size r ≤ 4096 → blk p i r / 4096 = p.
Proof.
  intros. pose proof (blk_bounds p i r). symmetry. apply Z.div_unique_pos with (blk p i r - p * 4096); lia.
Qed.

Lemma blk_inj p i j r : 16 ≤ block_size r → blk p i r = blk p j r → i = j.
Proof. unfold blk. nia. Qed.

Lemma elem_of_arena_blocks p r i n b : b ∈ arena_blocks p r i n ↔ ∃ j, b = blk p j r ∧ i ≤ j < i + n.
Proof. unfold arena_blocks. rewrite list_elem_of_fmap. by setoid_rewrite elem_of_seqZ. Qed.

Lemma arena_blocks_cons p r i n : arena_blocks p r i (Z.of_nat (S n)) = blk p i r :: arena_blocks p r (i + 1) (Z.of_nat n).
Proof.
  unfold arena_blocks. rewrite seqZ_cons by lia. cbn. do 2 f_equal.
  by replace (Z.pred (Z.of_nat (S n))) with (Z.of_nat n) by lia.
Qed.

Lemma NoDup_arena_blocks p r i n : 16 ≤ block_size r → NoDup (arena_blocks p r i n).
Proof.
  intros. unfold arena_blocks. apply NoDup_fmap_2_strong; [|apply NoDup_seqZ]. intros x y _ _. by apply blk_inj.
Qed.

(** The free blocks of an arena are no more than its blocks, and are all of them when there
    are as many. *)
Lemma on_page_full ar d r l p : free_ok ar d r l → 16 ≤ block_size r →
  12 + blocks_per_arena r * block_size r ≤ 4096 → 0 < blocks_per_arena r →
  Z.of_nat (length (on_page p l)) ≤ blocks_per_arena r ∧
  (blocks_per_arena r ≤ Z.of_nat (length (on_page p l)) → ∀ i, 0 ≤ i < blocks_per_arena r → blk p i r ∈ l).
Proof.
  intros [Hn Hb _] H1 H2 H3. assert (on_page p l ⊆+ arena_blocks p r 0 (blocks_per_arena r)) as Hs.
  { apply NoDup_submseteq; [by apply NoDup_filter|]. intros b Hin.
    apply list_elem_of_filter in Hin as [Hp Hin]. destruct (Hb b Hin) as (q & c & i & _ & Hi & ->).
    rewrite blk_page in Hp by done. subst q. apply elem_of_arena_blocks. exists i. split; [done|lia]. }
  assert (length (arena_blocks p r 0 (blocks_per_arena r)) = Z.to_nat (blocks_per_arena r)) as Hlen
    by (unfold arena_blocks; by rewrite length_fmap, length_seqZ).
  pose proof (submseteq_length _ _ Hs). split; [lia|]. intros Hge i Hi.
  pose proof (submseteq_length_Permutation _ _ Hs ltac:(lia)) as Hp.
  assert (blk p i r ∈ on_page p l) as Hin by (rewrite Hp; apply elem_of_arena_blocks; exists i; split; [done|lia]).
  by apply list_elem_of_filter in Hin as [_ Hin].
Qed.

(** ** Addresses *)

Lemma round_down_no va : 0 ≤ va < 2 ^ 32 → pg_no (pg_round_down va) = va / 4096.
Proof.
  intros Hv. rewrite pg_no_div. unfold pg_round_down. change (u32 (Z.lnot PGMASK)) with (Z.shiftl (Z.ones 20) 12).
  change 4096 with (2 ^ 12). rewrite <- !Z.shiftr_div_pow2 by lia. apply Z.bits_inj'. intros n Hn.
  rewrite !Z.shiftr_spec, Z.land_spec, Z.shiftl_spec by lia. replace (n + 12 - 12) with n by lia.
  destruct (Z.ltb_spec n 20); [by rewrite Z.ones_spec_low, andb_true_r by lia|].
  rewrite (Z.bits_above_log2 va (n + 12)); [done|lia|].
  destruct (decide (va = 0)) as [->|]; [cbn; lia|]. apply Z.log2_lt_pow2; [lia|].
  apply Z.lt_le_trans with (2 ^ 32); [lia|]. apply Z.pow_le_mono_r; lia.
Qed.

Lemma block_to_arena_small (h : heap) d r p c i : 16 ≤ block_size r → 12 + blocks_per_arena r * block_size r ≤ 4096 →
  0 < p < 2 ^ 20 → descs h !! d = Some r → arenas h !! p = Some (mk_arena (Some d) c) → 0 ≤ i < blocks_per_arena r →
  block_to_arena h (blk p i r) = Ret (p, mk_arena (Some d) c).
Proof.
  intros H1 H3 Hp Hd Ha Hr. pose proof (blk_bounds p i r Hr H1 H3).
  unfold block_to_arena. rewrite round_down_no, blk_page, Ha by (done || lia). cbn [a_desc]. rewrite Hd.
  rewrite pg_ofs_mod. assert (blk p i r mod 4096 = 12 + i * block_size r) as ->.
  { unfold blk. symmetry. apply Z.mod_unique_pos with p; unfold blk in *; lia. }
  change SIZEOF_ARENA with 12. rewrite wrap_small by (unfold blk in *; lia).
  replace (12 + i * block_size r - 12) with (i * block_size r) by lia. by rewrite Z.mod_mul by lia.
Qed.

Lemma block_to_arena_big h p n : heap_inv h → arenas h !! p = Some (mk_arena None n) →
  block_to_arena h (p * 4096 + 12) = Ret (p, mk_arena None n).
Proof.
  intros Hi Ha. pose proof (hi_arena _ Hi _ _ Ha) as [Hp Hs Hl _ _]. cbn in Hs, Hl.
  assert ((p * 4096 + 12) / 4096 = p) as Ed by (symmetry; apply Z.div_unique_pos with 12; lia).
  unfold block_to_arena. rewrite round_down_no, Ed, Ha by lia. cbn [a_desc]. rewrite pg_ofs_mod.
  by assert ((p * 4096 + 12) mod 4096 = 12) as -> by (symmetry; apply Z.mod_unique_pos with p; lia).
Qed.

Lemma block_bounds h p a b sz : heap_inv h → arenas h !! p = Some a → block_of (descs h) p a b sz →
  p * 4096 + 12 ≤ b ∧ b + sz ≤ (p + span a) * 4096 ∧ 0 < sz ∧ b / 4096 = p.
Proof.
  intros Hi Ha Hb. pose proof (hi_arena _ Hi _ _ Ha) as [_ Hs _ _ _]. destruct a as [[d|] c]; cbn in *.
  - destruct Hb as (r & i & Hd & Hr & -> & _ & ->). pose proof (desc_geom _ _ _ Hi Hd) as (H1 & _ & H2).
    pose proof (blk_bounds p i r Hr H1 H2). pose proof (blk_page p i r Hr H1 H2). lia.
  - destruct Hb as [-> ->]. split; [lia|]. split; [lia|]. split; [lia|].
    symmetry. apply Z.div_unique_pos with 12; lia.
Qed.

Lemma arenas_apart h p1 a1 p2 a2 : heap_inv h → arenas h !! p1 = Some a1 → arenas h !! p2 = Some a2 →
  p1 < p2 → p1 + span a1 ≤ p2.
Proof.
  intros Hi H1 H2 Hlt. pose proof (ao_alone _ _ _ _ (hi_arena _ Hi _ _ H1) p2) as Hn.
  destruct (decide (p1 + span a1 ≤ p2)); [done|]. rewrite Hn in H2 by lia. done.
Qed.

(** Live blocks do not overlap. *)
Lemma live_disjoint h b1 s1 b2 s2 : heap_inv h → live h b1 s1 → live h b2 s2 → b1 ≠ b2 →
  b1 + s1 ≤ b2 ∨ b2 + s2 ≤ b1.
Proof.
  intros Hi (p1 & a1 & Ha1 & Hb1) (p2 & a2 & Ha2 & Hb2) Hne.
  pose proof (block_bounds _ _ _ _ _ Hi Ha1 Hb1). pose proof (block_bounds _ _ _ _ _ Hi Ha2 Hb2).
  destruct (Z.lt_trichotomy p1 p2) as [Hlt|[<-|Hlt]].
  - pose proof (arenas_apart _ _ _ _ _ Hi Ha1 Ha2 Hlt). left. lia.
  - rewrite Ha1 in Ha2. injection Ha2 as <-. destruct a1 as [[d|] c]; cbn in Hb1, Hb2.
    + destruct Hb1 as (r & i & Hd & _ & -> & _ & ->), Hb2 as (r' & j & Hd' & _ & -> & _ & ->).
      rewrite Hd in Hd'. injection Hd' as <-. unfold blk in *. assert (i ≠ j) by (by intros ->). nia.
    + destruct Hb1 as [-> _], Hb2 as [-> _]. done.
  - pose proof (arenas_apart _ _ _ _ _ Hi Ha2 Ha1 Hlt). right. lia.
Qed.

(** An address tells the size of the live block there. *)
Lemma live_size h b s1 s2 : heap_inv h → live h b s1 → live h b s2 → s1 = s2.
Proof.
  intros Hi (p1 & a1 & Ha1 & Hb1) (p2 & a2 & Ha2 & Hb2).
  pose proof (block_bounds _ _ _ _ _ Hi Ha1 Hb1) as (_ & _ & _ & E1).
  pose proof (block_bounds _ _ _ _ _ Hi Ha2 Hb2) as (_ & _ & _ & E2).
  rewrite <- E1 in Ha1, Hb1. rewrite <- E2, Ha1 in Ha2. injection Ha2 as <-. destruct a1 as [[d|] c]; cbn in Hb1, Hb2.
  - destruct Hb1 as (r & i & Hd & _ & _ & _ & ->), Hb2 as (r' & j & Hd' & _ & _ & _ & ->).
    rewrite Hd in Hd'. by injection Hd' as <-.
  - destruct Hb1 as [_ ->], Hb2 as [_ ->]. done.
Qed.

(** ** Changing one free list *)

Definition relist (r : desc) (l : list Z) : desc := mk_desc (block_size r) (blocks_per_arena r) l.

Lemma lookup_with_free_list (h : heap) d r l d' : descs h !! d = Some r →
  descs (with_free_list h d l) !! d' = if decide (d = d') then Some (relist r l) else descs h !! d'.
Proof. intros Hd. cbn. rewrite list_lookup_alter, Hd. by destruct (decide (d = d')). Qed.

Lemma with_free_list_twice (h : heap) d l1 l2 : with_free_list (with_free_list h d l1) d l2 = with_free_list h d l2.
Proof.
  unfold with_free_list; cbn. f_equal. apply list_eq. intros i. rewrite !list_lookup_alter.
  destruct (decide (d = i)) as [<-|]; [|done]. rewrite decide_True by done. by destruct (descs h !! d).
Qed.

Lemma with_free_list_same (h : heap) d r : descs h !! d = Some r → with_free_list h d (free_list r) = h.
Proof.
  intros Hd. destruct h as [ds ar s]. unfold with_free_list; cbn in *. f_equal. apply list_eq. intros i.
  rewrite list_lookup_alter. destruct (decide (d = i)) as [<-|]; [|done]. rewrite Hd. cbn. by destruct r.
Qed.

(** The state after one free list has become [l], with arenas [ar] and pages [s]. *)
Definition update (h : heap) (d : nat) (l : list Z) (ar : gmap Z arena) (s : P) : heap :=
  mk_heap (descs (with_free_list h d l)) ar s.

(** The arenas of the other descriptors, and the big blocks, stay. *)
Definition others_same (ar ar' : gmap Z arena) (d : nat) : Prop :=
  ∀ p a, a_desc a ≠ Some d → ar' !! p = Some a ↔ ar !! p = Some a.

Lemma inv_update (h : heap) d r l ar s : heap_inv h → descs h !! d = Some r → pa_ok s → free_ok ar d r l →
  (∀ p a, ar !! p = Some a → arena_ok s ar p a) → others_same (arenas h) ar d → heap_inv (update h d l ar s).
Proof.
  intros Hi Hd Hs Hf Ha Ho. pose proof (lookup_with_free_list h d r l) as Hl.
  constructor; cbn [update descs arenas pages]; [done| |done| |].
  - rewrite <- (hi_descs _ Hi). apply list_eq. intros i. rewrite !list_lookup_fmap, Hl by done.
    destruct (decide (d = i)) as [<-|]; [by rewrite Hd|done].
  - intros p d' c Hp. rewrite Hl by done. destruct (decide (d = d')) as [|Hne]; [done|].
    apply (hi_desc _ Hi p d' c). apply Ho; [cbn; congruence|done].
  - intros d' r'. rewrite Hl by done. destruct (decide (d = d')) as [<-|Hne].
    + intros [= <-]. destruct Hf as [H1 H2 H3]. constructor; [done|exact H2|exact H3].
    + intros Hd'. destruct (hi_free _ Hi _ _ Hd') as [H1 H2 H3]. constructor; [done| |].
      * intros b Hb. destruct (H2 b Hb) as (p & c & i & Hp & Hx). exists p, c, i. split; [|done].
        apply Ho; [cbn; congruence|done].
      * intros p c Hp. apply H3. apply Ho; [cbn; congruence|done].
Qed.

(** The live blocks of descriptor [d], and the others. *)
Definition live_else (h : heap) (d : nat) (b sz : Z) : Prop :=
  ∃ p a, arenas h !! p = Some a ∧ a_desc a ≠ Some d ∧ block_of (descs h) p a b sz.

Lemma live_split (h : heap) d r b sz : descs h !! d = Some r →
  live h b sz ↔ live_else h d b sz ∨ (block_in (arenas h) d r b ∧ b ∉ free_list r ∧ sz = block_size r).
Proof.
  intros Hd. split.
  - intros (p & a & Ha & Hb). destruct (decide (a_desc a = Some d)) as [E|E]; [right|left; by exists p, a].
    destruct a as [? c]. cbn in E. subst. destruct Hb as (r' & i & Hd' & Hr & -> & Hn & ->).
    rewrite Hd in Hd'. injection Hd' as <-. split; [by exists p, c, i|done].
  - intros [(p & a & Ha & _ & Hb)|((p & c & i & Ha & Hr & ->) & Hn & ->)]; [by exists p, a|].
    exists p, (mk_arena (Some d) c). split; [done|]. by exists r, i.
Qed.

Lemma live_else_update (h : heap) d r l ar s b sz : descs h !! d = Some r → others_same (arenas h) ar d →
  live_else (update h d l ar s) d b sz ↔ live_else h d b sz.
Proof.
  intros Hd Ho. unfold live_else. apply exist_proper. intros p. apply exist_proper. intros a.
  split; intros (Ha & Hn & Hb); (split; [by apply Ho|]; split; [done|]); unfold block_of in *;
    destruct a as [[d'|] c]; cbn in *; try done; destruct Hb as (r' & i & Hd' & Hx); exists r', i; (split; [|done]).
  - rewrite list_lookup_alter_ne in Hd'; congruence.
  - rewrite list_lookup_alter_ne; congruence.
Qed.

Lemma live_update (h : heap) d r l ar s b sz : descs h !! d = Some r → others_same (arenas h) ar d →
  live (update h d l ar s) b sz ↔ live_else h d b sz ∨ (block_in ar d r b ∧ b ∉ l ∧ sz = block_size r).
Proof.
  intros Hd Ho. assert (descs (update h d l ar s) !! d = Some (relist r l)) as Hd'
    by (unfold update; cbn [descs]; by rewrite (lookup_with_free_list h d r) by done; rewrite decide_True).
  rewrite (live_split _ d _ _ _ Hd'), (live_else_update h d r) by done. done.
Qed.

Lemma others_same_insert (ar : gmap Z arena) d p c : (∀ a, ar !! p = Some a → a_desc a = Some d) →
  others_same ar (<[p := mk_arena (Some d) c]> ar) d.
Proof.
  intros Hp q a Hn. destruct (decide (p = q)) as [<-|]; [|by rewrite lookup_insert_ne].
  rewrite lookup_insert_eq. split; [intros [= <-]; by destruct Hn|]. intros Ha. by apply Hp in Ha.
Qed.

Lemma block_in_insert ar d r p c c' b : ar !! p = Some (mk_arena (Some d) c) →
  block_in (<[p := mk_arena (Some d) c']> ar) d r b ↔ block_in ar d r b.
Proof.
  intros Hp. unfold block_in. split; intros (q & x & i & Hq & Hi & ->).
  - destruct (decide (p = q)) as [<-|]; [by exists p, c, i|]. rewrite lookup_insert_ne in Hq by done. by exists q, x, i.
  - destruct (decide (p = q)) as [<-|]; [exists p, c', i; by rewrite lookup_insert_eq|].
    exists q, x, i. by rewrite lookup_insert_ne.
Qed.

Lemma arena_ok_dom s s' ar ar' p a : (∀ q, pa_used s q → pa_used s' q) → (∀ q, ar !! q = None → ar' !! q = None) →
  arena_ok s ar p a → arena_ok s' ar' p a.
Proof. intros Hs Ha [H1 H2 H3 H4 H5]. constructor; auto. Qed.

Lemma on_page_cons p q b l : b / 4096 = p →
  length (on_page q (b :: l)) = (if decide (q = p) then S (length (on_page q l)) else length (on_page q l)).
Proof.
  intros Hb. unfold on_page. rewrite filter_cons, Hb. destruct (decide (p = q)) as [<-|].
  - by rewrite decide_True.
  - by rewrite decide_False by congruence.
Qed.

(** A new free list for a descriptor whose arenas stay, the count of one arena adjusted. *)
Lemma recount h d r l p c c' s : heap_inv h → descs h !! d = Some r → arenas h !! p = Some (mk_arena (Some d) c) →
  pa_ok s → (∀ q, pa_used s q ↔ pa_used (pages h) q) → NoDup l → (∀ b, b ∈ l → block_in (arenas h) d r b) →
  c' = Z.of_nat (length (on_page p l)) →
  (∀ q, q ≠ p → length (on_page q l) = length (on_page q (free_list r))) →
  let h' := update h d l (<[p := mk_arena (Some d) c']> (arenas h)) s in
  heap_inv h' ∧ ∀ b sz, live h' b sz ↔ live_else h d b sz ∨ (block_in (arenas h) d r b ∧ b ∉ l ∧ sz = block_size r).
Proof.
  intros Hi Hd Ha Hs Hu Hn Hb Hc Hq h'. assert (others_same (arenas h) (<[p := mk_arena (Some d) c']> (arenas h)) d) as Ho.
  { apply others_same_insert. intros a. rewrite Ha. by intros [= <-]. }
  split.
  - apply (inv_update h d r); [done|done|done| | |done].
    + constructor; [done|intros b Hin; rewrite block_in_insert by done; by apply Hb|].
      intros q x. destruct (decide (p = q)) as [<-|Hne].
      * rewrite lookup_insert_eq. by intros [= <-].
      * rewrite lookup_insert_ne by done. intros Hx. rewrite Hq by done. by apply (hi_free _ Hi _ _ Hd).
    + intros q a Hqa. apply (arena_ok_dom (pages h) s (arenas h)).
      * intros q' ?. by apply Hu.
      * intros q' Hq'. rewrite lookup_insert_ne; [done|]. intros ->. congruence.
      * destruct (decide (p = q)) as [<-|Hne]; [|rewrite lookup_insert_ne in Hqa by done; by apply (hi_arena _ Hi)].
        rewrite lookup_insert_eq in Hqa. injection Hqa as <-. destruct (hi_arena _ Hi _ _ Ha). by constructor.
  - intros b sz. unfold h'. rewrite (live_update h d r) by done. by rewrite block_in_insert by done.
Qed.

Lemma no_idle_update h d r l p c s : no_idle_but p h → descs h !! d = Some r → c < blocks_per_arena r →
  no_idle (update h d l (<[p := mk_arena (Some d) c]> (arenas h)) s).
Proof.
  intros Hn Hd Hc y q d' x r' _. cbn [update arenas descs]. rewrite (lookup_with_free_list h d r) by done.
  destruct (decide (p = q)) as [<-|].
  - rewrite lookup_insert_eq. intros [= <- <-]. rewrite decide_True by done. by intros [= <-].
  - rewrite lookup_insert_ne by done. intros Hq. destruct (decide (d = d')) as [<-|]; [|by apply (Hn q)].
    intros [= <-]. by apply (Hn q d x r).
Qed.

(** ** Taking a block *)

Lemma take_block_run h d r b l : heap_inv h → no_idle_but (b / 4096) h → descs h !! d = Some r → free_list r = b :: l →
  ∃ h', take_block h d = Ret (b, h') ∧ heap_ok h' ∧ memory h' = memory h ∧ 0 < b ∧
    (∀ x sz, live h' x sz ↔ live h x sz ∨ (x = b ∧ sz = block_size r)) ∧ (∀ sz, ¬ live h b sz).
Proof.
  intros Hi Hni Hd Hl. pose proof (desc_geom _ _ _ Hi Hd) as (H1 & H2 & H3).
  pose proof (hi_free _ Hi _ _ Hd) as Hf. rewrite Hl in Hf. pose proof Hf as [Hn Hb Hc].
  destruct (Hb b) as (p & c & i & Ha & Hr & Eb); [left|]. pose proof (hi_arena _ Hi _ _ Ha) as [Hp _ Hlast _ _].
  cbn [span a_desc] in Hlast. pose proof (blk_page p i r Hr H1 H3) as Ep. rewrite <- Eb in Ep.
  pose proof (Hc _ _ Ha) as Ec. rewrite (on_page_cons p) in Ec by done. rewrite decide_True in Ec by done.
  destruct (on_page_full _ _ _ _ p Hf H1 H3 H2) as [Hle _]. rewrite (on_page_cons p), decide_True in Hle by done.
  assert (blocks_per_arena r < 4096) by nia. apply list.NoDup_cons in Hn as [Hnb Hn]. rewrite Ep in Hni.
  destruct (recount h d r l p c (u32 (c - 1)) (pages h)) as [Hinv Hlive]; [done|done|done|apply Hi|done|done| | | |].
  { intros x Hx. apply Hb. by right. }
  { rewrite wrap_small; lia. }
  { intros q Hq. rewrite Hl, (on_page_cons p) by done. by rewrite decide_False. }
  exists (update h d l (<[p := mk_arena (Some d) (u32 (c - 1))]> (arenas h)) (pages h)). split.
  { unfold take_block. rewrite Hd, Hl. rewrite Eb.
    change (blk p i r) with (blk p i (relist r l)).
    rewrite (block_to_arena_small _ d _ p c i); [done|done|done|lia| |done|done].
    by rewrite (lookup_with_free_list h d r), decide_True. }
  split. { split; [done|]. apply (no_idle_update h d r); [done|done|]. rewrite wrap_small; lia. }
  split; [done|]. split; [unfold blk in Eb; nia|]. split.
  - intros x sz. rewrite Hlive, (live_split h d r), Hl by done. rewrite not_elem_of_cons. split.
    + intros [?|(Hx & Hnx & ->)]; [by left; left|]. destruct (decide (x = b)) as [->|]; [by right|].
      left. right. done.
    + intros [[?|(Hx & Hnx & ->)]|[-> ->]]; [by left|right; split; [done|]; split; [by apply Hnx|done]|].
      right. split; [by exists p, c, i|done].
  - intros sz (q & a & Hqa & Hof). pose proof (block_bounds _ _ _ _ _ Hi Hqa Hof) as (_ & _ & _ & Eq).
    rewrite Ep in Eq. subst q. rewrite Ha in Hqa. injection Hqa as <-. destruct Hof as (r' & j & Hd' & _ & _ & Hnin & _).
    rewrite Hd in Hd'. injection Hd' as <-. apply Hnin. rewrite Hl. left.
Qed.

(** ** A new arena *)

Lemma fill_arena_run (h : heap) d r p c : descs h !! d = Some r → arenas h !! p = Some (mk_arena (Some d) c) →
  ∀ n i, 0 ≤ i → i + Z.of_nat n ≤ blocks_per_arena r →
  ∀ l, fill_arena n i (with_free_list h d l) d p = Ret (with_free_list h d (l ++ arena_blocks p r i (Z.of_nat n))).
Proof.
  intros Hd Ha. induction n as [|n IH]; intros i Hi Hn l.
  { unfold arena_blocks. cbn [fill_arena]. rewrite seqZ_nil by lia. by rewrite app_nil_r. }
  cbn [fill_arena]. unfold arena_to_block. cbn [arenas with_free_list]. rewrite Ha. cbn [a_desc mbind option_bind].
  pose proof (lookup_with_free_list h d r l d Hd) as E. rewrite decide_True in E by done. rewrite E.
  destruct (Z.ltb_spec i (blocks_per_arena (relist r l))) as [_|Hx]; [|cbn in Hx; lia].
  cbn [ASSERT mbind outcome_bind free_list relist]. rewrite with_free_list_twice, IH by lia.
  rewrite arena_blocks_cons, <- app_assoc. done.
Qed.

(** A page that is not in use carries no arena, and an arena there disturbs no other. *)
Lemma unused_no_arena h q : heap_inv h → ¬ pa_used (pages h) q → arenas h !! q = None.
Proof.
  intros Hi Hq. destruct (arenas h !! q) as [a|] eqn:E; [|done]. destruct Hq.
  apply (ao_used _ _ _ _ (hi_arena _ Hi _ _ E)). pose proof (ao_span _ _ _ _ (hi_arena _ Hi _ _ E)). lia.
Qed.

Lemma arena_ok_new s s' ar p a q b : (∀ x, pa_used s x → pa_used s' x) → ¬ pa_used s p →
  arena_ok s ar q b → arena_ok s' (<[p := a]> ar) q b.
Proof.
  intros Hs Hp [H1 H2 H3 H4 H5]. constructor; [done|done|done|auto|]. intros x Hx.
  rewrite lookup_insert_ne; [auto|]. intros ->. apply Hp, H4. lia.
Qed.

(** The arena for a fresh run of pages. *)
Lemma arena_ok_fresh h s p a : heap_inv h → 0 < p → 0 < span a → p + span a ≤ 2 ^ 20 →
  (∀ q, p ≤ q < p + span a → ¬ pa_used (pages h) q) →
  (∀ q, pa_used s q ↔ pa_used (pages h) q ∨ p ≤ q < p + span a) →
  ∀ q b, <[p := a]> (arenas h) !! q = Some b → arena_ok s (<[p := a]> (arenas h)) q b.
Proof.
  intros Hi Hp Hs Hl Hf Hu q b Hq. destruct (decide (p = q)) as [<-|Hne].
  - rewrite lookup_insert_eq in Hq. injection Hq as <-. constructor; [done|done|done| |].
    + intros q Hq. apply Hu. by right.
    + intros q Hq. rewrite lookup_insert_ne by lia. apply unused_no_arena; [done|]. apply Hf. lia.
  - rewrite lookup_insert_ne in Hq by done. apply (arena_ok_new (pages h)); [|apply Hf; lia|by apply (hi_arena _ Hi)].
    intros x Hx. apply Hu. by left.
Qed.

Lemma with_pages_ok h s : heap_inv h → pa_ok s → (∀ q, pa_used s q ↔ pa_used (pages h) q) → heap_inv (with_pages h s).
Proof.
  intros [H1 H2 H3 H4 H5] Hs Hu. constructor; [done|done| |done|done].
  intros p a Ha. apply (arena_ok_dom (pages h) s (arenas h)); [by intros q ?; apply Hu|done|by apply H3].
Qed.

Lemma on_page_blocks p q r i n : (∀ j, i ≤ j < i + n → blk p j r / 4096 = p) →
  on_page q (arena_blocks p r i n) = if decide (q = p) then arena_blocks p r i n else [].
Proof.
  intros Hp. unfold on_page. destruct (decide (q = p)) as [->|Hne].
  - apply list_filter_all. intros b Hb. apply elem_of_arena_blocks in Hb as (j & -> & Hj). by apply Hp.
  - apply list_filter_none. intros b Hb. apply elem_of_arena_blocks in Hb as (j & -> & Hj). rewrite Hp by done. congruence.
Qed.

(** A page of free blocks for a descriptor without any. *)
Lemma add_arena_ok h d r p s : heap_inv h → descs h !! d = Some r → free_list r = [] → pa_ok s → 0 < p → p + 1 ≤ 2 ^ 20 →
  ¬ pa_used (pages h) p → (∀ q, pa_used s q ↔ pa_used (pages h) q ∨ q = p) →
  let h' := update h d (arena_blocks p r 0 (blocks_per_arena r)) (<[p := mk_arena (Some d) (blocks_per_arena r)]> (arenas h)) s in
  heap_inv h' ∧ (no_idle h → no_idle_but p h') ∧ ∀ b sz, live h' b sz ↔ live h b sz.
Proof.
  intros Hi Hd Hl Hs Hp Hlast Hun Hu h'. pose proof (desc_geom _ _ _ Hi Hd) as (H1 & H2 & H3).
  pose proof (unused_no_arena _ _ Hi Hun) as Hnone.
  assert (others_same (arenas h) (<[p := mk_arena (Some d) (blocks_per_arena r)]> (arenas h)) d) as Ho.
  { apply others_same_insert. intros a. by rewrite Hnone. }
  assert (∀ j, 0 ≤ j < 0 + blocks_per_arena r → blk p j r / 4096 = p) as Hpg by (intros; apply blk_page; lia).
  split; [|split].
  - apply (inv_update h d r); [done|done|done| | |done].
    + constructor; [by apply NoDup_arena_blocks| |].
      * intros b Hb. apply elem_of_arena_blocks in Hb as (j & -> & Hj). eexists p, _, j.
        rewrite lookup_insert_eq. split; [done|]. split; [lia|done].
      * intros q c Hq. rewrite on_page_blocks by done. destruct (decide (q = p)) as [->|Hne].
        -- rewrite lookup_insert_eq in Hq. injection Hq as <-. unfold arena_blocks.
           rewrite length_fmap, length_seqZ. lia.
        -- rewrite lookup_insert_ne in Hq by done. pose proof (fo_count _ _ _ _ (hi_free _ Hi _ _ Hd) _ _ Hq) as E.
           by rewrite Hl in E.
    + apply arena_ok_fresh; cbn [span a_desc]; [done|lia|lia|lia|intros q Hq; by replace q with p by lia|].
      intros q. rewrite Hu. assert (q = p ↔ p ≤ q < p + 1) as -> by lia. done.
  - intros Hni q d' c r' Hne. unfold h'. cbn [update arenas descs]. rewrite lookup_insert_ne by congruence.
    rewrite (lookup_with_free_list h d r) by done. destruct (decide (d = d')) as [<-|]; [|by apply (Hni p)].
    intros Hq [= <-]. by apply (Hni p q d c r).
  - intros b sz. unfold h'. rewrite (live_update h d r), (live_split h d r), Hl by done.
    rewrite elem_of_arena_blocks. split; (intros [?|(Hb & Hn & ->)]; [by left|right]).
    + destruct Hb as (q & c & i & Hq & Hr & ->). destruct (decide (p = q)) as [<-|].
      { destruct Hn. exists i. split; [done|lia]. }
      rewrite lookup_insert_ne in Hq by done. split; [by exists q, c, i|]. split; [by apply not_elem_of_nil|done].
    + destruct Hb as (q & c & i & Hq & Hr & ->). assert (q ≠ p) as Hne by (intros ->; congruence).
      split; [exists q, c, i; by rewrite lookup_insert_ne by done|]. split; [|done].
      intros (j & Ej & Hj). apply Hne. rewrite <- (Hpg j), <- Ej by lia. symmetry. by apply blk_page.
Qed.

Lemma new_arena_run h d r : heap_inv h → descs h !! d = Some r → free_list r = [] →
  ∃ got h', new_arena h d r = Ret (got, h') ∧ heap_inv h' ∧ memory h' = memory h ∧
    (∀ b sz, live h' b sz ↔ live h b sz) ∧
    if (got : bool) then ∃ p l, (no_idle h → no_idle_but p h') ∧
        descs h' !! d = Some (relist r (blk p 0 r :: l)) ∧ blk p 0 r / 4096 = p
    else no_idle h → no_idle h'.
Proof.
  intros Hi Hd Hl. pose proof (desc_geom _ _ _ Hi Hd) as (H1 & H2 & H3). unfold new_arena.
  destruct (pa_get_spec (pages h) 1 (hi_pages _ Hi) ltac:(lia)) as (o & s & -> & Hs & Hm & Ho). cbn [mbind outcome_bind].
  destruct o as [p|].
  - destruct Ho as (Hp & Hlast & Hf & Hu).
    destruct (add_arena_ok h d r p s) as (Hinv & Hni & Hlive); [done|done|done|done|done|done|apply Hf; lia| |].
    { intros q. rewrite Hu. assert (q = p ↔ p ≤ q < p + 1) as -> by lia. done. }
    set (h1 := with_arena (with_pages h s) p _). assert (descs h1 !! d = Some r) as Hd1 by exact Hd.
    rewrite <- (with_free_list_same h1 d r Hd1).
    rewrite (fill_arena_run h1 d r p (blocks_per_arena r)) by (done || lia || apply lookup_insert_eq).
    rewrite Z2Nat.id, Hl by lia. cbn [mbind outcome_bind app]. eexists true, _. split; [done|]. split; [exact Hinv|].
    split; [exact Hm|]. split; [exact Hlive|].
    exists p, (arena_blocks p r (0 + 1) (Z.of_nat (Z.to_nat (blocks_per_arena r) - 1))). split; [exact Hni|].
    split; [|apply blk_page; lia]. rewrite (lookup_with_free_list h1 d r) by done. rewrite decide_True by done.
    do 2 f_equal. rewrite <- arena_blocks_cons. f_equal. lia.
  - eexists false, _. split; [done|]. split; [by apply with_pages_ok|]. split; [exact Hm|]. by split.
Qed.

(** ** Big blocks *)

Lemma big_pages_exact size : 0 < size → size + 4107 < 2 ^ 32 →
  big_pages size = (size + 4107) / 4096 ∧ size + 12 ≤ big_pages size * 4096 ∧ 0 < big_pages size.
Proof.
  intros H1 H2. assert (big_pages size = (size + 4107) / 4096) as E.
  { unfold big_pages. change PGSIZE with 4096. change SIZEOF_ARENA with 12. rewrite (wrap_small 32 (size + 12)) by lia.
    rewrite wrap_small by lia. f_equal. lia. }
  split; [done|]. rewrite E. pose proof (Z.div_mod (size + 4107) 4096 ltac:(lia)).
  pose proof (Z.mod_pos_bound (size + 4107) 4096 ltac:(lia)). lia.
Qed.

(** A new arena of a big block. *)
Lemma add_big_ok h p n s : heap_ok h → pa_ok s → 0 < p → 0 < n → p + n ≤ 2 ^ 20 →
  (∀ q, p ≤ q < p + n → ¬ pa_used (pages h) q) → (∀ q, pa_used s q ↔ pa_used (pages h) q ∨ p ≤ q < p + n) →
  let h' := with_arena (with_pages h s) p (mk_arena None n) in
  heap_ok h' ∧ (∀ b sz, live h' b sz ↔ live h b sz ∨ (b = p * 4096 + 12 ∧ sz = n * 4096 - 12)) ∧
  ∀ sz, ¬ live h (p * 4096 + 12) sz.
Proof.
  intros [Hi Hni] Hs Hp Hn Hl Hf Hu h'. pose proof (unused_no_arena _ p Hi (Hf p ltac:(lia))) as Hnone.
  assert (∀ q d c, arenas h' !! q = Some (mk_arena (Some d) c) ↔ arenas h !! q = Some (mk_arena (Some d) c)) as Hsame.
  { intros q d c. cbn. destruct (decide (p = q)) as [<-|]; [|by rewrite lookup_insert_ne].
    rewrite lookup_insert_eq, Hnone. done. }
  split; [split|split].
  - pose proof Hi as [K1 K2 K3 K4 K5]. constructor; [done|done| | |].
    + exact (arena_ok_fresh h s p (mk_arena None n) Hi Hp Hn Hl Hf Hu).
    + intros q d c Hq. apply Hsame in Hq. by apply (K4 q d c).
    + intros d r Hd. destruct (K5 d r Hd) as [L1 L2 L3]. constructor; [done| |].
      * intros b Hb. destruct (L2 b Hb) as (q & c & i & Hq & Hx). exists q, c, i. split; [by apply Hsame|done].
      * intros q c Hq. apply L3. by apply Hsame.
  - intros x q d c r Hx Hq Hd. apply (Hni x q d c r Hx); [by apply Hsame|done].
  - intros b sz. unfold live. cbn [h' arenas with_arena with_pages descs]. split.
    + intros (q & a & Hq & Hb). destruct (decide (p = q)) as [<-|].
      * rewrite lookup_insert_eq in Hq. injection Hq as <-. by right.
      * rewrite lookup_insert_ne in Hq by done. left. by exists q, a.
    + intros [(q & a & Hq & Hb)|[-> ->]].
      * exists q, a. rewrite lookup_insert_ne by (intros ->; congruence). done.
      * exists p, (mk_arena None n). by rewrite lookup_insert_eq.
  - intros sz (q & a & Hq & Hb). pose proof (block_bounds _ _ _ _ _ Hi Hq Hb) as (_ & _ & _ & E).
    replace ((p * 4096 + 12) / 4096) with p in E by (apply Z.div_unique_pos with 12; lia). subst q. congruence.
Qed.

(** What a successful allocation of at least [size] bytes does. *)
Definition allocated_block (h h' : heap) (b size : Z) : Prop := ∃ sz, size ≤ sz ∧ 0 < b ∧
  (∀ x n, live h' x n ↔ live h x n ∨ (x = b ∧ n = sz)) ∧ ∀ n, ¬ live h b n.

(** ** The promise of [malloc] *)

Lemma find_desc_spec ds size i d : find_desc ds size i = Some d →
  ∃ r, (i ≤ d)%nat ∧ ds !! (d - i)%nat = Some r ∧ size ≤ block_size r.
Proof.
  revert i. induction ds as [|r ds IH]; intros i; cbn; [done|]. destruct (Z.leb_spec size (block_size r)).
  - intros [= <-]. exists r. rewrite Nat.sub_diag. done.
  - intros Hf. apply IH in Hf as (r' & Hle & Hd & Hs). exists r'. split; [lia|].
    replace (d - i)%nat with (S (d - S i)) by lia. done.
Qed.

Lemma malloc_run h size : heap_ok h → 0 < size → size + 4107 < 2 ^ 32 →
  ∃ b h', malloc h size = Ret (b, h') ∧ heap_ok h' ∧ memory h' = memory h ∧
    ((b = 0 ∧ ∀ x n, live h' x n ↔ live h x n) ∨ allocated_block h h' b size).
Proof.
  intros [Hi Hni] Hs1 Hs2. unfold malloc. destruct (Z.eqb_spec size 0); [lia|].
  destruct (find_desc (descs h) size 0) as [d|] eqn:Hfd.
  - destruct (find_desc_spec _ _ _ _ Hfd) as (r & _ & Hd & Hs). rewrite Nat.sub_0_r in Hd. rewrite Hd.
    destruct (free_list r) as [|b l] eqn:Hl.
    + destruct (new_arena_run h d r Hi Hd Hl) as (got & h1 & -> & Hi1 & Hm1 & Hlive & Hgot). cbn [mbind outcome_bind].
      destruct got.
      * destruct Hgot as (p & l & Hni1 & Hd1 & Hp). rewrite <- Hp in Hni1 at 1.
        destruct (take_block_run h1 d _ (blk p 0 r) l Hi1 (Hni1 Hni) Hd1 eq_refl)
          as (h2 & -> & Hok & Hm & Hpos & Hlive2 & Hnl). eexists _, h2. split; [done|]. split; [done|]. split; [congruence|].
        right. exists (block_size r). split; [done|]. split; [done|]. split.
        { intros x n0. rewrite Hlive2, Hlive. done. }
        intros n0 Hn0. apply (Hnl n0). by rewrite Hlive.
      * exists 0, h1. split; [done|]. split; [split; auto|]. split; [done|]. left. done.
    + destruct (take_block_run h d r b l Hi (Hni _) Hd Hl) as (h2 & -> & Hok & Hm & Hpos & Hlive2 & Hnl).
      eexists _, h2. split; [done|]. split; [done|]. split; [congruence|]. right. exists (block_size r). done.
  - unfold malloc_big. destruct (big_pages_exact size Hs1 Hs2) as (_ & Hbig & Hpos).
    destruct (Z.eqb_spec (big_pages size) 0); [lia|].
    destruct (pa_get_spec (pages h) (big_pages size) (hi_pages _ Hi) Hpos) as (o & s & -> & Hs & Hm & Ho).
    cbn [mbind outcome_bind]. destruct o as [p|].
    + destruct Ho as (Hp & Hl & Hf & Hu). destruct (add_big_ok h p (big_pages size) s) as (Hok & Hlive & Hnl); try done.
      eexists _, _. split; [done|]. split; [exact Hok|]. split; [exact Hm|]. right.
      exists (big_pages size * 4096 - 12). split; [lia|]. split; [change PGSIZE with 4096; change SIZEOF_ARENA with 12; lia|].
      split; [exact Hlive|exact Hnl].
    + eexists 0, _. split; [done|]. split; [split; [by apply with_pages_ok|exact Hni]|]. split; [exact Hm|]. by left.
Qed.

(** ** Releasing a block *)

Lemma drain_arena_run (h : heap) d r p c : descs h !! d = Some r → arenas h !! p = Some (mk_arena (Some d) c) →
  16 ≤ block_size r →
  ∀ n i l, i + Z.of_nat n ≤ blocks_per_arena r → (∀ j, i ≤ j < i + Z.of_nat n → blk p j r ∈ l) →
  drain_arena n i (with_free_list h d l) d p
  = Ret (with_free_list h d (filter (λ b, b ∉ arena_blocks p r i (Z.of_nat n)) l)).
Proof.
  intros Hd Ha Hbs. induction n as [|n IH]; intros i l Hn Hin.
  { cbn [drain_arena]. rewrite list_filter_all; [done|]. intros x _. unfold arena_blocks.
    rewrite seqZ_nil by lia. apply not_elem_of_nil. }
  cbn [drain_arena]. unfold arena_to_block. cbn [arenas with_free_list]. rewrite Ha. cbn [a_desc mbind option_bind].
  pose proof (lookup_with_free_list h d r l d Hd) as E. rewrite decide_True in E by done. rewrite E.
  destruct (Z.ltb_spec i (blocks_per_arena (relist r l))) as [_|Hx]; [|cbn in Hx; lia].
  cbn [ASSERT mbind outcome_bind free_list relist]. change (p * PGSIZE + SIZEOF_ARENA + i * block_size (relist r l)) with (blk p i r).
  rewrite decide_True by (apply Hin; lia). rewrite with_free_list_twice, IH.
  - rewrite list_filter_filter. do 2 f_equal. apply list_filter_iff. intros x.
    rewrite arena_blocks_cons, not_elem_of_cons. tauto.
  - lia.
  - intros j Hj. apply list_elem_of_filter. split; [|apply Hin; lia]. intros Ej. apply blk_inj in Ej; [lia|done].
Qed.

Lemma arena_ok_delete h p a s : heap_inv h → arenas h !! p = Some a →
  (∀ q, pa_used s q ↔ pa_used (pages h) q ∧ ¬ (p ≤ q < p + span a)) →
  ∀ q b, delete p (arenas h) !! q = Some b → arena_ok s (delete p (arenas h)) q b.
Proof.
  intros Hi Hp Hu q b Hq. apply lookup_delete_Some in Hq as [Hne Hq].
  pose proof (hi_arena _ Hi _ _ Hq) as [H1 H2 H3 H4 H5]. constructor; [done|done|done| |].
  - intros x Hx. apply Hu. split; [auto|]. pose proof (ao_span _ _ _ _ (hi_arena _ Hi _ _ Hp)).
    destruct (Z.lt_total p q) as [Hlt|[?|Hlt]]; [|done|].
    + pose proof (arenas_apart _ _ _ _ _ Hi Hp Hq Hlt). lia.
    + pose proof (arenas_apart _ _ _ _ _ Hi Hq Hp Hlt). lia.
  - intros x Hx. apply lookup_delete_None. right. auto.
Qed.

(** The bytes of a block are not on the pages of another arena. *)
Lemma block_off_pages h p a q b x n y : heap_inv h → arenas h !! p = Some a → arenas h !! q = Some b → q ≠ p →
  q * 4096 + 12 ≤ x → x + n ≤ (q + span b) * 4096 → x ≤ y < x + n → ¬ (p ≤ y / 4096 < p + span a).
Proof.
  intros Hi Hp Hq Hne H1 H2 Hy Hc. assert (q ≤ y / 4096) by (apply Z.div_le_lower_bound; lia).
  assert (y / 4096 < q + span b) by (apply Z.div_lt_upper_bound; lia).
  destruct (Z.lt_total p q) as [Hlt|[?|Hlt]]; [|done|].
  - pose proof (arenas_apart _ _ _ _ _ Hi Hp Hq Hlt). lia.
  - pose proof (arenas_apart _ _ _ _ _ Hi Hq Hp Hlt). lia.
Qed.

(** What a release does to the live blocks and to their bytes. *)
Definition freed_block (h h' : heap) (b : Z) : Prop :=
  (∀ x n, live h' x n ↔ live h x n ∧ x ≠ b) ∧
  ∀ x n y, live h' x n → x ≤ y < x + n → memory h' y = memory h y.

(** Giving back the page of an arena whose blocks are all free. *)
Lemma drop_arena_ok h d r p c s : heap_inv h → no_idle_but p h → descs h !! d = Some r →
  arenas h !! p = Some (mk_arena (Some d) c) → (∀ i, 0 ≤ i < blocks_per_arena r → blk p i r ∈ free_list r) →
  pa_ok s → (∀ q, pa_used s q ↔ pa_used (pages h) q ∧ ¬ (p ≤ q < p + 1)) →
  (∀ x, ¬ (p ≤ x / 4096 < p + 1) → pa_mem s x = memory h x) →
  let l := filter (λ b, b ∉ arena_blocks p r 0 (blocks_per_arena r)) (free_list r) in
  let h' := update h d l (delete p (arenas h)) s in
  heap_ok h' ∧ (∀ x n, live h' x n ↔ live h x n) ∧
  ∀ x n y, live h' x n → x ≤ y < x + n → memory h' y = memory h y.
Proof.
  intros Hi Hni Hd Hp Hall Hs Hu Hm l h'. pose proof (desc_geom _ _ _ Hi Hd) as (H1 & H2 & H3).
  destruct (hi_free _ Hi _ _ Hd) as [Hn Hb Hc].
  assert (others_same (arenas h) (delete p (arenas h)) d) as Ho.
  { intros q a Ha. rewrite lookup_delete_Some. split; [by intros []|]. intros Hq. split; [|done].
    intros <-. rewrite Hp in Hq. injection Hq as <-. by destruct Ha. }
  assert (∀ b, block_in (delete p (arenas h)) d r b ↔ block_in (arenas h) d r b ∧ b ∉ arena_blocks p r 0 (blocks_per_arena r)) as Hin.
  { intros b. rewrite elem_of_arena_blocks. split.
    - intros (q & x & i & Hq & Hr & ->). apply lookup_delete_Some in Hq as [Hne Hq]. split; [by exists q, x, i|].
      intros (j & E & Hj). apply Hne. rewrite <- (blk_page p j r), <- E by (done || lia). by apply blk_page.
    - intros [(q & x & i & Hq & Hr & ->) Hnin]. exists q, x, i. split; [|done]. apply lookup_delete_Some. split; [|done].
      intros <-. destruct Hnin. exists i. split; [done|lia]. }
  assert (heap_inv h') as Hi'.
  { apply (inv_update h d r); [done|done|done| |by apply (arena_ok_delete h p (mk_arena (Some d) c))|done].
    constructor.
    - by apply NoDup_filter.
    - intros b Hbl. apply list_elem_of_filter in Hbl as [Hx Hbl]. apply Hin. split; [by apply Hb|done].
    - intros q x Hq. apply lookup_delete_Some in Hq as [Hne Hq]. rewrite (Hc q x Hq). do 2 f_equal.
      unfold on_page, l. rewrite list_filter_filter_l; [done|]. intros b Eb. rewrite elem_of_arena_blocks.
      intros (j & -> & Hj). rewrite blk_page in Eb by (done || lia). done. }
  assert (∀ x n, live h' x n ↔ live h x n) as Hlive.
  { intros x n. unfold h'. rewrite (live_update h d r), (live_split h d r), Hin by done.
    unfold l. rewrite list_elem_of_filter. split; (intros [?|(Hx & Hy & ->)]; [by left|right]).
    - destruct Hx as [Hx Hxn]. split; [done|]. split; [|done]. intros Hxl. by apply Hy.
    - split; [|split; [intros [_ ?]; done|done]]. split; [done|]. intros (j & -> & Hj)%elem_of_arena_blocks.
      apply Hy, Hall. lia. }
  split; [split; [done|]|split; [done|]].
  - intros y q d' x r' _. unfold h'. cbn [update arenas descs]. rewrite lookup_delete_Some. intros [Hne Hq].
    rewrite (lookup_with_free_list h d r) by done. destruct (decide (d = d')) as [<-|]; [|by apply (Hni q)].
    intros [= <-]. by apply (Hni q d x r).
  - intros x n y (q & a & Hq & Hbl) Hy. pose proof (block_bounds _ _ _ _ _ Hi' Hq Hbl) as (B1 & B2 & _).
    change (delete p (arenas h) !! q = Some a) in Hq. apply lookup_delete_Some in Hq as [Hne Hq]. apply Hm.
    apply (block_off_pages h p (mk_arena (Some d) c) q a x n y Hi Hp Hq); [congruence|lia|done|done].
Qed.

(** Putting a block back on its free list. *)
Lemma push_block_ok h d r p c i s : heap_ok h → descs h !! d = Some r → arenas h !! p = Some (mk_arena (Some d) c) →
  0 ≤ i < blocks_per_arena r → blk p i r ∉ free_list r → pa_ok s → (∀ q, pa_used s q ↔ pa_used (pages h) q) →
  let h' := update h d (blk p i r :: free_list r) (<[p := mk_arena (Some d) (c + 1)]> (arenas h)) s in
  heap_inv h' ∧ no_idle_but p h' ∧ 0 ≤ c ∧ c + 1 ≤ blocks_per_arena r ∧ (c + 1 < blocks_per_arena r → no_idle h') ∧
  (blocks_per_arena r ≤ c + 1 → ∀ j, 0 ≤ j < blocks_per_arena r → blk p j r ∈ blk p i r :: free_list r) ∧
  ∀ x n, live h' x n ↔ live h x n ∧ x ≠ blk p i r.
Proof.
  intros [Hi Hni] Hd Ha Hr Hnin Hs Hu h'. pose proof (desc_geom _ _ _ Hi Hd) as (H1 & H2 & H3).
  pose proof (hi_free _ Hi _ _ Hd) as [Hn Hb Hc]. pose proof (blk_page p i r Hr H1 H3) as Ep.
  pose proof (Hc _ _ Ha) as Ec.
  destruct (recount h d r (blk p i r :: free_list r) p c (c + 1) s) as [Hinv Hlive];
    [done|done|done|done|done|by apply list.NoDup_cons| | | |].
  { intros b Hin. apply elem_of_cons in Hin as [->|Hin]; [by exists p, c, i|by apply Hb]. }
  { rewrite (on_page_cons p), decide_True by done. lia. }
  { intros q Hq. rewrite (on_page_cons p) by done. by rewrite decide_False. }
  assert (descs h' !! d = Some (relist r (blk p i r :: free_list r))) as Hd'
    by (unfold h'; cbn [update descs]; by rewrite (lookup_with_free_list h d r), decide_True).
  destruct (on_page_full _ _ _ _ p (hi_free _ Hinv _ _ Hd') H1 H3 H2) as [Hle Hfull].
  cbn [relist free_list blocks_per_arena] in Hle, Hfull. rewrite (on_page_cons p), decide_True in Hle, Hfull by done.
  split; [done|]. split; [|split; [lia|split; [lia|split; [|split]]]].
  - intros q d' x r' Hne. unfold h'. cbn [update arenas descs]. rewrite lookup_insert_ne by done.
    rewrite (lookup_with_free_list h d r) by done. intros Hq. destruct (decide (d = d')) as [<-|]; [|by apply (Hni p q)].
    intros [= <-]. by apply (Hni p q d x r).
  - intros Hlt. by apply (no_idle_update h d r).
  - intros Hge. apply Hfull. lia.
  - intros x n. unfold h'. rewrite Hlive, (live_split h d r), not_elem_of_cons by done. split.
    + intros [He|(Hx & [Hx1 Hx2] & ->)]; [|split; [by right|done]]. split; [by left|]. intros ->.
      destruct He as (q & a & Hq & Hda & Hof). pose proof (block_bounds _ _ _ _ _ Hi Hq Hof) as (_ & _ & _ & E).
      rewrite Ep in E. subst q. rewrite Ha in Hq. injection Hq as <-. by destruct Hda.
    + intros [[He|(Hx & Hx1 & ->)] Hne]; [by left|right; done].
Qed.

(** Giving back the pages of a big block. *)
Lemma drop_big_ok h p n s : heap_ok h → arenas h !! p = Some (mk_arena None n) → pa_ok s →
  (∀ q, pa_used s q ↔ pa_used (pages h) q ∧ ¬ (p ≤ q < p + n)) →
  (∀ x, ¬ (p ≤ x / 4096 < p + n) → pa_mem s x = memory h x) →
  let h' := without_arena (with_pages h s) p in heap_ok h' ∧ freed_block h h' (p * 4096 + 12).
Proof.
  intros [Hi Hni] Hp Hs Hu Hm h'.
  assert (∀ q d c, arenas h' !! q = Some (mk_arena (Some d) c) ↔ arenas h !! q = Some (mk_arena (Some d) c)) as Hsame.
  { intros q d c. unfold h'. cbn [without_arena with_pages arenas]. rewrite lookup_delete_Some. split; [by intros []|].
    intros Hq. split; [|done]. intros <-. congruence. }
  assert (heap_inv h') as Hi'.
  { pose proof Hi as [K1 K2 K3 K4 K5]. constructor; [done|done| | |].
    - exact (arena_ok_delete h p (mk_arena None n) s Hi Hp Hu).
    - intros q d c Hq. apply Hsame in Hq. by apply (K4 q d c).
    - intros d r Hd. destruct (K5 d r Hd) as [L1 L2 L3]. constructor; [done| |].
      + intros b Hb. destruct (L2 b Hb) as (q & c & i & Hq & Hx). exists q, c, i. split; [by apply Hsame|done].
      + intros q c Hq. apply L3. by apply Hsame. }
  split; [split; [done|]|split].
  - intros x q d c r Hx Hq Hd. apply (Hni x q d c r Hx); [by apply Hsame|done].
  - assert ((p * 4096 + 12) / 4096 = p) as Ep by (symmetry; apply Z.div_unique_pos with 12; lia).
    intros x m. unfold live. cbn [h' arenas without_arena with_pages descs]. split.
    + intros (q & a & Hq & Hb). apply lookup_delete_Some in Hq as [Hne Hq]. split; [by exists q, a|].
      intros ->. pose proof (block_bounds _ _ _ _ _ Hi Hq Hb) as (_ & _ & _ & E). congruence.
    + intros [(q & a & Hq & Hb) Hne]. exists q, a. split; [|done]. apply lookup_delete_Some. split; [|done].
      intros <-. rewrite Hp in Hq. injection Hq as <-. destruct Hb as [-> _]. done.
  - intros x m y (q & a & Hq & Hbl) Hy. pose proof (block_bounds _ _ _ _ _ Hi' Hq Hbl) as (B1 & B2 & _).
    change (delete p (arenas h) !! q = Some a) in Hq. apply lookup_delete_Some in Hq as [Hne Hq]. apply Hm.
    apply (block_off_pages h p (mk_arena None n) q a x m y Hi Hp Hq); [congruence|lia|done|done].
Qed.

Lemma live_pos h b sz : heap_inv h → live h b sz → 0 < b ∧ 0 < sz.
Proof.
  intros Hi (p & a & Ha & Hb). pose proof (block_bounds _ _ _ _ _ Hi Ha Hb).
  pose proof (ao_first _ _ _ _ (hi_arena _ Hi _ _ Ha)). lia.
Qed.

Lemma free_run h b sz : heap_ok h → live h b sz → ∃ h', free h b = Ret h' ∧ heap_ok h' ∧ freed_block h h' b.
Proof.
  intros Hok Hlv. pose proof Hok as [Hi Hni]. pose proof (live_pos _ _ _ Hi Hlv) as [Hb0 _].
  pose proof Hlv as (p & [[d|] c] & Ha & Hof); cbn in Hof; unfold free;
    destruct (Z.eqb_spec b 0); try lia; pose proof (hi_arena _ Hi _ _ Ha) as [Hp Hsp Hlast Hused _]; cbn in Hsp, Hlast, Hused.
  - destruct Hof as (r & i & Hd & Hr & -> & Hnin & ->). pose proof (desc_geom _ _ _ Hi Hd) as (H1 & H2 & H3).
    rewrite (block_to_arena_small h d r p c i) by (done || lia). cbn [mbind outcome_bind a_desc]. rewrite Hd.
    set (b := blk p i r) in *. set (m := memset (memory h) b 0xcc (block_size r)).
    destruct (pa_set_mem_spec (pages h) m (hi_pages _ Hi)) as (Hs & Hm & Hu).
    destruct (push_block_ok h d r p c i _ Hok Hd Ha Hr Hnin Hs Hu) as (Hi1 & Hni1 & Hc0 & Hle & Hlt & Hfull & Hlive).
    set (h1 := update h d _ _ _) in Hi1, Hni1, Hlt, Hlive.
    assert (blocks_per_arena r < 4096) by nia. cbn [free_cnt]. rewrite (wrap_small 32 (c + 1)) by lia.
    assert (∀ x m1 y, live h1 x m1 → x ≤ y < x + m1 → memory h1 y = memory h y) as Hmem1.
    { intros x m1 y Hx Hy. apply Hlive in Hx as [Hx Hne]. change (memory h1) with (pa_mem (pa_set_mem (pages h) m)).
      rewrite Hm. unfold m, memset. pose proof (live_disjoint _ _ _ _ _ Hi Hx Hlv Hne).
      destruct (Z.leb_spec b y), (Z.ltb_spec y (b + block_size r)); cbn; try done. lia. }
    destruct (Z.leb_spec (blocks_per_arena r) (c + 1)) as [Hge|Hl].
    + destruct (Z.eqb_spec (c + 1) (blocks_per_arena r)); [|lia]. cbn [ASSERT mbind outcome_bind].
      assert (descs h1 !! d = Some (relist r (b :: free_list r))) as Hd1
        by (unfold h1; cbn [update descs]; by rewrite (lookup_with_free_list h d r), decide_True).
      assert (arenas h1 !! p = Some (mk_arena (Some d) (c + 1))) as Ha1 by apply lookup_insert_eq.
      change (with_arena _ p _) with h1.
      rewrite <- (with_free_list_same h1 d _ Hd1). cbn [free_list relist].
      rewrite (drain_arena_run h1 d _ p (c + 1) Hd1 Ha1 H1) by (cbn [relist blocks_per_arena]; try lia; intros j Hj; apply Hfull; lia).
      cbn [mbind outcome_bind]. rewrite Z2Nat.id by lia. set (l := filter _ _).
      destruct (pa_free_spec (pages h1) p 1 Hs ltac:(lia)) as (s & E & Hs' & Hu' & Hm').
      { intros q Hq. apply Hu, Hused. lia. }
      change (pages (with_free_list h1 d l)) with (pages h1). rewrite E. cbn [mbind outcome_bind].
      destruct (drop_arena_ok h1 d _ p (c + 1) s Hi1 Hni1 Hd1 Ha1 (Hfull Hge) Hs' Hu' Hm') as (Hok2 & Hl2 & Hm2).
      eexists. split; [done|]. split; [exact Hok2|]. split.
      * intros x m1. fold b in Hlive. rewrite <- Hlive. apply Hl2.
      * intros x m1 y Hx Hy. transitivity (memory h1 y); [by apply (Hm2 x m1 y)|].
        apply (Hmem1 x m1 y); [by apply Hl2|done].
    + exists h1. split; [done|]. split; [split; auto|]. by split.
  - destruct Hof as [-> ->]. rewrite (block_to_arena_big h p c) by done. cbn [mbind outcome_bind a_desc free_cnt].
    destruct (pa_free_spec (pages h) p c (hi_pages _ Hi) Hsp Hused) as (s & E & Hs & Hu & Hm). rewrite E.
    cbn [mbind outcome_bind]. eexists. split; [done|]. by apply drop_big_ok with c.
Qed.

(** ** The promises *)

Lemma malloc_init_ok ds s : malloc_init = Ret ds → pa_ok s → heap_ok (mk_heap ds ∅ s).
Proof.
  intros E Hs. assert (ds = init_descs 32 16) as -> by (unfold malloc_init in E; change (ASSERT _) with (@Ret unit ()) in E; cbn [mbind outcome_bind] in E; congruence). split.
  - constructor; cbn [pages descs arenas]; [done|done|by intros ?? []%lookup_empty_Some|by intros ??? []%lookup_empty_Some|].
    intros d r Hd. assert (free_list r = []) as ->.
    { apply (list.Forall_lookup_1 (λ r, free_list r = []) (init_descs 32 16) d r); [by repeat constructor|done]. }
    constructor; [constructor|by intros ? []%not_elem_of_nil|by intros ?? []%lookup_empty_Some].
  - intros x p d c r _ Ha. cbn [arenas] in Ha. by apply lookup_empty_Some in Ha.
Qed.

(** C20. [malloc] hands out blocks of its own.  In a sound heap a request for [size] bytes (up
    to 4107 bytes short of the address space) always returns: with a null pointer and every
    live block as it was, or with the address of a block of at least [size] bytes that was not
    live, overlaps no live block, and is the only one the call adds; no byte of memory that
    callers own changes and the heap stays sound. *)
Theorem malloc_blocks_disjoint h size : heap_ok h → 0 < size → size + 4107 < 2 ^ 32 →
  ∃ b h', malloc h size = Ret (b, h') ∧ heap_ok h' ∧ memory h' = memory h ∧
    ((b = 0 ∧ ∀ x n, live h' x n ↔ live h x n) ∨
     ∃ sz, size ≤ sz ∧ live h' b sz ∧ (∀ n, ¬ live h b n) ∧ (∀ x n, live h' x n → live h x n ∨ (x = b ∧ n = sz)) ∧
       ∀ x n, live h x n → live h' x n ∧ (x + n ≤ b ∨ b + sz ≤ x)).
Proof.
  intros Hok H1 H2. destruct (malloc_run h size Hok H1 H2) as (b & h' & E & Hok' & Hm & Hr). exists b, h'.
  split; [done|]. split; [done|]. split; [done|]. destruct Hr as [Hr|(sz & Hsz & Hb & Hl & Hn)]; [by left|right].
  assert (live h' b sz) as Hlb by (apply Hl; by right). exists sz. split; [done|]. split; [done|]. split; [done|].
  split; [intros x n; apply Hl|]. intros x n Hx. assert (live h' x n) as Hx' by (apply Hl; by left).
  split; [done|]. apply (live_disjoint h'); [apply Hok'|done|done|]. intros ->. by apply (Hn n).
Qed.

(** [free] releases one block.  Freeing a live block of a sound heap returns (no assertion
    fails), leaves exactly the other blocks live with their bytes untouched, and keeps the
    heap sound; in particular an arena whose last block is freed goes back to the page
    allocator. *)
Theorem free_releases_block h b sz : heap_ok h → live h b sz →
  ∃ h', free h b = Ret h' ∧ heap_ok h' ∧ (∀ x n, live h' x n ↔ live h x n ∧ x ≠ b) ∧
    ∀ x n y, live h' x n → x ≤ y < x + n → memory h' y = memory h y.
Proof. intros Hok Hl. destruct (free_run h b sz Hok Hl) as (h' & E & Hok' & Hf). exists h'. by destruct Hf. Qed.

Lemma with_memory_ok h m : heap_ok h →
  heap_ok (with_memory h m) ∧ memory (with_memory h m) = m ∧ ∀ x n, live (with_memory h m) x n ↔ live h x n.
Proof.
  intros [Hi Hn]. destruct (pa_set_mem_spec (pages h) m (hi_pages _ Hi)) as (Hs & Hm & Hu).
  split; [split; [by apply with_pages_ok|exact Hn]|]. by split.
Qed.

Lemma size_of_block_run h b sz : heap_inv h → live h b sz → size_of_block h b = Ret sz.
Proof.
  intros Hi (p & [[d|] c] & Ha & Hof); cbn in Hof; unfold size_of_block;
    pose proof (hi_arena _ Hi _ _ Ha) as [Hp Hsp Hlast _ _]; cbn in Hsp, Hlast.
  - destruct Hof as (r & i & Hd & Hr & -> & _ & ->). pose proof (desc_geom _ _ _ Hi Hd) as (H1 & _ & H3).
    rewrite (block_to_arena_small h d r p c i) by (done || lia). cbn [mbind outcome_bind a_desc]. by rewrite Hd.
  - destruct Hof as [-> ->]. rewrite (block_to_arena_big h p c) by done. cbn [mbind outcome_bind a_desc free_cnt].
    rewrite pg_ofs_mod. assert ((p * 4096 + 12) mod 4096 = 12) as -> by (symmetry; apply Z.mod_unique_pos with p; lia).
    change PGSIZE with 4096. rewrite wrap_small by lia. f_equal. lia.
Qed.

(** [realloc] keeps the contents.  Resizing a live block to a positive size returns: with a
    null pointer, and then every block and byte is as before; or with another block of at
    least the new size that starts with the bytes of the old one, as many as fit, while the
    old block is gone and every other live block is still live with its bytes untouched. *)
Theorem realloc_keeps_contents h b sz size : heap_ok h → live h b sz → 0 < size → size + 4107 < 2 ^ 32 →
  ∃ b' h', realloc h b size = Ret (b', h') ∧ heap_ok h' ∧
    ((b' = 0 ∧ memory h' = memory h ∧ ∀ x n, live h' x n ↔ live h x n) ∨
     ∃ sz', size ≤ sz' ∧ live h' b' sz' ∧ (∀ n, ¬ live h' b n) ∧
       (∀ i, 0 ≤ i < Z.min size sz → memory h' (b' + i) = memory h (b + i)) ∧
       ∀ x n, live h x n → x ≠ b → live h' x n ∧ ∀ y, x ≤ y < x + n → memory h' y = memory h y).
Proof.
  intros Hok Hb H1 H2. pose proof (live_pos _ _ _ (proj1 Hok) Hb) as [Hb0 Hsz0]. unfold realloc.
  destruct (Z.eqb_spec size 0); [lia|]. destruct (malloc_run h size Hok H1 H2) as (b' & h1 & -> & Hok1 & Hm1 & Hr).
  cbn [mbind outcome_bind]. destruct (Z.eqb_spec b 0); [lia|]. cbn [negb andb].
  destruct Hr as [[-> Hl]|(sz' & Hsz & Hb' & Hl & Hn)]; [exists 0, h1; split; [done|]; split; [done|]; by left|].
  destruct (Z.eqb_spec b' 0); [lia|]. cbn [negb].
  assert (live h1 b sz) as Hb1 by (apply Hl; by left). assert (live h1 b' sz') as Hb1' by (apply Hl; by right).
  assert (b ≠ b') as Hne by (intros ->; by apply (Hn sz)).
  pose proof (live_disjoint _ _ _ _ _ (proj1 Hok1) Hb1 Hb1' Hne) as Hdis.
  rewrite (size_of_block_run h1 b sz) by (apply Hok1 || done). cbn [mbind outcome_bind].
  assert ((if size <? sz then size else sz) = Z.min size sz) as -> by (destruct (Z.ltb_spec size sz); lia).
  set (m := memcpy _ _ _ _). destruct (with_memory_ok h1 m Hok1) as (Hok2 & Hm2 & Hl2). set (h2 := with_memory h1 m) in *.
  destruct (free_run h2 b sz Hok2) as (h3 & -> & Hok3 & Hl3 & Hm3); [by apply Hl2|]. cbn [mbind outcome_bind].
  exists b', h3. split; [done|]. split; [done|]. right. exists sz'. split; [done|].
  assert (live h3 b' sz') as Hb3 by (apply Hl3; split; [by apply Hl2|done]). split; [done|].
  split; [intros k Hx; apply Hl3 in Hx as [_ []]; done|]. split.
  - intros i Hi. rewrite (Hm3 b' sz') by (done || lia). rewrite Hm2. unfold m, memcpy.
    destruct (Z.leb_spec b' (b' + i)), (Z.ltb_spec (b' + i) (b' + Z.min size sz)); cbn; try lia. rewrite Hm1. f_equal. lia.
  - intros x k Hx Hxb. assert (live h1 x k) as Hx1 by (apply Hl; by left).
    assert (live h3 x k) as Hx3 by (apply Hl3; split; [by apply Hl2|done]). split; [done|]. intros y Hy.
    rewrite (Hm3 x k) by done. rewrite Hm2. unfold m, memcpy. assert (x ≠ b') as Hxb' by (intros ->; by apply (Hn k)).
    pose proof (live_disjoint _ _ _ _ _ (proj1 Hok1) Hx1 Hb1' Hxb').
    destruct (Z.leb_spec b' y), (Z.ltb_spec y (b' + Z.min size sz)); cbn; try lia; by rewrite Hm1.
Qed.

Lemma live_end h b sz : heap_inv h → live h b sz → b + sz ≤ 2 ^ 32.
Proof.
  intros Hi (p & a & Ha & Hb). pose proof (block_bounds _ _ _ _ _ Hi Ha Hb).
  pose proof (ao_last _ _ _ _ (hi_arena _ Hi _ _ Ha)). lia.
Qed.

Lemma find_desc_none h size : heap_inv h → 1024 < size → find_desc (descs h) size 0 = None.
Proof.
  intros Hi Hs. destruct (find_desc (descs h) size 0) as [d|] eqn:E; [|done].
  destruct (find_desc_spec _ _ _ _ E) as (r & _ & Hd & Hr). rewrite Nat.sub_0_r in Hd.
  assert (((λ r, (block_size r, blocks_per_arena r)) <$> descs h) !! d = Some (block_size r, blocks_per_arena r)) as Es
    by (by rewrite list_lookup_fmap, Hd). rewrite (hi_descs _ Hi) in Es. unfold sizes in Es.
  do 7 (destruct d as [|d]; [cbn in Es; injection Es as E1 E2; lia|]). done.
Qed.

(** Sizes near the end of the address space wrap.  [malloc] of any of the eleven largest
    sizes rounds its page count in 32 bits and, unless memory is short, returns a block of
    4084 bytes, although "a new block of at least SIZE bytes" is promised; and [calloc] of
    65537 elements of 65537 bytes passes its overflow test and returns a block smaller than
    the product. *)
Theorem allocation_sizes_wrap h size : heap_ok h → 2 ^ 32 - 11 ≤ size < 2 ^ 32 →
  (∃ b h', malloc h size = Ret (b, h') ∧ (b = 0 ∨ live h' b 4084)) ∧
  ∃ b h', calloc h 0x10001 0x10001 = Ret (b, h') ∧ (b = 0 ∨ ∃ sz, live h' b sz ∧ sz < 0x10001 * 0x10001).
Proof.
  intros Hok Hsz. pose proof Hok as [Hi Hni]. split.
  - unfold malloc. destruct (Z.eqb_spec size 0); [lia|]. rewrite find_desc_none by (done || lia). unfold malloc_big.
    assert (big_pages size = 1) as ->.
    { unfold big_pages. change PGSIZE with 4096. change SIZEOF_ARENA with 12.
      assert (u32 (size + 12) = size + 12 - 2 ^ 32) as ->.
      { unfold u32, wrap. symmetry. apply Z.mod_unique_pos with 1; lia. }
      rewrite wrap_small by lia. symmetry. apply Z.div_unique_pos with (size + 12 - 2 ^ 32 - 1); lia. }
    destruct (pa_get_spec (pages h) 1 (hi_pages _ Hi) ltac:(lia)) as (o & s & E & Hs & Hm & Ho).
    cbn [Z.eqb Pos.eqb]. rewrite E. cbn [mbind outcome_bind]. destruct o as [p|].
    + destruct Ho as (Hp & Hl & Hf & Hu).
      destruct (add_big_ok h p 1 s Hok Hs Hp ltac:(lia) Hl Hf Hu) as (_ & Hlive & _).
      eexists _, _. split; [done|]. right. apply Hlive. by right.
    + eexists _, _. split; [done|]. by left.
  - unfold calloc. change (u32 (0x10001 * 0x10001)) with 131073. cbn [Z.ltb Z.compare Pos.compare Pos.compare_cont orb].
    destruct (malloc_run h 131073 Hok ltac:(lia) ltac:(lia)) as (b & h' & -> & Hok' & _ & Hr). cbn [mbind outcome_bind].
    eexists _, _. split; [done|]. destruct Hr as [[-> _]|(sz & Hle & Hb & Hl & _)]; [by left|right]. exists sz.
    assert (live h' b sz) as Hlb by (apply Hl; by right). pose proof (live_end _ _ _ (proj1 Hok') Hlb). split; [|lia].
    destruct (Z.eqb_spec b 0); [lia|]. cbn [negb]. by apply with_memory_ok.
Qed.

End Proofs.

(** ** Runs on the pools of [Palloc] *)

Definition boot_heap : heap := mk_heap (init_descs 32 16) ∅ two_pools.

Lemma boot_heap_ok : heap_ok boot_heap.
Proof. apply malloc_init_ok; [reflexivity|exact two_pools_ok]. Qed.

(** The address an allocation returns. *)
Definition address {A} (r : outcome (Z * A)) : Z := match r with Ret (b, _) => b | _ => 0 end.

Lemma malloc_blocks_disjoint_witness : ∃ h' sz, malloc boot_heap 100 = Ret (0xc010200c, h') ∧ heap_ok h' ∧
  100 ≤ sz ∧ live h' 0xc010200c sz.
Proof.
  destruct (malloc_blocks_disjoint boot_heap 100 boot_heap_ok eq_refl eq_refl) as (b & h' & E & Hok & _ & Hr).
  assert (address (malloc boot_heap 100) = 0xc010200c) as Ea by (vm_compute; reflexivity).
  rewrite E in Ea. cbn [address] in Ea. subst b. destruct Hr as [[Hb _]|(sz & Hsz & Hl & _)]; [discriminate Hb|].
  exists h', sz. split; [exact E|]. split; [exact Hok|]. split; [exact Hsz|exact Hl].
Defined.

Lemma run_malloc : ∃ h' sz, heap_ok h' ∧ live h' 0xc010200c sz.
Proof.
  destruct (malloc_run boot_heap 100 boot_heap_ok eq_refl eq_refl) as (b & h' & E & Hok & _ & Hr).
  assert (address (malloc boot_heap 100) = 0xc010200c) as Ea by (vm_compute; reflexivity).
  rewrite E in Ea. cbn [address] in Ea. subst b. destruct Hr as [[Hb _]|(sz & Hsz & _ & Hl & _)]; [discriminate Hb|].
  exists h', sz. split; [exact Hok|]. apply Hl. right. split; reflexivity.
Qed.

Lemma free_releases_block_witness : ∃ (h h' : heap) sz, live h 0xc010200c sz ∧ free h 0xc010200c = Ret h' ∧
  ¬ live h' 0xc010200c sz.
Proof.
  destruct run_malloc as (h & sz & Hok & Hl).
  destruct (free_releases_block h 0xc010200c sz Hok Hl) as (h' & E & _ & Hl' & _).
  exists h, h', sz. split; [exact Hl|]. split; [exact E|]. intros Hx. apply Hl' in Hx as [_ Hne]. apply Hne. reflexivity.
Defined.

Lemma realloc_keeps_contents_witness : ∃ (h h' : heap) b, live h 0xc010200c 128 ∧ realloc h 0xc010200c 5000 = Ret (b, h') ∧
  heap_ok h'.
Proof.
  destruct (malloc_run boot_heap 100 boot_heap_ok eq_refl eq_refl) as (b & h & E & Hok & _ & Hr).
  assert (address (malloc boot_heap 100) = 0xc010200c) as Ea by (vm_compute; reflexivity).
  rewrite E in Ea. cbn [address] in Ea. subst b. destruct Hr as [[Hb _]|(sz & Hsz & _ & Hl & _)]; [discriminate Hb|].
  assert (live h 0xc010200c sz) as Hlv by (apply Hl; right; split; reflexivity).
  assert (match malloc boot_heap 100 with Ret (_, h) => size_of_block h 0xc010200c | _ => UB end = Ret 128) as Es
    by (vm_compute; reflexivity).
  rewrite E, (size_of_block_run h _ sz (proj1 Hok) Hlv) in Es. injection Es as ->.
  destruct (realloc_keeps_contents h 0xc010200c 128 5000 Hok Hlv eq_refl eq_refl) as (b & h' & E' & Hok' & _).
  exists h, h', b. split; [exact Hlv|]. split; [exact E'|exact Hok'].
Defined.

Lemma allocation_sizes_wrap_witness : ∃ h', malloc boot_heap (2 ^ 32 - 1) = Ret (0xc010200c, h') ∧ live h' 0xc010200c 4084.
Proof.
  destruct (allocation_sizes_wrap boot_heap (2 ^ 32 - 1) boot_heap_ok) as [(b & h' & E & Hr) _]; [split; [discriminate|reflexivity]|].
  assert (address (malloc boot_heap (2 ^ 32 - 1)) = 0xc010200c) as Ea by (vm_compute; reflexivity).
  rewrite E in Ea. cbn [address] in Ea. subst b. destruct Hr as [Hb|Hl]; [discriminate Hb|].
  exists h'. split; [exact E|exact Hl].
Defined.

End MallocProofs.
