(* ===== verification/Pagedir.v ===== *)
(** * Page directories: [userprog/pagedir.c], [arch/i386/pte.h]

    Two-level page tables of the i386, as words of the memory that [Palloc] hands out: a
    page directory and its page tables are pages of the kernel pool.  [mach] is that memory
    and the page-directory base register.  The translation look-aside buffer is not part
    of the state: the accessed and dirty bits are those of the tables.

    [mmu_access] is the hardware: the walk of an access by a user program.  Its effect on
    the tables, and that of every function, is stated on [pte], the entry of a page. *)

From stdpp Require Import base tactics numbers list option gmap.
From S2P Require Import Prelude State Bitmap Palloc Malloc.

Open Scope Z_scope.

Record mach := mk_mach { pal : Palloc.palloc; cr3 : Z }.

Module Pagedir.
Import Palloc.

(** ** Addresses and entries *)

Definition is_user_vaddr (vaddr : Z) : bool := vaddr <? PHYS_BASE.
Definition is_kernel_vaddr (vaddr : Z) : bool := PHYS_BASE <=? vaddr.
Definition vtop (vaddr : Z) : outcome Z := ASSERT (is_kernel_vaddr vaddr);; Ret (vaddr - PHYS_BASE).

Definition PTSHIFT : Z := PGBITS.
Definition PTBITS : Z := 10.
Definition PTMASK : Z := Z.shiftl (Z.shiftl 1 PTBITS - 1) PTSHIFT.
Definition PDSHIFT : Z := PTSHIFT + PTBITS.
Definition pt_no (va : Z) : Z := Z.shiftr (Z.land va PTMASK) PTSHIFT.
Definition pd_no (va : Z) : Z := Z.shiftr va PDSHIFT.

Definition PTE_ADDR : Z := 0xfffff000.
Definition PTE_P : Z := 1.
Definition PTE_W : Z := 2.
Definition PTE_U : Z := 4.
Definition PTE_A : Z := 0x20.
Definition PTE_D : Z := 0x40.

Definition pde_create (pt : Z) : outcome Z :=
  ASSERT (pg_ofs pt =? 0);; p ← vtop pt; Ret (Z.lor (Z.lor (Z.lor p PTE_U) PTE_P) PTE_W).
Definition pde_get_pt (pde : Z) : outcome Z :=
  ASSERT (has pde PTE_P);; ptov (Z.land pde PTE_ADDR).
Definition pte_create_kernel (page : Z) (writable : bool) : outcome Z :=
  ASSERT (pg_ofs page =? 0);; p ← vtop page; Ret (Z.lor (Z.lor p PTE_P) (if writable then PTE_W else 0)).
Definition pte_create_user (page : Z) (writable : bool) : outcome Z :=
  w ← pte_create_kernel page writable; Ret (Z.lor w PTE_U).
Definition pte_get_page (pte : Z) : outcome Z := ptov (Z.land pte PTE_ADDR).

(** ** Memory *)

(** The 32-bit word at [a], and a store to it. *)
Definition ld32 (m : Z → Z) (a : Z) : Z := m a + 256 * m (a + 1) + 65536 * m (a + 2) + 16777216 * m (a + 3).
Definition st32 (m : Z → Z) (a v : Z) : Z → Z :=
  λ x, if (a <=? x) && (x <? a + 4) then Z.shiftr v (8 * (x - a)) mod 256 else m x.

Definition with_pal (m : mach) (s : palloc) : mach := mk_mach s (cr3 m).
Definition ram (m : mach) : Z → Z := mem (pal m).
Definition with_ram (m : mach) (f : Z → Z) : mach := with_pal m (with_mem (pal m) f).

Definition palM {A} (f : palloc → outcome (A * palloc)) : st mach A := λ m,
  '(a, s) ← f (pal m); Ret (a, with_pal m s).
Definition free_page (page : Z) : st mach unit := palM (λ s, s ← palloc_free_page s page; Ret (tt, s)).
Definition rdw (a : Z) : st mach Z := λ m, Ret (ld32 (ram m) a, m).
Definition wrw (a v : Z) : st mach unit := λ m, Ret (tt, with_ram m (st32 (ram m) a v)).
Definition set_cr3 (p : Z) : st mach unit := λ m, Ret (tt, mk_mach (pal m) p).
Definition copy (dst src n : Z) : st mach unit := λ m, Ret (tt, with_ram m (Malloc.memcpy (ram m) dst src n)).

(** ** [pagedir.c] *)

Section pagedir.
(** [threads/init.c]: the kernel's own page directory, and the size of memory. *)
Context (init_page_dir init_ram_pages : Z).

Definition pagedir_create : st mach Z :=
  pd ← palM (λ s, palloc_get_page s 0);
  when (negb (pd =? 0)) (copy pd init_page_dir PGSIZE);;
  mret pd.

(** The loop of [pagedir_destroy], with [n] directory entries left; with virtual memory the
    user's pages are those of the frame table. *)
Fixpoint destroy_loop (n : nat) (pde : Z) : st mach unit :=
  match n with
  | O => mret tt
  | S n =>
      w ← rdw pde;
      (if has w PTE_P then pt ← lift (pde_get_pt w); free_page pt else mret tt);;
      destroy_loop n (pde + 4)
  end.

Definition pagedir_destroy (pd : Z) : st mach unit :=
  if pd =? 0 then mret tt else
  lift (ASSERT (negb (pd =? init_page_dir)));;
  destroy_loop (Z.to_nat (pd_no PHYS_BASE)) pd;;
  free_page pd.

(** The address of the page table entry, or null. *)
Definition lookup_page (pd vaddr : Z) (create : bool) : st mach Z :=
  lift (ASSERT (negb (pd =? 0)));;
  lift (ASSERT (negb create || is_user_vaddr vaddr));;
  let pde := pd + 4 * pd_no vaddr in
  w ← rdw pde;
  found ←
    (if w =? 0 then
       if create then
         pt ← palM (λ s, palloc_get_page s PAL_ZERO);
         if pt =? 0 then mret false
         else e ← lift (pde_create pt); wrw pde e;; mret true
       else mret false
     else mret true);
  if found : bool then
    w ← rdw pde;
    pt ← lift (pde_get_pt w);
    mret (pt + 4 * pt_no vaddr)
  else mret 0.

Definition pagedir_set_page (pd upage kpage : Z) (writable : bool) : st mach bool :=
  lift (ASSERT (pg_ofs upage =? 0));;
  lift (ASSERT (pg_ofs kpage =? 0));;
  lift (ASSERT (is_user_vaddr upage));;
  p ← lift (vtop kpage);
  lift (ASSERT (Z.shiftr p PTSHIFT <? init_ram_pages));;
  lift (ASSERT (negb (pd =? init_page_dir)));;
  pte ← lookup_page pd upage true;
  if negb (pte =? 0) then
    w ← rdw pte;
    lift (ASSERT (negb (has w PTE_P)));;
    e ← lift (pte_create_user kpage writable);
    wrw pte e;;
    mret true
  else mret false.

Definition pagedir_get_page (pd uaddr : Z) : st mach Z :=
  lift (ASSERT (is_user_vaddr uaddr));;
  pte ← lookup_page pd uaddr false;
  if pte =? 0 then mret 0 else
  w ← rdw pte;
  if has w PTE_P then page ← lift (pte_get_page w); mret (page + pg_ofs uaddr) else mret 0.

Definition pagedir_activate (pd : Z) : st mach unit :=
  p ← lift (vtop (if pd =? 0 then init_page_dir else pd));
  set_cr3 p.
Definition active_pd : st mach Z := λ m, (pd ← ptov (cr3 m); Ret (pd, m)).
Definition invalidate_pagedir (pd : Z) : st mach unit :=
  a ← active_pd; when (a =? pd) (pagedir_activate pd).

Definition pagedir_clear_page (pd upage : Z) : st mach unit :=
  lift (ASSERT (pg_ofs upage =? 0));;
  lift (ASSERT (is_user_vaddr upage));;
  pte ← lookup_page pd upage false;
  if pte =? 0 then mret tt else
  w ← rdw pte;
  when (has w PTE_P) (wrw pte (Z.land w (u32 (Z.lnot PTE_P)));; invalidate_pagedir pd).

(** [pagedir_is_dirty] and [pagedir_is_accessed] test a bit of the entry, [pagedir_set_dirty]
    and [pagedir_set_accessed] set or clear it. *)
Definition pte_test (bit pd vpage : Z) : st mach bool :=
  pte ← lookup_page pd vpage false;
  if pte =? 0 then mret false else w ← rdw pte; mret (has w bit).
Definition pte_change (bit pd vpage : Z) (on : bool) : st mach unit :=
  pte ← lookup_page pd vpage false;
  if pte =? 0 then mret tt else
  w ← rdw pte;
  if on then wrw pte (Z.lor w bit)
  else wrw pte (Z.land w (u32 (Z.lnot bit)));; invalidate_pagedir pd.

Definition pagedir_is_dirty : Z → Z → st mach bool := pte_test PTE_D.
Definition pagedir_set_dirty : Z → Z → bool → st mach unit := pte_change PTE_D.
Definition pagedir_is_accessed : Z → Z → st mach bool := pte_test PTE_A.
Definition pagedir_set_accessed : Z → Z → bool → st mach unit := pte_change PTE_A.

Definition pagedir_is_writable (pd vpage : Z) : st mach bool :=
  pte ← lookup_page pd vpage false;
  if pte =? 0 then mret false else
  w ← rdw pte; mret (has w PTE_P && has w PTE_W).

Definition pagedir_set_writable (pd vpage : Z) (writable : bool) : st mach unit :=
  pte ← lookup_page pd vpage false;
  if pte =? 0 then mret tt else
  w ← rdw pte;
  when (has w PTE_P)
    (wrw pte (if writable then Z.lor w PTE_W else Z.land w (u32 (Z.lnot PTE_W)))).

(** The loops of [pagedir_dup], which copies every page of the parent: [i] is the index of
    the directory entry, [j] that of the entry in its table. *)
Fixpoint dup_table (child pt i : Z) (n : nat) (j : Z) : st mach bool :=
  match n with
  | O => mret true
  | S n =>
      w ← rdw (pt + 4 * j);
      if has w PTE_P then
        parent_page ← lift (pte_get_page w);
        child_page ← palM (λ s, palloc_get_page s (Z.lor PAL_USER PAL_ZERO));
        if child_page =? 0 then mret false else
        copy child_page parent_page PGSIZE;;
        let ua := Z.lor (Z.shiftl i PDSHIFT) (Z.shiftl j PTSHIFT) in
        ok ← pagedir_set_page child ua child_page (has w PTE_W);
        if ok : bool then dup_table child pt i n (j + 1) else mret false
      else dup_table child pt i n (j + 1)
  end.
Fixpoint dup_directory (child parent : Z) (n : nat) (i : Z) : st mach bool :=
  match n with
  | O => mret true
  | S n =>
      w ← rdw (parent + 4 * i);
      if has w PTE_P then
        pt ← lift (pde_get_pt w);
        ok ← dup_table child pt i (Z.to_nat (PGSIZE / 4)) 0;
        if ok : bool then dup_directory child parent n (i + 1) else mret false
      else dup_directory child parent n (i + 1)
  end.
Definition pagedir_dup (child parent : Z) : st mach bool :=
  lift (ASSERT (negb (child =? 0)));;
  lift (ASSERT (negb (parent =? 0)));;
  lift (ASSERT (negb (child =? init_page_dir)));;
  lift (ASSERT (negb (parent =? init_page_dir)));;
  dup_directory child parent (Z.to_nat (pd_no PHYS_BASE)) 0.
End pagedir.

(** ** The hardware *)

(** An access of a user program to [va]: the walk fails on an entry that is not present, not
    the user's, or read-only on a write; otherwise it marks the entries and yields the
    address of the byte, as the kernel sees it. *)
Definition allows (w : Z) (write : bool) : bool :=
  has w PTE_P && has w PTE_U && (negb write || has w PTE_W).
Definition mmu_access (va : Z) (write : bool) : st mach (option Z) :=
  pd ← active_pd;
  let pde := pd + 4 * pd_no va in
  w ← rdw pde;
  if negb (allows w write) then mret None else
  pt ← lift (ptov (Z.land w PTE_ADDR));
  let pte := pt + 4 * pt_no va in
  e ← rdw pte;
  if negb (allows e write) then mret None else
  wrw pde (Z.lor w PTE_A);;
  wrw pte (Z.lor (Z.lor e PTE_A) (if write then PTE_D else 0));;
  page ← lift (ptov (Z.land e PTE_ADDR));
  mret (Some (page + pg_ofs va)).

(** Whether the entry of [va] is present (bit 0 of the error code of a fault says so). *)
Definition mmu_present (va : Z) : st mach bool :=
  pd ← active_pd;
  w ← rdw (pd + 4 * pd_no va);
  if negb (has w PTE_P) then mret false else
  pt ← lift (ptov (Z.land w PTE_ADDR));
  e ← rdw (pt + 4 * pt_no va);
  mret (has e PTE_P).

#[global] Arguments ld32 : simpl never.
#[global] Arguments st32 : simpl never.
#[global] Arguments pd_no : simpl never.
#[global] Arguments pt_no : simpl never.
#[global] Arguments pde_create : simpl never.
#[global] Arguments pde_get_pt : simpl never.
#[global] Arguments pte_create_user : simpl never.
#[global] Arguments vtop : simpl never.
End Pagedir.
