(* ===== verification/PagedirProofs.v ===== *)
(** * Page directories: what the functions do to the entries

    The pages of the directories and tables belong to a map [T] from page numbers to the
    directory and, for a table, the index it serves; no page serves twice.  Every function
    of [Pagedir] keeps that, changes the entry it names and leaves every other entry of
    every directory, and the user pool, as they were. *)

From stdpp Require Import base tactics numbers list option gmap.
From S2P Require Import Prelude State Bitmap Palloc Malloc Pagedir.

Open Scope Z_scope.

Module PagedirProofs.
Import Bitmap Palloc Pagedir.

(** One step of a function on [mach]. *)
Ltac run :=
  cbn [mbind outcome_bind st_ret mret outcome_ret lift when rdw wrw palM ASSERT negb orb andb];
  repeat (rewrite st_bind_unfold; cbn [mbind outcome_bind st_ret mret outcome_ret lift when rdw wrw palM ASSERT negb orb andb]).

(** ** Bits of an entry *)

Lemma has_lor w b f : has (Z.lor w b) f = has w f || has b f.
Proof.
  unfold has. rewrite Z.land_lor_distr_l.
  destruct (Z.eqb_spec (Z.land w f) 0) as [->|], (Z.eqb_spec (Z.land b f) 0) as [->|]; cbn; try done.
  - rewrite Z.lor_0_l. by apply negb_true_iff, Z.eqb_neq.
  - rewrite Z.lor_0_r. by apply negb_true_iff, Z.eqb_neq.
  - apply negb_true_iff, Z.eqb_neq. intros E. apply Z.lor_eq_0_iff in E. tauto.
Qed.

Lemma has_land w b f : has (Z.land w b) f = has w (Z.land b f).
Proof. unfold has. by rewrite Z.land_assoc. Qed.

(** The address of an entry. *)
Definition addr (w : Z) : Z := Z.land w PTE_ADDR.

Lemma addr_lor w b : addr (Z.lor w b) = Z.lor (addr w) (addr b).
Proof. apply Z.land_lor_distr_l. Qed.
Lemma addr_land w b : addr (Z.land w b) = Z.land w (addr b).
Proof. unfold addr. by rewrite Z.land_assoc. Qed.

Lemma addr_page k : 0 ≤ k < 2 ^ 20 → addr (k * 4096) = k * 4096.
Proof.
  intros Hk. unfold addr. change PTE_ADDR with (Z.shiftl (Z.ones 20) 12). change 4096 with (2 ^ 12).
  rewrite <- Z.shiftl_mul_pow2 by lia. rewrite <- Z.shiftl_land, Z.land_ones by lia. by rewrite Z.mod_small by lia.
Qed.

Lemma has_page k f : 0 ≤ f < 4096 → has (k * 4096) f = false.
Proof.
  intros Hf. unfold has. apply negb_false_iff, Z.eqb_eq. replace f with (Z.land (Z.ones 12) f) by
    (rewrite Z.land_comm, Z.land_ones by lia; apply Z.mod_small; lia).
  rewrite Z.land_assoc, Z.land_ones by lia. change (2 ^ 12) with 4096. by rewrite Z.mod_mul by lia.
Qed.

Definition word (w : Z) : Prop := 0 ≤ w < 2 ^ 32.

Lemma word_lor w b : word w → word b → word (Z.lor w b).
Proof.
  intros [H1 H2] [H3 H4]. split; [by apply Z.lor_nonneg|].
  apply Bitmap.word_bound; [by apply Z.lor_nonneg|]. intros k Hk. by rewrite Z.lor_spec, !Bitmap.testbit_high.
Qed.
Lemma word_land w b : word w → word (Z.land w b).
Proof.
  intros [H1 H2]. split; [apply Z.land_nonneg; by left|].
  apply Bitmap.word_bound; [apply Z.land_nonneg; by left|]. intros k Hk. by rewrite Z.land_spec, Bitmap.testbit_high.
Qed.

(** ** Words of memory *)

Lemma ld32_word m a : (∀ i, 0 ≤ i < 4 → is_byte (m (a + i))) → word (ld32 m a).
Proof.
  intros H. pose proof (H 0 ltac:(lia)) as H0. pose proof (H 1 ltac:(lia)). pose proof (H 2 ltac:(lia)).
  pose proof (H 3 ltac:(lia)). rewrite Z.add_0_r in H0. unfold is_byte, word, ld32 in *. lia.
Qed.

Lemma ld32_ext m m' a : (∀ i, 0 ≤ i < 4 → m' (a + i) = m (a + i)) → ld32 m' a = ld32 m a.
Proof.
  intros H. pose proof (H 0 ltac:(lia)) as H0. rewrite Z.add_0_r in H0. unfold ld32.
  rewrite H0, !(H 1), (H 2), (H 3) by lia. done.
Qed.

Lemma ld32_zero m a : (∀ i, 0 ≤ i < 4 → m (a + i) = 0) → ld32 m a = 0.
Proof. intros H. by rewrite (ld32_ext (λ _, 0)). Qed.

Lemma ld32_st32 m a v : word v → ld32 (st32 m a v) a = v.
Proof.
  intros [H1 H2]. unfold ld32, st32.
  replace (a <=? a) with true by (symmetry; apply Z.leb_le; lia).
  replace (a <? a + 4) with true by (symmetry; apply Z.ltb_lt; lia).
  repeat match goal with |- context [a <=? a + ?i] => replace (a <=? a + i) with true by (symmetry; apply Z.leb_le; lia) end.
  repeat match goal with |- context [a + ?i <? a + 4] => replace (a + i <? a + 4) with true by (symmetry; apply Z.ltb_lt; lia) end.
  cbn [andb]. rewrite Z.sub_diag, !Z.add_simpl_l, !Z.shiftr_div_pow2 by lia.
  change (2 ^ (8 * 0)) with 1. change (2 ^ (8 * 1)) with 256. change (2 ^ (8 * 2)) with 65536.
  change (2 ^ (8 * 3)) with 16777216. rewrite Z.div_1_r.
  pose proof (Z.div_mod v 256 ltac:(lia)). pose proof (Z.div_mod (v / 256) 256 ltac:(lia)).
  pose proof (Z.div_mod (v / 256 / 256) 256 ltac:(lia)).
  rewrite !Z.div_div in * by lia. change (256 * 256 * 256) with 16777216 in *. change (256 * 256) with 65536 in *.
  assert (0 ≤ v / 16777216 < 256) by (split; [apply Z.div_pos; lia|apply Z.div_lt_upper_bound; lia]).
  rewrite (Z.mod_small (v / 16777216)) by lia. lia.
Qed.

Lemma st32_out m a v x : ¬ (a ≤ x < a + 4) → st32 m a v x = m x.
Proof. intros H. unfold st32. destruct (Z.leb_spec a x), (Z.ltb_spec x (a + 4)); cbn; done || lia. Qed.

Lemma st32_byte m a v x : is_byte (m x) → is_byte (st32 m a v x).
Proof. intros H. unfold st32. case_match; [|done]. apply Z.mod_pos_bound. lia. Qed.

Lemma ld32_st32_ne m a v b : b + 4 ≤ a ∨ a + 4 ≤ b → ld32 (st32 m a v) b = ld32 m b.
Proof. intros H. apply ld32_ext. intros i Hi. apply st32_out. lia. Qed.

(** ** Indices *)

Lemma pt_no_spec va : 0 ≤ va → pt_no va = va / 4096 mod 1024.
Proof.
  intros Hv. unfold pt_no. change PTMASK with (Z.shiftl (Z.ones 10) 12). change PTSHIFT with 12.
  rewrite Z.shiftr_land, Z.shiftr_shiftl_l by lia. change (12 - 12) with 0. rewrite Z.shiftl_0_r, Z.land_ones by lia.
  by rewrite Z.shiftr_div_pow2 by lia.
Qed.

Lemma pd_no_spec va : pd_no va = va / 4096 / 1024.
Proof. unfold pd_no. change PDSHIFT with 22. rewrite Z.shiftr_div_pow2, Z.div_div by lia. done. Qed.

Definition user_va (va : Z) : Prop := 0 ≤ va < PHYS_BASE.

Lemma pd_no_user va : user_va va → 0 ≤ pd_no va < 768.
Proof.
  intros [H1 H2]. rewrite pd_no_spec, Z.div_div by lia. unfold PHYS_BASE in H2.
  split; [apply Z.div_pos; lia|apply Z.div_lt_upper_bound; lia].
Qed.
Lemma pt_no_bound va : 0 ≤ va → 0 ≤ pt_no va < 1024.
Proof. intros. rewrite pt_no_spec by done. apply Z.mod_pos_bound. lia. Qed.

(** Two addresses have the same entry when they are in the same page. *)
Lemma same_entry va va' : 0 ≤ va → 0 ≤ va' → pd_no va = pd_no va' → pt_no va = pt_no va' → va / 4096 = va' / 4096.
Proof.
  intros. rewrite (Z.div_mod (va / 4096) 1024), (Z.div_mod (va' / 4096) 1024) by lia.
  rewrite <- !pd_no_spec, <- !pt_no_spec by done. congruence.
Qed.
Lemma same_page_nos va va' : 0 ≤ va → 0 ≤ va' → va / 4096 = va' / 4096 → pd_no va = pd_no va' ∧ pt_no va = pt_no va'.
Proof. intros ?? E. by rewrite !pd_no_spec, !pt_no_spec, E. Qed.

(** Words of different pages, or of different places of a page, are apart. *)
Lemma page_of k j : 0 ≤ j < 4096 → (k * 4096 + j) / 4096 = k.
Proof. intros. rewrite Z.add_comm, Z.div_add, Z.div_small by lia. lia. Qed.

Lemma page_iff a k : a / 4096 = k ↔ k * 4096 ≤ a < k * 4096 + 4096.
Proof. pose proof (Z.div_mod a 4096 ltac:(lia)). pose proof (Z.mod_pos_bound a 4096 ltac:(lia)). lia. Qed.

(** Filling one page. *)
Lemma memset_page m k v a : memset m (k * 4096) v (4096 * 1) a = if decide (a / 4096 = k) then v else m a.
Proof.
  unfold memset. change (4096 * 1) with 4096.
  destruct (Z.leb_spec (k * 4096) a), (Z.ltb_spec a (k * 4096 + 4096)), (decide (a / 4096 = k)) as [E|E]; cbn; try done;
    rewrite page_iff in E; lia.
Qed.

(** ** The invariant of the tables *)

Section tables.
Context (init_page_dir init_ram_pages : Z).

Abbreviation owners := (gmap Z (Z * option Z)).

(** Entry [w] of a directory leads to the table in page [k]. *)
Definition is_pde (w k : Z) : Prop :=
  addr w = k * 4096 - PHYS_BASE ∧ has w PTE_P = true ∧ has w PTE_W = true ∧ has w PTE_U = true.

Definition directory (T : owners) (pd : Z) : Prop := T !! (pd / 4096) = Some (pd, None).

Record tables_ok (T : owners) (m : mach) : Prop := mk_tables_ok {
  to_pal : palloc_ok (pal m);
  to_low : PHYS_BASE / 4096 ≤ first_page (kernel_pool (pal m));
  to_ram : first_page (user_pool (pal m)) + bit_cnt (used_map (user_pool (pal m))) ≤ PHYS_BASE / 4096 + init_ram_pages;
  to_cr3 : 0 ≤ cr3 m < 2 ^ 32 - PHYS_BASE;
  to_used q x : T !! q = Some x → used (kernel_pool (pal m)) q;
  to_bytes q x a : T !! q = Some x → a / 4096 = q → is_byte (ram m a);
  to_dir q pd : T !! q = Some (pd, None) → pd = q * 4096;
  to_init : T !! (init_page_dir / 4096) = None;
  to_init_used : used (kernel_pool (pal m)) (init_page_dir / 4096);
  to_pde pd i : directory T pd → 0 ≤ i < 768 →
    ld32 (ram m) (pd + 4 * i) = 0 ∨
    ∃ k, T !! k = Some (pd, Some i) ∧ is_pde (ld32 (ram m) (pd + 4 * i)) k }.

(** The table entry of a page, 0 where there is no table. *)
Definition pte (m : mach) (pd va : Z) : Z :=
  let w := ld32 (ram m) (pd + 4 * pd_no va) in
  if w =? 0 then 0 else ld32 (ram m) (addr w + PHYS_BASE + 4 * pt_no va).

(** What the functions leave alone: the register, the user pool, memory from the user pool on. *)
Record kept (m m' : mach) : Prop := mk_kept {
  ke_cr3 : cr3 m' = cr3 m;
  ke_user : user_pool (pal m') = user_pool (pal m);
  ke_ram a : first_page (user_pool (pal m)) ≤ a / 4096 → ram m' a = ram m a }.

Lemma kept_refl m : kept m m.
Proof. by constructor. Qed.
Lemma kept_trans m1 m2 m3 : kept m1 m2 → kept m2 m3 → kept m1 m3.
Proof.
  intros [E1 U1 R1] [E2 U2 R2]. constructor; [congruence|congruence|].
  intros a Ha. rewrite R2, R1 by (rewrite ?U1; done). done.
Qed.

(** [m] becomes [m'], and the entries become those of [g]. *)
Record step (T : owners) (m : mach) (T' : owners) (m' : mach) (g : Z → Z → Z) : Prop := mk_step {
  sp_ok : tables_ok T' m';
  sp_more : T ⊆ T';
  sp_dirs pd : directory T' pd → directory T pd;
  sp_kept : kept m m';
  sp_pte pd va : directory T pd → user_va va → pte m' pd va = g pd va }.

(** The entries with that of [va] in [pd] replaced by [w]. *)
Definition upd (g : Z → Z → Z) (pd va w : Z) : Z → Z → Z := λ pd' va',
  if decide (pd' = pd ∧ va' / 4096 = va / 4096) then w else g pd' va'.
(** ** Where tables are *)

Lemma owned_page T m q x : tables_ok T m → T !! q = Some x →
  PHYS_BASE / 4096 ≤ q < first_page (user_pool (pal m)) ∧ q < 2 ^ 20.
Proof.
  intros Ht Hq. destruct (to_used _ _ Ht _ _ Hq) as [Hr _]. pose proof (to_low _ _ Ht).
  pose proof (po_apart _ (to_pal _ _ Ht)). pose proof (pk_last _ (po_kernel _ (to_pal _ _ Ht))). lia.
Qed.

Lemma dir_page T m pd : tables_ok T m → directory T pd → pd = pd / 4096 * 4096 ∧ 0 < pd < 2 ^ 32.
Proof.
  intros Ht Hd. pose proof (to_dir _ _ Ht _ _ Hd) as E. pose proof (owned_page _ _ _ _ Ht Hd).
  change (PHYS_BASE / 4096) with 786432 in *. lia.
Qed.

Lemma dir_not_init T m pd : tables_ok T m → directory T pd → pd ≠ init_page_dir.
Proof. intros Ht Hd ->. pose proof (to_init _ _ Ht). unfold directory in Hd. congruence. Qed.

Lemma ptov_page k : PHYS_BASE / 4096 ≤ k < 2 ^ 20 → ptov (k * 4096 - PHYS_BASE) = Ret (k * 4096).
Proof.
  intros Hk. unfold ptov. change (PHYS_BASE / 4096) with 786432 in Hk. unfold PHYS_BASE.
  destruct (Z.ltb_spec (k * 4096 - 0xc0000000) 0xc0000000); [|lia]. cbn [ASSERT mbind outcome_bind].
  f_equal. rewrite wrap_small; lia.
Qed.
Lemma vtop_page k : PHYS_BASE / 4096 ≤ k → vtop (k * 4096) = Ret (k * 4096 - PHYS_BASE).
Proof.
  intros Hk. unfold vtop, is_kernel_vaddr. change (PHYS_BASE / 4096) with 786432 in Hk. unfold PHYS_BASE.
  by rewrite (proj2 (Z.leb_le 0xc0000000 (k * 4096))) by lia.
Qed.

Lemma addr_phys k : PHYS_BASE / 4096 ≤ k < 2 ^ 20 → addr (k * 4096 - PHYS_BASE) = k * 4096 - PHYS_BASE.
Proof.
  intros Hk. change PHYS_BASE with (786432 * 4096) in *. rewrite Z.div_mul in Hk by lia.
  rewrite <- Z.mul_sub_distr_r. apply addr_page. lia.
Qed.
Lemma has_phys k f : 0 ≤ f < 4096 → has (k * 4096 - PHYS_BASE) f = false.
Proof. intros Hf. change PHYS_BASE with (786432 * 4096). rewrite <- Z.mul_sub_distr_r. by apply has_page. Qed.
Lemma word_phys k : PHYS_BASE / 4096 ≤ k < 2 ^ 20 → word (k * 4096 - PHYS_BASE).
Proof. intros Hk. change PHYS_BASE with (786432 * 4096) in *. rewrite Z.div_mul in Hk by lia. unfold word. lia. Qed.

Lemma pg_ofs_page k : pg_ofs (k * 4096) = 0.
Proof. by rewrite pg_ofs_mod, Z.mod_mul by lia. Qed.

Lemma pde_create_page k : PHYS_BASE / 4096 ≤ k < 2 ^ 20 → ∃ w, pde_create (k * 4096) = Ret w ∧ word w ∧ is_pde w k.
Proof.
  intros Hk. unfold pde_create. rewrite pg_ofs_page, vtop_page by lia. cbn [Z.eqb ASSERT mbind outcome_bind].
  eexists. split; [done|]. split; [|unfold is_pde].
  - repeat apply word_lor; try done. by apply word_phys.
  - rewrite !addr_lor, !has_lor, !has_phys, addr_phys by done. change (addr PTE_U) with 0.
    change (addr PTE_P) with 0. change (addr PTE_W) with 0. rewrite !Z.lor_0_r. done.
Qed.

(** The entry for page [k] of memory. *)
Definition is_pte (w k : Z) (writable : bool) : Prop :=
  addr w = k * 4096 - PHYS_BASE ∧ has w PTE_P = true ∧ has w PTE_U = true ∧ has w PTE_W = writable.

Lemma pte_create_page k writable : PHYS_BASE / 4096 ≤ k < 2 ^ 20 →
  ∃ w, pte_create_user (k * 4096) writable = Ret w ∧ word w ∧ is_pte w k writable ∧
    has w PTE_A = false ∧ has w PTE_D = false.
Proof.
  intros Hk. unfold pte_create_user, pte_create_kernel. rewrite pg_ofs_page, vtop_page by lia.
  cbn [Z.eqb ASSERT mbind outcome_bind]. eexists. split; [done|]. split; [|unfold is_pte].
  - repeat apply word_lor; try done; [by apply word_phys|by destruct writable].
  - rewrite !addr_lor, !has_lor, !has_phys, addr_phys by done. change (addr PTE_U) with 0.
    change (addr PTE_P) with 0. replace (addr (if writable then PTE_W else 0)) with 0 by (by destruct writable).
    rewrite !Z.lor_0_r. by destruct writable.
Qed.

Lemma get_pt w k : is_pde w k → PHYS_BASE / 4096 ≤ k < 2 ^ 20 → pde_get_pt w = Ret (k * 4096).
Proof.
  intros (Ha & Hp & _) Hk. unfold pde_get_pt. fold (addr w). rewrite Hp, Ha. cbn [ASSERT mbind outcome_bind].
  by apply ptov_page.
Qed.

Lemma is_pde_nonzero w k : is_pde w k → (w =? 0) = false.
Proof. intros (_ & Hp & _). apply Z.eqb_neq. intros ->. done. Qed.

(** The word of a table entry. *)
Lemma pte_word T m pd va k : tables_ok T m → T !! k = Some (pd, Some (pd_no va)) →
  is_pde (ld32 (ram m) (pd + 4 * pd_no va)) k →
  pte m pd va = ld32 (ram m) (k * 4096 + 4 * pt_no va).
Proof.
  intros Ht Hk Hw. unfold pte. rewrite (is_pde_nonzero _ _ Hw). destruct Hw as (-> & _). f_equal. lia.
Qed.

Lemma ld32_other m k j k' j' v : 0 ≤ j < 1024 → 0 ≤ j' < 1024 → k ≠ k' ∨ j ≠ j' →
  ld32 (st32 m (k * 4096 + 4 * j) v) (k' * 4096 + 4 * j') = ld32 m (k' * 4096 + 4 * j').
Proof. intros Hj Hj' Hne. apply ld32_st32_ne. lia. Qed.

(** A word of a table page. *)
Lemma table_word T m q x j : tables_ok T m → T !! q = Some x → 0 ≤ j < 1024 → word (ld32 (ram m) (q * 4096 + 4 * j)).
Proof.
  intros Ht Hq Hj. apply ld32_word. intros i Hi. eapply to_bytes; [done..|].
  rewrite <- Z.add_assoc. apply page_of. lia.
Qed.

Lemma pte_is_word T m pd va : tables_ok T m → directory T pd → user_va va → word (pte m pd va).
Proof.
  intros Ht Hd Hv. unfold pte. destruct (Z.eqb_spec (ld32 (ram m) (pd + 4 * pd_no va)) 0); [done|].
  destruct (to_pde _ _ Ht pd (pd_no va) Hd (pd_no_user _ Hv)) as [|(k & Hk & Ha & _)]; [done|].
  rewrite Ha. replace (k * 4096 - PHYS_BASE + PHYS_BASE) with (k * 4096) by lia.
  eapply table_word; [done..|]. apply pt_no_bound. apply Hv.
Qed.

Lemma palloc_ok_mem s f : palloc_ok s → palloc_ok (with_mem s f).
Proof. by intros []. Qed.

(** A store to a word of a table that keeps directories leading where they led. *)
Lemma tables_store T m q x j v : tables_ok T m → T !! q = Some x → 0 ≤ j < 1024 →
  (∀ pd, x = (pd, None) → j < 768 → ∃ k, T !! k = Some (pd, Some j) ∧ is_pde v k) → word v →
  tables_ok T (with_ram m (st32 (ram m) (q * 4096 + 4 * j) v)).
Proof.
  intros Ht Hq Hj Hx Hv. set (a := q * 4096 + 4 * j). destruct Ht. constructor; cbn; try done.
  - by apply palloc_ok_mem.
  - intros q' x' b H' Hb. apply st32_byte. eauto.
  - intros pd i Hd Hi. pose proof (to_dir0 _ _ Hd) as Epd.
    replace (pd + 4 * i) with (pd / 4096 * 4096 + 4 * i) by lia. unfold ram. cbn.
    destruct (decide (pd / 4096 = q ∧ i = j)) as [[<- ->]|Hne].
    + right. rewrite Hd in Hq. injection Hq as <-. unfold a. rewrite ld32_st32 by done. apply Hx; [done|lia].
    + unfold a. rewrite ld32_other by lia. rewrite <- Epd. apply to_pde0; done.
Qed.

Lemma kept_store T m q x j v : tables_ok T m → T !! q = Some x → 0 ≤ j < 1024 →
  kept m (with_ram m (st32 (ram m) (q * 4096 + 4 * j) v)).
Proof.
  intros Ht Hq Hj. constructor; [done..|]. intros a Ha. cbn. apply st32_out. intros Hr.
  pose proof (owned_page _ _ _ _ Ht Hq). replace a with (q * 4096 + (a - q * 4096)) in Ha by lia.
  rewrite page_of in Ha by lia. lia.
Qed.
(** ** Steps *)

Lemma step_refl T m : tables_ok T m → step T m T m (pte m).
Proof. intros Ht. by constructor; [| | |apply kept_refl|]. Qed.

Lemma step_trans T1 m1 T2 m2 T3 m3 g h : step T1 m1 T2 m2 g → step T2 m2 T3 m3 h →
  (∀ pd, directory T1 pd → directory T2 pd) → step T1 m1 T3 m3 h.
Proof.
  intros [H1 H2 H3 H4 H5] [I1 I2 I3 I4 I5] Hd. constructor; [done|by etrans|eauto|by eapply kept_trans|].
  intros pd va Hp Hv. apply I5; auto.
Qed.

Lemma step_dir T m T' m' g pd : step T m T' m' g → directory T pd → directory T' pd.
Proof. intros Hs Hd. unfold directory in *. by eapply lookup_weaken, sp_more. Qed.

Lemma step_ext T m T' m' g h : step T m T' m' g →
  (∀ pd va, directory T pd → user_va va → g pd va = h pd va) → step T m T' m' h.
Proof. intros [H1 H2 H3 H4 H5] He. constructor; try done. intros pd va Hp Hv. rewrite <- He by done. auto. Qed.

(** A store to the entry of [va]. *)
Lemma write_entry T m pd va k w : tables_ok T m → directory T pd → user_va va →
  T !! k = Some (pd, Some (pd_no va)) → is_pde (ld32 (ram m) (pd + 4 * pd_no va)) k → word w →
  step T m T (with_ram m (st32 (ram m) (k * 4096 + 4 * pt_no va) w)) (upd (pte m) pd va w).
Proof.
  intros Ht Hd Hv Hk Hw Hword. pose proof (pt_no_bound va (proj1 Hv)) as Hj.
  assert (tables_ok T (with_ram m (st32 (ram m) (k * 4096 + 4 * pt_no va) w))) as Ht'.
  { eapply tables_store; [done..| |done]. intros pd' [=]. }
  constructor; [done|done|done|by eapply kept_store|]. intros pd' va' Hd' Hv'.
  pose proof (pd_no_user _ Hv'). pose proof (pt_no_bound va' (proj1 Hv')).
  pose proof (to_dir _ _ Ht _ _ Hd') as Epd. unfold upd.
  assert (ld32 (ram (with_ram m (st32 (ram m) (k * 4096 + 4 * pt_no va) w))) (pd' + 4 * pd_no va') =
          ld32 (ram m) (pd' + 4 * pd_no va')) as Ew.
  { replace pd' with (pd' / 4096 * 4096) by lia. cbn. apply ld32_other; [done|lia|].
    left. intros ->. unfold directory in Hd'. rewrite Hk in Hd'. discriminate Hd'. }
  destruct (to_pde _ _ Ht pd' (pd_no va') Hd' ltac:(lia)) as [E0|(k' & Hk' & Hw')].
  - destruct (decide _) as [[-> Hsame]|].
    + destruct (same_page_nos va' va) as [E1 _]; [apply Hv'|apply Hv|done|]. rewrite E1 in E0.
      pose proof (is_pde_nonzero _ _ Hw) as Hn. by rewrite E0 in Hn.
    + unfold pte. by rewrite Ew, E0.
  - rewrite (pte_word T m pd' va' k') by done.
    rewrite (pte_word T _ pd' va' k') by (try done; by rewrite Ew). cbn.
    destruct (decide _) as [[-> Hsame]|Hne].
    + destruct (same_page_nos va' va) as [E1 E2]; [apply Hv'|apply Hv|done|].
      assert (k' = k) as ->; [|by rewrite E2, ld32_st32].
      rewrite E1 in Hw'. destruct Hw as (Ha & _), Hw' as (Ha' & _). lia.
    + apply ld32_other; [done..|]. destruct (decide (k = k')) as [<-|]; [|by left]. right. intros Ej. apply Hne.
      rewrite Hk in Hk'. injection Hk' as -> Ei. split; [done|]. symmetry. apply same_entry; [apply Hv|apply Hv'|done|done].
Qed.

(** ** [lookup_page] *)

Lemma lookup_prefix {A} T m pd va create (r : st mach A) : tables_ok T m → directory T pd → user_va va →
  (lift (ASSERT (negb (pd =? 0)));; lift (ASSERT (negb create || is_user_vaddr va));; r) m = r m.
Proof.
  intros Ht Hd Hv. pose proof (dir_page _ _ _ Ht Hd) as [_ Hp]. rewrite (proj2 (Z.eqb_neq pd 0)) by lia.
  unfold is_user_vaddr. rewrite (proj2 (Z.ltb_lt va PHYS_BASE)) by apply Hv. by destruct create.
Qed.

(** There is a table. *)
Lemma lookup_found T m pd va create k : tables_ok T m → directory T pd → user_va va →
  T !! k = Some (pd, Some (pd_no va)) → is_pde (ld32 (ram m) (pd + 4 * pd_no va)) k →
  lookup_page pd va create m = Ret (k * 4096 + 4 * pt_no va, m).
Proof.
  intros Ht Hd Hv Hk Hw. unfold lookup_page. rewrite (lookup_prefix T) by done.
  run. rewrite (is_pde_nonzero _ _ Hw). run. pose proof (owned_page _ _ _ _ Ht Hk).
  rewrite (get_pt _ k) by (done || lia). done.
Qed.

(** There is none, and none is made. *)
Lemma lookup_none T m pd va : tables_ok T m → directory T pd → user_va va →
  ld32 (ram m) (pd + 4 * pd_no va) = 0 → lookup_page pd va false m = Ret (0, m).
Proof.
  intros Ht Hd Hv Hw. unfold lookup_page. rewrite (lookup_prefix T) by done. run. by rewrite Hw.
Qed.
(** A page the kernel pool hands out is new. *)
Lemma fresh_page T m flags s' q : tables_ok T m → has flags PAL_USER = false →
  palloc_get_page (pal m) flags = Ret (q * 4096, s') →
  allocated (kernel_pool (pal m)) (kernel_pool s') q 1 → T !! q = None.
Proof.
  intros Ht Hf E (_ & _ & Hn & _). destruct (T !! q) eqn:Eq; [|done].
  destruct (Hn q ltac:(lia)). by eapply to_used.
Qed.

(** Allocating from the kernel pool, with the memory it returns filled or not. *)
Lemma tables_alloc T m flags r s' : tables_ok T m → has flags PAL_USER = false →
  palloc_get_page (pal m) flags = Ret (r, s') → palloc_ok s' →
  (∀ q, used (kernel_pool (pal m)) q → used (kernel_pool s') q) →
  (∀ q x a, T !! q = Some x → a / 4096 = q → mem s' a = ram m a) →
  tables_ok T (with_pal m s') ∧ ∀ pd va, directory T pd → user_va va → pte (with_pal m s') pd va = pte m pd va.
Proof.
  intros Ht Hf E Hok Hused Hmem. pose proof (palloc_get_other _ _ _ _ _ E) as Hu. rewrite Hf in Hu. pose proof (palloc_get_place _ _ 1 _ _ (to_pal _ _ Ht) ltac:(lia) E false) as [Eb Ec].
  assert (∀ q x j, T !! q = Some x → 0 ≤ j < 1024 → ld32 (mem s') (q * 4096 + 4 * j) = ld32 (ram m) (q * 4096 + 4 * j)) as Hw.
  { intros q x j Hq Hj. apply ld32_ext. intros i Hi. eapply Hmem; [done|]. rewrite <- Z.add_assoc. apply page_of. lia. }
  assert (∀ pd i, directory T pd → 0 ≤ i < 768 → ld32 (mem s') (pd + 4 * i) = ld32 (ram m) (pd + 4 * i)) as Hd.
  { intros pd i Hd Hi. pose proof (to_dir _ _ Ht _ _ Hd). replace pd with (pd / 4096 * 4096) by lia. eapply Hw; [done|lia]. }
  cbn in Eb, Ec, Hu. split.
  - pose proof Ht as []. constructor; cbn; try done.
    + unfold first_page. by rewrite Eb.
    + by rewrite Hu.
    + eauto.
    + intros q x a Hq Ha. unfold ram. cbn. erewrite Hmem by done. eauto.
    + by apply Hused.
    + intros pd i Hpd Hi. unfold ram. cbn. rewrite Hd by done. auto.
  - intros pd va Hpd Hv. pose proof (pd_no_user _ Hv). unfold pte. change (ram (with_pal m s')) with (mem s'). rewrite Hd by done.
    destruct (to_pde _ _ Ht pd (pd_no va) Hpd ltac:(lia)) as [E0|(k & Hk & Ha & _)]; [by rewrite E0|].
    rewrite Ha. replace (k * 4096 - PHYS_BASE + PHYS_BASE) with (k * 4096) by lia.
    by rewrite (Hw _ _ _ Hk) by (apply pt_no_bound, Hv).
Qed.

(** Entry [i] of [pd] is made to lead to a new, zeroed table. *)
Lemma tables_new T m pd va k w : tables_ok T m → directory T pd → user_va va →
  used (kernel_pool (pal m)) k → T !! k = None → k ≠ init_page_dir / 4096 →
  (∀ a, a / 4096 = k → ram m a = 0) → ld32 (ram m) (pd + 4 * pd_no va) = 0 → word w → is_pde w k →
  step T m (<[k := (pd, Some (pd_no va))]> T) (with_ram m (st32 (ram m) (pd + 4 * pd_no va) w)) (pte m).
Proof.
  intros Ht Hd Hv Hu Hk Hki Hz Hw0 Hword Hw. pose proof (pd_no_user _ Hv) as Hi.
  set (T' := <[k := (pd, Some (pd_no va))]> T). pose proof (to_dir _ _ Ht _ _ Hd) as Epd.
  assert (tables_ok T' m) as Ht1.
  { pose proof Ht as []. constructor; try done.
    - intros q x Hq. apply lookup_insert_Some in Hq as [[<- _]|[_ Hq]]; eauto.
    - intros q x a Hq Ha. apply lookup_insert_Some in Hq as [[<- _]|[_ Hq]]; [|eauto]. by rewrite Hz.
    - intros q p Hq. apply lookup_insert_Some in Hq as [[_ [=]]|[_ Hq]]. eauto.
    - unfold T'. by rewrite lookup_insert_ne.
    - intros p i Hp Hpi. assert (directory T p) as Hp'.
      { unfold directory, T' in Hp. apply lookup_insert_Some in Hp as [[_ [=]]|[_ Hp]]. done. }
      destruct (to_pde0 p i Hp' Hpi) as [|(k' & Hk' & ?)]; [by left|right]. exists k'. split; [|done].
      unfold T'. rewrite lookup_insert_ne; [done|]. intros <-. congruence. }
  assert (directory T' pd) as Hd'.
  { unfold directory, T'. rewrite lookup_insert_ne; [done|]. intros ->. unfold directory in Hd. congruence. }
  replace (pd + 4 * pd_no va) with (pd / 4096 * 4096 + 4 * pd_no va) by lia.
  assert (tables_ok T' (with_ram m (st32 (ram m) (pd / 4096 * 4096 + 4 * pd_no va) w))) as Ht2.
  { eapply tables_store; [done|done|lia| |done]. intros pd' [= <-] _. exists k. split; [|done]. apply lookup_insert_eq. }
  constructor; [done|by apply insert_subseteq| |eapply kept_store; [exact Ht1|exact Hd'|lia]|].
  - intros p Hp. unfold directory, T' in Hp. apply lookup_insert_Some in Hp as [[_ [=]]|[_ Hp]]. done.
  - intros p v Hp Hv'. pose proof (to_dir _ _ Ht _ _ Hp) as Ep. pose proof (pd_no_user _ Hv') as Hi'.
    unfold pte. cbn.
    assert (ld32 (st32 (ram m) (pd / 4096 * 4096 + 4 * pd_no va) w) (k * 4096 + 4 * pt_no v) =
        ld32 (ram m) (k * 4096 + 4 * pt_no v)) as Hsame.
    { apply ld32_other; [lia|apply pt_no_bound, Hv'|]. left. intros <-. unfold directory in Hd. congruence. }
    replace p with (p / 4096 * 4096) by lia.
    destruct (decide (p / 4096 = pd / 4096 ∧ pd_no v = pd_no va)) as [[E1 E2]|Hne].
    + rewrite E1, E2, ld32_st32 by done. rewrite <- Epd in Hsame |- *. rewrite Hw0, (is_pde_nonzero _ _ Hw). destruct Hw as (-> & _). cbn.
      replace (k * 4096 - PHYS_BASE + PHYS_BASE) with (k * 4096) by lia. rewrite Hsame.
      apply ld32_zero. intros i Hi4. apply Hz. rewrite <- Z.add_assoc. apply page_of.
      pose proof (pt_no_bound v (proj1 Hv')). lia.
    + rewrite ld32_other by lia. rewrite <- Ep.
      destruct (to_pde _ _ Ht p (pd_no v) Hp Hi') as [->|(k' & Hk' & Ha & _)]; [done|]. rewrite Ha.
      case_match; [done|]. replace (k' * 4096 - PHYS_BASE + PHYS_BASE) with (k' * 4096) by lia.
      apply ld32_other; [lia|apply pt_no_bound, Hv'|]. left. intros <-. unfold directory in Hd. congruence.
Qed.
Lemma lookup_create T m pd va : tables_ok T m → directory T pd → user_va va →
  (∃ k m' T', lookup_page pd va true m = Ret (k * 4096 + 4 * pt_no va, m') ∧ step T m T' m' (pte m) ∧
     T' !! k = Some (pd, Some (pd_no va)) ∧ is_pde (ld32 (ram m') (pd + 4 * pd_no va)) k) ∨
  (∃ m', lookup_page pd va true m = Ret (0, m') ∧ step T m T m' (pte m) ∧ pte m pd va = 0 ∧ exhausted (kernel_pool (pal m)) 1).
Proof.
  intros Ht Hd Hv. pose proof (pd_no_user _ Hv) as Hi.
  destruct (to_pde _ _ Ht pd (pd_no va) Hd Hi) as [E0|(k & Hk & Hw)].
  2:{ left. exists k, m, T. split; [by apply (lookup_found T)|]. split; [by apply step_refl|done]. }
  unfold lookup_page. rewrite (lookup_prefix T) by done. run. rewrite E0. cbn [Z.eqb]. run.
  destruct (palloc_get_run (pal m) PAL_ZERO 1 (to_pal _ _ Ht) ltac:(lia))
    as [(s' & k & E & Hok & Hall & Hu & Hmem)|(Hex & s' & E & Hok & Hmem & Hused)]; unfold palloc_get_page; rewrite E; run.
  - change (has PAL_ZERO PAL_USER) with false in *. change (has PAL_ZERO PAL_ZERO) with true in *. cbn in Hall, Hu, Hmem.
    pose proof (fresh_page _ _ PAL_ZERO _ _ Ht eq_refl E Hall) as Hk.
    pose proof Hall as (H1 & H2 & Hn & Hiff). pose proof (to_low _ _ Ht) as Hlow. pose proof (pk_last _ (po_kernel _ (to_pal _ _ Ht))).
    destruct (tables_alloc T m PAL_ZERO _ s' Ht eq_refl E Hok) as [Ht1 Hpte].
    { intros q Hq. apply Hiff. by left. }
    { intros q x a Hq Ha. rewrite Hmem, memset_page, decide_False; [done|]. congruence. }
    change (PHYS_BASE / 4096) with 786432 in *.
    destruct (Z.eqb_spec (k * 4096) 0); [lia|]. run. destruct (pde_create_page k) as (w & Ew & Hword & Hw).
    { change (PHYS_BASE / 4096) with 786432. lia. }
    rewrite Ew. run. cbn [ram pal with_pal with_ram with_mem mem kernel_pool user_pool].
    assert (k ≠ init_page_dir / 4096) as Hki.
    { intros ->. destruct (Hn (init_page_dir / 4096) ltac:(lia)). apply (to_init_used _ _ Ht). }
    assert (user_pool s' = user_pool (pal m)) as Hu' by exact Hu.
    pose proof (tables_new T (with_pal m s') pd va k w Ht1 Hd Hv) as Hs. cbn [pal with_pal] in Hs.
    specialize (Hs ltac:(apply Hiff; right; lia) Hk Hki).
    assert (∀ a, a / 4096 = k → mem s' a = 0) as Hz.
    { intros a Ha. by rewrite Hmem, memset_page, decide_True. }
    assert (ld32 (mem s') (pd + 4 * pd_no va) = 0) as E0'.
    { rewrite <- E0. apply ld32_ext. intros i Hi4. rewrite Hmem, memset_page, decide_False; [done|].
      pose proof (to_dir _ _ Ht _ _ Hd). intros Ek. apply page_iff in Ek. assert (pd / 4096 = k) as <-; [lia|]. unfold directory in Hd. congruence. }
    specialize (Hs Hz E0' Hword Hw). left.
    exists k, (with_ram (with_pal m s') (st32 (mem s') (pd + 4 * pd_no va) w)), (<[k := (pd, Some (pd_no va))]> T).
    assert (ld32 (st32 (mem s') (pd + 4 * pd_no va) w) (pd + 4 * pd_no va) = w) as Er by (by apply ld32_st32).
    split; [|split; [|split; [apply lookup_insert_eq|by cbn; rewrite Er]]].
    + unfold ram. cbn. rewrite Er, (get_pt w k) by (done || (change (PHYS_BASE / 4096) with 786432; lia)). done.
    + destruct Hs as [P1 P2 P3 P4 P5]. constructor; [done|done|done| |].
      * eapply kept_trans; [|exact P4]. constructor; [done|done|]. intros a Ha. change (mem s' a = mem (pal m) a). rewrite Hmem, memset_page, decide_False; [done|].
        pose proof (po_apart _ (to_pal _ _ Ht)). lia.
      * intros p v Hp Hv'. rewrite P5 by done. by apply Hpte.
  - right. change (has PAL_ZERO PAL_ASSERT) with false in *. cbn [ASSERT] in E. run. exists (with_pal m s'). split; [done|].
    split; [|split; [unfold pte; by rewrite E0|exact Hex]].
    destruct (tables_alloc T m PAL_ZERO _ s' Ht eq_refl E Hok) as [Ht1 Hpte].
    { intros q Hq. by apply (Hused false). }
    { intros q x a _ _. by rewrite Hmem. }
    constructor; [done|done|done| |done]. constructor; [done| |intros a _; unfold ram; cbn; by rewrite Hmem].
    exact (palloc_get_other _ _ _ _ _ E).
Qed.
(** ** The functions *)

Lemma lookup_false T m pd va : tables_ok T m → directory T pd → user_va va →
  (∃ k, lookup_page pd va false m = Ret (k * 4096 + 4 * pt_no va, m) ∧ (k * 4096 + 4 * pt_no va =? 0) = false ∧
     T !! k = Some (pd, Some (pd_no va)) ∧ is_pde (ld32 (ram m) (pd + 4 * pd_no va)) k ∧
     ld32 (ram m) (k * 4096 + 4 * pt_no va) = pte m pd va) ∨
  (lookup_page pd va false m = Ret (0, m) ∧ pte m pd va = 0).
Proof.
  intros Ht Hd Hv. destruct (to_pde _ _ Ht pd (pd_no va) Hd (pd_no_user _ Hv)) as [E0|(k & Hk & Hw)].
  - right. split; [by apply (lookup_none T)|]. unfold pte. by rewrite E0.
  - left. exists k. split; [by apply (lookup_found T)|]. pose proof (owned_page _ _ _ _ Ht Hk).
    pose proof (pt_no_bound va (proj1 Hv)). change (PHYS_BASE / 4096) with 786432 in *.
    split; [apply Z.eqb_neq; lia|]. split; [done|]. split; [done|]. symmetry. by apply (pte_word T).
Qed.

Lemma invalidate_run T m pd : tables_ok T m → directory T pd → invalidate_pagedir init_page_dir pd m = Ret (tt, m).
Proof.
  intros Ht Hd. pose proof (to_cr3 _ _ Ht) as Hc. pose proof (dir_page _ _ _ Ht Hd) as [_ Hp].
  unfold invalidate_pagedir, active_pd. run. unfold ptov, PHYS_BASE in *.
  rewrite (proj2 (Z.ltb_lt (cr3 m) 0xc0000000)) by lia. run. rewrite wrap_small by lia.
  destruct (Z.eqb_spec (cr3 m + 0xc0000000) pd) as [<-|]; [|done]. unfold pagedir_activate.
  rewrite (proj2 (Z.eqb_neq _ 0)) by lia. run. unfold vtop, is_kernel_vaddr, PHYS_BASE.
  rewrite (proj2 (Z.leb_le 0xc0000000 _)) by lia. run. unfold set_cr3. rewrite Z.add_simpl_r. by destruct m.
Qed.

Lemma pte_test_spec T m bit pd va : tables_ok T m → directory T pd → user_va va →
  pte_test bit pd va m = Ret (has (pte m pd va) bit, m).
Proof.
  intros Ht Hd Hv. unfold pte_test. run.
  destruct (lookup_false T m pd va Ht Hd Hv) as [(k & -> & E & _ & _ & Ew)|[-> ->]]; run; [|done]. rewrite E. run. by rewrite Ew.
Qed.

Lemma pagedir_get_page_spec T m pd va : tables_ok T m → directory T pd → user_va va →
  pagedir_get_page pd va m =
    (if has (pte m pd va) PTE_P then page ← pte_get_page (pte m pd va); Ret (page + pg_ofs va, m) else Ret (0, m)).
Proof.
  intros Ht Hd Hv. unfold pagedir_get_page. run. unfold is_user_vaddr. rewrite (proj2 (Z.ltb_lt va PHYS_BASE)) by apply Hv.
  run. destruct (lookup_false T m pd va Ht Hd Hv) as [(k & -> & E & _ & _ & Ew)|[-> ->]]; run; [|done]. rewrite E. run.
  rewrite Ew. case_match; [|done]. run. by destruct (pte_get_page _).
Qed.

(** A store to the entry of a present page. *)
Lemma change_entry T m pd va k w : tables_ok T m → directory T pd → user_va va →
  T !! k = Some (pd, Some (pd_no va)) → is_pde (ld32 (ram m) (pd + 4 * pd_no va)) k → word w →
  let m' := with_ram m (st32 (ram m) (k * 4096 + 4 * pt_no va) w) in
  step T m T m' (upd (pte m) pd va w) ∧ invalidate_pagedir init_page_dir pd m' = Ret (tt, m').
Proof.
  intros Ht Hd Hv Hk Hw Hword m'. assert (step T m T m' (upd (pte m) pd va w)) as Hs by (by apply write_entry).
  split; [done|]. eapply invalidate_run; [apply Hs|done].
Qed.

Lemma present_found T m pd va : tables_ok T m → directory T pd → user_va va → has (pte m pd va) PTE_P = true →
  ∃ k, lookup_page pd va false m = Ret (k * 4096 + 4 * pt_no va, m) ∧ (k * 4096 + 4 * pt_no va =? 0) = false ∧
     T !! k = Some (pd, Some (pd_no va)) ∧ is_pde (ld32 (ram m) (pd + 4 * pd_no va)) k ∧
     ld32 (ram m) (k * 4096 + 4 * pt_no va) = pte m pd va.
Proof.
  intros Ht Hd Hv Hp. destruct (lookup_false T m pd va Ht Hd Hv) as [?|[_ E]]; [done|]. by rewrite E in Hp.
Qed.

Lemma pte_change_spec T m bit pd va on : tables_ok T m → directory T pd → user_va va →
  has (pte m pd va) PTE_P = true → word bit →
  ∃ m', pte_change init_page_dir bit pd va on m = Ret (tt, m') ∧
    step T m T m' (upd (pte m) pd va
      (if on then Z.lor (pte m pd va) bit else Z.land (pte m pd va) (u32 (Z.lnot bit)))).
Proof.
  intros Ht Hd Hv Hp Hb. pose proof (pte_is_word _ _ _ _ Ht Hd Hv) as Hw0.
  destruct (present_found T m pd va Ht Hd Hv Hp) as (k & E & E0 & Hk & Hw & Ew). unfold pte_change. run.
  rewrite E. run. rewrite E0. run. rewrite Ew. destruct on; run.
  - eexists. split; [done|]. apply (change_entry T); [done..|by apply word_lor].
  - destruct (change_entry T m pd va k (Z.land (pte m pd va) (u32 (Z.lnot bit)))) as [Hs Hi]; [done..|by apply word_land|].
    eexists. split; [exact Hi|exact Hs].
Qed.

Lemma pagedir_clear_page_spec T m pd va : tables_ok T m → directory T pd → user_va va → va mod 4096 = 0 →
  has (pte m pd va) PTE_P = true →
  ∃ m', pagedir_clear_page init_page_dir pd va m = Ret (tt, m') ∧
    step T m T m' (upd (pte m) pd va (Z.land (pte m pd va) (u32 (Z.lnot PTE_P)))).
Proof.
  intros Ht Hd Hv Ha Hp. pose proof (pte_is_word _ _ _ _ Ht Hd Hv) as Hw0.
  destruct (present_found T m pd va Ht Hd Hv Hp) as (k & E & E0 & Hk & Hw & Ew). unfold pagedir_clear_page.
  rewrite pg_ofs_mod, Ha. unfold is_user_vaddr. rewrite (proj2 (Z.ltb_lt va PHYS_BASE)) by apply Hv. cbn [Z.eqb]. run.
  rewrite E. run. rewrite E0. run. rewrite Ew, Hp. run.
  destruct (change_entry T m pd va k (Z.land (pte m pd va) (u32 (Z.lnot PTE_P)))) as [Hs Hi]; [done..|by apply word_land|].
  eexists. split; [exact Hi|exact Hs].
Qed.

Lemma pagedir_set_writable_spec T m pd va writable : tables_ok T m → directory T pd → user_va va →
  has (pte m pd va) PTE_P = true →
  ∃ m', pagedir_set_writable pd va writable m = Ret (tt, m') ∧
    step T m T m' (upd (pte m) pd va
      (if writable then Z.lor (pte m pd va) PTE_W else Z.land (pte m pd va) (u32 (Z.lnot PTE_W)))).
Proof.
  intros Ht Hd Hv Hp. pose proof (pte_is_word _ _ _ _ Ht Hd Hv) as Hw0.
  destruct (present_found T m pd va Ht Hd Hv Hp) as (k & E & E0 & Hk & Hw & Ew). unfold pagedir_set_writable. run.
  rewrite E. run. rewrite E0. run. rewrite Ew, Hp. run. eexists. split; [done|].
  apply (change_entry T); [done..|]. destruct writable; [by apply word_lor|by apply word_land].
Qed.

(** A page of the user pool. *)
Definition user_page (s : palloc) (k : Z) : Prop :=
  first_page (user_pool s) ≤ k < first_page (user_pool s) + bit_cnt (used_map (user_pool s)).

Lemma user_page_high T m k : tables_ok T m → user_page (pal m) k → PHYS_BASE / 4096 ≤ k < 2 ^ 20 ∧ k < PHYS_BASE / 4096 + init_ram_pages.
Proof.
  intros Ht [H1 H2]. pose proof (pk_last _ (po_user _ (to_pal _ _ Ht))). pose proof (to_low _ _ Ht). pose proof (to_ram _ _ Ht).
  pose proof (po_apart _ (to_pal _ _ Ht)). pose proof (pk_wf _ (po_kernel _ (to_pal _ _ Ht))) as (? & _). lia.
Qed.

Lemma pagedir_set_page_spec T m pd va k writable : tables_ok T m → directory T pd → user_va va → va mod 4096 = 0 →
  user_page (pal m) k → has (pte m pd va) PTE_P = false →
  (∃ m' T' w, pagedir_set_page init_page_dir init_ram_pages pd va (k * 4096) writable m = Ret (true, m') ∧
     step T m T' m' (upd (pte m) pd va w) ∧ is_pte w k writable ∧ has w PTE_A = false ∧ has w PTE_D = false) ∨
  (∃ m', pagedir_set_page init_page_dir init_ram_pages pd va (k * 4096) writable m = Ret (false, m') ∧
     step T m T m' (pte m) ∧ pte m pd va = 0 ∧ exhausted (kernel_pool (pal m)) 1).
Proof.
  intros Ht Hd Hv Ha Hk Hp. pose proof (user_page_high _ _ _ Ht Hk) as [Hk1 Hk2].
  unfold pagedir_set_page.
  assert (pg_ofs va = 0) as Ea by (by rewrite pg_ofs_mod). rewrite Ea, (pg_ofs_page k), (vtop_page k) by lia.
  unfold is_user_vaddr. rewrite (proj2 (Z.ltb_lt va PHYS_BASE)) by apply Hv. cbn [Z.eqb]. run.
  assert (Z.shiftr (k * 4096 - PHYS_BASE) PTSHIFT <? init_ram_pages = true) as ->.
  { apply Z.ltb_lt. change PTSHIFT with 12. rewrite Z.shiftr_div_pow2 by lia. change (2 ^ 12) with 4096.
    change (PHYS_BASE / 4096) with 786432 in *. change PHYS_BASE with (786432 * 4096).
    rewrite <- Z.mul_sub_distr_r, Z.div_mul by lia. lia. }
  run. rewrite (proj2 (Z.eqb_neq _ _) (dir_not_init _ _ _ Ht Hd)). run.
  destruct (lookup_create T m pd va Ht Hd Hv) as [(t & m1 & T1 & -> & Hs & Ht1 & Hw1)|(m1 & -> & Hs & Hz)]; run.
  2:{ right. cbn [Z.eqb negb]. run. by exists m1. }
  left. pose proof (sp_ok _ _ _ _ _ Hs) as Hok. pose proof (owned_page _ _ _ _ Hok Ht1) as Hr.
  pose proof (pt_no_bound va (proj1 Hv)). change (PHYS_BASE / 4096) with 786432 in Hr.
  rewrite (proj2 (Z.eqb_neq (t * 4096 + 4 * pt_no va) 0)) by lia. run.
  pose proof (step_dir _ _ _ _ _ _ Hs Hd) as Hd1.
  assert (ld32 (ram m1) (t * 4096 + 4 * pt_no va) = pte m pd va) as Ew.
  { rewrite <- (sp_pte _ _ _ _ _ Hs) by done. symmetry. by apply (pte_word T1). }
  rewrite Ew, Hp. run. destruct (pte_create_page k writable Hk1) as (w & -> & Hword & Hpte & HA & HD). run.
  exists (with_ram m1 (st32 (ram m1) (t * 4096 + 4 * pt_no va) w)), T1, w. split; [done|]. split; [|done].
  pose proof (write_entry T1 m1 pd va t w Hok Hd1 Hv Ht1 Hw1 Hword) as Hs2.
  eapply step_ext; [eapply step_trans; [exact Hs|exact Hs2|intros p Hpd; by eapply (step_dir _ _ _ _ _ p Hs)]|].
  intros p v Hp' Hv'. unfold upd. case_decide; [done|]. by apply Hs.
Qed.
(** ** The hardware *)

(** A store to a directory entry that leads where it led. *)
Lemma write_pde T m pd i k w : tables_ok T m → directory T pd → 0 ≤ i < 768 → T !! k = Some (pd, Some i) →
  is_pde (ld32 (ram m) (pd + 4 * i)) k → is_pde w k → word w →
  step T m T (with_ram m (st32 (ram m) (pd + 4 * i) w)) (pte m).
Proof.
  intros Ht Hd Hi Hk Hw Hw' Hword. pose proof (to_dir _ _ Ht _ _ Hd) as Epd.
  replace (pd + 4 * i) with (pd / 4096 * 4096 + 4 * i) in * by lia.
  constructor; [eapply tables_store; [done|exact Hd|lia| |done]|done|done|eapply kept_store; [done|exact Hd|lia]|].
  { intros ? [= <-] _. by exists k. }
  intros p v Hp Hv. pose proof (to_dir _ _ Ht _ _ Hp) as Ep. pose proof (pd_no_user _ Hv) as Hi'.
  pose proof (pt_no_bound v (proj1 Hv)). unfold pte. cbn.
  assert (∀ t x, T !! t = Some (x, Some (pd_no v)) →
    ld32 (st32 (ram m) (pd / 4096 * 4096 + 4 * i) w) (t * 4096 + 4 * pt_no v) = ld32 (ram m) (t * 4096 + 4 * pt_no v)) as Hsame.
  { intros t x Hx. apply ld32_other; [lia|done|]. left. intros <-. unfold directory in Hd. congruence. }
  replace p with (p / 4096 * 4096) by lia.
  destruct (decide (p / 4096 = pd / 4096 ∧ pd_no v = i)) as [[E1 E2]|Hne].
  - rewrite E1, E2, ld32_st32 by done. rewrite (is_pde_nonzero _ _ Hw'), (is_pde_nonzero _ _ Hw).
    destruct Hw as (-> & _), Hw' as (-> & _). replace (k * 4096 - PHYS_BASE + PHYS_BASE) with (k * 4096) by lia.
    apply (Hsame k pd). by rewrite E2.
  - rewrite ld32_other by lia. rewrite <- Ep.
    destruct (to_pde _ _ Ht p (pd_no v) Hp Hi') as [->|(k' & Hk' & Hw2)]; [done|].
    rewrite (is_pde_nonzero _ _ Hw2). destruct Hw2 as (-> & _).
    replace (k' * 4096 - PHYS_BASE + PHYS_BASE) with (k' * 4096) by lia. by eapply Hsame.
Qed.

Lemma active_run T m pd : tables_ok T m → directory T pd → cr3 m = pd - PHYS_BASE → active_pd m = Ret (pd, m).
Proof.
  intros Ht Hd Hc. unfold active_pd. pose proof (dir_page _ _ _ Ht Hd) as [E Hp]. pose proof (to_cr3 _ _ Ht) as Hr.
  rewrite Hc. replace pd with (pd / 4096 * 4096) by lia. pose proof (owned_page _ _ _ _ Ht Hd).
  rewrite ptov_page by lia. done.
Qed.

(** What the walk finds. *)
Lemma walk_pde T m pd va : tables_ok T m → directory T pd → user_va va →
  (ld32 (ram m) (pd + 4 * pd_no va) = 0 ∧ pte m pd va = 0) ∨
  ∃ k, T !! k = Some (pd, Some (pd_no va)) ∧ is_pde (ld32 (ram m) (pd + 4 * pd_no va)) k ∧
    ptov (addr (ld32 (ram m) (pd + 4 * pd_no va))) = Ret (k * 4096) ∧
    ld32 (ram m) (k * 4096 + 4 * pt_no va) = pte m pd va.
Proof.
  intros Ht Hd Hv. destruct (to_pde _ _ Ht pd (pd_no va) Hd (pd_no_user _ Hv)) as [E0|(k & Hk & Hw)].
  - left. split; [done|]. unfold pte. by rewrite E0.
  - right. exists k. split; [done|]. split; [done|]. split.
    + destruct Hw as (-> & _). pose proof (owned_page _ _ _ _ Ht Hk). apply ptov_page. lia.
    + symmetry. by apply (pte_word T).
Qed.

Lemma mmu_present_spec T m pd va : tables_ok T m → directory T pd → cr3 m = pd - PHYS_BASE → user_va va →
  mmu_present va m = Ret (has (pte m pd va) PTE_P, m).
Proof.
  intros Ht Hd Hc Hv. unfold mmu_present. run. rewrite (active_run T m pd) by done. run.
  destruct (walk_pde T m pd va Ht Hd Hv) as [[-> ->]|(k & Hk & Hw & Hp & Ew)]; [done|].
  pose proof Hw as (_ & -> & _). run. unfold addr in Hp. rewrite Hp. run. by rewrite Ew.
Qed.

Lemma mmu_denied T m pd va write : tables_ok T m → directory T pd → cr3 m = pd - PHYS_BASE → user_va va →
  allows (pte m pd va) write = false → mmu_access va write m = Ret (None, m).
Proof.
  intros Ht Hd Hc Hv Ha. unfold mmu_access. run. rewrite (active_run T m pd) by done. run.
  destruct (walk_pde T m pd va Ht Hd Hv) as [[-> _]|(k & Hk & Hw & Hp & Ew)]; [done|].
  assert (allows (ld32 (ram m) (pd + 4 * pd_no va)) write = true) as ->.
  { unfold allows. destruct Hw as (_ & -> & -> & ->). by destruct write. }
  run. unfold addr in Hp. rewrite Hp. run. by rewrite Ew, Ha.
Qed.

(** The bits a successful access leaves. *)
Definition touched (w : Z) (write : bool) : Z := Z.lor (Z.lor w PTE_A) (if write then PTE_D else 0).

Lemma mmu_allowed T m pd va write k : tables_ok T m → directory T pd → cr3 m = pd - PHYS_BASE → user_va va →
  allows (pte m pd va) write = true → addr (pte m pd va) = k * 4096 - PHYS_BASE → PHYS_BASE / 4096 ≤ k < 2 ^ 20 →
  ∃ m', mmu_access va write m = Ret (Some (k * 4096 + pg_ofs va), m') ∧
    step T m T m' (upd (pte m) pd va (touched (pte m pd va) write)).
Proof.
  intros Ht Hd Hc Hv Ha Hk Hkr. unfold mmu_access. run. rewrite (active_run T m pd) by done. run.
  destruct (walk_pde T m pd va Ht Hd Hv) as [[_ E0]|(t & Htt & Hw & Hp & Ew)]; [by rewrite E0 in Ha|].
  assert (allows (ld32 (ram m) (pd + 4 * pd_no va)) write = true) as ->.
  { unfold allows. destruct Hw as (_ & -> & -> & ->). by destruct write. }
  run. unfold addr in Hp. rewrite Hp. run. rewrite Ew, Ha. run.
  unfold addr in Hk. rewrite Hk, ptov_page by done. run.
  pose proof (pd_no_user _ Hv) as Hi. pose proof (to_dir _ _ Ht _ _ Hd) as Epd.
  assert (is_pde (Z.lor (ld32 (ram m) (pd + 4 * pd_no va)) PTE_A) t) as Hw1.
  { unfold is_pde. rewrite addr_lor, !has_lor. destruct Hw as (-> & -> & -> & ->). change (addr PTE_A) with 0. by rewrite Z.lor_0_r. }
  assert (word (ld32 (ram m) (pd + 4 * pd_no va))) as Hwd.
  { replace pd with (pd / 4096 * 4096) by lia. eapply table_word; [done|exact Hd|lia]. }
  pose proof (write_pde T m pd (pd_no va) t _ Ht Hd Hi Htt Hw Hw1 ltac:(by apply word_lor)) as Hs1.
  set (m1 := with_ram m _) in *. pose proof (sp_ok _ _ _ _ _ Hs1) as Ht1.
  assert (is_pde (ld32 (ram m1) (pd + 4 * pd_no va)) t) as Hw2.
  { unfold m1. cbn. by rewrite ld32_st32 by (by apply word_lor). }
  assert (word (touched (pte m pd va) write)) as Hwt.
  { unfold touched. pose proof (pte_is_word _ _ _ _ Ht Hd Hv). repeat apply word_lor; try done. by destruct write. }
  pose proof (write_entry T m1 pd va t _ Ht1 Hd Hv Htt Hw2 Hwt) as Hs2.
  eexists. split; [done|]. eapply step_ext; [eapply step_trans; [exact Hs1|exact Hs2|done]|].
  intros p v Hp' Hv'. unfold upd. case_decide; [done|]. by apply Hs1.
Qed.
(** Memory and the user pool may change without the tables noticing. *)
Lemma tables_user T m s' : tables_ok T m → palloc_ok s' → kernel_pool s' = kernel_pool (pal m) →
  base (user_pool s') = base (user_pool (pal m)) →
  bit_cnt (used_map (user_pool s')) = bit_cnt (used_map (user_pool (pal m))) →
  (∀ a, a / 4096 < first_page (user_pool (pal m)) → mem s' a = ram m a) →
  tables_ok T (with_pal m s') ∧ ∀ pd va, directory T pd → user_va va → pte (with_pal m s') pd va = pte m pd va.
Proof.
  intros Ht Hok Hk Hb Hc Hmem.
  assert (∀ q x j, T !! q = Some x → 0 ≤ j < 1024 → ld32 (mem s') (q * 4096 + 4 * j) = ld32 (ram m) (q * 4096 + 4 * j)) as Hw.
  { intros q x j Hq Hj. apply ld32_ext. intros i Hi. apply Hmem. rewrite <- Z.add_assoc, page_of by lia.
    apply (owned_page _ _ _ _ Ht Hq). }
  assert (∀ pd i, directory T pd → 0 ≤ i < 768 → ld32 (mem s') (pd + 4 * i) = ld32 (ram m) (pd + 4 * i)) as Hd.
  { intros pd i Hd Hi. pose proof (to_dir _ _ Ht _ _ Hd). replace pd with (pd / 4096 * 4096) by lia. eapply Hw; [done|lia]. }
  split.
  - pose proof Ht as []. constructor; cbn; try done.
    + by rewrite Hk.
    + unfold first_page. rewrite Hb, Hc. done.
    + intros q x. rewrite Hk. eauto.
    + intros q x a Hq Ha. unfold ram. cbn. rewrite Hmem; [eauto|]. rewrite Ha. apply (owned_page _ _ _ _ Ht Hq).
    + by rewrite Hk.
    + intros pd i Hpd Hi. unfold ram. cbn. rewrite Hd by done. auto.
  - intros pd va Hpd Hv. pose proof (pd_no_user _ Hv). unfold pte. change (ram (with_pal m s')) with (mem s'). rewrite Hd by done.
    destruct (to_pde _ _ Ht pd (pd_no va) Hpd ltac:(lia)) as [E0|(k & Hk' & Ha & _)]; [by rewrite E0|].
    rewrite Ha. replace (k * 4096 - PHYS_BASE + PHYS_BASE) with (k * 4096) by lia.
    by rewrite (Hw _ _ _ Hk') by (apply pt_no_bound, Hv).
Qed.

(** A write to memory of the user pool. *)
Lemma tables_ram T m f : tables_ok T m → (∀ a, a / 4096 < first_page (user_pool (pal m)) → f a = ram m a) →
  tables_ok T (with_ram m f) ∧ ∀ pd va, directory T pd → user_va va → pte (with_ram m f) pd va = pte m pd va.
Proof. intros Ht Hf. apply tables_user; try done. apply palloc_ok_mem, Ht. Qed.

Lemma pg_round_down_spec va : 0 ≤ va < 2 ^ 32 → pg_round_down va = va / 4096 * 4096.
Proof.
  intros Hv. unfold pg_round_down. change (u32 (Z.lnot PGMASK)) with PTE_ADDR. fold (addr va).
  pose proof (Z.div_mod va 4096 ltac:(lia)) as E. pose proof (Z.mod_pos_bound va 4096 ltac:(lia)).
  assert (va = Z.lor (va / 4096 * 4096) (va mod 4096)) as E2.
  { rewrite E at 1. rewrite Z.mul_comm. apply Z.add_nocarry_lor. change 4096 with (2 ^ 12).
    rewrite <- (Z.land_ones va 12) by lia. rewrite <- Z.shiftl_mul_pow2 by lia.
    apply Z.bits_inj'. intros n Hn. rewrite !Z.land_spec, Z.bits_0, Z.shiftl_spec by lia.
    destruct (decide (n < 12)).
    - by rewrite Z.testbit_neg_r by lia.
    - rewrite (Z.ones_spec_high 12) by lia. by rewrite !andb_false_r. }
  rewrite E2 at 1. rewrite addr_lor, addr_page. 2:{ split; [apply Z.div_pos; lia|apply Z.div_lt_upper_bound; lia]. }
  assert (addr (va mod 4096) = 0) as ->; [|by rewrite Z.lor_0_r].
  unfold addr. change 4096 with (2 ^ 12). rewrite <- (Z.land_ones va 12) by lia. rewrite <- Z.land_assoc.
  by rewrite Z.land_0_r.
Qed.

(** C15. Page tables map what they are told to map.  [pagedir_set_page] on a page that is not
    present either fails, when the directory has no table for the page and no page of the
    kernel pool is free, and changes nothing; or from then on [pagedir_get_page] gives
    exactly that frame and an access of the process reaches it, with a write only if the
    page was mapped writable; and [pagedir_clear_page] makes it absent again, so that
    every access faults.  Meanwhile the entries of every other page of every directory, the
    user's memory and the directory in use do not change. *)
Theorem pagedir_maps (T : owners) (m : mach) (pd va k : Z) (writable : bool) (Ht : tables_ok T m) (Hd : directory T pd)
    (Hv : user_va va) (Ha : va mod 4096 = 0) (Hk : user_page (pal m) k) (Hp : has (pte m pd va) PTE_P = false) :
  (∃ m', pagedir_set_page init_page_dir init_ram_pages pd va (k * 4096) writable m = Ret (false, m') ∧
     step T m T m' (pte m) ∧ pte m pd va = 0 ∧ exhausted (kernel_pool (pal m)) 1) ∨
  (∃ m1 m2 T1 w, pagedir_set_page init_page_dir init_ram_pages pd va (k * 4096) writable m = Ret (true, m1) ∧
     step T m T1 m1 (upd (pte m) pd va w) ∧
     (∀ i, 0 ≤ i < 4096 → pagedir_get_page pd (va + i) m1 = Ret (k * 4096 + i, m1)) ∧
     (∀ i write, 0 ≤ i < 4096 → cr3 m1 = pd - PHYS_BASE →
        if write && negb writable then mmu_access (va + i) write m1 = Ret (None, m1)
        else ∃ m', mmu_access (va + i) write m1 = Ret (Some (k * 4096 + i), m')) ∧
     pagedir_clear_page init_page_dir pd va m1 = Ret (tt, m2) ∧
     step T1 m1 T1 m2 (upd (pte m1) pd va (Z.land w (u32 (Z.lnot PTE_P)))) ∧
     (∀ i, 0 ≤ i < 4096 → pagedir_get_page pd (va + i) m2 = Ret (0, m2)) ∧
     (∀ i write, 0 ≤ i < 4096 → cr3 m1 = pd - PHYS_BASE → mmu_access (va + i) write m2 = Ret (None, m2))).
Proof.
  destruct (pagedir_set_page_spec T m pd va k writable Ht Hd Hv Ha Hk Hp) as [(m1 & T1 & w & E & Hs & Hw & _)|H]; [right|by left].
  pose proof (user_page_high _ _ _ Ht Hk) as [Hk1 _]. pose proof (sp_ok _ _ _ _ _ Hs) as Ht1. pose proof (step_dir _ _ _ _ _ _ Hs Hd) as Hd1.
  assert (∀ i, 0 ≤ i < 4096 → user_va (va + i) ∧ (va + i) / 4096 = va / 4096 ∧ pg_ofs (va + i) = i) as Hi.
  { intros i Hi. pose proof (Z.div_mod va 4096 ltac:(lia)) as E4. unfold user_va in *. change PHYS_BASE with (786432 * 4096) in *.
    rewrite pg_ofs_mod. split; [|split]; [|apply page_iff; lia|symmetry; apply Z.mod_unique with (va / 4096); lia].
    assert (va / 4096 < 786432) by (apply Z.div_lt_upper_bound; lia). lia. }
  assert (∀ i, 0 ≤ i < 4096 → pte m1 pd (va + i) = w) as Hpte.
  { intros i Hi'. destruct (Hi i Hi') as (H1 & H2 & _). rewrite (sp_pte _ _ _ _ _ Hs) by done. unfold upd. by rewrite decide_True. }
  pose proof Hw as (A1 & A2 & A3 & A4).
  pose proof (Hpte 0 ltac:(lia)) as Hw0. rewrite Z.add_0_r in Hw0.
  destruct (pagedir_clear_page_spec T1 m1 pd va Ht1 Hd1 Hv Ha) as (m2 & E2 & Hs2); [by rewrite Hw0|]. rewrite Hw0 in Hs2.
  pose proof (sp_ok _ _ _ _ _ Hs2) as Ht2.
  assert (∀ i, 0 ≤ i < 4096 → has (pte m2 pd (va + i)) PTE_P = false) as Hpte2.
  { intros i Hi'. destruct (Hi i Hi') as (H1 & H2 & _). rewrite (sp_pte _ _ _ _ _ Hs2) by done. unfold upd. rewrite decide_True by done.
    rewrite has_land. change (Z.land (u32 (Z.lnot PTE_P)) PTE_P) with 0. unfold has. by rewrite Z.land_0_r. }
  exists m1, m2, T1, w. split; [done|]. split; [done|]. split; [|split; [|split; [done|split; [done|split]]]].
  - intros i Hi'. destruct (Hi i Hi') as (H1 & _ & H3). rewrite (pagedir_get_page_spec T1) by done. rewrite Hpte, A2 by done.
    unfold pte_get_page. unfold addr in A1. rewrite A1, ptov_page by done. cbn. by rewrite H3.
  - intros i write Hi' Hc. destruct (Hi i Hi') as (H1 & _ & H3). destruct (write && negb writable) eqn:Ew.
    + apply (mmu_denied T1 m1 pd); try done. rewrite Hpte by done. unfold allows. rewrite A2, A3, A4. by destruct write, writable.
    + destruct (mmu_allowed T1 m1 pd (va + i) write k Ht1 Hd1 Hc H1) as (m' & E3 & _); [|by rewrite Hpte|done|].
      * rewrite Hpte by done. unfold allows. rewrite A2, A3, A4. by destruct write, writable.
      * exists m'. by rewrite E3, H3.
  - intros i Hi'. destruct (Hi i Hi') as (H1 & _ & H3). rewrite (pagedir_get_page_spec T1) by done. by rewrite Hpte2.
  - intros i write Hi' Hc. destruct (Hi i Hi') as (H1 & _ & H3). apply (mmu_denied T1 m2 pd); try done.
    + by rewrite (ke_cr3 _ _ (sp_kept _ _ _ _ _ Hs2)).
    + unfold allows. by rewrite Hpte2.
Qed.
End tables.
End PagedirProofs.
