(* ===== verification/Swap.v ===== *)
(** * Swap space: [vm/swap.c]

    Slots of eight sectors on a block device, and a bitmap of the slots in use.  The lock
    has no effect on one thread.  What a slot holds is the bytes of its sectors. *)

From stdpp Require Import base tactics numbers list list_numbers option.
From S2P Require Import Prelude Bitmap Block Palloc Malloc Pagedir.

Open Scope Z_scope.

Module Swap.
Import Bitmap Block.

(** [n] bytes of memory from [a], and their replacement by the bytes [l]. *)
Definition load_bytes (m : Z → Z) (a : Z) (n : nat) : list Z := (λ i : nat, m (a + Z.of_nat i)) <$> seq 0 n.
Definition store_bytes (m : Z → Z) (a : Z) (l : list Z) : Z → Z :=
  λ x, if (a <=? x) && (x <? a + Z.of_nat (length l)) then l !!! Z.to_nat (x - a) else m x.

Definition SECTORS_PER_PAGE : Z := 8.
Definition SWAP_SLOT_INVALID : Z := 2 ^ 32 - 1.

Record swap := mk_swap { swap_block : option block; swap_bitmap : option bitmap }.

(** [dev] is the answer of [block_get_role (BLOCK_SWAP)], [malloc_b] and [malloc_bits] those
    of the two allocations of [bitmap_create]. *)
Definition swap_init (dev : option block) (malloc_b : bool) (malloc_bits : option (list Z)) : outcome swap :=
  match dev with
  | None => Ret (mk_swap None None)
  | Some d =>
      b ← bitmap_create malloc_b malloc_bits (block_size d / SECTORS_PER_PAGE);
      match b with Some b => Ret (mk_swap (Some d) (Some b)) | None => Panic end
  end.

(** The loops that write and read the sectors of a page, [n] left from [i]. *)
Fixpoint write_loop (n : nat) (i : Z) (d : block) (m : Z → Z) (sector kpage : Z) : outcome block :=
  match n with
  | O => Ret d
  | S n =>
      d ← block_write d (u32 (sector + i)) (load_bytes m (kpage + i * BLOCK_SECTOR_SIZE) (Z.to_nat BLOCK_SECTOR_SIZE));
      write_loop n (i + 1) d m sector kpage
  end.
Fixpoint read_loop (n : nat) (i : Z) (d : block) (m : Z → Z) (sector kpage : Z) : outcome (block * (Z → Z)) :=
  match n with
  | O => Ret (d, m)
  | S n =>
      '(buffer, d) ← block_read d (u32 (sector + i));
      read_loop n (i + 1) d (store_bytes m (kpage + i * BLOCK_SECTOR_SIZE) buffer) sector kpage
  end.

Definition swap_out (s : swap) (m : Z → Z) (kpage : Z) : outcome (Z * swap) :=
  match swap_block s, swap_bitmap s with
  | Some d, Some b =>
      '(slot, b) ← bitmap_scan_and_flip b 0 1 false;
      if slot =? BITMAP_ERROR then Ret (SWAP_SLOT_INVALID, mk_swap (Some d) (Some b)) else
      let sector := u32 (slot * SECTORS_PER_PAGE) in
      d ← write_loop (Z.to_nat SECTORS_PER_PAGE) 0 d m sector kpage;
      Ret (slot, mk_swap (Some d) (Some b))
  | _, _ => Ret (SWAP_SLOT_INVALID, s)
  end.

Definition swap_in (s : swap) (m : Z → Z) (slot kpage : Z) : outcome (swap * (Z → Z)) :=
  match swap_block s, swap_bitmap s with
  | Some d, Some b =>
      used ← bitmap_test b slot;
      ASSERT used;;
      let sector := u32 (slot * SECTORS_PER_PAGE) in
      '(d, m) ← read_loop (Z.to_nat SECTORS_PER_PAGE) 0 d m sector kpage;
      b ← bitmap_reset b slot;
      Ret (mk_swap (Some d) (Some b), m)
  | _, _ => Panic
  end.

Definition swap_free (s : swap) (slot : Z) : outcome swap :=
  match swap_block s, swap_bitmap s with
  | Some d, Some b =>
      used ← bitmap_test b slot;
      ASSERT used;;
      b ← bitmap_reset b slot;
      Ret (mk_swap (Some d) (Some b))
  | _, _ => Ret s
  end.

(** ** What a slot holds *)

(** Byte [i] of slot [slot] of device [d]. *)
Definition dev_byte (d : block) (slot i : Z) : Z := sector_of d (slot * 8 + i / 512) !!! Z.to_nat (i mod 512).
Definition slot_byte (s : swap) (slot i : Z) : Z :=
  match swap_block s with Some d => dev_byte d slot i | None => 0 end.

(** The slot is in use. *)
Definition slot_used (s : swap) (slot : Z) : Prop :=
  match swap_block s, swap_bitmap s with
  | Some _, Some b => 0 ≤ slot < bit_cnt b ∧ bm_bit b slot = true
  | _, _ => False
  end.

(** The device has the sectors of every slot. *)
Definition swap_ok (s : swap) : Prop :=
  match swap_block s, swap_bitmap s with
  | Some d, Some b => Block.wf d ∧ Bitmap.wf b ∧ 8 * bit_cnt b ≤ block_size d ≤ 2 ^ 32 - 1
  | None, _ => True
  | Some _, None => False
  end.

Lemma load_bytes_length m a n : length (load_bytes m a n) = n.
Proof. unfold load_bytes. by rewrite length_fmap, length_seq. Qed.

Lemma load_bytes_lookup m a n i : (i < n)%nat → load_bytes m a n !!! i = m (a + Z.of_nat i).
Proof.
  intros Hi. apply list_lookup_total_correct. unfold load_bytes. rewrite list_lookup_fmap.
  by rewrite lookup_seq_lt by done.
Qed.

Lemma store_bytes_in m a l x : a ≤ x < a + Z.of_nat (length l) → store_bytes m a l x = l !!! Z.to_nat (x - a).
Proof. intros Hx. unfold store_bytes. by rewrite (proj2 (Z.leb_le a x)), (proj2 (Z.ltb_lt x _)) by lia. Qed.
Lemma store_bytes_out m a l x : ¬ (a ≤ x < a + Z.of_nat (length l)) → store_bytes m a l x = m x.
Proof. intros Hx. unfold store_bytes. destruct (Z.leb_spec a x), (Z.ltb_spec x (a + Z.of_nat (length l))); cbn; done || lia. Qed.

Lemma write_loop_spec n i d m slot kpage : Block.wf d → 0 ≤ slot → 0 ≤ i → i + Z.of_nat n = 8 →
  8 * slot + 8 ≤ block_size d ≤ 2 ^ 32 - 1 →
  ∃ d', write_loop n i d m (slot * 8) kpage = Ret d' ∧ Block.wf d' ∧ block_size d' = block_size d ∧
    ∀ s, 0 ≤ s → sector_of d' s = if (slot * 8 + i <=? s) && (s <? slot * 8 + 8) then
      load_bytes m (kpage + (s - slot * 8) * 512) 512 else sector_of d s.
Proof.
  revert i d. induction n as [|n IH]; intros i d Hd Hs Hi Hn Hb; cbn [write_loop].
  - exists d. split; [done|]. split; [done|]. split; [done|]. intros s Hs'.
    destruct (Z.leb_spec (slot * 8 + i) s), (Z.ltb_spec s (slot * 8 + 8)); cbn; done || lia.
  - rewrite (wrap_small 32 (slot * 8 + i)) by lia. change BLOCK_SECTOR_SIZE with 512.
    destruct (block_write_spec d (slot * 8 + i) ltac:(lia) (load_bytes m (kpage + i * 512) (Z.to_nat 512)) Hd)
      as (d1 & -> & Hd1 & Hsz & Hc); [by rewrite load_bytes_length|]. cbn [mbind outcome_bind].
    destruct (IH (i + 1) d1) as (d' & -> & Hd' & Hsz' & Hc'); [done|lia|lia|lia|lia|].
    exists d'. split; [done|]. split; [done|]. split; [lia|]. intros s Hs'. rewrite Hc', Hc by done.
    destruct (Z.eqb_spec s (slot * 8 + i)) as [->|].
    + rewrite (proj2 (Z.leb_gt (slot * 8 + (i + 1)) (slot * 8 + i))), (proj2 (Z.leb_le _ _)), (proj2 (Z.ltb_lt _ _)) by lia.
      cbn [andb]. by rewrite Z.add_simpl_l.
    + destruct (Z.leb_spec (slot * 8 + (i + 1)) s), (Z.leb_spec (slot * 8 + i) s), (Z.ltb_spec s (slot * 8 + 8)); cbn; done || lia.
Qed.

Lemma read_loop_spec n i d m slot kpage : Block.wf d → 0 ≤ slot → 0 ≤ i → i + Z.of_nat n = 8 →
  8 * slot + 8 ≤ block_size d ≤ 2 ^ 32 - 1 →
  ∃ d' m', read_loop n i d m (slot * 8) kpage = Ret (d', m') ∧ sectors d' = sectors d ∧ type d' = type d ∧
    ∀ x, m' x = if (kpage + i * 512 <=? x) && (x <? kpage + 4096) then dev_byte d slot (x - kpage) else m x.
Proof.
  revert i d m. induction n as [|n IH]; intros i d m Hd Hs Hi Hn Hb; cbn [read_loop].
  - exists d, m. split; [done|]. split; [done|]. split; [done|]. intros x.
    destruct (Z.leb_spec (kpage + i * 512) x), (Z.ltb_spec x (kpage + 4096)); cbn; done || lia.
  - rewrite (wrap_small 32 (slot * 8 + i)) by lia. change BLOCK_SECTOR_SIZE with 512.
    destruct (block_read_spec d (slot * 8 + i) ltac:(lia)) as (d1 & -> & Es & Et). cbn [mbind outcome_bind].
    pose proof (sector_length d (slot * 8 + i) ltac:(lia) Hd) as Hl.
    set (m1 := store_bytes _ _ _).
    destruct (IH (i + 1) d1 m1) as (d' & m' & -> & Es' & Et' & Hm); [by unfold Block.wf; rewrite Es, Et|lia|lia|lia| |].
    { unfold block_size in *. by rewrite Es. }
    exists d', m'. split; [done|]. split; [congruence|]. split; [congruence|]. intros x. rewrite Hm.
    assert (dev_byte d1 slot (x - kpage) = dev_byte d slot (x - kpage)) as -> by (unfold dev_byte, sector_of; by rewrite Es).
    unfold m1. destruct (Z.leb_spec (kpage + (i + 1) * 512) x), (Z.leb_spec (kpage + i * 512) x), (Z.ltb_spec x (kpage + 4096));
      cbn [andb]; try done; try lia; try (apply store_bytes_out; rewrite Hl; lia).
    rewrite store_bytes_in by (rewrite Hl; lia). unfold dev_byte.
    replace ((x - kpage) / 512) with i by (apply Z.div_unique with (x - kpage - 512 * i); lia).
    replace ((x - kpage) mod 512) with (x - (kpage + i * 512)); [done|].
    apply Z.mod_unique with i; lia.
Qed.

(** Writing a page out: a free slot, or none. *)
Lemma swap_out_spec s m kpage : swap_ok s →
  (∃ slot s', swap_out s m kpage = Ret (slot, s') ∧ swap_ok s' ∧ slot ≠ SWAP_SLOT_INVALID ∧
     ¬ slot_used s slot ∧ (∀ t, slot_used s' t ↔ slot_used s t ∨ t = slot) ∧
     (∀ i, 0 ≤ i < 4096 → slot_byte s' slot i = m (kpage + i)) ∧
     (∀ t i, slot_used s t → 0 ≤ i < 4096 → slot_byte s' t i = slot_byte s t i)) ∨
  (∃ s', swap_out s m kpage = Ret (SWAP_SLOT_INVALID, s') ∧ swap_ok s' ∧ (∀ t, slot_used s' t ↔ slot_used s t) ∧
     (∀ t i, slot_byte s' t i = slot_byte s t i) ∧
     match swap_bitmap s with Some b => swap_block s = None ∨ ∀ t, 0 ≤ t < bit_cnt b → slot_used s t | None => True end).
Proof.
  destruct s as [[d|] [b|]]; unfold swap_ok, slot_used, slot_byte, swap_out; cbn [swap_block swap_bitmap]; intros Hok.
  2: done.
  2: { right. eexists. split; [done|]. repeat split; try done. by left. }
  2: { right. eexists. by repeat split. }
  destruct Hok as (Hd & Hb & Hsz). destruct Hb as (Hcnt & Hb').
  assert (Bitmap.wf b) as Hb by done.
  destruct (bitmap_scan_and_flip_bits b 0 1 false Hb ltac:(lia) ltac:(lia)) as (r & b' & -> & Hr & Hw & Hc & Hbits).
  cbn [mbind outcome_bind]. destruct (Z.eqb_spec r BITMAP_ERROR) as [->|Hne]; cbn [negb andb] in Hbits.
  - right. eexists. split; [done|]. cbn [swap_block swap_bitmap]. rewrite Hc. split; [done|]. split; [|split; [done|]].
    + intros t. split; intros [Ht E]; (split; [done|]); [rewrite <- E; symmetry|rewrite <- E]; apply Hbits; lia.
    + right. destruct Hr as [[_ Hno]|(_ & Hle & _)]; [|unfold BITMAP_ERROR in Hle; lia]. intros t Ht. split; [done|].
      destruct (bm_bit b t) eqn:E; [done|]. destruct (Hno t ltac:(lia) ltac:(lia)). intros j Hj. by assert (j = t) as -> by lia.
  - destruct Hr as [[? _]|(Hr0 & Hle & Hrun & _)]; [done|]. left.
    assert (u32 (r * SECTORS_PER_PAGE) = r * 8) as -> by (change SECTORS_PER_PAGE with 8; apply wrap_small; lia).
    destruct (write_loop_spec (Z.to_nat SECTORS_PER_PAGE) 0 d m r kpage Hd) as (d' & -> & Hd' & Hsz' & Hs');
      [lia|lia|done|lia|]. cbn [mbind outcome_bind]. eexists _, _. split; [done|]. cbn [swap_block swap_bitmap].
    rewrite Hc, Hsz'. split; [done|]. split; [unfold BITMAP_ERROR in Hne; unfold SWAP_SLOT_INVALID; lia|].
    assert (∀ i, 0 ≤ i < 4096 → 0 ≤ i / 512 < 8) as Hdiv.
    { intros i Hi. split; [apply Z.div_pos; lia|apply Z.div_lt_upper_bound; lia]. }
    split; [|split; [|split]].
    + intros [_ E]. rewrite Hrun in E by lia. done.
    + intros t. split.
      * intros [Ht E]. rewrite Hbits in E by lia. destruct (Z.leb_spec r t), (Z.ltb_spec t (r + 1)); cbn in E; try (by left); right; lia.
      * intros [[Ht E]| ->]; (split; [lia|]); rewrite Hbits by lia.
        { rewrite E. by destruct (_ && _). }
        by rewrite (proj2 (Z.leb_le r r)), (proj2 (Z.ltb_lt r (r + 1))) by lia.
    + intros i Hi. pose proof (Hdiv i Hi). pose proof (Z.mod_pos_bound i 512 ltac:(lia)). pose proof (Z.div_mod i 512 ltac:(lia)).
      unfold dev_byte. rewrite Hs' by lia.
      rewrite (proj2 (Z.leb_le (r * 8 + 0) (r * 8 + i / 512))), (proj2 (Z.ltb_lt (r * 8 + i / 512) (r * 8 + 8))) by lia. cbn [andb].
      rewrite load_bytes_lookup by lia. f_equal. lia.
    + intros t i [Ht E] Hi. pose proof (Hdiv i Hi). unfold dev_byte. rewrite Hs' by lia.
      assert (t ≠ r) by (intros ->; rewrite Hrun in E by lia; done).
      destruct (Z.leb_spec (r * 8 + 0) (t * 8 + i / 512)), (Z.ltb_spec (t * 8 + i / 512) (r * 8 + 8)); cbn; try done. lia.
Qed.

Lemma slot_used_reset d b slot : Bitmap.wf b → 0 ≤ slot < bit_cnt b →
  ∃ b', bitmap_reset b slot = Ret b' ∧ Bitmap.wf b' ∧ bit_cnt b' = bit_cnt b ∧
    ∀ t, slot_used (mk_swap (Some d) (Some b')) t ↔ slot_used (mk_swap (Some d) (Some b)) t ∧ t ≠ slot.
Proof.
  intros Hb Hr. destruct (bitmap_reset_spec b slot Hb Hr) as (b' & E & Hw & Hc & Hbits).
  exists b'. split; [done|]. split; [done|]. split; [done|]. intros t. unfold slot_used. cbn. rewrite Hc. split.
  - intros [Ht Ebit]. rewrite Hbits in Ebit by lia. destruct (Z.eqb_spec t slot); [done|]. done.
  - intros [[Ht Ebit] Hn]. split; [done|]. rewrite Hbits by lia. by rewrite (proj2 (Z.eqb_neq t slot)).
Qed.

(** Reading a slot back frees it. *)
Lemma swap_in_spec s m slot kpage : swap_ok s → slot_used s slot →
  ∃ s' m', swap_in s m slot kpage = Ret (s', m') ∧ swap_ok s' ∧ (∀ t, slot_used s' t ↔ slot_used s t ∧ t ≠ slot) ∧
    (∀ t i, slot_byte s' t i = slot_byte s t i) ∧
    ∀ x, m' x = if (kpage <=? x) && (x <? kpage + 4096) then slot_byte s slot (x - kpage) else m x.
Proof.
  destruct s as [[d|] [b|]]; intros Hok Hu; try done. destruct Hok as (Hd & Hb & Hsz), Hu as [Hr Hbit].
  unfold swap_in. cbn [swap_block swap_bitmap]. rewrite bitmap_test_spec, Hbit by done. cbn [mbind outcome_bind ASSERT].
  assert (u32 (slot * SECTORS_PER_PAGE) = slot * 8) as -> by (change SECTORS_PER_PAGE with 8; apply wrap_small; lia).
  destruct (read_loop_spec (Z.to_nat SECTORS_PER_PAGE) 0 d m slot kpage Hd) as (d' & m' & -> & Es & Et & Hm);
    [lia|lia|done|lia|]. cbn [mbind outcome_bind].
  destruct (slot_used_reset d' b slot Hb Hr) as (b' & -> & Hw & Hc & Hu). cbn [mbind outcome_bind].
  eexists _, m'. split; [done|]. split; [|split; [exact Hu|split]].
  - unfold swap_ok. cbn. unfold Block.wf, block_size in *. rewrite Es, Et, Hc. done.
  - intros t i. unfold slot_byte, dev_byte, sector_of. cbn. by rewrite Es.
  - intros x. rewrite Hm. change (0 * 512) with 0. by rewrite Z.add_0_r.
Qed.

Lemma swap_free_spec s slot : swap_ok s → slot_used s slot →
  ∃ s', swap_free s slot = Ret s' ∧ swap_ok s' ∧ (∀ t, slot_used s' t ↔ slot_used s t ∧ t ≠ slot) ∧
    (∀ t i, slot_byte s' t i = slot_byte s t i).
Proof.
  destruct s as [[d|] [b|]]; intros Hok Hu; try done. destruct Hok as (Hd & Hb & Hsz), Hu as [Hr Hbit].
  unfold swap_free. cbn [swap_block swap_bitmap]. rewrite bitmap_test_spec, Hbit by done. cbn [mbind outcome_bind ASSERT].
  destruct (slot_used_reset d b slot Hb Hr) as (b' & -> & Hw & Hc & Hu). cbn [mbind outcome_bind].
  eexists. split; [done|]. split; [|split; [exact Hu|done]]. unfold swap_ok. cbn. by rewrite Hc.
Qed.

(** C28. Swapping out and in is a round trip.  A page written to a free slot and read back into
    any page of memory arrives with the bytes it had, whatever happened to memory in between;
    the slot is free again, and in use only in between.  No other slot in use changes, and no
    memory outside the page that is read into. *)
Theorem swap_round_trip (s : swap) (m m' : Z → Z) (kpage kpage' : Z) (Hs : swap_ok s) (slot : Z) (s1 : swap)
    (Hout : swap_out s m kpage = Ret (slot, s1)) (Hslot : slot ≠ SWAP_SLOT_INVALID) :
  ¬ slot_used s slot ∧ (∀ t, slot_used s1 t ↔ slot_used s t ∨ t = slot) ∧
  (∀ t i, slot_used s t → 0 ≤ i < 4096 → slot_byte s1 t i = slot_byte s t i) ∧
  ∃ s2 m2, swap_in s1 m' slot kpage' = Ret (s2, m2) ∧ swap_ok s2 ∧
    (∀ t, slot_used s2 t ↔ slot_used s t) ∧
    (∀ t i, slot_used s t → 0 ≤ i < 4096 → slot_byte s2 t i = slot_byte s t i) ∧
    ∀ x, m2 x = if (kpage' <=? x) && (x <? kpage' + 4096) then m (kpage + (x - kpage')) else m' x.
Proof.
  destruct (swap_out_spec s m kpage Hs) as [(slot' & s' & E & H1 & H2 & H3 & H4 & H5 & H6)|(s' & E & _)]; rewrite E in Hout;
    injection Hout as <- <-; [|done]. split; [done|]. split; [done|]. split; [done|].
  destruct (swap_in_spec s' m' slot' kpage' H1) as (s2 & m2 & E2 & Q1 & Q2 & Q3 & Q4); [apply H4; by right|].
  exists s2, m2. split; [done|]. split; [done|]. split; [|split].
  - intros t. rewrite Q2, H4. split; [tauto|]. intros Ht. split; [by left|]. by intros ->.
  - intros t i Ht Hi. rewrite Q3. by apply H6.
  - intros x. rewrite Q4. destruct (Z.leb_spec kpage' x), (Z.ltb_spec x (kpage' + 4096)); cbn [andb]; try done. apply H5. lia.
Qed.
End Swap.
