(* ===== verification/FileOps.v ===== *)
(** * What virtual memory and file descriptors ask of files

    The functions of [filesys/file.c], [directory.c] and [inode.c] that [vm/] and
    [userprog/filedesc.c] call, as an interface, and the promise that demand paging needs:
    reading changes no file.  [kernel_files] and [kernel_laws] are the instances
    of [File] and [Directory]. *)

From stdpp Require Import base tactics numbers list option gmap.
From S2P Require Import Prelude State Block Inode InodeProofs File FileProofs Directory.

Open Scope Z_scope.

Class FileOps (F : Type) := {
  file_seek : nat → Z → st F unit;
  file_read : nat → Z → st F (list Z);
  file_write_at : nat → list Z → Z → Z → st F Z;
  file_length : nat → st F Z;
  file_reopen : option nat → st F (option nat);
  file_close : option nat → st F unit;
  file_get_inode : nat → st F nat;
  inode_is_dir : nat → st F bool;
  inode_get_inumber : nat → st F Z;
  dir_close : option nat → st F unit }.

(** [file_byte f p i]: byte [i] of file [p], if it has one. *)
Class FileLaws (F : Type) `{!FileOps F} := {
  files_ok : F → Prop;
  is_file : F → nat → Prop;
  file_byte : F → nat → Z → option Z;
  seek_read_spec f p ofs n : files_ok f → is_file f p → 0 ≤ ofs → 0 ≤ n →
    (∀ i, 0 ≤ i < n → is_Some (file_byte f p (ofs + i))) →
    ∃ f1 f2 b, file_seek p ofs f = Ret (tt, f1) ∧ file_read p n f1 = Ret (b, f2) ∧ files_ok f2 ∧
      (∀ q, is_file f q → is_file f2 q) ∧ (∀ q i, is_file f q → file_byte f2 q i = file_byte f q i) ∧
      Z.of_nat (length b) = n ∧ ∀ j, (j < length b)%nat → b !! j = file_byte f p (ofs + Z.of_nat j) }.

#[global] Instance kernel_files {St : Type} `{!Store St} : FileOps (kst St) := {|
  file_seek := File.file_seek; file_read := File.file_read; file_write_at := File.file_write_at;
  file_length := File.file_length; file_reopen := File.file_reopen; file_close := File.file_close;
  file_get_inode := File.file_get_inode;
  inode_is_dir q := askK (Inode.inode_is_dir q);
  inode_get_inumber q := askK (Inode.inode_get_inumber q);
  dir_close := Directory.dir_close |}.

(** ** The files of the kernel keep the promise *)

Section kernel.
Context {St : Type} `{!Store St} `{!SectorModel St} `{!SectorLaws St}.
Import Inode FileProofs.

(** File [p] is open on an inode that holds a well-formed file. *)
Definition kernel_file (k : kst St) (p : nat) : Prop := ∃ f i, files k !! p = Some f ∧ inode_file k (f_inode f) i.

Definition kernel_byte (k : kst St) (p : nat) (x : Z) : option Z :=
  f ← files k !! p; i ← heap (inodes k) !! f_inode f;
  if (0 <=? x) && (x <? length_ (data i)) then InodeProofs.file_byte (s_view (store (inodes k))) (data i) x else None.

Lemma kernel_byte_run k p f i x : files k !! p = Some f → inode_file k (f_inode f) i →
  kernel_byte k p x = if (0 <=? x) && (x <? length_ (data i)) then InodeProofs.file_byte (s_view (store (inodes k))) (data i) x else None.
Proof. intros Hf [_ Hi _]. unfold kernel_byte. rewrite Hf. cbn. by rewrite Hi. Qed.

(** A file has every byte up to its length. *)
Lemma kernel_byte_some k p f i x : files k !! p = Some f → inode_file k (f_inode f) i → 0 ≤ x < length_ (data i) →
  is_Some (kernel_byte k p x).
Proof.
  intros Hf Hi Hx. rewrite (kernel_byte_run k p f i x Hf Hi). rewrite (proj2 (Z.leb_le _ _)), (proj2 (Z.ltb_lt _ _)) by lia. cbn.
  unfold InodeProofs.file_byte. apply lookup_lt_is_Some_2.
  pose proof (InodeProofs.m_data _ _ _ (InodeProofs.f_map _ _ (if_file _ _ _ Hi)) (x / 512) (InodeProofs.pos_block _ _ Hx)) as Hu.
  rewrite (law_length _ _ (if_inv _ _ _ Hi) Hu). pose proof (Z.mod_pos_bound x 512). lia.
Qed.

(** A position changed and the store moved on. *)
Lemma kernel_moved k p f st' n : files k !! p = Some f → quiet (store (inodes k)) st' →
  let k' := with_files (with_inodes k (with_store (inodes k) st'))
    (<[p := mk_file (f_inode f) n (f_deny_write f) (f_ref_count f)]> (files k)) in
  (∀ q, kernel_file k q → kernel_file k' q) ∧ (∀ q x, kernel_file k q → kernel_byte k' q x = kernel_byte k q x).
Proof.
  intros Hf Hq k'.
  assert (∀ q g i, files k !! q = Some g → inode_file k (f_inode g) i →
    ∃ g', files k' !! q = Some g' ∧ f_inode g' = f_inode g ∧ inode_file k' (f_inode g') i) as H.
  { intros q g i Hg Hi. assert (inode_file k' (f_inode g) i) as Hi'.
    { destruct (inode_file_quiet _ _ _ _ Hi (kquiet_intro k st' Hq)) as [H1 H2 H3]. by constructor. }
    destruct (decide (q = p)) as [->|].
    - assert (g = f) as -> by congruence. eexists. split; [apply lookup_insert_eq|done].
    - exists g. split; [|done]. cbn. by rewrite lookup_insert_ne. }
  split.
  - intros q (g & i & Hg & Hi). destruct (H q g i Hg Hi) as (g' & ? & _ & ?). by exists g', i.
  - intros q x (g & i & Hg & Hi). destruct (H q g i Hg Hi) as (g' & Hg' & Ei & Hi').
    rewrite (kernel_byte_run k' q g' i x Hg' Hi'), (kernel_byte_run k q g i x Hg Hi).
    destruct ((0 <=? x) && (x <? length_ (data i))) eqn:Ex; [|done]. apply andb_true_iff in Ex as [E1%Z.leb_le E2%Z.ltb_lt].
    apply InodeProofs.quiet_byte; [apply Hi|done|lia].
Qed.

Lemma kernel_seek_read (k : kst St) (p : nat) (ofs n : Z) : s_inv (store (inodes k)) → kernel_file k p → 0 ≤ ofs → 0 ≤ n →
  (∀ i, 0 ≤ i < n → is_Some (kernel_byte k p (ofs + i))) →
  ∃ k1 k2 b, file_seek p ofs k = Ret (tt, k1) ∧ file_read p n k1 = Ret (b, k2) ∧ s_inv (store (inodes k2)) ∧
    (∀ q, kernel_file k q → kernel_file k2 q) ∧ (∀ q i, kernel_file k q → kernel_byte k2 q i = kernel_byte k q i) ∧
    Z.of_nat (length b) = n ∧ ∀ j, (j < length b)%nat → b !! j = kernel_byte k p (ofs + Z.of_nat j).
Proof.
  intros Hok Hp Ho Hn Hb. pose proof Hp as (f & i & Hf & Hi).
  set (f1 := mk_file (f_inode f) ofs (f_deny_write f) (f_ref_count f)).
  set (k1 := with_files k (<[p := f1]> (files k))).
  assert (inode_file k1 (f_inode f) i) as Hi1 by (by destruct Hi; constructor).
  destruct (inode_read_K k1 (f_inode f) i n ofs Hi1 Ho) as (b & st' & Hrd & Hq & Hl & Hbb).
  set (k2 := with_files (with_inodes k1 (with_store (inodes k1) st'))
    (<[p := mk_file (f_inode f) (ofs + Z.of_nat (length b)) (f_deny_write f) (f_ref_count f)]> (files k1))).
  assert (Z.of_nat (length b) = n) as Hlen.
  { rewrite Hl. destruct (decide (n = 0)); [lia|]. destruct (Hb (n - 1) ltac:(lia)) as [y Hy].
    rewrite (kernel_byte_run k p f i) in Hy by done.
    destruct (Z.leb_spec 0 (ofs + (n - 1))), (Z.ltb_spec (ofs + (n - 1)) (length_ (data i))); cbn in Hy; try done. lia. }
  destruct (kernel_moved k p f st' (ofs + Z.of_nat (length b)) Hf Hq) as [M1 M2].
  assert (k2 = with_files (with_inodes k (with_store (inodes k) st'))
    (<[p := mk_file (f_inode f) (ofs + Z.of_nat (length b)) (f_deny_write f) (f_ref_count f)]> (files k))) as E.
  { unfold k2, k1, with_files. cbn. by rewrite insert_insert_eq. }
  exists k1, k2, b. split; [|split; [|split; [|split; [|split; [|split]]]]].
  - cbn. unfold File.file_seek. erewrite K_run by (unfold pureK; by rewrite (proj2 (Z.leb_le 0 _) Ho)).
    by erewrite K_run by (by apply get_file_run).
  - cbn. unfold File.file_read. erewrite K_run by (apply get_file_run; apply lookup_insert_eq).
    cbn [f_inode f_pos f1]. by erewrite K_run by exact Hrd.
  - apply Hq.
  - by rewrite E.
  - by rewrite E.
  - done.
  - intros j Hj. rewrite (kernel_byte_run k p f i) by done. rewrite Hbb by done.
    assert (ofs + Z.of_nat j < length_ (data i)) by lia.
    by rewrite (proj2 (Z.leb_le _ _)), (proj2 (Z.ltb_lt _ _)) by lia.
Qed.

#[global] Instance kernel_laws : FileLaws (kst St) := {|
  files_ok k := s_inv (store (inodes k)); is_file := kernel_file; file_byte := kernel_byte;
  seek_read_spec := kernel_seek_read |}.
End kernel.
