(* ===== verification/Filedesc.v ===== *)
(** * Open file descriptions and file descriptors: [userprog/filedesc.c]

    An open file description (OFD) is what one [open] makes; the descriptors that [fork] copies
    share it.  The state is the table of OFDs, the global list, and for each process the array
    [fd_table] of [struct process]: [None] is an unused slot.  The three console OFDs are
    static; their addresses here are 0, 1 and 2.  The code of [userprog/process.c] and
    [userprog/syscall.c] that fills and empties [fd_table] is here too.  Locks have no effect on
    one thread.  [int ref_count] is a [Z]: it is at most the number of descriptors, plus one. *)

From stdpp Require Import base tactics numbers list option gmap.
From S2P Require Import Prelude State File Directory Filesys FileOps.

Open Scope Z_scope.

(** What user programs ask of the file system besides [FileOps]. *)
Class FsOps (F : Type) := {
  filesys_open : list Z → st F (option nat);
  inode_reopen : option nat → st F (option nat);
  dir_open : option nat → st F (option nat);
  dir_reopen : option nat → st F (option nat);
  dir_open_root : st F (option nat);
  dir_get_inode : nat → st F nat;
  file_deny_write : nat → st F unit;
  file_write : nat → list Z → Z → st F Z;
  file_tell : nat → st F Z }.

(** [e0] and [junk] are what uninitialised locals of the directory code hold. *)
Definition kernel_fs {St : Type} `{!Inode.Store St} (e0 : list Z) (junk : Z) : FsOps (kst St) := {|
  filesys_open := Filesys.filesys_open e0 junk; inode_reopen q := inodesK (Inode.Inode.inode_reopen q);
  dir_open := Directory.dir_open; dir_reopen := Directory.dir_reopen; dir_open_root := Directory.dir_open_root;
  dir_get_inode := Directory.dir_get_inode; file_deny_write := File.file_deny_write;
  file_write := File.file_write; file_tell := File.file_tell |}.

Module Filedesc.

Inductive fd_type := FD_NONE | FD_FILE | FD_DIR | FD_CONSOLE.
Inductive console_mode := CONSOLE_READ | CONSOLE_WRITE.
#[global] Instance fd_type_eq_dec : EqDecision fd_type.
Proof. solve_decision. Defined.

(** [ofd_obj]: the union of [file] and [dir]. *)
Record open_file_desc := mk_ofd {
  ofd_type : fd_type; cmode : console_mode; ofd_obj : option nat; ofd_flags : Z; ref_count : Z }.

Definition set_ref (d : open_file_desc) (n : Z) : open_file_desc := mk_ofd (ofd_type d) (cmode d) (ofd_obj d) (ofd_flags d) n.

Definition MAX_FILE_DESCRIPTOR : nat := 128.

Record fdst {F : Type} := mk_fdst {
  ofds : gmap nat open_file_desc;
  ofd_list : list nat;
  next_ofd : nat;
  tables : gmap nat (list (option nat));  (** [fd_table] of each process *)
  fd_fs : F;
  fd_mallocs : list bool }.               (** what [malloc] answers next; after that it succeeds *)
Arguments fdst : clear implicits.

Section filedesc.
Context {F : Type} `{!FileOps F} `{!FsOps F}.
Abbreviation D := (st (fdst F)).

Definition set_ofds (s : fdst F) (m : gmap nat open_file_desc) : fdst F :=
  mk_fdst _ m (ofd_list s) (next_ofd s) (tables s) (fd_fs s) (fd_mallocs s).
Definition set_tables (s : fdst F) (t : gmap nat (list (option nat))) : fdst F :=
  mk_fdst _ (ofds s) (ofd_list s) (next_ofd s) t (fd_fs s) (fd_mallocs s).
Definition set_fd_fs (s : fdst F) (x : F) : fdst F :=
  mk_fdst _ (ofds s) (ofd_list s) (next_ofd s) (tables s) x (fd_mallocs s).
Definition set_fd_mallocs (s : fdst F) (l : list bool) : fdst F :=
  mk_fdst _ (ofds s) (ofd_list s) (next_ofd s) (tables s) (fd_fs s) l.

Definition fdM {A} (f : st F A) : D A := λ s, '(a, x) ← f (fd_fs s); Ret (a, set_fd_fs s x).
Definition fd_malloc : D bool := λ s,
  match fd_mallocs s with [] => Ret (true, s) | b :: l => Ret (b, set_fd_mallocs s l) end.

(** [*ofd], undefined for an OFD that was freed. *)
Definition get_ofd (o : nat) : D open_file_desc := λ s,
  match ofds s !! o with Some d => Ret (d, s) | None => UB end.
Definition put_ofd (o : nat) (d : open_file_desc) : D unit := λ s, Ret (tt, set_ofds s (<[o := d]> (ofds s))).

(** ** Open file descriptions *)

Definition console (c : console_mode) : open_file_desc := mk_ofd FD_CONSOLE c None 0 1.
Definition ofd_init : D unit := λ s,
  Ret (tt, mk_fdst _ (<[0%nat := console CONSOLE_READ]> (<[1%nat := console CONSOLE_WRITE]> (<[2%nat := console CONSOLE_WRITE]> (ofds s))))
    ([] ++ [0%nat] ++ [1%nat] ++ [2%nat]) (next_ofd s) (tables s) (fd_fs s) (fd_mallocs s)).

(** A new OFD at the end of the list. *)
Definition new_ofd (d : open_file_desc) : D nat := λ s,
  let o := next_ofd s in
  Ret (o, mk_fdst _ (<[o := d]> (ofds s)) (ofd_list s ++ [o]) (S o) (tables s) (fd_fs s) (fd_mallocs s)).

(** The argument is not null. *)
Definition ofd_create_file (f : nat) : D (option nat) :=
  ok ← fd_malloc;
  if negb ok then mret None else
  o ← new_ofd (mk_ofd FD_FILE CONSOLE_READ (Some f) 0 1); mret (Some o).
Definition ofd_create_dir (d : nat) : D (option nat) :=
  ok ← fd_malloc;
  if negb ok then mret None else
  o ← new_ofd (mk_ofd FD_DIR CONSOLE_READ (Some d) 0 1); mret (Some o).

Definition ofd_get_console (fd : Z) : option nat :=
  if fd =? 0 then Some 0%nat else if fd =? 1 then Some 1%nat else if fd =? 2 then Some 2%nat else None.

Definition ofd_dup (o : option nat) : D (option nat) :=
  match o with
  | None => mret None
  | Some o => d ← get_ofd o; put_ofd o (set_ref d (ref_count d + 1));; mret (Some o)
  end.

Definition is_console (o : nat) : bool := bool_decide (o = 0 ∨ o = 1 ∨ o = 2)%nat.

(** [list_remove] and [free]. *)
Definition drop_ofd (o : nat) : D unit := λ s,
  Ret (tt, mk_fdst _ (delete o (ofds s)) (list_difference (ofd_list s) [o]) (next_ofd s) (tables s) (fd_fs s) (fd_mallocs s)).

Definition close_object (d : open_file_desc) : D unit :=
  match ofd_type d, ofd_obj d with
  | FD_FILE, Some f => fdM (file_close (Some f))
  | FD_DIR, Some p => fdM (dir_close (Some p))
  | _, _ => mret tt
  end.

Definition ofd_close (o : option nat) : D unit :=
  match o with
  | None => mret tt
  | Some o =>
      d ← get_ofd o;
      if is_console o then
        if 1 <? ref_count d then put_ofd o (set_ref d (ref_count d - 1)) else mret tt
      else
        let d := set_ref d (ref_count d - 1) in
        put_ofd o d;;
        if ref_count d =? 0 then close_object d;; drop_ofd o else mret tt
  end.

(** ** The descriptors of a process *)

Definition get_table (p : nat) : D (list (option nat)) := λ s,
  match tables s !! p with Some t => Ret (t, s) | None => UB end.
Definition put_table (p : nat) (t : list (option nat)) : D unit := λ s, Ret (tt, set_tables s (<[p := t]> (tables s))).

(** [pcb->fd_table[fd].ofd], undefined outside of the array. *)
Definition get_slot (p fd : nat) : D (option nat) :=
  t ← get_table p; lift (match t !! fd with Some o => Ret o | None => UB end).
Definition put_slot (p fd : nat) (o : option nat) : D unit := t ← get_table p; put_table p (<[fd := o]> t).

(** The console descriptors in [pcb_init]. *)
Fixpoint init_slots (p : nat) (fds : list nat) : D unit :=
  match fds with
  | [] => mret tt
  | fd :: fds => o ← ofd_dup (ofd_get_console (Z.of_nat fd)); put_slot p fd o;; init_slots p fds
  end.
Definition init_table (p : nat) : D unit :=
  put_table p (replicate MAX_FILE_DESCRIPTOR None);; init_slots p [0; 1; 2]%nat.

Fixpoint free_fd_loop (t : list (option nat)) (i : Z) : Z :=
  match t with
  | [] => -1
  | None :: _ => i
  | Some _ :: t => free_fd_loop t (i + 1)
  end.
Definition find_free_fd (p : nat) : D Z := t ← get_table p; mret (free_fd_loop (drop 3 t) 3).

(** The loop of [fork_process]. *)
Fixpoint copy_slots (parent child : nat) (fds : list nat) : D unit :=
  match fds with
  | [] => mret tt
  | fd :: fds =>
      o ← get_slot parent fd;
      match o with
      | None => mret tt
      | Some _ =>
          c ← get_slot child fd;
          ofd_close c;;
          o ← ofd_dup o;
          put_slot child fd o
      end;;
      copy_slots parent child fds
  end.
Definition copy_table (parent child : nat) : D unit := copy_slots parent child (seq 0 MAX_FILE_DESCRIPTOR).

(** The loop of [process_exit], and of a failed [fork_process]. *)
Fixpoint close_slots (p : nat) (fds : list nat) : D unit :=
  match fds with
  | [] => mret tt
  | fd :: fds =>
      o ← get_slot p fd;
      match o with None => mret tt | Some _ => ofd_close o;; put_slot p fd None end;;
      close_slots p fds
  end.
Definition close_table (p : nat) : D unit := close_slots p (seq 0 MAX_FILE_DESCRIPTOR).
(** [free (pcb_to_free)]. *)
Definition free_table (p : nat) : D unit := λ s, Ret (tt, set_tables s (delete p (tables s))).

(** ** System calls on descriptors *)

Definition is_valid_fd (fd : Z) : bool := (0 <=? fd) && (fd <? Z.of_nat MAX_FILE_DESCRIPTOR).

(** [get_ofd] of [syscall.c], with [get_fd_entry]. *)
Definition fd_ofd (p : nat) (fd : Z) : D (option nat) :=
  if negb (is_valid_fd fd) then mret None else get_slot p (Z.to_nat fd).
(** [get_file_from_fd] and [get_dir_from_fd]. *)
Definition object_from_fd (ty : fd_type) (p : nat) (fd : Z) : D (option nat) :=
  o ← fd_ofd p fd;
  match o with
  | None => mret None
  | Some o => d ← get_ofd o; mret (if decide (ofd_type d = ty) then ofd_obj d else None)
  end.
Definition get_file_from_fd : nat → Z → D (option nat) := object_from_fd FD_FILE.
Definition get_dir_from_fd : nat → Z → D (option nat) := object_from_fd FD_DIR.

(** [SYS_CLOSE]; [None]: the return value is not set. *)
Definition sys_close (p : nat) (fd : Z) : D (option Z) :=
  if negb (is_valid_fd fd) then mret (Some (-1)) else
  o ← get_slot p (Z.to_nat fd);
  match o with None => mret tt | Some _ => ofd_close o;; put_slot p (Z.to_nat fd) None end;;
  mret None.

(** [SYS_OPEN] from the file that [filesys_open] returned. *)
Definition open_fd (p : nat) (open_file : nat) : D Z :=
  fd ← find_free_fd p;
  if fd =? -1 then fdM (file_close (Some open_file));; mret (-1) else
  i ← fdM (file_get_inode open_file);
  isdir ← fdM (inode_is_dir i);
  ofd ← (if isdir : bool then
           q ← fdM (inode_reopen (Some i));
           d ← fdM (dir_open q);
           fdM (file_close (Some open_file));;
           match d with
           | None => mret None
           | Some d =>
               o ← ofd_create_dir d;
               match o with None => fdM (dir_close (Some d));; mret None | Some o => mret (Some o) end
           end
         else
           o ← ofd_create_file open_file;
           match o with None => fdM (file_close (Some open_file));; mret None | Some o => mret (Some o) end);
  match ofd with
  | None => mret (-1)
  | Some o => put_slot p (Z.to_nat fd) (Some o);; mret fd
  end.
Definition sys_open (p : nat) (file_name : list Z) : D Z :=
  f ← fdM (filesys_open file_name);
  match f with None => mret (-1) | Some f => open_fd p f end.
End filedesc.
End Filedesc.
