(* ===== verification/FiledescProofs.v ===== *)
(** * File descriptors: reference counts

    The count of an open file description is the number of descriptors that refer to it, in
    all processes, so that its file is closed when the last of them goes and not before. *)

From stdpp Require Import base tactics numbers list option gmap.
From S2P Require Import Prelude State Inode File Directory Filesys FileOps Filedesc.

Open Scope Z_scope.

Definition close_obj {F} `{!FileOps F} (ty : Filedesc.fd_type) (p : nat) : st F unit :=
  match ty with
  | Filedesc.FD_FILE => file_close (Some p)
  | Filedesc.FD_DIR => dir_close (Some p)
  | _ => mret tt
  end.

(** What descriptors need of the file system: closing closes one object and no other. *)
Class FdLaws (F : Type) `{!FileOps F} := {
  fd_fs_ok : F → Prop;
  opened : F → Filedesc.fd_type → nat → Prop;
  close_spec x ty p : fd_fs_ok x → opened x ty p → ty = Filedesc.FD_FILE ∨ ty = Filedesc.FD_DIR →
    ∃ x', close_obj ty p x = Ret (tt, x') ∧ fd_fs_ok x' ∧ ∀ ty' q, opened x' ty' q ↔ opened x ty' q ∧ (ty', q) ≠ (ty, p) }.

Module FiledescProofs.
Import Filedesc.

(** ** Counting slots *)

Abbreviation table := (list (option nat)).

Definition cnt (o : nat) (t : table) : nat := length (filter (λ x, x = Some o) t).
Definition one (o : nat) (x : option nat) : nat := if decide (x = Some o) then 1%nat else 0%nat.

Lemma one_eq o : one o (Some o) = 1%nat.
Proof. unfold one. by rewrite decide_True. Qed.
Lemma one_ne o x : x ≠ Some o → one o x = 0%nat.
Proof. intros H. unfold one. by rewrite decide_False. Qed.

Lemma cnt_cons o x t : cnt o (x :: t) = (one o x + cnt o t)%nat.
Proof. unfold cnt, one. rewrite filter_cons. by case_decide. Qed.

Lemma cnt_insert o t i x y : t !! i = Some x → (cnt o (<[i := y]> t) + one o x = cnt o t + one o y)%nat.
Proof.
  revert i. induction t as [|z t IH]; intros [|i] Hi; [done..| |].
  - injection Hi as ->. change (<[0%nat := y]> (x :: t)) with (y :: t). rewrite !cnt_cons. lia.
  - change (<[S i := y]> (z :: t)) with (z :: <[i := y]> t). rewrite !cnt_cons. specialize (IH i Hi). lia.
Qed.

Lemma cnt_replicate o n : cnt o (replicate n None) = 0%nat.
Proof. induction n as [|n IH]; [done|]. cbn [replicate]. rewrite cnt_cons. by rewrite IH. Qed.

Lemma cnt_none o t : (∀ i, t !! i ≠ Some (Some o)) → cnt o t = 0%nat.
Proof.
  induction t as [|x t IH]; intros H; [done|]. rewrite cnt_cons, IH by (intros i; apply (H (S i))).
  unfold one. case_decide; [|done]. destruct (H 0%nat). by subst.
Qed.

Lemma cnt_pos o t i : t !! i = Some (Some o) → (0 < cnt o t)%nat.
Proof. intros Hi. pose proof (cnt_insert o t i (Some o) None Hi) as H. rewrite one_eq, one_ne in H by done. lia. Qed.

Definition all_refs (ts : gmap nat table) (o : nat) : nat := map_fold (λ _ t n, (cnt o t + n)%nat) 0%nat ts.

Lemma all_refs_insert ts p t o : ts !! p = None → all_refs (<[p := t]> ts) o = (cnt o t + all_refs ts o)%nat.
Proof. intros H. unfold all_refs. apply (map_fold_insert_L (λ _ t n, (cnt o t + n)%nat)); [intros; lia|done]. Qed.

Lemma all_refs_delete ts p t o : ts !! p = Some t → all_refs ts o = (cnt o t + all_refs (delete p ts) o)%nat.
Proof. intros H. rewrite <- (insert_delete_id ts p t H) at 1. apply all_refs_insert, lookup_delete_eq. Qed.

Lemma all_refs_update ts p t t' o : ts !! p = Some t → (all_refs (<[p := t']> ts) o + cnt o t = all_refs ts o + cnt o t')%nat.
Proof.
  intros H. rewrite (all_refs_delete ts p t o H), <- (insert_delete_eq ts p t').
  rewrite all_refs_insert by apply lookup_delete_eq. lia.
Qed.

Lemma all_refs_pos ts p t i o : ts !! p = Some t → t !! i = Some (Some o) → (0 < all_refs ts o)%nat.
Proof. intros H Hi. rewrite (all_refs_delete ts p t o H). pose proof (cnt_pos o t i Hi). lia. Qed.

(** The descriptor that a positive count promises. *)
Lemma cnt_find o t : (0 < cnt o t)%nat → ∃ i, t !! i = Some (Some o).
Proof.
  induction t as [|x t IH]; [cbn; lia|]. rewrite cnt_cons. unfold one. case_decide as E; [subst; by exists 0%nat|].
  intros H. destruct IH as [i Hi]; [lia|]. by exists (S i).
Qed.
Lemma all_refs_find ts o : (0 < all_refs ts o)%nat → ∃ p t i, ts !! p = Some t ∧ t !! i = Some (Some o).
Proof.
  induction ts as [|p t ts Hp IH] using map_ind; [unfold all_refs; rewrite map_fold_empty; lia|].
  rewrite all_refs_insert by done. intros H. destruct (decide (0 < cnt o t)%nat) as [Hc|Hc].
  - destruct (cnt_find o t Hc) as [i Hi]. exists p, t, i. by rewrite lookup_insert_eq.
  - destruct IH as (q & u & i & Hq & Hi); [lia|]. exists q, u, i. rewrite lookup_insert_ne; [done|]. congruence.
Qed.

Section proofs.
Context {F : Type} `{!FileOps F} `{!FsOps F} `{!FdLaws F}.

(** ** The invariant *)

Definition refs (s : fdst F) (o : nat) : Z := Z.of_nat (all_refs (tables s) o).
Definition object_ok (x : F) (d : open_file_desc) : Prop :=
  ∃ p, ofd_obj d = Some p ∧ (ofd_type d = FD_FILE ∨ ofd_type d = FD_DIR) ∧ opened x (ofd_type d) p.

Record fd_ok (s : fdst F) : Prop := mk_fd_ok {
  fo_fs : fd_fs_ok (fd_fs s);
  fo_console o : is_console o = true → ∃ c, ofds s !! o = Some (mk_ofd FD_CONSOLE c None 0 (1 + refs s o));
  fo_ofd o d : ofds s !! o = Some d → is_console o = false → ref_count d = refs s o ∧ 0 < refs s o ∧ object_ok (fd_fs s) d;
  fo_apart o o' d d' : ofds s !! o = Some d → ofds s !! o' = Some d' → is_console o = false → is_console o' = false →
    ofd_type d = ofd_type d' → ofd_obj d = ofd_obj d' → o = o';
  fo_slot p t fd o : tables s !! p = Some t → t !! fd = Some (Some o) → is_Some (ofds s !! o);
  fo_length p t : tables s !! p = Some t → length t = MAX_FILE_DESCRIPTOR;
  fo_nodup : NoDup (ofd_list s);
  fo_list o : o ∈ ofd_list s ↔ is_Some (ofds s !! o);
  fo_next o : is_Some (ofds s !! o) → (o < next_ofd s)%nat }.

(** The count of an OFD is what the descriptors make it. *)
Lemma ofd_count s o d : fd_ok s → ofds s !! o = Some d → ref_count d = refs s o + (if is_console o then 1 else 0).
Proof.
  intros Hs Hd. destruct (is_console o) eqn:Ec.
  - destruct (fo_console _ Hs o Ec) as [c Hc]. rewrite Hd in Hc. injection Hc as ->. cbn. lia.
  - destruct (fo_ofd _ Hs o d Hd Ec) as [-> _]. lia.
Qed.

(** ** A slot is filled *)

Definition with_slot (s : fdst F) (p fd : nat) (t : table) (x : option nat) : fdst F := set_tables s (<[p := <[fd := x]> t]> (tables s)).

Lemma refs_slot s p t fd x y o : tables s !! p = Some t → t !! fd = Some x →
  refs (with_slot s p fd t y) o + Z.of_nat (one o x) = refs s o + Z.of_nat (one o y).
Proof.
  intros Ht Hx. unfold refs, with_slot. cbn. pose proof (all_refs_update (tables s) p t (<[fd := y]> t) o Ht).
  pose proof (cnt_insert o t fd x y Hx). lia.
Qed.

Lemma slot_split s p fd t x q u i o : tables s !! p = Some t → (fd < length t)%nat →
  tables (with_slot s p fd t x) !! q = Some u → u !! i = Some (Some o) →
  (q = p ∧ i = fd ∧ x = Some o) ∨ (∃ u', tables s !! q = Some u' ∧ u' !! i = Some (Some o)).
Proof.
  intros Ht Hfd Hu Hi. cbn in Hu. apply lookup_insert_Some in Hu as [[<- <-]|[Hne Hu]]; [|right; by exists u].
  destruct (decide (i = fd)) as [->|Hn]; [rewrite list_lookup_insert_eq in Hi by done; left; split; [done|]; split; [done|congruence]|].
  rewrite list_lookup_insert_ne in Hi by done. right. by exists t.
Qed.

Lemma slot_length s p fd t x q u : fd_ok s → tables s !! p = Some t → tables (with_slot s p fd t x) !! q = Some u → length u = MAX_FILE_DESCRIPTOR.
Proof.
  intros Hs Ht Hu. cbn in Hu. apply lookup_insert_Some in Hu as [[<- <-]|[_ Hu]]; [rewrite length_insert|]; by eapply fo_length.
Qed.

(** An OFD with one reference more, in slot [fd]. *)
Definition dupped (s : fdst F) (o : nat) (d : open_file_desc) : fdst F := set_ofds s (<[o := set_ref d (ref_count d + 1)]> (ofds s)).

Lemma dup_put s p t fd o d : fd_ok s → tables s !! p = Some t → t !! fd = Some None → ofds s !! o = Some d →
  fd_ok (with_slot (dupped s o d) p fd t (Some o)).
Proof.
  intros Hs Ht Hfd Hd. set (s' := with_slot _ _ _ _ _). pose proof (lookup_lt_Some _ _ _ Hfd) as Hlt.
  assert (∀ x, refs s' x = refs s x + Z.of_nat (one x (Some o))) as Hr.
  { intros x. pose proof (refs_slot (dupped s o d) p t fd None (Some o) x Ht Hfd) as H. rewrite (one_ne x None) in H by done. fold s' in H. change (refs (dupped s o d) x) with (refs s x) in H. lia. }
  pose proof (one_eq o) as Ho. assert (∀ x, x ≠ o → one x (Some o) = 0%nat) as Hno by (intros x Hx; apply one_ne; congruence).
  assert (∀ x, is_Some (<[o := set_ref d (ref_count d + 1)]> (ofds s) !! x) ↔ is_Some (ofds s !! x)) as Hsome.
  { intros x. rewrite lookup_insert_is_Some. destruct (decide (o = x)) as [->|]; [|naive_solver]. split; [by exists d|by left]. }
  pose proof (ofd_count s o d Hs Hd) as Hcount. destruct Hs. constructor; try done.
  - intros x Hx. destruct (fo_console0 x Hx) as [c Hc]. exists c. cbn. rewrite Hr. destruct (decide (x = o)) as [->|Hne].
    + rewrite lookup_insert_eq, Ho. assert (d = mk_ofd FD_CONSOLE c None 0 (1 + refs s o)) as -> by congruence. unfold set_ref. cbn. do 2 f_equal. lia.
    + rewrite lookup_insert_ne by done. rewrite Hno by done. rewrite Hc. do 2 f_equal. lia.
  - intros x e He Hx. cbn in He. rewrite Hr. apply lookup_insert_Some in He as [[<- <-]|[Hne He]].
    + destruct (fo_ofd0 o d Hd Hx) as (E & Hp & Hobj). cbn. rewrite Ho. split; [lia|]. split; [lia|]. exact Hobj.
    + destruct (fo_ofd0 x e He Hx) as (E & Hp & Hobj). rewrite Hno by done. split; [lia|]. split; [lia|]. exact Hobj.
  - intros x y e e' He He' Hx Hy E1 E2. cbn in He, He'.
    apply lookup_insert_Some in He as [[<- <-]|[_ He]]; apply lookup_insert_Some in He' as [[<- <-]|[_ He']]; cbn in *; try done; by eapply fo_apart0.
  - intros q u i x Hu Hi. cbn [ofds with_slot set_tables s' dupped set_ofds]. apply Hsome.
    destruct (slot_split (dupped s o d) p fd t (Some o) q u i x Ht Hlt Hu Hi) as [(_ & _ & [= <-])|(u' & Hu' & Hi')]; [by exists d|].
    by eapply fo_slot0.
  - intros q u Hu. cbn in Hu. apply lookup_insert_Some in Hu as [[<- <-]|[_ Hu]]; [rewrite length_insert|]; by eapply fo_length0.
  - intros x. cbn. by rewrite Hsome.
  - intros x Hx. cbn in Hx. apply fo_next0. by apply Hsome.
Qed.

(** ** A slot is emptied *)

(** The state after [ofd_close] of an OFD that keeps references, and of one that loses its last. *)
Definition kept_ofd (s : fdst F) (o : nat) (d : open_file_desc) : fdst F := set_ofds s (<[o := set_ref d (ref_count d - 1)]> (ofds s)).
Definition dropped_ofd (s : fdst F) (o : nat) (x : F) : fdst F :=
  mk_fdst _ (delete o (ofds s)) (list_difference (ofd_list s) [o]) (next_ofd s) (tables s) x (fd_mallocs s).

Lemma kept_ok s p t fd o d : fd_ok s → tables s !! p = Some t → t !! fd = Some (Some o) → ofds s !! o = Some d →
  is_console o = true ∨ refs s o ≠ 1 → fd_ok (with_slot (kept_ofd s o d) p fd t None).
Proof.
  intros Hs Ht Hfd Hd Hlast. set (s' := with_slot _ _ _ _ _). pose proof (lookup_lt_Some _ _ _ Hfd) as Hlt.
  assert (∀ x, refs s' x + Z.of_nat (one x (Some o)) = refs s x) as Hr.
  { intros x. pose proof (refs_slot (kept_ofd s o d) p t fd (Some o) None x Ht Hfd) as H. rewrite (one_ne x None) in H by done.
    fold s' in H. change (refs (kept_ofd s o d) x) with (refs s x) in H. lia. }
  pose proof (one_eq o) as Ho. assert (∀ x, x ≠ o → one x (Some o) = 0%nat) as Hno by (intros x Hx; apply one_ne; congruence).
  assert (∀ x, is_Some (<[o := set_ref d (ref_count d - 1)]> (ofds s) !! x) ↔ is_Some (ofds s !! x)) as Hsome.
  { intros x. rewrite lookup_insert_is_Some. destruct (decide (o = x)) as [->|]; [|naive_solver]. split; [by exists d|by left]. }
  destruct Hs. constructor; try done.
  - intros x Hx. destruct (fo_console0 x Hx) as [c Hc]. exists c. cbn. pose proof (Hr x) as Hrx. destruct (decide (x = o)) as [->|Hne].
    + rewrite lookup_insert_eq. rewrite Ho in Hrx. assert (d = mk_ofd FD_CONSOLE c None 0 (1 + refs s o)) as -> by congruence.
      unfold set_ref. cbn. do 2 f_equal. lia.
    + rewrite lookup_insert_ne by done. rewrite Hno in Hrx by done. rewrite Hc. do 2 f_equal. lia.
  - intros x e He Hx. cbn in He. pose proof (Hr x) as Hrx. apply lookup_insert_Some in He as [[<- <-]|[Hne He]].
    + destruct (fo_ofd0 o d Hd Hx) as (E & Hp & Hobj). rewrite Ho in Hrx. cbn. destruct Hlast; [congruence|].
      split; [lia|]. split; [lia|]. exact Hobj.
    + destruct (fo_ofd0 x e He Hx) as (E & Hp & Hobj). rewrite Hno in Hrx by done. split; [lia|]. split; [lia|]. exact Hobj.
  - intros x y e e' He He' Hx Hy E1 E2. cbn in He, He'.
    apply lookup_insert_Some in He as [[<- <-]|[_ He]]; apply lookup_insert_Some in He' as [[<- <-]|[_ He']]; cbn in *; try done; by eapply fo_apart0.
  - intros q u i x Hu Hi. apply Hsome.
    destruct (slot_split (kept_ofd s o d) p fd t None q u i x Ht Hlt Hu Hi) as [(_ & _ & [=])|(u' & Hu' & Hi')]. by eapply fo_slot0.
  - intros q u Hu. cbn in Hu. apply lookup_insert_Some in Hu as [[<- <-]|[_ Hu]]; [rewrite length_insert|]; by eapply fo_length0.
  - intros x. cbn. by rewrite Hsome.
  - intros x Hx. apply fo_next0. by apply Hsome.
Qed.

(** An OFD with one reference is in one slot. *)
Lemma last_slot s p t fd o q u i : tables s !! p = Some t → t !! fd = Some (Some o) → refs s o = 1 →
  tables (with_slot s p fd t None) !! q = Some u → u !! i ≠ Some (Some o).
Proof.
  intros Ht Hfd Hr Hu Hi. pose proof (refs_slot s p t fd (Some o) None o Ht Hfd) as H. rewrite one_eq, one_ne in H by done.
  pose proof (all_refs_pos _ _ _ _ _ Hu Hi) as Hp. unfold refs in *. lia.
Qed.

Lemma dropped_ok s p t fd o d ty n x : fd_ok s → tables s !! p = Some t → t !! fd = Some (Some o) → ofds s !! o = Some d →
  is_console o = false → refs s o = 1 → ofd_type d = ty → ofd_obj d = Some n → fd_fs_ok x →
  (∀ ty' q, opened x ty' q ↔ opened (fd_fs s) ty' q ∧ (ty', q) ≠ (ty, n)) →
  fd_ok (with_slot (dropped_ofd s o x) p fd t None).
Proof.
  intros Hs Ht Hfd Hd Hcon Hr1 Hty Hobj Hx Hop. set (s' := with_slot _ _ _ _ _). pose proof (lookup_lt_Some _ _ _ Hfd) as Hlt.
  assert (∀ y, y ≠ o → refs s' y = refs s y) as Hr.
  { intros y Hy. pose proof (refs_slot (dropped_ofd s o x) p t fd (Some o) None y Ht Hfd) as H. rewrite !one_ne in H by congruence.
    fold s' in H. change (refs (dropped_ofd s o x) y) with (refs s y) in H. lia. }
  destruct Hs. constructor; try done.
  - intros y Hy. destruct (fo_console0 y Hy) as [c Hc]. exists c. cbn. assert (y ≠ o) by congruence.
    rewrite lookup_delete_ne, Hr by done. exact Hc.
  - intros y e He Hy. cbn in He. apply lookup_delete_Some in He as [Hne He]. rewrite Hr by done.
    destruct (fo_ofd0 y e He Hy) as (E & Hp & q & E1 & E2 & E3). split; [done|]. split; [done|]. exists q. split; [done|]. split; [done|].
    apply Hop. split; [done|]. intros [= E4 E5]. apply Hne. eapply fo_apart0; [exact Hd|exact He|done|done|congruence|congruence].
  - intros y z e e' He He'. cbn in He, He'. apply lookup_delete_Some in He as [_ He]. apply lookup_delete_Some in He' as [_ He']. by eapply fo_apart0.
  - intros q u i y Hu Hi. assert (y ≠ o). { intros ->. by eapply (last_slot s p t fd o q u i). }
    cbn [ofds s' with_slot set_tables dropped_ofd]. rewrite lookup_delete_ne by done.
    destruct (slot_split (dropped_ofd s o x) p fd t None q u i y Ht Hlt Hu Hi) as [(_ & _ & [=])|(u' & Hu' & Hi')]. by eapply fo_slot0.
  - intros q u Hu. cbn in Hu. apply lookup_insert_Some in Hu as [[<- <-]|[_ Hu]]; [rewrite length_insert|]; by eapply fo_length0.
  - cbn. by apply NoDup_list_difference.
  - intros y. cbn. rewrite list_elem_of_difference, list_elem_of_singleton, fo_list0.
    destruct (decide (y = o)) as [->|]; [rewrite lookup_delete_eq; split; [tauto|by intros []]|rewrite lookup_delete_ne by done; tauto].
  - intros y Hy. cbn in Hy. apply fo_next0. destruct Hy as [e Hy]. apply lookup_delete_Some in Hy as [_ Hy]. by exists e.
Qed.

(** The files and directories that are open under some OFD. *)
Definition under (s : fdst F) (ty : fd_type) (q : nat) : Prop := ∃ o d, ofds s !! o = Some d ∧ ofd_type d = ty ∧ ofd_obj d = Some q.

(** What was open stays open, but for what no OFD has any more. *)
Definition tracks (s s' : fdst F) : Prop := (∀ ty q, under s' ty q → under s ty q) ∧
  ∀ ty q, opened (fd_fs s') ty q ↔ opened (fd_fs s) ty q ∧ ¬ (under s ty q ∧ ¬ under s' ty q).

Lemma tracks_trans s1 s2 s3 : tracks s1 s2 → tracks s2 s3 → tracks s1 s3.
Proof.
  intros [U1 O1] [U2 O2]. split; [auto|]. intros ty q. rewrite O2, O1. specialize (U1 ty q). specialize (U2 ty q). tauto.
Qed.

(** Type and object of the OFDs are the same. *)
Definition kind (d : open_file_desc) : fd_type * console_mode * option nat := (ofd_type d, cmode d, ofd_obj d).
Definition same_kinds (s s' : fdst F) : Prop := fd_fs s' = fd_fs s ∧ ∀ x, kind <$> ofds s' !! x = kind <$> ofds s !! x.

Lemma same_kinds_refl s : same_kinds s s.
Proof. done. Qed.
Lemma same_kinds_trans s1 s2 s3 : same_kinds s1 s2 → same_kinds s2 s3 → same_kinds s1 s3.
Proof. intros [E1 K1] [E2 K2]. split; [congruence|]. intros x. by rewrite K2. Qed.

Lemma same_under s s' ty q : same_kinds s s' → under s ty q → under s' ty q.
Proof.
  intros [_ K] (o & d & Hd & E1 & E2). specialize (K o). rewrite Hd in K. destruct (ofds s' !! o) as [d'|] eqn:Hd'; [|done].
  injection K as E3 _ E4. exists o, d'. split; [done|]. split; congruence.
Qed.
Lemma same_tracks s s' : same_kinds s s' → tracks s s'.
Proof.
  intros H. pose proof H as [E K]. assert (same_kinds s' s) as H' by (by split; [|intros x; rewrite K]). split; [intros ty q; by apply same_under|].
  intros ty q. rewrite E. pose proof (same_under s s' ty q H). tauto.
Qed.

Lemma kind_put s o d n : ofds s !! o = Some d → same_kinds s (set_ofds s (<[o := set_ref d n]> (ofds s))).
Proof.
  intros Hd. split; [done|]. intros x. cbn. destruct (decide (x = o)) as [->|]; [rewrite lookup_insert_eq; by rewrite Hd|by rewrite lookup_insert_ne].
Qed.

Lemma ofd_close_run s p t fd o d : fd_ok s → tables s !! p = Some t → t !! fd = Some (Some o) → ofds s !! o = Some d →
  ∃ s1, ofd_close (Some o) s = Ret (tt, s1) ∧ tables s1 = tables s ∧ fd_ok (with_slot s1 p fd t None) ∧ tracks s s1 ∧
    (is_console o = true → same_kinds s s1).
Proof.
  intros Hs Ht Hfd Hd. pose proof (ofd_count s o d Hs Hd) as Hcount.
  assert (0 < refs s o) as Hpos by (pose proof (all_refs_pos _ _ _ _ _ Ht Hfd); unfold refs; lia).
  pose proof (kind_put s o d (ref_count d - 1) Hd) as Hkept. fold (kept_ofd s o d) in Hkept.
  unfold ofd_close. rewrite (st_bind_run _ _ s d s) by (unfold get_ofd; by rewrite Hd).
  destruct (is_console o) eqn:Ec.
  - rewrite (proj2 (Z.ltb_lt _ _)) by lia. exists (kept_ofd s o d). split; [done|]. split; [done|].
    split; [apply kept_ok; auto|]. split; [by apply same_tracks|done].
  - cbn [ref_count set_ref]. change (put_ofd o (set_ref d (ref_count d - 1))) with (λ s0 : fdst F, Ret (tt, kept_ofd s0 o d)).
    rewrite (st_bind_run _ _ s tt (kept_ofd s o d)) by done. destruct (Z.eqb_spec (ref_count d - 1) 0) as [E0|E0].
    + assert (refs s o = 1) as Hr1 by lia. destruct (fo_ofd _ Hs o d Hd Ec) as (_ & _ & n & Hobj & Hty & Hop).
      destruct (close_spec (fd_fs s) (ofd_type d) n (fo_fs _ Hs) Hop Hty) as (x & E & Hx & Hopx).
      assert (close_object (set_ref d (ref_count d - 1)) (kept_ofd s o d) = Ret (tt, set_fd_fs (kept_ofd s o d) x)) as Ecl.
      { unfold close_object. cbn [ofd_type set_ref ofd_obj]. rewrite Hobj. destruct Hty as [Ht'|Ht']; rewrite Ht' in *;
          unfold fdM; cbn [fd_fs kept_ofd set_ofds]; cbn in E; by rewrite E. }
      rewrite (st_bind_run _ _ _ _ _ Ecl). exists (dropped_ofd s o x). split; [|split; [done|split; [by eapply dropped_ok|split; [|done]]]].
      { unfold drop_ofd, dropped_ofd. cbn. by rewrite delete_insert_eq. }
      assert (¬ under (dropped_ofd s o x) (ofd_type d) n) as Hgone.
      { intros (y & e & He & E1 & E2). cbn in He. apply lookup_delete_Some in He as [Hne He]. apply Hne.
        destruct (is_console y) eqn:Ey; [|eapply (fo_apart _ Hs); [exact Hd|exact He|done|done|congruence|congruence]].
        destruct (fo_console _ Hs y Ey) as [c Hc]. rewrite He in Hc. by injection Hc as ->. }
      split.
      * intros ty q (y & e & He & H). cbn in He. apply lookup_delete_Some in He as [_ He]. by exists y, e.
      * intros ty q. cbn. rewrite Hopx. split.
        -- intros [H1 H2]. split; [done|]. intros [(y & e & He & E1 & E2) Hn]. destruct (decide (y = o)) as [->|Hne].
           ++ apply H2. congruence.
           ++ apply Hn. exists y, e. split; [|done]. cbn. by rewrite lookup_delete_ne.
        -- intros [H1 H2]. split; [done|]. intros [= -> ->]. apply H2. split; [by exists o, d|done].
    + exists (kept_ofd s o d). split; [done|]. split; [done|]. split; [apply kept_ok; [done..|right; lia]|].
      split; [by apply same_tracks|done].
Qed.

(** ** Loops over the slots *)

Lemma fd_slot_run (s : fdst F) p t fd x : tables s !! p = Some t → t !! fd = Some x → get_slot p fd s = Ret (x, s).
Proof. intros Ht Hx. unfold get_slot, get_table. rewrite st_bind_unfold, Ht. cbn. unfold lift. by rewrite Hx. Qed.
Lemma put_slot_run (s : fdst F) p t fd x : tables s !! p = Some t → put_slot p fd x s = Ret (tt, with_slot s p fd t x).
Proof. intros Ht. unfold put_slot, get_table. by rewrite st_bind_unfold, Ht. Qed.

Lemma slot_lookup s p t fd : fd_ok s → tables s !! p = Some t → (fd < MAX_FILE_DESCRIPTOR)%nat → ∃ x, t !! fd = Some x.
Proof. intros Hs Ht Hfd. apply lookup_lt_is_Some_2. by rewrite (fo_length _ Hs p t Ht). Qed.

(** One slot is closed, if it is in use. *)
Definition close_slot (p fd : nat) : st (fdst F) unit :=
  o ← get_slot p fd;
  match o with None => mret tt | Some _ => ofd_close o;; put_slot p fd None end.

Lemma close_slot_run s p t fd : fd_ok s → tables s !! p = Some t → (fd < MAX_FILE_DESCRIPTOR)%nat →
  runs (close_slot p fd) s (λ _ s', fd_ok s' ∧ tables s' = <[p := <[fd := None]> t]> (tables s) ∧ tracks s s').
Proof.
  intros Hs Ht Hfd. destruct (slot_lookup s p t fd Hs Ht Hfd) as [x Hx]. unfold close_slot.
  eapply runs_step; [by eapply fd_slot_run|]. destruct x as [o|].
  - destruct (fo_slot _ Hs p t fd o Ht Hx) as [d Hd]. destruct (ofd_close_run s p t fd o d Hs Ht Hx Hd) as (s1 & E & Et & Hs1 & Htr & _).
    eapply runs_step; [exact E|]. eapply runs_intro; [apply put_slot_run; by rewrite Et|]. split; [done|]. split; [cbn; by rewrite Et|exact Htr].
  - apply runs_ret. split; [done|]. split; [|by apply same_tracks, same_kinds_refl].
    rewrite (list_insert_id t fd) by done. by rewrite insert_id.
Qed.

Lemma close_slots_run fds : ∀ s p t, fd_ok s → tables s !! p = Some t → Forall (λ fd, fd < MAX_FILE_DESCRIPTOR)%nat fds →
  runs (close_slots p fds) s (λ _ s', fd_ok s' ∧ tracks s s' ∧
    tables s' = <[p := foldl (λ t fd, <[fd := None]> t) t fds]> (tables s)).
Proof.
  induction fds as [|fd fds IH]; intros s p t Hs Ht Hall.
  { apply runs_ret. split; [done|]. split; [by apply same_tracks, same_kinds_refl|]. cbn. by rewrite insert_id. }
  apply Forall_cons in Hall as [Hfd Hall]. cbn [close_slots foldl].
  destruct (close_slot_run s p t fd Hs Ht Hfd) as ([] & s1 & E & Hs1 & Et1 & Htr1). unfold close_slot in E.
  apply st_bind_Ret in E as (o & s0 & E1 & E2). eapply runs_step; [exact E1|]. eapply runs_step; [exact E2|].
  eapply runs_mono; [apply (IH s1 p (<[fd := None]> t) Hs1); [by rewrite Et1, lookup_insert_eq|done]|].
  intros _ s2 (Hs2 & Htr2 & Et2). split; [done|]. split; [by eapply tracks_trans|]. by rewrite Et2, Et1, insert_insert_eq.
Qed.

Lemma foldl_none fds : ∀ t i, foldl (λ t fd, <[fd := None]> t) t fds !! i = if decide (i ∈ fds ∧ i < length t)%nat then Some None else (t : table) !! i.
Proof.
  induction fds as [|fd fds IH]; intros t i; cbn [foldl].
  - rewrite decide_False; [done|]. intros [H _]. by apply not_elem_of_nil in H.
  - rewrite IH, length_insert. destruct (decide (i ∈ fds ∧ i < length t)%nat) as [[H1 H2]|H].
    + rewrite decide_True; [done|]. split; [by right|done].
    + destruct (decide (i = fd)) as [->|Hne].
      * destruct (decide (fd < length t)%nat) as [Hl|Hl].
        -- rewrite list_lookup_insert_eq by done. rewrite decide_True; [done|]. split; [left|done].
        -- rewrite decide_False by tauto. rewrite list_insert_ge by lia. done.
      * rewrite list_lookup_insert_ne by done. rewrite decide_False; [done|]. rewrite elem_of_cons. tauto.
Qed.

(** All descriptors of a process are closed, and the array is freed. *)
Lemma exit_run s p t : fd_ok s → tables s !! p = Some t →
  runs (close_table p;; free_table p) s (λ _ s', fd_ok s' ∧ tracks s s' ∧ tables s' = delete p (tables s)).
Proof.
  intros Hs Ht. eapply runs_then; [apply (close_slots_run _ s p t Hs Ht)|].
  { apply Forall_forall. intros fd. rewrite elem_of_seq. lia. }
  intros _ s1 (Hs1 & Htr & Et). set (t1 := foldl _ _ _) in Et.
  assert (tables s1 !! p = Some t1) as Ht1 by (by rewrite Et, lookup_insert_eq).
  assert (∀ i x, t1 !! i ≠ Some (Some x)) as Hnone.
  { intros i x. unfold t1. rewrite foldl_none. case_decide as Hd; [done|]. intros H. apply Hd. pose proof (lookup_lt_Some _ _ _ H) as Hl.
    split; [|done]. apply elem_of_seq. rewrite (fo_length _ Hs p t Ht) in Hl. lia. }
  eapply runs_intro; [reflexivity|]. split; [|split; [exact Htr|cbn; by rewrite Et, delete_insert_eq]].
  assert (∀ o, refs (set_tables s1 (delete p (tables s1))) o = refs s1 o) as Hr.
  { intros o. unfold refs. cbn. rewrite (all_refs_delete (tables s1) p t1 o Ht1). by rewrite cnt_none. }
  destruct Hs1. constructor; try done.
  - intros o Ho. rewrite Hr. by apply fo_console0.
  - intros o d. rewrite Hr. apply fo_ofd0.
  - intros q u fd o Hu. cbn in Hu. apply lookup_delete_Some in Hu as [_ Hu]. by apply (fo_slot0 q u).
  - intros q u Hu. cbn in Hu. apply lookup_delete_Some in Hu as [_ Hu]. by eapply fo_length0.
Qed.

(** ** A new process *)

Definition empty_table : table := replicate MAX_FILE_DESCRIPTOR None.
Definition console_table : table := <[2%nat := Some 2%nat]> (<[1%nat := Some 1%nat]> (<[0%nat := Some 0%nat]> empty_table)).

#[local] Arguments empty_table : simpl never.
Lemma empty_slot i o : empty_table !! i ≠ Some (Some o).
Proof. unfold empty_table. rewrite lookup_replicate. by intros [[=] _]. Qed.

Lemma console_slot fd o : console_table !! fd = Some (Some o) → is_console o = true.
Proof.
  unfold console_table. intros [(_ & [= <-] & _)|[_ H]]%list_lookup_insert_Some; [done|].
  apply list_lookup_insert_Some in H as [(_ & [= <-] & _)|[_ H]]; [done|].
  apply list_lookup_insert_Some in H as [(_ & [= <-] & _)|[_ H]]; [done|]. by apply empty_slot in H.
Qed.

Lemma new_table_ok s p : fd_ok s → tables s !! p = None → fd_ok (set_tables s (<[p := empty_table]> (tables s))).
Proof.
  intros Hs Hp. assert (∀ o, refs (set_tables s (<[p := empty_table]> (tables s))) o = refs s o) as Hr.
  { intros o. unfold refs. cbn [tables set_tables]. rewrite all_refs_insert by done. unfold empty_table. by rewrite cnt_replicate. }
  destruct Hs. constructor; try done.
  - intros o Ho. rewrite Hr. by apply fo_console0.
  - intros o d. rewrite Hr. apply fo_ofd0.
  - intros q u fd o Hu Hi. cbn in Hu. apply lookup_insert_Some in Hu as [[<- <-]|[_ Hu]]; [|by eapply fo_slot0].
    by apply empty_slot in Hi.
  - intros q u Hu. cbn in Hu. apply lookup_insert_Some in Hu as [[<- <-]|[_ Hu]]; [done|by eapply fo_length0].
Qed.

(** A descriptor of an OFD is added. *)
Lemma dup_slot_run s p t fd o d : fd_ok s → tables s !! p = Some t → t !! fd = Some None → ofds s !! o = Some d →
  runs (x ← ofd_dup (Some o); put_slot p fd x) s (λ _ s', fd_ok s' ∧ same_kinds s s' ∧ tables s' = <[p := <[fd := Some o]> t]> (tables s)).
Proof.
  intros Hs Ht Hx Hd. eapply runs_step.
  { unfold ofd_dup, get_ofd. rewrite st_bind_unfold, Hd. cbn. unfold put_ofd. rewrite st_bind_unfold. reflexivity. }
  change (set_ofds s _) with (dupped s o d).
  eapply runs_intro; [by apply put_slot_run|]. split; [by apply dup_put|]. split; [|done]. apply (kind_put s o d (ref_count d + 1) Hd).
Qed.

Lemma console_some s o : fd_ok s → is_console o = true → ∃ d, ofds s !! o = Some d.
Proof. intros Hs Ho. destruct (fo_console _ Hs o Ho) as [c H]. by eexists. Qed.

Lemma init_slot_run s p t fd o : fd_ok s → tables s !! p = Some t → t !! fd = Some None → ofd_get_console (Z.of_nat fd) = Some o →
  runs (x ← ofd_dup (ofd_get_console (Z.of_nat fd)); put_slot p fd x) s (λ _ s', fd_ok s' ∧ same_kinds s s' ∧ tables s' = <[p := <[fd := Some o]> t]> (tables s)).
Proof.
  intros Hs Ht Hx E. rewrite E. destruct (console_some s o Hs) as [d Hd]; [|by eapply dup_slot_run].
  unfold ofd_get_console in E. unfold is_console. apply bool_decide_eq_true_2. repeat case_match; simplify_eq; auto.
Qed.

Lemma init_table_run s p : fd_ok s → tables s !! p = None →
  runs (init_table p) s (λ _ s', fd_ok s' ∧ same_kinds s s' ∧ tables s' = <[p := console_table]> (tables s)).
Proof.
  intros Hs Hp. unfold init_table. eapply runs_step; [reflexivity|]. pose proof (new_table_ok s p Hs Hp) as Hs0.
  change (replicate MAX_FILE_DESCRIPTOR None) with empty_table. set (s0 := set_tables s _) in *.
  assert (∀ s1 t fd o, fd_ok s1 → tables s1 = <[p := t]> (tables s) → t !! fd = Some None → ofd_get_console (Z.of_nat fd) = Some o →
    runs (x ← ofd_dup (ofd_get_console (Z.of_nat fd)); put_slot p fd x) s1
      (λ _ s', fd_ok s' ∧ same_kinds s1 s' ∧ tables s' = <[p := <[fd := Some o]> t]> (tables s))) as Hstep.
  { intros s1 t fd o Hs1 Et Hx Eo. eapply runs_mono; [apply (init_slot_run s1 p t fd o Hs1); [by rewrite Et, lookup_insert_eq|done|done]|].
    intros _ s2 (H1 & H2 & H3). split; [done|]. split; [done|]. by rewrite H3, Et, insert_insert_eq. }
  cbn [init_slots].
  destruct (Hstep s0 empty_table 0%nat 0%nat Hs0) as ([] & s1 & E1 & Hs1 & K1 & Et1); [done..|].
  apply st_bind_Ret in E1 as (o1 & s1' & E1a & E1b). eapply runs_step; [exact E1a|]. eapply runs_step; [exact E1b|].
  destruct (Hstep s1 _ 1%nat 1%nat Hs1 Et1) as ([] & s2 & E2 & Hs2 & K2 & Et2); [done..|].
  apply st_bind_Ret in E2 as (o2 & s2' & E2a & E2b). eapply runs_step; [exact E2a|]. eapply runs_step; [exact E2b|].
  destruct (Hstep s2 _ 2%nat 2%nat Hs2 Et2) as ([] & s3 & E3 & Hs3 & K3 & Et3); [done..|].
  apply st_bind_Ret in E3 as (o3 & s3' & E3a & E3b). eapply runs_step; [exact E3a|]. eapply runs_step; [exact E3b|].
  apply runs_ret. split; [done|]. split; [|exact Et3]. eapply same_kinds_trans; [|exact K3]. eapply same_kinds_trans; [|exact K2]. exact K1.
Qed.

(** ** [fork] *)

Definition merge_slots (tp : table) (t : table) (fds : list nat) : table :=
  foldl (λ t fd, match tp !! fd with Some (Some o) => <[fd := Some o]> t | _ => t end) t fds.

Lemma copy_slots_run fds : ∀ s parent child tp t, fd_ok s → parent ≠ child → tables s !! parent = Some tp → tables s !! child = Some t →
  NoDup fds → Forall (λ fd, fd < MAX_FILE_DESCRIPTOR)%nat fds → (∀ fd o, fd ∈ fds → t !! fd = Some (Some o) → is_console o = true) →
  runs (copy_slots parent child fds) s (λ _ s', fd_ok s' ∧ same_kinds s s' ∧ tables s' = <[child := merge_slots tp t fds]> (tables s)).
Proof.
  induction fds as [|fd fds IH]; intros s parent child tp t Hs Hne Hp Hc Hnd Hall Hcon.
  { apply runs_ret. split; [done|]. split; [done|]. cbn. by rewrite insert_id. }
  apply Forall_cons in Hall as [Hfd Hall]. apply NoDup_cons in Hnd as [Hni Hnd]. cbn [copy_slots merge_slots foldl].
  destruct (slot_lookup s parent tp fd Hs Hp Hfd) as [x Hx]. destruct (slot_lookup s child t fd Hs Hc Hfd) as [y Hy].
  assert (∀ s1 t1, fd_ok s1 → same_kinds s s1 → tables s1 = <[child := t1]> (tables s) →
    (∀ i o, i ∈ fds → t1 !! i = Some (Some o) → is_console o = true) →
    runs (copy_slots parent child fds) s1 (λ _ s', fd_ok s' ∧ same_kinds s s' ∧ tables s' = <[child := merge_slots tp t1 fds]> (tables s))) as Hrest.
  { intros s1 t1 Hs1 Hk1 Et1 Hc1. eapply runs_mono; [apply (IH s1 parent child tp t1 Hs1 Hne)|]; try done.
    - by rewrite Et1, lookup_insert_ne.
    - by rewrite Et1, lookup_insert_eq.
    - intros _ s2 (H1 & H2 & H3). split; [done|]. split; [by eapply same_kinds_trans|]. by rewrite H3, Et1, insert_insert_eq. }
  eapply runs_step; [by eapply fd_slot_run|]. rewrite Hx. destruct x as [o|].
  2:{ eapply runs_step; [reflexivity|]. apply (Hrest s t Hs (same_kinds_refl s)); [by rewrite insert_id|].
      intros i o Hi. apply Hcon. by right. }
  (* the old descriptor *)
  assert (∃ s1, ofd_close y s = Ret (tt, s1) ∧ tables s1 = tables s ∧ fd_ok (with_slot s1 child fd t None) ∧ same_kinds s s1) as (s1 & E1 & Et1 & Hs1 & Hk1).
  { destruct y as [c|].
    - destruct (fo_slot _ Hs child t fd c Hc Hy) as [d Hd]. destruct (ofd_close_run s child t fd c d Hs Hc Hy Hd) as (s1 & H1 & H2 & H3 & _ & H4).
      exists s1. split; [done|]. split; [done|]. split; [done|]. apply H4. eapply Hcon; [left|done].
    - exists s. split; [done|]. split; [done|]. split; [|done]. unfold with_slot. rewrite list_insert_id by done. rewrite insert_id by done. by destruct s. }
  set (s1' := with_slot s1 child fd t None) in *.
  assert (tables s1' !! parent = Some tp) as Hp1 by (cbn; by rewrite Et1, lookup_insert_ne).
  destruct (fo_slot _ Hs1 parent tp fd o Hp1 Hx) as [d Hd]. pose proof (lookup_lt_Some _ _ _ Hy) as Hlt.
  assert (tables s1' !! child = Some (<[fd := None]> t)) as Hc1 by (cbn; by rewrite lookup_insert_eq).
  pose proof (dup_put s1' child (<[fd := None]> t) fd o d Hs1 Hc1 ltac:(by rewrite list_lookup_insert_eq) Hd) as Hs2.
  assert (with_slot (dupped s1' o d) child fd (<[fd := None]> t) (Some o) = with_slot (dupped s1 o d) child fd t (Some o)) as Heq.
  { unfold with_slot, dupped, s1'. unfold set_tables, set_ofds. cbn. by rewrite insert_insert_eq, list_insert_insert_eq. }
  rewrite Heq in Hs2. set (s2 := with_slot (dupped s1 o d) child fd t (Some o)) in *.
  eapply runs_step.
  { rewrite (st_bind_run _ _ _ _ _ (fd_slot_run _ _ _ _ _ Hc Hy)). rewrite (st_bind_run _ _ _ _ _ E1).
    unfold ofd_dup, get_ofd. rewrite !st_bind_unfold. cbn in Hd. rewrite Hd. cbn. unfold put_ofd. 
    apply (put_slot_run (dupped s1 o d) child t fd (Some o)). cbn. by rewrite Et1. }
  apply (Hrest s2 (<[fd := Some o]> t) Hs2).
  - eapply same_kinds_trans; [exact Hk1|]. by apply (kind_put s1 o d (ref_count d + 1)).
  - cbn. by rewrite Et1.
  - intros i c Hi. rewrite list_lookup_insert_ne by (intros ->; done). apply Hcon. by right.
Qed.

Lemma merge_lookup tp fds : ∀ t i, length tp = length t →
  merge_slots tp t fds !! i = if decide (i ∈ fds) then match tp !! i with Some (Some o) => Some (Some o) | _ => t !! i end else t !! i.
Proof.
  induction fds as [|fd fds IH]; intros t i Hl; [rewrite decide_False; [done|apply not_elem_of_nil]|]. cbn [merge_slots foldl].
  fold (merge_slots tp (match tp !! fd with Some (Some o) => <[fd := Some o]> t | _ => t end) fds).
  set (t1 := match tp !! fd with Some (Some o) => <[fd := Some o]> t | _ => t end).
  assert (length tp = length t1) as Hl1 by (unfold t1; destruct (tp !! fd) as [[o|]|]; by rewrite ?length_insert).
  rewrite IH by done. destruct (decide (i = fd)) as [->|Hne].
  - rewrite (decide_True (P := fd ∈ fd :: fds)) by left. unfold t1. destruct (tp !! fd) as [[o|]|] eqn:E; try by case_decide.
    assert (fd < length t)%nat by (rewrite <- Hl; by eapply lookup_lt_Some). rewrite list_lookup_insert_eq by done. by case_decide.
  - assert (t1 !! i = t !! i) as ->. { unfold t1. destruct (tp !! fd) as [[o|]|]; [by rewrite list_lookup_insert_ne|done..]. }
    destruct (decide (i ∈ fds)) as [Hi|Hi].
    + rewrite decide_True; [done|by right].
    + rewrite decide_False; [done|]. rewrite elem_of_cons. tauto.
Qed.

Lemma merge_some tp t fds fd o : length tp = length t → merge_slots tp t fds !! fd = Some (Some o) →
  tp !! fd = Some (Some o) ∨ t !! fd = Some (Some o).
Proof. intros Hl. rewrite merge_lookup by done. case_decide; [|auto]. destruct (tp !! fd) as [[x|]|]; auto. Qed.

Definition fork_fds (parent child : nat) : st (fdst F) unit := init_table child;; copy_table parent child.

Lemma fork_run s parent child tp : fd_ok s → tables s !! parent = Some tp → tables s !! child = None →
  runs (fork_fds parent child) s (λ _ s', fd_ok s' ∧ same_kinds s s' ∧
    tables s' = <[child := merge_slots tp console_table (seq 0 MAX_FILE_DESCRIPTOR)]> (tables s)).
Proof.
  intros Hs Hp Hc. assert (parent ≠ child) by congruence. unfold fork_fds.
  eapply runs_then; [by apply init_table_run|]. intros _ s1 (Hs1 & Hk1 & Et1).
  eapply runs_mono; [apply (copy_slots_run _ s1 parent child tp console_table Hs1)|]; try done.
  - by rewrite Et1, lookup_insert_ne.
  - by rewrite Et1, lookup_insert_eq.
  - apply NoDup_seq.
  - apply Forall_forall. intros fd. rewrite elem_of_seq. lia.
  - intros fd o _. apply console_slot.
  - intros _ s2 (H1 & H2 & H3). split; [done|]. split; [by eapply same_kinds_trans|]. by rewrite H3, Et1, insert_insert_eq.
Qed.

(** ** Theorems *)

(** Descriptor [fd] of process [p] denotes file or directory [q]. *)
Definition denotes (s : fdst F) (p fd : nat) (ty : fd_type) (q : nat) : Prop :=
  ∃ t o d, tables s !! p = Some t ∧ t !! fd = Some (Some o) ∧ ofds s !! o = Some d ∧ ofd_type d = ty ∧ ofd_obj d = Some q.

Lemma under_denotes s ty q : fd_ok s → under s ty q ↔ ∃ p fd, denotes s p fd ty q.
Proof.
  intros Hs. split.
  - intros (o & d & Hd & E1 & E2). assert (is_console o = false) as Hc.
    { destruct (is_console o) eqn:Ho; [|done]. destruct (fo_console _ Hs o Ho) as [c Hc]. rewrite Hd in Hc. by injection Hc as ->. }
    destruct (fo_ofd _ Hs o d Hd Hc) as (_ & Hpos & _). destruct (all_refs_find (tables s) o) as (p & t & i & Ht & Hi); [unfold refs in Hpos; lia|].
    exists p, i, t, o, d. done.
  - intros (p & fd & t & o & d & _ & _ & Hd & H). by exists o, d.
Qed.

Lemma under_opened s ty q : fd_ok s → under s ty q → opened (fd_fs s) ty q.
Proof.
  intros Hs (o & d & Hd & E1 & E2). destruct (is_console o) eqn:Ho.
  - destruct (fo_console _ Hs o Ho) as [c Hc]. rewrite Hd in Hc. by injection Hc as ->.
  - destruct (fo_ofd _ Hs o d Hd Ho) as (_ & _ & q' & E3 & _ & H). rewrite <- E1. by assert (q' = q) as <- by congruence.
Qed.

Inductive fdop := Close (p : nat) (fd : Z) | Fork (parent child : nat) | Exit (p : nat).
Definition exec_op (o : fdop) : st (fdst F) unit :=
  match o with
  | Close p fd => sys_close p fd;; mret tt
  | Fork parent child => fork_fds parent child
  | Exit p => close_table p;; free_table p
  end.
Fixpoint exec_ops (ops : list fdop) : st (fdst F) unit :=
  match ops with [] => mret tt | o :: ops => exec_op o;; exec_ops ops end.

(** Processes are live when they act, and new when they are forked. *)
Fixpoint ops_ok (live : gset nat) (ops : list fdop) : Prop :=
  match ops with
  | [] => True
  | Close p _ :: ops => p ∈ live ∧ ops_ok live ops
  | Fork parent child :: ops => parent ∈ live ∧ child ∉ live ∧ ops_ok ({[child]} ∪ live) ops
  | Exit p :: ops => p ∈ live ∧ ops_ok (live ∖ {[p]}) ops
  end.

Lemma close_run s p t fd : fd_ok s → tables s !! p = Some t →
  runs (sys_close p fd) s (λ _ s', fd_ok s' ∧ tracks s s' ∧ dom (tables s') = dom (tables s)).
Proof.
  intros Hs Ht. unfold sys_close. destruct (is_valid_fd fd) eqn:Ev; cbn [negb].
  2:{ apply runs_ret. split; [done|]. split; [by apply same_tracks, same_kinds_refl|done]. }
  unfold is_valid_fd in Ev. apply andb_true_iff in Ev as [E1%Z.leb_le E2%Z.ltb_lt].
  destruct (close_slot_run s p t (Z.to_nat fd) Hs Ht ltac:(lia)) as ([] & s1 & E & Hs1 & Et & Htr). unfold close_slot in E.
  apply st_bind_Ret in E as (o & s0 & Ea & Eb). eapply runs_step; [exact Ea|]. eapply runs_step; [exact Eb|].
  apply runs_ret. split; [done|]. split; [done|]. rewrite Et. apply dom_insert_lookup_L. by exists t.
Qed.

Lemma exec_op_run s o ops : fd_ok s → ops_ok (dom (tables s)) (o :: ops) →
  runs (exec_op o) s (λ _ s', fd_ok s' ∧ tracks s s' ∧ ops_ok (dom (tables s')) ops).
Proof.
  intros Hs Hok. destruct o as [p fd|parent child|p]; cbn in Hok |- *.
  - destruct Hok as [[t Ht]%elem_of_dom Hok]. eapply runs_then; [by apply (close_run s p t)|].
    intros _ s1 (H1 & H2 & H3). apply runs_ret. by rewrite H3.
  - destruct Hok as ([tp Hp]%elem_of_dom & Hc%not_elem_of_dom & Hok).
    eapply runs_mono; [by apply (fork_run s parent child tp)|]. intros _ s1 (H1 & H2 & H3). split; [done|].
    split; [by apply same_tracks|]. by rewrite H3, dom_insert_L.
  - destruct Hok as [[t Ht]%elem_of_dom Hok]. eapply runs_mono; [by apply (exit_run s p t)|].
    intros _ s1 (H1 & H2 & H3). split; [done|]. split; [done|]. by rewrite H3, dom_delete_L.
Qed.

Lemma exec_ops_run ops : ∀ s, fd_ok s → ops_ok (dom (tables s)) ops → runs (exec_ops ops) s (λ _ s', fd_ok s' ∧ tracks s s').
Proof.
  induction ops as [|o ops IH]; intros s Hs Hok; [apply runs_ret; split; [done|by apply same_tracks, same_kinds_refl]|].
  cbn [exec_ops]. eapply runs_then; [by apply (exec_op_run s o ops)|]. intros _ s1 (H1 & H2 & H3).
  eapply runs_mono; [by apply IH|]. intros _ s2 [H4 H5]. split; [done|by eapply tracks_trans].
Qed.

(** C16. A file is open exactly as long as a descriptor denotes it.  Along every sequence of
    closes, forks and exits of processes, all of which return, the count of each open file
    description is the number of descriptors that refer to it in all processes; a file or
    directory that had a descriptor is open in the end if and only if it still has one, in
    whatever process, and files without descriptors are left alone. *)
Theorem descriptors_keep_files_open (s : fdst F) (ops : list fdop) (Hs : fd_ok s) (Hops : ops_ok (dom (tables s)) ops) :
  ∃ s', exec_ops ops s = Ret (tt, s') ∧
    (∀ o d, ofds s' !! o = Some d → ref_count d = Z.of_nat (all_refs (tables s') o) + if is_console o then 1 else 0) ∧
    (∀ ty q, (∃ p fd, denotes s p fd ty q) → opened (fd_fs s') ty q ↔ ∃ p fd, denotes s' p fd ty q) ∧
    (∀ ty q, ¬ (∃ p fd, denotes s p fd ty q) → opened (fd_fs s') ty q ↔ opened (fd_fs s) ty q).
Proof.
  destruct (exec_ops_run ops s Hs Hops) as ([] & s' & E & Hs' & Hu & Ho). exists s'. split; [exact E|].
  split; [intros o d; by apply ofd_count|]. split; intros ty q Hd.
  - rewrite <- under_denotes by done. split; [|by apply under_opened]. intros H%Ho. apply under_denotes in Hd; [|done].
    destruct H as [_ H]. assert (¬ ¬ under s' ty q) as Hnn by tauto.
    destruct (decide (map_Exists (λ _ d, ofd_type d = ty ∧ ofd_obj d = Some q) (ofds s'))) as [Hx|Hx].
    + destruct Hx as (o & d & H1 & H2). by exists o, d.
    + exfalso. apply Hnn. intros (o & d & H1 & H2). apply Hx. by exists o, d.
  - rewrite <- under_denotes in Hd by done. rewrite Ho. tauto.
Qed.

(** A forked process shares its parent's files.  When the arrays of descriptors are set up
    by [fork] each descriptor of the child denotes the file or directory that the same
    descriptor of the parent denotes, through the same open file description; no descriptor of
    another process changes, and no file is opened or closed. *)
Theorem fork_shares_files (s : fdst F) (parent child : nat) (tp : table) (Hs : fd_ok s)
    (Hp : tables s !! parent = Some tp) (Hc : tables s !! child = None) :
  ∃ s', fork_fds parent child s = Ret (tt, s') ∧ fd_ok s' ∧ fd_fs s' = fd_fs s ∧
    (∀ fd ty q, denotes s' child fd ty q ↔ denotes s parent fd ty q) ∧
    (∀ fd o, tp !! fd = Some (Some o) → ∃ tc, tables s' !! child = Some tc ∧ tc !! fd = Some (Some o)) ∧
    (∀ p fd ty q, p ≠ child → denotes s' p fd ty q ↔ denotes s p fd ty q).
Proof.
  destruct (fork_run s parent child tp Hs Hp Hc) as ([] & s' & E & Hs' & Hk & Et). exists s'.
  split; [exact E|]. split; [done|]. split; [apply Hk|].
  set (tc := merge_slots tp console_table (seq 0 MAX_FILE_DESCRIPTOR)) in Et.
  assert (length tp = length console_table) as Hl by (by rewrite (fo_length _ Hs _ _ Hp)).
  assert (∀ fd o, tp !! fd = Some (Some o) → tc !! fd = Some (Some o)) as Hshare.
  { intros fd o H. unfold tc. rewrite merge_lookup by done. rewrite decide_True, H; [done|].
    apply elem_of_seq. apply lookup_lt_Some in H. rewrite (fo_length _ Hs _ _ Hp) in H. lia. }
  assert (∀ o d ty q, ofds s !! o = Some d → ofd_type d = ty → ofd_obj d = Some q → ∃ d', ofds s' !! o = Some d' ∧ ofd_type d' = ty ∧ ofd_obj d' = Some q) as Hf.
  { intros o d ty q Hd E1 E2. pose proof (proj2 Hk o) as H. rewrite Hd in H. destruct (ofds s' !! o) as [d'|]; [|done].
    injection H as E3 _ E4. exists d'. split; [done|]. split; congruence. }
  assert (∀ o d ty q, ofds s' !! o = Some d → ofd_type d = ty → ofd_obj d = Some q → ∃ d', ofds s !! o = Some d' ∧ ofd_type d' = ty ∧ ofd_obj d' = Some q) as Hb.
  { intros o d ty q Hd E1 E2. pose proof (proj2 Hk o) as H. rewrite Hd in H. destruct (ofds s !! o) as [d'|]; [|done].
    injection H as E3 _ E4. exists d'. split; [done|]. split; congruence. }
  split; [|split].
  - intros fd ty q. split; intros (t & o & d & Ht & Ho & Hd & E1 & E2).
    + rewrite Et, lookup_insert_eq in Ht. injection Ht as <-. destruct (Hb o d ty q Hd E1 E2) as (d' & Hd' & E3 & E4).
      exists tp, o, d'. split; [done|]. split; [|done].
      apply merge_some in Ho as [Ho|Ho%console_slot]; [done| |done].
      destruct (fo_console _ Hs' o Ho) as [c Hcc]. rewrite Hd in Hcc. by injection Hcc as ->.
    + destruct (Hf o d ty q Hd E1 E2) as (d' & Hd' & E3 & E4). exists tc, o, d'. rewrite Et, lookup_insert_eq.
      assert (t = tp) as -> by congruence. split; [done|]. split; [by apply Hshare|done].
  - intros fd o H. exists tc. rewrite Et, lookup_insert_eq. split; [done|]. by apply Hshare.
  - intros p fd ty q Hne. split; intros (t & o & d & Ht & Ho & Hd & E1 & E2).
    + destruct (Hb o d ty q Hd E1 E2) as (d' & ? & ? & ?). exists t, o, d'. rewrite Et, lookup_insert_ne in Ht by done. done.
    + destruct (Hf o d ty q Hd E1 E2) as (d' & ? & ? & ?). exists t, o, d'. rewrite Et, lookup_insert_ne by done. done.
Qed.
End proofs.

(** ** The files of the kernel *)

Section kernel.
Context {St : Type} `{!Store St}.
Import Inode.

(** How many open files and directories are on inode [q]. *)
Definition on_inode (k : kst St) (q : nat) : Z :=
  Z.of_nat (size (filter (λ x : nat * file, f_inode x.2 = q) (files k)) + size (filter (λ x : nat * dir, d_inode x.2 = q) (dirs k))).

(** Each has its inode open, and none of these inodes is removed. *)
Definition kernel_fs_ok (k : kst St) : Prop := ∀ q, 0 < on_inode k q →
  ∃ i, heap (inodes k) !! q = Some i ∧ removed i = false ∧ on_inode k q ≤ open_cnt i.

Definition kernel_opened (k : kst St) (ty : fd_type) (p : nat) : Prop :=
  match ty with
  | FD_FILE => ∃ f, files k !! p = Some f ∧ f_ref_count f = 1 ∧ f_deny_write f = false
  | FD_DIR => is_Some (dirs k !! p)
  | _ => False
  end.

(** Closing an inode that [n] files and directories are on. *)
Lemma inode_close_run (w : Inode.ist (St:=St)) q i n : heap w !! q = Some i → removed i = false → 1 ≤ n ≤ open_cnt i →
  ∃ w', inode_close (Some q) w = Ret w' ∧ (∀ x, x ≠ q → heap w' !! x = heap w !! x) ∧
    (1 < n → ∃ i', heap w' !! q = Some i' ∧ removed i' = false ∧ n - 1 ≤ open_cnt i').
Proof.
  intros Hq Hrm Hn. unfold inode_close, get_inode. rewrite Hq, Ret_bind. cbn [open_cnt set_open_cnt removed].
  rewrite Hrm. cbn [andb]. rewrite Ret_bind. destruct (Z.eqb_spec (open_cnt i - 1) 0) as [E|E].
  - eexists. split; [reflexivity|]. cbn. split; [intros x Hx; by rewrite lookup_delete_ne|]. lia.
  - eexists. split; [reflexivity|]. cbn. split; [intros x Hx; by rewrite lookup_insert_ne|]. intros _.
    eexists. rewrite lookup_insert_eq. split; [done|]. cbn. split; [done|lia].
Qed.

(** One object on an inode is closed. *)
Lemma on_inode_count {X} (m : gmap nat X) (g : X → nat) p x q : m !! p = Some x →
  size (filter (λ y : nat * X, g y.2 = q) m) = (size (filter (λ y : nat * X, g y.2 = q) (delete p m)) + (if decide (g x = q) then 1 else 0))%nat.
Proof.
  intros Hp. rewrite map_filter_delete, map_size_delete. set (m' := filter _ m). destruct (decide (g x = q)) as [Hg|Hg].
  - assert (m' !! p = Some x) as Hx by (by apply map_lookup_filter_Some). rewrite Hx.
    assert (size m' ≠ 0%nat); [|cbn match; lia]. intros E%map_size_empty_iff. by rewrite E in Hx.
  - assert (m' !! p = None) as ->; [|cbn; unfold id; lia]. apply map_lookup_filter_None. right. intros y Hy. cbn. congruence.
Qed.

Lemma kernel_fs_less (k : kst St) w' q fs' ds' : kernel_fs_ok k → (∀ x, x ≠ q → heap w' !! x = heap (inodes k) !! x) →
  (1 < on_inode k q → ∃ i', heap w' !! q = Some i' ∧ removed i' = false ∧ on_inode k q - 1 ≤ open_cnt i') →
  let k' := mk_kst _ w' fs' ds' (next_obj k) (mallocs k) (cwd k) in
  (∀ x, on_inode k x = on_inode k' x + (if decide (x = q) then 1 else 0)) → kernel_fs_ok k'.
Proof.
  intros Hk Hh Hq k' Hc x Hx. specialize (Hc x). case_decide as Hd.
  - subst x. destruct Hq as (i & H1 & H2 & H3); [lia|]. exists i. split; [done|]. split; [done|]. lia.
  - destruct (Hk x) as (i & H1 & H2 & H3); [lia|]. exists i. split; [|split; [done|lia]]. cbn. by rewrite Hh.
Qed.

Lemma kernel_close_file (k : kst St) p : kernel_fs_ok k → kernel_opened k FD_FILE p →
  ∃ k', File.file_close (Some p) k = Ret (tt, k') ∧ kernel_fs_ok k' ∧ files k' = delete p (files k) ∧ dirs k' = dirs k.
Proof.
  intros Hk (f & Hf & Hr & Hd). pose proof (on_inode_count (files k) f_inode p f (f_inode f) Hf) as Hc. rewrite decide_True in Hc by done.
  destruct (Hk (f_inode f)) as (i & Hi & Hrm & Hle); [unfold on_inode; lia|].
  destruct (inode_close_run (inodes k) (f_inode f) i (on_inode k (f_inode f)) Hi Hrm) as (w' & E & H1 & H2); [unfold on_inode in *; lia|].
  exists (mk_kst _ w' (delete p (files k)) (dirs k) (next_obj k) (mallocs k) (cwd k)). split; [|split; [|done]].
  - set (f0 := mk_file (f_inode f) (f_pos f) (f_deny_write f) 0). unfold File.file_close.
    rewrite (K_run _ _ k f k) by (unfold File.get_file; by rewrite Hf). rewrite Hr. cbn [f_ref_count].
    change (1 - 1) with 0. change (0 =? 0) with true. cbv iota. fold f0.
    rewrite (K_run _ _ k tt (with_files k (<[p := f0]> (files k)))) by done.
    rewrite (K_run (File.file_allow_write p) _ _ tt (with_files k (<[p := f0]> (files k)))).
    2:{ unfold File.file_allow_write. rewrite (K_run _ _ _ f0 (with_files k (<[p := f0]> (files k)))); [by cbn; rewrite Hd|].
        unfold File.get_file. cbn. by rewrite lookup_insert_eq. }
    cbn [f_inode f0]. rewrite (K_run _ _ _ tt (with_inodes (with_files k (<[p := f0]> (files k))) w')) by (unfold inodesK'; cbn [inodes with_files]; by rewrite E).
    unfold File.free_file. cbn. by rewrite delete_insert_eq.
  - apply (kernel_fs_less k w' (f_inode f) (delete p (files k)) (dirs k) Hk H1 H2). intros x. unfold on_inode. cbn.
    pose proof (on_inode_count (files k) f_inode p f x Hf). repeat case_decide; subst; try done; lia.
Qed.

Lemma kernel_close_dir (k : kst St) p : kernel_fs_ok k → kernel_opened k FD_DIR p →
  ∃ k', Directory.dir_close (Some p) k = Ret (tt, k') ∧ kernel_fs_ok k' ∧ files k' = files k ∧ dirs k' = delete p (dirs k).
Proof.
  intros Hk [d Hf]. pose proof (on_inode_count (dirs k) d_inode p d (d_inode d) Hf) as Hc. rewrite decide_True in Hc by done.
  destruct (Hk (d_inode d)) as (i & Hi & Hrm & Hle); [unfold on_inode; lia|].
  destruct (inode_close_run (inodes k) (d_inode d) i (on_inode k (d_inode d)) Hi Hrm) as (w' & E & H1 & H2); [unfold on_inode in *; lia|].
  exists (mk_kst _ w' (files k) (delete p (dirs k)) (next_obj k) (mallocs k) (cwd k)). split; [|split; [|done]].
  - unfold Directory.dir_close. rewrite (K_run _ _ k d k) by (unfold Directory.get_dir; by rewrite Hf).
    rewrite (K_run _ _ _ tt (with_inodes k w')) by (unfold inodesK'; by rewrite E). done.
  - apply (kernel_fs_less k w' (d_inode d) (files k) (delete p (dirs k)) Hk H1 H2). intros x. unfold on_inode. cbn.
    pose proof (on_inode_count (dirs k) d_inode p d x Hf). repeat case_decide; subst; try done; lia.
Qed.

Lemma kernel_close_spec (k : kst St) ty p : kernel_fs_ok k → kernel_opened k ty p → ty = FD_FILE ∨ ty = FD_DIR →
  ∃ k', close_obj ty p k = Ret (tt, k') ∧ kernel_fs_ok k' ∧
    ∀ ty' q, kernel_opened k' ty' q ↔ kernel_opened k ty' q ∧ (ty', q) ≠ (ty, p).
Proof.
  intros Hk Ho [->| ->].
  - destruct (kernel_close_file k p Hk Ho) as (k' & E & Hk' & Ef & Ed). exists k'. split; [exact E|]. split; [done|].
    intros [] q; cbn; rewrite ?Ef, ?Ed; try naive_solver. destruct (decide (q = p)) as [->|].
    + rewrite lookup_delete_eq. naive_solver.
    + rewrite lookup_delete_ne by done. naive_solver.
  - destruct (kernel_close_dir k p Hk Ho) as (k' & E & Hk' & Ef & Ed). exists k'. split; [exact E|]. split; [done|].
    intros [] q; cbn; rewrite ?Ef, ?Ed; try naive_solver. destruct (decide (q = p)) as [->|].
    + rewrite lookup_delete_eq. split; [by intros []|naive_solver].
    + rewrite lookup_delete_ne by done. naive_solver.
Qed.

#[global] Instance kernel_fd_laws : FdLaws (kst St) := {|
  fd_fs_ok := kernel_fs_ok; opened := kernel_opened; close_spec := kernel_close_spec |}.
End kernel.
End FiledescProofs.
