(* ===== verification/VmState.v ===== *)
(** * Virtual memory: state

    The structures of [vm/frame.h], [vm/page.h] and [vm/mmap.h], and of [struct process] the
    fields virtual memory uses.  A thread, a process and a frame entry are named by their
    addresses; a thread whose page was freed is not in [threads], so that following a
    dangling [owner] is undefined.  A supplemental page table is the finite map from page
    addresses to entries that its hash table is ([HashProofs]); an [spt_entry *] is the pair
    of the process and the page address.  Locks have no effect on one thread. *)

From stdpp Require Import base tactics numbers list option gmap.
From S2P Require Import Prelude State Palloc Pagedir Swap FileOps.

Open Scope Z_scope.

Inductive page_status := PAGE_ZERO | PAGE_FRAME | PAGE_SWAP | PAGE_FILE | PAGE_COW.
#[global] Instance page_status_eq_dec : EqDecision page_status.
Proof. solve_decision. Defined.

Record spt_entry := mk_spte {
  upage : Z; status : page_status; writable : bool; kpage : Z; swap_slot : Z;
  file : option nat; file_offset : Z; read_bytes : Z; zero_bytes : Z;
  is_mmap : bool; pinned_dirty : bool }.

Record frame_entry := mk_fe {
  fe_kpage : Z; fe_upage : Z; fe_owner : nat; fe_ref_count : Z; fe_pinned : bool }.

Record mmap_region := mk_region {
  start_addr : Z; rg_length : Z; page_count : Z; rg_file : option nat; offset : Z; flags : Z;
  is_anonymous : bool; inode_sector : Z; rg_writable : bool }.

(** [fd_file fd]: the file of descriptor [fd], when it is open on one. *)
Record process := mk_process {
  pagedir : Z; spt : gmap Z spt_entry; mmap_list : list mmap_region; fd_file : gmap Z nat }.

Record vm {F : Type} := mk_vm {
  machine : mach;
  swap_space : Swap.swap;
  frame_list : list nat; frames : gmap nat frame_entry; next_frame : nat;
  clock_hand : option nat;
  threads : gmap nat (option nat);  (** the [pcb] of each live thread *)
  procs : gmap nat process;
  cur : nat;                        (** [thread_current ()] *)
  fs : F;
  vmallocs : list bool }.           (** what [malloc] answers next; after that it succeeds *)
Arguments vm : clear implicits.

(** ** Updates *)

Definition set_status (e : spt_entry) (x : page_status) : spt_entry :=
  mk_spte (upage e) x (writable e) (kpage e) (swap_slot e) (file e) (file_offset e) (read_bytes e) (zero_bytes e) (is_mmap e) (pinned_dirty e).
Definition set_kpage (e : spt_entry) (x : Z) : spt_entry :=
  mk_spte (upage e) (status e) (writable e) x (swap_slot e) (file e) (file_offset e) (read_bytes e) (zero_bytes e) (is_mmap e) (pinned_dirty e).
Definition set_slot (e : spt_entry) (x : Z) : spt_entry :=
  mk_spte (upage e) (status e) (writable e) (kpage e) x (file e) (file_offset e) (read_bytes e) (zero_bytes e) (is_mmap e) (pinned_dirty e).
Definition set_is_mmap (e : spt_entry) (x : bool) : spt_entry :=
  mk_spte (upage e) (status e) (writable e) (kpage e) (swap_slot e) (file e) (file_offset e) (read_bytes e) (zero_bytes e) x (pinned_dirty e).
Definition set_pinned_dirty (e : spt_entry) (x : bool) : spt_entry :=
  mk_spte (upage e) (status e) (writable e) (kpage e) (swap_slot e) (file e) (file_offset e) (read_bytes e) (zero_bytes e) (is_mmap e) x.
Definition set_pinned (f : frame_entry) (x : bool) : frame_entry :=
  mk_fe (fe_kpage f) (fe_upage f) (fe_owner f) (fe_ref_count f) x.
Definition set_ref_count (f : frame_entry) (x : Z) : frame_entry :=
  mk_fe (fe_kpage f) (fe_upage f) (fe_owner f) x (fe_pinned f).
Definition set_spt (r : process) (x : gmap Z spt_entry) : process := mk_process (pagedir r) x (mmap_list r) (fd_file r).
Definition set_pagedir (r : process) (x : Z) : process := mk_process x (spt r) (mmap_list r) (fd_file r).
Definition set_mmaps (r : process) (x : list mmap_region) : process := mk_process (pagedir r) (spt r) x (fd_file r).

Section state.
Context {F : Type} `{!FileOps F}.

Abbreviation V := (st (vm F)).

Definition set_machine (s : vm F) (x : mach) : vm F :=
  mk_vm _ x (swap_space s) (frame_list s) (frames s) (next_frame s) (clock_hand s) (threads s) (procs s) (cur s) (fs s) (vmallocs s).
Definition set_swap (s : vm F) (x : Swap.swap) : vm F :=
  mk_vm _ (machine s) x (frame_list s) (frames s) (next_frame s) (clock_hand s) (threads s) (procs s) (cur s) (fs s) (vmallocs s).
Definition set_frames (s : vm F) (l : list nat) (m : gmap nat frame_entry) : vm F :=
  mk_vm _ (machine s) (swap_space s) l m (next_frame s) (clock_hand s) (threads s) (procs s) (cur s) (fs s) (vmallocs s).
Definition set_hand (s : vm F) (x : option nat) : vm F :=
  mk_vm _ (machine s) (swap_space s) (frame_list s) (frames s) (next_frame s) x (threads s) (procs s) (cur s) (fs s) (vmallocs s).
Definition set_procs (s : vm F) (x : gmap nat process) : vm F :=
  mk_vm _ (machine s) (swap_space s) (frame_list s) (frames s) (next_frame s) (clock_hand s) (threads s) x (cur s) (fs s) (vmallocs s).
Definition set_fs (s : vm F) (x : F) : vm F :=
  mk_vm _ (machine s) (swap_space s) (frame_list s) (frames s) (next_frame s) (clock_hand s) (threads s) (procs s) (cur s) x (vmallocs s).
Definition set_mallocs (s : vm F) (x : list bool) : vm F :=
  mk_vm _ (machine s) (swap_space s) (frame_list s) (frames s) (next_frame s) (clock_hand s) (threads s) (procs s) (cur s) (fs s) x.

(** Running code of the components below. *)
Definition machM {A} (f : st mach A) : V A := λ s, '(a, m) ← f (machine s); Ret (a, set_machine s m).
Definition fsM {A} (f : st F A) : V A := λ s, '(a, x) ← f (fs s); Ret (a, set_fs s x).
Definition malloc_ok : V bool := λ s,
  match vmallocs s with [] => Ret (true, s) | b :: l => Ret (b, set_mallocs s l) end.

(** ** Memory *)

Definition memory (s : vm F) : Z → Z := Pagedir.ram (machine s).
Definition set_memory (s : vm F) (m : Z → Z) : vm F := set_machine s (Pagedir.with_ram (machine s) m).
Definition peek (a : Z) : V Z := λ s, Ret (memory s a, s).
Definition load (a n : Z) : V (list Z) := λ s, Ret (Swap.load_bytes (memory s) a (Z.to_nat n), s).
Definition store (a : Z) (l : list Z) : V unit := λ s, Ret (tt, set_memory s (Swap.store_bytes (memory s) a l)).
Definition fill (a v n : Z) : V unit := λ s, Ret (tt, set_memory s (Palloc.memset (memory s) a v n)).

(** ** Swap *)

Definition put_swap (x : Swap.swap) : V unit := λ s, Ret (tt, set_swap s x).
Definition swap_out (a : Z) : V Z := λ s,
  '(slot, x) ← Swap.swap_out (swap_space s) (memory s) a; Ret (slot, set_swap s x).
Definition swap_in (slot a : Z) : V unit := λ s,
  '(x, m) ← Swap.swap_in (swap_space s) (memory s) slot a; Ret (tt, set_memory (set_swap s x) m).
Definition swap_free (slot : Z) : V unit := λ s,
  x ← Swap.swap_free (swap_space s) slot; Ret (tt, set_swap s x).

(** ** Threads and processes *)

(** [t->pcb] *)
Definition pcb_of (t : nat) : V (option nat) := λ s,
  match threads s !! t with Some p => Ret (p, s) | None => UB end.
Definition current : V nat := λ s, Ret (cur s, s).
Definition put_current (t : nat) : V unit := λ s,
  Ret (tt, mk_vm _ (machine s) (swap_space s) (frame_list s) (frames s) (next_frame s) (clock_hand s)
    (threads s) (procs s) t (fs s) (vmallocs s)).
Definition get_proc (p : nat) : V process := λ s,
  match procs s !! p with Some r => Ret (r, s) | None => UB end.
Definition put_proc (p : nat) (r : process) : V unit := λ s, Ret (tt, set_procs s (<[p := r]> (procs s))).

(** ** Entries of the supplemental page table *)

(** [*e], for the entry of page [va] of process [p]. *)
Definition spte (p : nat) (va : Z) : V spt_entry :=
  r ← get_proc p; lift (match spt r !! va with Some e => Ret e | None => UB end).
Definition put_spte (p : nat) (va : Z) (e : spt_entry) : V unit :=
  r ← get_proc p; put_proc p (set_spt r (<[va := e]> (spt r))).

(** [spt_find]: the key of the entry it returns. *)
Definition spt_find (p : nat) (va : Z) : V (option Z) :=
  r ← get_proc p;
  let key := Palloc.pg_round_down va in
  mret (if decide (is_Some (spt r !! key)) then Some key else None).

(** ** The frame list *)

Definition frame (f : nat) : V frame_entry := λ s,
  match frames s !! f with Some e => Ret (e, s) | None => UB end.
Definition put_frame (f : nat) (e : frame_entry) : V unit := λ s,
  Ret (tt, set_frames s (frame_list s) (<[f := e]> (frames s))).
Definition get_hand : V (option nat) := λ s, Ret (clock_hand s, s).
Definition put_hand (h : option nat) : V unit := λ s, Ret (tt, set_hand s h).
Definition get_list : V (list nat) := λ s, Ret (frame_list s, s).
(** A new entry at the end of the list. *)
Definition push_frame (e : frame_entry) : V unit := λ s,
  let f := next_frame s in
  Ret (tt, mk_vm _ (machine s) (swap_space s) (frame_list s ++ [f]) (<[f := e]> (frames s)) (S f)
    (clock_hand s) (threads s) (procs s) (cur s) (fs s) (vmallocs s)).
(** [list_remove] and [free]. *)
Definition drop_frame (f : nat) : V unit := λ s,
  Ret (tt, set_frames s (list_difference (frame_list s) [f]) (delete f (frames s))).
End state.
