(* ===== verification/Frame.v ===== *)
(** * The frame table: [vm/frame.c]

    Allocation of user pages with eviction by the clock algorithm.  [clock_hand] points into
    the list of frames.  [frame_alloc] takes a page of the user pool or evicts one;
    [frame_evict] looks at every frame at most twice. *)

From stdpp Require Import base tactics numbers list option gmap.
From S2P Require Import Prelude State Palloc Pagedir Swap FileOps VmState.

Open Scope Z_scope.

Module Frame.
Import Palloc Pagedir Swap VmState.

Section frame.
Context {F : Type} `{!FileOps F}.
Context (init_page_dir init_ram_pages : Z).
Abbreviation V := (st (vm F)).

(** [list_next], undefined on an element that is not in the list. *)
Fixpoint next_of (l : list nat) (e : nat) : outcome (option nat) :=
  match l with
  | [] => UB
  | f :: l => if decide (f = e) then Ret (head l) else next_of l e
  end.

Definition clock_advance (e : nat) : V (option nat) :=
  l ← get_list;
  match l with
  | [] => mret None
  | first :: _ => n ← lift (next_of l e); mret (Some (default first n))
  end.

Fixpoint find_loop (l : list nat) (page : Z) : V (option nat) :=
  match l with
  | [] => mret None
  | f :: l => fe ← frame f; if fe_kpage fe =? page then mret (Some f) else find_loop l page
  end.
Definition frame_find_entry (page : Z) : V (option nat) := l ← get_list; find_loop l page.

Definition frame_init : V unit := λ s, Ret (tt, set_hand (set_frames s [] ∅) None).

(** ** Eviction *)

(** The hand moves past a frame that leaves the list. *)
Definition leave (e : nat) : V unit :=
  n ← clock_advance e;
  put_hand (if decide (n = Some e) then None else n);;
  drop_frame e.

(** The owner's process, if it and its page directory still exist. *)
Definition live_owner (fe : frame_entry) : V (option (nat * Z)) :=
  p ← pcb_of (fe_owner fe);
  match p with
  | None => mret None
  | Some p => r ← get_proc p; mret (if pagedir r =? 0 then None else Some (p, pagedir r))
  end.

(** Where the bytes of a dirty page go.  False when neither its file nor swap takes them: the
    page is mapped again. *)
Definition swap_away (p : nat) (pd va page : Z) (e : option spt_entry) : V bool :=
  slot ← swap_out page;
  if slot =? SWAP_SLOT_INVALID then
    machM (pagedir_set_page init_page_dir init_ram_pages pd va page (match e with Some e => writable e | None => true end));;
    mret false
  else
    match e with
    | Some e => put_spte p (pg_round_down va) (set_pinned_dirty (set_kpage (set_slot (set_status e PAGE_SWAP) slot) 0) true)
    | None => mret tt
    end;;
    mret true.

Definition write_back (p : nat) (pd va page : Z) (e : option spt_entry) : V bool :=
  match e with
  | Some e' =>
      match file e' with
      | Some f =>
          if writable e' && is_mmap e' then
            b ← load page (read_bytes e');
            written ← fsM (file_write_at f b (read_bytes e') (file_offset e'));
            if written =? s32 (read_bytes e') then
              put_spte p (pg_round_down va) (set_kpage (set_status e' PAGE_FILE) 0);; mret true
            else swap_away p pd va page e
          else swap_away p pd va page e
      | None => swap_away p pd va page e
      end
  | None => swap_away p pd va page e
  end.

(** A clean page will be read from its file, or zeroed, again. *)
Definition drop_clean (p : nat) (va : Z) (e : option spt_entry) : V unit :=
  match e with
  | Some e => put_spte p (pg_round_down va) (set_kpage (set_status e (if file e then PAGE_FILE else PAGE_ZERO)) 0)
  | None => mret tt
  end.

Definition find_entry (p : nat) (va : Z) : V (option spt_entry) :=
  k ← spt_find p va;
  match k with Some k => e ← spte p k; mret (Some e) | None => mret None end.

(** Page [va] of the process is unmapped and its bytes put away. *)
Definition evict_page (p : nat) (pd va page : Z) : V bool :=
  e ← find_entry p va;
  machM (pagedir_clear_page init_page_dir pd va);;
  orig_pd ← machM active_pd;
  machM (pagedir_activate init_page_dir pd);;
  machM (pagedir_activate init_page_dir orig_pd);;
  dirty ← machM (pagedir_is_dirty pd va);
  let dirty := dirty || match e with Some e => pinned_dirty e || writable e | None => false end in
  if dirty then write_back p pd va page e else drop_clean p va e;; mret true.

Definition unwrap (e : option nat) : V nat := lift (match e with Some e => Ret e | None => UB end).

(** The loop, with [n] iterations left; 0 is the null pointer. *)
Fixpoint evict_loop (n : nat) (start e : nat) : V Z :=
  match n with
  | O => mret 0
  | S n =>
      fe ← frame e;
      if fe_pinned fe then e ← clock_advance e; e ← unwrap e; evict_loop n start e
      else if 1 <? fe_ref_count fe then e ← clock_advance e; e ← unwrap e; evict_loop n start e
      else
      o ← live_owner fe;
      match o with
      | None => leave e;; mret (fe_kpage fe)
      | Some (p, pd) =>
          accessed ← machM (pagedir_is_accessed pd (fe_upage fe));
          if accessed : bool then
            machM (pagedir_set_accessed init_page_dir pd (fe_upage fe) false);;
            e ← clock_advance e; e ← unwrap e; evict_loop n start e
          else
            gone ← evict_page p pd (fe_upage fe) (fe_kpage fe);
            if gone : bool then leave e;; mret (fe_kpage fe)
            else
              e ← clock_advance e; e ← unwrap e;
              if decide (e = start) then mret 0 else evict_loop n start e
      end
  end.

Definition frame_evict : V Z :=
  l ← get_list;
  match l with
  | [] => mret 0
  | first :: _ =>
      h ← get_hand;
      match h with None => put_hand (Some first) | Some _ => mret tt end;;
      let start := default first h in
      evict_loop (2 * length l) start start
  end.

(** ** Allocation *)

Definition frame_alloc (va : Z) : V Z :=
  ok ← malloc_ok;
  if negb ok then mret 0 else
  page ← machM (palM (λ s, palloc_get_page s (Z.lor PAL_USER PAL_ZERO)));
  page ← (if page =? 0 then
            page ← frame_evict;
            when (negb (page =? 0)) (fill page 0 PGSIZE);;
            mret page
          else mret page);
  if page =? 0 then mret 0 else
  t ← current;
  push_frame (mk_fe page va t 1 true);;
  mret page.

Definition frame_register (page va : Z) (owner : nat) : V bool :=
  if page =? 0 then mret false else
  ok ← malloc_ok;
  if negb ok then mret false else
  existing ← frame_find_entry page;
  match existing with
  | Some _ => mret false
  | None => push_frame (mk_fe page va owner 1 true);; mret true
  end.

Definition on_frame (page : Z) (g : frame_entry → frame_entry) : V bool :=
  f ← frame_find_entry page;
  match f with
  | Some f => fe ← frame f; put_frame f (g fe);; mret true
  | None => mret false
  end.

Definition frame_share (page : Z) : V unit :=
  if page =? 0 then mret tt else on_frame page (λ fe, set_ref_count fe (fe_ref_count fe + 1));; mret tt.

Definition frame_free (page : Z) : V unit :=
  if page =? 0 then mret tt else
  f ← frame_find_entry page;
  match f with
  | None => mret tt
  | Some f =>
      fe ← frame f;
      put_frame f (set_ref_count fe (fe_ref_count fe - 1));;
      if 0 <? fe_ref_count fe - 1 then mret tt else
      h ← get_hand;
      (if decide (h = Some f) then n ← clock_advance f; put_hand n else mret tt);;
      h ← get_hand;
      (if decide (h = Some f) then put_hand None else mret tt);;
      drop_frame f;;
      machM (free_page page)
  end.

Definition frame_pin (page : Z) : V unit := on_frame page (λ fe, set_pinned fe true);; mret tt.
Definition frame_pin_if_present (page : Z) : V bool :=
  if page =? 0 then mret false else on_frame page (λ fe, set_pinned fe true).
Definition frame_unpin (page : Z) : V unit := on_frame page (λ fe, set_pinned fe false);; mret tt.
End frame.
End Frame.
