(* ===== verification/Page.v ===== *)
(** * The supplemental page table: [vm/page.c]

    Loading of pages on demand, the entries that describe pages not yet loaded, and the copy
    of an address space at a fork.  [spt_destroy] and [spt_clone] visit the entries in the
    order of the hash table's buckets, which is an argument. *)

From stdpp Require Import base tactics numbers list option gmap.
From S2P Require Import Prelude State Palloc Malloc Pagedir Swap FileOps VmState Frame.

Open Scope Z_scope.

Module Page.
Import Palloc Pagedir Swap VmState Frame.

Section page.
Context {F : Type} `{!FileOps F}.
Context (init_page_dir init_ram_pages : Z).
Abbreviation V := (st (vm F)).
Abbreviation frame_alloc := (frame_alloc init_page_dir init_ram_pages).

Definition spt_init (p : nat) : V unit := r ← get_proc p; put_proc p (set_spt r ∅).

(** What an entry holds is released with it; the file of a page is closed elsewhere. *)
Definition release (e : spt_entry) : V unit :=
  match status e with
  | PAGE_FRAME => frame_free (kpage e)
  | PAGE_SWAP => swap_free (swap_slot e)
  | _ => mret tt
  end.

Fixpoint destroy_entries (p : nat) (keys : list Z) : V unit :=
  match keys with
  | [] => mret tt
  | k :: keys => e ← spte p k; release e;; destroy_entries p keys
  end.
(** [hash_destroy] empties the table. *)
Definition spt_destroy (p : nat) (order : list Z) : V unit :=
  destroy_entries p order;; r ← get_proc p; put_proc p (set_spt r ∅).

Definition spt_insert (p : nat) (e : spt_entry) : V bool :=
  r ← get_proc p;
  match spt r !! upage e with
  | Some _ => mret false
  | None => put_proc p (set_spt r (<[upage e := e]> (spt r)));; mret true
  end.

Definition spt_remove (p : nat) (va : Z) : V bool :=
  k ← spt_find p va;
  match k with
  | None => mret false
  | Some k =>
      e ← spte p k;
      r ← get_proc p; put_proc p (set_spt r (delete k (spt r)));;
      release e;; mret true
  end.

(** The bytes of a page that is not in memory. *)
Definition load_data (e : spt_entry) (page : Z) : V bool :=
  match status e with
  | PAGE_ZERO => fill page 0 PGSIZE;; mret true
  | PAGE_FILE =>
      match file e with
      | Some f =>
          fsM (file_seek f (file_offset e));;
          b ← fsM (file_read f (read_bytes e));
          store page b;;
          if Z.of_nat (length b) =? s32 (read_bytes e) then
            fill (page + read_bytes e) 0 (zero_bytes e);; mret true
          else mret false
      | None => mret false
      end
  | PAGE_SWAP => swap_in (swap_slot e) page;; mret true
  | _ => mret false
  end.

(** [spt_load_page] for the entry of page [va] of process [p]. *)
Definition spt_load_page (p : nat) (va : Z) : V bool :=
  t ← current; c ← pcb_of t;
  match c with
  | None => mret false
  | Some c =>
      rc ← get_proc c;
      if pagedir rc =? 0 then mret false else
      let pd := pagedir rc in
      e ← spte p va;
      page ← frame_alloc (upage e);
      if page =? 0 then mret false else
      e ← spte p va;
      success ← load_data e page;
      if negb success then frame_free page;; mret false else
      ok ← machM (pagedir_set_page init_page_dir init_ram_pages pd (upage e) page (writable e));
      if negb ok then frame_free page;; mret false else
      e ← (if decide (status e = PAGE_SWAP) then
             machM (pagedir_set_dirty init_page_dir pd (upage e) true);; mret (set_pinned_dirty e true)
           else mret e);
      put_spte p va (set_kpage (set_status e PAGE_FRAME) page);;
      mret true
  end.

Definition spt_create_file_page (p : nat) (va : Z) (f : option nat) (ofs read_n zero_n : Z) (w : bool) : V bool :=
  ok ← malloc_ok;
  if negb ok then mret false else
  spt_insert p (mk_spte (pg_round_down va) PAGE_FILE w 0 0 f ofs read_n zero_n false false).

Definition spt_create_zero_page (p : nat) (va : Z) (w : bool) : V bool :=
  ok ← malloc_ok;
  if negb ok then mret false else
  spt_insert p (mk_spte (pg_round_down va) PAGE_ZERO w 0 0 None 0 0 0 false false).

(** ** Fork *)

(** The copy of an entry of process [parent]; the entry itself is changed where it moves to
    another swap slot. *)
Definition spt_clone_entry (parent : nat) (va child_pd parent_pd : Z) : V (option spt_entry) :=
  ok ← malloc_ok;
  if negb ok then mret None else
  e ← spte parent va;
  let child := mk_spte (upage e) (status e) (writable e) 0 0 (file e) (file_offset e) (read_bytes e) (zero_bytes e)
                 (is_mmap e) (pinned_dirty e) in
  match status e with
  | PAGE_ZERO | PAGE_FILE => mret (Some child)
  | PAGE_COW | PAGE_FRAME =>
      ok ← machM (pagedir_set_page init_page_dir init_ram_pages child_pd (upage e) (kpage e) false);
      if negb ok then mret None else
      machM (pagedir_set_writable parent_pd (upage e) false);;
      frame_share (kpage e);;
      mret (Some (set_kpage (set_status child PAGE_COW) (kpage e)))
  | PAGE_SWAP =>
      page ← frame_alloc (upage e);
      if page =? 0 then mret None else
      e ← spte parent va;
      swap_in (swap_slot e) page;;
      parent_slot ← swap_out page;
      if parent_slot =? SWAP_SLOT_INVALID then
        restore ← swap_out page;
        (if negb (restore =? SWAP_SLOT_INVALID) then put_spte parent va (set_slot e restore) else mret tt);;
        frame_free page;;
        mret None
      else
      put_spte parent va (set_slot e parent_slot);;
      child_slot ← swap_out page;
      frame_free page;;
      if child_slot =? SWAP_SLOT_INVALID then mret None
      else mret (Some (set_slot child child_slot))
  end.

Definition discard (e : spt_entry) : V unit :=
  match status e with
  | PAGE_COW | PAGE_FRAME => frame_free (kpage e)
  | PAGE_SWAP => swap_free (swap_slot e)
  | _ => mret tt
  end.

Fixpoint clone_loop (child parent : nat) (child_pd parent_pd : Z) (keys : list Z) : V bool :=
  match keys with
  | [] => mret true
  | va :: keys =>
      e ← spte parent va;
      let pinned := match status e with PAGE_FRAME | PAGE_COW => kpage e | _ => 0 end in
      match status e with PAGE_FRAME | PAGE_COW => frame_pin pinned | _ => mret tt end;;
      c ← spt_clone_entry parent va child_pd parent_pd;
      when (negb (pinned =? 0)) (frame_unpin pinned);;
      match c with
      | None => mret false
      | Some c =>
          ok ← spt_insert child c;
          if ok : bool then clone_loop child parent child_pd parent_pd keys
          else discard c;; mret false
      end
  end.

(** The second pass: the parent's pages are copy-on-write too. *)
Definition mark_cow (e : spt_entry) : spt_entry :=
  if decide (status e = PAGE_FRAME) then set_status e PAGE_COW else e.

Definition spt_clone (child parent : nat) (child_pd parent_pd : Z) (order : list Z) : V bool :=
  ok ← clone_loop child parent child_pd parent_pd order;
  if ok : bool then
    r ← get_proc parent; put_proc parent (set_spt r (mark_cow <$> spt r));; mret true
  else mret false.
End page.
End Page.
