(* ===== verification/Vm.v ===== *)
(** * Page faults: [vm/vm.c]

    [vm_handle_fault] and the check for growth of the stack.  [user_load] and [user_store] are
    an instruction of a user program that reads or writes a byte: the hardware walks the
    page tables, and on a fault [page_fault] of [userprog/exception.c] calls
    [vm_handle_fault] and the instruction runs again. *)

From stdpp Require Import base tactics numbers list option gmap.
From S2P Require Import Prelude State Block Palloc Malloc Pagedir Swap FileOps VmState Frame Page.

Open Scope Z_scope.

Module Vm.
Import Palloc Pagedir Swap VmState Frame Page.

Definition VM_STACK_MAX : Z := 8 * 1024 * 1024.

Definition vm_is_stack_access (fault_addr esp : Z) : bool :=
  if negb (is_user_vaddr fault_addr) then false
  else if fault_addr <? u32 (esp - 32) then false
  else if fault_addr <? PHYS_BASE - VM_STACK_MAX then false
  else true.

Section vm.
Context {F : Type} `{!FileOps F}.
Context (init_page_dir init_ram_pages : Z).
Abbreviation V := (st (vm F)).

(** The branch for a page shared since a fork: the writer gets a copy of its own; [None]
    when the shared frame was evicted in the meantime. *)
Definition cow_fault (p : nat) (pd page va : Z) : V (option bool) :=
  e ← spte p va;
  let old_kpage := kpage e in
  pinned ← frame_pin_if_present old_kpage;
  if negb pinned then mret None else
  new_kpage ← frame_alloc init_page_dir init_ram_pages page;
  if new_kpage =? 0 then frame_unpin old_kpage;; mret (Some false) else
  machM (copy new_kpage old_kpage PGSIZE);;
  frame_unpin old_kpage;;
  machM (pagedir_clear_page init_page_dir pd page);;
  ok ← machM (pagedir_set_page init_page_dir init_ram_pages pd page new_kpage true);
  if negb ok then frame_free new_kpage;; mret (Some false) else
  e ← spte p va;
  put_spte p va (set_kpage (set_status e PAGE_FRAME) new_kpage);;
  frame_free old_kpage;;
  frame_unpin new_kpage;;
  mret (Some true).

(** The rest of [vm_handle_fault], for a page that is not present. *)
Definition absent_fault (p : nat) (fault_addr : Z) (write : bool) (esp : Z) : V bool :=
  let fault_page := pg_round_down fault_addr in
  k ← spt_find p fault_page;
  found ← (match k with
           | Some k => mret (Some k)
           | None =>
               if vm_is_stack_access fault_addr esp then
                 ok ← spt_create_zero_page p fault_page true;
                 if negb ok then mret None else spt_find p fault_page
               else mret None
           end);
  match found with
  | None => mret false
  | Some k =>
      e ← spte p k;
      if write && negb (writable e) then mret false
      else if decide (status e = PAGE_FRAME) then mret false
      else
      ok ← spt_load_page init_page_dir init_ram_pages p k;
      if negb ok then mret false else
      e ← spte p k;
      frame_unpin (kpage e);;
      mret true
  end.

Definition vm_handle_fault (fault_addr : Z) (write not_present : bool) (esp : Z) : V bool :=
  t ← current; c ← pcb_of t;
  match c with
  | None => mret false
  | Some p =>
      let fault_page := pg_round_down fault_addr in
      if negb (is_user_vaddr fault_addr) then mret false else
      k ← spt_find p fault_page;
      cow ← (match k with
             | Some k =>
                 e ← spte p k;
                 if negb not_present && write && bool_decide (status e = PAGE_COW) then
                   if negb (writable e) then mret (Some (Some false))
                   else r ← get_proc p; x ← cow_fault p (pagedir r) fault_page k; mret (Some x)
                 else mret None
             | None => mret None
             end);
      match cow with
      | Some (Some r) => mret r
      | Some None => absent_fault p fault_addr write esp
      | None => if negb not_present then mret false else absent_fault p fault_addr write esp
      end
  end.

(** [vm_init]; [dev] and the others are those of [swap_init]. *)
Definition vm_init (dev : option Block.block) (malloc_b : bool) (malloc_bits : option (list Z)) : V unit :=
  frame_init;;
  x ← lift (swap_init dev malloc_b malloc_bits);
  put_swap x.

(** ** User programs *)

(** The address of the byte an access reaches, after at most one fault; [None] when the fault
    is not handled (the process is killed). *)
Definition user_access (va : Z) (write : bool) (esp : Z) : V (option Z) :=
  a ← machM (mmu_access va write);
  match a with
  | Some a => mret (Some a)
  | None =>
      present ← machM (mmu_present va);
      ok ← vm_handle_fault va write (negb present) esp;
      if ok : bool then machM (mmu_access va write) else mret None
  end.

Definition user_load (va esp : Z) : V (option Z) :=
  a ← user_access va false esp;
  match a with Some a => b ← peek a; mret (Some b) | None => mret None end.
Definition user_store (va v esp : Z) : V bool :=
  a ← user_access va true esp;
  match a with Some a => store a [v];; mret true | None => mret false end.

(** [process_activate]: the scheduler switches to thread [t]. *)
Definition switch_to (t : nat) : V unit :=
  p ← pcb_of t;
  pd ← (match p with Some p => r ← get_proc p; mret (pagedir r) | None => mret 0 end);
  machM (pagedir_activate init_page_dir pd);;
  put_current t.
End vm.
End Vm.
