(* ===== verification/Mmap.v ===== *)
(** * Memory mappings: [vm/mmap.c]

    Regions of a process's address space backed by a file or by zeros.  A region is an
    element of [mmap_list]; [list_remove] deletes it by its position.  The retry loop of
    [mmap_cleanup_pages] can only go round when another thread evicts a frame meanwhile; on
    one thread a frame that cannot be pinned makes it spin for ever. *)

From stdpp Require Import base tactics numbers list option gmap.
From S2P Require Import Prelude State Palloc Malloc Pagedir Swap FileOps VmState Frame Page.

Open Scope Z_scope.

Module Mmap.
Import Palloc Pagedir Swap VmState Frame Page.

Definition MAP_FAILED : Z := 2 ^ 32 - 1.
Definition MMAP_BASE : Z := 0x40000000.
Definition MAX_STACK_PAGES : Z := Z.shiftl 1 11.
Definition MAX_FILE_DESCRIPTOR : Z := 128.

(** [DIV_ROUND_UP (x, PGSIZE)] and [ROUND_UP (x, PGSIZE)] on [size_t]. *)
Definition page_round_up (x : Z) : Z := u32 (x + (PGSIZE - 1)) / PGSIZE.
Definition page_align_up (x : Z) : Z := u32 (page_round_up x * PGSIZE).

Section mmap.
Context {F : Type} `{!FileOps F}.
Context (init_page_dir init_ram_pages : Z).
Abbreviation V := (st (vm F)).

(** [thread_current ()->pcb], which [get_spt] and the like assert. *)
Definition get_pcb : V nat :=
  t ← current; c ← pcb_of t; lift (match c with Some p => Ret p | None => Panic end).

(** ** Regions *)

Definition region_end (r : mmap_region) : Z := u32 (start_addr r + page_count r * PGSIZE).

Fixpoint region_loop (l : list mmap_region) (i : nat) (addr : Z) : option (nat * mmap_region) :=
  match l with
  | [] => None
  | r :: l => if (start_addr r <=? addr) && (addr <? region_end r) then Some (i, r) else region_loop l (S i) addr
  end.
Definition mmap_find_region_locked (addr : Z) : V (option (nat * mmap_region)) :=
  p ← get_pcb; r ← get_proc p; mret (region_loop (mmap_list r) 0 addr).
(** The lock is taken and released. *)
Definition mmap_find_region (addr : Z) : V (option mmap_region) :=
  x ← mmap_find_region_locked addr; mret (snd <$> x).

Definition push_region (p : nat) (x : mmap_region) : V unit :=
  r ← get_proc p; put_proc p (set_mmaps r (mmap_list r ++ [x])).
Definition drop_region (p : nat) (i : nat) : V unit :=
  r ← get_proc p; put_proc p (set_mmaps r (delete i (mmap_list r))).

(** ** Free address ranges *)

(** No page from the [i]-th on, [n] of them, has an entry. *)
Fixpoint pages_free (n : nat) (i : Z) (p : nat) (addr : Z) : V bool :=
  match n with
  | O => mret true
  | S n =>
      k ← spt_find p (u32 (addr + i * PGSIZE));
      match k with Some _ => mret false | None => pages_free n (i + 1) p addr end
  end.

Definition stack_start : Z := PHYS_BASE - MAX_STACK_PAGES * PGSIZE.

Definition mmap_range_available (addr length : Z) : V bool :=
  if negb (is_user_vaddr addr) then mret false else
  let end_val := u32 (addr + length) in
  if end_val <? addr then mret false else
  if PHYS_BASE <=? end_val then mret false else
  p ← get_pcb;
  free ← pages_free (Z.to_nat (page_round_up length)) 0 p addr;
  if negb free then mret false else
  if (addr <? PHYS_BASE) && (stack_start <? u32 (addr + length)) then mret false else
  mret true.

(** The loop of [find_free_address]; null is 0. *)
Fixpoint address_loop (n : nat) (addr length : Z) : V Z :=
  match n with
  | O => lift Blocked
  | S n =>
      if u32 (addr + length) <=? stack_start then
        ok ← mmap_range_available addr length;
        if ok : bool then mret addr else address_loop n (u32 (addr + PGSIZE)) length
      else mret 0
  end.
Definition find_free_address (length : Z) : V Z := address_loop (Z.to_nat (2 ^ 20)) MMAP_BASE (page_align_up length).

(** ** Creation *)

Definition get_file_from_fd (fd : Z) : V (option nat) :=
  p ← get_pcb;
  if (fd <? 2) || (MAX_FILE_DESCRIPTOR <=? fd) then mret None else
  r ← get_proc p; mret (fd_file r !! fd).

(** The pages created before a failure are removed again, [n] of them from the [j]-th. *)
Fixpoint remove_pages (n : nat) (j : Z) (p : nat) (addr : Z) : V unit :=
  match n with
  | O => mret tt
  | S n => spt_remove p (u32 (addr + j * PGSIZE));; remove_pages n (j + 1) p addr
  end.

(** The entry that was just made is one of a mapping. *)
Definition mark_mmap (p : nat) (va : Z) : V unit :=
  k ← spt_find p va;
  match k with Some k => e ← spte p k; put_spte p k (set_is_mmap e true) | None => mret tt end.

(** The loops of [mmap_create] and [mmap_create_anon], with [n] pages left from the [i]-th;
    on failure the number of pages created. *)
Fixpoint file_pages (n : nat) (i : Z) (p : nat) (addr : Z) (f : nat) (offset remaining : Z) : V (option Z) :=
  match n with
  | O => mret None
  | S n =>
      let va := u32 (addr + i * PGSIZE) in
      let read_n := if PGSIZE <? remaining then PGSIZE else remaining in
      ok ← spt_create_file_page p va (Some f) (s32 (offset + i * PGSIZE)) read_n (PGSIZE - read_n) true;
      if negb ok then mret (Some i) else
      mark_mmap p va;;
      file_pages n (i + 1) p addr f offset (remaining - read_n)
  end.
Fixpoint zero_pages (n : nat) (i : Z) (p : nat) (addr : Z) : V (option Z) :=
  match n with
  | O => mret None
  | S n =>
      let va := u32 (addr + i * PGSIZE) in
      ok ← spt_create_zero_page p va true;
      if negb ok then mret (Some i) else
      mark_mmap p va;;
      zero_pages n (i + 1) p addr
  end.

Definition mmap_create (addr length fd offset : Z) : V Z :=
  if (addr =? 0) || negb (pg_ofs addr =? 0) then mret MAP_FAILED else
  if negb (pg_ofs (u32 offset) =? 0) then mret MAP_FAILED else
  if length =? 0 then mret MAP_FAILED else
  if fd <? 2 then mret MAP_FAILED else
  f ← get_file_from_fd fd;
  match f with
  | None => mret MAP_FAILED
  | Some f =>
      i ← fsM (file_get_inode f);
      d ← fsM (inode_is_dir i);
      if d : bool then mret MAP_FAILED else
      size ← fsM (file_length f);
      if size <=? 0 then mret MAP_FAILED else
      let page_count := page_round_up length in
      free ← mmap_range_available addr (u32 (page_count * PGSIZE));
      if negb free then mret MAP_FAILED else
      m ← fsM (file_reopen (Some f));
      match m with
      | None => mret MAP_FAILED
      | Some map_file =>
          ok ← malloc_ok;
          if negb ok then fsM (file_close (Some map_file));; mret MAP_FAILED else
          mi ← fsM (file_get_inode map_file);
          sector ← fsM (inode_get_inumber mi);
          p ← get_pcb;
          failed ← file_pages (Z.to_nat page_count) 0 p addr map_file offset length;
          match failed with
          | Some i => remove_pages (Z.to_nat i) 0 p addr;; fsM (file_close (Some map_file));; mret MAP_FAILED
          | None =>
              push_region p (mk_region addr length page_count (Some map_file) offset 0 false sector true);;
              mret addr
          end
      end
  end.

Definition mmap_create_anon (addr length flags : Z) : V Z :=
  if length =? 0 then mret MAP_FAILED else
  if negb (addr =? 0) && negb (pg_ofs addr =? 0) then mret MAP_FAILED else
  let page_count := page_round_up length in
  addr ← (if addr =? 0 then find_free_address (u32 (page_count * PGSIZE))
          else free ← mmap_range_available addr (u32 (page_count * PGSIZE)); mret (if free : bool then addr else 0));
  if addr =? 0 then mret MAP_FAILED else
  ok ← malloc_ok;
  if negb ok then mret MAP_FAILED else
  p ← get_pcb;
  failed ← zero_pages (Z.to_nat page_count) 0 p addr;
  match failed with
  | Some i => remove_pages (Z.to_nat i) 0 p addr;; mret MAP_FAILED
  | None =>
      push_region p (mk_region addr length page_count None 0 flags true 0 true);;
      mret addr
  end.

(** ** Destruction *)

(** One page of a region: written back if it is dirty, and given up. *)
Definition cleanup_page (p : nat) (pd : Z) (r : mmap_region) (va : Z) : V unit :=
  x ← find_entry p va;
  match x with
  | None => mret tt
  | Some e =>
      let in_frame := bool_decide (status e = PAGE_FRAME) && negb (kpage e =? 0) in
      pinned ← (if in_frame then frame_pin_if_present (kpage e) else mret false);
      if in_frame && negb pinned then lift Blocked else
      writeback ← (if in_frame then
                     d ← (if is_anonymous r then mret false else machM (pagedir_is_dirty pd va));
                     machM (pagedir_clear_page init_page_dir pd va);;
                     mret d
                   else mret false);
      t ← get_proc p; put_proc p (set_spt t (delete (pg_round_down va) (spt t)));;
      (if writeback : bool then
         match rg_file r with
         | Some f =>
             b ← load (kpage e) (read_bytes e);
             fsM (file_write_at f b (read_bytes e) (s32 (offset r + (va - start_addr r))));; mret tt
         | None => lift UB
         end
       else mret tt);;
      when pinned (frame_unpin (kpage e));;
      when in_frame (frame_free (kpage e));;
      when (bool_decide (status e = PAGE_SWAP)) (swap_free (swap_slot e))
  end.

Fixpoint cleanup_loop (n : nat) (i : Z) (p : nat) (pd : Z) (r : mmap_region) : V unit :=
  match n with
  | O => mret tt
  | S n => cleanup_page p pd r (u32 (start_addr r + i * PGSIZE));; cleanup_loop n (i + 1) p pd r
  end.
Definition mmap_cleanup_pages (r : mmap_region) : V unit :=
  p ← get_pcb; t ← get_proc p; cleanup_loop (Z.to_nat (page_count r)) 0 p (pagedir t) r.

Definition close_region (r : mmap_region) : V unit :=
  mmap_cleanup_pages r;;
  match rg_file r with
  | Some f => when (negb (is_anonymous r)) (fsM (file_close (Some f)))
  | None => mret tt
  end.

Definition mmap_destroy (addr length : Z) : V Z :=
  x ← mmap_find_region_locked addr;
  match x with
  | None => mret (-1)
  | Some (i, r) =>
      if negb (start_addr r =? addr) || negb (rg_length r =? length) then mret (-1) else
      close_region r;; p ← get_pcb; drop_region p i;; mret 0
  end.

Definition mmap_find_and_destroy (addr : Z) : V Z :=
  x ← mmap_find_region_locked addr;
  match x with
  | None => mret (-1)
  | Some (i, r) => close_region r;; p ← get_pcb; drop_region p i;; mret 0
  end.

(** [list_pop_front] until the list is empty. *)
Fixpoint destroy_regions (n : nat) : V unit :=
  match n with
  | O => mret tt
  | S n =>
      p ← get_pcb; t ← get_proc p;
      match mmap_list t with
      | [] => mret tt
      | r :: _ => drop_region p 0;; close_region r;; destroy_regions n
      end
  end.
Definition mmap_destroy_all : V unit :=
  p ← get_pcb; t ← get_proc p; destroy_regions (length (mmap_list t)).
End mmap.
End Mmap.
