(* ===== verification/Loader.v ===== *)
(** * Loading of programs: [userprog/process.c]

    The command line, the ELF loader and the stacks of threads, as compiled with virtual
    memory for the i386.  An [argv] is a list of strings without their terminators, a null
    pointer being [None].  The kernel writes the new stack through the user's addresses, so that
    each byte is a [user_store]; a fault that is not handled there would follow the null
    [my_status] of the new process. *)

From stdpp Require Import base tactics numbers list option gmap.
From S2P Require Import Prelude State Strings Palloc Pagedir Swap FileOps Filedesc VmState Frame Page Vm Mmap.

Open Scope Z_scope.

Module Loader.
Import Palloc Pagedir VmState Frame Page Vm Mmap.

(** ** The command line *)

Definition MAX_ARGS : Z := 64.

(** [load_info.argv[count] = token], undefined past the end of the array. *)
Definition set_arg (argv : list (option Z)) (token : option Z) : outcome (list (option Z)) :=
  if Z.of_nat (length argv) <? MAX_ARGS then Ret (argv ++ [token]) else UB.

Definition space : list Z := [32; 0].

(** The loop of [parse_cmd_line] on the object [m] with the command line. *)
Fixpoint parse_loop (fuel : nat) (m : list Z) (save_ptr : Z) (argv : list (option Z)) : outcome (list Z * list (option Z)) :=
  match fuel with
  | O => Blocked
  | S fuel =>
      '(token, m, save_ptr) ← Strings.strtok_r space m save_ptr;
      match token with
      | Some t => argv ← set_arg argv (Some t); parse_loop fuel m save_ptr argv
      | None => argv' ← set_arg argv None; Ret (m, argv)
      end
  end.

(** The object, the offset of the file name, [argc] and the [argc] first elements of [argv]. *)
Definition parse_cmd_line (m : list Z) : outcome (list Z * option Z * Z * list (option Z)) :=
  '(token, m', save_ptr) ← Strings.strtok_r space m 0;
  argv ← set_arg [] token;
  match token with
  | Some _ => '(m', argv) ← parse_loop (Nat.pred (length m)) m' save_ptr argv; Ret (m', token, Z.of_nat (length argv), argv)
  | None => Ret (m', token, 1, argv)
  end.

(** ** ELF *)

Record Elf32_Ehdr := mk_ehdr {
  e_ident : list Z; e_type : Z; e_machine : Z; e_version : Z; e_entry : Z; e_phoff : Z; e_phentsize : Z; e_phnum : Z }.
Record Elf32_Phdr := mk_phdr {
  p_type : Z; p_offset : Z; p_vaddr : Z; p_filesz : Z; p_memsz : Z; p_flags : Z }.

Definition field (b : list Z) (ofs n : nat) : Z := le_val (slice b ofs n).
(** The bytes of the files as these structures, of 52 and 32 bytes. *)
Definition ehdr_of (b : list Z) : Elf32_Ehdr :=
  mk_ehdr (take 16 b) (field b 16 2) (field b 18 2) (field b 20 4) (field b 24 4) (field b 28 4) (field b 42 2) (field b 44 2).
Definition phdr_of (b : list Z) : Elf32_Phdr :=
  mk_phdr (field b 0 4) (field b 4 4) (field b 8 4) (field b 16 4) (field b 20 4) (field b 24 4).

Definition PT_LOAD : Z := 1.
Definition PT_DYNAMIC : Z := 2.
Definition PT_INTERP : Z := 3.
Definition PT_SHLIB : Z := 5.
Definition PF_W : Z := 2.
Definition ELF_MAGIC : list Z := [127; 69; 76; 70; 1; 1; 1].

Definition ehdr_ok (b : list Z) : bool :=
  let h := ehdr_of b in
  (Z.of_nat (length b) =? 52) && bool_decide (take 7 (e_ident h) = ELF_MAGIC) && (e_type h =? 2) && (e_machine h =? 3) &&
  (e_version h =? 1) && (e_phentsize h =? 32) && (e_phnum h <=? 1024).

(** [len]: the length of the file. *)
Definition validate_segment (h : Elf32_Phdr) (len : Z) : bool :=
  if negb (Z.land (p_offset h) PGMASK =? Z.land (p_vaddr h) PGMASK) then false else
  if u32 len <? p_offset h then false else
  if p_memsz h <? p_filesz h then false else
  if p_memsz h =? 0 then false else
  if negb (is_user_vaddr (p_vaddr h)) then false else
  if u32 (2 ^ 32 - 1 - p_vaddr h) <? p_memsz h then false else
  if negb (is_user_vaddr (u32 (p_vaddr h + p_memsz h))) then false else
  if p_vaddr h <? PGSIZE then false else
  true.

Section loader.
Context {F : Type} `{!FileOps F} `{!FsOps F}.
Context (init_page_dir init_ram_pages : Z).
Abbreviation V := (st (vm F)).

(** The loop of [load_segment], with [n] pages left. *)
Fixpoint segment_loop (n : nat) (p : nat) (file : nat) (ofs upage read_bytes zero_bytes : Z) (writable : bool) : V bool :=
  if (0 <? read_bytes) || (0 <? zero_bytes) then
    match n with
    | O => lift Blocked
    | S n =>
        let page_read_bytes := if read_bytes <? PGSIZE then read_bytes else PGSIZE in
        let page_zero_bytes := PGSIZE - page_read_bytes in
        ok ← (if 0 <? page_read_bytes then
                spt_create_file_page p upage (Some file) ofs page_read_bytes page_zero_bytes writable
              else spt_create_zero_page p upage writable);
        if negb ok then mret false else
        segment_loop n p file (s32 (ofs + page_read_bytes)) (u32 (upage + PGSIZE)) (u32 (read_bytes - page_read_bytes))
          (u32 (zero_bytes - page_zero_bytes)) writable
    end
  else mret true.

Definition load_segment (file : nat) (ofs upage read_bytes zero_bytes : Z) (writable : bool) : V bool :=
  lift (ASSERT (u32 (read_bytes + zero_bytes) mod PGSIZE =? 0));;
  lift (ASSERT (pg_ofs upage =? 0));;
  lift (ASSERT (Z.rem ofs PGSIZE =? 0));;
  p ← get_pcb;
  segment_loop (Z.to_nat ((read_bytes + zero_bytes) / PGSIZE)) p file ofs upage read_bytes zero_bytes writable.

(** ** The stack of a new process *)

(** [memcpy] and [memset] to the user's memory. *)
Fixpoint write_bytes (va : Z) (l : list Z) : V unit :=
  match l with
  | [] => mret tt
  | b :: l => ok ← user_store init_page_dir init_ram_pages va b 0; if negb ok then lift UB else write_bytes (va + 1) l
  end.

(** The strings, last first; [saved] holds their addresses. *)
Fixpoint push_strings (l : list (option (list Z))) (stack_ptr : Z) (saved : list Z) : V (Z * list Z) :=
  match l with
  | [] => mret (stack_ptr, saved)
  | None :: _ => lift UB
  | Some a :: l =>
      let len := Z.of_nat (length a) + 1 in
      let stack_ptr := stack_ptr - len in
      write_bytes stack_ptr (a ++ [0]);;
      push_strings l stack_ptr (stack_ptr :: saved)
  end.

(** A word is pushed. *)
Definition push_word (stack_ptr v : Z) : V Z :=
  let stack_ptr := stack_ptr - 4 in write_bytes stack_ptr (le_bytes 4 v);; mret stack_ptr.
Fixpoint push_words (l : list Z) (stack_ptr : Z) : V Z :=
  match l with
  | [] => mret stack_ptr
  | v :: l => stack_ptr ← push_word stack_ptr v; push_words l stack_ptr
  end.

Definition push_args (argc : Z) (argv : list (option (list Z))) : V Z :=
  if 128 <? argc then lift UB else
  '(stack_ptr, saved) ← push_strings (rev argv) PHYS_BASE [];
  let before_alignment := stack_ptr - 4 * (argc + 1) - 4 - 4 in
  let after_alignment := before_alignment / 16 * 16 in
  let padding := before_alignment - after_alignment in
  let stack_ptr := stack_ptr - padding in
  write_bytes stack_ptr (replicate (Z.to_nat padding) 0);;
  stack_ptr ← push_word stack_ptr 0;
  stack_ptr ← push_words (rev saved) stack_ptr;
  let argv_start := stack_ptr in
  stack_ptr ← push_word stack_ptr argv_start;
  stack_ptr ← push_word stack_ptr argc;
  push_word stack_ptr 0.

Definition setup_stack (argc : Z) (argv : list (option (list Z))) : V (option Z) :=
  let upage := PHYS_BASE - PGSIZE in
  p ← get_pcb;
  ok ← spt_create_zero_page p upage true;
  if negb ok then mret None else
  k ← spt_find p upage;
  match k with
  | None => mret None
  | Some k =>
      ok ← spt_load_page init_page_dir init_ram_pages p k;
      if negb ok then mret None else
      e ← spte p k;
      frame_unpin (kpage e);;
      esp ← push_args argc argv; mret (Some esp)
  end.

(** ** [load] *)

(** A loadable segment. *)
Definition load_phdr (file : nat) (h : Elf32_Phdr) : V bool :=
  len ← fsM (file_length file);
  if validate_segment h len then
    let writable := negb (Z.land (p_flags h) PF_W =? 0) in
    let file_page := Z.land (p_offset h) (u32 (Z.lnot PGMASK)) in
    let mem_page := Z.land (p_vaddr h) (u32 (Z.lnot PGMASK)) in
    let page_offset := Z.land (p_vaddr h) PGMASK in
    let '(read_bytes, zero_bytes) :=
      if 0 <? p_filesz h then
        let read_bytes := u32 (page_offset + p_filesz h) in
        (read_bytes, u32 (page_align_up (u32 (page_offset + p_memsz h)) - read_bytes))
      else (0, page_align_up (u32 (page_offset + p_memsz h))) in
    load_segment file (s32 file_page) mem_page read_bytes zero_bytes writable
  else mret false.

Fixpoint phdr_loop (n : nat) (file : nat) (file_ofs : Z) : V bool :=
  match n with
  | O => mret true
  | S n =>
      len ← fsM (file_length file);
      if (file_ofs <? 0) || (len <? file_ofs) then mret false else
      fsM (file_seek file file_ofs);;
      b ← fsM (file_read file 32);
      if negb (Z.of_nat (length b) =? 32) then mret false else
      let file_ofs := s32 (file_ofs + 32) in
      let h := phdr_of b in
      if (p_type h =? PT_DYNAMIC) || (p_type h =? PT_INTERP) || (p_type h =? PT_SHLIB) then mret false
      else if p_type h =? PT_LOAD then
        ok ← load_phdr file h; if negb ok then mret false else phdr_loop n file file_ofs
      else phdr_loop n file file_ofs
  end.

(** The entry point, the stack pointer and the executable; at [done], without success, the
    file is closed. *)
Definition load (file_name : list Z) (argc : Z) (argv : list (option (list Z))) : V (option (Z * Z * nat)) :=
  p ← get_pcb;
  pd ← machM (pagedir_create init_page_dir);
  r ← get_proc p; put_proc p (set_pagedir r pd);;
  if pd =? 0 then fsM (file_close None);; mret None else
  machM (pagedir_activate init_page_dir pd);;
  f ← fsM (filesys_open file_name);
  match f with
  | None => fsM (file_close None);; mret None
  | Some file =>
      b ← fsM (file_read file 52);
      if negb (ehdr_ok b) then fsM (file_close (Some file));; mret None else
      let h := ehdr_of b in
      ok ← phdr_loop (Z.to_nat (e_phnum h)) file (s32 (e_phoff h));
      if negb ok then fsM (file_close (Some file));; mret None else
      esp ← setup_stack argc argv;
      match esp with
      | None => fsM (file_close (Some file));; mret None
      | Some esp => fsM (file_deny_write file);; mret (Some (e_entry h, esp, file))
      end
  end.

(** ** The stack of a new thread *)

Definition MAX_THREADS : nat := 127.

(** [upage] must not be mapped. *)
Definition install_page (pd upage kpage : Z) (writable : bool) : V bool :=
  a ← machM (pagedir_get_page pd upage);
  if a =? 0 then machM (pagedir_set_page init_page_dir init_ram_pages pd upage kpage writable) else mret false.

(** The first slot from [i] on that is free. *)
Fixpoint free_slot (slots : list bool) (i : nat) : option nat :=
  match slots with
  | [] => None
  | b :: slots => if negb b then Some i else free_slot slots (S i)
  end.

(** [stack_slots] is the array of the process; the stack pointer and base, if there is room. *)
Definition setup_thread (stack_slots : list bool) (tf arg : Z) : V (list bool * option (Z * Z)) :=
  p ← get_pcb;
  match free_slot (drop 1 stack_slots) 1 with
  | None => mret (stack_slots, None)
  | Some slot =>
      let stack_base := PHYS_BASE - PGSIZE * (Z.of_nat slot + 1) in
      kpage ← machM (palM (λ s, palloc_get_page s (Z.lor PAL_USER PAL_ZERO)));
      if kpage =? 0 then mret (<[slot := false]> stack_slots, None) else
      r ← get_proc p;
      ok ← install_page (pagedir r) stack_base kpage true;
      if negb ok then machM (free_page kpage);; mret (<[slot := false]> stack_slots, None) else
      stack_ptr ← push_word (stack_base + PGSIZE) arg;
      stack_ptr ← push_word stack_ptr tf;
      stack_ptr ← push_word stack_ptr 0;
      mret (<[slot := true]> stack_slots, Some (stack_ptr, stack_base))
  end.
End loader.
End Loader.
