(* ===== verification/Process.v ===== *)
(** * Processes: [exec], [fork], [wait] and [exit] of [userprog/process.c]

    Processes that run at the same time, as a machine whose steps interleave: each process has
    one thread, which is in user code or at a place of a kernel function where another thread
    may run.  What is modelled is what the processes share: the [struct process_status] of a
    child, its reference count, the list of children and the semaphores.  A semaphore is its
    value; a thread at a [sema_down] of a semaphore with value zero cannot step.  The sections
    under [ref_lock] are one step each, and so are list operations, which the code does not
    protect.  Page directories, files and the rest of the process are in [Loader], [Page] and
    [Filedesc]; whether a [malloc], [thread_create] or [load] succeeds is part of the call. *)

From stdpp Require Import base tactics numbers list option gmap.
From S2P Require Import Prelude State.

Open Scope Z_scope.

Module Process.

Definition TID_ERROR : Z := -1.

(** [wait_sem] is the value of the semaphore. *)
Record process_status := mk_status { tid : Z; exit_code : Z; is_waited_on : bool; ref_count : Z; wait_sem : Z }.
Record process := mk_process { my_status : option nat; parent_process : option nat }.

(** Where a thread is. *)
Inductive place :=
| User
| Loading (pid : option nat) (loaded_signal : Z) (load_success : bool) (** [sema_down (&load_info.loaded_signal)] *)
| Start (parent child_status : nat) (success : bool) (** a new thread, [success] being what loading will give *)
| WaitSema (child_status : nat)                     (** [sema_down (&child_status->wait_sem)] *)
| WaitRef (child_status : nat) (code : Z)
| WaitFree (child_status : nat) (code : Z)
| ExitSema | ExitRef | ExitFree | ExitPcb           (** the end of [process_exit] *)
| Dead.

Inductive event :=
| Spawned (p : nat) (pid : Z)
| WaitReturned (p : nat) (child_pid code : Z)
| Exited (p : nat) (code : Z).

Record sys := mk_sys {
  threads : gmap nat place;
  procs : gmap nat process;
  children_status : gmap nat (list nat);  (** the lists by their owners; the links outlive the head *)
  statuses : gmap nat process_status;
  next_tid : nat;
  next_status : nat;
  trace : list event }.

Abbreviation P := (st sys).

Definition set_threads (s : sys) (x : gmap nat place) : sys := mk_sys x (procs s) (children_status s) (statuses s) (next_tid s) (next_status s) (trace s).
Definition set_procs (s : sys) (x : gmap nat process) : sys := mk_sys (threads s) x (children_status s) (statuses s) (next_tid s) (next_status s) (trace s).
Definition set_children (s : sys) (x : gmap nat (list nat)) : sys := mk_sys (threads s) (procs s) x (statuses s) (next_tid s) (next_status s) (trace s).
Definition set_statuses (s : sys) (x : gmap nat process_status) : sys := mk_sys (threads s) (procs s) (children_status s) x (next_tid s) (next_status s) (trace s).

Definition goto (t : nat) (p : place) : P unit := λ s, Ret (tt, set_threads s (<[t := p]> (threads s))).
Definition emit (e : event) : P unit := λ s,
  Ret (tt, mk_sys (threads s) (procs s) (children_status s) (statuses s) (next_tid s) (next_status s) (e :: trace s)).

(** [*p] for a status that was not freed. *)
Definition get_status (p : nat) : P process_status := λ s, match statuses s !! p with Some x => Ret (x, s) | None => UB end.
Definition put_status (p : nat) (x : process_status) : P unit := λ s, Ret (tt, set_statuses s (<[p := x]> (statuses s))).
Definition free_status (p : nat) : P unit := λ s,
  match statuses s !! p with Some _ => Ret (tt, set_statuses s (delete p (statuses s))) | None => UB end.
Definition get_process (t : nat) : P process := λ s, match procs s !! t with Some x => Ret (x, s) | None => UB end.

Definition set_exit_code (x : process_status) (n : Z) : process_status := mk_status (tid x) n (is_waited_on x) (ref_count x) (wait_sem x).
Definition set_waited (x : process_status) (b : bool) : process_status := mk_status (tid x) (exit_code x) b (ref_count x) (wait_sem x).
Definition set_ref_count (x : process_status) (n : Z) : process_status := mk_status (tid x) (exit_code x) (is_waited_on x) n (wait_sem x).
Definition set_wait_sem (x : process_status) (n : Z) : process_status := mk_status (tid x) (exit_code x) (is_waited_on x) (ref_count x) n.

(** The status that [process_execute] and [process_fork] allocate and fill in. *)
Definition new_status : P nat := λ s,
  Ret (next_status s, mk_sys (threads s) (procs s) (children_status s)
    (<[next_status s := mk_status (-1) (-1) false 0 0]> (statuses s)) (next_tid s) (S (next_status s)) (trace s)).
(** [thread_create], with the place where the thread starts. *)
Definition thread_create (p : place) : P nat := λ s,
  Ret (next_tid s, mk_sys (<[next_tid s := p]> (threads s)) (procs s) (children_status s) (statuses s) (S (next_tid s)) (next_status s) (trace s)).

Definition put_process (t : nat) (x : process) : P unit := λ s, Ret (tt, set_procs s (<[t := x]> (procs s))).
Definition free_process (t : nat) : P unit := λ s, Ret (tt, set_procs s (delete t (procs s))).

(** ** Lists of children *)

(** The list of process [p], whose head is in its PCB. *)
Definition get_children (p : nat) : P (list nat) := λ s,
  match procs s !! p, children_status s !! p with Some _, Some l => Ret (l, s) | _, _ => UB end.
Definition put_children (p : nat) (l : list nat) : P unit := λ s, Ret (tt, set_children s (<[p := l]> (children_status s))).
Definition list_push_front (p : nat) (st : nat) : P unit := l ← get_children p; put_children p (st :: l).

(** The element is unlinked from its neighbours; at an end of the list of [p] a neighbour is in
    the PCB of [p], which must not have been freed. *)
Definition list_remove (p : nat) (st : nat) : P unit := λ s,
  match children_status s !! p with
  | Some l =>
      if decide (st ∉ l) then UB
      else if decide ((head l = Some st ∨ last l = Some st) ∧ procs s !! p = None) then UB
      else Ret (tt, set_children s (<[p := filter (λ x, x ≠ st) l]> (children_status s)))
  | None => UB
  end.

(** ** [process_execute] and [process_fork] *)

Definition return_pid (t : nat) (pid : Z) : P unit := emit (Spawned t pid);; goto t User.

Definition process_execute (t : nat) (status_ok page_ok thread_ok load_ok : bool) : P unit :=
  if negb status_ok then return_pid t TID_ERROR else
  st ← new_status;
  if negb page_ok then return_pid t TID_ERROR else
  if thread_ok then
    child ← thread_create (Start t st load_ok);
    goto t (Loading (Some child) 0 false)
  else goto t (Loading None 0 false).

Definition process_fork (t : nat) (status_ok thread_ok copy_ok : bool) : P unit :=
  if negb status_ok then return_pid t TID_ERROR else
  st ← new_status;
  if thread_ok then
    child ← thread_create (Start t st copy_ok);
    goto t (Loading (Some child) 0 false)
  else goto t (Loading None 0 false).

(** After [sema_down (&load_info.loaded_signal)]. *)
Definition loaded (t : nat) (pid : option nat) (loaded_signal : Z) (load_success : bool) : P unit :=
  if loaded_signal =? 0 then lift Blocked else
  return_pid t (match pid with Some c => if load_success then Z.of_nat c else TID_ERROR | None => TID_ERROR end).

(** [load_info->load_success = success; sema_up (&load_info->loaded_signal)]: [load_info] is on
    the stack of the parent's call. *)
Definition signal_loaded (parent : nat) (success : bool) : P unit := λ s,
  match threads s !! parent with
  | Some (Loading pid n _) => goto parent (Loading pid (n + 1) success) s
  | _ => UB
  end.

(** [start_process] and [fork_process] from where loading, or copying, is done. *)
Definition start_process (t parent st : nat) (success : bool) : P unit :=
  if negb success then signal_loaded parent false;; goto t Dead else
  x ← get_status st;
  put_process t (mk_process (Some st) (Some parent));;
  put_children t [];;
  put_status st (mk_status (Z.of_nat t) (exit_code x) false (ref_count x + 1) (wait_sem x));;
  list_push_front parent st;;
  x ← get_status st;
  put_status st (set_ref_count x (ref_count x + 1));;
  signal_loaded parent true;;
  goto t User.

(** ** [process_wait] *)

(** The first element of the list with this [tid]. *)
Fixpoint find_child (l : list nat) (child_pid : Z) : P (option nat) :=
  match l with
  | [] => mret None
  | st :: l => x ← get_status st; if tid x =? child_pid then mret (Some st) else find_child l child_pid
  end.

Definition return_wait (t : nat) (child_pid code : Z) : P unit := emit (WaitReturned t child_pid code);; goto t User.

Definition process_wait (t : nat) (child_pid : Z) : P unit :=
  l ← get_children t;
  c ← find_child l child_pid;
  match c with
  | None => return_wait t child_pid (-1)
  | Some st =>
      x ← get_status st;
      if is_waited_on x then return_wait t child_pid (-1)
      else put_status st (set_waited x true);; goto t (WaitSema st)
  end.

(** [sema_down (&child_status->wait_sem)], and the exit code is read. *)
Definition wait_sema (t st : nat) : P unit :=
  x ← get_status st;
  if wait_sem x =? 0 then lift Blocked else
  put_status st (set_wait_sem x (wait_sem x - 1));; goto t (WaitRef st (exit_code x)).

Definition wait_ref (t st : nat) (code : Z) : P unit :=
  x ← get_status st;
  put_status st (set_ref_count x (ref_count x - 1));;
  if ref_count x - 1 =? 0 then goto t (WaitFree st code) else return_wait t (tid x) code.

Definition wait_free (t st : nat) (code : Z) : P unit :=
  x ← get_status st; list_remove t st;; free_status st;; return_wait t (tid x) code.

(** ** [process_exit] *)

(** [SYS_EXIT], up to where the status is signalled. *)
Definition exit_process (t : nat) (code : Z) : P unit :=
  p ← get_process t;
  match my_status p with
  | None => lift UB
  | Some st => x ← get_status st; put_status st (set_exit_code x code);; emit (Exited t code);; goto t ExitSema
  end.

Definition exit_sema (t : nat) : P unit :=
  p ← get_process t;
  match my_status p with
  | None => goto t ExitPcb
  | Some st => x ← get_status st; put_status st (set_wait_sem x (wait_sem x + 1));; goto t ExitRef
  end.

Definition exit_ref (t : nat) : P unit :=
  p ← get_process t;
  match my_status p with
  | None => lift UB
  | Some st =>
      x ← get_status st;
      put_status st (set_ref_count x (ref_count x - 1));;
      goto t (if ref_count x - 1 =? 0 then ExitFree else ExitPcb)
  end.

Definition exit_free (t : nat) : P unit :=
  p ← get_process t;
  match my_status p, parent_process p with
  | Some st, Some parent => list_remove parent st;; free_status st;; goto t ExitPcb
  | _, _ => lift UB
  end.

Definition exit_pcb (t : nat) : P unit :=
  free_process t;; goto t Dead.

(** ** Steps *)

Inductive call :=
| Exec (status_ok page_ok thread_ok load_ok : bool)
| Fork (status_ok thread_ok copy_ok : bool)
| Wait (child_pid : Z)
| Exit (status : Z).

(** Thread [t] runs to the next place; [c] is the call it makes if it is in user code. *)
Definition step (t : nat) (c : call) : P unit := λ s,
  match threads s !! t with
  | None | Some Dead => Blocked
  | Some User =>
      match c with
      | Exec a b d e => process_execute t a b d e s
      | Fork a d e => process_fork t a d e s
      | Wait pid => process_wait t pid s
      | Exit code => exit_process t code s
      end
  | Some (Loading pid n b) => loaded t pid n b s
  | Some (Start parent st ok) => start_process t parent st ok s
  | Some (WaitSema st) => wait_sema t st s
  | Some (WaitRef st code) => wait_ref t st code s
  | Some (WaitFree st code) => wait_free t st code s
  | Some ExitSema => exit_sema t s
  | Some ExitRef => exit_ref t s
  | Some ExitFree => exit_free t s
  | Some ExitPcb => exit_pcb t s
  end.

(** A schedule; a thread that cannot step is passed over. *)
Fixpoint run (l : list (nat * call)) : P unit :=
  match l with
  | [] => mret tt
  | (t, c) :: l => λ s, match step t c s with Blocked => run l s | Ret (_, s') => run l s' | r => r end
  end.

(** [userprog_init]: the kernel's main thread is a process without a status. *)
Definition init : sys := mk_sys {[ 0%nat := User ]} {[ 0%nat := mk_process None None ]} {[ 0%nat := [] ]} ∅ 1 0 [].
End Process.
