(* ===== verification/ProcessProofs.v ===== *)
(** * Processes: what [wait] and [exit] promise under every schedule

    An invariant of the machine of [Process] relates each [process_status] to the places of its
    parent and its child.  From it follow: the reference count frees a status exactly when both
    have finished with it, a status is never used after that, [process_wait] returns what the
    child passed to [exit], once, and some thread can always run. *)

From stdpp Require Import base tactics numbers list option gmap.
From S2P Require Import Prelude State Process.

Open Scope Z_scope.

Module ProcessProofs.
Import Process.

(** ** The places of child and parent *)

Definition place_of (s : sys) (t : nat) : place := default Dead (threads s !! t).

Definition alive (x : place) : bool := match x with Start _ _ _ | Dead => false | _ => true end.

(** How far the child is in [process_exit]. *)
Inductive crole := CRun | CExit | CUp | CDec | CGone.
Definition crole_of (x : place) : crole :=
  match x with ExitSema => CExit | ExitRef => CUp | ExitFree => CDec | ExitPcb | Dead => CGone | _ => CRun end.

(** What the parent of [c] does with the status [st]. *)
Inductive prole := PNone | PLoad | PSema | PRef (code : Z) | PFree (code : Z).
Definition prole_of (st c : nat) (x : place) : prole :=
  match x with
  | Loading (Some c') _ true => if decide (c' = c) then PLoad else PNone
  | WaitSema st' => if decide (st' = st) then PSema else PNone
  | WaitRef st' code => if decide (st' = st) then PRef code else PNone
  | WaitFree st' code => if decide (st' = st) then PFree code else PNone
  | _ => PNone
  end.
Definition waiting (r : prole) : bool := match r with PSema | PRef _ | PFree _ => true | _ => false end.

(** The calls of [process_wait] that returned an exit code other than -1 of process [c]. *)
Definition returned (c : nat) (e : event) : bool :=
  match e with WaitReturned _ pid code => bool_decide (pid = Z.of_nat c) && negb (code =? -1) | _ => false end.
Definition returns (c : nat) (tr : list event) : nat := length (filter (λ e, returned c e = true) tr).

(** ** The invariant *)

(** The status [x] of child [c] with parent [p]. *)
Record status_ok (tr : list event) (p c : nat) (x : process_status) (cr : crole) (pr : prole) : Prop := mk_status_ok {
  so_ref : ref_count x = (match cr with CRun | CExit | CUp => 1 | _ => 0 end) +
    (if is_waited_on x then match pr with PSema | PRef _ => 1 | _ => 0 end else 1);
  so_sem : wait_sem x = match cr with CRun | CExit => 0 | _ => if is_waited_on x then match pr with PSema => 1 | _ => 0 end else 1 end;
  so_waited : waiting pr = true → is_waited_on x = true;
  so_order : is_waited_on x = true → pr ≠ PSema → cr ≠ CRun ∧ cr ≠ CExit;
  so_code code : pr = PRef code ∨ pr = PFree code → code = exit_code x;
  so_exit : cr ≠ CRun → Exited c (exit_code x) ∈ tr;
  so_zero : ref_count x = 0 ↔ cr = CDec ∨ ∃ code, pr = PFree code;
  so_dec : cr = CDec → waiting pr = false;
  so_spawn : pr = PLoad ∨ Spawned p (Z.of_nat c) ∈ tr;
  so_once : (0 < returns c tr)%nat → is_waited_on x = true ∧ waiting pr = false }.

Definition child_in (s : sys) (p st : nat) : Prop := ∃ l, children_status s !! p = Some l ∧ st ∈ l.

Record linked (s : sys) (st p c : nat) (x : process_status) : Prop := mk_linked {
  lk_tid : tid x = Z.of_nat c;
  lk_lt : (p < c < next_tid s)%nat;
  lk_child : child_in s p st;
  lk_ok : status_ok (trace s) p c x (crole_of (place_of s c)) (prole_of st c (place_of s p));
  lk_proc : crole_of (place_of s c) ≠ CGone → procs s !! c = Some (mk_process (Some st) (Some p)) }.

Record trace_ok (s : sys) : Prop := mk_trace_ok {
  tr_exited c r : Exited c r ∈ trace s → (c < next_tid s)%nat ∧ crole_of (place_of s c) ≠ CRun ∧ ∀ r', Exited c r' ∈ trace s → r' = r;
  tr_returned p z r : WaitReturned p z r ∈ trace s →
    r = -1 ∨ ∃ c, z = Z.of_nat c ∧ Exited c r ∈ trace s ∧ Spawned p z ∈ trace s;
  tr_once c : (returns c (trace s) ≤ 1)%nat }.

Definition fresh_status : process_status := mk_status (-1) (-1) false 0 0.

Record inv (s : sys) : Prop := mk_inv {
  v_thread t : is_Some (threads s !! t) ↔ (t < next_tid s)%nat;
  v_status st : is_Some (statuses s !! st) → (st < next_status s)%nat;
  v_link st x : statuses s !! st = Some x → (tid x = -1 ∧ ∀ p, ¬ child_in s p st) ∨ ∃ p c, linked s st p c x;
  v_tid st1 st2 x1 x2 : statuses s !! st1 = Some x1 → statuses s !! st2 = Some x2 → tid x1 = tid x2 → tid x1 ≠ -1 → st1 = st2;
  v_children p l : children_status s !! p = Some l → NoDup l ∧ ∀ st, st ∈ l → is_Some (statuses s !! st);
  v_owner st p q : child_in s p st → child_in s q st → p = q;
  v_proc t : is_Some (procs s !! t) ↔ alive (place_of s t) = true;
  v_has t : is_Some (procs s !! t) → is_Some (children_status s !! t);
  v_my t r : procs s !! t = Some r → (t = 0%nat ∧ my_status r = None ∧ crole_of (place_of s t) = CRun) ∨
    ∃ st p, r = mk_process (Some st) (Some p) ∧ (crole_of (place_of s t) ≠ CGone → ∃ x, statuses s !! st = Some x ∧ tid x = Z.of_nat t);
  v_wait p st c : waiting (prole_of st c (place_of s p)) = true → child_in s p st;
  v_start t p st ok : place_of s t = Start p st ok → (p < t)%nat ∧ place_of s p = Loading (Some t) 0 false ∧
    statuses s !! st = Some fresh_status ∧ (∀ st' x, statuses s !! st' = Some x → tid x ≠ Z.of_nat t) ∧
    ∀ t' p' ok', place_of s t' = Start p' st ok' → t' = t;
  v_loading p c n b : place_of s p = Loading (Some c) n b → (p < c)%nat ∧ (n = 0 ∧ b = false ∧ (∃ st ok, place_of s c = Start p st ok) ∨ n = 1);
  v_none p n b : place_of s p = Loading None n b → n = 0 ∧ b = false;
  v_kids t : is_Some (children_status s !! t) → (t < next_tid s)%nat ∧ ∀ p st ok, place_of s t ≠ Start p st ok;
  v_trace : trace_ok s }.

Lemma place_insert s t p u : place_of (set_threads s (<[t := p]> (threads s))) u = if decide (u = t) then p else place_of s u.
Proof. unfold place_of. cbn. case_decide; [subst; by rewrite lookup_insert_eq|by rewrite lookup_insert_ne]. Qed.

Lemma inv_init : inv init.
Proof.
  assert (∀ t, place_of init t = if decide (t = 0%nat) then User else Dead) as Hp.
  { intros t. unfold place_of, init. cbn. case_decide; [subst; done|]. rewrite lookup_singleton_ne by done. done. }
  assert (∀ p st, ¬ child_in init p st) as Hc.
  { intros p st (l & Hl & Hst). cbn in Hl. apply lookup_singleton_Some in Hl as [_ <-]. by apply not_elem_of_nil in Hst. }
  assert (∀ t p st ok, place_of init t ≠ Start p st ok) as Hs by (intros; rewrite Hp; by case_decide).
  assert (∀ t c n b, place_of init t ≠ Loading c n b) as Hl by (intros; rewrite Hp; by case_decide).
  constructor.
  - intros t. cbn. destruct (decide (t = 0%nat)) as [->|]; [split; [lia|by eexists]|]. rewrite lookup_singleton_ne by done. split; [by intros []|lia].
  - by intros st [].
  - done.
  - done.
  - intros p l H. cbn in H. apply lookup_singleton_Some in H as [_ <-]. split; [constructor|]. intros st Hst. by apply not_elem_of_nil in Hst.
  - intros st p q H. by destruct (Hc p st).
  - intros t. rewrite Hp. cbn. destruct (decide (t = 0%nat)) as [->|]; [by split|]. rewrite lookup_singleton_ne by done. split; [by intros []|done].
  - intros t. cbn. destruct (decide (t = 0%nat)) as [->|]; [done|]. rewrite lookup_singleton_ne by done. by intros [].
  - intros t r Hr. cbn in Hr. apply lookup_singleton_Some in Hr as [<- <-]. by left.
  - intros p st c. rewrite Hp. by case_decide.
  - intros t p st ok H. by destruct (Hs t p st ok).
  - intros p c n b H. by destruct (Hl p (Some c) n b).
  - intros p n b H. by destruct (Hl p None n b).
  - intros t [l H]. cbn in H. apply lookup_singleton_Some in H as [<- _]. split; [cbn; lia|done].
  - constructor; cbn; [intros c r H; by apply not_elem_of_nil in H|intros p z r H; by apply not_elem_of_nil in H|]. intros c. cbn. lia.
Qed.

(** ** A step of the parent or the child on one status *)

Lemma status_mono tr tr' p c x cr pr : status_ok tr p c x cr pr → (∀ e, e ∈ tr → e ∈ tr') → returns c tr' = returns c tr →
  status_ok tr' p c x cr pr.
Proof.
  intros [H1 H2 H3 H4 H5 H6 H7 Hd H8 H9] Hin Hr. constructor; try done; [by auto| |by rewrite Hr].
  destruct H8; [by left|right; by apply Hin].
Qed.

(** The status [st0] becomes [o], or is freed and taken from the list of its parent; thread [t]
    moves to [pl]. *)
Definition after (s : sys) (t : nat) (pl : place) (p0 st0 : nat) (o : option process_status) (evs : list event) : sys :=
  mk_sys (<[t := pl]> (threads s)) (procs s)
    (match o with Some _ => children_status s | None => alter (filter (λ x, x ≠ st0)) p0 (children_status s) end)
    (partial_alter (λ _, o) st0 (statuses s)) (next_tid s) (next_status s) (evs ++ trace s).

Section local.
Context (s : sys) (t : nat) (pl : place) (p0 c0 st0 : nat) (x0 : process_status) (o : option process_status) (evs : list event).
Context (Hi : inv s) (Hl : linked s st0 p0 c0 x0) (Hx : statuses s !! st0 = Some x0).
Context (Hold : alive (place_of s t) = true) (Hnew : alive pl = true).
Context (Ho1 : ∀ c n b, place_of s t ≠ Loading c n b) (Hn1 : ∀ c n b, pl ≠ Loading c n b).
Context (Hother : ∀ st c, st ≠ st0 → prole_of st c pl = PNone ∧ prole_of st c (place_of s t) = PNone).
Context (Hwho : (t = p0 ∧ crole_of pl = CRun ∧ crole_of (place_of s t) = CRun) ∨
  (t = c0 ∧ crole_of (place_of s t) ≠ CGone ∧ ∀ st c, prole_of st c pl = PNone ∧ prole_of st c (place_of s t) = PNone)).

Local Abbreviation s' := (after s t pl p0 st0 o evs).
Context (Hstat : match o with
  | Some x => tid x = tid x0 ∧ status_ok (evs ++ trace s) p0 c0 x (crole_of (place_of s' c0)) (prole_of st0 c0 (place_of s' p0))
  | None => waiting (prole_of st0 c0 (place_of s' p0)) = false ∧ crole_of (place_of s' c0) = CGone
  end).
Context (Hret : ∀ c, c ≠ c0 → returns c (evs ++ trace s) = returns c (trace s)).
Context (Htr : trace_ok s').

Lemma after_place u : place_of s' u = if decide (u = t) then pl else place_of s u.
Proof. apply (place_insert s). Qed.

Lemma after_status st : st ≠ st0 → statuses s' !! st = statuses s !! st.
Proof. intros. cbn. by rewrite lookup_partial_alter_ne. Qed.

Lemma after_child p st : child_in s' p st ↔ child_in s p st ∧ (st = st0 → o ≠ None).
Proof using All.
  unfold child_in. cbn. destruct o as [x|]; [naive_solver|]. split.
  - intros (l & Hl' & Hst). destruct (decide (p = p0)) as [->|].
    + rewrite lookup_alter_eq in Hl'. destruct (children_status s !! p0) as [l0|] eqn:E; [|done]. injection Hl' as <-.
      apply list_elem_of_filter in Hst as [Hne Hst]. split; [by eexists|done].
    + rewrite lookup_alter_ne in Hl' by done. split; [by eexists|]. intros ->. exfalso.
      assert (p = p0); [|done]. apply (v_owner _ Hi st0); [by eexists|apply Hl].
  - intros [(l & Hl' & Hst) Hne]. assert (st ≠ st0) by naive_solver. destruct (decide (p = p0)) as [->|].
    + rewrite lookup_alter_eq, Hl'. eexists. split; [done|]. by apply list_elem_of_filter.
    + exists l. by rewrite lookup_alter_ne.
Qed.

Lemma waiting_any st c c' x : waiting (prole_of st c x) = waiting (prole_of st c' x).
Proof using Type. destruct x as [|[q|] n []| | | | | | | | |]; cbn; try done; by repeat case_decide. Qed.

(** Another status sees nothing of it. *)
Lemma after_linked st p c x : st ≠ st0 → statuses s !! st = Some x → linked s st p c x → linked s' st p c x.
Proof using All.
  intros Hne Hst [K1 K2 K3 K4 K5].
  assert (c ≠ c0) as Hc. { intros ->. apply Hne. apply (v_tid _ Hi _ _ _ _ Hst Hx); [|lia]. rewrite K1. by rewrite (lk_tid _ _ _ _ _ Hl). }
  assert (crole_of (place_of s' c) = crole_of (place_of s c)) as Ec.
  { rewrite after_place. case_decide as Hd; [|done]. subst c. destruct Hwho as [(_ & -> & ->)|[? _]]; done. }
  assert (prole_of st c (place_of s' p) = prole_of st c (place_of s p)) as Ep.
  { rewrite after_place. case_decide as Hd; [|done]. subst p. by destruct (Hother st c Hne) as [-> ->]. }
  constructor; [done|done| | |].
  - apply after_child. split; [done|]. by intros ->.
  - rewrite Ec, Ep. eapply status_mono; [exact K4| |by apply Hret]. intros e He. cbn. apply elem_of_app. by right.
  - rewrite Ec. done.
Qed.

Lemma same_tid st x : statuses s' !! st = Some x → ∃ y, statuses s !! st = Some y ∧ tid y = tid x.
Proof using All.
  destruct (decide (st = st0)) as [->|]; [|rewrite after_status by done; by exists x].
  cbn. rewrite lookup_partial_alter_eq. intros E. exists x0. split; [done|]. pose proof Hstat as HS. rewrite E in HS. by destruct HS as [-> _].
Qed.

Lemma inv_after : inv s'.
Proof using All.
  pose proof (lk_lt _ _ _ _ _ Hl) as Hlt. pose proof (lk_tid _ _ _ _ _ Hl) as Htid.
  assert (t < next_tid s)%nat as Ht by (destruct Hwho as [[-> _]|[-> _]]; lia).
  constructor.
  - intros u. cbn. destruct (decide (u = t)) as [->|]; [rewrite lookup_insert_eq; split; [done|by eexists]|].
    rewrite lookup_insert_ne by done. apply Hi.
  - intros st H. destruct (decide (st = st0)) as [->|]; [|rewrite after_status in H by done; by apply (v_status _ Hi)].
    apply (v_status _ Hi). by eexists.
  - intros st x H. destruct (decide (st = st0)) as [->|Hne].
    + cbn in H. rewrite lookup_partial_alter_eq in H. pose proof Hstat as HS. rewrite H in HS. destruct HS as [E1 E2]. right. exists p0, c0. constructor; [by rewrite E1|done| |done|].
      * apply after_child. split; [apply Hl|by rewrite H].
      * intros Hc. apply (lk_proc _ _ _ _ _ Hl). intros Hc'. apply Hc. rewrite after_place in Hc |- *. case_decide as Hd; [|done].
        subst t. by destruct Hwho as [(E & _)|(_ & E & _)]; [lia|].
    + rewrite after_status in H by done. destruct (v_link _ Hi st x H) as [[E1 E2]|(p & c & Hlk)].
      * left. split; [done|]. intros p Hp. apply after_child in Hp as [Hp _]. by apply (E2 p).
      * right. exists p, c. by apply after_linked.
  - intros st1 st2 x1 x2 H1 H2 E Hn. destruct (same_tid st1 x1 H1) as (y1 & G1 & E1), (same_tid st2 x2 H2) as (y2 & G2 & E2).
    apply (v_tid _ Hi st1 st2 y1 y2 G1 G2); congruence.
  - intros p l H. assert (∀ st, child_in s' p st → is_Some (statuses s' !! st)) as Hc.
    { intros st Hst. apply after_child in Hst as [(l' & Hl' & Hst) Hne]. destruct (v_children _ Hi p l' Hl') as [_ Hs].
      destruct (decide (st = st0)) as [->|]; [|rewrite after_status by done; by apply Hs].
      cbn. rewrite lookup_partial_alter_eq. clear Htr. destruct o; [by eexists|by destruct (Hne eq_refl)]. }
    split; [|intros st Hst; apply Hc; by exists l]. cbn in H. destruct o as [x|]; [by apply (v_children _ Hi p)|].
    destruct (decide (p = p0)) as [->|]; [|rewrite lookup_alter_ne in H by done; by apply (v_children _ Hi p)].
    rewrite lookup_alter_eq in H. destruct (children_status s !! p0) as [l0|] eqn:E; [|done]. injection H as <-.
    apply NoDup_filter. by apply (v_children _ Hi p0).
  - intros st p q [H1 _]%after_child [H2 _]%after_child. by apply (v_owner _ Hi st).
  - intros u. change (procs s') with (procs s). rewrite (v_proc _ Hi), after_place. case_decide; [subst; by rewrite Hold, Hnew|done].
  - intros u H. change (procs s') with (procs s) in H. destruct (v_has _ Hi u H) as [l El]. cbn. destruct o; [by eexists|].
    destruct (decide (u = p0)) as [->|]; [rewrite lookup_alter_eq, El|rewrite lookup_alter_ne by done]; by eexists.
  - intros u r H. change (procs s') with (procs s) in H. destruct (v_my _ Hi u r H) as [(-> & E1 & E2)|(st & p & -> & E)].
    + left. split; [done|]. split; [done|]. rewrite after_place. case_decide as Hd; [|done]. subst t.
      destruct Hwho as [(_ & ? & _)|[E0 _]]; [done|lia].
    + right. exists st, p. split; [done|]. intros Hc.
      assert (crole_of (place_of s u) ≠ CGone) as Hc'.
      { rewrite after_place in Hc. case_decide as Hd; [|done]. subst u. by destruct Hwho as [(_ & _ & ->)|(_ & ? & _)]. }
      destruct (E Hc') as (x & Hst & Ex). destruct (decide (st = st0)) as [->|Hne]; [|exists x; by rewrite after_status].
      assert (x = x0) as -> by congruence. cbn. rewrite lookup_partial_alter_eq. destruct o as [x|].
      * exists x. split; [done|]. by destruct Hstat as [-> _].
      * destruct Hstat as [_ E2]. assert (u = c0) as -> by lia. done.
  - intros p st c H. assert (child_in s p st ∧ (st = st0 → p = p0)) as [Hc Hp].
    { rewrite after_place in H. case_decide as Hd.
      - rewrite Hd in *. destruct (decide (st = st0)) as [->|Hne]; [|by rewrite (proj1 (Hother st c Hne)) in H].
        destruct Hwho as [(-> & _)|(_ & _ & E)]; [split; [apply Hl|done]|by rewrite (proj1 (E st0 c)) in H].
      - pose proof (v_wait _ Hi p st c H) as Hc. split; [done|]. intros ->. apply (v_owner _ Hi st0); [done|apply Hl]. }
    apply after_child. split; [done|]. intros -> Eo. rewrite (Hp eq_refl), (waiting_any st0 c c0) in H.
    assert (waiting (prole_of st0 c0 (place_of s' p0)) = false) as HS by (clear -Hstat Eo; destruct o; [done|apply Hstat]). by rewrite H in HS.
  - intros u p st ok H. assert (u ≠ t) as Hu by (intros Hd; rewrite after_place, decide_True in H by done; by rewrite H in Hnew).
    rewrite after_place, decide_False in H by done. destruct (v_start _ Hi u p st ok H) as (E1 & E2 & E3 & E4 & E5).
    assert (p ≠ t) as Hp by (intros Hd; rewrite Hd in E2; by destruct (Ho1 (Some u) 0 false)).
    assert (st ≠ st0) as Hst by (intros Hd; rewrite Hd, Hx in E3; injection E3 as ->; cbn in Htid; lia).
    split; [done|]. rewrite after_place, decide_False by done. split; [done|]. rewrite after_status by done. split; [done|]. split.
    + intros st' x Hst'. destruct (same_tid st' x Hst') as (y & Hy & <-). by apply (E4 st').
    + intros t' p' ok' H'. rewrite after_place in H'. case_decide; [by rewrite H' in Hnew|]. by apply (E5 t' p' ok').
  - intros p c n b H. rewrite after_place in H. case_decide; [by destruct (Hn1 (Some c) n b)|].
    destruct (v_loading _ Hi p c n b H) as [E1 E2]. split; [done|]. destruct E2 as [(En & Eb & st & ok & E2)|E2]; [left|by right].
    split; [done|]. split; [done|]. exists st, ok. rewrite after_place, decide_False; [done|]. intros Hd. by rewrite <- Hd, E2 in Hold.
  - intros p n b H. rewrite after_place in H. case_decide; [by destruct (Hn1 None n b)|]. by apply (v_none _ Hi p n b).
  - intros u H. assert (is_Some (children_status s !! u)) as Hu.
    { clear -H. cbn in H. destruct o; [done|]. destruct (decide (u = p0)) as [->|]; [|by rewrite lookup_alter_ne in H].
      rewrite lookup_alter_eq in H. destruct (children_status s !! p0); [by eexists|by destruct H]. }
    destruct (v_kids _ Hi u Hu) as [E1 E2]. split; [done|]. intros p st ok. rewrite after_place. case_decide; [|done]. intros E. by rewrite E in Hnew.
  - done.
Qed.
End local.

(** ** One status, step by step *)

Lemma so_wait tr p c x cr : status_ok tr p c x cr PNone → is_waited_on x = false → status_ok tr p c (set_waited x true) cr PSema.
Proof.
  intros [] Hw. rewrite Hw in *. constructor; cbn; try done; try lia.
  - intros code [H|H]; done.
  - destruct so_zero0 as [H1 H2]. rewrite so_ref0 in *. split; [intros H|intros [->|[code H]]; [|done]].
    + destruct (H1 H) as [?|[code H']]; [by left|done].
    + apply H2. by left.
  - intros ->. destruct so_zero0 as [_ H2]. pose proof (H2 (or_introl eq_refl)). lia.
  - right. by destruct so_spawn0.
Qed.

Lemma so_down tr p c x cr : status_ok tr p c x cr PSema → wait_sem x ≠ 0 →
  status_ok tr p c (set_wait_sem x (wait_sem x - 1)) cr (PRef (exit_code x)).
Proof.
  intros [] Hs. pose proof (so_waited0 eq_refl) as Hw. rewrite Hw in *. constructor; cbn; rewrite ?Hw; try done; try lia.
  - destruct cr; lia.
  - intros _ _. destruct cr; (split; [|]; intros E; done || lia).
  - intros code [[= ->]|H]; done.
  - rewrite so_zero0. split; (intros [?|[code H]]; [by left|done]).
  - right. by destruct so_spawn0.
Qed.

Lemma so_unref tr p c x cr code : status_ok tr p c x cr (PRef code) → ref_count x - 1 = 0 →
  status_ok tr p c (set_ref_count x (ref_count x - 1)) cr (PFree code).
Proof.
  intros [] H0. pose proof (so_waited0 eq_refl) as Hw. rewrite Hw in *. constructor; cbn; rewrite ?Hw; try done.
  - lia.
  - intros _ _. by apply so_order0.
  - intros code' [H|[= <-]]; [done|]. apply so_code0. by left.
  - rewrite H0. split; [intros _; right; by eexists|done].
  - right. by destruct so_spawn0.
Qed.

Lemma returns_cons c e tr : returns c (e :: tr) = ((if returned c e then 1 else 0) + returns c tr)%nat.
Proof. unfold returns. rewrite filter_cons. destruct (returned c e) eqn:E; [by rewrite decide_True|by rewrite decide_False]. Qed.

Lemma so_return tr p c x cr code e : status_ok tr p c x cr (PRef code) → ref_count x - 1 ≠ 0 →
  status_ok (e :: tr) p c (set_ref_count x (ref_count x - 1)) cr PNone.
Proof.
  intros [] H0. pose proof (so_waited0 eq_refl) as Hw. rewrite Hw in *. constructor; cbn; rewrite ?Hw; try done; try lia.
  - intros _ _. apply so_order0; done.
  - intros code' [H|H]; done.
  - intros H. right. by apply so_exit0.
  - split; [done|]. intros [->|[code' H]]; [|done]. exfalso. destruct so_zero0 as [_ H2]. pose proof (H2 (or_introl eq_refl)). lia.
  - right. right. by destruct so_spawn0.
Qed.

Lemma so_exiting tr p c x pr code : status_ok tr p c x CRun pr → status_ok (Exited c code :: tr) p c (set_exit_code x code) CExit pr.
Proof.
  intros []. constructor; cbn; try done.
  - intros Hw Hp. by destruct (so_order0 Hw Hp).
  - intros code' H. exfalso. assert (is_waited_on x = true) as Hw by (apply so_waited0; by destruct H as [-> | ->]).
    destruct (so_order0 Hw) as [? _]; [|done]. by destruct H as [-> | ->].
  - intros _. by left.
  - rewrite so_zero0. split; (intros [?|?]; [done|by right]).
  - destruct so_spawn0; [by left|right; by right].
Qed.

Lemma so_up tr p c x pr : status_ok tr p c x CExit pr → status_ok tr p c (set_wait_sem x (wait_sem x + 1)) CUp pr.
Proof.
  intros []. constructor; cbn; try done.
  - rewrite so_sem0. destruct (is_waited_on x) eqn:Hw; [|done]. destruct pr; try done; by destruct (so_order0 eq_refl).
  - intros _. by apply so_exit0.
  - rewrite so_zero0. split; (intros [?|?]; [done|by right]).
Qed.

Lemma so_drop tr p c x pr : status_ok tr p c x CUp pr →
  status_ok tr p c (set_ref_count x (ref_count x - 1)) (if ref_count x - 1 =? 0 then CDec else CGone) pr.
Proof.
  intros []. assert (ref_count x ≠ 0 ∧ ∀ code, pr ≠ PFree code) as [Hr Hp].
  { destruct so_zero0 as [H1 H2]. assert (¬ ∃ code, pr = PFree code) as Hn.
    { intros [code ->]. pose proof (H2 ltac:(right; by eexists)). rewrite (so_waited0 eq_refl) in so_ref0. lia. }
    split; [|naive_solver]. intros H. by destruct (H1 H). }
  destruct (Z.eqb_spec (ref_count x - 1) 0) as [E|E]; constructor; cbn; try done; try lia.
  - intros _. by apply so_exit0.
  - split; [by left|done].
  - intros _. destruct pr; try done; [rewrite so_waited0 in so_ref0 by done; lia..|by destruct (Hp code)].
  - intros _. by apply so_exit0.
  - split; [done|]. intros [?|[code ->]]; [done|]. by destruct (Hp code).
Qed.

(** ** Steps *)

(** The child is about to take itself out of the list of a parent whose PCB is gone. *)
Definition orphan (s : sys) (t : nat) : Prop :=
  place_of s t = ExitFree ∧ ∃ st p, procs s !! t = Some (mk_process (Some st) (Some p)) ∧ procs s !! p = None.

(** [t] waits for [u]: for it to load, or for its exit. *)
Definition waits_for (s : sys) (t u : nat) : Prop :=
  place_of s t = Loading (Some u) 0 false ∨
  ∃ st x, place_of s t = WaitSema st ∧ statuses s !! st = Some x ∧ tid x = Z.of_nat u ∧ wait_sem x = 0.

(** What a step of [t] may give. *)
Definition good (s : sys) (t : nat) (r : outcome (unit * sys)) : Prop :=
  match r with
  | Ret (_, s') => inv s'
  | Blocked => place_of s t = Dead ∨ place_of s t = Loading None 0 false ∨
      ∃ u, waits_for s t u ∧ (t < u)%nat ∧ place_of s u ≠ Dead
  | UB => orphan s t
  | Panic => False
  end.

Lemma get_status_run s st x : statuses s !! st = Some x → get_status st s = Ret (x, s).
Proof. intros H. unfold get_status. by rewrite H. Qed.
Lemma get_process_run s t r : procs s !! t = Some r → get_process t s = Ret (r, s).
Proof. intros H. unfold get_process. by rewrite H. Qed.

Lemma place_thread s t x : place_of s t = x → x ≠ Dead → threads s !! t = Some x.
Proof. unfold place_of. destruct (threads s !! t); cbn; naive_solver. Qed.
Lemma thread_place s t x : threads s !! t = Some x → place_of s t = x.
Proof. unfold place_of. by intros ->. Qed.

(** The status that a parent waits for. *)
Lemma wait_linked s p st : inv s → waiting (prole_of st 0 (place_of s p)) = true → ∃ x c, statuses s !! st = Some x ∧ linked s st p c x.
Proof.
  intros Hi Hw. pose proof (v_wait _ Hi p st 0 Hw) as Hc. pose proof Hc as (l & Hl & Hst). destruct (proj2 (v_children _ Hi p l Hl) st Hst) as [x Hx].
  destruct (v_link _ Hi st x Hx) as [[_ H]|(q & c & Hlk)]; [by destruct (H p)|].
  rewrite (v_owner _ Hi st p q Hc (lk_child _ _ _ _ _ Hlk)) in *. by exists x, c.
Qed.

(** The status of an exiting process. *)
Lemma my_linked s t : inv s → alive (place_of s t) = true → crole_of (place_of s t) ≠ CGone → crole_of (place_of s t) ≠ CRun ∨ t ≠ 0%nat →
  ∃ st p x, procs s !! t = Some (mk_process (Some st) (Some p)) ∧ statuses s !! st = Some x ∧ linked s st p t x.
Proof.
  intros Hi Ha Hg Hr. destruct (proj2 (v_proc _ Hi t) Ha) as [r Er].
  destruct (v_my _ Hi t r Er) as [(-> & _ & E)|(st & p & -> & E)]; [by destruct Hr|].
  destruct (E Hg) as (x & Hx & Et). destruct (v_link _ Hi st x Hx) as [[? _]|(q & c & Hlk)]; [lia|].
  assert (c = t) as -> by (pose proof (lk_tid _ _ _ _ _ Hlk); lia).
  pose proof (lk_proc _ _ _ _ _ Hlk Hg) as Eq. rewrite Er in Eq. injection Eq as <-. by exists st, p, x.
Qed.

(** The trace after a step that adds at most a [wait] that returned. *)
Lemma trace_after s s' : trace_ok s → trace s' = trace s → next_tid s' = next_tid s →
  (∀ c, crole_of (place_of s c) ≠ CRun → crole_of (place_of s' c) ≠ CRun) → trace_ok s'.
Proof.
  intros [T1 T2 T3] Et En Hr. constructor; rewrite Et, ?En; [|done..].
  intros c r H. destruct (T1 c r H) as (? & ? & ?). split; [done|]. split; [by apply Hr|done].
Qed.

Lemma trace_return s s' p c code : trace_ok s → trace s' = WaitReturned p (Z.of_nat c) code :: trace s → next_tid s' = next_tid s →
  (∀ c, crole_of (place_of s c) ≠ CRun → crole_of (place_of s' c) ≠ CRun) →
  Exited c code ∈ trace s → Spawned p (Z.of_nat c) ∈ trace s → returns c (trace s) = 0%nat → trace_ok s'.
Proof.
  intros [T1 T2 T3] Et En Hr He Hs H0. constructor; rewrite Et, ?En.
  - intros d r [?|H]%elem_of_cons; [done|]. destruct (T1 d r H) as (? & ? & H2). split; [done|]. split; [by apply Hr|].
    intros r' [?|H']%elem_of_cons; [done|by apply H2].
  - intros q z r [[= -> -> ->]|H]%elem_of_cons.
    + right. exists c. split; [done|]. split; by right.
    + destruct (T2 q z r H) as [?|(d & ? & ? & ?)]; [by left|]. right. exists d. split; [done|]. split; by right.
  - intros d. rewrite returns_cons. specialize (T3 d). destruct (returned d _) eqn:E; [|lia].
    unfold returned in E. apply andb_true_iff in E as [E%bool_decide_eq_true _]. assert (d = c) as -> by lia. lia.
Qed.

Lemma step_wait_sema s t st : inv s → place_of s t = WaitSema st → good s t (wait_sema t st s).
Proof.
  intros Hi Hp. destruct (wait_linked s t st Hi) as (x & c & Hx & Hlk); [rewrite Hp; cbn; by rewrite decide_True|].
  unfold wait_sema. pose proof (lk_lt _ _ _ _ _ Hlk) as Hlt.
  rewrite (st_bind_run _ _ _ _ _ (get_status_run s st x Hx)). destruct (Z.eqb_spec (wait_sem x) 0) as [E0|Hn].
  { right. right. exists c. split; [right; exists st, x; by destruct Hlk|]. split; [lia|]. intros Ed.
    pose proof (lk_ok _ _ _ _ _ Hlk) as Ho. rewrite Hp, Ed in Ho. cbn in Ho. rewrite decide_True in Ho by done.
    pose proof (so_sem _ _ _ _ _ _ Ho) as H. rewrite (so_waited _ _ _ _ _ _ Ho eq_refl) in H. lia. }
  change (inv (after s t (WaitRef st (exit_code x)) t st (Some (set_wait_sem x (wait_sem x - 1))) [])).
  eapply (inv_after s t _ t c st x); try done; rewrite ?Hp; try done.
  - intros st' c' Hne. cbn. by rewrite !decide_False.
  - by left.
  - split; [done|]. rewrite !after_place. rewrite decide_False, decide_True by lia. cbn. rewrite decide_True by done.
    apply so_down; [|done]. pose proof (lk_ok _ _ _ _ _ Hlk) as Ho. rewrite Hp in Ho. cbn in Ho. by rewrite decide_True in Ho.
  - apply (trace_after s); [apply Hi|done|done|]. intros d. rewrite after_place. case_decide as Hd; [|done]. subst d. by rewrite Hp.
Qed.

Lemma step_wait_ref s t st code : inv s → place_of s t = WaitRef st code → good s t (wait_ref t st code s).
Proof.
  intros Hi Hp. destruct (wait_linked s t st Hi) as (x & c & Hx & Hlk); [rewrite Hp; cbn; by rewrite decide_True|].
  pose proof (lk_lt _ _ _ _ _ Hlk) as Hlt. pose proof (lk_tid _ _ _ _ _ Hlk) as Htid.
  pose proof (lk_ok _ _ _ _ _ Hlk) as Ho. rewrite Hp in Ho. cbn in Ho. rewrite decide_True in Ho by done.
  assert (code = exit_code x) as Ecode by (apply (so_code _ _ _ _ _ _ Ho); by left).
  assert (∀ c', crole_of (place_of s c') ≠ CRun → crole_of (if decide (c' = t) then User else place_of s c') ≠ CRun) as Hmono.
  { intros d. case_decide as Hd; [|done]. subst d. by rewrite Hp. }
  unfold wait_ref. rewrite (st_bind_run _ _ _ _ _ (get_status_run s st x Hx)).
  change (put_status st ?y ≫= ?f) with (λ w, (put_status st y ≫= f) w). cbn beta. rewrite (st_bind_run _ _ _ _ _ eq_refl).
  destruct (Z.eqb_spec (ref_count x - 1) 0) as [E0|E0].
  - change (inv (after s t (WaitFree st code) t st (Some (set_ref_count x (ref_count x - 1))) [])).
    eapply (inv_after s t _ t c st x); try done; rewrite ?Hp; try done.
    + intros st' c' Hne. cbn. by rewrite !decide_False.
    + by left.
    + split; [done|]. rewrite !after_place. rewrite decide_False, decide_True by lia. cbn. rewrite decide_True by done. by apply so_unref.
    + apply (trace_after s); [apply Hi|done|done|]. intros d. rewrite after_place. case_decide as Hd; [|done]. subst d. by rewrite Hp.
  - change (inv (after s t User t st (Some (set_ref_count x (ref_count x - 1))) [WaitReturned t (tid x) code])).
    pose proof (so_waited _ _ _ _ _ _ Ho eq_refl) as Hw.
    assert (crole_of (place_of s c) ≠ CRun) as Hc by (by apply (so_order _ _ _ _ _ _ Ho Hw)).
    eapply (inv_after s t _ t c st x); try done; rewrite ?Hp; try done.
    + intros st' c' Hne. cbn. by rewrite !decide_False.
    + by left.
    + split; [done|]. rewrite !after_place. rewrite decide_False, decide_True by lia. cbn. by apply (so_return _ _ _ _ _ code).
    + intros d Hd. cbn [app]. rewrite returns_cons. cbn [returned]. rewrite bool_decide_eq_false_2 by lia. done.
    + rewrite Htid. apply (trace_return s _ t c code); [apply Hi|done|done| | | |].
      * intros d. by rewrite after_place; apply Hmono.
      * rewrite Ecode. by apply (so_exit _ _ _ _ _ _ Ho).
      * by destruct (so_spawn _ _ _ _ _ _ Ho).
      * destruct (returns c (trace s)) eqn:E; [done|]. destruct (so_once _ _ _ _ _ _ Ho) as [_ ?]; [lia|done].
Qed.

Lemma list_remove_run s p st : child_in s p st → is_Some (procs s !! p) →
  ∃ l, children_status s !! p = Some l ∧ list_remove p st s = Ret (tt, set_children s (<[p := filter (λ x, x ≠ st) l]> (children_status s))).
Proof.
  intros (l & Hl & Hst) [r Hr]. exists l. split; [done|]. unfold list_remove. rewrite Hl, decide_False by (intros H; by apply H).
  rewrite decide_False; [done|]. rewrite Hr. by intros [_ ?].
Qed.

Lemma list_remove_cases s p st : child_in s p st →
  ∃ l, children_status s !! p = Some l ∧ (list_remove p st s = Ret (tt, set_children s (<[p := filter (λ x, x ≠ st) l]> (children_status s))) ∨
    list_remove p st s = UB ∧ procs s !! p = None).
Proof.
  intros (l & Hl & Hst). exists l. split; [done|]. unfold list_remove. rewrite Hl, decide_False by (intros H; by apply H).
  case_decide as H; [right|by left]. split; [done|apply H].
Qed.

Lemma removed_after s t pl p st l evs : children_status s !! p = Some l →
  mk_sys (<[t := pl]> (threads s)) (procs s) (<[p := filter (λ x, x ≠ st) l]> (children_status s)) (delete st (statuses s)) (next_tid s) (next_status s) (evs ++ trace s) =
  after s t pl p st None evs.
Proof.
  intros Hl. unfold after. f_equal. apply map_eq. intros q. destruct (decide (q = p)) as [->|].
  - by rewrite lookup_insert_eq, lookup_alter_eq, Hl.
  - by rewrite lookup_insert_ne, lookup_alter_ne.
Qed.

Lemma step_wait_free s t st code : inv s → place_of s t = WaitFree st code → good s t (wait_free t st code s).
Proof.
  intros Hi Hp. destruct (wait_linked s t st Hi) as (x & c & Hx & Hlk); [rewrite Hp; cbn; by rewrite decide_True|].
  pose proof (lk_lt _ _ _ _ _ Hlk) as Hlt. pose proof (lk_tid _ _ _ _ _ Hlk) as Htid.
  pose proof (lk_ok _ _ _ _ _ Hlk) as Ho. rewrite Hp in Ho. cbn in Ho. rewrite decide_True in Ho by done.
  assert (code = exit_code x) as Ecode by (apply (so_code _ _ _ _ _ _ Ho); by right).
  pose proof (so_waited _ _ _ _ _ _ Ho eq_refl) as Hw.
  assert (crole_of (place_of s c) = CGone) as Hc.
  { pose proof (proj2 (so_zero _ _ _ _ _ _ Ho) ltac:(right; by eexists)) as H0. pose proof (so_ref _ _ _ _ _ _ Ho) as Hr.
    rewrite H0, Hw in Hr. destruct (so_order _ _ _ _ _ _ Ho Hw) as [E1 E2]; [done|]. destruct (crole_of (place_of s c)) eqn:E; try done; try lia. by pose proof (so_dec _ _ _ _ _ _ Ho eq_refl). }
  unfold wait_free. rewrite (st_bind_run _ _ _ _ _ (get_status_run s st x Hx)).
  destruct (list_remove_run s t st (lk_child _ _ _ _ _ Hlk)) as (l & Hl & E). { apply Hi. by rewrite Hp. }
  rewrite (st_bind_run _ _ _ _ _ E). unfold free_status at 1. rewrite st_bind_unfold. cbn [statuses set_children]. rewrite Hx.
  cbn [mbind outcome_bind]. unfold return_wait. cbn -[filter alter].
  change (inv (mk_sys (<[t := User]> (threads s)) (procs s) (<[t := filter (λ x, x ≠ st) l]> (children_status s)) (delete st (statuses s)) (next_tid s) (next_status s) ([WaitReturned t (tid x) code] ++ trace s))).
  rewrite (removed_after _ _ _ _ _ _ _ Hl).
  eapply (inv_after s t _ t c st x); try done; rewrite ?Hp; try done.
  - intros st' c' Hne. cbn. by rewrite !decide_False.
  - by left.
  - rewrite !after_place. rewrite decide_True, decide_False by lia. done.
  - intros d Hd. cbn [app]. rewrite returns_cons. cbn [returned]. rewrite bool_decide_eq_false_2 by lia. done.
  - rewrite Htid. apply (trace_return s _ t c code); [apply Hi|done|done| | | |].
    + intros d. rewrite after_place. case_decide as Hd; [|done]. subst d. by rewrite Hp.
    + rewrite Ecode. apply (so_exit _ _ _ _ _ _ Ho). by rewrite Hc.
    + by destruct (so_spawn _ _ _ _ _ _ Ho).
    + destruct (returns c (trace s)) eqn:E1; [done|]. destruct (so_once _ _ _ _ _ _ Ho) as [_ ?]; [lia|done].
Qed.

(** A step of the child [t] on its own status. *)
Lemma child_step s t pl st p x y evs : inv s → linked s st p t x → statuses s !! st = Some x →
  crole_of (place_of s t) ≠ CGone → (∀ st c, prole_of st c (place_of s t) = PNone) →
  alive (place_of s t) = true → (∀ c n b, place_of s t ≠ Loading c n b) →
  pl = ExitSema ∨ pl = ExitRef ∨ pl = ExitFree ∨ pl = ExitPcb →
  tid y = tid x → status_ok (evs ++ trace s) p t y (crole_of pl) (prole_of st t (place_of s p)) →
  (∀ c, c ≠ t → returns c (evs ++ trace s) = returns c (trace s)) →
  trace_ok (after s t pl p st (Some y) evs) → inv (after s t pl p st (Some y) evs).
Proof.
  intros Hi Hlk Hx Hg Hp Ha Hld Hpl Hy Ho Hr Htr. pose proof (lk_lt _ _ _ _ _ Hlk) as Hlt.
  assert (∀ st c, prole_of st c pl = PNone) as Hp' by (intros; by destruct Hpl as [-> | [-> | [-> | ->]]]).
  eapply (inv_after s t pl p t st x); try done.
  - by destruct Hpl as [-> | [-> | [-> | ->]]].
  - intros c n b. by destruct Hpl as [-> | [-> | [-> | ->]]].
  - right. split; [done|]. split; [done|]. by intros.
  - split; [done|]. rewrite !after_place. rewrite decide_True, decide_False by lia. done.
Qed.

Lemma step_exit_process s t code : inv s → place_of s t = User → t ≠ 0%nat → good s t (exit_process t code s).
Proof.
  intros Hi Hp H0. destruct (my_linked s t Hi) as (st & p & x & Er & Hx & Hlk); [by rewrite Hp|by rewrite Hp|by right|].
  unfold exit_process. rewrite (st_bind_run _ _ _ _ _ (get_process_run s t _ Er)). cbn [my_status].
  rewrite (st_bind_run _ _ _ _ _ (get_status_run s st x Hx)).
  change (inv (after s t ExitSema p st (Some (set_exit_code x code)) [Exited t code])).
  apply (child_step s t ExitSema st p x); try done; rewrite ?Hp; try done; [by left| |].
  - pose proof (lk_ok _ _ _ _ _ Hlk) as Ho. rewrite Hp in Ho. by apply so_exiting.
  - destruct (v_trace _ Hi) as [T1 T2 T3]. constructor; cbn [trace after next_tid app].
    + intros c r [[= -> ->]|H]%elem_of_cons.
      * split; [apply Hlk|]. rewrite after_place, decide_True by done. split; [done|].
        intros r' [[= ->]|H']%elem_of_cons; [done|]. destruct (T1 t r' H') as (_ & E & _). by rewrite Hp in E.
      * destruct (T1 c r H) as (E1 & E2 & E3). split; [done|]. rewrite after_place. split; [by case_decide|].
        intros r' [[= -> ->]|H']%elem_of_cons; [by rewrite Hp in E2|by apply E3].
    + intros q z r [?|H]%elem_of_cons; [done|]. destruct (T2 q z r H) as [?|(c & ? & ? & ?)]; [by left|]. right. exists c.
      split; [done|]. split; by right.
    + intros c. rewrite returns_cons. apply T3.
Qed.

Lemma step_exit_sema s t : inv s → place_of s t = ExitSema → good s t (exit_sema t s).
Proof.
  intros Hi Hp. destruct (my_linked s t Hi) as (st & p & x & Er & Hx & Hlk); [by rewrite Hp|by rewrite Hp|left; by rewrite Hp|].
  unfold exit_sema. rewrite (st_bind_run _ _ _ _ _ (get_process_run s t _ Er)). cbn [my_status].
  rewrite (st_bind_run _ _ _ _ _ (get_status_run s st x Hx)).
  change (inv (after s t ExitRef p st (Some (set_wait_sem x (wait_sem x + 1))) [])).
  apply (child_step s t ExitRef st p x); try done; rewrite ?Hp; try done; [by right; left| |].
  - pose proof (lk_ok _ _ _ _ _ Hlk) as Ho. rewrite Hp in Ho. by apply so_up.
  - apply (trace_after s); [apply Hi|done|done|]. intros d. rewrite after_place. by case_decide.
Qed.

Lemma step_exit_ref s t : inv s → place_of s t = ExitRef → good s t (exit_ref t s).
Proof.
  intros Hi Hp. destruct (my_linked s t Hi) as (st & p & x & Er & Hx & Hlk); [by rewrite Hp|by rewrite Hp|left; by rewrite Hp|].
  unfold exit_ref. rewrite (st_bind_run _ _ _ _ _ (get_process_run s t _ Er)). cbn [my_status].
  rewrite (st_bind_run _ _ _ _ _ (get_status_run s st x Hx)).
  set (pl := if ref_count x - 1 =? 0 then ExitFree else ExitPcb).
  change (inv (after s t pl p st (Some (set_ref_count x (ref_count x - 1))) [])).
  assert (pl = ExitFree ∨ pl = ExitPcb) as Hpl by (unfold pl; case_match; auto).
  apply (child_step s t pl st p x); try done; rewrite ?Hp; try done; [by right; right| |].
  - pose proof (lk_ok _ _ _ _ _ Hlk) as Ho. rewrite Hp in Ho. apply so_drop in Ho. unfold pl. by destruct (ref_count x - 1 =? 0).
  - apply (trace_after s); [apply Hi|done|done|]. intros d. rewrite after_place. case_decide; [by destruct Hpl as [-> | ->]|done].
Qed.

Lemma step_exit_free s t : inv s → place_of s t = ExitFree → good s t (exit_free t s).
Proof.
  intros Hi Hp. destruct (my_linked s t Hi) as (st & p & x & Er & Hx & Hlk); [by rewrite Hp|by rewrite Hp|left; by rewrite Hp|].
  pose proof (lk_lt _ _ _ _ _ Hlk) as Hlt. pose proof (lk_ok _ _ _ _ _ Hlk) as Ho. rewrite Hp in Ho.
  unfold exit_free. rewrite (st_bind_run _ _ _ _ _ (get_process_run s t _ Er)). cbn [my_status parent_process].
  destruct (list_remove_cases s p st (lk_child _ _ _ _ _ Hlk)) as (l & Hl & [E|[E Hn]]).
  2:{ rewrite st_bind_unfold, E. cbn. split; [done|]. by exists st, p. }
  rewrite (st_bind_run _ _ _ _ _ E). unfold free_status at 1. rewrite st_bind_unfold. cbn [statuses set_children]. rewrite Hx.
  cbn [mbind outcome_bind].
  change (inv (mk_sys (<[t := ExitPcb]> (threads s)) (procs s) (<[p := filter (λ x, x ≠ st) l]> (children_status s)) (delete st (statuses s)) (next_tid s) (next_status s) ([] ++ trace s))).
  rewrite (removed_after _ _ _ _ _ _ _ Hl).
  eapply (inv_after s t _ p t st x); try done; rewrite ?Hp; try done.
  - right. split; [done|]. split; [done|]. by intros.
  - rewrite !after_place. rewrite decide_False, decide_True by lia. split; [|done]. by apply (so_dec _ _ _ _ _ _ Ho).
  - apply (trace_after s); [apply Hi|done|done|]. intros d. rewrite after_place. by case_decide.
Qed.

(** ** Steps that return to user code *)

Lemma so_quiet tr p c x cr pr evs : status_ok tr p c x cr pr → waiting pr = false → (pr = PLoad → Spawned p (Z.of_nat c) ∈ evs) →
  returns c (evs ++ tr) = returns c tr → status_ok (evs ++ tr) p c x cr PNone.
Proof.
  intros [] Hw Hs Er. constructor; rewrite ?Er; try done.
  - rewrite so_ref0. by destruct pr.
  - rewrite so_sem0. by destruct pr.
  - intros H _. apply so_order0; [done|]. by destruct pr.
  - intros code [H|H]; done.
  - intros H. apply elem_of_app. right. by apply so_exit0.
  - rewrite so_zero0. split; (intros [?|[code E]]; [by left|]); [by rewrite E in Hw|done].
  - right. apply elem_of_app. destruct so_spawn0 as [E|E]; [left; by apply Hs|by right].
  - intros H. by destruct (so_once0 H).
Qed.

Definition quiet_event (t : nat) (e : event) : Prop := (∃ z, e = Spawned t z) ∨ ∃ z, e = WaitReturned t z (-1).

Lemma quiet_returns t evs c tr : Forall (quiet_event t) evs → returns c (evs ++ tr) = returns c tr.
Proof.
  induction 1 as [|e evs He _ IH]; [done|]. cbn [app]. rewrite returns_cons, IH.
  assert (returned c e = false) as ->; [|done]. destruct He as [[z ->]|[z ->]]; cbn; [done|]. by rewrite andb_false_r.
Qed.

Lemma trace_quiet s s' t evs : trace_ok s → trace s' = evs ++ trace s → (next_tid s ≤ next_tid s')%nat → Forall (quiet_event t) evs →
  (∀ c, (c < next_tid s)%nat → crole_of (place_of s c) ≠ CRun → crole_of (place_of s' c) ≠ CRun) → trace_ok s'.
Proof.
  intros [T1 T2 T3] Et En He Hr. rewrite Forall_forall in He.
  assert (∀ c r, Exited c r ∈ trace s' → Exited c r ∈ trace s) as Hx.
  { intros c r. rewrite Et. intros [H|H]%elem_of_app; [|done]. by destruct (He _ H) as [[z ?]|[z ?]]. }
  constructor.
  - intros c r H%Hx. destruct (T1 c r H) as (? & ? & E). split; [lia|]. split; [by apply Hr|]. intros r' H'%Hx. by apply E.
  - intros q z r. rewrite Et. intros [H|H]%elem_of_app.
    + left. destruct (He _ H) as [[z' ?]|[z' E]]; [done|by injection E].
    + destruct (T2 q z r H) as [?|(c & ? & ? & ?)]; [by left|right]. exists c. split; [done|].
      split; apply elem_of_app; by right.
  - intros c. rewrite Et, (quiet_returns t) by by apply Forall_forall. apply T3.
Qed.

(** [t] moves to [pl] and adds [evs] to the trace. *)
Definition moved (s : sys) (t : nat) (pl : place) (evs : list event) : sys :=
  mk_sys (<[t := pl]> (threads s)) (procs s) (children_status s) (statuses s) (next_tid s) (next_status s) (evs ++ trace s).

Lemma inv_moved s t pl evs : inv s → alive (place_of s t) = true → crole_of (place_of s t) = CRun →
  pl = User ∨ pl = Loading None 0 false →
  (∀ st c, waiting (prole_of st c (place_of s t)) = false ∧ (prole_of st c (place_of s t) = PLoad → Spawned t (Z.of_nat c) ∈ evs)) →
  (∀ c b, place_of s t ≠ Loading c 0 b) → Forall (quiet_event t) evs → inv (moved s t pl evs).
Proof.
  intros Hi Ha Hr Hpl Hp Hld He. set (s' := moved s t pl evs).
  assert (alive pl = true ∧ crole_of pl = CRun) as [Hal Hrole] by by destruct Hpl as [-> | ->].
  assert (∀ st c, prole_of st c pl = PNone) as Hno by by destruct Hpl as [-> | ->].
  assert (∀ u, place_of s' u = if decide (u = t) then pl else place_of s u) as Epl by (intros u; apply (place_insert s)).
  assert (∀ u, crole_of (place_of s' u) = crole_of (place_of s u)) as Ecr by (intros u; rewrite Epl; case_decide; [by subst; rewrite Hrole|done]).
  assert (∀ u p st ok, place_of s' u = Start p st ok ↔ place_of s u = Start p st ok) as Est.
  { intros u p st ok. rewrite Epl. case_decide as Hd; [|done]. subst u. split; intros E; by rewrite E in *. }
  constructor.
  - intros u. cbn. destruct (decide (u = t)) as [->|]; [|rewrite lookup_insert_ne by done; apply Hi].
    rewrite lookup_insert_eq. split; [|by eexists]. intros _. apply Hi. unfold place_of in Ha. destruct (threads s !! t); [by eexists|done].
  - apply Hi.
  - intros st x Hx. destruct (v_link _ Hi st x Hx) as [H|(p & c & [K1 K2 K3 K4 K5])]; [by left|]. right. exists p, c.
    constructor; try done; rewrite ?Ecr; try done. rewrite Epl. pose proof (quiet_returns t evs c (trace s) He) as Hret. case_decide as Hd.
    + subst p. destruct (Hp st c) as [E1 E2]. rewrite Hno. by eapply so_quiet.
    + change (trace s') with (evs ++ trace s). eapply status_mono; [exact K4| |done]. intros e' H. apply elem_of_app. by right.
  - apply Hi.
  - apply Hi.
  - apply Hi.
  - intros u. rewrite Epl. change (procs s') with (procs s). rewrite (v_proc _ Hi). case_decide; [subst; by rewrite Ha, Hal|done].
  - apply Hi.
  - intros u r. rewrite Ecr. apply Hi.
  - intros p st c. rewrite Epl. case_decide; [by rewrite Hno|]. apply Hi.
  - intros u p st ok Hu. apply Est in Hu. destruct (v_start _ Hi u p st ok Hu) as (E1 & E2 & E3 & E4 & E5).
    split; [done|]. split; [|split; [done|split; [done|]]].
    + rewrite Epl. case_decide as Hd; [|done]. subst p. by destruct (Hld (Some u) false).
    + intros t' p' ok' H. apply Est in H. by apply (E5 t' p' ok').
  - intros p c n b H. rewrite Epl in H. case_decide; [by destruct Hpl; congruence|].
    destruct (v_loading _ Hi p c n b H) as [E1 [(? & ? & st & ok & E2)|?]]; [|by split; [|right]].
    split; [done|]. left. split; [done|]. split; [done|]. exists st, ok. by apply Est.
  - intros p n b H. rewrite Epl in H. case_decide; [|by apply (v_none _ Hi p n b)]. destruct Hpl; subst pl; [done|by injection H].
  - intros u H. destruct (v_kids _ Hi u H) as [E1 E2]. split; [done|]. intros p st ok E. apply Est in E. by apply (E2 p st ok).
  - apply (trace_quiet s s' t evs); [apply Hi|done|done|done|]. intros c _. by rewrite Ecr.
Qed.

Lemma user_quiet s t e : inv s → place_of s t = User → quiet_event t e → inv (moved s t User [e]).
Proof. intros Hi Hp He. apply inv_moved; rewrite ?Hp; try done; [by left|by constructor]. Qed.

Lemma find_child_run s l z : (∀ st, st ∈ l → is_Some (statuses s !! st)) → ∃ o, find_child l z s = Ret (o, s) ∧
  match o with Some st => st ∈ l ∧ ∃ x, statuses s !! st = Some x ∧ tid x = z | None => ∀ st x, st ∈ l → statuses s !! st = Some x → tid x ≠ z end.
Proof.
  induction l as [|st l IH]; intros Hl; [exists None; split; [done|]; intros st x H; by apply not_elem_of_nil in H|].
  destruct (Hl st) as [x Hx]; [by left|]. cbn [find_child]. rewrite (st_bind_run _ _ _ _ _ (get_status_run s st x Hx)).
  destruct (Z.eqb_spec (tid x) z) as [E|E]; [exists (Some st); split; [done|]; split; [by left|by exists x]|].
  destruct IH as (o & Eo & Ho); [intros; apply Hl; by right|]. exists o. split; [done|]. destruct o as [st'|].
  - destruct Ho as [H1 H2]. split; [by right|done].
  - intros st' x' [->|H]%elem_of_cons Hx'; [congruence|by apply (Ho st')].
Qed.

Lemma step_process_wait s t z : inv s → place_of s t = User → good s t (process_wait t z s).
Proof.
  intros Hi Hp. destruct (proj2 (v_proc _ Hi t)) as [r Er]; [by rewrite Hp|]. destruct (v_has _ Hi t) as [l El]; [by eexists|].
  assert (get_children t s = Ret (l, s)) as E by (unfold get_children; by rewrite Er, El).
  unfold process_wait. rewrite (st_bind_run _ _ _ _ _ E). destruct (find_child_run s l z) as (o & Eo & Ho); [by apply (v_children _ Hi t)|].
  rewrite (st_bind_run _ _ _ _ _ Eo). assert (∀ z, inv (moved s t User [WaitReturned t z (-1)])) as Hq.
  { intros z'. apply user_quiet; [done|done|]. right. by eexists. }
  destruct o as [st|]; [|apply Hq]. destruct Ho as (Hst & x & Hx & _).
  rewrite (st_bind_run _ _ _ _ _ (get_status_run s st x Hx)). destruct (is_waited_on x) eqn:Ew; [apply Hq|].
  destruct (v_link _ Hi st x Hx) as [[_ H]|(p & c & Hlk)]; [destruct (H t); by exists l|].
  assert (p = t) as ->. { apply (v_owner _ Hi st); [apply Hlk|by exists l]. }
  pose proof (lk_lt _ _ _ _ _ Hlk) as Hlt.
  change (inv (after s t (WaitSema st) t st (Some (set_waited x true)) [])).
  eapply (inv_after s t _ t c st x); try done; rewrite ?Hp; try done.
  - intros st' c' Hne. cbn. by rewrite !decide_False.
  - by left.
  - split; [done|]. rewrite !after_place. rewrite decide_False, decide_True by lia. cbn. rewrite decide_True by done.
    apply so_wait; [|done]. pose proof (lk_ok _ _ _ _ _ Hlk) as Ho. by rewrite Hp in Ho.
  - apply (trace_after s); [apply Hi|done|done|]. intros d. rewrite after_place. case_decide as Hd; [|done]. subst d. by rewrite Hp.
Qed.

Lemma step_loaded s t pid n b : inv s → place_of s t = Loading pid n b → good s t (loaded t pid n b s).
Proof.
  intros Hi Hp. unfold loaded. destruct (Z.eqb_spec n 0) as [->|Hn].
  { cbn. right. rewrite Hp. destruct pid as [c|]; [right|left; by destruct (v_none _ Hi t 0 b Hp) as [_ ->]].
    destruct (v_loading _ Hi t c 0 b Hp) as [E [(_ & -> & st & ok & Es)|?]]; [|done]. exists c. split; [by left|]. split; [done|by rewrite Es]. }
  destruct pid as [c|]; [|by destruct Hn; apply (v_none _ Hi t n b)].
  change (inv (moved s t User [Spawned t (if b then Z.of_nat c else TID_ERROR)])).
  apply inv_moved; rewrite ?Hp; try done; [by left| | |by repeat constructor; eexists].
  - intros st d. cbn. destruct b; [|done]. case_decide; [|done]. split; [done|]. intros _. subst. by left.
  - intros c' b' [= _ H _]. done.
Qed.
End ProcessProofs.
