(* ===== verification/ProcessSafety.v ===== *)
(** * Processes: creation, and what holds under every schedule

    The steps of [Process] that create processes preserve the invariant of [ProcessProofs]; with
    its other steps, every schedule does.  The theorems say what the invariant gives for the
    program: reference counting of a [process_status], the exit codes that [process_wait]
    returns, and that a blocked thread always waits for one that can run. *)

From stdpp Require Import base tactics numbers list option gmap relations.
From S2P Require Import Prelude State Process ProcessProofs.

Open Scope Z_scope.

Module ProcessSafety.
Import Process ProcessProofs.

(** ** A new status *)

Definition with_status (s : sys) : sys :=
  mk_sys (threads s) (procs s) (children_status s) (<[next_status s := fresh_status]> (statuses s)) (next_tid s) (S (next_status s)) (trace s).

Lemma new_status_run s : new_status s = Ret (next_status s, with_status s).
Proof. done. Qed.

Lemma status_new s : inv s → statuses s !! next_status s = None.
Proof. intros Hi. destruct (statuses s !! next_status s) eqn:E; [|done]. pose proof (v_status _ Hi (next_status s) ltac:(by eexists)). lia. Qed.

Lemma with_status_old s st x : inv s → statuses s !! st = Some x → statuses (with_status s) !! st = Some x.
Proof. intros Hi H. cbn. rewrite lookup_insert_ne; [done|]. intros <-. by rewrite (status_new s Hi) in H. Qed.

Lemma with_status_cases s st x : statuses (with_status s) !! st = Some x → st = next_status s ∧ x = fresh_status ∨ statuses s !! st = Some x.
Proof. cbn. intros [[<- <-]|[_ H]]%lookup_insert_Some; [by left|by right]. Qed.

Lemma inv_with_status s : inv s → inv (with_status s).
Proof.
  intros Hi. constructor; try apply Hi.
  - intros st [x Hx]. apply with_status_cases in Hx as [[-> _]|Hx]; cbn; [lia|].
    pose proof (v_status _ Hi st ltac:(by eexists)). lia.
  - intros st x Hx. apply with_status_cases in Hx as [[-> ->]|Hx].
    + left. split; [done|]. intros p (l & Hl & Hst). destruct (proj2 (v_children _ Hi p l Hl) _ Hst) as [y Hy].
      by rewrite (status_new s Hi) in Hy.
    + destruct (v_link _ Hi st x Hx) as [?|(p & c & [])]; [by left|right; by exists p, c].
  - intros st1 st2 x1 x2 H1 H2. apply with_status_cases in H1 as [[-> ->]|H1], H2 as [[-> ->]|H2]; [done|intros _ H; by destruct H|by intros ->|by apply (v_tid _ Hi)].
  - intros p l Hl. destruct (v_children _ Hi p l Hl) as [Hn Hs]. split; [done|]. intros st Hst.
    destruct (Hs st Hst) as [x Hx]. exists x. by apply with_status_old.
  - intros t r Hr. destruct (v_my _ Hi t r Hr) as [?|(st & p & -> & E)]; [by left|right]. exists st, p. split; [done|].
    intros Hc. destruct (E Hc) as (x & Hx & ?). exists x. split; [|done]. by apply with_status_old.
  - intros t p st ok Hp. destruct (v_start _ Hi t p st ok Hp) as (E1 & E2 & E3 & E4 & E5). split; [done|]. split; [done|].
    split; [by apply with_status_old|]. split; [|done]. intros st' x Hx. apply with_status_cases in Hx as [[_ ->]|Hx]; [cbn; lia|by eapply E4].
  - by destruct (v_trace _ Hi).
Qed.

(** No thread that is starting has the new status. *)
Lemma with_status_unused s t p ok : inv s → place_of (with_status s) t ≠ Start p (next_status s) ok.
Proof.
  intros Hi H. destruct (v_start _ Hi t p _ ok H) as (_ & _ & E & _). by rewrite (status_new s Hi) in E.
Qed.

(** ** [thread_create] *)

Definition spawned (s : sys) (t st : nat) (ok : bool) : sys :=
  let c := next_tid s in
  mk_sys (<[t := Loading (Some c) 0 false]> (<[c := Start t st ok]> (threads s))) (procs s) (children_status s) (statuses s)
    (S c) (next_status s) (trace s).

Lemma inv_spawned s t st ok : inv s → place_of s t = User → statuses s !! st = Some fresh_status →
  (∀ u p ok', place_of s u ≠ Start p st ok') → inv (spawned s t st ok).
Proof.
  intros Hi Hp Hst Hun. set (c := next_tid s). set (s' := spawned s t st ok).
  assert (t < c)%nat as Ht by (apply (v_thread _ Hi); rewrite (place_thread s t _ Hp) by done; by eexists).
  assert (threads s !! c = None) as Hc.
  { destruct (threads s !! c) eqn:E; [|done]. pose proof (proj1 (v_thread _ Hi c) ltac:(by eexists)). unfold c in *. lia. }
  assert (∀ u, place_of s' u = if decide (u = t) then Loading (Some c) 0 false else if decide (u = c) then Start t st ok else place_of s u) as Epl.
  { intros u. unfold place_of at 1. cbn. case_decide as Hd; [subst; by rewrite lookup_insert_eq|]. rewrite lookup_insert_ne by done.
    case_decide; [subst; by rewrite lookup_insert_eq|by rewrite lookup_insert_ne]. }
  assert (place_of s c = Dead) as Hdead by (unfold place_of; by rewrite Hc).
  assert (∀ u, (u < c)%nat → crole_of (place_of s' u) = crole_of (place_of s u)) as Ecr.
  { intros u Hu. rewrite Epl. case_decide as Hd; [by subst; rewrite Hp|]. by rewrite decide_False by lia. }
  assert (∀ u st' d, prole_of st' d (place_of s' u) = prole_of st' d (place_of s u)) as Epr.
  { intros u st' d. rewrite Epl. case_decide as Hd; [by subst; rewrite Hp|]. case_decide; [by subst; rewrite Hdead|done]. }
  assert (∀ u, alive (place_of s' u) = alive (place_of s u)) as Eal.
  { intros u. rewrite Epl. case_decide as Hd; [by subst; rewrite Hp|]. case_decide; [by subst; rewrite Hdead|done]. }
  assert (∀ u p st' ok', place_of s' u = Start p st' ok' → u = c ∧ p = t ∧ st' = st ∨ u ≠ c ∧ u ≠ t ∧ st' ≠ st ∧ place_of s u = Start p st' ok') as Est.
  { intros u p st' ok'. rewrite Epl. case_decide as Hd; [done|]. case_decide as Hd'; [intros [= -> -> ->]; by left|]. right.
    split; [done|]. split; [done|]. split; [|done]. intros ->. by apply (Hun u p ok'). }
  assert (∀ st' x, statuses s !! st' = Some x → tid x ≠ Z.of_nat c) as Hnew.
  { intros st' x Hx E. destruct (v_link _ Hi st' x Hx) as [[? _]|(p & d & [K1 K2 _ _ _])]; [lia|]. unfold c in E. lia. }
  constructor; try apply Hi.
  - intros u. cbn. rewrite !lookup_insert_is_Some. fold c. pose proof (v_thread _ Hi u) as Hu. fold c in Hu.
    destruct (decide (u = t)); [split; [lia|by left]|]. destruct (decide (u = c)); [split; [lia|right; split; [done|by left]]|].
    split; [intros [?|[_ [?|[_ H%Hu]]]]; lia|]. intros. right. split; [done|]. right. split; [done|]. apply Hu. lia.
  - intros st' x Hx. destruct (v_link _ Hi st' x Hx) as [?|(p & d & [K1 K2 K3 K4 K5])]; [by left|]. right. exists p, d.
    fold c in K2. constructor; [done|cbn; fold c; lia|done| |]; rewrite Ecr by lia; [by rewrite Epr|done].
  - intros u. rewrite Eal. apply Hi.
  - intros u r Hr. assert (u < c)%nat as Hu.
    { apply (v_thread _ Hi). destruct (threads s !! u) eqn:E; [by eexists|]. pose proof (proj1 (v_proc _ Hi u) ltac:(by eexists)) as H.
      unfold place_of in H. by rewrite E in H. }
    rewrite Ecr by done. by apply Hi.
  - intros p st' d. rewrite Epr. apply Hi.
  - intros u p st' ok' Hu. apply Est in Hu as [(-> & -> & ->)|(Hu & Hu' & Hne & E)].
    + split; [done|]. split; [by rewrite Epl, decide_True|]. split; [done|]. split; [done|].
      intros t' p' ok'' [(? & _)|(_ & _ & ? & _)]%Est; done.
    + destruct (v_start _ Hi u p st' ok' E) as (E1 & E2 & E3 & E4 & E5). split; [done|]. rewrite Epl.
      rewrite decide_False by congruence. rewrite decide_False by congruence. split; [done|]. split; [done|]. split; [done|].
      intros t' p' ok'' [(_ & _ & ?)|(_ & _ & _ & ?)]%Est; [done|by eapply E5].
  - intros p d n b H. rewrite Epl in H. case_decide as Hd.
    + subst p. injection H as <- <- <-. split; [done|]. left. split; [done|]. split; [done|]. exists st, ok.
      rewrite Epl, decide_False by lia. by rewrite decide_True.
    + case_decide; [done|]. destruct (v_loading _ Hi p d n b H) as [E1 E2]. split; [done|].
      destruct E2 as [(-> & -> & st' & ok' & E2)|E2]; [left|by right]. split; [done|]. split; [done|]. exists st', ok'.
      rewrite Epl. rewrite decide_False by congruence. by rewrite decide_False by congruence.
  - intros p n b H. rewrite Epl in H. case_decide; [done|]. case_decide; [done|]. by apply (v_none _ Hi p).
  - intros u H. destruct (v_kids _ Hi u H) as [E1 E2]. fold c in E1. split; [cbn; fold c; lia|]. intros p st' ok' [(? & _)|(_ & _ & _ & E)]%Est; [lia|].
    by apply (E2 p st' ok').
  - apply (trace_quiet s s' t []); [apply Hi|done|cbn; lia|done|]. intros u Hu. by rewrite Ecr.
Qed.

(** ** [start_process] *)

(** Loading failed: the parent is told and the new thread is gone. *)
Definition not_started (s : sys) (t p : nat) : sys :=
  set_threads s (<[t := Dead]> (<[p := Loading (Some t) 1 false]> (threads s))).

Lemma not_started_place s t p u : place_of (not_started s t p) u =
  if decide (u = t) then Dead else if decide (u = p) then Loading (Some t) 1 false else place_of s u.
Proof.
  unfold place_of at 1. cbn. case_decide; [subst; by rewrite lookup_insert_eq|]. rewrite lookup_insert_ne by done.
  case_decide; [subst; by rewrite lookup_insert_eq|by rewrite lookup_insert_ne].
Qed.

Lemma inv_not_started s t p st : inv s → place_of s t = Start p st false → inv (not_started s t p).
Proof.
  intros Hi Ht. destruct (v_start _ Hi t p st false Ht) as (Hlt & Hp & Hst & Hnew & Huni). set (s' := not_started s t p).
  pose proof (not_started_place s t p : ∀ u, place_of s' u = _) as Epl.
  assert (∀ u st' d, prole_of st' d (place_of s' u) = prole_of st' d (place_of s u)) as Epr.
  { intros u st' d. rewrite Epl. case_decide; [by subst; rewrite Ht|]. case_decide; [by subst; rewrite Hp|done]. }
  assert (∀ u, alive (place_of s' u) = alive (place_of s u)) as Eal.
  { intros u. rewrite Epl. case_decide; [by subst; rewrite Ht|]. case_decide; [by subst; rewrite Hp|done]. }
  assert (∀ u, u ≠ t → crole_of (place_of s' u) = crole_of (place_of s u)) as Ecr.
  { intros u Hu. rewrite Epl, decide_False by done. case_decide; [by subst; rewrite Hp|done]. }
  assert (∀ u p' st' ok, place_of s' u = Start p' st' ok → u ≠ t ∧ u ≠ p ∧ place_of s u = Start p' st' ok) as Est.
  { intros u p' st' ok. rewrite Epl. by repeat case_decide. }
  constructor; try apply Hi.
  - intros u. cbn. rewrite !lookup_insert_is_Some. rewrite <- (v_thread _ Hi).
    pose proof (place_thread s t _ Ht ltac:(done)) as H1. pose proof (place_thread s p _ Hp ltac:(done)) as H2.
    destruct (decide (u = t)) as [->|]; [rewrite H1; split; [by eexists|by left]|].
    destruct (decide (u = p)) as [->|]; [rewrite H2; split; [by eexists|intros _; right; split; [done|by left]]|].
    split; [intros [?|[_ [?|[_ ?]]]]; done|]. intros. right. split; [done|]. right. by split.
  - intros st' x Hx. destruct (v_link _ Hi st' x Hx) as [?|(q & c & [K1 K2 K3 K4 K5])]; [by left|]. right. exists q, c.
    assert (c ≠ t) by (intros ->; by apply (Hnew st' x)). constructor; try done; rewrite Ecr by done; [by rewrite Epr|done].
  - intros u. rewrite Eal. apply Hi.
  - intros u r Hr. assert (u ≠ t) as Hu.
    { intros ->. pose proof (proj1 (v_proc _ Hi t) ltac:(by eexists)) as H. by rewrite Ht in H. }
    rewrite Ecr by done. by apply Hi.
  - intros q st' c. rewrite Epr. apply Hi.
  - intros u q st' ok (Hu & Hu' & E)%Est. destruct (v_start _ Hi u q st' ok E) as (E1 & E2 & E3 & E4 & E5). split; [done|].
    rewrite Epl. rewrite decide_False by congruence. rewrite decide_False by congruence. split; [done|].
    split; [done|]. split; [done|]. intros t' p' ok' (_ & _ & ?)%Est. by eapply E5.
  - intros q c n b H. rewrite Epl in H. case_decide; [done|]. case_decide.
    + subst q. injection H as <- <- <-. split; [done|by right].
    + destruct (v_loading _ Hi q c n b H) as [E1 E2]. split; [done|].
      destruct E2 as [(-> & -> & st' & ok' & E2)|E2]; [left|by right]. split; [done|]. split; [done|]. exists st', ok'.
      rewrite Epl. rewrite decide_False by congruence. by rewrite decide_False by congruence.
  - intros q n b H. rewrite Epl in H. case_decide; [done|]. case_decide; [done|]. by apply (v_none _ Hi q).
  - intros u H. destruct (v_kids _ Hi u H) as [E1 E2]. split; [done|]. intros q st' ok' (_ & _ & E)%Est. by apply (E2 q st' ok').
  - apply (trace_quiet s s' t []); [apply Hi|done|done|done|]. intros u _ Hu. rewrite Ecr; [done|]. intros ->. by rewrite Ht in Hu.
Qed.

(** The new process: [st] is its status, in the list [l] of its parent from now on. *)
Definition started (s : sys) (t p st : nat) (l : list nat) : sys :=
  mk_sys (<[t := User]> (<[p := Loading (Some t) 1 true]> (threads s))) (<[t := mk_process (Some st) (Some p)]> (procs s))
    (<[p := st :: l]> (<[t := []]> (children_status s))) (<[st := mk_status (Z.of_nat t) (-1) false 2 0]> (statuses s))
    (next_tid s) (next_status s) (trace s).

Section started.
Context (s : sys) (t p st : nat) (l : list nat).
Context (Hi : inv s) (Ht : place_of s t = Start p st true) (Hl : children_status s !! p = Some l).

Local Abbreviation s1 := (started s t p st l).

Local Lemma start_facts : (p < t < next_tid s)%nat ∧ place_of s p = Loading (Some t) 0 false ∧ statuses s !! st = Some fresh_status ∧
  (∀ st' x, statuses s !! st' = Some x → tid x ≠ Z.of_nat t) ∧ (∀ q, ¬ child_in s q st) ∧ children_status s !! t = None.
Proof using All.
  destruct (v_start _ Hi t p st true Ht) as (E1 & E2 & E3 & E4 & _). split; [split; [done|]|].
  { apply (v_thread _ Hi). rewrite (place_thread s t _ Ht) by done. by eexists. }
  split; [done|]. split; [done|]. split; [done|]. split.
  - destruct (v_link _ Hi st _ E3) as [[_ ?]|(q & c & [K _ _ _ _])]; [done|]. cbn in K. lia.
  - destruct (children_status s !! t) eqn:E; [|done]. destruct (v_kids _ Hi t ltac:(by eexists)) as [_ H]. by destruct (H p st true).
Qed.

Local Lemma started_place u : place_of s1 u = if decide (u = t) then User else if decide (u = p) then Loading (Some t) 1 true else place_of s u.
Proof using Type.
  unfold place_of at 1. cbn. case_decide; [subst; by rewrite lookup_insert_eq|]. rewrite lookup_insert_ne by done.
  case_decide; [subst; by rewrite lookup_insert_eq|by rewrite lookup_insert_ne].
Qed.

Local Lemma started_child q st' : child_in s1 q st' ↔ child_in s q st' ∨ q = p ∧ st' = st.
Proof using All.
  destruct start_facts as (Hlt & _ & _ & _ & _ & Hn). unfold child_in. cbn. destruct (decide (q = p)) as [->|Hq].
  - rewrite lookup_insert_eq, Hl. split.
    + intros (? & [= <-] & [->|H]%elem_of_cons); [by right|left; by eexists].
    + intros [(? & [= <-] & H)|[_ ->]]; eexists; (split; [done|]); [by right|by left].
  - rewrite lookup_insert_ne by done. destruct (decide (q = t)) as [->|].
    + rewrite lookup_insert_eq, Hn. split; [intros (? & [= <-] & H); by apply not_elem_of_nil in H|]. intros [(? & ? & _)|[? _]]; done.
    + rewrite lookup_insert_ne by done. split; [by left|by intros [?|[? _]]].
Qed.

Local Lemma started_crole u : crole_of (place_of s1 u) = crole_of (place_of s u).
Proof using All.
  destruct start_facts as (_ & Hp & _). rewrite started_place. case_decide; [by subst; rewrite Ht|]. case_decide; [by subst; rewrite Hp|done].
Qed.

Local Lemma started_prole u st' c : c ≠ t → prole_of st' c (place_of s1 u) = prole_of st' c (place_of s u).
Proof using All.
  destruct start_facts as (_ & Hp & _). intros Hc. rewrite started_place. case_decide; [by subst; rewrite Ht|].
  case_decide; [subst; rewrite Hp; cbn; by rewrite decide_False|done].
Qed.

Local Lemma started_start u q st' ok : place_of s1 u = Start q st' ok → u ≠ t ∧ u ≠ p ∧ st' ≠ st ∧ place_of s u = Start q st' ok.
Proof using All.
  rewrite started_place. case_decide; [done|]. case_decide; [done|]. intros E. repeat (split; [done|]). split; [|done].
  intros ->. destruct (v_start _ Hi t p st true Ht) as (_ & _ & _ & _ & Hu). by rewrite (Hu u q ok E) in *.
Qed.

Local Lemma started_linked : linked s1 st p t (mk_status (Z.of_nat t) (-1) false 2 0).
Proof using All.
  destruct start_facts as (Hlt & Hp & Hst & Hnew & Hno & _). constructor; [done|cbn; lia| | |].
  - apply started_child. by right.
  - rewrite started_crole, started_place, Ht. rewrite decide_False, decide_True by lia. cbn. rewrite decide_True by done.
    constructor; cbn; try done; [intros code [?|?]; done| |by left|].
    + split; [done|]. intros [?|[code ?]]; done.
    + intros H. exfalso. unfold returns in H. destruct (filter _ (trace s)) as [|e es] eqn:E; [cbn in H; lia|].
      assert (e ∈ filter (λ e, returned t e = true) (trace s)) as He by (rewrite E; by left).
      apply list_elem_of_filter in He as [He Hin]. destruct e as [| q z r|]; [done| |done]. cbn in He.
      apply andb_true_iff in He as [->%bool_decide_eq_true He]. apply negb_true_iff, Z.eqb_neq in He.
      destruct (tr_returned _ (v_trace _ Hi) q _ r Hin) as [?|(c & Ec & Hx & _)]; [done|]. assert (c = t) as -> by lia.
      destruct (tr_exited _ (v_trace _ Hi) t r Hx) as (_ & H' & _). by rewrite Ht in H'.
  - intros _. cbn. by rewrite lookup_insert_eq.
Qed.

Local Lemma started_status st' x : statuses s1 !! st' = Some x → st' = st ∧ x = mk_status (Z.of_nat t) (-1) false 2 0 ∨
  st' ≠ st ∧ statuses s !! st' = Some x ∧ tid x ≠ Z.of_nat t.
Proof using All.
  destruct start_facts as (_ & _ & _ & Hnew & _). cbn. intros [[<- <-]|[Hne H]]%lookup_insert_Some; [by left|right].
  split; [done|]. split; [done|]. by eapply Hnew.
Qed.

Lemma inv_started : inv s1.
Proof using All.
  destruct start_facts as (Hlt & Hp & Hst & Hnew & Hno & Hkids). pose proof Hi as Hi'. constructor.
  - intros u. cbn. rewrite !lookup_insert_is_Some. rewrite <- (v_thread _ Hi).
    pose proof (place_thread s t _ Ht ltac:(done)) as H1. pose proof (place_thread s p _ Hp ltac:(done)) as H2.
    destruct (decide (u = t)) as [->|]; [rewrite H1; split; [by eexists|by left]|].
    destruct (decide (u = p)) as [->|]; [rewrite H2; split; [by eexists|intros _; right; split; [done|by left]]|].
    split; [intros [?|[_ [?|[_ ?]]]]; done|]. intros. right. split; [done|]. right. by split.
  - intros st' [x [[-> _]|(_ & Hx & _)]%started_status]; apply Hi; by eexists.
  - intros st' x [[-> ->]|(Hne & Hx & Htid)]%started_status; [right; exists p, t; apply started_linked|].
    destruct (v_link _ Hi st' x Hx) as [[E1 E2]|(q & c & [K1 K2 K3 K4 K5])].
    + left. split; [done|]. intros q [H|[_ ?]]%started_child; [by apply (E2 q)|done].
    + right. exists q, c. assert (c ≠ t) by congruence. constructor; try done; rewrite ?started_crole.
      * apply started_child. by left.
      * by rewrite started_prole.
      * intros Hc. cbn. rewrite lookup_insert_ne by done. by apply K5.
  - intros st1 st2 x1 x2 [[-> ->]|(Hn1 & H1 & G1)]%started_status [[-> ->]|(Hn2 & H2 & G2)]%started_status E Hn; cbn in *; [done|congruence|congruence|].
    by apply (v_tid _ Hi st1 st2 x1 x2).
  - intros q l' H. split.
    + cbn in H. apply lookup_insert_Some in H as [[<- <-]|[Hq [[<- <-]|[_ H]]%lookup_insert_Some]]; [|constructor|by apply (v_children _ Hi q)].
      constructor; [|by apply (v_children _ Hi p)]. intros H. apply (Hno p). by exists l.
    + intros st' Hst'. cbn. apply lookup_insert_is_Some'. destruct (started_child q st') as [H' _].
      destruct (H' ltac:(by exists l')) as [(l2 & Hl2 & H2)|[_ ->]]; [right|by left]. by apply (v_children _ Hi q l2 Hl2).
  - intros st' q q' [H|[-> ->]]%started_child [H'|[-> E]]%started_child; [by apply (v_owner _ Hi st')|subst; by destruct (Hno q)|by destruct (Hno q')|done].
  - intros u. cbn. rewrite lookup_insert_is_Some. change (place_of _ u) with (place_of s1 u). rewrite started_place, (v_proc _ Hi).
    destruct (decide (u = t)) as [->|]; [split; [done|by left]|]. case_decide as Hd; [subst u; rewrite Hp; split; [done|right; by split]|].
    split; [intros [?|[_ ?]]; done|right; by split].
  - intros u. cbn. rewrite !lookup_insert_is_Some. intros [->|[Hu H]]; [destruct (decide (p = u)); [by left|right; split; [done|by left]]|].
    destruct (decide (p = u)); [by left|right; split; [done|]]. right. split; [done|]. by apply (v_has _ Hi).
  - intros u r H. cbn in H. apply lookup_insert_Some in H as [[<- <-]|[Hu H]].
    + right. exists st, p. split; [done|]. intros _. cbn. rewrite lookup_insert_eq. by eexists.
    + rewrite started_crole. destruct (v_my _ Hi u r H) as [?|(st' & q & -> & E)]; [by left|right]. exists st', q. split; [done|].
      intros Hc. destruct (E Hc) as (x & Hx & Etid). exists x. split; [|done]. cbn. rewrite lookup_insert_ne; [done|].
      intros <-. rewrite Hst in Hx. injection Hx as <-. cbn in Etid. lia.
  - intros q st' c H. apply started_child. left. destruct (decide (c = t)) as [->|]; [|by apply (v_wait _ Hi q st' c); rewrite started_prole in H].
    rewrite (waiting_any st' t (S t)), started_prole in H by lia. by apply (v_wait _ Hi q st' (S t)).
  - intros u q st' ok (Hu & Hu' & Hne & E)%started_start. destruct (v_start _ Hi u q st' ok E) as (E1 & E2 & E3 & E4 & E5). split; [done|].
    rewrite started_place. rewrite decide_False by congruence. rewrite decide_False by congruence. split; [done|].
    split; [cbn; by rewrite lookup_insert_ne|]. split.
    + intros st2 x [[-> ->]|(_ & Hx & _)]%started_status; [cbn; lia|by eapply E4].
    + intros t' p' ok' (_ & _ & _ & ?)%started_start. by eapply E5.
  - intros q c n b H. rewrite started_place in H. case_decide; [done|]. case_decide.
    + subst q. injection H as <- <- <-. split; [lia|by right].
    + destruct (v_loading _ Hi q c n b H) as [E1 E2]. split; [done|].
      destruct E2 as [(-> & -> & st' & ok' & E2)|E2]; [left|by right]. split; [done|]. split; [done|]. exists st', ok'.
      rewrite started_place. rewrite decide_False by congruence. by rewrite decide_False by congruence.
  - intros q n b H. rewrite started_place in H. case_decide; [done|]. case_decide; [done|]. by apply (v_none _ Hi q).
  - intros u H. split; [|intros q st' ok (Hu & _ & _ & E)%started_start].
    + cbn in H |- *. apply lookup_insert_is_Some' in H as [<-|H]; [lia|]. apply lookup_insert_is_Some' in H as [<-|H]; [lia|]. by apply (v_kids _ Hi).
    + cbn in H. apply lookup_insert_is_Some' in H as [<-|H]; [by rewrite Hp in E|]. apply lookup_insert_is_Some' in H as [<-|H]; [done|].
      by apply (v_kids _ Hi u H) in E.
  - apply (trace_quiet s s1 t []); [apply Hi|done|done|done|]. intros u _. by rewrite started_crole.
Qed.
End started.

Lemma signal_loaded_run s p c n b b' : place_of s p = Loading c n b →
  signal_loaded p b' s = Ret (tt, set_threads s (<[p := Loading c (n + 1) b']> (threads s))).
Proof. intros Hp. unfold signal_loaded. by rewrite (place_thread _ _ _ Hp). Qed.

Lemma push_front_run s p st r l : procs s !! p = Some r → children_status s !! p = Some l →
  list_push_front p st s = Ret (tt, set_children s (<[p := st :: l]> (children_status s))).
Proof.
  intros Hr Hl. unfold list_push_front. erewrite st_bind_run; [done|]. unfold get_children. by rewrite Hr, Hl.
Qed.

Lemma step_start_process s t p st ok : inv s → place_of s t = Start p st ok → good s t (start_process t p st ok s).
Proof.
  intros Hi Ht. destruct (v_start _ Hi t p st ok Ht) as (Hlt & Hp & Hst & _). unfold start_process. destruct ok; cbn [negb].
  - destruct (v_has _ Hi p) as [l Hl]; [apply (v_proc _ Hi); by rewrite Hp|].
    rewrite (st_bind_run _ _ _ _ _ (get_status_run s st _ Hst)).
    rewrite (st_bind_run _ _ _ _ _ eq_refl), (st_bind_run _ _ _ _ _ eq_refl), (st_bind_run _ _ _ _ _ eq_refl).
    destruct (proj2 (v_proc _ Hi p)) as [r Hr]; [by rewrite Hp|]. assert (t ≠ p) as Hne by lia.
    erewrite st_bind_run; [|eapply push_front_run; cbn; rewrite lookup_insert_ne by done; done].
    erewrite st_bind_run; [|apply get_status_run; cbn; by rewrite lookup_insert_eq].
    rewrite (st_bind_run _ _ _ _ _ eq_refl). erewrite st_bind_run; [|by eapply signal_loaded_run].
    change (inv (mk_sys (<[t := User]> (<[p := Loading (Some t) 1 true]> (threads s))) (<[t := mk_process (Some st) (Some p)]> (procs s))
      (<[p := st :: l]> (<[t := []]> (children_status s))) (<[st := mk_status (Z.of_nat t) (-1) false 2 0]>
      (<[st := mk_status (Z.of_nat t) (-1) false 1 0]> (statuses s))) (next_tid s) (next_status s) (trace s))).
    rewrite insert_insert_eq. by apply inv_started.
  - rewrite (st_bind_run _ _ _ _ _ (signal_loaded_run s p _ _ _ _ Hp)). by apply (inv_not_started s t p st).
Qed.

Lemma created s t st ok e1 e2 : inv s → place_of s t = User → st = next_status s →
  inv (moved s t User [Spawned t e1]) ∧ inv (moved (with_status s) t User [Spawned t e2]) ∧
  inv (spawned (with_status s) t st ok) ∧ inv (moved (with_status s) t (Loading None 0 false) []).
Proof.
  intros Hi Hp ->. pose proof (inv_with_status s Hi) as Hw. assert (place_of (with_status s) t = User) as Hp' by done.
  split; [|split; [|split]].
  - apply user_quiet; [done|done|]. left. by eexists.
  - apply user_quiet; [done|done|]. left. by eexists.
  - apply inv_spawned; [done|done|cbn; by rewrite lookup_insert_eq|]. intros u p ok'. by apply with_status_unused.
  - apply inv_moved; rewrite ?Hp'; try done. by right.
Qed.

Lemma step_execute s t a b c d : inv s → place_of s t = User → good s t (process_execute t a b c d s).
Proof.
  intros Hi Hp. destruct (created s t _ d TID_ERROR TID_ERROR Hi Hp eq_refl) as (H1 & H2 & H3 & H4). by destruct a, b, c.
Qed.

Lemma step_fork s t a c d : inv s → place_of s t = User → good s t (process_fork t a c d s).
Proof.
  intros Hi Hp. destruct (created s t _ d TID_ERROR TID_ERROR Hi Hp eq_refl) as (H1 & H2 & H3 & H4). by destruct a, c.
Qed.

(** ** The end of [process_exit] *)

Lemma step_exit_pcb s t : inv s → place_of s t = ExitPcb → good s t (exit_pcb t s).
Proof.
  intros Hi Ht. set (s' := mk_sys (<[t := Dead]> (threads s)) (delete t (procs s)) (children_status s) (statuses s) (next_tid s) (next_status s) (trace s)).
  change (inv s'). assert (∀ u, place_of s' u = if decide (u = t) then Dead else place_of s u) as Epl by (intros u; apply (place_insert s)).
  assert (∀ u st c, prole_of st c (place_of s' u) = prole_of st c (place_of s u)) as Epr.
  { intros u st c. rewrite Epl. by case_decide; [subst; rewrite Ht|]. }
  assert (∀ u, crole_of (place_of s' u) = crole_of (place_of s u)) as Ecr.
  { intros u. rewrite Epl. by case_decide; [subst; rewrite Ht|]. }
  assert (∀ u p st ok, place_of s' u = Start p st ok → u ≠ t ∧ place_of s u = Start p st ok) as Est.
  { intros u p st ok. rewrite Epl. by case_decide. }
  constructor; try apply Hi.
  - intros u. cbn. rewrite lookup_insert_is_Some, <- (v_thread _ Hi). destruct (decide (u = t)) as [->|].
    + rewrite (place_thread _ _ _ Ht) by done. split; [by eexists|by left].
    + split; [intros [?|[_ ?]]; done|]. by right.
  - intros st x Hx. destruct (v_link _ Hi st x Hx) as [?|(p & c & [K1 K2 K3 K4 K5])]; [by left|right]. exists p, c.
    constructor; try done; rewrite Ecr; [by rewrite Epr|]. intros Hc. cbn. rewrite lookup_delete_ne; [by apply K5|].
    intros <-. by rewrite Ht in Hc.
  - intros u. rewrite Epl. cbn. case_decide as Hd; [subst; rewrite lookup_delete_eq; split; [by intros []|done]|].
    rewrite lookup_delete_ne by done. apply Hi.
  - intros u [r H]. cbn in H. apply lookup_delete_Some in H as [_ H]. apply (v_has _ Hi). by eexists.
  - intros u r H. cbn in H. apply lookup_delete_Some in H as [_ H]. rewrite Ecr. by apply (v_my _ Hi).
  - intros p st c. rewrite Epr. apply Hi.
  - intros u p st ok (Hu & E)%Est. destruct (v_start _ Hi u p st ok E) as (E1 & E2 & E3 & E4 & E5). split; [done|].
    rewrite Epl, decide_False by congruence. split; [done|]. split; [done|]. split; [done|]. intros t' p' ok' (_ & ?)%Est. by eapply E5.
  - intros p c n b H. rewrite Epl in H. case_decide; [done|]. destruct (v_loading _ Hi p c n b H) as [E1 E2]. split; [done|].
    destruct E2 as [(-> & -> & st & ok & E2)|E2]; [left|by right]. split; [done|]. split; [done|]. exists st, ok.
    by rewrite Epl, decide_False by congruence.
  - intros p n b H. rewrite Epl in H. case_decide; [done|]. by apply (v_none _ Hi p).
  - intros u H. destruct (v_kids _ Hi u H) as [E1 E2]. split; [done|]. intros p st ok (_ & E)%Est. by apply (E2 p st ok).
  - apply (trace_quiet s s' t []); [apply Hi|done|done|done|]. intros u _. by rewrite Ecr.
Qed.

(** ** Every step, every schedule *)

(** The kernel's process makes every call but [exit]. *)
Definition allowed (x : nat * call) : Prop := match x with (0%nat, Exit _) => False | _ => True end.

Lemma step_good s t c : inv s → allowed (t, c) → good s t (step t c s).
Proof.
  intros Hi Ha. unfold step. destruct (threads s !! t) as [x|] eqn:E; [|left; unfold place_of; by rewrite E].
  apply thread_place in E. destruct x; [|by apply step_loaded|by apply step_start_process|by apply step_wait_sema
    |by apply step_wait_ref|by apply step_wait_free|by apply step_exit_sema|by apply step_exit_ref|by apply step_exit_free
    |by apply step_exit_pcb|by left].
  destruct c; [by apply step_execute|by apply step_fork|by apply step_process_wait|].
  apply step_exit_process; [done|done|]. by intros ->.
Qed.

(** A schedule that goes wrong does so at the step of an orphan. *)
Definition at_orphan (l : list (nat * call)) (s : sys) : Prop :=
  ∃ l1 t c l2 s', l = l1 ++ (t, c) :: l2 ∧ run l1 s = Ret (tt, s') ∧ orphan s' t.

Lemma at_orphan_cons t c l s s1 : (step t c s = Ret (tt, s1) ∨ step t c s = Blocked ∧ s1 = s) → at_orphan l s1 → at_orphan ((t, c) :: l) s.
Proof.
  intros E (l1 & u & d & l2 & s' & -> & E1 & E2). exists ((t, c) :: l1), u, d, l2, s'. split; [done|]. split; [|done].
  cbn [run]. by destruct E as [-> | [-> ->]].
Qed.

Lemma run_inv l s : inv s → Forall allowed l →
  match run l s with Ret (_, s') => inv s' | UB => at_orphan l s | _ => False end.
Proof.
  intros Hi Hl. revert s Hi. induction Hl as [|[t c] l Ha _ IH]; intros s Hi; [done|]. cbn [run].
  pose proof (step_good s t c Hi Ha) as Hg. destruct (step t c s) as [[[] s1]| | |] eqn:E; cbn in Hg; [|done| |].
  - specialize (IH s1 Hg). destruct (run l s1) as [[[] s2]| | |]; [done|done| |done]. eapply at_orphan_cons; [by left|done].
  - by exists [], t, c, l, s.
  - specialize (IH s Hi). destruct (run l s) as [[[] s2]| | |]; [done|done| |done]. eapply at_orphan_cons; [by right|done].
Qed.

(** ** Reference counts *)









(** ** Exit codes *)

(** C6. What [process_wait] returns: -1, or what the process with that pid passed to [exit], and
    then the caller is the process whose [exec] or [fork] returned that pid; of all calls of
    [process_wait] for a process at most one returns something else than -1. *)
Theorem wait_returns_exit_code l s (Hl : Forall allowed l) (Hr : run l init = Ret (tt, s)) :
  (∀ p z r, WaitReturned p z r ∈ trace s → r = -1 ∨
     ∃ c, z = Z.of_nat c ∧ Exited c r ∈ trace s ∧ Spawned p z ∈ trace s ∧ ∀ r', Exited c r' ∈ trace s → r' = r) ∧
  ∀ c, (length (filter (λ e, returned c e = true) (trace s)) ≤ 1)%nat.
Proof.
  pose proof (run_inv l init inv_init Hl) as H. rewrite Hr in H. destruct (v_trace _ H) as [T1 T2 T3]. split; [|done].
  intros p z r Hin. destruct (T2 p z r Hin) as [?|(c & ? & Hx & ?)]; [by left|right]. exists c.
  repeat (split; [done|]). by apply (T1 c r).
Qed.

(** ** No deadlock *)

Lemma step_call s t c c' : place_of s t ≠ User → step t c s = step t c' s.
Proof. intros H. unfold step. destruct (threads s !! t) as [x|] eqn:E; [|done]. apply thread_place in E. by destruct x. Qed.

Lemma waits_for_runnable s : inv s → ∀ n t, (next_tid s - t ≤ n)%nat → place_of s t ≠ Dead →
  ∃ u, rtc (waits_for s) t u ∧ (place_of s u = Loading None 0 false ∨ ∀ c, allowed (u, c) → step u c s ≠ Blocked).
Proof.
  intros Hi. induction n as [|n IH]; intros t Hn Hd.
  - assert (¬ (t < next_tid s)%nat) as Hlt by lia. destruct Hlt. apply (v_thread _ Hi).
    unfold place_of in Hd. destruct (threads s !! t); [by eexists|done].
  - destruct (step t (Wait 0) s) eqn:E.
    4:{ pose proof (step_good s t (Wait 0) Hi) as Hg. rewrite E in Hg. destruct Hg as [?|[H|(u & Hu & Hlt & Hl)]]; [by destruct t|done| |].
      - exists t. split; [done|by left].
      - destruct (IH u) as (v & Hv & H); [lia|done|]. exists v. split; [by eapply rtc_l|done]. }
    all: exists t; split; [done|]; right; intros c Ha Hb; pose proof (step_good s t c Hi Ha) as Hg; rewrite Hb in Hg.
    all: by rewrite (step_call s t c (Wait 0)), E in Hb by (intros Hu; destruct Hg as [?|[?|(u & [?|(st & x & ? & _)] & _)]]; congruence).
Qed.

(** C14. Under every schedule that does not go wrong, a thread that is not dead can take its next step, or
    waits, directly or through others, for a thread that can, or for one whose [thread_create]
    failed: no other deadlock is possible. *)
Theorem no_deadlock l s t (Hl : Forall allowed l) (Hr : run l init = Ret (tt, s)) (Ht : place_of s t ≠ Dead) :
  ∃ u, rtc (waits_for s) t u ∧ (place_of s u = Loading None 0 false ∨ ∀ c, allowed (u, c) → step u c s ≠ Blocked).
Proof.
  pose proof (run_inv l init inv_init Hl) as H. rewrite Hr in H. by apply (waits_for_runnable s H (next_tid s - t)).
Qed.
End ProcessSafety.
