(* ===== verification/VmInv.v ===== *)
(** * Virtual memory: the invariant

    What the frames, the supplemental page tables, the page tables, swap and memory say about
    each other, for processes that do not share frames (no process has forked since its pages
    were loaded) and map no files; and the byte that a user program has at an address, wherever
    it is kept ([view]). *)

From stdpp Require Import base tactics numbers list option gmap.
From S2P Require Import Prelude State Bitmap Block Palloc Malloc Pagedir PagedirProofs Swap FileOps VmState Frame Page Vm.

Open Scope Z_scope.

Module VmInv.
Import Palloc Pagedir PagedirProofs Swap VmState.

Section inv.
Context {F : Type} `{!FileOps F} `{!FileLaws F}.
Context (init_page_dir init_ram_pages : Z).
Abbreviation owners := (gmap Z (Z * option Z)).
Abbreviation tables_ok := (tables_ok init_page_dir init_ram_pages).
Abbreviation step := (step init_page_dir init_ram_pages).

(** ** What a page holds *)

(** Byte [i] of the page as its file, or zeros, give it. *)
Definition backing (fl : F) (e : spt_entry) (i : Z) : option Z :=
  match file e with
  | Some f => if i <? read_bytes e then file_byte fl f (file_offset e + i) else Some 0
  | None => Some 0
  end.

Definition content (m : Z → Z) (x : swap) (fl : F) (e : spt_entry) (i : Z) : option Z :=
  match status e with
  | PAGE_ZERO => Some 0
  | PAGE_FRAME | PAGE_COW => Some (m (kpage e + i))
  | PAGE_SWAP => Some (slot_byte x (swap_slot e) i)
  | PAGE_FILE => backing fl e i
  end.

(** The byte of process [p] at [va]; none where the process has no page. *)
Definition view (s : vm F) (p : nat) (va : Z) : option Z :=
  r ← procs s !! p; e ← spt r !! (va / 4096 * 4096);
  content (memory s) (swap_space s) (fs s) e (va mod 4096).

(** ** The invariant *)

Record entry_wf (fl : F) (va : Z) (e : spt_entry) : Prop := {
  ew_upage : upage e = va;
  ew_page : va mod 4096 = 0 ∧ user_va va;
  ew_file f : file e = Some f → is_file fl f ∧ 0 ≤ file_offset e ∧ 0 ≤ read_bytes e ∧ 0 ≤ zero_bytes e ∧
    read_bytes e + zero_bytes e = 4096 ∧ ∀ i, 0 ≤ i < read_bytes e → is_Some (file_byte fl f (file_offset e + i));
  ew_some : status e = PAGE_FILE → is_Some (file e);
  ew_zero : status e = PAGE_ZERO → file e = None;
  ew_mmap : is_mmap e = true → file e = None }.

(** Frame [f] holds page [va] of process [p]. *)
Definition holds (s : vm F) (f : nat) (p : nat) (va page : Z) : Prop :=
  ∃ fe, frames s !! f = Some fe ∧ fe_kpage fe = page ∧ fe_upage fe = va ∧ threads s !! fe_owner fe = Some (Some p).

(** [L] is the frame that no entry uses, if there is one: one being filled or given up. *)
Definition entry_ok (s : vm F) (L : option nat) (p : nat) (pd va : Z) (e : spt_entry) : Prop :=
  entry_wf (fs s) va e ∧
  match status e with
  | PAGE_FRAME => ∃ f k, L ≠ Some f ∧ holds s f p va (kpage e) ∧ kpage e = k * 4096 ∧
      is_pte (pte (machine s) pd va) k (writable e) ∧
      (writable e = false → pinned_dirty e = false → ∀ i, 0 ≤ i < 4096 → backing (fs s) e i = Some (memory s (kpage e + i)))
  | PAGE_SWAP => slot_used (swap_space s) (swap_slot e) ∧ has (pte (machine s) pd va) PTE_P = false ∧ pte (machine s) pd va ≠ 0
  | PAGE_ZERO | PAGE_FILE => has (pte (machine s) pd va) PTE_P = false
  | PAGE_COW => False
  end.

Definition frame_ok (s : vm F) (L : option nat) (f : nat) (fe : frame_entry) : Prop :=
  ∃ k, fe_kpage fe = k * 4096 ∧ used (user_pool (pal (machine s))) k ∧ fe_ref_count fe = 1 ∧
    if decide (L = Some f) then True
    else ∃ p r e, threads s !! fe_owner fe = Some (Some p) ∧ procs s !! p = Some r ∧
      spt r !! fe_upage fe = Some e ∧ status e = PAGE_FRAME ∧ kpage e = fe_kpage fe.

Record vm_ok (T : owners) (L : option nat) (s : vm F) : Prop := mk_vm_ok {
  vk_tables : tables_ok T (machine s);
  vk_swap : swap_ok (swap_space s);
  vk_files : files_ok (fs s);
  vk_cur : ∃ p r, threads s !! cur s = Some (Some p) ∧ procs s !! p = Some r ∧ cr3 (machine s) = pagedir r - PHYS_BASE;
  vk_proc p r : procs s !! p = Some r → directory T (pagedir r);
  vk_apart p r q t : procs s !! p = Some r → procs s !! q = Some t → pagedir r = pagedir t → p = q;
  vk_nodup : NoDup (frame_list s);
  vk_list f : f ∈ frame_list s ↔ is_Some (frames s !! f);
  vk_next f : is_Some (frames s !! f) → (f < next_frame s)%nat;
  vk_hand f : clock_hand s = Some f → f ∈ frame_list s;
  vk_frame f fe : frames s !! f = Some fe → frame_ok s L f fe;
  vk_kpage f g fe ge : frames s !! f = Some fe → frames s !! g = Some ge → fe_kpage fe = fe_kpage ge → f = g;
  vk_entry p r va e : procs s !! p = Some r → spt r !! va = Some e → entry_ok s L p (pagedir r) va e;
  vk_slot p r va e q t vb g : procs s !! p = Some r → spt r !! va = Some e → status e = PAGE_SWAP →
    procs s !! q = Some t → spt t !! vb = Some g → status g = PAGE_SWAP → swap_slot e = swap_slot g → p = q ∧ va = vb;
  vk_absent p r va : procs s !! p = Some r → user_va va → va mod 4096 = 0 → spt r !! va = None →
    has (pte (machine s) (pagedir r) va) PTE_P = false }.

(** No byte of any process changes. *)
Definition same_view (s s' : vm F) : Prop := ∀ p va, view s' p va = view s p va.

Lemma same_view_refl s : same_view s s.
Proof. done. Qed.
Lemma same_view_trans s1 s2 s3 : same_view s1 s2 → same_view s2 s3 → same_view s1 s3.
Proof. intros H1 H2 p va. by rewrite H2. Qed.

(** A page that is in memory. *)
Lemma in_frame T L s p r va e : vm_ok T L s → procs s !! p = Some r → spt r !! va = Some e → status e = PAGE_FRAME →
  ∃ k, kpage e = k * 4096 ∧ used (user_pool (pal (machine s))) k ∧ is_pte (pte (machine s) (pagedir r) va) k (writable e).
Proof.
  intros Hs Hr He Hst. destruct (vk_entry _ _ _ Hs _ _ _ _ Hr He) as [_ Hok]. rewrite Hst in Hok.
  destruct Hok as (f & k & _ & (fe & Hf & Ek & _) & Ek' & Hp & _).
  destruct (vk_frame _ _ _ Hs _ _ Hf) as (k' & Ek2 & Hu & _). exists k. assert (k' = k) as -> by lia. done.
Qed.

(** Different pages are in different frames. *)
Lemma frames_apart T L s p r va e q t vb g : vm_ok T L s →
  procs s !! p = Some r → spt r !! va = Some e → status e = PAGE_FRAME →
  procs s !! q = Some t → spt t !! vb = Some g → status g = PAGE_FRAME → kpage e = kpage g → p = q ∧ va = vb.
Proof.
  intros Hs Hr He Hst Ht Hg Hst' Ek. destruct (vk_entry _ _ _ Hs _ _ _ _ Hr He) as [_ H1].
  destruct (vk_entry _ _ _ Hs _ _ _ _ Ht Hg) as [_ H2]. rewrite Hst in H1. rewrite Hst' in H2.
  destruct H1 as (f & _ & _ & (fe & Hf & E1 & U1 & O1) & _). destruct H2 as (h & _ & _ & (he & Hh & E2 & U2 & O2) & _).
  assert (f = h) as ->. { eapply (vk_kpage _ _ _ Hs); [done..|]. congruence. }
  rewrite Hf in Hh. injection Hh as ->. rewrite O1 in O2. injection O2 as ->. split; congruence.
Qed.

Lemma user_range T m k : tables_ok T m → used (user_pool (pal m)) k → user_page (pal m) k.
Proof. by intros _ [H _]. Qed.

Lemma user_not_kernel T m k : tables_ok T m → used (user_pool (pal m)) k → ∀ i, 0 ≤ i < 4096 →
  first_page (user_pool (pal m)) ≤ (k * 4096 + i) / 4096.
Proof. intros Ht [[H _] _] i Hi. by rewrite page_of. Qed.

(** Views agree when contents do. *)
Lemma view_intro s s' : procs s' = procs s →
  (∀ p r va e i, procs s !! p = Some r → spt r !! va = Some e → 0 ≤ i < 4096 →
     content (memory s') (swap_space s') (fs s') e i = content (memory s) (swap_space s) (fs s) e i) → same_view s s'.
Proof.
  intros Ep H p va. unfold view. rewrite Ep. destruct (procs s !! p) as [r|] eqn:Er; [|done]. cbn.
  destruct (spt r !! _) as [e|] eqn:Ee; [|done]. cbn. eapply H; [done..|]. apply Z.mod_pos_bound. lia.
Qed.

(** Two entries map alike. *)
Definition same_map (w w' : Z) : Prop := addr w = addr w' ∧ has w PTE_P = has w' PTE_P ∧ has w PTE_U = has w' PTE_U ∧
  has w PTE_W = has w' PTE_W ∧ (w ≠ 0 → w' ≠ 0).

Lemma same_map_refl w : same_map w w.
Proof. done. Qed.

Lemma same_map_pte w w' k wr : same_map w w' → is_pte w k wr → is_pte w' k wr.
Proof. intros (E1 & E2 & E3 & E4 & _) (H1 & H2 & H3 & H4). unfold is_pte. by rewrite <- E1, <- E2, <- E3, <- E4. Qed.

(** Files that read the same. *)
Record same_files (fl fl' : F) : Prop := {
  sf_ok : files_ok fl';
  sf_file f : is_file fl f → is_file fl' f;
  sf_byte f i : is_file fl f → file_byte fl' f i = file_byte fl f i }.

Lemma same_files_refl fl : files_ok fl → same_files fl fl.
Proof. by constructor. Qed.

Lemma backing_same fl fl' va e i : same_files fl fl' → entry_wf fl va e → backing fl' e i = backing fl e i.
Proof.
  intros H Hwf. unfold backing. destruct (file e) as [f|] eqn:Ef; [|done].
  rewrite (sf_byte _ _ H); [done|]. by apply (ew_file _ _ _ Hwf f Ef).
Qed.

Lemma entry_wf_same fl fl' va e : same_files fl fl' → entry_wf fl va e → entry_wf fl' va e.
Proof.
  intros H []. constructor; try done. intros f Hf. destruct (ew_file0 f Hf) as (H1 & H2 & H3 & H4 & H5 & H6).
  split; [by apply (sf_file _ _ H)|]. repeat (split; [done|]). intros i Hi. rewrite (sf_byte _ _ H) by done. auto.
Qed.

(** Memory, page tables, swap and files change, but not in what the entries use: the page of
    a frame that is being filled, pages of no frame and slots of no entry are free to. *)
Record env_step (T : owners) (L : option nat) (s : vm F) (T' : owners) (m' : mach) (x' : swap) (fl' : F) : Prop := {
  es_tables : tables_ok T' m';
  es_dirs pd : directory T pd → directory T' pd;
  es_cr3 : cr3 m' = cr3 (machine s);
  es_used f fe k : frames s !! f = Some fe → fe_kpage fe = k * 4096 → used (user_pool (pal m')) k;
  es_map p r va : procs s !! p = Some r → user_va va → same_map (pte (machine s) (pagedir r) va) (pte m' (pagedir r) va);
  es_mem f fe i : L ≠ Some f → frames s !! f = Some fe → 0 ≤ i < 4096 → ram m' (fe_kpage fe + i) = memory s (fe_kpage fe + i);
  es_swap : swap_ok x';
  es_slot p r va e : procs s !! p = Some r → spt r !! va = Some e → status e = PAGE_SWAP →
    slot_used (swap_space s) (swap_slot e) →
    slot_used x' (swap_slot e) ∧ ∀ i, 0 ≤ i < 4096 → slot_byte x' (swap_slot e) i = slot_byte (swap_space s) (swap_slot e) i;
  es_files : same_files (fs s) fl' }.

Definition set_env (s : vm F) (m : mach) (x : swap) (fl : F) : vm F := set_fs (set_swap (set_machine s m) x) fl.

Lemma vm_env T L s T' m' x' fl' : vm_ok T L s → env_step T L s T' m' x' fl' →
  vm_ok T' L (set_env s m' x' fl') ∧ same_view s (set_env s m' x' fl').
Proof.
  intros Hs [Et Ed Ec Eu Em Er Ex Esl Ef].
  assert (∀ p r va e i, procs s !! p = Some r → spt r !! va = Some e → 0 ≤ i < 4096 →
    content (ram m') x' fl' e i = content (memory s) (swap_space s) (fs s) e i) as Hc.
  { intros p r va e i Hr He Hi. unfold content. destruct (vk_entry _ _ _ Hs _ _ _ _ Hr He) as [Hwf H].
    destruct (status e) eqn:Est; try done.
    - destruct H as (f & k & H1 & (fe & Hf & E1 & _) & _). rewrite <- E1. f_equal. by eapply Er.
    - f_equal. apply (Esl p r va e); try done. apply H.
    - by eapply backing_same. }
  split; [|by apply view_intro]. destruct Hs. constructor; cbn; try done; eauto.
  - apply Ef.
  - by rewrite Ec.
  - intros f fe Hf. destruct (vk_frame0 f fe Hf) as (k & H1 & H2 & H3). exists k. cbn. split; [done|]. by split; [eapply Eu|].
  - intros p r va e Hr He. destruct (vk_entry0 p r va e Hr He) as [Hw Hok]. split; [by eapply entry_wf_same|].
    pose proof (Em p r va Hr (proj2 (ew_page _ _ _ Hw))) as Hm. pose proof Hm as (_ & EP & _ & _ & Hn). cbn.
    destruct (status e) eqn:Est; cbn; try done.
    + by rewrite <- EP.
    + destruct Hok as (f & k & H1 & H2 & H3 & H4 & H5). exists f, k. split; [done|]. split; [done|]. split; [done|].
      split; [by eapply same_map_pte|]. intros ?? i Hi. rewrite (backing_same (fs s) _ va), H5 by done. f_equal. symmetry.
      destruct H2 as (fe & Hf & E1 & _). rewrite <- E1. by eapply Er.
    + rewrite <- EP. destruct Hok as (H1 & H2 & H3). split; [|auto]. eapply Esl; eauto.
    + by rewrite <- EP.
  - intros p r va Hr Hv Ha Hn. destruct (Em p r va Hr Hv) as (_ & <- & _). by eapply vk_absent0.
Qed.

(** The machine takes a step that maps every page as before. *)
Lemma vm_machine T L s T' m' g : vm_ok T L s → step T (machine s) T' m' g →
  (∀ p r va, procs s !! p = Some r → user_va va → same_map (pte (machine s) (pagedir r) va) (g (pagedir r) va)) →
  vm_ok T' L (set_machine s m') ∧ same_view s (set_machine s m').
Proof.
  intros Hs Hstep Hmap. pose proof (sp_kept _ _ _ _ _ _ _ Hstep) as Hk.
  apply (vm_env T L s T' m' (swap_space s) (fs s) Hs). constructor.
  - apply Hstep.
  - intros pd. by eapply step_dir.
  - apply Hk.
  - intros f fe k Hf Ek. destruct (vk_frame _ _ _ Hs f fe Hf) as (k' & E' & Hu & _). rewrite (ke_user _ _ Hk).
    by assert (k' = k) as <- by lia.
  - intros p r va Hr Hv. rewrite (sp_pte _ _ _ _ _ _ _ Hstep); [by eapply Hmap|by eapply vk_proc|done].
  - intros f fe i _ Hf Hi. destruct (vk_frame _ _ _ Hs f fe Hf) as (k & -> & Hu & _). apply (ke_ram _ _ Hk).
    eapply user_not_kernel; [apply Hs|done|done].
  - apply Hs.
  - done.
  - apply same_files_refl, Hs.
Qed.

Lemma vm_files T L s fl' : vm_ok T L s → same_files (fs s) fl' → vm_ok T L (set_fs s fl') ∧ same_view s (set_fs s fl').
Proof.
  intros Hs Hf. apply (vm_env T L s T (machine s) (swap_space s) fl' Hs). constructor; try done; try apply Hs.
  intros f fe k Hf' Ek. destruct (vk_frame _ _ _ Hs f fe Hf') as (k' & E' & Hu & _). by assert (k' = k) as <- by lia.
Qed.

(** Slots that no entry has may change. *)
Lemma vm_swap T L s x' : vm_ok T L s → swap_ok x' →
  (∀ p r va e, procs s !! p = Some r → spt r !! va = Some e → status e = PAGE_SWAP → slot_used (swap_space s) (swap_slot e) →
    slot_used x' (swap_slot e) ∧ ∀ i, 0 ≤ i < 4096 → slot_byte x' (swap_slot e) i = slot_byte (swap_space s) (swap_slot e) i) →
  vm_ok T L (set_swap s x') ∧ same_view s (set_swap s x').
Proof.
  intros Hs Hx Hsl. apply (vm_env T L s T (machine s) x' (fs s) Hs). constructor; try done; try apply Hs.
  - intros f fe k Hf' Ek. destruct (vk_frame _ _ _ Hs f fe Hf') as (k' & E' & Hu & _). by assert (k' = k) as <- by lia.
  - apply same_files_refl, Hs.
Qed.

(** Pages of the user pool that no frame has may change, be handed out and be freed. *)
Lemma vm_user T L s s' : vm_ok T L s → palloc_ok s' → kernel_pool s' = kernel_pool (pal (machine s)) →
  same_place (pal (machine s)) s' →
  (∀ f fe k, frames s !! f = Some fe → fe_kpage fe = k * 4096 → used (user_pool s') k) →
  (∀ a, mem s' a = memory s a ∨ ∃ k, a / 4096 = k ∧ user_page (pal (machine s)) k ∧
     ∀ f fe, L ≠ Some f → frames s !! f = Some fe → fe_kpage fe ≠ k * 4096) →
  vm_ok T L (set_machine s (with_pal (machine s) s')) ∧ same_view s (set_machine s (with_pal (machine s) s')).
Proof.
  intros Hs Hok Hk Hpl Hu Hm. destruct (Hpl true) as [Hb Hc]. cbn in Hb, Hc.
  destruct (tables_user _ _ T (machine s) s' (vk_tables _ _ _ Hs) Hok Hk Hb Hc) as [Ht Hp].
  { intros a Ha. destruct (Hm a) as [|(k & E & [H _] & _)]; [done|]. lia. }
  apply (vm_env T L s T (with_pal (machine s) s') (swap_space s) (fs s) Hs). constructor; try done; try apply Hs.
  - intros p r va Hr Hv. rewrite Hp by (done || by eapply vk_proc). done.
  - intros f fe i HL Hf Hi. destruct (vk_frame _ _ _ Hs f fe Hf) as (k & Ek & _ & _). cbn.
    destruct (Hm (fe_kpage fe + i)) as [|(k' & E & _ & Hno)]; [done|]. exfalso. rewrite Ek, page_of in E by done. subst k'.
    by apply (Hno f fe).
  - apply same_files_refl, Hs.
Qed.
End inv.
End VmInv.
