(* ===== verification/VmSteps.v ===== *)
(** * Virtual memory: steps that keep the invariant

    The changes of state that eviction, allocation and loading are made of. *)

From stdpp Require Import base tactics numbers list option gmap.
From S2P Require Import Prelude State Bitmap Block Palloc Malloc Pagedir PagedirProofs Swap FileOps VmState Frame Page Vm VmInv.

Open Scope Z_scope.

Module VmSteps.
Import Palloc Pagedir PagedirProofs Swap VmState VmInv.

Section steps.
Context {F : Type} `{!FileOps F} `{!FileLaws F}.
Context (init_page_dir init_ram_pages : Z).
Abbreviation owners := (gmap Z (Z * option Z)).
Abbreviation step := (step init_page_dir init_ram_pages).
Abbreviation vm_ok := (vm_ok init_page_dir init_ram_pages).

Lemma list_remove_spec (l : list nat) f g : g ∈ list_difference l [f] ↔ g ∈ l ∧ g ≠ f.
Proof. rewrite list_elem_of_difference, list_elem_of_singleton. done. Qed.

(** The hand may be anywhere in the list. *)
Lemma vm_hand T L s h : vm_ok T L s → (∀ f, h = Some f → f ∈ frame_list s) → vm_ok T L (set_hand s h) ∧ same_view s (set_hand s h).
Proof. intros Hs Hh. split; [|done]. by destruct Hs. Qed.

Lemma vm_mallocs T L s l : vm_ok T L s → vm_ok T L (set_mallocs s l) ∧ same_view s (set_mallocs s l).
Proof. intros Hs. split; [|done]. by destruct Hs. Qed.

(** ** One entry changes *)

Definition put_entry (ps : gmap nat process) (p : nat) (r : process) (va : Z) (e : spt_entry) : gmap nat process :=
  <[p := set_spt r (<[va := e]> (spt r))]> ps.

Lemma put_split ps p r va e q t vb g : ps !! p = Some r → put_entry ps p r va e !! q = Some t → spt t !! vb = Some g →
  (q = p ∧ vb = va ∧ g = e ∧ pagedir t = pagedir r) ∨
  ((q = p → vb ≠ va) ∧ ∃ t', ps !! q = Some t' ∧ spt t' !! vb = Some g ∧ pagedir t' = pagedir t).
Proof.
  intros Hr Ht Hg. unfold put_entry in Ht. apply lookup_insert_Some in Ht as [[<- <-]|[Hne Ht]].
  - cbn in Hg. apply lookup_insert_Some in Hg as [[<- <-]|[Hne Hg]]; [by left|right]. split; [done|]. by exists r.
  - right. split; [congruence|]. by exists t.
Qed.

(** Who runs, and where its directory is. *)
Lemma put_procs T L s p r x : vm_ok T L s → procs s !! p = Some r →
  let ps := <[p := set_spt r x]> (procs s) in
  (∃ q t, threads s !! cur s = Some (Some q) ∧ ps !! q = Some t ∧ cr3 (machine s) = pagedir t - PHYS_BASE) ∧
  (∀ q t, ps !! q = Some t → directory T (pagedir t)) ∧
  (∀ q t q' t', ps !! q = Some t → ps !! q' = Some t' → pagedir t = pagedir t' → q = q').
Proof.
  intros [] Hr ps. unfold ps. split; [|split].
  - destruct vk_cur0 as (q & t & H1 & H2 & H3). destruct (decide (q = p)) as [->|].
    + exists p, (set_spt r x). rewrite lookup_insert_eq. cbn. assert (t = r) as -> by congruence. done.
    + exists q, t. by rewrite lookup_insert_ne.
  - intros q t Ht. apply lookup_insert_Some in Ht as [[<- <-]|[_ Ht]]; cbn; by eapply vk_proc0.
  - intros q t q' t' Ht Ht'.
    apply lookup_insert_Some in Ht as [[<- <-]|[_ Ht]]; apply lookup_insert_Some in Ht' as [[<- <-]|[_ Ht']]; cbn;
      intros; try done; by eapply vk_apart0.
Qed.

Lemma step_mem T L s T' m' g k i : vm_ok T L s → step T (machine s) T' m' g → used (user_pool (pal (machine s))) k →
  0 ≤ i < 4096 → ram m' (k * 4096 + i) = memory s (k * 4096 + i).
Proof.
  intros Hs Hstep Hu Hi. apply (ke_ram _ _ (sp_kept _ _ _ _ _ _ _ Hstep)).
  eapply user_not_kernel; [apply Hs|done|done].
Qed.

Lemma step_upd T L s T' m' p r va w : vm_ok T L s → procs s !! p = Some r → user_va va → va mod 4096 = 0 →
  step T (machine s) T' m' (upd (pte (machine s)) (pagedir r) va w) →
  pte m' (pagedir r) va = w ∧
  ∀ q t vb, procs s !! q = Some t → user_va vb → vb mod 4096 = 0 →
    (q = p ∧ vb = va) ∨ pte m' (pagedir t) vb = pte (machine s) (pagedir t) vb.
Proof.
  intros Hs Hr Huv Hal Hstep. split.
  - rewrite (sp_pte _ _ _ _ _ _ _ Hstep) by (try done; by eapply vk_proc). unfold upd. by rewrite decide_True.
  - intros q t vb Ht Hv Hvb. destruct (decide (q = p ∧ vb = va)); [by left|right].
    rewrite (sp_pte _ _ _ _ _ _ _ Hstep) by (try done; eapply (vk_proc _ _ _ _ _ Hs); eassumption).
    unfold upd. rewrite decide_False; [done|].
    intros [E1 E2]. assert (q = p) as -> by (by eapply (vk_apart _ _ _ _ _ Hs)).
    assert (vb = va); [|tauto]. rewrite (Z.div_mod vb 4096), (Z.div_mod va 4096), E2, Hvb, Hal by lia. done.
Qed.

Lemma view_put s s' p r va e : procs s !! p = Some r → procs s' = put_entry (procs s) p r va e →
  (∀ q t vb g i, procs s !! q = Some t → spt t !! vb = Some g → (q = p → vb ≠ va) → 0 ≤ i < 4096 →
     content (memory s') (swap_space s') (fs s') g i = content (memory s) (swap_space s) (fs s) g i) →
  ∀ q v, view s' q v = if decide (q = p ∧ v / 4096 * 4096 = va)
    then content (memory s') (swap_space s') (fs s') e (v mod 4096) else view s q v.
Proof.
  intros Hr Ep H q v. pose proof (Z.mod_pos_bound v 4096 ltac:(lia)) as Hi. unfold view. rewrite Ep. unfold put_entry.
  case_decide as Hd.
  - destruct Hd as [-> ->]. rewrite lookup_insert_eq. cbn. by rewrite lookup_insert_eq.
  - destruct (decide (q = p)) as [->|].
    + rewrite lookup_insert_eq, Hr. cbn. rewrite lookup_insert_ne by (intros ->; by apply Hd).
      destruct (spt r !! (v / 4096 * 4096)) as [g|] eqn:Eg; [|done]. cbn. eapply H; [done..|intros _ E; by apply Hd|done].
    + rewrite lookup_insert_ne by done. destruct (procs s !! q) as [t|] eqn:Et; [|done]. cbn.
      destruct (spt t !! _) as [g|] eqn:Eg; [|done]. cbn. eapply H; [done..|intros E; by destruct (n E)|done].
Qed.

(** ** A page leaves memory *)

(** Frame [f] is gone, entry [va] of process [p] is [e']. *)
Definition evicted (s : vm F) (f p : nat) (r : process) (va : Z) (e' : spt_entry) (m' : mach) (x' : swap) (h : option nat) : vm F :=
  set_hand (set_frames (set_procs (set_swap (set_machine s m') x') (put_entry (procs s) p r va e'))
    (list_difference (frame_list s) [f]) (delete f (frames s))) h.

(** The entry and the slot it may use, as [x] becomes [x']. *)
Record put_away (s : vm F) (x' : swap) (e e' : spt_entry) (va : Z) : Prop := {
  pa_swap : swap_ok x';
  pa_used t : slot_used x' t ↔ slot_used (swap_space s) t ∨ (status e' = PAGE_SWAP ∧ t = swap_slot e');
  pa_new : status e' = PAGE_SWAP → ¬ slot_used (swap_space s) (swap_slot e');
  pa_bytes t i : slot_used (swap_space s) t → 0 ≤ i < 4096 → slot_byte x' t i = slot_byte (swap_space s) t i;
  pa_wf : entry_wf (fs s) va e';
  pa_status : status e' ≠ PAGE_FRAME ∧ status e' ≠ PAGE_COW;
  pa_content i : 0 ≤ i < 4096 → content (memory s) x' (fs s) e' i = Some (memory s (kpage e + i)) }.

Lemma vm_evicted T L s f fe p r e e' m' w x' h : vm_ok T L s → L ≠ Some f → frames s !! f = Some fe →
  threads s !! fe_owner fe = Some (Some p) → procs s !! p = Some r → spt r !! fe_upage fe = Some e →
  status e = PAGE_FRAME → kpage e = fe_kpage fe →
  step T (machine s) T m' (upd (pte (machine s)) (pagedir r) (fe_upage fe) w) → has w PTE_P = false → w ≠ 0 →
  put_away s x' e e' (fe_upage fe) → (∀ g, h = Some g → g ∈ frame_list s ∧ g ≠ f) →
  vm_ok T L (evicted s f p r (fe_upage fe) e' m' x' h) ∧ same_view s (evicted s f p r (fe_upage fe) e' m' x' h).
Proof.
  intros Hs HL Hf Ho Hr He Hst Hkp Hstep Hw Hw0 Hpa Hh. set (va := fe_upage fe) in *.
  pose proof (sp_kept _ _ _ _ _ _ _ Hstep) as Hk. destruct Hpa as [Hx Hused Hnew Hbytes Hwf [Hns1 Hns2] Hcon].
  pose proof (ew_page _ _ _ Hwf) as [Hal Huv].
  pose proof (λ k i, step_mem _ _ _ _ _ _ k i Hs Hstep) as Hmem.
  destruct (step_upd _ _ _ _ _ _ _ _ _ Hs Hr Huv Hal Hstep) as [Hptew Hpte].
  destruct (put_procs _ _ _ _ _ (<[va := e']> (spt r)) Hs Hr) as (P1 & P2 & P3).
  assert (∀ q t vb g i, procs s !! q = Some t → spt t !! vb = Some g → 0 ≤ i < 4096 →
    content (ram m') x' (fs s) g i = content (memory s) (swap_space s) (fs s) g i) as Hcont.
  { intros q t vb g i Ht Hg Hi. destruct (vk_entry _ _ _ _ _ Hs _ _ _ _ Ht Hg) as [_ Hok]. unfold content.
    destruct (status g) eqn:Est; try done.
    - destruct (in_frame _ _ _ _ _ _ _ _ _ Hs Ht Hg Est) as (k & -> & Hu & _). by rewrite Hmem.
    - f_equal. apply Hbytes; [apply Hok|done]. }
  split.
  - destruct Hs. constructor; cbn; try done.
    + apply Hstep.
    + by rewrite (ke_cr3 _ _ Hk).
    + by apply NoDup_list_difference.
    + intros g. rewrite list_remove_spec, vk_list0. destruct (decide (g = f)) as [->|].
      * rewrite lookup_delete_eq. split; [tauto|by intros []].
      * rewrite lookup_delete_ne by done. tauto.
    + intros g Hg. apply vk_next0. destruct Hg as [x Hg]. apply lookup_delete_Some in Hg as [_ Hg]. by exists x.
    + intros g Hg. rewrite list_remove_spec. by apply Hh.
    + intros g ge Hg. apply lookup_delete_Some in Hg as [Hne Hg]. destruct (vk_frame0 g ge Hg) as (k & H1 & H2 & H3 & H4).
      exists k. cbn. unfold put_entry. rewrite (ke_user _ _ Hk). split; [done|]. split; [done|]. split; [done|].
      case_decide; [done|]. destruct H4 as (q & t & e2 & O & P & Q & R & S).
      destruct (decide (q = p)) as [->|].
      * assert (t = r) as -> by congruence. exists p, (set_spt r (<[va := e']> (spt r))), e2. cbn.
        rewrite lookup_insert_eq. split; [done|]. split; [done|]. split; [|done]. rewrite lookup_insert_ne; [done|].
        intros E. apply Hne. eapply vk_kpage0; [done..|]. rewrite <- E in Q. congruence.
      * exists q, t, e2. by rewrite lookup_insert_ne.
    + intros g1 g2 h1 h2 H1 H2. apply lookup_delete_Some in H1 as [_ H1]. apply lookup_delete_Some in H2 as [_ H2]. by eapply vk_kpage0.
    + intros q t vb g Ht Hg. destruct (put_split _ _ _ _ _ _ _ _ _ Hr Ht Hg) as [(-> & -> & -> & ->)|(Hne & t' & Ht' & Hg' & Epd)].
      * split; [done|]. cbn. destruct (status e') eqn:Est; try done; rewrite Hptew; [done| |done].
        split; [|done]. apply Hused. by right.
      * destruct (vk_entry0 q t' vb g Ht' Hg') as [Hwf' Hok]. split; [done|]. cbn.
        rewrite <- Epd. destruct (Hpte q t' vb Ht') as [[-> ->]| ->]; [apply Hwf'|apply Hwf'|by destruct Hne|].
        destruct (status g) eqn:Est; try done.
        -- destruct Hok as (g' & k & H1 & (ge & G1 & G2 & G3 & G4) & H3 & H4 & H5). exists g', k. split; [done|]. split; [|split; [done|split; [done|]]].
           ++ exists ge. split; [|done]. cbn. rewrite lookup_delete_ne; [done|]. intros <-. rewrite Hf in G1. injection G1 as <-.
              assert (q = p) as -> by congruence. by destruct Hne.
           ++ intros ?? i Hi. rewrite H5 by done. f_equal. rewrite H3. symmetry. apply Hmem; [|done].
              destruct (vk_frame0 g' ge G1) as (k' & E2 & Hu & _). assert (k' = k) as -> by lia. done.
        -- destruct Hok as (H1 & H2). split; [|done]. apply Hused. by left.
    + intros q t vb g q' t' vb' g' H1 H2 H3 H4 H5 H6 E.
      destruct (put_split _ _ _ _ _ _ _ _ _ Hr H1 H2) as [(-> & -> & -> & _)|(_ & t1 & Ht1 & Hg1 & _)];
        destruct (put_split _ _ _ _ _ _ _ _ _ Hr H4 H5) as [(-> & -> & -> & _)|(_ & t2 & Ht2 & Hg2 & _)]; [done| | |].
      * destruct (vk_entry0 q' t2 vb' g' Ht2 Hg2) as [_ Hok]. rewrite H6 in Hok. destruct Hok as [Hu _].
        rewrite <- E in Hu. by destruct (Hnew H3).
      * destruct (vk_entry0 q t1 vb g Ht1 Hg1) as [_ Hok]. rewrite H3 in Hok. destruct Hok as [Hu _].
        rewrite E in Hu. by destruct (Hnew H6).
      * by eapply vk_slot0.
    + unfold put_entry. intros q t vb Ht Hv Hvb Hn. apply lookup_insert_Some in Ht as [[<- <-]|[Hne Ht]]; cbn in *.
      * apply lookup_insert_None in Hn as [Hn Hne]. destruct (Hpte p r vb Hr Hv Hvb) as [[_ ->]| ->]; [done|]. by eapply vk_absent0.
      * destruct (Hpte q t vb Ht Hv Hvb) as [[-> _]| ->]; [done|]. by eapply vk_absent0.
  - intros q v. rewrite (view_put s (evicted s f p r va e' m' x' h) p r va e') by (try done; intros; by eapply Hcont).
    case_decide as Hd; [|done]. destruct Hd as [-> <-]. pose proof (Z.mod_pos_bound v 4096 ltac:(lia)) as Hi.
    transitivity (Some (memory s (kpage e + v mod 4096))).
    + rewrite <- Hcon by done. unfold content. destruct (status e') eqn:Est; done.
    + unfold view. rewrite Hr. cbn. rewrite He. cbn. unfold content. by rewrite Hst.
Qed.

(** ** Frames come and go *)

Definition pushed (s : vm F) (fe : frame_entry) : vm F :=
  mk_vm _ (machine s) (swap_space s) (frame_list s ++ [next_frame s]) (<[next_frame s := fe]> (frames s)) (S (next_frame s))
    (clock_hand s) (threads s) (procs s) (cur s) (fs s) (vmallocs s).
Definition unlinked (s : vm F) (f : nat) (h : option nat) : vm F :=
  set_hand (set_frames s (list_difference (frame_list s) [f]) (delete f (frames s))) h.

(** Page [page] is in no frame. *)
Definition free_frame (s : vm F) (page : Z) : Prop := ∀ f fe, frames s !! f = Some fe → fe_kpage fe ≠ page.

Lemma next_fresh T L s : vm_ok T L s → frames s !! next_frame s = None.
Proof.
  intros Hs. destruct (frames s !! next_frame s) as [fe|] eqn:E; [|done].
  pose proof (vk_next _ _ _ _ _ Hs (next_frame s) ltac:(by exists fe)). lia.
Qed.

Lemma vm_push T s fe k : vm_ok T None s → fe_kpage fe = k * 4096 → used (user_pool (pal (machine s))) k →
  free_frame s (k * 4096) → fe_ref_count fe = 1 →
  vm_ok T (Some (next_frame s)) (pushed s fe) ∧ same_view s (pushed s fe).
Proof.
  intros Hs Hk Hu Hfree Hrc. pose proof (next_fresh _ _ _ Hs) as Hn. split; [|done].
  destruct Hs. constructor; cbn; try done.
  - apply NoDup_app. split; [done|]. split; [|apply NoDup_singleton].
    intros f Hf ->%list_elem_of_singleton. apply vk_list0 in Hf as [x Hf]. congruence.
  - intros f. rewrite elem_of_app, list_elem_of_singleton, vk_list0. destruct (decide (f = next_frame s)) as [->|].
    + rewrite lookup_insert_eq. split; [by eexists|by right].
    + rewrite lookup_insert_ne by done. tauto.
  - intros f Hf. destruct (decide (f = next_frame s)) as [->|]; [lia|]. rewrite lookup_insert_ne in Hf by done.
    apply vk_next0 in Hf. lia.
  - intros f Hf. apply elem_of_app. left. auto.
  - intros f ge Hf. apply lookup_insert_Some in Hf as [[<- <-]|[Hne Hf]].
    + exists k. cbn. by rewrite decide_True.
    + destruct (vk_frame0 f ge Hf) as (k' & H1 & H2 & H3 & H4). exists k'. cbn. rewrite decide_False by congruence.
      rewrite decide_False in H4 by done. done.
  - intros f g fe' ge Hf Hg E. apply lookup_insert_Some in Hf as [[<- <-]|[? Hf]];
      apply lookup_insert_Some in Hg as [[<- <-]|[? Hg]]; [done| | |by eapply vk_kpage0].
    + destruct (Hfree g ge Hg). congruence.
    + destruct (Hfree f fe' Hf). congruence.
  - intros p r va e Hr He. destruct (vk_entry0 p r va e Hr He) as [Hwf Hok]. split; [done|]. cbn.
    destruct (status e); try done. destruct Hok as (f & k' & H1 & (ge & G1 & G2) & H3). exists f, k'.
    assert (f ≠ next_frame s) by congruence. split; [congruence|]. split; [|done]. exists ge. cbn. by rewrite lookup_insert_ne.
Qed.

Lemma vm_unlink T s f h : vm_ok T (Some f) s → (∀ g, h = Some g → g ∈ frame_list s ∧ g ≠ f) →
  vm_ok T None (unlinked s f h) ∧ same_view s (unlinked s f h).
Proof.
  intros Hs Hh. split; [|done]. destruct Hs. constructor; cbn; try done.
  - by apply NoDup_list_difference.
  - intros g. rewrite list_remove_spec, vk_list0. destruct (decide (g = f)) as [->|].
    + rewrite lookup_delete_eq. split; [tauto|by intros []].
    + rewrite lookup_delete_ne by done. tauto.
  - intros g Hg. apply vk_next0. destruct Hg as [x Hg]. apply lookup_delete_Some in Hg as [_ Hg]. by exists x.
  - intros g Hg. rewrite list_remove_spec. by apply Hh.
  - intros g ge Hg. apply lookup_delete_Some in Hg as [Hne Hg]. destruct (vk_frame0 g ge Hg) as (k & H1 & H2 & H3 & H4).
    exists k. cbn. rewrite decide_False in H4 by congruence. done.
  - intros g1 g2 h1 h2 H1 H2. apply lookup_delete_Some in H1 as [_ H1]. apply lookup_delete_Some in H2 as [_ H2]. by eapply vk_kpage0.
  - intros p r va e Hr He. destruct (vk_entry0 p r va e Hr He) as [Hwf Hok]. split; [done|]. cbn.
    destruct (status e); try done. destruct Hok as (g & k' & H1 & (ge & G1 & G2) & H3). exists g, k'.
    split; [done|]. split; [|done]. exists ge. cbn. rewrite lookup_delete_ne; [done|congruence].
Qed.

(** Pinning and unpinning a frame. *)
Definition with_frame (s : vm F) (f : nat) (fe : frame_entry) : vm F := set_frames s (frame_list s) (<[f := fe]> (frames s)).

Lemma vm_pin T L s f fe b : vm_ok T L s → frames s !! f = Some fe →
  vm_ok T L (with_frame s f (set_pinned fe b)) ∧ same_view s (with_frame s f (set_pinned fe b)).
Proof.
  intros Hs Hf. split; [|done]. assert (∀ g ge, <[f := set_pinned fe b]> (frames s) !! g = Some ge → ∃ ge', frames s !! g = Some ge' ∧
    fe_kpage ge = fe_kpage ge' ∧ fe_upage ge = fe_upage ge' ∧ fe_owner ge = fe_owner ge' ∧ fe_ref_count ge = fe_ref_count ge') as H.
  { intros g ge Hg. apply lookup_insert_Some in Hg as [[<- <-]|[Hne Hg]]; [exists fe|exists ge]; by repeat split. }
  destruct Hs. constructor; cbn; try done.
  - intros g. rewrite vk_list0, lookup_insert_is_Some. split; [|intros [<-|[_ ?]]; [by exists fe|done]].
    intros. destruct (decide (f = g)); auto.
  - intros g Hg. apply vk_next0. apply lookup_insert_is_Some in Hg as [<-|[_ ?]]; [by exists fe|done].
  - intros g ge Hg. destruct (H g ge Hg) as (ge' & G & E1 & E2 & E3 & E4). destruct (vk_frame0 g ge' G) as (k & Q1 & Q2 & Q3 & Q4).
    exists k. cbn. rewrite E1, E4. split; [done|]. split; [done|]. split; [done|]. case_decide; [done|]. by rewrite E2, E3.
  - intros g1 g2 h1 h2 H1 H2 E. destruct (H _ _ H1) as (? & ? & E1 & _). destruct (H _ _ H2) as (? & ? & E2 & _).
    eapply vk_kpage0; [done..|congruence].
  - intros p r va e Hr He. destruct (vk_entry0 p r va e Hr He) as [Hwf Hok]. split; [done|]. cbn.
    destruct (status e); try done. destruct Hok as (g & k' & H1 & (ge & G1 & G2 & G3 & G4) & H3). exists g, k'.
    split; [done|]. split; [|done]. unfold holds. cbn. destruct (decide (g = f)) as [->|].
    + exists (set_pinned fe b). rewrite lookup_insert_eq. assert (ge = fe) as -> by congruence. done.
    + exists ge. by rewrite lookup_insert_ne.
Qed.

(** ** A page is loaded *)

(** Entry [e] becomes [e'] when its bytes are in [page]. *)
Record put_back (s : vm F) (e e' : spt_entry) (va page : Z) : Prop := {
  pb_wf : entry_wf (fs s) va e';
  pb_status : status e' = PAGE_FRAME;
  pb_kpage : kpage e' = page;
  pb_writable : writable e' = writable e;
  pb_content i : 0 ≤ i < 4096 → content (memory s) (swap_space s) (fs s) e i = Some (memory s (page + i));
  pb_clean i : writable e' = false → pinned_dirty e' = false → 0 ≤ i < 4096 → backing (fs s) e' i = Some (memory s (page + i)) }.

Definition loaded (s : vm F) (p : nat) (r : process) (va : Z) (e' : spt_entry) (m' : mach) : vm F :=
  set_procs (set_machine s m') (put_entry (procs s) p r va e').

Lemma vm_loaded T s f fe p r e e' T' m' w k : vm_ok T (Some f) s → frames s !! f = Some fe → fe_kpage fe = k * 4096 →
  threads s !! fe_owner fe = Some (Some p) → procs s !! p = Some r → spt r !! fe_upage fe = Some e → status e ≠ PAGE_FRAME →
  step T (machine s) T' m' (upd (pte (machine s)) (pagedir r) (fe_upage fe) w) → is_pte w k (writable e) →
  put_back s e e' (fe_upage fe) (k * 4096) →
  vm_ok T' None (loaded s p r (fe_upage fe) e' m') ∧ same_view s (loaded s p r (fe_upage fe) e' m').
Proof.
  intros Hs Hf Hkp Ho Hr He Hst Hstep Hw [Hwf Hst' Hkp' Hwr Hcon Hclean]. set (va := fe_upage fe) in *.
  pose proof (sp_kept _ _ _ _ _ _ _ Hstep) as Hk. pose proof (ew_page _ _ _ Hwf) as [Hal Huv].
  pose proof (λ k i, step_mem _ _ _ _ _ _ k i Hs Hstep) as Hmem.
  destruct (step_upd _ _ _ _ _ _ _ _ _ Hs Hr Huv Hal Hstep) as [Hptew Hpte].
  destruct (put_procs _ _ _ _ _ (<[va := e']> (spt r)) Hs Hr) as (P1 & P2 & P3).
  assert (used (user_pool (pal (machine s))) k) as Hu.
  { destruct (vk_frame _ _ _ _ _ Hs f fe Hf) as (k' & E' & Hu & _). by assert (k' = k) as <- by lia. }
  assert (∀ q t vb g i, procs s !! q = Some t → spt t !! vb = Some g → 0 ≤ i < 4096 →
    content (ram m') (swap_space s) (fs s) g i = content (memory s) (swap_space s) (fs s) g i) as Hcont.
  { intros q t vb g i Ht Hg Hi. destruct (vk_entry _ _ _ _ _ Hs _ _ _ _ Ht Hg) as [_ Hok]. unfold content.
    destruct (status g) eqn:Est; try done.
    destruct (in_frame _ _ _ _ _ _ _ _ _ Hs Ht Hg Est) as (k' & -> & Hu' & _). by rewrite Hmem. }
  split.
  - destruct Hs. constructor; cbn; try done.
    + apply Hstep.
    + by rewrite (ke_cr3 _ _ Hk).
    + intros q t Ht. eapply step_dir; eauto.
    + intros g ge Hg. destruct (vk_frame0 g ge Hg) as (k' & H1 & H2 & H3 & H4).
      exists k'. cbn. unfold put_entry. rewrite (ke_user _ _ Hk). split; [done|]. split; [done|]. split; [done|].
      destruct (decide (g = f)) as [->|].
      * assert (ge = fe) as -> by congruence. exists p, (set_spt r (<[va := e']> (spt r))), e'. rewrite lookup_insert_eq. cbn.
        rewrite lookup_insert_eq. rewrite Hkp', Hkp. done.
      * rewrite decide_False in H4 by congruence. destruct H4 as (q & t & e2 & O & P & Q & R & S).
        destruct (decide (q = p)) as [->|].
        -- assert (t = r) as -> by congruence. exists p, (set_spt r (<[va := e']> (spt r))), e2. cbn.
           rewrite lookup_insert_eq. split; [done|]. split; [done|]. split; [|done]. rewrite lookup_insert_ne; [done|]. congruence.
        -- exists q, t, e2. by rewrite lookup_insert_ne.
    + intros q t vb g Ht Hg. destruct (put_split _ _ _ _ _ _ _ _ _ Hr Ht Hg) as [(-> & -> & -> & ->)|(Hne & t' & Ht' & Hg' & Epd)].
      * split; [done|]. rewrite Hst'. exists f, k. split; [done|]. split; [exists fe; cbn; by rewrite Hkp'|].
        split; [done|]. cbn. rewrite Hptew, Hwr. split; [done|]. rewrite <- Hwr. intros ?? i Hi. rewrite Hclean by done.
        f_equal. rewrite Hkp'. symmetry. by apply Hmem.
      * destruct (vk_entry0 q t' vb g Ht' Hg') as [Hwf' Hok]. split; [done|]. cbn.
        rewrite <- Epd. destruct (Hpte q t' vb Ht') as [[-> ->]| ->]; [apply Hwf'|apply Hwf'|by destruct Hne|].
        destruct (status g) eqn:Est; try done.
        destruct Hok as (g' & k' & H1 & H2 & H3 & H4 & H5). exists g', k'. split; [done|]. split; [done|]. split; [done|]. split; [done|].
        intros ?? i Hi. rewrite H5 by done. f_equal. rewrite H3. symmetry. apply Hmem; [|done].
        destruct H2 as (ge & G1 & E2 & _). destruct (vk_frame0 g' ge G1) as (k2 & E3 & Hu2 & _). by assert (k2 = k') as <- by lia.
    + intros q t vb g q' t' vb' g' H1 H2 H3 H4 H5 H6 E.
      destruct (put_split _ _ _ _ _ _ _ _ _ Hr H1 H2) as [(-> & -> & -> & _)|(_ & t1 & Ht1 & Hg1 & _)]; [congruence|].
      destruct (put_split _ _ _ _ _ _ _ _ _ Hr H4 H5) as [(-> & -> & -> & _)|(_ & t2 & Ht2 & Hg2 & _)]; [congruence|].
      by eapply vk_slot0.
    + unfold put_entry. intros q t vb Ht Hv Hvb Hn. apply lookup_insert_Some in Ht as [[<- <-]|[Hne Ht]]; cbn in *.
      * apply lookup_insert_None in Hn as [Hn Hne]. destruct (Hpte p r vb Hr Hv Hvb) as [[_ ->]| ->]; [done|]. by eapply vk_absent0.
      * destruct (Hpte q t vb Ht Hv Hvb) as [[-> _]| ->]; [done|]. by eapply vk_absent0.
  - intros q v. rewrite (view_put s (loaded s p r va e' m') p r va e') by (try done; intros; by eapply Hcont).
    case_decide as Hd; [|done]. destruct Hd as [-> <-]. pose proof (Z.mod_pos_bound v 4096 ltac:(lia)) as Hi.
    unfold view at 1. rewrite Hr. cbn. rewrite He. cbn. rewrite Hcon by done. unfold content. rewrite Hst', Hkp'.
    f_equal. by apply Hmem.
Qed.

(** ** The stack grows *)

Definition grown (s : vm F) (p : nat) (r : process) (va : Z) (e : spt_entry) : vm F :=
  set_procs s (put_entry (procs s) p r va e).

Lemma vm_grow T L s p r va e : vm_ok T L s → procs s !! p = Some r → spt r !! va = None →
  entry_wf (fs s) va e → status e = PAGE_ZERO ∨ status e = PAGE_FILE →
  vm_ok T L (grown s p r va e) ∧
  ∀ q v, view (grown s p r va e) q v = if decide (q = p ∧ v / 4096 * 4096 = va) then backing (fs s) e (v mod 4096) else view s q v.
Proof.
  intros Hs Hr Hn Hwf Hst. destruct (put_procs _ _ _ _ _ (<[va := e]> (spt r)) Hs Hr) as (P1 & P2 & P3).
  split.
  - destruct Hs. constructor; cbn; try done.
    + intros g ge Hg. destruct (vk_frame0 g ge Hg) as (k & H1 & H2 & H3 & H4).
      exists k. cbn. unfold put_entry. split; [done|]. split; [done|]. split; [done|].
      case_decide; [done|]. destruct H4 as (q & t & e2 & O & P & Q & R & S).
      destruct (decide (q = p)) as [->|].
      * assert (t = r) as -> by congruence. exists p, (set_spt r (<[va := e]> (spt r))), e2. cbn.
        rewrite lookup_insert_eq. split; [done|]. split; [done|]. split; [|done]. rewrite lookup_insert_ne; [done|]. congruence.
      * exists q, t, e2. by rewrite lookup_insert_ne.
    + intros q t vb g Ht Hg. destruct (put_split _ _ _ _ _ _ _ _ _ Hr Ht Hg) as [(-> & -> & -> & ->)|(Hne & t' & Ht' & Hg' & Epd)].
      * split; [done|]. cbn. assert (has (pte (machine s) (pagedir r) va) PTE_P = false) as HP by (eapply vk_absent0; [done|apply Hwf|apply Hwf|done]).
        by destruct Hst as [-> | ->].
      * destruct (vk_entry0 q t' vb g Ht' Hg') as [Hwf' Hok]. split; [done|]. cbn. by rewrite <- Epd.
    + intros q t vb g q' t' vb' g' H1 H2 H3 H4 H5 H6 E.
      destruct (put_split _ _ _ _ _ _ _ _ _ Hr H1 H2) as [(-> & -> & -> & _)|(_ & t1 & Ht1 & Hg1 & _)]; [destruct Hst; congruence|].
      destruct (put_split _ _ _ _ _ _ _ _ _ Hr H4 H5) as [(-> & -> & -> & _)|(_ & t2 & Ht2 & Hg2 & _)]; [destruct Hst; congruence|].
      by eapply vk_slot0.
    + unfold put_entry. intros q t vb Ht Hv Hvb Hn'. apply lookup_insert_Some in Ht as [[<- <-]|[Hne Ht]]; cbn in *.
      * apply lookup_insert_None in Hn' as [Hn' _]. by eapply vk_absent0.
      * by eapply vk_absent0.
  - intros q v. rewrite (view_put s (grown s p r va e) p r va e) by done. unfold content. cbn. case_decide; [|done].
    destruct Hst as [E|E]; rewrite E; [|done]. unfold backing. by rewrite (ew_zero _ _ _ Hwf E).
Qed.

(** ** A byte is written *)

Lemma vm_write T s p r va e i v : vm_ok T None s → procs s !! p = Some r → spt r !! va = Some e → status e = PAGE_FRAME →
  writable e = true → 0 ≤ i < 4096 →
  let s' := set_memory s (store_bytes (memory s) (kpage e + i) [v]) in
  vm_ok T None s' ∧ ∀ q x, view s' q x = if decide (q = p ∧ x = va + i) then Some v else view s q x.
Proof.
  intros Hs Hr He Hst Hw Hi s'. destruct (in_frame _ _ _ _ _ _ _ _ _ Hs Hr He Hst) as (k & Ek & Hu & _).
  destruct (vk_entry _ _ _ _ _ Hs _ _ _ _ Hr He) as [Hwf _]. pose proof (ew_page _ _ _ Hwf) as [Hal _].
  assert (∀ x, memory s' x = if decide (x = kpage e + i) then v else memory s x) as Em.
  { intros x. unfold s'. change (memory (set_memory s ?f) x) with (f x). case_decide as Hd.
    - subst x. rewrite store_bytes_in by (cbn; lia). by rewrite Z.sub_diag.
    - apply store_bytes_out. cbn. lia. }
  destruct (tables_ram _ _ T (machine s) (store_bytes (memory s) (kpage e + i) [v]) (vk_tables _ _ _ _ _ Hs)) as [Ht Hp].
  { intros a Ha. apply store_bytes_out. cbn. pose proof (user_not_kernel _ _ _ _ _ (vk_tables _ _ _ _ _ Hs) Hu i Hi) as H.
    intros E. assert (a = k * 4096 + i) by lia. subst a. lia. }
  (* the page of another entry *)
  assert (∀ q t vb g j, procs s !! q = Some t → spt t !! vb = Some g → status g = PAGE_FRAME → 0 ≤ j < 4096 →
    (q = p → vb = va → j ≠ i) → memory s' (kpage g + j) = memory s (kpage g + j)) as Hmem.
  { intros q t vb g j Hq Hg Hgs Hj Hne. rewrite Em. apply decide_False. intros E.
    destruct (in_frame _ _ _ _ _ _ _ _ _ Hs Hq Hg Hgs) as (k' & Ek' & _). assert (k' = k) as -> by lia.
    destruct (frames_apart _ _ _ _ _ _ _ _ _ _ _ _ _ Hs Hq Hg Hgs Hr He Hst) as [-> ->]; [congruence|].
    apply Hne; [done|done|lia]. }
  assert (∀ q r va, procs s !! q = Some r → user_va va → pte (machine s') (pagedir r) va = pte (machine s) (pagedir r) va) as Hpte.
  { intros q t vb Hq Hv. apply Hp; [by eapply vk_proc|done]. }
  split.
  - destruct Hs. constructor; cbn; try done.
    + intros q t vb g Hq Hg. destruct (vk_entry0 q t vb g Hq Hg) as [Hwf' Hok]. split; [done|].
      rewrite (Hpte q) by (done || apply Hwf'). destruct (status g) eqn:Est; try done.
      destruct Hok as (f & k' & H1 & H2 & H3 & H4 & H5). exists f, k'. split; [done|]. split; [done|]. split; [done|]. split; [done|].
      intros Hro ? j Hj. rewrite H5 by done. f_equal. symmetry. eapply Hmem; [done..|]. intros -> -> ->. congruence.
    + intros q t vb Hq Hv Ha Hn. rewrite Hp by (done || by eapply vk_proc0). by eapply vk_absent0.
  - intros q x. pose proof (Z.mod_pos_bound x 4096 ltac:(lia)) as Hx. case_decide as Hd.
    + destruct Hd as [-> ->]. unfold view. change (procs s') with (procs s). rewrite Hr. cbn.
      assert ((va + i) / 4096 = va / 4096 ∧ (va + i) mod 4096 = i) as [E1 E2].
      { pose proof (Z.div_mod va 4096 ltac:(lia)). split; [apply page_iff|]; [|symmetry; apply Z.mod_unique with (va / 4096)]; lia. }
      rewrite E1, E2. replace (va / 4096 * 4096) with va by (pose proof (Z.div_mod va 4096 ltac:(lia)); lia). rewrite He. cbn. unfold content. rewrite Hst. change (Some (memory s' (kpage e + i)) = Some v). rewrite Em. by rewrite decide_True.
    + unfold view. change (procs s') with (procs s). destruct (procs s !! q) as [t|] eqn:Eq; [|done]. cbn.
      destruct (spt t !! _) as [g|] eqn:Eg; [|done]. cbn. unfold content. destruct (status g) eqn:Est; try done.
      * f_equal. eapply Hmem; [done..|]. intros -> Eva E. apply Hd. split; [done|].
        pose proof (Z.div_mod x 4096). lia.
      * destruct (vk_entry _ _ _ _ _ Hs _ _ _ _ Eq Eg) as [_ H]. by rewrite Est in H.
Qed.
End steps.
End VmSteps.
