(* ===== verification/VmEvict.v ===== *)
(** * Virtual memory: eviction and allocation of frames

    [frame_evict] and [frame_alloc] return on every state that satisfies the invariant, keep
    it, and change no byte that a process sees. *)

From stdpp Require Import base tactics numbers list option gmap.
From S2P Require Import Prelude State Bitmap Block Palloc Malloc Pagedir PagedirProofs Swap FileOps VmState Frame Page Vm VmInv VmSteps.

Open Scope Z_scope.

Module VmEvict.
Import Palloc Pagedir PagedirProofs Swap VmState Frame VmInv VmSteps.

(** A step whose result is known. *)
Ltac step := eapply runs_step; [reflexivity|cbv beta].

Section evict.
Context {F : Type} `{!FileOps F} `{!FileLaws F}.
Context (init_page_dir init_ram_pages : Z).
Abbreviation owners := (gmap Z (Z * option Z)).
Abbreviation tstep := (PagedirProofs.step init_page_dir init_ram_pages).
Abbreviation vm_ok := (vm_ok init_page_dir init_ram_pages).

(** ** What a process finds later *)

(** Nothing a process sees has changed: its pages are its pages, those not in memory as they
    were. *)
Record later (T : owners) (s : vm F) (T' : owners) (s' : vm F) : Prop := mk_later {
  la_dirs pd : directory T pd → directory T' pd;
  la_view : same_view s s';
  la_cur : cur s' = cur s;
  la_threads : threads s' = threads s;
  la_proc p r : procs s !! p = Some r → ∃ r', procs s' !! p = Some r' ∧ pagedir r' = pagedir r ∧
    (∀ va e, spt r !! va = Some e → ∃ e', spt r' !! va = Some e' ∧ writable e' = writable e ∧
      (status e ≠ PAGE_FRAME → e' = e)) ∧
    (∀ va, spt r !! va = None → spt r' !! va = None) }.

Lemma later_same T s T' s' : (∀ pd, directory T pd → directory T' pd) → same_view s s' → cur s' = cur s →
  threads s' = threads s → procs s' = procs s → later T s T' s'.
Proof. intros ???? Ep. constructor; try done. intros p r Hr. exists r. rewrite Ep. naive_solver. Qed.

Lemma later_refl T s : later T s T s.
Proof. by apply later_same. Qed.

Lemma later_trans T1 s1 T2 s2 T3 s3 : later T1 s1 T2 s2 → later T2 s2 T3 s3 → later T1 s1 T3 s3.
Proof.
  intros [D1 V1 C1 H1 P1] [D2 V2 C2 H2 P2]. constructor; [auto|by eapply same_view_trans|congruence|congruence|].
  intros p r Hr. destruct (P1 p r Hr) as (r1 & Hr1 & E1 & Q1 & N1). destruct (P2 p r1 Hr1) as (r2 & Hr2 & E2 & Q2 & N2).
  exists r2. split; [done|]. split; [congruence|]. split; [|auto]. intros va e He.
  destruct (Q1 va e He) as (e1 & He1 & W1 & S1). destruct (Q2 va e1 He1) as (e2 & He2 & W2 & S2).
  exists e2. split; [done|]. split; [congruence|]. intros Hst. rewrite (S1 Hst) in *. auto.
Qed.

(** Nothing a process sees has changed; its pages may have come into memory or left it. *)
Record quiet (s s' : vm F) : Prop := mk_quiet {
  qu_view : same_view s s';
  qu_cur : cur s' = cur s;
  qu_threads : threads s' = threads s;
  qu_proc p r : procs s !! p = Some r → ∃ r', procs s' !! p = Some r' ∧ pagedir r' = pagedir r ∧
    ∀ va, writable <$> spt r' !! va = writable <$> spt r !! va }.

Lemma later_quiet T s T' s' : later T s T' s' → quiet s s'.
Proof.
  intros [D V C H P]. constructor; try done. intros p r Hr. destruct (P p r Hr) as (r' & H1 & H2 & H3 & H4).
  exists r'. split; [done|]. split; [done|]. intros va. destruct (spt r !! va) as [e|] eqn:E; cbn.
  - destruct (H3 va e E) as (e' & -> & Hw & _). cbn. by rewrite Hw.
  - by rewrite H4.
Qed.

Lemma vm_quiet_refl s : quiet s s.
Proof. apply (later_quiet ∅ s ∅ s), later_refl. Qed.

Lemma vm_quiet_trans s1 s2 s3 : quiet s1 s2 → quiet s2 s3 → quiet s1 s3.
Proof.
  intros [V1 C1 H1 P1] [V2 C2 H2 P2]. constructor; [by eapply same_view_trans|congruence|congruence|].
  intros p r Hr. destruct (P1 p r Hr) as (r1 & Hr1 & E1 & Q1). destruct (P2 p r1 Hr1) as (r2 & Hr2 & E2 & Q2).
  exists r2. split; [done|]. split; [congruence|]. intros va. by rewrite Q2.
Qed.

Lemma quiet_put s s' p r va e e' : same_view s s' → cur s' = cur s → threads s' = threads s → procs s !! p = Some r →
  spt r !! va = Some e → writable e' = writable e → procs s' = put_entry (procs s) p r va e' → quiet s s'.
Proof.
  intros ??? Hr He Hw Ep. constructor; try done. intros q t Ht. rewrite Ep. unfold put_entry. destruct (decide (q = p)) as [->|].
  - assert (t = r) as -> by congruence. rewrite lookup_insert_eq. eexists. split; [done|]. split; [done|]. cbn.
    intros vb. destruct (decide (vb = va)) as [->|]; [by rewrite lookup_insert_eq, He; cbn; rewrite Hw|by rewrite lookup_insert_ne].
  - exists t. by rewrite lookup_insert_ne.
Qed.

(** A process whose entry [e] of a page in memory changes. *)
Lemma later_put T s T' s' p r va e e' : (∀ pd, directory T pd → directory T' pd) → same_view s s' → cur s' = cur s →
  threads s' = threads s → procs s !! p = Some r → spt r !! va = Some e → status e = PAGE_FRAME → writable e' = writable e →
  procs s' = put_entry (procs s) p r va e' → later T s T' s'.
Proof.
  intros ???? Hr He Hst Hw Ep. constructor; try done. intros q t Ht. rewrite Ep. unfold put_entry. destruct (decide (q = p)) as [->|].
  - assert (t = r) as -> by congruence. rewrite lookup_insert_eq. eexists. split; [done|]. split; [done|]. cbn. split.
    + intros vb g Hg. destruct (decide (vb = va)) as [->|].
      * exists e'. rewrite lookup_insert_eq. assert (g = e) as -> by congruence. done.
      * exists g. by rewrite lookup_insert_ne.
    + intros vb Hvb. rewrite lookup_insert_ne; [done|]. congruence.
  - exists t. rewrite lookup_insert_ne by done. naive_solver.
Qed.

(** ** Running the small functions *)

Lemma get_proc_run (s : vm F) p r : procs s !! p = Some r → get_proc p s = Ret (r, s).
Proof. intros H. unfold get_proc. by rewrite H. Qed.
Lemma pcb_run (s : vm F) t p : threads s !! t = Some p → pcb_of t s = Ret (p, s).
Proof. intros H. unfold pcb_of. by rewrite H. Qed.
Lemma frame_run (s : vm F) f fe : frames s !! f = Some fe → frame f s = Ret (fe, s).
Proof. intros H. unfold frame. by rewrite H. Qed.
Lemma machM_run {A} (g : st mach A) (s : vm F) a m' : g (machine s) = Ret (a, m') → machM g s = Ret (a, set_machine s m').
Proof. intros H. unfold machM. by rewrite H. Qed.
Lemma set_machine_id (s : vm F) : set_machine s (machine s) = s.
Proof. by destruct s. Qed.
Lemma machM_same {A} (g : st mach A) (s : vm F) a : g (machine s) = Ret (a, machine s) → machM g s = Ret (a, s).
Proof. intros H. rewrite (machM_run _ _ _ _ H). by rewrite set_machine_id. Qed.

Lemma spte_run (s : vm F) p r va e : procs s !! p = Some r → spt r !! va = Some e → spte p va s = Ret (e, s).
Proof. intros Hr He. unfold spte. rewrite (st_bind_run _ _ _ _ _ (get_proc_run _ _ _ Hr)). unfold lift. by rewrite He. Qed.
Lemma put_spte_run (s : vm F) p r va e : procs s !! p = Some r →
  put_spte p va e s = Ret (tt, set_procs s (put_entry (procs s) p r va e)).
Proof. intros Hr. unfold put_spte. by rewrite (st_bind_run _ _ _ _ _ (get_proc_run _ _ _ Hr)). Qed.

Lemma round_page va : user_va va → va mod 4096 = 0 → pg_round_down va = va.
Proof.
  intros [H1 H2] Ha. change PHYS_BASE with 3221225472 in H2. rewrite pg_round_down_spec by lia.
  pose proof (Z.div_mod va 4096). lia.
Qed.

Lemma spt_find_run (s : vm F) p r va : procs s !! p = Some r → user_va va → va mod 4096 = 0 →
  spt_find p va s = Ret (if decide (is_Some (spt r !! va)) then Some va else None, s).
Proof.
  intros Hr Hv Ha. unfold spt_find. rewrite (st_bind_run _ _ _ _ _ (get_proc_run _ _ _ Hr)). by rewrite round_page.
Qed.

Lemma find_entry_run (s : vm F) p r va : procs s !! p = Some r → user_va va → va mod 4096 = 0 →
  find_entry p va s = Ret (spt r !! va, s).
Proof.
  intros Hr Hv Ha. unfold find_entry. rewrite (st_bind_run _ _ _ _ _ (spt_find_run _ _ _ _ Hr Hv Ha)).
  destruct (spt r !! va) as [e|] eqn:He.
  - rewrite decide_True by done. by rewrite (st_bind_run _ _ _ _ _ (spte_run _ _ _ _ _ Hr He)).
  - rewrite decide_False; [done|]. by intros [].
Qed.

Lemma next_of_run l e : e ∈ l → ∃ n, next_of l e = Ret n ∧ ∀ g, n = Some g → g ∈ l.
Proof.
  induction l as [|f l IH]; intros He; [by apply not_elem_of_nil in He|]. cbn. case_decide as Hd.
  - exists (head l). split; [done|]. intros g Hg. right. destruct l; [done|]. injection Hg as ->. left.
  - apply elem_of_cons in He as [?|He]; [congruence|]. destruct (IH He) as (n & -> & Hn). exists n. split; [done|]. right. auto.
Qed.

Lemma clock_advance_run (s : vm F) e : e ∈ frame_list s → ∃ g, clock_advance e s = Ret (Some g, s) ∧ g ∈ frame_list s.
Proof.
  intros He. destruct (next_of_run _ _ He) as (n & E & Hn). unfold clock_advance.
  rewrite (st_bind_run get_list _ s (frame_list s) s eq_refl). destruct (frame_list s) as [|x l] eqn:El; [by apply not_elem_of_nil in He|].
  exists (default x n). unfold lift. rewrite st_bind_unfold, E. split; [done|]. destruct n as [g|]; cbn; [auto|left].
Qed.

Lemma leave_run (s : vm F) f : f ∈ frame_list s → ∃ h, leave f s = Ret (tt, unlinked s f h) ∧
  ∀ g, h = Some g → g ∈ frame_list s ∧ g ≠ f.
Proof.
  intros Hf. destruct (clock_advance_run s f Hf) as (g & E & Hg). unfold leave. rewrite (st_bind_run _ _ _ _ _ E).
  eexists. split; [done|]. intros g'. case_decide as Hd; [done|]. intros [= <-]. split; [done|]. congruence.
Qed.

(** ** One page is evicted *)

Lemma clear_P w k wr : is_pte w k wr → let w' := Z.land w (u32 (Z.lnot PTE_P)) in has w' PTE_P = false ∧ w' ≠ 0.
Proof.
  intros (_ & _ & HU & _) w'. unfold w'. rewrite has_land. split; [by change (Z.land (u32 (Z.lnot PTE_P)) PTE_P) with 0; unfold has; rewrite Z.land_0_r|].
  intros E. assert (has (Z.land w (u32 (Z.lnot PTE_P))) PTE_U = has w PTE_U) as H by (by rewrite has_land).
  rewrite E, HU in H. done.
Qed.

Lemma cr3_again (m m' : mach) T pd : tables_ok init_page_dir init_ram_pages T m → directory T pd →
  pagedir_activate init_page_dir pd m' = Ret (tt, mk_mach (pal m') (pd - PHYS_BASE)).
Proof.
  intros Ht Hd. pose proof (dir_page _ _ _ _ _ Ht Hd) as [E Hp]. pose proof (owned_page _ _ _ _ _ _ Ht Hd) as Hr.
  unfold pagedir_activate. rewrite (proj2 (Z.eqb_neq pd 0)) by lia. run. rewrite E, vtop_page by lia. done.
Qed.

(** The flush of the look-aside buffer leaves the register as it was. *)
Lemma flush_run (s : vm F) {A} T pd cpd (g : st (vm F) A) Q : tables_ok init_page_dir init_ram_pages T (machine s) →
  directory T pd → directory T cpd → cr3 (machine s) = cpd - PHYS_BASE → runs g s Q →
  runs (orig_pd ← machM active_pd; machM (pagedir_activate init_page_dir pd);; machM (pagedir_activate init_page_dir orig_pd);; g) s Q.
Proof.
  intros Ht Hd Hc E HQ. eapply runs_step; [exact (machM_same _ _ _ (active_run _ _ _ _ _ Ht Hc E))|].
  eapply runs_step; [exact (machM_run _ _ _ _ (cr3_again _ _ _ _ Ht Hd))|].
  eapply runs_step; [exact (machM_run _ _ _ _ (cr3_again _ _ _ _ Ht Hc))|].
  cbn. rewrite <- E. by destruct s as [[]].
Qed.

(** [swap_out] of a page that is in memory. *)
Lemma swap_out_run (s : vm F) a : swap_ok (swap_space s) → ∃ slot x', swap_out a s = Ret (slot, set_swap s x') ∧ swap_ok x' ∧
  (∀ t, slot_used x' t ↔ slot_used (swap_space s) t ∨ (slot ≠ SWAP_SLOT_INVALID ∧ t = slot)) ∧
  (slot ≠ SWAP_SLOT_INVALID → ¬ slot_used (swap_space s) slot ∧ ∀ i, 0 ≤ i < 4096 → slot_byte x' slot i = memory s (a + i)) ∧
  (∀ t i, slot_used (swap_space s) t → 0 ≤ i < 4096 → slot_byte x' t i = slot_byte (swap_space s) t i).
Proof.
  intros Hx. unfold swap_out.
  destruct (swap_out_spec (swap_space s) (memory s) a Hx) as [(slot & x' & -> & H1 & H2 & H3 & H4 & H5 & H6)|(x' & -> & H1 & H2 & H3 & _)].
  - exists slot, x'. split; [done|]. split; [done|]. split; [|done]. intros t. rewrite H4. tauto.
  - eexists _, x'. split; [done|]. split; [done|]. split; [|split; [done|auto]]. intros t. rewrite H2. tauto.
Qed.

Definition page_out (s : vm F) (p : nat) (r : process) (va : Z) (e' : spt_entry) (m' : mach) (x' : swap) : vm F :=
  set_procs (set_swap (set_machine s m') x') (put_entry (procs s) p r va e').

(** A page is put away, or nothing changes for the process. *)
Definition evict_post (T : owners) (s : vm F) (p : nat) (r : process) (va : Z) (e : spt_entry) (gone : bool) (s' : vm F) : Prop :=
  if gone then ∃ e' m' x' w, s' = page_out s p r va e' m' x' ∧ writable e' = writable e ∧
    tstep T (machine s) T m' (upd (pte (machine s)) (pagedir r) va w) ∧ has w PTE_P = false ∧ w ≠ 0 ∧ put_away s x' e e' va
  else ∃ T', vm_ok T' None s' ∧ later T s T' s' ∧ frame_list s' = frame_list s ∧ procs s' = procs s.

Lemma swap_away_run T s p r va e k m1 : vm_ok T None s → procs s !! p = Some r → spt r !! va = Some e → status e = PAGE_FRAME →
  kpage e = k * 4096 → used (user_pool (pal (machine s))) k → is_pte (pte (machine s) (pagedir r) va) k (writable e) →
  let w := Z.land (pte (machine s) (pagedir r) va) (u32 (Z.lnot PTE_P)) in
  tstep T (machine s) T m1 (upd (pte (machine s)) (pagedir r) va w) →
  runs (swap_away init_page_dir init_ram_pages p (pagedir r) va (k * 4096) (Some e)) (set_machine s m1)
    (evict_post T s p r va e).
Proof.
  intros Hs Hr He Hst Hk Hu Hpte w Hstep. pose proof (clear_P _ _ _ Hpte) as [HwP Hw0].
  destruct (vk_entry _ _ _ _ _ Hs _ _ _ _ Hr He) as [Hwf _]. pose proof (ew_page _ _ _ Hwf) as [Hal Huv].
  pose proof (λ i, step_mem _ _ _ _ _ _ _ _ k i Hs Hstep Hu) as Hmem.
  destruct (swap_out_run (set_machine s m1) (k * 4096) (vk_swap _ _ _ _ _ Hs)) as (slot & x' & E & Hx & Hus & Hnew & Hold).
  cbn in Hus, Hnew, Hold. unfold swap_away. eapply runs_step; [exact E|].
  destruct (Z.eqb_spec slot SWAP_SLOT_INVALID) as [->|Hne].
  - (* swap is full: the page is mapped again *)
    pose proof (sp_ok _ _ _ _ _ _ _ Hstep) as Ht1. pose proof (vk_proc _ _ _ _ _ Hs _ _ Hr) as Hd.
    destruct (step_upd _ _ _ _ _ _ _ _ _ _ _ Hs Hr Huv Hal Hstep) as [Hptew _].
    assert (user_page (pal m1) k) as Hup.
    { unfold user_page. rewrite (ke_user _ _ (sp_kept _ _ _ _ _ _ _ Hstep)). apply Hu. }
    destruct (pagedir_set_page_spec _ _ T m1 (pagedir r) va k (writable e) Ht1 Hd Huv Hal Hup) as [(m2 & T' & w2 & E2 & Hstep2 & Hw2 & _)|(m2 & E2 & _ & E0 & _)].
    { by rewrite Hptew. }
    2:{ rewrite Hptew in E0. done. }
    eapply runs_step; [apply machM_run, E2|]. apply runs_ret. exists T'.
    assert (tstep T (machine s) T' m2 (upd (pte (machine s)) (pagedir r) va w2)) as Hboth.
    { eapply step_ext; [eapply step_trans; [exact Hstep|exact Hstep2|done]|]. intros q v Hq Hv. unfold upd at 1 2. case_decide as Hd'; [done|].
      rewrite (sp_pte _ _ _ _ _ _ _ Hstep) by done. unfold upd. by rewrite decide_False. }
    destruct (vm_machine _ _ T None s T' m2 _ Hs Hboth) as [Hs2 Hv2].
    { intros q t v Ht Hv. unfold upd. case_decide as Hd'; [|done]. destruct Hd' as [E3 E4].
      assert (pte (machine s) (pagedir t) v = pte (machine s) (pagedir r) va) as ->.
      { unfold pte. rewrite E3. destruct (same_page_nos v va (proj1 Hv) (proj1 Huv) E4) as [-> ->]. done. }
      destruct Hpte as (A1 & A2 & A3 & A4), Hw2 as (B1 & B2 & B3 & B4).
      unfold same_map. rewrite A1, A2, A3, A4, B1, B2, B3, B4. repeat (split; [done|]). intros _ E5. by rewrite E5 in B2. }
    destruct (vm_swap _ _ T' None (set_machine s m2) x' Hs2 Hx) as [Hs3 Hv3].
    { intros q t v g _ _ _ Hug. cbn in *. split; [apply Hus; by left|auto]. }
    split; [exact Hs3|]. split; [|done]. apply later_same; try done.
    + intros pd. by eapply step_dir.
    + eapply same_view_trans; [exact Hv2|exact Hv3].
  - eapply runs_step; [rewrite (round_page va Huv Hal); apply put_spte_run, Hr|]. apply runs_ret.
    eexists _, m1, x', w. split; [reflexivity|]. split; [done|]. split; [exact Hstep|]. split; [done|]. split; [done|].
    constructor; try done.
    + intros t. rewrite Hus. cbn. tauto.
    + intros _. cbn. by apply Hnew.
    + destruct Hwf. by constructor.
    + intros i Hi. cbn. unfold content. cbn. destruct (Hnew Hne) as [_ Hb]. rewrite Hb by done. f_equal. rewrite Hk. by apply Hmem.
Qed.

Lemma evict_page_run T s p r va e k : vm_ok T None s → procs s !! p = Some r → spt r !! va = Some e → status e = PAGE_FRAME →
  kpage e = k * 4096 → used (user_pool (pal (machine s))) k → is_pte (pte (machine s) (pagedir r) va) k (writable e) →
  (writable e = false → pinned_dirty e = false → ∀ i, 0 ≤ i < 4096 → backing (fs s) e i = Some (memory s (kpage e + i))) →
  runs (evict_page init_page_dir init_ram_pages p (pagedir r) va (k * 4096)) s (evict_post T s p r va e).
Proof.
  intros Hs Hr He Hst Hk Hu Hpte Hclean. pose proof (clear_P _ _ _ Hpte) as [HwP Hw0].
  destruct (vk_entry _ _ _ _ _ Hs _ _ _ _ Hr He) as [Hwf _]. pose proof (ew_page _ _ _ Hwf) as [Hal Huv].
  pose proof (vk_proc _ _ _ _ _ Hs _ _ Hr) as Hd. pose proof (vk_tables _ _ _ _ _ Hs) as Ht.
  unfold evict_page. eapply runs_step; [by apply find_entry_run|]. rewrite He.
  destruct (pagedir_clear_page_spec _ _ T (machine s) (pagedir r) va Ht Hd Huv Hal) as (m1 & E1 & Hstep); [apply Hpte|].
  eapply runs_step; [apply machM_run, E1|].
  destruct (vk_cur _ _ _ _ _ Hs) as (q & t & _ & Ht' & Ec). pose proof (vk_proc _ _ _ _ _ Hs _ _ Ht') as Hcd.
  pose proof (sp_ok _ _ _ _ _ _ _ Hstep) as Ht1.
  eapply (flush_run (set_machine s m1) T (pagedir r) (pagedir t)); [done..| |].
  { cbn. by rewrite (ke_cr3 _ _ (sp_kept _ _ _ _ _ _ _ Hstep)). }
  eapply runs_step; [apply machM_same; apply (pte_test_spec init_page_dir init_ram_pages T); done|]. cbn [machine set_machine].
  destruct (_ || (_ || _)) eqn:Edirty.
  - assert (write_back init_page_dir init_ram_pages p (pagedir r) va (k * 4096) (Some e) =
      swap_away init_page_dir init_ram_pages p (pagedir r) va (k * 4096) (Some e)) as ->.
    { unfold write_back. destruct (file e) eqn:Ef; [|done]. destruct (is_mmap e) eqn:Em; [|by rewrite andb_false_r].
      rewrite (ew_mmap _ _ _ Hwf Em) in Ef. done. }
    by apply swap_away_run.
  - apply orb_false_iff in Edirty as [_ [Hpd Hwr]%orb_false_iff].
    pose proof (λ i, step_mem _ _ _ _ _ _ _ _ k i Hs Hstep Hu) as Hmem.
    eapply runs_step; [unfold drop_clean; rewrite (round_page va Huv Hal); apply put_spte_run, Hr|]. apply runs_ret.
    eexists _, m1, (swap_space s), _. split; [reflexivity|]. split; [done|]. split; [exact Hstep|]. split; [done|]. split; [done|].
    constructor; cbn; try done.
    + apply Hs.
    + intros x. destruct (file e); naive_solver.
    + by destruct (file e).
    + destruct Hwf. constructor; try done; cbn; by destruct (file e).
    + by destruct (file e).
    + intros i Hi. rewrite <- Hclean by done. unfold content, backing. cbn. by destruct (file e).
Qed.

(** ** The clock *)

(** A page of the user pool that belongs to no frame. *)
Definition loose_page (s : vm F) (page : Z) : Prop :=
  ∃ k, page = k * 4096 ∧ used (user_pool (pal (machine s))) k ∧ free_frame s page.

Definition evicted_post (T : owners) (s : vm F) (page : Z) (s' : vm F) : Prop :=
  ∃ T', vm_ok T' None s' ∧ later T s T' s' ∧ (page ≠ 0 → loose_page s' page).

Lemma frame_holder T s f fe : vm_ok T None s → frames s !! f = Some fe →
  ∃ p r e k, threads s !! fe_owner fe = Some (Some p) ∧ procs s !! p = Some r ∧ spt r !! fe_upage fe = Some e ∧
    status e = PAGE_FRAME ∧ kpage e = fe_kpage fe ∧ fe_kpage fe = k * 4096 ∧ used (user_pool (pal (machine s))) k ∧
    is_pte (pte (machine s) (pagedir r) (fe_upage fe)) k (writable e) ∧ pagedir r ≠ 0 ∧ fe_ref_count fe = 1 ∧
    entry_wf (fs s) (fe_upage fe) e ∧
    (writable e = false → pinned_dirty e = false → ∀ i, 0 ≤ i < 4096 → backing (fs s) e i = Some (memory s (kpage e + i))).
Proof.
  intros Hs Hf. destruct (vk_frame _ _ _ _ _ Hs f fe Hf) as (k & Ek & Hu & Hrc & H). cbn in H.
  destruct H as (p & r & e & Ho & Hr & He & Hst & Hkp). exists p, r, e, k.
  destruct (vk_entry _ _ _ _ _ Hs _ _ _ _ Hr He) as [Hwf Hok]. rewrite Hst in Hok. destruct Hok as (f' & k' & _ & _ & Ek' & Hpte & Hcl).
  assert (k' = k) as -> by lia.
  pose proof (dir_page _ _ _ _ _ (vk_tables _ _ _ _ _ Hs) (vk_proc _ _ _ _ _ Hs _ _ Hr)). repeat (split; [done|]). split; [lia|]. done.
Qed.

Lemma live_owner_run (s : vm F) fe p r : threads s !! fe_owner fe = Some (Some p) → procs s !! p = Some r → pagedir r ≠ 0 →
  live_owner fe s = Ret (Some (p, pagedir r), s).
Proof.
  intros Ho Hr Hn. unfold live_owner. rewrite (st_bind_run _ _ _ _ _ (pcb_run _ _ _ Ho)).
  rewrite (st_bind_run _ _ _ _ _ (get_proc_run _ _ _ Hr)). by rewrite (proj2 (Z.eqb_neq _ _) Hn).
Qed.

(** The accessed bit of a page in memory is cleared. *)
Lemma unaccess_run T s p r va : vm_ok T None s → procs s !! p = Some r → user_va va →
  has (pte (machine s) (pagedir r) va) PTE_P = true →
  runs (machM (pagedir_set_accessed init_page_dir (pagedir r) va false)) s
    (λ _ s', vm_ok T None s' ∧ later T s T s' ∧ frame_list s' = frame_list s).
Proof.
  intros Hs Hr Hv Hp. destruct (pte_change_spec _ _ T (machine s) PTE_A (pagedir r) va false (vk_tables _ _ _ _ _ Hs)
    (vk_proc _ _ _ _ _ Hs _ _ Hr) Hv Hp) as (m' & E & Hstep); [done|].
  eapply runs_intro; [apply machM_run, E|].
  destruct (vm_machine _ _ T None s T m' _ Hs Hstep) as [H1 H2].
  - intros q t v Ht Hv'. unfold upd. case_decide as Hd'; [|done]. destruct Hd' as [E3 E4].
    assert (pte (machine s) (pagedir t) v = pte (machine s) (pagedir r) va) as ->.
    { unfold pte. rewrite E3. destruct (same_page_nos v va (proj1 Hv') (proj1 Hv) E4) as [-> ->]. done. }
    unfold same_map. rewrite !addr_land, !has_land.
    repeat (split; [done|]). intros Hn E5. assert (has (Z.land (pte (machine s) (pagedir r) va) (u32 (Z.lnot PTE_A))) PTE_P = true) as H6.
    { by rewrite has_land. } by rewrite E5 in H6.
  - split; [done|]. split; [|done]. by apply later_same.
Qed.

Lemma evicted_later T s T1 s1 page s' : later T s T1 s1 → evicted_post T1 s1 page s' → evicted_post T s page s'.
Proof. intros Hl (T' & H1 & H2 & H3). exists T'. split; [done|]. split; [by eapply later_trans|done]. Qed.

(** Going on with the next frame. *)
Lemma advance_run {A} (s : vm F) e (g : nat → st (vm F) A) Q : e ∈ frame_list s →
  (∀ n, n ∈ frame_list s → runs (g n) s Q) → runs (n ← clock_advance e; n ← unwrap n; g n) s Q.
Proof.
  intros He H. destruct (clock_advance_run s e He) as (n & E & Hn). eapply runs_step; [exact E|].
  eapply runs_step; [reflexivity|]. by apply H.
Qed.

Lemma evict_loop_run n : ∀ T s start e, vm_ok T None s → e ∈ frame_list s →
  runs (evict_loop init_page_dir init_ram_pages n start e) s (evicted_post T s).
Proof.
  induction n as [|n IH]; intros T s start e Hs Hin; cbn [evict_loop].
  { apply runs_ret. exists T. split; [done|]. split; [apply later_refl|done]. }
  destruct (proj1 (vk_list _ _ _ _ _ Hs e) Hin) as [fe Hf]. eapply runs_step; [by apply frame_run|].
  destruct (frame_holder T s e fe Hs Hf) as (p & r & x & k & Ho & Hr & He & Hst & Hkp & Ek & Hu & Hpte & Hpd & Hrc & Hwf & Hcl).
  pose proof (ew_page _ _ _ Hwf) as [Hal Huv].
  pose proof (vk_tables _ _ _ _ _ Hs) as Ht. pose proof (vk_proc _ _ _ _ _ Hs _ _ Hr) as Hd.
  destruct (fe_pinned fe); [apply advance_run; [done|]; intros; by apply IH|].
  rewrite Hrc. change (1 <? 1) with false. cbn iota.
  eapply runs_step; [by apply live_owner_run|].
  eapply runs_step; [apply machM_same; by apply (pte_test_spec init_page_dir init_ram_pages T)|].
  destruct (has _ PTE_A).
  - eapply runs_then; [apply (unaccess_run T s p r (fe_upage fe)); try done; apply Hpte|]. intros _ s1 (Hs1 & Hl & El).
    apply advance_run; [by rewrite El|]. intros g Hg. eapply runs_mono; [by apply (IH T)|]. intros. by eapply evicted_later.
  - rewrite Ek. eapply runs_then; [apply (evict_page_run T s p r (fe_upage fe) x k); done || congruence|]. intros [] s1; cbn [evict_post].
    + intros (e' & m' & x' & w & -> & Hwr & Hstep & HwP & Hw0 & Hpa).
      destruct (leave_run (page_out s p r (fe_upage fe) e' m' x') e Hin) as (h & E & Hh).
      eapply runs_step; [exact E|]. apply runs_ret.
      destruct (vm_evicted _ _ T None s e fe p r x e' m' w x' h Hs ltac:(done) Hf Ho Hr He Hst Hkp Hstep HwP Hw0 Hpa Hh) as [H1 H2].
      exists T. split; [exact H1|]. split; [by eapply later_put|]. intros _. exists k. split; [done|]. split.
      { cbn. by rewrite (ke_user _ _ (sp_kept _ _ _ _ _ _ _ Hstep)). }
      intros g ge Hg. cbn in Hg. apply lookup_delete_Some in Hg as [Hne Hg]. rewrite <- Ek. intros E2.
      apply Hne. symmetry. by eapply (vk_kpage _ _ _ _ _ Hs).
    + intros (T' & Hs1 & Hl & El & _). apply advance_run; [by rewrite El|]. intros g Hg.
      case_decide.
      * apply runs_ret. exists T'. done.
      * eapply runs_mono; [by apply (IH T')|]. intros. by eapply evicted_later.
Qed.

(** [frame_evict] returns: no page, or one of the user pool that no process has any more. *)
Lemma frame_evict_run T s : vm_ok T None s → runs (frame_evict init_page_dir init_ram_pages) s (evicted_post T s).
Proof.
  intros Hs. unfold frame_evict. eapply runs_step; [reflexivity|]. destruct (frame_list s) as [|first l] eqn:El.
  { apply runs_ret. exists T. split; [done|]. split; [apply later_refl|done]. }
  eapply runs_step; [reflexivity|]. rewrite <- El. destruct (clock_hand s) as [h|] eqn:Eh.
  - eapply runs_step; [reflexivity|]. cbn [default from_option id]. apply evict_loop_run; [done|]. by apply (vk_hand _ _ _ _ _ Hs).
  - eapply runs_step; [reflexivity|]. cbn [default from_option id].
    destruct (vm_hand _ _ T None s (Some first) Hs) as [H1 H2]. { intros f [= <-]. rewrite El. left. }
    eapply runs_mono; [apply (evict_loop_run _ T); [exact H1|cbn; rewrite El; left]|].
    intros a s' H. eapply evicted_later; [by apply (later_same T s T (set_hand s (Some first)))|exact H].
Qed.
End evict.
End VmEvict.
