(* ===== verification/VmFault.v ===== *)
(** * Virtual memory: allocation, loading and faults

    [frame_alloc], [frame_free], [spt_load_page], [vm_handle_fault] and the accesses of a user
    program return on every state that satisfies the invariant, and keep it. *)

From stdpp Require Import base tactics numbers list option gmap.
From S2P Require Import Prelude State Bitmap Block Palloc Malloc Pagedir PagedirProofs Swap FileOps VmState Frame Page Vm VmInv VmSteps VmEvict.

Open Scope Z_scope.

Module VmFault.
Import Palloc Pagedir PagedirProofs Swap VmState Frame Page Vm VmInv VmSteps VmEvict.

Section fault.
Context {F : Type} `{!FileOps F} `{!FileLaws F}.
Context (init_page_dir init_ram_pages : Z).
Abbreviation owners := (gmap Z (Z * option Z)).
Abbreviation tstep := (PagedirProofs.step init_page_dir init_ram_pages).
Abbreviation vm_ok := (vm_ok init_page_dir init_ram_pages).

(** ** Pages of the user pool *)

Definition alloc_page : st (vm F) Z := machM (palM (λ s, palloc_get_page s (Z.lor PAL_USER PAL_ZERO))).

Lemma alloc_page_run T s : vm_ok T None s → runs alloc_page s (λ page s', vm_ok T None s' ∧ later T s T s' ∧
  (page ≠ 0 → loose_page s' page) ∧ (page = 0 → exhausted (user_pool (pal (machine s))) 1) ∧
  kernel_pool (pal (machine s')) = kernel_pool (pal (machine s))).
Proof.
  intros Hs. pose proof (vk_tables _ _ _ _ _ Hs) as Ht. pose proof (to_pal _ _ _ _ Ht) as Hok.
  unfold alloc_page. change (Z.lor PAL_USER PAL_ZERO) with 6.
  assert (∀ r s', palloc_get_page (pal (machine s)) 6 = Ret (r, s') → palloc_ok s' →
    (∀ k, used (user_pool (pal (machine s))) k → used (user_pool s') k) →
    (∀ a, mem s' a = memory s a ∨ ∃ k, a / 4096 = k ∧ user_page (pal (machine s)) k ∧ ¬ used (user_pool (pal (machine s))) k) →
    (r ≠ 0 → ∃ k, r = k * 4096 ∧ used (user_pool s') k ∧ ¬ used (user_pool (pal (machine s))) k) →
    (r = 0 → exhausted (user_pool (pal (machine s))) 1) →
    runs (machM (palM (λ s, palloc_get_page s 6))) s (λ page s', vm_ok T None s' ∧ later T s T s' ∧ (page ≠ 0 → loose_page s' page) ∧
      (page = 0 → exhausted (user_pool (pal (machine s))) 1) ∧ kernel_pool (pal (machine s')) = kernel_pool (pal (machine s)))) as Hgo.
  { intros r s' E Hok' Hused Hmem Hr Hex. pose proof (palloc_get_other _ _ _ _ _ E) as Ekern. change (has 6 PAL_USER) with true in Ekern. cbn in Ekern. eapply runs_intro; [apply machM_run; unfold palM; by rewrite E|].
    assert (∀ f fe k, frames s !! f = Some fe → fe_kpage fe = k * 4096 → used (user_pool (pal (machine s))) k) as Hfu.
    { intros f fe k Hf Ek. destruct (vk_frame _ _ _ _ _ Hs f fe Hf) as (k' & E' & Hu & _). by assert (k' = k) as <- by lia. }
    destruct (vm_user _ _ T None s s' Hs Hok') as [H1 H2].
    - done.
    - by eapply (palloc_get_place _ 6 1).
    - eauto.
    - intros a. destruct (Hmem a) as [|(k & H1 & H2 & H3)]; [by left|right]. exists k. split; [done|]. split; [done|].
      intros f fe _ Hf Ek. apply H3. by eapply Hfu.
    - split; [done|]. split; [by apply later_same|]. split; [|done]. intros Hn. destruct (Hr Hn) as (k & -> & Hu & Hnu). exists k.
      split; [done|]. split; [done|]. intros f fe Hf Ekp. apply Hnu. by eapply Hfu. }
  destruct (palloc_get_run (pal (machine s)) 6 1 Hok ltac:(lia)) as [(s' & k & E & Hok' & Ha & _ & Em)|(Hex & s' & E & Hok' & Em & Hu)].
  - change (has 6 PAL_USER) with true in Ha. change (has 6 PAL_ZERO) with true in Em. cbn in Ha, Em.
    destruct Ha as (H1 & H2 & H3 & H4). apply (Hgo _ _ E Hok').
    + intros q Hq. apply H4. by left.
    + intros a. rewrite Em, memset_page. case_decide as Hd; [right|by left]. exists k. split; [done|].
      split; [split; cbn; lia|apply H3; lia].
    + intros _. exists k. split; [done|]. split; [apply H4; lia|apply H3; lia].
    + intros E0. exfalso. pose proof (pk_first _ (po_user _ Hok)). lia.
  - change (has 6 PAL_ASSERT) with false in E. cbn in E. apply (Hgo _ _ E Hok').
    + intros q Hq. by apply (Hu true).
    + intros a. left. by rewrite Em.
    + done.
    + intros _. exact Hex.
Qed.

Lemma loose_page_pos T s page : vm_ok T None s → loose_page s page →
  ∃ k, page = k * 4096 ∧ used (user_pool (pal (machine s))) k ∧ free_frame s (k * 4096) ∧ page ≠ 0.
Proof.
  intros Hs (k & -> & Hu & Hf). exists k. repeat (split; [done|]).
  pose proof (proj1 (user_page_high _ _ _ _ _ (vk_tables _ _ _ _ _ Hs) (proj1 Hu))) as H.
  change (PHYS_BASE / 4096) with 786432 in H. lia.
Qed.

(** Memory of a page that no frame but the one being filled has may be written. *)
Lemma vm_fill T L s m k : vm_ok T L s → used (user_pool (pal (machine s))) k →
  (∀ f fe, L ≠ Some f → frames s !! f = Some fe → fe_kpage fe ≠ k * 4096) →
  (∀ a, a / 4096 ≠ k → m a = memory s a) → vm_ok T L (set_memory s m) ∧ same_view s (set_memory s m).
Proof.
  intros Hs Hu Hno Hm. apply (vm_user _ _ T L s (with_mem (pal (machine s)) m) Hs); try done.
  - apply palloc_ok_mem, (to_pal _ _ _ _ (vk_tables _ _ _ _ _ Hs)).
  - intros f fe k' Hf Ek. destruct (vk_frame _ _ _ _ _ Hs f fe Hf) as (k2 & E' & Hu' & _). by assert (k2 = k') as <- by lia.
  - intros a. destruct (decide (a / 4096 = k)) as [E|]; [right|left; by apply Hm]. exists k. split; [done|]. split; [apply Hu|]. by apply Hno.
Qed.

(** [malloc] has answered. *)
Lemma vm_malloc_run T L s : vm_ok T L s → runs malloc_ok s (λ ok s', vm_ok T L s' ∧ later T s T s' ∧ (vmallocs s = [] → ok = true ∧ s' = s)).
Proof.
  intros Hs. unfold malloc_ok, runs. destruct (vmallocs s) as [|b l].
  - exists true, s. split; [done|]. split; [done|]. split; [apply later_refl|done].
  - destruct (vm_mallocs _ _ T L s l Hs) as [H1 H2]. exists b, (set_mallocs s l). split; [done|]. split; [done|]. split; [by apply later_same|done].
Qed.

(** Memory is short. *)
Definition short (s : vm F) : Prop :=
  vmallocs s ≠ [] ∨ exhausted (user_pool (pal (machine s))) 1 ∨ exhausted (kernel_pool (pal (machine s))) 1.

(** A new frame for page [va] of the current process, pinned, or none. *)
Definition alloc_post (T : owners) (s : vm F) (va page : Z) (s' : vm F) : Prop :=
  ∃ T', later T s T' s' ∧ (short s ∨ page ≠ 0 ∧ kernel_pool (pal (machine s')) = kernel_pool (pal (machine s))) ∧
    if page =? 0 then vm_ok T' None s'
    else ∃ f k, page = k * 4096 ∧ used (user_pool (pal (machine s'))) k ∧ vm_ok T' (Some f) s' ∧ frames s' !! f = Some (mk_fe page va (cur s') 1 true).

Lemma frame_alloc_run T s va : vm_ok T None s → runs (frame_alloc init_page_dir init_ram_pages va) s (alloc_post T s va).
Proof.
  intros Hs. unfold frame_alloc. eapply runs_then; [by apply vm_malloc_run|]. intros ok s1 (Hs1 & Hl1 & Hm).
  assert (short s ∨ ok = true ∧ s1 = s) as Hsh1 by (unfold short; destruct (vmallocs s); [right; by apply Hm|by left; left]).
  destruct ok; cbn [negb]. 2:{ apply runs_ret. exists T. split; [done|]. split; [|done]. left. by destruct Hsh1 as [|[]]. }
  eapply runs_then; [apply (alloc_page_run T s1 Hs1)|]. intros page s2 (Hs2 & Hl2 & Hp2 & Hex & Hkp).
  assert (short s ∨ page ≠ 0 ∧ kernel_pool (pal (machine s2)) = kernel_pool (pal (machine s))) as Hsh2.
  { destruct Hsh1 as [|[_ ->]]; [by left|]. destruct (decide (page = 0)); [left; right; left; auto|by right]. }
  eapply runs_then with (Q := λ page s', ∃ T', vm_ok T' None s' ∧ later T s T' s' ∧ (page ≠ 0 → loose_page s' page) ∧
    (short s ∨ page ≠ 0 ∧ kernel_pool (pal (machine s')) = kernel_pool (pal (machine s)))).
  - destruct (Z.eqb_spec page 0) as [->|Hn].
    + eapply runs_then; [by apply (frame_evict_run _ _ T)|]. intros page s3 (T3 & Hs3 & Hl3 & Hp3).
      assert (later T s T3 s3) as Hl.
      { eapply later_trans; [exact Hl1|]. eapply later_trans; [exact Hl2|exact Hl3]. }
      assert (short s) as Hsh by (by destruct Hsh2 as [|[]]).
      destruct (Z.eqb_spec page 0) as [->|Hn]; cbn [negb when].
      * step. apply runs_ret. exists T3. split; [done|]. split; [done|]. split; [done|]. by left.
      * step. apply runs_ret. exists T3. destruct (Hp3 Hn) as (k & -> & Hu & Hf).
        destruct (vm_fill T3 None s3 (memset (memory s3) (k * 4096) 0 PGSIZE) k Hs3 Hu) as [H1 H2].
        { intros f fe _. apply Hf. }
        { intros a Ha. change PGSIZE with (4096 * 1). rewrite memset_page. by rewrite decide_False. }
        split; [exact H1|]. split; [eapply later_trans; [exact Hl|by apply later_same]|]. split; [|by left]. intros _. exists k. done.
    + apply runs_ret. exists T. split; [done|]. split; [by eapply later_trans|done].
  - intros page' s3 (T3 & Hs3 & Hl3 & Hp3 & Hsh3). destruct (Z.eqb_spec page' 0) as [->|Hn]; [apply runs_ret; by exists T3|].
    step. step. apply runs_ret. destruct (loose_page_pos T3 s3 page' Hs3 (Hp3 Hn)) as (k & -> & Hu & Hf & _).
    destruct (vm_push _ _ T3 s3 (mk_fe (k * 4096) va (cur s3) 1 true) k Hs3) as [H1 H2]; [done..|].
    exists T3. split; [eapply later_trans; [exact Hl3|by apply later_same]|]. split; [done|]. rewrite (proj2 (Z.eqb_neq _ _) Hn).
    exists (next_frame s3), k. split; [done|]. split; [done|]. split; [exact H1|]. cbn. by rewrite lookup_insert_eq.
Qed.

(** ** The frame of a page *)

Lemma find_loop_run (s : vm F) page f l : (∀ g, g ∈ l → ∃ ge, frames s !! g = Some ge ∧ (fe_kpage ge = page ↔ g = f)) → f ∈ l →
  find_loop l page s = Ret (Some f, s).
Proof.
  induction l as [|g l IH]; intros Hl Hf; [by apply not_elem_of_nil in Hf|]. cbn [find_loop].
  destruct (Hl g ltac:(left)) as (ge & Hg & Hiff). rewrite (st_bind_run _ _ _ _ _ (frame_run _ _ _ Hg)).
  destruct (Z.eqb_spec (fe_kpage ge) page) as [E|Hn]; [by rewrite (proj1 Hiff E)|].
  apply IH; [intros x Hx; apply Hl; by right|]. apply elem_of_cons in Hf as [->|]; [|done]. destruct Hn. by apply Hiff.
Qed.

Lemma frame_find_run T L s f fe : vm_ok T L s → frames s !! f = Some fe →
  frame_find_entry (fe_kpage fe) s = Ret (Some f, s).
Proof.
  intros Hs Hf. unfold frame_find_entry. rewrite (st_bind_run get_list _ s _ s eq_refl). apply find_loop_run.
  - intros g Hg. destruct (proj1 (vk_list _ _ _ _ _ Hs g) Hg) as [ge Hge]. exists ge. split; [done|]. split.
    + intros E. by eapply (vk_kpage _ _ _ _ _ Hs).
    + intros ->. congruence.
  - apply (vk_list _ _ _ _ _ Hs). by exists fe.
Qed.

Lemma on_frame_run T L s f fe g : vm_ok T L s → frames s !! f = Some fe →
  on_frame (fe_kpage fe) g s = Ret (true, with_frame s f (g fe)).
Proof.
  intros Hs Hf. unfold on_frame. rewrite (st_bind_run _ _ _ _ _ (frame_find_run _ _ _ _ _ Hs Hf)).
  by rewrite (st_bind_run _ _ _ _ _ (frame_run _ _ _ Hf)).
Qed.

Lemma frame_unpin_run T L s f fe : vm_ok T L s → frames s !! f = Some fe →
  runs (frame_unpin (fe_kpage fe)) s (λ _ s', vm_ok T L s' ∧ later T s T s' ∧ procs s' = procs s ∧ frames s' !! f = Some (set_pinned fe false)).
Proof.
  intros Hs Hf. unfold frame_unpin. eapply runs_step; [by eapply on_frame_run|]. apply runs_ret.
  destruct (vm_pin _ _ T L s f fe false Hs Hf) as [H1 H2]. split; [exact H1|]. split; [by apply later_same|]. split; [done|].
  cbn. by rewrite lookup_insert_eq.
Qed.

(** A frame that no entry uses yet is given back. *)
Lemma frame_free_run T s f fe : vm_ok T (Some f) s → frames s !! f = Some fe →
  runs (frame_free (fe_kpage fe)) s (λ _ s', vm_ok T None s' ∧ later T s T s' ∧ procs s' = procs s).
Proof.
  intros Hs Hf. destruct (vk_frame _ _ _ _ _ Hs f fe Hf) as (k & Ek & Hu & Hrc & _).
  pose proof (proj1 (user_page_high _ _ _ _ _ (vk_tables _ _ _ _ _ Hs) (proj1 Hu))) as Hk. change (PHYS_BASE / 4096) with 786432 in Hk.
  assert (f ∈ frame_list s) as Hin by (apply (vk_list _ _ _ _ _ Hs); by exists fe).
  unfold frame_free. rewrite (proj2 (Z.eqb_neq (fe_kpage fe) 0)) by lia.
  eapply runs_step; [by eapply frame_find_run|]. eapply runs_step; [by apply frame_run|]. step. rewrite Hrc. change (0 <? 1 - 1) with false. cbv iota.
  set (s1 := set_frames s (frame_list s) (<[f := set_ref_count fe 0]> (frames s))).
  (* the hand *)
  assert (∀ h, (∀ g, h = Some g → g ∈ frame_list s ∧ g ≠ f) →
    runs (drop_frame f;; machM (free_page (fe_kpage fe))) (set_hand s1 h)
      (λ _ s', vm_ok T None s' ∧ later T s T s' ∧ procs s' = procs s)) as Hrest.
  { intros h Hh. step. destruct (vm_unlink _ _ T s f h Hs Hh) as [Hs2 Hv2].
    set (s2 := set_frames (set_hand s1 h) _ _).
    assert (s2 = unlinked s f h) as ->.
    { unfold s2, unlinked, s1, set_frames, set_hand. cbn. by rewrite delete_insert_eq. }
    set (s2 := unlinked s f h) in *. pose proof (vk_tables _ _ _ _ _ Hs2) as Ht. pose proof (to_pal _ _ _ _ Ht) as Hok.
    destruct Hu as [Hr Hbit].
    destruct (palloc_free_run (pal (machine s2)) true k 1 Hok ltac:(lia)) as [(_ & s' & E & Hok' & Hus & Hk' & Em)|[(q & Hq & Hnq) _]].
    1,2: cbn; lia. 2: { exfalso. apply Hnq. assert (q = k) as -> by lia. done. }
    eapply runs_intro; [apply machM_run; unfold free_page, palM, palloc_free_page; rewrite Ek, E; reflexivity|].
    destruct (vm_user _ _ T None s2 s' Hs2 Hok') as [H1 H2].
    - by apply Hk'.
    - eapply (palloc_free_place _ true k 1); try done; cbn; lia.
    - intros g ge k2 Hg Ek2. apply (Hus k2). destruct (vk_frame _ _ _ _ _ Hs2 g ge Hg) as (k3 & E3 & Hu3 & _).
      assert (k3 = k2) as -> by lia. split; [done|]. intros Hk2. assert (k2 = k) as -> by lia.
      cbn in Hg. apply lookup_delete_Some in Hg as [Hne Hg]. apply Hne. eapply (vk_kpage _ _ _ _ _ Hs); [done..|]. congruence.
    - intros a. rewrite Em, memset_page. case_decide as Hd; [right|by left]. exists k. split; [done|]. split; [exact Hr|].
      intros g ge _ Hg Ek2. cbn in Hg. apply lookup_delete_Some in Hg as [Hne Hg]. apply Hne. eapply (vk_kpage _ _ _ _ _ Hs); [done..|]. congruence.
    - split; [exact H1|]. split; [by apply later_same|done]. }
  step. eapply runs_then with (Q := λ _ s', ∃ h, s' = set_hand s1 h ∧ ∀ g, h = Some g → g ∈ frame_list s).
  { case_decide as Hd.
    - destruct (clock_advance_run s1 f Hin) as (g & E & Hg). eapply runs_step; [exact E|]. eapply runs_intro; [reflexivity|].
      exists (Some g). split; [done|]. by intros ? [= <-].
    - apply runs_ret. exists (clock_hand s). split; [done|]. intros g. by apply (vk_hand _ _ _ _ _ Hs). }
  intros _ s2 (h & -> & Hh). step. change (clock_hand (set_hand s1 h)) with h. case_decide as Hd.
  - step. apply (Hrest None). done.
  - step. apply Hrest. intros g Hg. split; [by apply Hh|]. congruence.
Qed.

(** ** Loading a page *)

(** What [load_data] does to memory, swap and files: page [k] gets the bytes of entry [e]. *)
Record load_step (s : vm F) (e : spt_entry) (k : Z) (m : Z → Z) (x' : swap) (fl' : F) : Prop := {
  ls_mem a : a / 4096 ≠ k → m a = memory s a;
  ls_content i : 0 ≤ i < 4096 → content (memory s) (swap_space s) (fs s) e i = Some (m (k * 4096 + i));
  ls_files : same_files (fs s) fl';
  ls_swap : swap_ok x';
  ls_same : status e ≠ PAGE_SWAP → x' = swap_space s;
  ls_used t : slot_used x' t ↔ slot_used (swap_space s) t ∧ ¬ (status e = PAGE_SWAP ∧ t = swap_slot e);
  ls_bytes t i : slot_byte x' t i = slot_byte (swap_space s) t i }.

Lemma store_fill_page m k b z a : 0 ≤ z → Z.of_nat (length b) + z = 4096 →
  memset (store_bytes m (k * 4096) b) (k * 4096 + Z.of_nat (length b)) 0 z a =
  if decide (a / 4096 = k) then (if a - k * 4096 <? Z.of_nat (length b) then b !!! Z.to_nat (a - k * 4096) else 0) else m a.
Proof.
  intros Hz Hl. unfold memset, store_bytes.
  pose proof (page_iff a k) as Hp.
  case_decide as Hd; destruct (Z.leb_spec (k * 4096 + Z.of_nat (length b)) a), (Z.ltb_spec a (k * 4096 + Z.of_nat (length b) + z)),
    (Z.leb_spec (k * 4096) a), (Z.ltb_spec a (k * 4096 + Z.of_nat (length b))); cbn [andb]; try lia; try done;
    destruct (Z.ltb_spec (a - k * 4096) (Z.of_nat (length b))); try done; lia.
Qed.

Lemma fsM_run {A} (g : st F A) (s : vm F) a x : g (fs s) = Ret (a, x) → fsM g s = Ret (a, set_fs s x).
Proof. intros H. unfold fsM. by rewrite H. Qed.

Lemma load_data_run T L s p r va e k : vm_ok T L s → procs s !! p = Some r → spt r !! va = Some e → status e ≠ PAGE_FRAME →
  ∃ m x' fl', load_data e (k * 4096) s = Ret (true, set_fs (set_swap (set_memory s m) x') fl') ∧ load_step s e k m x' fl'.
Proof.
  intros Hs Hr He Hst. destruct (vk_entry _ _ _ _ _ Hs _ _ _ _ Hr He) as [Hwf Hok]. unfold load_data.
  destruct (status e) eqn:Est; try done.
  - eexists (memset (memory s) (k * 4096) 0 PGSIZE), (swap_space s), (fs s). split; [by destruct s|]. change PGSIZE with (4096 * 1).
    constructor; try done; try apply Hs.
    + intros a Ha. rewrite memset_page. by rewrite decide_False.
    + intros i Hi. unfold content. rewrite Est, memset_page, decide_True; [done|]. by apply page_of.
    + apply same_files_refl, Hs.
    + intros t. rewrite Est. naive_solver.
  - destruct Hok as [Hu _]. unfold swap_in.
    destruct (swap_in_spec (swap_space s) (memory s) (swap_slot e) (k * 4096) (vk_swap _ _ _ _ _ Hs) Hu) as (x' & m & E & Hx & Hus & Hb & Hm).
    exists m, x', (fs s). split; [rewrite st_bind_unfold; cbn; rewrite E; by destruct s|]. constructor; try done.
    + intros a Ha. rewrite Hm. pose proof (page_iff a k). destruct (Z.leb_spec (k * 4096) a), (Z.ltb_spec a (k * 4096 + 4096)); cbn; try done. lia.
    + intros i Hi. unfold content. rewrite Est, Hm. rewrite (proj2 (Z.leb_le _ _)), (proj2 (Z.ltb_lt _ _)) by lia. cbn. by rewrite Z.add_simpl_l.
    + apply same_files_refl, Hs.
    + intros t. rewrite Hus, Est. naive_solver.
  - destruct (ew_some _ _ _ Hwf Est) as [f Ef]. rewrite Ef.
    destruct (ew_file _ _ _ Hwf f Ef) as (H1 & H2 & H3 & H4 & H5 & H6).
    destruct (seek_read_spec (fs s) f (file_offset e) (read_bytes e) (vk_files _ _ _ _ _ Hs) H1 H2 H3 H6) as (f1 & f2 & b & E1 & E2 & Q1 & Q2 & Q3 & Q4 & Q5).
    exists (memset (store_bytes (memory s) (k * 4096) b) (k * 4096 + read_bytes e) 0 (zero_bytes e)), (swap_space s), f2. split.
    { rewrite (st_bind_run _ _ _ _ _ (fsM_run _ s _ _ E1)). rewrite (st_bind_run _ _ _ _ _ (fsM_run _ (set_fs s f1) _ _ E2)).
      rewrite (st_bind_run (store _ _) _ _ _ _ eq_refl). rewrite Q4, (s32_small (read_bytes e)), Z.eqb_refl by lia. by destruct s. }
    rewrite <- Q4. constructor; try done.
    + intros a Ha. rewrite store_fill_page by lia. by rewrite decide_False.
    + intros i Hi. unfold content. rewrite Est. unfold backing. rewrite Ef, store_fill_page by lia. rewrite decide_True by (by apply page_of).
      replace (k * 4096 + i - k * 4096) with i by lia. rewrite <- Q4. destruct (Z.ltb_spec i (Z.of_nat (length b))) as [Hlt|]; [|done].
      rewrite <- (Z2Nat.id i) at 1 by lia. rewrite <- Q5 by lia. apply list_lookup_lookup_total_lt. lia.
    + apply Hs.
    + intros t. rewrite Est. naive_solver.
Qed.

(** Page [va] of process [p] is in memory. *)
Definition resident (s : vm F) (p : nat) (va : Z) : Prop :=
  ∃ r e, procs s !! p = Some r ∧ spt r !! va = Some e ∧ status e = PAGE_FRAME.

(** The state keeps the invariant and what processes see; page [va] is in memory, or [E] holds. *)
Definition load_post (T : owners) (s : vm F) (p : nat) (va : Z) (E : Prop) (ok : bool) (s' : vm F) : Prop :=
  ∃ T', vm_ok T' None s' ∧ (∀ pd, directory T pd → directory T' pd) ∧ quiet s s' ∧ if ok then resident s' p va else E.

Lemma load_post_quiet T s s1 T1 p va (E E' : Prop) ok s' : (∀ pd, directory T pd → directory T1 pd) → quiet s s1 → (E → E') →
  load_post T1 s1 p va E ok s' → load_post T s p va E' ok s'.
Proof.
  intros Hd Hq HE (T' & H1 & H2 & H3 & H4). exists T'. split; [done|]. split; [auto|]. split; [by eapply vm_quiet_trans|].
  destruct ok; auto.
Qed.

(** The entry a loaded page gets. *)
Definition loaded_entry (e : spt_entry) (page : Z) : spt_entry :=
  set_kpage (set_status (if decide (status e = PAGE_SWAP) then set_pinned_dirty e true else e) PAGE_FRAME) page.

Lemma put_back_loaded s e va k m x' fl' : entry_wf (fs s) va e → load_step s e k m x' fl' →
  status e ≠ PAGE_FRAME → status e ≠ PAGE_COW →
  put_back (set_fs (set_memory s m) fl') e (loaded_entry e (k * 4096)) va (k * 4096).
Proof.
  intros Hwf [] H1 H2. unfold loaded_entry. constructor; cbn; try done.
  - eapply entry_wf_same; [done|]. destruct Hwf. case_decide; constructor; done.
  - by case_decide.
  - intros i Hi. rewrite <- ls_content0 by done. unfold content. destruct (status e) eqn:Est; try done. by eapply backing_same.
  - intros i Hw Hpd Hi. case_decide as Hd; [done|].
    transitivity (content (memory s) (swap_space s) (fs s) e i); [|by apply ls_content0].
    transitivity (backing (fs s) e i); [by apply (backing_same (fs s) fl' va e i)|]. unfold content. destruct (status e) eqn:Est; try done.
    unfold backing. by rewrite (ew_zero _ _ _ Hwf Est).
Qed.

(** The dirty bit of a page that came from swap. *)
Lemma mark_run T (s : vm F) e pd va k : tables_ok init_page_dir init_ram_pages T (machine s) → directory T pd → user_va va →
  is_pte (pte (machine s) pd va) k (writable e) →
  runs (if decide (status e = PAGE_SWAP) then machM (pagedir_set_dirty init_page_dir pd va true);; mret (set_pinned_dirty e true) else mret e) s
    (λ e' s', e' = (if decide (status e = PAGE_SWAP) then set_pinned_dirty e true else e) ∧
       ∃ m' w, s' = set_machine s m' ∧ tstep T (machine s) T m' (upd (pte (machine s)) pd va w) ∧ is_pte w k (writable e)).
Proof.
  intros Ht Hd Hv Hp. case_decide.
  - destruct (pte_change_spec _ _ T (machine s) PTE_D pd va true Ht Hd Hv) as (m' & E & Hstep); [apply Hp|done|].
    eapply runs_step; [apply machM_run, E|]. apply runs_ret. split; [done|]. eexists m', _. split; [done|]. split; [exact Hstep|].
    destruct Hp as (H1 & H2 & H3 & H4). unfold is_pte. rewrite addr_lor, !has_lor, H1, H2, H3, H4. change (addr PTE_D) with 0.
    rewrite Z.lor_0_r. by destruct (writable e).
  - apply runs_ret. split; [done|]. eexists (machine s), _. split; [by rewrite set_machine_id|]. split; [|exact Hp].
    eapply step_ext; [by apply step_refl|]. intros q v _ Hv'. unfold upd. case_decide as Hd'; [|done]. destruct Hd' as [-> E].
    unfold pte. by destruct (same_page_nos v va (proj1 Hv') (proj1 Hv) E) as [-> ->].
Qed.

(** The bytes are in frame [f]: the page is mapped, or the frame given back. *)
Definition map_page (p : nat) (pd va : Z) (e : spt_entry) (page : Z) : st (vm F) bool :=
  ok ← machM (pagedir_set_page init_page_dir init_ram_pages pd (upage e) page (writable e));
  if negb ok then frame_free page;; mret false else
  e ← (if decide (status e = PAGE_SWAP) then
         machM (pagedir_set_dirty init_page_dir pd (upage e) true);; mret (set_pinned_dirty e true)
       else mret e);
  put_spte p va (set_kpage (set_status e PAGE_FRAME) page);;
  mret true.

Lemma map_page_run T s f fe p r e k m x' fl' : vm_ok T (Some f) s → frames s !! f = Some fe → fe_kpage fe = k * 4096 →
  threads s !! fe_owner fe = Some (Some p) → procs s !! p = Some r → spt r !! fe_upage fe = Some e → status e ≠ PAGE_FRAME →
  load_step s e k m x' fl' →
  runs (map_page p (pagedir r) (fe_upage fe) e (k * 4096)) (set_fs (set_swap (set_memory s m) x') fl') (load_post T s p (fe_upage fe) (exhausted (kernel_pool (pal (machine s))) 1)).
Proof.
  intros Hs Hf Ek Ho Hr He Hst Hls. set (va := fe_upage fe) in *.
  destruct (vk_entry _ _ _ _ _ Hs _ _ _ _ Hr He) as [Hwf Hok]. pose proof (ew_page _ _ _ Hwf) as [Hal Huv].
  assert (status e ≠ PAGE_COW) as Hnc by (intros E; by rewrite E in Hok).
  destruct (vk_frame _ _ _ _ _ Hs f fe Hf) as (k' & Ek' & Hu & _). assert (k' = k) as -> by lia. clear Ek'.
  destruct (vm_fill T (Some f) s m k Hs Hu) as [Hs1 Hv1].
  { intros g ge Hne Hg E. apply Hne. f_equal. eapply (vk_kpage _ _ _ _ _ Hs); [done..|congruence]. }
  { apply (ls_mem _ _ _ _ _ _ Hls). }
  destruct (vm_files _ _ T (Some f) _ fl' Hs1 (ls_files _ _ _ _ _ _ Hls)) as [Hs2 Hv2]. set (s2 := set_fs (set_memory s m) fl') in *.
  pose proof (vk_tables _ _ _ _ _ Hs2) as Ht. pose proof (vk_proc _ _ _ _ _ Hs2 p r Hr) as Hd.
  destruct (vk_entry _ _ _ _ _ Hs2 p r va e Hr He) as [_ Hok2].
  assert (has (pte (machine s2) (pagedir r) va) PTE_P = false) as Hnp by (destruct (status e); try done; apply Hok2).
  assert (status e = PAGE_SWAP → pte (machine s2) (pagedir r) va ≠ 0) as Hn0 by (intros E; rewrite E in Hok2; apply Hok2).
  unfold map_page. rewrite (ew_upage _ _ _ Hwf).
  destruct (pagedir_set_page_spec _ _ T (machine s2) (pagedir r) va k (writable e) Ht Hd Huv Hal (proj1 Hu) Hnp)
    as [(m1 & T1 & w & E & Hstep & Hw & _)|(m1 & E & Hstep & E0 & Hex)];
    (eapply runs_step; [apply machM_run, E|]); cbn [negb].
  - (* mapped *)
    assert (pte m1 (pagedir r) va = w) as Hptew.
    { rewrite (sp_pte _ _ _ _ _ _ _ Hstep) by done. unfold upd. by rewrite decide_True. }
    eapply runs_then.
    { eapply (mark_run T1 _ e (pagedir r) va k); [apply Hstep|by eapply step_dir|done|]. cbn. by rewrite Hptew. }
    intros e' s3 (-> & m2 & w2 & -> & Hstep2 & Hw2). cbn [set_machine machine] in Hstep2.
    eapply runs_step; [by apply (put_spte_run _ p r)|]. apply runs_ret.
    assert (tstep T (machine s2) T1 m2 (upd (pte (machine s2)) (pagedir r) va w2)) as Hboth.
    { eapply step_ext; [eapply step_trans; [exact Hstep|exact Hstep2|]|].
      - intros q. by eapply step_dir.
      - intros q v Hq Hv. unfold upd at 1 2. case_decide as Hd'; [done|].
        rewrite (sp_pte _ _ _ _ _ _ _ Hstep) by done. unfold upd. by rewrite decide_False. }
    destruct (vm_loaded _ _ T s2 f fe p r e (loaded_entry e (k * 4096)) T1 m2 w2 k Hs2 Hf Ek Ho Hr He Hst Hboth Hw2) as [Hs3 Hv3].
    { by eapply put_back_loaded. }
    destruct (vm_swap _ _ T1 None _ x' Hs3 (ls_swap _ _ _ _ _ _ Hls)) as [Hs4 Hv4].
    { intros q t vb g Hq Hg Hgs Hug. cbn in Hug. split; [|intros; apply (ls_bytes _ _ _ _ _ _ Hls)].
      apply (ls_used _ _ _ _ _ _ Hls). split; [done|]. intros [Hes E2].
      destruct (put_split _ _ _ _ _ _ _ _ _ Hr Hq Hg) as [(-> & -> & -> & _)|(Hne & t' & Ht' & Hg' & _)]; [done|].
      destruct (vk_slot _ _ _ _ _ Hs q t' vb g p r va e) as [-> ->]; try done. by apply Hne. }
    exists T1. split; [exact Hs4|]. split; [intros q; by eapply step_dir|]. split.
    + eapply (quiet_put s _ p r va e (loaded_entry e (k * 4096))); try done.
      * eapply same_view_trans; [exact Hv1|]. eapply same_view_trans; [exact Hv2|]. eapply same_view_trans; [exact Hv3|exact Hv4].
      * cbn. by case_decide.
    + eexists _, _. cbn. unfold put_entry. rewrite lookup_insert_eq. split; [done|]. cbn. by rewrite lookup_insert_eq.
  - (* no memory for a page table *)
    assert (status e ≠ PAGE_SWAP) as Hns by (intros E2; by destruct (Hn0 E2)).
    rewrite (ls_same _ _ _ _ _ _ Hls Hns).
    destruct (vm_machine _ _ T (Some f) s2 T m1 _ Hs2 Hstep) as [Hs3 Hv3]; [done|].
    rewrite <- Ek. eapply runs_then; [by apply (frame_free_run T (set_machine s2 m1) f fe)|]. intros _ s4 (Hs4 & Hl4 & _). apply runs_ret.
    exists T. split; [done|]. split; [done|]. split; [|done]. eapply vm_quiet_trans; [|by eapply later_quiet].
    apply (later_quiet T s T), later_same; try done. eapply same_view_trans; [exact Hv1|]. eapply same_view_trans; [exact Hv2|exact Hv3].
Qed.

(** [spt_load_page], for a page that is not in memory. *)
Lemma spt_load_page_run T s p r va e : vm_ok T None s → threads s !! cur s = Some (Some p) → procs s !! p = Some r →
  spt r !! va = Some e → status e ≠ PAGE_FRAME →
  runs (spt_load_page init_page_dir init_ram_pages p va) s (load_post T s p va (short s)).
Proof.
  intros Hs Hc Hr He Hst. destruct (vk_entry _ _ _ _ _ Hs _ _ _ _ Hr He) as [Hwf _].
  unfold spt_load_page. step. eapply runs_step; [by apply pcb_run|]. eapply runs_step; [by apply get_proc_run|].
  pose proof (dir_page _ _ _ _ _ (vk_tables _ _ _ _ _ Hs) (vk_proc _ _ _ _ _ Hs _ _ Hr)) as [_ Hpd].
  rewrite (proj2 (Z.eqb_neq (pagedir r) 0)) by lia. eapply runs_step; [by eapply spte_run|].
  rewrite (ew_upage _ _ _ Hwf). eapply runs_then; [by apply (frame_alloc_run T s)|].
  intros page s1 (T1 & Hl1 & Hsh & Hp1). destruct (Z.eqb_spec page 0) as [->|Hn].
  { apply runs_ret. exists T1. split; [done|]. split; [apply Hl1|]. split; [by eapply later_quiet|]. by destruct Hsh as [|[]]. }
  destruct Hp1 as (f & k & -> & Hu & Hs1 & Hf). destruct (la_proc _ _ _ _ Hl1 p r Hr) as (r1 & Hr1 & Epd & Hent & _).
  destruct (Hent va e He) as (e1 & He1 & _ & Heq). rewrite (Heq Hst) in He1. clear e1 Heq.
  eapply runs_step; [by eapply spte_run|].
  destruct (load_data_run T1 (Some f) s1 p r1 va e k Hs1 Hr1 He1 Hst) as (m & x' & fl' & E & Hls).
  eapply runs_step; [exact E|]. cbn [negb]. rewrite <- Epd.
  eapply runs_mono; [eapply (map_page_run T1 s1 f _ p r1 e k m x' fl' Hs1 Hf); try done|].
  - cbn. rewrite (la_cur _ _ _ _ Hl1), (la_threads _ _ _ _ Hl1). done.
  - intros ok s2 H. eapply load_post_quiet; [apply Hl1|by eapply later_quiet| |exact H].
    intros Hex. destruct Hsh as [|[_ Ek]]; [done|]. right. right. by rewrite <- Ek.
Qed.
End fault.
End VmFault.
