(* ===== verification/VmUser.v ===== *)
(** * Virtual memory: what a user program sees

    The memory of each process as a map from addresses to bytes and rights, and the proof
    that demand paging implements it: page faults, eviction, swapping and stack growth are
    invisible but for the growth. *)

From stdpp Require Import base tactics numbers list option gmap.
From S2P Require Import Prelude State Bitmap Block Palloc Malloc Pagedir PagedirProofs Swap FileOps VmState Frame Page Vm VmInv VmSteps VmEvict VmFault.

Open Scope Z_scope.

Module VmUser.
Import Palloc Pagedir PagedirProofs Swap VmState Frame Page Vm VmInv VmSteps VmEvict VmFault.

(** ** The abstract memory *)

(** For each process and address the byte there, and whether it may be written. *)
Definition space : Type := nat → Z → option (Z * bool).

(** An access below the stack adds a page of zeros. *)
Definition grows (A : space) (p : nat) (va esp : Z) : bool := bool_decide (A p va = None) && vm_is_stack_access va esp.
Definition grow (A : space) (p : nat) (va esp : Z) : space := λ q v,
  if grows A p va esp && bool_decide (q = p ∧ v / 4096 = va / 4096) then Some (0, true) else A q v.
(** An access that the rights, or the bounds of the stack, forbid. *)
Definition denied (A : space) (p : nat) (va : Z) (write : bool) (esp : Z) : bool :=
  match A p va with Some (_, w) => write && negb w | None => negb (vm_is_stack_access va esp) end.
Definition write_at (A : space) (p : nat) (va b : Z) : space := λ q v,
  if bool_decide (q = p ∧ v = va) then prod_map (λ _, b) id <$> A q v else A q v.

(** ** Programs *)

(** What the threads do, in the order of the schedule: a load or a store by the running
    thread ([esp] is its stack pointer), or a switch to another thread. *)
Inductive op := Load (va esp : Z) | Store (va v esp : Z) | Switch (t : nat).

(** [explains pcb A t ops rs B u]: running [ops] from thread [t] on the memory [A] gives the
    results [rs], the memory [B] and thread [u].  An access may fail, which ends the run; it
    does not change the memory, except that the stack may have grown. *)
Inductive explains (pcb : nat → option nat) : space → nat → list op → list (option Z) → space → nat → Prop :=
  | ex_done A B t : (∀ p va, B p va = A p va) → explains pcb A t [] [] B t
  | ex_load A A' B t u p va esp b w ops rs :
      pcb t = Some p → (∀ q v, A' q v = grow A p va esp q v) → A' p va = Some (b, w) →
      explains pcb A' t ops rs B u → explains pcb A t (Load va esp :: ops) (Some b :: rs) B u
  | ex_store A A' B t u p va v esp b ops rs :
      pcb t = Some p → grow A p va esp p va = Some (b, true) →
      (∀ q x, A' q x = write_at (grow A p va esp) p va v q x) →
      explains pcb A' t ops rs B u → explains pcb A t (Store va v esp :: ops) (Some v :: rs) B u
  | ex_switch A A' B t t' u ops rs :
      (∀ q v, A' q v = A q v) → explains pcb A' t' ops rs B u → explains pcb A t (Switch t' :: ops) (Some 0 :: rs) B u
  | ex_load_fails A B t p va esp ops : pcb t = Some p →
      (∀ q v, B q v = A q v) ∨ (∀ q v, B q v = grow A p va esp q v) → explains pcb A t (Load va esp :: ops) [None] B t
  | ex_store_fails A B t p va v esp ops : pcb t = Some p →
      (∀ q v, B q v = A q v) ∨ (∀ q v, B q v = grow A p va esp q v) → explains pcb A t (Store va v esp :: ops) [None] B t.

Section user.
Context {F : Type} `{!FileOps F} `{!FileLaws F}.
Context (init_page_dir init_ram_pages : Z).
Abbreviation owners := (gmap Z (Z * option Z)).
Abbreviation tstep := (PagedirProofs.step init_page_dir init_ram_pages).
Abbreviation vm_ok := (vm_ok init_page_dir init_ram_pages).

(** The right to write a page. *)
Definition rights (s : vm F) (p : nat) (va : Z) : option bool :=
  r ← procs s !! p; writable <$> spt r !! (va / 4096 * 4096).
Definition sees (s : vm F) : space := λ p va, b ← view s p va; w ← rights s p va; Some (b, w).

Definition same_space (A B : space) : Prop := ∀ p va, A p va = B p va.

(** ** Contents are defined *)

Lemma page_bounds va : user_va va → user_va (va / 4096 * 4096) ∧ (va / 4096 * 4096) mod 4096 = 0.
Proof.
  intros [H1 H2]. pose proof (Z.div_mod va 4096 ltac:(lia)). pose proof (Z.mod_pos_bound va 4096 ltac:(lia)).
  split; [split; lia|by apply Z.mod_mul].
Qed.

Lemma round_user va : user_va va → pg_round_down va = va / 4096 * 4096.
Proof. intros [H1 H2]. change PHYS_BASE with 3221225472 in H2. apply pg_round_down_spec. lia. Qed.

Lemma content_some T L s p r va e i : vm_ok T L s → procs s !! p = Some r → spt r !! va = Some e → 0 ≤ i < 4096 →
  is_Some (content (memory s) (swap_space s) (fs s) e i).
Proof.
  intros Hs Hr He Hi. destruct (vk_entry _ _ _ _ _ Hs _ _ _ _ Hr He) as [Hwf _]. unfold content.
  destruct (status e); try (by eexists). unfold backing. destruct (file e) as [f|] eqn:Ef; [|by eexists].
  destruct (ew_file _ _ _ Hwf f Ef) as (_ & _ & _ & _ & _ & H). destruct (Z.ltb_spec i (read_bytes e)); [|by eexists].
  apply H. lia.
Qed.

(** A process has a byte exactly where it has an entry. *)
Lemma sees_none T L s p r va : vm_ok T L s → procs s !! p = Some r → sees s p va = None ↔ spt r !! (va / 4096 * 4096) = None.
Proof.
  intros Hs Hr. unfold sees, view, rights. rewrite Hr. cbn. destruct (spt r !! _) as [e|] eqn:He; [|done]. cbn.
  destruct (content_some T L s p r _ e (va mod 4096) Hs Hr He) as [b Hb]; [apply Z.mod_pos_bound; lia|]. by rewrite Hb.
Qed.

Lemma sees_some T L s p r va e : vm_ok T L s → procs s !! p = Some r → spt r !! (va / 4096 * 4096) = Some e →
  ∃ b, view s p va = Some b ∧ sees s p va = Some (b, writable e).
Proof.
  intros Hs Hr He. unfold sees, view, rights. rewrite Hr. cbn. rewrite He. cbn.
  destruct (content_some T L s p r _ e (va mod 4096) Hs Hr He) as [b Hb]; [apply Z.mod_pos_bound; lia|]. rewrite Hb. by exists b.
Qed.

(** ** Faults *)

(** What a fault leaves: the same memory, but for a new stack page; if it is handled the page
    is in memory, and may be written if the access was a write. *)
Record serves (T : owners) (s : vm F) (T' : owners) (s' : vm F) (A : space) : Prop := mk_serves {
  sv_ok : vm_ok T' None s';
  sv_dirs pd : directory T pd → directory T' pd;
  sv_cur : cur s' = cur s;
  sv_threads : threads s' = threads s;
  sv_proc p r : procs s !! p = Some r → ∃ r', procs s' !! p = Some r' ∧ pagedir r' = pagedir r;
  sv_sees : same_space (sees s') A }.


Lemma sees_quiet s s' : quiet s s' → same_space (sees s') (sees s).
Proof.
  intros Hq p va. unfold sees. rewrite (qu_view _ _ Hq). destruct (procs s !! p) as [r|] eqn:Er.
  - destruct (qu_proc _ _ Hq p r Er) as (r' & Er' & _ & Hw). unfold rights. rewrite Er, Er'. cbn. by rewrite Hw.
  - assert (view s p va = None) as -> by (unfold view; by rewrite Er). done.
Qed.

Lemma serves_quiet T s T' s' : vm_ok T' None s' → (∀ pd, directory T pd → directory T' pd) → quiet s s' →
  serves T s T' s' (sees s).
Proof.
  intros Hs Hd Hq. constructor; try done; [apply Hq|apply Hq| |by apply sees_quiet].
  intros p r Hr. destruct (qu_proc _ _ Hq p r Hr) as (r' & ? & ? & _). by exists r'.
Qed.

Lemma serves_refl T s : vm_ok T None s → serves T s T s (sees s).
Proof. intros Hs. apply serves_quiet; [done|done|apply vm_quiet_refl]. Qed.

Lemma serves_trans T s T1 s1 T2 s2 A B : serves T s T1 s1 A → serves T1 s1 T2 s2 B → serves T s T2 s2 B.
Proof.
  intros [O1 D1 C1 H1 P1 S1] [O2 D2 C2 H2 P2 S2]. constructor; try done; [auto|congruence|congruence|].
  intros p r Hr. destruct (P1 p r Hr) as (r1 & Hr1 & E1). destruct (P2 p r1 Hr1) as (r2 & Hr2 & E2). exists r2. split; [done|congruence].
Qed.

Lemma serves_same T s T' s' A B : serves T s T' s' A → same_space A B → serves T s T' s' B.
Proof. intros [] H. constructor; try done. intros q v. by rewrite sv_sees0. Qed.

Lemma rights_resident s p va w : rights s p va = Some w → ∃ r e, procs s !! p = Some r ∧
  spt r !! (va / 4096 * 4096) = Some e ∧ writable e = w.
Proof.
  unfold rights. destruct (procs s !! p) as [r|]; [|done]. cbn. destruct (spt r !! _) as [e|] eqn:Ee; [|done]. intros [= <-].
  by exists r, e.
Qed.

(** The second half of [absent_fault]: the entry [k] is there. *)
Definition fault_in (p : nat) (k : Z) (write : bool) : st (vm F) bool :=
  e ← spte p k;
  if write && negb (writable e) then mret false
  else if decide (status e = PAGE_FRAME) then mret false
  else
  ok ← spt_load_page init_page_dir init_ram_pages p k;
  if negb ok then mret false else
  e ← spte p k;
  frame_unpin (kpage e);;
  mret true.

Definition in_post (T : owners) (s : vm F) (p : nat) (va : Z) (write ok : bool) (s' : vm F) : Prop :=
  ∃ T', serves T s T' s' (sees s) ∧
    if ok then resident s' p (va / 4096 * 4096) ∧ (write = true → rights s' p va = Some true)
    else short s ∨ (write = true ∧ rights s p va = Some false) ∨ resident s p (va / 4096 * 4096).

Lemma fault_in_run T s p r va write e : vm_ok T None s → threads s !! cur s = Some (Some p) → procs s !! p = Some r →
  spt r !! (va / 4096 * 4096) = Some e → runs (fault_in p (va / 4096 * 4096) write) s (in_post T s p va write).
Proof.
  intros Hs Hc Hr He. unfold fault_in. eapply runs_step; [by eapply spte_run|].
  destruct (write && negb (writable e)) eqn:Ew.
  { apply runs_ret. exists T. split; [by apply serves_refl|]. right. left. apply andb_true_iff in Ew as [-> Ew]. split; [done|].
    unfold rights. rewrite Hr. cbn. rewrite He. cbn. by destruct (writable e). }
  case_decide as Hst. { apply runs_ret. exists T. split; [by apply serves_refl|]. right. right. by exists r, e. }
  eapply runs_then; [by eapply (spt_load_page_run _ _ T)|]. intros ok s1 (T1 & Hs1 & Hd1 & Hq1 & Hok). destruct ok; cbn [negb].
  2:{ apply runs_ret. exists T1. split; [by apply serves_quiet|by left]. }
  destruct Hok as (r1 & e1 & Hr1 & He1 & Hst1). eapply runs_step; [by eapply spte_run|].
  destruct (vk_entry _ _ _ _ _ Hs1 _ _ _ _ Hr1 He1) as [_ Hok1]. rewrite Hst1 in Hok1.
  destruct Hok1 as (f & k & _ & (fe & Hf & <- & _) & _).
  eapply runs_then; [by eapply frame_unpin_run|]. intros _ s2 (Hs2 & Hl2 & Ep2 & _). apply runs_ret.
  assert (quiet s s2) as Hq2 by (eapply vm_quiet_trans; [done|by eapply later_quiet]).
  exists T1. split; [by apply serves_quiet|]. split.
  - exists r1, e1. by rewrite Ep2.
  - intros ->. destruct (qu_proc _ _ Hq2 p r Hr) as (r2 & Hr2 & _ & Hw). unfold rights. rewrite Hr2. cbn. rewrite Hw, He. cbn.
    cbn in Ew. by destruct (writable e).
Qed.

(** ** The stack *)

Lemma stack_range va esp : vm_is_stack_access va esp = true → va < PHYS_BASE.
Proof. unfold vm_is_stack_access, is_user_vaddr. destruct (Z.ltb_spec va PHYS_BASE); [done|]. done. Qed.

Lemma grow_false A p va esp : grows A p va esp = false → same_space A (grow A p va esp).
Proof. intros E q v. unfold grow. by rewrite E. Qed.

Lemma zero_page_run T s p r va esp : vm_ok T None s → procs s !! p = Some r → spt r !! (va / 4096 * 4096) = None → user_va va →
  vm_is_stack_access va esp = true →
  runs (spt_create_zero_page p (va / 4096 * 4096) true) s (λ ok s', if ok : bool
    then serves T s T s' (grow (sees s) p va esp) ∧ (short s' → short s) ∧ ∃ r' e, procs s' !! p = Some r' ∧ spt r' !! (va / 4096 * 4096) = Some e ∧ status e = PAGE_ZERO
    else serves T s T s' (sees s) ∧ short s).
Proof.
  intros Hs Hr Hn Hv Hst. destruct (page_bounds va Hv) as [Hpv Hpa]. unfold spt_create_zero_page.
  eapply runs_then; [by apply vm_malloc_run|]. intros [] s1 (Hs1 & Hl1 & Hm); cbn [negb].
  2:{ apply runs_ret. split; [apply serves_quiet; [done|done|by eapply later_quiet]|]. left. intros E. by destruct (Hm E). }
  destruct (la_proc _ _ _ _ Hl1 p r Hr) as (r1 & Hr1 & Epd & _ & Hno). pose proof (Hno _ Hn) as Hn1.
  unfold spt_insert. cbn [upage]. rewrite round_page by done.
  eapply runs_step; [by apply get_proc_run|]. rewrite Hn1. step. apply runs_ret.
  set (e := mk_spte _ _ _ _ _ _ _ _ _ _ _).
  destruct (vm_grow _ _ T None s1 p r1 (va / 4096 * 4096) e Hs1 Hr1 Hn1) as [Hs2 Hv2]; [by constructor|by left|].
  assert (procs (grown s1 p r1 (va / 4096 * 4096) e) !! p = Some (set_spt r1 (<[va / 4096 * 4096 := e]> (spt r1)))) as Hr2.
  { cbn. unfold put_entry. by rewrite lookup_insert_eq. }
  split.
  - constructor; [exact Hs2|done|apply Hl1|apply Hl1| |].
    + intros q t Hq. destruct (la_proc _ _ _ _ Hl1 q t Hq) as (t1 & Hq1 & Et & _). destruct (decide (q = p)) as [->|].
      * eexists. split; [exact Hr2|]. cbn. congruence.
      * exists t1. split; [|done]. cbn. unfold put_entry. by rewrite lookup_insert_ne.
    + intros q v. unfold sees at 1. change (set_procs s1 _) with (grown s1 p r1 (va / 4096 * 4096) e). rewrite Hv2.
      unfold grow. assert (grows (sees s) p va esp = true) as ->.
      { unfold grows. rewrite Hst, bool_decide_eq_true_2; [done|]. by eapply sees_none. }
      cbn [andb]. pose proof (Z.div_mod va 4096 ltac:(lia)). 
      destruct (decide (q = p ∧ v / 4096 * 4096 = va / 4096 * 4096)) as [[-> E]|Hne].
      * rewrite bool_decide_eq_true_2 by (split; [done|lia]). cbn. unfold rights. rewrite Hr2. cbn. rewrite E. by rewrite lookup_insert_eq.
      * rewrite bool_decide_eq_false_2 by (intros [-> E]; apply Hne; split; [done|lia]).
        rewrite <- (sees_quiet s s1 (later_quiet _ _ _ _ Hl1) q v). unfold sees. f_equal. unfold rights.
        destruct (decide (q = p)) as [->|].
        -- rewrite Hr2, Hr1. cbn. rewrite lookup_insert_ne; [done|]. intros E. by apply Hne.
        -- cbn. unfold put_entry. by rewrite lookup_insert_ne.
  - split; [|eexists _, e; split; [exact Hr2|]; cbn; by rewrite lookup_insert_eq].
    intros Hsh. destruct (vmallocs s) eqn:Em; [|left; by rewrite Em]. by destruct (Hm eq_refl) as [_ ->].
Qed.

(** ** The handler *)

Definition fault_post (T : owners) (s : vm F) (p : nat) (va : Z) (write : bool) (esp : Z) (ok : bool) (s' : vm F) : Prop :=
  ∃ T' A, serves T s T' s' A ∧ (A = sees s ∨ A = grow (sees s) p va esp) ∧
    if ok then A = grow (sees s) p va esp ∧ resident s' p (va / 4096 * 4096) ∧ (write = true → rights s' p va = Some true)
    else short s ∨ denied (sees s) p va write esp = true ∨ (∃ r, procs s !! p = Some r ∧ has (pte (machine s) (pagedir r) va) PTE_P = true).

Lemma fault_refuse T s p r va write esp : vm_ok T None s → procs s !! p = Some r →
  denied (sees s) p va write esp = true ∨ has (pte (machine s) (pagedir r) va) PTE_P = true → fault_post T s p va write esp false s.
Proof. intros Hs Hr H. exists T, (sees s). split; [by apply serves_refl|]. split; [by left|]. right. destruct H; [by left|right]. by exists r. Qed.

Lemma denied_rights T s p va esp : vm_ok T None s → rights s p va = Some false → denied (sees s) p va true esp = true.
Proof.
  intros Hs Hrt. destruct (rights_resident _ _ _ _ Hrt) as (r & e & Hr & He & Hw). unfold denied.
  destruct (sees_some T None s p r va e Hs Hr He) as (b & _ & ->). by rewrite Hw.
Qed.

(** The table entry of an address is that of its page. *)
Lemma pte_page m pd va : user_va va → pte m pd (va / 4096 * 4096) = pte m pd va.
Proof.
  intros Hv. destruct (page_bounds va Hv) as [Hpv _]. unfold pte.
  destruct (same_page_nos (va / 4096 * 4096) va (proj1 Hpv) (proj1 Hv)) as [-> ->]; [|done]. by rewrite Z.div_mul.
Qed.

Lemma resident_present T s p va : vm_ok T None s → user_va va → resident s p (va / 4096 * 4096) →
  ∃ r, procs s !! p = Some r ∧ has (pte (machine s) (pagedir r) va) PTE_P = true.
Proof.
  intros Hs Hv (r & e & Hr & He & Hst). exists r. split; [done|].
  destruct (in_frame _ _ _ _ _ _ _ _ _ Hs Hr He Hst) as (k & _ & _ & Hp). rewrite pte_page in Hp by done. apply Hp.
Qed.

Lemma absent_fault_run T s p r va write esp : vm_ok T None s → threads s !! cur s = Some (Some p) → procs s !! p = Some r →
  user_va va → runs (absent_fault init_page_dir init_ram_pages p va write esp) s (fault_post T s p va write esp).
Proof.
  intros Hs Hc Hr Hv. destruct (page_bounds va Hv) as [Hpv Hpa]. unfold absent_fault. rewrite (round_user va Hv).
  eapply runs_step; [by apply spt_find_run|].
  destruct (spt r !! (va / 4096 * 4096)) as [e|] eqn:He.
  - rewrite decide_True by done. step. eapply runs_mono; [by apply (fault_in_run T s p r va write e)|].
    intros ok s' (T' & Hsv & Hok). exists T', (grow (sees s) p va esp). split; [|split; [by right|]].
    + eapply serves_same; [done|]. apply grow_false. unfold grows. rewrite bool_decide_eq_false_2; [done|].
      rewrite (sees_none T None s p r va Hs Hr). by rewrite He.
    + destruct ok; [by split|]. destruct Hok as [|[[-> Hrt]|Hres]]; [by left|right; left; by apply (denied_rights T)|right; right].
      by apply (resident_present T).
  - rewrite decide_False by (by intros []). assert (sees s p va = None) as Hnone by (by eapply sees_none).
    destruct (vm_is_stack_access va esp) eqn:Est.
    2:{ step. apply runs_ret. apply (fault_refuse T s p r); [done..|]. left. unfold denied. by rewrite Hnone, Est. }
    eapply runs_then with (Q := λ found s', if found is Some k then k = va / 4096 * 4096 ∧ serves T s T s' (grow (sees s) p va esp) ∧
      (short s' → short s) ∧ ∃ r' e, procs s' !! p = Some r' ∧ spt r' !! (va / 4096 * 4096) = Some e ∧ status e = PAGE_ZERO
      else serves T s T s' (sees s) ∧ short s).
    + eapply runs_then; [by apply (zero_page_run T s p r va esp)|]. intros [] s1; cbn [negb].
      * intros (Hsv & Hsh & r1 & e1 & Hr1 & He1 & Hz). eapply runs_intro; [by apply spt_find_run|]. rewrite He1, decide_True by done.
        split; [done|]. split; [done|]. split; [done|]. by exists r1, e1.
      * intros Hsv. by apply runs_ret.
    + intros [k|] s1.
      2:{ intros [Hsv Hsh]. apply runs_ret. exists T, (sees s). split; [done|]. split; [by left|by left]. }
      intros (-> & Hsv & Hsh & r1 & e1 & Hr1 & He1 & Hz).
      eapply runs_mono; [apply (fault_in_run T s1 p r1 va write e1); try done; [apply Hsv|]|].
      { rewrite (sv_cur _ _ _ _ _ Hsv), (sv_threads _ _ _ _ _ Hsv). done. }
      intros ok s2 (T2 & Hsv2 & Hok). exists T2, (grow (sees s) p va esp). split; [|split; [by right|]].
      * eapply serves_same; [eapply serves_trans; [exact Hsv|exact Hsv2]|]. apply (sv_sees _ _ _ _ _ Hsv).
      * destruct ok; [by split|]. destruct Hok as [|[[-> Hrt]|Hres]]; [left; auto| |].
        -- exfalso. pose proof (sv_sees _ _ _ _ _ Hsv p va) as E. unfold grow, grows in E.
           rewrite Hnone, Est, !bool_decide_eq_true_2 in E by done. cbn in E. unfold sees in E. rewrite Hrt in E. by destruct (view s1 p va).
        -- exfalso. destruct Hres as (r2 & e2 & Hr2 & He2 & Hst2). congruence.
Qed.

Lemma vm_handle_fault_run T s p r va write np esp : vm_ok T None s → threads s !! cur s = Some (Some p) → procs s !! p = Some r →
  np = negb (has (pte (machine s) (pagedir r) va) PTE_P) →
  user_va va → runs (vm_handle_fault init_page_dir init_ram_pages va write np esp) s (fault_post T s p va write esp).
Proof.
  intros Hs Hc Hr Hnp Hv. destruct (page_bounds va Hv) as [Hpv Hpa]. unfold vm_handle_fault. step.
  eapply runs_step; [by apply pcb_run|]. unfold is_user_vaddr. rewrite (proj2 (Z.ltb_lt va PHYS_BASE)) by apply Hv. cbn [negb].
  rewrite (round_user va Hv). eapply runs_step; [by apply spt_find_run|].
  eapply runs_step with (a := None) (s' := s).
  - destruct (spt r !! (va / 4096 * 4096)) as [e|] eqn:He; [|by rewrite decide_False by (by intros [])].
    rewrite decide_True by done. rewrite (st_bind_run _ _ _ _ _ (spte_run _ _ _ _ _ Hr He)).
    destruct (vk_entry _ _ _ _ _ Hs _ _ _ _ Hr He) as [_ Hok].
    rewrite bool_decide_eq_false_2, andb_false_r; [done|]. intros E. by rewrite E in Hok.
  - destruct np; cbn [negb]; [by eapply absent_fault_run|]. apply runs_ret. apply (fault_refuse T s p r); [done..|].
    right. by destruct (has (pte (machine s) (pagedir r) va) PTE_P).
Qed.

(** ** Accesses *)

(** The page is mapped for the access. *)
Lemma resident_allows T s p r e va write : vm_ok T None s → procs s !! p = Some r → spt r !! (va / 4096 * 4096) = Some e →
  user_va va → status e = PAGE_FRAME → (write = true → writable e = true) →
  ∃ k, kpage e = k * 4096 ∧ used (user_pool (pal (machine s))) k ∧ PHYS_BASE / 4096 ≤ k < 2 ^ 20 ∧
    allows (pte (machine s) (pagedir r) va) write = true ∧ addr (pte (machine s) (pagedir r) va) = k * 4096 - PHYS_BASE.
Proof.
  intros Hs Hr He Hv Hst Hw. destruct (in_frame _ _ _ _ _ _ _ _ _ Hs Hr He Hst) as (k & Ek & Hu & Hp). exists k.
  pose proof (user_page_high _ _ _ _ _ (vk_tables _ _ _ _ _ Hs) (proj1 Hu)) as [H1 _].
  destruct (page_bounds va Hv) as [Hpv Hpa].
  assert (pte (machine s) (pagedir r) (va / 4096 * 4096) = pte (machine s) (pagedir r) va) as E.
  { unfold pte. destruct (same_page_nos (va / 4096 * 4096) va (proj1 Hpv) (proj1 Hv)) as [-> ->]; [|done]. by rewrite Z.div_mul. }
  rewrite E in Hp. destruct Hp as (A1 & A2 & A3 & A4). repeat (split; [done|]). split; [|done].
  unfold allows. rewrite A2, A3, A4. destruct write; [|done]. by rewrite Hw.
Qed.

Lemma access_run T s p r e va write : vm_ok T None s → threads s !! cur s = Some (Some p) → procs s !! p = Some r →
  spt r !! (va / 4096 * 4096) = Some e → user_va va → status e = PAGE_FRAME → (write = true → writable e = true) →
  runs (machM (mmu_access va write)) s (λ a s', a = Some (kpage e + va mod 4096) ∧ vm_ok T None s' ∧ later T s T s' ∧ procs s' = procs s).
Proof.
  intros Hs Hc Hr He Hv Hst Hw. destruct (resident_allows T s p r e va write Hs Hr He Hv Hst Hw) as (k & Ek & Hu & Hkr & Hal & Had).
  destruct (vk_cur _ _ _ _ _ Hs) as (q & t & Hq & Ht & Ecr). rewrite Hc in Hq. injection Hq as <-. rewrite Hr in Ht. injection Ht as <-.
  pose proof (vk_tables _ _ _ _ _ Hs) as Htb. pose proof (vk_proc _ _ _ _ _ Hs _ _ Hr) as Hd.
  destruct (mmu_allowed _ _ T (machine s) (pagedir r) va write k Htb Hd Ecr Hv Hal Had Hkr) as (m' & E & Hstep).
  eapply runs_intro; [apply machM_run, E|]. split; [by rewrite Ek, pg_ofs_mod|].
  destruct (vm_machine _ _ T None s T m' _ Hs Hstep) as [H1 H2].
  - intros q t v Ht Hv'. unfold upd. case_decide as Hd'; [|done]. destruct Hd' as [E3 E4].
    assert (pte (machine s) (pagedir t) v = pte (machine s) (pagedir r) va) as ->.
    { unfold pte. rewrite E3. destruct (same_page_nos v va (proj1 Hv') (proj1 Hv) E4) as [-> ->]. done. }
    unfold same_map, touched. rewrite !addr_lor, !has_lor.
    assert (addr PTE_A = 0 ∧ addr (if write then PTE_D else 0) = 0) as [-> ->] by (by destruct write). rewrite !Z.lor_0_r.
    assert (∀ b, has PTE_A b = false → has (if write then PTE_D else 0) b = false → ∀ w, w || has PTE_A b || has (if write then PTE_D else 0) b = w) as Hb.
    { intros b -> ->. by intros []. }
    rewrite !Hb by (by destruct write). repeat (split; [done|]). intros Hn E5.
    assert (has (Z.lor (Z.lor (pte (machine s) (pagedir r) va) PTE_A) (if write then PTE_D else 0)) PTE_A = true) as H6.
    { rewrite !has_lor. change (has PTE_A PTE_A) with true. by rewrite orb_true_r. }
    by rewrite E5 in H6.
  - split; [exact H1|]. split; [|done]. by apply later_same.
Qed.

Definition access_post (T : owners) (s : vm F) (p : nat) (va : Z) (write : bool) (esp : Z) (a : option Z) (s' : vm F) : Prop :=
  ∃ T' A, serves T s T' s' A ∧ (A = sees s ∨ A = grow (sees s) p va esp) ∧
    match a with
    | Some a => A = grow (sees s) p va esp ∧ ∃ r e, procs s' !! p = Some r ∧ spt r !! (va / 4096 * 4096) = Some e ∧
        status e = PAGE_FRAME ∧ a = kpage e + va mod 4096 ∧ (write = true → writable e = true)
    | None => short s ∨ denied (sees s) p va write esp = true
    end.

(** A mapped page has an entry for a page in memory. *)
Lemma mapped_entry T s p r va : vm_ok T None s → procs s !! p = Some r → user_va va →
  has (pte (machine s) (pagedir r) va) PTE_P = true →
  ∃ e, spt r !! (va / 4096 * 4096) = Some e ∧ status e = PAGE_FRAME ∧ has (pte (machine s) (pagedir r) va) PTE_W = writable e.
Proof.
  intros Hs Hr Hv Hp. destruct (page_bounds va Hv) as [Hpv Hpa].
  assert (pte (machine s) (pagedir r) (va / 4096 * 4096) = pte (machine s) (pagedir r) va) as E.
  { unfold pte. destruct (same_page_nos (va / 4096 * 4096) va (proj1 Hpv) (proj1 Hv)) as [-> ->]; [|done]. by rewrite Z.div_mul. }
  rewrite <- E in *. destruct (spt r !! (va / 4096 * 4096)) as [e|] eqn:He.
  - destruct (vk_entry _ _ _ _ _ Hs _ _ _ _ Hr He) as [_ Hok]. exists e. split; [done|].
    destruct (status e) eqn:Est; [congruence| |destruct Hok as (_ & ? & _); congruence|congruence|done]. split; [done|].
    destruct Hok as (f & k & _ & _ & _ & Hpte & _). apply Hpte.
  - rewrite (vk_absent _ _ _ _ _ Hs p r _ Hr Hpv Hpa He) in Hp. done.
Qed.

Lemma user_access_run T s p r va write esp : vm_ok T None s → threads s !! cur s = Some (Some p) → procs s !! p = Some r →
  user_va va → runs (user_access init_page_dir init_ram_pages va write esp) s (access_post T s p va write esp).
Proof.
  intros Hs Hc Hr Hv. pose proof (vk_tables _ _ _ _ _ Hs) as Ht. pose proof (vk_proc _ _ _ _ _ Hs _ _ Hr) as Hd.
  destruct (vk_cur _ _ _ _ _ Hs) as (q & t & Hq & Hqt & Ecr). rewrite Hc in Hq. injection Hq as <-. rewrite Hr in Hqt. injection Hqt as <-.
  unfold user_access. destruct (allows (pte (machine s) (pagedir r) va) write) eqn:Eal.
  - unfold allows in Eal. apply andb_true_iff in Eal as [[Hp _]%andb_true_iff Hw].
    destruct (mapped_entry T s p r va Hs Hr Hv Hp) as (e & He & Hst & HW).
    assert (write = true → writable e = true) as Hwr by (intros ->; cbn in Hw; congruence).
    eapply runs_then; [by apply (access_run T s p r e va write)|]. intros a s1 (-> & Hs1 & Hl1 & Ep1). apply runs_ret.
    exists T, (grow (sees s) p va esp). split; [|split; [by right|split; [done|]]].
    + eapply serves_same; [by apply serves_quiet; [..|by eapply later_quiet]|]. apply grow_false. unfold grows.
      rewrite bool_decide_eq_false_2; [done|]. rewrite (sees_none T None s p r va Hs Hr). by rewrite He.
    + exists r, e. by rewrite Ep1.
  - eapply runs_step; [by apply machM_same, (mmu_denied init_page_dir init_ram_pages T _ (pagedir r))|].
    eapply runs_step; [by apply machM_same, (mmu_present_spec init_page_dir init_ram_pages T _ (pagedir r))|].
    eapply runs_then; [by apply (vm_handle_fault_run T s p r)|]. intros ok s1 (T1 & A & Hsv & HA & Hok). destruct ok.
    2:{ apply runs_ret. exists T1, A. split; [done|]. split; [done|]. destruct Hok as [?|[?|(r1 & Hr1 & Hp)]]; [by left|by right|right].
        assert (r1 = r) as -> by congruence. destruct (mapped_entry T s p r va Hs Hr Hv Hp) as (e & He & Hst & _).
        destruct (write && negb (writable e)) eqn:Ew.
        - apply andb_true_iff in Ew as [-> Ew]. apply (denied_rights T); [done|]. unfold rights. rewrite Hr. cbn. rewrite He. cbn.
          by destruct (writable e).
        - exfalso. destruct (resident_allows T s p r e va write Hs Hr He Hv Hst) as (k & _ & _ & _ & Hal & _); [|congruence].
          intros ->. by destruct (writable e). }
    destruct Hok as (-> & (r1 & e1 & Hr1 & He1 & Hst1) & Hw1).
    assert (write = true → writable e1 = true) as Hwr.
    { intros H. pose proof (Hw1 H) as Hrt. unfold rights in Hrt. rewrite Hr1 in Hrt. cbn in Hrt. rewrite He1 in Hrt. by injection Hrt. }
    eapply runs_mono; [apply (access_run T1 s1 p r1 e1 va write); try done; [apply Hsv|by rewrite (sv_cur _ _ _ _ _ Hsv), (sv_threads _ _ _ _ _ Hsv)]|].
    intros a s2 (-> & Hs2 & Hl2 & Ep2). exists T1, (grow (sees s) p va esp). split; [|split; [by right|split; [done|]]].
    + eapply serves_same; [eapply serves_trans; [exact Hsv|by apply serves_quiet; [..|by eapply later_quiet]]|]. apply Hsv.
    + exists r1, e1. by rewrite Ep2.
Qed.

(** A load returns the byte of the abstract memory; a store changes that byte only. *)
Lemma user_load_run T s p r va esp : vm_ok T None s → threads s !! cur s = Some (Some p) → procs s !! p = Some r → user_va va →
  runs (user_load init_page_dir init_ram_pages va esp) s (λ o s', ∃ T' A, serves T s T' s' A ∧
    (A = sees s ∨ A = grow (sees s) p va esp) ∧
    if o is Some b then A = grow (sees s) p va esp ∧ ∃ w, A p va = Some (b, w)
    else short s ∨ denied (sees s) p va false esp = true).
Proof.
  intros Hs Hc Hr Hv. unfold user_load. eapply runs_then; [by apply (user_access_run T s p r)|].
  intros a s1 (T1 & A & Hsv & HA & Ha). destruct a as [a|].
  2:{ apply runs_ret. by exists T1, A. }
  destruct Ha as (-> & r1 & e1 & Hr1 & He1 & Hst & -> & _). step. apply runs_ret.
  exists T1, (grow (sees s) p va esp). split; [done|]. split; [by right|]. split; [done|]. exists (writable e1).
  rewrite <- (sv_sees _ _ _ _ _ Hsv). destruct (sees_some T1 None s1 p r1 va e1 (sv_ok _ _ _ _ _ Hsv) Hr1 He1) as (b & Hb & ->).
  unfold view in Hb. rewrite Hr1 in Hb. cbn in Hb. rewrite He1 in Hb. cbn in Hb. unfold content in Hb. rewrite Hst in Hb. by injection Hb as <-.
Qed.

Lemma write_at_proper A B p va v : same_space A B → same_space (write_at A p va v) (write_at B p va v).
Proof. intros H q x. unfold write_at. by rewrite H. Qed.

(** A byte of a page in memory is written. *)
Lemma write_serves T s p r va e v : vm_ok T None s → procs s !! p = Some r → spt r !! (va / 4096 * 4096) = Some e → status e = PAGE_FRAME →
  writable e = true → serves T s T (set_memory s (store_bytes (memory s) (kpage e + va mod 4096) [v])) (write_at (sees s) p va v).
Proof.
  intros Hs Hr He Hst Hw. pose proof (Z.mod_pos_bound va 4096 ltac:(lia)) as Hi.
  destruct (vm_write _ _ T s p r (va / 4096 * 4096) e (va mod 4096) v Hs Hr He Hst Hw Hi) as [Hs2 Hv2].
  constructor; [exact Hs2|done|done|done|by eexists|]. intros q x. unfold sees at 1. rewrite Hv2.
  assert (va / 4096 * 4096 + va mod 4096 = va) as -> by (pose proof (Z.div_mod va 4096); lia).
  unfold write_at. change (rights (set_memory s _) q x) with (rights s q x).
  destruct (decide (q = p ∧ x = va)) as [[-> ->]|Hne].
  - rewrite bool_decide_eq_true_2 by done. destruct (sees_some T None s p r va e Hs Hr He) as (b & Hb & ->).
    cbn. unfold rights. rewrite Hr. cbn. by rewrite He.
  - by rewrite bool_decide_eq_false_2.
Qed.

Lemma user_store_run T s p r va v esp : vm_ok T None s → threads s !! cur s = Some (Some p) → procs s !! p = Some r → user_va va →
  runs (user_store init_page_dir init_ram_pages va v esp) s (λ ok s', ∃ T' A, serves T s T' s' A ∧
    if ok : bool then A = write_at (grow (sees s) p va esp) p va v ∧ ∃ b, grow (sees s) p va esp p va = Some (b, true)
    else (A = sees s ∨ A = grow (sees s) p va esp) ∧ (short s ∨ denied (sees s) p va true esp = true)).
Proof.
  intros Hs Hc Hr Hv. unfold user_store. eapply runs_then; [by apply (user_access_run T s p r)|].
  intros a s1 (T1 & A & Hsv & HA & Ha). destruct a as [a|].
  2:{ apply runs_ret. by exists T1, A. }
  destruct Ha as (-> & r1 & e1 & Hr1 & He1 & Hst & -> & Hw). step. apply runs_ret.
  exists T1, (write_at (grow (sees s) p va esp) p va v). split; [|split; [done|]].
  - pose proof (sv_ok _ _ _ _ _ Hsv) as Hs1. eapply serves_same; [eapply serves_trans; [exact Hsv|by apply (write_serves T1 s1 p r1 va e1 v); auto]|].
    apply write_at_proper, Hsv.
  - pose proof (sv_ok _ _ _ _ _ Hsv) as Hs1. rewrite <- (sv_sees _ _ _ _ _ Hsv). destruct (sees_some T1 None s1 p r1 va e1 Hs1 Hr1 He1) as (b & Hb & ->).
    exists b. by rewrite (Hw eq_refl).
Qed.

(** Another thread is scheduled. *)
Lemma switch_run T s t p r : vm_ok T None s → threads s !! t = Some (Some p) → procs s !! p = Some r →
  runs (switch_to init_page_dir t) s (λ _ s', vm_ok T None s' ∧ cur s' = t ∧ threads s' = threads s ∧ procs s' = procs s ∧ same_space (sees s') (sees s)).
Proof.
  intros Hs Ht Hr. pose proof (vk_tables _ _ _ _ _ Hs) as Htb. pose proof (vk_proc _ _ _ _ _ Hs _ _ Hr) as Hd.
  unfold switch_to. eapply runs_step; [by apply pcb_run|].
  eapply runs_step; [exact (st_bind_run (get_proc p) _ _ _ _ (get_proc_run _ _ _ Hr))|].
  eapply runs_step; [exact (machM_run _ _ _ _ (cr3_again _ _ (machine s) (machine s) T _ Htb Hd))|].
  eapply runs_intro; [reflexivity|]. split; [|done].
  destruct (dir_page _ _ _ _ _ Htb Hd) as [Ep Hpr]. pose proof (owned_page _ _ _ _ _ _ Htb Hd) as Ho.
  destruct Hs. constructor; cbn; try done.
  - destruct Htb. constructor; try done. cbn. change (PHYS_BASE / 4096) with 786432 in Ho. change PHYS_BASE with (786432 * 4096). lia.
  - by exists p, r.
Qed.

(** ** Runs *)

Definition exec (o : op) : st (vm F) (option Z) :=
  match o with
  | Load va esp => user_load init_page_dir init_ram_pages va esp
  | Store va v esp => ok ← user_store init_page_dir init_ram_pages va v esp; mret (if ok : bool then Some v else None)
  | Switch t => switch_to init_page_dir t;; mret (Some 0)
  end.

(** A failed access kills the process: the run ends. *)
Fixpoint run_ops (ops : list op) : st (vm F) (list (option Z)) :=
  match ops with
  | [] => mret []
  | o :: ops =>
      r ← exec o;
      match r with
      | Some b => rs ← run_ops ops; mret (Some b :: rs)
      | None => mret [None]
      end
  end.

(** User addresses, and threads that have a process. *)
Definition op_ok (s : vm F) (o : op) : Prop :=
  match o with
  | Load va _ | Store va _ _ => user_va va
  | Switch t => ∃ p r, threads s !! t = Some (Some p) ∧ procs s !! p = Some r
  end.

Lemma op_ok_serves T s T' s' A o : serves T s T' s' A → op_ok s o → op_ok s' o.
Proof.
  intros Hsv. destruct o as [| |t]; [done..|]. intros (p & r & Ht & Hr). destruct (sv_proc _ _ _ _ _ Hsv p r Hr) as (r' & Hr' & _).
  exists p, r'. by rewrite (sv_threads _ _ _ _ _ Hsv).
Qed.

Lemma explains_run ops : ∀ T s, vm_ok T None s → Forall (op_ok s) ops →
  runs (run_ops ops) s (λ rs s', (∃ T', vm_ok T' None s') ∧
    explains (λ t, mjoin (threads s !! t)) (sees s) (cur s) ops rs (sees s') (cur s')).
Proof.
  induction ops as [|o ops IH]; intros T s Hs Hops.
  { apply runs_ret. split; [by exists T|]. by constructor. }
  destruct (vk_cur _ _ _ _ _ Hs) as (p & r & Hc & Hr & _).
  assert (mjoin (threads s !! cur s) = Some p) as Hp by (by rewrite Hc).
  apply Forall_cons in Hops as [Ho Hops]. cbn [run_ops].
  destruct o as [va esp|va v esp|t]; cbn [exec].
  - eapply runs_then; [by apply (user_load_run T s p r)|]. intros [b|] s1 (T1 & A & Hsv & HA & Hb).
    + destruct Hb as [-> [w Hw]]. eapply runs_then; [apply (IH T1 s1); [apply Hsv|]|].
      { eapply Forall_impl; [exact Hops|]. intros o. by eapply op_ok_serves. }
      intros rs s2 [Hs2 He]. apply runs_ret. split; [done|].
      rewrite (sv_threads _ _ _ _ _ Hsv), (sv_cur _ _ _ _ _ Hsv) in He. eapply ex_load; [done|apply (sv_sees _ _ _ _ _ Hsv)| |exact He].
      by rewrite (sv_sees _ _ _ _ _ Hsv).
    + apply runs_ret. split; [exists T1; apply Hsv|]. rewrite (sv_cur _ _ _ _ _ Hsv). eapply ex_load_fails; [done|].
      destruct HA as [->| ->]; [left|right]; apply (sv_sees _ _ _ _ _ Hsv).
  - eapply runs_then with (Q := λ o s1, ∃ ok : bool, o = (if ok then Some v else None) ∧ ∃ T' A, serves T s T' s1 A ∧
      if ok then A = write_at (grow (sees s) p va esp) p va v ∧ ∃ b, grow (sees s) p va esp p va = Some (b, true)
      else (A = sees s ∨ A = grow (sees s) p va esp) ∧ (short s ∨ denied (sees s) p va true esp = true)).
    { eapply runs_then; [by apply (user_store_run T s p r)|]. intros ok s1 H. apply runs_ret. by exists ok. }
    intros o s1 (ok & -> & T1 & A & Hsv & Hb). destruct ok.
    + destruct Hb as [-> [b Hb]]. eapply runs_then; [apply (IH T1 s1); [apply Hsv|]|].
      { eapply Forall_impl; [exact Hops|]. intros o. by eapply op_ok_serves. }
      intros rs s2 [Hs2 He]. apply runs_ret. split; [done|].
      rewrite (sv_threads _ _ _ _ _ Hsv), (sv_cur _ _ _ _ _ Hsv) in He. eapply ex_store; [done|done|apply (sv_sees _ _ _ _ _ Hsv)|exact He].
    + apply runs_ret. split; [exists T1; apply Hsv|]. rewrite (sv_cur _ _ _ _ _ Hsv). eapply ex_store_fails; [done|].
      destruct Hb as [[->| ->] _]; [left|right]; apply (sv_sees _ _ _ _ _ Hsv).
  - destruct Ho as (q & t' & Ht & Hq).
    eapply runs_then with (Q := λ o s1, o = Some 0 ∧ vm_ok T None s1 ∧ cur s1 = t ∧ threads s1 = threads s ∧ procs s1 = procs s ∧
      same_space (sees s1) (sees s)).
    { eapply runs_then; [by apply (switch_run T s t q t')|]. intros [] s1 H. by apply runs_ret. }
    intros o s1 (-> & Hs1 & Hc1 & Ht1 & Hp1 & Hsees). eapply runs_then; [apply (IH T s1 Hs1)|].
    { eapply Forall_impl; [exact Hops|]. intros [| |]; cbn; [done..|]. by rewrite Ht1, Hp1. }
    intros rs s2 [Hs2 He]. apply runs_ret. split; [done|]. rewrite Ht1, Hc1 in He. by eapply ex_switch.
Qed.
End user.
End VmUser.
