(* ===== verification/MmapProofs.v ===== *)
(** * Memory mappings: what a process sees

    [mmap_create_anon] returns on every state that satisfies the invariant; it gives the
    process pages of zeros where it had none, or changes nothing.  [mmap_destroy] of such a
    mapping takes the pages away again, wherever their bytes are kept.  Nothing else a process
    sees changes. *)

From stdpp Require Import base tactics numbers list option gmap.
From S2P Require Import Prelude State Bitmap Block Palloc Malloc Pagedir PagedirProofs Swap FileOps VmState Frame Page Vm Mmap VmInv VmSteps VmEvict VmFault VmUser.

Open Scope Z_scope.

Module MmapProofs.
Import Palloc Pagedir PagedirProofs Swap VmState Frame Page Mmap VmInv VmSteps VmEvict VmFault VmUser.

Section mmap.
Context {F : Type} `{!FileOps F} `{!FileLaws F}.
Context (init_page_dir init_ram_pages : Z).
Abbreviation owners := (gmap Z (Z * option Z)).
Abbreviation tstep := (PagedirProofs.step init_page_dir init_ram_pages).
Abbreviation vm_ok := (vm_ok init_page_dir init_ram_pages).

(** ** An entry is removed *)

Definition remove_entry (ps : gmap nat process) (p : nat) (r : process) (va : Z) : gmap nat process :=
  <[p := set_spt r (delete va (spt r))]> ps.
Definition removed (s : vm F) (p : nat) (r : process) (va : Z) (m' : mach) : vm F :=
  set_procs (set_machine s m') (remove_entry (procs s) p r va).

Lemma remove_split ps p r va q t vb g : ps !! p = Some r → remove_entry ps p r va !! q = Some t → spt t !! vb = Some g →
  (q = p → vb ≠ va) ∧ ∃ t', ps !! q = Some t' ∧ spt t' !! vb = Some g ∧ pagedir t' = pagedir t.
Proof.
  intros Hr Ht Hg. unfold remove_entry in Ht. apply lookup_insert_Some in Ht as [[<- <-]|[Hne Ht]].
  - cbn in Hg. apply lookup_delete_Some in Hg as [Hne Hg]. split; [done|]. by exists r.
  - split; [congruence|]. by exists t.
Qed.

(** The frame of a removed page is left over. *)
Definition left_over (s : vm F) (e : spt_entry) (L : option nat) : Prop :=
  if decide (status e = PAGE_FRAME) then ∃ f fe, L = Some f ∧ frames s !! f = Some fe ∧ fe_kpage fe = kpage e else L = None.

(** The view without the page. *)
Definition view_gone (s s' : vm F) (p : nat) (va : Z) : Prop := ∀ q v,
  view s' q v = if decide (q = p ∧ v / 4096 * 4096 = va) then None else view s q v.

Lemma vm_removed T s p r va e m' w L : vm_ok T None s → procs s !! p = Some r → spt r !! va = Some e →
  tstep T (machine s) T m' (upd (pte (machine s)) (pagedir r) va w) → has w PTE_P = false → left_over s e L →
  vm_ok T L (removed s p r va m') ∧ view_gone s (removed s p r va m') p va.
Proof.
  intros Hs Hr He Hstep Hw HL. pose proof (sp_kept _ _ _ _ _ _ _ Hstep) as Hk.
  destruct (vk_entry _ _ _ _ _ Hs _ _ _ _ Hr He) as [Hwf _]. pose proof (ew_page _ _ _ Hwf) as [Hal Huv].
  pose proof (λ k i, step_mem _ _ _ _ _ _ _ _ k i Hs Hstep) as Hmem.
  destruct (step_upd _ _ _ _ _ _ _ _ _ _ _ Hs Hr Huv Hal Hstep) as [Hptew Hpte].
  destruct (put_procs _ _ _ _ _ _ _ (delete va (spt r)) Hs Hr) as (P1 & P2 & P3).
  assert (∀ q t vb g i, procs s !! q = Some t → spt t !! vb = Some g → 0 ≤ i < 4096 →
    content (ram m') (swap_space s) (fs s) g i = content (memory s) (swap_space s) (fs s) g i) as Hcont.
  { intros q t vb g i Ht Hg Hi. destruct (vk_entry _ _ _ _ _ Hs _ _ _ _ Ht Hg) as [_ Hok]. unfold content.
    destruct (status g) eqn:Est; try done.
    destruct (in_frame _ _ _ _ _ _ _ _ _ Hs Ht Hg Est) as (k & -> & Hu & _). by rewrite Hmem. }
  assert (∀ q t vb g, procs s !! q = Some t → spt t !! vb = Some g → status g = PAGE_FRAME → status e = PAGE_FRAME →
    kpage g = kpage e → q = p ∧ vb = va) as Hap by (intros; by eapply frames_apart).
  split.
  - destruct Hs. constructor; cbn; try done.
    + apply Hstep.
    + by rewrite (ke_cr3 _ _ Hk).
    + intros g ge Hg. destruct (vk_frame0 g ge Hg) as (k & H1 & H2 & H3 & H4). exists k. cbn. rewrite (ke_user _ _ Hk).
      rewrite decide_False in H4 by done. split; [done|]. split; [done|]. split; [done|]. case_decide as HLg; [done|].
      destruct H4 as (q & t & e2 & O & P & Q & R & S). unfold remove_entry. destruct (decide (q = p)) as [->|].
      * assert (t = r) as -> by congruence. eexists p, _, e2. rewrite lookup_insert_eq. split; [done|]. split; [done|].
        split; [|done]. cbn. rewrite lookup_delete_ne; [done|]. intros ->. assert (e2 = e) as -> by congruence.
        unfold left_over in HL. rewrite decide_True in HL by done. destruct HL as (f & fe & -> & Hf & Ek). apply HLg. f_equal.
        eapply vk_kpage0; [done..|congruence].
      * exists q, t, e2. by rewrite lookup_insert_ne.
    + intros q t vb g Ht Hg. destruct (remove_split _ _ _ _ _ _ _ _ Hr Ht Hg) as (Hne & t' & Ht' & Hg' & Epd).
      destruct (vk_entry0 q t' vb g Ht' Hg') as [Hwf' Hok]. split; [done|]. cbn.
      rewrite <- Epd. destruct (Hpte q t' vb Ht') as [[-> ->]| ->]; [apply Hwf'|apply Hwf'|by destruct Hne|].
      destruct (status g) eqn:Est; try done.
      destruct Hok as (g' & k' & _ & H2 & H3 & H4 & H5). exists g', k'. split; [|split; [done|split; [done|split; [done|]]]].
      * intros ->. unfold left_over in HL. case_decide as Hst; [|done]. destruct HL as (f & fe & [= ->] & Hf & Ek).
        destruct H2 as (ge & G1 & G2 & _). assert (ge = fe) as -> by congruence.
        destruct (Hap q t' vb g) as [-> ->]; [done..|congruence|by apply Hne].
      * intros ?? i Hi. rewrite H5 by done. f_equal. rewrite H3. symmetry. apply Hmem; [|done].
        destruct H2 as (ge & G1 & E2 & _). destruct (vk_frame0 g' ge G1) as (k2 & E3 & Hu2 & _). by assert (k2 = k') as <- by lia.
    + intros q t vb g q' t' vb' g' H1 H2 H3 H4 H5 H6 E.
      destruct (remove_split _ _ _ _ _ _ _ _ Hr H1 H2) as (_ & t1 & Ht1 & Hg1 & _).
      destruct (remove_split _ _ _ _ _ _ _ _ Hr H4 H5) as (_ & t2 & Ht2 & Hg2 & _). by eapply vk_slot0.
    + unfold remove_entry. intros q t vb Ht Hv Hvb Hn. apply lookup_insert_Some in Ht as [[<- <-]|[Hne Ht]]; cbn in *.
      * destruct (decide (vb = va)) as [->|Hne]; [by rewrite Hptew|]. rewrite lookup_delete_ne in Hn by done.
        destruct (Hpte p r vb Hr Hv Hvb) as [[_ ->]| ->]; [done|]. by eapply vk_absent0.
      * destruct (Hpte q t vb Ht Hv Hvb) as [[-> _]| ->]; [done|]. by eapply vk_absent0.
  - intros q v. pose proof (Z.mod_pos_bound v 4096 ltac:(lia)) as Hi. unfold view. cbn. unfold remove_entry. case_decide as Hd.
    + destruct Hd as [-> <-]. rewrite lookup_insert_eq. cbn. by rewrite lookup_delete_eq.
    + destruct (decide (q = p)) as [->|].
      * rewrite lookup_insert_eq, Hr. cbn. rewrite lookup_delete_ne by (intros E; by apply Hd).
        destruct (spt r !! (v / 4096 * 4096)) as [g|] eqn:Eg; [|done]. cbn. by eapply Hcont.
      * rewrite lookup_insert_ne by done. destruct (procs s !! q) as [t|] eqn:Et; [|done]. cbn.
        destruct (spt t !! _) as [g|] eqn:Eg; [|done]. cbn. by eapply Hcont.
Qed.
Lemma remove_plain T s p r va e : vm_ok T None s → procs s !! p = Some r → spt r !! va = Some e → status e ≠ PAGE_FRAME →
  vm_ok T None (set_procs s (remove_entry (procs s) p r va)) ∧ view_gone s (set_procs s (remove_entry (procs s) p r va)) p va.
Proof.
  intros Hs Hr He Hst. destruct (vk_entry _ _ _ _ _ Hs _ _ _ _ Hr He) as [Hwf Hok]. pose proof (ew_page _ _ _ Hwf) as [Hal Huv].
  assert (set_procs s (remove_entry (procs s) p r va) = removed s p r va (machine s)) as -> by (unfold removed; by rewrite set_machine_id).
  eapply vm_removed; [done..| | |by unfold left_over; rewrite decide_False].
  - eapply step_ext; [apply step_refl, (vk_tables _ _ _ _ _ Hs)|]. intros pd v Hd Hv. unfold upd. case_decide as E; [|done].
    destruct E as [-> E]. unfold pte. destruct (same_page_nos v va (proj1 Hv) (proj1 Huv) E) as [-> ->]. reflexivity.
  - destruct (status e); try done. apply Hok.
Qed.

(** ** The abstract memory without, and with, pages *)

Definition in_pages (a n v : Z) : Prop := a ≤ v < a + n * 4096.
#[local] Instance in_pages_dec a n v : Decision (in_pages a n v).
Proof. unfold in_pages. apply _. Defined.
Definition without (A : space) (p : nat) (a n : Z) : space := λ q v,
  if decide (q = p ∧ in_pages a n v) then None else A q v.
Definition with_zeros (A : space) (p : nat) (a n : Z) : space := λ q v,
  if decide (q = p ∧ in_pages a n v) then Some (0, true) else A q v.

Lemma page_in va v : va mod 4096 = 0 → v / 4096 * 4096 = va ↔ in_pages va 1 v.
Proof.
  intros Ha. unfold in_pages. pose proof (Z.div_mod va 4096 ltac:(lia)). pose proof (Z.div_mod v 4096 ltac:(lia)).
  pose proof (Z.mod_pos_bound v 4096 ltac:(lia)). lia.
Qed.

Definition gone_post (T : owners) (s : vm F) (p : nat) (r : process) (va : Z) (s' : vm F) : Prop :=
  serves init_page_dir init_ram_pages T s T s' (without (sees s) p va 1) ∧ procs s' = remove_entry (procs s) p r va.

Lemma gone_intro T s s' p r va : vm_ok T None s' → procs s !! p = Some r → va mod 4096 = 0 → view_gone s s' p va →
  procs s' = remove_entry (procs s) p r va → cur s' = cur s → threads s' = threads s → gone_post T s p r va s'.
Proof.
  intros Hs' Hr Ha Hv Ep Ec Et. split; [|done]. constructor; try done.
  - intros q t Hq. rewrite Ep. unfold remove_entry. destruct (decide (q = p)) as [->|].
    + rewrite lookup_insert_eq. eexists. split; [done|]. cbn. congruence.
    + exists t. by rewrite lookup_insert_ne.
  - intros q v. unfold sees at 1. rewrite Hv. unfold without, sees, rights. rewrite Ep. unfold remove_entry.
    pose proof (page_in va v Ha) as Hin. destruct (decide (q = p ∧ v / 4096 * 4096 = va)) as [[-> E]|Hd].
    + by rewrite decide_True by (split; [done|by apply Hin]).
    + rewrite decide_False by (intros [-> E]; apply Hd; split; [done|by apply Hin]). destruct (decide (q = p)) as [->|].
      * rewrite lookup_insert_eq, Hr. cbn. rewrite lookup_delete_ne; [done|]. intros E. by apply Hd.
      * by rewrite lookup_insert_ne.
Qed.

(** The process has no such page. *)
Lemma gone_absent T s p r va : vm_ok T None s → procs s !! p = Some r → va mod 4096 = 0 → spt r !! va = None →
  gone_post T s p r va s.
Proof.
  intros Hs Hr Ha Hn. apply gone_intro; try done.
  - intros q v. case_decide as Hd; [|done]. destruct Hd as [-> E]. unfold view. rewrite Hr. cbn. by rewrite E, Hn.
  - unfold remove_entry. rewrite delete_id by done. destruct r. cbn. by rewrite insert_id.
Qed.

(** [spt_remove] of a page that is not in memory or swap. *)
Lemma spt_remove_run T s p r va e : vm_ok T None s → procs s !! p = Some r → spt r !! va = Some e → status e = PAGE_ZERO →
  runs (spt_remove p va) s (λ _ s', gone_post T s p r va s').
Proof.
  intros Hs Hr He Hst. destruct (vk_entry _ _ _ _ _ Hs _ _ _ _ Hr He) as [Hwf _]. pose proof (ew_page _ _ _ Hwf) as [Hal Huv].
  destruct (remove_plain T s p r va e Hs Hr He) as [Hs' Hv']; [congruence|].
  unfold spt_remove. eapply runs_step; [by apply spt_find_run|]. rewrite decide_True by done.
  eapply runs_step; [by eapply spte_run|]. eapply runs_step; [by apply get_proc_run|]. step.
  unfold release. rewrite Hst. step. apply runs_ret. by apply gone_intro.
Qed.

(** ** A page of an anonymous mapping is given up *)

(** The frame of a page that has been removed. *)
Lemma left_frame_run T s f fe : vm_ok T (Some f) s → frames s !! f = Some fe →
  runs (frame_unpin (fe_kpage fe);; frame_free (fe_kpage fe)) s (λ _ s', vm_ok T None s' ∧ later T s T s' ∧ procs s' = procs s).
Proof.
  intros Hs Hf. eapply runs_then; [by eapply frame_unpin_run|]. intros _ s1 (Hs1 & Hl1 & Ep1 & Hf1).
  eapply runs_mono; [exact (frame_free_run _ _ T s1 f (set_pinned fe false) Hs1 Hf1)|].
  intros _ s2 (Hs2 & Hl2 & Ep2). split; [done|]. split; [by eapply later_trans|congruence].
Qed.

Lemma cleanup_frame_run T s p r va e reg : vm_ok T None s → procs s !! p = Some r → spt r !! va = Some e →
  status e = PAGE_FRAME → is_anonymous reg = true →
  runs (cleanup_page init_page_dir p (pagedir r) reg va) s (λ _ s', gone_post T s p r va s').
Proof.
  intros Hs Hr He Hst Han. destruct (vk_entry _ _ _ _ _ Hs _ _ _ _ Hr He) as [Hwf Hok]. pose proof (ew_page _ _ _ Hwf) as [Hal Huv].
  rewrite Hst in Hok. destruct Hok as (f & k & _ & (fe & Hf & Ek & Eu & Ho) & Ek' & Hpte & _).
  destruct (vk_frame _ _ _ _ _ Hs f fe Hf) as (k2 & Ek2 & Hu & _).
  pose proof (proj1 (user_page_high _ _ _ _ _ (vk_tables _ _ _ _ _ Hs) (proj1 Hu))) as Hk. change (PHYS_BASE / 4096) with 786432 in Hk.
  unfold cleanup_page. eapply runs_step; [by apply find_entry_run|]. rewrite He, Hst, bool_decide_eq_true_2 by done.
  assert (kpage e ≠ 0) as Hk0 by lia. rewrite (proj2 (Z.eqb_neq _ _) Hk0). cbn [negb andb].
  (* pinned *)
  unfold frame_pin_if_present. rewrite (proj2 (Z.eqb_neq _ _) Hk0), <- Ek.
  eapply runs_step; [by eapply on_frame_run|]. destruct (vm_pin _ _ T None s f fe true Hs Hf) as [Hs1 Hv1].
  set (s1 := with_frame s f (set_pinned fe true)) in *. rewrite Han. cbn [negb].
  destruct (pagedir_clear_page_spec _ _ T (machine s) (pagedir r) va (vk_tables _ _ _ _ _ Hs) (vk_proc _ _ _ _ _ Hs _ _ Hr) Huv Hal)
    as (m1 & E1 & Hstep); [apply Hpte|].
  eapply runs_step.
  { rewrite (st_bind_run (mret false) _ s1 false s1 eq_refl).
    rewrite (st_bind_run _ _ _ _ _ (machM_run (pagedir_clear_page init_page_dir (pagedir r) va) s1 tt m1 E1)). reflexivity. }
  destruct (clear_P _ _ _ Hpte) as [HwP _].
  destruct (vm_removed T s1 p r va e m1 _ (Some f) Hs1 Hr He Hstep HwP) as [Hs2 Hv2].
  { unfold left_over. rewrite decide_True by done. exists f, (set_pinned fe true). split; [done|]. split; [|done]. cbn. by rewrite lookup_insert_eq. }
  eapply runs_step; [by apply get_proc_run|]. rewrite round_page by done. step. step. cbn [when].
  rewrite bool_decide_eq_false_2 by done. cbn [when].
  assert (frames (removed s1 p r va m1) !! f = Some (set_pinned fe true)) as Hf2 by (cbn; by rewrite lookup_insert_eq).
  change (set_procs (set_machine s1 m1) _) with (removed s1 p r va m1).
  pose proof (left_frame_run T _ f (set_pinned fe true) Hs2 Hf2) as Hrun. cbn [fe_kpage set_pinned] in Hrun.
  destruct Hrun as ([] & s4 & E4 & Hs4 & Hl4 & Ep4). apply st_bind_Ret in E4 as ([] & s3 & E3 & E4).
  eapply runs_step; [exact E3|]. eapply runs_step; [exact E4|]. apply runs_ret. apply gone_intro; try done.
  - intros q v. rewrite (la_view _ _ _ _ Hl4), Hv2. by rewrite Hv1.
  - by rewrite (la_cur _ _ _ _ Hl4).
  - by rewrite (la_threads _ _ _ _ Hl4).
Qed.

Lemma cleanup_page_run T s p r va reg : vm_ok T None s → procs s !! p = Some r → user_va va → va mod 4096 = 0 →
  is_anonymous reg = true →
  runs (cleanup_page init_page_dir p (pagedir r) reg va) s (λ _ s', gone_post T s p r va s').
Proof.
  intros Hs Hr Huv Hal Han. destruct (spt r !! va) as [e|] eqn:He.
  2:{ unfold cleanup_page. eapply runs_step; [by apply find_entry_run|]. rewrite He. apply runs_ret. by apply gone_absent. }
  destruct (decide (status e = PAGE_FRAME)) as [Hst|Hst]; [by eapply cleanup_frame_run|].
  destruct (remove_plain T s p r va e Hs Hr He Hst) as [Hs1 Hv1]. set (s1 := set_procs s _) in *.
  unfold cleanup_page. eapply runs_step; [by apply find_entry_run|]. rewrite He, bool_decide_eq_false_2 by done. cbn [andb negb].
  step. step. eapply runs_step; [by apply get_proc_run|]. rewrite round_page by done. step. step. cbn [when]. step. step.
  change (set_procs s _) with s1. destruct (decide (status e = PAGE_SWAP)) as [Hsw|Hsw].
  2:{ rewrite bool_decide_eq_false_2 by done. apply runs_ret. by apply gone_intro. }
  rewrite bool_decide_eq_true_2 by done. cbn [when].
  destruct (vk_entry _ _ _ _ _ Hs _ _ _ _ Hr He) as [_ Hok]. rewrite Hsw in Hok.
  destruct (swap_free_spec (swap_space s1) (swap_slot e)) as (x' & E & Hx & Hus & Hby); [apply Hs|apply Hok|].
  destruct (vm_swap _ _ T None s1 x' Hs1 Hx) as [Hs2 Hv2].
  { intros q t vb g Ht Hg Hgs Hgu. destruct (remove_split _ _ _ _ _ _ _ _ Hr Ht Hg) as (Hne & t' & Ht' & Hg' & _).
    split; [|intros; apply Hby]. apply Hus. split; [done|]. intros Eq.
    destruct (vk_slot _ _ _ _ _ Hs q t' vb g p r va e) as [-> ->]; try done. by apply Hne. }
  eapply runs_intro; [unfold swap_free; rewrite E; reflexivity|].
  apply gone_intro; try done. intros q v. by rewrite Hv2, Hv1.
Qed.

(** ** Pages one after another *)

(** The entries of one process have changed. *)
Definition respt (s s' : vm F) (p : nat) (r : process) : Prop := ∃ x, procs s' = <[p := set_spt r x]> (procs s).

Lemma respt_refl s p r : procs s !! p = Some r → respt s s p r.
Proof. intros Hr. exists (spt r). destruct r. by rewrite insert_id. Qed.
Lemma respt_trans s1 s2 s3 p r x : procs s2 = <[p := set_spt r x]> (procs s1) → respt s2 s3 p (set_spt r x) → respt s1 s3 p r.
Proof. intros E2 [y E3]. exists y. by rewrite E3, E2, insert_insert_eq. Qed.

Lemma without_more A p a b i n : b = a + i * 4096 → 0 ≤ i → 0 ≤ n →
  same_space (without (without A p a i) p b n) (without A p a (i + n)).
Proof. intros -> ? ? q v. unfold without, in_pages. repeat case_decide; try done; exfalso; naive_solver lia. Qed.
Lemma without_none A p a : same_space (without A p a 0) A.
Proof. intros q v. unfold without, in_pages. case_decide; [lia|done]. Qed.
Lemma with_zeros_more A p a b i n : b = a + i * 4096 → 0 ≤ i → 0 ≤ n →
  same_space (with_zeros (with_zeros A p a i) p b n) (with_zeros A p a (i + n)).
Proof. intros -> ? ? q v. unfold with_zeros, in_pages. repeat case_decide; try done; exfalso; naive_solver lia. Qed.
Lemma with_zeros_none A p a : same_space (with_zeros A p a 0) A.
Proof. intros q v. unfold with_zeros, in_pages. case_decide; [lia|done]. Qed.
(** Pages that were not there come and go. *)
Lemma without_with A p a n : (∀ v, in_pages a n v → A p v = None) → same_space (without (with_zeros A p a n) p a n) A.
Proof. intros H q v. unfold without, with_zeros. repeat case_decide; try done. destruct H0 as [-> ?]. by rewrite H. Qed.

Lemma without_proper A B p a n : same_space A B → same_space (without A p a n) (without B p a n).
Proof. intros H q v. unfold without. by case_decide. Qed.
Lemma with_zeros_proper A B p a n : same_space A B → same_space (with_zeros A p a n) (with_zeros B p a n).
Proof. intros H q v. unfold with_zeros. by case_decide. Qed.
Lemma same_space_trans A B C : same_space A B → same_space B C → same_space A C.
Proof. intros H1 H2 q v. by rewrite H1. Qed.

(** The [i]-th page from [a] on, in the arithmetic of the code. *)
Lemma nth_page a i n : a mod 4096 = 0 → 0 ≤ a → a + n * 4096 ≤ PHYS_BASE → 0 ≤ i < n →
  u32 (a + i * PGSIZE) = a + i * 4096 ∧ user_va (a + i * 4096) ∧ (a + i * 4096) mod 4096 = 0.
Proof.
  intros Ha H0 Hn Hi. change PGSIZE with 4096. unfold user_va. change PHYS_BASE with 3221225472 in *.
  split; [apply Z.mod_small; lia|]. split; [lia|]. by rewrite Z.mod_add.
Qed.

Lemma cleanup_loop_run reg n : ∀ i T s p r, vm_ok T None s → procs s !! p = Some r → is_anonymous reg = true →
  start_addr reg mod 4096 = 0 → 0 ≤ start_addr reg → 0 ≤ i → start_addr reg + (i + Z.of_nat n) * 4096 ≤ PHYS_BASE →
  runs (cleanup_loop init_page_dir n i p (pagedir r) reg) s (λ _ s',
    serves init_page_dir init_ram_pages T s T s' (without (sees s) p (start_addr reg + i * 4096) (Z.of_nat n)) ∧ respt s s' p r).
Proof.
  induction n as [|n IH]; intros i T s p r Hs Hr Han Ha H0 Hi Hn.
  { apply runs_ret. split; [|by apply respt_refl]. eapply serves_same; [by apply serves_refl|].
    intros q v. symmetry. apply without_none. }
  cbn [cleanup_loop]. destruct (nth_page _ i _ Ha H0 Hn) as (-> & Hv & Hva); [lia|].
  eapply runs_then; [by apply (cleanup_page_run T s p r)|]. intros _ s1 [Hsv1 Ep1].
  assert (procs s1 !! p = Some (set_spt r (delete (start_addr reg + i * 4096) (spt r)))) as Hr1.
  { rewrite Ep1. unfold remove_entry. by rewrite lookup_insert_eq. }
  change (pagedir r) with (pagedir (set_spt r (delete (start_addr reg + i * 4096) (spt r)))).
  eapply runs_mono; [apply (IH (i + 1) T s1 p _ (sv_ok _ _ _ _ _ _ _ Hsv1) Hr1 Han Ha H0); lia|].
  intros _ s2 [Hsv2 Hp2]. split; [|by eapply respt_trans].
  eapply serves_same; [by eapply serves_trans|].
  eapply same_space_trans; [apply without_proper, (sv_sees _ _ _ _ _ _ _ Hsv1)|].
  rewrite Nat2Z.inj_succ, <- Z.add_1_l. apply without_more; lia.
Qed.

(** The pages made so far: zeros, not yet touched. *)
Definition zeros_at (r : process) (a n : Z) : Prop := ∀ i, 0 ≤ i < n → ∃ e, spt r !! (a + i * 4096) = Some e ∧ status e = PAGE_ZERO.


Lemma remove_pages_run n : ∀ j T s p r a, vm_ok T None s → procs s !! p = Some r → a mod 4096 = 0 → 0 ≤ a → 0 ≤ j →
  a + (j + Z.of_nat n) * 4096 ≤ PHYS_BASE → zeros_at r (a + j * 4096) (Z.of_nat n) →
  runs (remove_pages n j p a) s (λ _ s',
    serves init_page_dir init_ram_pages T s T s' (without (sees s) p (a + j * 4096) (Z.of_nat n)) ∧ respt s s' p r).
Proof.
  induction n as [|n IH]; intros j T s p r a Hs Hr Ha H0 Hj Hn Hz.
  { apply runs_ret. split; [|by apply respt_refl]. eapply serves_same; [by apply serves_refl|]. intros q v. symmetry. apply without_none. }
  cbn [remove_pages]. destruct (nth_page _ j _ Ha H0 Hn) as (-> & Hv & Hva); [lia|].
  destruct (Hz 0) as (e & He & Hst); [lia|]. rewrite Z.mul_0_l, Z.add_0_r in He.
  eapply runs_then; [by eapply spt_remove_run|]. intros _ s1 [Hsv1 Ep1].
  assert (procs s1 !! p = Some (set_spt r (delete (a + j * 4096) (spt r)))) as Hr1.
  { rewrite Ep1. unfold remove_entry. by rewrite lookup_insert_eq. }
  eapply runs_mono; [apply (IH (j + 1) T s1 p _ a (sv_ok _ _ _ _ _ _ _ Hsv1) Hr1 Ha H0); [lia|lia|]|].
  { intros i Hi. destruct (Hz (i + 1)) as (g & Hg & Hgs); [lia|]. exists g. split; [|done]. cbn.
    rewrite lookup_delete_ne by lia. rewrite <- Hg. f_equal. lia. }
  intros _ s2 [Hsv2 Hp2]. split; [|by eapply respt_trans].
  eapply serves_same; [by eapply serves_trans|].
  eapply same_space_trans; [apply without_proper, (sv_sees _ _ _ _ _ _ _ Hsv1)|].
  rewrite Nat2Z.inj_succ, <- Z.add_1_l. apply without_more; lia.
Qed.

(** ** Pages of zeros are created *)

Definition zero_entry (va : Z) : spt_entry := mk_spte va PAGE_ZERO true 0 0 None 0 0 0 true false.

Lemma zero_entry_wf fl va : user_va va → va mod 4096 = 0 → entry_wf fl va (zero_entry va).
Proof. by constructor. Qed.

(** Pages that hold [c], with the right [w]. *)
Definition with_pages (A : space) (p : nat) (a n : Z) (c : Z → option Z) (w : bool) : space := λ q v,
  if decide (q = p ∧ in_pages a n v) then b ← c v; Some (b, w) else A q v.

Lemma with_pages_proper A B p a n c w : same_space A B → same_space (with_pages A p a n c w) (with_pages B p a n c w).
Proof. intros H q v. unfold with_pages. by case_decide. Qed.

(** A page that was absent is there. *)
Lemma page_serves T s p r va e : vm_ok T None s → procs s !! p = Some r → spt r !! va = None →
  entry_wf (fs s) va e → status e = PAGE_ZERO ∨ status e = PAGE_FILE →
  serves init_page_dir init_ram_pages T s T (grown s p r va e)
    (with_pages (sees s) p va 1 (λ v, backing (fs s) e (v - va)) (writable e)).
Proof.
  intros Hs Hr Hn Hwf Hst. destruct (vm_grow _ _ T None s p r va e Hs Hr Hn Hwf Hst) as [Hs1 Hv1].
  pose proof (proj1 (ew_page _ _ _ Hwf)) as Ha.
  constructor; try done.
  - intros q t Hq. cbn. unfold put_entry. destruct (decide (q = p)) as [->|].
    + rewrite lookup_insert_eq. eexists. split; [done|]. cbn. congruence.
    + exists t. by rewrite lookup_insert_ne.
  - intros q v. unfold sees at 1. rewrite Hv1. unfold with_pages, sees, rights. cbn. unfold put_entry.
    pose proof (page_in va v Ha) as Hin. destruct (decide (q = p ∧ v / 4096 * 4096 = va)) as [[-> E]|Hd].
    + rewrite decide_True by (split; [done|by apply Hin]). cbn. rewrite lookup_insert_eq. cbn. rewrite E, lookup_insert_eq. cbn.
      assert (v mod 4096 = v - va) as -> by (rewrite Z.mod_eq by done; lia). done.
    + rewrite (decide_False (P := q = p ∧ in_pages va 1 v)) by (intros [-> E]; apply Hd; split; [done|by apply Hin]).
      destruct (decide (q = p)) as [->|].
      * rewrite lookup_insert_eq, Hr. cbn. rewrite lookup_insert_ne; [done|]. intros E. by apply Hd.
      * by rewrite lookup_insert_ne.
Qed.

Lemma grown_serves T s p r va : vm_ok T None s → procs s !! p = Some r → spt r !! va = None → user_va va → va mod 4096 = 0 →
  serves init_page_dir init_ram_pages T s T (grown s p r va (zero_entry va)) (with_zeros (sees s) p va 1).
Proof.
  intros Hs Hr Hn Hv Ha. eapply serves_same; [apply page_serves; try done; by left|].
  intros q v. unfold with_pages, with_zeros. by case_decide.
Qed.

Lemma malloc_ok_run T s : vm_ok T None s → runs malloc_ok s (λ ok s', serves init_page_dir init_ram_pages T s T s' (sees s) ∧
  procs s' = procs s ∧ fs s' = fs s ∧ (vmallocs s = [] → ok = true ∧ vmallocs s' = [])).
Proof.
  intros Hs. unfold malloc_ok, runs. destruct (vmallocs s) as [|b l] eqn:E.
  - exists true, s. split; [done|]. split; [by apply serves_refl|done].
  - destruct (vm_mallocs _ _ T None s l Hs) as [H1 H2]. exists b, (set_mallocs s l). split; [done|]. split; [|done].
    by apply serves_quiet, (later_quiet T s T), later_same.
Qed.

(** A new entry. *)
Definition new_entry (p : nat) (e : spt_entry) : st (vm F) bool := ok ← malloc_ok; if negb ok then mret false else spt_insert p e.

Lemma new_entry_run T s p r va e : vm_ok T None s → procs s !! p = Some r → spt r !! va = None →
  entry_wf (fs s) va e → status e = PAGE_ZERO ∨ status e = PAGE_FILE →
  runs (new_entry p e) s (λ ok s', fs s' = fs s ∧ (vmallocs s = [] → ok = true ∧ vmallocs s' = []) ∧ if ok : bool
    then serves init_page_dir init_ram_pages T s T s' (with_pages (sees s) p va 1 (λ v, backing (fs s) e (v - va)) (writable e)) ∧
      procs s' = put_entry (procs s) p r va e
    else serves init_page_dir init_ram_pages T s T s' (sees s) ∧ procs s' = procs s).
Proof.
  intros Hs Hr Hn Hwf Hst. unfold new_entry.
  destruct (malloc_ok_run T s Hs) as (ok & s1 & E & Hsv & Ep & Ef & Hm). eapply runs_step; [exact E|].
  destruct ok; cbn [negb]; [|by apply runs_ret].
  eapply runs_step. { unfold spt_insert. apply get_proc_run. by rewrite Ep. }
  rewrite (ew_upage _ _ _ Hwf), Hn. exists true, (grown s1 p r va e). split; [done|]. split; [done|]. split; [done|].
  split; [|cbn; by rewrite Ep]. eapply serves_same; [eapply serves_trans; [exact Hsv|apply page_serves; try done]|].
  - apply Hsv.
  - by rewrite Ep.
  - by rewrite Ef.
  - rewrite Ef. apply with_pages_proper, Hsv.
Qed.

(** The run of one iteration: a new entry, marked. *)
Definition make_zero (p : nat) (va : Z) : st (vm F) bool :=
  ok ← spt_create_zero_page p va true; if negb ok then mret false else mark_mmap p va;; mret true.

Lemma zero_page_entry p va w (s : vm F) : user_va va → va mod 4096 = 0 →
  spt_create_zero_page p va w s = new_entry p (mk_spte va PAGE_ZERO w 0 0 None 0 0 0 false false) s.
Proof. intros Hv Ha. unfold spt_create_zero_page, new_entry. by rewrite round_page. Qed.

Lemma make_zero_run T s p r va : vm_ok T None s → procs s !! p = Some r → spt r !! va = None → user_va va → va mod 4096 = 0 →
  runs (make_zero p va) s (λ ok s', if ok : bool
    then serves init_page_dir init_ram_pages T s T s' (with_zeros (sees s) p va 1) ∧
      procs s' = put_entry (procs s) p r va (zero_entry va) ∧ (vmallocs s = [] → vmallocs s' = [])
    else serves init_page_dir init_ram_pages T s T s' (sees s) ∧ procs s' = procs s ∧ vmallocs s ≠ []).
Proof.
  intros Hs Hr Hn Hv Ha. unfold make_zero, spt_create_zero_page.
  destruct (malloc_ok_run T s Hs) as (ok & s1 & E & Hsv & Ep & _ & Hm). eapply runs_step.
  { rewrite (st_bind_run _ _ _ _ _ E). instantiate (1 := if ok then grown s1 p r va (set_is_mmap (zero_entry va) false) else s1).
    instantiate (1 := ok). destruct ok; [|done]. cbn [negb]. unfold spt_insert. cbn [upage]. rewrite round_page by done.
    rewrite (st_bind_run _ _ _ _ _ (get_proc_run s1 p r ltac:(by rewrite Ep))). by rewrite Hn. }
  destruct ok; cbn [negb].
  2:{ apply runs_ret. split; [done|]. split; [done|]. intros Em. by destruct (Hm Em). }
  set (s2 := grown s1 p r va _). assert (procs s2 !! p = Some (set_spt r (<[va := set_is_mmap (zero_entry va) false]> (spt r)))) as Hr2.
  { cbn. unfold put_entry. by rewrite lookup_insert_eq. }
  eapply runs_step.
  { unfold mark_mmap. rewrite (st_bind_run _ _ _ _ _ (spt_find_run s2 p _ va Hr2 Hv Ha)). cbn. rewrite lookup_insert_eq, decide_True by done.
    rewrite (st_bind_run _ _ _ _ _ (spte_run s2 p _ va _ Hr2 (lookup_insert_eq _ _ _))). by rewrite (put_spte_run _ _ _ _ _ Hr2). }
  apply runs_ret. assert (set_procs s2 (put_entry (procs s2) p (set_spt r (<[va := set_is_mmap (zero_entry va) false]> (spt r))) va
    (set_is_mmap (set_is_mmap (zero_entry va) false) true)) = grown s1 p r va (zero_entry va)) as ->.
  { unfold s2, grown, put_entry, set_procs. cbn. by rewrite insert_insert_eq, insert_insert_eq. }
  split; [|split; [cbn; by rewrite Ep|cbn; naive_solver]].
  eapply serves_same; [eapply serves_trans; [exact Hsv|apply grown_serves; try done]|].
  - apply Hsv.
  - by rewrite Ep.
  - apply with_zeros_proper, Hsv.
Qed.

Lemma zero_pages_unfold n i p addr s : zero_pages (S n) i p addr s =
  (ok ← make_zero p (u32 (addr + i * PGSIZE)); if negb ok then mret (Some i) else zero_pages n (i + 1) p addr) s.
Proof.
  cbn [zero_pages]. unfold make_zero, mbind, st_bind. destruct (spt_create_zero_page _ _ _ s) as [[[] s1]| | |]; [|done..].
  cbn. by destruct (mark_mmap _ _ _) as [[]| | |].
Qed.

(** The pages from the [i]-th on that were made, [j] in all; the earlier ones are zeros too. *)
Definition zeros_post (T : owners) (s : vm F) (p : nat) (r : process) (a i n : Z) (failed : option Z) (s' : vm F) : Prop :=
  let j := default n failed in
  i ≤ j ≤ n ∧ (is_Some failed → vmallocs s ≠ []) ∧
  serves init_page_dir init_ram_pages T s T s' (with_zeros (sees s) p (a + i * 4096) (j - i)) ∧
  ∃ x, procs s' = <[p := set_spt r x]> (procs s) ∧ zeros_at (set_spt r x) a j.

Lemma zero_pages_run n : ∀ i T s p r a, vm_ok T None s → procs s !! p = Some r → a mod 4096 = 0 → 0 ≤ a → 0 ≤ i →
  a + (i + Z.of_nat n) * 4096 ≤ PHYS_BASE → zeros_at r a i → (∀ k, i ≤ k < i + Z.of_nat n → spt r !! (a + k * 4096) = None) →
  runs (zero_pages n i p a) s (zeros_post T s p r a i (i + Z.of_nat n)).
Proof.
  induction n as [|n IH]; intros i T s p r a Hs Hr Ha H0 Hi Hn Hz Hfree.
  { apply runs_ret. unfold zeros_post. cbn [default]. rewrite Z.add_0_r, Z.sub_diag. split; [cbn; lia|]. split; [by intros []|].
    split; [|exists (spt r); cbn; split; [destruct r; by rewrite insert_id|by destruct r]].
    eapply serves_same; [by apply serves_refl|]. intros q v. symmetry. apply with_zeros_none. }
  unfold runs. rewrite zero_pages_unfold. destruct (nth_page _ i _ Ha H0 Hn) as (-> & Hv & Hva); [lia|].
  eapply runs_then; [apply (make_zero_run T s p r); try done; apply Hfree; lia|]. intros ok s1 H1. destruct ok; cbn [negb].
  - destruct H1 as (Hsv1 & Ep1 & Hm1). set (r1 := set_spt r (<[a + i * 4096 := zero_entry (a + i * 4096)]> (spt r))) in *.
    assert (procs s1 !! p = Some r1) as Hr1 by (rewrite Ep1; unfold put_entry; by rewrite lookup_insert_eq).
    eapply runs_mono; [apply (IH (i + 1) T s1 p r1 a (sv_ok _ _ _ _ _ _ _ Hsv1) Hr1 Ha H0)|]; try lia.
    + intros k Hk. unfold r1. cbn. destruct (decide (k = i)) as [->|]; [rewrite lookup_insert_eq; by eexists|].
      rewrite lookup_insert_ne by lia. apply Hz. lia.
    + intros k Hk. unfold r1. cbn. rewrite lookup_insert_ne by lia. apply Hfree. lia.
    + intros failed s2 (Hj & Hf & Hsv2 & x & Ep2 & Hz2). unfold zeros_post.
      assert (i + 1 + Z.of_nat n = i + Z.of_nat (S n)) as En by lia. rewrite En in *. split; [lia|].
      split; [naive_solver|]. split.
      * eapply serves_same; [by eapply serves_trans|]. eapply same_space_trans; [apply with_zeros_proper, (sv_sees _ _ _ _ _ _ _ Hsv1)|].
        set (j := default _ _) in *. replace (j - i) with (1 + (j - (i + 1))) by lia. apply with_zeros_more; lia.
      * exists x. split; [|by destruct r]. rewrite Ep2, Ep1. unfold put_entry. by rewrite insert_insert_eq.
  - apply runs_ret. destruct H1 as (Hsv1 & Ep1 & Hm1). unfold zeros_post. cbn [default from_option]. cbv zeta. rewrite Z.sub_diag. split; [cbn [default from_option id] in *; lia|].
    split; [done|]. split.
    + eapply serves_same; [exact Hsv1|]. intros q v. symmetry. apply with_zeros_none.
    + exists (spt r). destruct r. cbn in *. split; [by rewrite insert_id|done].
Qed.

(** ** Free ranges *)

Definition n_pages (length : Z) : Z := page_round_up length.

(** A range of whole pages below the stack where the process has no page. *)
Definition free_range (r : process) (a n : Z) : Prop :=
  a + n * 4096 ≤ stack_start ∧ ∀ k, 0 ≤ k < n → spt r !! (a + k * 4096) = None.

Lemma stack_start_eq : stack_start = 3221225472 - 8388608.
Proof. reflexivity. Qed.

Lemma n_pages_bounds length : 0 ≤ length < 2 ^ 32 → 0 ≤ n_pages length < 2 ^ 20 ∧ page_round_up (n_pages length * 4096) = n_pages length ∧
  u32 (n_pages length * PGSIZE) = n_pages length * 4096.
Proof.
  intros H. unfold n_pages, page_round_up, u32. change PGSIZE with 4096. pose proof (Z.mod_pos_bound (length + (4096 - 1)) (2 ^ 32) ltac:(lia)).
  set (x := (length + (4096 - 1)) mod 2 ^ 32) in *. pose proof (Z.div_mod x 4096 ltac:(lia)). pose proof (Z.mod_pos_bound x 4096 ltac:(lia)).
  set (n := x / 4096) in *. change (2 ^ 32) with 4294967296 in *. change (2 ^ 20) with 1048576.
  assert (0 ≤ n < 1048576) by lia. split; [done|]. split; [|apply Z.mod_small; lia].
  rewrite Z.mod_small by lia. replace (n * 4096 + (4096 - 1)) with (4095 + n * 4096) by lia. rewrite Z.div_add by lia. done.
Qed.

Lemma get_pcb_run (s : vm F) p : threads s !! cur s = Some (Some p) → get_pcb s = Ret (p, s).
Proof. intros Hc. unfold get_pcb. rewrite (st_bind_run current _ s (cur s) s eq_refl). by rewrite (st_bind_run _ _ _ _ _ (pcb_run _ _ _ Hc)). Qed.

Lemma pages_free_run (s : vm F) p r a n : ∀ i, procs s !! p = Some r → a mod 4096 = 0 → 0 ≤ a → 0 ≤ i →
  a + (i + Z.of_nat n) * 4096 ≤ PHYS_BASE →
  ∃ b : bool, pages_free n i p a s = Ret (b, s) ∧ (b = true ↔ ∀ k, i ≤ k < i + Z.of_nat n → spt r !! (a + k * 4096) = None).
Proof.
  induction n as [|n IH]; intros i Hr Ha H0 Hi Hn; [exists true; split; [done|]; split; [lia|done]|].
  cbn [pages_free]. destruct (nth_page _ i _ Ha H0 Hn) as (-> & Hv & Hva); [lia|].
  rewrite (st_bind_run _ _ _ _ _ (spt_find_run _ _ _ _ Hr Hv Hva)). case_decide as Hd.
  - exists false. split; [done|]. split; [done|]. intros H. rewrite H in Hd by lia. by destruct Hd.
  - destruct (IH (i + 1) Hr Ha H0 ltac:(lia) ltac:(lia)) as (b & E & Hb). exists b. split; [done|]. rewrite Hb. split.
    + intros H k Hk. destruct (decide (k = i)) as [->|]; [|apply H; lia]. by apply eq_None_not_Some.
    + intros H k Hk. apply H. lia.
Qed.

Lemma mmap_range_available_run (s : vm F) p r a n : threads s !! cur s = Some (Some p) → procs s !! p = Some r →
  a mod 4096 = 0 → 0 ≤ a < 2 ^ 32 → 0 ≤ n < 2 ^ 20 → page_round_up (n * 4096) = n →
  ∃ b : bool, mmap_range_available a (n * 4096) s = Ret (b, s) ∧ (b = true ↔ free_range r a n).
Proof.
  intros Hc Hr Ha Hw Hn En. unfold mmap_range_available, is_user_vaddr. rewrite En. pose proof stack_start_eq as Hst.
  unfold free_range. change PHYS_BASE with 3221225472 in *.
  destruct (Z.ltb_spec a 3221225472) as [Hu|Hu]; cbn [negb]; [|exists false; split; [done|]; split; [done|lia]].
  unfold u32. assert ((a + n * 4096) mod 2 ^ 32 = a + n * 4096 ∨ (a + n * 4096) mod 2 ^ 32 < a ∧ 2 ^ 32 ≤ a + n * 4096) as Hmod.
  { destruct (decide (a + n * 4096 < 2 ^ 32)); [left; apply Z.mod_small; lia|right]. rewrite <- (Z.mod_add _ (-1)), Z.mod_small; lia. }
  destruct (Z.ltb_spec ((a + n * 4096) mod 2 ^ 32) a) as [Hlt|Hge]; [exists false; split; [done|]; split; [done|lia]|].
  destruct Hmod as [Em|]; [|lia]. rewrite Em.
  destruct (Z.leb_spec 3221225472 (a + n * 4096)) as [Hle|Hgt]; [exists false; split; [done|]; split; [done|lia]|].
  rewrite (st_bind_run _ _ _ _ _ (get_pcb_run _ _ Hc)).
  destruct (pages_free_run s p r a (Z.to_nat n) 0 Hr Ha ltac:(lia) ltac:(lia)) as (b & E & Hb).
  { change PHYS_BASE with 3221225472. lia. }
  rewrite (st_bind_run _ _ _ _ _ E). assert (b = true ↔ ∀ k, 0 ≤ k < n → spt r !! (a + k * 4096) = None) as Hb'.
  { rewrite Hb. split; intros H k Hk; apply H; lia. }
  destruct b; cbn [negb andb].
  - destruct (Z.ltb_spec stack_start (a + n * 4096)).
    + exists false. split; [done|]. split; [done|]. intros [? _]. lia.
    + exists true. split; [done|]. split; [|done]. intros _. split; [lia|by apply Hb'].
  - exists false. split; [done|]. split; [done|]. intros [_ H]. by apply Hb'.
Qed.

(** The first free range at or above an address; 0 when there is none. *)
Definition first_fit (r : process) (from n a : Z) : Prop :=
  if a =? 0 then ∀ b, b mod 4096 = 0 → from ≤ b → ¬ free_range r b n
  else a mod 4096 = 0 ∧ from ≤ a ∧ free_range r a n ∧ ∀ b, b mod 4096 = 0 → from ≤ b < a → ¬ free_range r b n.

Lemma first_fit_next r a n b : a mod 4096 = 0 → ¬ free_range r a n → first_fit r (a + 4096) n b → first_fit r a n b.
Proof.
  intros Ha Hno H. assert (∀ c, c mod 4096 = 0 → a ≤ c → c = a ∨ a + 4096 ≤ c) as Hc.
  { intros c Hc Hle. pose proof (Z.div_mod a 4096 ltac:(lia)). pose proof (Z.div_mod c 4096 ltac:(lia)). lia. }
  unfold first_fit in *. destruct (b =? 0).
  - intros c Hca Hle. destruct (Hc c Hca Hle) as [->|]; [done|]. by apply H.
  - destruct H as (H1 & H2 & H3 & H4). split; [done|]. split; [lia|]. split; [done|]. intros c Hca [Hle Hlt].
    destruct (Hc c Hca Hle) as [->|]; [done|]. by apply H4.
Qed.

Lemma address_loop_run (s : vm F) p r n : threads s !! cur s = Some (Some p) → procs s !! p = Some r →
  0 ≤ n < 2 ^ 20 → page_round_up (n * 4096) = n → ∀ fuel a, a mod 4096 = 0 → MMAP_BASE ≤ a →
  let x := u32 (a + n * 4096) in
  stack_start < x + 4096 * Z.of_nat fuel → a + (stack_start - x) + 4096 < 2 ^ 32 →
  ∃ b, address_loop (S fuel) a (n * 4096) s = Ret (b, s) ∧ first_fit r a n b.
Proof.
  intros Hc Hr Hn En. induction fuel as [|fuel IH]; intros a Ha Hb x Hf Hw; cbn [address_loop]; fold x.
  all: assert (0 ≤ x ∧ x ≤ a + n * 4096) as Hx by (unfold x, u32; change MMAP_BASE with 1073741824 in *;
    split; [apply Z.mod_pos_bound; lia|apply Z.mod_le; lia]).
  all: change MMAP_BASE with 1073741824 in *; change (2 ^ 32) with 4294967296 in *; pose proof stack_start_eq.
  all: destruct (Z.leb_spec x stack_start) as [Hle|Hgt].
  1: lia.
  1,3: exists 0; split; [done|]; intros b Hba Hab [Hbn _]; lia.
  destruct (mmap_range_available_run s p r a n Hc Hr Ha) as (ok & E & Hok); [change (2 ^ 32) with 4294967296; lia|done..|].
  rewrite (st_bind_run _ _ _ _ _ E). destruct ok.
  - exists a. split; [done|]. unfold first_fit. rewrite (proj2 (Z.eqb_neq a 0)) by lia. split; [done|]. split; [lia|].
    split; [by apply Hok|]. lia.
  - change PGSIZE with 4096. assert (u32 (a + 4096) = a + 4096) as -> by (unfold u32; apply Z.mod_small; lia).
    assert (u32 (a + 4096 + n * 4096) = x + 4096) as Ex.
    { unfold x, u32. replace (a + 4096 + n * 4096) with ((a + n * 4096) + 4096) by lia. rewrite <- Zplus_mod_idemp_l.
      fold (u32 (a + n * 4096)). fold x. apply Z.mod_small. change (2 ^ 32) with 4294967296. lia. }
    destruct (IH (a + 4096)) as (b & Eb & Hb').
    + change 4096 with (1 * 4096) at 1. by rewrite Z.mod_add.
    + lia.
    + rewrite Ex. lia.
    + rewrite Ex. lia.
    + exists b. split; [exact Eb|]. apply first_fit_next; [done| |done]. intros Hfr. by apply Hok in Hfr.
Qed.

Lemma find_free_address_run (s : vm F) p r n : threads s !! cur s = Some (Some p) → procs s !! p = Some r →
  0 ≤ n < 2 ^ 20 → page_round_up (n * 4096) = n →
  ∃ b, find_free_address (n * 4096) s = Ret (b, s) ∧ first_fit r MMAP_BASE n b.
Proof.
  intros Hc Hr Hn En. unfold find_free_address, page_align_up. rewrite En. change PGSIZE with 4096.
  assert (u32 (n * 4096) = n * 4096) as ->.
  { unfold u32. apply Z.mod_small. change (2 ^ 32) with 4294967296. change (2 ^ 20) with 1048576 in Hn. lia. }
  rewrite <- (Nat.succ_pred (Z.to_nat (2 ^ 20))) by lia. pose proof stack_start_eq as Hst.
  assert (0 ≤ u32 (MMAP_BASE + n * 4096)) by (unfold u32; apply Z.mod_pos_bound; lia).
  apply (address_loop_run s p r n Hc Hr Hn En); [done|done| |].
  - rewrite Nat2Z.inj_pred by lia. rewrite Z2Nat.id by lia. change (2 ^ 20) with 1048576. lia.
  - change MMAP_BASE with 1073741824 in *. change (2 ^ 32) with 4294967296. lia.
Qed.

(** ** The list of regions *)

Definition with_mmaps (s : vm F) (p : nat) (r : process) (l : list mmap_region) : vm F :=
  set_procs s (<[p := set_mmaps r l]> (procs s)).

Lemma mmaps_lookup (s : vm F) p r l q t : procs s !! p = Some r → <[p := set_mmaps r l]> (procs s) !! q = Some t →
  ∃ t', procs s !! q = Some t' ∧ pagedir t' = pagedir t ∧ spt t' = spt t.
Proof. intros Hr [[<- <-]|[_ Ht]]%lookup_insert_Some; [by exists r|by exists t]. Qed.

Lemma mmaps_lookup_back (s : vm F) p r l q t : procs s !! p = Some r → procs s !! q = Some t →
  ∃ t', <[p := set_mmaps r l]> (procs s) !! q = Some t' ∧ pagedir t' = pagedir t ∧ spt t' = spt t.
Proof.
  intros Hr Ht. destruct (decide (q = p)) as [->|]; [|exists t; by rewrite lookup_insert_ne].
  exists (set_mmaps r l). rewrite lookup_insert_eq. by assert (t = r) as -> by congruence.
Qed.

Lemma mmaps_serves T s p r l : vm_ok T None s → procs s !! p = Some r →
  serves init_page_dir init_ram_pages T s T (with_mmaps s p r l) (sees s).
Proof.
  intros Hs Hr. pose proof (mmaps_lookup s p r l) as Hfw. pose proof (λ q t, mmaps_lookup_back s p r l q t Hr) as Hbk. constructor; try done.
  - destruct Hs. constructor; cbn; try done.
    + destruct vk_cur0 as (q & t & H1 & H2 & H3). destruct (Hbk q t H2) as (t' & H4 & H5 & _). exists q, t'. by rewrite H5.
    + intros q t Ht. destruct (Hfw q t Hr Ht) as (t' & Ht' & <- & _). by eapply vk_proc0.
    + intros q t q' t' Ht Ht' E. destruct (Hfw q t Hr Ht) as (t1 & H1 & E1 & _). destruct (Hfw q' t' Hr Ht') as (t2 & H2 & E2 & _).
      eapply vk_apart0; [exact H1|exact H2|congruence].
    + intros f fe Hf. destruct (vk_frame0 f fe Hf) as (k & H1 & H2 & H3 & q & t & e & H4 & H5 & H6 & H7 & H8). exists k.
      split; [done|]. split; [done|]. split; [done|]. destruct (Hbk q t H5) as (t' & H9 & _ & E). exists q, t', e. by rewrite E.
    + intros q t va e Ht He. destruct (Hfw q t Hr Ht) as (t' & Ht' & <- & E). rewrite <- E in He. by apply vk_entry0.
    + intros q t va e q' t' vb g Ht He ? Ht' Hg. destruct (Hfw q t Hr Ht) as (t1 & H1 & _ & E1). destruct (Hfw q' t' Hr Ht') as (t2 & H2 & _ & E2).
      rewrite <- E1 in He. rewrite <- E2 in Hg. by eapply vk_slot0.
    + intros q t va Ht ?? Hn. destruct (Hfw q t Hr Ht) as (t' & Ht' & <- & E). rewrite <- E in Hn. by eapply vk_absent0.
  - intros q t Hq. destruct (Hbk q t Hq) as (t' & ? & ? & _). by exists t'.
  - intros q v. unfold sees, view, rights. cbn. destruct (decide (q = p)) as [->|]; [by rewrite lookup_insert_eq, Hr|by rewrite lookup_insert_ne].
Qed.

(** ** [mmap_create_anon] *)

(** Why a mapping may be refused. *)
Definition cannot_map (s : vm F) (r : process) (addr length : Z) : Prop :=
  vmallocs s ≠ [] ∨ length = 0 ∨ (addr ≠ 0 ∧ (addr mod 4096 ≠ 0 ∨ ¬ free_range r addr (n_pages length))) ∨
  (addr = 0 ∧ ∀ b, b mod 4096 = 0 → MMAP_BASE ≤ b → ¬ free_range r b (n_pages length)).

Definition anon_region (a length flags : Z) : mmap_region := mk_region a length (n_pages length) None 0 flags true 0 true.

Definition anon_post (T : owners) (s : vm F) (p : nat) (r : process) (addr length flags a : Z) (s' : vm F) : Prop :=
  if a =? MAP_FAILED then
    serves init_page_dir init_ram_pages T s T s' (sees s) ∧ respt s s' p r ∧ cannot_map s r addr length
  else
    serves init_page_dir init_ram_pages T s T s' (with_zeros (sees s) p a (n_pages length)) ∧
    (∃ x, procs s' = <[p := set_mmaps (set_spt r x) (mmap_list r ++ [anon_region a length flags])]> (procs s)) ∧
    0 < a ∧ a mod 4096 = 0 ∧ free_range r a (n_pages length) ∧ (if addr =? 0 then first_fit r MMAP_BASE (n_pages length) a else a = addr).

Lemma free_sees T s p r a n v : vm_ok T None s → procs s !! p = Some r → a mod 4096 = 0 → free_range r a n → in_pages a n v →
  sees s p v = None.
Proof.
  intros Hs Hr Ha [_ Hf] Hv. apply (sees_none init_page_dir init_ram_pages T None s p r v Hs Hr). unfold in_pages in Hv.
  pose proof (Z.div_mod a 4096 ltac:(lia)). pose proof (Z.div_mod v 4096 ltac:(lia)). pose proof (Z.mod_pos_bound v 4096 ltac:(lia)).
  replace (v / 4096 * 4096) with (a + (v / 4096 - a / 4096) * 4096) by lia. apply Hf. lia.
Qed.

(** The part of [mmap_create_anon] after the address is known. *)
Definition map_at (a length flags : Z) : st (vm F) Z :=
  ok ← malloc_ok;
  if negb ok then mret MAP_FAILED else
  p ← get_pcb;
  failed ← zero_pages (Z.to_nat (n_pages length)) 0 p a;
  match failed with
  | Some i => remove_pages (Z.to_nat i) 0 p a;; mret MAP_FAILED
  | None => push_region p (anon_region a length flags);; mret a
  end.

Lemma map_at_run T s p r addr a length flags : vm_ok T None s → threads s !! cur s = Some (Some p) → procs s !! p = Some r →
  0 ≤ length < 2 ^ 32 → 0 < a → a mod 4096 = 0 → free_range r a (n_pages length) →
  (if addr =? 0 then first_fit r MMAP_BASE (n_pages length) a else a = addr) →
  runs (map_at a length flags) s (anon_post T s p r addr length flags).
Proof.
  intros Hs Hc Hr Hlen H0 Ha Hfree Haddr. destruct (n_pages_bounds length Hlen) as (Hn & _ & _). unfold map_at.
  assert (a + n_pages length * 4096 ≤ PHYS_BASE) as Hend.
  { destruct Hfree as [H _]. rewrite stack_start_eq in H. change PHYS_BASE with 3221225472. lia. }
  eapply runs_then; [by apply malloc_ok_run|]. intros ok s1 (Hsv1 & Ep1 & _ & Hm1). destruct ok; cbn [negb].
  2:{ apply runs_ret. split; [done|]. split; [exists (spt r); destruct r; by rewrite Ep1, insert_id|]. left. intros E. by destruct (Hm1 E). }
  assert (procs s1 !! p = Some r) as Hr1 by (by rewrite Ep1).
  eapply runs_step; [apply get_pcb_run; by rewrite (sv_cur _ _ _ _ _ _ _ Hsv1), (sv_threads _ _ _ _ _ _ _ Hsv1)|].
  pose proof (sv_ok _ _ _ _ _ _ _ Hsv1) as Hs1.
  eapply runs_then; [apply (zero_pages_run _ 0 T s1 p r a Hs1 Hr1 Ha); [lia|lia|lia|intros k ?; lia|]|].
  { intros k Hk. apply Hfree. lia. }
  rewrite Z.add_0_l, Z2Nat.id by lia. intros failed s2 (Hj & Hf & Hsv2 & x & Ep2 & Hz). rewrite Z.mul_0_l, Z.add_0_r, Z.sub_0_r in Hsv2.
  pose proof (serves_trans _ _ _ _ _ _ _ _ _ _ Hsv1 Hsv2) as Hsv12.
  assert (procs s2 !! p = Some (set_spt r x)) as Hr2 by (by rewrite Ep2, lookup_insert_eq).
  pose proof (sv_ok _ _ _ _ _ _ _ Hsv2) as Hs2. destruct failed as [j|]; cbn [default from_option id] in *.
  - eapply runs_then; [apply (remove_pages_run _ 0 T s2 p _ a Hs2 Hr2 Ha)|]; try lia.
    { rewrite Z2Nat.id, Z.mul_0_l, Z.add_0_r by lia. done. }
    rewrite Z2Nat.id, Z.mul_0_l, Z.add_0_r by lia. intros _ s3 [Hsv3 Hp3]. apply runs_ret. split; [|split].
    + eapply serves_same; [eapply serves_trans; [exact Hsv12|exact Hsv3]|].
      eapply same_space_trans; [apply without_proper, (sv_sees _ _ _ _ _ _ _ Hsv2)|].
      eapply same_space_trans; [apply without_with|apply Hsv1]. intros v Hv. rewrite (sv_sees _ _ _ _ _ _ _ Hsv1).
      eapply free_sees; [done|done|done|exact Hfree|]. unfold in_pages in *. lia.
    + destruct Hp3 as [y Ep3]. exists y. by rewrite Ep3, Ep2, Ep1, insert_insert_eq.
    + left. intros E. destruct (Hf ltac:(by exists j)). by destruct (Hm1 E).
  - eapply runs_step; [unfold push_region; rewrite (st_bind_run _ _ _ _ _ (get_proc_run _ _ _ Hr2)); reflexivity|]. apply runs_ret.
    unfold anon_post. rewrite (proj2 (Z.eqb_neq a MAP_FAILED)).
    2:{ change MAP_FAILED with 4294967295. change PHYS_BASE with 3221225472 in Hend. lia. }
    split; [|split; [|done]].
    + eapply serves_same; [eapply serves_trans; [exact Hsv12|apply (mmaps_serves T s2 p _ _ Hs2 Hr2)]|].
      eapply same_space_trans; [apply Hsv2|]. apply with_zeros_proper, Hsv1.
    + exists x. cbn. by rewrite Ep2, Ep1, insert_insert_eq.
Qed.

Lemma mmap_create_anon_run T s p r addr length flags : vm_ok T None s → threads s !! cur s = Some (Some p) → procs s !! p = Some r →
  0 ≤ addr < 2 ^ 32 → 0 ≤ length < 2 ^ 32 →
  runs (mmap_create_anon addr length flags) s (anon_post T s p r addr length flags).
Proof.
  intros Hs Hc Hr Haddr Hlen. destruct (n_pages_bounds length Hlen) as (Hn & En & Eu).
  assert (cannot_map s r addr length → anon_post T s p r addr length flags MAP_FAILED s) as Hno.
  { intros H. split; [by apply serves_refl|]. split; [by apply respt_refl|done]. }
  unfold mmap_create_anon. fold (n_pages length). destruct (Z.eqb_spec length 0) as [->|Hl0]; [apply runs_ret, Hno; right; by left|].
  rewrite pg_ofs_mod, Eu. destruct (Z.eqb_spec addr 0) as [->|Ha0]; cbn [negb andb].
  - destruct (find_free_address_run s p r (n_pages length) Hc Hr Hn En) as (b & E & Hb).
    eapply runs_step; [exact E|]. destruct (Z.eqb_spec b 0) as [->|Hb0]; [apply runs_ret, Hno; right; right; by right|].
    pose proof Hb as Hb'. unfold first_fit in Hb'. rewrite (proj2 (Z.eqb_neq b 0)) in Hb' by done. destruct Hb' as (H1 & H2 & H3 & _).
    apply (map_at_run T s p r 0 b length flags); try done. change MMAP_BASE with 1073741824 in H2. lia.
  - destruct (Z.eqb_spec (addr mod 4096) 0) as [Ha|Ha]; cbn [negb]; [|apply runs_ret, Hno; right; right; left; split; [done|by left]].
    destruct (mmap_range_available_run s p r addr (n_pages length) Hc Hr Ha Haddr Hn En) as (b & E & Hb).
    eapply runs_step; [rewrite (st_bind_run _ _ _ _ _ E); reflexivity|]. destruct b; cbv iota.
    + rewrite (proj2 (Z.eqb_neq addr 0)) by done. apply (map_at_run T s p r addr addr length flags); try done; [lia|by apply Hb|].
      by rewrite (proj2 (Z.eqb_neq addr 0)).
    + apply runs_ret, Hno. right; right; left. split; [done|]. right. intros Hfr. by apply Hb in Hfr.
Qed.

(** ** [mmap_destroy] *)

(** A region of zeros, in the range of user addresses. *)
Definition anon_ok (g : mmap_region) : Prop := is_anonymous g = true ∧ rg_file g = None ∧ start_addr g mod 4096 = 0 ∧
  0 ≤ start_addr g ∧ 0 ≤ page_count g ∧ start_addr g + page_count g * 4096 ≤ PHYS_BASE.

Definition destroy_post (T : owners) (s : vm F) (p : nat) (r : process) (addr length z : Z) (s' : vm F) : Prop :=
  match region_loop (mmap_list r) 0 addr with
  | Some (i, g) =>
      if (start_addr g =? addr) && (rg_length g =? length) then
        z = 0 ∧ serves init_page_dir init_ram_pages T s T s' (without (sees s) p addr (page_count g)) ∧
        ∃ x, procs s' = <[p := set_mmaps (set_spt r x) (delete i (mmap_list r))]> (procs s)
      else z = -1 ∧ s' = s
  | None => z = -1 ∧ s' = s
  end.

Lemma region_loop_lookup l a : ∀ i j g, region_loop l i a = Some (j, g) → ∃ k, j = (i + k)%nat ∧ l !! k = Some g.
Proof.
  induction l as [|h l IH]; intros i j g H; [done|]. cbn in H. destruct (_ && _).
  - injection H as <- <-. exists 0%nat. split; [lia|done].
  - destruct (IH (S i) j g H) as (k & -> & Hk). exists (S k). split; [lia|done].
Qed.

Lemma close_region_run T s p r g : vm_ok T None s → threads s !! cur s = Some (Some p) → procs s !! p = Some r → anon_ok g →
  runs (close_region init_page_dir g) s (λ _ s',
    serves init_page_dir init_ram_pages T s T s' (without (sees s) p (start_addr g) (page_count g)) ∧ respt s s' p r).
Proof.
  intros Hs Hc Hr (Han & Hfile & Ha & H0 & Hn & Hend). unfold close_region, mmap_cleanup_pages.
  eapply runs_then; [eapply runs_step; [by apply get_pcb_run|]; eapply runs_step; [by apply get_proc_run|];
    apply (cleanup_loop_run g _ 0 T s p r Hs Hr Han Ha H0); lia|].
  rewrite Z.mul_0_l, Z.add_0_r, Z2Nat.id by lia. intros _ s1 H1. rewrite Hfile. by apply runs_ret.
Qed.

Lemma mmap_destroy_run T s p r addr length : vm_ok T None s → threads s !! cur s = Some (Some p) → procs s !! p = Some r →
  Forall anon_ok (mmap_list r) → runs (mmap_destroy init_page_dir addr length) s (destroy_post T s p r addr length).
Proof.
  intros Hs Hc Hr Hall. unfold mmap_destroy.
  eapply runs_step; [unfold mmap_find_region_locked; rewrite (st_bind_run _ _ _ _ _ (get_pcb_run _ _ Hc));
    rewrite (st_bind_run _ _ _ _ _ (get_proc_run _ _ _ Hr)); reflexivity|]. unfold destroy_post.
  destruct (region_loop (mmap_list r) 0 addr) as [[i g]|] eqn:El; [|by apply runs_ret].
  destruct (region_loop_lookup _ _ _ _ _ El) as (k & -> & Hk). pose proof (Forall_lookup_1 _ _ _ _ Hall Hk) as Hg.
  rewrite <- negb_andb. destruct (Z.eqb_spec (start_addr g) addr) as [<-|]; cbn [negb andb]; [|by apply runs_ret].
  destruct (Z.eqb_spec (rg_length g) length) as [<-|]; cbn [negb]; [|by apply runs_ret].
  eapply runs_then; [by apply (close_region_run T s p r)|]. intros _ s1 [Hsv1 [x Ep1]].
  assert (procs s1 !! p = Some (set_spt r x)) as Hr1 by (by rewrite Ep1, lookup_insert_eq).
  eapply runs_step; [apply get_pcb_run; by rewrite (sv_cur _ _ _ _ _ _ _ Hsv1), (sv_threads _ _ _ _ _ _ _ Hsv1)|].
  eapply runs_step; [unfold drop_region; rewrite (st_bind_run _ _ _ _ _ (get_proc_run _ _ _ Hr1)); reflexivity|].
  apply runs_ret. split; [done|]. split.
  - eapply serves_same; [eapply serves_trans; [exact Hsv1|apply (mmaps_serves T s1 p _ _ (sv_ok _ _ _ _ _ _ _ Hsv1) Hr1)]|]. apply Hsv1.
  - exists x. cbn. by rewrite Ep1, insert_insert_eq.
Qed.

Lemma region_loop_last l g a i : Forall (λ h, ¬ (start_addr h ≤ a < region_end h)) l → start_addr g ≤ a < region_end g →
  region_loop (l ++ [g]) i a = Some ((i + length l)%nat, g).
Proof.
  revert i. induction l as [|h l IH]; intros i Hl Hg; cbn [app region_loop length].
  - rewrite (proj2 (Z.leb_le _ _)), (proj2 (Z.ltb_lt _ _)) by lia. cbn. by rewrite Nat.add_0_r.
  - apply Forall_cons in Hl as [Hh Hl]. destruct (_ && _) eqn:E.
    + exfalso. apply andb_true_iff in E as [E1%Z.leb_le E2%Z.ltb_lt]. tauto.
    + rewrite IH by done. f_equal. f_equal. lia.
Qed.

(** ** Theorems *)

(** C19. Anonymous mappings give pages of zeros.  [mmap_create_anon] returns for every address
    and length.  When it does not fail the process has gained the pages of the mapping, full of
    zeros, where it had none and below the stack; they are at the given address, or, for a null
    address, at the first place above [MMAP_BASE] where they fit.  When it fails no byte of any
    process has changed, and the reason is one of [cannot_map]: the arguments, no room, or no
    memory for the entries, in which case those made already are removed. *)
Theorem mmap_create_anon_maps (T : owners) (s : vm F) (p : nat) (r : process) (addr length flags : Z)
    (Hs : vm_ok T None s) (Hc : threads s !! cur s = Some (Some p)) (Hr : procs s !! p = Some r)
    (Haddr : 0 ≤ addr < 2 ^ 32) (Hlen : 0 ≤ length < 2 ^ 32) :
  ∃ a s', mmap_create_anon addr length flags s = Ret (a, s') ∧ (∃ T', vm_ok T' None s') ∧
    if a =? MAP_FAILED then (∀ q v, sees s' q v = sees s q v) ∧ cannot_map s r addr length
    else (∀ q v, sees s' q v = if decide (q = p ∧ in_pages a (n_pages length) v) then Some (0, true) else sees s q v) ∧
      (∀ v, in_pages a (n_pages length) v → sees s p v = None) ∧ a + n_pages length * 4096 ≤ stack_start ∧
      if addr =? 0 then first_fit r MMAP_BASE (n_pages length) a else a = addr.
Proof.
  destruct (mmap_create_anon_run T s p r addr length flags Hs Hc Hr Haddr Hlen) as (a & s' & E & H). exists a, s'. split; [exact E|].
  unfold anon_post in H. destruct (a =? MAP_FAILED).
  - destruct H as (H1 & _ & H3). split; [eexists; apply H1|]. split; [apply H1|done].
  - destruct H as (H1 & _ & H3 & H4 & H5 & H6). split; [eexists; apply H1|]. split; [apply H1|].
    split; [intros v; by eapply free_sees|]. split; [apply H5|done].
Qed.

(** C29. Unmapping undoes mapping.  When [mmap_create_anon] has made a mapping of at least one
    page, [mmap_destroy] of its address and length succeeds and leaves every process with the
    memory, and the process with the list of mappings, from before.  (The mappings that were
    there are of zeros too, and their pages are the process's.) *)
Theorem munmap_undoes_mmap (T : owners) (s s1 : vm F) (p : nat) (r : process) (addr length flags a : Z)
    (Hs : vm_ok T None s) (Hc : threads s !! cur s = Some (Some p)) (Hr : procs s !! p = Some r)
    (Haddr : 0 ≤ addr < 2 ^ 32) (Hlen : 0 < length ≤ 2 ^ 32 - 4096)
    (Hall : Forall (λ g, anon_ok g ∧ ∀ v, start_addr g ≤ v < region_end g → sees s p v ≠ None) (mmap_list r))
    (Hmap : mmap_create_anon addr length flags s = Ret (a, s1)) (Ha : a ≠ MAP_FAILED) :
  ∃ s2 r2, mmap_destroy init_page_dir a length s1 = Ret (0, s2) ∧ (∀ q v, sees s2 q v = sees s q v) ∧
    (∃ T2, vm_ok T2 None s2) ∧ procs s2 !! p = Some r2 ∧ mmap_list r2 = mmap_list r.
Proof.
  destruct (mmap_create_anon_run T s p r addr length flags Hs Hc Hr Haddr ltac:(lia)) as (a' & s1' & E & H).
  rewrite Hmap in E. injection E as <- <-. unfold anon_post in H. rewrite (proj2 (Z.eqb_neq _ _) Ha) in H.
  destruct H as (Hsv1 & (x & Ep1) & Ha0 & Hal & Hfree & _). destruct (n_pages_bounds length ltac:(lia)) as (Hn & _ & Eu).
  assert (1 ≤ n_pages length) as Hn1.
  { unfold n_pages, page_round_up, u32. change PGSIZE with 4096. rewrite Z.mod_small by lia.
    transitivity (4096 / 4096); [done|]. apply Z.div_le_mono; lia. }
  assert (a + n_pages length * 4096 ≤ 3221225472 - 8388608) as Hend by (rewrite <- stack_start_eq; apply Hfree).
  assert (procs s1 !! p = Some (set_mmaps (set_spt r x) (mmap_list r ++ [anon_region a length flags]))) as Hr1.
  { by rewrite Ep1, lookup_insert_eq. }
  assert (anon_ok (anon_region a length flags)) as Hg by (repeat split; cbn; change PHYS_BASE with 3221225472; lia || done).
  destruct (mmap_destroy_run T s1 p (set_mmaps (set_spt r x) (mmap_list r ++ [anon_region a length flags])) a length (sv_ok _ _ _ _ _ _ _ Hsv1)) as (z & s2 & E2 & H2); [|exact Hr1| |].
  { by rewrite (sv_cur _ _ _ _ _ _ _ Hsv1), (sv_threads _ _ _ _ _ _ _ Hsv1). }
  { cbn. apply Forall_app. split; [|by apply Forall_singleton]. eapply Forall_impl; [exact Hall|]. by intros g []. }
  unfold destroy_post in H2. cbn [mmap_list set_mmaps] in H2. rewrite region_loop_last in H2.
  - cbn [start_addr rg_length anon_region page_count] in H2. rewrite !Z.eqb_refl in H2. cbn in H2. destruct H2 as (-> & Hsv2 & y & Ep2).
    exists s2. eexists. split; [exact E2|]. split; [|split; [eexists; apply Hsv2|split; [by rewrite Ep2, lookup_insert_eq|]]].
    + intros q v. rewrite (sv_sees _ _ _ _ _ _ _ Hsv2). rewrite (without_proper _ _ _ _ _ (sv_sees _ _ _ _ _ _ _ Hsv1)).
      apply without_with. intros w. by eapply free_sees.
    + cbn. by rewrite delete_middle, app_nil_r.
  - eapply Forall_impl; [exact Hall|]. intros g [_ Hv] Hin. apply (Hv a Hin). eapply free_sees; [done|done|exact Hal|exact Hfree|].
    unfold in_pages. lia.
  - unfold region_end. cbn [start_addr page_count anon_region]. change PGSIZE with 4096. unfold u32. rewrite Z.mod_small; lia.
Qed.
End mmap.
End MmapProofs.
