(* ===== verification/LoaderProofs.v ===== *)
(** * Loading of programs: what a new process sees

    The arguments are the words of the command line; a loadable segment of a file that was
    checked is seen as the bytes of the file and zeros after them; the new stack is laid out as
    the calling convention asks. *)

From stdpp Require Import base tactics numbers list option gmap.
From S2P Require Import Prelude State Strings Bitmap Block Inode InodeProofs File FileProofs Palloc Malloc Pagedir PagedirProofs Swap FileOps Filedesc VmState Frame Page Vm Mmap Loader VmInv VmSteps VmEvict VmFault VmUser MmapProofs.

Open Scope Z_scope.

(** A file has every byte up to its length. *)
Class LengthLaws (F : Type) `{!FileOps F} `{!FileLaws F} := {
  length_spec f p : files_ok f → is_file f p → ∃ len, file_length p f = Ret (len, f) ∧ 0 ≤ len < 2 ^ 31 ∧
    ∀ i, 0 ≤ i < len → is_Some (file_byte f p i) }.

Section kernel.
Context {St : Type} `{!Inode.Store St} `{!InodeProofs.SectorModel St} `{!InodeProofs.SectorLaws St}.

Lemma kernel_length (k : kst St) p : kernel_file k p → ∃ len, file_length p k = Ret (len, k) ∧ 0 ≤ len < 2 ^ 31 ∧
  ∀ i, 0 ≤ i < len → is_Some (kernel_byte k p i).
Proof.
  intros (f & i & Hf & Hi). exists (Inode.length_ (Inode.data i)). split; [|split].
  - cbn. unfold File.file_length. erewrite K_run by (by apply FileProofs.get_file_run). unfold askK, Inode.Inode.inode_length, Inode.Inode.get_inode.
    by rewrite (FileProofs.if_heap _ _ _ Hi).
  - apply (InodeProofs.InodeProofs.f_len _ _ (FileProofs.if_file _ _ _ Hi)).
  - intros x Hx. by apply (kernel_byte_some k p f i).
Qed.

#[global] Instance kernel_length_laws : LengthLaws (kst St) := {| length_spec k p _ := kernel_length k p |}.
End kernel.

Module LoaderProofs.
Import Palloc Pagedir PagedirProofs Swap VmState Frame Page Mmap Loader VmInv VmSteps VmEvict VmFault VmUser MmapProofs.

(** ** The command line *)

Lemma parse_loop_collect fuel m sp acc r m' : Strings.collect_tokens fuel MAX_ARGS Loader.space m sp acc = Ret (r, m') →
  Z.of_nat (length acc) ≤ MAX_ARGS →
  parse_loop fuel m sp (Some <$> acc) = match r with
    | Some toks => if Z.of_nat (length toks) <? MAX_ARGS then Ret (m', Some <$> toks) else UB
    | None => UB
    end.
Proof.
  revert m sp acc. induction fuel as [|fuel IH]; intros m sp acc Hc Hl; [done|]. cbn [Strings.collect_tokens parse_loop] in Hc |- *.
  destruct (Strings.strtok_r Loader.space m sp) as [[[tok m1] sp1]| | |]; cbn [mbind outcome_bind] in Hc |- *; try done.
  destruct tok as [t|].
  - unfold set_arg. rewrite length_fmap. destruct (Z.leb_spec MAX_ARGS (Z.of_nat (length acc))) as [E|E].
    + injection Hc as <- <-. by rewrite (proj2 (Z.ltb_ge _ _)).
    + rewrite (proj2 (Z.ltb_lt _ _)) by done. cbn [mbind outcome_bind]. change [Some t] with (Some <$> [t]). rewrite <- fmap_app. apply IH; [done|]. rewrite length_app. cbn. lia.
  - injection Hc as <- <-. unfold set_arg. rewrite length_fmap. by case_match.
Qed.

Lemma collect_prefix fuel : ∀ m sp acc toks m', Strings.collect_tokens fuel MAX_ARGS Loader.space m sp acc = Ret (Some toks, m') → ∃ l, toks = acc ++ l.
Proof.
  induction fuel as [|fuel IH]; intros m sp acc toks m' Hc; [done|]. cbn [Strings.collect_tokens] in Hc.
  destruct (Strings.strtok_r Loader.space m sp) as [[[tok m1] sp1]| | |]; cbn [mbind outcome_bind] in Hc; try done.
  destruct tok as [t|]; [|injection Hc as <- <-; exists []; by rewrite app_nil_r].
  destruct (_ <=? _); [done|]. apply IH in Hc as [l ->]. exists (t :: l). by rewrite <- app_assoc.
Qed.

(** What [parse_cmd_line] gives for the tokens that the usual loop collects. *)
Definition parse_result (q : option (list Z)) (m : list Z) : outcome (list Z * option Z * Z * list (option Z)) :=
  match q with
  | Some [] => Ret (m, None, 1, [None])
  | Some toks => if Z.of_nat (length toks) <? MAX_ARGS then Ret (m, head toks, Z.of_nat (length toks), Some <$> toks) else UB
  | None => UB
  end.

Lemma parse_first (s : list Z) q m' : Strings.collect_tokens (S (length s)) MAX_ARGS Loader.space (s ++ [0]) 0 [] = Ret (q, m') →
  parse_cmd_line (s ++ [0]) = parse_result q m'.
Proof.
  intros Hc. unfold parse_cmd_line. cbn [Strings.collect_tokens] in Hc.
  destruct (Strings.strtok_r Loader.space (s ++ [0]) 0) as [[[tok m1] sp1]| | |]; cbn [mbind outcome_bind] in Hc |- *; try done.
  destruct tok as [t|]; [|by injection Hc as <- <-].
  change (MAX_ARGS <=? Z.of_nat (length (@nil Z))) with false in Hc. cbn beta iota in Hc.
  pose proof (parse_loop_collect _ _ _ _ _ _ Hc ltac:(done)) as HL. rewrite length_app. cbn [length]. rewrite Nat.add_1_r. cbn [Nat.pred].
  unfold set_arg. cbn [length app]. change (Z.of_nat 0 <? MAX_ARGS) with true. cbn [mbind outcome_bind].
  change ([] ++ [t]) with [t] in HL. cbn [fmap list_fmap Nat.pred] in HL |- *. cbn [Nat.pred]. rewrite HL.
  destruct q as [toks|]; [|done]. destruct (collect_prefix _ _ _ _ _ _ Hc) as [l ->]. cbn [app parse_result head].
  destruct (_ <? _); [|done]. cbn [mbind outcome_bind]. by rewrite length_fmap.
Qed.

Lemma offsets_words m' toks words : Forall2 (λ o tok, Strings.c_str (drop (Z.to_nat o) m') = tok ∧ ∃ z, drop (Z.to_nat o) m' = tok ++ 0 :: z) toks words →
  (λ o, Strings.c_str (drop (Z.to_nat o) m')) <$> toks = words.
Proof. induction 1 as [|o tok toks words [Ho _] _ IH]; [done|]. cbn. by rewrite Ho, IH. Qed.

(** C24. [parse_cmd_line] of a command line with up to 63 words gives the words, as terminated
    strings of the object, in order, and their number; without a word it gives one null argument;
    with 64 words or more it writes past the end of [argv]. *)
Theorem parse_cmd_line_words (s : list Z) (Hs : Strings.text s) :
  let words := Strings.runs [32] [] s in
  let r := parse_cmd_line (s ++ [0]) in
  (words = [] → ∃ m', r = Ret (m', None, 1, [None])) ∧
  (words ≠ [] ∧ Z.of_nat (length words) < MAX_ARGS → ∃ m' offs, r = Ret (m', head offs, Z.of_nat (length words), Some <$> offs) ∧
     (λ o, Strings.c_str (drop (Z.to_nat o) m')) <$> offs = words) ∧
  (MAX_ARGS ≤ Z.of_nat (length words) → r = UB).
Proof.
  intros words r. assert (Strings.text [32]) as Hd by (by constructor).
  pose proof (Strings.collect_tokens_run [32] Hd (S (length s)) MAX_ARGS s [] [] Hs ltac:(lia) ltac:(done)) as H.
  cbn [app length] in H. change (Z.of_nat 0) with 0 in H. change ([32] ++ [0]) with Loader.space in H. fold words in H.
  assert (∀ q m', Strings.collect_tokens (S (length s)) MAX_ARGS Loader.space (s ++ [0]) 0 [] = Ret (q, m') → r = parse_result q m') as Hr.
  { intros q m' Hq. unfold r. by apply parse_first. }
  rewrite Nat.add_0_l in H. split_and!.
  - intros Hw. rewrite Hw, decide_True in H by done. destruct H as (toks & m' & Hc & _ & _ & Hf).
    inversion Hf; subst toks. rewrite (Hr _ _ Hc). by exists m'.
  - intros [H0 H1]. rewrite decide_True in H by lia. destruct H as (toks & m' & Hc & _ & _ & Hf).
    pose proof (Forall2_length _ _ _ Hf) as Hlen. rewrite (Hr _ _ Hc). exists m', toks. split; [|by apply offsets_words].
    destruct toks as [|t toks]; [destruct H0; by destruct words|]. unfold parse_result. rewrite Hlen, (proj2 (Z.ltb_lt _ _)) by lia. done.
  - intros H1. case_decide as Hle.
    + destruct H as (toks & m' & Hc & _ & _ & Hf). pose proof (Forall2_length _ _ _ Hf) as Hlen. rewrite (Hr _ _ Hc).
      destruct toks as [|t toks]; [cbn in Hlen; unfold MAX_ARGS in *; lia|]. unfold parse_result. rewrite Hlen, (proj2 (Z.ltb_ge _ _)) by lia. done.
    + destruct H as (m' & Hc). by rewrite (Hr _ _ Hc).
Qed.

(** ** Segments *)

Section loader.
Context {F : Type} `{!FileOps F} `{!FsOps F} `{!FileLaws F}.
Context (init_page_dir init_ram_pages : Z).
Abbreviation owners := (gmap Z (Z * option Z)).
Abbreviation vm_ok := (vm_ok init_page_dir init_ram_pages).
Abbreviation serves := (serves init_page_dir init_ram_pages).

(** What [load_segment] puts at [v]: [n] bytes of the file from [ofs] on, then zeros. *)
Definition segment_byte (fl : F) (f : nat) (ofs upage n v : Z) : option Z :=
  if v - upage <? n then file_byte fl f (ofs + (v - upage)) else Some 0.

Definition segment_entry (file : nat) (ofs upage pr : Z) (w : bool) : spt_entry :=
  if 0 <? pr then mk_spte upage PAGE_FILE w 0 0 (Some file) ofs pr (4096 - pr) false false
  else mk_spte upage PAGE_ZERO w 0 0 None 0 0 0 false false.

Lemma segment_entry_new (s : vm F) p file ofs va pr w : user_va va → va mod 4096 = 0 →
  (if 0 <? pr then spt_create_file_page p va (Some file) ofs pr (4096 - pr) w else spt_create_zero_page p va w) s =
  new_entry p (segment_entry file ofs va pr w) s.
Proof.
  intros Hv Ha. unfold segment_entry. destruct (0 <? pr); [|by apply zero_page_entry].
  unfold spt_create_file_page, new_entry. by rewrite round_page.
Qed.

(** The bytes of the file that a segment needs. *)
Definition has_bytes (fl : F) (file : nat) (ofs n : Z) : Prop :=
  is_file fl file ∧ 0 ≤ ofs ∧ ofs + n < 2 ^ 31 ∧ ∀ i, 0 ≤ i < n → is_Some (file_byte fl file (ofs + i)).

Lemma segment_entry_wf fl file ofs va n w : user_va va → va mod 4096 = 0 → 0 ≤ n → has_bytes fl file ofs n →
  entry_wf fl va (segment_entry file ofs va (n `min` 4096) w).
Proof.
  intros Hv Ha Hn (Hf & Ho & _ & Hb). unfold segment_entry. destruct (Z.ltb_spec 0 (n `min` 4096)) as [H|H]; constructor; try done.
  intros f [= <-]. cbn. split_and!; try done; try lia. intros i Hi. apply Hb. lia.
Qed.

Lemma segment_entry_byte fl file ofs va n w v : 0 ≤ n → in_pages va 1 v →
  backing fl (segment_entry file ofs va (n `min` 4096) w) (v - va) = segment_byte fl file ofs va n v.
Proof.
  intros Hn Hv. unfold in_pages in Hv. unfold segment_entry, segment_byte, backing.
  destruct (Z.ltb_spec 0 (n `min` 4096)); cbn; destruct (Z.ltb_spec (v - va) n); try lia; [| |done].
  - by rewrite (proj2 (Z.ltb_lt _ _)) by lia.
  - by rewrite (proj2 (Z.ltb_ge _ _)) by lia.
Qed.

Lemma segment_byte_next fl file ofs va n v : 0 ≤ n → va + 4096 ≤ v →
  segment_byte fl file (ofs + n `min` 4096) (va + 4096) (n - n `min` 4096) v = segment_byte fl file ofs va n v.
Proof.
  intros Hn Hv. unfold segment_byte. destruct (Z.ltb_spec (v - (va + 4096)) (n - n `min` 4096)), (Z.ltb_spec (v - va) n); try lia; [|done].
  f_equal. lia.
Qed.

Lemma with_pages_next A p a n c1 c2 c w : 0 ≤ n → (∀ v, in_pages a 1 v → c1 v = c v) →
  (∀ v, a + 4096 ≤ v → c2 v = c v) → same_space (with_pages (with_pages A p a 1 c1 w) p (a + 4096) n c2 w) (with_pages A p a (1 + n) c w).
Proof.
  intros Hn H1 H2 q v. unfold with_pages, in_pages in *.
  destruct (decide (q = p ∧ a + 4096 ≤ v < a + 4096 + n * 4096)) as [[-> H]|H].
  - rewrite decide_True by (split; [done|lia]). rewrite H2 by lia. done.
  - destruct (decide (q = p ∧ a ≤ v < a + 1 * 4096)) as [[-> H']|H'].
    + rewrite decide_True by (split; [done|lia]). by rewrite H1.
    + rewrite decide_False; [done|]. intros [-> H'']. destruct (decide (a + 4096 ≤ v)); [apply H|apply H']; split; (done || lia).
Qed.

Definition segment_post (T : owners) (s : vm F) (p file : nat) (ofs upage n N : Z) (w : bool) (ok : bool) (s' : vm F) : Prop :=
  fs s' = fs s ∧ (vmallocs s = [] → ok = true ∧ vmallocs s' = []) ∧
  ∃ j, 0 ≤ j ≤ N ∧ (ok = true → j = N) ∧ serves T s T s' (with_pages (sees s) p upage j (segment_byte (fs s) file ofs upage n) w).

Lemma with_pages_none A p a c w : same_space (with_pages A p a 0 c w) A.
Proof. intros q v. unfold with_pages, in_pages. rewrite decide_False; [done|]. intros [_ ?]. lia. Qed.

Lemma free_entry T s p r va : vm_ok T None s → procs s !! p = Some r → va mod 4096 = 0 → sees s p va = None → spt r !! va = None.
Proof. intros Hs Hr Ha Hn. rewrite (sees_none init_page_dir init_ram_pages T None s p r va Hs Hr) in Hn.
  by rewrite (proj2 (page_in va va Ha)) in Hn by (unfold in_pages; lia). Qed.

Lemma segment_loop_run n : ∀ T s p r file ofs upage read zero w, vm_ok T None s → procs s !! p = Some r →
  upage mod 4096 = 0 → 0 ≤ upage → upage + Z.of_nat n * 4096 ≤ PHYS_BASE → has_bytes (fs s) file ofs read → 0 ≤ read → 0 ≤ zero →
  read + zero = Z.of_nat n * 4096 → (∀ v, in_pages upage (Z.of_nat n) v → sees s p v = None) →
  runs (segment_loop n p file ofs upage read zero w) s (segment_post T s p file ofs upage read (Z.of_nat n) w).
Proof.
  induction n as [|n IH]; intros T s p r file ofs va read zero w Hs Hr Ha H0 Hn Hb Hrd Hz Hsum Hfree.
  { cbn [segment_loop]. replace read with 0 by lia. replace zero with 0 by lia. apply runs_ret. split; [done|]. split; [done|].
    exists 0. split; [done|]. split; [done|]. eapply serves_same; [by apply serves_refl|]. intros q v. symmetry. apply with_pages_none. }
  cbn [segment_loop]. assert ((0 <? read) || (0 <? zero) = true) as ->.
  { destruct (Z.ltb_spec 0 read); [done|]. by apply Z.ltb_lt; lia. }
  change PGSIZE with 4096. assert ((if read <? 4096 then read else 4096) = read `min` 4096) as -> by (destruct (Z.ltb_spec read 4096); lia).
  assert (user_va va) as Hv by (split; lia).
  assert (spt r !! va = None) as Hnone. { eapply free_entry; try done. apply Hfree. unfold in_pages. lia. }
  unfold runs. rewrite st_bind_unfold, segment_entry_new, <- st_bind_unfold by done.
  eapply runs_then; [apply (new_entry_run init_page_dir init_ram_pages T s p r va); try done; [by apply segment_entry_wf|]|].
  { unfold segment_entry. destruct (_ <? _); [by right|by left]. }
  intros ok s1 (Ef & Hm & H1). destruct ok; cbn [negb].
  2:{ apply runs_ret. destruct H1 as [Hsv _]. split; [done|]. split; [intros E; by destruct (Hm E)|].
    exists 0. split; [lia|]. split; [done|]. eapply serves_same; [exact Hsv|]. intros q v. symmetry. apply with_pages_none. }
  destruct H1 as [Hsv Ep]. pose proof (sv_ok _ _ _ _ _ _ _ Hsv) as Hs1. destruct (sv_proc _ _ _ _ _ _ _ Hsv p r Hr) as (r1 & Hr1 & _).
  assert (0 ≤ read `min` 4096 ≤ 4096) as Hmin by lia. destruct Hb as (Hf & Ho & Hlt & Hb).
  change PHYS_BASE with 3221225472 in *. change (2 ^ 31) with 2147483648 in *.
  rewrite (s32_small (ofs + read `min` 4096)), !wrap_small by (change (2 ^ 32) with 4294967296; change (2 ^ 31) with 2147483648; lia).
  eapply runs_mono; [apply (IH T s1 p r1 file (ofs + read `min` 4096) (va + 4096) (read - read `min` 4096) (zero - (4096 - read `min` 4096)) w Hs1 Hr1)|]; try lia.
  - by rewrite Z.add_mod, Ha.
  - rewrite Ef. split; [done|]. split; [lia|]. split; [lia|]. intros i Hi. rewrite <- Z.add_assoc. apply Hb. lia.
  - intros v Hin. etransitivity; [apply (sv_sees _ _ _ _ _ _ _ Hsv)|]. unfold with_pages, in_pages in *. rewrite decide_False by lia. apply Hfree. lia.
  - intros ok s2 (Ef2 & Hm2 & j & Hj & Hok & Hsv2). rewrite Ef in *. split; [done|]. split; [naive_solver|].
    exists (1 + j). split; [lia|]. split; [intros E; specialize (Hok E); lia|].
    eapply serves_same; [by eapply serves_trans|]. intros q v. etransitivity; [apply with_pages_proper, (sv_sees _ _ _ _ _ _ _ Hsv)|].
    assert (writable (segment_entry file ofs va (read `min` 4096) w) = w) as -> by (unfold segment_entry; by destruct (0 <? _)).
    apply with_pages_next; [lia| |].
    + intros v' Hv'. by apply segment_entry_byte.
    + intros v' Hv'. by apply segment_byte_next.
Qed.

(** ** A program header *)

(** The first page of a segment and the number of its pages. *)
Definition segment_page (h : Elf32_Phdr) : Z := p_vaddr h / 4096 * 4096.
Definition segment_pages (h : Elf32_Phdr) : Z := (p_vaddr h mod 4096 + p_memsz h + 4095) / 4096.

(** The byte that a segment puts at [v]. *)
Definition image (fl : F) (file : nat) (h : Elf32_Phdr) (v : Z) : option Z :=
  if (0 <? p_filesz h) && (v <? p_vaddr h + p_filesz h) then file_byte fl file (p_offset h + (v - p_vaddr h)) else Some 0.

Definition phdr_words (h : Elf32_Phdr) : Prop :=
  0 ≤ p_offset h < 2 ^ 32 ∧ 0 ≤ p_vaddr h < 2 ^ 32 ∧ 0 ≤ p_filesz h < 2 ^ 32 ∧ 0 ≤ p_memsz h < 2 ^ 32.

Record segment_valid (h : Elf32_Phdr) (len : Z) : Prop := {
  sg_ofs : p_offset h mod 4096 = p_vaddr h mod 4096;
  sg_offset : p_offset h ≤ len;
  sg_size : p_filesz h ≤ p_memsz h;
  sg_some : 0 < p_memsz h;
  sg_low : 4096 ≤ p_vaddr h;
  sg_high : p_vaddr h + p_memsz h < PHYS_BASE }.

Lemma validate_segment_spec h len : phdr_words h → 0 ≤ len < 2 ^ 31 → validate_segment h len = true ↔ segment_valid h len.
Proof.
  intros (Ho & Hv & Hf & Hm) Hl. unfold validate_segment, is_user_vaddr. rewrite (wrap_small 32 len) by lia.
  change PGSIZE with 4096. change (Z.land ?x PGMASK) with (pg_ofs x). rewrite !pg_ofs_mod. change PHYS_BASE with 3221225472.
  change (2 ^ 32) with 4294967296 in *. 
  rewrite (wrap_small 32 (4294967296 - 1 - p_vaddr h)) by (change (2 ^ 32) with 4294967296; lia).
  repeat first [ rewrite (wrap_small 32 (p_vaddr h + p_memsz h)) by (change (2 ^ 32) with 4294967296; lia)
               | match goal with |- context [Z.eqb ?a ?b] => destruct (Z.eqb_spec a b) | |- context [Z.ltb ?a ?b] => destruct (Z.ltb_spec a b) end;
                 cbn [negb]; try (by split; [done|intros []; change PHYS_BASE with 3221225472 in *; lia]) ].
  split; [intros _|done]. constructor; change PHYS_BASE with 3221225472; lia.
Qed.

Lemma page_mask x : 0 ≤ x < 2 ^ 32 → Z.land x (u32 (Z.lnot PGMASK)) = x / 4096 * 4096.
Proof. intros H. by rewrite <- (pg_round_down_spec x H). Qed.

Lemma with_pages_ext A p a n c c' w : (∀ v, in_pages a n v → c v = c' v) → same_space (with_pages A p a n c w) (with_pages A p a n c' w).
Proof. intros H q v. unfold with_pages. case_decide as E; [|done]. rewrite H; [done|]. apply E. Qed.

Lemma load_segment_run T s p r file ofs upage read zero w n : vm_ok T None s → threads s !! cur s = Some (Some p) → procs s !! p = Some r →
  upage mod 4096 = 0 → 0 ≤ upage → upage + n * 4096 < 2 ^ 32 → upage + n * 4096 ≤ PHYS_BASE → ofs mod 4096 = 0 → has_bytes (fs s) file ofs read → 0 ≤ read → 0 ≤ zero →
  read + zero = n * 4096 → (∀ v, in_pages upage n v → sees s p v = None) →
  runs (load_segment file ofs upage read zero w) s (segment_post T s p file ofs upage read n w).
Proof.
  intros Hs Hc Hr Ha H0 Hn Hn' Ho Hb Hrd Hz Hsum Hfree. unfold load_segment. change PGSIZE with 4096.
  rewrite wrap_small, Hsum, Z.mod_mul, pg_ofs_mod, Ha by lia. destruct Hb as (Hf & Ho0 & Hb). rewrite Z.rem_mod_nonneg, Ho by lia.
  repeat (eapply runs_step; [done|]). eapply runs_step; [by apply get_pcb_run|].
  rewrite Z.div_mul by lia. pose proof (Z2Nat.id n ltac:(lia)) as En. rewrite <- En at 2.
  apply (segment_loop_run _ T s p r); rewrite ?En; try done.
Qed.

Lemma load_phdr_run T s p r file h len : vm_ok T None s → threads s !! cur s = Some (Some p) → procs s !! p = Some r →
  phdr_words h → file_length file (fs s) = Ret (len, fs s) → 0 ≤ len < 2 ^ 31 → is_file (fs s) file →
  (∀ i, 0 ≤ i < len → is_Some (file_byte (fs s) file i)) → segment_valid h len → p_offset h + p_filesz h ≤ len →
  (∀ v, in_pages (segment_page h) (segment_pages h) v → sees s p v = None) →
  runs (load_phdr file h) s (λ ok s', fs s' = fs s ∧ (vmallocs s = [] → ok = true ∧ vmallocs s' = []) ∧
    ∃ j, 0 ≤ j ≤ segment_pages h ∧ (ok = true → j = segment_pages h) ∧
      serves T s T s' (with_pages (sees s) p (segment_page h) j (image (fs s) file h) (negb (Z.land (p_flags h) PF_W =? 0)))).
Proof.
  intros Hs Hc Hr Hw Hlen Hl Hf Hb Hv Hend Hfree. unfold load_phdr.
  eapply runs_step; [exact (fsM_run _ s _ _ Hlen)|]. assert (set_fs s (fs s) = s) as -> by (by destruct s). rewrite (proj2 (validate_segment_spec h len Hw Hl) Hv).
  destruct Hw as (Wo & Wv & Wf & Wm), Hv as [V1 V2 V3 V4 V5 V6]. rewrite !page_mask by done.
  change (Z.land (p_vaddr h) PGMASK) with (pg_ofs (p_vaddr h)). rewrite pg_ofs_mod.
  pose proof (Z.div_mod (p_vaddr h) 4096 ltac:(lia)) as Dv. pose proof (Z.mod_pos_bound (p_vaddr h) 4096 ltac:(lia)) as Mv.
  pose proof (Z.div_mod (p_offset h) 4096 ltac:(lia)) as Do.
  set (po := p_vaddr h mod 4096) in *. set (n := segment_pages h) in *.
  change PHYS_BASE with 3221225472 in *. change (2 ^ 32) with 4294967296 in *. change (2 ^ 31) with 2147483648 in *.
  pose proof (Z.div_mod (po + p_memsz h + 4095) 4096 ltac:(lia)) as Dn. pose proof (Z.mod_pos_bound (po + p_memsz h + 4095) 4096 ltac:(lia)) as Mn.
  fold (segment_pages h) in Dn. change ((po + p_memsz h + 4095) / 4096) with n in Dn.
  rewrite !(wrap_small 32 (po + p_memsz h)) by (change (2 ^ 32) with 4294967296; lia).
  assert (page_align_up (po + p_memsz h) = n * 4096) as ->.
  { unfold page_align_up, page_round_up. change PGSIZE with 4096. rewrite (wrap_small 32 (po + p_memsz h + (4096 - 1))) by (change (2 ^ 32) with 4294967296; lia).
    change ((po + p_memsz h + (4096 - 1)) / 4096) with n. rewrite wrap_small; [done|]. change (2 ^ 32) with 4294967296. lia. }
  set (read := if 0 <? p_filesz h then po + p_filesz h else 0).
  assert ((if 0 <? p_filesz h then (u32 (po + p_filesz h), u32 (n * 4096 - u32 (po + p_filesz h))) else (0, n * 4096)) = (read, n * 4096 - read)) as ->.
  { unfold read. destruct (0 <? p_filesz h); [|by rewrite Z.sub_0_r].
    rewrite !(wrap_small 32 (po + p_filesz h)), wrap_small by (change (2 ^ 32) with 4294967296; lia). done. }
  rewrite s32_small by (change (2 ^ 31) with 2147483648; lia). fold (segment_page h).
  assert (0 ≤ read ≤ po + p_filesz h) as Hread by (unfold read; destruct (0 <? p_filesz h); lia).
  eapply runs_mono; [apply (load_segment_run T s p r _ _ (segment_page h) _ _ _ n Hs Hc Hr)|]; unfold segment_page in *; try (change PHYS_BASE with 3221225472; change (2 ^ 32) with 4294967296); try lia; try done.
  - by apply Z.mod_mul.
  - by apply Z.mod_mul.
  - split; [done|]. change (2 ^ 31) with 2147483648. split; [lia|]. split; [lia|]. intros i Hi. apply Hb. lia.
  - intros ok s' (Ef & Hm & j & Hj & Hok & Hsv). split; [done|]. split; [done|]. exists j. split; [done|]. split; [done|].
    eapply serves_same; [exact Hsv|]. apply with_pages_ext. intros v Hin. unfold in_pages in Hin.
    unfold segment_byte, image, read. destruct (Z.ltb_spec 0 (p_filesz h)); cbn [andb]; [|destruct (Z.ltb_spec (v - p_vaddr h / 4096 * 4096) 0); [lia|done]].
    destruct (Z.ltb_spec (v - p_vaddr h / 4096 * 4096) (po + p_filesz h)), (Z.ltb_spec v (p_vaddr h + p_filesz h)); try lia; [|done].
    f_equal. lia.
Qed.

(** C17. A program header is loaded as the ELF format says.  For a header of an open file that
    [validate_segment] accepts, whose bytes are in the file and whose pages the process does
    not have, [load_phdr] returns; if no allocation fails it succeeds, and the process sees
    at every address of the pages the byte of the file at the same distance from [p_offset] as
    the address from [p_vaddr], up to [p_filesz], and zeros after that, with the right to write
    exactly if the header asks for it; if an allocation fails it has a first part of the pages
    and the result is false.  Nothing else any process sees changes.  A header that is refused
    changes nothing. *)
Theorem load_phdr_maps `{!LengthLaws F} (T : owners) (s : vm F) (p : nat) (r : process) (file : nat) (h : Elf32_Phdr)
    (Hs : vm_ok T None s) (Hc : threads s !! cur s = Some (Some p)) (Hr : procs s !! p = Some r) (Hf : is_file (fs s) file) (Hw : phdr_words h) :
  ∃ len, file_length file (fs s) = Ret (len, fs s) ∧
    (validate_segment h len = false → load_phdr file h s = Ret (false, s)) ∧
    (validate_segment h len = true → p_offset h + p_filesz h ≤ len →
     (∀ v, in_pages (segment_page h) (segment_pages h) v → sees s p v = None) →
     ∃ ok s' j, load_phdr file h s = Ret (ok, s') ∧ (vmallocs s = [] → ok = true) ∧ vm_ok T None s' ∧
       0 ≤ j ≤ segment_pages h ∧ (ok = true → j = segment_pages h) ∧
       same_space (sees s') (with_pages (sees s) p (segment_page h) j (image (fs s) file h) (negb (Z.land (p_flags h) PF_W =? 0)))).
Proof.
  destruct (length_spec (fs s) file (vk_files _ _ _ _ _ Hs) Hf) as (len & Hlen & Hl & Hb). exists len. split; [done|]. split.
  - intros Hv. unfold load_phdr. rewrite (st_bind_run _ _ _ _ _ (fsM_run _ s _ _ Hlen)), Hv. by destruct s.
  - intros Hv Hend Hfree.
    destruct (load_phdr_run T s p r file h len Hs Hc Hr Hw Hlen Hl Hf Hb (proj1 (validate_segment_spec h len Hw Hl) Hv) Hend Hfree)
      as (ok & s' & E & _ & Hm & j & Hj & Hok & Hsv).
    exists ok, s', j. split; [done|]. split; [naive_solver|]. split; [apply Hsv|]. split; [done|]. split; [done|apply Hsv].
Qed.
End loader.
End LoaderProofs.
