(* ===== verification/StackProofs.v ===== *)
(** * The stack of a new process

    [setup_stack] gives the process one page of memory at the top of its space and writes the
    arguments there.  The bytes written are tracked as an image of that page, so that the
    layout is a fact about a function from addresses to bytes. *)

From stdpp Require Import base tactics numbers list option gmap.
From S2P Require Import Prelude State Palloc Pagedir PagedirProofs Swap FileOps Filedesc VmState Frame Page Vm Mmap Loader VmInv VmSteps VmEvict VmFault VmUser MmapProofs.

Open Scope Z_scope.

Module StackProofs.
Import Palloc Pagedir PagedirProofs Swap VmState Frame Page Vm Loader VmInv VmSteps VmEvict VmFault VmUser MmapProofs.

(** ** Bytes at an address *)

(** The bytes [l] from [a] on. *)
Definition holds_at (m : Z → Z) (a : Z) (l : list Z) : Prop := ∀ i, 0 ≤ i < Z.of_nat (length l) → m (a + i) = l !!! Z.to_nat i.

Lemma holds_write m a l : holds_at (store_bytes m a l) a l.
Proof. intros i Hi. rewrite store_bytes_in by lia. f_equal. lia. Qed.

Lemma holds_below m a l b k : holds_at m a l → b + Z.of_nat (length k) ≤ a → holds_at (store_bytes m b k) a l.
Proof. intros H Hb i Hi. rewrite store_bytes_out by lia. by apply H. Qed.

Lemma holds_app m a l k : holds_at m a l → holds_at m (a + Z.of_nat (length l)) k → holds_at m a (l ++ k).
Proof.
  intros H1 H2 i Hi. rewrite length_app in Hi. destruct (decide (i < Z.of_nat (length l))).
  - rewrite lookup_total_app_l by lia. apply H1. lia.
  - rewrite lookup_total_app_r by lia. specialize (H2 (i - Z.of_nat (length l)) ltac:(lia)).
    replace (a + Z.of_nat (length l) + (i - Z.of_nat (length l))) with (a + i) in H2 by lia. rewrite H2. f_equal. lia.
Qed.

Lemma store_cons m a b l : ∀ x, store_bytes (store_bytes m a [b]) (a + 1) l x = store_bytes m a (b :: l) x.
Proof.
  intros x. destruct (decide (a ≤ x < a + Z.of_nat (length (b :: l)))) as [Hx|Hx].
  - rewrite (store_bytes_in m a (b :: l)) by done. cbn [length] in Hx. destruct (decide (x = a)) as [->|].
    + rewrite store_bytes_out by lia. rewrite store_bytes_in by (cbn; lia). by rewrite Z.sub_diag.
    + rewrite store_bytes_in by lia. replace (Z.to_nat (x - a)) with (S (Z.to_nat (x - (a + 1)))) by lia. done.
  - rewrite (store_bytes_out m a (b :: l)) by done. cbn [length] in Hx. rewrite !store_bytes_out by (cbn [length]; lia). done.
Qed.

Lemma store_ext m m' a l : (∀ x, m x = m' x) → ∀ x, store_bytes m a l x = store_bytes m' a l x.
Proof. intros H x. unfold store_bytes. by rewrite H. Qed.

Section stack.
Context {F : Type} `{!FileOps F} `{!FsOps F} `{!FileLaws F}.
Context (init_page_dir init_ram_pages : Z).
Abbreviation owners := (gmap Z (Z * option Z)).
Abbreviation vm_ok := (vm_ok init_page_dir init_ram_pages).
Abbreviation serves := (serves init_page_dir init_ram_pages).

(** ** The page of the stack *)

Definition top : Z := PHYS_BASE - PGSIZE.

(** Since [s0], process [p] has the stack page, in memory, with the bytes [m]. *)
Record stack_at (T0 T : owners) (s0 s : vm F) (p : nat) (m : Z → Z) : Prop := mk_stack_at {
  st_serves : serves T0 s0 T s (with_pages (sees s0) p top 1 (λ v, Some (m v)) true);
  st_cur : threads s0 !! cur s0 = Some (Some p);
  st_page : ∃ r e, procs s !! p = Some r ∧ spt r !! top = Some e ∧ status e = PAGE_FRAME ∧ writable e = true }.

Lemma stack_ext T0 T s0 s p m m' : stack_at T0 T s0 s p m → (∀ x, m x = m' x) → stack_at T0 T s0 s p m'.
Proof.
  intros [H1 H2 H3] E. constructor; [|done|done]. eapply serves_same; [exact H1|]. intros q v. unfold with_pages. by rewrite E.
Qed.

Lemma top_page va : in_pages top 1 va → user_va va ∧ va / 4096 * 4096 = top.
Proof.
  intros H. split; [|by apply page_in]. unfold in_pages, top in H. change PGSIZE with 4096 in H. split; [|lia]. change PHYS_BASE with 3221225472 in H. lia.
Qed.

Lemma stack_store_run T0 T s0 s p m va b : stack_at T0 T s0 s p m → in_pages top 1 va →
  runs (user_store init_page_dir init_ram_pages va b 0) s (λ ok s', ok = true ∧ stack_at T0 T s0 s' p (store_bytes m va [b])).
Proof.
  intros [Hsv Hc (r & e & Hr & He & Hst & Hw)] Hin. destruct (top_page va Hin) as [Hv Ep].
  pose proof (sv_ok _ _ _ _ _ _ _ Hsv) as Hs. assert (spt r !! (va / 4096 * 4096) = Some e) as He' by by rewrite Ep.
  assert (threads s !! cur s = Some (Some p)) as Hc' by by rewrite (sv_threads _ _ _ _ _ _ _ Hsv), (sv_cur _ _ _ _ _ _ _ Hsv).
  unfold user_store, user_access.
  eapply runs_then with (Q := λ a s1, a = Some (kpage e + va mod 4096) ∧ vm_ok T None s1 ∧ later T s T s1 ∧ procs s1 = procs s).
  { eapply runs_then; [apply (access_run init_page_dir init_ram_pages T s p r e va true); try done; by intros|].
    intros a s1 H. destruct a as [a|]; [|by destruct H]. apply runs_ret, H. }
  intros a s1 (-> & Hs1 & Hl & Ep1). step. apply runs_ret. split; [done|].
  assert (procs s1 !! p = Some r) as Hr1 by by rewrite Ep1.
  pose proof (write_serves init_page_dir init_ram_pages T s1 p r va e b Hs1 Hr1 He' Hst Hw) as Hws.
  assert (serves T s T s1 (sees s)) as Hsv1 by (apply serves_quiet; [done|done|by eapply later_quiet]).
  constructor; [|done|by exists r, e].
  eapply serves_same; [eapply serves_trans; [exact Hsv|eapply serves_trans; [exact Hsv1|exact Hws]]|].
  intros q v. etransitivity; [apply write_at_proper, (sv_sees _ _ _ _ _ _ _ Hsv1)|]. etransitivity; [apply write_at_proper, (sv_sees _ _ _ _ _ _ _ Hsv)|].
  unfold write_at, with_pages. destruct (decide (q = p ∧ in_pages top 1 v)) as [[-> Hin']|Hd].
  - destruct (decide (v = va)) as [->|]; [rewrite bool_decide_eq_true_2 by done|rewrite bool_decide_eq_false_2 by naive_solver]; cbn.
    + rewrite store_bytes_in by (cbn; lia). by rewrite Z.sub_diag.
    + by rewrite store_bytes_out by (cbn; lia).
  - rewrite bool_decide_eq_false_2; [done|]. intros [-> ->]. by apply Hd.
Qed.

(** ** Pushes *)

Lemma write_bytes_run l : ∀ T0 T s0 s p m va, stack_at T0 T s0 s p m → top ≤ va → va + Z.of_nat (length l) ≤ top + 4096 →
  runs (write_bytes init_page_dir init_ram_pages va l) s (λ _ s', stack_at T0 T s0 s' p (store_bytes m va l)).
Proof.
  induction l as [|b l IH]; intros T0 T s0 s p m va Hs H1 H2.
  { apply runs_ret. eapply stack_ext; [exact Hs|]. intros x. rewrite store_bytes_out; [done|cbn; lia]. }
  cbn [write_bytes length] in *. eapply runs_then; [apply (stack_store_run T0 T s0 s p m va b Hs); unfold in_pages; lia|].
  intros ok s1 [-> Hs1]. cbn [negb]. eapply runs_mono; [apply (IH T0 T s0 s1 p _ (va + 1) Hs1); lia|].
  intros [] s2 Hs2. eapply stack_ext; [exact Hs2|]. apply store_cons.
Qed.

(** What a push leaves: the stack pointer is lower by [n], what is above is as it was, and [Q]. *)
Definition pushed (T0 T : owners) (s0 : vm F) (p : nat) (m : Z → Z) (sp sp' : Z) (s' : vm F) (Q : (Z → Z) → Prop) : Prop :=
  ∃ m', stack_at T0 T s0 s' p m' ∧ (∀ a l, holds_at m a l → sp ≤ a → holds_at m' a l) ∧ Q m'.

Lemma push_word_run T0 T s0 s p m sp v : stack_at T0 T s0 s p m → top ≤ sp - 4 → sp ≤ top + 4096 →
  runs (push_word init_page_dir init_ram_pages sp v) s (λ sp' s', sp' = sp - 4 ∧ pushed T0 T s0 p m sp sp' s' (λ m', holds_at m' (sp - 4) (le_bytes 4 v))).
Proof.
  intros Hs H1 H2. unfold push_word. eapply runs_then; [apply (write_bytes_run _ T0 T s0 s p m (sp - 4) Hs H1)|].
  { rewrite length_le_bytes. lia. }
  intros [] s1 Hs1. apply runs_ret. split; [done|]. exists (store_bytes m (sp - 4) (le_bytes 4 v)). split; [done|]. split; [|apply holds_write].
  intros a l Ha Hsp. apply holds_below; [done|]. rewrite length_le_bytes. lia.
Qed.

Definition words (l : list Z) : list Z := concat (le_bytes 4 <$> l).
Lemma length_words l : Z.of_nat (length (words l)) = 4 * Z.of_nat (length l).
Proof. unfold words. induction l as [|x l IH]; [done|]. cbn [fmap list_fmap concat length]. rewrite length_app, length_le_bytes. lia. Qed.
Lemma words_cons x l : words (x :: l) = le_bytes 4 x ++ words l.
Proof. done. Qed.
Lemma words_cat l k : words (l ++ k) = words l ++ words k.
Proof. unfold words. by rewrite fmap_app, concat_app. Qed.

Lemma push_words_run l : ∀ T0 T s0 s p m sp, stack_at T0 T s0 s p m → top ≤ sp - 4 * Z.of_nat (length l) → sp ≤ top + 4096 →
  runs (push_words init_page_dir init_ram_pages l sp) s (λ sp' s', sp' = sp - 4 * Z.of_nat (length l) ∧
    pushed T0 T s0 p m sp sp' s' (λ m', holds_at m' sp' (words (rev l)))).
Proof.
  induction l as [|v l IH]; intros T0 T s0 s p m sp Hs H1 H2.
  { apply runs_ret. split; [cbn; lia|]. exists m. split; [done|]. split; [done|]. intros i Hi. cbn in Hi. lia. }
  cbn [push_words length] in *. eapply runs_then; [apply (push_word_run T0 T s0 s p m sp v Hs); lia|].
  intros sp1 s1 (-> & m1 & Hs1 & Hk1 & Hv1). eapply runs_mono; [apply (IH T0 T s0 s1 p m1 (sp - 4) Hs1); lia|].
  intros sp2 s2 (-> & m2 & Hs2 & Hk2 & Hv2). split; [lia|]. exists m2. split; [done|]. split.
  - intros a k Ha Hsp. apply Hk2; [|lia]. by apply Hk1.
  - cbn [rev]. rewrite words_cat. apply holds_app; [by replace (sp - 4 * Z.of_nat (S (length l))) with (sp - 4 - 4 * Z.of_nat (length l)) by lia|].
    rewrite length_words, length_rev. replace (_ + _) with (sp - 4) by lia. change (words [v]) with (le_bytes 4 v ++ []). rewrite app_nil_r.
    apply Hk2; [done|lia].
Qed.

Definition strings_size (l : list (list Z)) : Z := foldr (λ a n, Z.of_nat (length a) + 1 + n) 0 l.
Lemma strings_size_cons a l : strings_size (a :: l) = Z.of_nat (length a) + 1 + strings_size l.
Proof. done. Qed.
Lemma strings_size_app l k : strings_size (l ++ k) = strings_size l + strings_size k.
Proof. induction l as [|a l IH]; [done|]. change ((a :: l) ++ k) with (a :: l ++ k). rewrite !strings_size_cons, IH. lia. Qed.
Lemma strings_size_rev l : strings_size (rev l) = strings_size l.
Proof. induction l as [|a l IH]; [done|]. cbn [rev]. rewrite strings_size_app, !strings_size_cons, IH. cbn [strings_size foldr]. lia. Qed.
Lemma strings_size_pos l : 0 ≤ strings_size l.
Proof. induction l as [|a l IH]; [done|]. rewrite strings_size_cons. lia. Qed.

(** Pointers to the strings [args], not below [sp]. *)
Definition points_to (m : Z → Z) (sp : Z) (ptrs : list Z) (args : list (list Z)) : Prop :=
  Forall2 (λ a arg, sp ≤ a ∧ a + Z.of_nat (length arg) + 1 ≤ top + 4096 ∧ holds_at m a (arg ++ [0])) ptrs args.

Lemma points_keep m m' sp sp' ptrs args : points_to m sp ptrs args → sp' ≤ sp →
  (∀ a l, holds_at m a l → sp ≤ a → holds_at m' a l) → points_to m' sp' ptrs args.
Proof. intros H Hsp Hk. eapply Forall2_impl; [exact H|]. intros a arg (H1 & H2 & H3). split; [lia|]. split; [done|by apply Hk]. Qed.

Lemma push_strings_run l : ∀ T0 T s0 s p m sp saved, stack_at T0 T s0 s p m → top ≤ sp - strings_size l → sp ≤ top + 4096 →
  runs (push_strings init_page_dir init_ram_pages (Some <$> l) sp saved) s (λ '(sp', saved') s', sp' = sp - strings_size l ∧
    ∃ ptrs, saved' = ptrs ++ saved ∧ pushed T0 T s0 p m sp sp' s' (λ m', points_to m' sp' ptrs (rev l))).
Proof.
  induction l as [|a l IH]; intros T0 T s0 s p m sp saved Hs H1 H2.
  { apply runs_ret. split; [cbn; lia|]. exists []. split; [done|]. exists m. split; [done|]. split; [done|]. constructor. }
  rewrite strings_size_cons in *. cbn [fmap list_fmap push_strings] in *. pose proof (strings_size_pos l).
  eapply runs_then; [apply (write_bytes_run (a ++ [0]) T0 T s0 s p m _ Hs); rewrite ?length_app; cbn [length]; lia|].
  intros [] s1 Hs1. set (sp1 := sp - (Z.of_nat (length a) + 1)) in *.
  eapply runs_mono; [apply (IH T0 T s0 s1 p _ sp1 (sp1 :: saved) Hs1); lia|].
  intros [sp2 saved2] s2 (-> & ptrs & -> & m2 & Hs2 & Hk2 & Hp2). split; [lia|]. exists (ptrs ++ [sp1]). split; [by rewrite <- app_assoc|].
  exists m2. split; [done|]. split.
  - intros b k Hb Hsp. apply Hk2; [|lia]. apply holds_below; [done|]. rewrite length_app. cbn. lia.
  - cbn [rev]. apply Forall2_app; [done|]. constructor; [|constructor]. split; [lia|]. split; [lia|]. apply Hk2; [apply holds_write|lia].
Qed.

(** What is at the stack pointer [esp]: the return address, [argc], [argv], and the array with
    its null pointer. *)
Definition frame_of (esp : Z) (ptrs : list Z) : list Z := words (0 :: Z.of_nat (length ptrs) :: esp + 12 :: ptrs ++ [0]).

Definition laid_out (m : Z → Z) (esp : Z) (args : list (list Z)) : Prop :=
  (esp + 4) mod 16 = 0 ∧ top ≤ esp ∧ esp + 16 + 4 * Z.of_nat (length args) ≤ top + 4096 ∧ ∃ ptrs, length ptrs = length args ∧ holds_at m esp (frame_of esp ptrs) ∧
    points_to m (esp + 16 + 4 * Z.of_nat (length args)) ptrs args.

Lemma push_args_run T0 T s0 s p m args : stack_at T0 T s0 s p m →
  Z.of_nat (length args) ≤ MAX_ARGS → strings_size args + 4 * Z.of_nat (length args) + 32 ≤ 4096 →
  runs (push_args init_page_dir init_ram_pages (Z.of_nat (length args)) (Some <$> args)) s
    (λ esp s', ∃ m', stack_at T0 T s0 s' p m' ∧ laid_out m' esp args).
Proof.
  intros Hs Hmax Hsize. set (n := Z.of_nat (length args)) in *. pose proof (strings_size_pos args) as Hpos.
  unfold push_args. rewrite (proj2 (Z.ltb_ge 128 n)) by (unfold MAX_ARGS in *; lia).
  assert (rev (Some <$> args) = Some <$> rev args) as -> by by (symmetry; apply map_rev).
  eapply runs_then; [apply (push_strings_run (rev args) T0 T s0 s p m PHYS_BASE [] Hs); rewrite ?strings_size_rev; unfold top; change PGSIZE with 4096; lia|].
  intros [sp1 saved] s1 (-> & ptrs & -> & m1 & Hs1 & Hk1 & Hp1). rewrite strings_size_rev, rev_involutive, app_nil_r in *.
  pose proof (Forall2_length _ _ _ Hp1) as Hlen. set (base := PHYS_BASE - strings_size args) in *.
  set (q := (base - 4 * (n + 1) - 4 - 4) / 16). set (pad := base - 4 * (n + 1) - 4 - 4 - q * 16).
  assert (0 ≤ pad < 16) as Hpad.
  { unfold pad, q. pose proof (Z.div_mod (base - 4 * (n + 1) - 4 - 4) 16 ltac:(lia)). pose proof (Z.mod_pos_bound (base - 4 * (n + 1) - 4 - 4) 16 ltac:(lia)). lia. }
  assert (top + 4096 = PHYS_BASE) as Htop by (unfold top; change PGSIZE with 4096; lia).
  assert (base - pad = q * 16 + 4 * n + 12) as Esp by lia. assert (base = PHYS_BASE - strings_size args) as Eb by done.
  eapply runs_then; [apply (write_bytes_run _ T0 T s0 s1 p m1 (base - pad) Hs1); rewrite ?length_replicate; lia|]. intros [] s2 Hs2.
  assert (∀ a l, holds_at m1 a l → base ≤ a → holds_at (store_bytes m1 (base - pad) (replicate (Z.to_nat pad) 0)) a l) as Hk2.
  { intros a l Ha Hb. apply holds_below; [done|]. rewrite length_replicate. lia. }
  set (m2 := store_bytes _ _ _) in *. clearbody m2. rewrite Esp.
  eapply runs_then; [apply (push_word_run T0 T s0 s2 p m2 _ 0 Hs2); lia|]. intros sp3 s3 (-> & m3 & Hs3 & Hk3 & Hv3).
  eapply runs_then; [apply (push_words_run (rev ptrs) T0 T s0 s3 p m3 _ Hs3); rewrite ?length_rev; lia|].
  intros sp4 s4 (E4 & m4 & Hs4 & Hk4 & Hv4). rewrite length_rev, Hlen in E4. fold n in E4. rewrite rev_involutive in Hv4.
  eapply runs_then; [apply (push_word_run T0 T s0 s4 p m4 sp4 sp4 Hs4); lia|]. intros sp5 s5 (-> & m5 & Hs5 & Hk5 & Hv5).
  eapply runs_then; [apply (push_word_run T0 T s0 s5 p m5 _ n Hs5); lia|]. intros sp6 s6 (-> & m6 & Hs6 & Hk6 & Hv6).
  eapply runs_mono; [apply (push_word_run T0 T s0 s6 p m6 _ 0 Hs6); lia|]. intros esp s7 (E7 & m7 & Hs7 & Hk7 & Hv7).
  exists m7. split; [done|]. assert (esp = q * 16 - 4) as Eesp by lia. split; [|split; [lia|split; [lia|]]].
  { rewrite Eesp. replace (q * 16 - 4 + 4) with (q * 16) by lia. by apply Z.mod_mul. }
  assert (sp4 = esp + 12) as E4' by lia. clear E4 E7. subst sp4. exists ptrs. split; [done|]. split.
  - unfold frame_of. rewrite !words_cons, words_cat, Hlen. fold n.
    replace (esp + 12 - 4 - 4 - 4) with esp in Hv7 by lia. replace (esp + 12 - 4 - 4) with (esp + 4) in Hv6 by lia. replace (esp + 12 - 4) with (esp + 8) in Hv5 by lia.
    apply holds_app; [done|]. apply Hk7; [|rewrite length_le_bytes; lia]. rewrite length_le_bytes.
    apply holds_app; [done|]. apply Hk6; [|rewrite length_le_bytes; lia]. rewrite length_le_bytes. replace (esp + Z.of_nat 4 + Z.of_nat 4) with (esp + 8) by lia.
    apply holds_app; [done|]. apply Hk5; [|rewrite length_le_bytes; lia]. rewrite length_le_bytes. replace (esp + 8 + Z.of_nat 4) with (esp + 12) by lia.
    apply holds_app; [done|]. apply Hk4; [|rewrite length_words; lia]. rewrite length_words. change (words [0]) with (le_bytes 4 0).
    by replace (esp + 12 + 4 * Z.of_nat (length ptrs)) with (q * 16 + 4 * n + 12 - 4) by lia.
  - eapply points_keep; [exact Hp1|lia|]. intros a l Ha Hb. apply Hk7; [|lia]. apply Hk6; [|lia]. apply Hk5; [|lia]. apply Hk4; [|lia]. apply Hk3; [|lia]. by apply Hk2.
Qed.

(** ** [setup_stack] *)

Lemma top_fresh (A : VmUser.space) p : (∀ v, in_pages top 1 v → A p v = None) →
  same_space (grow A p top top) (with_pages A p top 1 (λ _, Some 0) true).
Proof.
  intros Hn q v. unfold grow, grows, with_pages. rewrite bool_decide_eq_true_2 by (apply Hn; unfold in_pages; lia).
  change (vm_is_stack_access top top) with true. cbn [andb]. change (top / 4096) with 786431. pose proof (Z.div_mod v 4096 ltac:(lia)).
  pose proof (Z.mod_pos_bound v 4096 ltac:(lia)). assert (top = 786431 * 4096) as Et by done.
  destruct (decide (q = p ∧ in_pages top 1 v)) as [[-> Hi]|Hi]; unfold in_pages in Hi.
  - rewrite bool_decide_eq_true_2; [done|]. split; [done|lia].
  - rewrite bool_decide_eq_false_2; [done|]. intros [-> E]. apply Hi. split; [done|lia].
Qed.

(** The page is there, in memory, and its frame is not pinned. *)
Lemma stack_page_run T s p r : vm_ok T None s → threads s !! cur s = Some (Some p) → procs s !! p = Some r →
  (∀ v, in_pages top 1 v → sees s p v = None) →
  runs (spt_create_zero_page p top true) s (λ ok s1, if ok : bool
    then spt_find p top s1 = Ret (Some top, s1) ∧ runs (spt_load_page init_page_dir init_ram_pages p top) s1 (λ ok s2, if ok : bool
      then runs (e ← spte p top; frame_unpin (kpage e)) s2 (λ _ s3, ∃ T', stack_at T T' s s3 p (λ _, 0)) else short s)
    else short s).
Proof.
  intros Hs Hc Hr Hfree. assert (user_va top) as Hv by (by split).
  assert (spt r !! (top / 4096 * 4096) = None) as Hn by (apply (sees_none init_page_dir init_ram_pages T None s p r top Hs Hr), Hfree; unfold in_pages; lia).
  eapply runs_mono; [apply (zero_page_run init_page_dir init_ram_pages T s p r top top Hs Hr Hn Hv eq_refl)|].
  intros ok s1 H1. destruct ok; [|apply H1]. destruct H1 as (Hsv1 & Hsh1 & r1 & e1 & Hr1 & He1 & Hst1).
  change (top / 4096 * 4096) with top in *. pose proof (sv_ok _ _ _ _ _ _ _ Hsv1) as Hs1.
  split. { rewrite (spt_find_run s1 p r1 top Hr1 Hv eq_refl), decide_True by done. done. }
  assert (threads s1 !! cur s1 = Some (Some p)) as Hc1 by by rewrite (sv_threads _ _ _ _ _ _ _ Hsv1), (sv_cur _ _ _ _ _ _ _ Hsv1).
  eapply runs_mono; [apply (spt_load_page_run init_page_dir init_ram_pages T s1 p r1 top e1 Hs1 Hc1 Hr1 He1); by rewrite Hst1|].
  intros ok s2 (T2 & Hs2 & Hd2 & Hq2 & H2). destruct ok; [|by apply Hsh1].
  destruct H2 as (r2 & e2 & Hr2 & He2 & Hst2). eapply runs_step; [by eapply spte_run|].
  destruct (vk_entry _ _ _ _ _ Hs2 _ _ _ _ Hr2 He2) as [_ Hok2]. rewrite Hst2 in Hok2.
  destruct Hok2 as (f & k & _ & (fe & Hf & <- & _) & _).
  eapply runs_mono; [by apply (frame_unpin_run init_page_dir init_ram_pages T2 None s2 f fe)|]. intros [] s3 (Hs3 & Hl3 & Ep3 & _).
  exists T2. constructor; [|done|].
  - eapply serves_same; [eapply serves_trans; [exact Hsv1|apply (serves_quiet init_page_dir init_ram_pages T s1 T2 s3); [done|done|]]|].
    + eapply vm_quiet_trans; [exact Hq2|by eapply later_quiet].
    + eapply same_space_trans; [apply Hsv1|]. by apply top_fresh.
  - exists r2, e2. rewrite Ep3. repeat (split; [done|]).
    pose proof (qu_proc _ _ Hq2 p r1 Hr1) as (r2' & Hr2' & _ & Hw). assert (r2' = r2) as -> by congruence.
    specialize (Hw top). rewrite He2 in Hw.
    assert (rights s1 p top = Some true) as Hrt.
    { pose proof (top_fresh (sees s) p Hfree p top) as Hg. rewrite <- (sv_sees _ _ _ _ _ _ _ Hsv1) in Hg.
      unfold with_pages in Hg. rewrite decide_True in Hg by (split; [done|unfold in_pages; lia]). cbn in Hg. unfold sees in Hg.
      destruct (view s1 p top); cbn in Hg; [|done]. destruct (rights s1 p top); cbn in Hg; congruence. }
    unfold rights in Hrt. rewrite Hr1 in Hrt. cbn in Hrt. change (top / 4096 * 4096) with top in Hrt. rewrite Hrt in Hw. by injection Hw.
Qed.

Lemma unpin_then {A} p va (g : st (vm F) A) s :
  (e ← spte p va; frame_unpin (kpage e);; g) s = ((e ← spte p va; frame_unpin (kpage e));; g) s.
Proof. unfold mbind, st_bind. destruct (spte p va s) as [[e s1]| | |]; [|done..]. cbn. by destruct (frame_unpin (kpage e) s1) as [[]| | |]. Qed.

Lemma setup_stack_run T s p r args : vm_ok T None s → threads s !! cur s = Some (Some p) → procs s !! p = Some r →
  (∀ v, in_pages top 1 v → sees s p v = None) →
  Z.of_nat (length args) ≤ MAX_ARGS → strings_size args + 4 * Z.of_nat (length args) + 32 ≤ 4096 →
  runs (setup_stack init_page_dir init_ram_pages (Z.of_nat (length args)) (Some <$> args)) s (λ o s', match o with
    | Some esp => ∃ T' m, stack_at T T' s s' p m ∧ laid_out m esp args
    | None => short s
    end).
Proof.
  intros Hs Hc Hr Hfree Hmax Hsize. unfold setup_stack. fold top. eapply runs_step; [by apply get_pcb_run|].
  eapply runs_then; [by apply (stack_page_run T s p r)|]. intros ok s1 H1. destruct ok; cbn [negb]; [|by apply runs_ret].
  destruct H1 as [Ef H1]. eapply runs_step; [exact Ef|]. cbn beta iota.
  eapply runs_then; [exact H1|]. intros ok s2 H2. destruct ok; cbn [negb]; [|by apply runs_ret].
  unfold runs. rewrite unpin_then.
  eapply runs_then; [exact H2|]. intros [] s3 (T3 & Hs3).
  eapply runs_then; [by apply (push_args_run T T3 s s3 p (λ _, 0) args)|]. intros esp s4 (m & Hs4 & Hm). apply runs_ret. by exists T3, m.
Qed.

(** The bytes [l] are in the memory of process [p] at [a], writable. *)
Definition in_memory (A : VmUser.space) (p : nat) (a : Z) (l : list Z) : Prop :=
  ∀ i b, l !! i = Some b → A p (a + Z.of_nat i) = Some (b, true).

Lemma in_memory_intro T0 T s0 s p m a l : stack_at T0 T s0 s p m → holds_at m a l → top ≤ a → a + Z.of_nat (length l) ≤ top + 4096 → in_memory (sees s) p a l.
Proof.
  intros [Hsv _ _] Hm H1 H2 i b Hi. pose proof (lookup_lt_Some _ _ _ Hi). rewrite (sv_sees _ _ _ _ _ _ _ Hsv p).
  unfold with_pages. rewrite decide_True by (split; [done|unfold in_pages; lia]). rewrite Hm by lia. rewrite Nat2Z.id. by rewrite (list_lookup_total_correct _ _ _ Hi).
Qed.

(** C18. The stack of a new process.  For a process without the page below [PHYS_BASE], and
    at most 64 arguments that fit into it, [setup_stack] returns: it gives the page, and a stack
    pointer [esp] in it with [esp + 4] a multiple of 16, at which memory has a null return
    address, [argc], [argv], and from [argv] on the pointers to the arguments, each a
    terminated copy, and a null pointer; or it fails, which needs memory to be short.  What
    other processes see, and the other pages of this one, do not change. *)
Theorem setup_stack_layout (T : owners) (s : vm F) (p : nat) (r : process) (args : list (list Z))
    (Hs : vm_ok T None s) (Hc : threads s !! cur s = Some (Some p)) (Hr : procs s !! p = Some r)
    (Hfree : ∀ v, in_pages top 1 v → sees s p v = None)
    (Hargs : Z.of_nat (length args) ≤ MAX_ARGS) (Hsize : strings_size args + 4 * Z.of_nat (length args) + 32 ≤ 4096) :
  ∃ o s', setup_stack init_page_dir init_ram_pages (Z.of_nat (length args)) (Some <$> args) s = Ret (o, s') ∧
    match o with
    | None => short s
    | Some esp => (∃ T', vm_ok T' None s') ∧ (esp + 4) mod 16 = 0 ∧ top ≤ esp ∧
        (∃ ptrs, in_memory (sees s') p esp (words (0 :: Z.of_nat (length args) :: esp + 12 :: ptrs ++ [0])) ∧
           Forall2 (λ a arg, in_memory (sees s') p a (arg ++ [0])) ptrs args) ∧
        (∀ q v, ¬ (q = p ∧ in_pages top 1 v) → sees s' q v = sees s q v)
    end.
Proof.
  destruct (setup_stack_run T s p r args Hs Hc Hr Hfree Hargs Hsize) as (o & s' & E & H). exists o, s'. split; [done|].
  destruct o as [esp|]; [|done]. destruct H as (T' & m & Hst & Hal & Htop & Hend & ptrs & Hlen & Hfr & Hp).
  split; [exists T'; apply Hst|]. split; [done|]. split; [done|]. split.
  - exists ptrs. split.
    + eapply in_memory_intro; [exact Hst|unfold frame_of in Hfr; by rewrite Hlen in Hfr|done|]. rewrite length_words. cbn [length]. rewrite length_app, Hlen. cbn [length]. lia.
    + eapply Forall2_impl; [exact Hp|]. intros a arg (H1 & H2 & H3). eapply in_memory_intro; [exact Hst|done|lia|]. rewrite length_app. cbn [length]. lia.
  - intros q v Hd. rewrite (sv_sees _ _ _ _ _ _ _ (st_serves _ _ _ _ _ _ Hst) q v). unfold with_pages. by rewrite decide_False.
Qed.
End stack.
End StackProofs.
