(* ===== verification/VmDemo.v ===== *)
(** * Virtual memory and processes at work

    Concrete runs of the components that user programs rely on, and the theorems about them at
    concrete inputs: [VmDemo] states the theorems on demand paging, with two processes that share
    a machine with two pages of user memory and four swap slots; [MmapDemo] maps and unmaps
    memory on that machine, [LoaderDemo] loads a segment and builds a stack there;
    [FiledescDemo] is about descriptors and [ProcessDemo] about schedules of processes. *)

From stdpp Require Import base tactics numbers list list_numbers option gmap relations.
From S2P Require Import Prelude State Bitmap Strings Block Wal Inode InodeProofs Volume File FileProofs Directory FsDemo Palloc Malloc Pagedir PagedirProofs Swap FileOps Filedesc FiledescProofs VmState Frame Page Vm Mmap Loader Process ProcessProofs ProcessSafety VmInv VmSteps VmEvict VmFault VmUser MmapProofs LoaderProofs StackProofs.

Open Scope Z_scope.

Module VmDemo.
Import Bitmap Block Palloc Pagedir PagedirProofs Swap VmState Frame Page Vm VmInv VmSteps VmEvict VmFault VmUser.

(** ** The machine *)

Definition demo_ram : Z := 1024.
Definition demo_init_pd : Z := 0xc0101000.
Definition demo_pd (p : Z) : Z := 0xc0102000 + 4096 * p.
Definition demo_pools : palloc :=
  mk_palloc (mk_pool (mk_bitmap 8 [7]) 0xc0101000) (mk_pool (mk_bitmap 2 [0]) 0xc0109000) (λ _, 0).
Definition demo_swap : swap :=
  mk_swap (Some (mk_block BLOCK_SWAP (replicate 32 (replicate 512 0)) 0 0)) (Some (mk_bitmap 4 [0])).
Definition demo_entry (va : Z) (w : bool) : spt_entry := mk_spte va PAGE_ZERO w 0 0 None 0 0 0 false false.
Definition demo_file_entry (va : Z) : spt_entry := mk_spte va PAGE_FILE false 0 0 (Some 1%nat) 0 700 3396 false false.
Definition demo_process (p : Z) : process :=
  mk_process (demo_pd p) {[ 0x8048000 := demo_entry 0x8048000 true; 0x8049000 := demo_file_entry 0x8049000 ]} [] ∅.
Definition demo_owners : gmap Z (Z * option Z) := {[ 0xc0102 := (demo_pd 0, None); 0xc0103 := (demo_pd 1, None) ]}.

Definition demo_vm : vm (kst Wal.wst) :=
  mk_vm _ (mk_mach demo_pools (demo_pd 0 - PHYS_BASE)) demo_swap [] ∅ 0 None
    {[ 0%nat := Some 0%nat; 1%nat := Some 1%nat ]} {[ 0%nat := demo_process 0; 1%nat := demo_process 1 ]} 0 FsDemo.demo_kernel [].

Definition demo_ops : list op :=
  [Store 0x8048000 7 0; Load 0x8048000 0; Load 0x8049000 0; Switch 1;
   Store 0x8048000 9 0; Store 0xbfffff00 5 0xbfffff00; Load 0x8048000 0; Switch 0; Load 0x8048000 0; Load 0x8048001 0; Store 0x8049000 1 0].

(** The second page of user memory goes to swap and back more than once on the way. *)
Example demo_answers : (λ '(rs, _), rs) <$> run_ops demo_init_pd demo_ram demo_ops demo_vm =
  Ret [Some 7; Some 7; Some 0; Some 0; Some 9; Some 5; Some 9; Some 0; Some 7; Some 0; None].
Proof. vm_compute. reflexivity. Qed.

(** ** It satisfies the invariant *)

Lemma demo_pools_ok : palloc_ok demo_pools.
Proof.
  assert (∀ n w b, 0 ≤ n ≤ 32 → elem_cnt n = 1 → 0 ≤ w < 2 ^ 32 → b mod 4096 = 0 → 4096 ≤ b ≤ 2 ^ 32 - 131072 →
    pool_ok (mk_pool (mk_bitmap n [w]) b)) as H.
  { intros n w b Hn He Hw Hb Hr. constructor; unfold first_page; cbn [base used_map bit_cnt].
    - split; [cbn; lia|]. split; [exact (eq_sym He)|]. by constructor.
    - pose proof (Z.div_mod b 4096 ltac:(lia)). lia.
    - apply Z.div_str_pos. lia.
    - transitivity ((2 ^ 32 - 131072) / 4096 + 32); [|done]. apply Z.add_le_mono; [apply Z.div_le_mono|]; lia. }
  constructor; [apply H; done || lia|apply H; done || lia|done].
Qed.

Lemma demo_owner q x : demo_owners !! q = Some x → q = 0xc0102 ∧ x = (demo_pd 0, None) ∨ q = 0xc0103 ∧ x = (demo_pd 1, None).
Proof.
  unfold demo_owners. intros H. apply lookup_insert_Some in H as [[<- <-]|[_ H]]; [by left|]. apply lookup_singleton_Some in H as [<- <-]. by right.
Qed.

Lemma demo_tables : tables_ok demo_init_pd demo_ram demo_owners (machine demo_vm).
Proof.
  constructor; try done.
  - exact demo_pools_ok.
  - intros q x Hq. apply demo_owner in Hq as [[-> _]|[-> _]]; by split.
  - intros q pd Hq. by apply demo_owner in Hq as [[-> [= ->]]|[-> [= ->]]].
  - by left.
Qed.

Lemma demo_pte pd va : pte (machine demo_vm) pd va = 0.
Proof. reflexivity. Qed.

Lemma demo_procs p r : procs demo_vm !! p = Some r → p = 0%nat ∧ r = demo_process 0 ∨ p = 1%nat ∧ r = demo_process 1.
Proof.
  cbn. intros H. apply lookup_insert_Some in H as [[<- <-]|[_ H]]; [by left|]. apply lookup_singleton_Some in H as [<- <-]. by right.
Qed.

Lemma demo_spt p va e : spt (demo_process p) !! va = Some e →
  va = 0x8048000 ∧ e = demo_entry va true ∨ va = 0x8049000 ∧ e = demo_file_entry va.
Proof.
  cbn. intros H. apply lookup_insert_Some in H as [[<- <-]|[_ H]]; [by left|]. apply lookup_singleton_Some in H as [<- <-]. by right.
Qed.

#[local] Instance vm_demo_files : FileLaws (kst Wal.wst) := kernel_laws (SectorModel0 := Volume.wal_model 70).

Lemma demo_entries va e : va = 0x8048000 ∧ e = demo_entry va true ∨ va = 0x8049000 ∧ e = demo_file_entry va →
  entry_wf FsDemo.demo_kernel va e.
Proof.
  intros [[-> ->]|[-> ->]]; constructor; try done.
  intros f [= <-]. split; [|split; [done|split; [done|split; [done|split; [done|]]]]].
  - eexists _, FsDemo.demo_inode. split; [reflexivity|exact FsDemo.demo_inode_file].
  - intros i Hi. eapply kernel_byte_some; [reflexivity|exact FsDemo.demo_inode_file|exact Hi].
Qed.

Lemma demo_vm_ok : vm_ok demo_init_pd demo_ram demo_owners None demo_vm.
Proof.
  constructor; try done.
  - exact demo_tables.
  - split; [|split; [|done]]; [split; [done|]|].
    + by apply Forall_replicate.
    + split; [done|]. split; [done|]. by constructor.
  - exact Volume.volume_demo_inv.
  - by exists 0%nat, (demo_process 0).
  - intros p r Hr. by apply demo_procs in Hr as [[-> ->]|[-> ->]].
  - intros p r q t Hr Ht. by apply demo_procs in Hr as [[-> ->]|[-> ->]]; apply demo_procs in Ht as [[-> ->]|[-> ->]].
  - constructor.
  - intros f. split; [intros H; by apply not_elem_of_nil in H|by intros []].
  - by intros f [].
  - intros p r va e Hr He.
    assert (va = 0x8048000 ∧ e = demo_entry va true ∨ va = 0x8049000 ∧ e = demo_file_entry va) as H.
    { by apply demo_procs in Hr as [[-> ->]|[-> ->]]; apply demo_spt in He. }
    split; [by apply demo_entries|]. by destruct H as [[-> ->]|[-> ->]].
  - intros p r va e q t vb g Hr He Hst _ _ _ _. exfalso.
    assert (va = 0x8048000 ∧ e = demo_entry va true ∨ va = 0x8049000 ∧ e = demo_file_entry va) as H.
    { by apply demo_procs in Hr as [[-> ->]|[-> ->]]; apply demo_spt in He. }
    by destruct H as [[_ ->]|[_ ->]].
Qed.

(** ** Theorems *)

Section theorems.
Context {F : Type} `{!FileOps F} `{!FileLaws F}.
Context (init_page_dir init_ram_pages : Z).

(** C3. Demand paging implements memory.  From a state that satisfies the invariant (no process
    has forked, and no file is memory-mapped), every sequence of loads, stores and switches
    between threads of processes returns, keeps the invariant, and gives the answers of a
    memory that holds, for each process and user address, one byte and the right to write
    it: page faults, the frames taken from other processes, the swap slots and files their
    bytes go to and come from, and the second chances of the clock cannot be observed.
    Accesses below the stack add pages of zeros; an access that fails ends the run and
    changes no byte. *)
Theorem demand_paging_refines (T : gmap Z (Z * option Z)) (s : vm F) (ops : list op)
    (Hs : vm_ok init_page_dir init_ram_pages T None s) (Hops : Forall (op_ok s) ops) :
  ∃ rs s', run_ops init_page_dir init_ram_pages ops s = Ret (rs, s') ∧
    (∃ T', vm_ok init_page_dir init_ram_pages T' None s') ∧
    explains (λ t, mjoin (threads s !! t)) (sees s) (cur s) ops rs (sees s') (cur s').
Proof.
  destruct (explains_run init_page_dir init_ram_pages ops T s Hs Hops) as (rs & s' & E & H1 & H2). by exists rs, s'.
Qed.

(** C13. An access that the process may make succeeds.  When [malloc] does not fail and each
    pool has a free page, a load or store that the rights (or, for an address without a page,
    the bounds of the stack) allow is served, whatever the state of the page; the load
    returns the byte of the process's memory. *)
Theorem allowed_access_succeeds (T : gmap Z (Z * option Z)) (s : vm F) (p : nat) (r : process) (va v esp : Z)
    (Hs : vm_ok init_page_dir init_ram_pages T None s) (Hc : threads s !! cur s = Some (Some p)) (Hr : procs s !! p = Some r)
    (Hv : user_va va) (Hroom : ¬ short s) :
  (denied (sees s) p va false esp = false → ∃ b w s', user_load init_page_dir init_ram_pages va esp s = Ret (Some b, s') ∧
    grow (sees s) p va esp p va = Some (b, w)) ∧
  (denied (sees s) p va true esp = false → ∃ s', user_store init_page_dir init_ram_pages va v esp s = Ret (true, s') ∧
    sees s' p va = Some (v, true)).
Proof.
  split; intros Hd.
  - destruct (user_load_run init_page_dir init_ram_pages T s p r va esp Hs Hc Hr Hv) as (o & s' & E & T' & A & Hsv & _ & Ho).
    destruct o as [b|]; [|destruct Ho; congruence]. destruct Ho as [-> [w Hw]]. by exists b, w, s'.
  - destruct (user_store_run init_page_dir init_ram_pages T s p r va v esp Hs Hc Hr Hv) as (o & s' & E & T' & A & Hsv & Ho).
    destruct o; [|destruct Ho as [_ []]; congruence]. destruct Ho as [-> [b Hb]]. exists s'. split; [exact E|].
    rewrite (sv_sees _ _ _ _ _ _ _ Hsv). unfold write_at. rewrite bool_decide_eq_true_2 by done. by rewrite Hb.
Qed.

(** C12. Eviction is safe and ends.  [frame_evict] returns for every list of frames; no byte of
    any process changes, and the page it hands out is a page of the user pool that no frame
    has, so that no process can reach it. *)
Theorem frame_evict_transparent (T : gmap Z (Z * option Z)) (s : vm F) (Hs : vm_ok init_page_dir init_ram_pages T None s) :
  ∃ page s', frame_evict init_page_dir init_ram_pages s = Ret (page, s') ∧
    (∀ p va, view s' p va = view s p va) ∧ (∃ T', vm_ok init_page_dir init_ram_pages T' None s') ∧
    (page ≠ 0 → ∃ k, page = k * 4096 ∧ used (user_pool (pal (machine s'))) k ∧
       ∀ f fe, frames s' !! f = Some fe → fe_kpage fe ≠ page).
Proof.
  destruct (frame_evict_run init_page_dir init_ram_pages T s Hs) as (page & s' & E & T' & H1 & H2 & H3).
  exists page, s'. split; [exact E|]. split; [apply H2|]. split; [by exists T'|]. exact H3.
Qed.
End theorems.

(** ** Witnesses *)

Lemma demo_ops_ok : Forall (op_ok demo_vm) demo_ops.
Proof. repeat constructor; try done; cbn; [by exists 1%nat, (demo_process 1)|by exists 0%nat, (demo_process 0)]. Qed.

Lemma demand_paging_refines_witness : ∃ rs s', run_ops demo_init_pd demo_ram demo_ops demo_vm = Ret (rs, s') ∧
  explains (λ t, mjoin (threads demo_vm !! t)) (sees demo_vm) 0 demo_ops rs (sees s') (cur s').
Proof.
  destruct (demand_paging_refines demo_init_pd demo_ram demo_owners demo_vm demo_ops demo_vm_ok demo_ops_ok) as (rs & s' & E & _ & H).
  exists rs, s'. split; [exact E|exact H].
Defined.

Lemma demo_not_short : ¬ short demo_vm.
Proof.
  intros [H|[H|H]]; [done| |].
  - destruct (H 0xc0109) as (q & Hq & _ & Hb); [by vm_compute|by vm_compute|]. assert (q = 0xc0109) as -> by lia. by vm_compute in Hb.
  - destruct (H 0xc0104) as (q & Hq & _ & Hb); [by vm_compute|by vm_compute|]. assert (q = 0xc0104) as -> by lia. by vm_compute in Hb.
Qed.

Lemma allowed_access_succeeds_witness :
  ∃ b w s', user_load demo_init_pd demo_ram 0x8049123 0 demo_vm = Ret (Some b, s') ∧ grow (sees demo_vm) 0 0x8049123 0 0%nat 0x8049123 = Some (b, w).
Proof.
  destruct (allowed_access_succeeds demo_init_pd demo_ram demo_owners demo_vm 0 (demo_process 0) 0x8049123 0 0 demo_vm_ok
    eq_refl eq_refl ltac:(done) demo_not_short) as [H _].
  apply H. destruct (sees_some demo_init_pd demo_ram demo_owners None demo_vm 0 (demo_process 0) 0x8049123 (demo_file_entry 0x8049000) demo_vm_ok eq_refl eq_refl) as (b & _ & E).
  unfold denied. by rewrite E.
Defined.

(** After two pages have been loaded, one of them is evicted. *)
Lemma frame_evict_transparent_witness :
  ∃ rs s page s', run_ops demo_init_pd demo_ram (take 3 demo_ops) demo_vm = Ret (rs, s) ∧
    frame_evict demo_init_pd demo_ram s = Ret (page, s') ∧ ∀ p va, view s' p va = view s p va.
Proof.
  destruct (explains_run demo_init_pd demo_ram (take 3 demo_ops) demo_owners demo_vm demo_vm_ok (Forall_take _ _ _ demo_ops_ok))
    as (rs & s & E1 & [T Hs] & _).
  destruct (frame_evict_transparent demo_init_pd demo_ram T s Hs) as (page & s' & E & H & _).
  exists rs, s, page, s'. split; [exact E1|]. split; [exact E|exact H].
Defined.

Lemma pagedir_maps_witness : ∃ m1, pagedir_set_page demo_init_pd demo_ram (demo_pd 0) 0x8048000 (0xc0109 * 4096) true (machine demo_vm) = Ret (true, m1) ∧
  pagedir_get_page (demo_pd 0) (0x8048000 + 5) m1 = Ret (0xc0109 * 4096 + 5, m1).
Proof.
  destruct (pagedir_maps demo_init_pd demo_ram demo_owners (machine demo_vm) (demo_pd 0) 0x8048000 0xc0109 true demo_tables
    eq_refl ltac:(done) eq_refl ltac:(done) eq_refl) as [(m' & _ & _ & _ & H)|(m1 & _ & _ & _ & E & _ & H & _)].
  - exfalso. destruct (H 0xc0104) as (q & Hq & _ & Hb); [by vm_compute|by vm_compute|]. assert (q = 0xc0104) as -> by lia. by vm_compute in Hb.
  - exists m1. split; [exact E|]. apply (H 5). lia.
Defined.

Lemma demo_swap_ok : swap_ok demo_swap.
Proof. exact (vk_swap _ _ _ _ _ demo_vm_ok). Qed.

Lemma swap_round_trip_witness : ∃ s1 s2 m2, Swap.swap_out demo_swap (λ x, x mod 256) 4096 = Ret (0, s1) ∧
  Swap.swap_in s1 (λ _, 0) 0 8192 = Ret (s2, m2) ∧ m2 8197 = 4101 mod 256.
Proof.
  destruct (Swap.swap_out demo_swap (λ x, x mod 256) 4096) as [[slot s1]| | |] eqn:E; try (vm_compute in E; discriminate E).
  assert (slot = 0) as -> by (apply (f_equal (fmap fst)) in E; vm_compute in E; by injection E).
  destruct (swap_round_trip demo_swap (λ x, x mod 256) (λ _, 0) 4096 8192 demo_swap_ok 0 s1 E ltac:(done)) as (_ & _ & _ & s2 & m2 & E2 & _ & _ & _ & H).
  exists s1, s2, m2. split; [done|]. split; [exact E2|]. exact (H 8197).
Defined.

(** ** A fork *)

(** The frame of a page shared by a fork has one owner, the parent's thread, also when only the
    child uses it.  The parent stores 7, forks, and stores 8: it gets a frame of its own, and
    the old one is the child's.  Two loads of other pages evict it; the child then reads 0, from
    a frame that has been given away, and the parent reads 7, not the 8 it stored. *)
Definition fork_vm : vm (kst Wal.wst) :=
  set_procs demo_vm {[ 0%nat := demo_process 0; 1%nat := mk_process (demo_pd 1) ∅ [] ∅ ]}.
Definition fork_run : st (vm (kst Wal.wst)) (bool * list (option Z)) :=
  run_ops demo_init_pd demo_ram [Store 0x8048000 7 0];;
  ok ← spt_clone demo_init_pd demo_ram 1 0 (demo_pd 1) (demo_pd 0) [0x8048000; 0x8049000];
  rs ← run_ops demo_init_pd demo_ram [Store 0x8048000 8 0; Load 0x8048000 0; Load 0x8049000 0; Load 0xbfffff00 0xbfffff00;
    Switch 1; Load 0x8048000 0; Switch 0; Load 0x8048000 0];
  mret (ok, rs).

Theorem fork_then_evict_loses_write : (λ '(rs, _), rs) <$> fork_run fork_vm =
  Ret (true, [Some 8; Some 8; Some 0; Some 0; Some 0; Some 0; Some 0; Some 7]).
Proof. vm_compute. reflexivity. Qed.
End VmDemo.

(** * Memory mappings at work

    Mappings on the machine of [VmDemo], and two things that go wrong: a length near 2^32, and
    unmapping pages that a fork has shared. *)

Module MmapDemo.
Import Palloc Pagedir PagedirProofs VmState Page Vm Mmap VmInv VmUser MmapProofs VmDemo.
#[local] Existing Instance vm_demo_files.

Lemma mmap_create_anon_maps_witness : ∃ s', mmap_create_anon 0 5000 0 demo_vm = Ret (MMAP_BASE, s') ∧ sees s' 0%nat (MMAP_BASE + 8191) = Some (0, true).
Proof.
  destruct (mmap_create_anon_maps demo_init_pd demo_ram demo_owners demo_vm 0 (demo_process 0) 0 5000 0 demo_vm_ok eq_refl eq_refl ltac:(lia) ltac:(lia))
    as (a & s' & E & _ & H).
  assert (a = MMAP_BASE) as ->.
  { pose proof E as E'. apply (f_equal (fmap fst)) in E'. vm_compute in E'. injection E' as <-. reflexivity. }
  destruct H as [H _]. exists s'. split; [exact E|]. rewrite H. by vm_compute.
Defined.

Lemma munmap_undoes_mmap_witness : ∃ s1 s2, mmap_create_anon 0 5000 0 demo_vm = Ret (MMAP_BASE, s1) ∧
  mmap_destroy demo_init_pd MMAP_BASE 5000 s1 = Ret (0, s2) ∧ ∀ q v, sees s2 q v = sees demo_vm q v.
Proof.
  destruct (mmap_create_anon 0 5000 0 demo_vm) as [[a s1]| | |] eqn:E; try (vm_compute in E; discriminate E).
  assert (a = MMAP_BASE) as ->.
  { pose proof E as E'. apply (f_equal (fmap fst)) in E'. vm_compute in E'. injection E' as <-. reflexivity. }
  destruct (munmap_undoes_mmap demo_init_pd demo_ram demo_owners demo_vm s1 0 (demo_process 0) 0 5000 0 MMAP_BASE demo_vm_ok eq_refl eq_refl
    ltac:(lia) ltac:(lia) ltac:(by constructor) E ltac:(done)) as (s2 & r2 & E2 & H & _).
  by exists s1, s2.
Defined.

(** ** Two things that go wrong *)

(** Rounding up a length above 2^32 - 4096 wraps to no pages: the mapping succeeds, has no
    memory, and cannot be unmapped. *)
Definition huge_run : st (vm (kst Wal.wst)) (Z * option Z * Z) :=
  a ← mmap_create_anon 0 (2 ^ 32 - 1) 0;
  b ← user_load demo_init_pd demo_ram MMAP_BASE 0;
  z ← mmap_destroy demo_init_pd MMAP_BASE (2 ^ 32 - 1);
  mret (a, b, z).
Theorem huge_mapping_has_no_pages : (λ '(x, _), x) <$> huge_run demo_vm = Ret (MMAP_BASE, None, -1).
Proof. vm_compute. reflexivity. Qed.

(** A page that a fork shares is not given up by [munmap]: the entry is removed, but the frame
    is not released and the page table still maps it, so that the process goes on reading what
    it has unmapped. *)
Definition shared_run : st (vm (kst Wal.wst)) (Z * bool * Z * list (option Z)) :=
  a ← mmap_create_anon 0 4096 0;
  run_ops demo_init_pd demo_ram [Store MMAP_BASE 7 0];;
  ok ← spt_clone demo_init_pd demo_ram 1 0 (demo_pd 1) (demo_pd 0) [MMAP_BASE];
  z ← mmap_destroy demo_init_pd MMAP_BASE 4096;
  rs ← run_ops demo_init_pd demo_ram [Load MMAP_BASE 0];
  mret (a, ok, z, rs).
Theorem unmapped_page_still_read : (λ '(x, _), x) <$> shared_run fork_vm = Ret (MMAP_BASE, true, 0, [Some 7]).
Proof. vm_compute. reflexivity. Qed.
End MmapDemo.

(** * Loading at work

    A command line, a segment and a stack on the machine of [VmDemo], and two command lines
    that the code does not handle. *)

Module LoaderDemo.
Import Palloc Pagedir PagedirProofs VmState VmFault Page Vm Mmap Loader VmInv VmUser MmapProofs LoaderProofs StackProofs VmDemo.
#[local] Existing Instance vm_demo_files.
#[local] Instance demo_lengths : LengthLaws (kst Wal.wst) := kernel_length_laws (H0 := Volume.wal_model 70).

(** "ls  -l a" *)
Definition demo_line : list Z := [108; 115; 32; 32; 45; 108; 32; 97].

Lemma parse_cmd_line_words_witness : ∃ m' offs, parse_cmd_line (demo_line ++ [0]) = Ret (m', head offs, 3, Some <$> offs) ∧
  (λ o, Strings.c_str (drop (Z.to_nat o) m')) <$> offs = [[108; 115]; [45; 108]; [97]].
Proof.
  destruct (parse_cmd_line_words demo_line ltac:(by apply (bool_decide_unpack (Strings.text demo_line)))) as (_ & H & _).
  apply H. split; [discriminate|reflexivity].
Defined.

Definition demo_phdr : Elf32_Phdr := mk_phdr 1 16 0x804a010 600 5000 6.

Lemma demo_absent v : v / 4096 ≠ 0x8048 → v / 4096 ≠ 0x8049 → sees demo_vm 0%nat v = None.
Proof.
  intros H1 H2. rewrite (sees_none demo_init_pd demo_ram demo_owners None demo_vm 0 (demo_process 0) v demo_vm_ok eq_refl).
  destruct (spt (demo_process 0) !! (v / 4096 * 4096)) as [e|] eqn:E; [|done]. apply demo_spt in E as [[E _]|[E _]]; lia.
Qed.

Lemma load_phdr_maps_witness : ∃ s', load_phdr 1 demo_phdr demo_vm = Ret (true, s') ∧
  sees s' 0%nat 0x804a011 = (b ← file_byte FsDemo.demo_kernel 1 17; Some (b, true)) ∧ sees s' 0%nat 0x804b000 = Some (0, true).
Proof.
  destruct (load_phdr_maps demo_init_pd demo_ram demo_owners demo_vm 0 (demo_process 0) 1 demo_phdr demo_vm_ok eq_refl eq_refl)
    as (len & Hlen & _ & H).
  - eexists _, FsDemo.demo_inode. split; [reflexivity|exact FsDemo.demo_inode_file].
  - unfold phdr_words; split_and!; done.
  - assert (len = 700) as ->. { apply (f_equal (fmap fst)) in Hlen. vm_compute in Hlen. by injection Hlen. }
    destruct H as (ok & s' & j & E & Hok & _ & _ & Hj & Hsee); [reflexivity|by vm_compute| |].
    + intros v Hv. change (0x804a000 ≤ v < 0x804a000 + 2 * 4096) in Hv. pose proof (Z.div_mod v 4096 ltac:(lia)).
      pose proof (Z.mod_pos_bound v 4096 ltac:(lia)). apply demo_absent; lia.
    + rewrite (Hok eq_refl) in E, Hj. rewrite (Hj eq_refl) in Hsee. exists s'. split; [exact E|]. rewrite !(Hsee 0%nat). by split.
Defined.

Lemma setup_stack_layout_witness : ∃ esp s' ptrs, setup_stack demo_init_pd demo_ram 2 [Some [108; 115]; Some [45; 108]] demo_vm = Ret (Some esp, s') ∧
  in_memory (sees s') 0 esp (words (0 :: 2 :: esp + 12 :: ptrs ++ [0])) ∧
  Forall2 (λ a arg, in_memory (sees s') 0 a (arg ++ [0])) ptrs [[108; 115]; [45; 108]].
Proof.
  destruct (setup_stack_layout demo_init_pd demo_ram demo_owners demo_vm 0 (demo_process 0) [[108; 115]; [45; 108]] demo_vm_ok eq_refl eq_refl)
    as (o & s' & E & H).
  - intros v Hv. change (0xbffff000 ≤ v < 0xbffff000 + 1 * 4096) in Hv. pose proof (Z.div_mod v 4096 ltac:(lia)).
    pose proof (Z.mod_pos_bound v 4096 ltac:(lia)). apply demo_absent; lia.
  - by vm_compute.
  - by vm_compute.
  - destruct o as [esp|]; [|by destruct (demo_not_short H)]. destruct H as (_ & _ & _ & (ptrs & H1 & H2) & _).
    exists esp, s', ptrs. split; [exact E|]. by split.
Defined.

(** What user memory holds then. *)
Example demo_stack : (λ '(rs, _), rs) <$> (setup_stack demo_init_pd demo_ram 2 [Some [108; 115]; Some [45; 108]];;
  run_ops demo_init_pd demo_ram [Load 0xbfffffe0 0; Load 0xbfffffe4 0]) demo_vm = Ret [Some 2; Some 0xe8].
Proof. vm_compute. reflexivity. Qed.

(** ** Two command lines *)

(** Of spaces only: one argument, the null pointer, whose length [setup_stack] asks for. *)
Theorem empty_command_line : (λ '(_, _, argc, argv), (argc, argv)) <$> parse_cmd_line [32; 32; 0] = Ret (1, [None]) ∧
  setup_stack demo_init_pd demo_ram 1 [None] demo_vm = UB.
Proof. split; vm_compute; reflexivity. Qed.

(** An argument of 4080 bytes, which a command line can have: the copy of the arguments does not
    fit into the one page, and writing below it is a fault that nothing handles. *)
Theorem long_command_line : setup_stack demo_init_pd demo_ram 1 [Some (replicate 4080 97)] demo_vm = UB.
Proof. vm_compute. reflexivity. Qed.
End LoaderDemo.

(** * File descriptors at work

    A process with one open file forks and closes its descriptor; the child exits. *)

Module FiledescDemo.
Import Filedesc FiledescProofs Inode.

Definition fd_kernel : kst Wal.wst := mk_kst _ (inodes FsDemo.demo_kernel) {[ 1%nat := mk_file 0 400 false 1 ]} ∅ 2 [] None.
Definition fd_table : list (option nat) := <[3%nat := Some 3%nat]> console_table.
Definition fd_consoles (n : Z) : gmap nat open_file_desc :=
  {[ 0%nat := mk_ofd FD_CONSOLE CONSOLE_READ None 0 n; 1%nat := mk_ofd FD_CONSOLE CONSOLE_WRITE None 0 n;
     2%nat := mk_ofd FD_CONSOLE CONSOLE_WRITE None 0 n ]}.
Definition fd_demo : fdst (kst Wal.wst) :=
  mk_fdst _ (<[3%nat := mk_ofd FD_FILE CONSOLE_READ (Some 1%nat) 0 1]> (fd_consoles 2)) [0; 1; 2; 3]%nat 4 {[ 0%nat := fd_table ]} fd_kernel [].
Definition fd_ops : list fdop := [Fork 0 1; Close 0 3; Exit 1].

(** The three are what [ofd_init] makes. *)
Example ofd_init_consoles (s : fdst (kst Wal.wst)) : ofds s = ∅ → (λ '(_, s'), ofds s') <$> ofd_init s = Ret (fd_consoles 1).
Proof. intros E. unfold ofd_init. cbn. by rewrite E. Qed.

Lemma fd_demo_ofd o d : ofds fd_demo !! o = Some d →
  o = 3%nat ∧ d = mk_ofd FD_FILE CONSOLE_READ (Some 1%nat) 0 1 ∨ is_console o = true ∧ ∃ c, d = mk_ofd FD_CONSOLE c None 0 2.
Proof.
  cbn. intros [[<- <-]|[_ H]]%lookup_insert_Some; [by left|right]. unfold fd_consoles in H.
  apply lookup_insert_Some in H as [[<- <-]|[_ H]]; [split; [done|by eexists]|].
  apply lookup_insert_Some in H as [[<- <-]|[_ H]]; [split; [done|by eexists]|].
  apply lookup_singleton_Some in H as [<- <-]. split; [done|by eexists].
Qed.

Lemma fd_demo_slot p t : tables fd_demo !! p = Some t → p = 0%nat ∧ t = fd_table.
Proof. cbn. by intros [<- <-]%lookup_singleton_Some. Qed.

Lemma fd_kernel_ok : kernel_fs_ok fd_kernel.
Proof.
  intros q Hq. destruct (decide (q = 0%nat)) as [->|Hne]; [eexists; split; [reflexivity|]; split; [done|by vm_compute]|].
  exfalso. revert Hq. unfold on_inode, fd_kernel. cbn [files dirs].
  assert (filter (λ x : nat * File.file, f_inode x.2 = q) ({[1%nat := mk_file 0 400 false 1]} : gmap nat File.file) = ∅) as ->.
  { apply map_empty. intros i. apply map_lookup_filter_None. right. intros f [<- <-]%lookup_singleton_Some. cbn. congruence. }
  rewrite map_filter_empty, !map_size_empty. lia.
Qed.

Lemma fd_demo_ok : fd_ok fd_demo.
Proof.
  constructor.
  - exact fd_kernel_ok.
  - intros o Ho. unfold is_console in Ho. apply bool_decide_eq_true_1 in Ho as [->|[->| ->]]; by eexists.
  - intros o d Hd Ho. apply fd_demo_ofd in Hd as [[-> ->]|[? _]]; [|congruence]. split; [by vm_compute|]. split; [by vm_compute|].
    exists 1%nat. split; [done|]. split; [by left|]. by exists (mk_file 0 400 false 1).
  - intros o o' d d' Hd Hd' Ho Ho' _ _. apply fd_demo_ofd in Hd as [[-> _]|[? _]]; [|congruence].
    apply fd_demo_ofd in Hd' as [[-> _]|[? _]]; [done|congruence].
  - intros p t fd o Ht Hi. apply fd_demo_slot in Ht as [-> ->]. unfold fd_table in Hi.
    apply list_lookup_insert_Some in Hi as [(_ & [= <-] & _)|[_ Hi]]; [by eexists|]. apply console_slot in Hi.
    unfold is_console in Hi. apply bool_decide_eq_true_1 in Hi as [->|[->| ->]]; by eexists.
  - intros p t Ht. by apply fd_demo_slot in Ht as [-> ->].
  - by apply (bool_decide_unpack (NoDup [0; 1; 2; 3]%nat)).
  - intros o. change (ofd_list fd_demo) with [0; 1; 2; 3]%nat. split.
    + intros Ho. rewrite !elem_of_cons in Ho. destruct Ho as [->|[->|[->|[->|Ho]]]]; [by eexists..|by apply not_elem_of_nil in Ho].
    + intros [d [[-> _]|[Ho _]]%fd_demo_ofd]; [by apply (bool_decide_unpack (3 ∈ [0; 1; 2; 3])%nat)|].
      unfold is_console in Ho. apply bool_decide_eq_true_1 in Ho as [->|[->| ->]]; [left|right; left|right; right; left].
  - intros o [d [[-> _]|[Ho _]]%fd_demo_ofd]; [cbn; lia|].
    unfold is_console in Ho. apply bool_decide_eq_true_1 in Ho as [->|[->| ->]]; cbn; lia.
Qed.

Lemma fd_ops_ok : ops_ok (dom (tables fd_demo)) fd_ops.
Proof. cbn. set_solver. Qed.

Lemma fd_demo_opened : opened (fd_fs fd_demo) FD_FILE 1.
Proof. by exists (mk_file 0 400 false 1). Qed.
Lemma fd_demo_denotes : denotes fd_demo 0 3 FD_FILE 1.
Proof. by exists fd_table, 3%nat, (mk_ofd FD_FILE CONSOLE_READ (Some 1%nat) 0 1). Qed.

(** The file is closed by the exit of the child. *)
Lemma descriptors_keep_files_open_witness : ∃ s', exec_ops fd_ops fd_demo = Ret (tt, s') ∧
  opened (fd_fs fd_demo) FD_FILE 1 ∧ (opened (fd_fs s') FD_FILE 1 ↔ ∃ p fd, denotes s' p fd FD_FILE 1).
Proof.
  destruct (descriptors_keep_files_open fd_demo fd_ops fd_demo_ok fd_ops_ok) as (s' & E & _ & H & _).
  exists s'. split; [exact E|]. split; [exact fd_demo_opened|]. apply H.
  exists 0%nat, 3%nat. exact fd_demo_denotes.
Defined.

Lemma fork_shares_files_witness : ∃ s', fork_fds 0 1 fd_demo = Ret (tt, s') ∧ denotes s' 1 3 FD_FILE 1.
Proof.
  destruct (fork_shares_files fd_demo 0 1 fd_table fd_demo_ok eq_refl eq_refl) as (s' & E & _ & _ & H & _).
  exists s'. split; [exact E|]. apply H. exact fd_demo_denotes.
Defined.

Example fd_demo_runs : (λ '(_, s'), (files (fd_fs s'), ref_count <$> ofds s' !! 0%nat, ofd_list s')) <$> exec_ops fd_ops fd_demo =
  Ret (∅, Some 2, [0; 1; 2]%nat).
Proof. vm_compute. reflexivity. Qed.
End FiledescDemo.

(** * Processes on concrete schedules

    A parent that executes a child and waits for its exit code, and the schedule in which a
    child touches the freed PCB of its parent. *)

Module ProcessDemo.
Import Process ProcessProofs ProcessSafety.

(** A step of a thread that is in the kernel: the call does not matter. *)
Definition go (t : nat) : nat * call := (t, Wait 0).

(** Process 0 executes process 1, which exits with 7 while process 0 waits for it; a second
    [wait] gives -1. *)
Definition exec_and_wait : list (nat * call) :=
  [(0%nat, Exec true true true true); go 1; go 0; (0%nat, Wait 1); (1%nat, Exit 7); go 1; go 0; go 1; go 0; go 1; go 1; go 0;
   (0%nat, Wait 1)].

(** A schedule that stops before the child is told to load. *)
Definition half_way : list (nat * call) := [(0%nat, Exec true true true true)].

(** Process 1 executes process 2 and waits for it: 2 exits, 1 gets the exit code and exits too,
    all before 2 takes its status out of the list of 1. *)
Definition orphan_schedule : list (nat * call) :=
  [(0%nat, Exec true true true true); go 1; go 0; (1%nat, Exec true true true true); go 2; go 1;
   (1%nat, Wait 2); (2%nat, Exit 5); go 2; go 1; go 1; (1%nat, Exit 0); go 1; go 1; go 1; go 2].

(** The state after a schedule that does not go wrong. *)
Definition after_run (l : list (nat * call)) : sys := match run l init with Ret (_, s) => s | _ => init end.

Lemma exec_and_wait_trace : trace (after_run exec_and_wait) =
  [WaitReturned 0 1 (-1); WaitReturned 0 1 7; Exited 1 7; Spawned 0 1].
Proof. vm_compute. reflexivity. Qed.

Lemma orphan_schedule_wrong : run orphan_schedule init ≠ UB ∧ run (orphan_schedule ++ [go 2]) init = UB.
Proof. split; vm_compute; [discriminate|reflexivity]. Qed.

(** A [thread_create] that fails leaves its caller at [sema_down] for ever. *)
Lemma failed_thread_create_blocks c : step 0 c (after_run [(0%nat, Exec true true false true)]) = Blocked.
Proof. destruct c; vm_compute; reflexivity. Qed.

(** A status that no call of [process_wait] took stays allocated when parent and child are gone. *)
Lemma unwaited_status_stays : statuses (after_run
  [(0%nat, Exec true true true true); go 1; go 0; (1%nat, Exec true true true true); go 2; go 1;
   (2%nat, Exit 5); go 2; go 2; go 2; (1%nat, Exit 0); go 1; go 1; go 1]) !! 1%nat = Some (mk_status 2 5 false 1 1).
Proof. vm_compute. reflexivity. Qed.

Lemma all_allowed : Forall allowed exec_and_wait ∧ Forall allowed half_way ∧ Forall allowed orphan_schedule.
Proof. by repeat (constructor || done). Qed.


Lemma wait_returns_exit_code_witness : ∃ c, 1 = Z.of_nat c ∧ Exited c 7 ∈ trace (after_run exec_and_wait) ∧
  Spawned 0 1 ∈ trace (after_run exec_and_wait).
Proof.
  destruct (wait_returns_exit_code exec_and_wait (after_run exec_and_wait)) as [H _]; [apply all_allowed|vm_compute; reflexivity|].
  destruct (H 0%nat 1 7) as [?|(c & ? & ? & ? & _)]; [rewrite exec_and_wait_trace; right; by left|done|by exists c].
Defined.

Lemma no_deadlock_witness : ∃ u, rtc (waits_for (after_run half_way)) 0%nat u ∧
  (place_of (after_run half_way) u = Loading None 0 false ∨ ∀ c, allowed (u, c) → step u c (after_run half_way) ≠ Blocked).
Proof. apply (no_deadlock half_way); [apply all_allowed|vm_compute; reflexivity|vm_compute; discriminate]. Defined.
End ProcessDemo.
