(* ===== verification/Disks.v ===== *)
(** * Disk arrays and partitions: [devices/raid.c] and [devices/partition.c]

    Both sit on the devices of [Block].  The theorem on an array is that it is one disk: a write
    changes one sector of what reads see, whatever the level, and keeps the redundancy that the
    level promises. *)

From Stdlib Require Import Btauto.
From stdpp Require Import base tactics numbers list list_numbers option.
From S2P Require Import Prelude State Block.

Open Scope Z_scope.

(** ** [devices/raid.c] *)

Module Raid.
Import Block.

Inductive raid_level := RAID_LEVEL_0 | RAID_LEVEL_1 | RAID_LEVEL_5.
#[global] Instance raid_level_eq_dec : EqDecision raid_level.
Proof. solve_decision. Defined.
Definition RAID_MAX_DISKS : Z := 4.

Record raid_config := mk_raid { level : raid_level; disks : list block; stripe_size : Z; total_sectors : Z }.

(** The state is [raid_device] with the disks it points to. *)
Abbreviation R := (st (option raid_config)).

Definition num_disks (r : raid_config) : Z := Z.of_nat (length (disks r)).
Definition set_disks (r : raid_config) (l : list block) : raid_config := mk_raid (level r) l (stripe_size r) (total_sectors r).
Definition raid_device : R raid_config := λ o, match o with Some r => Ret (r, o) | None => Panic end.

(** *** [raid_init] *)

(** [disk] is what [block_get_by_name] returned. *)
Definition usable (disk : option block) : option block :=
  match disk with Some b => if decide (type b = BLOCK_RAW) then Some b else None | None => None end.

Definition min_disk_sectors (l : list block) : Z :=
  match l with [] => 0 | b :: l => foldl (λ m b, if block_size b <? m then block_size b else m) (block_size b) l end.

Definition capacity (lv : raid_level) (l : list block) : Z :=
  let n := Z.of_nat (length l) in
  match lv with
  | RAID_LEVEL_0 => u32 (n * min_disk_sectors l)
  | RAID_LEVEL_1 => min_disk_sectors l
  | RAID_LEVEL_5 => u32 ((n - 1) * min_disk_sectors l)
  end.

(** [found] are the disks named hdb, hdc, hdd and hde. *)
Definition raid_init (malloc_ok : bool) (lv : raid_level) (stripe : Z) (found : list (option block)) : R unit :=
  if negb malloc_ok then lift Panic else
  let l := omap usable found in
  if Z.of_nat (length l) <? 2 then lift Panic else
  if bool_decide (lv = RAID_LEVEL_5) && (Z.of_nat (length l) <? 3) then lift Panic else
  put (Some (mk_raid lv l (if 0 <? stripe then stripe else 1) (capacity lv l))).

(** *** Where a sector is *)

Definition raid0_disk_for_sector (r : raid_config) (sector : Z) : Z := (sector / stripe_size r) mod num_disks r.
Definition raid0_physical_sector (r : raid_config) (sector : Z) : Z :=
  let stripe_round := sector / stripe_size r / num_disks r in
  let offset := sector mod stripe_size r in
  u32 (stripe_round * stripe_size r + offset).

Definition raid5_parity_disk (r : raid_config) (stripe : Z) : Z := u32 (num_disks r - 1 - stripe mod num_disks r).

(** The loop, with [n] disks left. *)
Fixpoint data_disk_loop (n : nat) (d cnt parity_disk pos_in_stripe : Z) : Z :=
  match n with
  | O => 0
  | S n =>
      if d =? parity_disk then data_disk_loop n (d + 1) cnt parity_disk pos_in_stripe
      else if cnt =? pos_in_stripe then d
      else data_disk_loop n (d + 1) (cnt + 1) parity_disk pos_in_stripe
  end.
Definition raid5_data_disk (r : raid_config) (sector : Z) : Z :=
  let stripe := sector / (num_disks r - 1) in
  let pos_in_stripe := sector mod (num_disks r - 1) in
  data_disk_loop (length (disks r)) 0 0 (raid5_parity_disk r stripe) pos_in_stripe.
Definition raid5_physical_sector (r : raid_config) (sector : Z) : Z := sector / (num_disks r - 1).

(** *** Reads and writes *)

Definition xor_bytes (a b : list Z) : list Z := zip_with Z.lxor a b.
Definition raid5_compute_parity (data : list (list Z)) : list Z := foldl xor_bytes (replicate 512 0) data.

Definition disk_read (disk sector : Z) : R (list Z) :=
  r ← raid_device;
  b ← lift (array_get (disks r) disk);
  '(buffer, b) ← lift (block_read b sector);
  l ← lift (array_set (disks r) disk b);
  put (Some (set_disks r l));;
  mret buffer.

Definition disk_write (disk sector : Z) (buffer : list Z) : R unit :=
  r ← raid_device;
  b ← lift (array_get (disks r) disk);
  b ← lift (block_write b sector buffer);
  l ← lift (array_set (disks r) disk b);
  put (Some (set_disks r l)).

Definition raid_read (sector : Z) : R (list Z) :=
  r ← raid_device;
  lift (ASSERT (sector <? total_sectors r));;
  match level r with
  | RAID_LEVEL_0 => disk_read (raid0_disk_for_sector r sector) (raid0_physical_sector r sector)
  | RAID_LEVEL_1 => disk_read 0 sector
  | RAID_LEVEL_5 => disk_read (raid5_data_disk r sector) (raid5_physical_sector r sector)
  end.

(** The mirrors from [i] on. *)
Fixpoint write_mirrors (n : nat) (i sector : Z) (buffer : list Z) : R unit :=
  match n with O => mret tt | S n => disk_write i sector buffer;; write_mirrors n (i + 1) sector buffer end.

Definition raid_write (sector : Z) (buffer : list Z) : R unit :=
  r ← raid_device;
  lift (ASSERT (sector <? total_sectors r));;
  match level r with
  | RAID_LEVEL_0 => disk_write (raid0_disk_for_sector r sector) (raid0_physical_sector r sector) buffer
  | RAID_LEVEL_1 => write_mirrors (length (disks r)) 0 sector buffer
  | RAID_LEVEL_5 =>
      let data_disk := raid5_data_disk r sector in
      let parity_disk := raid5_parity_disk r (sector / (num_disks r - 1)) in
      let phys := raid5_physical_sector r sector in
      old_data ← disk_read data_disk phys;
      old_parity ← disk_read parity_disk phys;
      let new_parity := xor_bytes (xor_bytes old_parity old_data) buffer in
      disk_write data_disk phys buffer;;
      disk_write parity_disk phys new_parity
  end.

Definition raid_size : R Z := λ o, Ret (match o with Some r => total_sectors r | None => 0 end, o).
Definition raid_is_initialized (o : option raid_config) : bool := bool_decide (is_Some o).

(** ** What an array holds *)

(** Sector [k] of every disk. *)
Definition row (r : raid_config) (k : Z) : list (list Z) := (λ b, sector_of b k) <$> disks r.

(** The disk and the sector on it that [raid_read] reads. *)
Definition location (r : raid_config) (sector : Z) : Z * Z :=
  match level r with
  | RAID_LEVEL_0 => (raid0_disk_for_sector r sector, raid0_physical_sector r sector)
  | RAID_LEVEL_1 => (0, sector)
  | RAID_LEVEL_5 => (raid5_data_disk r sector, raid5_physical_sector r sector)
  end.
Definition contents (r : raid_config) (sector : Z) : list Z :=
  row r (snd (location r sector)) !!! Z.to_nat (fst (location r sector)).

(** An array as [raid_init] makes it, on disks whose size is a multiple of the stripe. *)
Record raid_ok (r : raid_config) : Prop := mk_raid_ok {
  ro_disks : Forall wf (disks r);
  ro_count : 2 ≤ num_disks r ≤ 4 ∧ (level r = RAID_LEVEL_5 → 3 ≤ num_disks r);
  ro_range : num_disks r * min_disk_sectors (disks r) < 2 ^ 32;
  ro_total : total_sectors r = capacity (level r) (disks r);
  ro_stripe : level r = RAID_LEVEL_0 → 0 < stripe_size r ∧ (stripe_size r | min_disk_sectors (disks r)) }.

(** What the level promises about a lost disk: every mirror has its sectors, or they are the parity
    of the others'. *)
Definition redundant (r : raid_config) : Prop := ∀ k, 0 ≤ k < min_disk_sectors (disks r) →
  match level r with
  | RAID_LEVEL_0 => True
  | RAID_LEVEL_1 => ∀ d d', d ∈ row r k → d' ∈ row r k → d = d'
  | RAID_LEVEL_5 => ∀ i, (i < length (row r k))%nat → raid5_compute_parity (delete i (row r k)) = row r k !!! i
  end.

(** ** One disk of the array *)

Lemma min_disk_sectors_sizes l : min_disk_sectors l =
  match block_size <$> l with [] => 0 | m :: ms => foldl (λ m x, if x <? m then x else m) m ms end.
Proof. destruct l as [|b l]; [done|]. cbn. generalize (block_size b). induction l as [|c l IH]; intros m; [done|]. cbn. apply IH. Qed.

Lemma min_disk_sectors_le l b : b ∈ l → min_disk_sectors l ≤ block_size b.
Proof.
  assert (∀ l m, foldl (λ m b, if block_size b <? m then block_size b else m) m l ≤ m ∧
    ∀ b, b ∈ l → foldl (λ m b, if block_size b <? m then block_size b else m) m l ≤ block_size b) as H.
  { clear l b. intros l. induction l as [|b l IH]; intros m; [split; [cbn; lia|intros b H; by apply not_elem_of_nil in H]|].
    cbn. destruct (IH (if block_size b <? m then block_size b else m)) as [H1 H2]. destruct (Z.ltb_spec (block_size b) m);
      (split; [lia|]; intros c [->|Hc]%elem_of_cons; [lia|by apply H2]). }
  destruct l as [|a l]; intros Hb; [by apply not_elem_of_nil in Hb|]. cbn. destruct (H l (block_size a)) as [H1 H2].
  apply elem_of_cons in Hb as [->|Hb]; [done|by apply H2].
Qed.

(** [r'] is the array [r] but for the contents of its disks. *)
Record like (r r' : raid_config) : Prop := mk_like {
  lk_level : level r' = level r;
  lk_stripe : stripe_size r' = stripe_size r;
  lk_total : total_sectors r' = total_sectors r;
  lk_sizes : block_size <$> disks r' = block_size <$> disks r;
  lk_wf : Forall wf (disks r') }.

Lemma like_count r r' : like r r' → length (disks r') = length (disks r).
Proof. intros H. rewrite <- (length_fmap block_size (disks r')), (lk_sizes _ _ H). apply length_fmap. Qed.
Lemma like_num r r' : like r r' → num_disks r' = num_disks r.
Proof. intros H. unfold num_disks. by rewrite (like_count r r'). Qed.
Lemma like_min r r' : like r r' → min_disk_sectors (disks r') = min_disk_sectors (disks r).
Proof. intros H. by rewrite !min_disk_sectors_sizes, (lk_sizes _ _ H). Qed.
Lemma like_trans r1 r2 r3 : like r1 r2 → like r2 r3 → like r1 r3.
Proof. intros [] []. constructor; congruence || done. Qed.
Lemma like_location r r' s : like r r' → location r' s = location r s.
Proof.
  intros H. unfold location, raid5_data_disk, raid5_physical_sector, raid5_parity_disk, raid0_disk_for_sector, raid0_physical_sector.
  by rewrite (lk_level _ _ H), (lk_stripe _ _ H), (like_num _ _ H), (like_count _ _ H).
Qed.
Lemma like_ok r r' : raid_ok r → like r r' → raid_ok r'.
Proof.
  intros [] H. constructor; rewrite ?(like_num _ _ H), ?(like_min _ _ H), ?(lk_level _ _ H), ?(lk_stripe _ _ H); [apply H|done|done| |done].
  rewrite (lk_total _ _ H), ro_total0. unfold capacity. by rewrite (like_count _ _ H), (like_min _ _ H).
Qed.

Lemma disk_wf l b : Forall wf l → b ∈ l → wf b.
Proof. intros H [i Hi]%list_elem_of_lookup. by apply (Forall_lookup_1 _ _ _ _ H Hi). Qed.

Lemma length_row r k : length (row r k) = length (disks r).
Proof. apply length_fmap. Qed.

Lemma row_sector r k d : Forall wf (disks r) → 0 ≤ k < min_disk_sectors (disks r) → d ∈ row r k → length d = 512%nat.
Proof.
  intros Hw Hk (b & -> & Hb)%list_elem_of_fmap. pose proof (min_disk_sectors_le _ _ Hb). apply sector_length; [lia|].
  by apply (disk_wf (disks r)).
Qed.

(** Access to disk [i], whose new state is [b']. *)
Lemma set_disk_like r i b b' : Forall wf (disks r) → disks r !! i = Some b → wf b' → block_size b' = block_size b →
  like r (set_disks r (<[i := b']> (disks r))).
Proof.
  intros Hw Hb Hb' Hs. constructor; [done|done|done| |by apply Forall_insert]. cbn. rewrite list_fmap_insert, Hs.
  apply list_insert_id. by rewrite list_lookup_fmap, Hb.
Qed.

Lemma lift_run {S A B} (m : outcome A) (f : A → st S B) s a : m = Ret a → (lift m ≫= f) s = f a s.
Proof. intros ->. done. Qed.

Lemma raid_device_run r : raid_device (Some r) = Ret (r, Some r).
Proof. done. Qed.

Lemma disk_of_run {S B} r i b (f : block → st S B) s : disks r !! i = Some b → (lift (array_get (disks r) (Z.of_nat i)) ≫= f) s = f b s.
Proof. intros Hb. apply lift_run, array_get_Ret. split; [lia|by rewrite Nat2Z.id]. Qed.

Lemma disk_set_run {S B} r i b (f : list block → st S B) s : (i < length (disks r))%nat →
  (lift (array_set (disks r) (Z.of_nat i) b) ≫= f) s = f (<[i := b]> (disks r)) s.
Proof. intros Hi. apply lift_run. rewrite array_set_in by lia. by rewrite Nat2Z.id. Qed.

Lemma disk_read_run r i k : Forall wf (disks r) → (i < length (disks r))%nat → 0 ≤ k < min_disk_sectors (disks r) →
  ∃ r', disk_read (Z.of_nat i) k (Some r) = Ret (row r k !!! i, Some r') ∧ like r r' ∧ ∀ k, row r' k = row r k.
Proof.
  intros Hw Hi Hk. destruct (lookup_lt_is_Some_2 _ _ Hi) as [b Hb]. pose proof (list_elem_of_lookup_2 _ _ _ Hb) as Hin.
  pose proof (min_disk_sectors_le _ _ Hin). pose proof (disk_wf _ _ Hw Hin) as [Hwt Hwl].
  destruct (block_read_spec b k ltac:(lia)) as (b' & E & Es & Et). exists (set_disks r (<[i := b']> (disks r))). split; [|split].
  - unfold disk_read. rewrite (st_bind_run _ _ _ _ _ (raid_device_run r)), (disk_of_run _ _ _ _ _ Hb), (lift_run _ _ _ _ E).
    cbn beta iota. rewrite (disk_set_run r _ _ _ _ Hi). rewrite (list_lookup_total_correct (row r k) i (sector_of b k)); [done|]. unfold row. by rewrite list_lookup_fmap, Hb.
  - apply (set_disk_like r i b); [done|done| |unfold block_size; by rewrite Es]. unfold wf. by rewrite Es, Et.
  - intros k'. unfold row. cbn. rewrite list_fmap_insert. apply list_insert_id. rewrite list_lookup_fmap, Hb. cbn.
    unfold sector_of. by rewrite Es.
Qed.

Lemma disk_write_run r i k d : Forall wf (disks r) → (i < length (disks r))%nat → 0 ≤ k < min_disk_sectors (disks r) → length d = 512%nat →
  ∃ r', disk_write (Z.of_nat i) k d (Some r) = Ret (tt, Some r') ∧ like r r' ∧
    ∀ k', 0 ≤ k' → row r' k' = if k' =? k then <[i := d]> (row r k) else row r k'.
Proof.
  intros Hw Hi Hk Hd. destruct (lookup_lt_is_Some_2 _ _ Hi) as [b Hb]. pose proof (list_elem_of_lookup_2 _ _ _ Hb) as Hin.
  pose proof (min_disk_sectors_le _ _ Hin). pose proof (disk_wf _ _ Hw Hin) as Hwb.
  destruct (block_write_spec b k ltac:(lia) d Hwb Hd) as (b' & E & Hwb' & Hs & Hc). exists (set_disks r (<[i := b']> (disks r))). split; [|split].
  - unfold disk_write. rewrite (st_bind_run _ _ _ _ _ (raid_device_run r)), (disk_of_run _ _ _ _ _ Hb), (lift_run _ _ _ _ E). by rewrite (disk_set_run r _ _ _ _ Hi).
  - by apply (set_disk_like r i b).
  - intros k' Hk'. unfold row. cbn. rewrite list_fmap_insert, Hc by done. destruct (Z.eqb_spec k' k) as [->|]; [done|].
    apply list_insert_id. by rewrite list_lookup_fmap, Hb.
Qed.

(** ** Parity *)

Definition bytes_at (j : nat) (l : list (list Z)) : Z := foldr Z.lxor 0 ((λ d, d !!! j) <$> l).
Definition full (l : list (list Z)) : Prop := Forall (λ d, length d = 512%nat) l.

Lemma xor_bytes_length a b : length a = 512%nat → length b = 512%nat → length (xor_bytes a b) = 512%nat.
Proof. intros. unfold xor_bytes. rewrite length_zip_with. lia. Qed.

Lemma xor_bytes_at a b j : length a = 512%nat → length b = 512%nat → (j < 512)%nat → xor_bytes a b !!! j = Z.lxor (a !!! j) (b !!! j).
Proof.
  intros Ha Hb Hj. destruct (lookup_lt_is_Some_2 a j) as [x Hx]; [lia|]. destruct (lookup_lt_is_Some_2 b j) as [y Hy]; [lia|].
  rewrite (list_lookup_total_correct _ _ _ Hx), (list_lookup_total_correct _ _ _ Hy). apply list_lookup_total_correct.
  unfold xor_bytes. rewrite lookup_zip_with, Hx. cbn. by rewrite Hy.
Qed.

Lemma parity_bytes l : full l → length (raid5_compute_parity l) = 512%nat ∧
  ∀ j, (j < 512)%nat → raid5_compute_parity l !!! j = bytes_at j l.
Proof.
  unfold raid5_compute_parity. assert (∀ l a, full l → length a = 512%nat → length (foldl xor_bytes a l) = 512%nat ∧
    ∀ j, (j < 512)%nat → foldl xor_bytes a l !!! j = Z.lxor (a !!! j) (bytes_at j l)) as H.
  { clear l. induction l as [|d l IH]; intros a Hl Ha; [split; [done|]; intros; unfold bytes_at; cbn; by rewrite Z.lxor_0_r|].
    pose proof (Forall_inv Hl) as Hd. apply Forall_inv_tail in Hl. destruct (IH (xor_bytes a d) Hl) as [H1 H2]; [by apply xor_bytes_length|]. cbn [foldl]. split; [done|].
    intros j Hj. rewrite (H2 j), xor_bytes_at by done. unfold bytes_at. cbn. by rewrite Z.lxor_assoc. }
  intros Hl. destruct (H l (replicate 512 0) Hl (length_replicate _ _)) as [H1 H2]. split; [done|].
  intros j Hj. rewrite H2, lookup_total_replicate_2 by done. apply Z.lxor_0_l.
Qed.

Lemma sectors_eq (a b : list Z) : length a = 512%nat → length b = 512%nat → (∀ j, (j < 512)%nat → a !!! j = b !!! j) → a = b.
Proof.
  intros Ha Hb H. apply (list_eq_same_length _ _ 512); [done|done|]. intros j x y Hj Hx Hy.
  pose proof (H j Hj) as E. by rewrite (list_lookup_total_correct _ _ _ Hx), (list_lookup_total_correct _ _ _ Hy) in E.
Qed.

Lemma xor_self_zero a b : a = Z.lxor b a → b = 0.
Proof.
  intros H. apply Z.bits_inj'. intros n Hn. apply (f_equal (λ x, Z.testbit x n)) in H. rewrite Z.lxor_spec in H.
  rewrite Z.bits_0. destruct (Z.testbit a n), (Z.testbit b n); done.
Qed.

Lemma bytes_insert j l i d : (i < length l)%nat → bytes_at j (<[i := d]> l) = Z.lxor (bytes_at j l) (Z.lxor ((l !!! i) !!! j) (d !!! j)).
Proof.
  revert i. induction l as [|a l IH]; intros i Hi; [cbn in Hi; lia|]. destruct i as [|i].
  - cbn. rewrite (Z.lxor_comm (a !!! j)), Z.lxor_assoc, <- (Z.lxor_assoc (foldr _ _ _)), (Z.lxor_comm (foldr _ _ _)), Z.lxor_assoc.
    rewrite <- !Z.lxor_assoc, (Z.lxor_comm _ (a !!! j)). by rewrite <- !Z.lxor_assoc, Z.lxor_nilpotent, Z.lxor_0_l, Z.lxor_comm.
  - unfold bytes_at in *. cbn. rewrite IH by (cbn in Hi; lia). by rewrite Z.lxor_assoc.
Qed.

Lemma bytes_delete j l i : (i < length l)%nat → bytes_at j (delete i l) = Z.lxor (bytes_at j l) ((l !!! i) !!! j).
Proof.
  revert i. induction l as [|a l IH]; intros i Hi; [cbn in Hi; lia|]. destruct i as [|i].
  - unfold bytes_at. cbn. by rewrite Z.lxor_comm, <- Z.lxor_assoc, Z.lxor_nilpotent, Z.lxor_0_l.
  - unfold bytes_at in *. cbn. rewrite IH by (cbn in Hi; lia). by rewrite Z.lxor_assoc.
Qed.

(** The parity of the others is the lost sector if the parity of all is zero. *)
Lemma recoverable l : full l → (1 < length l)%nat →
  (∀ i, (i < length l)%nat → raid5_compute_parity (delete i l) = l !!! i) ↔ ∀ j, (j < 512)%nat → bytes_at j l = 0.
Proof.
  intros Hl Hn. assert (∀ i, (i < length l)%nat → full (delete i l) ∧ length (l !!! i) = 512%nat) as Hf.
  { intros i Hi. split; [by apply Forall_delete|]. destruct (lookup_lt_is_Some_2 l i Hi) as [d Hd].
    rewrite (list_lookup_total_correct _ _ _ Hd). by apply (Forall_lookup_1 _ _ _ _ Hl Hd). }
  split.
  - intros H j Hj. destruct (Hf 0%nat ltac:(lia)) as [H1 H2]. destruct (parity_bytes _ H1) as [_ H3].
    pose proof (H3 j Hj) as E. rewrite (H 0%nat), bytes_delete in E by lia. by apply (xor_self_zero (l !!! 0%nat !!! j)).
  - intros H i Hi. destruct (Hf i Hi) as [H1 H2]. destruct (parity_bytes _ H1) as [H3 H4]. apply sectors_eq; [done|done|].
    intros j Hj. rewrite H4, bytes_delete, H by done. apply Z.lxor_0_l.
Qed.

(** The parity that a write computes keeps the parity of the row. *)
Lemma parity_update l i p d j : full l → (i < length l)%nat → (p < length l)%nat → i ≠ p → length d = 512%nat → (j < 512)%nat →
  bytes_at j (<[p := xor_bytes (xor_bytes (l !!! p) (l !!! i)) d]> (<[i := d]> l)) = bytes_at j l.
Proof.
  intros Hl Hi Hp Hne Hd Hj. assert (∀ i, (i < length l)%nat → length (l !!! i) = 512%nat) as Hf.
  { intros m Hm. destruct (lookup_lt_is_Some_2 l m Hm) as [e He]. rewrite (list_lookup_total_correct _ _ _ He). by apply (Forall_lookup_1 _ _ _ _ Hl He). }
  rewrite bytes_insert by (rewrite length_insert; done). rewrite bytes_insert by done. rewrite list_lookup_total_insert_ne by done.
  rewrite !xor_bytes_at by (try apply xor_bytes_length; auto). apply Z.bits_inj'. intros n Hn. rewrite !Z.lxor_spec. btauto.
Qed.

(** ** Addresses *)

Lemma u32_fits x : 0 ≤ x < 2 ^ 32 → u32 x = x.
Proof. apply Z.mod_small. Qed.

Lemma euclid_unique a q q' x x' : 0 ≤ x < a → 0 ≤ x' < a → q * a + x = q' * a + x' → q = q' ∧ x = x'.
Proof. intros. assert (q = q') by nia. subst. lia. Qed.

Lemma data_disk_loop_run n d cnt p pos : cnt = (if p <? d then d - 1 else d) → cnt ≤ pos → pos + 1 < d + Z.of_nat n →
  data_disk_loop n d cnt p pos = if pos <? p then pos else pos + 1.
Proof.
  revert d cnt. induction n as [|n IH]; intros d cnt Hc Hp Hn; [destruct (Z.ltb_spec p d); lia|]. cbn [data_disk_loop].
  destruct (Z.eqb_spec d p) as [->|Hd].
  - rewrite Z.ltb_irrefl in Hc. apply IH; [|lia|lia]. rewrite (proj2 (Z.ltb_lt p (p + 1))) by lia. lia.
  - destruct (Z.eqb_spec cnt pos) as [<-|Hne].
    + destruct (Z.ltb_spec p d), (Z.ltb_spec cnt p); lia.
    + apply IH; [|lia|lia]. destruct (Z.ltb_spec p d), (Z.ltb_spec p (d + 1)); lia.
Qed.

Lemma min_disk_sectors_nonneg l : 0 ≤ min_disk_sectors l.
Proof.
  destruct l as [|b l]; [done|]. cbn. assert (0 ≤ block_size b) as H by (unfold block_size; lia). revert H. generalize (block_size b).
  induction l as [|c l IH]; intros x Hx; [done|]. cbn. apply IH. case_match; [unfold block_size; lia|done].
Qed.

Section addresses.
Context (r : raid_config) (Hr : raid_ok r).

Local Abbreviation n := (num_disks r).
Local Abbreviation m := (min_disk_sectors (disks r)).

Lemma total_small : 0 ≤ total_sectors r ∧ total_sectors r = match level r with
  | RAID_LEVEL_0 => n * m | RAID_LEVEL_1 => m | RAID_LEVEL_5 => (n - 1) * m end.
Proof using All.
  pose proof Hr as [_ [Hn _] Hlt Ht _]. pose proof (min_disk_sectors_nonneg (disks r)). rewrite Ht. unfold capacity. fold n.
  destruct (level r); [rewrite u32_fits by nia; nia|done|rewrite u32_fits by nia; nia].
Qed.

Lemma raid5_parity s : raid5_parity_disk r s = n - 1 - s mod n ∧ 0 ≤ raid5_parity_disk r s < n.
Proof using All.
  pose proof Hr as [_ [Hn _] _ _ _]. unfold raid5_parity_disk. pose proof (Z.mod_pos_bound s n ltac:(lia)).
  rewrite u32_fits by lia. lia.
Qed.

Lemma raid5_data s : level r = RAID_LEVEL_5 → raid5_data_disk r s =
  let pos := s mod (n - 1) in if pos <? raid5_parity_disk r (s / (n - 1)) then pos else pos + 1.
Proof using All.
  intros Hl. pose proof Hr as [_ [Hn Hn5] _ _ _]. specialize (Hn5 Hl). pose proof (Z.mod_pos_bound s (n - 1) ltac:(lia)) as Hm.
  destruct (raid5_parity (s / (n - 1))) as [_ Hp]. unfold raid5_data_disk. apply data_disk_loop_run; [|lia|unfold num_disks in *; lia].
  by rewrite (proj2 (Z.ltb_ge _ 0)) by lia.
Qed.

Lemma location_range s : 0 ≤ s < total_sectors r → 0 ≤ fst (location r s) < n ∧ 0 ≤ snd (location r s) < m.
Proof using All.
  destruct total_small as [_ Ht]. pose proof Hr as [_ [Hn Hn5] Hlt _ Hs]. rewrite Ht. unfold location. intros Hb. destruct (level r) eqn:El; cbn [fst snd].
  - destruct (Hs eq_refl) as [Hpos [k Hk]]. unfold raid0_disk_for_sector, raid0_physical_sector.
    split; [apply Z.mod_pos_bound; lia|]. pose proof (Z.mod_pos_bound s (stripe_size r) Hpos). pose proof (Z.div_mod s (stripe_size r) ltac:(lia)).
    pose proof (Z.div_mod (s / stripe_size r) n ltac:(lia)). pose proof (Z.mod_pos_bound (s / stripe_size r) n ltac:(lia)).
    set (q := s / stripe_size r / n) in *. assert (0 ≤ q) by (apply Z.div_pos; [apply Z.div_pos; lia|lia]).
    assert (q * n * stripe_size r ≤ s) by nia.
    assert (q < k) by (apply (Z.mul_lt_mono_pos_r (n * stripe_size r)); nia).
    assert (0 ≤ q * stripe_size r + s mod stripe_size r < m) by (rewrite Hk; nia). rewrite u32_fits by nia. done.
  - lia.
  - specialize (Hn5 eq_refl). rewrite (raid5_data s El). cbn zeta. destruct (raid5_parity (s / (n - 1))) as [_ Hp].
    pose proof (Z.mod_pos_bound s (n - 1) ltac:(lia)). unfold raid5_physical_sector. split; [case_match; lia|].
    split; [apply Z.div_pos; lia|apply Z.div_lt_upper_bound; lia].
Qed.

(** Two sectors are never kept at the same place, and none at the place of a parity. *)
Lemma location_inj s s' : 0 ≤ s < total_sectors r → 0 ≤ s' < total_sectors r → location r s = location r s' → s = s'.
Proof using All.
  destruct total_small as [_ Ht]. pose proof Hr as [_ [Hn Hn5] Hlt _ Hs]. rewrite Ht. unfold location. intros Hb Hb'. destruct (level r) eqn:El.
  - destruct (Hs eq_refl) as [Hpos _]. unfold raid0_disk_for_sector, raid0_physical_sector. intros [= E1 E2].
    pose proof (Z.mod_pos_bound s (stripe_size r) Hpos). pose proof (Z.div_mod s (stripe_size r) ltac:(lia)).
    pose proof (Z.mod_pos_bound s' (stripe_size r) Hpos). pose proof (Z.div_mod s' (stripe_size r) ltac:(lia)).
    pose proof (Z.div_mod (s / stripe_size r) n ltac:(lia)). pose proof (Z.div_mod (s' / stripe_size r) n ltac:(lia)).
    assert (∀ x, 0 ≤ x < n * m → 0 ≤ x / stripe_size r / n * stripe_size r + x mod stripe_size r < 2 ^ 32) as Hw.
    { intros x Hx. pose proof (Z.mod_pos_bound x (stripe_size r) Hpos). pose proof (Z.div_mod x (stripe_size r) ltac:(lia)).
      assert (0 ≤ x / stripe_size r) by (apply Z.div_pos; lia). pose proof (Z.div_le_upper_bound (x / stripe_size r) n (x / stripe_size r) ltac:(lia) ltac:(nia)).
      assert (0 ≤ x / stripe_size r / n) by (apply Z.div_pos; lia). nia. }
    rewrite !u32_fits in E2 by (by apply Hw).
    assert (s / stripe_size r / n = s' / stripe_size r / n ∧ s mod stripe_size r = s' mod stripe_size r) as [E3 E4].
    { apply (euclid_unique (stripe_size r)); lia. }
    rewrite E1, E3 in *. congruence.
  - intros [= E]. done.
  - specialize (Hn5 eq_refl). rewrite (raid5_data s El), (raid5_data s' El). cbn zeta. unfold raid5_physical_sector. intros [= E1 E2].
    rewrite E2 in E1. pose proof (Z.div_mod s (n - 1) ltac:(lia)). pose proof (Z.div_mod s' (n - 1) ltac:(lia)).
    assert (s mod (n - 1) = s' mod (n - 1)) by (repeat case_match; lia). congruence.
Qed.

Lemma parity_elsewhere s s' : level r = RAID_LEVEL_5 → raid5_physical_sector r s' = raid5_physical_sector r s →
  raid5_data_disk r s' ≠ raid5_parity_disk r (s / (n - 1)).
Proof using All.
  intros Hl E. rewrite (raid5_data s' Hl). cbn zeta. unfold raid5_physical_sector in E. rewrite E. case_match; lia.
Qed.
End addresses.

(** ** Reads and writes *)

Lemma row_full r k : raid_ok r → 0 ≤ k < min_disk_sectors (disks r) → full (row r k).
Proof. intros Hr Hk. apply Forall_forall. intros d Hd. apply (row_sector r k); [apply Hr|done|]. by apply list_elem_of_In. Qed.

(** Redundancy does not change when the rows do not. *)
Lemma redundant_rows r r' : like r r' → (∀ k, row r' k = row r k) → redundant r → redundant r'.
Proof. intros Hl Hrow H k Hk. rewrite (like_min _ _ Hl) in Hk. rewrite (lk_level _ _ Hl), Hrow. by apply H. Qed.

Lemma contents_rows r r' s : like r r' → (∀ k, row r' k = row r k) → contents r' s = contents r s.
Proof. intros Hl Hrow. unfold contents. by rewrite (like_location _ _ _ Hl), Hrow. Qed.

Lemma locate r s : raid_ok r → 0 ≤ s < total_sectors r →
  ∃ i, fst (location r s) = Z.of_nat i ∧ (i < length (disks r))%nat ∧ 0 ≤ snd (location r s) < min_disk_sectors (disks r).
Proof.
  intros Hr Hs. destruct (location_range r Hr s Hs) as [H1 H2]. exists (Z.to_nat (fst (location r s))).
  unfold num_disks in H1. split; [lia|]. split; [lia|done].
Qed.

Lemma raid_read_run r s : raid_ok r → 0 ≤ s < total_sectors r →
  ∃ r', raid_read s (Some r) = Ret (contents r s, Some r') ∧ like r r' ∧ ∀ k, row r' k = row r k.
Proof.
  intros Hr Hs. destruct (locate r s Hr Hs) as (i & Ei & Hi & Hk).
  destruct (disk_read_run r i (snd (location r s)) ltac:(apply Hr) Hi Hk) as (r' & E & Hl & Hrow). exists r'. split; [|done].
  unfold raid_read. rewrite (st_bind_run _ _ _ _ _ (raid_device_run r)), (lift_run _ _ _ tt) by (by rewrite (proj2 (Z.ltb_lt _ _)) by lia).
  unfold contents. rewrite Ei, Nat2Z.id. rewrite <- Ei in E. rewrite <- E. unfold location. by destruct (level r).
Qed.

(** One disk is written: the sector at that place changes. *)
Lemma contents_written r r' s i d : raid_ok r → like r r' → 0 ≤ s < total_sectors r → fst (location r s) = Z.of_nat i → (i < length (disks r))%nat →
  (∀ k, 0 ≤ k → ∀ j, (k, j) ≠ (snd (location r s), i) → (∃ s', 0 ≤ s' < total_sectors r ∧ location r s' = (Z.of_nat j, k)) →
     row r' k !!! j = row r k !!! j) → row r' (snd (location r s)) !!! i = d →
  ∀ s', 0 ≤ s' < total_sectors r → contents r' s' = if s' =? s then d else contents r s'.
Proof.
  intros Hr Hl Hs Ei Hi Hother Hd s' Hs'. unfold contents. rewrite (like_location _ _ _ Hl). destruct (Z.eqb_spec s' s) as [->|Hne].
  - by rewrite Ei, Nat2Z.id.
  - destruct (locate r s' Hr Hs') as (j & Ej & Hj & Hk). rewrite Ej, Nat2Z.id. apply Hother; [lia| |].
    + intros [= E1 E2]. apply Hne, (location_inj r Hr); [done|done|]. rewrite (surjective_pairing (location r s')), (surjective_pairing (location r s)).
      congruence.
    + exists s'. split; [done|]. by rewrite (surjective_pairing (location r s')), Ej.
Qed.

Lemma raid0_write_run r s d : raid_ok r → level r = RAID_LEVEL_0 → 0 ≤ s < total_sectors r → length d = 512%nat →
  ∃ r', raid_write s d (Some r) = Ret (tt, Some r') ∧ like r r' ∧ ∀ s', 0 ≤ s' < total_sectors r → contents r' s' = if s' =? s then d else contents r s'.
Proof.
  intros Hr El Hs Hd. destruct (locate r s Hr Hs) as (i & Ei & Hi & Hk).
  destruct (disk_write_run r i (snd (location r s)) d ltac:(apply Hr) Hi Hk Hd) as (r' & E & Hl & Hrow). exists r'. split; [|split; [done|]].
  - unfold raid_write. rewrite (st_bind_run _ _ _ _ _ (raid_device_run r)), (lift_run _ _ _ tt) by (by rewrite (proj2 (Z.ltb_lt _ _)) by lia).
    rewrite El. rewrite <- Ei in E. rewrite <- E. unfold location. by rewrite El.
  - apply (contents_written r r' s i); try done.
    + intros k Hk' j Hne _. rewrite Hrow by done. destruct (Z.eqb_spec k (snd (location r s))) as [->|]; [|done].
      apply list_lookup_total_insert_ne. congruence.
    + rewrite Hrow, Z.eqb_refl by lia. apply list_lookup_total_insert_eq. by rewrite length_row.
Qed.

Lemma write_mirrors_run k d n : ∀ i r, Forall wf (disks r) → (i + n = length (disks r))%nat → 0 ≤ k < min_disk_sectors (disks r) → length d = 512%nat →
  ∃ r', write_mirrors n (Z.of_nat i) k d (Some r) = Ret (tt, Some r') ∧ like r r' ∧
    ∀ k', 0 ≤ k' → row r' k' = if k' =? k then take i (row r k) ++ replicate n d else row r k'.
Proof.
  induction n as [|n IH]; intros i r Hw Hn Hk Hd.
  - exists r. split; [done|]. split; [by constructor|]. intros k' _. destruct (Z.eqb_spec k' k) as [->|]; [|done].
    rewrite app_nil_r, take_ge; [done|]. rewrite length_row. lia.
  - destruct (disk_write_run r i k d Hw ltac:(lia) Hk Hd) as (r1 & E1 & Hl1 & Hrow1).
    destruct (IH (S i) r1) as (r2 & E2 & Hl2 & Hrow2); [apply Hl1|rewrite (like_count _ _ Hl1); lia|by rewrite (like_min _ _ Hl1)|done|].
    exists r2. split; [|split; [by eapply like_trans|]].
    + cbn [write_mirrors]. rewrite (st_bind_run _ _ _ _ _ E1). replace (Z.of_nat i + 1) with (Z.of_nat (S i)) by lia. done.
    + intros k' Hk'. rewrite Hrow2 by done. destruct (Z.eqb_spec k' k) as [->|]; [|rewrite Hrow1 by done; by rewrite (proj2 (Z.eqb_neq k' k))].
      rewrite Hrow1, Z.eqb_refl by lia. rewrite (take_S_r _ _ d) by (apply list_lookup_insert_eq; rewrite length_row; lia).
      rewrite take_insert_ge by lia. by rewrite <- (assoc_L (++)).
Qed.

Lemma raid1_write_run r s d : raid_ok r → level r = RAID_LEVEL_1 → 0 ≤ s < total_sectors r → length d = 512%nat →
  ∃ r', raid_write s d (Some r) = Ret (tt, Some r') ∧ like r r' ∧ (redundant r → redundant r') ∧
    ∀ s', 0 ≤ s' < total_sectors r → contents r' s' = if s' =? s then d else contents r s'.
Proof.
  intros Hr El Hs Hd. pose proof (proj2 (total_small r Hr)) as Ht. rewrite El in Ht. pose proof Hr as [Hw [Hn _] _ _ _].
  destruct (write_mirrors_run s d (length (disks r)) 0 r Hw ltac:(lia) ltac:(lia) Hd) as (r' & E & Hl & Hrow). exists r'. split; [|split; [done|split]].
  - unfold raid_write. rewrite (st_bind_run _ _ _ _ _ (raid_device_run r)), (lift_run _ _ _ tt) by (by rewrite (proj2 (Z.ltb_lt _ _)) by lia).
    by rewrite El.
  - intros H k Hk. rewrite (like_min _ _ Hl) in Hk. specialize (H k Hk). rewrite (lk_level _ _ Hl), El in *. rewrite Hrow by lia.
    destruct (Z.eqb_spec k s); [|done]. cbn. by intros x y [-> _]%elem_of_replicate [-> _]%elem_of_replicate.
  - intros s' Hs'. unfold contents, location. rewrite (lk_level _ _ Hl), El. cbn [fst snd]. rewrite Hrow by lia.
    destruct (Z.eqb_spec s' s); [|done]. cbn. apply lookup_total_replicate_2. unfold num_disks in Hn. lia.
Qed.

(** The read-modify-write of data and parity. *)
Lemma raid5_write_rows r s d : raid_ok r → level r = RAID_LEVEL_5 → 0 ≤ s < total_sectors r → length d = 512%nat → ∃ i p r',
  fst (location r s) = Z.of_nat i ∧ raid5_parity_disk r (s / (num_disks r - 1)) = Z.of_nat p ∧
  (i < length (disks r))%nat ∧ (p < length (disks r))%nat ∧ i ≠ p ∧
  raid_write s d (Some r) = Ret (tt, Some r') ∧ like r r' ∧ let k := snd (location r s) in let l := row r k in
  ∀ k', 0 ≤ k' → row r' k' = if k' =? k then <[p := xor_bytes (xor_bytes (l !!! p) (l !!! i)) d]> (<[i := d]> l) else row r k'.
Proof.
  intros Hr El Hs Hd. pose proof (ro_disks _ Hr) as Hw. destruct (locate r s Hr Hs) as (i & Ei & Hi & Hk).
  destruct (raid5_parity r Hr (s / (num_disks r - 1))) as [_ Hp0]. pose proof (parity_elsewhere r Hr s s El eq_refl) as Hne.
  assert (location r s = (raid5_data_disk r s, raid5_physical_sector r s)) as Eloc by (unfold location; by rewrite El).
  rewrite Eloc in Ei, Hk |- *. cbn [fst snd] in *. set (k := raid5_physical_sector r s) in *.
  set (p := Z.to_nat (raid5_parity_disk r (s / (num_disks r - 1)))). assert (raid5_parity_disk r (s / (num_disks r - 1)) = Z.of_nat p) as Ep by (unfold p; lia).
  assert (p < length (disks r))%nat as Hp by (rewrite Ep in Hp0; unfold num_disks in Hp0; lia). assert (i ≠ p) as Hip by congruence.
  pose proof (row_full r k Hr Hk) as Hf.
  assert (∀ j, (j < length (disks r))%nat → length (row r k !!! j) = 512%nat) as Hlen.
  { intros j Hj. destruct (lookup_lt_is_Some_2 (row r k) j) as [e He]; [by rewrite length_row|]. rewrite (list_lookup_total_correct _ _ _ He).
    by apply (Forall_lookup_1 _ _ _ _ Hf He). }
  destruct (disk_read_run r i k Hw Hi Hk) as (r1 & E1 & L1 & R1). pose proof (like_count _ _ L1) as C1. pose proof (like_min _ _ L1) as M1.
  destruct (disk_read_run r1 p k) as (r2 & E2 & L2 & R2); [apply L1|by rewrite C1|by rewrite M1|]. pose proof (like_count _ _ L2) as C2. pose proof (like_min _ _ L2) as M2.
  destruct (disk_write_run r2 i k d) as (r3 & E3 & L3 & R3); [apply L2|by rewrite C2, C1|by rewrite M2, M1|done|]. pose proof (like_count _ _ L3) as C3. pose proof (like_min _ _ L3) as M3.
  set (np := xor_bytes (xor_bytes (row r k !!! p) (row r k !!! i)) d).
  destruct (disk_write_run r3 p k np) as (r4 & E4 & L4 & R4); [apply L3|by rewrite C3, C2, C1|by rewrite M3, M2, M1|unfold np; apply xor_bytes_length; [apply xor_bytes_length; by apply Hlen|done]|].
  exists i, p, r4. repeat (split; [done|]). split; [|split; [apply (like_trans r r1), (like_trans r1 r2), (like_trans r2 r3); done|]].
  - unfold raid_write. rewrite (st_bind_run _ _ _ _ _ (raid_device_run r)), (lift_run _ _ _ tt) by (by rewrite (proj2 (Z.ltb_lt _ _)) by lia).
    rewrite El. cbn zeta. fold k. rewrite Ei, Ep, (st_bind_run _ _ _ _ _ E1), (st_bind_run _ _ _ _ _ E2), (st_bind_run _ _ _ _ _ E3), R1. exact E4.
  - cbn zeta. intros k' Hk'. rewrite R4 by done. destruct (Z.eqb_spec k' k) as [->|Hkk].
    + by rewrite R3, Z.eqb_refl, R2, R1 by lia.
    + by rewrite R3, (proj2 (Z.eqb_neq k' k)), R2, R1 by done.
Qed.

Lemma raid5_write_run r s d : raid_ok r → level r = RAID_LEVEL_5 → 0 ≤ s < total_sectors r → length d = 512%nat →
  ∃ r', raid_write s d (Some r) = Ret (tt, Some r') ∧ like r r' ∧ (redundant r → redundant r') ∧
    ∀ s', 0 ≤ s' < total_sectors r → contents r' s' = if s' =? s then d else contents r s'.
Proof.
  intros Hr El Hs Hd. destruct (raid5_write_rows r s d Hr El Hs Hd) as (i & p & r' & Ei & Ep & Hi & Hp & Hip & E & Hl & Hrow).
  cbn zeta in Hrow. destruct (locate r s Hr Hs) as (_ & _ & _ & Hk). set (k := snd (location r s)) in *.
  assert (1 < length (disks r))%nat as Hn by (pose proof (ro_count _ Hr); unfold num_disks in *; lia).
  exists r'. split; [done|]. split; [done|]. split.
  - intros H k' Hk'. rewrite (like_min _ _ Hl) in Hk'. specialize (H k' Hk'). rewrite (lk_level _ _ Hl), El in *.
    pose proof (row_full r k' Hr Hk') as Hf. assert (full (row r' k')) as Hf'.
    { apply (row_full r'); [by apply (like_ok r)|by rewrite (like_min _ _ Hl)]. }
    pose proof (proj1 (recoverable (row r k') Hf ltac:(by rewrite length_row)) H) as H0.
    apply (proj2 (recoverable (row r' k') Hf' ltac:(by rewrite length_row, (like_count _ _ Hl)))).
    intros j Hj. rewrite Hrow by lia. destruct (Z.eqb_spec k' k) as [->|]; [|by apply H0].
    rewrite parity_update; [by apply H0|done| | |done|done|done]; by rewrite length_row.
  - apply (contents_written r r' s i); try done.
    + intros k' Hk' j Hne (s' & Hs' & El'). rewrite Hrow by done. destruct (Z.eqb_spec k' k) as [->|]; [|done].
      assert (j ≠ i) by (intros ->; by apply Hne). rewrite !list_lookup_total_insert_ne; [done|done|]. intros <-.
      unfold location in El'. rewrite El in El'. injection El' as E1 E2.
      apply (parity_elsewhere r Hr s s' El); [|congruence]. rewrite E2. unfold k, location. by rewrite El.
    + fold k. rewrite Hrow, Z.eqb_refl by lia. rewrite list_lookup_total_insert_ne by done. apply list_lookup_total_insert_eq. by rewrite length_row.
Qed.

(** C25. At every level the array is one disk with [total_sectors r] sectors.  A read returns the
    contents of its sector and changes nothing; a write of a sector changes the contents of that
    sector and of no other.  Both keep what the level promises: equal mirrors, and data that is
    the parity of the other disks' data in the same row, whichever disk is lost. *)
Theorem raid_is_one_disk r s d (Hr : raid_ok r) (Hs : 0 ≤ s < total_sectors r) (Hd : length d = 512%nat) :
  (∃ r', raid_read s (Some r) = Ret (contents r s, Some r') ∧ raid_ok r' ∧ (redundant r → redundant r') ∧ ∀ s', contents r' s' = contents r s') ∧
  (∃ r', raid_write s d (Some r) = Ret (tt, Some r') ∧ raid_ok r' ∧ (redundant r → redundant r') ∧
     ∀ s', 0 ≤ s' < total_sectors r → contents r' s' = if s' =? s then d else contents r s').
Proof.
  split.
  - destruct (raid_read_run r s Hr Hs) as (r' & E & Hl & Hrow). exists r'. split; [done|]. split; [by apply (like_ok r)|].
    split; [by apply redundant_rows|]. intros s'. by apply contents_rows.
  - destruct (level r) eqn:El.
    + destruct (raid0_write_run r s d Hr El Hs Hd) as (r' & E & Hl & Hc). exists r'. split; [done|]. split; [by apply (like_ok r)|].
      split; [|done]. intros _ k _. by rewrite (lk_level _ _ Hl), El.
    + destruct (raid1_write_run r s d Hr El Hs Hd) as (r' & E & Hl & H). exists r'. split; [done|]. split; [by apply (like_ok r)|done].
    + destruct (raid5_write_run r s d Hr El Hs Hd) as (r' & E & Hl & H). exists r'. split; [done|]. split; [by apply (like_ok r)|done].
Qed.

(** [raid_init] makes such an array of disks of a common size, if the stripe divides it. *)
Lemma raid_init_ok lv stripe found o : Forall (λ b, wf b) (omap usable found) → (length found ≤ 4)%nat →
  4 * min_disk_sectors (omap usable found) < 2 ^ 32 → (lv = RAID_LEVEL_0 → 0 < stripe ∧ (stripe | min_disk_sectors (omap usable found))) →
  raid_init true lv stripe found o = Panic ∨ ∃ r, raid_init true lv stripe found o = Ret (tt, Some r) ∧ raid_ok r.
Proof.
  intros Hw Hf Hm Hs. unfold raid_init. cbn [negb]. set (l := omap usable found) in *.
  assert (length l ≤ 4)%nat as Hn. { etrans; [|exact Hf]. unfold l. clear. induction found as [|x f IH]; cbn; [lia|]. destruct (usable x); cbn; lia. }
  destruct (Z.ltb_spec (Z.of_nat (length l)) 2) as [|H2]; [by left|]. case_match eqn:E3; [by left|right].
  eexists. split; [done|]. pose proof (min_disk_sectors_nonneg l). constructor; cbn [disks level total_sectors stripe_size]; unfold num_disks; cbn [disks].
  - done.
  - split; [lia|]. intros ->. rewrite bool_decide_eq_true_2 in E3 by done. cbn in E3. apply Z.ltb_ge in E3. done.
  - nia.
  - done.
  - intros E. destruct (Hs E) as [H1 H4]. by rewrite (proj2 (Z.ltb_lt 0 stripe)).
Qed.

(** *** Concrete arrays *)

Definition demo_disk (n : nat) : block := mk_block BLOCK_RAW (replicate n (replicate 512 0)) 0 0.
Definition demo_array (lv : raid_level) (stripe : Z) (disks sectors : nat) : option raid_config :=
  match raid_init true lv stripe (replicate disks (Some (demo_disk sectors))) None with Ret (_, o) => o | _ => None end.

Lemma demo_array_ok : ∃ r, demo_array RAID_LEVEL_5 1 3 2 = Some r ∧ raid_ok r ∧ total_sectors r = 4.
Proof.
  destruct (raid_init_ok RAID_LEVEL_5 1 (replicate 3 (Some (demo_disk 2))) None) as [E|(r & E & Hr)];
    [|by cbn; lia|by vm_compute|done|by vm_compute in E|].
  - cbn. repeat constructor; done.
  - exists r. unfold demo_array. rewrite E. split; [done|]. split; [done|]. vm_compute in E. injection E as <-. reflexivity.
Qed.

Lemma raid_is_one_disk_witness : ∃ r r', demo_array RAID_LEVEL_5 1 3 2 = Some r ∧ raid_write 3 (replicate 512 7) (Some r) = Ret (tt, Some r') ∧
  contents r' 3 = replicate 512 7.
Proof.
  destruct demo_array_ok as (r & E & Hr & Ht). destruct (raid_is_one_disk r 3 (replicate 512 7)) as [_ (r' & E' & _ & _ & Hc)];
    [done|lia|reflexivity|]. exists r, r'. split; [done|]. split; [done|]. rewrite (Hc 3) by lia. reflexivity.
Defined.

(** The last sectors of an array whose disks are not a multiple of the stripe long lie past the
    end of a disk. *)
Lemma raid0_tail_panics : (raid_size (demo_array RAID_LEVEL_0 2 2 3) = Ret (6, demo_array RAID_LEVEL_0 2 2 3)) ∧
  raid_read 5 (demo_array RAID_LEVEL_0 2 2 3) = Panic.
Proof. split; vm_compute; reflexivity. Qed.
End Raid.

(** ** [devices/partition.c] *)

Module Partition.
Import Block.

Record partition := mk_partition { start : Z; p_type : block_type; size : Z; number : Z }.

(** The device, the number of partitions so far, what [block_register] was given, and how many
    calls of [malloc] will still succeed. *)
Record scan := mk_scan { device : block; part_nr : Z; registered : list partition; memory : nat }.

Abbreviation S := (st scan).

Definition malloc : S unit := λ s,
  match memory s with O => Panic | Datatypes.S n => Ret (tt, mk_scan (device s) (part_nr s) (registered s) n) end.
Definition free : S unit := λ s, Ret (tt, mk_scan (device s) (part_nr s) (registered s) (Datatypes.S (memory s))).
Definition read_sector (sector : Z) : S (list Z) := λ s,
  '(buffer, b) ← block_read (device s) sector; Ret (buffer, mk_scan b (part_nr s) (registered s) (memory s)).
Definition next_part_nr : S Z := λ s,
  Ret (part_nr s + 1, mk_scan (device s) (part_nr s + 1) (registered s) (memory s)).
Definition block_register (p : partition) : S unit := λ s,
  Ret (tt, mk_scan (device s) (part_nr s) (registered s ++ [p]) (memory s)).
Definition device_size : S Z := λ s, Ret (block_size (device s), s).

Record partition_table_entry := mk_entry { e_type : Z; e_offset : Z; e_size : Z }.

Definition table_entry (pt : list Z) (i : nat) : partition_table_entry :=
  let e := drop (446 + 16 * i) pt in
  mk_entry (e !!! 4%nat) (le_val (take 4 (drop 8 e))) (le_val (take 4 (drop 12 e))).
Definition partitions (pt : list Z) : list partition_table_entry := table_entry pt <$> seq 0 4.
Definition signature (pt : list Z) : Z := le_val (take 2 (drop 510 pt)).

Definition is_extended (ty : Z) : bool := (ty =? 0x05) || (ty =? 0x0f) || (ty =? 0x85) || (ty =? 0xc5).

Definition type_of (part_type : Z) : block_type :=
  if part_type =? 0x20 then BLOCK_KERNEL else if part_type =? 0x21 then BLOCK_FILESYS
  else if part_type =? 0x22 then BLOCK_SCRATCH else if part_type =? 0x23 then BLOCK_SWAP else BLOCK_FOREIGN.

Definition found_partition (part_type start size part_nr : Z) : S unit :=
  n ← device_size;
  if n <=? start then mret tt
  else if (u32 (start + size) <? start) || (n <? u32 (start + size)) then mret tt
  else malloc;; block_register (mk_partition start (type_of part_type) size part_nr).

(** The loop over the entries; [rec] is the recursive call. *)
Fixpoint parse_partitions (rec : Z → Z → S unit) (sector primary_extended_sector : Z) (l : list partition_table_entry) : S unit :=
  match l with
  | [] => mret tt
  | e :: l =>
      (if (e_size e =? 0) || (e_type e =? 0) then mret tt
       else if is_extended (e_type e) then
         if sector =? 0 then rec (e_offset e) (e_offset e)
         else rec (u32 (e_offset e + primary_extended_sector)) primary_extended_sector
       else nr ← next_part_nr; found_partition (e_type e) (u32 (e_offset e + sector)) (e_size e) nr);;
      parse_partitions rec sector primary_extended_sector l
  end.

#[local] Arguments partitions : simpl never.
#[local] Arguments signature : simpl never.

(** [n] bounds the depth of the recursion. *)
Fixpoint read_partition_table (n : nat) (sector primary_extended_sector : Z) : S unit :=
  match n with
  | O => lift Blocked
  | Datatypes.S n =>
      z ← device_size;
      if z <=? sector then mret tt else
      malloc;;
      pt ← read_sector 0;
      if negb (signature pt =? 0xaa55) then free else
      parse_partitions (read_partition_table n) sector primary_extended_sector (partitions pt);;
      free
  end.

Definition partition_scan (n : nat) : S unit := read_partition_table n 0 0.

Definition partition_read (p : partition) (sector : Z) : S (list Z) := read_sector (u32 (start p + sector)).
Definition partition_write (p : partition) (sector : Z) (buffer : list Z) : S unit := λ s,
  b ← block_write (device s) (u32 (start p + sector)) buffer; Ret (tt, mk_scan b (part_nr s) (registered s) (memory s)).

(** ** Registered partitions lie in the device *)

Definition in_device (b : block) (p : partition) : Prop := 0 ≤ start p ∧ 0 ≤ size p ∧ start p + size p ≤ block_size b.

Definition scanned (b : block) (s : scan) : Prop :=
  sectors (device s) = sectors b ∧ Forall (in_device b) (registered s).

Lemma scanned_bind {A B} b (m : S A) (f : A → S B) : hoare (scanned b) m (λ _, scanned b) → (∀ a, hoare (scanned b) (f a) (λ _, scanned b)) →
  hoare (scanned b) (m ≫= f) (λ _, scanned b).
Proof. intros. by eapply hoare_bind. Qed.

Lemma pure_pre {A} (φ : Prop) (P : scan → Prop) (m : S A) (Q : A → scan → Prop) : (φ → hoare P m Q) → hoare (λ s, φ ∧ P s) m Q.
Proof. intros H s a s' [Hφ Hs]. by apply H. Qed.

Lemma malloc_scanned b : hoare (scanned b) malloc (λ _, scanned b).
Proof. intros s a s' Hs E. unfold malloc in E. destruct (memory s); [done|]. by injection E as _ <-. Qed.

Lemma read_sector_scanned b k : Forall (Forall is_byte) (sectors b) →
  hoare (scanned b) (read_sector k) (λ pt s, Forall is_byte pt ∧ scanned b s).
Proof.
  intros Hb s a s' [H1 H2] E. unfold read_sector in E. apply bind_Ret in E as ([d c] & E & E'). injection E' as -> <-.
  unfold block_read in E. apply bind_Ret in E as (? & _ & E). apply bind_Ret in E as (d' & E' & E). injection E as <- <-.
  apply array_get_Ret in E' as [_ E']. rewrite H1 in E'. split; [by apply (Forall_lookup_1 _ _ _ _ Hb E')|by split].
Qed.

(** A 32-bit unsigned field of an entry. *)
Definition entry_ok (e : partition_table_entry) : Prop := 0 ≤ e_size e < 2 ^ 32.

Lemma partitions_ok pt : Forall is_byte pt → Forall entry_ok (partitions pt).
Proof.
  intros H. apply Forall_fmap, Forall_true. intros i. unfold entry_ok. cbn [e_size table_entry compose].
  set (l := take 4 _). assert (Forall is_byte l) as Hl by (by repeat (apply Forall_take || apply Forall_drop)).
  pose proof (le_val_bound l Hl). assert (length l ≤ 4)%nat as Hn by (unfold l; rewrite length_take; lia).
  pose proof (Z.pow_le_mono_r 256 (Z.of_nat (length l)) 4 ltac:(lia) ltac:(lia)). change (256 ^ 4) with (2 ^ 32) in *. lia.
Qed.

Lemma found_partition_scanned b ty a sz nr : 0 ≤ a < 2 ^ 32 → 0 ≤ sz < 2 ^ 32 → hoare (scanned b) (found_partition ty a sz nr) (λ _, scanned b).
Proof.
  intros Ha Hsz s x s' Hs E. pose proof Hs as [H1 H2]. unfold found_partition in E. rewrite st_bind_unfold in E. cbn in E.
  destruct (Z.leb_spec (block_size (device s)) a); [by injection E as _ <-|]. case_match eqn:Ec; [by injection E as _ <-|].
  rewrite st_bind_unfold in E. unfold malloc in E. destruct (memory s); [done|]. cbn in E. injection E as _ <-. split; [done|].
  cbn. apply Forall_app. split; [done|]. apply Forall_singleton. apply orb_false_iff in Ec as [E1%Z.ltb_ge E2%Z.ltb_ge].
  unfold in_device. cbn. assert (block_size (device s) = block_size b) as Eb by (unfold block_size; by rewrite H1). rewrite Eb in *.
  unfold wrap in E1, E2. split; [lia|]. split; [lia|]. destruct (Z_lt_le_dec (a + sz) (2 ^ 32)).
  - rewrite Z.mod_small in E2 by lia. lia.
  - replace (a + sz) with (a + sz - 2 ^ 32 + 1 * 2 ^ 32) in E1 by lia. rewrite Z_mod_plus_full, Z.mod_small in E1 by lia. lia.
Qed.

(** Whatever the tables say, every partition that is registered lies in the device. *)
Lemma partition_scan_in_device b n sector primary : Forall (Forall is_byte) (sectors b) →
  hoare (scanned b) (read_partition_table n sector primary) (λ _, scanned b).
Proof.
  intros He. revert sector primary. induction n as [|n IH]; intros sector primary; [by intros s a s' _ E|]. cbn [read_partition_table].
  apply scanned_bind; [by intros s a s' Hs [= _ <-]|]. intros z. case_match; [apply hoare_ret|]. apply scanned_bind; [apply malloc_scanned|].
  intros _. eapply hoare_bind; [by apply read_sector_scanned|]. intros pt. apply pure_pre. intros Hpt. assert (hoare (scanned b) free (λ _, scanned b)) as Hf by by intros s a s' Hs [= _ <-].
  case_match; [done|]. apply scanned_bind; [|by intros _]. pose proof (partitions_ok pt Hpt) as Hpe. induction Hpe as [|e l [Hsz1 Hsz2] _ IHl]; [apply hoare_ret|].
  cbn [parse_partitions]. apply scanned_bind; [|by intros _]. apply hoare_if; [apply hoare_ret|]. apply hoare_if; [by apply hoare_if|].
  apply scanned_bind; [by intros s a s' Hs [= _ <-]|]. intros nr. apply found_partition_scanned; [|done].
  unfold wrap. apply Z.mod_pos_bound. lia.
Qed.

(** ** Extended partitions *)

(** The table read is always that of sector 0: with an extended partition whose sector and its
    double are on the device, the recursion does not end. *)
Lemma extended_never_ends n : ∀ b nr l m e rest sector p, 0 ≤ sector < block_size b → signature (sector_of b 0) = 0xaa55 →
  partitions (sector_of b 0) = e :: rest → e_size e ≠ 0 → is_extended (e_type e) = true → p = e_offset e → 0 < p → 2 * p < block_size b → p + p < 2 ^ 32 →
  (sector = 0 ∨ sector = p ∨ sector = 2 * p) → ∀ primary, primary = p ∨ sector = 0 →
  read_partition_table n sector primary (mk_scan b nr l m) = Blocked ∨ read_partition_table n sector primary (mk_scan b nr l m) = Panic.
Proof.
  induction n as [|n IH]; intros b nr l m e rest sector p Hs Hsig He Hsz Hx Hp Hp0 Hp1 Hp2 Hsec primary Hpr; [by left|].
  cbn [read_partition_table]. rewrite st_bind_unfold. cbn. rewrite (proj2 (Z.leb_gt _ _)) by lia. rewrite st_bind_unfold. unfold malloc.
  cbn. destruct m as [|m]; [by right|]. cbn. destruct (block_read_spec b 0 ltac:(lia)) as (b' & E & Es & Et).
  rewrite st_bind_unfold. unfold read_sector. cbn. rewrite E. cbn. rewrite Hsig. cbn. rewrite !st_bind_unfold. rewrite He. cbn [parse_partitions].
  rewrite !st_bind_unfold. rewrite (proj2 (Z.eqb_neq _ _) Hsz). assert ((e_type e =? 0) = false) as ->.
  { destruct (Z.eqb_spec (e_type e) 0) as [E0|]; [|done]. by rewrite E0 in Hx. }
  cbn. rewrite Hx. assert (block_size b' = block_size b ∧ sector_of b' 0 = sector_of b 0) as [Eb E0] by (unfold block_size, sector_of; by rewrite Es).
  set (r := if sector =? 0 then _ else _). assert (r (mk_scan b' nr l m) = Blocked ∨ r (mk_scan b' nr l m) = Panic) as H.
  { unfold r. destruct (Z.eqb_spec sector 0) as [->|Hn0].
    - apply (IH b' nr l m e rest (e_offset e) p); rewrite ?Eb, ?E0; try done; [lia|right; left; lia|left; lia].
    - destruct Hpr as [->|?]; [|done]. assert (u32 (e_offset e + p) = 2 * p) as -> by (unfold wrap; rewrite Z.mod_small; lia).
      apply (IH b' nr l m e rest (2 * p) p); rewrite ?Eb, ?E0; try done; [lia|right; by right|by left]. }
  by destruct H as [-> | ->]; [left|right].
Qed.

(** A device of 8 sectors whose only partition is an extended one at sector 1. *)
Definition demo_table : list Z :=
  replicate 446 0 ++ [0; 0; 0; 0; 5; 0; 0; 0; 1; 0; 0; 0; 1; 0; 0; 0] ++ replicate 48 0 ++ [0x55; 0xaa].

Lemma extended_demo n : partition_scan n (mk_scan (mk_block BLOCK_RAW (demo_table :: replicate 7 (replicate 512 0)) 0 0) 0 [] 100) = Blocked ∨
  partition_scan n (mk_scan (mk_block BLOCK_RAW (demo_table :: replicate 7 (replicate 512 0)) 0 0) 0 [] 100) = Panic.
Proof.
  eapply (extended_never_ends n _ 0 [] 100 (mk_entry 5 1 1) _ 0 1); try (vm_compute; reflexivity); try lia; try by vm_compute.
Qed.
End Partition.
